(* ===== verification/_CoqProject ===== *)
-Q . S2P
Prelude.v
CLib.v
Menu.v
Printf.v
Heap.v
Vfs.v
VfsSpec.v
VfsNames.v
SynchCreate.v
Bitmap.v
Coremap.v
AddrSpace.v
ThreadList.v
Synch.v
SynchSpec.v
Traffic.v
Array.v
Queue.v
Kmalloc.v
KmallocSpec.v
Proc.v
ProcSpec.v
LongLong.v
LongLongSpec.v
Uio.v
Exec.v
ExecSpec.v
Disk.v
Sfs.v
SfsFile.v
SfsIo.v
SfsSpec.v
SfsDir.v
UMalloc.v
UMallocSpec.v
Sched.v
SchedSpec.v
Migration.v
Mksfs.v
MksfsSpec.v
Trap.v
Console.v
