(* ===== verification/Prelude.v ===== *)
(** * A verification development for the OS/161 1.99 kernel

    OS/161 is a teaching kernel for a MIPS machine.  This library models the
    memory system, the scheduler, the synchronisation primitives, traps and
    system calls, the process system calls, the loading of programs, the virtual
    file system, the simple file system and the disk driver under it, the
    console, the kernel menu, formatted output, the data structures, the string
    functions and the 64-bit arithmetic of the kernel under src/, built as
    kern/conf does for the third assignment (OPT_A1, OPT_A2, OPT_A3, dumbvm, UW);
    and, of the programs that run on it, the allocator of the C library and the
    program that formats a disk.

    ** How the code is represented

    C code that can fail is a function in the monad [M S A] of this file: from
    a state to [Ret] of a result and a state, [Panic] (a failing KASSERT or a
    call of panic), [Fault] (an access outside of an object) or [NoFuel] (a
    loop bound was exhausted).  Machine words are integers in [Z], with the
    wrap-around to their width written out.  Bytes are integers below 256.
    Code whose order of accesses matters between threads is a list of single
    accesses ([Synch]) or of pieces ([Proc], [Sched]) that a step relation
    interleaves.
    What one part needs of another is a type class: the page allocator of the
    heap ([KPages]), the heap of its clients ([KHeap]), the registers and
    sectors of the disk card ([DiskHW]), the block device of a file system
    ([BlockDev]), the file systems under the VFS layer ([FileSystems]), the
    address spaces and files of the program loader ([Images]), the output
    function of the formatter ([sink]), the parts that the menu calls
    ([subsystems]), the handlers behind the trap code ([Kernel]), the memory
    and the break of a program ([Process]) and the file that mksfs writes
    ([DiskFile]); each has an instance that implements it, so that the theorems
    that use it can be evaluated.

    ** The parts and where they are modelled

    - [Prelude]: outcomes, the monad, loops, tactics and generic lemmas.
    - [CLib]: the memory and string functions of common/libc/string and atoi,
      on a memory of mapped bytes.
    - [Printf]: common/libc/printf (__printf.c and snprintf.c).
    - [Menu]: the command line of kern/startup/menu.c, on [CLib].
    - [Heap]: what kmalloc promises to its callers ([KHeap]).  [Kmalloc] and
      [KmallocSpec]: kern/vm/kmalloc.c, and that it keeps the promise.
    - [Vfs]: kern/vfs (vfslist.c, vfslookup.c, vfspath.c, vfscwd.c, vnode.c)
      over any file systems.  [VfsSpec] holds a logic of references to vnodes
      and the theorem on them, [VfsNames] the table of device names.
    - [Synch]: kern/thread/synch.c, the wait channels of thread.c and
      spinlock.c, as sequences of accesses under any interleaving; [SynchSpec]
      holds the invariant and the theorems.  [SynchCreate]: creation and
      destruction of the objects, over a heap.
    - [Sched]: kern/thread/thread.c (threads, run queues, wait channels,
      interprocessor interrupts, migration), hardclock of clock.c and
      mainbus_interrupt of lamebus_machdep.c, for any number of processors
      whose steps interleave, over a heap.  A processor's place in the code is
      the field [c_ctl]; the labels of a step are what its code or an interrupt
      does next.  [SchedSpec] and [Migration] hold the invariant and the
      theorems.
    - [Trap]: mips_trap and its parts (kern/arch/mips/locore/trap.c), the
      dispatch of system calls (kern/arch/mips/syscall/syscall.c), interrupt
      levels (kern/thread/spl.c) and the system call stub of the C library.
    - [Console]: kern/dev/generic/console.c, and write of
      kern/syscall/file_syscalls.c through device.c to it, on [Uio].
    - [UMalloc], [UMallocSpec]: user/lib/libc/stdlib/malloc.c.
    - [Mksfs], [MksfsSpec]: user/sbin/mksfs (mksfs.c and disk.c), and that [Sfs]
      mounts what it writes.
    - [Traffic]: the intersection of kern/synchprobs (traffic.c and
      traffic_synch.c, built for the first assignment), a client of [Synch].
    - [Bitmap], [Array], [Queue]: kern/lib/bitmap.c, array.c and queue.c.
    - [ThreadList]: kern/thread/threadlist.c, at the level of its pointers.
    - [Coremap]: kern/arch/mips/vm/ram.c and the page allocator of dumbvm.c.
      [AddrSpace]: the address spaces and the fault handler of dumbvm.c, on
      top of [Coremap] and a heap.
    - [Proc], [ProcSpec]: kern/proc/proc.c, fork, _exit, waitpid and getpid of
      kern/syscall/proc_syscalls.c, and the part of kern/startup/menu.c that
      starts a program and waits for it.
    - [Exec], [ExecSpec]: kern/syscall/loadelf.c, runprogram.c and the system
      call execv, on [Uio] and a heap.
    - [LongLong], [LongLongSpec]: common/gcc-millicode.
    - [Uio]: kern/vm/copyinout.c and kern/lib/uio.c.
    - [Disk]: kern/dev/lamebus/lhd.c, on [Uio].
    - [Sfs]: kern/fs/sfs (sfs_io.c, sfs_fs.c, sfs_vnode.c) with the reference
      counts of its vnodes and the big lock, on [Uio], [Bitmap], [Array] and
      a block device.  [SfsFile], [SfsIo], [SfsSpec] and [SfsDir] hold its
      invariant and theorems.

    Definitions keep the names of the C functions.  A long function is cut into
    definitions named after what the piece does ([bmap_direct], [exit_mark]).

    ** What the theorems show

    - Refinement: the heap, the coremap, thread lists, arrays, queues and SFS
      directories behave, for every sequence of operations, as an abstract heap
      of disjoint blocks, a map of page runs, sequences, lists and finite maps;
      __vprintf sends what a format means, and the menu runs the commands that
      a line means.  The user-level heap is a run of blocks with first fit,
      splitting and merging; the input of the console is a queue; and the trap
      code treats a fault as its specification says.
    - Functional correctness: vm_fault, as_copy, the construction of an address
      space, bitmap_alloc, sfs_read and sfs_write, memmove, the lookup of
      device names and the addition of a device, the loading of an executable
      and execv, on their normal and error returns; atoi reads back what
      snprintf prints, and execv what a program start has put on the stack.
      A system call through the C library returns what its handler returns,
      fork returns twice, an interrupt leaves no trace in the thread it
      interrupts, write sends the bytes of the user to the console and a read
      from it returns a line.
    - Composition: a disk that mksfs has formatted is mounted by [Sfs] with an
      empty root directory that satisfies the invariants of the file system.
    - Equivalence: uiomove with a transfer byte by byte, and the 64-bit
      routines, division included, with the operations on integers.
    - Resources: over any sequence of calls of the VFS layer and whatever the
      file systems answer, no assertion fails and every vnode has exactly the
      references of its holders; snprintf stays in its buffer and the copies
      between the kernel and a process in their regions.
    - Scheduling: under every interleaving of any number of processors no
      assertion fails, every thread is in exactly one place, an idle processor
      with work is interrupted and runs it, and migration balances the run
      queues.
    - Concurrency: under every interleaving, no assertion of the semaphores,
      locks, condition variables and wait channels fails for clients that
      follow the rules of use, a lock has one holder, no wakeup is lost, the
      spinlocks do not deadlock, and a thread between giving up a lock and
      sleeping in cv_wait is not missed; the vehicles of the intersection follow
      the rules and are not stranded.  For the process calls, no assertion
      fails except in two stated situations, waitpid reports the code of the
      child, and a sleeper in waitpid has a child that will wake it.
    - Defects: several theorems exhibit behaviour that the code does not
      intend (vehicles that collide, a process table that overflows, a failed
      disk write that is reported as done, alloc_kpages returning a non-null
      address when memory is exhausted, a copied address space with writable
      text, an execv that stops the kernel on a bad pointer, a failing execv
      that panics, a huge malloc that shrinks the heap, an interprocessor
      interrupt that is lost, ...).

    ** Bounds

    Loops over a counter run as many times as the C loop.  The others carry
    fuel, and the theorems prove that it is not exhausted: scans of the coremap
    get one more than the number of frames, alignment to a page 4096 steps,
    walks of the page lists of kmalloc one more than the number of page
    descriptors and of a free list one more than the blocks of a page, growth
    by doubling 40 (arrays) and 33 (queues) rounds for 32-bit sizes, uiomove
    the number of bytes plus the number of regions plus one, the loops of
    the division the bounds of its digits, loops over a string one more than
    the number of mapped bytes, the words of a command two more than its
    arguments, the digits of a number 64 rounds, the search of the user-level
    malloc one more than the blocks that fit in its heap, a write of mksfs the
    bytes of a block plus the interruptions that the file has left, and a
    console transfer one more than its bytes.  The buffer for a number has the
    23 bytes of the C one, and the theorem shows that they are enough.

    ** Not modelled

    - The saving and restoring of registers in a context switch or a trap, the
      start of secondary processors and the other assembly of kern/arch/mips:
      they depend on the machine.  [Sched] has the structure around a context
      switch, [Trap] that around a trap frame.  In [Synch] a spinlock belongs to
      the thread that its processor runs, and in [Sched] what runs under the
      spinlock of a run queue is one step.  In [Proc] threads interleave between
      the pieces of a system call; in [Sfs] and [Vfs] operations do not, since
      they run under the big lock; in [Disk] a request is one step, and in
      [Console] a transfer under its lock.
    - The interleaving of execv and of program loading with other threads:
      in [Proc] runprogram is one step that takes the result of loading as an
      input, and [Exec] runs each call on its own.
    - kprintf and panic, which lock the console around __vprintf; the other
      operations of device vnodes, the host file system emu.c, the drivers other
      than the disk and the console, and the time call.
    - Boot, the menu's dialogue, kernel tests and the cat and mouse exercise,
      the other user programs and the build system. *)

From stdpp Require Import base numbers list gmap.
From Stdlib Require Import ZArith Lia.

#[global] Open Scope Z_scope.

(** ** Outcomes of kernel code

    A kernel routine either returns, or stops the machine ([Panic]: a failed
    [KASSERT] or a call of [panic]), or makes an access outside of an object
    ([Fault]: undefined behaviour of C), or, for a loop that is run with a
    bound on its iterations, exhausts the bound ([NoFuel]). *)
Inductive outcome (A : Type) : Type :=
  | Ret (a : A)
  | Panic
  | Fault
  | NoFuel.
Arguments Ret {A} a.
Arguments Panic {A}.
Arguments Fault {A}.
Arguments NoFuel {A}.

(** Kernel code that reads and writes a state of type [S]. *)
Definition M (S A : Type) : Type := S -> outcome (A * S).

Section monad.
Context {S : Type}.

Definition ret {A} (a : A) : M S A := fun s => Ret (a, s).

Definition bind {A B} (m : M S A) (k : A -> M S B) : M S B :=
  fun s => match m s with
           | Ret (a, s') => k a s'
           | Panic => Panic
           | Fault => Fault
           | NoFuel => NoFuel
           end.

Definition get : M S S := fun s => Ret (s, s).
Definition put (s' : S) : M S unit := fun _ => Ret (tt, s').
Definition gets {A} (f : S -> A) : M S A := fun s => Ret (f s, s).
Definition modify (f : S -> S) : M S unit := fun s => Ret (tt, f s).
Definition panic {A} : M S A := fun _ => Panic.
Definition fault {A} : M S A := fun _ => Fault.

(** [KASSERT(b)] and a pure result that may itself not return. *)
Definition kassert (b : bool) : M S unit := if b then ret tt else panic.
Definition lift {A} (o : outcome A) : M S A :=
  fun s => match o with
           | Ret a => Ret (a, s)
           | Panic => Panic
           | Fault => Fault
           | NoFuel => NoFuel
           end.

End monad.

Declare Scope kern_scope.
Delimit Scope kern_scope with kern.

Notation "'let*' x := m 'in' k" := (bind m (fun x => k))
  (at level 10, x pattern, m at level 200, k at level 200) : kern_scope.
Notation "'do*' m 'in' k" := (bind m (fun _ => k))
  (at level 10, m at level 200, k at level 200) : kern_scope.

#[global] Open Scope kern_scope.

(** A loop [for (i = lo; n iterations; i++) body] whose body may return from
    the enclosing function: [Some r] is that return. *)
Fixpoint for_ret {S R} (n : nat) (i : Z) (body : Z -> M S (option R))
  : M S (option R) :=
  match n with
  | O => ret None
  | Datatypes.S n' =>
      let* r := body i in
      match r with
      | Some _ => ret r
      | None => for_ret n' (i + 1) body
      end
  end.

(** The same loop without a return from its body. *)
Fixpoint for_ {S} (n : nat) (i : Z) (body : Z -> M S unit) : M S unit :=
  match n with
  | O => ret tt
  | Datatypes.S n' => do* body i in for_ n' (i + 1) body
  end.

(** ** Machine integers *)

Definition two32 : Z := 4294967296.
(** [unsigned], [size_t], [vaddr_t], [paddr_t]: 32 bits, wrapping. *)
Definition w32 (z : Z) : Z := z mod two32.
(** [int]: two's complement, 32 bits. *)
Definition s32 (z : Z) : Z := (z + 2147483648) mod two32 - 2147483648.

Definition is_u32 (z : Z) : Prop := 0 <= z < two32.
Definition is_s32 (z : Z) : Prop := -2147483648 <= z < 2147483648.

(** Indexing a C array of known extent. *)
Definition get_at {A} (l : list A) (i : Z) : outcome A :=
  if i <? 0 then Fault
  else match l !! Z.to_nat i with Some x => Ret x | None => Fault end.

Definition set_at {A} (l : list A) (i : Z) (x : A) : outcome (list A) :=
  if (i <? 0) || (Z.of_nat (length l) <=? i) then Fault
  else Ret (<[Z.to_nat i := x]> l).

Definition zlength {A} (l : list A) : Z := Z.of_nat (length l).

(** kern/include/lib.h: [DIVROUNDUP] and [ROUNDUP] on values that do not
    overflow; the callers that can overflow write the wrap out. *)
Definition DIVROUNDUP (a b : Z) : Z := (a + b - 1) / b.
Definition ROUNDUP (a b : Z) : Z := DIVROUNDUP a b * b.

(** ** Error numbers (kern/include/kern/errno.h) *)
Definition ENOSYS : Z := 1.
Definition EUNIMP : Z := 2.
Definition ENOMEM : Z := 3.
Definition EAGAIN : Z := 4.
Definition EFAULT : Z := 6.
Definition ENAMETOOLONG : Z := 7.
Definition EINVAL : Z := 8.
Definition ENOEXEC : Z := 13.
Definition ECHILD : Z := 16.
Definition ENOTDIR : Z := 17.
Definition EISDIR : Z := 18.
Definition ENOENT : Z := 19.
Definition ENOTEMPTY : Z := 21.
Definition EEXIST : Z := 22.
Definition EXDEV : Z := 24.
Definition ENODEV : Z := 25.
Definition ENXIO : Z := 26.
Definition EBUSY : Z := 27.
Definition EIO : Z := 32.
Definition ENOSPC : Z := 36.
Definition EFBIG : Z := 38.

(** ** Lemmas on the monad *)

Section monad_lemmas.
Context {S : Type}.

Lemma bind_ret_inv {A B} (m : M S A) (k : A -> M S B) s b s2 :
  bind m k s = Ret (b, s2) ->
  exists a s1, m s = Ret (a, s1) /\ k a s1 = Ret (b, s2).
Proof.
  unfold bind. destruct (m s) as [[a s1]| | |]; intros H; try discriminate.
  eauto.
Qed.

Lemma bind_ok {A B} (m : M S A) (k : A -> M S B) s a s1 :
  m s = Ret (a, s1) -> bind m k s = k a s1.
Proof. unfold bind. by intros ->. Qed.

(** Symbolic execution: one equation per primitive. *)
Lemma bind_ret {A B} (a : A) (k : A -> M S B) s : bind (ret a) k s = k a s.
Proof. done. Qed.
Lemma bind_get {B} (k : S -> M S B) s : bind get k s = k s s.
Proof. done. Qed.
Lemma bind_gets {A B} (f : S -> A) (k : A -> M S B) s : bind (gets f) k s = k (f s) s.
Proof. done. Qed.
Lemma bind_put {B} s' (k : unit -> M S B) s : bind (put s') k s = k tt s'.
Proof. done. Qed.
Lemma bind_modify {B} f (k : unit -> M S B) s : bind (modify f) k s = k tt (f s).
Proof. done. Qed.
Lemma bind_lift {A B} (a : A) (k : A -> M S B) s : bind (lift (Ret a)) k s = k a s.
Proof. done. Qed.
Lemma bind_kassert {B} (k : unit -> M S B) s : bind (kassert true) k s = k tt s.
Proof. done. Qed.
Lemma bind_bind {A B C} (m : M S A) (f : A -> M S B) (k : B -> M S C) s :
  bind (bind m f) k s = bind m (fun a => bind (f a) k) s.
Proof. unfold bind. by destruct (m s) as [[? ?]| | |]. Qed.
Lemma bind_if {A B} (b : bool) (m1 m2 : M S A) (k : A -> M S B) s :
  bind (if b then m1 else m2) k s = if b then bind m1 k s else bind m2 k s.
Proof. by destruct b. Qed.

Lemma kassert_ok {b : bool} {s : S} : b = true -> kassert b s = Ret (tt, s).
Proof. by intros ->. Qed.

Lemma kassert_inv (b : bool) (s s' : S) u :
  kassert b s = Ret (u, s') -> b = true /\ s' = s.
Proof. destruct b; cbn; intros H; [|discriminate]. by inversion H. Qed.

Lemma lift_inv {A} (o : outcome A) (s s' : S) a :
  lift o s = Ret (a, s') -> o = Ret a /\ s' = s.
Proof. destruct o; cbn; intros H; inversion H; auto. Qed.

(** A loop invariant rule for [for_]: the invariant holds after [n] rounds. *)
Lemma for_inv (Inv : Z -> S -> Prop) (body : Z -> M S unit) n lo s :
  Inv lo s ->
  (forall i st, lo <= i < lo + Z.of_nat n -> Inv i st ->
     exists st', body i st = Ret (tt, st') /\ Inv (i + 1) st') ->
  exists s', for_ n lo body s = Ret (tt, s') /\ Inv (lo + Z.of_nat n) s'.
Proof.
  revert lo s. induction n as [|n IH]; intros lo s H0 Hstep.
  - exists s. rewrite Z.add_0_r. auto.
  - destruct (Hstep lo s) as (s1 & H1 & HI); [lia|done|].
    destruct (IH (lo + 1) s1) as (s2 & H2 & HI2); [done|intros; apply Hstep; [lia|done]|].
    exists s2. cbn. unfold bind. rewrite H1, H2. split; [done|].
    by replace (lo + Z.of_nat (Datatypes.S n)) with (lo + 1 + Z.of_nat n) by lia.
Qed.

(** A search loop: the body does nothing where [P] is false and returns where
    it is true; the loop runs the body at the first index where [P] holds. *)
Lemma for_ret_search {R} (P : Z -> bool) (body : Z -> M S (option R)) n lo s :
  (forall i, lo <= i < lo + Z.of_nat n -> P i = false ->
     body i s = Ret (None, s)) ->
  (forall i, lo <= i < lo + Z.of_nat n -> P i = true ->
     (forall j, lo <= j < i -> P j = false) ->
     exists r s', body i s = Ret (Some r, s')) ->
  (for_ret n lo body s = Ret (None, s) /\
   forall i, lo <= i < lo + Z.of_nat n -> P i = false) \/
  (exists i, lo <= i < lo + Z.of_nat n /\ P i = true /\
     (forall j, lo <= j < i -> P j = false) /\
     for_ret n lo body s = body i s).
Proof.
  revert lo. induction n as [|n IH]; intros lo Hf Ht.
  - left. split; [done|lia].
  - cbn [for_ret]. unfold bind at 1.
    destruct (P lo) eqn:E.
    + right. exists lo. split_and!; [lia|lia|done|lia|].
      destruct (Ht lo) as (r & s' & Hb); [lia|done|lia|].
      unfold bind. by rewrite Hb.
    + rewrite (Hf lo) by (lia || done).
      destruct (IH (lo + 1)) as [[H1 H2]|(i & H1 & H2 & H3 & H4)].
      * intros; apply Hf; [lia|done].
      * intros i Hi HP Hj. apply Ht; [lia|done|].
        intros j Hlt. destruct (Z.eq_dec j lo) as [->|]; [done|]. apply Hj; lia.
      * left. split; [done|]. intros i Hi.
        destruct (Z.eq_dec i lo) as [->|]; [done|]. apply H2; lia.
      * right. exists i. split_and!; [lia|lia|done| |].
        -- intros j Hlt. destruct (Z.eq_dec j lo) as [->|]; [done|]. apply H3; lia.
        -- unfold bind. rewrite (Hf lo) by (lia || done). exact H4.
Qed.

End monad_lemmas.

(** ** Lemmas on arrays *)

Section array_lemmas.
Context {A : Type}.
Implicit Types (l : list A) (i : Z).

Lemma get_at_Ret l i x :
  get_at l i = Ret x <-> 0 <= i /\ l !! Z.to_nat i = Some x.
Proof.
  unfold get_at. destruct (Z.ltb_spec i 0).
  - split; [discriminate|lia].
  - destruct (l !! Z.to_nat i) eqn:E; split; intros H'; try done.
    + by inversion H'.
    + destruct H' as [_ H']. by inversion H'.
    + by destruct H'.
Qed.

Lemma get_at_lookup l i x :
  0 <= i -> l !! Z.to_nat i = Some x -> get_at l i = Ret x.
Proof. intros. by apply get_at_Ret. Qed.

Lemma get_at_in_range l i :
  0 <= i < zlength l -> exists x, get_at l i = Ret x /\ l !! Z.to_nat i = Some x.
Proof.
  unfold zlength. intros H.
  destruct (lookup_lt_is_Some_2 l (Z.to_nat i)) as [x Hx]; [lia|].
  exists x. split; [apply get_at_Ret|]; auto with lia.
Qed.

Lemma set_at_in_range l i x :
  0 <= i < zlength l -> set_at l i x = Ret (<[Z.to_nat i := x]> l).
Proof.
  unfold zlength, set_at. intros H.
  destruct (Z.ltb_spec i 0), (Z.leb_spec (Z.of_nat (length l)) i); try lia; done.
Qed.

Lemma set_at_Ret l i x l' :
  set_at l i x = Ret l' ->
  0 <= i < zlength l /\ l' = <[Z.to_nat i := x]> l.
Proof.
  unfold zlength, set_at.
  destruct (Z.ltb_spec i 0), (Z.leb_spec (Z.of_nat (length l)) i);
    cbn; intros H'; inversion H'; split; auto; lia.
Qed.

Lemma zlength_insert l (n : nat) x : zlength (<[n := x]> l) = zlength l.
Proof. unfold zlength. by rewrite length_insert. Qed.

Lemma zlength_nonneg l : 0 <= zlength l.
Proof. unfold zlength. lia. Qed.

End array_lemmas.

Lemma zlength_app {A} (l1 l2 : list A) : zlength (l1 ++ l2) = zlength l1 + zlength l2.
Proof. unfold zlength. rewrite length_app. lia. Qed.

Lemma zlength_cons {A} (x : A) l : zlength (x :: l) = zlength l + 1.
Proof. unfold zlength. cbn [length]. lia. Qed.

Lemma zlength_snoc {A} (l : list A) x : zlength (l ++ [x]) = zlength l + 1.
Proof. unfold zlength. rewrite length_app. cbn. lia. Qed.

(** ** Lemmas on machine integers *)

Lemma w32_range z : is_u32 (w32 z).
Proof. unfold is_u32, w32, two32. apply Z.mod_pos_bound. lia. Qed.

Lemma w32_id z : is_u32 z -> w32 z = z.
Proof. unfold is_u32, w32. apply Z.mod_small. Qed.

Lemma s32_range z : is_s32 (s32 z).
Proof.
  unfold is_s32, s32, two32.
  pose proof (Z.mod_pos_bound (z + 2147483648) 4294967296). lia.
Qed.

Lemma s32_id z : is_s32 z -> s32 z = z.
Proof.
  unfold is_s32, s32, two32. intros H. rewrite Z.mod_small; lia.
Qed.

(** ** Automation *)

Lemma to_nat_zlength {A} (l : list A) : Z.to_nat (zlength l) = length l.
Proof. unfold zlength. lia. Qed.

Create HintDb kern.
Create Rewrite HintDb kern.
#[export] Hint Resolve w32_range s32_range zlength_nonneg : kern.
#[export] Hint Rewrite @zlength_insert : kern.

Create Rewrite HintDb mrun.
#[export] Hint Rewrite @bind_ret @bind_get @bind_gets @bind_put @bind_modify @bind_lift
  @bind_kassert @bind_bind : mrun.

(** Run the primitives at the head of the computation in the goal. *)
Ltac mrun := autorewrite with mrun; cbn beta iota zeta.

(** Invert the hypotheses that say that a monadic computation returned. *)
Ltac minv_step :=
  match goal with
  | H : bind ?m ?k ?s = Ret (?b, ?s2) |- _ =>
      let a := fresh "a" in let s1 := fresh "s" in let H1 := fresh "Hm" in
      apply bind_ret_inv in H; destruct H as (a & s1 & H1 & H)
  | H : ret _ _ = Ret _ |- _ => unfold ret in H; injection H as ? ?; subst
  | H : get _ = Ret _ |- _ => unfold get in H; injection H as ? ?; subst
  | H : gets _ _ = Ret _ |- _ => unfold gets in H; injection H as ? ?; subst
  | H : put _ _ = Ret _ |- _ => unfold put in H; injection H as ? ?; subst
  | H : modify _ _ = Ret _ |- _ => unfold modify in H; injection H as ? ?; subst
  | H : panic _ = Ret _ |- _ => discriminate H
  | H : fault _ = Ret _ |- _ => discriminate H
  | H : kassert _ _ = Ret _ |- _ =>
      apply kassert_inv in H; destruct H as [H ?]; subst
  | H : lift _ _ = Ret _ |- _ => apply lift_inv in H; destruct H as [H ?]; subst
  | H : Ret _ = Ret _ |- _ => injection H as ?; subst
  | H : Panic = Ret _ |- _ => discriminate H
  | H : Fault = Ret _ |- _ => discriminate H
  | H : NoFuel = Ret _ |- _ => discriminate H
  end.
Ltac minv := repeat minv_step.

(** Turn the boolean tests of the code into propositions. *)
Ltac bprop :=
  repeat match goal with
  | H : (_ && _)%bool = true |- _ => apply andb_true_iff in H; destruct H
  | H : (_ || _)%bool = false |- _ => apply orb_false_iff in H; destruct H
  | H : negb _ = true |- _ => apply negb_true_iff in H
  | H : negb _ = false |- _ => apply negb_false_iff in H
  | H : (_ <? _) = true |- _ => apply Z.ltb_lt in H
  | H : (_ <? _) = false |- _ => apply Z.ltb_ge in H
  | H : (_ <=? _) = true |- _ => apply Z.leb_le in H
  | H : (_ <=? _) = false |- _ => apply Z.leb_gt in H
  | H : (_ =? _) = true |- _ => apply Z.eqb_eq in H
  | H : (_ =? _) = false |- _ => apply Z.eqb_neq in H
  end.
