(* ===== verification/CLib.v ===== *)
(** * The C library: memory and strings (common/libc/string, common/libc/stdlib)

    The routines that kernel and user programs share, on a memory of mapped
    bytes: reading or writing an address that is not mapped is a fault.
    [memmove] copies by words or by bytes, forwards or backwards, and is shown
    to equal a simultaneous copy; the string functions are related to the list
    of characters in front of the terminator. *)

From stdpp Require Import base numbers list gmap.
From Stdlib Require Import ZArith Lia.
From S2P Require Import Prelude.

(** ** Memory *)

Notation mem := (gmap Z Z).

Definition load (p : Z) : M mem Z := fun m =>
  match m !! p with Some b => Ret (b, m) | None => Fault end.
Definition store (p b : Z) : M mem unit := fun m =>
  match m !! p with Some _ => Ret (tt, <[p := b]> m) | None => Fault end.

(** [sizeof(long)]; a [long] is kept as its four bytes. *)
Definition sizeof_long : Z := 4.

Definition load_long (p : Z) : M mem (Z * Z * Z * Z) :=
  let* a := load p in let* b := load (p + 1) in
  let* c := load (p + 2) in let* d := load (p + 3) in
  ret (a, b, c, d).
Definition store_long (p : Z) (w : Z * Z * Z * Z) : M mem unit :=
  let '(a, b, c, d) := w in
  do* store p a in do* store (p + 1) b in do* store (p + 2) c in store (p + 3) d.

Definition copy_char (d s : Z) : M mem unit := let* b := load s in store d b.
Definition copy_long (d s : Z) : M mem unit := let* w := load_long s in store_long d w.

(** [for (i = n; i > 0; i--) body]. *)
Fixpoint for_down {S} (n : nat) (body : Z -> M S unit) : M S unit :=
  match n with
  | O => ret tt
  | Datatypes.S n' => do* body (Z.of_nat n) in for_down n' body
  end.

Definition aligned (p : Z) : bool := p mod sizeof_long =? 0.

Definition memcpy (dst src len : Z) : M mem Z :=
  do* if aligned dst && aligned src && aligned len then
        for_ (Z.to_nat (len / sizeof_long)) 0 (fun i => copy_long (dst + sizeof_long * i) (src + sizeof_long * i))
      else
        for_ (Z.to_nat len) 0 (fun i => copy_char (dst + i) (src + i))
  in ret dst.

Definition memmove (dst src len : Z) : M mem Z :=
  if dst <? src then memcpy dst src len
  else
    do* if aligned dst && aligned src && aligned len then
          for_down (Z.to_nat (len / sizeof_long))
            (fun i => copy_long (dst + sizeof_long * (i - 1)) (src + sizeof_long * (i - 1)))
        else
          for_down (Z.to_nat len) (fun i => copy_char (dst + (i - 1)) (src + (i - 1)))
    in ret dst.

Definition bzero (block len : Z) : M mem unit :=
  if aligned block && aligned len then
    for_ (Z.to_nat (len / sizeof_long)) 0 (fun i => store_long (block + sizeof_long * i) (0, 0, 0, 0))
  else
    for_ (Z.to_nat len) 0 (fun i => store (block + i) 0).

(** ** Strings

    A loop to the terminator visits mapped addresses only, so it ends within
    the number of mapped bytes. *)

Fixpoint strlen_loop (fuel : nat) (str i : Z) : M mem Z :=
  match fuel with
  | O => fun _ => NoFuel
  | S fuel =>
      let* c := load (str + i) in
      if c =? 0 then ret i else strlen_loop fuel str (i + 1)
  end.

Definition strlen (str : Z) : M mem Z := fun m => strlen_loop (S (size m)) str 0 m.

(** The two strings of [strcmp] are given by how their characters are read. *)
Fixpoint strcmp_loop (fuel : nat) (a b : Z -> M mem Z) (i : Z) : M mem Z :=
  match fuel with
  | O => fun _ => NoFuel
  | S fuel =>
      let* x := a i in
      let* y := if x =? 0 then ret 0 else b i in
      if negb (x =? 0) && (x =? y) then strcmp_loop fuel a b (i + 1)
      else
        let* y := b i in
        if y <? x then ret 1 else if x =? y then ret 0 else ret (-1)
  end.

Definition strcmp (a b : Z) : M mem Z := fun m =>
  strcmp_loop (S (size m)) (fun i => load (a + i)) (fun i => load (b + i)) 0 m.

(** [strcmp] of a string in memory and a constant string of the source. *)
Definition load_const (l : list Z) (i : Z) : M mem Z := fun m =>
  match (l ++ [0]) !! Z.to_nat i with Some c => Ret (c, m) | None => Fault end.

Definition strcmp_const (a : Z) (l : list Z) : M mem Z := fun m =>
  strcmp_loop (S (size m)) (fun i => load (a + i)) (load_const l) 0 m.

(** The same with the constant string first. *)
Definition const_strcmp (l : list Z) (b : Z) : M mem Z :=
  strcmp_loop (S (length l)) (load_const l) (fun i => load (b + i)) 0.

Fixpoint strcpy_loop (fuel : nat) (dest src i : Z) : M mem unit :=
  match fuel with
  | O => fun _ => NoFuel
  | S fuel =>
      let* c := load (src + i) in
      if c =? 0 then store (dest + i) 0
      else do* store (dest + i) c in strcpy_loop fuel dest src (i + 1)
  end.

Definition strcpy (dest src : Z) : M mem Z := fun m =>
  (do* strcpy_loop (S (size m)) dest src 0 in ret dest) m.

Definition strcat (dest src : Z) : M mem Z :=
  let* offset := strlen dest in
  do* strcpy (dest + offset) src in ret dest.

Fixpoint strchr_loop (fuel : nat) (s ch : Z) : M mem Z :=
  match fuel with
  | O => fun _ => NoFuel
  | S fuel =>
      let* c := load s in
      if c =? 0 then (if c =? ch then ret s else ret 0)
      else if c =? ch then ret s else strchr_loop fuel (s + 1) ch
  end.

(** [ch_arg] is converted to a character first. *)
Definition strchr (s ch_arg : Z) : M mem Z := fun m => strchr_loop (S (size m)) s (ch_arg mod 256) m.

Fixpoint strrchr_loop (n : nat) (s ch : Z) : M mem Z :=
  match n with
  | O => ret 0
  | S n =>
      let* c := load (s + Z.of_nat n) in
      if c =? ch then ret (s + Z.of_nat n) else strrchr_loop n s ch
  end.

Definition strrchr (s ch_arg : Z) : M mem Z :=
  let* len := strlen s in strrchr_loop (Z.to_nat (len + 1)) s (ch_arg mod 256).

(** [strchr] on a constant string of the source: the position of a character in
    the string or its terminator. *)
Fixpoint index_of (l : list Z) (ch : Z) : option Z :=
  match l with
  | [] => if ch =? 0 then Some 0 else None
  | c :: l => if c =? ch then Some 0 else option_map Z.succ (index_of l ch)
  end.

Fixpoint skip_seps (fuel : nat) (seps : list Z) (head : Z) : M mem Z :=
  match fuel with
  | O => fun _ => NoFuel
  | S fuel =>
      let* c := load head in
      if negb (c =? 0) && bool_decide (is_Some (index_of seps c)) then skip_seps fuel seps (head + 1)
      else ret head
  end.

Fixpoint skip_word (fuel : nat) (seps : list Z) (tail : Z) : M mem Z :=
  match fuel with
  | O => fun _ => NoFuel
  | S fuel =>
      let* c := load tail in
      if negb (c =? 0) && negb (bool_decide (is_Some (index_of seps c))) then skip_word fuel seps (tail + 1)
      else ret tail
  end.

(** The word, if any, and the new value of the context. *)
Definition strtok_r (string : Z) (seps : list Z) (context : Z) : M mem (Z * Z) := fun m =>
  let context := if negb (string =? 0) then string else context in
  let head := context in
  if head =? 0 then Ret ((0, context), m)
  else
    (let* head := skip_seps (S (size m)) seps head in
     let* c := load head in
     if c =? 0 then ret (0, 0)
     else
       let* tail := skip_word (S (size m)) seps head in
       let* c := load tail in
       if c =? 0 then ret (head, 0)
       else do* store tail 0 in ret (head, tail + 1)) m.

(** ** atoi on a string *)

Definition digits10 : list Z := [48; 49; 50; 51; 52; 53; 54; 55; 56; 57].

Fixpoint skip_blank (l : list Z) : list Z :=
  match l with
  | c :: l' => if (c =? 32) || (c =? 9) then skip_blank l' else l
  | [] => []
  end.

Fixpoint atoi_digits (l : list Z) (val : Z) : Z :=
  match l with
  | [] => val
  | c :: l =>
      match index_of digits10 c with
      | None => val
      | Some digit => atoi_digits l (w32 (val * 10 + digit))
      end
  end.

Definition atoi (s : list Z) : Z :=
  let s := skip_blank s in
  match s with
  | 45 :: s => s32 (w32 (- atoi_digits s 0))
  | 43 :: s => s32 (atoi_digits s 0)
  | s => s32 (atoi_digits s 0)
  end.

(** ** Copying memory *)

Lemma load_ok p b (m : mem) : m !! p = Some b -> load p m = Ret (b, m).
Proof. unfold load. by intros ->. Qed.

Lemma store_ok p b (m : mem) : is_Some (m !! p) -> store p b m = Ret (tt, <[p := b]> m).
Proof. unfold store. by intros [? ->]. Qed.

Lemma for_down_inv {S} (Inv : Z -> S -> Prop) (body : Z -> M S unit) n s :
  Inv (Z.of_nat n) s ->
  (forall i st, 0 < i <= Z.of_nat n -> Inv i st -> exists st', body i st = Ret (tt, st') /\ Inv (i - 1) st') ->
  exists s', for_down n body s = Ret (tt, s') /\ Inv 0 s'.
Proof.
  revert s. induction n as [|n IH]; intros s H0 Hstep; [by exists s|].
  destruct (Hstep (Z.of_nat (Datatypes.S n)) s) as (s1 & H1 & HI); [lia|done|].
  destruct (IH s1) as (s2 & H2 & HI2); [by replace (Z.of_nat n) with (Z.of_nat (Datatypes.S n) - 1) by lia|
    intros; apply Hstep; [lia|done]|].
  exists s2. split; [|done]. cbn [for_down]. by rewrite (bind_ok _ _ _ _ _ H1).
Qed.

(** [n] bytes are mapped from [p] on. *)
Definition mapped (m : mem) (p n : Z) : Prop := forall j, 0 <= j < n -> is_Some (m !! (p + j)).

(** [m'] is [m] with the bytes [lo] to [hi] of the source copied. *)
Definition copied (m m' : mem) (dst src lo hi : Z) : Prop :=
  forall a, m' !! a = if (dst + lo <=? a) && (a <? dst + hi) then m !! (src + (a - dst)) else m !! a.

(** A piece of code that copies [n] bytes. *)
Definition copies (n : Z) (c : M mem unit) (d s : Z) : Prop :=
  forall m, mapped m s n -> mapped m d n -> exists m', c m = Ret (tt, m') /\ copied m m' d s 0 n.

Lemma copied_mapped m m' dst src lo hi p n :
  copied m m' dst src lo hi -> mapped m src hi -> 0 <= lo -> mapped m p n -> mapped m' p n.
Proof.
  intros Hc Hs Hlo Hp j Hj. rewrite Hc. destruct (_ && _) eqn:E; [|by apply Hp].
  apply andb_prop in E as [E1 E2]. replace (src + (p + j - dst)) with (src + (p + j - dst)) by lia.
  apply Hs. lia.
Qed.

Lemma copy_char_copies d s : copies 1 (copy_char d s) d s.
Proof.
  intros m Hs Hd. destruct (Hs 0) as [b Hb]; [lia|]. rewrite Z.add_0_r in Hb.
  exists (<[d := b]> m). split.
  - unfold copy_char. rewrite (bind_ok _ _ _ _ _ (load_ok _ _ _ Hb)). apply store_ok.
    replace d with (d + 0) by lia. apply Hd. lia.
  - intros a. destruct (decide (a = d)) as [->|Ha].
    + rewrite lookup_insert_eq. replace (_ && _) with true by lia. replace (s + (d - d)) with s by lia. done.
    + rewrite lookup_insert_ne by done. replace (_ && _) with false by lia. done.
Qed.

Lemma load_long_ok p a b c d (m : mem) :
  m !! p = Some a -> m !! (p + 1) = Some b -> m !! (p + 2) = Some c -> m !! (p + 3) = Some d ->
  load_long p m = Ret ((a, b, c, d), m).
Proof.
  intros Ha Hb Hc Hd. unfold load_long.
  by rewrite (bind_ok _ _ _ _ _ (load_ok _ _ _ Ha)), (bind_ok _ _ _ _ _ (load_ok _ _ _ Hb)),
    (bind_ok _ _ _ _ _ (load_ok _ _ _ Hc)), (bind_ok _ _ _ _ _ (load_ok _ _ _ Hd)).
Qed.

Lemma mapped_insert m p n q b : mapped m p n -> mapped (<[q := b]> m) p n.
Proof. intros Hm j Hj. rewrite lookup_insert_is_Some. destruct (decide (q = p + j)); [by left|right; auto]. Qed.

Lemma mapped_at m p n j : mapped m p n -> 0 <= j < n -> is_Some (m !! (p + j)).
Proof. intros Hm. apply Hm. Qed.

Lemma store_long_ok p a b c d (m : mem) :
  mapped m p 4 ->
  store_long p (a, b, c, d) m = Ret (tt, <[p + 3 := d]> (<[p + 2 := c]> (<[p + 1 := b]> (<[p := a]> m)))).
Proof.
  intros Hm. unfold store_long.
  assert (H0 : is_Some (m !! p)) by (replace p with (p + 0) by lia; apply Hm; lia).
  rewrite (bind_ok _ _ _ _ _ (store_ok _ a _ H0)).
  rewrite (bind_ok _ _ _ _ _ (store_ok (p + 1) b _ (mapped_at _ p 4 1 (mapped_insert _ _ _ _ _ Hm) ltac:(lia)))).
  rewrite (bind_ok _ _ _ _ _ (store_ok (p + 2) c _
    (mapped_at _ p 4 2 (mapped_insert _ _ _ _ _ (mapped_insert _ _ _ _ _ Hm)) ltac:(lia)))).
  apply store_ok, (mapped_at _ p 4 3); [|lia]. by repeat apply mapped_insert.
Qed.

Lemma copy_long_copies d s : copies 4 (copy_long d s) d s.
Proof.
  intros m Hs Hd.
  destruct (Hs 0) as [b0 H0], (Hs 1) as [b1 H1], (Hs 2) as [b2 H2], (Hs 3) as [b3 H3]; try lia. rewrite Z.add_0_r in H0.
  eexists. split; [unfold copy_long; rewrite (bind_ok _ _ _ _ _ (load_long_ok _ _ _ _ _ _ H0 H1 H2 H3));
    by apply store_long_ok|].
  intros a. rewrite !lookup_insert.
  destruct (decide (d + 3 = a)) as [<-|]; [|destruct (decide (d + 2 = a)) as [<-|]; [|
    destruct (decide (d + 1 = a)) as [<-|]; [|destruct (decide (d = a)) as [<-|]]]].
  1-4: replace (_ && _) with true by lia.
  - by replace (s + (d + 3 - d)) with (s + 3) by lia.
  - by replace (s + (d + 2 - d)) with (s + 2) by lia.
  - by replace (s + (d + 1 - d)) with (s + 1) by lia.
  - by replace (s + (d - d)) with s by lia.
  - by replace (_ && _) with false by lia.
Qed.

(** The next piece of a copy, at either end of what is already done: it must
    not read what has been overwritten. *)
Lemma copied_more m m1 dst src lo hi n len (c : M mem unit) k :
  copied m m1 dst src lo hi -> mapped m src len -> mapped m dst len -> 0 <= lo <= hi -> hi <= len ->
  0 < n -> 0 <= k -> k + n <= len -> (k = hi /\ (dst <= src \/ lo = hi)) \/ (k + n = lo /\ src <= dst) ->
  copies n c (dst + k) (src + k) ->
  exists m2, c m1 = Ret (tt, m2) /\ copied m m2 dst src (Z.min lo k) (Z.max hi (k + n)).
Proof.
  intros Hc Hs Hd Hlo Hhi Hn Hk Hkn Hend Hcp.
  assert (Hms : mapped m src hi) by (intros j Hj; apply Hs; lia).
  destruct (Hcp m1) as (m2 & E & H2).
  - apply (copied_mapped m m1 dst src lo hi); try done; [lia|]. intros j Hj. rewrite <- Z.add_assoc. apply Hs. lia.
  - apply (copied_mapped m m1 dst src lo hi); try done; [lia|]. intros j Hj. rewrite <- Z.add_assoc. apply Hd. lia.
  - exists m2. split; [done|]. intros a. rewrite H2. destruct ((dst + k + 0 <=? a) && (a <? dst + k + n)) eqn:Ea.
    + apply andb_prop in Ea as [E1 E2]. rewrite Hc. replace (_ && _) with false by lia.
      replace (_ && _) with true by lia. f_equal. lia.
    + rewrite Hc. apply andb_false_iff in Ea. destruct ((dst + lo <=? a) && (a <? dst + hi)) eqn:Eb.
      * by replace (_ && _) with true by lia.
      * replace ((dst + Z.min lo k <=? a) && (a <? dst + Z.max hi (k + n))) with false; [done|].
        apply andb_false_iff in Eb. symmetry. apply andb_false_iff.
        destruct (Z.leb_spec (dst + Z.min lo k) a); [right|by left]. lia.
Qed.

Lemma copied_refl m dst src k : copied m m dst src k k.
Proof. intros a. by replace (_ && _) with false by lia. Qed.

Section copy_loops.
Context (m : mem) (dst src len n cnt : Z) (c : Z -> Z -> M mem unit).
Context (Hs : mapped m src len) (Hd : mapped m dst len) (Hn : 0 < n) (Hcnt : 0 <= cnt) (Hlen : len = n * cnt).
Context (Hc : forall d s, copies n (c d s) d s).

Lemma copy_forward :
  dst <= src ->
  exists m', for_ (Z.to_nat cnt) 0 (fun i => c (dst + n * i) (src + n * i)) m = Ret (tt, m') /\
    copied m m' dst src 0 len.
Proof.
  intros Hle. destruct (for_inv (fun i st => copied m st dst src 0 (n * i))
    (fun i => c (dst + n * i) (src + n * i)) (Z.to_nat cnt) 0 m) as (m' & E & H').
  - rewrite Z.mul_0_r. apply copied_refl.
  - intros i st Hi Hst. destruct (copied_more m st dst src 0 (n * i) n len (c (dst + n * i) (src + n * i)) (n * i))
      as (m2 & E2 & H2); try done; try nia.
    exists m2. split; [done|]. by replace (Z.min 0 (n * i)) with 0 in H2 by nia;
      replace (Z.max (n * i) (n * i + n)) with (n * (i + 1)) in H2 by nia.
  - exists m'. split; [done|]. by replace (n * (0 + Z.of_nat (Z.to_nat cnt))) with len in H' by lia.
Qed.

Lemma copy_backward :
  src <= dst ->
  exists m', for_down (Z.to_nat cnt) (fun i => c (dst + n * (i - 1)) (src + n * (i - 1))) m = Ret (tt, m') /\
    copied m m' dst src 0 len.
Proof.
  intros Hle. destruct (for_down_inv (fun i st => copied m st dst src (n * i) len)
    (fun i => c (dst + n * (i - 1)) (src + n * (i - 1))) (Z.to_nat cnt) m) as (m' & E & H').
  - replace (n * Z.of_nat (Z.to_nat cnt)) with len by lia. apply copied_refl.
  - intros i st Hi Hst.
    destruct (copied_more m st dst src (n * i) len n len (c (dst + n * (i - 1)) (src + n * (i - 1))) (n * (i - 1)))
      as (m2 & E2 & H2); try done; try nia.
    exists m2. split; [done|]. by replace (Z.min (n * i) (n * (i - 1))) with (n * (i - 1)) in H2 by nia;
      replace (Z.max len (n * (i - 1) + n)) with len in H2 by nia.
  - exists m'. split; [done|]. by rewrite Z.mul_0_r in H'.
Qed.

End copy_loops.

Lemma aligned_div p : aligned p = true -> p = 4 * (p / 4).
Proof. unfold aligned, sizeof_long. intros E. pose proof (Z.div_mod p 4). lia. Qed.

Lemma for_ext {S} n lo (f g : Z -> M S unit) s : (forall i, f i = g i) -> for_ n lo f s = for_ n lo g s.
Proof.
  intros H. revert lo s. induction n as [|n IH]; intros lo s; [done|]. cbn. unfold bind. rewrite H.
  destruct (g lo s) as [[? ?]| | |]; [apply IH|done..].
Qed.

Lemma for_down_ext {S} n (f g : Z -> M S unit) s : (forall i, f i = g i) -> for_down n f s = for_down n g s.
Proof.
  intros H. revert s. induction n as [|n IH]; intros s; [done|]. cbn [for_down]. unfold bind. rewrite H.
  destruct (g _ s) as [[? ?]| | |]; [apply IH|done..].
Qed.

Lemma memcpy_forward m dst src len :
  0 <= len -> mapped m src len -> mapped m dst len -> dst <= src ->
  exists m', memcpy dst src len m = Ret (dst, m') /\ copied m m' dst src 0 len.
Proof.
  intros Hl Hs Hd Hle. unfold memcpy. destruct (aligned dst && aligned src && aligned len) eqn:E.
  - apply andb_prop in E as [_ E%aligned_div]. unfold sizeof_long.
    destruct (copy_forward m dst src len 4 (len / 4) copy_long) as (m' & E' & H'); try done.
    + apply Z.div_pos; lia.
    + apply copy_long_copies.
    + exists m'. split; [by rewrite (bind_ok _ _ _ _ _ E')|done].
  - destruct (copy_forward m dst src len 1 len copy_char) as (m' & E' & H'); try done; try lia.
    + apply copy_char_copies.
    + exists m'. split; [|done]. rewrite (bind_ok _ _ _ tt m'); [done|]. rewrite <- E'.
      apply for_ext. intros i. by rewrite Z.mul_1_l.
Qed.

(** [memmove] copies as if through a buffer: for every alignment and
    length, and however source and destination overlap, the bytes of the
    destination become those that the source had before, and no other byte
    changes. *)
Theorem memmove_simultaneous (m : mem) (dst src len : Z) :
  0 <= len -> mapped m src len -> mapped m dst len ->
  exists m', memmove dst src len m = Ret (dst, m') /\
    forall a, m' !! a = if (dst <=? a) && (a <? dst + len) then m !! (src + (a - dst)) else m !! a.
Proof.
  intros Hl Hs Hd. assert (Hgoal : exists m', memmove dst src len m = Ret (dst, m') /\ copied m m' dst src 0 len).
  { unfold memmove. destruct (Z.ltb_spec dst src); [apply memcpy_forward; lia || done|].
    destruct (aligned dst && aligned src && aligned len) eqn:E.
    - apply andb_prop in E as [_ E%aligned_div]. unfold sizeof_long.
      destruct (copy_backward m dst src len 4 (len / 4) copy_long) as (m' & E' & H'); try done.
      + apply Z.div_pos; lia.
      + apply copy_long_copies.
      + exists m'. split; [by rewrite (bind_ok _ _ _ _ _ E')|done].
    - destruct (copy_backward m dst src len 1 len copy_char) as (m' & E' & H'); try done; try lia.
      + apply copy_char_copies.
      + exists m'. split; [|done]. rewrite (bind_ok _ _ _ tt m'); [done|]. rewrite <- E'.
        apply for_down_ext. intros i. by rewrite Z.mul_1_l. }
  destruct Hgoal as (m' & E & Hc). exists m'. split; [done|]. intros a. rewrite Hc. by rewrite Z.add_0_r.
Qed.

Definition ex_mem : mem := list_to_map (zip (seqZ 100 16) [72; 101; 108; 108; 111; 0; 1; 2; 3; 4; 5; 6; 7; 8; 9; 10]).

Lemma ex_mem_mapped p n :
  forallb (fun j => bool_decide (is_Some (ex_mem !! (p + j)))) (seqZ 0 n) = true -> mapped ex_mem p n.
Proof.
  intros H j Hj. rewrite forallb_forall in H. eapply bool_decide_eq_true_1, (H j).
  apply list_elem_of_In, elem_of_seqZ. lia.
Qed.

(** An overlapping copy of eight bytes upwards. *)
Lemma memmove_simultaneous_witness :
  exists m', memmove 104 100 8 ex_mem = Ret (104, m') /\ m' !! 105 = Some 101 /\ m' !! 111 = Some 2.
Proof.
  destruct (memmove_simultaneous ex_mem 104 100 8) as (m' & E & H).
  - lia.
  - apply ex_mem_mapped. vm_compute. reflexivity.
  - apply ex_mem_mapped. vm_compute. reflexivity.
  - exists m'. split; [exact E|]. rewrite !H. split; vm_compute; reflexivity.
Defined.

(** [bzero] clears its block and nothing else. *)
Lemma bzero_clears (m : mem) (block len : Z) :
  0 <= len -> mapped m block len ->
  exists m', bzero block len m = Ret (tt, m') /\
    forall a, m' !! a = if (block <=? a) && (a <? block + len) then Some 0 else m !! a.
Proof.
  intros Hl Hm. unfold bzero, sizeof_long. destruct (aligned block && aligned len) eqn:E.
  - apply andb_prop in E as [_ E%aligned_div].
    destruct (for_inv (fun i st => forall a, st !! a = if (block <=? a) && (a <? block + 4 * i) then Some 0 else m !! a)
      (fun i => store_long (block + 4 * i) (0, 0, 0, 0)) (Z.to_nat (len / 4)) 0 m) as (m' & E' & H').
    + intros a. by replace (_ && _) with false by lia.
    + intros i st Hi Hst. eexists. split.
      * apply store_long_ok. intros j Hj. rewrite Hst. destruct (_ && _); [eauto|].
        replace (block + 4 * i + j) with (block + (4 * i + j)) by lia. apply Hm. lia.
      * intros a. rewrite !lookup_insert, Hst. repeat case_decide; try (replace (_ && _) with true by lia; done).
        destruct ((block <=? a) && (a <? block + 4 * i)) eqn:Ea.
        -- by replace (_ && _) with true by lia.
        -- by replace ((block <=? a) && (a <? block + 4 * (i + 1))) with false by lia.
    + exists m'. split; [done|]. intros a. rewrite H'. by replace (4 * (0 + Z.of_nat (Z.to_nat (len / 4)))) with len by lia.
  - clear E. destruct (for_inv (fun i st => forall a, st !! a = if (block <=? a) && (a <? block + i) then Some 0 else m !! a)
      (fun i => store (block + i) 0) (Z.to_nat len) 0 m) as (m' & E' & H').
    + intros a. by replace (_ && _) with false by lia.
    + intros i st Hi Hst. eexists. split.
      * apply store_ok. rewrite Hst. destruct (_ && _); [eauto|]. apply Hm. lia.
      * intros a. rewrite !lookup_insert, Hst. case_decide; [by replace (_ && _) with true by lia|].
        destruct ((block <=? a) && (a <? block + i)) eqn:Ea.
        -- by replace (_ && _) with true by lia.
        -- by replace ((block <=? a) && (a <? block + (i + 1))) with false by lia.
    + exists m'. split; [done|]. intros a. rewrite H'. by replace (0 + Z.of_nat (Z.to_nat len)) with len by lia.
Qed.

(** ** Strings in memory *)

(** The string [l] with its terminator is at [p]. *)
Fixpoint str_at (m : mem) (p : Z) (l : list Z) : Prop :=
  match l with
  | [] => m !! p = Some 0
  | c :: l => m !! p = Some c /\ c <> 0 /\ str_at m (p + 1) l
  end.

Lemma str_at_app m p l1 l2 :
  str_at m p (l1 ++ l2) <->
  (forall j, (j < length l1)%nat -> exists c, l1 !! j = Some c /\ c <> 0 /\ m !! (p + Z.of_nat j) = Some c) /\
  str_at m (p + zlength l1) l2.
Proof.
  revert p. induction l1 as [|c l1 IH]; intros p; cbn [app str_at].
  - unfold zlength. cbn. rewrite Z.add_0_r. split; [|by intros [_ ?]]. intros H. split; [intros j Hj; cbn in Hj; lia|done].
  - rewrite IH. replace (p + zlength (c :: l1)) with (p + 1 + zlength l1) by (unfold zlength; cbn; lia). split.
    + intros (H1 & H2 & H3 & H4). split; [|done]. intros [|j] Hj.
      * exists c. by rewrite Z.add_0_r.
      * destruct (H3 j) as (d & ? & ? & ?); [cbn in Hj; lia|]. exists d.
        by replace (p + Z.of_nat (S j)) with (p + 1 + Z.of_nat j) by lia.
    + intros (H1 & H2). destruct (H1 0%nat) as (d & Hd & Hd0 & Hm); [cbn; lia|]. cbn in Hd. simplify_eq.
      rewrite Z.add_0_r in Hm. split_and!; try done. intros j Hj. destruct (H1 (S j)) as (e & ? & ? & He); [cbn; lia|].
      exists e. split_and!; try done. by replace (p + 1 + Z.of_nat j) with (p + Z.of_nat (S j)) by lia.
Qed.

Lemma str_at_mapped m p l : str_at m p l -> mapped m p (zlength l + 1).
Proof.
  rewrite <- (app_nil_r l) at 1. intros [H1 H2]%str_at_app j Hj. unfold zlength in *.
  destruct (decide (j = Z.of_nat (length l))) as [->|]; [cbn in H2; by rewrite H2|].
  destruct (H1 (Z.to_nat j)) as (c & _ & _ & Hc); [lia|]. rewrite Z2Nat.id in Hc by lia. by rewrite Hc.
Qed.

(** The string and its terminator take up part of the memory, so loops to the
    terminator have enough fuel. *)
Lemma mapped_size m p n : 0 <= n -> mapped m p n -> (Z.to_nat n <= size m)%nat.
Proof.
  intros Hn Hm. rewrite <- size_dom. etrans; [|apply (subseteq_size (list_to_set (seqZ p n)))].
  - rewrite size_list_to_set by apply NoDup_seqZ. by rewrite length_seqZ.
  - intros a Ha. apply elem_of_list_to_set, elem_of_seqZ in Ha. apply elem_of_dom.
    replace a with (p + (a - p)) by lia. apply Hm. lia.
Qed.

Lemma str_size m p l : str_at m p l -> (length l < size m)%nat.
Proof.
  intros Hs. pose proof (mapped_size m p (zlength l + 1) ltac:(unfold zlength; lia) (str_at_mapped m p l Hs)) as H.
  unfold zlength in H. lia.
Qed.

Lemma strlen_loop_spec m p l fuel i :
  str_at m (p + i) l -> (length l < fuel)%nat -> strlen_loop fuel p i m = Ret (i + zlength l, m).
Proof.
  unfold zlength. revert fuel i. induction l as [|c l IH]; intros [|fuel] i Hs Hf; cbn in *; try lia.
  - rewrite (bind_ok _ _ _ _ _ (load_ok _ _ _ Hs)). cbn. by rewrite Z.add_0_r.
  - destruct Hs as (Hc & Hn & Hs). rewrite (bind_ok _ _ _ _ _ (load_ok _ _ _ Hc)).
    rewrite (proj2 (Z.eqb_neq c 0)) by done. rewrite IH; [|by rewrite Z.add_assoc|lia]. do 2 f_equal. lia.
Qed.

Lemma strlen_spec m p l : str_at m p l -> strlen p m = Ret (zlength l, m).
Proof.
  intros Hs. unfold strlen. rewrite (strlen_loop_spec m p l); [done|by rewrite Z.add_0_r|].
  pose proof (str_size m p l Hs). lia.
Qed.

(** The order of two strings: by their first different characters. *)
Fixpoint str_order (a b : list Z) : Z :=
  match a, b with
  | [], [] => 0
  | [], _ :: _ => -1
  | _ :: _, [] => 1
  | x :: a, y :: b => if y <? x then 1 else if x =? y then str_order a b else -1
  end.

Lemma str_order_eq a b : str_order a b = 0 <-> a = b.
Proof.
  revert b. induction a as [|x a IH]; intros [|y b]; cbn; try done.
  destruct (Z.ltb_spec y x); [split; [done|intros [= ? ?]; lia]|].
  destruct (Z.eqb_spec x y) as [->|]; [rewrite IH; naive_solver|naive_solver].
Qed.

Lemma str_char m p l i c : str_at m p l -> (l ++ [0]) !! i = Some c -> m !! (p + Z.of_nat i) = Some c.
Proof.
  intros Hs Hi. rewrite <- (app_nil_r l) in Hs. apply str_at_app in Hs as [Hs H0]. unfold zlength in H0. cbn in H0.
  apply lookup_app_Some in Hi as [Hi|[Hle Hi]].
  - destruct (Hs i) as (d & H1 & H2 & H3); [by eapply lookup_lt_Some|]. congruence.
  - apply list_lookup_singleton_Some in Hi as [Hi <-]. by replace i with (length l) by lia.
Qed.

(** The characters of [l] and its terminator are read from [i] on. *)
Definition reads (r : Z -> M mem Z) (m : mem) (i : Z) (l : list Z) : Prop :=
  forall j c, (l ++ [0]) !! j = Some c -> r (i + Z.of_nat j) m = Ret (c, m).

Lemma reads_cons r m i c l : reads r m i (c :: l) -> r i m = Ret (c, m) /\ reads r m (i + 1) l.
Proof.
  intros H. split; [rewrite <- (Z.add_0_r i); by apply (H O)|]. intros j d Hd.
  replace (i + 1 + Z.of_nat j) with (i + Z.of_nat (S j)) by lia. by apply H.
Qed.

Lemma reads_nil r m i : reads r m i [] -> r i m = Ret (0, m).
Proof. intros H. rewrite <- (Z.add_0_r i). by apply (H O). Qed.

Lemma reads_str m p l : str_at m p l -> reads (fun i => load (p + i)) m 0 l.
Proof. intros Hs j c Hj. apply load_ok. rewrite Z.add_0_l. by eapply str_char. Qed.

Lemma reads_const m l : reads (load_const l) m 0 l.
Proof. intros j c Hj. unfold load_const. rewrite Z.add_0_l, Nat2Z.id. by rewrite Hj. Qed.

(** The characters of a string: not the terminator. *)
Definition char_ok (c : Z) : Prop := 0 < c < 256.

Lemma strcmp_loop_spec m ra rb a b fuel i :
  reads ra m i a -> reads rb m i b -> Forall char_ok a -> Forall char_ok b -> (length a < fuel)%nat ->
  strcmp_loop fuel ra rb i m = Ret (str_order a b, m).
Proof.
  revert b fuel i. induction a as [|x a IH]; intros b [|fuel] i Ha Hb Ca Cb Hf; cbn in Hf; try lia; cbn [strcmp_loop].
  - rewrite (bind_ok _ _ _ _ _ (reads_nil _ _ _ Ha)), Z.eqb_refl. mrun. cbn [negb andb].
    destruct b as [|y b].
    + by rewrite (bind_ok _ _ _ _ _ (reads_nil _ _ _ Hb)).
    + apply reads_cons in Hb as [Hy _]. apply list.Forall_cons in Cb as [Cy _]. unfold char_ok in Cy.
      rewrite (bind_ok _ _ _ _ _ Hy). cbn [str_order].
      destruct (Z.ltb_spec y 0); [lia|]. by rewrite (proj2 (Z.eqb_neq 0 y)) by lia.
  - apply reads_cons in Ha as [Hx Ha]. rewrite (bind_ok _ _ _ _ _ Hx).
    apply list.Forall_cons in Ca as [Cx Ca]. unfold char_ok in Cx.
    rewrite (proj2 (Z.eqb_neq x 0)) by lia. cbn [negb andb]. destruct b as [|y b].
    + apply reads_nil in Hb. rewrite !(bind_ok _ _ _ _ _ Hb), (proj2 (Z.eqb_neq x 0)) by lia.
      rewrite !(bind_ok _ _ _ _ _ Hb). by rewrite (proj2 (Z.ltb_lt 0 x)) by lia.
    + apply reads_cons in Hb as [Hy Hb]. rewrite !(bind_ok _ _ _ _ _ Hy).
      apply list.Forall_cons in Cb as [_ Cb]. cbn [str_order].
      destruct (Z.eqb_spec x y) as [->|Hxy].
      * rewrite (IH b) by (done || lia). by rewrite Z.ltb_irrefl.
      * rewrite !(bind_ok _ _ _ _ _ Hy). destruct (y <? x); [done|]. by rewrite (proj2 (Z.eqb_neq x y)) by done.
Qed.

Lemma strcmp_spec m p q a b :
  str_at m p a -> str_at m q b -> Forall char_ok a -> Forall char_ok b -> strcmp p q m = Ret (str_order a b, m).
Proof.
  intros Ha Hb Ca Cb. apply strcmp_loop_spec; try done; try by apply reads_str.
  pose proof (str_size m p a Ha). lia.
Qed.

Lemma strcmp_const_spec m p a b :
  str_at m p a -> Forall char_ok a -> Forall char_ok b -> strcmp_const p b m = Ret (str_order a b, m).
Proof.
  intros Ha Ca Cb. apply strcmp_loop_spec; try done; [by apply reads_str|apply reads_const|].
  pose proof (str_size m p a Ha). lia.
Qed.

Lemma const_strcmp_spec m a p b :
  str_at m p b -> Forall char_ok a -> Forall char_ok b -> const_strcmp a p m = Ret (str_order a b, m).
Proof. intros Hb Ca Cb. apply strcmp_loop_spec; try done; [apply reads_const|by apply reads_str|lia]. Qed.

Lemma str_at_same m m' p l :
  str_at m p l -> (forall a, p <= a <= p + zlength l -> m' !! a = m !! a) -> str_at m' p l.
Proof.
  unfold zlength. revert p. induction l as [|c l IH]; intros p Hs Hm; cbn in *; [rewrite Hm; [done|lia]|].
  destruct Hs as (H1 & H2 & H3). split_and!; [rewrite Hm; [done|lia]|done|]. apply IH; [done|]. intros a Ha. apply Hm. lia.
Qed.

(** [strcpy] to a place that does not meet the source. *)
Lemma strcpy_loop_spec m src dst l fuel i :
  0 <= i -> str_at m (src + i) l -> mapped m dst (i + zlength l + 1) ->
  (src + i + zlength l < dst + i \/ dst + i + zlength l < src + i) -> (length l < fuel)%nat ->
  exists m', strcpy_loop fuel dst src i m = Ret (tt, m') /\ str_at m' (dst + i) l /\
    forall a, ~ dst + i <= a <= dst + i + zlength l -> m' !! a = m !! a.
Proof.
  unfold zlength. revert m fuel i. induction l as [|c l IH]; intros m [|fuel] i Hi Hs Hm Hd Hf; cbn in Hf; try lia;
    cbn [strcpy_loop].
  - cbn in Hs. rewrite (bind_ok _ _ _ _ _ (load_ok _ _ _ Hs)). cbn. eexists. split; [apply store_ok, Hm; cbn; lia|].
    cbn. split; [by rewrite lookup_insert_eq|]. intros a Ha. rewrite lookup_insert_ne by lia. done.
  - destruct Hs as (Hc & Hn & Hs). rewrite (bind_ok _ _ _ _ _ (load_ok _ _ _ Hc)).
    rewrite (proj2 (Z.eqb_neq c 0)) by done. cbn [length] in *.
    rewrite (bind_ok _ _ _ _ _ (store_ok (dst + i) c m (Hm i ltac:(lia)))).
    destruct (IH (<[dst + i := c]> m) fuel (i + 1)) as (m' & E & Hs' & Hfr); try lia.
    + rewrite Z.add_assoc. eapply str_at_same; [done|]. unfold zlength. intros a Ha. apply lookup_insert_ne. lia.
    + intros j Hj. apply (mapped_insert m dst (i + Z.of_nat (S (length l)) + 1)); [done|lia].
    + exists m'. split; [done|]. split; [split_and!; [|done|by rewrite <- Z.add_assoc]|].
      * rewrite Hfr by lia. by rewrite lookup_insert_eq.
      * intros a Ha. rewrite Hfr by lia. apply lookup_insert_ne. lia.
Qed.

Lemma strcpy_spec m src dst l :
  str_at m src l -> mapped m dst (zlength l + 1) -> (src + zlength l < dst \/ dst + zlength l < src) ->
  exists m', strcpy dst src m = Ret (dst, m') /\ str_at m' dst l /\
    forall a, ~ dst <= a <= dst + zlength l -> m' !! a = m !! a.
Proof.
  intros Hs Hm Hd. destruct (strcpy_loop_spec m src dst l (S (size m)) 0) as (m' & E & Hs' & Hfr);
    rewrite ?Z.add_0_r in *; try done.
  - pose proof (str_size m src l Hs). lia.
  - exists m'. split_and!; try done. unfold strcpy. by rewrite (bind_ok _ _ _ _ _ E).
Qed.

Lemma strcat_spec m src dst a b :
  str_at m src b -> str_at m dst a -> mapped m dst (zlength a + zlength b + 1) ->
  (src + zlength b < dst \/ dst + zlength a + zlength b < src) ->
  exists m', strcat dst src m = Ret (dst, m') /\ str_at m' dst (a ++ b) /\
    forall p, ~ dst <= p <= dst + zlength a + zlength b -> m' !! p = m !! p.
Proof.
  intros Hb Ha Hm Hd. unfold strcat. rewrite (bind_ok _ _ _ _ _ (strlen_spec m dst a Ha)).
  assert (Hla : 0 <= zlength a) by (unfold zlength; lia).
  destruct (strcpy_spec m src (dst + zlength a) b) as (m' & E & Hs & Hfr); try done; [|lia|].
  - intros j Hj. rewrite <- Z.add_assoc. apply Hm. lia.
  - exists m'. rewrite (bind_ok _ _ _ _ _ E). split_and!; [done| |intros p Hp; apply Hfr; lia].
    apply str_at_app. split; [|done]. intros j Hj. rewrite <- (app_nil_r a) in Ha. apply str_at_app in Ha as [Ha _].
    destruct (Ha j Hj) as (c & H1 & H2 & H3). exists c. split_and!; try done. rewrite Hfr; [done|unfold zlength in *; lia].
Qed.

Definition found_at (p : Z) (r : option Z) : Z := match r with Some i => p + i | None => 0 end.

Lemma strchr_loop_spec m p l ch fuel :
  str_at m p l -> (length l < fuel)%nat -> strchr_loop fuel p ch m = Ret (found_at p (index_of l ch), m).
Proof.
  revert p fuel. induction l as [|c l IH]; intros p [|fuel] Hs Hf; cbn in Hf; try lia; cbn [strchr_loop index_of].
  - cbn in Hs. rewrite (bind_ok _ _ _ _ _ (load_ok _ _ _ Hs)), Z.eqb_refl.
    rewrite (Z.eqb_sym ch 0). destruct (0 =? ch); cbn [found_at]; by rewrite ?Z.add_0_r.
  - destruct Hs as (Hc & Hn & Hs). rewrite (bind_ok _ _ _ _ _ (load_ok _ _ _ Hc)).
    rewrite (proj2 (Z.eqb_neq c 0)) by done. destruct (c =? ch); [cbn; by rewrite Z.add_0_r|].
    rewrite IH by (done || lia). destruct (index_of l ch); cbn; do 2 f_equal. lia.
Qed.

Lemma strchr_spec m p l ch :
  str_at m p l -> strchr p ch m = Ret (found_at p (index_of l (ch mod 256)), m).
Proof. intros Hs. apply strchr_loop_spec; [done|]. pose proof (str_size m p l Hs). lia. Qed.

(** ** Splitting a line into words *)

(** The words of a line between separators, with [acc] the reversed start of
    the current word. *)
Definition is_sep (seps : list Z) (c : Z) : bool := bool_decide (is_Some (index_of seps c)).

Fixpoint words (seps : list Z) (acc : list Z) (l : list Z) : list (list Z) :=
  match l with
  | [] => match acc with [] => [] | _ => [reverse acc] end
  | c :: l =>
      if is_sep seps c then match acc with [] => words seps [] l | _ => reverse acc :: words seps [] l end
      else words seps (c :: acc) l
  end.

Lemma words_word seps acc w l :
  Forall (fun c => is_sep seps c = false) w -> words seps acc (w ++ l) = words seps (reverse w ++ acc) l.
Proof.
  revert acc. induction w as [|c w IH]; intros acc Hw; [done|]. apply list.Forall_cons in Hw as [Hc Hw].
  cbn [words app]. rewrite Hc, IH by done. rewrite reverse_cons, <- app_assoc. done.
Qed.

(** The first word of a line, after its separators. *)
Lemma line_split seps l :
  (Forall (fun c => is_sep seps c = true) l /\ words seps [] l = []) \/
  exists pre w post, l = pre ++ w ++ post /\ Forall (fun c => is_sep seps c = true) pre /\ w <> [] /\
    Forall (fun c => is_sep seps c = false) w /\
    ((post = [] /\ words seps [] l = [w]) \/
     exists c rest, post = c :: rest /\ is_sep seps c = true /\ words seps [] l = w :: words seps [] rest).
Proof.
  induction l as [|c l IH]; [by left|]. destruct (is_sep seps c) eqn:Ec; cbn; rewrite Ec.
  - destruct IH as [[H1 H2]|(pre & w & post & -> & H1 & H2 & H3 & H4)].
    + left. split; [by apply list.Forall_cons|done].
    + right. exists (c :: pre), w, post. split_and!; try done. by apply list.Forall_cons.
  - right. exists [].
    assert (Hsp : exists w post, l = w ++ post /\ Forall (fun c => is_sep seps c = false) w /\
      (post = [] \/ exists d rest, post = d :: rest /\ is_sep seps d = true)).
    { clear. induction l as [|d l IHl]; [exists [], []; auto|destruct IHl as (w & post & -> & H1 & H2)].
      destruct (is_sep seps d) eqn:Ed; [exists [], (d :: w ++ post); split_and!; [done..|right; by exists d, (w ++ post)]|].
      exists (d :: w), post. split_and!; try done. by apply list.Forall_cons. }
    destruct Hsp as (w & post & -> & Hw & Hp). exists (c :: w), post. split_and!; try done; [by apply list.Forall_cons|].
    assert (E : words seps [c] (w ++ post) = words seps (reverse w ++ [c]) post) by (by apply words_word).
    rewrite E. assert (Er : reverse (reverse w ++ [c]) = c :: w) by (by rewrite reverse_app, reverse_involutive).
    assert (Hne : exists x xs, reverse w ++ [c] = x :: xs) by (destruct (reverse w); cbn; eauto).
    destruct Hne as (x & xs & Ex).
    destruct Hp as [->|(d & rest & -> & Hd)]; [left|right; exists d, rest]; split_and!; try done; cbn.
    + rewrite Ex. by rewrite <- Ex, Er.
    + rewrite Hd, Ex. by rewrite <- Ex, Er.
Qed.

(** The last place of a character in a string with its terminator. *)
Definition last_at (l : list Z) (ch : Z) (i : nat) : Prop :=
  (l ++ [0]) !! i = Some ch /\ forall j, (i < j)%nat -> (l ++ [0]) !! j <> Some ch.

Lemma strrchr_loop_spec m p l ch n :
  str_at m p l -> (n <= S (length l))%nat -> (forall j, (n <= j)%nat -> (l ++ [0]) !! j <> Some ch) ->
  exists r, strrchr_loop n p ch m = Ret (r, m) /\
    ((r = 0 /\ ch ∉ l ++ [0]) \/ exists i, r = p + Z.of_nat i /\ last_at l ch i).
Proof.
  intros Hs. induction n as [|n IH]; intros Hn Hj; cbn [strrchr_loop].
  - exists 0. split; [done|]. left. split; [done|]. intros [j Hj']%list_elem_of_lookup_1. by eapply (Hj j); [lia|].
  - destruct (lookup_lt_is_Some_2 (l ++ [0]) n) as [c Hc]; [rewrite length_app; cbn; lia|].
    rewrite (bind_ok _ _ _ _ _ (load_ok _ _ _ (str_char _ _ _ _ _ Hs Hc))).
    destruct (Z.eqb_spec c ch) as [->|Hne].
    + eexists. split; [done|]. right. exists n. split; [done|]. split; [done|]. intros j ?. apply Hj. lia.
    + apply IH; [lia|]. intros j Hj'. destruct (decide (j = n)) as [->|]; [congruence|]. apply Hj. lia.
Qed.

Lemma strrchr_spec m p l ch :
  str_at m p l ->
  exists r, strrchr p ch m = Ret (r, m) /\
    ((r = 0 /\ ch mod 256 ∉ l ++ [0]) \/ exists i, r = p + Z.of_nat i /\ last_at l (ch mod 256) i).
Proof.
  intros Hs. unfold strrchr. rewrite (bind_ok _ _ _ _ _ (strlen_spec m p l Hs)). unfold zlength.
  replace (Z.to_nat (Z.of_nat (length l) + 1)) with (S (length l)) by lia. apply strrchr_loop_spec; [done..|].
  intros j Hj. rewrite lookup_ge_None_2; [done|]. rewrite length_app. cbn. lia.
Qed.

Lemma str_char_neq m p l1 c l2 : str_at m p (l1 ++ c :: l2) -> m !! (p + zlength l1) = Some c /\ c <> 0.
Proof. intros Hs. apply str_at_app in Hs as [_ (H1 & H2 & _)]. done. Qed.

Lemma skip_seps_spec m seps p pre l fuel :
  str_at m p (pre ++ l) -> Forall (fun c => is_sep seps c = true) pre ->
  match l with [] => True | c :: _ => is_sep seps c = false end -> (length pre < fuel)%nat ->
  skip_seps fuel seps p m = Ret (p + zlength pre, m).
Proof.
  unfold zlength. revert p fuel. induction pre as [|c pre IH]; intros p [|fuel] Hs Hp Hl Hf; cbn in Hf; try lia;
    cbn [skip_seps].
  - destruct l as [|c l]; cbn in Hs.
    + rewrite (bind_ok _ _ _ _ _ (load_ok _ _ _ Hs)), Z.eqb_refl. cbn [negb andb length]. by rewrite Z.add_0_r.
    + destruct Hs as (Hc & Hn & _). rewrite (bind_ok _ _ _ _ _ (load_ok _ _ _ Hc)). unfold is_sep in Hl. rewrite Hl.
      rewrite andb_false_r. cbn [length]. by rewrite Z.add_0_r.
  - destruct Hs as (Hc & Hn & Hs). apply list.Forall_cons in Hp as [Hpc Hp].
    rewrite (bind_ok _ _ _ _ _ (load_ok _ _ _ Hc)). unfold is_sep in Hpc. rewrite Hpc, (proj2 (Z.eqb_neq c 0)) by done.
    cbn [negb andb]. rewrite (IH (p + 1)) by (done || lia). do 2 f_equal. cbn [length]. lia.
Qed.

Lemma skip_word_spec m seps p w l fuel :
  str_at m p (w ++ l) -> Forall (fun c => is_sep seps c = false) w ->
  match l with [] => True | c :: _ => is_sep seps c = true end -> (length w < fuel)%nat ->
  skip_word fuel seps p m = Ret (p + zlength w, m).
Proof.
  unfold zlength. revert p fuel. induction w as [|c w IH]; intros p [|fuel] Hs Hp Hl Hf; cbn in Hf; try lia;
    cbn [skip_word].
  - destruct l as [|c l]; cbn in Hs.
    + rewrite (bind_ok _ _ _ _ _ (load_ok _ _ _ Hs)), Z.eqb_refl. cbn [negb andb length]. by rewrite Z.add_0_r.
    + destruct Hs as (Hc & Hn & _). rewrite (bind_ok _ _ _ _ _ (load_ok _ _ _ Hc)). unfold is_sep in Hl. rewrite Hl.
      rewrite andb_false_r. cbn [length]. by rewrite Z.add_0_r.
  - destruct Hs as (Hc & Hn & Hs). apply list.Forall_cons in Hp as [Hpc Hp].
    rewrite (bind_ok _ _ _ _ _ (load_ok _ _ _ Hc)). unfold is_sep in Hpc. rewrite Hpc, (proj2 (Z.eqb_neq c 0)) by done.
    cbn [negb andb]. rewrite (IH (p + 1)) by (done || lia). do 2 f_equal. cbn [length]. lia.
Qed.

(** What one call of [strtok_r] does to the rest of a line. *)
Inductive token (seps : list Z) (m : mem) (p : Z) (l : list Z) : Z -> Z -> mem -> Prop :=
| token_none : words seps [] l = [] -> token seps m p l 0 0 m
| token_last pre w : l = pre ++ w -> words seps [] l = [w] -> str_at m (p + zlength pre) w ->
    token seps m p l (p + zlength pre) 0 m
| token_more pre w c rest m' : l = pre ++ w ++ c :: rest -> words seps [] l = w :: words seps [] rest ->
    m' = <[p + zlength pre + zlength w := 0]> m -> str_at m' (p + zlength pre) w ->
    str_at m' (p + zlength pre + zlength w + 1) rest ->
    token seps m p l (p + zlength pre) (p + zlength pre + zlength w + 1) m'.

(** Where the call finds its line: the argument, or the context when it is null. *)
Definition line_of (string context : Z) : Z := if negb (string =? 0) then string else context.

Lemma str_at_prefix m p l1 l2 m' :
  str_at m p (l1 ++ l2) -> m' !! (p + zlength l1) = Some 0 ->
  (forall a, p <= a < p + zlength l1 -> m' !! a = m !! a) -> str_at m' p l1.
Proof.
  intros Hs H0 Hm. rewrite <- (app_nil_r l1). apply str_at_app in Hs as [Hs _]. apply str_at_app. split; [|done].
  intros j Hj. destruct (Hs j Hj) as (c & H1 & H2 & H3). exists c. split_and!; try done.
  rewrite Hm; [done|unfold zlength; lia].
Qed.

Lemma token_word m seps p pre w post :
  str_at m p (pre ++ w ++ post) -> Forall (fun c => is_sep seps c = true) pre -> w <> [] ->
  Forall (fun c => is_sep seps c = false) w ->
  match post with [] => True | c :: _ => is_sep seps c = true end -> p <> 0 ->
  strtok_r p seps 0 m = (let* c := load (p + zlength pre + zlength w) in
      if c =? 0 then ret (p + zlength pre, 0)
      else do* store (p + zlength pre + zlength w) 0 in ret (p + zlength pre, p + zlength pre + zlength w + 1)) m.
Proof.
  intros Hs Hpre Hw Hww Hpost Hp. unfold strtok_r. rewrite (proj2 (Z.eqb_neq p 0)) by done. cbn [negb].
  pose proof (str_size _ _ _ Hs) as Hsz. rewrite !length_app in Hsz.
  rewrite (proj2 (Z.eqb_neq p 0)) by done.
  rewrite (bind_ok _ _ _ _ _ (skip_seps_spec m seps p pre (w ++ post) (S (size m)) Hs Hpre
    ltac:(destruct w as [|c w]; [done|by apply list.Forall_cons in Hww as [? _]]) ltac:(lia))).
  pose proof Hs as [_ Hs2]%str_at_app. destruct w as [|c w]; [done|]. pose proof Hs2 as (Hc & Hn & _).
  rewrite (bind_ok _ _ _ _ _ (load_ok _ _ _ Hc)), (proj2 (Z.eqb_neq c 0)) by done.
  rewrite (bind_ok _ _ _ _ _ (skip_word_spec m seps _ (c :: w) post (S (size m)) Hs2 Hww Hpost ltac:(lia))).
  done.
Qed.

Lemma strtok_r_args string seps context m :
  line_of string context <> 0 -> strtok_r string seps context m = strtok_r (line_of string context) seps 0 m.
Proof.
  unfold strtok_r. intros H. cbv zeta. fold (line_of string context). rewrite (proj2 (Z.eqb_neq _ 0) H). cbn [negb].
  by rewrite (proj2 (Z.eqb_neq _ 0) H).
Qed.

Lemma strtok_r_token m seps string context l :
  line_of string context <> 0 -> str_at m (line_of string context) l ->
  exists word ctx m', strtok_r string seps context m = Ret ((word, ctx), m') /\
    token seps m (line_of string context) l word ctx m'.
Proof.
  intros Hp Hs. rewrite strtok_r_args by done. set (p := line_of string context) in *. clearbody p.
  destruct (line_split seps l) as [[Hsep Hw]|(pre & w & post & -> & Hpre & Hw & Hww & Hpost)].
  - exists 0, 0, m. split; [|by constructor]. unfold strtok_r. rewrite (proj2 (Z.eqb_neq p 0)) by done. cbn [negb].
    rewrite (proj2 (Z.eqb_neq p 0)) by done.
    assert (Hs' := Hs). rewrite <- (app_nil_r l) in Hs'. pose proof (str_size _ _ _ Hs) as Hsz.
    rewrite (bind_ok _ _ _ _ _ (skip_seps_spec m seps p l [] (S (size m)) Hs' Hsep I ltac:(lia))).
    apply str_at_app in Hs' as [_ H0]. cbn in H0. rewrite (bind_ok _ _ _ _ _ (load_ok _ _ _ H0)). done.
  - assert (Hm : match post with [] => True | c :: _ => is_sep seps c = true end).
    { destruct Hpost as [[-> _]|(c & rest & -> & ? & _)]; done. }
    rewrite (token_word m seps p pre w post) by done.
    pose proof Hs as [_ Hs2]%str_at_app. pose proof Hs2 as [_ Hs3]%str_at_app.
    destruct Hpost as [[-> E]|(c & rest & -> & Hc & E)].
    + cbn in Hs3. rewrite (bind_ok _ _ _ _ _ (load_ok _ _ _ Hs3)). do 3 eexists. split; [done|].
      rewrite app_nil_r in *. by eapply token_last.
    + destruct Hs3 as (H1 & H2 & H3). rewrite (bind_ok _ _ _ _ _ (load_ok _ _ _ H1)), (proj2 (Z.eqb_neq c 0)) by done.
      rewrite (bind_ok _ _ _ _ _ (store_ok _ 0 m (mk_is_Some _ _ H1))). do 3 eexists. split; [done|].
      eapply token_more; try done.
      * eapply str_at_prefix; [done|by rewrite lookup_insert_eq|]. intros a Ha. apply lookup_insert_ne. lia.
      * eapply str_at_same; [done|]. intros a Ha. apply lookup_insert_ne. lia.
Qed.
