(* ===== verification/Menu.v ===== *)
(** * The kernel menu (kern/startup/menu.c)

    The command line of the kernel: commands are separated by semicolons and
    words by blanks, both with [strtok_r] on the buffer that holds the line, so
    that a command is split in place while the rest of the line is still to
    be read.  What a command does to the rest of the kernel is behind the
    interface [subsystems]; the menu is shown to refine a reading of the line as
    a list of lists of words.  The console output and the timing of commands
    are left out, [getinterval] apart. *)

From Stdlib Require Import ZArith Lia Ascii.
From stdpp Require Import base numbers list gmap strings.
From S2P Require Import Prelude CLib.

(** ** The command table *)

Definition lit (s : string) : list Z := List.map (fun c => Z.of_nat (nat_of_ascii c)) (String.list_ascii_of_string s).

Definition MAXMENUARGS : Z := 16.
Definition E2BIG : Z := 14.

Inductive command :=
  | Mainmenu | Opsmenu | Testmenu
  | Shell | Prog | Mount | Unmount | Bootfs | Printfile | Chdir | Pwd | Sync | DoPanic | Quit | Dth
  | Kheapstats
  | Arraytest | Bitmaptest | Malloctest | Mallocstress | Threadtest | Threadtest2 | Threadtest3 | Semtest
  | Locktest | Cvtest | Uwlocktest1 | Uwvmstatstest
  | Fstest | Readstress | Writestress | Writestress2 | Createstress.

#[global] Instance command_eq_dec : EqDecision command.
Proof. solve_decision. Defined.

Definition cmdtable : list (list Z * command) :=
  [(lit "?", Mainmenu); (lit "h", Mainmenu); (lit "help", Mainmenu); (lit "?o", Opsmenu); (lit "?t", Testmenu);
   (lit "s", Shell); (lit "p", Prog); (lit "mount", Mount); (lit "unmount", Unmount); (lit "bootfs", Bootfs);
   (lit "pf", Printfile); (lit "cd", Chdir); (lit "pwd", Pwd); (lit "sync", Sync); (lit "panic", DoPanic);
   (lit "q", Quit); (lit "exit", Quit); (lit "halt", Quit); (lit "dth", Dth);
   (lit "kh", Kheapstats);
   (lit "at", Arraytest); (lit "bt", Bitmaptest); (lit "km1", Malloctest); (lit "km2", Mallocstress);
   (lit "tt1", Threadtest); (lit "tt2", Threadtest2); (lit "tt3", Threadtest3); (lit "sy1", Semtest);
   (lit "sy2", Locktest); (lit "sy3", Cvtest); (lit "uw1", Uwlocktest1); (lit "uw2", Uwvmstatstest);
   (lit "fs1", Fstest); (lit "fs2", Readstress); (lit "fs3", Writestress); (lit "fs4", Writestress2);
   (lit "fs5", Createstress)].

(** The 64-bit seconds and 32-bit nanoseconds between two times. *)
Definition getinterval (s1 ns1 s2 ns2 : Z) : Z * Z :=
  let '(s2, ns2) := if ns2 <? ns1 then (s2 - 1, w32 (ns2 + 1000000000)) else (s2, ns2) in
  (s2 - s1, w32 (ns2 - ns1)).

(** ** The promise of the other parts of the kernel *)

(** Strings one after the other in the memory from [lo] to [hi]. *)
Fixpoint laid_out (m : mem) (lo : Z) (args : list Z) (ws : list (list Z)) (hi : Z) : Prop :=
  match args, ws with
  | [], [] => lo <= hi + 1
  | p :: args, w :: ws => lo <= p /\ str_at m p w /\ laid_out m (p + zlength w + 1) args ws hi
  | _, _ => False
  end.

Definition word_ok (w : list Z) : Prop := w <> [] /\ Forall char_ok w.

Definition same_outside (m m' : mem) (lo hi : Z) : Prop := forall a, ~ lo <= a <= hi -> m' !! a = m !! a.

(** [f], run with the memory [m], does [g] to the rest of the kernel and changes
    no byte outside [lo] to [hi]. *)
Definition implements {K A} (f : M (mem * K) A) (g : K -> outcome (A * K)) (m : mem) (lo hi : Z) : Prop :=
  forall k, match g k with
            | Ret (a, k') => exists m', f (m, k) = Ret (a, (m', k')) /\ same_outside m m' lo hi
            | Panic => f (m, k) = Panic
            | Fault => f (m, k) = Fault
            | NoFuel => f (m, k) = NoFuel
            end.

(** What a command calls, by a pointer to its argument or by its [args] array, and
    what that means for the strings that the pointers stand for.  The called
    code may change the strings that it is given. *)
Class subsystems (K : Type) := {
  vfs_chdir : Z -> M (mem * K) Z;
  vfs_unmount : Z -> M (mem * K) Z;
  vfs_setbootfs : Z -> M (mem * K) Z;
  sfs_mount : Z -> M (mem * K) Z;
  common_prog : Z -> list Z -> M (mem * K) Z;
  other_command : command -> Z -> list Z -> M (mem * K) Z;
  chdir_to : list Z -> K -> outcome (Z * K);
  unmount_of : list Z -> K -> outcome (Z * K);
  setbootfs_to : list Z -> K -> outcome (Z * K);
  sfs_mount_of : list Z -> K -> outcome (Z * K);
  prog_run : list (list Z) -> K -> outcome (Z * K);
  other_run : command -> list (list Z) -> K -> outcome (Z * K);
  chdir_law m p w : str_at m p w -> implements (vfs_chdir p) (chdir_to w) m p (p + zlength w);
  unmount_law m p w : str_at m p w -> implements (vfs_unmount p) (unmount_of w) m p (p + zlength w);
  setbootfs_law m p w : str_at m p w -> implements (vfs_setbootfs p) (setbootfs_to w) m p (p + zlength w);
  sfs_mount_law m p w : str_at m p w -> implements (sfs_mount p) (sfs_mount_of w) m p (p + zlength w);
  prog_law m lo args ws hi : laid_out m lo args ws hi -> Forall word_ok ws ->
    implements (common_prog (zlength args) args) (prog_run ws) m lo hi;
  other_law c m lo args ws hi : laid_out m lo args ws hi -> Forall word_ok ws ->
    implements (other_command c (zlength args) args) (other_run c ws) m lo hi
}.

(** ** Commands *)

Section menu.
Context {K : Type} `{!subsystems K}.

Definition on_mem {A} (c : M mem A) : M (mem * K) A := fun s =>
  match c s.1 with
  | Ret (a, m) => Ret (a, (m, s.2))
  | Panic => Panic
  | Fault => Fault
  | NoFuel => NoFuel
  end.

Definition arg (args : list Z) (i : Z) : M (mem * K) Z :=
  match args !! Z.to_nat i with Some p => ret p | None => fun _ => Fault end.

Definition cmd_prog (nargs : Z) (args : list Z) : M (mem * K) Z :=
  if nargs <? 2 then ret EINVAL else common_prog (nargs - 1) (tail args).

Definition cmd_chdir (nargs : Z) (args : list Z) : M (mem * K) Z :=
  if negb (nargs =? 2) then ret EINVAL else let* p := arg args 1 in vfs_chdir p.

(** A colon is allowed (but not required) after a device name. *)
Definition strip_colon (device : Z) : M mem unit :=
  let* n := strlen device in
  let* c := load (device + n - 1) in
  if c =? 58 then let* n := strlen device in store (device + n - 1) 0 else ret tt.

Definition mounttable : list (list Z * (Z -> M (mem * K) Z)) := [(lit "sfs", sfs_mount)].

Fixpoint mount_as (table : list (list Z * (Z -> M (mem * K) Z))) (fstype device : Z) : M (mem * K) Z :=
  match table with
  | [] => ret EINVAL
  | (name, func) :: table =>
      let* r := on_mem (const_strcmp name fstype) in
      if r =? 0 then func device else mount_as table fstype device
  end.

Definition cmd_mount (nargs : Z) (args : list Z) : M (mem * K) Z :=
  if negb (nargs =? 3) then ret EINVAL
  else
    let* fstype := arg args 1 in
    let* device := arg args 2 in
    do* on_mem (strip_colon device) in
    mount_as mounttable fstype device.

Definition cmd_unmount (nargs : Z) (args : list Z) : M (mem * K) Z :=
  if negb (nargs =? 2) then ret EINVAL
  else
    let* device := arg args 1 in
    do* on_mem (strip_colon device) in
    vfs_unmount device.

Definition cmd_bootfs (nargs : Z) (args : list Z) : M (mem * K) Z :=
  if negb (nargs =? 2) then ret EINVAL
  else
    let* device := arg args 1 in
    do* on_mem (strip_colon device) in
    vfs_setbootfs device.

Definition func (c : command) (nargs : Z) (args : list Z) : M (mem * K) Z :=
  match c with
  | Prog => cmd_prog nargs args
  | Chdir => cmd_chdir nargs args
  | Mount => cmd_mount nargs args
  | Unmount => cmd_unmount nargs args
  | Bootfs => cmd_bootfs nargs args
  | DoPanic => fun _ => Panic
  | c => other_command c nargs args
  end.

(** ** Dispatching a command *)

Definition blanks : list Z := lit (String " " (String "009" "")).

(** The words of the command, or [None] when there are too many. *)
Fixpoint get_args (fuel : nat) (word context : Z) (args : list Z) : M mem (option (list Z)) :=
  match fuel with
  | O => fun _ => NoFuel
  | S fuel =>
      if word =? 0 then ret (Some args)
      else if MAXMENUARGS <=? zlength args then ret None
      else
        let* r := strtok_r 0 blanks context in
        get_args fuel r.1 r.2 (args ++ [word])
  end.

Fixpoint dispatch (table : list (list Z * command)) (args : list Z) : M (mem * K) Z :=
  match table with
  | [] => ret EINVAL
  | (name, c) :: table =>
      let* word := arg args 0 in
      let* r := if bool_decide (name = []) then ret 1 else on_mem (strcmp_const word name) in
      if r =? 0 then func c (zlength args) args else dispatch table args
  end.

(** The arguments are bounded by [MAXMENUARGS], and with them the calls of
    [strtok_r]; the context is not set before the first call. *)
Definition cmd_dispatch (cmd : Z) : M (mem * K) Z :=
  let* r := on_mem (strtok_r cmd blanks 0) in
  let* args := on_mem (get_args (Z.to_nat MAXMENUARGS + 2) r.1 r.2 []) in
  match args with
  | None => ret E2BIG
  | Some args => if zlength args =? 0 then ret 0 else dispatch cmdtable args
  end.

Definition semicolon : list Z := lit ";".

Fixpoint execute_loop (fuel : nat) (isargs : bool) (cmd context : Z) : M (mem * K) unit :=
  match fuel with
  | O => fun _ => NoFuel
  | S fuel =>
      if cmd =? 0 then ret tt
      else
        let* result := cmd_dispatch cmd in
        if negb (result =? 0) && isargs then panic
        else
          let* r := on_mem (strtok_r 0 semicolon context) in
          execute_loop fuel isargs r.1 r.2
  end.

Definition menu_execute (line : Z) (isargs : bool) : M (mem * K) unit := fun s =>
  (let* r := on_mem (strtok_r line semicolon 0) in
   execute_loop (S (S (size s.1))) isargs r.1 r.2) s.

(** ** What a line means *)

Definition chop_colon (w : list Z) : list Z :=
  if bool_decide (last w = Some 58) then removelast w else w.

Definition run (c : command) (ws : list (list Z)) (k : K) : outcome (Z * K) :=
  match c, ws with
  | Prog, _ :: (_ :: _) as ws' => prog_run ws' k
  | Prog, _ => Ret (EINVAL, k)
  | Chdir, [_; dir] => chdir_to dir k
  | Mount, [_; fstype; device] =>
      if bool_decide (fstype = lit "sfs") then sfs_mount_of (chop_colon device) k else Ret (EINVAL, k)
  | Unmount, [_; device] => unmount_of (chop_colon device) k
  | Bootfs, [_; device] => setbootfs_to (chop_colon device) k
  | (Chdir | Mount | Unmount | Bootfs), _ => Ret (EINVAL, k)
  | DoPanic, _ => Panic
  | c, ws => other_run c ws k
  end.

Fixpoint find_command (table : list (list Z * command)) (w : list Z) : option command :=
  match table with
  | [] => None
  | (name, c) :: table => if bool_decide (w = name) then Some c else find_command table w
  end.

Definition run_command (ws : list (list Z)) (k : K) : outcome (Z * K) :=
  match ws with
  | [] => Ret (0, k)
  | w :: _ =>
      if MAXMENUARGS <? zlength ws then Ret (E2BIG, k)
      else match find_command cmdtable w with
           | Some c => run c ws k
           | None => Ret (EINVAL, k)
           end
  end.

Fixpoint run_commands (isargs : bool) (cs : list (list Z)) (k : K) : outcome (unit * K) :=
  match cs with
  | [] => Ret (tt, k)
  | c :: cs =>
      match run_command (words blanks [] c) k with
      | Ret (r, k') => if negb (r =? 0) && isargs then Panic else run_commands isargs cs k'
      | Panic => Panic
      | Fault => Fault
      | NoFuel => NoFuel
      end
  end.

End menu.

(** ** Memory that a command may change *)

Lemma same_outside_refl m lo hi : same_outside m m lo hi.
Proof. by intros a _. Qed.

Lemma same_outside_trans m1 m2 m3 lo hi :
  same_outside m1 m2 lo hi -> same_outside m2 m3 lo hi -> same_outside m1 m3 lo hi.
Proof. intros H1 H2 a Ha. rewrite H2, H1; done. Qed.

Lemma same_outside_sub m m' lo hi lo' hi' :
  same_outside m m' lo hi -> lo' <= lo -> hi <= hi' -> same_outside m m' lo' hi'.
Proof. intros H ? ? a Ha. apply H. lia. Qed.

Lemma implements_sub {K A} (f : M (mem * K) A) g m lo hi lo' hi' :
  implements f g m lo hi -> lo' <= lo -> hi <= hi' -> implements f g m lo' hi'.
Proof.
  intros H ? ? k. specialize (H k). destruct (g k) as [[a k']| | |]; try done.
  destruct H as (m' & ? & ?). exists m'. split; [done|by eapply same_outside_sub].
Qed.

Lemma implements_after {K A} (f f' : M (mem * K) A) g m m1 lo hi :
  same_outside m m1 lo hi -> (forall k, f (m, k) = f' (m1, k)) -> implements f' g m1 lo hi -> implements f g m lo hi.
Proof.
  intros Hs Hf H k. specialize (H k). rewrite Hf. destruct (g k) as [[a k']| | |]; try done.
  destruct H as (m' & ? & ?). exists m'. split; [done|by eapply same_outside_trans].
Qed.

Lemma implements_ret {K A} (a : A) (m : mem) lo hi : implements (K := K) (ret a) (fun k => Ret (a, k)) m lo hi.
Proof. intros k. exists m. split; [done|apply same_outside_refl]. Qed.

Lemma on_mem_ok {K A} (c : M mem A) a m m' (k : K) : c m = Ret (a, m') -> on_mem c (m, k) = Ret (a, (m', k)).
Proof. unfold on_mem. cbn. by intros ->. Qed.

(** ** Strings one after the other *)

Lemma laid_out_bounds m lo args ws hi : laid_out m lo args ws hi -> lo <= hi + 1.
Proof.
  revert lo ws. induction args as [|p args IH]; intros lo [|w ws]; cbn; try done.
  intros (? & ? & H%IH). pose proof (zlength_nonneg w). lia.
Qed.

Lemma laid_out_lo m lo lo' args ws hi : laid_out m lo args ws hi -> lo' <= lo -> laid_out m lo' args ws hi.
Proof. destruct args, ws; cbn; try done; [lia|]. intros (? & ? & ?) ?. split_and!; [lia|done..]. Qed.

Lemma laid_out_cons m lo p args w ws hi :
  laid_out m lo (p :: args) (w :: ws) hi ->
  lo <= p /\ p + zlength w <= hi /\ str_at m p w /\ laid_out m lo args ws hi.
Proof.
  cbn. intros (? & ? & H). pose proof (laid_out_bounds _ _ _ _ _ H). pose proof (zlength_nonneg w).
  split_and!; [done|lia|done|eapply laid_out_lo; [done|lia]].
Qed.

Lemma laid_out_snoc m lo args ws mid p w hi :
  laid_out m lo args ws mid -> mid < p -> str_at m p w -> p + zlength w <= hi -> laid_out m lo (args ++ [p]) (ws ++ [w]) hi.
Proof.
  revert lo ws. induction args as [|q args IH]; intros lo [|v ws]; cbn; try done.
  - intros. split_and!; [lia|done|lia].
  - intros (? & ? & ?) ? ? ?. split_and!; [done..|]. by apply IH.
Qed.

Lemma laid_out_same m m' lo args ws hi :
  laid_out m lo args ws hi -> (forall a, lo <= a <= hi -> m' !! a = m !! a) -> laid_out m' lo args ws hi.
Proof.
  revert lo ws. induction args as [|p args IH]; intros lo [|w ws]; try done. intros H Hm.
  pose proof H as (? & ? & ? & _)%laid_out_cons. destruct H as (? & ? & H). pose proof (zlength_nonneg w).
  split_and!; [done| |].
  - eapply str_at_same; [done|]. intros a ?. apply Hm. lia.
  - apply IH; [done|]. intros a ?. apply Hm. lia.
Qed.

Lemma laid_out_length m lo args ws hi : laid_out m lo args ws hi -> zlength args = zlength ws.
Proof.
  unfold zlength. revert lo ws. induction args as [|p args IH]; intros lo [|w ws]; cbn; try done.
  intros (_ & _ & H%IH). lia.
Qed.

(** ** Commands do what they mean *)

Lemma strip_colon_spec m p w :
  str_at m p w -> word_ok w ->
  exists m', strip_colon p m = Ret (tt, m') /\ str_at m' p (chop_colon w) /\
    same_outside m m' p (p + zlength w) /\ zlength (chop_colon w) <= zlength w.
Proof.
  intros Hs [Hw _]. unfold strip_colon, chop_colon. rewrite (bind_ok _ _ _ _ _ (strlen_spec m p w Hs)).
  destruct (exists_last Hw) as (w0 & c & ->). rewrite last_snoc. pose proof (zlength_nonneg w0).
  destruct (str_char_neq m p w0 c [] Hs) as [Hc Hn]. rewrite zlength_snoc.
  replace (p + (zlength w0 + 1) - 1) with (p + zlength w0) by lia.
  rewrite (bind_ok _ _ _ _ _ (load_ok _ _ _ Hc)). destruct (Z.eqb_spec c 58) as [->|Hne].
  - rewrite (bind_ok _ _ _ _ _ (strlen_spec m p _ Hs)), zlength_snoc.
    replace (p + (zlength w0 + 1) - 1) with (p + zlength w0) by lia. rewrite bool_decide_true by done.
    eexists. split; [by apply store_ok; eexists|]. rewrite removelast_last. split_and!.
    + eapply str_at_prefix; [exact Hs|by rewrite lookup_insert_eq|]. intros a ?. apply lookup_insert_ne. lia.
    + intros a ?. apply lookup_insert_ne. lia.
    + lia.
  - rewrite bool_decide_false by congruence. exists m. rewrite zlength_snoc. split_and!; done || lia.
Qed.

Section refinement.
Context {K : Type} `{!subsystems K}.

(** A handler that strips the colon of its last argument. *)
Lemma device_implements (f : Z -> M (mem * K) Z) g m p w lo hi :
  (forall m p w, str_at m p w -> implements (f p) (g w) m p (p + zlength w)) ->
  str_at m p w -> word_ok w -> lo <= p -> p + zlength w <= hi ->
  implements (do* on_mem (strip_colon p) in f p) (g (chop_colon w)) m lo hi.
Proof.
  intros Hf Hs Hw ? ?. destruct (strip_colon_spec m p w Hs Hw) as (m' & E & Hs' & Ho & Hl).
  eapply (implements_after _ (f p) _ _ m'); [eapply same_outside_sub; done| |].
  - intros k. by rewrite (bind_ok _ _ _ _ _ (on_mem_ok _ _ _ _ k E)).
  - eapply implements_sub; [by apply Hf|lia..].
Qed.

Lemma sfs_mount_implements m fs fstype p w lo hi :
  str_at m fs fstype -> Forall char_ok fstype -> str_at m p w -> lo <= p -> p + zlength w <= hi ->
  implements (mount_as mounttable fs p)
    (fun k => if bool_decide (fstype = lit "sfs") then sfs_mount_of w k else Ret (EINVAL, k)) m lo hi.
Proof.
  intros Hfs Hc Hs ? ?. unfold mounttable. cbn [mount_as].
  assert (E : const_strcmp (lit "sfs") fs m = Ret (str_order (lit "sfs") fstype, m)).
  { apply const_strcmp_spec; try done. repeat constructor. }
  intros k. rewrite (bind_ok _ _ _ _ _ (on_mem_ok _ _ _ _ k E)).
  destruct (Z.eqb_spec (str_order (lit "sfs") fstype) 0) as [Ho|Ho].
  - apply str_order_eq in Ho. rewrite bool_decide_true by done. apply (implements_sub _ _ _ p (p + zlength w)); try lia.
    by apply sfs_mount_law.
  - rewrite bool_decide_false by (intros ->; by rewrite str_order_eq in Ho). apply implements_ret.
Qed.

Lemma mount_implements m lo a0 w0 a1 fstype a2 device hi :
  laid_out m lo [a0; a1; a2] [w0; fstype; device] hi -> word_ok fstype -> word_ok device ->
  implements (cmd_mount 3 [a0; a1; a2]) (run Mount [w0; fstype; device]) m lo hi.
Proof.
  intros H [_ Hf] Hd. pose proof H as (_ & _ & _ & H1)%laid_out_cons. pose proof H1 as (? & ? & Hs1 & _)%laid_out_cons.
  destruct H1 as (_ & _ & Hr). pose proof Hr as (? & ? & Hs2 & _)%laid_out_cons. pose proof (zlength_nonneg fstype).
  destruct (strip_colon_spec m a2 device Hs2 Hd) as (m' & E & Hs' & Ho & Hl).
  eapply (implements_after _ (mount_as mounttable a1 a2) _ _ m'); [eapply same_outside_sub; [done|lia|lia]| |].
  - intros k. change (cmd_mount 3 [a0; a1; a2] (m, k)) with
      ((do* on_mem (strip_colon a2) in mount_as mounttable a1 a2) (m, k)).
    by rewrite (bind_ok _ _ _ _ _ (on_mem_ok _ _ _ _ k E)).
  - cbn [run]. apply sfs_mount_implements; try done; try lia. eapply str_at_same; [done|]. intros a ?. apply Ho. lia.
Qed.

Lemma words_2 {A} (l : list A) : zlength l = 2 -> exists a b, l = [a; b].
Proof. unfold zlength. destruct l as [|a [|b [|c l]]]; cbn; intros; try lia. by exists a, b. Qed.

Lemma words_3 {A} (l : list A) : zlength l = 3 -> exists a b c, l = [a; b; c].
Proof. unfold zlength. destruct l as [|a [|b [|c [|d l]]]]; cbn; intros; try lia. by exists a, b, c. Qed.

(** The commands with one argument. *)
Lemma one_arg_implements (f : Z -> M (mem * K) Z) g gbad m lo args ws hi :
  laid_out m lo args ws hi -> Forall word_ok ws ->
  (forall p w, str_at m p w -> word_ok w -> lo <= p -> p + zlength w <= hi -> implements (f p) (g w) m lo hi) ->
  (forall a b, ws = [a; b] -> gbad = g b) -> (zlength ws <> 2 -> gbad = fun k => Ret (EINVAL, k)) ->
  implements (if negb (zlength args =? 2) then ret EINVAL else let* p := arg args 1 in f p) gbad m lo hi.
Proof.
  intros H Hw Hf Hg Hb. pose proof (laid_out_length _ _ _ _ _ H) as Hl. destruct (Z.eqb_spec (zlength args) 2) as [E|E]; cbn [negb].
  - destruct (words_2 args E) as (a0 & a1 & ->), (words_2 ws) as (w0 & w1 & ->); [lia|].
    apply laid_out_cons in H as (? & ? & ? & H). apply laid_out_cons in H as (? & ? & ? & _).
    rewrite (Hg w0 w1) by done. apply Hf; try done. by repeat (apply list.Forall_cons in Hw as [? Hw]).
  - rewrite Hb by lia. apply implements_ret.
Qed.

Lemma prog_implements m lo args ws hi :
  laid_out m lo args ws hi -> Forall word_ok ws -> implements (cmd_prog (zlength args) args) (run Prog ws) m lo hi.
Proof.
  intros H Hw. pose proof (laid_out_length _ _ _ _ _ H) as Hl. unfold cmd_prog.
  destruct args as [|a0 [|a1 args]], ws as [|w0 [|w1 ws]]; unfold zlength in Hl; cbn in Hl; try lia.
  - apply implements_ret.
  - apply implements_ret.
  - unfold zlength. rewrite (proj2 (Z.ltb_ge _ _)) by (cbn; lia). cbn [tail].
    replace (Z.of_nat (length (a0 :: a1 :: args)) - 1) with (zlength (a1 :: args)) by (unfold zlength; cbn [length]; lia).
    apply laid_out_cons in H as (_ & _ & _ & H). apply list.Forall_cons in Hw as [_ Hw]. by apply prog_law.
Qed.

Lemma func_implements c m lo args ws hi :
  laid_out m lo args ws hi -> Forall word_ok ws -> implements (func c (zlength args) args) (run c ws) m lo hi.
Proof.
  intros H Hw. pose proof (laid_out_length _ _ _ _ _ H) as Hl.
  assert (Hbad : zlength ws <> 2 -> forall c, c = Chdir \/ c = Unmount \/ c = Bootfs -> run c ws = fun k => Ret (EINVAL, k)).
  { intros Hn d Hd. unfold zlength in Hn. destruct ws as [|? [|? [|? ?]]]; cbn in Hn; try lia;
      destruct Hd as [->|[->| ->]]; done. }
  destruct c; try (by apply other_law); cbn [func].
  - by apply prog_implements.
  - destruct (decide (zlength ws = 3)) as [E|E].
    + destruct (words_3 ws E) as (w0 & w1 & w2 & ->), (words_3 args) as (a0 & a1 & a2 & ->); [lia|].
      change (zlength [a0; a1; a2]) with 3. apply mount_implements; [done|..]; by repeat (apply list.Forall_cons in Hw as [? Hw]).
    + unfold cmd_mount. rewrite (proj2 (Z.eqb_neq _ _)) by lia. cbn [negb].
      replace (run Mount ws) with (fun k : K => Ret (EINVAL, k)); [apply implements_ret|].
      unfold zlength in E. destruct ws as [|? [|? [|? [|? ?]]]]; cbn in E; try lia; done.
  - eapply (one_arg_implements _ (fun w => unmount_of (chop_colon w))); try done; [|by intros a b ->|naive_solver].
    intros. by eapply device_implements; [apply unmount_law|..].
  - eapply (one_arg_implements _ (fun w => setbootfs_to (chop_colon w))); try done; [|by intros a b ->|naive_solver].
    intros. by eapply device_implements; [apply setbootfs_law|..].
  - eapply (one_arg_implements _ chdir_to); try done; [|by intros a b ->|naive_solver].
    intros p w ? ? ? ?. eapply implements_sub; [by apply chdir_law|lia..].
  - by intros k.
Qed.
End refinement.

(** ** The loops over [strtok_r] *)

Lemma words_Forall (P : Z -> Prop) seps acc l :
  Forall P l -> Forall P acc -> Forall (fun w => w <> [] /\ Forall P w) (words seps acc l).
Proof.
  assert (Hr : forall c acc, Forall P (c :: acc) -> reverse (c :: acc) <> [] /\ Forall P (reverse (c :: acc))).
  { intros c a H. split; [|by apply Forall_reverse]. rewrite reverse_cons. by destruct (reverse a). }
  revert acc. induction l as [|c l IH]; intros acc Hl Ha; cbn [words].
  - destruct acc; [done|]. apply list.Forall_cons. split; [by apply Hr|done].
  - apply list.Forall_cons in Hl as [Hc Hl]. destruct (is_sep seps c); [|apply IH; [done|by apply list.Forall_cons]].
    destruct acc; [by apply IH|]. apply list.Forall_cons. split; [by apply Hr|by apply IH].
Qed.

Lemma words_length seps acc l : (length (words seps acc l) <= S (length l))%nat /\
  (acc = [] -> (length (words seps acc l) <= length l)%nat).
Proof.
  revert acc. induction l as [|c l IH]; intros acc; cbn [words]; [destruct acc; cbn; split; try lia; done|].
  destruct (IH []) as [H1 H2], (IH (c :: acc)) as [H3 H4]. specialize (H2 eq_refl).
  destruct (is_sep seps c); [destruct acc|]; cbn [length]; split; try done; try lia.
Qed.

(** A word found at [word], at or after [cur], and what is still to be split. *)
Definition pending (seps : list Z) (m : mem) (cur word ctx : Z) (ws : list (list Z)) (hi : Z) : Prop :=
  (word = 0 /\ ws = []) \/
  exists w, cur <= word /\ str_at m word w /\
    ((ctx = 0 /\ ws = [w] /\ word + zlength w <= hi) \/
     exists l, word + zlength w < ctx /\ str_at m ctx l /\ ctx + zlength l <= hi /\ ws = w :: words seps [] l).

Lemma token_pending seps m p l word ctx m' hi :
  token seps m p l word ctx m' -> p + zlength l <= hi ->
  pending seps m' p word ctx (words seps [] l) hi /\ same_outside m m' p hi.
Proof.
  intros H Hhi. destruct H as [E|pre w -> E Hs|pre w c rest m' -> E -> Hs Hr].
  - split; [by left|apply same_outside_refl].
  - rewrite E, zlength_app in *. pose proof (zlength_nonneg pre). split; [|apply same_outside_refl].
    right. exists w. split_and!; [lia|done|]. left. split_and!; try done. lia.
  - rewrite E, !zlength_app, zlength_cons in *.
    pose proof (zlength_nonneg pre). pose proof (zlength_nonneg w). pose proof (zlength_nonneg rest). split.
    + right. exists w. split_and!; [lia|done|]. right. exists rest. split_and!; try done; lia.
    + intros a ?. apply lookup_insert_ne. lia.
Qed.

Lemma strtok_r_pending seps m string context l hi :
  0 < line_of string context -> str_at m (line_of string context) l -> line_of string context + zlength l <= hi ->
  exists word ctx m', strtok_r string seps context m = Ret ((word, ctx), m') /\
    pending seps m' (line_of string context) word ctx (words seps [] l) hi /\
    same_outside m m' (line_of string context) hi.
Proof.
  intros Hp Hs Hhi. destruct (strtok_r_token m seps string context l) as (word & ctx & m' & E & H); [lia|done|].
  exists word, ctx, m'. split; [done|by apply token_pending].
Qed.

(** The current word, and the next call of [strtok_r] after a change of it. *)
Lemma pending_next seps m cur word ctx w ws hi :
  0 < cur -> pending seps m cur word ctx (w :: ws) hi ->
  cur <= word /\ str_at m word w /\ word + zlength w <= hi /\
  forall m1, same_outside m m1 word (word + zlength w) ->
    exists word' ctx' m2, strtok_r 0 seps ctx m1 = Ret ((word', ctx'), m2) /\
      pending seps m2 (word + zlength w + 1) word' ctx' ws hi /\ same_outside m1 m2 (word + zlength w + 1) hi.
Proof.
  intros Hcur [[_ ?]|(v & Hw & Hs & [(-> & [= -> ->] & Hhi)|(l & Hctx & Hl & Hhi & [= -> ->])])]; [done|..];
    pose proof (zlength_nonneg v).
  - split_and!; try done. intros m1 _. exists 0, 0, m1. split_and!; [done|by left|apply same_outside_refl].
  - pose proof (zlength_nonneg l). split_and!; try done; [lia|]. intros m1 Hm1.
    assert (El : line_of 0 ctx = ctx) by done.
    destruct (strtok_r_pending seps m1 0 ctx l hi) as (word' & ctx' & m2 & E & Hp & Ho); rewrite ?El in *; try done; [lia|..].
    + eapply str_at_same; [done|]. intros a ?. apply Hm1. lia.
    + exists word', ctx', m2. split_and!; [done| |eapply same_outside_sub; [done|lia..]].
      destruct Hp as [?|(w' & ? & ?)]; [by left|right]. exists w'. split; [lia|done].
Qed.

Lemma pending_nil seps m cur word ctx hi : pending seps m cur word ctx [] hi -> word = 0.
Proof. intros [[? _]|(w & _ & _ & [(_ & ? & _)|(l & _ & _ & _ & ?)])]; done. Qed.

Lemma laid_out_hi m lo args ws hi hi' : laid_out m lo args ws hi -> hi <= hi' -> laid_out m lo args ws hi'.
Proof.
  revert lo ws. induction args as [|p args IH]; intros lo [|w ws]; cbn; try done; [lia|].
  intros (? & ? & ?) ?. split_and!; [done..|]. by apply IH.
Qed.

Lemma get_args_spec fuel m cur word ctx ws hi lo args ws0 :
  0 < cur -> laid_out m lo args ws0 (cur - 1) -> pending blanks m cur word ctx ws hi -> cur - 1 <= hi ->
  (zlength args <= MAXMENUARGS) -> (18 <= fuel + length args)%nat ->
  exists m', same_outside m m' lo hi /\
    if zlength (ws0 ++ ws) <=? MAXMENUARGS
    then exists args', get_args fuel word ctx args m = Ret (Some args', m') /\ laid_out m' lo args' (ws0 ++ ws) hi
    else get_args fuel word ctx args m = Ret (None, m').
Proof.
  unfold MAXMENUARGS. revert m cur word ctx ws args ws0. induction fuel as [|fuel IH];
    intros m cur word ctx ws args ws0 Hcur Hlo Hp Hhi Hn Hf; [unfold zlength in Hn; lia|]. cbn [get_args].
  pose proof (laid_out_length _ _ _ _ _ Hlo) as Hlen. pose proof (laid_out_bounds _ _ _ _ _ Hlo).
  destruct ws as [|w ws].
  - rewrite (pending_nil _ _ _ _ _ _ Hp), app_nil_r, <- Hlen, (proj2 (Z.leb_le _ _)) by done.
    exists m. split; [apply same_outside_refl|]. eexists. split; [done|by eapply laid_out_hi].
  - apply pending_next in Hp as (Hcw & Hs & Hw & Hnext); [|done]. rewrite (proj2 (Z.eqb_neq word 0)) by lia.
    rewrite zlength_app, zlength_cons, <- Hlen. pose proof (zlength_nonneg ws). unfold MAXMENUARGS.
    destruct (Z.leb_spec 16 (zlength args)).
    + rewrite (proj2 (Z.leb_gt _ _)) by lia. exists m. split; [apply same_outside_refl|done].
    + destruct (Hnext m (same_outside_refl _ _ _)) as (word' & ctx' & m2 & E & Hp' & Ho). pose proof (zlength_nonneg w).
      rewrite (bind_ok _ _ _ _ _ E). cbn [fst snd].
      destruct (IH m2 (word + zlength w + 1) word' ctx' ws (args ++ [word]) (ws0 ++ [w])) as (m' & Ho' & Hres);
        try done; try lia.
      * apply laid_out_snoc with (cur - 1); [|lia| |lia].
        -- eapply laid_out_same; [done|]. intros a ?. apply Ho. lia.
        -- eapply str_at_same; [done|]. intros a ?. apply Ho. lia.
      * rewrite zlength_snoc. lia.
      * rewrite length_app. cbn. lia.
      * exists m'. split; [eapply same_outside_trans; [|done]; eapply same_outside_sub; [done|lia..]|].
        rewrite <- app_assoc in Hres. cbn [app] in Hres.
        by rewrite zlength_app, zlength_cons, <- Hlen in Hres.
Qed.

(** ** The menu refines the meaning of its line *)

Section line.
Context {K : Type} `{!subsystems K}.

Lemma dispatch_implements table m lo a args w ws hi :
  laid_out m lo (a :: args) (w :: ws) hi -> Forall word_ok (w :: ws) -> Forall (fun e => Forall char_ok e.1) table ->
  implements (dispatch table (a :: args))
    (fun k => match find_command table w with Some c => run c (w :: ws) k | None => Ret (EINVAL, k) end) m lo hi.
Proof.
  intros H Hw Ht. pose proof H as (_ & _ & Hs & _)%laid_out_cons. pose proof Hw as [[Hne Hc] _]%list.Forall_cons.
  induction table as [|[name c] table IH]; cbn [dispatch find_command]; [apply implements_ret|].
  apply list.Forall_cons in Ht as [Hname Ht]. cbn in Hname. destruct name as [|n0 name].
  - rewrite bool_decide_true, (bool_decide_false (w = [])) by done. by apply IH.
  - rewrite (bool_decide_false (_ :: _ = [])) by done.
    assert (E : strcmp_const a (n0 :: name) m = Ret (str_order w (n0 :: name), m)) by (by apply strcmp_const_spec).
    intros k. change (arg (a :: args) 0) with (ret (S := mem * K) a). mrun.
    rewrite (bind_ok _ _ _ _ _ (on_mem_ok _ _ _ _ k E)).
    destruct (Z.eqb_spec (str_order w (n0 :: name)) 0) as [Ho|Ho].
    + apply str_order_eq in Ho. rewrite bool_decide_true by done. by apply func_implements.
    + rewrite bool_decide_false by (by rewrite <- str_order_eq). by apply IH.
Qed.

Lemma cmdtable_chars : Forall (fun e => Forall char_ok e.1) cmdtable.
Proof. repeat constructor. Qed.

Lemma cmd_dispatch_implements m p l :
  0 < p -> str_at m p l -> Forall char_ok l ->
  implements (cmd_dispatch p) (run_command (words blanks [] l)) m p (p + zlength l).
Proof.
  intros Hp Hs Hl. pose proof (words_Forall char_ok blanks [] l Hl (Forall_nil_2 _)) as Hw.
  assert (Hlp : line_of p 0 = p) by (unfold line_of; by rewrite (proj2 (Z.eqb_neq p 0)) by lia).
  destruct (strtok_r_pending blanks m p 0 l (p + zlength l)) as (word & ctx & m1 & E & Hpend & Ho);
    rewrite ?Hlp in *; try done.
  pose proof (zlength_nonneg l).
  destruct (get_args_spec 18 m1 p word ctx (words blanks [] l) (p + zlength l) p [] []) as (m2 & Ho2 & Hres);
    try done; [cbn; lia|lia|]. cbn [app] in Hres.
  apply (implements_after _ (let* args := on_mem (get_args 18 word ctx []) in
    match args with None => ret E2BIG | Some args => if zlength args =? 0 then ret 0 else dispatch cmdtable args end) _ _ m1);
    [done|intros k; unfold cmd_dispatch; by rewrite (bind_ok _ _ _ _ _ (on_mem_ok _ _ _ _ k E))|].
  destruct (Z.leb_spec (zlength (words blanks [] l)) MAXMENUARGS) as [Hle|Hgt].
  - destruct Hres as (args & Ea & Hlo). pose proof (laid_out_length _ _ _ _ _ Hlo) as Hlen.
    apply (implements_after _ (if zlength args =? 0 then ret 0 else dispatch cmdtable args) _ _ m2);
      [done|intros k; by rewrite (bind_ok _ _ _ _ _ (on_mem_ok _ _ _ _ k Ea))|].
    rewrite Hlen. destruct args as [|a args], (words blanks [] l) as [|w ws]; try done; [apply implements_ret|].
    pose proof (zlength_nonneg ws). unfold run_command. rewrite (proj2 (Z.eqb_neq _ _)), (proj2 (Z.ltb_ge _ _)); [|lia|rewrite zlength_cons; lia].
    apply dispatch_implements; [done..|apply cmdtable_chars].
  - apply (implements_after _ (ret E2BIG) _ _ m2); [done|intros k; by rewrite (bind_ok _ _ _ _ _ (on_mem_ok _ _ _ _ k Hres))|].
    destruct (words blanks [] l) as [|w ws]; [done|]. unfold run_command. rewrite (proj2 (Z.ltb_lt _ _)) by done.
    apply implements_ret.
Qed.

Lemma execute_loop_implements isargs cs fuel m cur word ctx hi :
  0 < cur -> pending semicolon m cur word ctx cs hi -> Forall (Forall char_ok) cs -> (length cs < fuel)%nat ->
  implements (execute_loop fuel isargs word ctx) (run_commands isargs cs) m cur hi.
Proof.
  revert fuel m cur word ctx. induction cs as [|c cs IH]; intros [|fuel] m cur word ctx Hcur Hp Hc Hf; cbn in Hf; try lia;
    cbn [execute_loop].
  - rewrite (pending_nil _ _ _ _ _ _ Hp). apply implements_ret.
  - apply list.Forall_cons in Hc as [Hc Hcs]. apply pending_next in Hp as (Hw & Hs & Hhi & Hnext); [|done].
    rewrite (proj2 (Z.eqb_neq word 0)) by lia. intros k. cbn [run_commands].
    pose proof (cmd_dispatch_implements m word c ltac:(lia) Hs Hc k) as Hd.
    destruct (run_command (words blanks [] c) k) as [[r k']| | |]; [|by unfold bind; rewrite Hd..].
    destruct Hd as (m1 & Ed & Ho1). rewrite (bind_ok _ _ _ _ _ Ed).
    destruct (negb (r =? 0) && isargs); [done|].
    destruct (Hnext m1 Ho1) as (word' & ctx' & m2 & E & Hp' & Ho2). pose proof (zlength_nonneg c).
    rewrite (bind_ok _ _ _ _ _ (on_mem_ok _ _ _ _ k' E)). cbn [fst snd].
    assert (Hi : implements (execute_loop fuel isargs word' ctx') (run_commands isargs cs) m2 (word + zlength c + 1) hi)
      by (apply IH; [lia|done|done|lia]).
    specialize (Hi k'). destruct (run_commands isargs cs k') as [[u k2]| | |]; try done.
    destruct Hi as (m3 & E3 & Ho3). exists m3. split; [done|]. intros a ?. rewrite Ho3, Ho2, Ho1 by lia. done.
Qed.

(** C28. Reading a line from a buffer in place, with [strtok_r] inside
    [strtok_r], is running the commands that the line means: the pieces between
    semicolons in order, each split at blanks, an empty command doing nothing, more
    than sixteen words or an unknown name being an error, and an error ending
    the kernel when the line came from the boot loader.  Whatever a command does
    to its own words, no later command is affected, and no byte outside the line
    is written. *)
Theorem menu_execute_refines (m : mem) (line : Z) (l : list Z) (isargs : bool) :
  0 < line -> str_at m line l -> Forall char_ok l ->
  implements (menu_execute line isargs) (run_commands isargs (words semicolon [] l)) m line (line + zlength l).
Proof.
  intros Hp Hs Hl. assert (Hlp : line_of line 0 = line) by (unfold line_of; by rewrite (proj2 (Z.eqb_neq line 0)) by lia).
  destruct (strtok_r_pending semicolon m line 0 l (line + zlength l)) as (word & ctx & m1 & E & Hpend & Ho);
    rewrite ?Hlp in *; try done.
  apply (implements_after _ (execute_loop (S (S (size m))) isargs word ctx) _ _ m1); [done| |].
  - intros k. unfold menu_execute. by rewrite (bind_ok _ _ _ _ _ (on_mem_ok _ _ _ _ k E)).
  - apply execute_loop_implements; try done.
    + eapply list.Forall_impl; [apply (words_Forall char_ok); done|]. by intros w [_ ?].
    + pose proof (str_size _ _ _ Hs). destruct (words_length semicolon [] l) as [? _]. lia.
Qed.
End line.

(** ** Subsystems that record what they are asked to do *)

Fixpoint read_str (fuel : nat) (p : Z) (m : mem) : list Z :=
  match fuel with
  | O => []
  | S fuel => match m !! p with
              | Some c => if c =? 0 then [] else c :: read_str fuel (p + 1) m
              | None => []
              end
  end.

Lemma read_str_spec m p l fuel : str_at m p l -> (length l <= fuel)%nat -> read_str fuel p m = l.
Proof.
  revert p fuel. induction l as [|c l IH]; intros p [|fuel] Hs Hf; cbn in *; try lia; [done|by rewrite Hs|].
  destruct Hs as (-> & Hc & Hs). rewrite (proj2 (Z.eqb_neq c 0)) by done. by rewrite IH by (done || lia).
Qed.

Definition calls : Type := list (command * list (list Z)).

(** The call is recorded and succeeds; its first argument is overwritten. *)
Definition record (c : command) (args : list Z) : M (mem * calls) Z := fun '(m, k) =>
  Ret (0, (match args with p :: _ => <[p := 0]> m | [] => m end,
           k ++ [(c, List.map (fun p => read_str (size m) p m) args)])).

Definition recorded (c : command) (ws : list (list Z)) (k : calls) : outcome (Z * calls) := Ret (0, k ++ [(c, ws)]).

Lemma read_args m lo args ws hi :
  laid_out m lo args ws hi -> List.map (fun p => read_str (size m) p m) args = ws.
Proof.
  revert lo ws. induction args as [|p args IH]; intros lo [|w ws]; try done.
  intros (_ & Hs & H). cbn [List.map]. rewrite (IH _ _ H). f_equal. apply read_str_spec; [done|].
  pose proof (str_size _ _ _ Hs). lia.
Qed.

Lemma record_law c m lo args ws hi :
  laid_out m lo args ws hi -> implements (record c args) (recorded c ws) m lo hi.
Proof.
  intros H k. unfold recorded. rewrite <- (read_args m lo args ws hi H). eexists. split; [done|].
  destruct args as [|p args], ws as [|w ws]; try done. pose proof H as (? & ? & _)%laid_out_cons.
    pose proof (zlength_nonneg w). intros a ?. apply lookup_insert_ne. lia.
Qed.

Lemma record_one_law c m p w : str_at m p w -> implements (record c [p]) (recorded c [w]) m p (p + zlength w).
Proof. intros Hs. apply record_law. cbn. split_and!; [lia|done|lia]. Qed.

#[refine, local] Instance recorder : subsystems calls := {
  vfs_chdir p := record Chdir [p];
  vfs_unmount p := record Unmount [p];
  vfs_setbootfs p := record Bootfs [p];
  sfs_mount p := record Mount [p];
  common_prog _ args := record Prog args;
  other_command c _ args := record c args;
  chdir_to w := recorded Chdir [w];
  unmount_of w := recorded Unmount [w];
  setbootfs_to w := recorded Bootfs [w];
  sfs_mount_of w := recorded Mount [w];
  prog_run ws := recorded Prog ws;
  other_run c ws := recorded c ws
}.
Proof.
  all: intros; solve [by apply record_one_law | by apply record_law].
Defined.

Definition line_mem (p : Z) (l : list Z) : mem := list_to_map (zip (seqZ p (zlength l + 1)) (l ++ [0])).

Definition boot_line : list Z := lit "mount sfs lhd0: ;; p sh  a;q".

Lemma menu_execute_refines_witness :
  exists m', menu_execute 64 true (line_mem 64 boot_line, []) =
      Ret (tt, (m', [(Mount, [lit "lhd0"]); (Prog, [lit "sh"; lit "a"]); (Quit, [lit "q"])])) /\
    same_outside (line_mem 64 boot_line) m' 64 (64 + zlength boot_line).
Proof.
  assert (Hs : str_at (line_mem 64 boot_line) 64 boot_line).
  { vm_compute. repeat (split; [reflexivity|split; [discriminate|]]). reflexivity. }
  assert (Hc : Forall char_ok boot_line) by repeat constructor.
  pose proof (menu_execute_refines (line_mem 64 boot_line) 64 boot_line true eq_refl Hs Hc []) as H.
  assert (E : run_commands true (words semicolon [] boot_line) [] =
    Ret (tt, [(Mount, [lit "lhd0"]); (Prog, [lit "sh"; lit "a"]); (Quit, [lit "q"])])) by (vm_compute; reflexivity).
  rewrite E in H. exact H.
Defined.

(** The interval between two times is their difference in nanoseconds. *)
Lemma getinterval_spec s1 ns1 s2 ns2 :
  0 <= ns1 < 1000000000 -> 0 <= ns2 < 1000000000 ->
  0 <= (getinterval s1 ns1 s2 ns2).2 < 1000000000 /\
  (getinterval s1 ns1 s2 ns2).1 * 1000000000 + (getinterval s1 ns1 s2 ns2).2 =
    (s2 * 1000000000 + ns2) - (s1 * 1000000000 + ns1).
Proof.
  intros H1 H2. unfold getinterval. destruct (Z.ltb_spec ns2 ns1); cbn [fst snd]; rewrite ?(w32_id (ns2 + 1000000000)), w32_id;
    unfold is_u32, two32; lia.
Qed.
