(* ===== verification/Printf.v ===== *)
(** * Formatted output (common/libc/printf/__printf.c, snprintf.c)

    The state machine of [__vprintf] over the characters of a format, its
    number conversion in a buffer of fixed size on the stack, and the client of it
    that prints into a buffer.  The output function of the client is an
    interface, [sink]; the text that any client receives is shown to be that of a
    reference reading of the format, directive by directive. *)

From Stdlib Require Import ZArith Lia.
From stdpp Require Import base numbers list gmap.
From S2P Require Import Prelude CLib.

(** ** State *)

(** [va_list]: arguments of one word ([int], [long], pointers), of two words
    ([long long]) and strings, which may be null. *)
Inductive va := VWord (w : Z) | VDword (d : Z) | VStr (s : option (list Z)).

Inductive int_size := INTSZ | LONGSZ | LLONGSZ.

Record PF := mk_PF {
  ap : list va;
  charcount : Z;
  in_pct : bool;
  pf_size : int_size;
  num : Z;
  sign : bool;
  spacing : Z;
  rightspc : bool;
  fillchar : Z;
  base : Z;
  baseprefix : bool;
  altformat : bool
}.

(** Characters. *)
Definition ch_pct : Z := 37.   (* % *)
Definition ch_hash : Z := 35.  (* # *)
Definition ch_minus : Z := 45. (* - *)
Definition ch_0 : Z := 48.
Definition ch_9 : Z := 57.
Definition ch_space : Z := 32.
Definition ch_c : Z := 99.
Definition ch_d : Z := 100.
Definition ch_l : Z := 108.
Definition ch_o : Z := 111.
Definition ch_p : Z := 112.
Definition ch_s : Z := 115.
Definition ch_u : Z := 117.
Definition ch_x : Z := 120.

Definition modifiers : list Z := [35; 45; 108; 48; 49; 50; 51; 52; 53; 54; 55; 56; 57].
Definition int_types : list Z := [100; 111; 117; 112; 120].
Definition digits : list Z := [48; 49; 50; 51; 52; 53; 54; 55; 56; 57; 97; 98; 99; 100; 101; 102].
Definition null_text : list Z := [40; 110; 117; 108; 108; 41].

(** [(sizeof(long long) * CHAR_BIT) / 3 + 2] *)
Definition NUMBER_BUF_SIZE : Z := (8 * 8) / 3 + 2.

Definition s64 (z : Z) : Z := (z + 2 ^ 63) mod 2 ^ 64 - 2 ^ 63.
Definition w64 (z : Z) : Z := z mod 2 ^ 64.

(** ** The machine *)

Section printf.
Context {S : Type} (sendfunc : list Z -> M S unit).

Definition get_pf : M (PF * S) PF := fun s => Ret (s.1, s).
Definition set_pf (f : PF -> PF) : M (PF * S) unit := fun s => Ret (tt, (f s.1, s.2)).
Definition send (txt : list Z) : M (PF * S) unit := fun s =>
  match sendfunc txt s.2 with
  | Ret (_, c) => Ret (tt, (s.1, c))
  | Panic => Panic
  | Fault => Fault
  | NoFuel => NoFuel
  end.

Definition set_charcount (n : Z) (pf : PF) : PF :=
  mk_PF (ap pf) n (in_pct pf) (pf_size pf) (num pf) (sign pf) (spacing pf) (rightspc pf) (fillchar pf) (base pf)
    (baseprefix pf) (altformat pf).
Definition set_ap (l : list va) (pf : PF) : PF :=
  mk_PF l (charcount pf) (in_pct pf) (pf_size pf) (num pf) (sign pf) (spacing pf) (rightspc pf) (fillchar pf) (base pf)
    (baseprefix pf) (altformat pf).
Definition set_in_pct (b : bool) (pf : PF) : PF :=
  mk_PF (ap pf) (charcount pf) b (pf_size pf) (num pf) (sign pf) (spacing pf) (rightspc pf) (fillchar pf) (base pf)
    (baseprefix pf) (altformat pf).
Definition set_size (z : int_size) (pf : PF) : PF :=
  mk_PF (ap pf) (charcount pf) (in_pct pf) z (num pf) (sign pf) (spacing pf) (rightspc pf) (fillchar pf) (base pf)
    (baseprefix pf) (altformat pf).
Definition set_num (neg : bool) (n : Z) (pf : PF) : PF :=
  mk_PF (ap pf) (charcount pf) (in_pct pf) (pf_size pf) n neg (spacing pf) (rightspc pf) (fillchar pf) (base pf)
    (baseprefix pf) (altformat pf).
Definition set_spacing (n : Z) (pf : PF) : PF :=
  mk_PF (ap pf) (charcount pf) (in_pct pf) (pf_size pf) (num pf) (sign pf) n (rightspc pf) (fillchar pf) (base pf)
    (baseprefix pf) (altformat pf).
Definition set_rightspc (pf : PF) : PF :=
  mk_PF (ap pf) (charcount pf) (in_pct pf) (pf_size pf) (num pf) (sign pf) (spacing pf) true (fillchar pf) (base pf)
    (baseprefix pf) (altformat pf).
Definition set_fillchar (c : Z) (pf : PF) : PF :=
  mk_PF (ap pf) (charcount pf) (in_pct pf) (pf_size pf) (num pf) (sign pf) (spacing pf) (rightspc pf) c (base pf)
    (baseprefix pf) (altformat pf).
Definition set_base (b : Z) (p : bool) (pf : PF) : PF :=
  mk_PF (ap pf) (charcount pf) (in_pct pf) (pf_size pf) (num pf) (sign pf) (spacing pf) (rightspc pf) (fillchar pf) b
    p (altformat pf).
Definition set_altformat (pf : PF) : PF :=
  mk_PF (ap pf) (charcount pf) (in_pct pf) (pf_size pf) (num pf) (sign pf) (spacing pf) (rightspc pf) (fillchar pf) (base pf)
    (baseprefix pf) true.

Definition __pf_print (txt : list Z) : M (PF * S) unit :=
  do* send txt in
  set_pf (fun pf => set_charcount (s32 (charcount pf + zlength txt)) pf).

Definition endfield (pf : PF) : PF := mk_PF (ap pf) (charcount pf) false INTSZ 0 false 0 false ch_space 0 false false.
Definition __pf_endfield : M (PF * S) unit := set_pf endfield.

Definition __pf_modifier (ch : Z) : M (PF * S) unit :=
  let* pf := get_pf in
  if ch =? ch_hash then set_pf set_altformat
  else if ch =? ch_minus then set_pf set_rightspc
  else if ch =? ch_l then set_pf (set_size (match pf_size pf with LONGSZ => LLONGSZ | _ => LONGSZ end))
  else if ch =? ch_0 then
    if 0 <? spacing pf then set_pf (set_spacing (s32 (spacing pf * 10))) else set_pf (set_fillchar ch_0)
  else if (ch_0 <? ch) && (ch <=? ch_9) then set_pf (set_spacing (s32 (spacing pf * 10 + (ch - ch_0))))
  else panic.

(** [va_arg]: taking an argument as another type than it was passed with is undefined. *)
Definition va_word : M (PF * S) Z := fun s =>
  match ap s.1 with VWord w :: l => Ret (w32 w, (set_ap l s.1, s.2)) | _ => Fault end.
Definition va_dword : M (PF * S) Z := fun s =>
  match ap s.1 with VDword d :: l => Ret (w64 d, (set_ap l s.1, s.2)) | _ => Fault end.
Definition va_str : M (PF * S) (option (list Z)) := fun s =>
  match ap s.1 with VStr t :: l => Ret (t, (set_ap l s.1, s.2)) | _ => Fault end.

Definition __pf_getnum (ch : Z) : M (PF * S) unit :=
  let* pf := get_pf in
  if ch =? ch_p then let* w := va_word in set_pf (fun pf => set_num (sign pf) w pf)
  else if ch =? ch_d then
    let* signednum :=
      match pf_size pf with
      | LLONGSZ => let* d := va_dword in ret (s64 d)
      | _ => let* w := va_word in ret (s32 w)
      end in
    if signednum <? 0 then set_pf (set_num true (w64 (- signednum)))
    else set_pf (fun pf => set_num (sign pf) signednum pf)
  else
    let* n := match pf_size pf with LLONGSZ => va_dword | _ => va_word end in
    set_pf (fun pf => set_num (sign pf) n pf).

Definition __pf_setbase (ch : Z) : M (PF * S) unit :=
  set_pf (fun pf =>
    let b := if (ch =? ch_d) || (ch =? ch_u) then 10
             else if (ch =? ch_x) || (ch =? ch_p) then 16
             else if ch =? ch_o then 8 else base pf in
    set_base b (if altformat pf || (ch =? ch_p) then true else baseprefix pf) pf).

Definition __pf_fill (spc : Z) : M (PF * S) unit :=
  let* pf := get_pf in
  for_ (Z.to_nat spc) 0 (fun _ => __pf_print [fillchar pf]).

Definition when (b : bool) (c : M (PF * S) unit) : M (PF * S) unit := if b then c else ret tt.

Definition __pf_printstuff (prefix prefix2 stuff : list Z) : M (PF * S) unit :=
  let* pf := get_pf in
  let len := s32 (zlength prefix + zlength prefix2 + zlength stuff) in
  let spc := if len <? spacing pf then s32 (spacing pf - len) else 0 in
  do* when ((0 <? spc) && negb (rightspc pf) && negb (fillchar pf =? ch_0)) (__pf_fill spc) in
  do* __pf_print prefix in
  do* __pf_print prefix2 in
  do* when ((0 <? spc) && negb (rightspc pf) && (fillchar pf =? ch_0)) (__pf_fill spc) in
  do* __pf_print stuff in
  when ((0 <? spc) && rightspc pf) (__pf_fill spc).

(** A store into the buffer of [__pf_printnum]; its bytes are undefined before. *)
Definition buf_store (buf : gmap Z Z) (x c : Z) : outcome (gmap Z Z) :=
  if (0 <=? x) && (x <? NUMBER_BUF_SIZE) then Ret (<[x := c]> buf) else Fault.

(** The [do] loop: the buffer and the pointer [x] when the number is done. *)
Fixpoint printnum_loop (fuel : nat) (b xnum x : Z) (buf : gmap Z Z) : outcome (Z * gmap Z Z) :=
  match fuel with
  | O => NoFuel
  | Datatypes.S fuel =>
      match digits !! Z.to_nat (xnum mod b) with
      | None => Fault
      | Some c =>
          match buf_store buf x c with
          | Ret buf =>
              let x := x - 1 in
              let xnum := xnum / b in
              if 0 <? xnum then printnum_loop fuel b xnum x buf else Ret (x, buf)
          | _ => Fault
          end
      end
  end.

(** The string at [x] in the buffer. *)
Fixpoint buf_string (fuel : nat) (buf : gmap Z Z) (x : Z) : outcome (list Z) :=
  match fuel with
  | O => NoFuel
  | Datatypes.S fuel =>
      match buf !! x with
      | None => Fault
      | Some c => if c =? 0 then Ret []
                  else match buf_string fuel buf (x + 1) with Ret l => Ret (c :: l) | o => o end
      end
  end.

Definition number_text (b xnum : Z) : outcome (list Z) :=
  let x := NUMBER_BUF_SIZE - 1 in
  match buf_store ∅ x 0 with
  | Ret buf =>
      match printnum_loop 64 b xnum (x - 1) buf with
      | Ret (x, buf) => buf_string (Z.to_nat NUMBER_BUF_SIZE) buf (x + 1)
      | Panic => Panic | Fault => Fault | NoFuel => NoFuel
      end
  | _ => Fault
  end.

Definition __pf_printnum : M (PF * S) unit :=
  let* pf := get_pf in
  let* x := fun s => match number_text (base pf) (num pf) with
                     | Ret l => Ret (l, s) | Panic => Panic | Fault => Fault | NoFuel => NoFuel end in
  let bprefix := if baseprefix pf && (base pf =? 16) then [48; 120]
                 else if baseprefix pf && (base pf =? 8) then [48] else [] in
  let sprefix := if sign pf then [45] else [] in
  __pf_printstuff sprefix bprefix x.

(** The string of one character [x]: empty when the character is the terminator. *)
Definition char_string (c : Z) : list Z := if c =? 0 then [] else [c].

Definition __pf_send (ch : Z) : M (PF * S) unit :=
  let* pf := get_pf in
  if ch =? 0 then panic
  else if negb (in_pct pf) && negb (ch =? ch_pct) then __pf_print [ch]
  else if negb (in_pct pf) then set_pf (set_in_pct true)
  else if bool_decide (is_Some (index_of modifiers ch)) then __pf_modifier ch
  else if bool_decide (is_Some (index_of int_types ch)) then
    do* __pf_getnum ch in do* __pf_setbase ch in do* __pf_printnum in __pf_endfield
  else if ch =? ch_s then
    let* str := va_str in
    do* __pf_printstuff [] [] (match str with Some s => s | None => null_text end) in __pf_endfield
  else
    let* c := if ch =? ch_c then va_word else ret ch in
    do* __pf_printstuff [] [] (char_string (c mod 256)) in __pf_endfield.

Fixpoint send_all (format : list Z) : M (PF * S) unit :=
  match format with
  | [] => ret tt
  | ch :: format => do* __pf_send ch in send_all format
  end.

Definition __vprintf (format : list Z) (args : list va) : M S Z := fun s =>
  match send_all format (endfield (mk_PF args 0 false INTSZ 0 false 0 false 0 0 false false), s) with
  | Ret (_, (pf, s)) => Ret (charcount pf, s)
  | Panic => Panic
  | Fault => Fault
  | NoFuel => NoFuel
  end.

End printf.

(** ** Printing into a buffer *)

Record SNP := mk_SNP { buf : Z; buflen : Z; bufpos : Z }.

Fixpoint __snprintf_send (data : list Z) : M (mem * SNP) unit :=
  match data with
  | [] => ret tt
  | c :: data => fun '(m, snp) =>
      if bufpos snp <? buflen snp then
        match store (buf snp + bufpos snp) c m with
        | Ret (_, m) => __snprintf_send data (m, mk_SNP (buf snp) (buflen snp) (bufpos snp + 1))
        | Panic => Panic | Fault => Fault | NoFuel => NoFuel
        end
      else __snprintf_send data (m, snp)
  end.

Definition vsnprintf (b len : Z) (fmt : list Z) (args : list va) : M mem Z := fun m =>
  let snp := mk_SNP b (if len =? 0 then 0 else len - 1) 0 in
  match __vprintf __snprintf_send fmt args (m, snp) with
  | Ret (chars, (m, snp)) => (do* (if 0 <? len then store (b + bufpos snp) 0 else ret tt) in ret chars) m
  | Panic => Panic | Fault => Fault | NoFuel => NoFuel
  end.

Definition snprintf (b len : Z) (fmt : list Z) (args : list va) : M mem Z :=
  let* chars := vsnprintf b len fmt args in ret chars.

(** ** Numerals *)

(** The digits of a number, the most significant first. *)
Fixpoint numeral_loop (fuel : nat) (b n : Z) (acc : list Z) : list Z :=
  match fuel with
  | O => acc
  | S fuel => if 0 <? n / b then numeral_loop fuel b (n / b) (n mod b :: acc) else n mod b :: acc
  end.
Definition numeral (b n : Z) : list Z := numeral_loop 64 b n [].

Definition digit_char (d : Z) : Z := if d <? 10 then 48 + d else 87 + d.

Definition value (b : Z) (ds : list Z) (v : Z) : Z := fold_left (fun v d => v * b + d) ds v.

Lemma pow_succ b k : 0 <= k -> b ^ (k + 1) = b * b ^ k.
Proof. intros. by rewrite Z.add_1_r, Z.pow_succ_r. Qed.

Lemma numeral_loop_value fuel b n acc :
  1 < b -> 0 <= n < b ^ Z.of_nat fuel -> (0 < fuel)%nat -> value b (numeral_loop fuel b n acc) 0 = value b acc n.
Proof.
  intros Hb. revert n acc. induction fuel as [|fuel IH]; intros n acc Hn Hf; [lia|]. cbn [numeral_loop].
  pose proof (Z.div_mod n b). pose proof (Z.mod_pos_bound n b). pose proof (Z.div_pos n b).
  rewrite Nat2Z.inj_succ, <- Z.add_1_r, pow_succ in Hn by lia.
  assert (n / b < b ^ Z.of_nat fuel) by (apply Z.div_lt_upper_bound; lia).
  destruct (Z.ltb_spec 0 (n / b)).
  - rewrite IH; [cbn; f_equal; lia|lia|]. destruct fuel; [cbn in *; lia|lia].
  - unfold value. cbn. f_equal. nia.
Qed.

Lemma numeral_loop_Forall (P : Z -> Prop) fuel b n acc :
  (forall m, P (m mod b)) -> Forall P acc -> Forall P (numeral_loop fuel b n acc).
Proof.
  intros HP. revert n acc. induction fuel as [|fuel IH]; intros n acc Ha; [done|]. cbn [numeral_loop].
  destruct (_ <? _); [apply IH|]; by apply list.Forall_cons.
Qed.

Lemma numeral_loop_length fuel b n acc k :
  1 < b -> 0 <= n < b ^ Z.of_nat (S k) -> (length (numeral_loop fuel b n acc) <= S k + length acc)%nat.
Proof.
  intros Hb. revert n acc k. induction fuel as [|fuel IH]; intros n acc k Hn; cbn [numeral_loop]; [lia|].
  rewrite Nat2Z.inj_succ, <- Z.add_1_r, pow_succ in Hn by lia. pose proof (Z.div_pos n b).
  assert (n / b < b ^ Z.of_nat k) by (apply Z.div_lt_upper_bound; lia).
  destruct (Z.ltb_spec 0 (n / b)); [|cbn; lia]. destruct k as [|k]; [cbn in *; lia|].
  specialize (IH (n / b) (n mod b :: acc) k). cbn [length] in *. lia.
Qed.

(** No numeral starts with a zero, but that of zero. *)
Lemma numeral_loop_lead fuel b n acc :
  1 < b -> 0 <= n < b ^ Z.of_nat fuel -> (0 < fuel)%nat ->
  exists d l, numeral_loop fuel b n acc = d :: l /\ 0 <= d < b /\ (0 < n -> 0 < d) /\ (n = 0 -> l = acc).
Proof.
  intros Hb. revert n acc. induction fuel as [|fuel IH]; intros n acc Hn Hf; [lia|]. cbn [numeral_loop].
  rewrite Nat2Z.inj_succ, <- Z.add_1_r, pow_succ in Hn by lia.
  pose proof (Z.div_mod n b). pose proof (Z.mod_pos_bound n b). pose proof (Z.div_pos n b).
  assert (n / b < b ^ Z.of_nat fuel) by (apply Z.div_lt_upper_bound; lia).
  destruct (Z.ltb_spec 0 (n / b)).
  - destruct (IH (n / b) (n mod b :: acc)) as (d & l & E & Hd1 & Hd2 & _); [lia|destruct fuel; [cbn in *; lia|lia]|].
    exists d, l. split_and!; [done|lia..|]. intros ->. rewrite Z.div_0_l in *; lia.
  - eexists _, _. split_and!; [done|lia|lia|nia|done].
Qed.

Lemma digit_of b n :
  b = 8 \/ b = 10 \/ b = 16 -> digits !! Z.to_nat (n mod b) = Some (digit_char (n mod b)).
Proof.
  intros Hb. assert (0 <= n mod b < 16) by (pose proof (Z.mod_pos_bound n b); lia).
  generalize dependent (n mod b). intros d Hd.
  assert (Hin : d ∈ seqZ 0 16) by (apply elem_of_seqZ; lia). revert d Hin Hd.
  apply (list.Forall_forall (fun d => _ -> digits !! Z.to_nat d = Some (digit_char d))). by repeat constructor.
Qed.

Lemma digit_char_nonzero d : 0 <= d -> digit_char d <> 0.
Proof. unfold digit_char. destruct (_ <? _); lia. Qed.

(** The buffer on the stack is large enough for every number in every base. *)
Lemma printnum_loop_spec fuel b n x buf acc :
  b = 8 \/ b = 10 \/ b = 16 -> 0 <= n < b ^ Z.of_nat fuel -> (0 < fuel)%nat ->
  0 <= x < NUMBER_BUF_SIZE -> n < b ^ (x + 1) -> str_at buf (x + 1) (List.map digit_char acc) ->
  exists x' buf', printnum_loop fuel b n x buf = Ret (x', buf') /\ -1 <= x' /\
    str_at buf' (x' + 1) (List.map digit_char (numeral_loop fuel b n acc)).
Proof.
  intros Hb. revert n x buf acc. induction fuel as [|fuel IH]; intros n x buf acc Hn Hf Hx Hnx Hs; [lia|].
  cbn [printnum_loop numeral_loop]. rewrite digit_of by done. unfold buf_store.
  replace ((0 <=? x) && (x <? NUMBER_BUF_SIZE)) with true by lia.
  rewrite Nat2Z.inj_succ, <- Z.add_1_r, pow_succ in Hn by lia. rewrite pow_succ in Hnx by lia.
  pose proof (Z.div_pos n b). pose proof (Z.mod_pos_bound n b).
  assert (n / b < b ^ Z.of_nat fuel) by (apply Z.div_lt_upper_bound; lia).
  assert (n / b < b ^ x) by (apply Z.div_lt_upper_bound; lia).
  assert (Hs' : str_at (<[x := digit_char (n mod b)]> buf) x (List.map digit_char (n mod b :: acc))).
  { cbn. split_and!; [by rewrite lookup_insert_eq|apply digit_char_nonzero; lia|].
    eapply str_at_same; [done|]. intros a ?. apply lookup_insert_ne. lia. }
  destruct (Z.ltb_spec 0 (n / b)).
  - apply IH; try lia.
    + destruct fuel; [cbn in *; lia|lia].
    + destruct (decide (x = 0)) as [->|]; [cbn in *; lia|lia].
    + by rewrite Z.sub_add.
    + by rewrite Z.sub_add.
  - eexists _, _. split; [done|]. rewrite Z.sub_add. split; [lia|done].
Qed.

Lemma buf_string_spec fuel buf x l : str_at buf x l -> (length l < fuel)%nat -> buf_string fuel buf x = Ret l.
Proof.
  revert fuel x. induction l as [|c l IH]; intros [|fuel] x Hs Hf; cbn in *; try lia; [by rewrite Hs|].
  destruct Hs as (-> & Hc & Hs). rewrite (proj2 (Z.eqb_neq c 0)) by done. by rewrite IH by (done || lia).
Qed.

Lemma number_text_numeral b n :
  b = 8 \/ b = 10 \/ b = 16 -> 0 <= n < 2 ^ 64 -> number_text b n = Ret (List.map digit_char (numeral b n)).
Proof.
  intros Hb Hn. unfold number_text, buf_store. change (NUMBER_BUF_SIZE - 1) with 22.
  change ((0 <=? 22) && (22 <? NUMBER_BUF_SIZE)) with true. cbv beta iota zeta.
  assert (H8 : n < b ^ 22).
  { assert (2 ^ 64 < 8 ^ 22) by reflexivity. assert (8 ^ 22 <= b ^ 22) by (apply Z.pow_le_mono_l; lia). lia. }
  assert (H64 : n < b ^ 64) by (eapply Z.lt_trans; [done|]; apply Z.pow_lt_mono_r; lia).
  destruct (printnum_loop_spec 64 b n 21 (<[22 := 0]> ∅) []) as (x' & buf' & E & Hx & Hs); try done; try lia.
  - change (22 - 1) with 21. rewrite E. apply buf_string_spec; [done|]. rewrite length_map.
    assert (Hb1 : 1 < b) by (clear -Hb; lia). pose proof (numeral_loop_length 64 b n [] 21 Hb1) as Hl.
    change (Z.of_nat 22) with 22 in Hl. specialize (Hl (conj (proj1 Hn) H8)).
    change (Z.to_nat NUMBER_BUF_SIZE) with 23%nat. unfold numeral. clear -Hl. cbn [length] in Hl. lia.
Qed.

(** ** What a format means *)

(** The characters between the percent sign and the conversion. *)
Definition is_mod (ch : Z) : bool := bool_decide (is_Some (index_of modifiers ch)).
Definition is_digit (c : Z) : bool := (48 <=? c) && (c <=? 57).
Definition width_digits (mods : list Z) : list Z := List.filter is_digit mods.
Definition width (mods : list Z) : Z := value 10 (List.map (fun c => c - 48) (width_digits mods)) 0.
Definition zero_flag (mods : list Z) : bool := match width_digits mods with c :: _ => c =? 48 | [] => false end.
Definition left_flag (mods : list Z) : bool := existsb (Z.eqb ch_minus) mods.
Definition alt_flag (mods : list Z) : bool := existsb (Z.eqb ch_hash) mods.
Definition longs (mods : list Z) : nat := length (List.filter (Z.eqb ch_l) mods).
Definition size_of (mods : list Z) : int_size :=
  if (longs mods =? 0)%nat then INTSZ else if Nat.even (longs mods) then LLONGSZ else LONGSZ.

(** A field: text, with the prefix of a number in front of the zeros that fill it. *)
Definition pad (mods prefix body : list Z) : list Z :=
  let fill := replicate (Z.to_nat (width mods - zlength (prefix ++ body))) in
  if left_flag mods then prefix ++ body ++ fill (if zero_flag mods then 48 else 32)
  else if zero_flag mods then prefix ++ fill 48 ++ body
  else fill 32 ++ prefix ++ body.

Definition number (mods : list Z) (neg : bool) (prefix : list Z) (b n : Z) : list Z :=
  pad mods ((if neg then [45] else []) ++ prefix) (List.map digit_char (numeral b n)).

Definition take_word (args : list va) : option (Z * list va) :=
  match args with VWord w :: l => Some (w32 w, l) | _ => None end.
Definition take_dword (args : list va) : option (Z * list va) :=
  match args with VDword d :: l => Some (w64 d, l) | _ => None end.
Definition take_int (mods : list Z) (args : list va) : option (Z * list va) :=
  match size_of mods with LLONGSZ => take_dword args | _ => take_word args end.

(** One directive; [None] when an argument is missing or of another type, or a
    string is longer than an [int] can count. *)
Definition directive (mods : list Z) (ch : Z) (args : list va) : option (list Z * list va) :=
  if ch =? ch_d then
    '(n, args) ← take_int mods args;
    let z := match size_of mods with LLONGSZ => s64 n | _ => s32 n end in
    Some (number mods (z <? 0) [] 10 (Z.abs z), args)
  else if ch =? ch_u then '(n, args) ← take_int mods args; Some (number mods false [] 10 n, args)
  else if ch =? ch_x then
    '(n, args) ← take_int mods args; Some (number mods false (if alt_flag mods then [48; 120] else []) 16 n, args)
  else if ch =? ch_o then
    '(n, args) ← take_int mods args; Some (number mods false (if alt_flag mods then [48] else []) 8 n, args)
  else if ch =? ch_p then '(n, args) ← take_word args; Some (number mods false [48; 120] 16 n, args)
  else if ch =? ch_s then
    match args with
    | VStr s :: args =>
        let text := match s with Some s => s | None => null_text end in
        if 2147483648 <=? zlength text then None else Some (pad mods [] text, args)
    | _ => None
    end
  else if ch =? ch_c then '(n, args) ← take_word args; Some (pad mods [] (char_string (n mod 256)), args)
  else Some (pad mods [] (char_string (ch mod 256)), args).

(** The text of a format, with the modifiers read so far inside a directive; a
    directive that is cut off by the end of the format prints nothing, and a width
    that is not an [int] has no meaning. *)
Fixpoint format (field : option (list Z)) (fmt : list Z) (args : list va) : option (list Z) :=
  match fmt with
  | [] => Some []
  | ch :: fmt =>
      match field with
      | None => if ch =? ch_pct then format (Some []) fmt args else cons ch <$> format None fmt args
      | Some mods =>
          if is_mod ch then
            if width (mods ++ [ch]) <? 2147483648 then format (Some (mods ++ [ch])) fmt args else None
          else '(text, args) ← directive mods ch args; app text <$> format None fmt args
      end
  end.

(** ** What the client receives *)

(** The promise of an output function: it takes any text, and [received] relates all
    of it to the state of the client. *)
Class sink {S} (sendfunc : list Z -> M S unit) := {
  received : list Z -> S -> Prop;
  sink_law t s txt : received t s -> exists s', sendfunc txt s = Ret (tt, s') /\ received (t ++ txt) s'
}.

Section refinement.
Context {S : Type} (sendfunc : list Z -> M S unit) `{!sink sendfunc}.

(** [c] prints [txt], and leaves the state [pf']. *)
Definition prints (c : M (PF * S) unit) (pf : PF) (txt : list Z) (pf' : PF) : Prop :=
  forall t s, received t s -> exists s', c (pf, s) = Ret (tt, (pf', s')) /\ received (t ++ txt) s'.

Definition counted (n : Z) (pf : PF) : PF := set_charcount (s32 (charcount pf + n)) pf.

Lemma s32_add a b : s32 (s32 a + b) = s32 (a + b).
Proof.
  unfold s32. f_equal. replace ((a + 2147483648) mod two32 - 2147483648 + b + 2147483648)
    with ((a + 2147483648) mod two32 + b) by lia. rewrite Zplus_mod_idemp_l. f_equal. lia.
Qed.

Lemma counted_add n m pf : counted m (counted n pf) = counted (n + m) pf.
Proof. unfold counted, set_charcount. cbn. by rewrite s32_add, Z.add_assoc. Qed.

Lemma counted_charcount n pf pf' : charcount pf' = charcount pf -> charcount (counted n pf') = charcount (counted n pf).
Proof. unfold counted. cbn. by intros ->. Qed.

Lemma prints_bind c1 c2 pf pf1 pf2 t1 t2 :
  prints c1 pf t1 pf1 -> prints c2 pf1 t2 pf2 -> prints (do* c1 in c2) pf (t1 ++ t2) pf2.
Proof.
  intros H1 H2 t s Hs. destruct (H1 t s Hs) as (s1 & E1 & Hs1). destruct (H2 _ _ Hs1) as (s2 & E2 & Hs2).
  exists s2. split; [by rewrite (bind_ok _ _ _ _ _ E1)|by rewrite app_assoc].
Qed.

Lemma prints_set f pf : prints (set_pf f) pf [] (f pf).
Proof. intros t s Hs. exists s. split; [done|by rewrite app_nil_r]. Qed.

Lemma prints_get (k : PF -> M (PF * S) unit) pf t pf' : prints (k pf) pf t pf' -> prints (let* p := get_pf in k p) pf t pf'.
Proof. done. Qed.

Lemma prints_print txt pf : prints (__pf_print sendfunc txt) pf txt (counted (zlength txt) pf).
Proof.
  intros t s Hs. destruct (sink_law t s txt Hs) as (s' & E & Hs'). exists s'. split; [|done].
  unfold __pf_print, bind, send. cbn. by rewrite E.
Qed.

Lemma counted_0 pf : is_s32 (charcount pf) -> counted 0 pf = pf.
Proof. intros H. unfold counted, set_charcount. rewrite Z.add_0_r, s32_id by done. by destruct pf. Qed.

Lemma counted_s32 n pf : is_s32 (charcount (counted n pf)).
Proof. apply s32_range. Qed.

Lemma prints_nothing pf : is_s32 (charcount pf) -> prints (ret tt) pf [] (counted 0 pf).
Proof. intros H t s Hs. exists s. rewrite counted_0 by done. split; [done|by rewrite app_nil_r]. Qed.

Lemma prints_fill_loop n lo pf c :
  is_s32 (charcount pf) ->
  prints (for_ n lo (fun _ => __pf_print sendfunc [c])) pf (replicate n c) (counted (Z.of_nat n) pf).
Proof.
  revert lo pf. induction n as [|n IH]; intros lo pf H; [by apply prints_nothing|]. cbn [for_ replicate].
  replace (counted (Z.of_nat (Datatypes.S n)) pf) with (counted (Z.of_nat n) (counted 1 pf))
    by (rewrite counted_add; f_equal; lia).
  apply (prints_bind _ _ pf (counted 1 pf) _ [c]); [apply prints_print|apply IH, counted_s32].
Qed.

Definition filled (b : bool) (spc c : Z) : list Z := if b then replicate (Z.to_nat spc) c else [].

Lemma prints_when_fill b spc pf c :
  fillchar pf = c -> is_s32 (charcount pf) ->
  prints (when ((0 <? spc) && b) (__pf_fill sendfunc spc)) pf (filled b spc c)
    (counted (zlength (filled b spc c)) pf).
Proof.
  intros <- H. unfold filled, when. destruct b; [|rewrite andb_false_r; by apply prints_nothing]. rewrite andb_true_r.
  destruct (Z.ltb_spec 0 spc).
  - unfold zlength. rewrite length_replicate. apply prints_get. by apply prints_fill_loop.
  - replace (Z.to_nat spc) with O by lia. by apply prints_nothing.
Qed.

(** [pad] on the fields of the machine. *)
Definition padded (pf : PF) (prefix body : list Z) : list Z :=
  let fill := replicate (Z.to_nat (spacing pf - zlength (prefix ++ body))) (fillchar pf) in
  if rightspc pf then prefix ++ body ++ fill
  else if fillchar pf =? ch_0 then prefix ++ fill ++ body
  else fill ++ prefix ++ body.

Lemma prints_stuff prefix prefix2 stuff pf :
  is_s32 (charcount pf) -> 0 <= spacing pf < 2147483648 -> zlength (prefix ++ prefix2 ++ stuff) < 2147483648 ->
  prints (__pf_printstuff sendfunc prefix prefix2 stuff) pf (padded pf (prefix ++ prefix2) stuff)
    (counted (zlength (padded pf (prefix ++ prefix2) stuff)) pf).
Proof.
  intros Hc Hsp Hl. unfold __pf_printstuff. apply prints_get. cbv zeta.
  rewrite (s32_id (_ + _ + _)) by (unfold is_s32, zlength in *; rewrite !length_app in Hl; lia).
  set (spc := if _ <? spacing pf then _ else 0).
  assert (Hspc : Z.to_nat spc = Z.to_nat (spacing pf - zlength ((prefix ++ prefix2) ++ stuff))).
  { unfold spc, zlength in *. rewrite !length_app in *. destruct (Z.ltb_spec (Z.of_nat (length prefix) + Z.of_nat (length prefix2) +
      Z.of_nat (length stuff)) (spacing pf)); [rewrite s32_id; [|unfold is_s32]|]; lia. }
  rewrite <- !andb_assoc.
  assert (E : padded pf (prefix ++ prefix2) stuff =
    filled (negb (rightspc pf) && negb (fillchar pf =? ch_0)) spc (fillchar pf) ++ prefix ++ prefix2 ++
    filled (negb (rightspc pf) && (fillchar pf =? ch_0)) spc (fillchar pf) ++ stuff ++ filled (rightspc pf) spc (fillchar pf)).
  { unfold padded, filled. rewrite <- Hspc. destruct (rightspc pf), (fillchar pf =? ch_0); cbn [negb andb app];
      by rewrite ?app_nil_r, <- ?app_assoc. }
  rewrite E, !zlength_app, <- !counted_add.
  eapply prints_bind; [by apply prints_when_fill|].
  eapply prints_bind; [apply prints_print|]. eapply prints_bind; [apply prints_print|].
  eapply prints_bind; [apply prints_when_fill; [done|apply counted_s32]|].
  eapply prints_bind; [apply prints_print|]. apply prints_when_fill; [done|apply counted_s32].
Qed.
End refinement.

(** ** Modifiers *)

Lemma value_snoc b l d v : value b (l ++ [d]) v = value b l v * b + d.
Proof. unfold value. by rewrite fold_left_app. Qed.

Lemma value_ge b l v : 1 <= b -> 0 <= v -> Forall (fun d => 0 <= d) l -> v <= value b l v.
Proof.
  intros Hb. revert v. induction l as [|d l IH]; intros v Hv Hl; [done|]. apply list.Forall_cons in Hl as [Hd Hl].
  unfold value in *. cbn. transitivity (v * b + d); [nia|]. apply IH; [nia|done].
Qed.

Lemma width_digits_ok mods : Forall (fun d => 0 <= d) (List.map (fun c => c - 48) (width_digits mods)).
Proof.
  unfold width_digits. induction mods as [|c mods IH]; [done|]. cbn. unfold is_digit at 1.
  destruct ((48 <=? c) && (c <=? 57)) eqn:E; [|done]. apply list.Forall_cons. split; [lia|done].
Qed.

Lemma width_nonneg mods : 0 <= width mods.
Proof. apply value_ge; [lia..|apply width_digits_ok]. Qed.

Lemma width_snoc mods c : width (mods ++ [c]) = if is_digit c then width mods * 10 + (c - 48) else width mods.
Proof.
  unfold width, width_digits. rewrite List.filter_app. cbn [List.filter].
  destruct (is_digit c); [|by rewrite app_nil_r]. rewrite List.map_app. cbn [List.map]. by rewrite value_snoc.
Qed.

Lemma zero_flag_snoc mods c :
  zero_flag (mods ++ [c]) = match width_digits mods with [] => is_digit c && (c =? 48) | _ => zero_flag mods end.
Proof.
  unfold zero_flag, width_digits. rewrite List.filter_app. cbn [List.filter].
  destruct (List.filter is_digit mods) as [|d l]; cbn; destruct (is_digit c); done.
Qed.

Lemma width_zero mods : width mods = 0 -> width_digits mods = [] \/ zero_flag mods = true.
Proof.
  unfold width, zero_flag. pose proof (width_digits_ok mods) as H. destruct (width_digits mods) as [|c l]; [by left|].
  cbn [List.map] in *. apply list.Forall_cons in H as [Hc Hl]. intros E. right.
  pose proof (value_ge 10 (List.map (fun c => c - 48) l) (c - 48) ltac:(lia) Hc Hl) as Hge.
  change (value 10 (c - 48 :: List.map (fun c => c - 48) l) 0) with
    (value 10 (List.map (fun c => c - 48) l) (0 * 10 + (c - 48))) in E.
  rewrite Z.mul_0_l, Z.add_0_l in E. apply Z.eqb_eq. lia.
Qed.

Lemma size_of_snoc mods :
  size_of (mods ++ [ch_l]) = match size_of mods with LONGSZ => LLONGSZ | _ => LONGSZ end.
Proof.
  unfold size_of, longs. rewrite List.filter_app, length_app. cbn [List.filter length]. rewrite Z.eqb_refl. cbn [length].
  generalize (length (List.filter (Z.eqb ch_l) mods)). intros n. rewrite Nat.add_1_r. cbn [Nat.eqb].
  rewrite Nat.even_succ, <- Nat.negb_even. destruct n as [|n]; [done|]. cbn [Nat.eqb]. by destruct (Nat.even _).
Qed.

Lemma size_of_other mods c : c <> ch_l -> size_of (mods ++ [c]) = size_of mods.
Proof.
  intros H. unfold size_of, longs. rewrite List.filter_app. cbn [List.filter].
  rewrite (proj2 (Z.eqb_neq ch_l c)) by done. by rewrite app_nil_r.
Qed.

(** The machine inside a directive, and between directives. *)
Definition field_pf (mods : list Z) (args : list va) (cnt : Z) : PF :=
  mk_PF args cnt true (size_of mods) 0 false (width mods) (left_flag mods) (if zero_flag mods then 48 else 32) 0 false
    (alt_flag mods).
Definition clean_pf (args : list va) (cnt : Z) : PF := mk_PF args cnt false INTSZ 0 false 0 false 32 0 false false.

Lemma padded_pad mods args cnt sz n neg b bp alt prefix body :
  padded (mk_PF args cnt true sz n neg (width mods) (left_flag mods) (if zero_flag mods then 48 else 32) b bp alt)
    prefix body = pad mods prefix body.
Proof. unfold padded, pad. cbn. by destruct (left_flag mods), (zero_flag mods). Qed.

Lemma index_of_elem l ch : ch <> 0 -> is_Some (index_of l ch) <-> ch ∈ l.
Proof.
  intros H0. induction l as [|c l IH]; cbn [index_of].
  - rewrite (proj2 (Z.eqb_neq ch 0)) by done. split; [by intros [? ?]|by intros ?%not_elem_of_nil].
  - rewrite elem_of_cons. destruct (Z.eqb_spec c ch) as [->|Hc]; [split; [by left|by eexists]|].
    destruct (index_of l ch); cbn; split; intros H; try by eexists.
    + right. by apply IH.
    + by destruct H.
    + destruct H as [->|H]; [done|]. apply IH in H. by destruct H.
Qed.

Lemma is_mod_elem ch : ch <> 0 -> is_mod ch = true <-> ch ∈ modifiers.
Proof. intros. unfold is_mod. by rewrite bool_decide_eq_true, index_of_elem. Qed.

Section modifier.
Context {S : Type} (sendfunc : list Z -> M S unit) `{!sink sendfunc}.

Lemma modifier_digit mods args cnt ch :
  48 < ch <= 57 -> width (mods ++ [ch]) < 2147483648 ->
  prints sendfunc (__pf_modifier ch) (field_pf mods args cnt) [] (field_pf (mods ++ [ch]) args cnt).
Proof.
  intros Hc Hw. unfold __pf_modifier. apply prints_get. unfold ch_hash, ch_minus, ch_l, ch_0, ch_9.
  rewrite !(proj2 (Z.eqb_neq ch _)) by lia. replace ((48 <? ch) && (ch <=? 57)) with true by lia.
  assert (Hd : is_digit ch = true) by (unfold is_digit; lia). pose proof (width_nonneg mods).
  rewrite width_snoc, Hd in Hw.
  assert (Ef : field_pf (mods ++ [ch]) args cnt = mk_PF args cnt true (size_of mods) 0 false (width mods * 10 + (ch - 48))
    (left_flag mods) (if zero_flag mods then 48 else 32) 0 false (alt_flag mods)).
  { unfold field_pf. rewrite width_snoc, Hd, zero_flag_snoc, size_of_other by (unfold ch_l; lia).
    unfold left_flag, alt_flag. rewrite !existsb_app. cbn [existsb]. unfold ch_hash, ch_minus.
    rewrite !(proj2 (Z.eqb_neq _ ch)), !orb_false_r by lia. f_equal. unfold zero_flag.
    destruct (width_digits mods); [by rewrite (proj2 (Z.eqb_neq ch 48)), andb_false_r by lia|done]. }
  rewrite Ef. cbn [spacing field_pf]. rewrite s32_id by (unfold is_s32; lia). apply prints_set.
Qed.

Lemma modifier_zero mods args cnt :
  width (mods ++ [ch_0]) < 2147483648 ->
  prints sendfunc (__pf_modifier ch_0) (field_pf mods args cnt) [] (field_pf (mods ++ [ch_0]) args cnt).
Proof.
  intros Hw. unfold __pf_modifier. apply prints_get. cbn [ch_0 ch_hash ch_minus ch_l Z.eqb Pos.eqb].
  assert (Ef : field_pf (mods ++ [ch_0]) args cnt = mk_PF args cnt true (size_of mods) 0 false (width mods * 10)
    (left_flag mods) (if zero_flag (mods ++ [ch_0]) then 48 else 32) 0 false (alt_flag mods)).
  { unfold field_pf. rewrite width_snoc, size_of_other by done. change (is_digit ch_0) with true. cbv iota.
    replace (width mods * 10 + (ch_0 - 48)) with (width mods * 10) by (unfold ch_0; lia).
    unfold left_flag, alt_flag. rewrite !existsb_app. cbn [existsb]. by rewrite !orb_false_r. }
  rewrite Ef. rewrite width_snoc in Hw. change (is_digit ch_0) with true in Hw. unfold ch_0 in Hw.
  pose proof (width_nonneg mods). rewrite zero_flag_snoc.
  cbn [spacing field_pf]. destruct (Z.ltb_spec 0 (width mods)).
  - rewrite s32_id by (unfold is_s32; lia).
    replace (match width_digits mods with [] => _ | _ => zero_flag mods end) with (zero_flag mods); [apply prints_set|].
    unfold width in *. by destruct (width_digits mods).
  - replace (match width_digits mods with [] => _ | _ => zero_flag mods end) with true.
    + replace (width mods * 10) with (width mods) by lia. apply prints_set.
    + destruct (width_zero mods) as [E|E]; [lia|by rewrite E|]. rewrite E. by destruct (width_digits mods).
Qed.

Lemma modifier_flag mods args cnt ch :
  ch = ch_hash \/ ch = ch_minus \/ ch = ch_l ->
  prints sendfunc (__pf_modifier ch) (field_pf mods args cnt) [] (field_pf (mods ++ [ch]) args cnt).
Proof.
  intros Hch. unfold __pf_modifier. apply prints_get.
  assert (Ef : field_pf (mods ++ [ch]) args cnt = mk_PF args cnt true (size_of (mods ++ [ch])) 0 false (width mods)
    (left_flag (mods ++ [ch])) (if zero_flag mods then 48 else 32) 0 false (alt_flag (mods ++ [ch]))).
  { unfold field_pf. rewrite width_snoc, zero_flag_snoc. unfold zero_flag. destruct Hch as [->|[->| ->]]; cbn;
      by destruct (width_digits mods). }
  rewrite Ef. unfold left_flag, alt_flag. rewrite !existsb_app.
  destruct Hch as [->|[->| ->]]; rewrite ?size_of_snoc, ?size_of_other by done; cbn; rewrite ?orb_true_r, ?orb_false_r;
    apply prints_set.
Qed.

Lemma prints_modifier mods args cnt ch :
  ch <> 0 -> is_mod ch = true -> width (mods ++ [ch]) < 2147483648 ->
  prints sendfunc (__pf_send sendfunc ch) (field_pf mods args cnt) [] (field_pf (mods ++ [ch]) args cnt).
Proof.
  intros H0 Hm Hw. unfold __pf_send. apply prints_get. rewrite (proj2 (Z.eqb_neq ch 0)) by done.
  cbn [field_pf in_pct negb andb]. fold (is_mod ch). rewrite Hm. apply is_mod_elem in Hm; [|done].
  destruct (decide (48 < ch <= 57)); [by apply modifier_digit|]. destruct (decide (ch = ch_0)) as [->|]; [by apply modifier_zero|].
  apply modifier_flag. unfold modifiers, ch_0, ch_hash, ch_minus, ch_l in *. rewrite !elem_of_cons, elem_of_nil in Hm. lia.
Qed.
End modifier.

(** ** Directives *)

Lemma numeral_loop_fuel fuel b n acc : (length (numeral_loop fuel b n acc) <= fuel + length acc)%nat.
Proof.
  revert n acc. induction fuel as [|fuel IH]; intros n acc; cbn [numeral_loop]; [lia|].
  destruct (_ <? _); [|cbn; lia]. specialize (IH (n / b) (n mod b :: acc)). cbn in IH. lia.
Qed.

Lemma take_word_range args n args' : take_word args = Some (n, args') -> 0 <= n < 2 ^ 32.
Proof. destruct args as [|[w| |] l]; cbn; try done. intros [= <- _]. apply (Z.mod_pos_bound w (2 ^ 32)). lia. Qed.

Lemma take_dword_range args n args' : take_dword args = Some (n, args') -> 0 <= n < 2 ^ 64.
Proof. destruct args as [|[|d|] l]; cbn; try done. intros [= <- _]. apply (Z.mod_pos_bound d (2 ^ 64)). lia. Qed.

Lemma take_int_range mods args n args' : take_int mods args = Some (n, args') -> 0 <= n < 2 ^ 64.
Proof.
  unfold take_int. destruct (size_of mods); intros H; [apply take_word_range in H; lia..|by eapply take_dword_range].
Qed.

Lemma s64_range z : - 2 ^ 63 <= s64 z < 2 ^ 63.
Proof. unfold s64. pose proof (Z.mod_pos_bound (z + 2 ^ 63) (2 ^ 64)). lia. Qed.

Section directives.
Context {S : Type} (sendfunc : list Z -> M S unit) `{!sink sendfunc}.

(** The machine after the argument of a number has been fetched. *)
Definition number_pf (mods : list Z) (args : list va) (cnt : Z) (neg : bool) (n b : Z) (bp : bool) : PF :=
  mk_PF args cnt true (size_of mods) n neg (width mods) (left_flag mods) (if zero_flag mods then 48 else 32) b bp
    (alt_flag mods).

Definition base_prefix (b : Z) (bp : bool) : list Z :=
  if bp && (b =? 16) then [48; 120] else if bp && (b =? 8) then [48] else [].

Lemma prints_va_word (k : Z -> M (PF * S) unit) mods args cnt n args' t pf' :
  take_word args = Some (n, args') -> prints sendfunc (k n) (field_pf mods args' cnt) t pf' ->
  prints sendfunc (let* w := va_word in k w) (field_pf mods args cnt) t pf'.
Proof. destruct args as [|[w| |] l]; cbn; try done. by intros [= <- <-]. Qed.

Lemma prints_take_int (k : Z -> M (PF * S) unit) mods args cnt n args' t pf' :
  take_int mods args = Some (n, args') -> prints sendfunc (k n) (field_pf mods args' cnt) t pf' ->
  prints sendfunc (let* w := match size_of mods with LLONGSZ => va_dword | _ => va_word end in k w)
    (field_pf mods args cnt) t pf'.
Proof.
  unfold take_int. destruct (size_of mods); destruct args as [|[w|d|] l]; cbn; try done; by intros [= <- <-].
Qed.

Lemma prints_getnum_d mods args cnt n args' :
  take_int mods args = Some (n, args') ->
  let z := match size_of mods with LLONGSZ => s64 n | _ => s32 n end in
  prints sendfunc (__pf_getnum ch_d) (field_pf mods args cnt) [] (number_pf mods args' cnt (z <? 0) (Z.abs z) 0 false).
Proof.
  intros H z. unfold __pf_getnum. apply prints_get. cbn [ch_d ch_p Z.eqb Pos.eqb pf_size field_pf].
  assert (Hz : - 2 ^ 63 <= z < 2 ^ 63).
  { unfold z. pose proof (s32_range n). unfold is_s32 in *. destruct (size_of mods); [lia..|apply s64_range]. }
  assert (Hk : prints sendfunc (if z <? 0 then set_pf (set_num true (w64 (- z)))
      else set_pf (fun pf => set_num (sign pf) z pf)) (field_pf mods args' cnt) []
      (number_pf mods args' cnt (z <? 0) (Z.abs z) 0 false)).
  { destruct (Z.ltb_spec z 0).
    - unfold w64. rewrite Z.mod_small, Z.abs_neq by lia. apply prints_set.
    - rewrite Z.abs_eq by lia. apply prints_set. }
  unfold take_int in H. subst z. destruct (size_of mods); destruct args as [|[w|d|] l]; cbn in H; try done;
    injection H as <- <-; exact Hk.
Qed.

Lemma prints_getnum_u mods args cnt n args' ch :
  ch <> ch_d -> ch <> ch_p -> take_int mods args = Some (n, args') ->
  prints sendfunc (__pf_getnum ch) (field_pf mods args cnt) [] (number_pf mods args' cnt false n 0 false).
Proof.
  intros Hd Hp H. unfold __pf_getnum. apply prints_get. rewrite !(proj2 (Z.eqb_neq ch _)) by done.
  eapply prints_take_int; [done|apply prints_set].
Qed.

Lemma prints_getnum_p mods args cnt n args' :
  take_word args = Some (n, args') ->
  prints sendfunc (__pf_getnum ch_p) (field_pf mods args cnt) [] (number_pf mods args' cnt false n 0 false).
Proof. intros H. unfold __pf_getnum. apply prints_get. eapply prints_va_word; [done|apply prints_set]. Qed.

Lemma prints_endfield c pf t n pf' :
  prints sendfunc c pf t (counted n pf') ->
  prints sendfunc (do* c in __pf_endfield) pf t (clean_pf (ap pf') (s32 (charcount pf' + n))).
Proof. intros H. rewrite <- (app_nil_r t). eapply prints_bind; [done|apply (prints_set sendfunc endfield)]. Qed.

(** From the number to the end of its field. *)
Lemma prints_number mods args cnt neg n ch b bp :
  is_s32 cnt -> 0 <= n < 2 ^ 64 -> b = 8 \/ b = 10 \/ b = 16 -> width mods < 2147483648 ->
  prints sendfunc (__pf_setbase ch) (number_pf mods args cnt neg n 0 false) [] (number_pf mods args cnt neg n b bp) ->
  prints sendfunc (do* __pf_setbase ch in do* __pf_printnum sendfunc in __pf_endfield)
    (number_pf mods args cnt neg n 0 false) (number mods neg (base_prefix b bp) b n)
    (clean_pf args (s32 (cnt + zlength (number mods neg (base_prefix b bp) b n)))).
Proof.
  intros Hcnt Hn Hb Hw Hset. pose proof (width_nonneg mods).
  assert (E : number mods neg (base_prefix b bp) b n = padded (number_pf mods args cnt neg n b bp)
    ((if neg then [45] else []) ++ base_prefix b bp) (List.map digit_char (numeral b n))) by (symmetry; apply padded_pad).
  rewrite E. clear E. apply (prints_bind sendfunc _ _ _ _ _ [] _ Hset).
  apply (prints_endfield _ _ _ _ (number_pf mods args cnt neg n b bp)). unfold __pf_printnum. apply prints_get.
  cbn [base num number_pf]. unfold bind at 1. rewrite number_text_numeral by done.
  assert (Hlen : zlength ((if neg then [45] else []) ++ base_prefix b bp ++ List.map digit_char (numeral b n)) < 2147483648).
  { pose proof (numeral_loop_fuel 64 b n []) as Hl. fold (numeral b n) in Hl. cbn [length] in Hl.
    unfold zlength. rewrite !length_app, length_map.
    assert (length (if neg then [45%Z] else []) <= 1)%nat by (destruct neg; cbn; lia).
    assert (length (base_prefix b bp) <= 2)%nat by (unfold base_prefix; destruct bp, (b =? 16), (b =? 8); cbn; lia). lia. }
  exact (prints_stuff sendfunc _ _ _ (number_pf mods args cnt neg n b bp) Hcnt (conj H Hw) Hlen).
Qed.

Lemma prints_text mods args cnt body :
  is_s32 cnt -> width mods < 2147483648 -> zlength body < 2147483648 ->
  prints sendfunc (do* __pf_printstuff sendfunc [] [] body in __pf_endfield) (field_pf mods args cnt) (pad mods [] body)
    (clean_pf args (s32 (cnt + zlength (pad mods [] body)))).
Proof.
  intros Hcnt Hw Hl. pose proof (width_nonneg mods).
  assert (E : pad mods [] body = padded (field_pf mods args cnt) [] body) by (symmetry; apply padded_pad).
  rewrite E. clear E. apply (prints_endfield _ _ _ _ (field_pf mods args cnt)).
  exact (prints_stuff sendfunc [] [] body (field_pf mods args cnt) Hcnt (conj H Hw) Hl).
Qed.

Definition base_of (ch : Z) : Z := if (ch =? ch_d) || (ch =? ch_u) then 10 else if ch =? ch_o then 8 else 16.

Lemma int_type_cases ch : ch ∈ int_types -> ch = ch_d \/ ch = ch_o \/ ch = ch_u \/ ch = ch_p \/ ch = ch_x.
Proof. unfold int_types. rewrite !elem_of_cons, elem_of_nil. tauto. Qed.

Lemma prints_setbase mods args cnt neg n ch :
  ch ∈ int_types -> prints sendfunc (__pf_setbase ch) (number_pf mods args cnt neg n 0 false) []
    (number_pf mods args cnt neg n (base_of ch) (alt_flag mods || (ch =? ch_p))).
Proof.
  intros Hch t s Hs. exists s. rewrite app_nil_r. split; [|done]. unfold __pf_setbase, set_pf, number_pf. cbn.
  by destruct (alt_flag mods); destruct (int_type_cases ch Hch) as [->|[->|[->|[->| ->]]]].
Qed.

Lemma prints_num_field mods args args' cnt ch neg n text :
  is_s32 cnt -> width mods < 2147483648 -> ch ∈ int_types -> 0 <= n < 2 ^ 64 ->
  text = number mods neg (base_prefix (base_of ch) (alt_flag mods || (ch =? ch_p))) (base_of ch) n ->
  prints sendfunc (__pf_getnum ch) (field_pf mods args cnt) [] (number_pf mods args' cnt neg n 0 false) ->
  prints sendfunc (do* __pf_getnum ch in do* __pf_setbase ch in do* __pf_printnum sendfunc in __pf_endfield)
    (field_pf mods args cnt) text (clean_pf args' (s32 (cnt + zlength text))).
Proof.
  intros Hcnt Hw Hch Hn -> Hget. apply (prints_bind sendfunc _ _ _ _ _ [] _ Hget).
  apply prints_number; try done; [|by apply prints_setbase].
  destruct (int_type_cases ch Hch) as [->|[->|[->|[->| ->]]]]; auto.
Qed.

(** The integer conversions. *)
Lemma prints_int mods args cnt ch text args' :
  is_s32 cnt -> width mods < 2147483648 -> ch ∈ int_types -> directive mods ch args = Some (text, args') ->
  prints sendfunc (do* __pf_getnum ch in do* __pf_setbase ch in do* __pf_printnum sendfunc in __pf_endfield)
    (field_pf mods args cnt) text (clean_pf args' (s32 (cnt + zlength text))).
Proof.
  intros Hcnt Hw Hch Hd. pose proof (int_type_cases ch Hch) as Hc. unfold directive in Hd.
  destruct Hc as [->|[->|[->|[->| ->]]]]; cbn [ch_d ch_o ch_u ch_p ch_x Z.eqb Pos.eqb] in Hd;
    apply bind_Some in Hd as ([n l] & Ht & [= <- <-]).
  all: assert (Hn : 0 <= n < 2 ^ 64) by (first [by eapply take_int_range | apply take_word_range in Ht; lia]).
  1: { assert (Hz : - 2 ^ 63 <= match size_of mods with LLONGSZ => s64 n | _ => s32 n end < 2 ^ 63).
       { pose proof (s32_range n). unfold is_s32 in *. destruct (size_of mods); [lia..|apply s64_range]. }
       eapply prints_num_field; [done..| | |by apply prints_getnum_d]; [lia|by destruct (alt_flag mods)]. }
  all: apply (prints_num_field mods args l cnt _ false n); try done; try (by destruct (alt_flag mods));
    first [by apply prints_getnum_u | by apply prints_getnum_p].
Qed.

(** One directive, from its conversion character. *)
Lemma prints_directive mods args cnt ch text args' :
  is_s32 cnt -> width mods < 2147483648 -> ch <> 0 -> is_mod ch = false -> directive mods ch args = Some (text, args') ->
  prints sendfunc (__pf_send sendfunc ch) (field_pf mods args cnt) text (clean_pf args' (s32 (cnt + zlength text))).
Proof.
  intros Hcnt Hw H0 Hm Hd. unfold __pf_send. apply prints_get. rewrite (proj2 (Z.eqb_neq ch 0)) by done.
  cbn [field_pf in_pct negb andb]. fold (is_mod ch). rewrite Hm.
  case_bool_decide as Hi; [apply index_of_elem in Hi; [by apply prints_int|done]|].
  rewrite index_of_elem in Hi by done. unfold int_types in Hi. rewrite !not_elem_of_cons in Hi.
  unfold directive, ch_d, ch_u, ch_x, ch_o, ch_p in Hd. rewrite !(proj2 (Z.eqb_neq ch _)) in Hd by tauto.
  assert (Hcs : forall c, zlength (char_string c) < 2147483648) by (intros c; unfold char_string; by destruct (c =? 0)).
  destruct (ch =? ch_s).
  - destruct args as [|[w|d|str] l]; try done. destruct (Z.leb_spec 2147483648 (zlength match str with Some s => s | None => null_text end)); [done|].
    injection Hd as <- <-. intros t s Hs. exact (prints_text mods l cnt _ Hcnt Hw ltac:(done) t s Hs).
  - destruct (ch =? ch_c).
    + apply bind_Some in Hd as ([n l] & Ht & [= <- <-]). eapply prints_va_word; [done|]. by apply prints_text.
    + injection Hd as <- <-. mrun. by apply prints_text.
Qed.
End directives.

(** ** Whole formats *)

Definition state_pf (field : option (list Z)) (args : list va) (cnt : Z) : PF :=
  match field with Some mods => field_pf mods args cnt | None => clean_pf args cnt end.

Section formats.
Context {S : Type} (sendfunc : list Z -> M S unit) `{!sink sendfunc}.

Lemma prints_char args cnt ch :
  ch <> 0 -> ch <> ch_pct -> prints sendfunc (__pf_send sendfunc ch) (clean_pf args cnt) [ch] (clean_pf args (s32 (cnt + 1))).
Proof.
  intros H0 Hp. unfold __pf_send. apply prints_get. rewrite !(proj2 (Z.eqb_neq ch _)) by done.
  apply (prints_print sendfunc [ch] (clean_pf args cnt)).
Qed.

Lemma send_all_prints fmt field args cnt text :
  Forall (fun c => c <> 0) fmt -> is_s32 cnt -> match field with Some mods => width mods < 2147483648 | None => True end ->
  format field fmt args = Some text ->
  exists pf', prints sendfunc (send_all sendfunc fmt) (state_pf field args cnt) text pf' /\
    charcount pf' = s32 (cnt + zlength text).
Proof.
  revert field args cnt text. induction fmt as [|ch fmt IH]; intros field args cnt text Hc Hcnt Hf E.
  - injection E as <-. exists (state_pf field args cnt). split.
    + intros t s Hs. exists s. by rewrite app_nil_r.
    + change (zlength (@nil Z)) with 0. rewrite Z.add_0_r, s32_id by done. by destruct field.
  - apply list.Forall_cons in Hc as [Hch Hc]. cbn [format] in E. cbn [send_all].
    destruct field as [mods|]; cbn [state_pf].
    + destruct (is_mod ch) eqn:Hm.
      * destruct (Z.ltb_spec (width (mods ++ [ch])) 2147483648) as [Hw|]; [|done].
        destruct (IH (Some (mods ++ [ch])) args cnt text) as (pf' & Hp & Hn); try done. exists pf'. split; [|done].
        apply (prints_bind sendfunc _ _ _ _ _ []) with (2 := Hp). by apply prints_modifier.
      * apply bind_Some in E as ([txt args'] & Hd & E). apply fmap_Some in E as (rest & E & ->).
        destruct (IH None args' (s32 (cnt + zlength txt)) rest) as (pf' & Hp & Hn); try done; [apply s32_range|].
        exists pf'. split; [|by rewrite Hn, s32_add, zlength_app, Z.add_assoc].
        eapply prints_bind with (2 := Hp). by apply prints_directive.
    + destruct (Z.eqb_spec ch ch_pct) as [->|Hp].
      * destruct (IH (Some []) args cnt text) as (pf' & Hp & Hn); try done. exists pf'. split; [|done].
        apply (prints_bind sendfunc _ _ _ _ _ []) with (2 := Hp). apply (prints_set sendfunc (set_in_pct true)).
      * apply fmap_Some in E as (rest & E & ->).
        destruct (IH None args (s32 (cnt + 1)) rest) as (pf' & Hp' & Hn); try done; [apply s32_range|].
        exists pf'. split; [|by rewrite Hn, s32_add, zlength_cons; f_equal; lia].
        apply (prints_bind sendfunc _ _ _ _ _ [ch]) with (2 := Hp'). by apply prints_char.
Qed.

Lemma vprintf_prints fmt args text t s :
  Forall (fun c => c <> 0) fmt -> format None fmt args = Some text -> received t s ->
  exists s', __vprintf sendfunc fmt args s = Ret (s32 (zlength text), s') /\ received (t ++ text) s'.
Proof.
  intros Hc E Hs. destruct (send_all_prints fmt None args 0 text) as (pf' & Hp & Hn); try done.
  destruct (Hp t s Hs) as (s' & Es & Hs'). exists s'. split; [|done]. unfold __vprintf.
  change (endfield _) with (state_pf None args 0). rewrite Es. by rewrite Hn.
Qed.

End formats.

(** A client that keeps the text. *)
Definition keep (txt : list Z) : M (list Z) unit := fun s => Ret (tt, s ++ txt).

#[refine, global] Instance keep_sink : sink keep := { received := eq }.
Proof. intros t s txt ->. by exists (s ++ txt). Defined.

(** The format [a%-05d|%#8llo|%p%s%%] and its text. *)
Definition example_format : list Z :=
  [97; 37; 45; 48; 53; 100; 124; 37; 35; 56; 108; 108; 111; 124; 37; 112; 37; 115; 37; 37].

Definition example_text : list Z :=
  [97; 45; 52; 50; 48; 48; 124; 32; 32; 32; 32; 48; 49; 50; 51; 124; 48; 120; 102; 102; 40; 110; 117; 108; 108; 41; 37].


(** ** Printing into a buffer *)

Section buffer.
Context (m0 : mem) (b L : Z).
Context (Hmap : mapped m0 b L).

(** The text so far has been cut to the [L] bytes of the buffer. *)
Definition stored (t : list Z) (s : mem * SNP) : Prop :=
  s.2 = mk_SNP b L (Z.min (zlength t) L) /\
  forall a, s.1 !! a = if (b <=? a) && (a <? b + Z.min (zlength t) L) then t !! Z.to_nat (a - b) else m0 !! a.

Lemma snprintf_send_stored t s txt :
  0 <= L -> stored t s -> exists s', __snprintf_send txt s = Ret (tt, s') /\ stored (t ++ txt) s'.
Proof.
  intros HL. revert t s. induction txt as [|c txt IH]; intros t [m snp] [Hsnp Hm]; cbn in Hsnp, Hm.
  - exists (m, snp). rewrite app_nil_r. done.
  - cbn [__snprintf_send]. subst snp. cbn [bufpos buflen buf]. rewrite (cons_middle c t txt), app_assoc.
    pose proof (zlength_nonneg t). destruct (Z.ltb_spec (Z.min (zlength t) L) L) as [Hlt|Hge].
    + rewrite store_ok.
      2: { rewrite Hm. replace (_ && _) with false by lia. apply Hmap. lia. }
      apply IH. split; cbn [fst snd]; [f_equal; rewrite zlength_snoc; lia|]. rewrite zlength_snoc. intros a.
      destruct (decide (a = b + Z.min (zlength t) L)) as [->|Hne].
      * rewrite lookup_insert_eq. replace (_ && _) with true by lia.
        rewrite lookup_app_r by (unfold zlength in *; lia).
        replace (Z.to_nat _ - length t)%nat with O by (unfold zlength in *; lia). done.
      * rewrite lookup_insert_ne, Hm by done.
        destruct ((b <=? a) && (a <? b + Z.min (zlength t) L)) eqn:E.
        -- replace (_ && _) with true by lia. rewrite lookup_app_l; [done|unfold zlength in *; lia].
        -- replace (_ && _) with false by lia. done.
    + apply IH. split; cbn [fst snd]; [f_equal; rewrite zlength_snoc; lia|]. rewrite zlength_snoc. intros a. rewrite Hm.
      destruct ((b <=? a) && (a <? b + Z.min (zlength t) L)) eqn:E.
      * replace (_ && _) with true by lia. rewrite lookup_app_l; [done|unfold zlength in *; lia].
      * replace (_ && _) with false by lia. done.
Qed.

Definition buffer_sink (HL : 0 <= L) : sink __snprintf_send :=
  {| received := stored; sink_law := fun t s txt => snprintf_send_stored t s txt HL |}.
End buffer.

Lemma vsnprintf_stores (m : mem) (b len : Z) (fmt : list Z) (args : list va) (text : list Z) :
  0 <= len -> mapped m b len -> Forall (fun c => c <> 0) fmt -> format None fmt args = Some text ->
  exists m', vsnprintf b len fmt args m = Ret (s32 (zlength text), m') /\
    (forall a, ~ b <= a < b + len -> m' !! a = m !! a) /\
    (0 < len ->
      (forall j, 0 <= j < Z.min (zlength text) (len - 1) -> m' !! (b + j) = text !! Z.to_nat j) /\
      m' !! (b + Z.min (zlength text) (len - 1)) = Some 0).
Proof.
  intros Hl Hm Hc E. set (L := if len =? 0 then 0 else len - 1). pose proof (zlength_nonneg text).
  assert (HL : 0 <= L <= len) by (unfold L; destruct (Z.eqb_spec len 0); lia).
  assert (HmL : mapped m b L) by (intros j Hj; apply Hm; lia).
  destruct (@vprintf_prints _ _ (buffer_sink m b L HmL (proj1 HL)) fmt args text [] (m, mk_SNP b L 0)) as ([m1 snp] & Ev & [Hsnp Hm1]); try done.
  { assert (E0 : Z.min (zlength (@nil Z)) L = 0) by (change (zlength (@nil Z)) with 0; lia).
    split; cbn [fst snd]; [by rewrite E0|]. intros a. rewrite E0. by replace (_ && _) with false by lia. }
  cbn in Hsnp, Hm1. subst snp. unfold vsnprintf. fold L. rewrite Ev. cbn [bufpos].
  destruct (Z.ltb_spec 0 len) as [Hpos|Hz].
  - assert (HLe : L = len - 1) by (unfold L; rewrite (proj2 (Z.eqb_neq len 0)); lia).
    rewrite (bind_ok _ _ _ tt (<[b + Z.min (zlength text) L := 0]> m1)).
    2: { apply store_ok. rewrite Hm1. replace (_ && _) with false by lia. apply Hm. lia. }
    eexists. split; [done|]. split.
    + intros a Ha. rewrite lookup_insert_ne, Hm1 by lia. by replace (_ && _) with false by lia.
    + intros _. rewrite <- HLe. split; [|by rewrite lookup_insert_eq]. intros j Hj.
      rewrite lookup_insert_ne, Hm1 by lia. replace (_ && _) with true by lia. f_equal. lia.
  - exists m1. split; [done|]. split; [|lia]. intros a Ha. rewrite Hm1.
    assert (L = 0) by lia. by replace (_ && _) with false by lia.
Qed.

(** C40. [vsnprintf] never writes outside the [len] bytes of its buffer, whatever the
    format and its arguments: what it stores is the start of the text of the
    format, cut to [len - 1] characters, and a terminator; it writes nothing
    at all when [len] is zero, and it returns the length of the whole text. *)
Theorem vsnprintf_bounded (m : mem) (b len : Z) (fmt : list Z) (args : list va) (text : list Z) :
  0 <= len -> mapped m b len -> Forall (fun c => c <> 0) fmt -> format None fmt args = Some text ->
  exists m', vsnprintf b len fmt args m = Ret (s32 (zlength text), m') /\
    (forall a, ~ b <= a < b + len -> m' !! a = m !! a) /\
    (0 < len ->
      (forall j, 0 <= j < Z.min (zlength text) (len - 1) -> m' !! (b + j) = text !! Z.to_nat j) /\
      m' !! (b + Z.min (zlength text) (len - 1)) = Some 0).
Proof. apply vsnprintf_stores. Qed.

Definition zeros (b n : Z) : mem := list_to_map (zip (seqZ b n) (replicate (Z.to_nat n) 0)).

Lemma zeros_mapped b n : mapped (zeros b n) b n.
Proof.
  intros j Hj. unfold zeros. apply elem_of_dom. rewrite dom_list_to_map, elem_of_list_to_set.
  rewrite fst_zip by (rewrite length_replicate, length_seqZ; lia). apply elem_of_seqZ. lia.
Qed.

Lemma vsnprintf_bounded_witness :
  exists m', vsnprintf 16 4 example_format [VWord (-42); VDword 83; VWord 255; VStr None] (zeros 16 5) =
      Ret (s32 (zlength example_text), m') /\
    (forall a, ~ 16 <= a < 16 + 4 -> m' !! a = zeros 16 5 !! a) /\
    (0 < 4 ->
      (forall j, 0 <= j < Z.min (zlength example_text) (4 - 1) -> m' !! (16 + j) = example_text !! Z.to_nat j) /\
      m' !! (16 + Z.min (zlength example_text) (4 - 1)) = Some 0).
Proof.
  apply (vsnprintf_bounded (zeros 16 5) 16 4 example_format [VWord (-42); VDword 83; VWord 255; VStr None] example_text).
  - lia.
  - intros j Hj. apply zeros_mapped. lia.
  - repeat constructor; discriminate.
  - vm_compute. reflexivity.
Defined.

(** ** Printing and reading numbers *)

Lemma index_of_digit10 d : 0 <= d < 10 -> index_of digits10 (digit_char d) = Some d.
Proof.
  intros Hd. assert (Hin : d ∈ seqZ 0 10) by (apply elem_of_seqZ; lia). revert d Hin Hd.
  apply (list.Forall_forall (fun d => _ -> index_of digits10 (digit_char d) = Some d)). by repeat constructor.
Qed.

Lemma atoi_digits_value ds v :
  Forall (fun d => 0 <= d < 10) ds -> atoi_digits (List.map digit_char ds) (w32 v) = w32 (value 10 ds v).
Proof.
  revert v. induction ds as [|d ds IH]; intros v Hd; [done|]. apply list.Forall_cons in Hd as [Hd Hds].
  cbn [List.map atoi_digits]. rewrite index_of_digit10 by done.
  replace (w32 (w32 v * 10 + d)) with (w32 (v * 10 + d)); [by rewrite IH|].
  unfold w32. rewrite (Zplus_mod (v mod two32 * 10)), Zmult_mod_idemp_l, <- Zplus_mod. done.
Qed.

Lemma s32_of_w32 z : is_s32 z -> s32 (w32 z) = z.
Proof. unfold is_s32, s32, w32. intros H. rewrite Zplus_mod_idemp_l, Z.mod_small; unfold two32; lia. Qed.

Lemma atoi_unsigned d s : 0 <= d < 10 -> atoi (digit_char d :: s) = s32 (atoi_digits (digit_char d :: s) 0).
Proof.
  intros Hd. assert (Hin : d ∈ seqZ 0 10) by (apply elem_of_seqZ; lia). clear Hd. revert d Hin.
  apply (list.Forall_forall (fun d => atoi (digit_char d :: s) = s32 (atoi_digits (digit_char d :: s) 0))).
  by repeat constructor.
Qed.

Lemma atoi_numeral z :
  is_s32 z -> atoi ((if z <? 0 then [45] else []) ++ List.map digit_char (numeral 10 (Z.abs z))) = z.
Proof.
  intros Hz. pose proof (s32_of_w32 z Hz) as Hs. unfold is_s32 in Hz. assert (Hp : 0 <= Z.abs z < 10 ^ Z.of_nat 64).
  { assert (2147483648 < 10 ^ Z.of_nat 64) by reflexivity. lia. }
  destruct (numeral_loop_lead 64 10 (Z.abs z) [] ltac:(lia) Hp ltac:(lia)) as (d & l & E & Hd & _).
  assert (Hds : Forall (fun d => 0 <= d < 10) (numeral 10 (Z.abs z))).
  { apply numeral_loop_Forall; [intros; apply Z.mod_pos_bound; lia|done]. }
  assert (Hv : atoi_digits (List.map digit_char (numeral 10 (Z.abs z))) 0 = w32 (Z.abs z)).
  { change 0 with (w32 0) at 1. rewrite atoi_digits_value by done. f_equal. apply (numeral_loop_value 64 10 _ []); [lia|exact Hp|lia]. }
  unfold numeral in *. rewrite E in *. cbn [List.map] in *.
  assert (Hneg : forall s, atoi (45 :: s) = s32 (w32 (- atoi_digits s 0))) by done.
  pose proof (atoi_unsigned d (List.map digit_char l) Hd) as Hpos.
  destruct (Z.ltb_spec z 0); cbn [app].
  - rewrite Hneg, Hv, (w32_id (Z.abs z)) by (unfold is_u32, two32; lia). by rewrite Z.abs_neq, Z.opp_involutive by lia.
  - by rewrite Hpos, Hv, Z.abs_eq by lia.
Qed.

Lemma numeral_length_10 z : is_s32 z -> (length (numeral 10 (Z.abs z)) <= 10)%nat.
Proof.
  intros Hz. unfold is_s32 in Hz. pose proof (numeral_loop_length 64 10 (Z.abs z) [] 9 ltac:(lia)) as H.
  change (10 ^ Z.of_nat 10) with 10000000000 in H. specialize (H ltac:(lia)). cbn [length] in H. unfold numeral. lia.
Qed.

Lemma stored_str m b text n :
  Forall (fun c => c <> 0) text -> (forall j, 0 <= j < zlength text -> m !! (b + j) = text !! Z.to_nat j) ->
  n = zlength text -> m !! (b + n) = Some 0 -> str_at m b text.
Proof.
  intros Hc Hm -> H0. rewrite <- (app_nil_r text). apply str_at_app. split; [|done].
  intros j Hj. destruct (lookup_lt_is_Some_2 text j Hj) as [c Hcj]. exists c.
  rewrite Hm, Nat2Z.id by (unfold zlength; lia). split_and!; try done. by eapply (Forall_lookup_1 (fun c => c <> 0)).
Qed.

(** Printing an [int] with [%d] and reading it back gives it back: twelve bytes
    are enough for every 32-bit number, and [atoi] of what [snprintf] stored in
    them is the number, the smallest one included. *)
Theorem snprintf_atoi_roundtrip (m : mem) (b z : Z) :
  is_s32 z -> mapped m b 12 ->
  exists n m' s, snprintf b 12 [ch_pct; ch_d] [VWord z] m = Ret (n, m') /\
    str_at m' b s /\ n = zlength s /\ atoi s = z.
Proof.
  intros Hz Hm. set (text := (if z <? 0 then [45] else []) ++ List.map digit_char (numeral 10 (Z.abs z))).
  assert (Hf : format None [ch_pct; ch_d] [VWord z] = Some text).
  { cbn [format is_mod]. change (is_mod ch_d) with false. cbn -[numeral s32 w32 number].
    rewrite (s32_of_w32 z Hz). rewrite app_nil_r. unfold number, pad. cbn [left_flag zero_flag existsb width_digits List.filter].
    rewrite app_nil_r. fold text. change (width []) with 0. pose proof (zlength_nonneg text).
    by replace (Z.to_nat (0 - zlength text)) with O by lia. }
  assert (Hlen : 0 <= zlength text <= 11).
  { unfold text, zlength. rewrite length_app, length_map. pose proof (numeral_length_10 z Hz). destruct (z <? 0); cbn [length]; clear -H; lia. }
  destruct (vsnprintf_stores m b 12 [ch_pct; ch_d] [VWord z] text) as (m' & E & _ & Hs); try done; [by repeat constructor|].
  destruct Hs as [Hs H0]; [lia|]. exists (zlength text), m', text. split_and!.
  - unfold snprintf. rewrite (bind_ok _ _ _ _ _ E), s32_id by (unfold is_s32; lia). done.
  - apply (stored_str m' b text (Z.min (zlength text) (12 - 1))); [| |lia|done].
    + unfold text. apply Forall_app. split; [destruct (z <? 0); repeat constructor; done|].
      apply Forall_map, (numeral_loop_Forall (fun d => digit_char d <> 0)); [|done].
      intros n. apply digit_char_nonzero. pose proof (Z.mod_pos_bound n 10). lia.
    + intros j Hj. apply Hs. lia.
  - done.
  - by apply atoi_numeral.
Qed.

Lemma snprintf_atoi_roundtrip_witness :
  exists n m' s, snprintf 64 12 [ch_pct; ch_d] [VWord (-2147483648)] (zeros 64 12) = Ret (n, m') /\
    str_at m' 64 s /\ n = zlength s /\ atoi s = -2147483648.
Proof.
  apply (snprintf_atoi_roundtrip (zeros 64 12) 64 (-2147483648)); [unfold is_s32; lia|apply zeros_mapped].
Defined.

(** A field that is filled on the right is filled with zeros when the width starts
    with a zero, so that [%-05d] of 42 reads 42000. *)
Lemma left_aligned_zero_fill :
  __vprintf keep [37; 45; 48; 53; 100] [VWord 42] [] = Ret (5, [52; 50; 48; 48; 48]).
Proof. vm_compute. reflexivity. Qed.
