(* ===== verification/Heap.v ===== *)
(** * The kernel heap as its clients see it

    [kmalloc] and [kfree] (kern/vm/kmalloc.c) as an interface: the clients'
    theorems are proved against the class [KHeap]; [RefHeap] is a small
    reference allocator that implements it, used to evaluate the clients. *)

From stdpp Require Import base numbers list gmap.
From Stdlib Require Import ZArith Lia.
From S2P Require Import Prelude.

(** Two address ranges that do not meet. *)
Definition disjoint_range (p n q m : Z) : Prop := p + n <= q \/ q + m <= p.

(** The largest request: rounding a larger one up to whole pages would wrap. *)
Definition heap_max : Z := 4294963200.

(** What the kernel heap promises: the null pointer is 0; a block that
    [kmalloc] returns is new and overlaps no live block; [kfree] of a live
    block takes it back and [kfree(NULL)] does nothing. *)
Class KHeap (H : Type) := {
  kmalloc : Z -> M H Z;
  kfree : Z -> M H unit;
  heap_ok : H -> Prop;
  live : H -> gmap Z Z;
  kmalloc_spec sz h :
    heap_ok h -> 0 <= sz <= heap_max ->
    exists p h', kmalloc sz h = Ret (p, h') /\ heap_ok h' /\
      ((p = 0 /\ live h' = live h) \/
       (0 < p /\ live h !! p = None /\ live h' = <[p := sz]> (live h)));
  kfree_spec p h :
    heap_ok h -> is_Some (live h !! p) ->
    exists h', kfree p h = Ret (tt, h') /\ heap_ok h' /\
      live h' = delete p (live h);
  kfree_null h : heap_ok h -> kfree 0 h = Ret (tt, h);
  live_disjoint h p q n m :
    heap_ok h -> live h !! p = Some n -> live h !! q = Some m -> p <> q ->
    disjoint_range p n q m;
}.

(** ** The clients' view of a call of [kmalloc] *)
Section clients.
Context {H : Type} `{KHeap H}.

(** Both outcomes of a [kmalloc], in the form in which a client's proof uses
    them: a null result leaves the heap's contents alone. *)
Lemma kmalloc_cases sz h :
  heap_ok h -> 0 <= sz <= heap_max ->
  (exists h', kmalloc sz h = Ret (0, h') /\ heap_ok h' /\ live h' = live h) \/
  (exists p h', kmalloc sz h = Ret (p, h') /\ heap_ok h' /\ 0 < p /\
     live h !! p = None /\ live h' = <[p := sz]> (live h)).
Proof.
  intros Hok Hsz.
  destruct (kmalloc_spec sz h Hok Hsz) as (p & h' & E & Hok' & [[-> ?]|(? & ? & ?)]).
  - left. eauto.
  - right. exists p, h'. auto.
Qed.

(** Freeing the block that was just allocated restores the contents. *)
Lemma kfree_fresh p sz h h' :
  heap_ok h' -> live h !! p = None -> live h' = <[p := sz]> (live h) ->
  exists h2, kfree p h' = Ret (tt, h2) /\ heap_ok h2 /\ live h2 = live h.
Proof.
  intros Hok Hn Hl.
  destruct (kfree_spec p h') as (h2 & E & Hok2 & Hl2); [done| |].
  { rewrite Hl, lookup_insert_eq. eauto. }
  exists h2. split_and!; [done..|].
  rewrite Hl2, Hl, delete_insert_id; done.
Qed.

(** What a step may do to the rest of the heap: nothing; and the old block is
    not leaked. *)
Definition heap_frame (h h' : H) (p p' : Z) : Prop :=
  (forall q, q <> p -> q <> p' -> live h' !! q = live h !! q) /\
  (p <> 0 -> p <> p' -> live h' !! p = None).

(** ** Blocks of a client *)

Definition add_blocks (bs : list (Z * Z)) (m : gmap Z Z) : gmap Z Z := foldr (fun b m => <[b.1 := b.2]> m) m bs.

(** [h'] is [h] with the blocks [bs] allocated. *)
Definition has_new (h h' : H) (bs : list (Z * Z)) : Prop :=
  heap_ok h' /\ live h' = add_blocks bs (live h) /\ NoDup bs.*1 /\ Forall (fun b => 0 < b.1 /\ live h !! b.1 = None) bs.

Lemma add_blocks_ne bs m p : p ∉ bs.*1 -> add_blocks bs m !! p = m !! p.
Proof.
  induction bs as [|b bs IH]; cbn; [done|]. intros Hp. apply not_elem_of_cons in Hp as [H1 H2].
  rewrite lookup_insert_ne by done. auto.
Qed.

Lemma add_blocks_in bs m p : p ∈ bs.*1 -> is_Some (add_blocks bs m !! p).
Proof.
  induction bs as [|b bs IH]; cbn; [by intros ?%not_elem_of_nil|].
  intros [->|Hp]%elem_of_cons; [rewrite lookup_insert_eq; eauto|].
  destruct (decide (b.1 = p)) as [->|]; [rewrite lookup_insert_eq; eauto|rewrite lookup_insert_ne by done; auto].
Qed.

Lemma add_blocks_perm bs bs' m : bs ≡ₚ bs' -> NoDup bs.*1 -> add_blocks bs m = add_blocks bs' m.
Proof.
  induction 1 as [|b bs bs' Hp IH|b1 b2 bs|bs1 bs2 bs3 H1 IH1 H2 IH2]; cbn [fmap list_fmap]; intros Hnd; try done.
  - apply list.NoDup_cons in Hnd as [_ Hnd]. cbn [add_blocks foldr]. f_equal. by apply IH.
  - apply list.NoDup_cons in Hnd as [Hn _]. apply not_elem_of_cons in Hn as [Hn _]. by apply insert_insert_ne.
  - rewrite IH1 by done. apply IH2. by rewrite <- H1.
Qed.

Lemma has_new_perm h h' bs bs' : bs ≡ₚ bs' -> has_new h h' bs -> has_new h h' bs'.
Proof.
  intros Hp (Hok & Hl & Hnd & Hf). split_and!; [done| | |].
  - by rewrite <- (add_blocks_perm bs bs').
  - by rewrite <- Hp.
  - by rewrite <- Hp.
Qed.

Lemma has_new_refl h : heap_ok h -> has_new h h [].
Proof. intros Hok. split_and!; [done|done|apply base.NoDup_nil_2|done]. Qed.

Lemma kmalloc_has_new h h1 bs sz :
  has_new h h1 bs -> 0 <= sz <= heap_max ->
  exists p h', kmalloc sz h1 = Ret (p, h') /\ ((p = 0 /\ has_new h h' bs) \/ (0 < p /\ has_new h h' ((p, sz) :: bs))).
Proof.
  intros (Hok & Hl & Hnd & Hf) Hsz.
  destruct (kmalloc_cases sz h1 Hok Hsz) as [(h' & -> & Hok' & Hl')|(p & h' & -> & Hok' & Hp & Hn & Hl')].
  - exists 0, h'. split; [done|]. left. split; [done|]. split_and!; try done. by rewrite Hl'.
  - exists p, h'. split; [done|]. right. split; [done|].
    assert (Hin : p ∉ bs.*1).
    { intros Hin. rewrite Hl in Hn. destruct (add_blocks_in bs (live h) p Hin) as [x Hx]. congruence. }
    split_and!; [done| | |].
    + cbn. by rewrite Hl', Hl.
    + by apply list.NoDup_cons.
    + apply list.Forall_cons. split; [|done]. split; [done|]. by rewrite Hl, add_blocks_ne in Hn.
Qed.

Lemma kfree_has_new h h1 p sz bs :
  has_new h h1 ((p, sz) :: bs) -> exists h', kfree p h1 = Ret (tt, h') /\ has_new h h' bs.
Proof.
  intros (Hok & Hl & Hnd & Hf). apply list.Forall_cons in Hf as [[_ Hfp] Hf]. apply list.NoDup_cons in Hnd as [Hni Hnd].
  cbn [fst] in *. destruct (kfree_spec p h1) as (h' & E & Hok' & Hl'); [done|rewrite Hl; cbn; rewrite lookup_insert_eq; eauto|].
  exists h'. split; [done|]. split_and!; try done. rewrite Hl', Hl. cbn. apply delete_insert_id. by rewrite add_blocks_ne.
Qed.

End clients.

(** ** A reference allocator

    A bump allocator with a ceiling: blocks are handed out at increasing
    addresses and never reused. *)
Module RefHeap.

Record t := mk { blocks : gmap Z Z; next : Z; limit : Z }.

Definition alloc (sz : Z) : M t Z := fun h =>
  if next h + Z.max 1 sz <=? limit h
  then Ret (next h, mk (<[next h := sz]> (blocks h)) (next h + Z.max 1 sz) (limit h))
  else Ret (0, h).

Definition free (p : Z) : M t unit := fun h =>
  if p =? 0 then Ret (tt, h)
  else match blocks h !! p with
       | Some _ => Ret (tt, mk (delete p (blocks h)) (next h) (limit h))
       | None => Panic
       end.

Definition ok (h : t) : Prop :=
  0 < next h /\
  (forall p n, blocks h !! p = Some n -> 0 < p /\ 0 <= n /\ p + Z.max 1 n <= next h) /\
  (forall p q n m, blocks h !! p = Some n -> blocks h !! q = Some m -> p <> q ->
     p + Z.max 1 n <= q \/ q + Z.max 1 m <= p).

Definition init (lim : Z) : t := mk ∅ 16 lim.

Lemma init_ok lim : ok (init lim).
Proof.
  split; [cbn; lia|]. split; intros *; cbn; rewrite lookup_empty; discriminate.
Qed.

Lemma alloc_spec sz h :
  ok h -> 0 <= sz <= heap_max ->
  exists p h', alloc sz h = Ret (p, h') /\ ok h' /\
    ((p = 0 /\ blocks h' = blocks h) \/
     (0 < p /\ blocks h !! p = None /\ blocks h' = <[p := sz]> (blocks h))).
Proof.
  intros (Hn & Hb & Hd) Hsz. unfold alloc. destruct (Z.leb_spec (next h + Z.max 1 sz) (limit h)).
  2: { exists 0, h. split; [done|]. split; [split; [|split]; done|auto]. }
  assert (Hfresh : blocks h !! next h = None).
  { destruct (blocks h !! next h) eqn:E; [|done]. apply Hb in E. lia. }
  eexists (next h), _. split; [done|]. split; [|right; cbn; auto].
  split; [cbn; lia|]. cbn [blocks next]. split.
  - intros p n. rewrite lookup_insert. case_decide; [intros [= <-]; lia|].
    intros Hp. apply Hb in Hp. lia.
  - intros p q n m. rewrite !lookup_insert.
    do 2 case_decide; try congruence; intros Hp Hq Hpq;
      [apply Hb in Hq|apply Hb in Hp|]; eauto; lia.
Qed.

Lemma free_spec p h :
  ok h -> is_Some (blocks h !! p) ->
  exists h', free p h = Ret (tt, h') /\ ok h' /\ blocks h' = delete p (blocks h).
Proof.
  intros (Hn & Hb & Hd) [n Hp]. unfold free.
  destruct (Z.eqb_spec p 0) as [->|]; [apply Hb in Hp; lia|]. rewrite Hp.
  eexists. split; [done|]. split; [|done].
  split; [cbn; lia|]. cbn [blocks next]. split.
  - intros q m. rewrite lookup_delete_Some. intros [_ ?]; auto.
  - intros q r m k. rewrite !lookup_delete_Some. intros [_ ?] [_ ?]; eauto.
Qed.

Lemma ok_disjoint h p q n m :
  ok h -> blocks h !! p = Some n -> blocks h !! q = Some m -> p <> q ->
  disjoint_range p n q m.
Proof.
  intros (_ & _ & Hd) Hp Hq Hpq. destruct (Hd p q n m); auto; [left|right]; lia.
Qed.

#[global] Instance ref_heap : KHeap t := {|
  kmalloc := alloc; kfree := free; heap_ok := ok; live := blocks;
  kmalloc_spec := alloc_spec; kfree_spec := free_spec;
  kfree_null := fun h _ => eq_refl;
  live_disjoint := ok_disjoint
|}.

End RefHeap.
