(* ===== verification/Vfs.v ===== *)
(** * The virtual file system (kern/vfs)

    The table of devices and mounted file systems (vfslist.c), path names
    (vfslookup.c), the operations on path names (vfspath.c), the current directory
    (vfscwd.c) and the reference counts of vnodes (vnode.c).  File systems and
    devices are behind the interface [FileSystems]: the operations of vnode.h
    and fs.h, with what these headers promise.  Strings are their characters;
    the spinlock of the process around its current directory is left out, and
    reference counts stay far from the end of their range. *)

From Stdlib Require Import ZArith Lia.
From stdpp Require Import base numbers list gmap functions.
From S2P Require Import Prelude CLib Heap.

(** ** Data *)

Definition NAME_MAX : Z := 255.
Definition S_IFDIR : Z := 8192.
Definition O_RDONLY : Z := 0.
Definition O_WRONLY : Z := 1.
Definition O_RDWR : Z := 2.
Definition O_ACCMODE : Z := 3.
Definition O_CREAT : Z := 4.
Definition O_EXCL : Z := 8.
Definition O_TRUNC : Z := 16.
Definition ch_colon : Z := 58.
Definition ch_slash : Z := 47.

(** A string in the heap: its block and its characters. *)
Definition str : Type := Z * list Z.

(** The null pointer is [0], and [None] for the raw name. *)
Record knowndev := mk_kd {
  kd_addr : Z;
  kd_name : str;
  kd_rawname : option str;
  kd_device : Z;
  kd_vnode : Z;
  kd_fs : Z
}.

#[global] Instance knowndev_eq_dec : EqDecision knowndev.
Proof. solve_decision. Defined.

Definition sizeof_knowndev : Z := 20.
Definition sizeof_vnode : Z := 20.

(** ** File systems and devices *)

(** A call through the operations of a vnode or of a file system. *)
Inductive fsreq :=
  | Open (vn flags : Z) | Close (vn : Z) | Reclaim (vn : Z)
  | GetType (vn : Z) | Truncate (vn len : Z) | ReadLink (vn : Z) | NameFile (vn : Z)
  | Creat (dir : Z) (name : list Z) (excl : bool) (mode : Z)
  | Symlink (dir : Z) (name contents : list Z)
  | Mkdir (dir : Z) (name : list Z) (mode : Z)
  | Link (dir : Z) (name : list Z) (file : Z)
  | Remove (dir : Z) (name : list Z)
  | Rmdir (dir : Z) (name : list Z)
  | Rename (d1 : Z) (n1 : list Z) (d2 : Z) (n2 : list Z)
  | Lookup (dir : Z) (path : list Z)
  | Lookparent (dir : Z) (path : list Z) (buflen : Z)
  | FsSync (fs : Z) | FsGetroot (fs : Z) | FsUnmount (fs : Z)
  | MountFunc (dev : Z).

(** What comes back: the result, and a vnode, a file system, a type, or the
    name that [VOP_LOOKPARENT] stores. *)
Record reply := mk_reply { r_result : Z; r_value : Z; r_name : list Z }.

(** The calls that hand back a vnode, with a reference to it. *)
Definition hands_back (q : fsreq) : bool :=
  match q with Creat _ _ _ _ | Lookup _ _ | Lookparent _ _ _ | FsGetroot _ => true | _ => false end.

(** [W] is all the state behind the interface: file systems, devices, the uio that
    a caller passes, and the memory of the table of devices. *)
Class FileSystems (W : Type) := {
  call : fsreq -> W -> reply * W;
  vn_fs : Z -> Z;
  fs_getvolname : Z -> W -> option (list Z);
  uiomove : list Z -> W -> Z * W;
  array_grows : Z -> W -> bool * W;
  (* a vnode or a mounted file system that is handed back is not null *)
  call_value q w : hands_back q = true \/ (exists dev, q = MountFunc dev) ->
    r_result (call q w).1 = 0 -> r_value (call q w).1 <> 0;
  (* "fs_getroot should not ever return NULL" *)
  getroot_result fs w : r_result (call (FsGetroot fs) w).1 = 0;
  (* "vn_fs may be null if the vnode refers to a device" *)
  directory_has_fs vn w :
    r_result (call (GetType vn) w).1 = 0 -> r_value (call (GetType vn) w).1 = S_IFDIR -> vn_fs vn <> 0;
  (* the memory of the table is apart from the file systems *)
  grows_volname n fs w : fs_getvolname fs (array_grows n w).2 = fs_getvolname fs w
}.

(** ** State *)

Section vfs.
Context {W H : Type} `{!FileSystems W} `{!KHeap H}.

Record vst := mk_vst {
  knowndevs : list knowndev;
  vfs_biglock_depth : Z;
  bootfs_vnode : Z;
  p_cwd : Z;
  vn_refcount : Z -> Z;
  vn_opencount : Z -> Z;
  d_devnumber : Z -> Z;
  kheap : H;
  world : W
}.

Definition set_devs (s : vst) x := mk_vst x (vfs_biglock_depth s) (bootfs_vnode s) (p_cwd s) (vn_refcount s) (vn_opencount s) (d_devnumber s) (kheap s) (world s).
Definition set_depth (s : vst) x := mk_vst (knowndevs s) x (bootfs_vnode s) (p_cwd s) (vn_refcount s) (vn_opencount s) (d_devnumber s) (kheap s) (world s).
Definition set_bootfs (s : vst) x := mk_vst (knowndevs s) (vfs_biglock_depth s) x (p_cwd s) (vn_refcount s) (vn_opencount s) (d_devnumber s) (kheap s) (world s).
Definition set_cwd (s : vst) x := mk_vst (knowndevs s) (vfs_biglock_depth s) (bootfs_vnode s) x (vn_refcount s) (vn_opencount s) (d_devnumber s) (kheap s) (world s).
Definition set_refs (s : vst) x := mk_vst (knowndevs s) (vfs_biglock_depth s) (bootfs_vnode s) (p_cwd s) x (vn_opencount s) (d_devnumber s) (kheap s) (world s).
Definition set_opens (s : vst) x := mk_vst (knowndevs s) (vfs_biglock_depth s) (bootfs_vnode s) (p_cwd s) (vn_refcount s) x (d_devnumber s) (kheap s) (world s).
Definition set_devnumber (s : vst) x := mk_vst (knowndevs s) (vfs_biglock_depth s) (bootfs_vnode s) (p_cwd s) (vn_refcount s) (vn_opencount s) x (kheap s) (world s).
Definition set_kheap (s : vst) x := mk_vst (knowndevs s) (vfs_biglock_depth s) (bootfs_vnode s) (p_cwd s) (vn_refcount s) (vn_opencount s) (d_devnumber s) x (world s).
Definition set_world (s : vst) x := mk_vst (knowndevs s) (vfs_biglock_depth s) (bootfs_vnode s) (p_cwd s) (vn_refcount s) (vn_opencount s) (d_devnumber s) (kheap s) x.

Definition on_heap {A} (c : M H A) : M vst A := fun s =>
  match c (kheap s) with
  | Ret (a, h) => Ret (a, set_kheap s h)
  | Panic => Panic | Fault => Fault | NoFuel => NoFuel
  end.

(** A call into a file system: the vnode that it hands back has a reference. *)
Definition fs_call (q : fsreq) : M vst reply := fun s =>
  let '(r, w) := call q (world s) in
  let s := set_world s w in
  if hands_back q && (r_result r =? 0) then
    Ret (r, set_refs s (<[r_value r := vn_refcount s (r_value r) + 1]> (vn_refcount s)))
  else Ret (r, s).

Definition move (data : list Z) : M vst Z := fun s =>
  let '(r, w) := uiomove data (world s) in Ret (r, set_world s w).
Definition getvolname (fs : Z) : M vst (option (list Z)) := gets (fun s => fs_getvolname fs (world s)).

(** ** The big lock (vfslist.c) *)

Definition vfs_biglock_acquire : M vst unit := modify (fun s => set_depth s (vfs_biglock_depth s + 1)).
Definition vfs_biglock_do_i_hold : M vst bool := gets (fun s => 0 <? vfs_biglock_depth s).
Definition vfs_biglock_release : M vst unit :=
  let* b := vfs_biglock_do_i_hold in
  do* kassert b in
  modify (fun s => set_depth s (vfs_biglock_depth s - 1)).

Definition assert_biglock : M vst unit := let* b := vfs_biglock_do_i_hold in kassert b.

(** ** Vnodes (vnode.c) *)

Definition vnode_check (vn : Z) (reclaim : bool) : M vst unit :=
  do* vfs_biglock_acquire in
  if vn =? 0 then panic
  else
    let* s := get in
    if vn_refcount s vn <? 0 then panic
    else if (vn_refcount s vn =? 0) && negb reclaim then panic
    else if vn_opencount s vn <? 0 then panic
    else vfs_biglock_release.

Definition vnode_incref (vn : Z) : M vst unit :=
  do* kassert (negb (vn =? 0)) in
  do* vfs_biglock_acquire in
  do* modify (fun s => set_refs s (<[vn := vn_refcount s vn + 1]> (vn_refcount s))) in
  vfs_biglock_release.

(** The vnode is gone when [VOP_RECLAIM] succeeds. *)
Definition vnode_decref (vn : Z) : M vst unit :=
  do* kassert (negb (vn =? 0)) in
  do* vfs_biglock_acquire in
  let* s := get in
  do* kassert (0 <? vn_refcount s vn) in
  do* (if 1 <? vn_refcount s vn then
         modify (fun s => set_refs s (<[vn := vn_refcount s vn - 1]> (vn_refcount s)))
       else
         do* vnode_check vn true in
         let* r := fs_call (Reclaim vn) in
         if r_result r =? 0 then modify (fun s => set_refs s (<[vn := 0]> (vn_refcount s))) else ret tt) in
  vfs_biglock_release.

Definition vnode_incopen (vn : Z) : M vst unit :=
  do* kassert (negb (vn =? 0)) in
  do* vfs_biglock_acquire in
  do* modify (fun s => set_opens s (<[vn := vn_opencount s vn + 1]> (vn_opencount s))) in
  vfs_biglock_release.

Definition vop (vn : Z) (q : fsreq) : M vst reply :=
  do* vnode_check vn false in fs_call q.

Definition vnode_decopen (vn : Z) : M vst unit :=
  do* kassert (negb (vn =? 0)) in
  do* vfs_biglock_acquire in
  let* s := get in
  do* kassert (0 <? vn_opencount s vn) in
  do* modify (fun s => set_opens s (<[vn := vn_opencount s vn - 1]> (vn_opencount s))) in
  let* s := get in
  if 0 <? vn_opencount s vn then vfs_biglock_release
  else
    do* vop vn (Close vn) in
    vfs_biglock_release.

(** ** The table of devices (vfslist.c) *)

Fixpoint for_devs (devs : list knowndev) (body : knowndev -> M vst unit) : M vst unit :=
  match devs with
  | [] => ret tt
  | kd :: devs => do* body kd in for_devs devs body
  end.

Definition vfs_sync : M vst Z :=
  do* vfs_biglock_acquire in
  let* devs := gets knowndevs in
  do* for_devs devs (fun dev =>
    if negb (kd_fs dev =? 0) then do* fs_call (FsSync (kd_fs dev)) in ret tt else ret tt) in
  do* vfs_biglock_release in
  ret 0.

Definition same (a b : list Z) : bool := bool_decide (a = b).

(** [*result] is the second component. *)
Fixpoint getroot_loop (devs : list knowndev) (devname : list Z) : M vst (Z * Z) :=
  match devs with
  | [] => ret (ENODEV, 0)
  | kd :: devs =>
      let next :=
        if same (kd_name kd).2 devname then
          do* kassert (kd_fs kd =? 0) in
          do* kassert (bool_decide (kd_rawname kd = None)) in
          do* kassert (negb (kd_device kd =? 0)) in
          do* vnode_incref (kd_vnode kd) in
          ret (0, kd_vnode kd)
        else
          match kd_rawname kd with
          | Some raw =>
              if same raw.2 devname then
                do* kassert (negb (kd_device kd =? 0)) in
                do* vnode_incref (kd_vnode kd) in
                ret (0, kd_vnode kd)
              else getroot_loop devs devname
          | None => getroot_loop devs devname
          end in
      if negb (kd_fs kd =? 0) then
        let* volname := getvolname (kd_fs kd) in
        if same (kd_name kd).2 devname || match volname with Some v => same v devname | None => false end then
          let* r := fs_call (FsGetroot (kd_fs kd)) in
          ret (0, r_value r)
        else next
      else
        match kd_rawname kd with
        | Some _ => if same (kd_name kd).2 devname then ret (ENXIO, 0) else next
        | None => next
        end
  end.

Definition vfs_getroot (devname : list Z) : M vst (Z * Z) :=
  do* assert_biglock in
  let* devs := gets knowndevs in
  getroot_loop devs devname.

Fixpoint devname_loop (devs : list knowndev) (fs : Z) : option (list Z) :=
  match devs with
  | [] => None
  | kd :: devs => if kd_fs kd =? fs then Some (kd_name kd).2 else devname_loop devs fs
  end.

Definition vfs_getdevname (fs : Z) : M vst (option (list Z)) :=
  do* kassert (negb (fs =? 0)) in
  do* assert_biglock in
  gets (fun s => devname_loop (knowndevs s) fs).

Definition kstrdup (s : list Z) : M vst str :=
  let* z := on_heap (kmalloc (zlength s + 1)) in ret (z, s).

Definition mkrawname (name : list Z) : M vst str :=
  let* s := on_heap (kmalloc (zlength name + 3 + 1)) in ret (s, name ++ [114; 97; 119]).

Definition samestring (a b : option (list Z)) : bool :=
  match a, b with Some a, Some b => same a b | _, _ => false end.

Definition samestring3 (a b c d : option (list Z)) : bool := samestring a b || samestring a c || samestring a d.

Definition badname (n1 n2 n3 : option (list Z)) (w : W) (kd : knowndev) : bool :=
  (negb (kd_fs kd =? 0) && samestring3 (fs_getvolname (kd_fs kd) w) n1 n2 n3) ||
  samestring3 (snd <$> kd_rawname kd) n1 n2 n3 || samestring3 (Some (kd_name kd).2) n1 n2 n3.

Definition badnames (n1 n2 n3 : option (list Z)) : M vst bool :=
  do* assert_biglock in
  gets (fun s => existsb (badname n1 n2 n3 (world s)) (knowndevs s)).

(** [VOP_INIT] of a new vnode (kern/vfs/device.c, [vnode_init]). *)
Definition dev_create_vnode : M vst Z :=
  let* v := on_heap (kmalloc sizeof_vnode) in
  if v =? 0 then ret 0
  else
    do* modify (fun s => set_opens (set_refs s (<[v := 1]> (vn_refcount s))) (<[v := 0]> (vn_opencount s))) in
    ret v.

(** The end of [vfs_doadd] at the label [nomem]; what has not been allocated is null. *)
Definition nomem (name rawname vnode kd : Z) : M vst Z :=
  do* (if negb (name =? 0) then on_heap (kfree name) else ret tt) in
  do* (if negb (rawname =? 0) then on_heap (kfree rawname) else ret tt) in
  do* (if negb (vnode =? 0) then on_heap (kfree vnode) else ret tt) in
  do* (if negb (kd =? 0) then on_heap (kfree kd) else ret tt) in
  do* vfs_biglock_release in
  ret ENOMEM.

Definition knowndevarray_add (kd : knowndev) : M vst (Z * Z) := fun s =>
  let '(ok, w) := array_grows (zlength (knowndevs s)) (world s) in
  let s := set_world s w in
  if ok then Ret ((0, zlength (knowndevs s)), set_devs s (knowndevs s ++ [kd])) else Ret ((ENOMEM, 0), s).

Definition vfs_doadd (dname : list Z) (mountable : bool) (dev fs : Z) : M vst Z :=
  do* vfs_biglock_acquire in
  let* name := kstrdup dname in
  if name.1 =? 0 then nomem 0 0 0 0
  else
    let* rawname := if mountable then let* r := mkrawname name.2 in ret (Some r) else ret None in
    let raw := match rawname with Some r => r.1 | None => 0 end in
    if mountable && (raw =? 0) then nomem name.1 0 0 0
    else
      let* vnode := dev_create_vnode in
      if vnode =? 0 then nomem name.1 raw 0 0
      else
        let* kd := on_heap (kmalloc sizeof_knowndev) in
        if kd =? 0 then nomem name.1 raw vnode 0
        else
          let kdev := mk_kd kd name rawname dev vnode fs in
          let* volname := if negb (fs =? 0) then getvolname fs else ret None in
          let* bad := badnames (Some name.2) (snd <$> rawname) volname in
          if bad then do* vfs_biglock_release in ret EEXIST
          else
            let* r := knowndevarray_add kdev in
            do* (if (r.1 =? 0) && negb (dev =? 0) then
                   modify (fun s => set_devnumber s (<[dev := r.2 + 1]> (d_devnumber s)))
                 else ret tt) in
            do* vfs_biglock_release in
            ret r.1.

Definition vfs_adddev (devname : list Z) (dev : Z) (mountable : bool) : M vst Z := vfs_doadd devname mountable dev 0.
Definition vfs_addfs (devname : list Z) (fs : Z) : M vst Z := vfs_doadd devname false 0 fs.

(** The position of the device instead of a pointer to it. *)
Fixpoint findmount_loop (devs : list knowndev) (devname : list Z) (i : nat) : option (nat * knowndev) :=
  match devs with
  | [] => None
  | dev :: devs =>
      match kd_rawname dev with
      | None => findmount_loop devs devname (S i)
      | Some _ => if same devname (kd_name dev).2 then Some (i, dev) else findmount_loop devs devname (S i)
      end
  end.

Definition findmount (devname : list Z) : M vst (option (nat * knowndev)) :=
  do* assert_biglock in
  gets (fun s => findmount_loop (knowndevs s) devname 0).

Definition with_fs (kd : knowndev) (fs : Z) : knowndev :=
  mk_kd (kd_addr kd) (kd_name kd) (kd_rawname kd) (kd_device kd) (kd_vnode kd) fs.
Definition set_kd_fs (i : nat) (fs : Z) : M vst unit :=
  modify (fun s => set_devs s (alter (fun kd => with_fs kd fs) i (knowndevs s))).

Definition vfs_mount (devname : list Z) : M vst Z :=
  do* vfs_biglock_acquire in
  let* r := findmount devname in
  match r with
  | None => do* vfs_biglock_release in ret ENODEV
  | Some (i, kd) =>
      if negb (kd_fs kd =? 0) then do* vfs_biglock_release in ret EBUSY
      else
        do* kassert (bool_decide (kd_rawname kd <> None)) in
        do* kassert (negb (kd_device kd =? 0)) in
        let* r := fs_call (MountFunc (kd_device kd)) in
        if negb (r_result r =? 0) then do* vfs_biglock_release in ret (r_result r)
        else
          do* kassert (negb (r_value r =? 0)) in
          do* set_kd_fs i (r_value r) in
          do* vfs_biglock_release in
          ret 0
  end.

Definition vfs_unmount (devname : list Z) : M vst Z :=
  do* vfs_biglock_acquire in
  let* r := findmount devname in
  let* result :=
    match r with
    | None => ret ENODEV
    | Some (i, kd) =>
        if kd_fs kd =? 0 then ret EINVAL
        else
          do* kassert (bool_decide (kd_rawname kd <> None)) in
          do* kassert (negb (kd_device kd =? 0)) in
          let* r := fs_call (FsSync (kd_fs kd)) in
          if negb (r_result r =? 0) then ret (r_result r)
          else
            let* r := fs_call (FsUnmount (kd_fs kd)) in
            if negb (r_result r =? 0) then ret (r_result r)
            else do* set_kd_fs i 0 in ret 0
    end in
  do* vfs_biglock_release in
  ret result.

(** One device of [vfs_unmountall]. *)
Definition unmount_one (i : nat) (dev : knowndev) : M vst unit :=
  match kd_rawname dev with
  | None => ret tt
  | Some _ =>
      if kd_fs dev =? 0 then ret tt
      else
        let* r := fs_call (FsSync (kd_fs dev)) in
        let* r := if negb (r_result r =? 0) then fs_call (FsSync (kd_fs dev)) else ret r in
        if negb (r_result r =? 0) then ret tt
        else
          let* r := fs_call (FsUnmount (kd_fs dev)) in
          if negb (r_result r =? 0) then ret tt
          else set_kd_fs i 0
  end.

Fixpoint unmount_loop (i : nat) (devs : list knowndev) : M vst unit :=
  match devs with
  | [] => ret tt
  | dev :: devs => do* unmount_one i dev in unmount_loop (S i) devs
  end.

Definition vfs_unmountall : M vst Z :=
  do* vfs_biglock_acquire in
  let* devs := gets knowndevs in
  do* unmount_loop 0 devs in
  do* vfs_biglock_release in
  ret 0.

(** ** The current directory (vfscwd.c) *)

Definition vfs_getcurdir : M vst (Z * Z) :=
  let* s := get in
  if negb (p_cwd s =? 0) then
    do* vnode_incref (p_cwd s) in ret (0, p_cwd s)
  else ret (ENOENT, 0).

Definition vfs_setcurdir (dir : Z) : M vst Z :=
  let* r := vop dir (GetType dir) in
  if negb (r_result r =? 0) then ret (r_result r)
  else if negb (r_value r =? S_IFDIR) then ret ENOTDIR
  else
    do* vnode_incref dir in
    let* old := gets p_cwd in
    do* modify (fun s => set_cwd s dir) in
    do* (if negb (old =? 0) then vnode_decref old else ret tt) in
    ret 0.

Definition vfs_clearcurdir : M vst Z :=
  let* old := gets p_cwd in
  do* modify (fun s => set_cwd s 0) in
  do* (if negb (old =? 0) then vnode_decref old else ret tt) in
  ret 0.

(** ** Path names (vfslookup.c) *)

Definition change_bootfs (newvn : Z) : M vst unit :=
  let* oldvn := gets bootfs_vnode in
  do* modify (fun s => set_bootfs s newvn) in
  if negb (oldvn =? 0) then vnode_decref oldvn else ret tt.

(** The first colon or slash: [Some (i, true)] for a colon at [i]. *)
Fixpoint scan (i : nat) (path : list Z) : option (nat * bool) :=
  match path with
  | [] => None
  | c :: path =>
      if c =? ch_colon then Some (i, true) else if c =? ch_slash then Some (i, false) else scan (S i) path
  end.

Fixpoint skip_slashes (path : list Z) : list Z :=
  match path with
  | c :: path' => if c =? ch_slash then skip_slashes path' else path
  | [] => []
  end.

(** The result, and [*startvn] and [*subpath]. *)
Definition getdevice (path : list Z) : M vst (Z * Z * list Z) :=
  do* assert_biglock in
  let '(colon, slash) :=
    match scan 0 path with
    | Some (i, true) => (Z.of_nat i, -1)
    | Some (i, false) => (-1, Z.of_nat i)
    | None => (-1, -1)
    end in
  if (colon <? 0) && negb (slash =? 0) then
    let* r := vfs_getcurdir in
    ret (r.1, r.2, path)
  else if 0 <? colon then
    let subpath := skip_slashes (drop (Z.to_nat colon + 1) path) in
    let* r := vfs_getroot (take (Z.to_nat colon) path) in
    if negb (r.1 =? 0) then ret (r.1, 0, []) else ret (0, r.2, subpath)
  else
    do* kassert ((colon =? 0) || (slash =? 0)) in
    let* r :=
      if slash =? 0 then
        let* s := get in
        if bootfs_vnode s =? 0 then ret (ENOENT, 0)
        else do* vnode_incref (bootfs_vnode s) in ret (0, bootfs_vnode s)
      else
        let* r := vfs_getcurdir in
        if negb (r.1 =? 0) then ret (r.1, 0)
        else
          do* kassert (negb (vn_fs r.2 =? 0)) in
          let* root := fs_call (FsGetroot (vn_fs r.2)) in
          do* vnode_decref r.2 in
          ret (0, r_value root) in
    if negb (r.1 =? 0) then ret (r.1, 0, [])
    else ret (0, r.2, skip_slashes (tail path)).

(** The result, [*retval] and what is in the buffer. *)
Definition vfs_lookparent (path : list Z) (buflen : Z) : M vst reply :=
  do* vfs_biglock_acquire in
  let* d := getdevice path in
  let '(result, startvn, path) := d in
  if negb (result =? 0) then do* vfs_biglock_release in ret (mk_reply result 0 [])
  else
    let* r := if zlength path =? 0 then ret (mk_reply EINVAL 0 [])
              else vop startvn (Lookparent startvn path buflen) in
    do* vnode_decref startvn in
    do* vfs_biglock_release in
    ret r.

Definition vfs_lookup (path : list Z) : M vst (Z * Z) :=
  do* vfs_biglock_acquire in
  let* d := getdevice path in
  let '(result, startvn, path) := d in
  if negb (result =? 0) then do* vfs_biglock_release in ret (result, 0)
  else if zlength path =? 0 then do* vfs_biglock_release in ret (0, startvn)
  else
    let* r := vop startvn (Lookup startvn path) in
    do* vnode_decref startvn in
    do* vfs_biglock_release in
    ret (r_result r, r_value r).

Definition vfs_chdir (path : list Z) : M vst Z :=
  let* r := vfs_lookup path in
  if negb (r.1 =? 0) then ret r.1
  else
    let* result := vfs_setcurdir r.2 in
    do* vnode_decref r.2 in
    ret result.

(** From the call of [vfs_chdir] on. *)
Definition boot_from (tmp : list Z) : M vst Z :=
  let* result := vfs_chdir tmp in
  if negb (result =? 0) then do* vfs_biglock_release in ret result
  else
    let* r := vfs_getcurdir in
    if negb (r.1 =? 0) then do* vfs_biglock_release in ret r.1
    else
      do* change_bootfs r.2 in
      do* vfs_biglock_release in
      ret 0.

(** [snprintf] cuts the name to what fits in [tmp] in front of a colon. *)
Definition vfs_setbootfs (fsname : list Z) : M vst Z :=
  do* vfs_biglock_acquire in
  let tmp := take (Z.to_nat (NAME_MAX + 1 - 1 - 1)) fsname in
  match index_of tmp ch_colon with
  | Some i =>
      let s := drop (Z.to_nat i) tmp in
      if 0 <? zlength s then do* vfs_biglock_release in ret EINVAL else boot_from tmp
  | None => boot_from (tmp ++ [ch_colon])
  end.

Definition vfs_clearbootfs : M vst unit :=
  do* vfs_biglock_acquire in
  do* change_bootfs 0 in
  vfs_biglock_release.

Definition vfs_getcwd : M vst Z :=
  let* r := vfs_getcurdir in
  if negb (r.1 =? 0) then ret r.1
  else
    let cwd := r.2 in
    do* kassert (negb (vn_fs cwd =? 0)) in
    let* name := getvolname (vn_fs cwd) in
    let* name :=
      match name with
      | Some _ => ret name
      | None =>
          do* vfs_biglock_acquire in
          let* name := vfs_getdevname (vn_fs cwd) in
          do* vfs_biglock_release in
          ret name
      end in
    match name with
    | None => panic
    | Some name =>
        let* result := move name in
        let* result := if negb (result =? 0) then ret result else
                       let* result := move [ch_colon] in
                       if negb (result =? 0) then ret result else
                       let* r := vop cwd (NameFile cwd) in ret (r_result r) in
        do* vnode_decref cwd in
        ret result
    end.

(** ** Operations on path names (vfspath.c) *)

Definition flag (flags bit : Z) : bool := negb (Z.land flags bit =? 0).

(** The file of [vfs_open], created or looked up. *)
Definition open_vnode (path : list Z) (openflags mode : Z) : M vst (Z * Z) :=
  if flag openflags O_CREAT then
    let* d := vfs_lookparent path (NAME_MAX + 1) in
    if negb (r_result d =? 0) then ret (r_result d, 0)
    else
      let dir := r_value d in
      let* r := vop dir (Creat dir (r_name d) (flag openflags O_EXCL) mode) in
      do* vnode_decref dir in
      ret (r_result r, r_value r)
  else vfs_lookup path.

Definition vfs_open (path : list Z) (openflags mode : Z) : M vst (Z * Z) :=
  let how := Z.land openflags O_ACCMODE in
  if negb ((how =? O_RDONLY) || (how =? O_WRONLY) || (how =? O_RDWR)) then ret (EINVAL, 0)
  else
    let canwrite := negb (how =? O_RDONLY) in
    let* v := open_vnode path openflags mode in
    if negb (v.1 =? 0) then ret (v.1, 0)
    else
      let vn := v.2 in
      do* kassert (negb (vn =? 0)) in
      let* r := vop vn (Open vn openflags) in
      if negb (r_result r =? 0) then do* vnode_decref vn in ret (r_result r, 0)
      else
        do* vnode_incopen vn in
        let* result :=
          if flag openflags O_TRUNC then
            if negb canwrite then ret EINVAL
            else let* r := vop vn (Truncate vn 0) in ret (r_result r)
          else ret 0 in
        if negb (result =? 0) then
          do* vnode_decopen vn in
          do* vnode_decref vn in
          ret (result, 0)
        else ret (0, vn).

Definition vfs_close (vn : Z) : M vst unit :=
  do* vnode_decopen vn in vnode_decref vn.

(** The operations that look up the parent directory and call one operation on it. *)
Definition at_parent (path : list Z) (q : Z -> list Z -> fsreq) : M vst Z :=
  let* d := vfs_lookparent path (NAME_MAX + 1) in
  if negb (r_result d =? 0) then ret (r_result d)
  else
    let* r := vop (r_value d) (q (r_value d) (r_name d)) in
    do* vnode_decref (r_value d) in
    ret (r_result r).

Definition vfs_remove (path : list Z) : M vst Z := at_parent path Remove.
Definition vfs_symlink (contents path : list Z) : M vst Z := at_parent path (fun dir name => Symlink dir name contents).
Definition vfs_mkdir (path : list Z) (mode : Z) : M vst Z := at_parent path (fun dir name => Mkdir dir name mode).
Definition vfs_rmdir (path : list Z) : M vst Z := at_parent path Rmdir.

Definition vfs_readlink (path : list Z) : M vst Z :=
  let* v := vfs_lookup path in
  if negb (v.1 =? 0) then ret v.1
  else
    let* r := vop v.2 (ReadLink v.2) in
    do* vnode_decref v.2 in
    ret (r_result r).

Definition cross_device (vn1 vn2 : Z) : bool :=
  (vn_fs vn1 =? 0) || (vn_fs vn2 =? 0) || negb (vn_fs vn1 =? vn_fs vn2).

Definition vfs_rename (oldpath newpath : list Z) : M vst Z :=
  let* d1 := vfs_lookparent oldpath (NAME_MAX + 1) in
  if negb (r_result d1 =? 0) then ret (r_result d1)
  else
    let olddir := r_value d1 in
    let* d2 := vfs_lookparent newpath (NAME_MAX + 1) in
    if negb (r_result d2 =? 0) then do* vnode_decref olddir in ret (r_result d2)
    else
      let newdir := r_value d2 in
      if cross_device olddir newdir then
        do* vnode_decref newdir in do* vnode_decref olddir in ret EXDEV
      else
        let* r := vop olddir (Rename olddir (r_name d1) newdir (r_name d2)) in
        do* vnode_decref newdir in
        do* vnode_decref olddir in
        ret (r_result r).

Definition vfs_link (oldpath newpath : list Z) : M vst Z :=
  let* v := vfs_lookup oldpath in
  if negb (v.1 =? 0) then ret v.1
  else
    let oldfile := v.2 in
    let* d := vfs_lookparent newpath (NAME_MAX + 1) in
    if negb (r_result d =? 0) then do* vnode_decref oldfile in ret (r_result d)
    else
      let newdir := r_value d in
      if cross_device oldfile newdir then
        do* vnode_decref newdir in do* vnode_decref oldfile in ret EXDEV
      else
        let* r := vop newdir (Link newdir (r_name d) oldfile) in
        do* vnode_decref newdir in
        do* vnode_decref oldfile in
        ret (r_result r).

End vfs.

Arguments vst : clear implicits.
