(* ===== verification/VfsSpec.v ===== *)
(** * Theorems on the virtual file system

    References to vnodes as resources: a triple says what an operation does to
    the references that its caller owns, with any other references framed away.
    The operations on path names are proved in it, and composed into a theorem
    on any sequence of calls. *)

From Stdlib Require Import ZArith Lia.
From stdpp Require Import base numbers list gmap functions.
From S2P Require Import Prelude CLib Heap Vfs.

Section vfs_refs.
Context {W H : Type} `{!FileSystems W} `{!KHeap H}.
Implicit Types s : vst W H.

(** ** Ownership *)

Fixpoint cnt (L : list Z) (v : Z) : Z :=
  match L with [] => 0 | x :: L => (if x =? v then 1 else 0) + cnt L v end.

Definition ind (x v : Z) : Z := if x =? v then 1 else 0.

(** A device that is not mountable and has no file system, or that is mountable,
    has a device object. *)
Definition kd_ok (kd : knowndev) : Prop :=
  kd_vnode kd <> 0 /\ (kd_rawname kd <> None \/ kd_fs kd = 0 -> kd_device kd <> 0).

(** The references to a vnode are those of others, [B], that of the current
    directory, that of the boot file system and those of the caller, [L]; the open
    files are [O]; the big lock is held [d] times. *)
Record own (B : Z -> Z) (d : Z) (L O : list Z) (s : vst W H) : Prop := {
  o_refs v : v <> 0 -> vn_refcount s v = B v + ind (p_cwd s) v + ind (bootfs_vnode s) v + cnt L v;
  o_opens v : v <> 0 -> vn_opencount s v = cnt O v;
  o_depth : vfs_biglock_depth s = d;
  o_cwd : p_cwd s <> 0 -> vn_fs (p_cwd s) <> 0;
  o_devs : Forall kd_ok (knowndevs s)
}.

(** File systems that can always dispose of a vnode. *)
Definition reliable : Prop := forall vn w, r_result (call (Reclaim vn) w).1 = 0.

(** [c] returns in [s], with [Q] on what is owned then.  When disposing of a vnode
    fails, its last reference stays. *)
Definition ends {A} (B : Z -> Z) (c : M (vst W H) A) s (Q : A -> Z -> list Z -> list Z -> Prop) : Prop :=
  exists a s' B' d' L' O', c s = Ret (a, s') /\ Q a d' L' O' /\ own B' d' L' O' s' /\ 0 <= d' /\
    (forall v, B v <= B' v) /\ (reliable -> forall v, B' v = B v).

Definition tr {A} (d : Z) (L O : list Z) (c : M (vst W H) A) (Q : A -> Z -> list Z -> list Z -> Prop) : Prop :=
  forall B s, (forall v, 0 <= B v) -> 0 <= d -> own B d L O s -> ends B c s Q.

Lemma ends_same {A} B (c : M (vst W H) A) s (Q : A -> Z -> list Z -> list Z -> Prop) a s' d' L' O' :
  c s = Ret (a, s') -> Q a d' L' O' -> own B d' L' O' s' -> 0 <= d' -> ends B c s Q.
Proof. intros. exists a, s', B, d', L', O'. split_and!; try done; intros; lia. Qed.

Lemma cnt_nonneg L v : 0 <= cnt L v.
Proof. induction L as [|x L IH]; cbn; [lia|]. destruct (x =? v); lia. Qed.

Lemma cnt_perm L1 L2 v : L1 ≡ₚ L2 -> cnt L1 v = cnt L2 v.
Proof. induction 1; cbn; lia. Qed.

Lemma cnt_elem L v : v ∈ L -> 0 < cnt L v.
Proof.
  induction 1 as [v L|v x L ? IH]; cbn; [rewrite Z.eqb_refl; pose proof (cnt_nonneg L v); lia|].
  destruct (x =? v); lia.
Qed.

Lemma ind_nonneg x v : 0 <= ind x v.
Proof. unfold ind. destruct (x =? v); lia. Qed.

Lemma tr_ret {A} d L O (a : A) (Q : A -> Z -> list Z -> list Z -> Prop) : Q a d L O -> tr d L O (ret a) Q.
Proof. intros HQ B s HB Hd Ho. by eapply ends_same. Qed.

Lemma tr_bind {A C} d L O (m : M (vst W H) A) (k : A -> M (vst W H) C) Q1 Q :
  tr d L O m Q1 -> (forall a d1 L1 O1, Q1 a d1 L1 O1 -> tr d1 L1 O1 (k a) Q) -> tr d L O (bind m k) Q.
Proof.
  intros Hm Hk B s HB Hd Ho. destruct (Hm B s HB Hd Ho) as (a & s1 & B1 & d1 & L1 & O1 & E & HQ & Ho1 & Hd1 & HB1 & Hr1).
  destruct (Hk a d1 L1 O1 HQ B1 s1) as (b & s2 & B2 & d2 & L2 & O2 & E2 & HQ2 & Ho2 & Hd2 & HB2 & Hr2); try done.
  { intros v. specialize (HB v). specialize (HB1 v). lia. }
  exists b, s2, B2, d2, L2, O2. split_and!; try done.
  - by rewrite (bind_ok _ _ _ _ _ E).
  - intros v. specialize (HB1 v). specialize (HB2 v). lia.
  - intros Hr v. by rewrite Hr2, Hr1.
Qed.

Lemma tr_weaken {A} d L O (c : M (vst W H) A) (Q Q' : A -> Z -> list Z -> list Z -> Prop) :
  tr d L O c Q -> (forall a d' L' O', Q a d' L' O' -> Q' a d' L' O') -> tr d L O c Q'.
Proof.
  intros Hc HQ B s HB Hd Ho. destruct (Hc B s HB Hd Ho) as (a & s1 & B1 & d1 & L1 & O1 & E & HQ1 & R).
  exists a, s1, B1, d1, L1, O1. split_and!; [done|by apply HQ|apply R..].
Qed.

Lemma tr_perm {A} d L L' O O' (c : M (vst W H) A) Q :
  L ≡ₚ L' -> O ≡ₚ O' -> tr d L' O' c Q -> tr d L O c Q.
Proof.
  intros HL HO Hc B s HB Hd [H1 H2 H3 H4 H5]. apply (Hc B s HB Hd). split; try done.
  - intros v Hv. rewrite <- (cnt_perm L L') by done. by apply H1.
  - intros v Hv. rewrite <- (cnt_perm O O') by done. by apply H2.
Qed.

(** An operation that only changes the state outside of what is owned. *)
Lemma tr_pure {A} d L O (c : M (vst W H) A) (Q : A -> Prop) :
  (forall B s, own B d L O s -> (forall v, 0 <= B v) -> 0 <= d ->
     exists a s', c s = Ret (a, s') /\ Q a /\ own B d L O s') ->
  tr d L O c (fun a d' L' O' => Q a /\ d' = d /\ L' = L /\ O' = O).
Proof.
  intros Hc B s HB Hd Ho. destruct (Hc B s Ho HB Hd) as (a & s' & E & HQ & Ho').
  by eapply ends_same.
Qed.

Lemma tr_kassert d L O (b : bool) :
  b = true -> tr d L O (kassert b) (fun _ d' L' O' => True /\ d' = d /\ L' = L /\ O' = O).
Proof. intros ->. apply tr_pure. intros B s Ho _ _. exists tt, s. done. Qed.

(** ** The big lock *)

Lemma tr_acquire d L O : tr d L O vfs_biglock_acquire (fun _ d' L' O' => d' = d + 1 /\ L' = L /\ O' = O).
Proof.
  intros B s HB Hd [H1 H2 H3 H4 H5]. apply (ends_same _ _ _ _ tt (set_depth s (d + 1)) (d + 1) L O); [|done|by split|lia].
  unfold vfs_biglock_acquire, modify. by rewrite H3.
Qed.

Lemma tr_release d L O : 0 < d -> tr d L O vfs_biglock_release (fun _ d' L' O' => d' = d - 1 /\ L' = L /\ O' = O).
Proof.
  intros Hd B s HB _ [H1 H2 H3 H4 H5]. apply (ends_same _ _ _ _ tt (set_depth s (d - 1)) (d - 1) L O); [|done|by split|lia].
  unfold vfs_biglock_release, vfs_biglock_do_i_hold, gets, modify, kassert, bind, ret.
  rewrite (proj2 (Z.ltb_lt 0 _)) by lia. by rewrite H3.
Qed.

Lemma tr_assert_biglock d L O :
  0 < d -> tr d L O assert_biglock (fun _ d' L' O' => True /\ d' = d /\ L' = L /\ O' = O).
Proof.
  intros Hd. apply tr_pure. intros B s Ho _ _. exists tt, s. split_and!; try done.
  unfold assert_biglock, vfs_biglock_do_i_hold, gets, kassert, bind. rewrite (o_depth _ _ _ _ _ Ho).
  by rewrite (proj2 (Z.ltb_lt 0 d)) by done.
Qed.


(** ** Vnodes *)

Lemma own_refs_pos B d L O s v : own B d L O s -> (forall v, 0 <= B v) -> v <> 0 -> v ∈ L -> 0 < vn_refcount s v.
Proof.
  intros Ho HB Hv HL. rewrite (o_refs _ _ _ _ _ Ho v Hv). pose proof (cnt_elem L v HL). pose proof (HB v).
  pose proof (ind_nonneg (p_cwd s) v). pose proof (ind_nonneg (bootfs_vnode s) v). lia.
Qed.

Lemma own_opens_nonneg B d L O s v : own B d L O s -> v <> 0 -> 0 <= vn_opencount s v.
Proof. intros Ho Hv. rewrite (o_opens _ _ _ _ _ Ho v Hv). apply cnt_nonneg. Qed.

(** Where a vnode is referenced, [vnode_check] does nothing. *)
Lemma vnode_check_ok s v reclaim :
  v <> 0 -> 0 < vn_refcount s v -> 0 <= vn_opencount s v -> 0 <= vfs_biglock_depth s ->
  exists s', vnode_check v reclaim s = Ret (tt, s') /\ s' = set_depth s (vfs_biglock_depth s).
Proof.
  intros Hv Hr Ho Hd. unfold vnode_check, vfs_biglock_acquire, modify, get, bind. rewrite (proj2 (Z.eqb_neq v 0)) by done.
  cbn [set_depth vn_refcount vn_opencount]. rewrite (proj2 (Z.ltb_ge (vn_refcount s v) 0)) by lia.
  rewrite (proj2 (Z.eqb_neq (vn_refcount s v) 0)) by lia. cbn [andb]. rewrite (proj2 (Z.ltb_ge (vn_opencount s v) 0)) by lia.
  unfold vfs_biglock_release, vfs_biglock_do_i_hold, gets, kassert, bind, modify, ret. cbn [set_depth vfs_biglock_depth].
  rewrite (proj2 (Z.ltb_lt 0 _)) by lia. eexists. split; [done|]. unfold set_depth. cbn. f_equal. lia.
Qed.

Lemma set_depth_id s : set_depth s (vfs_biglock_depth s) = s.
Proof. by destruct s. Qed.

(** Both branches of a change of a count. *)
Lemma count_insert (f : Z -> Z) v x w : (<[v := x]> f) w = if v =? w then x else f w.
Proof.
  destruct (Z.eqb_spec v w) as [->|Hn]; [by rewrite fn_lookup_insert|by rewrite fn_lookup_insert_ne].
Qed.

Lemma incref_run s v : v <> 0 -> 0 <= vfs_biglock_depth s ->
  vnode_incref v s = Ret (tt, set_refs s (<[v := vn_refcount s v + 1]> (vn_refcount s))).
Proof.
  intros Hv Hd. unfold vnode_incref, vfs_biglock_acquire, vfs_biglock_release, vfs_biglock_do_i_hold, modify, gets, kassert, bind, ret.
  rewrite (proj2 (Z.eqb_neq v 0)) by done. cbn [negb]. cbn [set_depth set_refs vn_refcount vfs_biglock_depth].
  rewrite (proj2 (Z.ltb_lt 0 _)) by lia. unfold set_depth, set_refs. cbn. do 3 f_equal. lia.
Qed.

Lemma tr_incref d L O v :
  v <> 0 -> tr d L O (vnode_incref v) (fun _ d' L' O' => d' = d /\ L' = v :: L /\ O' = O).
Proof.
  intros Hv B s HB Hd [H1 H2 H3 H4 H5].
  eapply (ends_same _ _ _ _ tt _ d (v :: L) O); [apply incref_run; [done|lia]|done| |done].
  split; cbn; try done. intros w Hw. rewrite count_insert. pose proof (H1 w Hw).
  destruct (Z.eqb_spec v w) as [->|]; lia.
Qed.

Lemma own_lock B d L O s : own B d L O s -> own B (d + 1) L O (set_depth s (d + 1)).
Proof. intros [H1 H2 H3 H4 H5]. by split. Qed.

(** A call that hands back no vnode. *)
Lemma fs_call_plain q s : hands_back q = false -> fs_call q s = Ret ((call q (world s)).1, set_world s (call q (world s)).2).
Proof. intros Hq. unfold fs_call. destruct (call q (world s)). by rewrite Hq. Qed.

Lemma own_world B d L O s w : own B d L O s -> own B d L O (set_world s w).
Proof. intros [H1 H2 H3 H4 H5]. by split. Qed.

Lemma tr_fs_plain d L O q :
  hands_back q = false -> tr d L O (fs_call q) (fun _ d' L' O' => True /\ d' = d /\ L' = L /\ O' = O).
Proof.
  intros Hq. apply tr_pure. intros B s Ho _ _. do 2 eexists. split; [by apply fs_call_plain|].
  split; [done|by apply own_world].
Qed.

(** A call that may hand one back: a result, with a vnode that the caller owns when it
    is 0. *)
Definition got (d : Z) (L O : list Z) (res vn : Z) (d' : Z) (L' O' : list Z) : Prop :=
  d' = d /\ O' = O /\ ((res = 0 /\ vn <> 0 /\ L' = vn :: L) \/ (res <> 0 /\ L' = L)).

Definition handed (q : fsreq) d L O (r : reply) (d' : Z) (L' O' : list Z) : Prop :=
  got d L O (r_result r) (r_value r) d' L' O' /\ exists w, r = (call q w).1.

Lemma tr_fs_hands d L O q : hands_back q = true -> tr d L O (fs_call q) (handed q d L O).
Proof.
  intros Hq B s HB Hd [H1 H2 H3 H4 H5].
  pose proof (call_value q (world s) (or_introl Hq)) as Hv. destruct (call q (world s)) as [r w] eqn:E. cbn in Hv.
  destruct (Z.eqb_spec (r_result r) 0) as [Hz|Hz].
  - apply (ends_same _ _ _ _ r (set_refs (set_world s w) (<[r_value r := vn_refcount s (r_value r) + 1]> (vn_refcount s)))
      d (r_value r :: L) O); [|split; [split_and!; [done|done|left; auto]|exists (world s); by rewrite E]| |done].
    + unfold fs_call. rewrite E, Hq, Hz. done.
    + split; cbn; try done. intros v Hvn. rewrite count_insert. pose proof (H1 v Hvn).
      destruct (Z.eqb_spec (r_value r) v) as [->|]; lia.
  - apply (ends_same _ _ _ _ r (set_world s w) d L O); [|split; [split_and!; [done|done|right; auto]|exists (world s); by rewrite E]|by split|done].
    unfold fs_call. rewrite E, Hq, (proj2 (Z.eqb_neq _ 0)) by done. done.
Qed.

Lemma tr_check d L O v reclaim :
  v <> 0 -> v ∈ L -> tr d L O (vnode_check v reclaim) (fun _ d' L' O' => True /\ d' = d /\ L' = L /\ O' = O).
Proof.
  intros Hv HL. apply tr_pure. intros B s Ho HB Hd.
  destruct (vnode_check_ok s v reclaim) as (s' & E & ->); try done.
  - by eapply own_refs_pos.
  - by eapply own_opens_nonneg.
  - by rewrite (o_depth _ _ _ _ _ Ho).
  - rewrite set_depth_id in E. by exists tt, s.
Qed.

Lemma tr_vop_plain d L O v q :
  hands_back q = false -> v <> 0 -> v ∈ L -> tr d L O (vop v q) (fun _ d' L' O' => True /\ d' = d /\ L' = L /\ O' = O).
Proof.
  intros Hq Hv HL. eapply tr_bind; [by apply tr_check|]. intros _ ? ? ? (_ & -> & -> & ->). by apply tr_fs_plain.
Qed.

Lemma tr_vop_hands d L O v q : hands_back q = true -> v <> 0 -> v ∈ L -> tr d L O (vop v q) (handed q d L O).
Proof.
  intros Hq Hv HL. eapply tr_bind; [by apply tr_check|]. intros _ ? ? ? (_ & -> & -> & ->). by apply tr_fs_hands.
Qed.

(** [VOP_GETTYPE]: what is a directory has a file system. *)
Lemma tr_gettype d L O v :
  v <> 0 -> v ∈ L -> tr d L O (vop v (GetType v)) (fun r d' L' O' =>
    (r_result r = 0 -> r_value r = S_IFDIR -> vn_fs v <> 0) /\ d' = d /\ L' = L /\ O' = O).
Proof.
  intros Hv HL. eapply tr_bind; [by apply tr_check|]. intros _ ? ? ? (_ & -> & -> & ->).
  apply (tr_pure _ _ _ _ (fun r => r_result r = 0 -> r_value r = S_IFDIR -> vn_fs v <> 0)). intros B s Ho _ _.
  do 2 eexists. split; [by apply fs_call_plain|]. split; [apply directory_has_fs|by apply own_world].
Qed.

Lemma biglock_release_ok s : 0 < vfs_biglock_depth s -> vfs_biglock_release s = Ret (tt, set_depth s (vfs_biglock_depth s - 1)).
Proof.
  intros Hd. unfold vfs_biglock_release, vfs_biglock_do_i_hold, gets, modify, kassert, bind, ret.
  by rewrite (proj2 (Z.ltb_lt 0 _)) by done.
Qed.

(** The reference is given back, or it stays because the vnode could not be disposed of. *)
Lemma decref_steps s v :
  v <> 0 -> 0 < vn_refcount s v -> 0 <= vn_opencount s v -> 0 <= vfs_biglock_depth s ->
  exists s', vnode_decref v s = Ret (tt, s') /\
    p_cwd s' = p_cwd s /\ bootfs_vnode s' = bootfs_vnode s /\ vn_opencount s' = vn_opencount s /\
    vfs_biglock_depth s' = vfs_biglock_depth s /\ knowndevs s' = knowndevs s /\
    (vn_refcount s' = <[v := vn_refcount s v - 1]> (vn_refcount s) \/ (~ reliable /\ vn_refcount s' = vn_refcount s)).
Proof.
  intros Hv Hpos Hop Hd. unfold vnode_decref. unfold kassert at 1. rewrite (proj2 (Z.eqb_neq v 0)) by done. cbn [negb].
  mrun. unfold vfs_biglock_acquire, modify at 1. unfold bind at 1. unfold get, bind at 1.
  set (s1 := set_depth s (vfs_biglock_depth s + 1)). change (vn_refcount s1) with (vn_refcount s).
  unfold kassert. rewrite (proj2 (Z.ltb_lt 0 _)) by done. mrun.
  destruct (Z.ltb_spec 1 (vn_refcount s v)) as [Hgt|Hle].
  - unfold modify. unfold bind. rewrite biglock_release_ok by (cbn; lia). eexists. split; [done|]. cbn. split_and!; try done; [lia|by left].
  - destruct (vnode_check_ok s1 v true) as (s2 & E2 & ->); try done; [cbn; lia|]. rewrite set_depth_id in E2.
    unfold bind. rewrite E2, fs_call_plain by done.
    destruct (Z.eqb_spec (r_result (call (Reclaim v) (world s1)).1) 0) as [Hz|Hz].
    + unfold modify. rewrite biglock_release_ok by (cbn; lia). eexists. split; [done|]. cbn. split_and!; try done; [lia|left].
      by replace (vn_refcount s v - 1) with 0 by lia.
    + unfold ret. rewrite biglock_release_ok by (cbn; lia). eexists. split; [done|]. cbn. split_and!; try done; [lia|right].
      split; [|done]. intros Hr. by apply Hz, Hr.
Qed.

(** Giving a reference back. *)
Lemma tr_decref d L O v :
  v <> 0 -> tr d (v :: L) O (vnode_decref v) (fun _ d' L' O' => d' = d /\ L' = L /\ O' = O).
Proof.
  intros Hv B s HB Hd Ho. pose proof Ho as [H1 H2 H3 H4 H5].
  destruct (decref_steps s v) as (s' & E & E1 & E2 & E3 & E4 & E5 & Hr); try done;
    [by eapply own_refs_pos; [..|left]|by eapply own_opens_nonneg|lia|].
  exists tt, s', (match decide (vn_refcount s' v = vn_refcount s v) with
                  | left _ => fun w => B w + ind v w | right _ => B end), d, L, O.
  destruct Hr as [Hr|[Hnr Hr]].
  - destruct (decide (vn_refcount s' v = vn_refcount s v)) as [Hc|Hc]; [rewrite Hr, count_insert, Z.eqb_refl in Hc; lia|].
    split_and!; try done. split; rewrite ?E1, ?E2, ?E3, ?E4, ?E5; try done.
    intros w Hw. rewrite Hr, count_insert. pose proof (H1 w Hw) as Hw1. cbn in Hw1. destruct (Z.eqb_spec v w) as [->|]; lia.
  - destruct (decide (vn_refcount s' v = vn_refcount s v)) as [Hc|Hc]; [|by rewrite Hr in Hc].
    split_and!; try done; [|intros w; pose proof (ind_nonneg v w); lia].
    split; rewrite ?E1, ?E2, ?E3, ?E4, ?E5; try done.
    intros w Hw. rewrite Hr. pose proof (H1 w Hw) as Hw1. cbn in Hw1. unfold ind in *. lia.
Qed.

Lemma tr_getroot_fs d L O fs :
  tr d L O (fs_call (FsGetroot fs)) (fun r d' L' O' => d' = d /\ O' = O /\ r_value r <> 0 /\ L' = r_value r :: L).
Proof.
  eapply tr_weaken; [by apply tr_fs_hands|]. intros r d' L' O' [(-> & -> & Hr) [w ->]]. cbn in *.
  destruct Hr as [(_ & ? & ->)|[Hr _]]; [done|]. by rewrite getroot_result in Hr.
Qed.


Lemma tr_decref2 d L O v w :
  v <> 0 -> tr d (w :: v :: L) O (vnode_decref v) (fun _ d' L' O' => d' = d /\ L' = w :: L /\ O' = O).
Proof. intros Hv. apply (tr_perm _ _ (v :: w :: L) _ O); [apply Permutation_swap|done|by apply tr_decref]. Qed.

Lemma tr_incopen d L O v :
  v <> 0 -> tr d L O (vnode_incopen v) (fun _ d' L' O' => d' = d /\ L' = L /\ O' = v :: O).
Proof.
  intros Hv B s HB Hd [H1 H2 H3 H4 H5].
  apply (ends_same _ _ _ _ tt (set_opens s (<[v := vn_opencount s v + 1]> (vn_opencount s))) d L (v :: O)); [|done| |done].
  - unfold vnode_incopen. unfold kassert. rewrite (proj2 (Z.eqb_neq v 0)) by done. cbn [negb]. mrun.
    unfold vfs_biglock_acquire, modify, bind. rewrite biglock_release_ok by (cbn; lia).
    unfold set_depth, set_opens. cbn. do 3 f_equal. lia.
  - split; cbn; try done. intros w Hw. rewrite count_insert. pose proof (H2 w Hw). destruct (Z.eqb_spec v w) as [->|]; lia.
Qed.

Lemma tr_nonneg {A} d L O (c : M (vst W H) A) Q : (0 <= d -> tr d L O c Q) -> tr d L O c Q.
Proof. intros Hc B s HB Hd. by apply Hc. Qed.

Lemma ends_eq {A} B (c c2 : M (vst W H) A) s s2 Q : c s = c2 s2 -> ends B c2 s2 Q -> ends B c s Q.
Proof. intros E (a & s' & B' & d' & L' & O' & E2 & R). exists a, s', B', d', L', O'. by rewrite E. Qed.

Lemma tr_unlock d L O : 0 <= d -> tr (d + 1) L O vfs_biglock_release (fun _ d' L' O' => d' = d /\ L' = L /\ O' = O).
Proof.
  intros. eapply tr_weaken; [apply tr_release; lia|]. intros _ ? ? ? (-> & -> & ->). split_and!; try done. lia.
Qed.

Lemma tr_decopen d L O v :
  v <> 0 -> v ∈ L -> tr d L (v :: O) (vnode_decopen v) (fun _ d' L' O' => d' = d /\ L' = L /\ O' = O).
Proof.
  intros Hv HL. apply tr_nonneg. intros Hd. unfold vnode_decopen.
  eapply tr_bind; [by apply tr_kassert, negb_true_iff, Z.eqb_neq|].
  intros _ ? ? ? (_ & -> & -> & ->). eapply tr_bind; [apply tr_acquire|]. intros _ ? ? ? (-> & -> & ->).
  assert (Ht : forall b : bool, tr (d + 1) L O (if b then vfs_biglock_release else do* vop v (Close v) in vfs_biglock_release)
    (fun _ d' L' O' => d' = d /\ L' = L /\ O' = O)).
  { intros b. destruct b; [by apply tr_unlock|]. eapply tr_bind; [by apply tr_vop_plain|].
    intros _ ? ? ? (_ & -> & -> & ->). by apply tr_unlock. }
  intros B s HB _ [H1 H2 H3 H4 H5]. pose proof (H2 v Hv) as Hc. cbn in Hc. rewrite Z.eqb_refl in Hc. pose proof (cnt_nonneg O v).
  eapply ends_eq; [|eapply Ht; [exact HB|lia|]].
  - unfold get, kassert, modify, bind, ret. rewrite (proj2 (Z.ltb_lt 0 _)) by lia. reflexivity.
  - split; cbn; try done. intros w Hw. rewrite count_insert. pose proof (H2 w Hw) as Hw2. cbn in Hw2.
    destruct (Z.eqb_spec v w) as [->|]; lia.
Qed.

(** ** The current directory and the boot file system *)

Definition give (x : Z) (L : list Z) : list Z := if x =? 0 then L else x :: L.

Lemma tr_get {A} d L O (k : vst W H -> M (vst W H) A) Q :
  (forall s, (p_cwd s <> 0 -> vn_fs (p_cwd s) <> 0) -> Forall kd_ok (knowndevs s) -> tr d L O (k s) Q) ->
  tr d L O (let* s := get in k s) Q.
Proof. intros Hk B s HB Hd Ho. apply (Hk s); [apply Ho..|done|done|done]. Qed.

Lemma tr_gets {A C} d L O (f : vst W H -> C) (k : C -> M (vst W H) A) Q :
  (forall s, Forall kd_ok (knowndevs s) -> tr d L O (k (f s)) Q) -> tr d L O (let* x := gets f in k x) Q.
Proof. intros Hk B s HB Hd Ho. apply (Hk s); [apply Ho|done|done|done]. Qed.

Lemma give_cnt x L v : v <> 0 -> cnt (give x L) v = ind x v + cnt L v.
Proof. intros Hv. unfold give, ind. destruct (Z.eqb_spec x 0) as [->|]; [|done]. by rewrite (proj2 (Z.eqb_neq 0 v)). Qed.

Lemma tr_set_cwd {A} d L O dir (k : Z -> M (vst W H) A) Q :
  (dir <> 0 -> vn_fs dir <> 0) -> (forall old, tr d (give old L) O (k old) Q) ->
  tr d (give dir L) O (let* old := gets p_cwd in do* modify (fun s => set_cwd s dir) in k old) Q.
Proof.
  intros Hdir Hk B s HB Hd [H1 H2 H3 H4 H5]. apply (ends_eq _ _ (k (p_cwd s)) _ (set_cwd s dir)); [done|].
  apply Hk; try done. split; cbn; try done. intros v Hv. pose proof (H1 v Hv) as E. rewrite give_cnt in * by done. lia.
Qed.

Lemma tr_set_bootfs {A} d L O newvn (k : Z -> M (vst W H) A) Q :
  (forall old, tr d (give old L) O (k old) Q) ->
  tr d (give newvn L) O (let* old := gets bootfs_vnode in do* modify (fun s => set_bootfs s newvn) in k old) Q.
Proof.
  intros Hk B s HB Hd [H1 H2 H3 H4 H5]. apply (ends_eq _ _ (k (bootfs_vnode s)) _ (set_bootfs s newvn)); [done|].
  apply Hk; try done. split; cbn; try done. intros v Hv. pose proof (H1 v Hv) as E. rewrite give_cnt in * by done. lia.
Qed.

Lemma tr_drop {A} d L O old (c : M (vst W H) A) Q :
  tr d L O c Q -> tr d (give old L) O (do* (if negb (old =? 0) then vnode_decref old else ret tt) in c) Q.
Proof.
  intros Hc. unfold give. destruct (Z.eqb_spec old 0) as [->|Hn]; cbn [negb].
  - eapply tr_bind; [by apply (tr_ret _ _ _ tt (fun _ d' L' O' => d' = d /\ L' = L /\ O' = O))|].
    intros _ ? ? ? (-> & -> & ->). done.
  - eapply tr_bind; [by apply tr_decref|]. intros _ ? ? ? (-> & -> & ->). done.
Qed.

Lemma tr_getcurdir d L O :
  tr d L O vfs_getcurdir (fun r d' L' O' => got d L O r.1 r.2 d' L' O' /\ (r.1 = 0 -> vn_fs r.2 <> 0)).
Proof.
  apply tr_get. intros s Hcwd _. destruct (Z.eqb_spec (p_cwd s) 0) as [E|E]; cbn [negb].
  - apply tr_ret. split; [|done]. split_and!; try done. by right.
  - eapply tr_bind; [by apply tr_incref|]. intros _ ? ? ? (-> & -> & ->). apply tr_ret. cbn. split; [|by auto].
    split_and!; try done. by left.
Qed.

Lemma tr_setcurdir d L O dir :
  dir <> 0 -> dir ∈ L -> tr d L O (vfs_setcurdir dir) (fun _ d' L' O' => d' = d /\ L' = L /\ O' = O).
Proof.
  intros Hdir HL. unfold vfs_setcurdir. eapply tr_bind; [by apply tr_gettype|]. intros r ? ? ? (Hfs & -> & -> & ->).
  destruct (Z.eqb_spec (r_result r) 0) as [Hz|]; cbn [negb]; [|by apply tr_ret].
  destruct (Z.eqb_spec (r_value r) S_IFDIR) as [Hd|]; cbn [negb]; [|by apply tr_ret].
  eapply tr_bind; [by apply tr_incref|]. intros _ ? ? ? (-> & -> & ->).
  replace (dir :: L) with (give dir L) by (unfold give; by rewrite (proj2 (Z.eqb_neq dir 0))).
  apply tr_set_cwd; [by auto|]. intros old. by apply tr_drop, tr_ret.
Qed.

Lemma tr_clearcurdir d L O : tr d L O vfs_clearcurdir (fun _ d' L' O' => d' = d /\ L' = L /\ O' = O).
Proof. apply (tr_set_cwd _ L _ 0); [done|]. intros old. by apply tr_drop, tr_ret. Qed.

Lemma tr_change_bootfs d L O newvn :
  tr d (give newvn L) O (change_bootfs newvn) (fun _ d' L' O' => d' = d /\ L' = L /\ O' = O).
Proof.
  apply tr_set_bootfs. intros old. unfold give. destruct (Z.eqb_spec old 0); cbn [negb]; [by apply tr_ret|by apply tr_decref].
Qed.


(** ** Path names *)

Ltac tnext := intros; cbn beta in *; destruct_and?; subst.

Lemma tr_dev_vnode d L O kd :
  kd_ok kd -> tr d L O (do* vnode_incref (kd_vnode kd) in ret (0, kd_vnode kd)) (fun r => got d L O r.1 r.2).
Proof.
  intros [Hv _]. eapply tr_bind; [by apply tr_incref|]. tnext. apply tr_ret. split_and!; try done. by left.
Qed.

Lemma tr_getroot_loop d L O devs name :
  Forall kd_ok devs -> tr d L O (getroot_loop devs name) (fun r => got d L O r.1 r.2).
Proof.
  induction devs as [|kd devs IH]; intros Hk; cbn [getroot_loop]; [apply tr_ret; split_and!; try done; by right|].
  apply list.Forall_cons in Hk as [Hkd Hk]. specialize (IH Hk).
  assert (Hraw : forall raw, kd_rawname kd = Some raw -> tr d L O
    (if same raw.2 name then do* kassert (negb (kd_device kd =? 0)) in do* vnode_incref (kd_vnode kd) in ret (0, kd_vnode kd)
     else getroot_loop devs name) (fun r => got d L O r.1 r.2)).
  { intros raw E. destruct (same raw.2 name); [|done].
    eapply tr_bind; [apply tr_kassert, negb_true_iff, Z.eqb_neq, Hkd; left; by rewrite E|]. tnext. by apply tr_dev_vnode. }
  destruct (Z.eqb_spec (kd_fs kd) 0) as [Hfs|Hfs]; cbn [negb].
  - destruct (same (kd_name kd).2 name) eqn:En.
    + destruct (kd_rawname kd) as [raw|] eqn:Er; [apply tr_ret; split_and!; try done; by right|].
      eapply tr_bind; [by apply tr_kassert|]. tnext. eapply tr_bind; [by apply tr_kassert, bool_decide_eq_true_2|].
      tnext. eapply tr_bind; [apply tr_kassert, negb_true_iff, Z.eqb_neq, Hkd; by right|]. tnext. by apply tr_dev_vnode.
    + destruct (kd_rawname kd) as [raw|]; [by apply Hraw|done].
  - apply (tr_gets _ _ _ (fun s => fs_getvolname (kd_fs kd) (world s))). intros s _.
    destruct (same (kd_name kd).2 name) eqn:En; cbn [orb].
    + eapply tr_bind; [apply tr_getroot_fs|]. tnext. apply tr_ret. split_and!; try done. by left.
    + destruct (match fs_getvolname (kd_fs kd) (world s) with Some v => same v name | None => false end).
      * eapply tr_bind; [apply tr_getroot_fs|]. tnext. apply tr_ret. split_and!; try done. by left.
      * destruct (kd_rawname kd) as [raw|]; [by apply Hraw|done].
Qed.

Lemma tr_getroot d L O name : 0 < d -> tr d L O (vfs_getroot name) (fun r => got d L O r.1 r.2).
Proof.
  intros Hd. unfold vfs_getroot. eapply tr_bind; [by apply tr_assert_biglock|]. tnext.
  apply tr_gets. intros s Hk. by apply tr_getroot_loop.
Qed.

Lemma got_err d L O res vn d' L' O' : got d L O res vn d' L' O' -> res <> 0 -> d' = d /\ O' = O /\ L' = L.
Proof. by intros (-> & -> & [(? & _)|[_ ->]]) ?. Qed.

Lemma got_ok d L O vn d' L' O' : got d L O 0 vn d' L' O' -> d' = d /\ O' = O /\ vn <> 0 /\ L' = vn :: L.
Proof. by intros (-> & -> & [(? & ? & ->)|[? _]]). Qed.

(** A path that starts with a slash or a colon. *)
Lemma tr_start d L O (slash : bool) :
  tr d L O (if slash then
              let* s := get in
              if bootfs_vnode s =? 0 then ret (ENOENT, 0)
              else do* vnode_incref (bootfs_vnode s) in ret (0, bootfs_vnode s)
            else
              let* r := vfs_getcurdir in
              if negb (r.1 =? 0) then ret (r.1, 0)
              else
                do* kassert (negb (vn_fs r.2 =? 0)) in
                let* root := fs_call (FsGetroot (vn_fs r.2)) in
                do* vnode_decref r.2 in
                ret (0, r_value root)) (fun r => got d L O r.1 r.2).
Proof.
  destruct slash.
  - apply tr_get. intros s _ _. destruct (Z.eqb_spec (bootfs_vnode s) 0); [apply tr_ret; split_and!; try done; by right|].
    eapply tr_bind; [by apply tr_incref|]. tnext. apply tr_ret. split_and!; try done. by left.
  - eapply tr_bind; [apply tr_getcurdir|]. intros [res vn] ? ? ? [Hr Hfs]. cbn [fst snd] in *.
    destruct (Z.eqb_spec res 0) as [->|Hz]; cbn [negb].
    + apply got_ok in Hr as (-> & -> & Hv & ->).
      eapply tr_bind; [apply tr_kassert, negb_true_iff, Z.eqb_neq; by apply Hfs|]. tnext.
      eapply tr_bind; [apply tr_getroot_fs|]. tnext. eapply tr_bind; [by apply tr_decref2|]. tnext.
      apply tr_ret. split_and!; try done. by left.
    + destruct (got_err _ _ _ _ _ _ _ _ Hr Hz) as (-> & -> & ->). apply tr_ret. split_and!; try done. by right.
Qed.

(** The vnode at which a path name starts. *)
Lemma tr_getdevice d L O path : 0 < d -> tr d L O (getdevice path) (fun r => got d L O r.1.1 r.1.2).
Proof.
  intros Hd. unfold getdevice. eapply tr_bind; [by apply tr_assert_biglock|]. tnext.
  assert (Herr : forall res (vn : Z) (p : list Z), res <> 0 -> tr d L O (ret (res, vn, p)) (fun r => got d L O r.1.1 r.1.2))
    by (intros; apply tr_ret; split_and!; try done; by right).
  assert (Hcur : tr d L O (let* r := vfs_getcurdir in ret (r.1, r.2, path)) (fun r => got d L O r.1.1 r.1.2))
    by (eapply tr_bind; [apply tr_getcurdir|]; tnext; by apply tr_ret).
  assert (Hk : forall (r : Z * Z) (p : list Z) d' L' O', got d L O r.1 r.2 d' L' O' ->
    tr d' L' O' (if negb (r.1 =? 0) then ret (r.1, 0, []) else ret (0, r.2, p)) (fun r => got d L O r.1.1 r.1.2)).
  { intros [res vn] p d' L' O' Hr. cbn [fst snd] in *. destruct (Z.eqb_spec res 0) as [->|Hz]; cbn [negb]; [by apply tr_ret|].
    destruct (got_err _ _ _ _ _ _ _ _ Hr Hz) as (-> & -> & ->). by apply Herr. }
  destruct (scan 0 path) as [[i [|]]|]; cbn iota beta.
  - rewrite (proj2 (Z.ltb_ge _ 0)) by lia. cbn [andb]. destruct (Z.ltb_spec 0 (Z.of_nat i)).
    + eapply tr_bind; [by apply tr_getroot|]. intros. by apply Hk.
    + replace (Z.of_nat i) with 0 by lia. eapply tr_bind; [by apply tr_kassert|]. tnext. eapply tr_bind; [apply (tr_start d L O false)|]. intros. by apply Hk.
  - change (-1 <? 0) with true. cbn [andb]. destruct (Z.of_nat i =? 0); cbn [negb]; [|done].
    change (0 <? -1) with false. cbn iota. eapply tr_bind; [by apply tr_kassert|]. tnext. eapply tr_bind; [apply (tr_start d L O true)|]. intros. by apply Hk.
  - done.
Qed.

(** Unlocking on the way out. *)
Lemma tr_out {A} d L O (a : A) (Q : A -> Z -> list Z -> list Z -> Prop) :
  0 <= d -> Q a d L O -> tr (d + 1) L O (do* vfs_biglock_release in ret a) Q.
Proof. intros Hd HQ. eapply tr_bind; [by apply tr_unlock|]. tnext. by apply tr_ret. Qed.

Lemma tr_lookparent d L O path n :
  tr d L O (vfs_lookparent path n) (fun r => got d L O (r_result r) (r_value r)).
Proof.
  apply tr_nonneg. intros Hd. unfold vfs_lookparent. eapply tr_bind; [apply tr_acquire|]. tnext.
  eapply tr_bind; [apply tr_getdevice; lia|]. intros [[res vn] sub] ? ? ? Hr. cbn [fst snd] in Hr.
  destruct (Z.eqb_spec res 0) as [->|Hz]; cbn [negb].
  - apply got_ok in Hr as (-> & -> & Hv & ->).
    eapply (tr_bind _ _ _ _ _ (fun r => got (d + 1) (vn :: L) O (r_result r) (r_value r))).
    + destruct (zlength sub =? 0); [apply tr_ret; split_and!; try done; by right|].
      eapply tr_weaken; [apply tr_vop_hands; [done|done|left]|]. by intros r ? ? ? [? _].
    + intros r d1 L1 O1 (-> & -> & [(Hz & Hv1 & ->)|[Hz ->]]).
      * eapply tr_bind; [by apply tr_decref2|]. tnext. apply tr_out; [done|]. split_and!; try done. by left.
      * eapply tr_bind; [by apply tr_decref|]. tnext. apply tr_out; [done|]. split_and!; try done. by right.
  - destruct (got_err _ _ _ _ _ _ _ _ Hr Hz) as (-> & -> & ->). apply tr_out; [done|]. split_and!; try done. by right.
Qed.

Lemma tr_lookup d L O path : tr d L O (vfs_lookup path) (fun r => got d L O r.1 r.2).
Proof.
  apply tr_nonneg. intros Hd. unfold vfs_lookup. eapply tr_bind; [apply tr_acquire|]. tnext.
  eapply tr_bind; [apply tr_getdevice; lia|]. intros [[res vn] sub] ? ? ? Hr. cbn [fst snd] in Hr.
  destruct (Z.eqb_spec res 0) as [->|Hz]; cbn [negb].
  - apply got_ok in Hr as (-> & -> & Hv & ->).
    destruct (zlength sub =? 0); [apply tr_out; [done|]; split_and!; try done; by left|].
    eapply tr_bind; [apply tr_vop_hands; [done|done|left]|]. intros r d1 L1 O1 [(-> & -> & [(Hz & Hv1 & ->)|[Hz ->]]) _].
    + eapply tr_bind; [by apply tr_decref2|]. tnext. apply tr_out; [done|]. split_and!; try done. by left.
    + eapply tr_bind; [by apply tr_decref|]. tnext. apply tr_out; [done|]. split_and!; try done. by right.
  - destruct (got_err _ _ _ _ _ _ _ _ Hr Hz) as (-> & -> & ->). apply tr_out; [done|]. split_and!; try done. by right.
Qed.

(** After an operation that may hand back a vnode. *)
Lemma tr_bind_got {A C} d L O (c : M (vst W H) A) (res val : A -> Z) (k : A -> M (vst W H) C) Q :
  tr d L O c (fun r => got d L O (res r) (val r)) ->
  (forall r, res r = 0 -> val r <> 0 -> tr d (val r :: L) O (k r) Q) ->
  (forall r, res r <> 0 -> tr d L O (k r) Q) -> tr d L O (bind c k) Q.
Proof.
  intros Hc H1 H2. eapply tr_bind; [exact Hc|]. intros r ? ? ? (-> & -> & [(Hz & Hv & ->)|[Hz ->]]); auto.
Qed.

Definition keeps {A} (d : Z) (L O : list Z) : A -> Z -> list Z -> list Z -> Prop :=
  fun _ d' L' O' => d' = d /\ L' = L /\ O' = O.

Lemma tr_keep {A} d L O (a : A) : tr d L O (ret a) (keeps d L O).
Proof. by apply tr_ret. Qed.

Lemma tr_decref_keep {A} d L O v (a : A) : v <> 0 -> tr d (v :: L) O (do* vnode_decref v in ret a) (keeps d L O).
Proof. intros Hv. eapply tr_bind; [by apply tr_decref|]. tnext. apply tr_keep. Qed.

Lemma tr_out_keep {A} d L O (a : A) : 0 <= d -> tr (d + 1) L O (do* vfs_biglock_release in ret a) (keeps d L O).
Proof. intros. by apply tr_out. Qed.

Ltac on_result := match goal with
  | Hz : ?r = 0 |- context [negb (?r =? 0)] => rewrite (proj2 (Z.eqb_eq r 0) Hz); cbn [negb]
  | Hz : ?r <> 0 |- context [negb (?r =? 0)] => rewrite (proj2 (Z.eqb_neq r 0) Hz); cbn [negb]
  end.

Lemma tr_chdir d L O path : tr d L O (vfs_chdir path) (keeps d L O).
Proof.
  apply (tr_bind_got _ _ _ _ fst snd); [apply tr_lookup|..]; intros r Hz; [intros Hv|]; on_result; [|apply tr_keep].
  eapply tr_bind; [apply tr_setcurdir; [done|left]|]. tnext. by apply tr_decref_keep.
Qed.

Lemma tr_boot_from d L O tmp : 0 <= d -> tr (d + 1) L O (boot_from tmp) (keeps d L O).
Proof.
  intros Hd. eapply tr_bind; [apply tr_chdir|]. intros res ? ? ? (-> & -> & ->).
  destruct (negb (res =? 0)); [by apply tr_out_keep|].
  apply (tr_bind_got _ _ _ _ fst snd); [eapply tr_weaken; [apply tr_getcurdir|by intros ? ? ? ? [? _]]|..];
    intros r Hz; [intros Hv|]; on_result; [|by apply tr_out_keep].
  replace (r.2 :: L) with (give r.2 L) by (unfold give; by rewrite (proj2 (Z.eqb_neq _ 0))).
  eapply tr_bind; [apply tr_change_bootfs|]. tnext. by apply tr_out_keep.
Qed.

Lemma tr_setbootfs d L O fsname : tr d L O (vfs_setbootfs fsname) (keeps d L O).
Proof.
  apply tr_nonneg. intros Hd. eapply tr_bind; [apply tr_acquire|]. tnext. cbv zeta.
  destruct (index_of _ _) as [i|]; [|by apply tr_boot_from].
  destruct (0 <? _); [by apply tr_out_keep|by apply tr_boot_from].
Qed.

Lemma tr_clearbootfs d L O : tr d L O vfs_clearbootfs (keeps d L O).
Proof.
  apply tr_nonneg. intros Hd. eapply tr_bind; [apply tr_acquire|]. tnext.
  eapply tr_bind; [apply (tr_change_bootfs _ _ _ 0)|]. tnext. by apply tr_unlock.
Qed.

Lemma tr_open_vnode d L O path flags mode : tr d L O (open_vnode path flags mode) (fun r => got d L O r.1 r.2).
Proof.
  unfold open_vnode. destruct (flag flags O_CREAT); [|apply tr_lookup].
  apply (tr_bind_got _ _ _ _ r_result r_value); [apply tr_lookparent|..]; intros r Hz; [intros Hv|]; on_result;
    [|apply tr_ret; split_and!; try done; by right].
  eapply tr_bind; [apply tr_vop_hands; [done|done|left]|]. intros r' ? ? ? [(-> & -> & [(Hz' & Hv' & ->)|[Hz' ->]]) _].
  - eapply tr_bind; [by apply tr_decref2|]. tnext. apply tr_ret. split_and!; try done. by left.
  - eapply tr_bind; [by apply tr_decref|]. tnext. apply tr_ret. split_and!; try done. by right.
Qed.

(** An open file holds one reference and is open once. *)
Definition opened (d : Z) (L O : list Z) (r : Z * Z) (d' : Z) (L' O' : list Z) : Prop :=
  d' = d /\ ((r.1 = 0 /\ r.2 <> 0 /\ L' = r.2 :: L /\ O' = r.2 :: O) \/ (r.1 <> 0 /\ L' = L /\ O' = O)).

Lemma tr_close d L O vn : vn <> 0 -> tr d (vn :: L) (vn :: O) (vfs_close vn) (keeps d L O).
Proof.
  intros Hv. eapply tr_bind; [apply tr_decopen; [done|left]|]. tnext. eapply tr_weaken; [by apply tr_decref|].
  by intros ? ? ? ?.
Qed.

(** Truncating what has been opened. *)
Lemma tr_open_end d L O vn (result : Z) :
  vn <> 0 -> tr d (vn :: L) (vn :: O) (if negb (result =? 0) then
      do* vnode_decopen vn in do* vnode_decref vn in ret (result, 0) else ret (0, vn)) (opened d L O).
Proof.
  intros Hv. destruct (Z.eqb_spec result 0) as [->|Hz]; cbn [negb].
  - apply tr_ret. split; [done|]. by left.
  - eapply tr_bind; [apply tr_decopen; [done|left]|]. tnext. eapply tr_bind; [by apply tr_decref|]. tnext.
    apply tr_ret. split; [done|]. by right.
Qed.

Lemma tr_open d L O path flags mode : tr d L O (vfs_open path flags mode) (opened d L O).
Proof.
  assert (Herr : forall res, res <> 0 -> tr d L O (ret (res, 0)) (opened d L O))
    by (intros; apply tr_ret; split; [done|by right]).
  unfold vfs_open. cbv zeta. destruct (negb (_ || _ || _)); [by apply Herr|].
  apply (tr_bind_got _ _ _ _ fst snd); [apply tr_open_vnode|..]; intros r Hz; [intros Hv|]; on_result; [|by apply Herr].
  eapply tr_bind; [by apply tr_kassert, negb_true_iff, Z.eqb_neq|]. tnext.
  eapply tr_bind; [apply tr_vop_plain; [done|done|left]|]. intros op ? ? ? (_ & -> & -> & ->).
  destruct (Z.eqb_spec (r_result op) 0) as [Ha|Ha]; cbn [negb].
  - eapply tr_bind; [by apply tr_incopen|]. tnext. eapply (tr_bind _ _ _ _ _ (keeps d (r.2 :: L) (r.2 :: O))).
    + destruct (flag flags O_TRUNC); [|apply tr_keep]. destruct (negb _); [apply tr_keep|].
      eapply tr_bind; [apply tr_vop_plain; [done|done|left]|]. tnext. apply tr_keep.
    + intros result ? ? ? (-> & -> & ->). by apply tr_open_end.
  - eapply tr_bind; [by apply tr_decref|]. tnext. by apply Herr.
Qed.

Lemma tr_at_parent d L O path q :
  (forall dir name, hands_back (q dir name) = false) -> tr d L O (at_parent path q) (keeps d L O).
Proof.
  intros Hq. apply (tr_bind_got _ _ _ _ r_result r_value); [apply tr_lookparent|..]; intros r Hz; [intros Hv|];
    on_result; [|apply tr_keep].
  eapply tr_bind; [apply tr_vop_plain; [done|done|left]|]. tnext. by apply tr_decref_keep.
Qed.

Lemma tr_readlink d L O path : tr d L O (vfs_readlink path) (keeps d L O).
Proof.
  apply (tr_bind_got _ _ _ _ fst snd); [apply tr_lookup|..]; intros r Hz; [intros Hv|]; on_result; [|apply tr_keep].
  eapply tr_bind; [apply tr_vop_plain; [done|done|left]|]. tnext. by apply tr_decref_keep.
Qed.

(** Two vnodes given back at the end. *)
Lemma tr_decref_both {A} d L O v w (a : A) :
  v <> 0 -> w <> 0 -> tr d (w :: v :: L) O (do* vnode_decref w in do* vnode_decref v in ret a) (keeps d L O).
Proof. intros Hv Hw. eapply tr_bind; [by apply tr_decref|]. tnext. by apply tr_decref_keep. Qed.

Lemma tr_rename d L O p1 p2 : tr d L O (vfs_rename p1 p2) (keeps d L O).
Proof.
  apply (tr_bind_got _ _ _ _ r_result r_value); [apply tr_lookparent|..]; intros r Hz; [intros Hv|]; on_result; [|apply tr_keep].
  apply (tr_bind_got _ _ _ _ r_result r_value); [apply tr_lookparent|..]; intros r' Hz'; [intros Hv'|]; on_result;
    [|by apply tr_decref_keep].
  destruct (cross_device _ _); [by apply tr_decref_both|].
  eapply tr_bind; [apply tr_vop_plain; [done|done|right; left]|]. tnext. by apply tr_decref_both.
Qed.

Lemma tr_link d L O p1 p2 : tr d L O (vfs_link p1 p2) (keeps d L O).
Proof.
  apply (tr_bind_got _ _ _ _ fst snd); [apply tr_lookup|..]; intros r Hz; [intros Hv|]; on_result; [|apply tr_keep].
  apply (tr_bind_got _ _ _ _ r_result r_value); [apply tr_lookparent|..]; intros r' Hz'; [intros Hv'|]; on_result;
    [|by apply tr_decref_keep].
  destruct (cross_device _ _); [by apply tr_decref_both|].
  eapply tr_bind; [apply tr_vop_plain; [done|done|left]|]. tnext. by apply tr_decref_both.
Qed.

(** ** Mounting *)

Lemma own_devs B d L O s devs : own B d L O s -> Forall kd_ok devs -> own B d L O (set_devs s devs).
Proof. intros [H1 H2 H3 H4 H5] Hd. by split. Qed.

Lemma findmount_lookup devs name i j kd :
  findmount_loop devs name i = Some (j, kd) ->
  exists k, j = (i + k)%nat /\ devs !! k = Some kd /\ kd_rawname kd <> None /\ (kd_name kd).2 = name.
Proof.
  revert i. induction devs as [|x devs IH]; cbn; intros i Hf; [done|].
  assert (Hs : findmount_loop devs name (S i) = Some (j, kd) -> exists k, j = (i + k)%nat /\ (x :: devs) !! k = Some kd /\ kd_rawname kd <> None /\ (kd_name kd).2 = name).
  { intros E. destruct (IH _ E) as (k & -> & R). exists (S k). split; [lia|done]. }
  destruct (kd_rawname x) eqn:Er; [|by auto]. unfold same in Hf.
  case_bool_decide; [|by auto]. injection Hf as <- <-. exists 0%nat. split_and!; [lia|done|by rewrite Er|done].
Qed.

Lemma kd_ok_with_fs kd fs : kd_ok kd -> kd_rawname kd <> None -> kd_ok (with_fs kd fs).
Proof. intros [H1 H2] Hr. split; [done|]. intros _. cbn. auto. Qed.

Lemma devs_ok_mount devs i kd fs :
  Forall kd_ok devs -> devs !! i = Some kd -> kd_rawname kd <> None -> Forall kd_ok (alter (fun kd => with_fs kd fs) i devs).
Proof.
  intros Hd Hi Hr. apply list.Forall_forall. intros x Hx. apply list_elem_of_lookup in Hx as [j Hj].
  rewrite list.Forall_forall in Hd. destruct (decide (i = j)) as [<-|Hn].
  - rewrite list_lookup_alter_eq, Hi in Hj. injection Hj as <-. apply kd_ok_with_fs; [|done]. apply Hd. by eapply list_elem_of_lookup_2.
  - rewrite list_lookup_alter_ne in Hj by done. apply Hd. by eapply list_elem_of_lookup_2.
Qed.

(** A computation that calls file systems and may change the file system of one
    mountable device. *)
Definition mounts {A} (d : Z) (c : M (vst W H) A) s : Prop :=
  exists a w devs, c s = Ret (a, set_depth (set_devs (set_world s w) devs) d) /\
    (devs = knowndevs s \/ exists i kd fs, knowndevs s !! i = Some kd /\ kd_rawname kd <> None /\
                            devs = alter (fun kd => with_fs kd fs) i (knowndevs s)).

Lemma mounts_own {A} B d L O (c : M (vst W H) A) s :
  0 <= d -> own B d L O s -> mounts d c s -> ends B c s (keeps d L O).
Proof.
  intros Hd Ho (a & w & devs & E & Hdevs). eapply ends_same; [exact E|done| |done].
  pose proof (o_devs _ _ _ _ _ Ho) as Hok. destruct (own_devs _ _ _ _ _ devs (own_world _ _ _ _ _ w Ho)) as [H1 H2 H3 H4 H5].
  - destruct Hdevs as [->|(i & kd & fs & Hi & Hr & ->)]; [done|]. by eapply devs_ok_mount.
  - by split.
Qed.

Lemma findmount_run s devname :
  0 < vfs_biglock_depth s -> findmount devname s = Ret (findmount_loop (knowndevs s) devname 0, s).
Proof.
  intros Hd. unfold findmount, assert_biglock, vfs_biglock_do_i_hold, gets, kassert, bind.
  by rewrite (proj2 (Z.ltb_lt 0 _)).
Qed.

Lemma release_result {A} s (a : A) d : vfs_biglock_depth s = d + 1 -> 0 <= d ->
  (do* vfs_biglock_release in ret a) s = Ret (a, set_depth s d).
Proof.
  intros E Hd. unfold bind. rewrite biglock_release_ok by lia. unfold ret. do 4 f_equal. lia.
Qed.

Lemma kassert_run b (C : Type) (k : M (vst W H) C) s : b = true -> (do* kassert b in k) s = k s.
Proof. by intros ->. Qed.

Lemma mounts_mount devname s d : vfs_biglock_depth s = d -> 0 <= d -> Forall kd_ok (knowndevs s) -> mounts d (vfs_mount devname) s.
Proof.
  intros E Hd Hok. unfold vfs_mount. unfold mounts, vfs_biglock_acquire, modify. unfold bind at 1.
  unfold bind at 1. rewrite findmount_run by (cbn; lia). cbn [set_depth knowndevs].
  destruct (findmount_loop _ _ _) as [[i kd]|] eqn:Hf.
  - apply findmount_lookup in Hf as (k & -> & Hk & Hr & _). rewrite Nat.add_0_l.
    pose proof (proj1 (list.Forall_forall _ _) Hok kd (list_elem_of_lookup_2 _ _ _ Hk)) as [_ Hdev].
    destruct (Z.eqb_spec (kd_fs kd) 0) as [Hz|Hz]; cbn [negb].
    + rewrite kassert_run by (by apply bool_decide_eq_true). rewrite kassert_run by (apply negb_true_iff, Z.eqb_neq; auto).
      unfold bind at 1. rewrite fs_call_plain by done. cbn [set_depth world set_world].
      set (r := call _ _). pose proof (call_value (MountFunc (kd_device kd)) (world s) (or_intror (ex_intro _ _ eq_refl))) as Hv.
      fold r in Hv. destruct (Z.eqb_spec (r_result r.1) 0) as [Hz1|Hz1]; cbn [negb].
      * rewrite kassert_run by (apply negb_true_iff, Z.eqb_neq; auto). unfold set_kd_fs, modify. unfold bind at 1.
        rewrite (release_result _ _ d) by (cbn; lia). do 3 eexists. split; [done|]. right. by exists k, kd, (r_value r.1).
      * rewrite (release_result _ _ d) by (cbn; lia). do 3 eexists. split; [done|]. by left.
    + rewrite (release_result _ _ d) by (cbn; lia). exists EBUSY, (world s), (knowndevs s). split; [done|]. by left.
  - rewrite (release_result _ _ d) by (cbn; lia). exists ENODEV, (world s), (knowndevs s). split; [done|]. by left.
Qed.

Lemma mounts_unmount devname s d : vfs_biglock_depth s = d -> 0 <= d -> Forall kd_ok (knowndevs s) -> mounts d (vfs_unmount devname) s.
Proof.
  intros E Hd Hok. unfold vfs_unmount. unfold mounts, vfs_biglock_acquire, modify. unfold bind at 1.
  unfold bind at 1. rewrite findmount_run by (cbn; lia). cbn [set_depth knowndevs].
  assert (Hend : forall w (res : Z), exists a w' devs, (do* vfs_biglock_release in ret res) (set_world (set_depth s (vfs_biglock_depth s + 1)) w)
    = Ret (a, set_depth (set_devs (set_world s w') devs) d) /\ (devs = knowndevs s \/ exists i kd fs, knowndevs s !! i = Some kd /\
      kd_rawname kd <> None /\ devs = alter (fun kd => with_fs kd fs) i (knowndevs s))).
  { intros w res. exists res, w, (knowndevs s). rewrite (release_result _ _ d) by (cbn; lia). split; [done|]. by left. }
  destruct (findmount_loop _ _ _) as [[i kd]|] eqn:Hf; [|by apply (Hend (world s))].
  apply findmount_lookup in Hf as (k & -> & Hk & Hr & _). rewrite Nat.add_0_l.
  pose proof (proj1 (list.Forall_forall _ _) Hok kd (list_elem_of_lookup_2 _ _ _ Hk)) as [_ Hdev].
  destruct (kd_fs kd =? 0); [by apply (Hend (world s))|]. unfold bind at 1.
  rewrite kassert_run by (by apply bool_decide_eq_true). rewrite kassert_run by (apply negb_true_iff, Z.eqb_neq; auto).
  unfold bind at 1. rewrite fs_call_plain by done. cbn [set_depth world set_world].
  destruct (negb (r_result _ =? 0)); [by apply Hend|].
  unfold bind at 1. rewrite fs_call_plain by done. cbn [set_depth world set_world].
  destruct (negb (r_result _ =? 0)); [by apply Hend|].
  unfold set_kd_fs, modify, bind at 1, ret at 1. rewrite (release_result _ _ d) by (cbn; lia).
  do 3 eexists. split; [done|]. right. by exists k, kd, 0.
Qed.

Lemma unmount_one_run i dev s :
  knowndevs s !! i = Some dev ->
  exists w devs, unmount_one i dev s = Ret (tt, set_devs (set_world s w) devs) /\
    (devs = knowndevs s \/ kd_rawname dev <> None /\ devs = alter (fun kd => with_fs kd 0) i (knowndevs s)).
Proof.
  intros Hi. assert (Hend : forall w, exists w' devs, ret tt (set_world s w) = Ret (tt, set_devs (set_world s w') devs) /\
    (devs = knowndevs s \/ kd_rawname dev <> None /\ devs = alter (fun kd => with_fs kd 0) i (knowndevs s))).
  { intros w. exists w, (knowndevs s). split; [by destruct s|by left]. }
  assert (Hsame : exists w' devs, ret tt s = Ret (tt, set_devs (set_world s w') devs) /\
    (devs = knowndevs s \/ kd_rawname dev <> None /\ devs = alter (fun kd => with_fs kd 0) i (knowndevs s)))
    by (exists (world s), (knowndevs s); split; [by destruct s|by left]).
  unfold unmount_one. destruct (kd_rawname dev); [|done].
  destruct (kd_fs dev =? 0); [done|].
  assert (Hr : exists r w, (let* r := fs_call (FsSync (kd_fs dev)) in
      if negb (r_result r =? 0) then fs_call (FsSync (kd_fs dev)) else ret r) s = Ret (r, set_world s w)).
  { unfold bind. rewrite fs_call_plain by done. destruct (negb _); [rewrite fs_call_plain by done|]; do 2 eexists; done. }
  destruct Hr as (r & w & E). rewrite <- (bind_bind _ (fun r => if negb (r_result r =? 0) then _ else _)). rewrite (bind_ok _ _ _ _ _ E).
  destruct (negb (r_result _ =? 0)); [by apply Hend|].
  unfold bind at 1. rewrite fs_call_plain by done. cbn [world set_world].
  destruct (negb (r_result _ =? 0)); [by apply Hend|].
  do 2 eexists. split; [done|]. by right.
Qed.

Lemma tr_unmount_loop d L O devs i B s :
  0 <= d -> (forall v, 0 <= B v) -> own B d L O s -> (forall k, devs !! k = knowndevs s !! (i + k)%nat) ->
  ends B (unmount_loop i devs) s (keeps d L O).
Proof.
  intros Hd HB. revert i s. induction devs as [|dev devs IH]; intros i s Ho Hdevs; [by eapply ends_same|]. cbn.
  pose proof (Hdevs 0%nat) as Hi. rewrite Nat.add_0_r in Hi. symmetry in Hi. cbn in Hi.
  destruct (unmount_one_run i dev s Hi) as (w & devs' & E & Hc). pose proof (o_devs _ _ _ _ _ Ho) as Hok.
  apply (ends_eq _ _ (unmount_loop (S i) devs) _ (set_devs (set_world s w) devs')); [by rewrite (bind_ok _ _ _ _ _ E)|].
  apply IH.
  - apply own_devs; [by apply own_world|]. destruct Hc as [->|[Hr ->]]; [done|by eapply devs_ok_mount].
  - intros k. cbn. specialize (Hdevs (S k)). cbn in Hdevs. replace (S (i + k)) with (i + S k)%nat by lia.
    destruct Hc as [->|[Hr ->]]; [done|]. by rewrite list_lookup_alter_ne by lia.
Qed.

Lemma tr_mount d L O devname : tr d L O (vfs_mount devname) (keeps d L O).
Proof.
  intros B s HB Hd Ho. apply (mounts_own _ _ _ _ _ _ Hd Ho). by apply mounts_mount; [eapply o_depth| |eapply o_devs].
Qed.

Lemma tr_unmount d L O devname : tr d L O (vfs_unmount devname) (keeps d L O).
Proof.
  intros B s HB Hd Ho. apply (mounts_own _ _ _ _ _ _ Hd Ho). by apply mounts_unmount; [eapply o_depth| |eapply o_devs].
Qed.

Lemma tr_unmountall d L O : tr d L O vfs_unmountall (keeps d L O).
Proof.
  apply tr_nonneg. intros Hd. eapply tr_bind; [apply tr_acquire|]. tnext.
  assert (Ht : tr (d + 1) L O (let* devs := gets knowndevs in unmount_loop 0 devs) (keeps (d + 1) L O)).
  { intros B s HB Hd' Ho. apply (ends_eq _ _ (unmount_loop 0 (knowndevs s)) _ s); [done|]. by apply tr_unmount_loop. }
  intros B s. apply (tr_bind _ _ _ _ (fun _ => do* vfs_biglock_release in ret 0) _ _ Ht).
  intros _ ? ? ? (-> & -> & ->). by apply tr_out_keep.
Qed.

Lemma tr_sync_loop d L O devs :
  tr d L O (for_devs devs (fun dev => if negb (kd_fs dev =? 0) then do* fs_call (FsSync (kd_fs dev)) in ret tt else ret tt)) (keeps d L O).
Proof.
  induction devs as [|dev devs IH]; cbn; [apply tr_keep|]. eapply (tr_bind _ _ _ _ _ (keeps d L O)).
  - destruct (negb _); [|apply tr_keep]. eapply tr_bind; [by apply tr_fs_plain|]. tnext. apply tr_keep.
  - by intros _ ? ? ? (-> & -> & ->).
Qed.

Lemma tr_sync d L O : tr d L O vfs_sync (keeps d L O).
Proof.
  apply tr_nonneg. intros Hd. eapply tr_bind; [apply tr_acquire|]. tnext. apply tr_gets. intros s _.
  eapply tr_bind; [apply tr_sync_loop|]. intros _ ? ? ? (-> & -> & ->). by apply tr_out_keep.
Qed.

(** ** The name of the current directory *)

(** Every file system has a volume name. *)
Definition named : Prop := forall fs w, fs_getvolname fs w <> None.

Lemma tr_move d L O data : tr d L O (move data) (keeps d L O).
Proof.
  intros B s HB Hd Ho. unfold move. destruct (uiomove data (world s)) as [r w] eqn:E.
  eapply ends_same; [by rewrite E|done|by apply own_world|done].
Qed.

Lemma tr_ret_bind {A C} d L O (a : A) (k : A -> M (vst W H) C) Q : tr d L O (k a) Q -> tr d L O (let* x := ret a in k x) Q.
Proof. done. Qed.

Lemma tr_getcwd d L O : named -> tr d L O vfs_getcwd (keeps d L O).
Proof.
  intros Hn. eapply tr_bind; [apply tr_getcurdir|]. intros r d' L' O' [(-> & -> & [(Hz & Hv & ->)|[Hz ->]]) Hfs];
    on_result; [|apply tr_keep]. specialize (Hfs Hz).
  eapply tr_bind; [by apply tr_kassert, negb_true_iff, Z.eqb_neq|]. tnext. unfold getvolname. apply tr_gets. intros s _.
  destruct (fs_getvolname (vn_fs r.2) (world s)) as [name|] eqn:En; [|by destruct (Hn (vn_fs r.2) (world s))].
  apply tr_ret_bind.
  eapply tr_bind; [apply tr_move|]. intros res ? ? ? (-> & -> & ->).
  eapply (tr_bind _ _ _ _ _ (keeps d (r.2 :: L) O)); [|intros ? ? ? ? (-> & -> & ->); by apply tr_decref_keep].
  destruct (negb (res =? 0)); [apply tr_keep|]. eapply tr_bind; [apply tr_move|]. intros res2 ? ? ? (-> & -> & ->).
  destruct (negb (res2 =? 0)); [apply tr_keep|]. eapply tr_bind; [apply tr_vop_plain; [done|done|left]|]. tnext. apply tr_keep.
Qed.

(** ** Clients *)

(** The calls that a client makes; a file is closed by its place among its open
    files. *)
Inductive client :=
  | COpen (path : list Z) (flags mode : Z) | CClose (i : nat)
  | CChdir (path : list Z) | CClearcurdir | CSetbootfs (name : list Z) | CClearbootfs
  | CRemove (path : list Z) | CSymlink (contents path : list Z) | CMkdir (path : list Z) (mode : Z) | CRmdir (path : list Z)
  | CReadlink (path : list Z) | CRename (p1 p2 : list Z) | CLink (p1 p2 : list Z)
  | CSync | CMount (name : list Z) | CUnmount (name : list Z) | CUnmountall.

Definition then_keep {A} (c : M (vst W H) A) (files : list Z) : M (vst W H) (list Z) := do* c in ret files.

Definition client_step (c : client) (files : list Z) : M (vst W H) (list Z) :=
  match c with
  | COpen path flags mode => let* r := vfs_open path flags mode in ret (if r.1 =? 0 then r.2 :: files else files)
  | CClose i =>
      match files !! i with
      | Some vn => do* vfs_close vn in ret (delete i files)
      | None => ret files
      end
  | CChdir path => then_keep (vfs_chdir path) files
  | CClearcurdir => then_keep vfs_clearcurdir files
  | CSetbootfs name => then_keep (vfs_setbootfs name) files
  | CClearbootfs => then_keep vfs_clearbootfs files
  | CRemove path => then_keep (vfs_remove path) files
  | CSymlink contents path => then_keep (vfs_symlink contents path) files
  | CMkdir path mode => then_keep (vfs_mkdir path mode) files
  | CRmdir path => then_keep (vfs_rmdir path) files
  | CReadlink path => then_keep (vfs_readlink path) files
  | CRename p1 p2 => then_keep (vfs_rename p1 p2) files
  | CLink p1 p2 => then_keep (vfs_link p1 p2) files
  | CSync => then_keep vfs_sync files
  | CMount name => then_keep (vfs_mount name) files
  | CUnmount name => then_keep (vfs_unmount name) files
  | CUnmountall => then_keep vfs_unmountall files
  end.

Fixpoint session (cs : list client) (files : list Z) : M (vst W H) (list Z) :=
  match cs with
  | [] => ret files
  | c :: cs => let* files := client_step c files in session cs files
  end.

(** The client owns the references of its open files and nothing else. *)
Definition holds (files : list Z) (d : Z) (L O : list Z) : Prop :=
  d = 0 /\ L = files /\ O = files /\ Forall (fun v => v <> 0) files.

Lemma tr_then_keep {A} files (c : M (vst W H) A) :
  Forall (fun v => v <> 0) files -> tr 0 files files c (keeps 0 files files) ->
  tr 0 files files (then_keep c files) holds.
Proof. intros Hf Hc. eapply tr_bind; [exact Hc|]. intros _ ? ? ? (-> & -> & ->). by apply tr_ret. Qed.

Lemma tr_client c files : Forall (fun v => v <> 0) files -> tr 0 files files (client_step c files) holds.
Proof.
  intros Hf. destruct c; cbn [client_step]; try (apply tr_then_keep; [done|]).
  - eapply tr_bind; [apply tr_open|]. intros r ? ? ? (-> & [(Hz & Hv & -> & ->)|(Hz & -> & ->)]); apply tr_ret.
    + rewrite Hz. split_and!; try done. by apply list.Forall_cons.
    + by rewrite (proj2 (Z.eqb_neq _ _) Hz).
  - destruct (files !! i) as [vn|] eqn:Hi; [|by apply tr_ret].
    pose proof (delete_Permutation _ _ _ Hi) as Hp.
    apply (tr_perm _ _ (vn :: delete i files) _ (vn :: delete i files)); [done|done|].
    rewrite Hp in Hf. apply list.Forall_cons in Hf as [Hv Hf].
    eapply tr_bind; [by apply tr_close|]. intros _ ? ? ? (-> & -> & ->). by apply tr_ret.
  - apply tr_chdir.
  - apply tr_clearcurdir.
  - apply tr_setbootfs.
  - apply tr_clearbootfs.
  - by apply tr_at_parent.
  - by apply tr_at_parent.
  - by apply tr_at_parent.
  - by apply tr_at_parent.
  - apply tr_readlink.
  - apply tr_rename.
  - apply tr_link.
  - apply tr_sync.
  - apply tr_mount.
  - apply tr_unmount.
  - apply tr_unmountall.
Qed.

Lemma tr_session cs files : Forall (fun v => v <> 0) files -> tr 0 files files (session cs files) holds.
Proof.
  revert files. induction cs as [|c cs IH]; intros files Hf; cbn; [by apply tr_ret|].
  eapply tr_bind; [by apply tr_client|]. intros fs ? ? ? (-> & -> & -> & Hfs). by apply IH.
Qed.

End vfs_refs.

(** ** A file system in memory

    One directory, the vnode 1, with the files that have been created in it. *)
Module RamFs.

Record t := mk { files : list (list Z * positive); next : positive; volname : option (list Z); room : bool }.

Definition find (w : t) (name : list Z) : option positive :=
  snd <$> head (List.filter (fun e => same e.1 name) (files w)).

Definition ok (v : positive) (name : list Z) : reply := mk_reply 0 (Zpos v) name.
Definition err (e : Z) : reply := mk_reply e 0 [].

Definition call (q : fsreq) (w : t) : reply * t :=
  match q with
  | GetType vn => (mk_reply 0 (if vn =? 1 then S_IFDIR else 4096) [], w)
  | Creat _ name excl _ =>
      match find w name with
      | Some v => (if excl then err EEXIST else ok v [], w)
      | None => (ok (next w) [], mk ((name, next w) :: files w) (Pos.succ (next w)) (volname w) (room w))
      end
  | Lookup _ name => (match find w name with Some v => ok v [] | None => err ENOENT end, w)
  | Lookparent _ path _ => (ok 1 path, w)
  | Remove _ name => (err 0, mk (List.filter (fun e => negb (same e.1 name)) (files w)) (next w) (volname w) (room w))
  | FsGetroot _ | MountFunc _ => (ok 1 [], w)
  | Open _ _ | Close _ | Reclaim _ | Truncate _ _ | NameFile _ | FsSync _ | FsUnmount _ => (err 0, w)
  | _ => (err EINVAL, w)
  end.

#[refine, global] Instance ramfs : FileSystems t := {
  call := call;
  vn_fs vn := if vn <? 1000 then 1 else 0;
  fs_getvolname _ w := volname w;
  uiomove _ w := (0, w);
  array_grows _ w := (room w, w)
}.
Proof.
  - intros q w Hq. destruct q; cbn; try done; try (by destruct Hq as [?|[? ?]]); destruct (find w _) as [v|]; try done.
    by destruct excl.
  - done.
  - intros vn w _. cbn. destruct (Z.eqb_spec vn 1) as [->|]; done.
  - done.
Defined.

(** A disk with a file system on it. *)
Definition lhd0 : list Z := [108; 104; 100; 48].
Definition disk : knowndev := mk_kd 3000 (3020, lhd0) (Some (3040, lhd0 ++ [114; 97; 119])) 3060 3080 1.
Definition start (w : t) : vst t RefHeap.t :=
  mk_vst [disk] 0 0 0 (fun v => ind 3080 v) (fun _ => 0) (fun _ => 0) (RefHeap.init 1000) w.

End RamFs.

(** What a client's call sequence leaves: its open files, and the references to
    the root directory and to the first file. *)
Definition after (cs : list client) : option (list Z * Z * Z) :=
  match session cs [] (RamFs.start (RamFs.mk [] 2 None true)) with
  | Ret (files, s) => Some (files, vn_refcount s 1, vn_refcount s 2)
  | _ => None
  end.

