(* ===== verification/VfsNames.v ===== *)
(** * The names of devices and file systems

    What a device name stands for: the table of devices (kern/vfs/vfslist.c) as a
    map from names to roots of file systems and device vnodes, how adding a device
    keeps it one, and where it does not stay one. *)

From Stdlib Require Import ZArith Lia.
From stdpp Require Import base numbers list gmap functions.
From S2P Require Import Prelude CLib Heap Vfs VfsSpec.

Section names.
Context {W H : Type} `{!FileSystems W} `{!KHeap H}.
Implicit Types (s : vst W H) (w : W) (kd : knowndev) (n : list Z).

(** ** Names *)

Definition volname_of w kd : option (list Z) := if kd_fs kd =? 0 then None else fs_getvolname (kd_fs kd) w.

(** The names of a device: its own, that of the raw device, and that of the volume
    in it. *)
Definition names w kd : list (list Z) :=
  (kd_name kd).2 :: option_list (snd <$> kd_rawname kd) ++ option_list (volname_of w kd).

(** No name belongs to two devices. *)
Definition unambiguous w (devs : list knowndev) : Prop :=
  forall i j kd1 kd2 n, devs !! i = Some kd1 -> devs !! j = Some kd2 -> n ∈ names w kd1 -> n ∈ names w kd2 -> i = j.

(** What a name of a device stands for: the root of the file system on it, the
    device itself, or nothing until a file system is mounted. *)
Inductive target := Root (fs : Z) | Device (vn : Z) | NotMounted.

Definition target_of w kd n : option target :=
  if same (kd_name kd).2 n then
    Some (if negb (kd_fs kd =? 0) then Root (kd_fs kd)
          else match kd_rawname kd with Some _ => NotMounted | None => Device (kd_vnode kd) end)
  else if bool_decide (volname_of w kd = Some n) then Some (Root (kd_fs kd))
  else if bool_decide (snd <$> kd_rawname kd = Some n) then Some (Device (kd_vnode kd))
  else None.

Definition deliver (t : target) : M (vst W H) (Z * Z) := fun s =>
  match t with
  | Root fs =>
      let '(r, w) := call (FsGetroot fs) (world s) in
      Ret ((0, r_value r), set_refs (set_world s w) (<[r_value r := vn_refcount s (r_value r) + 1]> (vn_refcount s)))
  | Device vn => Ret ((0, vn), set_refs s (<[vn := vn_refcount s vn + 1]> (vn_refcount s)))
  | NotMounted => Ret ((ENXIO, 0), s)
  end.

Lemma option_list_elem {A} (x : A) o : x ∈ option_list o <-> o = Some x.
Proof. destruct o; cbn; [rewrite list_elem_of_singleton|]; split; intros; simplify_eq; try done. by apply not_elem_of_nil in H0. Qed.

Lemma target_names w kd n : is_Some (target_of w kd n) <-> n ∈ names w kd.
Proof.
  unfold target_of, names, same. rewrite elem_of_cons, elem_of_app, !option_list_elem.
  repeat case_bool_decide; split; try (intros; eauto; naive_solver).
Qed.

(** ** Looking up a name *)

Lemma deliver_root fs s : (let* r := fs_call (FsGetroot fs) in ret (0, r_value r)) s = deliver (Root fs) s.
Proof.
  unfold bind, fs_call, deliver. pose proof (getroot_result fs (world s)) as E.
  destruct (call (FsGetroot fs) (world s)) as [r w]. cbn in *. by rewrite E.
Qed.

Lemma deliver_device vn s : vn <> 0 -> 0 <= vfs_biglock_depth s ->
  (do* vnode_incref vn in ret (0, vn)) s = deliver (Device vn) s.
Proof. intros. unfold bind. by rewrite incref_run. Qed.

(** The loop takes the first device that has the name. *)
Lemma getroot_loop_step kd devs n s :
  kd_ok kd -> 0 <= vfs_biglock_depth s ->
  getroot_loop (kd :: devs) n s =
    match target_of (world s) kd n with Some t => deliver t s | None => getroot_loop devs n s end.
Proof.
  intros [Hv Hdev] Hd. cbn [getroot_loop]. unfold target_of, volname_of.
  assert (Hnz : forall b, b <> 0 -> negb (b =? 0) = true) by (intros; by apply negb_true_iff, Z.eqb_neq).
  destruct (Z.eqb_spec (kd_fs kd) 0) as [Hz|Hz]; cbn [negb].
  - destruct (kd_rawname kd) as [raw|] eqn:Er; unfold same.
    + assert (kd_device kd <> 0) by (apply Hdev; by left). cbn [fmap option_fmap option_map].
      repeat case_bool_decide; simplify_eq; try done. rewrite kassert_run by auto. by apply deliver_device.
    + assert (kd_device kd <> 0) by (apply Hdev; by right).
      repeat case_bool_decide; simplify_eq; try done. rewrite !kassert_run by auto. by apply deliver_device.
  - unfold getvolname, gets. unfold bind at 1. unfold same.
    destruct (bool_decide ((kd_name kd).2 = n)); cbn [orb]; [apply deliver_root|].
    destruct (fs_getvolname (kd_fs kd) (world s)) as [v|].
    + destruct (decide (v = n)) as [->|Hn]; [rewrite !bool_decide_eq_true_2 by done; apply deliver_root|].
      rewrite (bool_decide_eq_false_2 (v = n)), (bool_decide_eq_false_2 (Some v = Some n)) by congruence.
      destruct (kd_rawname kd) as [raw|] eqn:Er; cbn; [|done]. assert (kd_device kd <> 0) by (apply Hdev; by left).
      repeat case_bool_decide; simplify_eq; try done. rewrite kassert_run by auto. by apply deliver_device.
    + destruct (kd_rawname kd) as [raw|] eqn:Er; cbn; [|done]. assert (kd_device kd <> 0) by (apply Hdev; by left).
      repeat case_bool_decide; simplify_eq; try done. rewrite kassert_run by auto. by apply deliver_device.
Qed.

Lemma getroot_none devs n s :
  Forall kd_ok devs -> 0 <= vfs_biglock_depth s -> (forall kd, kd ∈ devs -> n ∉ names (world s) kd) ->
  getroot_loop devs n s = Ret ((ENODEV, 0), s).
Proof.
  intros Hok Hd. induction Hok as [|kd devs Hkd Hok IH]; intros Hn; [done|]. rewrite getroot_loop_step by done.
  destruct (target_of (world s) kd n) eqn:Et.
  - destruct (Hn kd); [left|]. apply target_names. by eexists.
  - apply IH. intros kd' Hk. apply Hn. by right.
Qed.

Lemma getroot_first devs n s i kd t :
  Forall kd_ok devs -> 0 <= vfs_biglock_depth s -> devs !! i = Some kd -> target_of (world s) kd n = Some t ->
  (forall j kd', devs !! j = Some kd' -> n ∈ names (world s) kd' -> i = j) ->
  getroot_loop devs n s = deliver t s.
Proof.
  intros Hok Hd. revert i. induction Hok as [|kd' devs Hkd Hok IH]; intros i Hi Ht Hu; [done|].
  rewrite getroot_loop_step by done. destruct i as [|i]; [injection Hi as <-; by rewrite Ht|].
  destruct (target_of (world s) kd' n) eqn:Et.
  - discriminate (Hu 0%nat kd'); [done|]. apply target_names. by eexists.
  - apply (IH i); [done..|]. intros j kd2 Hj Hk. by injection (Hu (S j) kd2 Hj Hk).
Qed.

Lemma vfs_getroot_run n s : 0 < vfs_biglock_depth s -> vfs_getroot n s = getroot_loop (knowndevs s) n s.
Proof.
  intros Hd. unfold vfs_getroot, assert_biglock, vfs_biglock_do_i_hold, gets, kassert, bind.
  by rewrite (proj2 (Z.ltb_lt 0 _)).
Qed.

(** C34. The table of devices is a map of names.  Where no name belongs to two
    devices, [vfs_getroot] gives for each name of a device what the name stands for,
    wherever the device is in the table: the root of the mounted file system for its
    device name and its volume name, the device itself for a raw name and for
    a device that takes no file system, each with a new reference, and [ENXIO] for
    a device that has no file system yet; other names are [ENODEV]. *)
Theorem vfs_getroot_resolves n s :
  0 < vfs_biglock_depth s -> Forall kd_ok (knowndevs s) -> unambiguous (world s) (knowndevs s) ->
  (forall i kd t, knowndevs s !! i = Some kd -> target_of (world s) kd n = Some t -> vfs_getroot n s = deliver t s) /\
  ((forall kd, kd ∈ knowndevs s -> n ∉ names (world s) kd) -> vfs_getroot n s = Ret ((ENODEV, 0), s)).
Proof.
  intros Hd Hok Hu. rewrite vfs_getroot_run by done. split.
  - intros i kd t Hi Ht. apply (getroot_first _ _ _ i kd); try done; [lia|]. intros j kd' Hj Hk.
    eapply Hu; [exact Hi|exact Hj| |exact Hk]. apply target_names. by eexists.
  - apply getroot_none; [done|lia].
Qed.

(** ** Adding a device *)

Lemma kmalloc_new h s bs sz :
  has_new h (kheap s) bs -> 0 <= sz <= heap_max ->
  exists p h', on_heap (kmalloc sz) s = Ret (p, set_kheap s h') /\
    ((p = 0 /\ has_new h h' bs) \/ (0 < p /\ has_new h h' ((p, sz) :: bs))).
Proof.
  intros Hn Hsz. destruct (kmalloc_has_new h (kheap s) bs sz Hn Hsz) as (p & h' & E & R).
  exists p, h'. unfold on_heap. by rewrite E.
Qed.

(** One of the frees at [nomem]. *)
Definition ptr (p : Z) : list Z := if p =? 0 then [] else [p].

Lemma free_new h s bs p rest :
  has_new h (kheap s) bs -> bs.*1 ≡ₚ ptr p ++ rest ->
  exists h' bs', (if negb (p =? 0) then on_heap (kfree p) else ret tt) s = Ret (tt, set_kheap s h') /\ has_new h h' bs' /\
    bs'.*1 ≡ₚ rest.
Proof.
  intros Hn Hp. unfold ptr in Hp. destruct (Z.eqb_spec p 0) as [->|Hz]; cbn [negb].
  - exists (kheap s), bs. split; [by destruct s|]. done.
  - assert (Hin : p ∈ bs.*1) by (rewrite Hp; left). apply list_elem_of_fmap in Hin as ([p' sz] & -> & Hin).
    apply elem_of_Permutation in Hin as [bs' Hperm].
    destruct (kfree_has_new h (kheap s) p' sz bs' (has_new_perm _ _ _ _ Hperm Hn)) as (h' & E & Hn').
    exists h', bs'. unfold on_heap. cbn [fst]. rewrite E. split_and!; [done|done|].
    rewrite Hperm in Hp. cbn in Hp. by apply Permutation_cons_inv in Hp.
Qed.

Lemma nomem_frees h s bs name raw vnode (kd : Z) :
  has_new h (kheap s) bs -> bs.*1 ≡ₚ ptr name ++ ptr raw ++ ptr vnode ++ ptr kd ++ [] -> 0 < vfs_biglock_depth s ->
  exists h', nomem name raw vnode kd s = Ret (ENOMEM, set_depth (set_kheap s h') (vfs_biglock_depth s - 1)) /\
    heap_ok h' /\ live h' = live h.
Proof.
  intros Hn Hp Hd. unfold nomem.
  destruct (free_new _ _ _ _ _ Hn Hp) as (h1 & bs1 & E1 & Hn1 & Hp1). rewrite (bind_ok _ _ _ _ _ E1).
  destruct (free_new _ (set_kheap s h1) _ _ _ Hn1 Hp1) as (h2 & bs2 & E2 & Hn2 & Hp2). rewrite (bind_ok _ _ _ _ _ E2).
  destruct (free_new _ (set_kheap s h2) _ _ _ Hn2 Hp2) as (h3 & bs3 & E3 & Hn3 & Hp3). rewrite (bind_ok _ _ _ _ _ E3).
  destruct (free_new _ (set_kheap s h3) _ _ _ Hn3 Hp3) as (h4 & bs4 & E4 & Hn4 & Hp4). rewrite (bind_ok _ _ _ _ _ E4).
  rewrite (release_result _ _ (vfs_biglock_depth s - 1)) by (cbn; lia). exists h4. split; [done|].
  destruct Hn4 as (Hok & Hl & _ & _). split; [done|].
  apply Permutation_nil_r, fmap_nil_inv in Hp4. by rewrite Hl, Hp4.
Qed.

(** ** Clashes of names *)

Lemma samestring3_spec a b c d :
  samestring3 a b c d = true <-> exists n, a = Some n /\ (b = Some n \/ c = Some n \/ d = Some n).
Proof.
  unfold samestring3, samestring, same. destruct a as [a|]; [|split; [done|intros (? & ? & _); done]].
  rewrite !orb_true_iff. split.
  - intros [[Hb|Hc]|Hd]; exists a; (split; [done|]).
    + left. destruct b; [|done]. apply bool_decide_eq_true in Hb. by subst.
    + right; left. destruct c; [|done]. apply bool_decide_eq_true in Hc. by subst.
    + right; right. destruct d; [|done]. apply bool_decide_eq_true in Hd. by subst.
  - intros (n & E & [-> | [-> | ->]]); injection E as <-; rewrite ?(bool_decide_eq_true_2 (a = a)) by done; auto.
Qed.

Lemma badname_spec w kd kd' :
  badname (Some (kd_name kd).2) (snd <$> kd_rawname kd) (volname_of w kd) w kd' = true <->
  exists n, n ∈ names w kd /\ n ∈ names w kd'.
Proof.
  assert (Hn : forall n, n ∈ names w kd <-> Some (kd_name kd).2 = Some n \/ snd <$> kd_rawname kd = Some n \/ volname_of w kd = Some n).
  { intros n. unfold names. rewrite elem_of_cons, elem_of_app, !option_list_elem. naive_solver. }
  unfold badname. rewrite !orb_true_iff, andb_true_iff, !samestring3_spec, negb_true_iff. setoid_rewrite <- Hn. split.
  - intros [[(Hz & n & E & Hk)|(n & E & Hk)]|(n & E & Hk)]; exists n; (split; [done|]);
      unfold names; rewrite elem_of_cons, elem_of_app, !option_list_elem.
    + right; right. unfold volname_of. by rewrite Hz.
    + auto.
    + left. congruence.
  - intros (n & Hk & Hk'). unfold names in Hk'. rewrite elem_of_cons, elem_of_app, !option_list_elem in Hk'.
    destruct Hk' as [->|[E|E]]; [right; eauto|left; right; eauto|]. left; left. unfold volname_of in E.
    destruct (kd_fs kd' =? 0); [done|eauto].
Qed.

Lemma unambiguous_add w devs kd :
  unambiguous w devs -> existsb (badname (Some (kd_name kd).2) (snd <$> kd_rawname kd) (volname_of w kd) w) devs = false ->
  unambiguous w (devs ++ [kd]).
Proof.
  intros Hu Hb i j kd1 kd2 n Hi Hj H1 H2.
  assert (Hno : forall k kd', devs !! k = Some kd' -> n ∈ names w kd -> n ∉ names w kd').
  { intros k kd' Hk Hn Hn'. apply not_true_iff_false in Hb. apply Hb, existsb_exists. exists kd'.
    split; [by eapply list_elem_of_In, list_elem_of_lookup_2|]. apply badname_spec. eauto. }
  apply lookup_app_Some in Hi as [Hi|[Hli Hi]]; apply lookup_app_Some in Hj as [Hj|[Hlj Hj]].
  - by eapply Hu.
  - apply list_lookup_singleton_Some in Hj as [_ <-]. by destruct (Hno _ _ Hi H2).
  - apply list_lookup_singleton_Some in Hi as [_ <-]. by destruct (Hno _ _ Hj H1).
  - apply list_lookup_singleton_Some in Hi as [? _]. apply list_lookup_singleton_Some in Hj as [? _]. lia.
Qed.

Lemma names_world w w' kd : (forall fs, fs_getvolname fs w' = fs_getvolname fs w) -> names w' kd = names w kd.
Proof. intros E. unfold names, volname_of. by rewrite E. Qed.

(** The blocks of a device's entry. *)
Definition dev_blocks kd : list (Z * Z) :=
  (kd_addr kd, sizeof_knowndev) :: (kd_vnode kd, sizeof_vnode) ::
  match kd_rawname kd with Some raw => [(raw.1, zlength (kd_name kd).2 + 3 + 1)] | None => [] end ++
  [((kd_name kd).1, zlength (kd_name kd).2 + 1)].

Definition is_entry kd (dname : list Z) (mountable : bool) (dev fs : Z) : Prop :=
  (kd_name kd).2 = dname /\ snd <$> kd_rawname kd = (if mountable then Some (dname ++ [114; 97; 119]) else None) /\
  kd_device kd = dev /\ kd_fs kd = fs.

(** What comes after the last allocation. *)
Definition added (dname : list Z) (mountable : bool) (dev fs : Z) s (r : Z) (s' : vst W H) : Prop :=
  vfs_biglock_depth s' = vfs_biglock_depth s /\
  ((r = ENOMEM /\ knowndevs s' = knowndevs s /\ heap_ok (kheap s') /\ live (kheap s') = live (kheap s)) \/
   exists kd, is_entry kd dname mountable dev fs /\ has_new (kheap s) (kheap s') (dev_blocks kd) /\
     vn_refcount s' (kd_vnode kd) = 1 /\ vn_opencount s' (kd_vnode kd) = 0 /\
     ((r = 0 /\ knowndevs s' = knowndevs s ++ [kd] /\ (dev <> 0 -> d_devnumber s' dev = zlength (knowndevs s) + 1) /\
       (unambiguous (world s) (knowndevs s) -> unambiguous (world s') (knowndevs s'))) \/
      (knowndevs s' = knowndevs s /\
       ((r = EEXIST /\ exists kd' n, kd' ∈ knowndevs s /\ n ∈ names (world s) kd /\ n ∈ names (world s) kd') \/
        (r = ENOMEM /\ (array_grows (zlength (knowndevs s)) (world s)).1 = false))))).

Lemma doadd_tail kd dname mountable dev fs s s1 :
  0 <= vfs_biglock_depth s -> is_entry kd dname mountable dev fs -> has_new (kheap s) (kheap s1) (dev_blocks kd) ->
  vn_refcount s1 (kd_vnode kd) = 1 -> vn_opencount s1 (kd_vnode kd) = 0 ->
  knowndevs s1 = knowndevs s -> world s1 = world s -> vfs_biglock_depth s1 = vfs_biglock_depth s + 1 ->
  exists r s', (let* volname := if negb (fs =? 0) then getvolname fs else ret None in
    let* bad := badnames (Some (kd_name kd).2) (snd <$> kd_rawname kd) volname in
    if bad then do* vfs_biglock_release in ret EEXIST
    else
      let* r := knowndevarray_add kd in
      do* (if (r.1 =? 0) && negb (dev =? 0) then
             modify (fun s => set_devnumber s (<[dev := r.2 + 1]> (d_devnumber s)))
           else ret tt) in
      do* vfs_biglock_release in
      ret r.1) s1 = Ret (r, s') /\ added dname mountable dev fs s r s'.
Proof.
  intros Hd (H1 & H2 & H3 & H4) Hnew Hr Ho Hdevs Hw Hd1.
  assert (Ev : (if negb (fs =? 0) then getvolname fs else ret None) s1 = Ret (volname_of (world s) kd, s1)).
  { unfold volname_of, getvolname, gets. rewrite H4. destruct (fs =? 0); cbn; [done|]. by rewrite Hw. }
  rewrite (bind_ok _ _ _ _ _ Ev).
  assert (Eb : badnames (Some (kd_name kd).2) (snd <$> kd_rawname kd) (volname_of (world s) kd) s1 =
    Ret (existsb (badname (Some (kd_name kd).2) (snd <$> kd_rawname kd) (volname_of (world s) kd) (world s)) (knowndevs s), s1)).
  { unfold badnames, assert_biglock, vfs_biglock_do_i_hold, gets, kassert, bind. rewrite (proj2 (Z.ltb_lt 0 _)) by lia.
    unfold ret. by rewrite Hw, Hdevs. }
  rewrite (bind_ok _ _ _ _ _ Eb). destruct (existsb _ _) eqn:Ebad.
  - rewrite (release_result _ _ (vfs_biglock_depth s)) by lia. do 2 eexists. split; [done|]. split; [done|]. right. exists kd.
    split_and!; try done. right. split; [done|]. left. split; [done|].
    apply existsb_exists in Ebad as (kd' & Hin & Hb). apply badname_spec in Hb as (n & Hn & Hn').
    exists kd', n. by rewrite list_elem_of_In.
  - unfold bind at 1, knowndevarray_add. rewrite Hdevs, Hw.
    pose proof (grows_volname (zlength (knowndevs s))) as Hg.
    destruct (array_grows (zlength (knowndevs s)) (world s)) as [[|] w] eqn:Eg.
    + cbn [fst snd]. change (0 =? 0) with true. cbn [andb].
      assert (Hu : unambiguous (world s) (knowndevs s) -> unambiguous w (knowndevs s ++ [kd])).
      { intros Hu i j kd1 kd2 n Hi Hj. assert (Hgw : forall fs, fs_getvolname fs w = fs_getvolname fs (world s))
          by (intros fs'; specialize (Hg fs' (world s)); by rewrite Eg in Hg).
        rewrite !(names_world (world s) w) by done. by eapply (unambiguous_add (world s)). }
      destruct (Z.eqb_spec dev 0) as [Hz|Hz]; cbn [negb].
      * unfold bind at 1, ret at 1. rewrite (release_result _ _ (vfs_biglock_depth s)) by (cbn; lia). do 2 eexists.
        split; [done|]. split; [done|]. right. exists kd. split_and!; try done. left.
        cbn. rewrite Hdevs. split_and!; [done|done|lia|done].
      * unfold bind at 1, modify. rewrite (release_result _ _ (vfs_biglock_depth s)) by (cbn; lia). do 2 eexists.
        split; [done|]. split; [done|]. right. exists kd. split_and!; try done. left.
        cbn. rewrite Hdevs, fn_lookup_insert. done.
    + cbn [fst snd]. change (ENOMEM =? 0) with false. cbn [andb]. unfold bind at 1, ret at 1.
      rewrite (release_result _ _ (vfs_biglock_depth s)) by (cbn; lia). do 2 eexists.
      split; [done|]. split; [done|]. right. exists kd. split_and!; try done. right. split; [done|]. right. by rewrite Eg.
Qed.

Definition raw_ptr (rawname : option str) : Z := match rawname with Some r => r.1 | None => 0 end.

Lemma raw_step h s name (mountable : bool) bs :
  has_new h (kheap s) bs -> zlength name + 4 <= heap_max ->
  exists rawname h', (if mountable then let* r := mkrawname name in ret (Some r) else ret None) s = Ret (rawname, set_kheap s h') /\
    ((mountable = true /\ raw_ptr rawname = 0 /\ has_new h h' bs) \/
     (mountable && (raw_ptr rawname =? 0) = false /\
      snd <$> rawname = (if mountable then Some (name ++ [114; 97; 119]) else None) /\
      has_new h h' (match rawname with Some raw => [(raw.1, zlength name + 3 + 1)] | None => [] end ++ bs) /\
      match rawname with Some raw => [raw.1] | None => [] end = ptr (raw_ptr rawname))).
Proof.
  intros Hn Hlen. pose proof (zlength_nonneg name). destruct mountable.
  - unfold mkrawname. destruct (kmalloc_new h s bs (zlength name + 3 + 1) Hn ltac:(lia)) as (p & h' & E & Hp).
    exists (Some (p, name ++ [114; 97; 119])), h'. unfold bind. rewrite E. split; [done|]. cbn [raw_ptr fst].
    destruct Hp as [[-> Hp]|[Hpos Hp]]; [by left|]. right. unfold ptr. by rewrite (proj2 (Z.eqb_neq p 0)) by lia.
  - exists None, (kheap s). split; [by destruct s|]. right. done.
Qed.

Lemma create_vnode_step h s bs :
  has_new h (kheap s) bs ->
  (exists h', dev_create_vnode s = Ret (0, set_kheap s h') /\ has_new h h' bs) \/
  (exists v h', 0 < v /\ dev_create_vnode s = Ret (v, set_opens (set_refs (set_kheap s h') (<[v := 1]> (vn_refcount s))) (<[v := 0]> (vn_opencount s))) /\
     has_new h h' ((v, sizeof_vnode) :: bs)).
Proof.
  intros Hn. unfold dev_create_vnode.
  destruct (kmalloc_new h s bs sizeof_vnode Hn ltac:(done)) as (v & h' & E & [[-> Hv]|[Hpos Hv]]).
  - left. exists h'. by rewrite (bind_ok _ _ _ _ _ E).
  - right. exists v, h'. rewrite (bind_ok _ _ _ _ _ E), (proj2 (Z.eqb_neq v 0)) by lia. done.
Qed.

(** Adding a device ends in one of four ways, each time with the big lock as it was.
    Memory runs out: nothing has changed, and all that had been allocated is
    free again.  The device is added: its entry is at the end of the table with its
    names and a vnode with one reference, the device knows its number, and no name
    belongs to two devices if none did before.  One of its names is taken: [EEXIST],
    the table is as it was.  The table cannot grow: [ENOMEM], the table is as it was.
    In the last two the blocks of the new entry stay allocated. *)
Theorem vfs_doadd_outcomes dname mountable dev fs s :
  heap_ok (kheap s) -> 0 <= vfs_biglock_depth s -> zlength dname + 4 <= heap_max ->
  exists r s', vfs_doadd dname mountable dev fs s = Ret (r, s') /\ added dname mountable dev fs s r s'.
Proof.
  intros Hok Hd Hlen. pose proof (zlength_nonneg dname). unfold vfs_doadd, vfs_biglock_acquire, modify. unfold bind at 1.
  set (s0 := set_depth s (vfs_biglock_depth s + 1)).
  assert (Hn0 : has_new (kheap s) (kheap s0) []) by (split_and!; [done|done|apply base.NoDup_nil_2|done]).
  assert (Hend : forall s1 bs name raw vnode (kd : Z), has_new (kheap s) (kheap s1) bs ->
    bs.*1 ≡ₚ ptr name ++ ptr raw ++ ptr vnode ++ ptr kd ++ [] -> vfs_biglock_depth s1 = vfs_biglock_depth s + 1 ->
    knowndevs s1 = knowndevs s -> exists r s', nomem name raw vnode kd s1 = Ret (r, s') /\ added dname mountable dev fs s r s').
  { intros s1 bs name raw vnode kd Hn Hp Hd1 Hk. destruct (nomem_frees _ _ _ _ _ _ _ Hn Hp) as (h' & E & Hok' & Hl); [lia|].
    do 2 eexists. split; [exact E|]. split; [cbn; lia|]. by left. }
  destruct (kmalloc_new _ s0 [] (zlength dname + 1) Hn0 ltac:(lia)) as (p & h1 & E1 & Hn1).
  assert (Es : kstrdup dname s0 = Ret ((p, dname), set_kheap s0 h1)) by (unfold kstrdup; by rewrite (bind_ok _ _ _ _ _ E1)).
  rewrite (bind_ok _ _ _ _ _ Es).
  cbn [fst snd]. destruct Hn1 as [[-> Hn1]|[Hp Hn1]]; [by eapply (Hend (set_kheap s0 h1) [])|].
  assert (Ept : forall q, 0 < q -> ptr q = [q]) by (intros q Hq; unfold ptr; by rewrite (proj2 (Z.eqb_neq q 0)) by lia).
  rewrite (proj2 (Z.eqb_neq p 0)) by lia.
  destruct (raw_step _ (set_kheap s0 h1) dname mountable _ Hn1 Hlen) as (rawname & h2 & E2 & Hn2).
  rewrite (bind_ok _ _ _ _ _ E2). fold (raw_ptr rawname).
  destruct Hn2 as [(-> & Hr & Hn2)|(Hr & Eraw & Hn2 & Er)].
  { rewrite Hr. cbn [andb Z.eqb]. eapply (Hend (set_kheap s0 h2)); [exact Hn2| |done|done]. cbn. by rewrite Ept. }
  rewrite Hr. match type of Hn2 with has_new _ _ ?b => set (bs2 := b) in * end.
  assert (Hb2 : bs2.*1 = ptr (raw_ptr rawname) ++ ptr p).
  { unfold bs2. rewrite fmap_app, <- Er. cbn. rewrite Ept by done. by destruct rawname. }
  destruct (create_vnode_step _ (set_kheap s0 h2) _ Hn2) as [(h3 & E3 & Hn3)|(v & h3 & Hv & E3 & Hn3)];
    rewrite (bind_ok _ _ _ _ _ E3).
  { eapply (Hend (set_kheap s0 h3)); [exact Hn3| |done|done]. rewrite Hb2. cbn. rewrite app_nil_r. apply Permutation_app_comm. }
  rewrite (proj2 (Z.eqb_neq v 0)) by lia. match goal with |- context [bind (on_heap _) _ ?st] => set (s3 := st) end.
  destruct (kmalloc_new _ s3 _ sizeof_knowndev Hn3 ltac:(done)) as (k & h4 & E4 & Hn4). rewrite (bind_ok _ _ _ _ _ E4).
  destruct Hn4 as [[-> Hn4]|[Hk Hn4]].
  { eapply (Hend (set_kheap s3 h4)); [exact Hn4| |done|done]. cbn [fmap list_fmap fst]. rewrite Hb2, (Ept v) by done. solve_Permutation. }
  rewrite (proj2 (Z.eqb_neq k 0)) by lia. cbv zeta.
  apply (doadd_tail (mk_kd k (p, dname) rawname dev v fs) _ _ _ _ s (set_kheap s3 h4)); try done;
    cbn; by rewrite fn_lookup_insert.
Qed.

(** ** The name of the boot file system *)

Lemma index_of_bound l ch i : ch <> 0 -> index_of l ch = Some i -> 0 <= i < zlength l.
Proof.
  intros Hz. revert i. induction l as [|c l IH]; intros i; cbn [index_of].
  - by rewrite (proj2 (Z.eqb_neq ch 0)).
  - rewrite zlength_cons. pose proof (zlength_nonneg l). destruct (c =? ch); [intros [= <-]; lia|].
    destruct (index_of l ch) as [j|]; [|done]. intros [= <-]. specialize (IH j eq_refl). lia.
Qed.

Lemma index_of_in l ch : ch ∈ l -> is_Some (index_of l ch).
Proof.
  induction 1 as [ch l|ch c l _ IH]; cbn [index_of]; [rewrite Z.eqb_refl; eauto|].
  destruct (c =? ch); [eauto|]. destruct IH as [j ->]. cbn. eauto.
Qed.

(** A colon anywhere in the name of the boot file system is refused, also the one at
    the end that the interface allows. *)
Theorem vfs_setbootfs_colon name s :
  0 <= vfs_biglock_depth s -> ch_colon ∈ take 254 name -> vfs_setbootfs name s = Ret (EINVAL, s).
Proof.
  intros Hd Hin. unfold vfs_setbootfs, vfs_biglock_acquire, modify. unfold bind at 1.
  change (Z.to_nat (NAME_MAX + 1 - 1 - 1)) with 254%nat. cbv zeta.
  destruct (index_of_in _ _ Hin) as [i E]. rewrite E. destruct (index_of_bound _ ch_colon i ltac:(done) E) as [H1 H2].
  unfold zlength in *. rewrite (proj2 (Z.ltb_lt 0 _)) by (rewrite length_drop; lia).
  rewrite (release_result _ _ (vfs_biglock_depth s)) by (cbn; lia). by destruct s.
Qed.
End names.

(** ** Examples *)

Section examples.
Import RamFs.

Definition lhd1 : list Z := [108; 104; 100; 49].
Definition disk1 : knowndev := mk_kd 4000 (4020, lhd1) (Some (4040, lhd1 ++ [114; 97; 119])) 4060 4080 0.
Definition two_disks (w : t) : vst t RefHeap.t :=
  mk_vst [disk; disk1] 1 0 0 (fun v => ind 3080 v + ind 4080 v) (fun _ => 0) (fun _ => 0) (RefHeap.init 1000) w.

Lemma vfs_getroot_resolves_witness :
  let s := two_disks (mk [] 2 (Some [118]) true) in
  vfs_getroot [118] s = deliver (Root 1) s /\ vfs_getroot lhd1 s = deliver NotMounted s /\
  vfs_getroot [99] s = Ret ((ENODEV, 0), s).
Proof.
  intros s. assert (Hok : Forall kd_ok (knowndevs s)) by (repeat constructor; done).
  assert (Hu : unambiguous (world s) (knowndevs s)).
  { apply (unambiguous_add _ [disk] disk1); [|vm_compute; reflexivity].
    apply (unambiguous_add _ [] disk); [by intros [|i]|vm_compute; reflexivity]. }
  pose proof (fun n => vfs_getroot_resolves n s eq_refl Hok Hu) as Ht. split_and!.
  - apply (proj1 (Ht [118]) 0%nat disk); vm_compute; reflexivity.
  - apply (proj1 (Ht lhd1) 1%nat disk1); vm_compute; reflexivity.
  - apply (proj2 (Ht [99])). intros kd Hk. unfold s in Hk. cbn [two_disks knowndevs] in Hk.
    rewrite !elem_of_cons in Hk. rewrite <- target_names. intros [t Ht']. destruct Hk as [->|[->|Hk]]; [by vm_compute in Ht'..|].
    by apply not_elem_of_nil in Hk.
Defined.

Lemma vfs_doadd_outcomes_witness :
  let s := start (mk [] 2 None true) in
  exists r s', vfs_doadd lhd1 true 4060 0 s = Ret (r, s') /\ added lhd1 true 4060 0 s r s'.
Proof.
  intros s. apply (vfs_doadd_outcomes lhd1 true 4060 0 s); [apply RefHeap.init_ok|by vm_compute|by vm_compute].
Defined.

(** What is left of the second of two calls with the same name: [EEXIST], one more
    entry in the table than at the start, and the blocks of two. *)
Lemma doadd_twice_leaks :
  match (do* vfs_doadd lhd1 true 4060 0 in vfs_doadd lhd1 true 4060 0) (start (mk [] 2 None true)) with
  | Ret (r, s) => r = EEXIST /\ length (knowndevs s) = 2%nat /\ size (RefHeap.blocks (kheap s)) = 8%nat
  | _ => False
  end.
Proof. vm_compute. done. Qed.

(** Mounting a volume called like another device: the name then stands for the
    volume, and the device cannot be reached by it. *)
Theorem mount_shadows_device :
  let s := mk_vst [with_fs disk 0; with_fs disk1 0; mk_kd 5000 (5020, [99]) None 5060 5080 0] 0 0 0
             (fun _ => 1) (fun _ => 0) (fun _ => 0) (RefHeap.init 1000) (mk [] 2 (Some [99]) true) : vst t RefHeap.t in
  match (let* r := vfs_mount lhd0 in do* vfs_biglock_acquire in let* v := vfs_getroot [99] in ret (r, v)) s with
  | Ret ((r, v), s') => r = 0 /\ v = (0, 1) /\ ~ unambiguous (world s') (knowndevs s')
  | _ => False
  end.
Proof.
  intros s. vm_compute. split_and!; try done. intros Hu.
  specialize (Hu 0%nat 2%nat (with_fs disk 1) (mk_kd 5000 (5020, [99]) None 5060 5080 0) [99] eq_refl eq_refl).
  discriminate Hu; [right; right; left|left].
Qed.
End examples.
