(* ===== verification/SynchCreate.v ===== *)
(** * Creating and destroying semaphores, locks and condition variables

    The [_create] and [_destroy] functions of kern/thread/synch.c with the wait
    channels of kern/thread/thread.c and [kstrdup] of kern/lib/misc.c, over any
    kernel heap.  An object is the addresses of its blocks and the state of its
    spinlock, channel and list of sleepers. *)

From stdpp Require Import base numbers list gmap.
From Stdlib Require Import ZArith Lia.
From S2P Require Import Prelude Heap.

(** ** Data *)

(** A wait channel: [0] as address is the null pointer. *)
Record wchan_obj := mk_wc { wc_addr : Z; wc_locked : bool; wc_sleepers : list Z }.

Record semaphore := mk_sem {
  sem_addr : Z; sem_name : Z; sem_wchan : wchan_obj; sem_locked : bool; sem_value : Z
}.
Record lock := mk_lock {
  lk_addr : Z; lk_name : Z; wc : wchan_obj; lk_locked : bool; lk_hold : bool; lk_owner : option Z
}.
Record cv := mk_cv { cv_addr : Z; cv_name : Z; cv_wc : wchan_obj }.

(** The sizes of the structures on the 32-bit machine. *)
Definition sizeof_wchan : Z := 40.
Definition sizeof_semaphore : Z := 20.
Definition sizeof_lock : Z := 24.
Definition sizeof_cv : Z := 8.

(** ** The functions *)
Section create.
Context {H : Type} `{KHeap H}.

Definition kstrdup (name : list Z) : M H Z := kmalloc (zlength name + 1).

Definition wchan_create : M H wchan_obj :=
  let* p := kmalloc sizeof_wchan in ret (mk_wc p false []).

Definition spinlock_cleanup (locked : bool) : M H unit := kassert (negb locked).

Definition wchan_destroy (w : wchan_obj) : M H unit :=
  if wc_addr w =? 0 then fault
  else
    do* spinlock_cleanup (wc_locked w) in
    do* kassert (bool_decide (wc_sleepers w = [])) in
    kfree (wc_addr w).

Definition sem_create (name : list Z) (initial_count : Z) : M H (option semaphore) :=
  do* kassert (0 <=? initial_count) in
  let* p := kmalloc sizeof_semaphore in
  if p =? 0 then ret None else
  let* n := kstrdup name in
  if n =? 0 then do* kfree p in ret None else
  let* w := wchan_create in
  if wc_addr w =? 0 then do* kfree n in do* kfree p in ret None else
  ret (Some (mk_sem p n w false initial_count)).

Definition sem_destroy (sem : semaphore) : M H unit :=
  do* spinlock_cleanup (sem_locked sem) in
  do* wchan_destroy (sem_wchan sem) in
  do* kfree (sem_name sem) in
  kfree (sem_addr sem).

Definition lock_create (name : list Z) : M H (option lock) :=
  let* p := kmalloc sizeof_lock in
  if p =? 0 then ret None else
  let* n := kstrdup name in
  if n =? 0 then do* kfree p in ret None else
  let* w := wchan_create in
  ret (Some (mk_lock p n w false false None)).

Definition lock_destroy (l : lock) : M H unit :=
  do* spinlock_cleanup (lk_locked l) in
  do* wchan_destroy (wc l) in
  do* kfree (lk_name l) in
  kfree (lk_addr l).

Definition cv_create (name : list Z) : M H (option cv) :=
  let* p := kmalloc sizeof_cv in
  if p =? 0 then ret None else
  let* n := kstrdup name in
  if n =? 0 then do* kfree p in ret None else
  let* w := wchan_create in
  ret (Some (mk_cv p n w)).

Definition cv_destroy (c : cv) : M H unit :=
  do* wchan_destroy (cv_wc c) in
  do* kfree (cv_name c) in
  kfree (cv_addr c).

(** ** What they do to the heap *)

(** Blocks that were not in the heap before and are all that is new. *)
Definition allocated (h h' : H) (ps : list Z) : Prop :=
  heap_ok h' /\ NoDup ps /\ Forall (fun p => p <> 0 /\ live h !! p = None /\ is_Some (live h' !! p)) ps /\
  (forall q, q ∉ ps -> live h' !! q = live h !! q).

Lemma allocated_nil h : heap_ok h -> allocated h h [].
Proof. intros. split_and!; try done. apply NoDup_nil_2. Qed.

Lemma allocated_live h h' : allocated h h' [] -> live h' = live h.
Proof. intros (_ & _ & _ & Hq). apply map_eq. intros q. apply Hq. by intros ?%elem_of_nil. Qed.

(** One more allocation, and giving back the last block. *)
Lemma kmalloc_next sz h h1 ps :
  allocated h h1 ps -> 0 <= sz <= heap_max ->
  (exists h2, kmalloc sz h1 = Ret (0, h2) /\ allocated h h2 ps) \/
  (exists p h2, kmalloc sz h1 = Ret (p, h2) /\ p <> 0 /\ allocated h h2 (p :: ps)).
Proof.
  intros (Ho & Hn & Hf & Hq) Hsz. destruct (kmalloc_cases sz h1 Ho Hsz) as
    [(h2 & E & Ho2 & L)|(p & h2 & E & Ho2 & Hp & Hnone & L)]; [left; exists h2|right; exists p, h2].
  - split; [done|]. split_and!; rewrite ?L; done.
  - pose proof (proj1 (list.Forall_forall _ _) Hf) as Hf'.
    assert (Hni : p ∉ ps) by (intros Hin; destruct (Hf' p Hin) as (_ & _ & [? Hs]); congruence).
    split; [done|]. split; [lia|]. split_and!; [done|by apply list.NoDup_cons| |].
    + apply list.Forall_cons. split.
      * rewrite L, lookup_insert_eq. split_and!; [lia| |by eauto]. rewrite <- (Hq p Hni). done.
      * apply list.Forall_forall. intros q Hin. destruct (Hf' q Hin) as (H1 & H2 & H3).
        rewrite L, lookup_insert_ne by (by intros ->). done.
    + intros q Hin. rewrite L, lookup_insert_ne by set_solver. apply Hq. set_solver.
Qed.

Lemma kfree_next h h1 p ps :
  allocated h h1 (p :: ps) -> exists h2, kfree p h1 = Ret (tt, h2) /\ allocated h h2 ps.
Proof.
  intros (Ho & [Hn1 Hn2]%list.NoDup_cons & [Hp Hf]%list.Forall_cons & Hq).
  destruct Hp as (Hp0 & Hp1 & Hp2). destruct (kfree_spec p h1 Ho Hp2) as (h2 & E & Ho2 & L).
  exists h2. split; [done|]. pose proof (proj1 (list.Forall_forall _ _) Hf) as Hf'. split_and!; try done.
  - apply list.Forall_forall. intros q Hin. destruct (Hf' q Hin) as (H1 & H2 & H3).
    rewrite L, lookup_delete_ne by (by intros ->). done.
  - intros q Hin. rewrite L. destruct (decide (q = p)) as [->|]; [by rewrite lookup_delete_eq|].
    rewrite lookup_delete_ne by done. apply Hq. set_solver.
Qed.

(** The blocks of an object are released in the order channel, name, object. *)
Lemma release_blocks h h' w n p :
  allocated h h' [wc_addr w; n; p] -> wc_locked w = false -> wc_sleepers w = [] ->
  exists h2, (do* wchan_destroy w in do* kfree n in kfree p) h' = Ret (tt, h2) /\ heap_ok h2 /\ live h2 = live h.
Proof.
  intros Ha Hl Hs. pose proof Ha as (_ & _ & [[Hw _] _]%list.Forall_cons & _).
  destruct (kfree_next h h' _ _ Ha) as (h1 & E1 & A1). destruct (kfree_next h h1 _ _ A1) as (h2 & E2 & A2).
  destruct (kfree_next h h2 _ _ A2) as (h3 & E3 & A3). exists h3. split; [|split; [apply A3|by apply allocated_live]].
  unfold wchan_destroy, spinlock_cleanup. rewrite (proj2 (Z.eqb_neq _ _)) by done. rewrite Hl, Hs.
  rewrite (bind_ok _ _ h' tt h1); [|mrun; exact E1]. by rewrite (bind_ok _ _ _ _ _ E2).
Qed.

(** The name and the channel of a new object, with its first block [p]. *)
Lemma name_and_channel h h1 p name :
  allocated h h1 [p] -> zlength name + 1 <= heap_max ->
  (exists h2, kstrdup name h1 = Ret (0, h2) /\ allocated h h2 [p]) \/
  (exists n h2, kstrdup name h1 = Ret (n, h2) /\ n <> 0 /\ allocated h h2 [n; p] /\
    exists w h3, wchan_create h2 = Ret (mk_wc w false [], h3) /\
      ((w = 0 /\ allocated h h3 [n; p]) \/ (w <> 0 /\ allocated h h3 [w; n; p]))).
Proof.
  intros Ha Hz. destruct (kmalloc_next (zlength name + 1) h h1 _ Ha) as [(h2 & E & A)|(n & h2 & E & Hn & A)];
    [unfold zlength in *; lia|by left; exists h2|right].
  exists n, h2. split_and!; try done. unfold wchan_create.
  destruct (kmalloc_next sizeof_wchan h h2 _ A) as [(h3 & E3 & A3)|(w & h3 & E3 & Hw & A3)]; [done|..];
    rewrite (bind_ok _ _ _ _ _ E3); eexists _, h3; (split; [done|]); auto.
Qed.

(** The first block and the null case, common to the three. *)
Lemma first_block sz h :
  heap_ok h -> 0 <= sz <= heap_max ->
  (exists h1, kmalloc sz h = Ret (0, h1) /\ heap_ok h1 /\ live h1 = live h) \/
  (exists p h1, kmalloc sz h = Ret (p, h1) /\ (p =? 0) = false /\ allocated h h1 [p]).
Proof.
  intros Ho Hz. destruct (kmalloc_next sz h h [] (allocated_nil h Ho) Hz) as [(h1 & E & A)|(p & h1 & E & Hp & A)].
  - left. exists h1. split_and!; [done|apply A|by apply allocated_live].
  - right. exists p, h1. split_and!; try done. by apply Z.eqb_neq.
Qed.

(** Giving the first block back after a failure. *)
Lemma give_back {A} h h1 p (r : A) :
  allocated h h1 [p] ->
  exists h2, (do* kfree p in ret r) h1 = Ret (r, h2) /\ heap_ok h2 /\ live h2 = live h.
Proof.
  intros Ha. destruct (kfree_next h h1 p [] Ha) as (h2 & E & A2). exists h2.
  rewrite (bind_ok _ _ _ _ _ E). split_and!; [done|apply A2|by apply allocated_live].
Qed.

Lemma sem_create_spec (h : H) (name : list Z) (n : Z) :
  heap_ok h -> zlength name + 1 <= heap_max -> 0 <= n -> 
  exists r h', sem_create name n h = Ret (r, h') /\
     match r with
     | None => heap_ok h' /\ live h' = live h
     | Some sem => allocated h h' [wc_addr (sem_wchan sem); sem_name sem; sem_addr sem] /\ sem_value sem = n /\
         exists h2, sem_destroy sem h' = Ret (tt, h2) /\ heap_ok h2 /\ live h2 = live h
     end.
Proof.
  intros Ho Hz Hn. unfold sem_create.
  rewrite (proj2 (Z.leb_le 0 n)) by done. mrun.
  destruct (first_block sizeof_semaphore h) as [(h1 & E1 & O1 & L1)|(p & h1 & E1 & Hp & A1)]; [done..| |];
    rewrite (bind_ok _ _ _ _ _ E1); [by exists None, h1|]. rewrite Hp.
  destruct (name_and_channel h h1 p name A1 Hz) as
    [(h2 & E2 & A2)|(m & h2 & E2 & Hm & A2 & w & h3 & E3 & Hw)]; rewrite (bind_ok _ _ _ _ _ E2).
  - change (0 =? 0) with true. destruct (give_back h h2 p (@None semaphore) A2) as (h4 & E4 & ? & ?). exists None, h4. auto.
  - rewrite (proj2 (Z.eqb_neq m 0)), (bind_ok _ _ _ _ _ E3) by done. cbn [wc_addr].
    destruct Hw as [[-> A3]|[Hw A3]].
    + change (0 =? 0) with true. destruct (kfree_next h h3 _ _ A3) as (h4 & E4 & A4). cbn iota.
      rewrite (bind_ok _ _ _ _ _ E4).
      destruct (give_back h h4 p (@None semaphore) A4) as (h5 & E5 & ? & ?). exists None, h5. auto.
    + rewrite (proj2 (Z.eqb_neq w 0)) by done. eexists _, h3. split; [done|]. split_and!; try done.
      unfold sem_destroy, spinlock_cleanup. mrun. by apply release_blocks.
Qed.

Lemma lock_create_spec (h : H) (name : list Z) :
  heap_ok h -> zlength name + 1 <= heap_max -> 
  exists r h', lock_create name h = Ret (r, h') /\
     match r with
     | None => heap_ok h' /\ live h' = live h
     | Some l => wc_addr (wc l) <> 0 -> allocated h h' [wc_addr (wc l); lk_name l; lk_addr l] /\ lk_hold l = false /\
         exists h2, lock_destroy l h' = Ret (tt, h2) /\ heap_ok h2 /\ live h2 = live h
     end.
Proof.
  intros Ho Hz. unfold lock_create.
  destruct (first_block sizeof_lock h) as [(h1 & E1 & O1 & L1)|(p & h1 & E1 & Hp & A1)]; [done..| |];
    rewrite (bind_ok _ _ _ _ _ E1); [by exists None, h1|]. rewrite Hp.
  destruct (name_and_channel h h1 p name A1 Hz) as
    [(h2 & E2 & A2)|(m & h2 & E2 & Hm & A2 & w & h3 & E3 & Hw)]; rewrite (bind_ok _ _ _ _ _ E2).
  - change (0 =? 0) with true. destruct (give_back h h2 p (@None lock) A2) as (h4 & E4 & ? & ?). exists None, h4. auto.
  - rewrite (proj2 (Z.eqb_neq m 0)), (bind_ok _ _ _ _ _ E3) by done. cbn [wc_addr].
    eexists _, h3. split; [done|]. intros Hw'. destruct Hw as [[-> A3]|[Hw A3]]; [done|]. split_and!; try done.
    unfold lock_destroy, spinlock_cleanup. mrun. by apply release_blocks.
Qed.

Lemma cv_create_spec (h : H) (name : list Z) :
  heap_ok h -> zlength name + 1 <= heap_max -> 
  exists r h', cv_create name h = Ret (r, h') /\
     match r with
     | None => heap_ok h' /\ live h' = live h
     | Some c => wc_addr (cv_wc c) <> 0 -> allocated h h' [wc_addr (cv_wc c); cv_name c; cv_addr c] /\
         exists h2, cv_destroy c h' = Ret (tt, h2) /\ heap_ok h2 /\ live h2 = live h
     end.
Proof.
  intros Ho Hz. unfold cv_create.
  destruct (first_block sizeof_cv h) as [(h1 & E1 & O1 & L1)|(p & h1 & E1 & Hp & A1)]; [done..| |];
    rewrite (bind_ok _ _ _ _ _ E1); [by exists None, h1|]. rewrite Hp.
  destruct (name_and_channel h h1 p name A1 Hz) as
    [(h2 & E2 & A2)|(m & h2 & E2 & Hm & A2 & w & h3 & E3 & Hw)]; rewrite (bind_ok _ _ _ _ _ E2).
  - change (0 =? 0) with true. destruct (give_back h h2 p (@None cv) A2) as (h4 & E4 & ? & ?). exists None, h4. auto.
  - rewrite (proj2 (Z.eqb_neq m 0)), (bind_ok _ _ _ _ _ E3) by done. cbn [wc_addr].
    eexists _, h3. split; [done|]. intros Hw'. destruct Hw as [[-> A3]|[Hw A3]]; [done|]. split; [done|].
    by apply release_blocks.
Qed.

(** Creation and destruction are inverse on the heap.  [sem_create],
    [lock_create] and [cv_create] return the null pointer and leave the heap as
    it was, or return an object whose blocks are new; destroying an unlocked
    object with no sleepers gives back exactly these blocks, provided, for
    locks and condition variables, that the wait channel could be allocated. *)
Theorem create_destroy_roundtrip (h : H) (name : list Z) (n : Z) :
  heap_ok h -> zlength name + 1 <= heap_max -> 0 <= n ->
  (exists r h', sem_create name n h = Ret (r, h') /\
     match r with
     | None => heap_ok h' /\ live h' = live h
     | Some sem => allocated h h' [wc_addr (sem_wchan sem); sem_name sem; sem_addr sem] /\ sem_value sem = n /\
         exists h2, sem_destroy sem h' = Ret (tt, h2) /\ heap_ok h2 /\ live h2 = live h
     end) /\
  (exists r h', lock_create name h = Ret (r, h') /\
     match r with
     | None => heap_ok h' /\ live h' = live h
     | Some l => wc_addr (wc l) <> 0 -> allocated h h' [wc_addr (wc l); lk_name l; lk_addr l] /\ lk_hold l = false /\
         exists h2, lock_destroy l h' = Ret (tt, h2) /\ heap_ok h2 /\ live h2 = live h
     end) /\
  (exists r h', cv_create name h = Ret (r, h') /\
     match r with
     | None => heap_ok h' /\ live h' = live h
     | Some c => wc_addr (cv_wc c) <> 0 -> allocated h h' [wc_addr (cv_wc c); cv_name c; cv_addr c] /\
         exists h2, cv_destroy c h' = Ret (tt, h2) /\ heap_ok h2 /\ live h2 = live h
     end).
Proof.
  intros Ho Hz Hn. split_and!; [by apply sem_create_spec|by apply lock_create_spec|by apply cv_create_spec].
Qed.

End create.

Definition ex_heap (limit : Z) : RefHeap.t := RefHeap.init limit.

Lemma create_destroy_roundtrip_witness :
  exists r h', lock_create [97] (ex_heap 1000) = Ret (r, h') /\
    match r with
    | None => False
    | Some l => exists h2, lock_destroy l h' = Ret (tt, h2) /\ live h2 = live (ex_heap 1000)
    end.
Proof.
  destruct (create_destroy_roundtrip (ex_heap 1000) [97] 0) as (_ & (r & h' & E & Hr) & _).
  - apply RefHeap.init_ok.
  - vm_compute. discriminate.
  - lia.
  - exists r, h'. split; [exact E|]. vm_compute in E. injection E as <- <-.
    destruct Hr as (_ & _ & h2 & E2 & _ & L); [vm_compute; discriminate|]. exists h2. split; [exact E2|exact L].
Defined.

(** [lock_create] and [cv_create] do not notice that the wait channel could
    not be allocated: with memory for the object and its name but not for the
    channel they return an object, and destroying it goes through the null
    pointer; [sem_create] returns null. *)
Theorem lock_create_without_channel :
  (exists l h', lock_create [97] (ex_heap 50) = Ret (Some l, h') /\ wc_addr (wc l) = 0 /\
     lock_destroy l h' = Fault) /\
  (exists c h', cv_create [97] (ex_heap 50) = Ret (Some c, h') /\ wc_addr (cv_wc c) = 0 /\
     cv_destroy c h' = Fault) /\
  (exists h', sem_create [97] 1 (ex_heap 50) = Ret (None, h') /\ live h' = live (ex_heap 50)).
Proof. split_and!; repeat eexists. Qed.
