(* ===== verification/Bitmap.v ===== *)
(** * Fixed-size bitmaps (kern/lib/bitmap.c)

    The bitmap as an array of 8-bit words, its operations with their
    assertions, and the set of bit numbers it stands for. *)

From stdpp Require Import base numbers list gmap.
From Stdlib Require Import ZArith Lia.
From S2P Require Import Prelude Heap.

Definition BITS_PER_WORD : Z := 8.
Definition WORD_ALLBITS : Z := 255.

(** [struct bitmap], with the addresses of the structure and of its words. *)
Record bitmap := mk_bitmap {
  b_self : Z;
  nbits : Z;
  v_ptr : Z;
  v : list Z
}.

Definition with_v (b : bitmap) (v' : list Z) : bitmap :=
  mk_bitmap (b_self b) (nbits b) (v_ptr b) v'.

Definition sizeof_bitmap : Z := 8.

(** [(WORD_TYPE)1 << offset], stored in an [unsigned char]. *)
Definition word_mask (offset : Z) : Z := Z.shiftl 1 offset mod 256.

(** [b->v[ix] |= ((WORD_TYPE)1 << j)] *)
Definition set_word_bit (ix j : Z) : M (list Z) unit :=
  let* v := get in
  let* w := lift (get_at v ix) in
  let* v' := lift (set_at v ix (Z.lor w (word_mask j))) in
  put v'.

Section create.
Context {H : Type} `{KHeap H}.

Definition bitmap_create (nbits : Z) : M H (option bitmap) :=
  let words := w32 (nbits + BITS_PER_WORD - 1) / BITS_PER_WORD in
  let* b := kmalloc sizeof_bitmap in
  if b =? 0 then ret None else
  let* vp := kmalloc words in
  if vp =? 0 then do* kfree b in ret None else
  let v0 := replicate (Z.to_nat words) 0 in
  if nbits / BITS_PER_WORD <? words then
    let ix := w32 (words - 1) in
    let overbits := w32 (nbits - ix * BITS_PER_WORD) in
    do* kassert (nbits / BITS_PER_WORD =? w32 (words - 1)) in
    do* kassert ((0 <? overbits) && (overbits <? BITS_PER_WORD)) in
    let* (_, v1) := lift (for_ (Z.to_nat (BITS_PER_WORD - overbits)) overbits
                                  (set_word_bit ix) v0) in
    ret (Some (mk_bitmap b nbits vp v1))
  else ret (Some (mk_bitmap b nbits vp v0)).

Definition bitmap_destroy (b : bitmap) : M H unit :=
  do* kfree (v_ptr b) in kfree (b_self b).

End create.

Definition bitmap_getdata : M bitmap (list Z) := gets v.

(** The result of [bitmap_alloc]: an error number, or the index it stores
    through its pointer argument. The body of its inner loop... *)
Definition alloc_offset (ix offset : Z) : M bitmap (option (Z + Z)) :=
  let mask := word_mask offset in
  let* b := get in
  let* w := lift (get_at (v b) ix) in
  if Z.land w mask =? 0 then
    let* v' := lift (set_at (v b) ix (Z.lor w mask)) in
    do* put (with_v b v') in
    let index := w32 (ix * BITS_PER_WORD + offset) in
    do* kassert (index <? nbits b) in
    ret (Some (inr index))
  else ret None.

(** ... the body of its outer loop, and the function. *)
Definition alloc_word (ix : Z) : M bitmap (option (Z + Z)) :=
  let* b := get in
  let* w := lift (get_at (v b) ix) in
  if w =? WORD_ALLBITS then ret None else
  let* r := for_ret (Z.to_nat BITS_PER_WORD) 0 (alloc_offset ix) in
  match r with
  | Some _ => ret r
  | None => do* kassert false in ret None
  end.

Definition bitmap_alloc : M bitmap (Z + Z) :=
  let* b := get in
  let maxix := w32 (nbits b + BITS_PER_WORD - 1) / BITS_PER_WORD in
  let* r := for_ret (Z.to_nat maxix) 0 alloc_word in
  match r with
  | Some x => ret x
  | None => ret (inl ENOSPC)
  end.

(** The word and the mask of a bit number. *)
Definition bitmap_translate (bitno : Z) : Z * Z :=
  (bitno / BITS_PER_WORD, word_mask (bitno mod BITS_PER_WORD)).

Definition bitmap_mark (index : Z) : M bitmap unit :=
  let* b := get in
  do* kassert (index <? nbits b) in
  let '(ix, mask) := bitmap_translate index in
  let* w := lift (get_at (v b) ix) in
  do* kassert (Z.land w mask =? 0) in
  let* v' := lift (set_at (v b) ix (Z.lor w mask)) in
  put (with_v b v').

Definition bitmap_unmark (index : Z) : M bitmap unit :=
  let* b := get in
  do* kassert (index <? nbits b) in
  let '(ix, mask) := bitmap_translate index in
  let* w := lift (get_at (v b) ix) in
  do* kassert (negb (Z.land w mask =? 0)) in
  let* v' := lift (set_at (v b) ix (Z.land w (Z.lnot mask) mod 256)) in
  put (with_v b v').

Definition bitmap_isset (index : Z) : M bitmap Z :=
  let* b := get in
  let '(ix, mask) := bitmap_translate index in
  let* w := lift (get_at (v b) ix) in
  ret (Z.land w mask).

(** ** What a bitmap stands for *)

(** Bit [i] of the bitmap. *)
Definition bit (b : bitmap) (i : Z) : bool :=
  match v b !! Z.to_nat (i / 8) with
  | Some w => Z.testbit w (i mod 8)
  | None => false
  end.

(** The representation invariant: enough words, each of 8 bits, and the bits
    past the end marked so that [bitmap_alloc] never returns them. *)
Record bitmap_ok (b : bitmap) : Prop := {
  ok_nbits : 0 <= nbits b <= two32 - 8;
  ok_words : zlength (v b) = (nbits b + 7) / 8;
  ok_bytes : forall k w, v b !! k = Some w -> 0 <= w < 256;
  ok_tail : forall i, nbits b <= i < 8 * zlength (v b) -> bit b i = true;
}.

(** ** Bits of one word *)

Lemma word_mask_eq o : 0 <= o < 8 -> word_mask o = Z.shiftl 1 o.
Proof.
  intros Ho. unfold word_mask. rewrite Z.shiftl_1_l. apply Z.mod_small.
  split; [lia|]. change 256 with (2 ^ 8). apply Z.pow_lt_mono_r; lia.
Qed.

Lemma testbit_mask o i : 0 <= o < 8 -> Z.testbit (word_mask o) i = (o =? i).
Proof. intros Ho. rewrite word_mask_eq, Z.shiftl_1_l by done. apply Z.pow2_bits_eqb. lia. Qed.

Lemma land_mask_zero w o : 0 <= o < 8 -> (Z.land w (word_mask o) =? 0) = negb (Z.testbit w o).
Proof.
  intros Ho. destruct (Z.testbit w o) eqn:E; cbn.
  - apply Z.eqb_neq. intros H0.
    assert (Z.testbit (Z.land w (word_mask o)) o = true) as Hc.
    { rewrite Z.land_spec, testbit_mask, Z.eqb_refl, E by done. done. }
    by rewrite H0, Z.bits_0 in Hc.
  - apply Z.eqb_eq. apply Z.bits_inj'. intros n Hn.
    rewrite Z.land_spec, testbit_mask, Z.bits_0 by done.
    destruct (Z.eqb_spec o n) as [<-|]; [by rewrite E|apply andb_false_r].
Qed.

Lemma testbit_lor_mask w o i :
  0 <= o < 8 -> Z.testbit (Z.lor w (word_mask o)) i = (Z.testbit w i || (o =? i))%bool.
Proof. intros Ho. by rewrite Z.lor_spec, testbit_mask. Qed.

Lemma byte_high w i : 0 <= w < 256 -> 8 <= i -> Z.testbit w i = false.
Proof.
  intros Hw Hi. rewrite <- (Z.mod_small w (2 ^ 8)) by (cbn; lia).
  apply Z.mod_pow2_bits_high. lia.
Qed.

Lemma byte_of_bits w : 0 <= w -> (forall i, 8 <= i -> Z.testbit w i = false) -> w < 256.
Proof.
  intros H0 Hh. change 256 with (2 ^ 8).
  replace w with (w mod 2 ^ 8); [apply Z.mod_pos_bound; lia|].
  apply Z.bits_inj'. intros n Hn. destruct (Z.lt_ge_cases n 8).
  - apply Z.mod_pow2_bits_low. lia.
  - rewrite Z.mod_pow2_bits_high, Hh by lia. done.
Qed.

Lemma lor_mask_byte w o : 0 <= o < 8 -> 0 <= w < 256 -> 0 <= Z.lor w (word_mask o) < 256.
Proof.
  intros Ho Hw. assert (0 <= Z.lor w (word_mask o)).
  { apply Z.lor_nonneg. split; [lia|]. rewrite word_mask_eq, Z.shiftl_1_l by done. lia. }
  split; [done|]. apply byte_of_bits; [done|]. intros i Hi.
  rewrite testbit_lor_mask, byte_high by done. apply Z.eqb_neq. lia.
Qed.

Lemma testbit_clear_mask w o i :
  0 <= o < 8 -> 0 <= i < 8 ->
  Z.testbit (Z.land w (Z.lnot (word_mask o)) mod 256) i = (Z.testbit w i && negb (o =? i))%bool.
Proof.
  intros Ho Hi. change 256 with (2 ^ 8). rewrite Z.mod_pow2_bits_low by lia.
  rewrite Z.land_spec, Z.lnot_spec, testbit_mask by lia. done.
Qed.

(** A word is full exactly when it is [WORD_ALLBITS]. *)
Lemma full_word w :
  0 <= w < 256 -> (forall o, 0 <= o < 8 -> Z.testbit w o = true) -> w = WORD_ALLBITS.
Proof.
  intros Hw Hall. change WORD_ALLBITS with (Z.ones 8). apply Z.bits_inj'. intros n Hn.
  destruct (Z.lt_ge_cases n 8).
  - rewrite Hall, Z.ones_spec_low by lia. done.
  - rewrite byte_high, Z.ones_spec_high by lia. done.
Qed.

Lemma allbits_testbit o : 0 <= o < 8 -> Z.testbit WORD_ALLBITS o = true.
Proof. intros Ho. change WORD_ALLBITS with (Z.ones 8). apply Z.ones_spec_low. lia. Qed.

(** ** Updates of one word of the array *)

Lemma bit_in_word b ix k w :
  0 <= ix -> 0 <= k < 8 -> v b !! Z.to_nat ix = Some w ->
  bit b (8 * ix + k) = Z.testbit w k.
Proof.
  intros Hix Hk Hw. unfold bit.
  replace ((8 * ix + k) / 8) with ix by (apply Z.div_unique with k; lia).
  replace ((8 * ix + k) mod 8) with k by (apply Z.mod_unique with ix; lia).
  by rewrite Hw.
Qed.

(** Replacing word [ix] by one that differs in bit [o] only changes the
    bitmap at bit number [8*ix+o] only. *)
Lemma bit_insert b ix o w w' (f : bool -> bool) i :
  0 <= ix -> 0 <= o < 8 -> 0 <= i ->
  v b !! Z.to_nat ix = Some w ->
  (forall k, 0 <= k < 8 -> Z.testbit w' k = if o =? k then f (Z.testbit w k) else Z.testbit w k) ->
  bit (with_v b (<[Z.to_nat ix := w']> (v b))) i =
  if i =? 8 * ix + o then f (bit b i) else bit b i.
Proof.
  intros Hix Ho Hi Hw Hw'. unfold bit. cbn [v with_v].
  pose proof (Z.mod_pos_bound i 8 ltac:(lia)).
  pose proof (Z.div_mod i 8 ltac:(lia)).
  assert (0 <= i / 8) by (apply Z.div_pos; lia).
  destruct (decide (i / 8 = ix)) as [E|E].
  - rewrite E, list_lookup_insert_eq, Hw by (by eapply lookup_lt_Some).
    rewrite Hw' by lia.
    destruct (Z.eqb_spec o (i mod 8)), (Z.eqb_spec i (8 * ix + o)); lia || done.
  - rewrite list_lookup_insert_ne by lia.
    destruct (Z.eqb_spec i (8 * ix + o)); [|done].
    exfalso. apply E. subst i. rewrite Z.mul_comm, Z.div_add_l, Z.div_small; lia.
Qed.

(** Setting or clearing a bit below [nbits] keeps the invariant. *)
Lemma bitmap_ok_update b ix o w w' (f : bool -> bool) :
  bitmap_ok b -> 0 <= ix -> 0 <= o < 8 -> 8 * ix + o < nbits b ->
  v b !! Z.to_nat ix = Some w -> 0 <= w' < 256 ->
  (forall k, 0 <= k < 8 -> Z.testbit w' k = if o =? k then f (Z.testbit w k) else Z.testbit w k) ->
  bitmap_ok (with_v b (<[Z.to_nat ix := w']> (v b))).
Proof.
  intros [Hn Hl Hb Ht] Hix Ho Hlt Hw Hw' Hf. split; cbn [nbits v with_v]; [done| | |].
  - by rewrite zlength_insert.
  - intros k x Hk. apply list_lookup_insert_Some in Hk as [(_ & <- & _)|[_ Hk]]; eauto.
  - intros i Hi. rewrite zlength_insert in Hi.
    rewrite (bit_insert b ix o w w' f) by (lia || done).
    destruct (Z.eqb_spec i (8 * ix + o)); [lia|]. apply Ht. lia.
Qed.

(** A bit number inside the bitmap has a word. *)
Lemma bitmap_word b i :
  bitmap_ok b -> 0 <= i < nbits b ->
  exists w, get_at (v b) (i / 8) = Ret w /\ v b !! Z.to_nat (i / 8) = Some w /\
    0 <= i / 8 < zlength (v b) /\ 0 <= w < 256 /\ bit b i = Z.testbit w (i mod 8).
Proof.
  intros Hok Hi.
  assert (0 <= i / 8 < zlength (v b)) as Hr.
  { rewrite ok_words by done. split; [apply Z.div_pos; lia|].
    apply Z.div_lt_upper_bound; [lia|].
    pose proof (Z.div_mod (nbits b + 7) 8). pose proof (Z.mod_pos_bound (nbits b + 7) 8). lia. }
  destruct (get_at_in_range (v b) (i / 8) Hr) as (w & Hg & Hw).
  exists w. split_and!; try done; try lia.
  - by eapply ok_bytes.
  - eapply ok_bytes; eauto.
  - unfold bit. by rewrite Hw.
Qed.

(** ** Correctness of the operations *)

(** One round of the inner loop on a set bit and on a clear one. *)
Lemma alloc_offset_set b ix o w :
  0 <= ix -> 0 <= o < 8 -> v b !! Z.to_nat ix = Some w -> Z.testbit w o = true ->
  alloc_offset ix o b = Ret (None, b).
Proof.
  intros Hix Ho Hw Hb. unfold alloc_offset. mrun.
  rewrite (get_at_lookup _ _ w) by done. mrun. by rewrite land_mask_zero, Hb.
Qed.

Definition mark_word (b : bitmap) (ix o w : Z) : bitmap :=
  with_v b (<[Z.to_nat ix := Z.lor w (word_mask o)]> (v b)).

Lemma alloc_offset_clear b ix o w :
  bitmap_ok b -> 0 <= ix -> 0 <= o < 8 -> v b !! Z.to_nat ix = Some w ->
  Z.testbit w o = false ->
  8 * ix + o < nbits b /\
  alloc_offset ix o b = Ret (Some (inr (8 * ix + o)), mark_word b ix o w).
Proof.
  intros Hok Hix Ho Hw Hb.
  assert (Hlen : ix < zlength (v b)).
  { apply lookup_lt_Some in Hw. unfold zlength. lia. }
  assert (Hlt : 8 * ix + o < nbits b).
  { destruct (Z.lt_ge_cases (8 * ix + o) (nbits b)) as [|Hge]; [done|].
    assert (bit b (8 * ix + o) = true) as Ht by (apply ok_tail; [done|lia]).
    rewrite (bit_in_word b ix o w) in Ht by done. congruence. }
  split; [done|]. pose proof (ok_nbits b Hok).
  unfold alloc_offset. mrun. rewrite (get_at_lookup _ _ w) by done. mrun.
  rewrite land_mask_zero, Hb by done. cbn [negb].
  rewrite set_at_in_range by lia. mrun. unfold BITS_PER_WORD.
  rewrite Z.mul_comm, w32_id by (unfold is_u32, two32 in *; lia).
  rewrite (proj2 (Z.ltb_lt _ _)) by lia. by mrun.
Qed.

(** A word that is not full has a lowest clear bit, and the inner loop stops
    there. *)
Lemma alloc_word_spec b ix w :
  bitmap_ok b -> 0 <= ix -> v b !! Z.to_nat ix = Some w ->
  (w = WORD_ALLBITS /\ alloc_word ix b = Ret (None, b)) \/
  (w <> WORD_ALLBITS /\ exists o, 0 <= o < 8 /\ Z.testbit w o = false /\
     (forall k, 0 <= k < o -> Z.testbit w k = true) /\ 8 * ix + o < nbits b /\
     alloc_word ix b = Ret (Some (inr (8 * ix + o)), mark_word b ix o w)).
Proof.
  intros Hok Hix Hw. unfold alloc_word. mrun.
  rewrite (get_at_lookup _ _ w) by done. mrun.
  destruct (Z.eqb_spec w WORD_ALLBITS) as [->|Hne]; [by left|].
  right. split; [done|]. change (Z.to_nat BITS_PER_WORD) with 8%nat.
  destruct (for_ret_search (fun o => negb (Z.testbit w o)) (alloc_offset ix) 8 0 b)
    as [[E HP]|(o & Ho & HP & Hj & E)].
  - intros o Ho HP. bprop. apply alloc_offset_set with w; done || lia.
  - intros o Ho HP _. bprop.
    destruct (alloc_offset_clear b ix o w) as [_ E]; [done|done|lia|done|done|]. eauto.
  - exfalso. apply Hne, full_word; [by eapply ok_bytes|].
    intros o Ho. specialize (HP o). cbn in HP. apply negb_false_iff, HP. lia.
  - bprop. destruct (alloc_offset_clear b ix o w) as [Hlt E']; [done|done|lia|done|done|].
    exists o. split_and!; [lia|lia|done| |done|].
    + intros k Hk. apply negb_false_iff, Hj. lia.
    + by rewrite (bind_ok _ _ _ _ _ (eq_trans E E')).
Qed.

(** The outer loop searches for a word that is not full. *)
Definition word_free (b : bitmap) (ix : Z) : bool :=
  match v b !! Z.to_nat ix with Some w => negb (w =? WORD_ALLBITS) | None => false end.

Lemma full_word_bits b i :
  bitmap_ok b -> 0 <= i < nbits b -> word_free b (i / 8) = false -> bit b i = true.
Proof.
  intros Hok Hi Hf. destruct (bitmap_word b i Hok Hi) as (w & _ & Hw & _ & _ & ->).
  unfold word_free in Hf. rewrite Hw in Hf. bprop. subst w.
  apply allbits_testbit, Z.mod_pos_bound. lia.
Qed.

Lemma maxix_eq b : bitmap_ok b ->
  w32 (nbits b + BITS_PER_WORD - 1) / BITS_PER_WORD = zlength (v b).
Proof.
  intros Hok. rewrite ok_words by done. pose proof (ok_nbits b Hok).
  unfold BITS_PER_WORD. rewrite w32_id; [f_equal; lia|]. unfold is_u32, two32 in *. lia.
Qed.

Lemma alloc_loop b :
  bitmap_ok b ->
  (for_ret (Z.to_nat (zlength (v b))) 0 alloc_word b = Ret (None, b) /\
   forall ix, 0 <= ix < zlength (v b) -> word_free b ix = false) \/
  (exists ix, 0 <= ix < zlength (v b) /\ word_free b ix = true /\
     (forall j, 0 <= j < ix -> word_free b j = false) /\
     for_ret (Z.to_nat (zlength (v b))) 0 alloc_word b = alloc_word ix b).
Proof.
  intros Hok. pose proof (zlength_nonneg (v b)).
  destruct (for_ret_search (word_free b) alloc_word (Z.to_nat (zlength (v b))) 0 b)
    as [[E HP]|(ix & Hix & HP & Hj & E)].
  1,2: intros ix Hix; destruct (get_at_in_range (v b) ix) as (w & _ & Hw); [lia|];
       unfold word_free at 1; rewrite Hw; intros HP; bprop;
       destruct (alloc_word_spec b ix w) as [[? ?]|(? & o & ? & ? & ? & ? & ?)];
       try done; try lia; eauto.
  - left. split; [done|]. intros ix Hix. apply HP. lia.
  - right. exists ix. split_and!; try done; try lia.
Qed.

Lemma testbit_set_if w o k :
  0 <= o < 8 -> 0 <= k < 8 ->
  Z.testbit (Z.lor w (word_mask o)) k = if o =? k then true else Z.testbit w k.
Proof.
  intros Ho Hk. rewrite testbit_lor_mask by done.
  destruct (o =? k); [apply orb_true_r|apply orb_false_r].
Qed.

Lemma mark_word_spec b ix o w :
  bitmap_ok b -> 0 <= ix -> 0 <= o < 8 -> 8 * ix + o < nbits b ->
  v b !! Z.to_nat ix = Some w ->
  bitmap_ok (mark_word b ix o w) /\
  forall j, 0 <= j -> bit (mark_word b ix o w) j = if j =? 8 * ix + o then true else bit b j.
Proof.
  intros Hok Hix Ho Hlt Hw. pose proof (testbit_set_if w o) as Hset. split.
  - eapply (bitmap_ok_update b ix o w _ (fun _ => true)); try done; [|auto].
    apply lor_mask_byte; [done|]. by eapply ok_bytes.
  - intros j Hj. apply (bit_insert b ix o w _ (fun _ => true)); auto.
Qed.

(** The outcomes of [bitmap_alloc], with the word and the bit it takes. *)
Lemma alloc_cases b :
  bitmap_ok b ->
  (bitmap_alloc b = Ret (inl ENOSPC, b) /\ forall i, 0 <= i < nbits b -> bit b i = true) \/
  (exists ix o w, bitmap_alloc b = Ret (inr (8 * ix + o), mark_word b ix o w) /\
     0 <= ix /\ 0 <= o < 8 /\ 8 * ix + o < nbits b /\ v b !! Z.to_nat ix = Some w /\
     Z.testbit w o = false /\ (forall k, 0 <= k < o -> Z.testbit w k = true) /\
     (forall j, 0 <= j < ix -> word_free b j = false)).
Proof.
  intros Hok. unfold bitmap_alloc. mrun. rewrite maxix_eq by done.
  destruct (alloc_loop b Hok) as [[E HP]|(ix & Hix & HP & Hj & E)]; unfold bind; rewrite E.
  - left. split; [done|]. intros i Hi. apply full_word_bits; [done..|].
    apply HP. destruct (bitmap_word b i) as (w & ? & ? & ? & ?); auto.
  - right. destruct (get_at_in_range (v b) ix Hix) as (w & _ & Hw).
    destruct (alloc_word_spec b ix w) as [[-> _]|(_ & o & Ho & Hclr & Hlow & Hlt & ->)];
      [done|lia|done| |].
    { unfold word_free in HP. by rewrite Hw in HP. }
    exists ix, o, w. split_and!; done || lia.
Qed.

Lemma mark_word_set b ix o w :
  bitmap_ok b -> 0 <= ix -> 0 <= o < 8 -> 8 * ix + o < nbits b ->
  v b !! Z.to_nat ix = Some w -> bit (mark_word b ix o w) (8 * ix + o) = true.
Proof.
  intros Hok Hix Ho Hlt Hw. destruct (mark_word_spec b ix o w) as [_ Hb]; [done..|].
  by rewrite Hb, Z.eqb_refl by lia.
Qed.

(** [bitmap_alloc] finds the lowest clear bit, marks that bit and no
    other, keeps the representation invariant and never trips an assertion;
    it reports [ENOSPC], and changes nothing, exactly when every bit of the
    bitmap is set. *)
Theorem bitmap_alloc_first_free (b : bitmap) (Hok : bitmap_ok b) :
  (bitmap_alloc b = Ret (inl ENOSPC, b) /\
   forall i, 0 <= i < nbits b -> bit b i = true) \/
  (exists i b', bitmap_alloc b = Ret (inr i, b') /\
     0 <= i < nbits b /\ bit b i = false /\
     (forall j, 0 <= j < i -> bit b j = true) /\
     bitmap_ok b' /\ nbits b' = nbits b /\
     (forall j, 0 <= j -> bit b' j = if j =? i then true else bit b j)).
Proof.
  destruct (alloc_cases b Hok) as [|(ix & o & w & E & Hix & Ho & Hlt & Hw & Hclr & Hlow & Hj)];
    [by left|right].
  destruct (mark_word_spec b ix o w) as [Hok' Hbits]; [done..|].
  exists (8 * ix + o), (mark_word b ix o w).
  assert (forall k, 0 <= k < 8 -> bit b (8 * ix + k) = Z.testbit w k) as Hbit.
  { intros k Hk. by apply bit_in_word. }
  split_and!; [done|lia|lia|by rewrite Hbit| |done|done|done].
  intros j Hjr. destruct (Z.lt_ge_cases j (8 * ix)).
  - apply full_word_bits; [done|lia|]. apply Hj.
    split; [apply Z.div_pos; lia|apply Z.div_lt_upper_bound; lia].
  - replace j with (8 * ix + (j - 8 * ix)) by lia. rewrite Hbit by lia. apply Hlow. lia.
Qed.

(** Clearing a bit that was just set restores the word. *)
Lemma lor_mask_clear w o :
  0 <= o < 8 -> 0 <= w < 256 -> Z.testbit w o = false ->
  Z.land (Z.lor w (word_mask o)) (Z.lnot (word_mask o)) mod 256 = w.
Proof.
  intros Ho Hw Hb. apply Z.bits_inj'. intros k Hk. destruct (Z.lt_ge_cases k 8).
  - rewrite testbit_clear_mask, testbit_lor_mask by lia.
    destruct (Z.eqb_spec o k) as [<-|]; cbn; [by rewrite Hb, andb_false_r|].
    by rewrite orb_false_r, andb_true_r.
  - change 256 with (2 ^ 8). rewrite Z.mod_pow2_bits_high by lia.
    symmetry. by apply byte_high.
Qed.

(** The branches of [bitmap_mark] and [bitmap_unmark] on a bit in range. *)
Lemma bitmap_translate_eq i :
  bitmap_translate i = (i / 8, word_mask (i mod 8)).
Proof. done. Qed.

Lemma bitmap_mark_spec b i :
  bitmap_ok b -> 0 <= i < nbits b ->
  exists w, v b !! Z.to_nat (i / 8) = Some w /\ Z.testbit w (i mod 8) = bit b i /\
    bitmap_mark i b = if bit b i then Panic
                      else Ret (tt, mark_word b (i / 8) (i mod 8) w).
Proof.
  intros Hok Hi. destruct (bitmap_word b i Hok Hi) as (w & Hg & Hw & Hr & Hb & Hbit).
  pose proof (Z.mod_pos_bound i 8). exists w. split_and!; [done|done|].
  unfold bitmap_mark. mrun. rewrite (proj2 (Z.ltb_lt _ _)) by lia. mrun.
  rewrite bitmap_translate_eq, Hg. mrun. rewrite land_mask_zero, Hbit by lia.
  destruct (Z.testbit w (i mod 8)); [done|]. cbn [negb]. mrun.
  rewrite set_at_in_range by done. by mrun.
Qed.

Lemma bitmap_unmark_spec b i :
  bitmap_ok b -> 0 <= i < nbits b ->
  exists w, v b !! Z.to_nat (i / 8) = Some w /\ Z.testbit w (i mod 8) = bit b i /\
    bitmap_unmark i b =
      if bit b i
      then Ret (tt, with_v b (<[Z.to_nat (i / 8) :=
             Z.land w (Z.lnot (word_mask (i mod 8))) mod 256]> (v b)))
      else Panic.
Proof.
  intros Hok Hi. destruct (bitmap_word b i Hok Hi) as (w & Hg & Hw & Hr & Hb & Hbit).
  pose proof (Z.mod_pos_bound i 8). exists w. split_and!; [done|done|].
  unfold bitmap_unmark. mrun. rewrite (proj2 (Z.ltb_lt _ _)) by lia. mrun.
  rewrite bitmap_translate_eq, Hg. mrun. rewrite land_mask_zero, Hbit by lia.
  destruct (Z.testbit w (i mod 8)); [|done]. cbn [negb]. mrun.
  rewrite set_at_in_range by done. by mrun.
Qed.

Lemma with_v_insert_id b k w :
  v b !! k = Some w -> with_v b (<[k := w]> (v b)) = b.
Proof. intros Hw. rewrite list_insert_id by done. by destruct b. Qed.

Lemma unmark_mark_word b ix o w :
  bitmap_ok b -> 0 <= ix -> 0 <= o < 8 -> 8 * ix + o < nbits b ->
  v b !! Z.to_nat ix = Some w -> Z.testbit w o = false ->
  bitmap_unmark (8 * ix + o) (mark_word b ix o w) = Ret (tt, b).
Proof.
  intros Hok Hix Ho Hlt Hw Hclr.
  destruct (mark_word_spec b ix o w) as [Hok' Hbits]; try done.
  destruct (bitmap_unmark_spec (mark_word b ix o w) (8 * ix + o)) as (w' & Hw' & _ & E);
    [done|cbn; lia|].
  rewrite E, Hbits, Z.eqb_refl by lia. f_equal. f_equal.
  replace ((8 * ix + o) / 8) with ix in * by (apply Z.div_unique with o; lia).
  replace ((8 * ix + o) mod 8) with o in * by (apply Z.mod_unique with ix; lia).
  cbn [mark_word with_v v] in Hw'. unfold mark_word in *. cbn [with_v v] in *.
  rewrite list_lookup_insert_eq in Hw' by (by eapply lookup_lt_Some).
  injection Hw' as <-. rewrite lor_mask_clear by (done || by eapply (ok_bytes b)).
  rewrite list_insert_insert_eq.
  change (with_v (with_v b ?x) ?y) with (with_v b y). by apply with_v_insert_id.
Qed.

Lemma bitmap_isset_spec b i :
  bitmap_ok b -> 0 <= i < nbits b ->
  exists m, bitmap_isset i b = Ret (m, b) /\ (m =? 0) = negb (bit b i).
Proof.
  intros Hok Hi. destruct (bitmap_word b i Hok Hi) as (w & Hg & _ & _ & _ & Hbit).
  pose proof (Z.mod_pos_bound i 8).
  unfold bitmap_isset. mrun. rewrite bitmap_translate_eq, Hg. mrun.
  eexists. split; [done|]. rewrite land_mask_zero, Hbit by lia. done.
Qed.

(** Releasing the bit that [bitmap_alloc] handed out gives back the very
    bitmap it was allocated from, word for word, and on the way
    [bitmap_isset] reports the bit; without a free bit the sequence stops at
    [ENOSPC]. *)
Theorem bitmap_alloc_unmark_roundtrip (b : bitmap) (i : Z) (b' : bitmap)
    (Hok : bitmap_ok b) (Halloc : bitmap_alloc b = Ret (inr i, b')) :
  bitmap_unmark i b' = Ret (tt, b) /\
  (exists m, bitmap_isset i b' = Ret (m, b') /\ m <> 0) /\
  bitmap_mark i b' = Panic.
Proof.
  destruct (alloc_cases b Hok) as [[E _]|(ix & o & w & E & Hix & Ho & Hlt & Hw & Hclr & _)];
    rewrite E in Halloc; [done|]. injection Halloc as <- <-.
  destruct (mark_word_spec b ix o w) as [Hok' _]; [done..|].
  pose proof (mark_word_set b ix o w Hok Hix Ho Hlt Hw) as Hset. split_and!.
  - by apply unmark_mark_word.
  - destruct (bitmap_isset_spec (mark_word b ix o w) (8 * ix + o)) as (m & Em & Hm);
      [done|cbn; lia|]. exists m. split; [done|]. apply Z.eqb_neq. by rewrite Hm, Hset.
  - destruct (bitmap_mark_spec (mark_word b ix o w) (8 * ix + o)) as (? & _ & _ & ->);
      [done|cbn; lia|]. by rewrite Hset.
Qed.

(** A bitmap of three bits with bit 0 taken; bits 3 to 7 do not exist. *)
Definition example_bitmap : bitmap := mk_bitmap 16 3 24 [249].

Lemma example_bitmap_ok : bitmap_ok example_bitmap.
Proof.
  split; cbn.
  - unfold two32; lia.
  - done.
  - intros [|k] w; cbn; [intros [= <-]; lia|discriminate].
  - change (zlength [249]) with 1. intros i Hi.
    assert (i = 3 \/ i = 4 \/ i = 5 \/ i = 6 \/ i = 7) as Hc by lia.
    destruct Hc as [->|[->|[->|[->| ->]]]]; done.
Qed.

Lemma bitmap_alloc_first_free_witness :
  bitmap_alloc example_bitmap = Ret (inr 1, mk_bitmap 16 3 24 [251]) /\
  forall j, 0 <= j < 1 -> bit example_bitmap j = true.
Proof.
  split; [reflexivity|].
  destruct (bitmap_alloc_first_free example_bitmap example_bitmap_ok)
    as [[E _]|(i & b' & E & _ & _ & Hlow & _)]; [vm_compute in E; discriminate E|].
  change (bitmap_alloc example_bitmap) with
    (Ret (@inr Z Z 1, mk_bitmap 16 3 24 [251])) in E.
  injection E as <- <-. exact Hlow.
Defined.

Lemma bitmap_alloc_unmark_roundtrip_witness :
  bitmap_unmark 1 (mk_bitmap 16 3 24 [251]) = Ret (tt, example_bitmap).
Proof.
  apply (bitmap_alloc_unmark_roundtrip example_bitmap 1 (mk_bitmap 16 3 24 [251])).
  - apply example_bitmap_ok.
  - reflexivity.
Defined.

(** ** Creation *)

(** The loop that marks the bits past the end leaves every other word at zero
    and the last one with exactly the bits from [over] on. *)
Lemma mark_tail_loop (v0 : list Z) ix over :
  v0 !! Z.to_nat ix = Some 0 -> 0 <= ix -> 0 <= over <= 8 ->
  exists w, for_ (Z.to_nat (8 - over)) over (set_word_bit ix) v0 =
      Ret (tt, <[Z.to_nat ix := w]> v0) /\ 0 <= w < 256 /\
    forall k, 0 <= k < 8 -> Z.testbit w k = (over <=? k).
Proof.
  intros H0 Hix Hover.
  destruct (for_inv (fun j v1 => exists w, v1 = <[Z.to_nat ix := w]> v0 /\ 0 <= w < 256 /\
      forall k, 0 <= k < 8 -> Z.testbit w k = ((over <=? k) && (k <? j))%bool)
    (set_word_bit ix) (Z.to_nat (8 - over)) over v0) as (v1 & E & w & -> & Hw & Hk).
  - exists 0. rewrite list_insert_id by done. split_and!; [done|lia|lia|].
    intros k Hk. rewrite Z.bits_0. destruct (Z.leb_spec over k), (Z.ltb_spec k over); lia || done.
  - intros j st Hj (w & -> & Hw & Hk).
    eexists. split.
    + unfold set_word_bit. mrun.
      rewrite (get_at_lookup _ _ w); [|done|
        by rewrite list_lookup_insert_eq by (by eapply lookup_lt_Some)].
      mrun. rewrite set_at_in_range; [by mrun|].
      rewrite zlength_insert. apply lookup_lt_Some in H0. unfold zlength. lia.
    + exists (Z.lor w (word_mask j)). rewrite list_insert_insert_eq. split_and!; [done|..].
      1,2: apply lor_mask_byte; lia.
      intros k Hkr. rewrite testbit_set_if, Hk by lia.
      destruct (Z.eqb_spec j k), (Z.leb_spec over k), (Z.ltb_spec k j), (Z.ltb_spec k (j + 1));
        lia || done.
  - exists w. split_and!; [done|lia|lia|]. intros k Hkr. rewrite Hk by done.
    destruct (Z.ltb_spec k (over + Z.of_nat (Z.to_nat (8 - over)))); [apply andb_true_r|lia].
Qed.

Lemma replicate_bits p q n m i :
  0 <= m -> bit (mk_bitmap p n q (replicate (Z.to_nat m) 0)) i = false.
Proof.
  intros Hm. unfold bit. cbn [v].
  destruct (replicate (Z.to_nat m) 0 !! Z.to_nat (i / 8)) as [x|] eqn:E; [|done].
  apply lookup_replicate in E as [-> _]. apply Z.bits_0.
Qed.

(** The words that [bitmap_create] computes, for every size. *)
Lemma create_words p q n :
  0 <= n <= two32 - 8 ->
  let words := (n + 7) / 8 in
  let v0 := replicate (Z.to_nat words) 0 in
  (n / 8 = words /\ bitmap_ok (mk_bitmap p n q v0)) \/
  (n / 8 = words - 1 /\ 0 < n - (words - 1) * 8 < 8 /\ 0 < words /\
   exists w, for_ (Z.to_nat (8 - (n - (words - 1) * 8))) (n - (words - 1) * 8)
       (set_word_bit (words - 1)) v0 = Ret (tt, <[Z.to_nat (words - 1) := w]> v0) /\
     bitmap_ok (mk_bitmap p n q (<[Z.to_nat (words - 1) := w]> v0)) /\
     forall i, 0 <= i < n ->
       bit (mk_bitmap p n q (<[Z.to_nat (words - 1) := w]> v0)) i = false).
Proof.
  intros Hn words v0.
  assert (0 <= words) by (apply Z.div_pos; lia).
  assert (Hlen : zlength v0 = words).
  { unfold v0, zlength. rewrite length_replicate. lia. }
  pose proof (Z.div_mod n 8). pose proof (Z.mod_pos_bound n 8).
  pose proof (Z.div_mod (n + 7) 8). pose proof (Z.mod_pos_bound (n + 7) 8). fold words in H2.
  destruct (Z.eq_dec (n mod 8) 0) as [E0|E0]; [left|right].
  - split; [lia|]. split; cbn [nbits v]; [done|done| |].
    + intros k x Hx. apply lookup_replicate in Hx as [-> _]. lia.
    + intros i Hi. lia.
  - assert (Hw : v0 !! Z.to_nat (words - 1) = Some 0) by (apply lookup_replicate; lia).
    destruct (mark_tail_loop v0 (words - 1) (n - (words - 1) * 8)) as (w & E & Hb & Hk);
      [done|lia|lia|].
    set (b0 := mk_bitmap p n q v0).
    assert (forall i, 0 <= i -> bit (with_v b0 (<[Z.to_nat (words - 1) := w]> v0)) i =
       if i / 8 =? words - 1 then n <=? i else false) as Hbits.
    { intros i Hi. unfold bit. cbn [v with_v b0].
      pose proof (Z.div_mod i 8). pose proof (Z.mod_pos_bound i 8).
      destruct (Z.eqb_spec (i / 8) (words - 1)) as [Ei|Ei].
      - rewrite Ei, list_lookup_insert_eq by (by eapply lookup_lt_Some).
        rewrite Hk by lia.
        destruct (Z.leb_spec (n - (words - 1) * 8) (i mod 8)), (Z.leb_spec n i); lia || done.
      - assert (0 <= i / 8) by (apply Z.div_pos; lia).
        rewrite list_lookup_insert_ne by lia. apply (replicate_bits p q n words i). lia. }
    split_and!; [lia|lia|lia|lia|]. exists w. split_and!; [done| |].
    + split; cbn [nbits v]; [done|by rewrite zlength_insert| |].
      * intros k x Hx. apply list_lookup_insert_Some in Hx as [(_ & <- & _)|[_ Hx]]; [lia|].
        apply lookup_replicate in Hx as [-> _]. lia.
      * rewrite zlength_insert, Hlen. intros i Hi.
        change (bit (with_v b0 (<[Z.to_nat (words - 1) := w]> v0)) i = true).
        rewrite Hbits by lia.
        replace (i / 8) with (words - 1) by (apply Z.div_unique with (i - 8 * (words - 1)); lia).
        rewrite Z.eqb_refl. apply Z.leb_le. lia.
    + intros i Hi. change (bit (with_v b0 (<[Z.to_nat (words - 1) := w]> v0)) i = false).
      rewrite Hbits by lia. destruct (i / 8 =? words - 1); [apply Z.leb_gt; lia|done].
Qed.

(** [bitmap_create] either fails, having given back whatever it had
    allocated, or returns a well-formed bitmap with all its bits clear and
    its two blocks, of the right sizes, live on the heap. It never trips its
    assertions. *)
Theorem bitmap_create_correct {H : Type} `{KHeap H} (n : Z) (h : H)
    (Hh : heap_ok h) (Hn : 0 <= n <= two32 - 8) :
  exists r h', bitmap_create n h = Ret (r, h') /\ heap_ok h' /\
    match r with
    | None => live h' = live h
    | Some b => bitmap_ok b /\ nbits b = n /\
        (forall i, 0 <= i < n -> bit b i = false) /\
        live h !! b_self b = None /\ live h !! v_ptr b = None /\
        live h' = <[v_ptr b := (n + 7) / 8]> (<[b_self b := sizeof_bitmap]> (live h))
    end.
Proof.
  unfold bitmap_create, BITS_PER_WORD.
  replace (n + 8 - 1) with (n + 7) by lia. unfold two32 in *.
  rewrite w32_id by (unfold is_u32, two32; lia).
  assert (0 <= (n + 7) / 8) as Hpos0 by (apply Z.div_pos; lia).
  assert (0 <= (n + 7) / 8 <= heap_max).
  { split; [done|]. unfold heap_max. apply Z.div_le_upper_bound; lia. }
  destruct (kmalloc_cases sizeof_bitmap h) as
    [(h1 & E1 & Ho1 & L1)|(p & h1 & E1 & Ho1 & Hp & N1 & L1)]; [done|done|..];
    rewrite (bind_ok _ _ _ _ _ E1).
  { exists None, h1. by split_and!. }
  rewrite (proj2 (Z.eqb_neq p 0)) by lia.
  destruct (kmalloc_cases ((n + 7) / 8) h1) as
    [(h2 & E2 & Ho2 & L2)|(q & h2 & E2 & Ho2 & Hq & N2 & L2)]; [done|done|..];
    rewrite (bind_ok _ _ _ _ _ E2).
  { destruct (kfree_fresh p sizeof_bitmap h h2) as (h3 & E3 & Ho3 & L3); [done|done|congruence|].
    change (0 =? 0) with true. cbn iota. rewrite (bind_ok _ _ _ _ _ E3).
    exists None, h3. by split_and!. }
  rewrite (proj2 (Z.eqb_neq q 0)) by lia.
  assert (live h !! q = None /\ p <> q) as [N2' Hpq].
  { rewrite L1 in N2. by apply lookup_insert_None in N2. }
  destruct (create_words p q n) as [[Hd Hok]|(Hd & Ho & Hpos & w & E & Hok & Hz)];
    [unfold two32; lia|..].
  - rewrite (proj2 (Z.ltb_ge _ _)) by lia. eexists _, h2. split; [done|].
    split_and!; try done.
    + intros i Hi. by apply replicate_bits.
    + by rewrite L2, L1.
  - rewrite (proj2 (Z.ltb_lt _ _)) by lia.
    rewrite !(w32_id ((n + 7) / 8 - 1)) by (unfold is_u32, two32; lia).
    rewrite !w32_id by (unfold is_u32, two32; lia).
    rewrite (proj2 (Z.eqb_eq _ _)) by lia. mrun.
    rewrite (proj2 (Z.ltb_lt 0 _)), (proj2 (Z.ltb_lt _ 8)) by lia. cbn [andb]. mrun.
    rewrite E. mrun. eexists _, h2. split; [done|]. split_and!; try done.
    by rewrite L2, L1.
Qed.

Lemma bitmap_create_correct_witness :
  exists r h', bitmap_create 11 (RefHeap.init 4096) = Ret (r, h') /\ heap_ok h' /\
    match r with
    | None => live h' = live (RefHeap.init 4096)
    | Some b => b = mk_bitmap 16 11 24 [0; 248] /\ bitmap_ok b
    end.
Proof.
  destruct (bitmap_create_correct 11 (RefHeap.init 4096)) as (r & h' & E & Hok & Hr).
  - apply RefHeap.init_ok.
  - unfold two32. lia.
  - exists r, h'. split; [exact E|]. split; [exact Hok|].
    vm_compute in E. injection E as <- <-. split; [reflexivity|apply Hr].
Defined.
