(* ===== verification/Coremap.v ===== *)
(** * Physical memory: ram.c and the coremap of dumbvm.c

    kern/arch/mips/vm/ram.c (the boot-time allocator) and the physical page
    allocator of kern/arch/mips/vm/dumbvm.c ([vm_bootstrap], [getppages],
    [alloc_kpages], [free_kpages], built with OPT_A3), with the abstract
    allocator they implement: a map from first frame to number of frames. *)

From stdpp Require Import base numbers list gmap.
From Stdlib Require Import ZArith Lia.
From S2P Require Import Prelude.

Definition PAGE_SIZE : Z := 4096.
Definition PAGE_FRAME : Z := 4294963200.
Definition MIPS_KSEG0 : Z := 2147483648.
Definition PADDR_TO_KVADDR (pa : Z) : Z := w32 (pa + MIPS_KSEG0).

(** [struct coremap]: the two arrays and what they describe. *)
Record coremap := mk_coremap {
  baseAddr : Z;
  inUse : list Z;
  containNext : list Z;
  size : Z
}.

(** The variables of ram.c and dumbvm.c. A spinlock is modelled by whether it
    is held. *)
Record vm := mk_vm {
  firstpaddr : Z;
  lastpaddr : Z;
  addr_lo : Z;
  addr_hi : Z;
  iscmapCreated : bool;
  core_map : coremap;
  stealmem_lock : bool;
  spinlock_coremap : bool
}.

Definition set_ram (s : vm) (f l : Z) : vm :=
  mk_vm f l (addr_lo s) (addr_hi s) (iscmapCreated s) (core_map s)
        (stealmem_lock s) (spinlock_coremap s).
Definition set_addr_lo (s : vm) (lo : Z) : vm :=
  mk_vm (firstpaddr s) (lastpaddr s) lo (addr_hi s) (iscmapCreated s) (core_map s)
        (stealmem_lock s) (spinlock_coremap s).
Definition set_addr_hi (s : vm) (hi : Z) : vm :=
  mk_vm (firstpaddr s) (lastpaddr s) (addr_lo s) hi (iscmapCreated s) (core_map s)
        (stealmem_lock s) (spinlock_coremap s).
Definition set_created (s : vm) (b : bool) : vm :=
  mk_vm (firstpaddr s) (lastpaddr s) (addr_lo s) (addr_hi s) b (core_map s)
        (stealmem_lock s) (spinlock_coremap s).
Definition set_core_map (s : vm) (cm : coremap) : vm :=
  mk_vm (firstpaddr s) (lastpaddr s) (addr_lo s) (addr_hi s) (iscmapCreated s) cm
        (stealmem_lock s) (spinlock_coremap s).
Definition set_stealmem_lock (s : vm) (b : bool) : vm :=
  mk_vm (firstpaddr s) (lastpaddr s) (addr_lo s) (addr_hi s) (iscmapCreated s) (core_map s)
        b (spinlock_coremap s).
Definition set_spinlock_coremap (s : vm) (b : bool) : vm :=
  mk_vm (firstpaddr s) (lastpaddr s) (addr_lo s) (addr_hi s) (iscmapCreated s) (core_map s)
        (stealmem_lock s) b.

Definition with_inUse (cm : coremap) (l : list Z) : coremap :=
  mk_coremap (baseAddr cm) l (containNext cm) (size cm).
Definition with_containNext (cm : coremap) (l : list Z) : coremap :=
  mk_coremap (baseAddr cm) (inUse cm) l (size cm).

(** [spinlock_acquire] panics when this CPU holds the lock already;
    [spinlock_release] asserts that it does. *)
Definition acquire_stealmem : M vm unit :=
  let* s := get in
  do* (if stealmem_lock s then panic else ret tt) in
  put (set_stealmem_lock s true).
Definition release_stealmem : M vm unit :=
  let* s := get in
  do* kassert (stealmem_lock s) in
  put (set_stealmem_lock s false).
Definition acquire_coremap : M vm unit :=
  let* s := get in
  do* (if spinlock_coremap s then panic else ret tt) in
  put (set_spinlock_coremap s true).
Definition release_coremap : M vm unit :=
  let* s := get in
  do* kassert (spinlock_coremap s) in
  put (set_spinlock_coremap s false).

(** ** ram.c *)

(** [mainbus_ramsize()] and [firstfree] are arguments. *)
Definition ram_bootstrap (mainbus_ramsize firstfree : Z) : M vm unit :=
  let ramsize := if 508 * 1024 * 1024 <? mainbus_ramsize
                 then 508 * 1024 * 1024 else mainbus_ramsize in
  modify (fun s => set_ram s (w32 (firstfree - MIPS_KSEG0)) ramsize).

Definition ram_stealmem (npages : Z) : M vm Z :=
  let sz := w32 (npages * PAGE_SIZE) in
  let* s := get in
  if lastpaddr s <? w32 (firstpaddr s + sz) then ret 0
  else
    do* put (set_ram s (w32 (firstpaddr s + sz)) (lastpaddr s)) in
    ret (firstpaddr s).

Definition ram_getsize : M vm (Z * Z) :=
  let* s := get in
  do* put (set_ram s 0 0) in
  ret (firstpaddr s, lastpaddr s).

(** ** vm_bootstrap *)

Definition sizeof_coremap : Z := 16.
Definition sizeof_int : Z := 4.

(** [while (addr_lo % PAGE_SIZE != 0) addr_lo++;] *)
Fixpoint align_up (fuel : nat) (a : Z) : outcome Z :=
  match fuel with
  | O => NoFuel
  | S fuel' => if a mod PAGE_SIZE =? 0 then Ret a else align_up fuel' (w32 (a + 1))
  end.

(** A store through [core_map->inUse] and [core_map->containNext]. *)
Definition store_inUse (i x : Z) : M vm unit :=
  let* s := get in
  let* l := lift (set_at (inUse (core_map s)) i x) in
  put (set_core_map s (with_inUse (core_map s) l)).
Definition store_containNext (i x : Z) : M vm unit :=
  let* s := get in
  let* l := lift (set_at (containNext (core_map s)) i x) in
  put (set_core_map s (with_containNext (core_map s) l)).

(** The arrays are carved out of raw memory: [raw1] and [raw2] are what that
    memory holds, [frameCount] words each. *)
Definition vm_bootstrap (raw1 raw2 : list Z) : M vm unit :=
  do* modify (fun s => set_spinlock_coremap s false) in
  let* (lo, hi) := ram_getsize in
  do* modify (fun s => set_addr_hi s hi) in
  let frameCount := s32 (w32 (hi - lo) / PAGE_SIZE) in
  let lo1 := w32 (lo + sizeof_coremap) in
  let lo2 := w32 (lo1 + sizeof_int * frameCount) in
  let lo3 := w32 (lo2 + sizeof_int * frameCount) in
  let* base := lift (align_up 4096 lo3) in
  do* modify (fun s => set_addr_lo s base) in
  let n := s32 (w32 (hi - base) / PAGE_SIZE) in
  do* modify (fun s => set_core_map s
        (mk_coremap base (take (Z.to_nat frameCount) raw1)
                         (take (Z.to_nat frameCount) raw2) n)) in
  do* for_ (Z.to_nat frameCount) 0 (fun i =>
        do* store_inUse i 0 in store_containNext i 0) in
  modify (fun s => set_created s true).

(** ** getppages *)

(** [while (count < pageRequired && sofar < core_map->size)
       { if (core_map->inUse[sofar]) break; count++; sofar++; }] *)
Fixpoint count_free (fuel : nat) (cm : coremap) (pageRequired count sofar : Z) : outcome Z :=
  match fuel with
  | O => NoFuel
  | S fuel' =>
      if (count <? pageRequired) && (sofar <? size cm) then
        match get_at (inUse cm) sofar with
        | Ret u => if u =? 0 then count_free fuel' cm pageRequired (count + 1) (sofar + 1)
                   else Ret count
        | Panic => Panic | Fault => Fault | NoFuel => NoFuel
        end
      else Ret count
  end.

(** The loop that claims the frames [i .. i+pageRequired-1]. *)
Definition claim_frames (i pageRequired : Z) : M vm unit :=
  for_ (Z.to_nat pageRequired) 0 (fun j =>
    let targetLoc := i + j in
    do* store_inUse targetLoc 1 in
    if negb (j =? pageRequired - 1) then store_containNext targetLoc 1
    else store_containNext targetLoc 0).

(** The search: [for (i = 0; i < core_map->size; i++)], where a run that is
    too short also advances [i] by its length. *)
Fixpoint search_frames (fuel : nat) (pageRequired i : Z) : M vm (option Z) :=
  match fuel with
  | O => fun _ => NoFuel
  | S fuel' =>
      let* s := get in
      let cm := core_map s in
      if i <? size cm then
        let* u := lift (get_at (inUse cm) i) in
        if u =? 0 then
          let* count := lift (count_free (S (length (inUse cm))) cm pageRequired 0 i) in
          if count <? pageRequired then search_frames fuel' pageRequired (i + count + 1)
          else
            do* claim_frames i pageRequired in
            ret (Some i)
        else search_frames fuel' pageRequired (i + 1)
      else ret None
  end.

Definition getppages (npages : Z) : M vm Z :=
  let pageRequired := s32 npages in
  do* acquire_stealmem in
  let* s := get in
  if negb (iscmapCreated s) then
    let* addr := ram_stealmem npages in
    do* release_stealmem in
    ret addr
  else
    do* kassert (pageRequired <=? size (core_map s)) in
    let* r := search_frames (S (length (inUse (core_map s)))) pageRequired 0 in
    match r with
    | Some i =>
        let addr := w32 (i * PAGE_SIZE + baseAddr (core_map s)) in
        do* release_stealmem in
        do* kassert ((addr <=? addr_hi s) && (addr_lo s <=? addr)) in
        ret addr
    | None =>
        do* release_stealmem in
        ret ENOMEM
    end.

Definition alloc_kpages (npages : Z) : M vm Z :=
  let* pa := getppages npages in
  if pa =? 0 then ret 0 else ret (PADDR_TO_KVADDR pa).

(** ** free_kpages *)

(** [for (i = targetAddr; i < core_map->size && core_map->containNext[i] == 1;
    i++) core_map->inUse[i] = 0;], returning the final [i]. *)
Fixpoint release_run (fuel : nat) (i : Z) : M vm Z :=
  match fuel with
  | O => fun _ => NoFuel
  | S fuel' =>
      let* s := get in
      if i <? size (core_map s) then
        let* c := lift (get_at (containNext (core_map s)) i) in
        if c =? 1 then
          do* store_inUse i 0 in
          release_run fuel' (i + 1)
        else ret i
      else ret i
  end.

Definition free_kpages (addr : Z) : M vm unit :=
  let* s := get in
  if negb (iscmapCreated s) then ret tt
  else
    do* acquire_coremap in
    let targetAddr := s32 (w32 (addr - w32 (baseAddr (core_map s) + MIPS_KSEG0))) in
    let targetAddr := Z.quot targetAddr PAGE_SIZE in
    let* i := release_run (S (length (inUse (core_map s)))) targetAddr in
    do* (if i <? size (core_map s) then store_inUse i 0 else ret tt) in
    release_coremap.

(** ** The abstract allocator *)

(** A frame that belongs to no allocated block. *)
Definition frame_free (bs : gmap Z Z) (f : Z) : Prop :=
  forall s n, bs !! s = Some n -> ~ (s <= f < s + n).

(** The coremap's arrays represent the blocks [bs]: the frames of a block are
    in use, all of them but the last are followed by another frame of the
    block, blocks do not overlap, and every other frame is free. *)
Record coremap_rep (cm : coremap) (bs : gmap Z Z) : Prop := {
  rep_size : 0 <= size cm <= zlength (inUse cm);
  rep_len : zlength (containNext cm) = zlength (inUse cm);
  rep_in : forall s n, bs !! s = Some n -> 0 <= s /\ 0 < n /\ s + n <= size cm;
  rep_used : forall s n k, bs !! s = Some n -> 0 <= k < n ->
    inUse cm !! Z.to_nat (s + k) = Some 1 /\
    containNext cm !! Z.to_nat (s + k) = Some (if k =? n - 1 then 0 else 1);
  rep_disj : forall s n t m, bs !! s = Some n -> bs !! t = Some m -> s <> t ->
    s + n <= t \/ t + m <= s;
  rep_free : forall f, 0 <= f < size cm -> frame_free bs f ->
    inUse cm !! Z.to_nat f = Some 0;
}.

(** The allocator between two calls: no lock is held, and the frames lie in
    the memory that [vm_bootstrap] took over. *)
Record vm_ok (s : vm) (bs : gmap Z Z) : Prop := {
  vm_created : iscmapCreated s = true;
  vm_unlocked1 : stealmem_lock s = false;
  vm_unlocked2 : spinlock_coremap s = false;
  vm_rep : coremap_rep (core_map s) bs;
  vm_base : addr_lo s = baseAddr (core_map s);
  vm_aligned : baseAddr (core_map s) mod PAGE_SIZE = 0;
  vm_positive : 0 < baseAddr (core_map s);
  vm_fits : baseAddr (core_map s) + size (core_map s) * PAGE_SIZE <= addr_hi s;
  vm_top : addr_hi s <= 508 * 1024 * 1024;
}.

(** [n] free frames from [g] on. *)
Definition fits (cm : coremap) (g n : Z) : Prop :=
  g + n <= size cm /\ forall k, 0 <= k < n -> inUse cm !! Z.to_nat (g + k) = Some 0.

(** ** The loops *)

Lemma store_inUse_ok s i x :
  0 <= i < zlength (inUse (core_map s)) ->
  store_inUse i x s =
  Ret (tt, set_core_map s (with_inUse (core_map s)
             (<[Z.to_nat i := x]> (inUse (core_map s))))).
Proof. intros Hi. unfold store_inUse. mrun. rewrite set_at_in_range by done. by mrun. Qed.

Lemma store_containNext_ok s i x :
  0 <= i < zlength (containNext (core_map s)) ->
  store_containNext i x s =
  Ret (tt, set_core_map s (with_containNext (core_map s)
             (<[Z.to_nat i := x]> (containNext (core_map s))))).
Proof. intros Hi. unfold store_containNext. mrun. rewrite set_at_in_range by done. by mrun. Qed.

(** The counting loop: it stops at [n] frames, at the end, or at a frame in
    use, and everything before is free. *)
Lemma count_free_spec cm n fuel count sofar :
  0 <= sofar <= size cm -> size cm <= zlength (inUse cm) -> count <= n ->
  size cm - sofar < Z.of_nat fuel ->
  exists c, count_free fuel cm n count sofar = Ret c /\ count <= c <= n /\
    sofar + (c - count) <= size cm /\
    (forall k, 0 <= k < c - count -> inUse cm !! Z.to_nat (sofar + k) = Some 0) /\
    (c < n -> sofar + (c - count) = size cm \/
       exists u, inUse cm !! Z.to_nat (sofar + (c - count)) = Some u /\ u <> 0).
Proof.
  revert count sofar. induction fuel as [|fuel IH]; intros count sofar Hs Hl Hc Hf; [lia|].
  cbn [count_free].
  destruct (Z.ltb_spec count n); cbn [andb].
  2: { exists count. replace (count - count) with 0 by lia. split_and!; done || lia. }
  destruct (Z.ltb_spec sofar (size cm)).
  2: { exists count. replace (count - count) with 0 by lia. split_and!; try done; lia. }
  destruct (get_at_in_range (inUse cm) sofar) as (u & Hg & Hu); [lia|]. rewrite Hg.
  destruct (Z.eqb_spec u 0) as [->|Hne].
  - destruct (IH (count + 1) (sofar + 1)) as (c & E & Hcr & Hsz & Hk & Hstop); try lia.
    exists c. split_and!; [done|lia|lia|lia| |].
    + intros k Hkr. destruct (Z.eq_dec k 0) as [->|]; [by rewrite Z.add_0_r|].
      replace (sofar + k) with (sofar + 1 + (k - 1)) by lia. apply Hk. lia.
    + intros Hlt. replace (sofar + (c - count)) with (sofar + 1 + (c - (count + 1))) by lia.
      auto.
  - exists count. replace (count - count) with 0 by lia. rewrite Z.add_0_r.
    split_and!; try done; try lia. intros _. right. eauto.
Qed.

(** The state that [claim_frames] leaves: the frames [i .. i+n-1] marked. *)
Lemma claim_frames_spec s i n :
  0 <= i -> 0 < n -> i + n <= zlength (inUse (core_map s)) ->
  zlength (containNext (core_map s)) = zlength (inUse (core_map s)) ->
  exists us cs,
    claim_frames i n s = Ret (tt, set_core_map s
      (mk_coremap (baseAddr (core_map s)) us cs (size (core_map s)))) /\
    zlength us = zlength (inUse (core_map s)) /\ zlength cs = zlength us /\
    (forall f, 0 <= f -> us !! Z.to_nat f =
       if (i <=? f) && (f <? i + n) then Some 1 else inUse (core_map s) !! Z.to_nat f) /\
    (forall f, 0 <= f -> cs !! Z.to_nat f =
       if (i <=? f) && (f <? i + n) then Some (if f =? i + n - 1 then 0 else 1)
       else containNext (core_map s) !! Z.to_nat f).
Proof.
  intros Hi Hn Hl Hc. unfold claim_frames.
  match goal with |- context [for_ _ 0 ?b s] =>
  destruct (for_inv (fun j st => exists us cs,
      st = set_core_map s (mk_coremap (baseAddr (core_map s)) us cs (size (core_map s))) /\
      zlength us = zlength (inUse (core_map s)) /\ zlength cs = zlength us /\
      (forall f, 0 <= f -> us !! Z.to_nat f =
         if (i <=? f) && (f <? i + j) then Some 1 else inUse (core_map s) !! Z.to_nat f) /\
      (forall f, 0 <= f -> cs !! Z.to_nat f =
         if (i <=? f) && (f <? i + j) then Some (if f =? i + n - 1 then 0 else 1)
         else containNext (core_map s) !! Z.to_nat f)) b (Z.to_nat n) 0 s)
    as (s' & E & us & cs & -> & H1 & H2 & H3 & H4)
  end.
  - exists (inUse (core_map s)), (containNext (core_map s)).
    split_and!; [by destruct s as [? ? ? ? ? [] ? ?]|done|done|..];
      intros f Hf; rewrite Z.add_0_r;
      destruct (Z.leb_spec i f), (Z.ltb_spec f i); cbn; lia || done.
  - intros j st Hj (us & cs & -> & H1 & H2 & H3 & H4).
    erewrite bind_ok by (apply store_inUse_ok; cbn; lia).
    exists (set_core_map s (mk_coremap (baseAddr (core_map s)) (<[Z.to_nat (i + j) := 1]> us)
      (<[Z.to_nat (i + j) := if j =? n - 1 then 0 else 1]> cs) (size (core_map s)))).
    split.
    { destruct (j =? n - 1); cbn [negb]; rewrite store_containNext_ok by (cbn; lia); done. }
    exists (<[Z.to_nat (i + j) := 1]> us), (<[Z.to_nat (i + j) := if j =? n - 1 then 0 else 1]> cs).
    split_and!; [done|by rewrite zlength_insert|by rewrite !zlength_insert|..]; intros f Hf.
    all: destruct (Z.eq_dec f (i + j)) as [->|].
    1,3: rewrite list_lookup_insert_eq by (unfold zlength in *; lia);
         destruct (Z.leb_spec i (i + j)), (Z.ltb_spec (i + j) (i + (j + 1))); try lia; cbn; try done.
    { destruct (Z.eqb_spec j (n - 1)), (Z.eqb_spec (i + j) (i + n - 1)); lia || done. }
    all: rewrite list_lookup_insert_ne by lia; rewrite ?H3, ?H4 by done;
      destruct (Z.leb_spec i f), (Z.ltb_spec f (i + j)), (Z.ltb_spec f (i + (j + 1)));
      cbn; lia || done.
  - exists us, cs. rewrite Z2Nat.id in * by lia. split_and!; done.
Qed.

(** A run that fits is the same thing in the arrays and in the blocks. *)
Lemma rep_not_free cm bs f :
  coremap_rep cm bs -> 0 <= f < size cm -> inUse cm !! Z.to_nat f = Some 0 -> frame_free bs f.
Proof.
  intros Hr Hf Hu s n Hs Hin.
  destruct (rep_used cm bs Hr s n (f - s) Hs) as [Hu' _]; [lia|].
  replace (s + (f - s)) with f in Hu' by lia. congruence.
Qed.

Lemma fits_free cm bs g n :
  coremap_rep cm bs -> 0 <= g ->
  fits cm g n <-> g + n <= size cm /\ forall k, 0 <= k < n -> frame_free bs (g + k).
Proof.
  intros Hr Hg. split; intros [Hsz Hk]; (split; [done|]); intros k Hkr.
  - eapply rep_not_free; [done|lia|auto].
  - eapply rep_free; [done|lia|auto].
Qed.

(** The search stops at the first run that fits, claims it, and finds one if
    there is one. *)
Lemma search_frames_spec s n fuel i :
  0 <= i -> 0 < n -> size (core_map s) <= zlength (inUse (core_map s)) ->
  0 < Z.of_nat fuel -> size (core_map s) - i < Z.of_nat fuel ->
  (search_frames fuel n i s = Ret (None, s) /\
   forall g, i <= g -> ~ fits (core_map s) g n) \/
  (exists g, i <= g /\ fits (core_map s) g n /\
     (forall g', i <= g' < g -> ~ fits (core_map s) g' n) /\
     search_frames fuel n i s = (do* claim_frames g n in ret (Some g)) s).
Proof.
  revert i. induction fuel as [|fuel IH]; intros i Hi Hn Hl Hp Hf; [lia|].
  cbn [search_frames]. mrun.
  destruct (Z.ltb_spec i (size (core_map s))).
  2: { left. split; [done|]. intros g Hg [Hfit _]. lia. }
  destruct (get_at_in_range (inUse (core_map s)) i) as (u & Hg & Hu); [lia|].
  rewrite Hg. mrun.
  destruct (Z.eqb_spec u 0) as [->|Hne].
  - destruct (count_free_spec (core_map s) n (S (length (inUse (core_map s)))) 0 i)
      as (c & E & Hc & Hsz & Hk & Hstop); [lia|done|lia|unfold zlength in *; lia|].
    rewrite E. mrun. rewrite Z.sub_0_r in *.
    destruct (Z.ltb_spec c n) as [Hlt|Hge].
    + assert (forall g, i <= g <= i + c -> ~ fits (core_map s) g n) as Hno.
      { intros g Hgr [Hfit Hfr]. destruct (Hstop Hlt) as [Hend|(u & Hu' & Hu0)]; [lia|].
        specialize (Hfr (i + c - g)). replace (g + (i + c - g)) with (i + c) in Hfr by lia.
        rewrite Hfr in Hu' by lia. congruence. }
      destruct (IH (i + c + 1)) as [[E' Hno']|(g & Hgi & Hfit & Hno' & E')]; try lia.
      * left. split; [done|]. intros g Hgi. destruct (Z.le_gt_cases g (i + c)); auto with lia.
      * right. exists g. split_and!; [lia|done| |done].
        intros g' Hg'. destruct (Z.le_gt_cases g' (i + c)); [apply Hno|apply Hno']; lia.
    + right. exists i. split_and!; [lia| |lia|done].
      split; [lia|]. intros k Hkr. apply Hk. lia.
  - assert (~ fits (core_map s) i n) as Hno.
    { intros [_ Hfr]. specialize (Hfr 0 ltac:(lia)). rewrite Z.add_0_r in Hfr. congruence. }
    destruct (IH (i + 1)) as [[E' Hno']|(g & Hgi & Hfit & Hno' & E')]; try lia.
    + left. split; [done|]. intros g Hgi. destruct (Z.eq_dec g i) as [->|]; auto with lia.
    + right. exists g. split_and!; [lia|done| |done].
      intros g' Hg'. destruct (Z.eq_dec g' i) as [->|]; auto with lia.
Qed.

(** Claiming free frames adds a block to the represented allocator. *)
Lemma claim_rep cm bs g n us cs :
  coremap_rep cm bs -> 0 <= g -> 0 < n -> fits cm g n ->
  zlength us = zlength (inUse cm) -> zlength cs = zlength us ->
  (forall f, 0 <= f -> us !! Z.to_nat f =
     if (g <=? f) && (f <? g + n) then Some 1 else inUse cm !! Z.to_nat f) ->
  (forall f, 0 <= f -> cs !! Z.to_nat f =
     if (g <=? f) && (f <? g + n) then Some (if f =? g + n - 1 then 0 else 1)
     else containNext cm !! Z.to_nat f) ->
  coremap_rep (mk_coremap (baseAddr cm) us cs (size cm)) (<[g := n]> bs).
Proof.
  intros Hr Hg Hn Hfit H1 H2 H3 H4.
  apply (proj1 (fits_free cm bs g n Hr Hg)) in Hfit as [Hsz Hfree].
  assert (Hsep : forall t m, bs !! t = Some m -> t + m <= g \/ g + n <= t).
  { intros t m Ht. destruct (rep_in cm bs Hr t m Ht) as (Ht0 & Hm & _).
    destruct (Z.le_gt_cases (t + m) g); [by left|].
    destruct (Z.le_gt_cases (g + n) t); [by right|]. exfalso.
    destruct (Z.le_gt_cases t g).
    - apply (Hfree 0 ltac:(lia) t m Ht). lia.
    - apply (Hfree (t - g) ltac:(lia) t m Ht). lia. }
  split; cbn [size inUse containNext].
  - rewrite H1. apply Hr.
  - done.
  - intros t m. rewrite lookup_insert. case_decide; [intros [= <-]; lia|]. by apply Hr.
  - intros t m k. rewrite lookup_insert. case_decide as Et; [subst t; intros [= <-]|intros Ht]; intros Hk.
    + rewrite H3, H4 by lia.
      destruct (Z.leb_spec g (g + k)), (Z.ltb_spec (g + k) (g + n)); try lia. cbn.
      split; [done|]. f_equal.
      destruct (Z.eqb_spec (g + k) (g + n - 1)), (Z.eqb_spec k (n - 1)); lia || done.
    + destruct (rep_in cm bs Hr t m Ht). rewrite H3, H4 by lia. destruct (Hsep t m Ht);
      destruct (Z.leb_spec g (t + k)), (Z.ltb_spec (t + k) (g + n)); try lia; cbn;
      by apply (rep_used cm bs Hr t m k).
  - intros t m t' m'. rewrite !lookup_insert. do 2 case_decide; subst; intros Ht Ht' Hne;
      try congruence.
    + injection Ht as <-. destruct (Hsep t' m' Ht'); lia.
    + injection Ht' as <-. destruct (Hsep t m Ht); lia.
    + by eapply rep_disj.
  - intros f Hf Hff. rewrite H3 by lia.
    assert (frame_free bs f /\ ~ (g <= f < g + n)) as [Hbf Hout].
    { split.
      - intros t m Ht Hin. apply (Hff t m); [|done]. rewrite lookup_insert_ne; [done|].
        intros <-. apply (Hfree 0 ltac:(lia) g m Ht). destruct (rep_in cm bs Hr g m Ht). lia.
      - apply Hff. apply lookup_insert_eq. }
    destruct (Z.leb_spec g f), (Z.ltb_spec f (g + n)); cbn; try lia; by apply (rep_free cm bs Hr).
Qed.

(** ** getppages and alloc_kpages *)

Lemma vm_ok_core_map s bs cm bs' :
  vm_ok s bs -> coremap_rep cm bs' ->
  baseAddr cm = baseAddr (core_map s) -> size cm = size (core_map s) ->
  vm_ok (set_core_map s cm) bs'.
Proof. intros [] Hr Hb Hs. split; cbn; rewrite ?Hb, ?Hs; done. Qed.

Lemma relock_stealmem s cm :
  stealmem_lock s = false ->
  set_stealmem_lock (set_core_map (set_stealmem_lock s true) cm) false = set_core_map s cm.
Proof. destruct s; cbn. by intros ->. Qed.

Lemma unlocked_stealmem s :
  stealmem_lock s = false -> set_stealmem_lock (set_stealmem_lock s true) false = s.
Proof. destruct s; cbn. by intros ->. Qed.

(** The physical address of frame [f]. *)
Definition frame_addr (s : vm) (f : Z) : Z := baseAddr (core_map s) + f * PAGE_SIZE.

Lemma frame_addr_range s bs f :
  vm_ok s bs -> 0 <= f -> f <= size (core_map s) ->
  addr_lo s <= frame_addr s f <= addr_hi s /\ 0 < frame_addr s f <= 508 * 1024 * 1024 /\
  w32 (f * PAGE_SIZE + baseAddr (core_map s)) = frame_addr s f.
Proof.
  intros [] Hf Hs. unfold frame_addr, PAGE_SIZE in *.
  rewrite w32_id; [lia|]. unfold is_u32, two32. lia.
Qed.

(** With the coremap in place [getppages] either claims the first fit or
    reports [ENOMEM] without touching the state. *)
Lemma getppages_cases s bs n :
  vm_ok s bs -> 0 < n <= size (core_map s) ->
  (getppages n s = Ret (ENOMEM, s) /\ forall g, 0 <= g -> ~ fits (core_map s) g n) \/
  (exists g s', getppages n s = Ret (frame_addr s g, s') /\
     0 <= g /\ fits (core_map s) g n /\
     (forall g', 0 <= g' < g -> ~ fits (core_map s) g' n) /\
     vm_ok s' (<[g := n]> bs) /\
     s' = set_core_map s (core_map s') /\ baseAddr (core_map s') = baseAddr (core_map s) /\
     size (core_map s') = size (core_map s)).
Proof.
  intros Hok Hn. pose proof Hok as [Hcr Hl1 Hl2 Hr Hb Ha Hp Hfit Htop].
  pose proof (rep_size _ _ Hr). unfold getppages, acquire_stealmem. mrun. rewrite Hl1. mrun.
  cbn [iscmapCreated set_stealmem_lock]. rewrite Hcr. cbn [negb].
  assert (s32 n = n) as ->.
  { apply s32_id. unfold is_s32, PAGE_SIZE in *. lia. }
  cbn [core_map set_stealmem_lock]. rewrite (proj2 (Z.leb_le n _)) by lia. mrun.
  set (s1 := set_stealmem_lock s true).
  destruct (search_frames_spec s1 n (S (length (inUse (core_map s)))) 0)
    as [[E Hno]|(g & Hg & Hfg & Hlow & E)]; cbn [s1 core_map set_stealmem_lock] in *;
    [lia|lia|lia|lia|unfold zlength in *; lia| |].
  - left. rewrite (bind_ok _ _ _ _ _ E). unfold release_stealmem. mrun.
    cbn [s1 stealmem_lock set_stealmem_lock]. mrun.
    unfold s1. rewrite unlocked_stealmem by done. auto.
  - right.
    destruct (claim_frames_spec s1 g n) as (us & cs & Ec & H1 & H2 & H3 & H4);
      [lia|lia| |apply (rep_len _ _ Hr)|].
    { cbn. destruct Hfg. lia. }
    rewrite (bind_ok _ _ _ _ _ Ec) in E. rewrite (bind_ok _ _ _ _ _ E).
    unfold release_stealmem. mrun. cbn [s1 stealmem_lock set_core_map set_stealmem_lock]. mrun.
    destruct (frame_addr_range s bs g) as (Hr1 & _ & ->); [done|done|destruct Hfg; lia|].
    cbn [addr_hi addr_lo s1 set_stealmem_lock].
    rewrite !(proj2 (Z.leb_le _ _)) by lia. cbn [andb]. mrun.
    eexists g, _. split; [done|]. unfold s1. rewrite relock_stealmem by done.
    cbn [core_map set_core_map set_stealmem_lock baseAddr size] in *.
    split_and!; try done. apply vm_ok_core_map with bs; try done.
    apply claim_rep; done || lia.
Qed.

(** A run of [n] frames outside every block, among [sz] frames. *)
Definition free_run (sz : Z) (bs : gmap Z Z) (n g : Z) : Prop :=
  0 <= g /\ g + n <= sz /\ forall k, 0 <= k < n -> frame_free bs (g + k).

Lemma free_run_fits cm bs n g :
  coremap_rep cm bs -> free_run (size cm) bs n g <-> 0 <= g /\ fits cm g n.
Proof.
  intros Hr. unfold free_run. split.
  - intros (? & ? & ?). split; [done|]. by apply (fits_free _ bs).
  - intros [Hg Hf]. apply (fits_free _ bs) in Hf; tauto.
Qed.

Lemma free_run_new bs sz n g :
  (forall t m, bs !! t = Some m -> 0 < m) -> 0 < n -> free_run sz bs n g -> bs !! g = None.
Proof.
  intros Hpos Hn (_ & _ & Hfree). destruct (bs !! g) as [m|] eqn:Eb; [|done].
  exfalso. apply (Hfree 0 ltac:(lia) g m Eb). specialize (Hpos g m Eb). lia.
Qed.

(** [getppages] in terms of the blocks. *)
Lemma getppages_abs s bs n :
  vm_ok s bs -> 0 < n <= size (core_map s) ->
  (getppages n s = Ret (ENOMEM, s) /\ forall g, ~ free_run (size (core_map s)) bs n g) \/
  (exists g s', getppages n s = Ret (frame_addr s g, s') /\
     free_run (size (core_map s)) bs n g /\
     (forall g', g' < g -> ~ free_run (size (core_map s)) bs n g') /\
     vm_ok s' (<[g := n]> bs) /\ s' = set_core_map s (core_map s') /\
     baseAddr (core_map s') = baseAddr (core_map s) /\
     size (core_map s') = size (core_map s)).
Proof.
  intros Hok Hn. pose proof (vm_rep s bs Hok) as Hr.
  destruct (getppages_cases s bs n Hok Hn)
    as [[E Hno]|(g & s' & E & Hg & Hf & Hlow & Hok' & Hrest)]; [left|right].
  - split; [done|]. intros g [Hg Hf]%(free_run_fits _ _ _ _ Hr). by apply (Hno g).
  - exists g, s'. split_and!; try done; try apply Hrest.
    + by apply free_run_fits.
    + intros g' Hlt [Hg' Hf']%(free_run_fits _ _ _ _ Hr). apply (Hlow g'); auto with lia.
Qed.

(** [getppages] on a booted system is a first-fit allocator: it returns
    the page-aligned address of the lowest run of [n] frames that belongs to
    no block, adds exactly that block, and leaves no lock held; it gives up
    exactly when there is no such run, and then leaves the state as it was.
    In no case does it panic or touch memory outside the coremap. *)
Theorem getppages_first_fit (s : vm) (bs : gmap Z Z) (n : Z)
    (Hok : vm_ok s bs) (Hn : 0 < n <= size (core_map s)) :
  (getppages n s = Ret (ENOMEM, s) /\ forall g, ~ free_run (size (core_map s)) bs n g) \/
  (exists g s', getppages n s = Ret (frame_addr s g, s') /\
     free_run (size (core_map s)) bs n g /\
     (forall g', g' < g -> ~ free_run (size (core_map s)) bs n g') /\ bs !! g = None /\
     frame_addr s g mod PAGE_SIZE = 0 /\ vm_ok s' (<[g := n]> bs)).
Proof.
  destruct (getppages_abs s bs n Hok Hn) as [[E Hno]|(g & s' & E & Hf & Hlow & Hok' & _)].
  - by left.
  - right. exists g, s'. split_and!; try done.
    + apply (free_run_new bs (size (core_map s)) n g); [|lia|done]. intros t m Ht.
      apply (rep_in _ _ (vm_rep s bs Hok) t m Ht).
    + unfold frame_addr. rewrite Z.mod_add by (unfold PAGE_SIZE; lia). apply Hok.
Qed.

(** ** free_kpages *)

(** The release loop clears the frames of the block but the last one and
    stops there. *)
Lemma release_run_spec fuel s us g n k :
  0 <= g -> 0 <= k < n -> g + n <= size (core_map s) ->
  size (core_map s) <= zlength (inUse (core_map s)) ->
  zlength us = zlength (inUse (core_map s)) ->
  n - k <= Z.of_nat fuel ->
  (forall j, 0 <= j < n ->
     containNext (core_map s) !! Z.to_nat (g + j) = Some (if j =? n - 1 then 0 else 1)) ->
  (forall f, 0 <= f -> us !! Z.to_nat f =
     if (g <=? f) && (f <? g + k) then Some 0 else inUse (core_map s) !! Z.to_nat f) ->
  exists us', release_run fuel (g + k) (set_core_map s (with_inUse (core_map s) us)) =
      Ret (g + n - 1, set_core_map s (with_inUse (core_map s) us')) /\
    zlength us' = zlength us /\
    (forall f, 0 <= f -> us' !! Z.to_nat f =
       if (g <=? f) && (f <? g + n - 1) then Some 0 else inUse (core_map s) !! Z.to_nat f).
Proof.
  revert us k. induction fuel as [|fuel IH]; intros us k Hg Hk Hsz Hl Hus Hf Hc Hu; [lia|].
  cbn [release_run]. mrun. cbn [core_map set_core_map with_inUse size containNext].
  rewrite (proj2 (Z.ltb_lt _ _)) by lia.
  rewrite (get_at_lookup _ (g + k) _ ltac:(lia) (Hc k ltac:(lia))). mrun.
  destruct (Z.eqb_spec k (n - 1)) as [->|Hne].
  - change (0 =? 1) with false. cbn iota. exists us. split_and!.
    + unfold ret. do 3 f_equal. lia.
    + done.
    + intros f Hf0. rewrite Hu by done. by replace (g + (n - 1)) with (g + n - 1) by lia.
  - change (1 =? 1) with true. cbn iota.
    erewrite bind_ok by (apply store_inUse_ok; cbn; lia).
    cbn [core_map set_core_map with_inUse baseAddr containNext size inUse].
    replace (g + k + 1) with (g + (k + 1)) by lia.
    destruct (IH (<[Z.to_nat (g + k) := 0]> us) (k + 1)) as (us' & E & Hl' & Hu');
      try done; try lia.
    + by rewrite zlength_insert.
    + intros f Hf0. destruct (Z.eq_dec f (g + k)) as [->|].
      * rewrite list_lookup_insert_eq by (unfold zlength in *; lia).
        destruct (Z.leb_spec g (g + k)), (Z.ltb_spec (g + k) (g + (k + 1))); cbn; lia || done.
      * rewrite list_lookup_insert_ne, Hu by lia.
        destruct (Z.leb_spec g f), (Z.ltb_spec f (g + k)), (Z.ltb_spec f (g + (k + 1)));
          cbn; lia || done.
    + exists us'. split_and!; [exact E|by rewrite Hl', zlength_insert|done].
Qed.

(** Clearing the frames of a block removes the block. *)
Lemma release_rep cm bs g n us :
  coremap_rep cm bs -> bs !! g = Some n -> zlength us = zlength (inUse cm) ->
  (forall f, 0 <= f -> us !! Z.to_nat f =
     if (g <=? f) && (f <? g + n) then Some 0 else inUse cm !! Z.to_nat f) ->
  coremap_rep (with_inUse cm us) (delete g bs).
Proof.
  intros Hr Hg Hl Hu. destruct (rep_in cm bs Hr g n Hg) as (Hg0 & Hn & Hsz).
  split; cbn [size inUse containNext with_inUse].
  - rewrite Hl. apply Hr.
  - rewrite Hl. apply Hr.
  - intros t m [_ Ht]%lookup_delete_Some. by apply Hr.
  - intros t m k [Hne Ht]%lookup_delete_Some Hk.
    destruct (rep_in cm bs Hr t m Ht). rewrite Hu by lia.
    destruct (rep_disj cm bs Hr g n t m Hg Ht Hne);
      destruct (Z.leb_spec g (t + k)), (Z.ltb_spec (t + k) (g + n)); try lia; cbn;
      by apply (rep_used cm bs Hr t m k).
  - intros t m t' m' [_ Ht]%lookup_delete_Some [_ Ht']%lookup_delete_Some. by eapply rep_disj.
  - intros f Hf Hff. rewrite Hu by lia.
    destruct (Z.leb_spec g f), (Z.ltb_spec f (g + n)); cbn; try done.
    all: apply (rep_free cm bs Hr); [lia|]; intros t m Ht Hin.
    all: apply (Hff t m); [|done]; apply lookup_delete_Some; split; [|done].
    all: intros <-; rewrite Hg in Ht; injection Ht as <-; lia.
Qed.

Lemma frame_index s bs f :
  vm_ok s bs -> 0 <= f < size (core_map s) ->
  Z.quot (s32 (w32 (PADDR_TO_KVADDR (frame_addr s f) -
                    w32 (baseAddr (core_map s) + MIPS_KSEG0)))) PAGE_SIZE = f.
Proof.
  intros [] Hf. unfold PADDR_TO_KVADDR, frame_addr, MIPS_KSEG0, PAGE_SIZE in *.
  rewrite !(w32_id (_ + 2147483648)) by (unfold is_u32, two32; lia).
  rewrite w32_id, s32_id by (unfold is_u32, is_s32, two32; lia).
  replace (_ - _) with (f * 4096) by lia. apply Z.quot_mul. lia.
Qed.

(** [free_kpages] in terms of the blocks. *)
Lemma free_kpages_abs s bs g n :
  vm_ok s bs -> bs !! g = Some n ->
  exists us, free_kpages (PADDR_TO_KVADDR (frame_addr s g)) s =
      Ret (tt, set_core_map s (with_inUse (core_map s) us)) /\
    vm_ok (set_core_map s (with_inUse (core_map s) us)) (delete g bs) /\
    (forall f, 0 <= f -> us !! Z.to_nat f =
       if (g <=? f) && (f <? g + n) then Some 0 else inUse (core_map s) !! Z.to_nat f).
Proof.
  intros Hok Hg. pose proof Hok as [Hcr Hl1 Hl2 Hr Hb Ha Hp Hfit Htop].
  destruct (rep_in _ _ Hr g n Hg) as (Hg0 & Hn & Hsz). pose proof (rep_size _ _ Hr).
  unfold free_kpages. mrun. rewrite Hcr. cbn [negb].
  unfold acquire_coremap. mrun. rewrite Hl2. mrun.
  rewrite (frame_index s bs g Hok) by lia.
  set (s1 := set_spinlock_coremap s true).
  destruct (release_run_spec (S (length (inUse (core_map s)))) s1 (inUse (core_map s)) g n 0)
    as (us & E & Hlen & Hu); cbn [s1 core_map set_spinlock_coremap];
    [done|lia|lia|lia|done|unfold zlength in *; lia| | |].
  { intros j Hj. by apply (rep_used _ _ Hr g n j). }
  { intros f Hf. rewrite Z.add_0_r. by destruct (Z.leb_spec g f), (Z.ltb_spec f g); cbn; lia || done. }
  rewrite Z.add_0_r in E.
  replace (set_core_map s1 (with_inUse (core_map s1) (inUse (core_map s)))) with s1 in E
    by (unfold s1; by destruct s as [? ? ? ? ? [] ? ?]).
  rewrite (bind_ok _ _ _ _ _ E).
  rewrite (proj2 (Z.ltb_lt (g + n - 1) _)) by lia.
  erewrite bind_ok by (apply store_inUse_ok; cbn; lia).
  unfold release_coremap. mrun. cbn [spinlock_coremap s1 set_core_map set_spinlock_coremap]. mrun.
  set (us' := <[Z.to_nat (g + n - 1) := 0]> us).
  assert (Hu' : forall f, 0 <= f -> us' !! Z.to_nat f =
     if (g <=? f) && (f <? g + n) then Some 0 else inUse (core_map s) !! Z.to_nat f).
  { intros f Hf. unfold us'. destruct (Z.eq_dec f (g + n - 1)) as [->|].
    - rewrite list_lookup_insert_eq by (unfold zlength in *; lia).
      destruct (Z.leb_spec g (g + n - 1)), (Z.ltb_spec (g + n - 1) (g + n)); cbn; lia || done.
    - rewrite list_lookup_insert_ne, Hu by lia. cbn [s1 core_map set_spinlock_coremap].
      destruct (Z.leb_spec g f), (Z.ltb_spec f (g + n)), (Z.ltb_spec f (g + n - 1));
        cbn; lia || done. }
  exists us'. split; [|split].
  - unfold put, s1, us'. f_equal. destruct s as [? ? ? ? ? [] ? ?]; cbn in *. by subst.
  - apply vm_ok_core_map with bs; try done. apply release_rep with n; try done.
    unfold us'. by rewrite zlength_insert.
  - done.
Qed.

(** [free_kpages] of the kernel address of an allocated block gives back
    exactly the frames of that block and no others, leaves the coremap lock
    free, and neither panics nor touches memory outside the coremap. *)
Theorem free_kpages_releases_block (s : vm) (bs : gmap Z Z) (g n : Z)
    (Hok : vm_ok s bs) (Hg : bs !! g = Some n) :
  exists s', free_kpages (PADDR_TO_KVADDR (frame_addr s g)) s = Ret (tt, s') /\
    vm_ok s' (delete g bs) /\
    (forall f, 0 <= f < size (core_map s) ->
       inUse (core_map s') !! Z.to_nat f =
       if (g <=? f) && (f <? g + n) then Some 0 else inUse (core_map s) !! Z.to_nat f).
Proof.
  destruct (free_kpages_abs s bs g n Hok Hg) as (us & E & Hok' & Hu).
  eexists. split; [exact E|]. split; [done|]. intros f Hf. apply Hu. lia.
Qed.

(** ** vm_bootstrap *)

Lemma align_up_spec fuel a :
  0 <= a -> a + PAGE_SIZE <= two32 -> - a mod PAGE_SIZE < Z.of_nat fuel ->
  align_up fuel a = Ret (a + - a mod PAGE_SIZE).
Proof.
  revert a. induction fuel as [|fuel IH]; intros a Ha Hb Hf.
  { pose proof (Z.mod_pos_bound (- a) PAGE_SIZE). unfold PAGE_SIZE in *. lia. }
  cbn [align_up]. unfold PAGE_SIZE, two32 in *.
  pose proof (Z.div_mod a 4096). pose proof (Z.mod_pos_bound a 4096).
  destruct (Z.eqb_spec (a mod 4096) 0) as [E|E].
  - rewrite Z.mod_opp_l_z by lia. f_equal. lia.
  - rewrite Z.mod_opp_l_nz in * by lia.
    rewrite w32_id by (unfold is_u32, two32; lia).
    destruct (Z.eq_dec (a mod 4096) 4095) as [E'|E'].
    + assert ((a + 1) mod 4096 = 0) as E1 by (symmetry; apply Z.mod_unique with (a / 4096 + 1); lia).
      destruct fuel as [|fuel]; [lia|]. cbn [align_up]. unfold PAGE_SIZE.
      rewrite E1. cbn [Z.eqb]. f_equal. lia.
    + assert ((a + 1) mod 4096 = a mod 4096 + 1) as E1
        by (symmetry; apply Z.mod_unique with (a / 4096); lia).
      rewrite IH; rewrite ?Z.mod_opp_l_nz, ?E1 by lia; [f_equal|..]; lia.
Qed.

(** The first page boundary at or after [a]. *)
Lemma align_up_aligned a : (a + - a mod PAGE_SIZE) mod PAGE_SIZE = 0.
Proof.
  unfold PAGE_SIZE. rewrite Z.add_mod_idemp_r by lia. by rewrite Z.add_opp_diag_r.
Qed.

Lemma clear_loop s n :
  zlength (inUse (core_map s)) = n -> zlength (containNext (core_map s)) = n ->
  exists us cs,
    for_ (Z.to_nat n) 0 (fun i => do* store_inUse i 0 in store_containNext i 0) s =
    Ret (tt, set_core_map s (mk_coremap (baseAddr (core_map s)) us cs (size (core_map s)))) /\
    zlength us = n /\ zlength cs = n /\
    forall f, 0 <= f < n -> us !! Z.to_nat f = Some 0 /\ cs !! Z.to_nat f = Some 0.
Proof.
  intros H1 H2. pose proof (zlength_nonneg (inUse (core_map s))).
  match goal with |- context [for_ _ 0 ?b s] =>
  destruct (for_inv (fun j st => exists us cs,
      st = set_core_map s (mk_coremap (baseAddr (core_map s)) us cs (size (core_map s))) /\
      zlength us = n /\ zlength cs = n /\
      forall f, 0 <= f < j -> us !! Z.to_nat f = Some 0 /\ cs !! Z.to_nat f = Some 0)
    b (Z.to_nat n) 0 s) as (s' & E & us & cs & -> & Hu & Hc & Hf)
  end.
  - eexists (inUse (core_map s)), (containNext (core_map s)).
    split_and!; [by destruct s as [? ? ? ? ? [] ? ?]|done|done|lia].
  - intros j st Hj (us & cs & -> & Hu & Hc & Hf).
    erewrite bind_ok by (apply store_inUse_ok; cbn; lia).
    rewrite store_containNext_ok by (cbn; lia). eexists. split; [done|].
    exists (<[Z.to_nat j := 0]> us), (<[Z.to_nat j := 0]> cs).
    rewrite !zlength_insert. split_and!; [done..|]. intros f Hfr.
    destruct (Z.eq_dec f j) as [->|].
    + rewrite !list_lookup_insert_eq by (unfold zlength in *; lia). done.
    + rewrite !list_lookup_insert_ne by lia. apply Hf. lia.
  - exists us, cs. split_and!; try done. intros f Hfr. apply Hf. lia.
Qed.

(** [vm_bootstrap], given page-aligned memory [lo .. hi) of at least one
    page, sets up a coremap with every frame free, whose frames are
    page-aligned, lie inside the memory, and start past the coremap and its
    two arrays; the arrays have an entry for every frame. *)
Theorem vm_bootstrap_establishes (s : vm) (raw1 raw2 : list Z)
    (Hlo : 0 <= firstpaddr s) (Hroom : firstpaddr s + PAGE_SIZE <= lastpaddr s)
    (Hhi : lastpaddr s <= 508 * 1024 * 1024) (Hal : lastpaddr s mod PAGE_SIZE = 0)
    (Hl : stealmem_lock s = false)
    (Hr1 : (lastpaddr s - firstpaddr s) / PAGE_SIZE <= zlength raw1)
    (Hr2 : (lastpaddr s - firstpaddr s) / PAGE_SIZE <= zlength raw2) :
  exists s', vm_bootstrap raw1 raw2 s = Ret (tt, s') /\ vm_ok s' ∅ /\
    firstpaddr s' = 0 /\ lastpaddr s' = 0 /\ addr_hi s' = lastpaddr s /\
    let metadata_end := firstpaddr s + sizeof_coremap +
          2 * sizeof_int * ((lastpaddr s - firstpaddr s) / PAGE_SIZE) in
    metadata_end <= baseAddr (core_map s') < metadata_end + PAGE_SIZE /\
    lastpaddr s - PAGE_SIZE < frame_addr s' (size (core_map s')) <= lastpaddr s.
Proof.
  set (fc := (lastpaddr s - firstpaddr s) / PAGE_SIZE) in *.
  unfold PAGE_SIZE in *.
  assert (Hdm := Z.div_mod (lastpaddr s - firstpaddr s) 4096 ltac:(lia)).
  assert (Hmb := Z.mod_pos_bound (lastpaddr s - firstpaddr s) 4096 ltac:(lia)).
  fold fc in Hdm. assert (1 <= fc) by lia.
  unfold vm_bootstrap, ram_getsize. mrun. cbn [firstpaddr lastpaddr set_spinlock_coremap].
  rewrite !(w32_id (lastpaddr s - firstpaddr s)) by (unfold is_u32, two32; lia).
  unfold PAGE_SIZE at 1 2 3 4 5 6. fold fc. rewrite !(s32_id fc) by (unfold is_s32; lia).
  unfold sizeof_coremap, sizeof_int in *.
  rewrite !(w32_id (firstpaddr s + 16)), !(w32_id (firstpaddr s + 16 + _)),
    !(w32_id (firstpaddr s + 16 + 4 * fc + _)) by (unfold is_u32, two32; lia).
  set (me := firstpaddr s + 16 + 4 * fc + 4 * fc).
  assert (Hpad := Z.mod_pos_bound (- me) 4096 ltac:(lia)).
  assert (Hba := align_up_aligned me).
  rewrite align_up_spec by (unfold PAGE_SIZE, two32; lia). unfold PAGE_SIZE in *.
  set (base := me + - me mod 4096) in *.
  assert (Hbase : base <= lastpaddr s).
  { pose proof (Z.div_mod base 4096). pose proof (Z.div_mod (lastpaddr s) 4096). lia. }
  mrun. rewrite !(w32_id (lastpaddr s - base)) by (unfold is_u32, two32; lia).
  set (n := (lastpaddr s - base) / 4096).
  assert (Hdn := Z.div_mod (lastpaddr s - base) 4096 ltac:(lia)). fold n in Hdn.
  assert (Hmn := Z.mod_pos_bound (lastpaddr s - base) 4096 ltac:(lia)).
  rewrite !(s32_id n) by (unfold is_s32; lia).
  match goal with |- context [bind (for_ _ _ _) _ ?st] => set (s1 := st) end.
  destruct (clear_loop s1 fc) as (us & cs & E & Hus & Hcs & Hz).
  1,2: cbn; unfold zlength in *; rewrite length_take; lia.
  rewrite (bind_ok _ _ _ _ _ E). unfold modify. eexists. split; [done|].
  cbn [core_map set_created set_core_map s1 baseAddr size firstpaddr lastpaddr addr_hi
       set_addr_lo set_addr_hi set_ram set_spinlock_coremap frame_addr].
  split_and!; try done; try lia. 2,3: unfold frame_addr, PAGE_SIZE; cbn; lia.
  split; cbn; try done; try lia.
  - split; cbn; try done; try lia.
    intros f Hf _. apply Hz. lia.
  - unfold PAGE_SIZE. lia.
Qed.

(** ** Sequences of allocations and releases *)

Inductive page_op := PAlloc (n : Z) | PFree (g : Z).
Inductive page_answer := Got (g : Z) | Full | Freed.

(** The abstract allocator: the state is the map of blocks, an allocation
    takes the lowest run, and the answer is a frame or nothing. *)
Inductive page_trace (sz : Z) : gmap Z Z -> list page_op -> list page_answer -> gmap Z Z -> Prop :=
  | pt_nil bs : page_trace sz bs [] [] bs
  | pt_alloc bs n g ops rs bs' :
      0 < n <= sz -> free_run sz bs n g -> (forall g', g' < g -> ~ free_run sz bs n g') ->
      page_trace sz (<[g := n]> bs) ops rs bs' ->
      page_trace sz bs (PAlloc n :: ops) (Got g :: rs) bs'
  | pt_full bs n ops rs bs' :
      0 < n <= sz -> (forall g, ~ free_run sz bs n g) ->
      page_trace sz bs ops rs bs' ->
      page_trace sz bs (PAlloc n :: ops) (Full :: rs) bs'
  | pt_free bs g n ops rs bs' :
      bs !! g = Some n -> page_trace sz (delete g bs) ops rs bs' ->
      page_trace sz bs (PFree g :: ops) (Freed :: rs) bs'.

(** The same operations on the coremap. *)
Definition do_page_op (op : page_op) : M vm (option Z) :=
  match op with
  | PAlloc n => let* pa := getppages n in ret (Some pa)
  | PFree g => let* s := get in
               do* free_kpages (PADDR_TO_KVADDR (frame_addr s g)) in ret None
  end.

Fixpoint run_page_ops (ops : list page_op) : M vm (list (option Z)) :=
  match ops with
  | [] => ret []
  | op :: ops' => let* r := do_page_op op in
                  let* rs := run_page_ops ops' in ret (r :: rs)
  end.

(** The abstract answer as what the code returns: the physical address of the
    frame, or an error number. *)
Definition answer (s : vm) (r : page_answer) : option Z :=
  match r with Got g => Some (frame_addr s g) | Full => Some ENOMEM | Freed => None end.

Lemma free_run_unique sz bs n g g' :
  free_run sz bs n g -> (forall x, x < g -> ~ free_run sz bs n x) ->
  free_run sz bs n g' -> (forall x, x < g' -> ~ free_run sz bs n x) -> g = g'.
Proof.
  intros H1 H2 H3 H4. destruct (Z.lt_trichotomy g g') as [Hlt|[?|Hlt]]; [|done|].
  - by destruct (H4 g Hlt).
  - by destruct (H2 g' Hlt).
Qed.

Lemma answer_base s s' r :
  baseAddr (core_map s') = baseAddr (core_map s) -> answer s' r = answer s r.
Proof. intros Hb. unfold answer, frame_addr. by rewrite Hb. Qed.

(** C8. The coremap implements the abstract page allocator: whatever sequence
    of allocations and releases of live blocks is made, the code answers each
    one as the abstract allocator does, and ends in a state that represents
    the abstract allocator's blocks. *)
Theorem coremap_refines_blocks (s : vm) (bs bs' : gmap Z Z) ops rs
    (Hok : vm_ok s bs) (Htr : page_trace (size (core_map s)) bs ops rs bs') :
  exists s', run_page_ops ops s = Ret (map (answer s) rs, s') /\ vm_ok s' bs'.
Proof.
  remember (size (core_map s)) as sz eqn:Hsz. revert s Hok Hsz.
  induction Htr as [bs|bs n g ops rs bs' Hn Hrun Hlow _ IH|bs n ops rs bs' Hn Hno _ IH
                    |bs g n ops rs bs' Hg _ IH]; intros s Hok ->; cbn [run_page_ops do_page_op map].
  - eauto.
  - destruct (getppages_abs s bs n Hok Hn)
      as [[_ Hno]|(g' & s1 & E & Hrun' & Hlow' & Hok1 & _ & Hb & Hs)]; [by destruct (Hno g)|].
    pose proof (free_run_unique _ _ _ _ _ Hrun' Hlow' Hrun Hlow) as ->.
    destruct (IH s1 Hok1) as (s2 & E2 & Hok2); [done|].
    exists s2. rewrite bind_bind, (bind_ok _ _ _ _ _ E), bind_ret, (bind_ok _ _ _ _ _ E2). split; [|done].
    unfold ret. do 3 f_equal. apply map_ext. intros r. by apply answer_base.
  - destruct (getppages_abs s bs n Hok Hn) as [[E _]|(g' & s1 & _ & Hrun' & _)];
      [|by destruct (Hno g')].
    destruct (IH s Hok) as (s2 & E2 & Hok2); [done|].
    exists s2. rewrite bind_bind, (bind_ok _ _ _ _ _ E), bind_ret, (bind_ok _ _ _ _ _ E2). done.
  - destruct (free_kpages_abs s bs g n Hok Hg) as (us & E & Hok1 & _). mrun.
    destruct (IH _ Hok1) as (s2 & E2 & Hok2); [done|].
    exists s2. rewrite (bind_ok _ _ _ _ _ E). mrun. rewrite (bind_ok _ _ _ _ _ E2). split; done.
Qed.

(** ** One frame at a time *)

(** The number of free frames. *)
Definition nfree (cm : coremap) : nat :=
  length (filter (fun f : nat => inUse cm !! f = Some 0) (seq 0 (Z.to_nat (size cm)))).

Lemma filter_seq_remove (P Q : nat -> Prop) `{!forall x, Decision (P x)} `{!forall x, Decision (Q x)}
    (n g : nat) :
  (g < n)%nat -> P g -> (forall x, (x < n)%nat -> Q x <-> P x /\ x <> g) ->
  length (filter P (seq 0 n)) = S (length (filter Q (seq 0 n))).
Proof.
  intros Hg HP HQ. change (S (length (filter Q (seq 0 n)))) with (length (g :: filter Q (seq 0 n))).
  apply Permutation_length, NoDup_Permutation.
  - apply NoDup_filter, NoDup_seq.
  - constructor; [|apply NoDup_filter, NoDup_seq].
    rewrite list_elem_of_filter, elem_of_seq. intros [HQg ?]. by apply HQ in HQg as [_ []]; [|lia].
  - intros x. rewrite elem_of_cons, !list_elem_of_filter, !elem_of_seq. split.
    + intros [HPx Hx]. destruct (decide (x = g)) as [->|]; [by left|right].
      split; [apply HQ; [lia|done]|done].
    + intros [->|[HQx Hx]]; [split; [done|lia]|]. apply HQ in HQx as [? _]; [|lia]. split; [done|lia].
Qed.

Lemma nfree_pos cm bs :
  coremap_rep cm bs -> (0 < nfree cm)%nat -> exists g, free_run (size cm) bs 1 g.
Proof.
  intros Hr Hn. unfold nfree in Hn.
  destruct (filter _ _) as [|g l] eqn:E in Hn; [cbn in Hn; lia|].
  assert (g ∈ filter (fun f : nat => inUse cm !! f = Some 0) (seq 0 (Z.to_nat (size cm)))) as Hg.
  { rewrite E. apply elem_of_cons. by left. }
  apply list_elem_of_filter in Hg as [Hu Hg%elem_of_seq].
  exists (Z.of_nat g). apply free_run_fits; [done|]. split; [lia|]. split; [lia|].
  intros k Hk. assert (k = 0) as -> by lia. by rewrite Z.add_0_r, Nat2Z.id.
Qed.

Lemma nfree_claim cm cm' bs g :
  coremap_rep cm bs -> coremap_rep cm' (<[g := 1]> bs) -> size cm' = size cm ->
  free_run (size cm) bs 1 g -> nfree cm = S (nfree cm').
Proof.
  intros Hr Hr' Hs (Hg & Hsz & Hfree). unfold nfree. rewrite Hs.
  apply filter_seq_remove with (Z.to_nat g); [lia| |].
  - specialize (Hfree 0 ltac:(lia)). rewrite Z.add_0_r in Hfree. by apply (rep_free _ _ Hr); [lia|].
  - intros x Hx.
    assert (forall c b, coremap_rep c b -> size c = size cm ->
      inUse c !! x = Some 0 <-> frame_free b (Z.of_nat x)) as Hiff.
    { intros c b Hc Hsc. rewrite <- (Nat2Z.id x) at 1. split.
      - intros Hu. eapply rep_not_free; [done|lia|done].
      - intros Hu. eapply rep_free; [done|lia|done]. }
    rewrite (Hiff cm' _ Hr' Hs), (Hiff cm _ Hr eq_refl). split.
    + intros Hf. assert (x <> Z.to_nat g) as Hne.
      { intros ->. apply (Hf g 1 (lookup_insert_eq _ _ _)). lia. }
      split; [|done]. intros t m Ht Hin. destruct (Z.eq_dec t g) as [->|].
      * specialize (Hfree 0 ltac:(lia)). rewrite Z.add_0_r in Hfree. apply (Hfree g m Ht).
        destruct (rep_in _ _ Hr g m Ht). lia.
      * apply (Hf t m); [by rewrite lookup_insert_ne|done].
    + intros [Hf Hne] t m. rewrite lookup_insert. case_decide; [intros [= <-]; lia|].
      apply Hf.
Qed.

(** With a free frame left, [getppages(1)] succeeds. *)
Lemma getppages_one s bs :
  vm_ok s bs -> (0 < nfree (core_map s))%nat ->
  exists g s', getppages 1 s = Ret (frame_addr s g, s') /\
    vm_ok s' (<[g := 1]> bs) /\ 0 <= g < size (core_map s) /\ frame_free bs g /\ bs !! g = None /\
    baseAddr (core_map s') = baseAddr (core_map s) /\ size (core_map s') = size (core_map s) /\
    nfree (core_map s) = S (nfree (core_map s')).
Proof.
  intros Hok Hn. pose proof (vm_rep s bs Hok) as Hr.
  destruct (nfree_pos _ _ Hr Hn) as [g0 Hg0].
  assert (0 < 1 <= size (core_map s)) as H1 by (destruct Hg0; lia).
  destruct (getppages_abs s bs 1 Hok H1)
    as [[_ Hno]|(g & s' & E & Hrun & _ & Hok' & _ & Hb & Hs)]; [by destruct (Hno g0)|].
  exists g, s'. pose proof Hrun as (? & ? & Hfree).
  specialize (Hfree 0 ltac:(lia)). rewrite Z.add_0_r in Hfree.
  split_and!; try done; try lia.
  - eapply (free_run_new bs (size (core_map s)) 1 g); [|lia|done].
    intros t m Ht. apply (rep_in _ _ Hr t m Ht).
  - apply (nfree_claim _ _ bs g); try done. apply (vm_rep s' _ Hok').
Qed.

(** ** Where the code departs from its contract *)

(** When no run of [n] frames is left, [alloc_kpages] does not return
    NULL: [getppages] answers with the error number [ENOMEM], which
    [alloc_kpages] takes for a physical address, so the caller receives the
    kernel address 0x80000003, inside the exception handlers' page. *)
Theorem alloc_kpages_exhausted_not_null (s : vm) (bs : gmap Z Z) (n : Z)
    (Hok : vm_ok s bs) (Hn : 0 < n <= size (core_map s))
    (Hfull : forall g, ~ free_run (size (core_map s)) bs n g) :
  alloc_kpages n s = Ret (MIPS_KSEG0 + 3, s).
Proof.
  unfold alloc_kpages.
  destruct (getppages_abs s bs n Hok Hn) as [[E _]|(g & s1 & _ & Hrun & _)];
    [|by destruct (Hfull g)].
  by rewrite (bind_ok _ _ _ _ _ E).
Qed.

(** Releasing a page that was handed out before [vm_bootstrap] (at least
    one page below the coremap's first frame) makes [free_kpages] index its
    arrays with a negative number. *)
Theorem free_kpages_preboot_page_faults (s : vm) (bs : gmap Z Z) (pa : Z)
    (Hok : vm_ok s bs) (Hpa : 0 <= pa) (Hpre : pa + PAGE_SIZE <= baseAddr (core_map s)) :
  free_kpages (PADDR_TO_KVADDR pa) s = Fault.
Proof.
  pose proof Hok as [Hcr Hl1 Hl2 Hr Hb Ha Hp Hfit Htop]. pose proof (rep_size _ _ Hr).
  unfold free_kpages. mrun. rewrite Hcr. cbn [negb].
  unfold acquire_coremap. mrun. rewrite Hl2. mrun.
  unfold PADDR_TO_KVADDR, MIPS_KSEG0, PAGE_SIZE in *.
  rewrite !(w32_id (_ + 2147483648)) by (unfold is_u32, two32; lia).
  assert (s32 (w32 (pa + 2147483648 - (baseAddr (core_map s) + 2147483648))) =
          pa - baseAddr (core_map s)) as ->.
  { unfold w32, s32, two32. rewrite Z.add_mod_idemp_l by lia. rewrite Z.mod_small; lia. }
  set (i := Z.quot _ _).
  assert (i < 0) as Hi.
  { unfold i. pose proof (Z.quot_opp_l (baseAddr (core_map s) - pa) 4096 ltac:(lia)) as Hq.
    replace (- (baseAddr (core_map s) - pa)) with (pa - baseAddr (core_map s)) in Hq by lia.
    rewrite Hq. pose proof (Z.quot_le_mono 4096 (baseAddr (core_map s) - pa) 4096).
    change (Z.quot 4096 4096) with 1 in *. lia. }
  cbn [release_run]. mrun. cbn [core_map set_spinlock_coremap].
  rewrite (proj2 (Z.ltb_lt i _)) by lia.
  unfold get_at. rewrite (proj2 (Z.ltb_lt i 0)) by done. done.
Qed.

(** ** A small machine: four frames above 0x2000, the first two allocated *)

Definition example_vm : vm :=
  mk_vm 0 0 8192 24576 true (mk_coremap 8192 [1; 1; 0; 0] [1; 0; 0; 0] 4) false false.

Lemma example_vm_ok : vm_ok example_vm {[0 := 2]}.
Proof.
  split; cbn; try done; try (unfold PAGE_SIZE; lia).
  split; cbn; try done; try (unfold zlength; cbn; lia).
  - intros s n [<- <-]%lookup_singleton_Some. lia.
  - intros s n k [<- <-]%lookup_singleton_Some Hk.
    assert (k = 0 \/ k = 1) as [-> | ->] by lia; done.
  - intros s n t m [<- _]%lookup_singleton_Some [<- _]%lookup_singleton_Some. done.
  - intros f Hf Hff. specialize (Hff 0 2 (lookup_singleton_eq _ _)).
    assert (f = 2 \/ f = 3) as [-> | ->] by lia; done.
Qed.

Lemma example_vm_run g : free_run 4 {[0 := 2]} 2 g <-> g = 2.
Proof.
  split.
  - intros (Hg & Hsz & Hfree).
    pose proof (Hfree 0 ltac:(lia) 0 2 (lookup_singleton_eq _ _)). lia.
  - intros ->. split_and!; [lia|lia|]. intros k Hk s n [<- <-]%lookup_singleton_Some. lia.
Qed.

Lemma example_vm_full g : ~ free_run 4 {[0 := 2]} 3 g.
Proof.
  intros (Hg & Hsz & Hfree).
  pose proof (Hfree 0 ltac:(lia) 0 2 (lookup_singleton_eq _ _)). lia.
Qed.

Lemma getppages_first_fit_witness :
  exists s', getppages 2 example_vm = Ret (16384, s') /\ vm_ok s' (<[2 := 2]> {[0 := 2]}).
Proof.
  destruct (getppages_first_fit example_vm {[0 := 2]} 2 example_vm_ok ltac:(cbn; lia))
    as [[_ Hno]|(g & s' & E & Hrun & _ & _ & _ & Hok)].
  - exfalso. apply (Hno 2). by apply example_vm_run.
  - apply example_vm_run in Hrun as ->. exists s'. split; [exact E|exact Hok].
Defined.

Lemma free_kpages_releases_block_witness :
  exists s', free_kpages 2147491840 example_vm = Ret (tt, s') /\ vm_ok s' (delete 0 {[0 := 2]}).
Proof.
  destruct (free_kpages_releases_block example_vm {[0 := 2]} 0 2 example_vm_ok
              (lookup_singleton_eq _ _)) as (s' & E & Hok & _).
  exists s'. split; [exact E|exact Hok].
Defined.

Definition example_ram : vm :=
  mk_vm 200704 1048576 0 0 false (mk_coremap 0 [] [] 0) false false.

Lemma vm_bootstrap_establishes_witness :
  exists s', vm_bootstrap (replicate 207 7) (replicate 207 9) example_ram = Ret (tt, s') /\
    vm_ok s' ∅ /\ baseAddr (core_map s') = 204800 /\ size (core_map s') = 206.
Proof.
  destruct (vm_bootstrap_establishes example_ram (replicate 207 7) (replicate 207 9))
    as (s' & E & Hok & _); try (vm_compute; congruence).
  exists s'. split; [exact E|]. split; [exact Hok|].
  vm_compute in E. injection E as <-. split; reflexivity.
Defined.

Lemma coremap_refines_blocks_witness :
  exists s', run_page_ops [PAlloc 2; PAlloc 1; PFree 0] example_vm =
      Ret ([Some 16384; Some ENOMEM; None], s') /\
    vm_ok s' (delete 0 (<[2 := 2]> {[0 := 2]})).
Proof.
  apply (coremap_refines_blocks example_vm {[0 := 2]} _ _ [Got 2; Full; Freed] example_vm_ok).
  apply pt_alloc; [cbn; lia|by apply example_vm_run|intros g' Hlt Hrun%example_vm_run; lia|].
  apply pt_full; [cbn; lia| |].
  - intros g (Hg & Hsz & Hfree). cbn in Hsz.
    pose proof (Hfree 0 ltac:(lia) 0 2 eq_refl).
    pose proof (Hfree 0 ltac:(lia) 2 2 eq_refl). lia.
  - eapply pt_free; [reflexivity|]. apply pt_nil.
Defined.

Lemma alloc_kpages_exhausted_not_null_witness :
  alloc_kpages 3 example_vm = Ret (2147483651, example_vm).
Proof.
  apply (alloc_kpages_exhausted_not_null example_vm {[0 := 2]} 3 example_vm_ok).
  - cbn; lia.
  - exact example_vm_full.
Defined.

Lemma free_kpages_preboot_page_faults_witness :
  free_kpages (PADDR_TO_KVADDR 4096) example_vm = Fault.
Proof.
  apply (free_kpages_preboot_page_faults example_vm {[0 := 2]} 4096 example_vm_ok);
    cbn; unfold PAGE_SIZE; lia.
Defined.
