(* ===== verification/AddrSpace.v ===== *)
(** * Address spaces and page faults (kern/arch/mips/vm/dumbvm.c)

    The address-space half of dumbvm.c, built with OPT_A3: page tables of
    frames, [as_create], [as_define_region], [as_prepare_load], [as_copy],
    [as_destroy], [as_activate], and the fault handler [vm_fault] that loads
    the TLB. The machine state holds the page allocator of Coremap, a kernel
    heap, the bytes of physical memory, the TLB and the interrupt level. *)

From stdpp Require Import base numbers list gmap.
From Stdlib Require Import ZArith Lia.
From S2P Require Import Prelude Heap Coremap.

Definition DUMBVM_STACKPAGES : Z := 12.
Definition USERSTACK : Z := MIPS_KSEG0.
Definition VM_FAULT_READ : Z := 0.
Definition VM_FAULT_WRITE : Z := 1.
Definition VM_FAULT_READONLY : Z := 2.
Definition EX_MOD : Z := 1.
Definition IPL_HIGH : Z := 1.

(** tlb.h *)
Definition TLBHI_VPAGE : Z := 4294963200.
Definition TLBLO_PPAGE : Z := 4294963200.
Definition TLBLO_DIRTY : Z := 1024.
Definition TLBLO_VALID : Z := 512.
Definition NUM_TLB : Z := 64.
Definition TLBHI_INVALID (entryno : Z) : Z := w32 (Z.shiftl (524288 + entryno) 12).
Definition TLBLO_INVALID : Z := 0.

(** A page table: the address of the array and its entries; an entry that was
    never written is [None], and reading it is undefined. *)
Record ptable := mk_ptable { pt_ptr : Z; pt_entries : list (option Z) }.

(** [struct addrspace]; a null page-table pointer is [None]. *)
Record addrspace := mk_as {
  as_self : Z;
  as_vbase1 : Z;
  as_vbase2 : Z;
  as_npages1 : Z;
  as_npages2 : Z;
  loadCode_done : Z;
  as_ptable1 : option ptable;
  as_ptable2 : option ptable;
  as_stackptable : option ptable
}.

Definition sizeof_addrspace : Z := 32.
Definition sizeof_page_table : Z := 4.

Definition set_ptable1 (a : addrspace) (t : option ptable) : addrspace :=
  mk_as (as_self a) (as_vbase1 a) (as_vbase2 a) (as_npages1 a) (as_npages2 a)
        (loadCode_done a) t (as_ptable2 a) (as_stackptable a).
Definition set_ptable2 (a : addrspace) (t : option ptable) : addrspace :=
  mk_as (as_self a) (as_vbase1 a) (as_vbase2 a) (as_npages1 a) (as_npages2 a)
        (loadCode_done a) (as_ptable1 a) t (as_stackptable a).
Definition set_stackptable (a : addrspace) (t : option ptable) : addrspace :=
  mk_as (as_self a) (as_vbase1 a) (as_vbase2 a) (as_npages1 a) (as_npages2 a)
        (loadCode_done a) (as_ptable1 a) (as_ptable2 a) t.

Section machine.
Context {H : Type} `{KHeap H}.

(** The machine: page allocator, kernel heap, bytes of physical memory, TLB
    entries (high word, low word), interrupt level. *)
Record mach := mk_mach {
  m_vm : vm;
  m_heap : H;
  m_mem : Z -> Z;
  m_tlb : list (Z * Z);
  m_spl : Z
}.

Definition set_vm (s : mach) x := mk_mach x (m_heap s) (m_mem s) (m_tlb s) (m_spl s).
Definition set_heap (s : mach) x := mk_mach (m_vm s) x (m_mem s) (m_tlb s) (m_spl s).
Definition set_mem (s : mach) x := mk_mach (m_vm s) (m_heap s) x (m_tlb s) (m_spl s).
Definition set_tlb (s : mach) x := mk_mach (m_vm s) (m_heap s) (m_mem s) x (m_spl s).
Definition set_spl (s : mach) x := mk_mach (m_vm s) (m_heap s) (m_mem s) (m_tlb s) x.

(** Calls into the page allocator and into the heap. *)
Definition in_vm {A} (c : M vm A) : M mach A := fun s =>
  match c (m_vm s) with
  | Ret (a, x) => Ret (a, set_vm s x)
  | Panic => Panic | Fault => Fault | NoFuel => NoFuel
  end.
Definition in_heap {A} (c : M H A) : M mach A := fun s =>
  match c (m_heap s) with
  | Ret (a, x) => Ret (a, set_heap s x)
  | Panic => Panic | Fault => Fault | NoFuel => NoFuel
  end.

(** [bzero] and [memmove] through the kernel's direct map of physical memory. *)
Definition fill_zero (mem : Z -> Z) (pa n : Z) : Z -> Z :=
  fun a => if (pa <=? a) && (a <? pa + n) then 0 else mem a.
Definition move_bytes (mem : Z -> Z) (dst src n : Z) : Z -> Z :=
  fun a => if (dst <=? a) && (a <? dst + n) then mem (src + (a - dst)) else mem a.

Definition as_zero_region (paddr npages : Z) : M mach unit :=
  modify (fun s => set_mem s (fill_zero (m_mem s) paddr (npages * PAGE_SIZE))).

(** [kmalloc(sizeof(struct page_table) * npages)]: the contents of the block
    are indeterminate. *)
Definition alloc_ptable (npages : Z) : M mach (option ptable) :=
  let bytes := w32 (sizeof_page_table * npages) in
  let* p := in_heap (kmalloc bytes) in
  if p =? 0 then ret None
  else ret (Some (mk_ptable p (replicate (Z.to_nat (bytes / sizeof_page_table)) None))).

(** [t[i].frameNumber] and its update, through a pointer that may be null. *)
Definition pt_get (t : option ptable) (i : Z) : outcome Z :=
  match t with
  | None => Fault
  | Some t => match get_at (pt_entries t) i with
              | Ret (Some f) => Ret f
              | Ret None => Fault
              | Panic => Panic | Fault => Fault | NoFuel => NoFuel
              end
  end.
Definition pt_set (t : option ptable) (i f : Z) : outcome (option ptable) :=
  match t with
  | None => Fault
  | Some t => match set_at (pt_entries t) i (Some f) with
              | Ret l => Ret (Some (mk_ptable (pt_ptr t) l))
              | Panic => Panic | Fault => Fault | NoFuel => NoFuel
              end
  end.
Definition pt_addr (t : option ptable) : Z :=
  match t with None => 0 | Some t => pt_ptr t end.

(** ** Creation and layout *)

Definition as_create : M mach (option addrspace) :=
  let* p := in_heap (kmalloc sizeof_addrspace) in
  if p =? 0 then ret None
  else ret (Some (mk_as p 0 0 0 0 0 None None None)).

(** The page-aligned base of a region, and its number of pages. *)
Definition region_base (vaddr : Z) : Z := Z.land vaddr PAGE_FRAME.
Definition region_pages (vaddr sz : Z) : Z :=
  let sz := w32 (sz + Z.land vaddr (w32 (Z.lnot PAGE_FRAME))) in
  let sz := Z.land (w32 (sz + PAGE_SIZE - 1)) PAGE_FRAME in
  sz / PAGE_SIZE.

(** The permission arguments are ignored by the code. *)
Definition as_define_region (a : addrspace) (vaddr sz : Z)
    (readable writeable executable : Z) : M mach (Z * addrspace) :=
  let npages := region_pages vaddr sz in
  let vaddr := region_base vaddr in
  if as_vbase1 a =? 0 then
    let* t := alloc_ptable npages in
    ret (0, mk_as (as_self a) vaddr (as_vbase2 a) npages (as_npages2 a)
                  (loadCode_done a) t (as_ptable2 a) (as_stackptable a))
  else if as_vbase2 a =? 0 then
    let* t := alloc_ptable npages in
    ret (0, mk_as (as_self a) (as_vbase1 a) vaddr (as_npages1 a) npages
                  (loadCode_done a) (as_ptable1 a) t (as_stackptable a))
  else ret (EUNIMP, a).

(** ** Loading *)

(** One of the three loops of [as_prepare_load]: a frame for every page from
    [i] on, cleared; a null frame stops it. It returns whether it stopped. *)
Fixpoint prepare_pages (n : nat) (i : Z) (t : option ptable) : M mach (bool * option ptable) :=
  match n with
  | O => ret (false, t)
  | S n' =>
      let* f := in_vm (getppages 1) in
      let* t' := lift (pt_set t i f) in
      if f =? 0 then ret (true, t')
      else
        do* as_zero_region f 1 in
        prepare_pages n' (i + 1) t'
  end.

Definition is_null {A} (o : option A) : bool := match o with None => true | _ => false end.

Definition as_prepare_load (a : addrspace) : M mach (Z * addrspace) :=
  let* t := alloc_ptable DUMBVM_STACKPAGES in
  let a := set_stackptable a t in
  if is_null (as_ptable1 a) || is_null (as_ptable2 a) || is_null (as_stackptable a)
  then ret (ENOMEM, a)
  else
    let* (stop, t1) := prepare_pages (Z.to_nat (as_npages1 a)) 0 (as_ptable1 a) in
    let a := set_ptable1 a t1 in
    if (stop : bool) then ret (ENOMEM, a) else
    let* (stop, t2) := prepare_pages (Z.to_nat (as_npages2 a)) 0 (as_ptable2 a) in
    let a := set_ptable2 a t2 in
    if (stop : bool) then ret (ENOMEM, a) else
    let* (stop, t3) := prepare_pages (Z.to_nat DUMBVM_STACKPAGES) 0 (as_stackptable a) in
    let a := set_stackptable a t3 in
    if (stop : bool) then ret (ENOMEM, a) else
    ret (0, a).

Definition as_complete_load (a : addrspace) : M mach Z := ret 0.

Definition as_define_stack (a : addrspace) : M mach (Z * Z) := ret (0, USERSTACK).

(** ** Destruction *)

Definition free_pages (n : Z) (t : option ptable) : M mach unit :=
  for_ (Z.to_nat n) 0 (fun i =>
    let* f := lift (pt_get t i) in
    in_vm (free_kpages (PADDR_TO_KVADDR f))).

Definition as_destroy (a : addrspace) : M mach unit :=
  do* free_pages (s32 (as_npages1 a)) (as_ptable1 a) in
  do* free_pages (s32 (as_npages2 a)) (as_ptable2 a) in
  do* free_pages DUMBVM_STACKPAGES (as_stackptable a) in
  do* in_heap (kfree (pt_addr (as_stackptable a))) in
  do* in_heap (kfree (pt_addr (as_ptable2 a))) in
  do* in_heap (kfree (pt_addr (as_ptable1 a))) in
  in_heap (kfree (as_self a)).

(** ** Copying *)

Definition copy_pages (n : Z) (dst src : option ptable) : M mach unit :=
  for_ (Z.to_nat n) 0 (fun i =>
    let* d := lift (pt_get dst i) in
    let* f := lift (pt_get src i) in
    modify (fun s => set_mem s (move_bytes (m_mem s) d f PAGE_SIZE))).

Definition as_copy (old : addrspace) : M mach (Z * option addrspace) :=
  let* r := as_create in
  match r with
  | None => ret (ENOMEM, None)
  | Some new =>
      let new := mk_as (as_self new) (as_vbase1 old) (as_vbase2 old) (as_npages1 old)
                       (as_npages2 old) (loadCode_done new) (as_ptable1 new)
                       (as_ptable2 new) (as_stackptable new) in
      let* t1 := alloc_ptable (as_npages1 new) in
      let new := set_ptable1 new t1 in
      let* t2 := alloc_ptable (as_npages2 new) in
      let new := set_ptable2 new t2 in
      let* (err, new) := as_prepare_load new in
      if negb (err =? 0) then
        do* as_destroy new in ret (ENOMEM, None)
      else
        do* kassert (negb (is_null (as_ptable1 new)) && negb (is_null (as_ptable2 new))
                     && negb (is_null (as_stackptable new))) in
        do* copy_pages (as_npages1 old) (as_ptable1 new) (as_ptable1 old) in
        do* copy_pages (as_npages2 old) (as_ptable2 new) (as_ptable2 old) in
        do* copy_pages DUMBVM_STACKPAGES (as_stackptable new) (as_stackptable old) in
        ret (0, Some new)
  end.

(** ** The TLB *)

Definition splhigh : M mach Z :=
  let* s := get in do* put (set_spl s IPL_HIGH) in ret (m_spl s).
Definition splx (spl : Z) : M mach unit := modify (fun s => set_spl s spl).

Definition tlb_read (i : Z) : M mach (Z * Z) :=
  let* s := get in lift (get_at (m_tlb s) i).
Definition tlb_write (ehi elo i : Z) : M mach unit :=
  let* s := get in
  let* l := lift (set_at (m_tlb s) i (ehi, elo)) in
  put (set_tlb s l).

(** [as] is the address space of the current process, if it has one. *)
Definition as_activate (cur : option addrspace) : M mach unit :=
  match cur with
  | None => ret tt
  | Some _ =>
      let* spl := splhigh in
      do* for_ (Z.to_nat NUM_TLB) 0 (fun i => tlb_write (TLBHI_INVALID i) TLBLO_INVALID i) in
      splx spl
  end.

Definition as_deactivate : M mach unit := ret tt.

Definition vm_tlbshootdown_all : M mach unit := panic.
Definition vm_tlbshootdown (ts_vaddr : Z) : M mach unit := panic.

(** ** vm_fault *)

(** The frame of a page in one of the three regions:
    [ptable[offset / PAGE_SIZE].frameNumber + offset % PAGE_SIZE]. *)
Definition region_paddr (t : option ptable) (faultaddress vbase : Z) : outcome Z :=
  let offset := s32 (w32 (faultaddress - vbase)) in
  match pt_get t (Z.quot offset PAGE_SIZE) with
  | Ret f => Ret (w32 (f + Z.rem offset PAGE_SIZE))
  | Panic => Panic | Fault => Fault | NoFuel => NoFuel
  end.

(** The low word of the entry: writable unless it is loaded program text. *)
Definition entrylo (a : addrspace) (paddr faultaddress vbase1 vtop1 : Z) : Z :=
  let elo := Z.lor (Z.lor paddr TLBLO_DIRTY) TLBLO_VALID in
  if (faultaddress <? vtop1) && (vbase1 <=? faultaddress) && (loadCode_done a =? 1)
  then Z.land elo (w32 (Z.lnot TLBLO_DIRTY)) else elo.

(** The physical address of the page, [None] where the code answers
    [EFAULT]. *)
Definition fault_paddr (a : addrspace) (faultaddress : Z) : M mach (option Z) :=
  let vbase1 := as_vbase1 a in
  let vtop1 := w32 (vbase1 + as_npages1 a * PAGE_SIZE) in
  let vbase2 := as_vbase2 a in
  let vtop2 := w32 (vbase2 + as_npages2 a * PAGE_SIZE) in
  let stackbase := USERSTACK - DUMBVM_STACKPAGES * PAGE_SIZE in
  let stacktop := USERSTACK in
  if (vbase1 <=? faultaddress) && (faultaddress <? vtop1) then
    let* pa := lift (region_paddr (as_ptable1 a) faultaddress vbase1) in ret (Some pa)
  else if (vbase2 <=? faultaddress) && (faultaddress <? vtop2) then
    let* pa := lift (region_paddr (as_ptable2 a) faultaddress vbase2) in ret (Some pa)
  else if (stackbase <=? faultaddress) && (faultaddress <? stacktop) then
    let* pa := lift (region_paddr (as_stackptable a) faultaddress stackbase) in ret (Some pa)
  else ret None.

(** One round of the search for an unused entry. *)
Definition try_slot (ehi elo spl i : Z) : M mach (option Z) :=
  let* (_, oldlo) := tlb_read i in
  if negb (Z.land oldlo TLBLO_VALID =? 0) then ret None
  else
    do* tlb_write ehi elo i in
    do* splx spl in
    ret (Some 0).

(** [slot] is the entry that the processor picks for [tlb_random]. *)
Definition load_tlb (slot ehi elo : Z) : M mach Z :=
  let* spl := splhigh in
  let* r := for_ret (Z.to_nat NUM_TLB) 0 (try_slot ehi elo spl) in
  match r with
  | Some r => ret r
  | None =>
      do* tlb_write ehi elo slot in
      do* splx spl in
      ret 0
  end.

(** [haveproc] is [curproc != NULL] and [cur] the address space that
    [curproc_getas] returns. *)
Definition vm_fault (haveproc : bool) (cur : option addrspace) (slot : Z)
    (faulttype faultaddress : Z) : M mach Z :=
  let faultaddress := Z.land faultaddress PAGE_FRAME in
  if faulttype =? VM_FAULT_READONLY then ret EX_MOD
  else if negb ((faulttype =? VM_FAULT_READ) || (faulttype =? VM_FAULT_WRITE)) then ret EINVAL
  else if negb haveproc then ret EFAULT
  else match cur with
  | None => ret EFAULT
  | Some a =>
      do* kassert (negb (as_vbase1 a =? 0)) in
      do* kassert (negb (as_npages1 a =? 0)) in
      do* kassert (negb (as_vbase2 a =? 0)) in
      do* kassert (negb (as_npages2 a =? 0)) in
      do* kassert (negb (is_null (as_ptable1 a))) in
      do* kassert (negb (is_null (as_ptable2 a))) in
      do* kassert (negb (is_null (as_stackptable a))) in
      do* kassert (Z.land (as_vbase1 a) PAGE_FRAME =? as_vbase1 a) in
      do* kassert (Z.land (as_vbase2 a) PAGE_FRAME =? as_vbase2 a) in
      let* r := fault_paddr a faultaddress in
      match r with
      | None => ret EFAULT
      | Some paddr =>
          do* kassert (Z.land paddr PAGE_FRAME =? paddr) in
          load_tlb slot faultaddress
            (entrylo a paddr faultaddress (as_vbase1 a)
                     (w32 (as_vbase1 a + as_npages1 a * PAGE_SIZE)))
      end
  end.

End machine.
Arguments mach H : clear implicits.

(** ** Addresses and bits *)

Lemma page_frame_ones : PAGE_FRAME = Z.ldiff (Z.ones 32) (Z.ones 12).
Proof. done. Qed.

(** Masking with [PAGE_FRAME] rounds an address down to its page. *)
Lemma land_page_frame x : is_u32 x -> Z.land x PAGE_FRAME = x - x mod PAGE_SIZE.
Proof.
  unfold is_u32, two32. intros Hx.
  assert (Z.land x PAGE_FRAME = Z.ldiff x (Z.ones 12)) as ->.
  { rewrite page_frame_ones. apply Z.bits_inj'. intros n Hn.
    rewrite Z.land_spec, !Z.ldiff_spec. destruct (Z.lt_ge_cases n 32).
    - rewrite (Z.ones_spec_low 32) by lia. done.
    - rewrite (Z.ones_spec_high 32), andb_false_l, andb_false_r by lia.
      rewrite <- (Z.mod_small x (2 ^ 32)) by (cbn; lia).
      by rewrite Z.mod_pow2_bits_high by lia. }
  rewrite Z.ldiff_ones_r, Z.shiftl_mul_pow2, Z.shiftr_div_pow2 by lia.
  change (2 ^ 12) with 4096. unfold PAGE_SIZE.
  pose proof (Z.div_mod x 4096). lia.
Qed.

Lemma land_aligned x : is_u32 x -> x mod PAGE_SIZE = 0 -> Z.land x PAGE_FRAME = x.
Proof. intros Hx Hm. rewrite land_page_frame, Hm by done. lia. Qed.

Lemma page_of_range x :
  is_u32 x -> is_u32 (x - x mod PAGE_SIZE) /\ (x - x mod PAGE_SIZE) mod PAGE_SIZE = 0.
Proof.
  unfold is_u32, two32, PAGE_SIZE. intros Hx.
  pose proof (Z.mod_pos_bound x 4096). pose proof (Z.div_mod x 4096). split; [lia|].
  symmetry. apply Z.mod_unique with (x / 4096); lia.
Qed.

(** ** What the TLB does with its entries (tlb.h) *)

Definition tlb_match (va : Z) (e : Z * Z) : bool :=
  Z.land (fst e) TLBHI_VPAGE =? Z.land va TLBHI_VPAGE.

(** The physical address and whether writes are permitted. *)
Definition tlb_translate (tlb : list (Z * Z)) (va : Z) : option (Z * bool) :=
  match List.find (tlb_match va) tlb with
  | Some (_, elo) =>
      if Z.land elo TLBLO_VALID =? 0 then None
      else Some (Z.land elo TLBLO_PPAGE + va mod PAGE_SIZE, negb (Z.land elo TLBLO_DIRTY =? 0))
  | None => None
  end.

Lemma find_insert_fresh {A} (p : A -> bool) (l : list A) i x :
  (i < length l)%nat -> (forall y, y ∈ l -> p y = false) -> p x = true ->
  List.find p (<[i := x]> l) = Some x.
Proof.
  revert i. induction l as [|y l IH]; intros i Hi Hl Hx; cbn in Hi; [lia|].
  destruct i as [|i]; cbn.
  - by rewrite Hx.
  - rewrite (Hl y) by set_solver. apply IH; [lia| |done]. intros z Hz. apply Hl. set_solver.
Qed.

(** The fields of the entry that the handler builds. *)
Lemma entry_fields paddr :
  Z.land paddr PAGE_FRAME = paddr ->
  let elo := Z.lor (Z.lor paddr TLBLO_DIRTY) TLBLO_VALID in
  (Z.land elo TLBLO_VALID =? 0) = false /\ (Z.land elo TLBLO_DIRTY =? 0) = false /\
  Z.land elo TLBLO_PPAGE = paddr /\
  let ro := Z.land elo (w32 (Z.lnot TLBLO_DIRTY)) in
  (Z.land ro TLBLO_VALID =? 0) = false /\ (Z.land ro TLBLO_DIRTY =? 0) = true /\
  Z.land ro TLBLO_PPAGE = paddr.
Proof.
  intros Hp elo.
  assert (forall m, Z.land PAGE_FRAME m = 0 -> Z.land paddr m = 0) as Hz.
  { intros m Hm. rewrite <- Hp, <- Z.land_assoc, Hm. apply Z.land_0_r. }
  assert (forall m, Z.land elo m =
    Z.lor (Z.lor (Z.land paddr m) (Z.land TLBLO_DIRTY m)) (Z.land TLBLO_VALID m)) as He.
  { intros m. unfold elo. by rewrite !Z.land_lor_distr_l. }
  assert (Z.land elo TLBLO_VALID = TLBLO_VALID) as Hv.
  { rewrite He, Hz by done. done. }
  assert (Z.land elo TLBLO_DIRTY = TLBLO_DIRTY) as Hd.
  { rewrite He, Hz by done. done. }
  assert (Z.land elo TLBLO_PPAGE = paddr) as Hpp.
  { rewrite He. change TLBLO_PPAGE with PAGE_FRAME. rewrite Hp. cbn. by rewrite !Z.lor_0_r. }
  rewrite Hv, Hd, Hpp. split_and!; try done. intros ro. unfold ro.
  rewrite <- !Z.land_assoc.
  change (Z.land (w32 (Z.lnot TLBLO_DIRTY)) TLBLO_VALID) with TLBLO_VALID.
  change (Z.land (w32 (Z.lnot TLBLO_DIRTY)) TLBLO_DIRTY) with 0.
  change (Z.land (w32 (Z.lnot TLBLO_DIRTY)) TLBLO_PPAGE) with TLBLO_PPAGE.
  rewrite Hv, Hpp, Z.land_0_r. done.
Qed.

(** ** Well-formed address spaces *)

(** A page table with a page-aligned frame for each of [n] pages. *)
Definition ptable_ok (t : option ptable) (n : Z) : Prop :=
  exists p, t = Some p /\ forall i, 0 <= i < n ->
    exists f, pt_entries p !! Z.to_nat i = Some (Some f) /\ is_u32 f /\ f mod PAGE_SIZE = 0.

Definition region_ok (vbase n : Z) : Prop :=
  0 < vbase /\ vbase mod PAGE_SIZE = 0 /\ 0 < n /\ vbase + n * PAGE_SIZE <= USERSTACK.

Record as_ok (a : addrspace) : Prop := {
  as_region1 : region_ok (as_vbase1 a) (as_npages1 a);
  as_region2 : region_ok (as_vbase2 a) (as_npages2 a);
  as_table1 : ptable_ok (as_ptable1 a) (as_npages1 a);
  as_table2 : ptable_ok (as_ptable2 a) (as_npages2 a);
  as_tables : ptable_ok (as_stackptable a) DUMBVM_STACKPAGES;
}.

(** The frame that an address space gives to an address: the code region
    first, then the data region, then the stack. *)
Definition pt_frame (t : option ptable) (i : Z) : option Z :=
  match t with
  | Some p => match pt_entries p !! Z.to_nat i with Some (Some f) => Some f | _ => None end
  | None => None
  end.

Definition in_region (va vbase n : Z) : bool :=
  (vbase <=? va) && (va <? vbase + n * PAGE_SIZE).

Definition stackbase : Z := USERSTACK - DUMBVM_STACKPAGES * PAGE_SIZE.

Definition as_frame (a : addrspace) (va : Z) : option Z :=
  if in_region va (as_vbase1 a) (as_npages1 a)
  then pt_frame (as_ptable1 a) ((va - as_vbase1 a) / PAGE_SIZE)
  else if in_region va (as_vbase2 a) (as_npages2 a)
  then pt_frame (as_ptable2 a) ((va - as_vbase2 a) / PAGE_SIZE)
  else if in_region va stackbase DUMBVM_STACKPAGES
  then pt_frame (as_stackptable a) ((va - stackbase) / PAGE_SIZE)
  else None.

(** Whether the address is in loaded program text. *)
Definition is_text (a : addrspace) (va : Z) : bool :=
  in_region va (as_vbase1 a) (as_npages1 a) && (loadCode_done a =? 1).

(** Being in a page-aligned region depends on the page only, and so does the
    index of the page. *)
Lemma in_region_page va vbase n :
  is_u32 va -> vbase mod PAGE_SIZE = 0 -> 0 <= vbase ->
  in_region (va - va mod PAGE_SIZE) vbase n = in_region va vbase n /\
  (in_region va vbase n = true ->
     (va - va mod PAGE_SIZE - vbase) / PAGE_SIZE = (va - vbase) / PAGE_SIZE /\
     0 <= (va - vbase) / PAGE_SIZE < n /\
     va - va mod PAGE_SIZE - vbase = (va - vbase) / PAGE_SIZE * PAGE_SIZE).
Proof.
  unfold is_u32, two32, in_region, PAGE_SIZE. intros Hva Hal Hb.
  pose proof (Z.mod_pos_bound va 4096 ltac:(lia)).
  pose proof (Z.div_mod va 4096 ltac:(lia)). pose proof (Z.div_mod vbase 4096 ltac:(lia)).
  assert ((va - vbase) / 4096 = va / 4096 - vbase / 4096) as Hq.
  { symmetry. apply Z.div_unique with (va mod 4096); lia. }
  split.
  - lia.
  - intros Hin. bprop. rewrite Hq. split_and!; try lia.
    symmetry. apply Z.div_unique with 0; lia.
Qed.

Lemma in_region_page_eq va vbase n :
  is_u32 va -> vbase mod PAGE_SIZE = 0 -> 0 <= vbase ->
  in_region (va - va mod PAGE_SIZE) vbase n = in_region va vbase n.
Proof. intros. by apply in_region_page. Qed.

(** ** The fault handler *)

Section fault.
Context {H : Type} `{KHeap H}.
Implicit Types (s : mach H) (a : addrspace).

Lemma region_paddr_spec t va vbase n :
  ptable_ok t n -> region_ok vbase n \/ (vbase = stackbase /\ n = DUMBVM_STACKPAGES) ->
  is_u32 va -> in_region va vbase n = true ->
  exists f, region_paddr t (va - va mod PAGE_SIZE) vbase = Ret f /\
    pt_frame t ((va - vbase) / PAGE_SIZE) = Some f /\ is_u32 f /\ f mod PAGE_SIZE = 0.
Proof.
  intros (p & -> & Hp) Hreg Hva Hin.
  assert (vbase mod PAGE_SIZE = 0 /\ 0 <= vbase /\ 0 < n /\ vbase + n * PAGE_SIZE <= USERSTACK)
    as (Hal & Hb & Hn & Htop).
  { destruct Hreg as [(?&?&?&?)|[-> ->]]; [split_and!; lia|done]. }
  destruct (in_region_page va vbase n Hva Hal Hb) as [_ (_ & Hi & He)]; [done|].
  destruct (Hp _ Hi) as (f & Hf & Hu & Ha). exists f.
  unfold region_paddr. rewrite He. unfold PAGE_SIZE, USERSTACK, MIPS_KSEG0 in *.
  rewrite w32_id, s32_id by (unfold is_u32, is_s32, two32; lia).
  rewrite Z.quot_mul, Z.rem_mul by lia. cbn [pt_get pt_frame].
  rewrite (get_at_lookup _ _ _ (proj1 Hi) Hf), Hf, Z.add_0_r, w32_id by done. done.
Qed.

(** The page that the handler looks up is the one that the address space
    gives to the address. *)
Lemma fault_paddr_spec a va s :
  as_ok a -> is_u32 va ->
  fault_paddr a (va - va mod PAGE_SIZE) s = Ret (as_frame a va, s) /\
  (forall f, as_frame a va = Some f -> is_u32 f /\ f mod PAGE_SIZE = 0).
Proof.
  intros [R1 R2 T1 T2 T3] Hva. unfold fault_paddr, as_frame. fold stackbase.
  pose proof R1 as (? & ? & ? & ?). pose proof R2 as (? & ? & ? & ?).
  assert (forall n vb, vb + n * PAGE_SIZE <= USERSTACK -> 0 < vb -> 0 < n ->
    w32 (vb + n * PAGE_SIZE) = vb + n * PAGE_SIZE) as Hw.
  { intros. apply w32_id. unfold is_u32, two32, USERSTACK, MIPS_KSEG0, PAGE_SIZE in *. lia. }
  rewrite !Hw by done.
  change USERSTACK with (stackbase + DUMBVM_STACKPAGES * PAGE_SIZE).
  fold (in_region (va - va mod PAGE_SIZE) (as_vbase1 a) (as_npages1 a)).
  fold (in_region (va - va mod PAGE_SIZE) (as_vbase2 a) (as_npages2 a)).
  fold (in_region (va - va mod PAGE_SIZE) stackbase DUMBVM_STACKPAGES).
  rewrite !in_region_page_eq by (done || lia).
  destruct (in_region va (as_vbase1 a) (as_npages1 a)) eqn:E1;
    [|destruct (in_region va (as_vbase2 a) (as_npages2 a)) eqn:E2;
      [|destruct (in_region va stackbase DUMBVM_STACKPAGES) eqn:E3]]; [..|done].
  1: destruct (region_paddr_spec (as_ptable1 a) va (as_vbase1 a) (as_npages1 a))
       as (f & -> & -> & ? & ?); auto.
  2: destruct (region_paddr_spec (as_ptable2 a) va (as_vbase2 a) (as_npages2 a))
       as (f & -> & -> & ? & ?); auto.
  3: destruct (region_paddr_spec (as_stackptable a) va stackbase DUMBVM_STACKPAGES)
       as (f & -> & -> & ? & ?); auto.
  all: split; [by mrun|intros f' [= <-]; done].
Qed.

(** The entry [i] of the TLB is not in use. *)
Definition slot_unused (tlb : list (Z * Z)) (i : Z) : bool :=
  match tlb !! Z.to_nat i with
  | Some (_, elo) => Z.land elo TLBLO_VALID =? 0
  | None => false
  end.

Lemma try_slot_spec s ehi elo spl i :
  0 <= i < zlength (m_tlb s) ->
  try_slot ehi elo spl i s =
  if slot_unused (m_tlb s) i
  then Ret (Some 0, set_spl (set_tlb s (<[Z.to_nat i := (ehi, elo)]> (m_tlb s))) spl)
  else Ret (None, s).
Proof.
  intros Hi. destruct (get_at_in_range (m_tlb s) i Hi) as ([hi lo] & Hg & Hl).
  unfold try_slot, tlb_read, slot_unused. rewrite Hl. mrun. rewrite Hg. mrun.
  destruct (Z.land lo TLBLO_VALID =? 0); cbn [negb]; [|done].
  unfold tlb_write. mrun. rewrite set_at_in_range by done. by mrun.
Qed.

(** The handler writes one entry: the first unused one, or the processor's
    choice when all are in use; the interrupt level is restored. *)
Lemma load_tlb_spec s slot ehi elo :
  zlength (m_tlb s) = NUM_TLB -> 0 <= slot < NUM_TLB ->
  exists i, 0 <= i < NUM_TLB /\
    load_tlb slot ehi elo s = Ret (0, set_tlb s (<[Z.to_nat i := (ehi, elo)]> (m_tlb s))) /\
    ((slot_unused (m_tlb s) i = true /\ forall j, 0 <= j < i -> slot_unused (m_tlb s) j = false) \/
     (i = slot /\ forall j, 0 <= j < NUM_TLB -> slot_unused (m_tlb s) j = false)).
Proof.
  intros Hl Hs. unfold load_tlb, splhigh. mrun. set (s1 := set_spl s IPL_HIGH).
  destruct (for_ret_search (slot_unused (m_tlb s)) (try_slot ehi elo (m_spl s))
              (Z.to_nat NUM_TLB) 0 s1) as [[E Hno]|(i & Hi & Hu & Hlow & E)].
  - intros i Hi Hf. rewrite try_slot_spec by (cbn; lia). cbn [s1 m_tlb set_spl]. by rewrite Hf.
  - intros i Hi Ht _. rewrite try_slot_spec by (cbn; lia). cbn [s1 m_tlb set_spl]. rewrite Ht. eauto.
  - exists slot. split; [done|]. rewrite (bind_ok _ _ _ _ _ E). split.
    + unfold tlb_write. mrun. cbn [s1 m_tlb set_spl].
      rewrite set_at_in_range by (rewrite Hl; lia). unfold splx. mrun. by destruct s.
    + right. split; [done|]. intros j Hj. apply Hno. unfold NUM_TLB in *. lia.
  - exists i. split; [unfold NUM_TLB in *; lia|].
    rewrite try_slot_spec in E by (cbn; unfold NUM_TLB in *; lia).
    cbn [s1 m_tlb set_spl] in E. rewrite Hu in E. rewrite (bind_ok _ _ _ _ _ E). split.
    + by destruct s.
    + left. auto.
Qed.

(** The assertions at the head of the handler hold of a well-formed address
    space. *)
Lemma vm_fault_asserts a va slot ty s :
  as_ok a -> is_u32 va -> ty = VM_FAULT_READ \/ ty = VM_FAULT_WRITE ->
  vm_fault true (Some a) slot ty va s =
  match as_frame a va with
  | None => Ret (EFAULT, s)
  | Some f => load_tlb slot (va - va mod PAGE_SIZE)
      (entrylo a f (va - va mod PAGE_SIZE) (as_vbase1 a)
               (as_vbase1 a + as_npages1 a * PAGE_SIZE)) s
  end.
Proof.
  intros Hok Hva Hty. pose proof Hok as [R1 R2 (p1 & T1 & _) (p2 & T2 & _) (p3 & T3 & _)].
  destruct R1 as (? & ? & ? & Htop1), R2 as (? & ? & ? & Htop2).
  unfold USERSTACK, MIPS_KSEG0, PAGE_SIZE in Htop1, Htop2.
  unfold vm_fault.
  replace (ty =? VM_FAULT_READONLY) with false by (destruct Hty; by subst).
  replace ((ty =? VM_FAULT_READ) || (ty =? VM_FAULT_WRITE)) with true by (destruct Hty; by subst).
  cbn [negb]. rewrite !(proj2 (Z.eqb_neq _ 0)) by lia. rewrite T1, T2, T3. cbn [is_null negb]. mrun.
  rewrite !land_aligned, !Z.eqb_refl by (done || (unfold is_u32, two32; lia)). mrun.
  rewrite land_page_frame by done.
  destruct (fault_paddr_spec a va s Hok Hva) as [E Hf].
  rewrite (bind_ok _ _ _ _ _ E). destruct (as_frame a va) as [f|]; [|done].
  destruct (Hf f eq_refl). rewrite land_aligned, Z.eqb_refl by done. mrun.
  by rewrite w32_id by (unfold is_u32, two32, PAGE_SIZE; lia).
Qed.

Lemma entrylo_text a f va :
  as_ok a -> is_u32 va ->
  entrylo a f (va - va mod PAGE_SIZE) (as_vbase1 a) (as_vbase1 a + as_npages1 a * PAGE_SIZE) =
  let elo := Z.lor (Z.lor f TLBLO_DIRTY) TLBLO_VALID in
  if is_text a va then Z.land elo (w32 (Z.lnot TLBLO_DIRTY)) else elo.
Proof.
  intros [(? & ? & _) _ _ _ _] Hva. unfold entrylo, is_text.
  rewrite <- (in_region_page_eq va (as_vbase1 a)) by (done || lia).
  unfold in_region. by rewrite (andb_comm (_ <? _)).
Qed.

(** No two entries of the TLB are for the same virtual page; tlb.h requires
    it of whoever writes the TLB. *)
Definition tlb_distinct (tlb : list (Z * Z)) : Prop :=
  forall i j ei ej, tlb !! i = Some ei -> tlb !! j = Some ej -> i <> j ->
    Z.land (fst ei) TLBHI_VPAGE <> Z.land (fst ej) TLBHI_VPAGE.

Lemma tlb_match_page va :
  is_u32 va -> Z.land (va - va mod PAGE_SIZE) TLBHI_VPAGE = Z.land va TLBHI_VPAGE.
Proof.
  intros Hva. change TLBHI_VPAGE with PAGE_FRAME. destruct (page_of_range va Hva).
  by rewrite land_aligned, land_page_frame by done.
Qed.

Lemma tlb_distinct_insert tlb i va elo :
  is_u32 va -> (forall e, e ∈ tlb -> tlb_match va e = false) -> tlb_distinct tlb ->
  tlb_distinct (<[i := (va - va mod PAGE_SIZE, elo)]> tlb).
Proof.
  intros Hva Hno Hd j k ej ek Hj Hk Hne.
  assert (forall n e, tlb !! n = Some e -> Z.land (fst e) TLBHI_VPAGE <> Z.land va TLBHI_VPAGE) as Hm.
  { intros n e He. apply Z.eqb_neq, Hno. by eapply list_elem_of_lookup_2. }
  apply list_lookup_insert_Some in Hj as [(<- & <- & _)|[? Hj]];
    apply list_lookup_insert_Some in Hk as [(<- & <- & _)|[? Hk]]; cbn [fst]; try done.
  - rewrite tlb_match_page by done. intros E. by apply (Hm k ek Hk).
  - rewrite tlb_match_page by done. by apply (Hm j ej).
  - by apply (Hd j k).
Qed.

Lemma translate_loaded tlb a f va i :
  as_ok a -> is_u32 va -> is_u32 f -> f mod PAGE_SIZE = 0 ->
  (forall e, e ∈ tlb -> tlb_match va e = false) -> (i < length tlb)%nat ->
  tlb_translate (<[i := (va - va mod PAGE_SIZE,
      entrylo a f (va - va mod PAGE_SIZE) (as_vbase1 a)
              (as_vbase1 a + as_npages1 a * PAGE_SIZE))]> tlb) va =
  Some (f + va mod PAGE_SIZE, negb (is_text a va)).
Proof.
  intros Hok Hva Hf Hal Hno Hi. unfold tlb_translate.
  rewrite find_insert_fresh; [|done|done|].
  2: { unfold tlb_match. cbn [fst]. rewrite tlb_match_page by done. apply Z.eqb_refl. }
  rewrite entrylo_text by done.
  destruct (entry_fields f (land_aligned f Hf Hal)) as (E1 & E2 & E3 & E4 & E5 & E6).
  cbv zeta in *. destruct (is_text a va).
  - by rewrite E4, E5, E6.
  - by rewrite E1, E2, E3.
Qed.

(** C26. Handling a read or write fault at an address of a well-formed address
    space: the handler returns 0 having written one TLB entry, the first
    unused one or else the processor's choice, after which the TLB translates
    the faulting address to the frame of its page, writable unless the page
    is loaded program text, and still has at most one entry per page; nothing
    else of the machine changes. At any other address it returns [EFAULT]
    and changes nothing. It trips none of its assertions. *)
Theorem vm_fault_correct s a (slot ty va : Z)
    (Hok : as_ok a) (Hva : is_u32 va) (Hty : ty = VM_FAULT_READ \/ ty = VM_FAULT_WRITE)
    (Hlen : zlength (m_tlb s) = NUM_TLB) (Hslot : 0 <= slot < NUM_TLB)
    (Hmiss : forall e, e ∈ m_tlb s -> tlb_match va e = false)
    (Hdis : tlb_distinct (m_tlb s)) :
  match as_frame a va with
  | None => vm_fault true (Some a) slot ty va s = Ret (EFAULT, s)
  | Some f => exists i e,
      let tlb' := <[Z.to_nat i := e]> (m_tlb s) in
      vm_fault true (Some a) slot ty va s = Ret (0, set_tlb s tlb') /\
      0 <= i < NUM_TLB /\
      tlb_translate tlb' va = Some (f + va mod PAGE_SIZE, negb (is_text a va)) /\
      tlb_distinct tlb' /\
      (slot_unused (m_tlb s) i = true \/
       (i = slot /\ forall j, 0 <= j < NUM_TLB -> slot_unused (m_tlb s) j = false))
  end.
Proof.
  rewrite vm_fault_asserts by done.
  destruct (fault_paddr_spec a va s Hok Hva) as [_ Hf].
  destruct (as_frame a va) as [f|]; [|done]. destruct (Hf f eq_refl) as [Hfu Hfa].
  edestruct (load_tlb_spec s slot) as (i & Hi & E & Hpick); [done|done|].
  rewrite E. eexists i, _. split; [done|]. split_and!; try lia.
  - apply translate_loaded; try done. unfold zlength in *. lia.
  - by apply tlb_distinct_insert.
  - destruct Hpick as [[? _]|[? ?]]; auto.
Qed.

(** ** Activation *)

Lemma tlbhi_invalid_eq i :
  0 <= i < NUM_TLB ->
  Z.land (TLBHI_INVALID i) TLBHI_VPAGE = MIPS_KSEG0 + i * PAGE_SIZE.
Proof.
  unfold NUM_TLB, TLBHI_INVALID, MIPS_KSEG0, PAGE_SIZE. intros Hi.
  rewrite Z.shiftl_mul_pow2 by lia. change (2 ^ 12) with 4096.
  rewrite w32_id by (unfold is_u32, two32; lia).
  change TLBHI_VPAGE with PAGE_FRAME. rewrite land_aligned; [lia|unfold is_u32, two32; lia|].
  unfold PAGE_SIZE. apply Z.mod_mul. lia.
Qed.

Lemma flush_loop s :
  zlength (m_tlb s) = NUM_TLB ->
  exists tlb, for_ (Z.to_nat NUM_TLB) 0 (fun i => tlb_write (TLBHI_INVALID i) TLBLO_INVALID i) s =
      Ret (tt, set_tlb s tlb) /\ zlength tlb = NUM_TLB /\
    forall i, 0 <= i < NUM_TLB -> tlb !! Z.to_nat i = Some (TLBHI_INVALID i, TLBLO_INVALID).
Proof.
  intros Hl.
  destruct (for_inv (fun j st => exists tlb, st = set_tlb s tlb /\ zlength tlb = NUM_TLB /\
      forall i, 0 <= i < j -> tlb !! Z.to_nat i = Some (TLBHI_INVALID i, TLBLO_INVALID))
    (fun i => tlb_write (TLBHI_INVALID i) TLBLO_INVALID i) (Z.to_nat NUM_TLB) 0 s)
    as (s' & E & tlb & -> & Hlt & Hi).
  - exists (m_tlb s). split_and!; [by destruct s|done|lia].
  - intros j st Hj (tlb & -> & Hlt & Hi). unfold tlb_write. mrun. cbn [m_tlb set_tlb].
    rewrite set_at_in_range by (unfold NUM_TLB in *; lia). eexists. split; [done|].
    exists (<[Z.to_nat j := (TLBHI_INVALID j, TLBLO_INVALID)]> tlb).
    rewrite zlength_insert. split_and!; [done|done|]. intros i Hir.
    destruct (Z.eq_dec i j) as [->|].
    + apply list_lookup_insert_eq. unfold zlength, NUM_TLB in *. lia.
    + rewrite list_lookup_insert_ne by lia. apply Hi. lia.
  - exists tlb. split_and!; try done.
Qed.

(** [as_activate] empties the TLB: afterwards no user address is
    translated, every entry is unused and no two entries are for the same
    page, as the fault handler needs; the interrupt level is as before. *)
Theorem as_activate_flushes s a (Hlen : zlength (m_tlb s) = NUM_TLB) :
  exists tlb, as_activate (Some a) s = Ret (tt, set_tlb s tlb) /\
    zlength tlb = NUM_TLB /\ tlb_distinct tlb /\
    (forall i, 0 <= i < NUM_TLB -> slot_unused tlb i = true) /\
    (forall va e, 0 <= va < USERSTACK -> e ∈ tlb -> tlb_match va e = false) /\
    (forall va, 0 <= va < USERSTACK -> tlb_translate tlb va = None).
Proof.
  unfold as_activate, splhigh. mrun.
  destruct (flush_loop (set_spl s IPL_HIGH) Hlen) as (tlb & E & Hl & Hi).
  rewrite (bind_ok _ _ _ _ _ E). exists tlb.
  assert (Hget : forall k e, tlb !! k = Some e ->
    0 <= Z.of_nat k < NUM_TLB /\ e = (TLBHI_INVALID (Z.of_nat k), TLBLO_INVALID)).
  { intros k e Hk. assert (0 <= Z.of_nat k < NUM_TLB) as Hr.
    { apply lookup_lt_Some in Hk. unfold zlength in Hl. lia. }
    split; [done|]. specialize (Hi (Z.of_nat k) Hr). rewrite Nat2Z.id in Hi. congruence. }
  assert (Hmiss : forall va e, 0 <= va < USERSTACK -> e ∈ tlb -> tlb_match va e = false).
  { intros va e Hva [k Hk]%list_elem_of_lookup. destruct (Hget k e Hk) as [Hr ->].
    unfold tlb_match. cbn [fst]. apply Z.eqb_neq. rewrite tlbhi_invalid_eq by done.
    change TLBHI_VPAGE with PAGE_FRAME. unfold USERSTACK, MIPS_KSEG0 in *.
    rewrite land_page_frame by (unfold is_u32, two32; lia).
    unfold PAGE_SIZE. pose proof (Z.mod_pos_bound va 4096). lia. }
  split_and!; try done.
  - intros i j ei ej Hei Hej Hne. destruct (Hget i ei Hei) as [? ->], (Hget j ej Hej) as [? ->].
    cbn [fst]. rewrite !tlbhi_invalid_eq by done. unfold PAGE_SIZE. lia.
  - intros i Hir. unfold slot_unused. by rewrite Hi.
  - intros va Hva. unfold tlb_translate.
    destruct (List.find (tlb_match va) tlb) as [e|] eqn:Ef; [|done].
    apply List.find_some in Ef as [Hin Hm]. apply list_elem_of_In in Hin.
    rewrite (Hmiss va e) in Hm; done.
Qed.

End fault.

(** ** Frames and the memory behind them *)

(** The blocks after single frames [gs] have been allocated, and after they
    have been released. *)
Definition claim1 (gs : list Z) (bs : gmap Z Z) : gmap Z Z :=
  foldl (fun b g => <[g := 1]> b) bs gs.
Definition release1 (gs : list Z) (bs : gmap Z Z) : gmap Z Z :=
  foldl (fun b g => delete g b) bs gs.

(** The byte address [a] lies in one of the frames [gs]. *)
Definition in_frame (v : vm) (g a : Z) : bool :=
  (frame_addr v g <=? a) && (a <? frame_addr v g + PAGE_SIZE).
Definition in_frames (v : vm) (gs : list Z) (a : Z) : bool :=
  existsb (fun g => in_frame v g a) gs.

(** Two states whose coremaps manage the same frames. *)
Definition same_frames (v v' : vm) : Prop :=
  baseAddr (core_map v') = baseAddr (core_map v) /\ size (core_map v') = size (core_map v).

Lemma same_frames_refl v : same_frames v v.
Proof. done. Qed.
Lemma same_frames_trans v1 v2 v3 : same_frames v1 v2 -> same_frames v2 v3 -> same_frames v1 v3.
Proof. unfold same_frames. intuition congruence. Qed.
Lemma same_frames_addr v v' g : same_frames v v' -> frame_addr v' g = frame_addr v g.
Proof. intros [Hb _]. unfold frame_addr. by rewrite Hb. Qed.
Lemma same_frames_in v v' gs a : same_frames v v' -> in_frames v' gs a = in_frames v gs a.
Proof.
  intros Hs. unfold in_frames, in_frame. induction gs as [|g gs IH]; [done|]. cbn.
  by rewrite IH, (same_frames_addr v v' g Hs).
Qed.

Lemma claim1_lookup gs bs x :
  claim1 gs bs !! x = if decide (x ∈ gs) then Some 1 else bs !! x.
Proof.
  revert bs. induction gs as [|g gs IH]; intros bs; cbn [claim1 foldl].
  - case_decide; [set_solver|done].
  - fold (claim1 gs (<[g := 1]> bs)). rewrite IH. destruct (decide (x ∈ gs)).
    + by rewrite decide_True by set_solver.
    + rewrite lookup_insert. destruct (decide (g = x)) as [->|].
      * by rewrite decide_True by set_solver.
      * by rewrite decide_False by set_solver.
Qed.

Lemma release1_lookup gs bs x :
  release1 gs bs !! x = if decide (x ∈ gs) then None else bs !! x.
Proof.
  revert bs. induction gs as [|g gs IH]; intros bs; cbn [release1 foldl].
  - case_decide; [set_solver|done].
  - fold (release1 gs (delete g bs)). rewrite IH. destruct (decide (x ∈ gs)).
    + by rewrite decide_True by set_solver.
    + rewrite lookup_delete. destruct (decide (g = x)) as [->|].
      * by rewrite decide_True by set_solver.
      * by rewrite decide_False by set_solver.
Qed.

Lemma release_claim1 gs bs : (forall g, g ∈ gs -> bs !! g = None) -> release1 gs (claim1 gs bs) = bs.
Proof.
  intros Hn. apply map_eq. intros x. rewrite release1_lookup, claim1_lookup.
  destruct (decide (x ∈ gs)); [symmetry; auto|done].
Qed.

(** Frames of different numbers do not overlap. *)
Lemma frames_disjoint v g h a : in_frame v g a = true -> in_frame v h a = true -> g = h.
Proof. unfold in_frame, frame_addr, PAGE_SIZE. intros. bprop. lia. Qed.

Lemma in_frames_true v gs a : in_frames v gs a = true <-> exists g, g ∈ gs /\ in_frame v g a = true.
Proof.
  unfold in_frames. rewrite existsb_exists. setoid_rewrite list_elem_of_In. done.
Qed.

Lemma in_frame_offset v g o : 0 <= o < PAGE_SIZE -> in_frame v g (frame_addr v g + o) = true.
Proof. unfold in_frame. lia. Qed.

Section copying.
Context {H : Type} `{KHeap H}.
Implicit Types (s : mach H) (a : addrspace).

(** What a frame-allocating loop leaves alone. *)
Definition same_rest s s' : Prop :=
  m_heap s' = m_heap s /\ m_tlb s' = m_tlb s /\ m_spl s' = m_spl s.

(** The table of a region: the frames [gs], in order. *)
Definition table (v : vm) (q : Z) (gs : list Z) : option ptable :=
  Some (mk_ptable q (map (fun g => Some (frame_addr v g)) gs)).

Lemma table_same v v' q gs : same_frames v v' -> table v' q gs = table v q gs.
Proof.
  intros Hs. unfold table. do 2 f_equal. apply map_ext. intros g. f_equal.
  by apply same_frames_addr.
Qed.

Lemma pt_set_next q (pre rest : list (option Z)) x f :
  pt_set (Some (mk_ptable q (pre ++ x :: rest))) (zlength pre) f =
  Ret (Some (mk_ptable q ((pre ++ [Some f]) ++ rest))).
Proof.
  unfold pt_set. cbn [pt_entries pt_ptr]. rewrite set_at_in_range.
  - unfold zlength. rewrite Nat2Z.id. rewrite insert_app_r_alt by lia.
    by rewrite Nat.sub_diag, <- (assoc_L (++)).
  - unfold zlength. rewrite length_app. cbn. lia.
Qed.

Lemma prepare_pages_spec rest pre q s bs :
  vm_ok (m_vm s) bs -> (length rest <= nfree (core_map (m_vm s)))%nat ->
  exists gs s',
    prepare_pages (length rest) (zlength pre) (Some (mk_ptable q (pre ++ rest))) s =
      Ret ((false, Some (mk_ptable q (pre ++ map (fun g => Some (frame_addr (m_vm s) g)) gs))), s') /\
    length gs = length rest /\ NoDup gs /\
    (forall g, g ∈ gs -> 0 <= g < size (core_map (m_vm s)) /\ bs !! g = None) /\
    vm_ok (m_vm s') (claim1 gs bs) /\ same_frames (m_vm s) (m_vm s') /\ same_rest s s' /\
    (nfree (core_map (m_vm s)) = length gs + nfree (core_map (m_vm s')))%nat /\
    (forall x, m_mem s' x = if in_frames (m_vm s) gs x then 0 else m_mem s x).
Proof.
  revert pre s bs. induction rest as [|x rest IH]; intros pre s bs Hok Hn.
  { exists [], s. cbn. rewrite app_nil_r. split_and!; try done; [constructor|set_solver]. }
  cbn [length prepare_pages] in *.
  destruct (getppages_one (m_vm s) bs Hok ltac:(lia))
    as (g & v1 & E & Hok1 & Hg & Hfree & Hnew & Hb & Hs & Hcount).
  destruct (frame_addr_range (m_vm s) bs g Hok ltac:(lia) ltac:(lia)) as (_ & Hpos & _).
  unfold bind at 1, in_vm at 1. rewrite E. rewrite pt_set_next. mrun.
  rewrite (proj2 (Z.eqb_neq _ 0)) by lia. unfold as_zero_region. mrun.
  set (s1 := set_mem (set_vm s v1) _).
  destruct (IH (pre ++ [Some (frame_addr (m_vm s) g)]) s1 (<[g := 1]> bs))
    as (gs & s' & E' & Hlen & Hnd & Hnew' & Hok' & Hsf & Hsr & Hcnt & Hmem); [done|cbn; lia|].
  assert (same_frames (m_vm s) v1) as Hsf1 by done.
  exists (g :: gs), s'. split_and!.
  - replace (zlength (pre ++ [Some (frame_addr (m_vm s) g)])) with (zlength pre + 1) in E'
      by (unfold zlength; rewrite length_app; cbn; lia).
    rewrite E'. cbn [map]. rewrite <- (assoc_L (++)). cbn [app].
    do 7 f_equal. apply map_ext. intros h. f_equal. by apply (same_frames_addr (m_vm s) v1).
  - cbn. lia.
  - constructor; [|done]. intros Hin. apply Hnew' in Hin as [_ Hin].
    by rewrite lookup_insert_eq in Hin.
  - intros h [->|Hin]%elem_of_cons; [by split; [lia|]|].
    apply Hnew' in Hin as [Hr Hin]. cbn in Hr. rewrite Hs in Hr. split; [lia|].
    by apply lookup_insert_None in Hin as [? _].
  - done.
  - by eapply same_frames_trans.
  - done.
  - cbn in Hcnt |- *. lia.
  - intros y. rewrite Hmem. cbn [m_vm m_mem s1 set_mem set_vm].
    rewrite (same_frames_in (m_vm s) v1) by done. cbn [in_frames existsb].
    fold (in_frames (m_vm s) gs y). unfold fill_zero, in_frame. rewrite Z.mul_1_l.
    by destruct (in_frames (m_vm s) gs y), ((frame_addr (m_vm s) g <=? y) &&
      (y <? frame_addr (m_vm s) g + PAGE_SIZE)).
Qed.

(** The frames [gs] have been allocated one by one and cleared; nothing else
    has changed. *)
Record cleared s (bs : gmap Z Z) (gs : list Z) s' : Prop := {
  cl_nodup : NoDup gs;
  cl_new : forall g, g ∈ gs -> 0 <= g < size (core_map (m_vm s)) /\ bs !! g = None;
  cl_ok : vm_ok (m_vm s') (claim1 gs bs);
  cl_frames : same_frames (m_vm s) (m_vm s');
  cl_rest : same_rest s s';
  cl_nfree : (nfree (core_map (m_vm s)) = length gs + nfree (core_map (m_vm s')))%nat;
  cl_mem : forall x, m_mem s' x = if in_frames (m_vm s) gs x then 0 else m_mem s x;
}.

Lemma cleared_trans s bs gs s1 hs s2 :
  cleared s bs gs s1 -> cleared s1 (claim1 gs bs) hs s2 -> cleared s bs (gs ++ hs) s2.
Proof.
  intros [N1 W1 O1 F1 R1 C1 M1] [N2 W2 O2 F2 R2 C2 M2]. split.
  - apply NoDup_app. split_and!; [done| |done]. intros g Hg Hh.
    apply W2 in Hh as [_ Hh]. rewrite claim1_lookup, decide_True in Hh by done. done.
  - intros g [Hg|Hg]%elem_of_app; [by apply W1|]. apply W2 in Hg as [Hr Hg].
    destruct F1 as [_ F1]. rewrite F1 in Hr. split; [done|]. rewrite claim1_lookup in Hg. by case_decide.
  - unfold claim1 in *. by rewrite foldl_app.
  - by eapply same_frames_trans.
  - unfold same_rest in *. intuition congruence.
  - rewrite length_app. lia.
  - intros x. rewrite M2, M1, (same_frames_in (m_vm s)) by done.
    unfold in_frames. rewrite existsb_app. fold (in_frames (m_vm s) gs x) (in_frames (m_vm s) hs x).
    by destruct (in_frames (m_vm s) gs x), (in_frames (m_vm s) hs x).
Qed.

(** [prepare_pages] on a fresh table of [n] entries. *)
Lemma prepare_table q n s bs :
  vm_ok (m_vm s) bs -> (n <= nfree (core_map (m_vm s)))%nat ->
  exists gs s', prepare_pages n 0 (Some (mk_ptable q (replicate n None))) s =
      Ret ((false, table (m_vm s) q gs), s') /\
    length gs = n /\ cleared s bs gs s'.
Proof.
  intros Hok Hn.
  destruct (prepare_pages_spec (replicate n None) [] q s bs) as
    (gs & s' & E & Hlen & Hnd & Hnew & Hok' & Hf & Hr & Hc & Hm); [done|by rewrite length_replicate|].
  rewrite length_replicate in *. exists gs, s'. split; [exact E|]. split; [done|by split].
Qed.

(** The heap can serve the requests [szs], one after the other. *)
Fixpoint heap_serves (szs : list Z) (h : H) : bool :=
  match szs with
  | [] => true
  | sz :: szs => match kmalloc sz h with
                 | Ret (p, h') => negb (p =? 0) && heap_serves szs h'
                 | _ => false
                 end
  end.

Lemma heap_serves_first sz szs h : heap_serves (sz :: szs) h = true -> heap_serves [sz] h = true.
Proof.
  cbn. destruct (kmalloc sz h) as [[p h']| | |]; [|done..]. by destruct (p =? 0).
Qed.

Lemma alloc_ptable_cases n szs s :
  heap_ok (m_heap s) -> 0 <= n < 536870912 ->
  (exists h', alloc_ptable n s = Ret (None, set_heap s h') /\ heap_ok h' /\
     live h' = live (m_heap s) /\ heap_serves (4 * n :: szs) (m_heap s) = false) \/
  (exists p h', alloc_ptable n s =
       Ret (Some (mk_ptable p (replicate (Z.to_nat n) None)), set_heap s h') /\
     heap_ok h' /\ live (m_heap s) !! p = None /\
     live h' = <[p := 4 * n]> (live (m_heap s)) /\
     heap_serves (4 * n :: szs) (m_heap s) = heap_serves szs h').
Proof.
  intros Hh Hn. unfold alloc_ptable, sizeof_page_table. cbn [heap_serves].
  rewrite w32_id by (unfold is_u32, two32; lia).
  rewrite (Z.mul_comm 4 n), Z.div_mul by lia. unfold bind, in_heap.
  destruct (kmalloc_cases (n * 4) (m_heap s)) as
    [(h1 & -> & ? & ?)|(p & h1 & -> & ? & ? & ? & ?)]; [done|unfold heap_max; lia|left|right].
  - eauto 10.
  - rewrite (proj2 (Z.eqb_neq p 0)) by lia. eauto 10.
Qed.

(** The address space after loading: three tables of frames. *)
Definition with_tables a (v : vm) q1 gs1 q2 gs2 q3 gs3 : addrspace :=
  mk_as (as_self a) (as_vbase1 a) (as_vbase2 a) (as_npages1 a) (as_npages2 a)
        (loadCode_done a) (table v q1 gs1) (table v q2 gs2) (table v q3 gs3).

Lemma as_prepare_load_cases a s bs q1 q2 :
  vm_ok (m_vm s) bs -> heap_ok (m_heap s) -> 0 <= as_npages1 a -> 0 <= as_npages2 a ->
  as_ptable1 a = Some (mk_ptable q1 (replicate (Z.to_nat (as_npages1 a)) None)) ->
  as_ptable2 a = Some (mk_ptable q2 (replicate (Z.to_nat (as_npages2 a)) None)) ->
  (Z.to_nat (as_npages1 a) + Z.to_nat (as_npages2 a) + 12 <= nfree (core_map (m_vm s)))%nat ->
  (exists h', as_prepare_load a s = Ret ((ENOMEM, set_stackptable a None), set_heap s h') /\
     heap_serves [4 * DUMBVM_STACKPAGES] (m_heap s) = false) \/
  (exists q3 h' gs1 gs2 gs3 s',
     as_prepare_load a s = Ret ((0, with_tables a (m_vm s) q1 gs1 q2 gs2 q3 gs3), s') /\
     heap_ok h' /\ live (m_heap s) !! q3 = None /\
     live h' = <[q3 := 4 * DUMBVM_STACKPAGES]> (live (m_heap s)) /\
     heap_serves [4 * DUMBVM_STACKPAGES] (m_heap s) = true /\
     length gs1 = Z.to_nat (as_npages1 a) /\ length gs2 = Z.to_nat (as_npages2 a) /\
     length gs3 = 12%nat /\ cleared (set_heap s h') bs (gs1 ++ gs2 ++ gs3) s').
Proof.
  intros Hok Hh Hn1 Hn2 T1 T2 Hfree. unfold as_prepare_load.
  destruct (alloc_ptable_cases DUMBVM_STACKPAGES [] s) as
    [(h1 & E & ? & ? & ?)|(q3 & h1 & E & ? & ? & Hl & ?)];
    [done|unfold DUMBVM_STACKPAGES; lia|left|right]; rewrite (bind_ok _ _ _ _ _ E).
  { exists h1. cbn. rewrite T1, T2. by split_and!. }
  cbn [set_stackptable as_ptable1 as_ptable2 as_stackptable as_npages1 as_npages2].
  rewrite T1, T2. cbn [is_null orb].
  set (s0 := set_heap s h1).
  destruct (prepare_table q1 (Z.to_nat (as_npages1 a)) s0 bs) as (gs1 & s1 & E1 & L1 & C1);
    [done|cbn; lia|]. rewrite (bind_ok _ _ _ _ _ E1).
  cbn [set_ptable1 set_stackptable as_ptable2 as_npages2]. rewrite T2.
  destruct (prepare_table q2 (Z.to_nat (as_npages2 a)) s1 (claim1 gs1 bs))
    as (gs2 & s2 & E2 & L2 & C2); [apply C1|pose proof (cl_nfree _ _ _ _ C1); cbn in *; lia|].
  rewrite (bind_ok _ _ _ _ _ E2). cbn [set_ptable1 set_ptable2 set_stackptable as_stackptable].
  pose proof (cleared_trans _ _ _ _ _ _ C1 C2) as C12.
  destruct (prepare_table q3 12 s2 (claim1 (gs1 ++ gs2) bs)) as (gs3 & s3 & E3 & L3 & C3);
    [apply C12|pose proof (cl_nfree _ _ _ _ C12) as Hc; rewrite length_app in Hc; cbn in *; lia|].
  change (Z.to_nat DUMBVM_STACKPAGES) with 12%nat in *. rewrite (bind_ok _ _ _ _ _ E3).
  exists q3, h1, gs1, gs2, gs3, s3.
  pose proof (cleared_trans _ _ _ _ _ _ C12 C3) as C. rewrite <- (assoc_L (++)) in C.
  rewrite (table_same (m_vm s) (m_vm s1)) by apply C1.
  rewrite (table_same (m_vm s) (m_vm s2)) by apply C12. by split_and!.
Qed.

(** The address space [a] has its three tables, and their frames [gs1],
    [gs2], [gs3] are one-frame blocks of the allocator, all different. *)
Record as_owned (v : vm) (bs : gmap Z Z) a (q1 : Z) (gs1 : list Z) (q2 : Z) (gs2 : list Z)
    (q3 : Z) (gs3 : list Z) : Prop := {
  ow_t1 : as_ptable1 a = table v q1 gs1;
  ow_t2 : as_ptable2 a = table v q2 gs2;
  ow_t3 : as_stackptable a = table v q3 gs3;
  ow_l1 : as_npages1 a = zlength gs1;
  ow_l2 : as_npages2 a = zlength gs2;
  ow_l3 : zlength gs3 = DUMBVM_STACKPAGES;
  ow_small : zlength gs1 < 536870912 /\ zlength gs2 < 536870912;
  ow_nodup : NoDup (gs1 ++ gs2 ++ gs3);
  ow_blocks : forall g, g ∈ gs1 ++ gs2 ++ gs3 -> bs !! g = Some 1
}.

Lemma pt_get_table v q gs i g :
  0 <= i -> gs !! Z.to_nat i = Some g -> pt_get (table v q gs) i = Ret (frame_addr v g).
Proof.
  intros Hi Hg. unfold pt_get, table, get_at. cbn [pt_entries].
  rewrite (proj2 (Z.ltb_ge i 0)) by lia. rewrite list_lookup_fmap, Hg. done.
Qed.

(** *** Copying the pages of one region *)

(** [mem] is [mem0] with the first [k] frames of [gs] overwritten by the
    contents of the frames [hs]. *)
Definition copied v (gs hs : list Z) (k : nat) (mem mem0 : Z -> Z) : Prop :=
  (forall i g h o, (i < k)%nat -> gs !! i = Some g -> hs !! i = Some h -> 0 <= o < PAGE_SIZE ->
     mem (frame_addr v g + o) = mem0 (frame_addr v h + o)) /\
  (forall x, in_frames v (take k gs) x = false -> mem x = mem0 x).

Lemma copied_step v gs hs k g h mem mem0 :
  NoDup gs -> (forall x, x ∈ gs -> x ∉ hs) -> gs !! k = Some g -> hs !! k = Some h ->
  copied v gs hs k mem mem0 ->
  copied v gs hs (S k) (move_bytes mem (frame_addr v g) (frame_addr v h) PAGE_SIZE) mem0.
Proof.
  intros Nd Dis Hg Hh [Hc Hr]. split.
  - intros i g' h' o Hi Hg' Hh' Ho. unfold move_bytes. fold (in_frame v g (frame_addr v g' + o)).
    destruct (decide (i = k)) as [->|Hne].
    + rewrite Hg in Hg'. rewrite Hh in Hh'. injection Hg' as <-. injection Hh' as <-.
      rewrite in_frame_offset by done.
      replace (frame_addr v h + (frame_addr v g + o - frame_addr v g))
        with (frame_addr v h + o) by lia. apply Hr.
      apply not_true_iff_false. intros (g' & Hin' & Hf)%in_frames_true.
      assert (g' = h) as -> by (by eapply frames_disjoint; [|apply in_frame_offset]).
      apply (Dis h); [|by eapply list_elem_of_lookup_2].
      apply elem_of_take in Hin' as (? & ? & ?). by eapply list_elem_of_lookup_2.
    + destruct (in_frame v g (frame_addr v g' + o)) eqn:Ef; [|by apply (Hc i); [lia|..]].
      assert (g = g') as <- by (eapply frames_disjoint; [done|by apply in_frame_offset]).
      destruct Hne. by eapply NoDup_lookup.
  - intros x. rewrite (take_S_r _ _ g) by done. unfold in_frames. rewrite existsb_app.
    intros [Hx1 Hx2]%orb_false_iff. cbn in Hx2. rewrite orb_false_r in Hx2.
    unfold move_bytes. unfold in_frame in Hx2. rewrite Hx2. by apply Hr.
Qed.

Lemma copy_pages_spec v q gs q' hs n s :
  zlength gs = n -> zlength hs = n -> NoDup gs -> (forall g, g ∈ gs -> g ∉ hs) ->
  exists mem, copy_pages n (table v q gs) (table v q' hs) s = Ret (tt, set_mem s mem) /\
    copied v gs hs (length gs) mem (m_mem s).
Proof.
  intros Lg Lh Nd Dis. unfold copy_pages.
  edestruct (for_inv (fun j st => exists mem, st = set_mem s mem /\
      copied v gs hs (Z.to_nat j) mem (m_mem s))) as (s' & E & mem & -> & Hc);
    [| |exists mem; split; [exact E|]].
  - exists (m_mem s). split; [by destruct s|]. split; [intros; cbn in *; lia|done].
  - intros j st Hj (mem & -> & Hc).
    destruct (lookup_lt_is_Some_2 gs (Z.to_nat j)) as [g Hg]; [unfold zlength in *; lia|].
    destruct (lookup_lt_is_Some_2 hs (Z.to_nat j)) as [h Hh]; [unfold zlength in *; lia|].
    rewrite (pt_get_table v q gs j g), (pt_get_table v q' hs j h) by (done || lia). mrun.
    eexists. split; [done|]. eexists. split; [done|].
    replace (Z.to_nat (j + 1)) with (S (Z.to_nat j)) by lia. by apply copied_step.
  - replace (Z.to_nat _) with (length gs) in Hc by (unfold zlength in *; lia). done.
Qed.

Lemma copied_app v gs hs gs' hs' mem0 mem1 mem2 :
  length gs = length hs -> NoDup (gs ++ gs') -> (forall g, g ∈ gs -> g ∉ hs') ->
  copied v gs hs (length gs) mem1 mem0 -> copied v gs' hs' (length gs') mem2 mem1 ->
  copied v (gs ++ gs') (hs ++ hs') (length (gs ++ gs')) mem2 mem0.
Proof.
  intros Hl (_ & Nd & _)%NoDup_app Dis [C1 R1] [C2 R2].
  rewrite take_ge in R1, R2 by lia.
  assert (Hout : forall ks g o, g ∉ ks -> 0 <= o < PAGE_SIZE -> in_frames v ks (frame_addr v g + o) = false).
  { intros ks g o Hg Ho. apply not_true_iff_false. intros (k & Hk & Hf)%in_frames_true.
    assert (k = g) as -> by (by eapply frames_disjoint; [|apply in_frame_offset]). done. }
  split.
  - intros i g h o Hi Hg Hh Ho. destruct (decide (i < length gs)%nat).
    + rewrite lookup_app_l in Hg, Hh by lia.
      rewrite R2 by (apply Hout; [by eapply Nd, list_elem_of_lookup_2|done]). by eapply C1.
    + rewrite lookup_app_r in Hg, Hh by lia. rewrite <- Hl in Hh.
      erewrite C2; [|by eapply lookup_lt_Some|done..].
      apply R1, Hout; [|done]. intros Hin. apply (Dis h); [done|by eapply list_elem_of_lookup_2].
  - intros x. rewrite take_ge by lia. unfold in_frames. rewrite existsb_app.
    intros [Hx1 Hx2]%orb_false_iff. rewrite R2 by done. by apply R1.
Qed.

(** *** Freeing the frames of one region *)

Lemma free_pages_spec v q gs n s bs :
  n = zlength gs -> same_frames v (m_vm s) -> vm_ok (m_vm s) bs -> NoDup gs ->
  (forall g, g ∈ gs -> bs !! g = Some 1) ->
  exists v', free_pages n (table v q gs) s = Ret (tt, set_vm s v') /\
    vm_ok v' (release1 gs bs) /\ same_frames (m_vm s) v'.
Proof.
  intros -> Hsf Hok Nd Hin. unfold free_pages.
  edestruct (for_inv (fun j st => exists v', st = set_vm s v' /\
      vm_ok v' (release1 (take (Z.to_nat j) gs) bs) /\ same_frames (m_vm s) v'))
    as (s' & E & v' & -> & Hv & Hs); [| |exists v'; split; [exact E|]].
  - exists (m_vm s). cbn. by destruct s.
  - intros j st Hj (v' & -> & Hv & Hs).
    destruct (lookup_lt_is_Some_2 gs (Z.to_nat j)) as [g Hg]; [unfold zlength in *; lia|].
    rewrite (pt_get_table v q gs j g) by (done || lia). mrun. unfold in_vm. cbn [m_vm set_vm].
    rewrite <- (same_frames_addr v v' g) by (by eapply same_frames_trans).
    destruct (free_kpages_abs v' (release1 (take (Z.to_nat j) gs) bs) g 1) as (us & E & Hv' & _).
    { done. }
    { rewrite release1_lookup, decide_False; [by apply Hin; eapply list_elem_of_lookup_2|].
      intros (i & Hi & Hlt)%elem_of_take. pose proof (NoDup_lookup _ _ _ _ Nd Hi Hg). lia. }
    rewrite E. eexists. split; [done|]. eexists. split; [done|].
    replace (Z.to_nat (j + 1)) with (S (Z.to_nat j)) by lia.
    rewrite (take_S_r _ _ g) by done. unfold release1 in *. rewrite foldl_snoc. split; done.
  - rewrite take_ge in Hv by (unfold zlength; lia). done.
Qed.

(** The four heap blocks of an address space: they are live and different,
    and without them the heap holds [l0]. *)
Record as_blocks (l : gmap Z Z) (self q1 q2 q3 : Z) (l0 : gmap Z Z) : Prop := {
  bl_nodup : NoDup [q3; q2; q1; self];
  bl_live : forall p, p ∈ [q3; q2; q1; self] -> is_Some (l !! p);
  bl_rest : foldl (fun m p => delete p m) l [q3; q2; q1; self] = l0
}.

Lemma kfrees_spec ps s :
  heap_ok (m_heap s) -> NoDup ps -> (forall p, p ∈ ps -> is_Some (live (m_heap s) !! p)) ->
  exists h', foldr (fun p k => do* in_heap (kfree p) in k) (ret tt) ps s = Ret (tt, set_heap s h') /\
    heap_ok h' /\ live h' = foldl (fun m p => delete p m) (live (m_heap s)) ps.
Proof.
  revert s. induction ps as [|p ps IH]; intros s Hok Nd Hl.
  { exists (m_heap s). by destruct s. }
  apply NoDup_cons in Nd as [Hp Nd]. cbn [foldr foldl].
  destruct (kfree_spec p (m_heap s)) as (h1 & E & Hok1 & Hl1); [done|apply Hl; set_solver|].
  rewrite (bind_ok _ _ _ tt (set_heap s h1)) by (unfold in_heap; by rewrite E).
  destruct (IH (set_heap s h1)) as (h' & E' & Hok' & Hl'); [done|done| |].
  { intros x Hx. cbn. rewrite Hl1, lookup_delete_ne by set_solver. apply Hl. set_solver. }
  exists h'. cbn in Hl'. by rewrite E', Hl', Hl1.
Qed.

Lemma as_destroy_spec s bs a q1 gs1 q2 gs2 q3 gs3 v l0 :
  vm_ok (m_vm s) bs -> same_frames v (m_vm s) -> heap_ok (m_heap s) ->
  as_owned v bs a q1 gs1 q2 gs2 q3 gs3 ->
  as_blocks (live (m_heap s)) (as_self a) q1 q2 q3 l0 ->
  exists v' h', as_destroy a s = Ret (tt, set_heap (set_vm s v') h') /\
    vm_ok v' (release1 (gs1 ++ gs2 ++ gs3) bs) /\ same_frames (m_vm s) v' /\
    heap_ok h' /\ live h' = l0.
Proof.
  intros Hvm Hsf Hh [T1 T2 T3 L1 L2 L3 [B1 B2] Nd Hb] [Nq Hq Hl0]. unfold as_destroy.
  rewrite L1, L2, T1, T2, T3, !s32_id by (unfold is_s32, zlength in *; lia).
  apply NoDup_app in Nd as (Nd1 & D1 & (Nd2 & D2 & Nd3)%NoDup_app).
  destruct (free_pages_spec v q1 gs1 (zlength gs1) s bs) as (v1 & E1 & V1 & S1);
    [done..|intros; apply Hb; set_solver|].
  rewrite (bind_ok _ _ _ _ _ E1).
  destruct (free_pages_spec v q2 gs2 (zlength gs2) (set_vm s v1) (release1 gs1 bs))
    as (v2 & E2 & V2 & S2); [done|by eapply same_frames_trans|done|done| |].
  { intros g Hg. rewrite release1_lookup, decide_False by (intros ?; by apply (D1 g); [|set_solver]).
    apply Hb. set_solver. }
  rewrite (bind_ok _ _ _ _ _ E2). cbn in S2.
  assert (same_frames (m_vm s) v2) as S12 by (by eapply same_frames_trans).
  destruct (free_pages_spec v q3 gs3 DUMBVM_STACKPAGES (set_vm s v2) (release1 gs2 (release1 gs1 bs)))
    as (v3 & E3 & V3 & S3); [done|by eapply same_frames_trans|done|done| |].
  { intros g Hg. rewrite !release1_lookup, !decide_False
      by (intros ?; first [by apply (D1 g); [|set_solver]|by apply (D2 g)]).
    apply Hb. set_solver. }
  rewrite (bind_ok _ _ _ _ _ E3). cbn in S3.
  destruct (kfrees_spec [q3; q2; q1; as_self a] (set_vm s v3)) as (h' & E & Hh' & Hl'); [done..|].
  cbn [foldr] in E. exists v3, h'. split_and!; [|  |by eapply same_frames_trans|done|by rewrite Hl'].
  - cbn [pt_addr table pt_ptr]. rewrite <- E. unfold bind, ret.
    do 3 (destruct (in_heap _ _) as [[[] ?]| | |]; [|done..]).
    by destruct (in_heap _ _) as [[[] ?]| | |].
  - unfold release1 in *. by rewrite !foldl_app.
Qed.

(** *** [as_copy] when the heap gives out *)

(** A table none of whose entries can be read: null, or never written. *)
Definition bare (t : option ptable) : Prop := forall i, pt_get t i = Fault.

Lemma bare_none : bare None.
Proof. done. Qed.
Lemma bare_fresh p n : bare (Some (mk_ptable p (replicate n None))).
Proof.
  intros i. unfold pt_get, get_at. cbn [pt_entries]. destruct (i <? 0); [done|].
  destruct (replicate n None !! Z.to_nat i) as [[f|]|] eqn:E; [|done..].
  by apply lookup_replicate in E as [? _].
Qed.
Hint Resolve bare_none bare_fresh : core.

Lemma free_pages_bare n t s :
  bare t -> free_pages n t s = if n <=? 0 then Ret (tt, s) else Fault.
Proof.
  intros Hb. unfold free_pages. destruct (Z.leb_spec n 0).
  - by replace (Z.to_nat n) with 0%nat by lia.
  - destruct (Z.to_nat n) eqn:E; [lia|]. cbn. unfold bind, lift. by rewrite Hb.
Qed.

Lemma as_destroy_bare a s :
  bare (as_ptable1 a) -> bare (as_ptable2 a) -> bare (as_stackptable a) -> as_destroy a s = Fault.
Proof.
  intros B1 B2 B3. unfold as_destroy, bind. rewrite free_pages_bare by done.
  destruct (_ <=? 0); [|done]. rewrite free_pages_bare by done. destruct (_ <=? 0); [|done].
  by rewrite free_pages_bare.
Qed.

Lemma as_prepare_load_null a s :
  heap_ok (m_heap s) -> as_ptable1 a = None \/ as_ptable2 a = None ->
  exists t s', as_prepare_load a s = Ret ((ENOMEM, set_stackptable a t), s') /\ bare t.
Proof.
  intros Hh Hn. unfold as_prepare_load.
  destruct (alloc_ptable_cases DUMBVM_STACKPAGES [] s) as [(h1 & E & _)|(q3 & h1 & E & _)];
    [done|unfold DUMBVM_STACKPAGES; lia|..]; rewrite (bind_ok _ _ _ _ _ E);
    cbn [set_stackptable as_ptable1 as_ptable2];
    destruct Hn as [-> | ->]; cbn [is_null]; rewrite ?orb_true_r; eauto.
Qed.

(** The requests [as_copy] makes of the heap. *)
Definition as_copy_requests (n1 n2 : Z) : list Z :=
  [sizeof_addrspace; 4 * n1; 4 * n2; 4 * DUMBVM_STACKPAGES].

Definition set_layout (p : Z) (old : addrspace) (t1 t2 t3 : option ptable) : addrspace :=
  mk_as p (as_vbase1 old) (as_vbase2 old) (as_npages1 old) (as_npages2 old) 0 t1 t2 t3.

(** Everything [as_copy] does after its first two page tables. *)
Definition as_copy_tail (old new : addrspace) : M (mach H) (Z * option addrspace) :=
  let* (err, new) := as_prepare_load new in
  if negb (err =? 0) then
    do* as_destroy new in ret (ENOMEM, None)
  else
    do* kassert (negb (is_null (as_ptable1 new)) && negb (is_null (as_ptable2 new))
                 && negb (is_null (as_stackptable new))) in
    do* copy_pages (as_npages1 old) (as_ptable1 new) (as_ptable1 old) in
    do* copy_pages (as_npages2 old) (as_ptable2 new) (as_ptable2 old) in
    do* copy_pages DUMBVM_STACKPAGES (as_stackptable new) (as_stackptable old) in
    ret (0, Some new).

(** The three ways through the allocations of [as_copy]. *)
Lemma as_copy_heap old s :
  heap_ok (m_heap s) -> 0 <= as_npages1 old < 536870912 -> 0 <= as_npages2 old < 536870912 ->
  (exists h', as_copy old s = Ret ((ENOMEM, None), set_heap s h') /\ heap_ok h' /\
     live h' = live (m_heap s) /\ heap_serves [sizeof_addrspace] (m_heap s) = false) \/
  (as_copy old s = Fault /\ heap_serves [sizeof_addrspace] (m_heap s) = true /\
     heap_serves (as_copy_requests (as_npages1 old) (as_npages2 old)) (m_heap s) = false) \/
  (exists p q1 q2 h', as_copy old s = as_copy_tail old
       (set_layout p old (Some (mk_ptable q1 (replicate (Z.to_nat (as_npages1 old)) None)))
          (Some (mk_ptable q2 (replicate (Z.to_nat (as_npages2 old)) None))) None) (set_heap s h') /\
     heap_ok h' /\ heap_serves [sizeof_addrspace] (m_heap s) = true /\
     heap_serves (as_copy_requests (as_npages1 old) (as_npages2 old)) (m_heap s) =
       heap_serves [4 * DUMBVM_STACKPAGES] h' /\
     NoDup [q2; q1; p] /\ (forall x, x ∈ [q2; q1; p] -> live (m_heap s) !! x = None) /\
     live h' = <[q2 := 4 * as_npages2 old]> (<[q1 := 4 * as_npages1 old]>
                 (<[p := sizeof_addrspace]> (live (m_heap s))))).
Proof.
  intros Hh Hn1 Hn2. unfold as_copy_requests. unfold as_copy, as_create. rewrite bind_bind.
  cbn [heap_serves].
  destruct (kmalloc_cases sizeof_addrspace (m_heap s)) as
    [(h0 & E & ? & ?)|(p & h0 & E & Hok0 & Hp & F0 & L0)]; [done|unfold sizeof_addrspace, heap_max; lia| |].
  all: rewrite E; rewrite (bind_ok _ _ s _ (set_heap s h0)) by (unfold in_heap; by rewrite E).
  { left. cbn [Z.eqb]. rewrite bind_ret. eauto 10. }
  right. rewrite (proj2 (Z.eqb_neq p 0)) by lia. rewrite bind_ret. cbn [negb andb].
  cbn [as_npages1 as_npages2 as_self loadCode_done as_ptable1 as_ptable2 as_stackptable].
  set (s0 := set_heap s h0).
  assert (Hf : forall t1 t2 s', heap_ok (m_heap s') -> (t1 = None \/ t2 = None) -> bare t1 -> bare t2 ->
    as_copy_tail old (set_layout p old t1 t2 None) s' = Fault).
  { intros t1 t2 s' Hok' Hor B1 B2. unfold as_copy_tail.
    destruct (as_prepare_load_null (set_layout p old t1 t2 None) s') as (t & s2 & E' & Bt); [done..|].
    rewrite (bind_ok _ _ _ _ _ E'). cbn [ENOMEM Z.eqb negb]. unfold bind.
    by rewrite as_destroy_bare. }
  destruct (alloc_ptable_cases (as_npages1 old) [4 * as_npages2 old; 4 * DUMBVM_STACKPAGES] s0)
    as [(h1 & E1 & Ok1 & _ & S1)|(q1 & h1 & E1 & Ok1 & F1 & L1 & S1)]; [done..| |];
    cbn [m_heap s0 set_heap heap_serves] in S1; cbn [heap_serves];
    rewrite S1, (bind_ok _ _ _ _ _ E1); cbn [set_ptable1 as_npages2].
  all: destruct (alloc_ptable_cases (as_npages2 old) [4 * DUMBVM_STACKPAGES] (set_heap s0 h1))
    as [(h2 & E2 & Ok2 & _ & S2)|(q2 & h2 & E2 & Ok2 & F2 & L2 & S2)]; [done..| |];
    cbn [m_heap s0 set_heap heap_serves] in S2; cbn [heap_serves];
    rewrite ?S2, (bind_ok _ _ _ _ _ E2).
  1-3: left; split_and!; [|done..]; apply (Hf _ _ (set_heap _ h2)); cbn; by auto.
  right. exists p, q1, q2, h2. cbn in *. rewrite L0 in L1, F1. rewrite L1 in F2.
  apply lookup_insert_None in F1 as [F1 N1].
  apply lookup_insert_None in F2 as [[F2 N2]%lookup_insert_None N3].
  split_and!; try done; [| |by rewrite L2, L1].
  - repeat constructor; set_solver.
  - intros x. rewrite !elem_of_cons. intros [-> |[-> |[-> |[]%elem_of_nil]]]; done.
Qed.

(** *** The whole of [as_copy] *)

Section copy.
Context (s : mach H) (bs : gmap Z Z) (old : addrspace).
Context (q1 : Z) (hs1 : list Z) (q2 : Z) (hs2 : list Z) (q3 : Z) (hs3 : list Z).
Hypothesis Hvm : vm_ok (m_vm s) bs.
Hypothesis Hheap : heap_ok (m_heap s).
Hypothesis Hown : as_owned (m_vm s) bs old q1 hs1 q2 hs2 q3 hs3.
Hypothesis Hroom : (length (hs1 ++ hs2 ++ hs3) <= nfree (core_map (m_vm s)))%nat.

(** [new] is a copy of [old], in frames and heap blocks of its own. *)
Definition is_copy new s' : Prop :=
  exists p1 gs1 p2 gs2 p3 gs3,
    as_vbase1 new = as_vbase1 old /\ as_vbase2 new = as_vbase2 old /\ loadCode_done new = 0 /\
    as_owned (m_vm s) (claim1 (gs1 ++ gs2 ++ gs3) bs) new p1 gs1 p2 gs2 p3 gs3 /\
    length gs1 = length hs1 /\ length gs2 = length hs2 /\
    (forall g, g ∈ gs1 ++ gs2 ++ gs3 -> bs !! g = None) /\
    vm_ok (m_vm s') (claim1 (gs1 ++ gs2 ++ gs3) bs) /\ same_frames (m_vm s) (m_vm s') /\
    copied (m_vm s) (gs1 ++ gs2 ++ gs3) (hs1 ++ hs2 ++ hs3) (length (gs1 ++ gs2 ++ gs3))
      (m_mem s') (m_mem s) /\
    heap_ok (m_heap s') /\
    as_blocks (live (m_heap s')) (as_self new) p1 p2 p3 (live (m_heap s)) /\
    m_tlb s' = m_tlb s /\ m_spl s' = m_spl s.

(** Copying the three regions into frames that were just cleared. *)
Lemma copy_regions s0 s1 p1 gs1 p2 gs2 p3 gs3 :
  m_vm s0 = m_vm s -> m_mem s0 = m_mem s -> cleared s0 bs (gs1 ++ gs2 ++ gs3) s1 ->
  length gs1 = length hs1 -> length gs2 = length hs2 -> length gs3 = 12%nat ->
  exists mem,
    (do* copy_pages (as_npages1 old) (table (m_vm s) p1 gs1) (as_ptable1 old) in
     do* copy_pages (as_npages2 old) (table (m_vm s) p2 gs2) (as_ptable2 old) in
     copy_pages DUMBVM_STACKPAGES (table (m_vm s) p3 gs3) (as_stackptable old)) s1 =
      Ret (tt, set_mem s1 mem) /\
    copied (m_vm s) (gs1 ++ gs2 ++ gs3) (hs1 ++ hs2 ++ hs3) (length (gs1 ++ gs2 ++ gs3))
      mem (m_mem s).
Proof.
  intros Ev Em C K1 K2 K3. destruct Hown as [-> -> -> -> -> L3 _ Nd Hb].
  pose proof (cl_nodup _ _ _ _ C) as Nn.
  assert (Dis : forall g, g ∈ gs1 ++ gs2 ++ gs3 -> g ∉ hs1 ++ hs2 ++ hs3).
  { intros g Hg Hh. apply Hb in Hh. apply (cl_new _ _ _ _ C) in Hg as [_ Hg]. congruence. }
  pose proof Nn as (N1 & _ & (N2 & _ & N3)%NoDup_app)%NoDup_app.
  pose proof Nn as (_ & _ & N23)%NoDup_app.
  destruct (copy_pages_spec (m_vm s) p1 gs1 q1 hs1 (zlength hs1) s1) as (m1 & E1 & C1);
    [unfold zlength; lia|done|done|set_solver|]. rewrite (bind_ok _ _ _ _ _ E1).
  destruct (copy_pages_spec (m_vm s) p2 gs2 q2 hs2 (zlength hs2) (set_mem s1 m1)) as (m2 & E2 & C2);
    [unfold zlength; lia|done|done|set_solver|]. rewrite (bind_ok _ _ _ _ _ E2).
  destruct (copy_pages_spec (m_vm s) p3 gs3 q3 hs3 DUMBVM_STACKPAGES (set_mem s1 m2))
    as (m3 & E3 & C3); [unfold zlength; rewrite K3; done|done|done|set_solver|].
  exists m3. split; [done|].
  destruct (copied_app (m_vm s) gs1 hs1 (gs2 ++ gs3) (hs2 ++ hs3) (m_mem s1) m1 m3) as [Hc Hr];
    [done|done|set_solver|done| |].
  { eapply (copied_app _ _ _ _ _ m1 m2); [done|done|set_solver|exact C2|exact C3]. }
  split.
  - intros i g h o Hi Hg Hh Ho. rewrite (Hc i g h o) by done.
    rewrite (cl_mem _ _ _ _ C), Em, Ev.
    destruct (in_frames _ _ _) eqn:Ef; [|done].
    apply in_frames_true in Ef as (k & Hk & Hf).
    assert (k = h) as -> by (by eapply frames_disjoint; [|apply in_frame_offset]).
    destruct (Dis h Hk). by eapply list_elem_of_lookup_2.
  - intros x Hx. rewrite Hr by done. rewrite (cl_mem _ _ _ _ C), Em, Ev.
    rewrite take_ge in Hx by lia. by rewrite Hx.
Qed.

Lemma as_blocks_four (l : gmap Z Z) p p1 p2 p3 n n1 n2 n3 :
  NoDup [p2; p1; p] -> (forall x, x ∈ [p2; p1; p] -> l !! x = None) ->
  <[p2 := n2]> (<[p1 := n1]> (<[p := n]> l)) !! p3 = None ->
  as_blocks (<[p3 := n3]> (<[p2 := n2]> (<[p1 := n1]> (<[p := n]> l)))) p p1 p2 p3 l.
Proof.
  intros Nd Hn H3. pose proof H3 as H3'.
  apply lookup_insert_None in H3' as [[[H3' ?]%lookup_insert_None ?]%lookup_insert_None ?].
  assert (l !! p2 = None /\ l !! p1 = None /\ l !! p = None) as (? & ? & ?)
    by (split_and!; apply Hn; set_solver).
  apply NoDup_cons in Nd as [Nd1 [Nd2 _]%NoDup_cons].
  assert (p2 <> p1 /\ p2 <> p /\ p1 <> p) as (? & ? & ?) by set_solver.
  split.
  - repeat (apply NoDup_cons; split; [set_solver|]). constructor.
  - intros x. rewrite !elem_of_cons. intros [-> |[-> |[-> |[-> |[]%elem_of_nil]]]];
      repeat (rewrite lookup_insert; case_decide; [by eauto|]); done.
  - cbn [foldl]. repeat (rewrite delete_insert_id; [|by rewrite ?lookup_insert_ne]). done.
Qed.

Lemma as_copy_tail_cases p p1 p2 h :
  heap_ok h ->
  let new := set_layout p old (Some (mk_ptable p1 (replicate (Z.to_nat (as_npages1 old)) None)))
               (Some (mk_ptable p2 (replicate (Z.to_nat (as_npages2 old)) None))) None in
  NoDup [p2; p1; p] -> (forall x, x ∈ [p2; p1; p] -> live (m_heap s) !! x = None) ->
  live h = <[p2 := 4 * as_npages2 old]> (<[p1 := 4 * as_npages1 old]>
                 (<[p := sizeof_addrspace]> (live (m_heap s)))) ->
  (as_copy_tail old new (set_heap s h) = Fault /\ heap_serves [4 * DUMBVM_STACKPAGES] h = false) \/
  (exists new' s', as_copy_tail old new (set_heap s h) = Ret ((0, Some new'), s') /\
     heap_serves [4 * DUMBVM_STACKPAGES] h = true /\ is_copy new' s').
Proof.
  intros Hh new Nd Hn Hl. pose proof Hown as [_ _ _ O1 O2 O3 Hs _ _].
  pose proof Hroom as Hfree. unfold as_copy_tail, zlength in *. rewrite !length_app in Hfree.
  destruct (as_prepare_load_cases new (set_heap s h) bs p1 p2) as
    [(h' & E & S)|(p3 & h' & gs1 & gs2 & gs3 & s' & E & Hh' & F3 & Hl' & S & K1 & K2 & K3 & C)];
    [done|done|cbn; lia|cbn; lia|done|done| | |]; [|left|right]; rewrite ?(bind_ok _ _ _ _ _ E).
  { cbn [new set_layout as_npages1 as_npages2 m_vm set_heap].
    unfold DUMBVM_STACKPAGES in O3. lia. }
  { split; [|done]. cbn [ENOMEM Z.eqb negb]. unfold bind.
    rewrite as_destroy_bare; [done|..]; cbn; auto. }
  cbn [new set_layout as_npages1 as_npages2] in K1, K2. rewrite O1, Nat2Z.id in K1.
  rewrite O2, Nat2Z.id in K2.
  destruct (copy_regions (set_heap (set_heap s h) h') s' p1 gs1 p2 gs2 p3 gs3)
    as (mem & Ec & Hc); [done..|].
  exists (with_tables new (m_vm s) p1 gs1 p2 gs2 p3 gs3), (set_mem s' mem).
  destruct C as [Cn Cw Co Cf [R1 [R2 R3]] _ _]. split; [|split; [done|]].
  - cbn [Z.eqb negb]. cbn [with_tables as_ptable1 as_ptable2 as_stackptable table is_null negb andb].
    rewrite bind_kassert. unfold bind in Ec |- *. cbn [m_vm set_heap].
    fold (table (m_vm s) p1 gs1) (table (m_vm s) p2 gs2) (table (m_vm s) p3 gs3).
    destruct (copy_pages (as_npages1 old) _ _ _) as [[[] ?]| | |]; [|done..].
    destruct (copy_pages (as_npages2 old) _ _ _) as [[[] ?]| | |]; [|done..].
    by rewrite Ec.
  - exists p1, gs1, p2, gs2, p3, gs3. rewrite <- K1, <- K2 in *.
    split_and!; try done; [|intros; by apply Cw| |]; cbn [m_heap m_vm set_mem set_heap] in *.
    + split; cbn; unfold zlength; try done; [by rewrite K3|].
      intros g Hg. by rewrite claim1_lookup, decide_True.
    + by rewrite R1.
    + rewrite R1, Hl'. cbn [m_heap set_heap] in *. rewrite Hl in *. by apply as_blocks_four.
Qed.

Lemma as_copy_cases :
  (exists h', as_copy old s = Ret ((ENOMEM, None), set_heap s h') /\ heap_ok h' /\
     live h' = live (m_heap s) /\ heap_serves [sizeof_addrspace] (m_heap s) = false) \/
  (as_copy old s = Fault /\ heap_serves [sizeof_addrspace] (m_heap s) = true /\
     heap_serves (as_copy_requests (as_npages1 old) (as_npages2 old)) (m_heap s) = false) \/
  (exists new s', as_copy old s = Ret ((0, Some new), s') /\ is_copy new s' /\
     heap_serves (as_copy_requests (as_npages1 old) (as_npages2 old)) (m_heap s) = true).
Proof.
  pose proof Hown as [_ _ _ O1 O2 _ [S1 S2] _ _].
  destruct (as_copy_heap old s) as
    [?|[?|(p & p1 & p2 & h' & E & Hh' & Sa & Sb & Nd & Hn & Hl)]];
    [done|unfold zlength in *; lia|unfold zlength in *; lia|by left|by right; left|right].
  rewrite E, Sb. destruct (as_copy_tail_cases p p1 p2 h')
    as [[Ef ?]|(new & s' & Ec & ? & ?)]; [done..|by left|right]. eauto 10.
Qed.
End copy.


(** When the structure itself can be allocated but one of the three page
    tables cannot, [as_copy] does not return [ENOMEM]: its error path calls
    [as_destroy], which reads the frame numbers of a null or of a never
    written table. *)
Theorem as_copy_table_failure_faults s bs old q1 hs1 q2 hs2 q3 hs3
    (Hvm : vm_ok (m_vm s) bs) (Hheap : heap_ok (m_heap s))
    (Hown : as_owned (m_vm s) bs old q1 hs1 q2 hs2 q3 hs3)
    (Hroom : (length (hs1 ++ hs2 ++ hs3) <= nfree (core_map (m_vm s)))%nat)
    (Hfirst : heap_serves [sizeof_addrspace] (m_heap s) = true)
    (Hfail : heap_serves (as_copy_requests (as_npages1 old) (as_npages2 old)) (m_heap s) = false) :
  as_copy old s = Fault.
Proof.
  destruct (as_copy_cases s bs old q1 hs1 q2 hs2 q3 hs3) as
    [(h' & _ & _ & _ & Hf)|[(E & _)|(new & s' & _ & _ & Hf)]]; try done; congruence.
Qed.

(** Copying an address space and destroying the copy, as a failed [fork]
    or an exiting child does, gives back exactly what the copy took: the
    allocator holds the same blocks and the heap the same objects as before,
    and every page of the original has its contents. *)
Theorem as_copy_destroy_roundtrip s bs old q1 hs1 q2 hs2 q3 hs3
    (Hvm : vm_ok (m_vm s) bs) (Hheap : heap_ok (m_heap s))
    (Hown : as_owned (m_vm s) bs old q1 hs1 q2 hs2 q3 hs3)
    (Hroom : (length (hs1 ++ hs2 ++ hs3) <= nfree (core_map (m_vm s)))%nat)
    (Hserve : heap_serves (as_copy_requests (as_npages1 old) (as_npages2 old)) (m_heap s) = true) :
  exists s',
    (let* (err, new) := as_copy old in
     match new with Some new => as_destroy new | None => ret tt end) s = Ret (tt, s') /\
    vm_ok (m_vm s') bs /\ same_frames (m_vm s) (m_vm s') /\
    heap_ok (m_heap s') /\ live (m_heap s') = live (m_heap s) /\
    (forall h o, h ∈ hs1 ++ hs2 ++ hs3 -> 0 <= o < PAGE_SIZE ->
       m_mem s' (frame_addr (m_vm s) h + o) = m_mem s (frame_addr (m_vm s) h + o)).
Proof.
  destruct (as_copy_cases s bs old q1 hs1 q2 hs2 q3 hs3) as
    [(h' & _ & _ & _ & Hf)|[(_ & _ & Hf)|(new & s1 & E & Hc & _)]]; try done.
  { by rewrite (heap_serves_first _ _ _ Hserve) in Hf. }
  { congruence. }
  destruct Hc as (p1 & gs1 & p2 & gs2 & p3 & gs3 & _ & _ & _ & Ho & _ & _ & Hn & Hv & Hs & Hc
                  & Hh & Hb & _ & _).
  rewrite (bind_ok _ _ _ _ _ E). cbn beta iota.
  destruct (as_destroy_spec s1 _ new p1 gs1 p2 gs2 p3 gs3 (m_vm s) _ Hv Hs Hh Ho Hb)
    as (v' & h' & E' & Hv' & Hs' & Hh' & Hl').
  rewrite release_claim1 in Hv' by done. exists (set_heap (set_vm s1 v') h').
  split_and!; try done; [by eapply same_frames_trans|].
  intros h o Hin Hr. cbn. apply (proj2 Hc). rewrite take_ge by lia.
  apply not_true_iff_false. intros (k & Hk & Hf)%in_frames_true.
  assert (k = h) as -> by (by eapply frames_disjoint; [|apply in_frame_offset]).
  apply Hn in Hk. apply (ow_blocks _ _ _ _ _ _ _ _ _ Hown) in Hin. congruence.
Qed.

(** ** Loading a program: [as_create], two regions, [as_prepare_load] *)

Lemma region_base_spec vaddr :
  is_u32 vaddr -> region_base vaddr = vaddr - vaddr mod PAGE_SIZE.
Proof. apply land_page_frame. Qed.

Lemma land_page_offset x : is_u32 x -> Z.land x (w32 (Z.lnot PAGE_FRAME)) = x mod PAGE_SIZE.
Proof.
  intros Hx. change (w32 (Z.lnot PAGE_FRAME)) with (Z.ones 12). by rewrite Z.land_ones.
Qed.

(** The pages of a region are those that [vaddr .. vaddr + sz) touches. *)
Lemma region_pages_spec vaddr sz :
  is_u32 vaddr -> 0 <= sz -> vaddr + sz + 2 * PAGE_SIZE <= two32 ->
  region_pages vaddr sz = DIVROUNDUP (sz + vaddr mod PAGE_SIZE) PAGE_SIZE.
Proof.
  intros Hv Hsz Hend. unfold region_pages, DIVROUNDUP. rewrite land_page_offset by done.
  unfold is_u32, two32, PAGE_SIZE in *. pose proof (Z.mod_pos_bound vaddr 4096).
  rewrite !w32_id by (unfold is_u32, two32; rewrite ?w32_id by (unfold is_u32, two32; lia); lia).
  rewrite land_page_frame by (unfold is_u32, two32; lia). unfold PAGE_SIZE.
  set (y := sz + vaddr mod 4096 + 4096 - 1).
  rewrite (Z.div_mod y 4096) at 1 by lia.
  replace (4096 * (y / 4096) + y mod 4096 - y mod 4096) with (y / 4096 * 4096) by lia.
  by rewrite Z.div_mul.
Qed.

Lemma region_covers vaddr sz :
  is_u32 vaddr -> 0 < sz -> vaddr + sz + 2 * PAGE_SIZE <= two32 ->
  let b := region_base vaddr in let n := region_pages vaddr sz in
  b mod PAGE_SIZE = 0 /\ 0 <= b <= vaddr /\ 0 < n /\
  vaddr + sz <= b + n * PAGE_SIZE < vaddr + sz + PAGE_SIZE.
Proof.
  intros Hv Hsz Hend b n. unfold b, n. rewrite region_base_spec, region_pages_spec by (done || lia).
  destruct (page_of_range vaddr Hv) as [Hu Hm]. unfold DIVROUNDUP, is_u32, PAGE_SIZE in *.
  pose proof (Z.mod_pos_bound vaddr 4096). set (r := vaddr mod 4096) in *.
  pose proof (Z.div_mod (sz + r + 4096 - 1) 4096). pose proof (Z.mod_pos_bound (sz + r + 4096 - 1) 4096).
  split_and!; try done; lia.
Qed.

(** [load_elf]'s use of an address space, as far as [as_prepare_load]. *)
Definition build_as (v1 z1 v2 z2 : Z) : M (mach H) (Z * option addrspace) :=
  let* r := as_create in
  match r with
  | None => ret (ENOMEM, None)
  | Some a =>
      let* (_, a) := as_define_region a v1 z1 1 0 1 in
      let* (_, a) := as_define_region a v2 z2 1 1 0 in
      let* (err, a) := as_prepare_load a in
      ret (err, Some a)
  end.

Lemma table_ptable_ok v bs q gs n :
  vm_ok v bs -> (forall g, g ∈ gs -> 0 <= g < size (core_map v)) -> zlength gs = n ->
  ptable_ok (table v q gs) n.
Proof.
  intros Hv Hg Hn. eexists. split; [done|]. intros i Hi. cbn [pt_entries].
  destruct (lookup_lt_is_Some_2 gs (Z.to_nat i)) as [g Hgi]; [unfold zlength in *; lia|].
  exists (frame_addr v g). rewrite list_lookup_fmap, Hgi. split; [done|].
  apply list_elem_of_lookup_2, Hg in Hgi as Hr.
  destruct (frame_addr_range v bs g Hv ltac:(lia) ltac:(lia)) as (_ & ? & _).
  split; [unfold is_u32, two32; lia|]. unfold frame_addr.
  rewrite Z.mod_add by (unfold PAGE_SIZE; lia). apply Hv.
Qed.

(** Two segments as an executable has them: not in page 0, below the stack. *)
Definition segment_ok (v z : Z) : Prop :=
  PAGE_SIZE <= v /\ 0 < z /\ v + z <= USERSTACK.

Lemma segment_region v z :
  segment_ok v z -> is_u32 v /\ 0 <= region_pages v z < 536870912 /\
    region_base v <> 0 /\ region_ok (region_base v) (region_pages v z).
Proof.
  unfold segment_ok, USERSTACK, MIPS_KSEG0. intros (Hv & Hz & Hend).
  assert (is_u32 v) as Hu by (unfold is_u32, two32, PAGE_SIZE in *; lia).
  destruct (region_covers v z) as (Hm & Hb & Hn & Hc); [done|lia|unfold two32, PAGE_SIZE; lia|].
  pose proof (region_base_spec v Hu) as Hbv.
  assert (region_base v + region_pages v z * PAGE_SIZE <= 2147483648) as Hle.
  { set (x := region_base v + region_pages v z * PAGE_SIZE) in *.
    assert (x mod 4096 = 0) as Hx by (unfold x, PAGE_SIZE in *; by rewrite Z.mod_add).
    unfold PAGE_SIZE in *. apply Z.mod_divide in Hx as [k Hk]; [|lia]. lia. }
  unfold region_ok, USERSTACK, MIPS_KSEG0, PAGE_SIZE in *. pose proof (Z.mod_pos_bound v 4096).
  split_and!; try done; lia.
Qed.

Lemma segment_covered v z x :
  segment_ok v z -> v <= x < v + z -> in_region x (region_base v) (region_pages v z) = true.
Proof.
  unfold segment_ok, USERSTACK, MIPS_KSEG0. intros (Hv & Hz & Hend) Hx.
  destruct (region_covers v z) as (_ & Hb & _ & Hc);
    [unfold is_u32, two32, PAGE_SIZE in *; lia|lia|unfold two32, PAGE_SIZE; lia|].
  unfold in_region. bprop. lia.
Qed.

Lemma build_as_run s bs v1 z1 v2 z2 :
  vm_ok (m_vm s) bs -> heap_ok (m_heap s) -> segment_ok v1 z1 -> segment_ok v2 z2 ->
  (Z.to_nat (region_pages v1 z1) + Z.to_nat (region_pages v2 z2) + 12
     <= nfree (core_map (m_vm s)))%nat ->
  heap_serves (as_copy_requests (region_pages v1 z1) (region_pages v2 z2)) (m_heap s) = true ->
  exists p q1 q2 q3 h' gs1 gs2 gs3 s',
    build_as v1 z1 v2 z2 s = Ret ((0, Some (mk_as p (region_base v1) (region_base v2)
        (region_pages v1 z1) (region_pages v2 z2) 0 (table (m_vm s) q1 gs1)
        (table (m_vm s) q2 gs2) (table (m_vm s) q3 gs3))), s') /\
    length gs1 = Z.to_nat (region_pages v1 z1) /\ length gs2 = Z.to_nat (region_pages v2 z2) /\
    length gs3 = 12%nat /\ cleared (set_heap s h') bs (gs1 ++ gs2 ++ gs3) s'.
Proof.
  intros Hvm Hh Hs1 Hs2 Hroom Hserve. unfold build_as, as_create. rewrite bind_bind.
  destruct (segment_region v1 z1 Hs1) as (U1 & N1 & B1 & R1).
  destruct (segment_region v2 z2 Hs2) as (U2 & N2 & B2 & R2).
  unfold as_copy_requests in Hserve. cbn [heap_serves] in Hserve.
  destruct (kmalloc_cases sizeof_addrspace (m_heap s)) as
    [(h0 & E & ? & ?)|(p & h0 & E & Ok0 & Hp & F0 & L0)]; [done|unfold sizeof_addrspace, heap_max; lia| |];
    rewrite E in Hserve; [done|].
  rewrite (bind_ok _ _ s _ (set_heap s h0)) by (unfold in_heap; by rewrite E).
  rewrite (proj2 (Z.eqb_neq p 0)) in * by lia. cbn [negb andb] in Hserve. rewrite bind_ret.
  unfold as_define_region at 1. cbn [as_vbase1]. rewrite Z.eqb_refl, bind_bind.
  destruct (alloc_ptable_cases (region_pages v1 z1)
    [4 * region_pages v2 z2; 4 * DUMBVM_STACKPAGES] (set_heap s h0))
    as [(h1 & E1 & _ & _ & S1)|(q1 & h1 & E1 & Ok1 & _ & _ & S1)]; [done..| |].
  { cbn [m_heap set_heap heap_serves] in S1. congruence. }
  rewrite (bind_ok _ _ _ _ _ E1), bind_ret. unfold as_define_region. cbn [as_vbase1 as_vbase2].
  rewrite (proj2 (Z.eqb_neq _ 0)) by done. rewrite Z.eqb_refl, bind_bind.
  destruct (alloc_ptable_cases (region_pages v2 z2)
    [4 * DUMBVM_STACKPAGES] (set_heap (set_heap s h0) h1))
    as [(h2 & E2 & _ & _ & S2)|(q2 & h2 & E2 & Ok2 & _ & _ & S2)]; [done..| |].
  { cbn [m_heap set_heap heap_serves] in S1, S2. congruence. }
  rewrite (bind_ok _ _ _ _ _ E2), bind_ret.
  cbn [as_self loadCode_done as_npages1 as_ptable1 as_stackptable].
  set (a := mk_as _ _ _ _ _ _ _ _ _). cbn [m_heap set_heap heap_serves] in S1, S2.
  destruct (as_prepare_load_cases a (set_heap (set_heap (set_heap s h0) h1) h2) bs q1 q2) as
    [(h' & _ & S)|(q3 & h' & gs1 & gs2 & gs3 & s' & E3 & _ & _ & _ & _ & K1 & K2 & K3 & C)];
    [done|done|cbn; lia|cbn; lia|done|done|cbn; lia| |].
  { cbn [m_heap set_heap heap_serves] in S. congruence. }
  rewrite (bind_ok _ _ _ _ _ E3). exists p, q1, q2, q3, h', gs1, gs2, gs3, s'. by split_and!.
Qed.

(** Building the address space of a program: with enough frames and heap
    space, [as_create], the two [as_define_region] and [as_prepare_load]
    succeed and give a well-formed address space, as the fault handler needs
    it. Each region is page-aligned and covers its segment with less than a
    page to spare; every page has a frame of its own, cleared to zero. *)
Theorem build_as_correct s bs (v1 z1 v2 z2 : Z)
    (Hvm : vm_ok (m_vm s) bs) (Hheap : heap_ok (m_heap s))
    (Hs1 : segment_ok v1 z1) (Hs2 : segment_ok v2 z2)
    (Hroom : (Z.to_nat (region_pages v1 z1) + Z.to_nat (region_pages v2 z2) + 12
              <= nfree (core_map (m_vm s)))%nat)
    (Hserve : heap_serves (as_copy_requests (region_pages v1 z1) (region_pages v2 z2))
                (m_heap s) = true) :
  exists a s' q1 gs1 q2 gs2 q3 gs3,
    build_as v1 z1 v2 z2 s = Ret ((0, Some a), s') /\ as_ok a /\
    as_owned (m_vm s) (claim1 (gs1 ++ gs2 ++ gs3) bs) a q1 gs1 q2 gs2 q3 gs3 /\
    vm_ok (m_vm s') (claim1 (gs1 ++ gs2 ++ gs3) bs) /\
    (forall g, g ∈ gs1 ++ gs2 ++ gs3 -> bs !! g = None) /\
    (forall x, v1 <= x < v1 + z1 -> in_region x (as_vbase1 a) (as_npages1 a) = true) /\
    (forall x, v2 <= x < v2 + z2 -> in_region x (as_vbase2 a) (as_npages2 a) = true) /\
    (forall x, m_mem s' x = if in_frames (m_vm s) (gs1 ++ gs2 ++ gs3) x then 0 else m_mem s x).
Proof.
  destruct (segment_region v1 z1 Hs1) as (U1 & N1 & B1 & R1).
  destruct (segment_region v2 z2 Hs2) as (U2 & N2 & B2 & R2).
  destruct (build_as_run s bs v1 z1 v2 z2) as
    (p & q1 & q2 & q3 & h' & gs1 & gs2 & gs3 & s' & E & K1 & K2 & K3 & C); [done..|].
  destruct C as [Cn Cw Co Cf _ _ Cm]. eexists _, s', q1, gs1, q2, gs2, q3, gs3.
  assert (Hin : forall g, g ∈ gs1 ++ gs2 ++ gs3 -> 0 <= g < size (core_map (m_vm s)))
    by (intros g Hg; by apply Cw).
  split_and!; [exact E| | |done|intros g Hg; by apply Cw| | |done].
  - split; cbn; try done; (eapply table_ptable_ok; [done|set_solver|unfold zlength, DUMBVM_STACKPAGES; lia]).
  - split; cbn; unfold zlength; try done; [lia|lia|by rewrite K3|lia|].
    intros g Hg. by rewrite claim1_lookup, decide_True.
  - intros x Hx. by apply (segment_covered v1 z1).
  - intros x Hx. by apply (segment_covered v2 z2).
Qed.

(** ** Where the code departs from its intent *)

(** The copy of a loaded address space, as [fork] makes it, has writable
    program text: [vm_fault] write-protects text only when [loadCode_done] is
    set, [execv] sets it after loading, and [as_copy] does not copy it. *)
Theorem as_copy_text_writable s bs old q1 hs1 q2 hs2 q3 hs3
    (Hvm : vm_ok (m_vm s) bs) (Hheap : heap_ok (m_heap s))
    (Hown : as_owned (m_vm s) bs old q1 hs1 q2 hs2 q3 hs3)
    (Hroom : (length (hs1 ++ hs2 ++ hs3) <= nfree (core_map (m_vm s)))%nat)
    (Hserve : heap_serves (as_copy_requests (as_npages1 old) (as_npages2 old)) (m_heap s) = true)
    (Hdone : loadCode_done old = 1) :
  exists new s', as_copy old s = Ret ((0, Some new), s') /\
    forall va, in_region va (as_vbase1 old) (as_npages1 old) = true ->
      is_text old va = true /\ in_region va (as_vbase1 new) (as_npages1 new) = true /\
      is_text new va = false.
Proof.
  destruct (as_copy_cases s bs old q1 hs1 q2 hs2 q3 hs3) as
    [(h' & _ & _ & _ & Hf)|[(_ & _ & Hf)|(new & s1 & E & Hc & _)]]; try done.
  { by rewrite (heap_serves_first _ _ _ Hserve) in Hf. }
  { congruence. }
  destruct Hc as (p1 & gs1 & p2 & gs2 & p3 & gs3 & Hv1 & _ & Hd & Ho & K1 & _).
  exists new, s1. split; [done|]. intros va Hva. unfold is_text.
  assert (as_npages1 new = as_npages1 old) as Hn.
  { rewrite (ow_l1 _ _ _ _ _ _ _ _ _ Ho), (ow_l1 _ _ _ _ _ _ _ _ _ Hown). unfold zlength. lia. }
  rewrite Hva, Hv1, Hn, Hva, Hd, Hdone. done.
Qed.

Lemma getppages_none v bs :
  vm_ok v bs -> 0 < size (core_map v) -> nfree (core_map v) = 0%nat ->
  getppages 1 v = Ret (ENOMEM, v).
Proof.
  intros Hok Hs Hn. destruct (getppages_cases v bs 1) as [[E _]|(g & v' & _ & Hg & [Hsz Hf] & _)];
    [done|lia|done|]. specialize (Hf 0 ltac:(lia)). rewrite Z.add_0_r in Hf.
  unfold nfree in Hn. apply nil_length_inv in Hn.
  assert (Z.to_nat g ∈ filter (fun f : nat => inUse (core_map v) !! f = Some 0)
            (seq 0 (Z.to_nat (size (core_map v))))) as Hin.
  { apply list_elem_of_filter. split; [done|]. apply elem_of_seq. lia. }
  rewrite Hn in Hin. by apply elem_of_nil in Hin.
Qed.

(** The bytes that clearing "frame 3" hits. *)
Definition low_page (x : Z) : bool := (ENOMEM <=? x) && (x <? ENOMEM + PAGE_SIZE).

Lemma prepare_pages_none rest pre q s bs :
  vm_ok (m_vm s) bs -> 0 < size (core_map (m_vm s)) -> nfree (core_map (m_vm s)) = 0%nat ->
  exists mem,
    prepare_pages (length rest) (zlength pre) (Some (mk_ptable q (pre ++ rest))) s =
      Ret ((false, Some (mk_ptable q (pre ++ replicate (length rest) (Some ENOMEM)))),
           set_mem s mem) /\
    (forall x, mem x = if low_page x && negb (length rest =? 0)%nat then 0 else m_mem s x).
Proof.
  intros Hok Hs Hn. revert pre s Hok Hs Hn. induction rest as [|y rest IH]; intros pre s Hok Hs Hn.
  { exists (m_mem s). cbn. split; [by destruct s|]. intros x. by rewrite andb_false_r. }
  cbn [length prepare_pages]. unfold bind at 1, in_vm at 1.
  rewrite (getppages_none _ bs) by done. rewrite pt_set_next. mrun. cbn [ENOMEM Z.eqb].
  unfold as_zero_region. mrun. set (s1 := set_mem (set_vm s _) _).
  destruct (IH (pre ++ [Some ENOMEM]) s1) as (mem & E & Hm); [done..|].
  exists mem. split.
  - replace (zlength (pre ++ [Some ENOMEM])) with (zlength pre + 1) in E
      by (unfold zlength; rewrite length_app; cbn; lia).
    change 3 with ENOMEM. rewrite E, <- (assoc_L (++)). done.
  - intros x. rewrite Hm. cbn [s1 m_mem set_mem set_vm]. unfold fill_zero, low_page, ENOMEM.
    rewrite Z.mul_1_l. by destruct ((3 <=? x) && (x <? 3 + PAGE_SIZE)), (length rest =? 0)%nat.
Qed.

(** When every frame is in use, [as_prepare_load] reports success: the
    frame numbers it stores are all [ENOMEM], and it clears the page of
    memory at that physical address, where the kernel's exception vectors
    are. *)
Theorem as_prepare_load_exhausted s bs a q1 e1 q2 e2
    (Hvm : vm_ok (m_vm s) bs) (Hheap : heap_ok (m_heap s)) (Hsize : 0 < size (core_map (m_vm s)))
    (Hfull : nfree (core_map (m_vm s)) = 0%nat)
    (Ht1 : as_ptable1 a = Some (mk_ptable q1 e1)) (Hl1 : zlength e1 = as_npages1 a)
    (Ht2 : as_ptable2 a = Some (mk_ptable q2 e2)) (Hl2 : zlength e2 = as_npages2 a)
    (Hserve : heap_serves [4 * DUMBVM_STACKPAGES] (m_heap s) = true) :
  exists a' s', as_prepare_load a s = Ret ((0, a'), s') /\
    as_ptable1 a' = Some (mk_ptable q1 (replicate (Z.to_nat (as_npages1 a)) (Some ENOMEM))) /\
    as_ptable2 a' = Some (mk_ptable q2 (replicate (Z.to_nat (as_npages2 a)) (Some ENOMEM))) /\
    forall x, m_mem s' x = if low_page x then 0 else m_mem s x.
Proof.
  unfold as_prepare_load, zlength in *. rewrite <- Hl1, <- Hl2, !Nat2Z.id.
  destruct (alloc_ptable_cases DUMBVM_STACKPAGES [] s) as
    [(h1 & E & _ & _ & S)|(q3 & h1 & E & _)];
    [done|unfold DUMBVM_STACKPAGES; lia|congruence|]. rewrite (bind_ok _ _ _ _ _ E).
  cbn [set_stackptable as_ptable1 as_ptable2 as_stackptable as_npages1 as_npages2].
  rewrite Ht1, Ht2. cbn [is_null orb]. rewrite <- Hl1, !Nat2Z.id. set (s0 := set_heap s h1).
  destruct (prepare_pages_none e1 [] q1 s0 bs) as (m1 & E1 & M1); [done..|]. cbn in E1.
  rewrite (bind_ok _ _ _ _ _ E1). cbn [set_ptable1 set_stackptable as_ptable2 as_npages2 as_stackptable].
  rewrite Ht2, <- Hl2, Nat2Z.id.
  destruct (prepare_pages_none e2 [] q2 (set_mem s0 m1) bs) as (m2 & E2 & M2); [done..|]. cbn in E2.
  rewrite (bind_ok _ _ _ _ _ E2). cbn [set_ptable1 set_ptable2 set_stackptable as_ptable2 as_stackptable].
  destruct (prepare_pages_none (replicate 12 None) [] q3 (set_mem (set_mem s0 m1) m2) bs)
    as (m3 & E3 & M3); [done..|].
  cbn [zlength length Z.of_nat app] in E3. rewrite length_replicate in E3, M3.
  change (Z.to_nat DUMBVM_STACKPAGES) with 12%nat. rewrite (bind_ok _ _ _ _ _ E3).
  eexists _, _. split; [done|]. split_and!; [done..|]. intros x. cbn [m_mem set_mem].
  rewrite M3. cbn [m_mem set_mem Nat.eqb negb]. rewrite M2. cbn [m_mem set_mem]. rewrite M1.
  by destruct (low_page x).
Qed.

End copying.

(** ** A small machine: 40 frames above 0x2000, the first [k] allocated *)

Definition example_blocks (k : nat) : gmap Z Z := claim1 (map Z.of_nat (seq 0 k)) ∅.

Definition example_machine (k : nat) (lim : Z) : mach RefHeap.t :=
  mk_mach (mk_vm 0 0 8192 172032 true
             (mk_coremap 8192 (replicate k 1 ++ replicate (40 - k) 0) (replicate 40 0) 40)
             false false)
          (RefHeap.init lim) (fun a => a mod 256)
          (map (fun i => (TLBHI_INVALID (Z.of_nat i), TLBLO_INVALID)) (seq 0 64)) 0.

Lemma example_blocks_lookup k x n :
  example_blocks k !! x = Some n <-> 0 <= x < Z.of_nat k /\ n = 1.
Proof.
  unfold example_blocks. rewrite claim1_lookup, lookup_empty.
  case_decide as Hx; rewrite list_elem_of_fmap in Hx; setoid_rewrite elem_of_seq in Hx.
  - destruct Hx as (y & -> & Hy). split; [intros [= <-]; lia|intros [_ ->]; done].
  - split; [done|]. intros [Hr ->]. destruct Hx. exists (Z.to_nat x). lia.
Qed.

Lemma example_machine_ok k lim :
  (k <= 40)%nat -> vm_ok (m_vm (example_machine k lim)) (example_blocks k).
Proof.
  intros Hk. split; cbn -[replicate Nat.sub]; try done; try (unfold PAGE_SIZE; lia).
  split; cbn -[replicate Nat.sub]; unfold zlength; rewrite ?length_app, ?length_replicate; try lia.
  - intros x n [Hx ->]%example_blocks_lookup. lia.
  - intros x n j [Hx ->]%example_blocks_lookup Hj. assert (j = 0) as -> by lia.
    rewrite lookup_app_l by (rewrite length_replicate; lia).
    rewrite !lookup_replicate_2 by lia. done.
  - intros x n y m [Hx ->]%example_blocks_lookup [Hy ->]%example_blocks_lookup. lia.
  - intros f Hf Hfree. assert (Z.of_nat k <= f).
    { destruct (decide (f < Z.of_nat k)); [|lia].
      exfalso. apply (Hfree f 1); [apply example_blocks_lookup|]; lia. }
    rewrite lookup_app_r by (rewrite length_replicate; lia).
    apply lookup_replicate_2. rewrite length_replicate. lia.
Qed.

(** Text of one page at 0x400000, data of one page at 0x10000000. *)
Definition example_as : addrspace :=
  let v := m_vm (example_machine 14 1000) in
  mk_as 16 4194304 268435456 1 1 1 (table v 48 [0]) (table v 52 [1])
        (table v 56 [2; 3; 4; 5; 6; 7; 8; 9; 10; 11; 12; 13]).

Lemma example_as_owned lim :
  as_owned (m_vm (example_machine 14 lim)) (example_blocks 14) example_as
    48 [0] 52 [1] 56 [2; 3; 4; 5; 6; 7; 8; 9; 10; 11; 12; 13].
Proof.
  split; try done.
  - apply (bool_decide_unpack _). by vm_compute.
  - intros g Hg. apply example_blocks_lookup. cbn in Hg.
    repeat (apply elem_of_cons in Hg as [-> |Hg]; [lia|]). by apply elem_of_nil in Hg.
Qed.

Lemma example_as_ok : as_ok example_as.
Proof.
  split; cbn [example_as as_vbase1 as_vbase2 as_npages1 as_npages2 as_ptable1 as_ptable2 as_stackptable].
  1-2: unfold region_ok, USERSTACK, MIPS_KSEG0, PAGE_SIZE; split_and!; [lia|reflexivity|lia|lia].
  all: eapply (table_ptable_ok _ _ _ _ _ (example_machine_ok 14 1000 ltac:(lia))); [|reflexivity].
  all: cbn; intros g Hg;
    repeat (apply elem_of_cons in Hg as [-> |Hg]; [lia|]); by apply elem_of_nil in Hg.
Qed.

Lemma tlb_distinct_nodup tlb :
  NoDup (map (fun e => Z.land (fst e) TLBHI_VPAGE) tlb) -> tlb_distinct tlb.
Proof.
  intros Nd i j ei ej Hi Hj Hne Heq. apply Hne.
  eapply NoDup_lookup; [exact Nd|rewrite list_lookup_fmap, Hi|rewrite list_lookup_fmap, Hj];
    cbn; [reflexivity|by rewrite Heq].
Qed.

Lemma tlb_miss_forallb va tlb :
  forallb (fun e => negb (tlb_match va e)) tlb = true ->
  forall e, e ∈ tlb -> tlb_match va e = false.
Proof.
  intros Hf e He. rewrite forallb_forall in Hf.
  by apply negb_true_iff, Hf, list_elem_of_In.
Qed.

(** A write to the data region at 0x10000123. *)
Lemma vm_fault_correct_witness :
  exists i e, let tlb' := <[Z.to_nat i := e]> (m_tlb (example_machine 14 1000)) in
    vm_fault true (Some example_as) 5 VM_FAULT_WRITE 268435747 (example_machine 14 1000) =
      Ret (0, set_tlb (example_machine 14 1000) tlb') /\
    tlb_translate tlb' 268435747 = Some (12579, true).
Proof.
  destruct (vm_fault_correct (example_machine 14 1000) example_as 5 VM_FAULT_WRITE 268435747
    example_as_ok) as (i & e & E & _ & T & _).
  - unfold is_u32, two32. lia.
  - by right.
  - reflexivity.
  - unfold NUM_TLB. lia.
  - apply tlb_miss_forallb. vm_compute. reflexivity.
  - apply tlb_distinct_nodup. apply (bool_decide_unpack _). by vm_compute.
  - exists i, e. split; [exact E|exact T].
Defined.

Lemma as_activate_flushes_witness :
  exists tlb, as_activate (Some example_as) (example_machine 14 1000) =
      Ret (tt, set_tlb (example_machine 14 1000) tlb) /\ tlb_distinct tlb.
Proof.
  destruct (as_activate_flushes (example_machine 14 1000) example_as eq_refl)
    as (tlb & E & _ & Hd & _).
  exists tlb. split; [exact E|exact Hd].
Defined.


(** A heap with room for the structure and one table only. *)
Lemma as_copy_table_failure_faults_witness :
  as_copy example_as (example_machine 14 52) = Fault.
Proof.
  apply (as_copy_table_failure_faults (example_machine 14 52) (example_blocks 14) example_as
    48 [0] 52 [1] 56 [2; 3; 4; 5; 6; 7; 8; 9; 10; 11; 12; 13]
    (example_machine_ok 14 52 ltac:(lia)) (RefHeap.init_ok 52) (example_as_owned 52)).
  - vm_compute. lia.
  - vm_compute. reflexivity.
  - vm_compute. reflexivity.
Defined.

Lemma as_copy_destroy_roundtrip_witness :
  exists s',
    (let* (err, new) := as_copy example_as in
     match new with Some new => as_destroy new | None => ret tt end)
      (example_machine 14 1000) = Ret (tt, s') /\
    vm_ok (m_vm s') (example_blocks 14) /\ live (m_heap s') = ∅.
Proof.
  destruct (as_copy_destroy_roundtrip (example_machine 14 1000) (example_blocks 14) example_as
    48 [0] 52 [1] 56 [2; 3; 4; 5; 6; 7; 8; 9; 10; 11; 12; 13]
    (example_machine_ok 14 1000 ltac:(lia)) (RefHeap.init_ok 1000) (example_as_owned 1000))
    as (s' & E & Hv & _ & _ & Hl & _).
  - vm_compute. lia.
  - vm_compute. reflexivity.
  - exists s'. split; [exact E|]. split; [exact Hv|exact Hl].
Defined.

Lemma build_as_correct_witness :
  exists a s', build_as 4194340 100 268435456 5000 (example_machine 0 1000) =
      Ret ((0, Some a), s') /\ as_ok a.
Proof.
  destruct (build_as_correct (example_machine 0 1000) (example_blocks 0) 4194340 100 268435456 5000
    (example_machine_ok 0 1000 ltac:(lia)) (RefHeap.init_ok 1000))
    as (a & s' & q1 & gs1 & q2 & gs2 & q3 & gs3 & E & Hok & _).
  1-2: unfold segment_ok, USERSTACK, MIPS_KSEG0, PAGE_SIZE; lia.
  - vm_compute. lia.
  - vm_compute. reflexivity.
  - exists a, s'. split; [exact E|exact Hok].
Defined.

Lemma as_copy_text_writable_witness :
  exists new s', as_copy example_as (example_machine 14 1000) = Ret ((0, Some new), s') /\
    is_text example_as 4194308 = true /\ is_text new 4194308 = false.
Proof.
  destruct (as_copy_text_writable (example_machine 14 1000) (example_blocks 14) example_as
    48 [0] 52 [1] 56 [2; 3; 4; 5; 6; 7; 8; 9; 10; 11; 12; 13]
    (example_machine_ok 14 1000 ltac:(lia)) (RefHeap.init_ok 1000) (example_as_owned 1000))
    as (new & s' & E & Ht).
  - vm_compute. lia.
  - vm_compute. reflexivity.
  - reflexivity.
  - exists new, s'. split; [exact E|]. destruct (Ht 4194308 eq_refl) as (H1 & _ & H2).
    split; [exact H1|exact H2].
Defined.

Lemma as_prepare_load_exhausted_witness :
  exists a' s', as_prepare_load example_as (example_machine 40 1000) = Ret ((0, a'), s') /\
    as_ptable1 a' = Some (mk_ptable 48 [Some 3]) /\ m_mem s' 128 = 0.
Proof.
  destruct (as_prepare_load_exhausted (example_machine 40 1000) (example_blocks 40) example_as
    48 [Some 8192] 52 [Some 12288]
    (example_machine_ok 40 1000 ltac:(lia)) (RefHeap.init_ok 1000)) as (a' & s' & E & H1 & _ & Hm).
  all: try reflexivity.
  exists a', s'. split; [exact E|]. split; [exact H1|]. rewrite Hm. reflexivity.
Defined.
