(* ===== verification/ThreadList.v ===== *)
(** * Thread lists (kern/thread/threadlist.c)

    The doubly linked lists that hold the threads of run queues, wait channels
    and zombie lists, at the level of their pointers: a list has a head and a
    tail node as bookends, and every thread has one node of its own, so a
    thread is on at most one list. The refinement theorem at the end says that
    every operation acts on the pointers as the corresponding operation acts
    on finite sequences of threads, for all lists at once. *)

From stdpp Require Import base numbers list gmap.
From Stdlib Require Import ZArith Lia.
From S2P Require Import Prelude.

(** ** The nodes and the memory that holds them *)

(** [&tl->tl_head], [&tl->tl_tail] and [&t->t_listnode]; lists and threads are
    named by their addresses. *)
Inductive node := HeadOf (tl : Z) | TailOf (tl : Z) | NodeOf (t : Z).

#[global] Instance node_eq_dec : EqDecision node.
Proof. solve_decision. Defined.
#[global] Instance node_countable : Countable node.
Proof.
  refine (inj_countable'
    (fun n => match n with HeadOf x => inl x | TailOf x => inr (inl x) | NodeOf x => inr (inr x) end)
    (fun s => match s with inl x => HeadOf x | inr (inl x) => TailOf x | inr (inr x) => NodeOf x end) _).
  by intros [].
Defined.

(** The fields of the nodes; a node that is not allocated has none. The null
    pointer is [None]. [counts] are the [tl_count] of the lists. *)
Record store := mk_store {
  nexts : gmap node (option node);
  prevs : gmap node (option node);
  selfs : gmap node (option Z);
  counts : gmap Z Z
}.

Definition set_nexts st x := mk_store x (prevs st) (selfs st) (counts st).
Definition set_prevs st x := mk_store (nexts st) x (selfs st) (counts st).
Definition set_selfs st x := mk_store (nexts st) (prevs st) x (counts st).
Definition set_counts st x := mk_store (nexts st) (prevs st) (selfs st) x.

(** Following a pointer; reading and writing a field through it. *)
Definition deref {S A} (p : option A) : M S A :=
  match p with Some n => ret n | None => fault end.
Definition field {S A} (o : option A) : M S A :=
  match o with Some v => ret v | None => fault end.

Definition tln_next (n : node) : M store (option node) :=
  let* st := get in field (nexts st !! n).
Definition tln_prev (n : node) : M store (option node) :=
  let* st := get in field (prevs st !! n).
Definition tln_self (n : node) : M store (option Z) :=
  let* st := get in field (selfs st !! n).
Definition tl_count (tl : Z) : M store Z :=
  let* st := get in field (counts st !! tl).

Definition set_next (n : node) (v : option node) : M store unit :=
  do* tln_next n in modify (fun st => set_nexts st (<[n := v]> (nexts st))).
Definition set_prev (n : node) (v : option node) : M store unit :=
  do* tln_prev n in modify (fun st => set_prevs st (<[n := v]> (prevs st))).
Definition set_self (n : node) (v : option Z) : M store unit :=
  do* tln_self n in modify (fun st => set_selfs st (<[n := v]> (selfs st))).
Definition set_count (tl : Z) (v : Z) : M store unit :=
  do* tl_count tl in modify (fun st => set_counts st (<[tl := v]> (counts st))).

(** The memory of a node or of a list comes into being, with whatever it
    holds. *)
Definition new_node (n : node) (nx pv : option node) (self : option Z) (st : store) : store :=
  mk_store (<[n := nx]> (nexts st)) (<[n := pv]> (prevs st)) (<[n := self]> (selfs st)) (counts st).
Definition new_list (tl : Z) (g : option node) (c : Z) (st : store) : store :=
  set_counts (new_node (HeadOf tl) g g None (new_node (TailOf tl) g g None st))
             (<[tl := c]> (counts st)).

(** ** The operations *)

Definition threadlistnode_init (n : node) (t : Z) : M store unit :=
  do* kassert (negb (t =? 0)) in
  do* set_next n None in
  do* set_prev n None in
  set_self n (Some t).

Definition threadlistnode_cleanup (n : node) : M store unit :=
  let* nx := tln_next n in
  do* kassert (bool_decide (nx = None)) in
  let* pv := tln_prev n in
  do* kassert (bool_decide (pv = None)) in
  let* self := tln_self n in
  kassert (bool_decide (self <> None)).

Definition threadlist_init (tl : Z) : M store unit :=
  do* set_next (HeadOf tl) (Some (TailOf tl)) in
  do* set_prev (HeadOf tl) None in
  do* set_next (TailOf tl) None in
  do* set_prev (TailOf tl) (Some (HeadOf tl)) in
  do* set_self (HeadOf tl) None in
  do* set_self (TailOf tl) None in
  set_count tl 0.

Definition threadlist_isempty (tl : Z) : M store bool :=
  let* c := tl_count tl in ret (c =? 0).

Definition threadlist_cleanup (tl : Z) : M store unit :=
  let* e := threadlist_isempty tl in
  do* kassert e in
  let* c := tl_count tl in
  kassert (c =? 0).

Definition threadlist_insertafternode (onlist : node) (t : Z) : M store unit :=
  let addee := NodeOf t in
  do* set_prev addee (Some onlist) in
  let* nx := tln_next onlist in
  do* set_next addee nx in
  let* p := tln_prev addee in
  let* p := deref p in
  do* set_next p (Some addee) in
  let* n := tln_next addee in
  let* n := deref n in
  set_prev n (Some addee).

Definition threadlist_insertbeforenode (t : Z) (onlist : node) : M store unit :=
  let addee := NodeOf t in
  let* pv := tln_prev onlist in
  do* set_prev addee pv in
  do* set_next addee (Some onlist) in
  let* p := tln_prev addee in
  let* p := deref p in
  do* set_next p (Some addee) in
  let* n := tln_next addee in
  let* n := deref n in
  set_prev n (Some addee).

Definition threadlist_removenode (tln : node) : M store unit :=
  let* p := tln_prev tln in
  let* n := tln_next tln in
  let* p' := deref p in
  do* set_next p' n in
  let* n := tln_next tln in
  let* p := tln_prev tln in
  let* n' := deref n in
  do* set_prev n' p in
  do* set_prev tln None in
  set_next tln None.

(** [tl->tl_count++] and [tl->tl_count--]. *)
Definition count_add (tl d : Z) : M store unit :=
  let* c := tl_count tl in set_count tl (w32 (c + d)).

Definition threadlist_addhead (tl t : Z) : M store unit :=
  do* threadlist_insertafternode (HeadOf tl) t in count_add tl 1.

Definition threadlist_addtail (tl t : Z) : M store unit :=
  do* threadlist_insertbeforenode t (TailOf tl) in count_add tl 1.

Definition threadlist_remhead (tl : Z) : M store (option Z) :=
  let* p := tln_next (HeadOf tl) in
  let* tln := deref p in
  let* nx := tln_next tln in
  match nx with
  | None => ret None
  | Some _ =>
      do* threadlist_removenode tln in
      do* count_add tl (-1) in
      tln_self tln
  end.

Definition threadlist_remtail (tl : Z) : M store (option Z) :=
  let* p := tln_prev (TailOf tl) in
  let* tln := deref p in
  let* pv := tln_prev tln in
  match pv with
  | None => ret None
  | Some _ =>
      do* threadlist_removenode tln in
      do* count_add tl (-1) in
      tln_self tln
  end.

Definition threadlist_insertafter (tl onlist addee : Z) : M store unit :=
  do* threadlist_insertafternode (NodeOf onlist) addee in count_add tl 1.

Definition threadlist_insertbefore (tl addee onlist : Z) : M store unit :=
  do* threadlist_insertbeforenode addee (NodeOf onlist) in count_add tl 1.

Definition threadlist_remove (tl t : Z) : M store unit :=
  do* threadlist_removenode (NodeOf t) in count_add tl (-1).

(** ** What the pointers represent *)

(** Consecutive nodes of [l] point at each other. *)
Fixpoint links (nx pv : gmap node (option node)) (l : list node) : Prop :=
  match l with
  | a :: l' => match l' with
               | b :: _ => nx !! a = Some (Some b) /\ pv !! b = Some (Some a) /\ links nx pv l'
               | [] => True
               end
  | [] => True
  end.

Definition nodes_of (tl : Z) (ts : list Z) : list node :=
  HeadOf tl :: map NodeOf ts ++ [TailOf tl].

(** The threads that exist, and the sequence of threads on each list. *)
Record alists := mk_alists { al_threads : gset Z; al_lists : gmap Z (list Z) }.

Definition off_list (a : alists) (t : Z) : Prop :=
  t ∈ al_threads a /\ forall tl ts, al_lists a !! tl = Some ts -> t ∉ ts.

Record list_ok (st : store) (tl : Z) (ts : list Z) : Prop := {
  lo_links : links (nexts st) (prevs st) (nodes_of tl ts);
  lo_head : prevs st !! HeadOf tl = Some None;
  lo_tail : nexts st !! TailOf tl = Some None;
  lo_selfs : selfs st !! HeadOf tl = Some None /\ selfs st !! TailOf tl = Some None;
  lo_count : counts st !! tl = Some (zlength ts);
  lo_small : zlength ts < two32;
  lo_nodup : NoDup ts;
}.

(** A thread is on at most one list, and exists. *)
Record alists_ok (a : alists) : Prop := {
  al_excl : forall tl tl' ts ts' t, al_lists a !! tl = Some ts -> al_lists a !! tl' = Some ts' ->
    t ∈ ts -> t ∈ ts' -> tl = tl';
  al_on : forall tl ts t, al_lists a !! tl = Some ts -> t ∈ ts -> t ∈ al_threads a;
}.

Record rep (st : store) (a : alists) : Prop := {
  rep_ok : alists_ok a;
  rep_list : forall tl ts, al_lists a !! tl = Some ts -> list_ok st tl ts;
  rep_self : forall t, t ∈ al_threads a -> t <> 0 /\ selfs st !! NodeOf t = Some (Some t);
  rep_off : forall t, off_list a t ->
    nexts st !! NodeOf t = Some None /\ prevs st !! NodeOf t = Some None;
}.

(** ** Lemmas on links *)

Lemma links_split nx pv l1 a l2 :
  links nx pv (l1 ++ a :: l2) <-> links nx pv (l1 ++ [a]) /\ links nx pv (a :: l2).
Proof.
  induction l1 as [|c l1 IH]; cbn [app]; [cbn; tauto|].
  destruct l1 as [|d l1]; cbn [app links] in *; tauto.
Qed.

Lemma links_nx_out nx pv n v l : n ∉ l -> links nx pv l -> links (<[n := v]> nx) pv l.
Proof.
  induction l as [|a l IH]; [done|]. intros Hn. destruct l as [|b l]; [done|].
  intros (Ha & Hb & Hl). split; [by rewrite lookup_insert_ne by set_solver|].
  split; [done|]. apply IH; [set_solver|done].
Qed.

Lemma links_pv_out nx pv n v l : n ∉ l -> links nx pv l -> links nx (<[n := v]> pv) l.
Proof.
  induction l as [|a l IH]; [done|]. intros Hn. destruct l as [|b l]; [done|].
  intros (Ha & Hb & Hl). split; [done|].
  split; [by rewrite lookup_insert_ne by set_solver|]. apply IH; [set_solver|done].
Qed.

(** The next field of the last node and the prev field of the first are free. *)
Lemma links_nx_last nx pv n v l :
  n ∉ l -> links nx pv (l ++ [n]) -> links (<[n := v]> nx) pv (l ++ [n]).
Proof.
  induction l as [|a l IH]; [done|]. intros Hn.
  destruct l as [|b l]; cbn [app links] in *.
  - intros (Ha & Hb & _). by rewrite lookup_insert_ne by set_solver.
  - intros (Ha & Hb & Hl). rewrite lookup_insert_ne by set_solver.
    split; [done|]. split; [done|]. apply IH; [set_solver|done].
Qed.

Lemma links_pv_head nx pv n v l :
  n ∉ l -> links nx pv (n :: l) -> links nx (<[n := v]> pv) (n :: l).
Proof.
  destruct l as [|b l]; [done|]. intros Hn (Ha & Hb & Hl). split; [done|].
  split; [by rewrite lookup_insert_ne by set_solver|]. by apply links_pv_out.
Qed.

(** Splicing [x] in between [p] and [n], and out again. *)
Lemma links_insert nx pv l1 p x n l2 :
  NoDup (l1 ++ p :: n :: l2) -> x ∉ l1 ++ p :: n :: l2 -> links nx pv (l1 ++ p :: n :: l2) ->
  links (<[p := Some x]> (<[x := Some n]> nx)) (<[n := Some x]> (<[x := Some p]> pv))
        (l1 ++ p :: x :: n :: l2).
Proof.
  intros Nd Hx [L1 (E1 & E2 & L2)]%links_split. apply links_split.
  apply NoDup_app in Nd as (_ & D1 & [Np [Nn _]%NoDup_cons]%NoDup_cons).
  assert (p ∉ l1) by (intros ?; by apply (D1 p); [|set_solver]).
  assert (n ∉ l1) by (intros ?; by apply (D1 n); [|set_solver]).
  split; [|split; [by rewrite lookup_insert_eq|split; [|split; [|split]]]].
  - apply links_nx_last; [done|]. apply links_nx_out; [set_solver|].
    apply links_pv_out; [set_solver|]. apply links_pv_out; [set_solver|done].
  - rewrite lookup_insert_ne by set_solver. by rewrite lookup_insert_eq.
  - rewrite lookup_insert_ne by set_solver. by rewrite lookup_insert_eq.
  - by rewrite lookup_insert_eq.
  - apply links_pv_head; [done|]. apply links_nx_out; [set_solver|].
    apply links_nx_out; [set_solver|]. apply links_pv_out; [set_solver|done].
Qed.

Lemma links_remove nx pv l1 p x n l2 :
  NoDup (l1 ++ p :: x :: n :: l2) -> links nx pv (l1 ++ p :: x :: n :: l2) ->
  links (<[x := None]> (<[p := Some n]> nx)) (<[x := None]> (<[n := Some p]> pv))
        (l1 ++ p :: n :: l2).
Proof.
  intros Nd [L1 (E1 & E2 & E3 & E4 & L2)]%links_split. apply links_split.
  apply NoDup_app in Nd as (_ & D1 & [Np [Nx [Nn _]%NoDup_cons]%NoDup_cons]%NoDup_cons).
  assert (p ∉ l1 /\ x ∉ l1 /\ n ∉ l1) as (? & ? & ?)
    by (split_and!; intros ?; [by apply (D1 p); [|set_solver]|by apply (D1 x); [|set_solver]
                              |by apply (D1 n); [|set_solver]]).
  split; [|split; [|split]].
  - apply links_nx_out; [set_solver|]. apply links_nx_last; [done|].
    apply links_pv_out; [set_solver|]. apply links_pv_out; [set_solver|done].
  - rewrite lookup_insert_ne by set_solver. by rewrite lookup_insert_eq.
  - rewrite lookup_insert_ne by set_solver. by rewrite lookup_insert_eq.
  - apply links_pv_out; [set_solver|]. apply links_pv_head; [done|].
    apply links_nx_out; [set_solver|]. apply links_nx_out; [set_solver|done].
Qed.

(** ** The ends of a position in a list *)

(** The node before the threads that follow [l1], and the node after the
    threads that precede [l2]. *)
Definition before (tl : Z) (l1 : list Z) : node := default (HeadOf tl) (NodeOf <$> last l1).
Definition after (tl : Z) (l2 : list Z) : node := default (TailOf tl) (NodeOf <$> head l2).

Lemma before_split tl l1 : exists pre, HeadOf tl :: map NodeOf l1 = pre ++ [before tl l1].
Proof.
  destruct l1 as [|t l1 _] using rev_ind; [by exists []|].
  exists (HeadOf tl :: map NodeOf l1). unfold before. rewrite last_snoc.
  by rewrite map_app.
Qed.

Lemma after_split tl l2 : exists post, map NodeOf l2 ++ [TailOf tl] = after tl l2 :: post.
Proof. destruct l2; cbn; eauto. Qed.

Lemma nodes_split tl l1 l2 :
  exists pre post, nodes_of tl (l1 ++ l2) = pre ++ before tl l1 :: after tl l2 :: post /\
    forall x, nodes_of tl (l1 ++ x :: l2) = pre ++ before tl l1 :: NodeOf x :: after tl l2 :: post.
Proof.
  destruct (before_split tl l1) as [pre Hpre], (after_split tl l2) as [post Hpost].
  exists pre, post. unfold nodes_of. split; [|intros x];
    rewrite map_app, <- (assoc_L (++)), app_comm_cons, Hpre, <- (assoc_L (++)); cbn;
    by rewrite Hpost.
Qed.

Lemma nodes_nodup tl ts : NoDup ts -> NoDup (nodes_of tl ts).
Proof.
  intros Nd. unfold nodes_of. apply NoDup_cons. split.
  - rewrite elem_of_app, list_elem_of_fmap. set_solver.
  - apply NoDup_app. split_and!; [by apply NoDup_fmap; [intros ?? [=]|]|
      |apply NoDup_singleton]. intros x. rewrite list_elem_of_fmap. set_solver.
Qed.

Lemma node_in tl ts n :
  n ∈ nodes_of tl ts <-> n = HeadOf tl \/ n = TailOf tl \/ exists t, n = NodeOf t /\ t ∈ ts.
Proof.
  unfold nodes_of. rewrite elem_of_cons, elem_of_app, list_elem_of_fmap, list_elem_of_singleton.
  firstorder.
Qed.

(** ** Splicing, on the whole memory *)

Definition set_list (a : alists) (tl : Z) (ts : list Z) : alists :=
  mk_alists (al_threads a) (<[tl := ts]> (al_lists a)).

Definition splice_in (st : store) (p x n : node) : store :=
  mk_store (<[p := Some x]> (<[x := Some n]> (nexts st)))
           (<[n := Some x]> (<[x := Some p]> (prevs st))) (selfs st) (counts st).
Definition splice_out (st : store) (p x n : node) : store :=
  mk_store (<[x := None]> (<[p := Some n]> (nexts st)))
           (<[x := None]> (<[n := Some p]> (prevs st))) (selfs st) (counts st).
Definition recount (st : store) (tl c : Z) : store := set_counts st (<[tl := c]> (counts st)).

Lemma before_in tl l1 l2 : before tl l1 ∈ nodes_of tl (l1 ++ l2).
Proof. destruct (nodes_split tl l1 l2) as (pre & post & -> & _). set_solver. Qed.
Lemma after_in tl l1 l2 : after tl l2 ∈ nodes_of tl (l1 ++ l2).
Proof. destruct (nodes_split tl l1 l2) as (pre & post & -> & _). set_solver. Qed.
Lemma before_not_tail tl l1 x : before tl l1 <> TailOf x.
Proof. unfold before. by destruct (last l1). Qed.
Lemma after_not_head tl l2 x : after tl l2 <> HeadOf x.
Proof. by destruct l2. Qed.
Lemma before_after tl l1 l2 : NoDup (l1 ++ l2) -> before tl l1 <> after tl l2.
Proof.
  intros Nd%(nodes_nodup tl). destruct (nodes_split tl l1 l2) as (pre & post & E & _).
  rewrite E in Nd. apply NoDup_app in Nd as (_ & _ & [? _]%NoDup_cons). set_solver.
Qed.

Lemma linked st tl l1 l2 :
  list_ok st tl (l1 ++ l2) ->
  nexts st !! before tl l1 = Some (Some (after tl l2)) /\
  prevs st !! after tl l2 = Some (Some (before tl l1)).
Proof.
  intros [L _ _ _ _ _]. destruct (nodes_split tl l1 l2) as (pre & post & E & _).
  rewrite E in L. apply links_split in L as [_ (? & ? & _)]. done.
Qed.

Section spliced.
Context (st : store) (a : alists) (Hrep : rep st a).

Lemma nodes_disjoint tl ts tl' ts' n :
  al_lists a !! tl = Some ts -> al_lists a !! tl' = Some ts' -> tl <> tl' ->
  n ∈ nodes_of tl ts -> n ∉ nodes_of tl' ts'.
Proof.
  intros H1 H2 Hne Hn1 Hn2. apply node_in in Hn1, Hn2.
  destruct Hn1 as [->|[->|(t & -> & Ht)]], Hn2 as [?|[?|(t' & ? & Ht')]]; simplify_eq.
  apply Hne. by eapply (al_excl _ (rep_ok _ _ Hrep)).
Qed.

Lemma off_not_in t tl ts :
  off_list a t -> al_lists a !! tl = Some ts -> NodeOf t ∉ nodes_of tl ts.
Proof.
  intros [_ Ho] Hl. rewrite node_in. intros [?|[?|(t' & ? & Ht)]]; simplify_eq.
  by eapply Ho.
Qed.

(** A list whose nodes are not touched stays as it is. *)
Lemma list_ok_frame st' tl ts :
  list_ok st tl ts ->
  links (nexts st') (prevs st') (nodes_of tl ts) ->
  prevs st' !! HeadOf tl = prevs st !! HeadOf tl ->
  nexts st' !! TailOf tl = nexts st !! TailOf tl ->
  counts st' !! tl = counts st !! tl ->
  selfs st' !! HeadOf tl = selfs st !! HeadOf tl -> selfs st' !! TailOf tl = selfs st !! TailOf tl ->
  list_ok st' tl ts.
Proof. intros [] L E1 E2 E3 E4 E5. split; rewrite ?E1, ?E2, ?E3, ?E4, ?E5; done. Qed.

Lemma alists_ok_insert tl l1 l2 t :
  al_lists a !! tl = Some (l1 ++ l2) -> off_list a t -> alists_ok (set_list a tl (l1 ++ t :: l2)).
Proof.
  intros Hl Hoff. destruct (rep_ok _ _ Hrep) as [Hex Hon].
  split; cbn [al_lists al_threads set_list].
  - intros tl1 tl2 ts1 ts2 x. rewrite !lookup_insert.
    assert (Hx : forall tl' ts', al_lists a !! tl' = Some ts' -> x ∈ l1 ++ t :: l2 -> x ∈ ts' -> tl = tl').
    { intros tl' ts' Hl' Hin Hin'. assert (x = t \/ x ∈ l1 ++ l2) as [->|Hx] by set_solver.
      - by destruct (proj2 Hoff tl' ts').
      - by eapply Hex. }
    do 2 case_decide; intros; simplify_eq; try done; eauto using eq_sym.
  - intros tl' ts' x. rewrite lookup_insert. case_decide; [intros [= <-] Hx|apply Hon].
    assert (x = t \/ x ∈ l1 ++ l2) as [->|Hx'] by set_solver; [apply Hoff|]. by eapply Hon.
Qed.

Lemma list_ok_splice_in tl l1 l2 t :
  al_lists a !! tl = Some (l1 ++ l2) -> off_list a t -> zlength (l1 ++ l2) + 1 < two32 ->
  list_ok (recount (splice_in st (before tl l1) (NodeOf t) (after tl l2)) tl
             (zlength (l1 ++ l2) + 1)) tl (l1 ++ t :: l2).
Proof.
  intros Hl Hoff Hsm. pose proof (rep_list _ _ Hrep _ _ Hl) as Hok.
  pose proof (before_not_tail tl l1 tl). pose proof (after_not_head tl l2 tl).
  destruct (nodes_split tl l1 l2) as (pre & post & E & Ex). split; cbn -[nodes_of].
  - rewrite Ex. apply links_insert; rewrite <- E; [by apply nodes_nodup, Hok| |apply Hok].
    by apply off_not_in.
  - rewrite !lookup_insert_ne by done. apply Hok.
  - rewrite !lookup_insert_ne by done. apply Hok.
  - apply Hok.
  - rewrite lookup_insert_eq. f_equal. unfold zlength. rewrite !length_app. cbn. lia.
  - unfold zlength in *. rewrite !length_app in *. cbn. lia.
  - rewrite <- Permutation_middle. apply NoDup_cons. split; [by eapply Hoff|apply Hok].
Qed.

Lemma off_list_set tl ts ts' t :
  al_lists a !! tl = Some ts -> off_list (set_list a tl ts') t ->
  (t ∈ ts -> t ∈ ts') -> off_list a t.
Proof.
  intros Hl [H1 H2] Hsub. split; [done|]. intros tl2 ts2 Hl2 Ht.
  destruct (decide (tl = tl2)) as [<-|].
  - rewrite Hl in Hl2. injection Hl2 as <-. apply (H2 tl ts'); [cbn; by rewrite lookup_insert_eq|auto].
  - apply (H2 tl2 ts2); [cbn; by rewrite lookup_insert_ne|done].
Qed.

Lemma rep_splice_in tl l1 l2 t :
  al_lists a !! tl = Some (l1 ++ l2) -> off_list a t -> zlength (l1 ++ l2) + 1 < two32 ->
  rep (recount (splice_in st (before tl l1) (NodeOf t) (after tl l2)) tl (zlength (l1 ++ l2) + 1))
      (set_list a tl (l1 ++ t :: l2)).
Proof.
  intros Hl Hoff Hsm. pose proof (before_in tl l1 l2) as Hb. pose proof (after_in tl l1 l2) as Ha.
  pose proof (before_not_tail tl l1) as Hbt. pose proof (after_not_head tl l2) as Hah.
  split; [by apply alists_ok_insert| |apply (rep_self _ _ Hrep)|].
  - intros tl' ts'. cbn [al_lists set_list]. rewrite lookup_insert.
    case_decide as Htl; [subst tl'; intros [= <-]; by apply list_ok_splice_in|intros Hl'].
    pose proof (fun n => nodes_disjoint _ _ _ _ n Hl Hl' Htl) as Hd'.
    apply list_ok_frame; cbn -[nodes_of]; [by apply (rep_list _ _ Hrep)| | | | |done|done].
    + apply links_nx_out; [by apply Hd'|]. apply links_nx_out; [by apply off_not_in|].
      apply links_pv_out; [by apply Hd'|]. apply links_pv_out; [by apply off_not_in|].
      by apply (rep_list _ _ Hrep).
    + by rewrite !lookup_insert_ne by done.
    + by rewrite !lookup_insert_ne by done.
    + by rewrite lookup_insert_ne.
  - intros x Hx. assert (x <> t) as Hxt.
    { intros ->. apply (proj2 Hx tl (l1 ++ t :: l2)); [cbn; by rewrite lookup_insert_eq|set_solver]. }
    assert (off_list a x) as Hxo by (eapply off_list_set; [done|done|set_solver]).
    pose proof (off_not_in _ _ _ Hxo Hl) as Hn. cbn.
    rewrite !lookup_insert_ne by (intros E; first [congruence|rewrite E in *; done]).
    by apply (rep_off _ _ Hrep).
Qed.

Lemma alists_ok_remove tl l1 l2 t :
  al_lists a !! tl = Some (l1 ++ t :: l2) -> alists_ok (set_list a tl (l1 ++ l2)).
Proof.
  intros Hl. destruct (rep_ok _ _ Hrep) as [Hex Hon].
  split; cbn [al_lists al_threads set_list].
  - intros tl1 tl2 ts1 ts2 x. rewrite !lookup_insert.
    assert (Hx : forall tl' ts', al_lists a !! tl' = Some ts' -> x ∈ l1 ++ l2 -> x ∈ ts' -> tl = tl').
    { intros tl' ts' Hl' Hin Hin'. apply (Hex tl tl' _ ts' x Hl Hl'); [set_solver|done]. }
    do 2 case_decide; intros; simplify_eq; try done; eauto using eq_sym.
  - intros tl' ts' x. rewrite lookup_insert. case_decide; [intros [= <-] Hx|apply Hon].
    eapply Hon; [done|set_solver].
Qed.

Lemma list_ok_splice_out tl l1 l2 t :
  al_lists a !! tl = Some (l1 ++ t :: l2) ->
  list_ok (recount (splice_out st (before tl l1) (NodeOf t) (after tl l2)) tl
             (zlength (l1 ++ l2))) tl (l1 ++ l2).
Proof.
  intros Hl. pose proof (rep_list _ _ Hrep _ _ Hl) as Hok.
  pose proof (before_not_tail tl l1 tl). pose proof (after_not_head tl l2 tl).
  destruct (nodes_split tl l1 l2) as (pre & post & E & Ex). split; cbn -[nodes_of].
  - rewrite E. apply links_remove; rewrite <- (Ex t); [by apply nodes_nodup, Hok|apply Hok].
  - rewrite !lookup_insert_ne by done. apply Hok.
  - rewrite !lookup_insert_ne by done. apply Hok.
  - apply Hok.
  - by rewrite lookup_insert_eq.
  - pose proof (lo_small _ _ _ Hok). unfold zlength in *. rewrite !length_app in *. cbn in *. lia.
  - pose proof (lo_nodup _ _ _ Hok) as Nd. rewrite <- Permutation_middle in Nd.
    by apply NoDup_cons in Nd as [_ ?].
Qed.

Lemma rep_splice_out tl l1 l2 t :
  al_lists a !! tl = Some (l1 ++ t :: l2) ->
  rep (recount (splice_out st (before tl l1) (NodeOf t) (after tl l2)) tl (zlength (l1 ++ l2)))
      (set_list a tl (l1 ++ l2)).
Proof.
  intros Hl.
  assert (Hin : forall n, n ∈ nodes_of tl (l1 ++ l2) -> n ∈ nodes_of tl (l1 ++ t :: l2))
    by (intros n; rewrite !node_in; set_solver).
  pose proof (Hin _ (before_in tl l1 l2)) as Hb. pose proof (Hin _ (after_in tl l1 l2)) as Ha.
  pose proof (before_not_tail tl l1) as Hbt. pose proof (after_not_head tl l2) as Hah.
  assert (NodeOf t ∈ nodes_of tl (l1 ++ t :: l2)) as Ht by (apply node_in; set_solver).
  split; [by eapply alists_ok_remove| |apply (rep_self _ _ Hrep)|].
  - intros tl' ts'. cbn [al_lists set_list]. rewrite lookup_insert.
    case_decide as Htl; [subst tl'; intros [= <-]; by apply list_ok_splice_out|intros Hl'].
    pose proof (fun n => nodes_disjoint _ _ _ _ n Hl Hl' Htl) as Hd'.
    apply list_ok_frame; cbn -[nodes_of]; [by apply (rep_list _ _ Hrep)| | | | |done|done].
    + apply links_nx_out; [by apply Hd'|]. apply links_nx_out; [by apply Hd'|].
      apply links_pv_out; [by apply Hd'|]. apply links_pv_out; [by apply Hd'|].
      by apply (rep_list _ _ Hrep).
    + by rewrite !lookup_insert_ne by done.
    + by rewrite !lookup_insert_ne by done.
    + by rewrite lookup_insert_ne.
  - intros x Hx. destruct (decide (x = t)) as [->|Hxt]; cbn; [by rewrite !lookup_insert_eq|].
    assert (off_list a x) as Hxo by (eapply off_list_set; [done|done|set_solver]).
    pose proof (off_not_in _ _ _ Hxo Hl) as Hn.
    rewrite !lookup_insert_ne by (intros E; first [congruence|rewrite E in *; done]).
    by apply (rep_off _ _ Hrep).
Qed.
End spliced.

(** ** Running the operations *)

Ltac tl_run :=
  unfold set_next, set_prev, set_self, set_count, tln_next, tln_prev, tln_self, tl_count,
    field, deref, bind, get, ret, modify, kassert, fault;
  cbn [nexts prevs selfs counts set_nexts set_prevs set_selfs set_counts];
  repeat (simplify_map_eq; cbn [nexts prevs selfs counts set_nexts set_prevs set_selfs set_counts]).

Lemma insertafternode_run st p n t :
  nexts st !! p = Some (Some n) -> is_Some (prevs st !! n) ->
  nexts st !! NodeOf t = Some None -> prevs st !! NodeOf t = Some None ->
  p <> NodeOf t -> n <> NodeOf t ->
  threadlist_insertafternode p t st = Ret (tt, splice_in st p (NodeOf t) n).
Proof. intros ? [? ?] ? ? ? ?. unfold threadlist_insertafternode. tl_run. done. Qed.

Lemma insertbeforenode_run st p n t :
  is_Some (nexts st !! p) -> prevs st !! n = Some (Some p) ->
  nexts st !! NodeOf t = Some None -> prevs st !! NodeOf t = Some None ->
  p <> NodeOf t -> n <> NodeOf t ->
  threadlist_insertbeforenode t n st = Ret (tt, splice_in st p (NodeOf t) n).
Proof. intros [? ?] ? ? ? ? ?. unfold threadlist_insertbeforenode. tl_run. done. Qed.

Lemma removenode_run st p x n :
  is_Some (nexts st !! p) -> is_Some (prevs st !! n) ->
  nexts st !! x = Some (Some n) -> prevs st !! x = Some (Some p) -> p <> x -> n <> x ->
  threadlist_removenode x st = Ret (tt, splice_out st p x n).
Proof. intros [? ?] [? ?] ? ? ? ?. unfold threadlist_removenode. tl_run. done. Qed.

Lemma count_add_run st tl c d :
  counts st !! tl = Some c -> 0 <= c + d < two32 -> count_add tl d st = Ret (tt, recount st tl (c + d)).
Proof. intros Hc Hd. unfold count_add. tl_run. by rewrite w32_id. Qed.

(** ** The abstract operations *)

Inductive tl_op :=
  | ONodeInit (t : Z) (nx pv : option node) (self : option Z)
  | ONodeCleanup (t : Z)
  | OInit (tl : Z) (g : option node) (c : Z)
  | OCleanup (tl : Z)
  | OIsEmpty (tl : Z)
  | OAddHead (tl t : Z)
  | OAddTail (tl t : Z)
  | ORemHead (tl : Z)
  | ORemTail (tl : Z)
  | OInsertAfter (tl onlist addee : Z)
  | OInsertBefore (tl addee onlist : Z)
  | ORemove (tl t : Z).

Inductive tl_answer := ADone | AThread (t : option Z) | ABool (b : bool).

(** [ONodeInit] and [OInit] take memory with arbitrary contents. *)
Definition do_tl_op (op : tl_op) : M store tl_answer :=
  match op with
  | ONodeInit t nx pv self =>
      do* modify (new_node (NodeOf t) nx pv self) in
      do* threadlistnode_init (NodeOf t) t in ret ADone
  | ONodeCleanup t => do* threadlistnode_cleanup (NodeOf t) in ret ADone
  | OInit tl g c => do* modify (new_list tl g c) in do* threadlist_init tl in ret ADone
  | OCleanup tl => do* threadlist_cleanup tl in ret ADone
  | OIsEmpty tl => let* b := threadlist_isempty tl in ret (ABool b)
  | OAddHead tl t => do* threadlist_addhead tl t in ret ADone
  | OAddTail tl t => do* threadlist_addtail tl t in ret ADone
  | ORemHead tl => let* r := threadlist_remhead tl in ret (AThread r)
  | ORemTail tl => let* r := threadlist_remtail tl in ret (AThread r)
  | OInsertAfter tl o t => do* threadlist_insertafter tl o t in ret ADone
  | OInsertBefore tl t o => do* threadlist_insertbefore tl t o in ret ADone
  | ORemove tl t => do* threadlist_remove tl t in ret ADone
  end.

(** The same operations on sequences of threads. A thread that is added is on
    no list, and the length of a list fits its counter. *)
Inductive tl_step (a : alists) : tl_op -> tl_answer -> alists -> Prop :=
  | ts_node_init t nx pv self : t <> 0 -> t ∉ al_threads a ->
      tl_step a (ONodeInit t nx pv self) ADone (mk_alists ({[t]} ∪ al_threads a) (al_lists a))
  | ts_node_cleanup t : off_list a t -> tl_step a (ONodeCleanup t) ADone a
  | ts_init tl g c : al_lists a !! tl = None -> tl_step a (OInit tl g c) ADone (set_list a tl [])
  | ts_cleanup tl : al_lists a !! tl = Some [] ->
      tl_step a (OCleanup tl) ADone (mk_alists (al_threads a) (delete tl (al_lists a)))
  | ts_isempty tl ts : al_lists a !! tl = Some ts ->
      tl_step a (OIsEmpty tl) (ABool (bool_decide (ts = []))) a
  | ts_addhead tl ts t : al_lists a !! tl = Some ts -> off_list a t -> zlength ts + 1 < two32 ->
      tl_step a (OAddHead tl t) ADone (set_list a tl (t :: ts))
  | ts_addtail tl ts t : al_lists a !! tl = Some ts -> off_list a t -> zlength ts + 1 < two32 ->
      tl_step a (OAddTail tl t) ADone (set_list a tl (ts ++ [t]))
  | ts_remhead tl t ts : al_lists a !! tl = Some (t :: ts) ->
      tl_step a (ORemHead tl) (AThread (Some t)) (set_list a tl ts)
  | ts_remhead_empty tl : al_lists a !! tl = Some [] -> tl_step a (ORemHead tl) (AThread None) a
  | ts_remtail tl t ts : al_lists a !! tl = Some (ts ++ [t]) ->
      tl_step a (ORemTail tl) (AThread (Some t)) (set_list a tl ts)
  | ts_remtail_empty tl : al_lists a !! tl = Some [] -> tl_step a (ORemTail tl) (AThread None) a
  | ts_insertafter tl l1 o l2 t : al_lists a !! tl = Some (l1 ++ o :: l2) -> off_list a t ->
      zlength (l1 ++ o :: l2) + 1 < two32 ->
      tl_step a (OInsertAfter tl o t) ADone (set_list a tl (l1 ++ o :: t :: l2))
  | ts_insertbefore tl l1 o l2 t : al_lists a !! tl = Some (l1 ++ o :: l2) -> off_list a t ->
      zlength (l1 ++ o :: l2) + 1 < two32 ->
      tl_step a (OInsertBefore tl t o) ADone (set_list a tl (l1 ++ t :: o :: l2))
  | ts_remove tl l1 t l2 : al_lists a !! tl = Some (l1 ++ t :: l2) ->
      tl_step a (ORemove tl t) ADone (set_list a tl (l1 ++ l2)).

Inductive tl_trace : alists -> list tl_op -> list tl_answer -> alists -> Prop :=
  | tt_nil a : tl_trace a [] [] a
  | tt_cons a op r a1 ops rs a2 :
      tl_step a op r a1 -> tl_trace a1 ops rs a2 -> tl_trace a (op :: ops) (r :: rs) a2.

Fixpoint run_tl_ops (ops : list tl_op) : M store (list tl_answer) :=
  match ops with
  | [] => ret []
  | op :: ops => let* r := do_tl_op op in let* rs := run_tl_ops ops in ret (r :: rs)
  end.

(** ** Each operation simulates its abstract counterpart *)

Section simulation.
Context (st : store) (a : alists) (Hrep : rep st a).

Lemma before_ne tl l1 l2 t :
  al_lists a !! tl = Some (l1 ++ l2) -> off_list a t ->
  before tl l1 <> NodeOf t /\ after tl l2 <> NodeOf t.
Proof.
  intros Hl Hoff. pose proof (off_not_in a t _ _ Hoff Hl) as Hn.
  pose proof (before_in tl l1 l2). pose proof (after_in tl l1 l2). split; intros E; rewrite E in *; done.
Qed.

Lemma sim_insert tl l1 l2 t m :
  al_lists a !! tl = Some (l1 ++ l2) -> off_list a t -> zlength (l1 ++ l2) + 1 < two32 ->
  m = threadlist_insertafternode (before tl l1) t \/
  m = threadlist_insertbeforenode t (after tl l2) ->
  exists st', (do* m in count_add tl 1) st = Ret (tt, st') /\
    rep st' (set_list a tl (l1 ++ t :: l2)).
Proof.
  intros Hl Hoff Hsm Hm. pose proof (rep_list _ _ Hrep _ _ Hl) as Hok.
  destruct (linked _ _ _ _ Hok) as [Hn Hp], (rep_off _ _ Hrep _ Hoff) as [On Op].
  destruct (before_ne tl l1 l2 t Hl Hoff) as [Nb Na].
  assert (m st = Ret (tt, splice_in st (before tl l1) (NodeOf t) (after tl l2))) as E.
  { destruct Hm as [-> | ->]; [apply insertafternode_run|apply insertbeforenode_run]; eauto. }
  rewrite (bind_ok _ _ _ _ _ E).
  rewrite (count_add_run _ tl (zlength (l1 ++ l2)))
    by (done || apply Hok || (pose proof (zlength_nonneg (l1 ++ l2)); lia)).
  eexists. split; [done|]. by apply rep_splice_in.
Qed.

Lemma sim_remove tl l1 t l2 :
  al_lists a !! tl = Some (l1 ++ t :: l2) ->
  exists st', (do* threadlist_removenode (NodeOf t) in count_add tl (-1)) st = Ret (tt, st') /\
    rep st' (set_list a tl (l1 ++ l2)) /\ selfs st' !! NodeOf t = Some (Some t).
Proof.
  intros Hl. pose proof (rep_list _ _ Hrep _ _ Hl) as Hok.
  pose proof (linked st tl l1 (t :: l2) Hok) as [Hn1 Hp1].
  assert (list_ok st tl ((l1 ++ [t]) ++ l2)) as Hok' by (by rewrite <- (assoc_L (++))).
  pose proof (linked st tl (l1 ++ [t]) l2 Hok') as [Hn2 Hp2].
  assert (before tl (l1 ++ [t]) = NodeOf t) as Hbt by (unfold before; by rewrite last_snoc).
  rewrite Hbt in *. change (after tl (t :: l2)) with (NodeOf t) in *.
  pose proof (lo_nodup _ _ _ Hok) as Nd.
  pose proof (before_after tl l1 (t :: l2) Nd) as Ne1.
  rewrite cons_middle, (assoc_L (++)) in Nd. pose proof (before_after tl (l1 ++ [t]) l2 Nd) as Ne2.
  rewrite Hbt in Ne2. change (after tl (t :: l2)) with (NodeOf t) in Ne1.
  rewrite (bind_ok _ _ _ tt (splice_out st (before tl l1) (NodeOf t) (after tl l2)))
    by (apply removenode_run; eauto).
  assert (zlength (l1 ++ l2) = zlength (l1 ++ t :: l2) + -1) as Hz
    by (unfold zlength; rewrite !length_app; cbn; lia).
  rewrite (count_add_run _ tl (zlength (l1 ++ t :: l2)));
    [|apply Hok|rewrite <- Hz; pose proof (zlength_nonneg (l1 ++ l2)); pose proof (lo_small _ _ _ Hok); lia].
  rewrite <- Hz. eexists. split; [done|]. split; [by apply rep_splice_out|].
  apply (rep_self _ _ Hrep). eapply (al_on _ (rep_ok _ _ Hrep)); [done|set_solver].
Qed.

Lemma sim_remhead tl t ts :
  al_lists a !! tl = Some (t :: ts) ->
  exists st', threadlist_remhead tl st = Ret (Some t, st') /\ rep st' (set_list a tl ts).
Proof.
  intros Hl. pose proof (rep_list _ _ Hrep _ _ Hl) as Hok.
  pose proof (linked st tl [] (t :: ts) Hok) as [Hn _].
  change (before tl []) with (HeadOf tl) in Hn. change (after tl (t :: ts)) with (NodeOf t) in Hn.
  pose proof (linked st tl [t] ts Hok) as [Hn2 _]. change (before tl [t]) with (NodeOf t) in Hn2.
  destruct (sim_remove tl [] t ts Hl) as (st' & E & Hr & Hs).
  unfold threadlist_remhead.
  rewrite (bind_ok _ _ _ (Some (NodeOf t)) st) by (unfold tln_next, field; mrun; by rewrite Hn).
  cbn [deref]. rewrite bind_ret.
  rewrite (bind_ok _ _ _ (Some (after tl ts)) st) by (unfold tln_next, field; mrun; by rewrite Hn2).
  cbn iota. rewrite <- bind_bind, (bind_ok _ _ _ _ _ E).
  exists st'. split; [|done]. unfold tln_self, field. mrun. by rewrite Hs.
Qed.

Lemma sim_remtail tl t ts :
  al_lists a !! tl = Some (ts ++ [t]) ->
  exists st', threadlist_remtail tl st = Ret (Some t, st') /\ rep st' (set_list a tl ts).
Proof.
  intros Hl. pose proof (rep_list _ _ Hrep _ _ Hl) as Hok.
  assert (list_ok st tl ((ts ++ [t]) ++ [])) as Hok' by (by rewrite app_nil_r).
  pose proof (linked st tl (ts ++ [t]) [] Hok') as [_ Hp].
  assert (before tl (ts ++ [t]) = NodeOf t) as Hbt by (unfold before; by rewrite last_snoc).
  rewrite Hbt in Hp. pose proof (linked st tl ts [t] Hok) as [_ Hp2].
  change (after tl [t]) with (NodeOf t) in Hp2. change (after tl []) with (TailOf tl) in Hp.
  destruct (sim_remove tl ts t [] Hl) as (st' & E & Hr & Hs). rewrite app_nil_r in Hr.
  unfold threadlist_remtail.
  rewrite (bind_ok _ _ _ (Some (NodeOf t)) st) by (unfold tln_prev, field; mrun; by rewrite Hp).
  cbn [deref]. rewrite bind_ret.
  rewrite (bind_ok _ _ _ (Some (before tl ts)) st) by (unfold tln_prev, field; mrun; by rewrite Hp2).
  cbn iota. rewrite <- bind_bind, (bind_ok _ _ _ _ _ E).
  exists st'. split; [|done]. unfold tln_self, field. mrun. by rewrite Hs.
Qed.

Lemma sim_rem_empty tl :
  al_lists a !! tl = Some [] ->
  threadlist_remhead tl st = Ret (None, st) /\ threadlist_remtail tl st = Ret (None, st).
Proof.
  intros Hl. pose proof (rep_list _ _ Hrep _ _ Hl) as Hok.
  destruct (linked st tl [] [] Hok) as [Hn Hp]. pose proof (lo_head _ _ _ Hok).
  pose proof (lo_tail _ _ _ Hok). cbn in Hn, Hp.
  unfold threadlist_remhead, threadlist_remtail. split; tl_run; done.
Qed.
End simulation.

Section creation.
Context (st : store) (a : alists) (Hrep : rep st a).

(** New nodes and lists touch none of the existing ones. *)
Lemma links_frame (nx pv nx' pv' : gmap node (option node)) l :
  (forall n, n ∈ l -> nx' !! n = nx !! n /\ pv' !! n = pv !! n) -> links nx pv l -> links nx' pv' l.
Proof.
  induction l as [|x l IH]; [done|]. intros Hf. destruct l as [|y l]; [done|].
  intros (Hx & Hy & Hl). split; [|split].
  - by rewrite (proj1 (Hf x ltac:(set_solver))).
  - by rewrite (proj2 (Hf y ltac:(set_solver))).
  - apply IH; [|done]. intros n Hn. apply Hf. set_solver.
Qed.

Lemma sim_node_init t nx pv self :
  t <> 0 -> t ∉ al_threads a ->
  exists st', threadlistnode_init (NodeOf t) t (new_node (NodeOf t) nx pv self st) = Ret (tt, st') /\
    rep st' (mk_alists ({[t]} ∪ al_threads a) (al_lists a)).
Proof.
  intros Ht Hn. unfold threadlistnode_init, new_node. rewrite (proj2 (Z.eqb_neq t 0)) by done.
  cbn [negb]. rewrite bind_kassert. tl_run. eexists. split; [done|].
  assert (Hout : forall tl ts n, al_lists a !! tl = Some ts -> n ∈ nodes_of tl ts -> n <> NodeOf t).
  { intros tl ts n Hl [->|[->|(t' & -> & Ht')]]%node_in; [done..|]. intros [= ->].
    by eapply Hn, (al_on _ (rep_ok _ _ Hrep)). }
  destruct (rep_ok _ _ Hrep) as [Hex Hon]. split; cbn.
  - split; cbn; [done|]. intros tl ts t' Hl Ht'. apply elem_of_union_r. by eapply Hon.
  - intros tl ts Hl. pose proof (rep_list _ _ Hrep _ _ Hl) as Hok.
    apply (list_ok_frame st); cbn -[nodes_of]; [done| |by rewrite !lookup_insert_ne..|done|by rewrite !lookup_insert_ne|by rewrite !lookup_insert_ne].
    eapply links_frame; [|apply Hok]. intros n Hin.
    rewrite !lookup_insert_ne by (intros E; by eapply Hout). done.
  - intros t' [->%elem_of_singleton|Hin]%elem_of_union; [by rewrite lookup_insert_eq|].
    rewrite !lookup_insert_ne by congruence. by apply (rep_self _ _ Hrep).
  - intros t' [Hin Ho]. cbn in *. destruct (decide (t' = t)) as [->|Hne]; [by rewrite !lookup_insert_eq|].
    rewrite !lookup_insert_ne by congruence. apply (rep_off _ _ Hrep). split; [set_solver|done].
Qed.

Lemma sim_init tl g c :
  al_lists a !! tl = None ->
  exists st', threadlist_init tl (new_list tl g c st) = Ret (tt, st') /\ rep st' (set_list a tl []).
Proof.
  intros Hnone. unfold threadlist_init, new_list, new_node. tl_run. eexists. split; [done|].
  destruct (rep_ok _ _ Hrep) as [Hex Hon]. split; cbn.
  - split; cbn.
    + intros tl1 tl2 ts1 ts2 t. rewrite !lookup_insert.
      do 2 case_decide; intros; simplify_eq; try done; first [set_solver|by eapply Hex].
    + intros tl' ts t. rewrite lookup_insert. case_decide; [intros [= <-]; set_solver|apply Hon].
  - intros tl' ts. rewrite lookup_insert. case_decide as Htl; [subst tl'; intros [= <-]|intros Hl].
    + split; cbn; split_and?; simplify_map_eq; try done; constructor.
    + pose proof (rep_list _ _ Hrep _ _ Hl) as Hok.
      apply (list_ok_frame st); cbn -[nodes_of]; [done| |by rewrite !lookup_insert_ne by congruence..].
      eapply links_frame; [|apply Hok]. intros n Hin%node_in.
      rewrite !lookup_insert_ne by (intros E; destruct Hin as [?|[?|(? & ? & _)]]; congruence). done.
  - intros t Ht. rewrite !lookup_insert_ne by done. by apply (rep_self _ _ Hrep).
  - intros t Ht. rewrite !lookup_insert_ne by done. apply (rep_off _ _ Hrep).
    split; [apply Ht|]. intros tl' ts Hl. apply (proj2 Ht tl'). cbn.
    rewrite lookup_insert_ne; [done|congruence].
Qed.

Lemma sim_isempty tl ts :
  al_lists a !! tl = Some ts -> threadlist_isempty tl st = Ret (bool_decide (ts = []), st).
Proof.
  intros Hl. pose proof (lo_count _ _ _ (rep_list _ _ Hrep _ _ Hl)).
  unfold threadlist_isempty. tl_run. f_equal. f_equal. by destruct ts.
Qed.

Lemma rep_forget tl :
  al_lists a !! tl = Some [] -> rep st (mk_alists (al_threads a) (delete tl (al_lists a))).
Proof.
  intros Hl. destruct (rep_ok _ _ Hrep) as [Hex Hon]. split; cbn.
  - split; cbn; intros *; rewrite !lookup_delete_Some; [intros [_ ?] [_ ?]|intros [_ ?]]; eauto.
  - intros tl' ts [_ Hl']%lookup_delete_Some. by apply (rep_list _ _ Hrep).
  - apply (rep_self _ _ Hrep).
  - intros t [Ht Ho]. apply (rep_off _ _ Hrep). split; [done|]. intros tl' ts Hl'.
    destruct (decide (tl = tl')) as [<-|]; [rewrite Hl in Hl'; injection Hl' as <-; set_solver|].
    apply (Ho tl'). cbn. by rewrite lookup_delete_ne.
Qed.
End creation.

Lemma sim_step st a op r a' :
  rep st a -> tl_step a op r a' -> exists st', do_tl_op op st = Ret (r, st') /\ rep st' a'.
Proof.
  intros Hrep Hs. destruct Hs; cbn [do_tl_op].
  - destruct (sim_node_init st a Hrep t nx pv self) as (st' & E & Hr); [done..|].
    rewrite bind_modify, (bind_ok _ _ _ _ _ E). eauto.
  - destruct (rep_off _ _ Hrep t) as [Hn Hp]; [done|].
    destruct (rep_self _ _ Hrep t) as [_ Hself]; [by apply H|].
    unfold threadlistnode_cleanup. tl_run. eauto.
  - destruct (sim_init st a Hrep tl g c) as (st' & E & Hr); [done..|].
    rewrite bind_modify, (bind_ok _ _ _ _ _ E). eauto.
  - exists st. split; [|by apply rep_forget].
    pose proof (lo_count _ _ _ (rep_list _ _ Hrep _ _ H)).
    unfold threadlist_cleanup, threadlist_isempty. tl_run. done.
  - rewrite (bind_ok _ _ _ _ _ (sim_isempty st a Hrep tl ts H)). eauto.
  - destruct (sim_insert st a Hrep tl [] ts t (threadlist_insertafternode (HeadOf tl) t))
      as (st' & E & Hr); [done..|by left|]. unfold threadlist_addhead.
    rewrite (bind_ok _ _ _ _ _ E). eauto.
  - destruct (sim_insert st a Hrep tl ts [] t (threadlist_insertbeforenode t (TailOf tl)))
      as (st' & E & Hr); [by rewrite app_nil_r|done|by rewrite app_nil_r|by right|].
    unfold threadlist_addtail. rewrite (bind_ok _ _ _ _ _ E). eauto.
  - destruct (sim_remhead st a Hrep tl t ts) as (st' & E & Hr); [done|].
    rewrite (bind_ok _ _ _ _ _ E). eauto.
  - rewrite (bind_ok _ _ _ _ _ (proj1 (sim_rem_empty st a Hrep tl H))). eauto.
  - destruct (sim_remtail st a Hrep tl t ts) as (st' & E & Hr); [done|].
    rewrite (bind_ok _ _ _ _ _ E). eauto.
  - rewrite (bind_ok _ _ _ _ _ (proj2 (sim_rem_empty st a Hrep tl H))). eauto.
  - destruct (sim_insert st a Hrep tl (l1 ++ [o]) l2 t (threadlist_insertafternode (NodeOf o) t))
      as (st' & E & Hr); rewrite <- ?(assoc_L (++)); try done.
    { left. unfold before. by rewrite last_snoc. }
    unfold threadlist_insertafter. rewrite (bind_ok _ _ _ _ _ E). rewrite <- (assoc_L (++)) in Hr. eauto.
  - destruct (sim_insert st a Hrep tl l1 (o :: l2) t (threadlist_insertbeforenode t (NodeOf o)))
      as (st' & E & Hr); [done..|by right|].
    unfold threadlist_insertbefore. rewrite (bind_ok _ _ _ _ _ E). eauto.
  - destruct (sim_remove st a Hrep tl l1 t l2 H) as (st' & E & Hr & _).
    unfold threadlist_remove. rewrite (bind_ok _ _ _ _ _ E). eauto.
Qed.

(** C38. Every sequence of list operations that is meaningful on sequences of
    threads (threads are added only while they are on no list, lists are
    cleaned up only when empty) runs on the pointers without a fault or a
    failed assertion, gives the same answers, and leaves the pointers of all
    lists representing the resulting sequences, with exact counts; so the
    lists are first-in first-out when used with [addtail] and [remhead]. *)
Theorem threadlist_refines_sequences st a ops rs a'
    (Hrep : rep st a) (Htr : tl_trace a ops rs a') :
  exists st', run_tl_ops ops st = Ret (rs, st') /\ rep st' a'.
Proof.
  revert st Hrep. induction Htr as [a|a op r a1 ops rs a2 Hs _ IH]; intros st Hrep.
  { by exists st. }
  cbn [run_tl_ops]. destruct (sim_step st a op r a1 Hrep Hs) as (st1 & E & Hr1).
  rewrite (bind_ok _ _ _ _ _ E). destruct (IH st1 Hr1) as (st2 & E2 & Hr2).
  rewrite (bind_ok _ _ _ _ _ E2). by exists st2.
Qed.

(** No threads, no lists. *)
Lemma rep_empty : rep (mk_store ∅ ∅ ∅ ∅) (mk_alists ∅ ∅).
Proof.
  split; [split| | |]; cbn [al_lists al_threads].
  1-3: intros *; by rewrite lookup_empty.
  - intros t Ht. by apply not_elem_of_empty in Ht.
  - intros t [Ht _]. by apply not_elem_of_empty in Ht.
Qed.

(** Two threads on a list: first in, first out. *)
Lemma threadlist_refines_sequences_witness :
  exists st', run_tl_ops [ONodeInit 1 (Some (HeadOf 9)) None None; ONodeInit 2 None None (Some 7);
                          OInit 5 (Some (NodeOf 1)) 13; OAddTail 5 1; OAddTail 5 2; ORemHead 5;
                          OIsEmpty 5; ONodeCleanup 1] (mk_store ∅ ∅ ∅ ∅) =
      Ret ([ADone; ADone; ADone; ADone; ADone; AThread (Some 1); ABool false; ADone], st') /\
    rep st' (mk_alists {[2; 1]} {[5 := [2]]}).
Proof.
  refine (threadlist_refines_sequences _ _ _ _ _ rep_empty _).
  eapply tt_cons; [apply ts_node_init; [done|set_solver]|].
  eapply tt_cons; [apply ts_node_init; [done|set_solver]|].
  eapply tt_cons; [apply ts_init; done|].
  eapply tt_cons; [apply (ts_addtail _ 5 []); [done|split; [set_solver|]|done]|].
  { cbn. intros tl ts. rewrite lookup_insert_Some. intros [[_ <-]|[_ ?%lookup_empty_Some]]; set_solver. }
  eapply tt_cons; [apply (ts_addtail _ 5 [1]); [done|split; [set_solver|]|done]|].
  { cbn. intros tl ts. rewrite insert_insert_eq, lookup_insert_Some.
    intros [[_ <-]|[_ ?%lookup_empty_Some]]; set_solver. }
  eapply tt_cons; [apply (ts_remhead _ 5 1 [2]); done|].
  eapply tt_cons; [apply (ts_isempty _ 5 [2]); done|].
  eapply tt_cons; [apply ts_node_cleanup; split; [set_solver|]|].
  { cbn. intros tl ts. rewrite !insert_insert_eq, lookup_insert_Some.
    intros [[_ <-]|[_ ?%lookup_empty_Some]]; set_solver. }
  match goal with |- tl_trace ?x _ _ ?y => replace y with x; [apply tt_nil|] end.
  unfold set_list. cbn. rewrite !insert_insert_eq. f_equal.
Defined.

(** ** The traversal macros *)

(** [THREADLIST_FORALL(itervar, tl)] with a body that records the thread. *)
Fixpoint forall_loop (fuel : nat) (itervar : option Z) : M store (list Z) :=
  match fuel with
  | O => fun _ => NoFuel
  | S fuel' =>
      let* t := deref itervar in
      let* nx := tln_next (NodeOf t) in
      match nx with
      | None => ret []
      | Some n =>
          let* self := tln_self n in
          let* l := forall_loop fuel' self in
          ret (t :: l)
      end
  end.
Definition THREADLIST_FORALL (fuel : nat) (tl : Z) : M store (list Z) :=
  let* p := tln_next (HeadOf tl) in
  let* n := deref p in
  let* self := tln_self n in
  forall_loop fuel self.

Lemma forall_loop_faults st a tl l1 l2 fuel :
  rep st a -> al_lists a !! tl = Some (l1 ++ l2) ->
  (length l2 < fuel)%nat ->
  (let* self := tln_self (after tl l2) in forall_loop fuel self) st = Fault.
Proof.
  intros Hrep. revert l1 fuel. induction l2 as [|t l2 IH]; intros l1 fuel Hl Hf;
    unfold bind at 1, tln_self at 1, field; mrun.
  - change (after tl []) with (TailOf tl).
    destruct (lo_selfs _ _ _ (rep_list _ _ Hrep _ _ Hl)) as [_ ->]. destruct fuel; [lia|]. done.
  - change (after tl (t :: l2)) with (NodeOf t).
    assert (t ∈ al_threads a) as Hin by (eapply (al_on _ (rep_ok _ _ Hrep)); [done|set_solver]).
    destruct (rep_self _ _ Hrep t Hin) as [_ ->]. destruct fuel as [|fuel]; [lia|].
    rewrite cons_middle, (assoc_L (++)) in Hl. cbn in Hf.
    specialize (IH _ fuel Hl ltac:(lia)).
    pose proof (linked st tl _ _ (rep_list _ _ Hrep _ _ Hl)) as [Hn _].
    unfold before in Hn. rewrite last_snoc in Hn. cbn in Hn.
    cbn [ret forall_loop deref]. rewrite bind_ret. unfold bind at 1, tln_next, field. mrun.
    rewrite Hn. cbn [ret]. unfold bind in IH |- *.
    destruct (tln_self (after tl l2) st) as [[self s1]| | |]; [|done..]. by rewrite IH.
Qed.

(** [THREADLIST_FORALL] never completes: after the last thread it takes
    the thread of the tail node, which is null, and reads its list node; it
    should stop, as the header says, when the node it looks at has no next
    node. *)
Theorem threadlist_forall_faults st a tl ts fuel
    (Hrep : rep st a) (Hl : al_lists a !! tl = Some ts) (Hfuel : (length ts < fuel)%nat) :
  THREADLIST_FORALL fuel tl st = Fault.
Proof.
  pose proof (linked st tl [] ts (rep_list _ _ Hrep _ _ Hl)) as [Hn _].
  change (before tl []) with (HeadOf tl) in Hn. unfold THREADLIST_FORALL.
  rewrite (bind_ok _ _ _ (Some (after tl ts)) st) by (unfold tln_next, field; mrun; by rewrite Hn).
  cbn [deref]. rewrite bind_ret. by apply (forall_loop_faults st a tl []).
Qed.

Lemma threadlist_forall_faults_witness :
  exists st, rep st (mk_alists ∅ {[5 := []]}) /\ THREADLIST_FORALL 1 5 st = Fault.
Proof.
  destruct (sim_init (mk_store ∅ ∅ ∅ ∅) (mk_alists ∅ ∅) rep_empty 5 None 0) as (st & _ & Hr); [done|].
  exists st. split; [exact Hr|].
  apply (threadlist_forall_faults st _ 5 [] 1 Hr); [reflexivity|cbn; lia].
Defined.
