(* ===== verification/Synch.v ===== *)
(** * Synchronisation primitives (kern/thread/synch.c, wait channels of thread.c)

    Semaphores, locks and condition variables on spinlocks and wait channels,
    under every interleaving of single accesses to shared data.  The body of a
    C function is the list of its accesses ([instr]); a call of another
    function is inlined as a call.  A thread runs a client program, given by
    the parameter [body], that may call any of the operations; the theorems
    hold for every client that keeps to the documented rules of use.  A spinlock
    is held by a thread: the processor that holds it runs no other thread
    until it is released, since interrupts are off.  The assertions that a
    pointer is not null, and that the caller is not an interrupt handler, are
    left out. *)

From stdpp Require Import base numbers list gmap functions.
From Stdlib Require Import ZArith Lia.
From S2P Require Import Prelude.

(** ** Data *)

(** The wait channel of a lock, of a semaphore or of a condition variable, and
    the spinlocks: [lk_spinlock], [sem_lock], and [wc_lock] of a channel. *)
Inductive wchan := WLock (l : Z) | WSem (s : Z) | WCv (c : Z).
Inductive spinlock := SLock (l : Z) | SSem (s : Z) | SWc (w : wchan).

#[global] Instance wchan_eq_dec : EqDecision wchan.
Proof. solve_decision. Defined.
#[global] Instance spinlock_eq_dec : EqDecision spinlock.
Proof. solve_decision. Defined.

(** One access to shared data by the running thread. [SetOwner l true] stores
    [curthread], [SetOwner l false] stores the null pointer; [WhileHold] and
    [WhileZero] are the tests of the two loops; [RemHead] and [RemAll] empty a
    channel into the local variables of the waker, and [MakeRunnable] is the
    rest of the waker, one thread at a time. *)
Inductive instr :=
  | AssertNotHeld (l : Z) | AssertHeld (l : Z) | AssertOwner (l : Z)
  | SpinAcquire (x : spinlock) | SpinRelease (x : spinlock)
  | WhileHold (l : Z) | SetHold (l : Z) (b : bool) | SetOwner (l : Z) (b : bool)
  | WhileZero (s : Z) | AssertPos (s : Z) | DecCount (s : Z) | IncCount (s : Z)
  | Sleep (w : wchan)
  | RemHead (w : wchan) | RemAll (w : wchan) | MakeRunnable.

#[global] Instance instr_eq_dec : EqDecision instr.
Proof. solve_decision. Defined.

(** What a client calls. *)
Inductive op :=
  | Nop
  | OpAcquire (l : Z) | OpRelease (l : Z)
  | OpWait (c l : Z) | OpSignal (c l : Z) | OpBroadcast (c l : Z)
  | OpP (s : Z) | OpV (s : Z).

(** ** The functions *)

Definition wchan_lock (w : wchan) : list instr := [SpinAcquire (SWc w)].
Definition wchan_sleep (w : wchan) : list instr := [Sleep w].

Definition wchan_wakeone (w : wchan) : list instr :=
  [SpinAcquire (SWc w); RemHead w; SpinRelease (SWc w); MakeRunnable].

Definition wchan_wakeall (w : wchan) : list instr :=
  [SpinAcquire (SWc w); RemAll w; SpinRelease (SWc w); MakeRunnable].

Definition P_wait (s : Z) : list instr :=
  wchan_lock (WSem s) ++ [SpinRelease (SSem s)] ++ wchan_sleep (WSem s) ++
  [SpinAcquire (SSem s)].

Definition P (s : Z) : list instr :=
  [SpinAcquire (SSem s); WhileZero s; AssertPos s; DecCount s; SpinRelease (SSem s)].

Definition V (s : Z) : list instr :=
  [SpinAcquire (SSem s); IncCount s; AssertPos s] ++ wchan_wakeone (WSem s) ++
  [SpinRelease (SSem s)].

Definition acquire_wait (l : Z) : list instr :=
  wchan_lock (WLock l) ++ [SpinRelease (SLock l)] ++ wchan_sleep (WLock l) ++
  [SpinAcquire (SLock l)].

Definition lock_acquire (l : Z) : list instr :=
  [AssertNotHeld l; SpinAcquire (SLock l); WhileHold l; SetHold l true; SetOwner l true;
   SpinRelease (SLock l)].

Definition lock_release (l : Z) : list instr :=
  [AssertHeld l; SpinAcquire (SLock l); SetHold l false; SetOwner l false] ++
  wchan_wakeone (WLock l) ++ [SpinRelease (SLock l)].

Definition cv_wait (c l : Z) : list instr :=
  [AssertOwner l] ++ wchan_lock (WCv c) ++ lock_release l ++ wchan_sleep (WCv c) ++
  lock_acquire l.

Definition cv_signal (c l : Z) : list instr := AssertOwner l :: wchan_wakeone (WCv c).
Definition cv_broadcast (c l : Z) : list instr := AssertOwner l :: wchan_wakeall (WCv c).

Definition code (o : op) : list instr :=
  match o with
  | Nop => []
  | OpAcquire l => lock_acquire l
  | OpRelease l => lock_release l
  | OpWait c l => cv_wait c l
  | OpSignal c l => cv_signal c l
  | OpBroadcast c l => cv_broadcast c l
  | OpP s => P s
  | OpV s => V s
  end.

Section machine.
(** The client: [C] is the local state of a thread, [G] the shared data of the
    client, [I] what is chosen from outside. *)
Context {C G I : Type}.

(** [t_rest] is what remains of the running call, [t_target] the threads that
    it has taken from a channel, [t_run] is false from [wchan_sleep] until
    [thread_make_runnable].  [t_held] records the locks that the thread has
    asked for and not given back; no code reads it. *)
Record thread := mk_thread {
  t_rest : list instr;
  t_target : list Z;
  t_run : bool;
  t_held : gset Z;
  t_client : C
}.

Record st := mk_st {
  spin : spinlock -> option Z;
  wc_threads : wchan -> list Z;
  hold : Z -> bool;
  owner : Z -> option Z;
  sem_count : Z -> Z;
  threads : gmap Z thread;
  shared : G
}.

Definition set_spin (s : st) x := mk_st x (wc_threads s) (hold s) (owner s) (sem_count s) (threads s) (shared s).
Definition set_wc (s : st) x := mk_st (spin s) x (hold s) (owner s) (sem_count s) (threads s) (shared s).
Definition set_hold (s : st) x := mk_st (spin s) (wc_threads s) x (owner s) (sem_count s) (threads s) (shared s).
Definition set_owner (s : st) x := mk_st (spin s) (wc_threads s) (hold s) x (sem_count s) (threads s) (shared s).
Definition set_count (s : st) x := mk_st (spin s) (wc_threads s) (hold s) (owner s) x (threads s) (shared s).
Definition set_threads (s : st) x := mk_st (spin s) (wc_threads s) (hold s) (owner s) (sem_count s) x (shared s).
Definition set_shared (s : st) x := mk_st (spin s) (wc_threads s) (hold s) (owner s) (sem_count s) (threads s) x.

Definition with_rest (th : thread) k := mk_thread k (t_target th) (t_run th) (t_held th) (t_client th).
Definition with_target (th : thread) k ts := mk_thread k ts (t_run th) (t_held th) (t_client th).
Definition with_run (th : thread) b := mk_thread (t_rest th) (t_target th) b (t_held th) (t_client th).
Definition upd (s : st) (t : Z) (th : thread) : st := set_threads s (<[t := th]> (threads s)).

Definition lock_do_i_hold (s : st) (t l : Z) : bool := hold s l && bool_decide (owner s l = Some t).

(** [None]: the thread spins on a spinlock that another one has. *)
Definition spinlock_acquire (t : Z) (th : thread) (x : spinlock) (k : list instr) (s : st) : option (outcome st) :=
  match spin s x with
  | None => Some (Ret (upd (set_spin s (<[x := Some t]> (spin s))) t (with_rest th k)))
  | Some u => if u =? t then Some Panic else None
  end.

Definition spinlock_release (t : Z) (th : thread) (x : spinlock) (k : list instr) (s : st) : option (outcome st) :=
  if bool_decide (spin s x = Some t) then
    Some (Ret (upd (set_spin s (<[x := None]> (spin s))) t (with_rest th k)))
  else Some Panic.

(** [thread_switch(S_SLEEP, wc)]: the thread goes to the end of the list and
    unlocks the channel.  It cannot be made runnable before it has left the
    processor, since its run queue is locked until then. *)
Definition switch_sleep (t : Z) (th : thread) (w : wchan) (k : list instr) (s : st) : option (outcome st) :=
  if bool_decide (spin s (SWc w) = Some t) then
    Some (Ret (upd (set_spin (set_wc s (<[w := wc_threads s w ++ [t]]> (wc_threads s)))
                             (<[SWc w := None]> (spin s)))
                   t (with_run (with_rest th k) false)))
  else Some Panic.

(** The next of the threads that the waker has taken off a channel. *)
Definition make_runnable (t : Z) (th : thread) (k : list instr) (s : st) : option (outcome st) :=
  match t_target th with
  | [] => Some (Ret (upd s t (with_rest th k)))
  | u :: us =>
      let s := upd s t (with_target th (MakeRunnable :: k) us) in
      match threads s !! u with
      | Some thu => Some (Ret (upd s u (with_run thu true)))
      | None => Some Fault
      end
  end.

(** The next access of thread [t], whose record is [th], with [k] left after it. *)
Definition exec (t : Z) (th : thread) (i : instr) (k : list instr) (s : st) : option (outcome st) :=
  let go s := Some (Ret (upd s t (with_rest th k))) in
  let check (b : bool) := if b then go s else Some Panic in
  match i with
  | AssertNotHeld l => check (negb (lock_do_i_hold s t l))
  | AssertHeld l => check (lock_do_i_hold s t l)
  | AssertOwner l => check (bool_decide (owner s l = Some t))
  | SpinAcquire x => spinlock_acquire t th x k s
  | SpinRelease x => spinlock_release t th x k s
  | WhileHold l =>
      if hold s l then Some (Ret (upd s t (with_rest th (acquire_wait l ++ WhileHold l :: k)))) else go s
  | SetHold l b => go (set_hold s (<[l := b]> (hold s)))
  | SetOwner l b => go (set_owner s (<[l := if b then Some t else None]> (owner s)))
  | WhileZero x =>
      if sem_count s x =? 0 then Some (Ret (upd s t (with_rest th (P_wait x ++ WhileZero x :: k)))) else go s
  | AssertPos x => check (0 <? sem_count s x)
  | DecCount x => go (set_count s (<[x := s32 (sem_count s x - 1)]> (sem_count s)))
  | IncCount x => go (set_count s (<[x := s32 (sem_count s x + 1)]> (sem_count s)))
  | Sleep w => switch_sleep t th w k s
  | RemHead w =>
      Some (Ret (upd (set_wc s (<[w := tail (wc_threads s w)]> (wc_threads s)))
                     t (with_target th k (take 1 (wc_threads s w)))))
  | RemAll w =>
      Some (Ret (upd (set_wc s (<[w := []]> (wc_threads s))) t (with_target th k (wc_threads s w))))
  | MakeRunnable => make_runnable t th k s
  end.

(** The client's next piece of code and the call at its end. *)
Context (body : Z -> I -> C -> G -> outcome (C * G * op)).

Definition held_after (o : op) (h : gset Z) : gset Z :=
  match o with
  | OpAcquire l => {[l]} ∪ h
  | OpRelease l => h ∖ {[l]}
  | _ => h
  end.

Definition step (t : Z) (i : I) (s : st) : option (outcome st) :=
  match threads s !! t with
  | None => None
  | Some th =>
      if negb (t_run th) then None
      else match t_rest th with
      | a :: k => exec t th a k s
      | [] =>
          match body t i (t_client th) (shared s) with
          | Ret (c, g, o) =>
              Some (Ret (upd (set_shared s g) t
                             (mk_thread (code o) [] true (held_after o (t_held th)) c)))
          | Panic => Some Panic
          | Fault => Some Fault
          | NoFuel => Some NoFuel
          end
      end
  end.

(** The rules of use: a thread does not acquire a lock that it has, and
    releases, waits and signals with a lock that it has. *)
Definition allowed (h : gset Z) (o : op) : Prop :=
  match o with
  | OpAcquire l => l ∉ h
  | OpRelease l | OpWait _ l | OpSignal _ l | OpBroadcast _ l => l ∈ h
  | _ => True
  end.

(** The client keeps to the rules in the next step of [t], and does not raise
    a semaphore beyond the largest [int]. *)
Definition obeys (t : Z) (i : I) (s : st) : Prop :=
  (forall th c g o, threads s !! t = Some th -> t_rest th = [] ->
     body t i (t_client th) (shared s) = Ret (c, g, o) -> allowed (t_held th) o) /\
  (forall th x k, threads s !! t = Some th -> t_rest th = IncCount x :: k ->
     sem_count s x < 2147483647).

(** No call is under way, nothing is held, nobody sleeps. *)
Definition idle (th : thread) : Prop :=
  t_rest th = [] /\ t_target th = [] /\ t_run th = true /\ t_held th = ∅.

Record initial (s : st) : Prop := {
  ini_spin : forall x, spin s x = None;
  ini_wc : forall w, wc_threads s w = [];
  ini_hold : forall l, hold s l = false;
  ini_owner : forall l, owner s l = None;
  ini_count : forall x, 0 <= sem_count s x < 2147483648;
  ini_threads : forall t th, threads s !! t = Some th -> idle th
}.

Inductive reach (s0 : st) : st -> Prop :=
  | reach_init : initial s0 -> reach s0 s0
  | reach_step s t i s' : reach s0 s -> obeys t i s -> step t i s = Some (Ret s') -> reach s0 s'.

End machine.

Arguments thread : clear implicits.
Arguments st : clear implicits.
