(* ===== verification/SynchSpec.v ===== *)
(** * Synchronisation primitives: invariant and theorems

    The invariant of the machine of Synch.v under every interleaving.  What a
    thread holds is read off the rest of the call that it is in, so that the
    invariant relates each spinlock, lock and channel to the places in the code
    where the threads are. *)

From stdpp Require Import base numbers list gmap functions.
From Stdlib Require Import ZArith Lia.
From S2P Require Import Prelude Synch.

(** ** What the rest of a call says about the thread *)

Fixpoint holds_spin (x : spinlock) (k : list instr) : bool :=
  match k with
  | [] => false
  | SpinAcquire y :: k => if decide (x = y) then false else holds_spin x k
  | SpinRelease y :: k => if decide (x = y) then true else holds_spin x k
  | Sleep w :: k => if decide (x = SWc w) then true else holds_spin x k
  | _ :: k => holds_spin x k
  end.

(** [hold] was set by this thread; [owner] is this thread.  With no more
    writes to come, the thread has the locks in [h]. *)
Fixpoint holds_lock (l : Z) (k : list instr) (h : gset Z) : bool :=
  match k with
  | [] => bool_decide (l ∈ h)
  | SetHold m b :: k => if decide (l = m) then negb b else holds_lock l k h
  | _ :: k => holds_lock l k h
  end.

Fixpoint owns (l : Z) (k : list instr) (h : gset Z) : bool :=
  match k with
  | [] => bool_decide (l ∈ h)
  | SetOwner m b :: k => if decide (l = m) then negb b else owns l k h
  | _ :: k => owns l k h
  end.

(** Before it can sleep, the thread takes what the channel's sleepers wait
    for, or wakes one of them. *)
Fixpoint helps (w : wchan) (k : list instr) : bool :=
  match k with
  | [] => false
  | Sleep _ :: _ => false
  | SetHold l b :: k => if decide (w = WLock l) then b else helps w k
  | DecCount x :: k => if decide (w = WSem x) then true else helps w k
  | IncCount x :: k => if decide (w = WSem x) then false else helps w k
  | RemHead v :: k => if decide (w = v) then true else helps w k
  | _ :: k => helps w k
  end.

(** The threads in the local variables are made runnable before more are taken. *)
Fixpoint drains (k : list instr) : bool :=
  match k with
  | [] => false
  | MakeRunnable :: _ => true
  | RemHead _ :: _ | RemAll _ :: _ => false
  | _ :: k => drains k
  end.

(** The order in which spinlocks are taken. *)
Definition rank (x : spinlock) : Z :=
  match x with SWc (WCv _) => 0 | SLock _ | SSem _ => 1 | SWc _ => 2 end.

(** The spinlock under which a channel's condition changes. *)
Definition guard (w : wchan) : option spinlock :=
  match w with WLock l => Some (SLock l) | WSem x => Some (SSem x) | WCv _ => None end.

Definition under_guard (w : wchan) (k : list instr) : Prop :=
  match guard w with Some x => holds_spin x k = true | None => True end.

(** The instructions that rely on the test just before them. *)
Definition guarded (i : instr) (k : list instr) : Prop :=
  match k with
  | SetHold l true :: _ => i = WhileHold l
  | AssertPos x :: _ => i = WhileZero x \/ i = IncCount x
  | DecCount x :: _ => i = AssertPos x
  | _ => True
  end.

Definition commits (k : list instr) : Prop :=
  forall w, Sleep w ∈ k ->
    match guard w with
    | Some x => holds_spin (SWc w) k = true \/ holds_spin x k = true
    | None => True
    end.

(** The rest of a call has no sleep on a channel with a guard. *)
Definition only_cv (k : list instr) : bool :=
  forallb (fun i => match i with Sleep w => bool_decide (guard w = None) | _ => true end) k.

Definition instr_ok (h : gset Z) (i : instr) (k : list instr) : Prop :=
  match i with
  | AssertNotHeld l => owns l k h = false
  | AssertHeld l => holds_lock l k h = true /\ owns l k h = true
  | AssertOwner l => owns l k h = true
  | SpinAcquire x =>
      holds_spin x k = true /\ (forall y, holds_spin y k = true -> y = x \/ rank y < rank x) /\
      match x with SLock l => owns l k h = holds_lock l k h | _ => True end
  | SpinRelease x => holds_spin x k = false
  | WhileHold l =>
      head k = Some (SetHold l true) /\ owns l k h = false /\ only_cv k = true /\
      (forall w, helps w k = true -> w = WLock l) /\ forall y, holds_spin y k = true <-> y = SLock l
  | SetHold l b =>
      holds_spin (SLock l) k = true /\ holds_lock l k h = b /\
      (b = false -> helps (WLock l) k = true)
  | SetOwner l b => holds_spin (SLock l) k = true /\ owns l k h = b /\ holds_lock l k h = b
  | WhileZero x =>
      head k = Some (AssertPos x) /\ only_cv k = true /\ helps (WSem x) k = true /\
      (forall w, helps w k = true -> w = WSem x) /\ forall y, holds_spin y k = true <-> y = SSem x
  | AssertPos x | DecCount x => holds_spin (SSem x) k = true
  | IncCount x => holds_spin (SSem x) k = true /\ helps (WSem x) k = true
  | Sleep w =>
      (forall y, holds_spin y k = false) /\
      match guard w with Some _ => helps w k = true | None => True end
  | RemHead w =>
      holds_spin (SWc w) k = true /\ under_guard w k /\ drains k = true /\ only_cv k = true
  | RemAll w =>
      holds_spin (SWc w) k = true /\ guard w = None /\ drains k = true
  | MakeRunnable => True
  end.

Fixpoint wfk (h : gset Z) (k : list instr) : Prop :=
  match k with
  | [] => True
  | i :: k' => instr_ok h i k' /\ guarded i k' /\ commits k /\ wfk h k'
  end.

Lemma only_cv_commits k : only_cv k = true -> commits k.
Proof.
  intros H w Hw. unfold only_cv in H. rewrite forallb_forall in H.
  apply list_elem_of_In in Hw. specialize (H _ Hw). cbn in H. apply bool_decide_eq_true in H. by rewrite H.
Qed.

Ltac code_solve :=
  intros; cbn in *; repeat (case_decide || case_bool_decide); simplify_eq; try done;
  try set_solver; try (cbn; auto; lia).

Lemma wfk_code (h : gset Z) (o : op) : allowed h o -> wfk (held_after o h) (code o).
Proof.
  intros Ha. destruct o; cbn [allowed held_after] in *; unfold code, cv_wait, cv_signal, cv_broadcast,
    lock_acquire, lock_release, P, V, wchan_lock, wchan_sleep, wchan_wakeone, wchan_wakeall; cbn [app].
  all: cbn [wfk instr_ok guarded guard under_guard head]; try split_and!.
  all: try by apply only_cv_commits.
  all: try by code_solve.
Qed.

Lemma only_cv_elem k w : only_cv k = true -> Sleep w ∈ k -> guard w = None.
Proof.
  unfold only_cv. rewrite forallb_forall. intros H Hw%list_elem_of_In.
  specialize (H _ Hw). cbn in H. by apply bool_decide_eq_true in H.
Qed.

(** The sleep that a loop adds is under the spinlock of the loop or its channel. *)
Lemma loop_commits j k w x :
  guard w = Some x -> only_cv k = true ->
  holds_spin (SWc w) (j ++ k) = true \/ holds_spin x (j ++ k) = true ->
  (forall v, Sleep v ∈ j -> v = w) -> commits (j ++ k).
Proof.
  intros Hg Hk Hs Hj v [Hv|Hv]%elem_of_app.
  - apply Hj in Hv as ->. by rewrite Hg.
  - by rewrite (only_cv_elem _ _ Hk Hv).
Qed.

Ltac loop_commit Hk w :=
  match goal with
  | |- commits _ => by apply only_cv_commits
  | |- commits (?a :: ?b :: ?c :: ?d :: ?k) =>
      apply (loop_commits [a; b; c; d] k w _ eq_refl Hk); [cbn|set_solver]
  | |- commits (?a :: ?b :: ?c :: ?k) =>
      apply (loop_commits [a; b; c] k w _ eq_refl Hk); [cbn|set_solver]
  | |- commits (?a :: ?b :: ?k) =>
      apply (loop_commits [a; b] k w _ eq_refl Hk); [cbn|set_solver]
  | _ => idtac
  end.

(** The holder of exactly one spinlock. *)
Definition holds_only (x : spinlock) (k : list instr) : Prop :=
  forall y, holds_spin y k = true <-> y = x.

Lemma holds_only_other x y k : holds_only x k -> y <> x -> holds_spin y k = false.
Proof. intros Hs Hy. destruct (holds_spin y k) eqn:E; [|done]. by apply Hs in E. Qed.

Ltac loop_solve Hs Hc w :=
  try loop_commit Hc w;
  intros; cbn in *; repeat case_decide; simplify_eq; auto; try done;
  try (eapply holds_only_other; [exact Hs|done]);
  try (match goal with H : holds_spin _ _ = true |- _ => apply Hs in H; subst; by auto end);
  try (right; cbn; lia).

Lemma wfk_acquire_wait h l k :
  wfk h (WhileHold l :: k) -> wfk h (acquire_wait l ++ WhileHold l :: k).
Proof.
  intros Hw. pose proof Hw as ((Hk & Ho & Hcv & _ & Hs) & _ & _ & _).
  destruct k as [|i k]; [done|]. cbn in Hk. injection Hk as ->.
  pose proof (proj2 (Hs (SLock l)) eq_refl) as Hsl.
  assert (Hc : only_cv (WhileHold l :: SetHold l true :: k) = true) by done.
  cbn [acquire_wait wchan_lock wchan_sleep app wfk instr_ok guarded guard].
  split_and!; try done; try apply Hw.
  all: loop_solve Hs Hc (WLock l).
Qed.

Lemma wfk_P_wait h x k :
  wfk h (WhileZero x :: k) -> wfk h (P_wait x ++ WhileZero x :: k).
Proof.
  intros Hw. pose proof Hw as ((Hk & Hcv & Hh & _ & Hs) & _ & _ & _).
  destruct k as [|i k]; [done|]. cbn in Hk. injection Hk as ->.
  pose proof (proj2 (Hs (SSem x)) eq_refl) as Hsl.
  assert (Hc : only_cv (WhileZero x :: AssertPos x :: k) = true) by done.
  cbn [P_wait wchan_lock wchan_sleep app wfk instr_ok guarded guard].
  split_and!; try done; try apply Hw.
  all: loop_solve Hs Hc (WSem x).
Qed.

Section invariant.
Context {C G I : Type}.
Implicit Types (s : st C G) (th : thread C).

(** ** Views of the state, total in the thread *)
Definition rest s t : list instr := default [] (t_rest <$> threads s !! t).
Definition held s t : gset Z := default ∅ (t_held <$> threads s !! t).
Definition target s t : list Z := default [] (t_target <$> threads s !! t).
Definition running s t : bool := default true (t_run <$> threads s !! t).

Definition on_channel s t : Prop := exists w, t ∈ wc_threads s w.

(** How many threads could go on that wait on a channel. *)
Definition units s w : Z :=
  match w with
  | WLock l => if hold s l then 0 else 1
  | WSem x => sem_count s x
  | WCv _ => 0
  end.

Definition helper s w t : Prop := helps w (rest s t) = true /\ ~ on_channel s t.
Definition at_least (n : Z) (Q : Z -> Prop) : Prop :=
  exists ts, NoDup ts /\ n <= zlength ts /\ Forall Q ts.
Definition waits s w : Prop := wc_threads s w <> [] \/ exists t, Sleep w ∈ rest s t.

Definition head_ok s (k : list instr) : Prop :=
  match k with
  | SetHold l true :: _ => hold s l = false
  | AssertPos x :: _ | DecCount x :: _ => 0 < sem_count s x
  | _ => True
  end.

(** A thread that does not run is on one channel, or in the hands of a waker. *)
Record sleep_ok s : Prop := {
  so_nodup : forall w, NoDup (wc_threads s w);
  so_chan : forall w t, t ∈ wc_threads s w ->
    running s t = false /\ (forall v, t ∈ wc_threads s v -> v = w) /\
    (guard w <> None -> helps w (rest s t) = true) /\
    (forall u, t ∉ target s u);
  so_target : forall t u, u ∈ target s t ->
    running s u = false /\ (forall t', u ∈ target s t' -> t' = t) /\ ~ on_channel s u;
  so_tnodup : forall t, NoDup (target s t);
  so_drain : forall t, target s t <> [] -> drains (rest s t) = true;
  so_place : forall t, running s t = false -> on_channel s t \/ exists u, t ∈ target s u;
  so_spins : forall t x, running s t = false -> holds_spin x (rest s t) = false
}.

Record Inv s : Prop := {
  i_wf : forall t, wfk (held s t) (rest s t);
  i_spin : forall x t, spin s x = Some t <-> holds_spin x (rest s t) = true;
  i_owner : forall l t, owner s l = Some t <-> owns l (rest s t) (held s t) = true;
  i_hold : forall l, hold s l = true <-> exists t, holds_lock l (rest s t) (held s t) = true;
  i_excl : forall l t u, holds_lock l (rest s t) (held s t) = true ->
    holds_lock l (rest s u) (held s u) = true -> t = u;
  i_head : forall t, head_ok s (rest s t);
  i_count : forall x, 0 <= sem_count s x < 2147483648;
  i_sleep : sleep_ok s;
  i_wake : forall w, waits s w -> at_least (units s w) (helper s w)
}.

Lemma initial_inv s : initial s -> Inv s.
Proof.
  intros Hi.
  assert (Hr : forall t, rest s t = [] /\ held s t = ∅ /\ target s t = [] /\ running s t = true).
  { intros t. unfold rest, held, target, running. destruct (threads s !! t) eqn:E; [|done].
    destruct (ini_threads s Hi _ _ E) as (? & ? & ? & ?). cbn. auto. }
  assert (Hr1 := fun t => proj1 (Hr t)). assert (Hr2 := fun t => proj1 (proj2 (Hr t))).
  assert (Hr3 := fun t => proj1 (proj2 (proj2 (Hr t)))). assert (Hr4 := fun t => proj2 (proj2 (proj2 (Hr t)))).
  destruct Hi as [H1 H2 H3 H4 H5 _].
  split; [..|split|]; unfold waits, on_channel; intros *; rewrite ?Hr1, ?Hr2, ?Hr3, ?Hr4, ?H1, ?H2, ?H3, ?H4;
    cbn; try done; try apply NoDup_nil_2; try by intros ?%elem_of_nil.
  - split; [done|]. by intros [t Ht]; rewrite Hr1, Hr2 in Ht.
  - intros [?|[t Ht]]; [done|]. rewrite Hr1 in Ht. by apply elem_of_nil in Ht.
Qed.

(** ** The effect of one access, as a change of the views *)

Definition next s t (i : instr) (k : list instr) : list instr :=
  match i with
  | WhileHold l => if hold s l then acquire_wait l ++ WhileHold l :: k else k
  | WhileZero x => if sem_count s x =? 0 then P_wait x ++ WhileZero x :: k else k
  | MakeRunnable => match target s t with [] => k | _ => MakeRunnable :: k end
  | _ => k
  end.

Record effect t (i : instr) (k : list instr) s s' : Prop := {
  e_rest : forall u, rest s' u = if decide (u = t) then next s t i k else rest s u;
  e_held : forall u, held s' u = held s u;
  e_target : forall u, target s' u =
    if decide (u = t) then
      match i with
      | RemHead w => take 1 (wc_threads s w)
      | RemAll w => wc_threads s w
      | MakeRunnable => tail (target s t)
      | _ => target s t
      end
    else target s u;
  e_running : forall u, running s' u =
    match i with
    | Sleep _ => if decide (u = t) then false else running s u
    | MakeRunnable => if decide (head (target s t) = Some u) then true else running s u
    | _ => running s u
    end;
  e_spin : spin s' =
    match i with
    | SpinAcquire x => <[x := Some t]> (spin s)
    | SpinRelease x => <[x := None]> (spin s)
    | Sleep w => <[SWc w := None]> (spin s)
    | _ => spin s
    end;
  e_wc : wc_threads s' =
    match i with
    | Sleep w => <[w := wc_threads s w ++ [t]]> (wc_threads s)
    | RemHead w => <[w := tail (wc_threads s w)]> (wc_threads s)
    | RemAll w => <[w := []]> (wc_threads s)
    | _ => wc_threads s
    end;
  e_hold : hold s' = match i with SetHold l b => <[l := b]> (hold s) | _ => hold s end;
  e_owner : owner s' =
    match i with SetOwner l b => <[l := if b then Some t else None]> (owner s) | _ => owner s end;
  e_count : sem_count s' =
    match i with
    | DecCount x => <[x := s32 (sem_count s x - 1)]> (sem_count s)
    | IncCount x => <[x := s32 (sem_count s x + 1)]> (sem_count s)
    | _ => sem_count s
    end;
  e_free : match i with SpinAcquire x => spin s x = None | _ => True end;
  e_shared : shared s' = shared s;
  e_client : forall u, t_client <$> threads s' !! u = t_client <$> threads s !! u
}.

Lemma field_upd {A} (f : thread C -> A) d s t th u :
  default d (f <$> threads (upd s t th) !! u) =
  if decide (u = t) then f th else default d (f <$> threads s !! u).
Proof.
  cbn. case_decide; subst; [by rewrite lookup_insert_eq|by rewrite lookup_insert_ne by done].
Qed.

(** The thread [t] goes on, and nobody else is touched. *)
Lemma upd_views s s0 t th th' u :
  threads s = threads s0 -> threads s0 !! t = Some th -> t_client th' = t_client th ->
  t_held th' = t_held th ->
  (rest (upd s t th') u = if decide (u = t) then t_rest th' else rest s0 u) /\
  held (upd s t th') u = held s0 u /\
  (target (upd s t th') u = if decide (u = t) then t_target th' else target s0 u) /\
  (running (upd s t th') u = if decide (u = t) then t_run th' else running s0 u) /\
  t_client <$> threads (upd s t th') !! u = t_client <$> threads s0 !! u.
Proof.
  intros E Ht Hc Hh. unfold rest, held, target, running. rewrite !field_upd, E. split_and!; try done.
  - case_decide; [subst; by rewrite Ht|done].
  - cbn. rewrite E. destruct (decide (u = t)) as [->|].
    + rewrite lookup_insert_eq, Ht. cbn. by f_equal.
    + by rewrite lookup_insert_ne.
Qed.

Lemma views_of s t th :
  threads s !! t = Some th ->
  rest s t = t_rest th /\ held s t = t_held th /\ target s t = t_target th /\ running s t = t_run th.
Proof. intros E. unfold rest, held, target, running. by rewrite E. Qed.

Lemma runnable_effect t th k s s' :
  threads s !! t = Some th -> t_rest th = MakeRunnable :: k -> t_run th = true ->
  exec t th MakeRunnable k s = Some (Ret s') -> effect t MakeRunnable k s s'.
Proof.
  intros Ht Hr Hrun E. destruct (views_of s t th Ht) as (_ & _ & Hv & Hv').
  cbn in E. unfold make_runnable in E. cbn in E. destruct (t_target th) as [|v us] eqn:Et; simplify_eq.
  - split; try done; intros u; destruct (upd_views s s t th (with_rest th k) u) as (V1 & V2 & V3 & V4 & V5);
      try done; rewrite ?V1, ?V2, ?V3, ?V4, ?V5; try done; rewrite ?Hv; cbn; case_decide; subst; try done.
    by rewrite Hv.
  - destruct (<[t:=_]> (threads s) !! v) as [thv|] eqn:Ev; [|done]. simplify_eq.
    set (s1 := upd s t (with_target th (MakeRunnable :: k) us)) in *.
    split; try done; intros u;
      destruct (upd_views s s t th (with_target th (MakeRunnable :: k) us) u) as (V1 & V2 & V3 & V4 & V5);
      try done; fold s1 in V1, V2, V3, V4, V5;
      destruct (upd_views s1 s1 v thv (with_run thv true) u) as (W1 & W2 & W3 & W4 & W5); try done;
      destruct (views_of s1 v thv Ev) as (X1 & X2 & X3 & X4);
      rewrite ?W1, ?W2, ?W3, ?W4, ?W5; cbn; rewrite <- ?X1, <- ?X3, ?Hv; cbn.
    + transitivity (rest s1 u); [case_decide; by subst|]. by rewrite V1.
    + by rewrite V2.
    + transitivity (target s1 u); [case_decide; by subst|]. by rewrite V3.
    + rewrite V4. repeat case_decide; simplify_eq; done.
    + exact V5.
Qed.

Lemma exec_effect t th i k s s' :
  threads s !! t = Some th -> t_rest th = i :: k -> t_run th = true ->
  exec t th i k s = Some (Ret s') -> effect t i k s s'.
Proof.
  intros Ht Hr Hrun E. destruct (views_of s t th Ht) as (_ & _ & Hv & Hv').
  destruct i; try by eapply runnable_effect.
  all: cbn in E; unfold spinlock_acquire, spinlock_release, switch_sleep, make_runnable in E; cbn in E; repeat case_match; simplify_eq.
  all: split; try done; intros u;
    match goal with |- context [upd ?s1 ?t ?th'] =>
      destruct (upd_views s1 s t th th' u) as (V1 & V2 & V3 & V4 & V5); [done..|] end;
    rewrite ?V1, ?V2, ?V3, ?V4, ?V5; try done; case_decide; subst; cbn.
  all: rewrite ?Hv, ?Hv'; repeat case_match; simplify_eq; done.
Qed.

(** ** Counting threads *)

Lemma at_least_0 n Q : n <= 0 -> at_least n Q.
Proof. intros. exists []. split_and!; [apply NoDup_nil_2|by cbn|by apply Forall_nil]. Qed.

Lemma at_least_mono n (Q R : Z -> Prop) : (forall t, Q t -> R t) -> at_least n Q -> at_least n R.
Proof. intros H (ts & ? & ? & HQ). exists ts. split_and!; try done. eapply Forall_impl; eauto. Qed.

Lemma at_least_remove t n (Q R : Z -> Prop) :
  (forall u, Q u -> u <> t -> R u) -> at_least n Q -> at_least (n - 1) R.
Proof.
  intros H (ts & Hn & Hl & HQ). pose proof (proj1 (list.Forall_forall _ _) HQ) as HQ'.
  destruct (decide (t ∈ ts)) as [(l1 & l2 & ->)%list_elem_of_split|Hni].
  - apply list.NoDup_app in Hn as (N1 & N2 & [N3 N4]%list.NoDup_cons).
    exists (l1 ++ l2). split_and!.
    + apply list.NoDup_app. set_solver.
    + unfold zlength in *. rewrite length_app in *. cbn in Hl. lia.
    + apply list.Forall_forall. intros u Hu. apply H; [apply HQ'; set_solver|]. intros ->. set_solver.
  - exists ts. split_and!; [done|lia|]. apply list.Forall_forall. intros u Hu. apply H; [auto|]. by intros ->.
Qed.

Lemma at_least_add t n (Q R : Z -> Prop) :
  ~ Q t -> R t -> (forall u, Q u -> R u) -> at_least n Q -> at_least (n + 1) R.
Proof.
  intros Ht HR H (ts & Hn & Hl & HQ). pose proof (proj1 (list.Forall_forall _ _) HQ) as HQ'.
  exists (t :: ts). split_and!.
  - apply list.NoDup_cons. split; [|done]. by intros ?%HQ'.
  - unfold zlength in *. cbn. lia.
  - apply list.Forall_forall. intros u [->|Hu]%elem_of_cons; auto.
Qed.

Lemma at_least_replace t v n (Q R : Z -> Prop) :
  ~ Q v -> R v -> (forall u, Q u -> u <> t -> R u) -> at_least n Q -> at_least n R.
Proof.
  intros Hv HR H Ha. replace n with (n - 1 + 1) by lia.
  apply (at_least_add v _ (fun u => Q u /\ R u)); [by intros [? _]|done|by intros u [_ ?]|].
  apply (at_least_remove t _ Q); auto.
Qed.

(** ** Every access keeps the invariant *)

Lemma owns_holds h l k :
  wfk h k -> owns l k h = true -> holds_lock l k h = false -> holds_spin (SLock l) k = true.
Proof.
  induction k as [|i k IH]; cbn [owns holds_lock]; [congruence|].
  intros (Hi & _ & _ & Hw) Ho Hl. specialize (IH Hw).
  destruct i; cbn in *; try by auto.
  - case_decide; subst; [|by auto]. destruct Hi as (_ & _ & Hi). congruence.
  - case_decide; by auto.
  - case_decide; subst; [by apply Hi|by auto].
  - case_decide; subst; [by apply Hi|by auto].
Qed.

Section access.
Context s s' t i k (Hi : Inv s) (Hr : rest s t = i :: k) (Hrun : running s t = true)
  (He : effect t i k s s') (Hcap : forall x, i = IncCount x -> sem_count s x < 2147483647).

Lemma access_wf : wfk (held s t) (i :: k).
Proof. rewrite <- Hr. apply (i_wf s Hi). Qed.

Lemma access_rest_t : rest s' t = next s t i k.
Proof. rewrite (e_rest _ _ _ _ _ He). by rewrite decide_True. Qed.

Lemma access_rest_ne u : u <> t -> rest s' u = rest s u.
Proof. intros. rewrite (e_rest _ _ _ _ _ He). by rewrite decide_False. Qed.

(** A thread other than [t] cannot be in a piece of code that needs a spinlock
    that [t] has. *)
Lemma access_spin_excl x u :
  holds_spin x (i :: k) = true -> holds_spin x (rest s u) = true -> u = t.
Proof.
  rewrite <- Hr. intros H1%(i_spin s Hi) H2%(i_spin s Hi). congruence.
Qed.

Lemma wf_step u : wfk (held s' u) (rest s' u).
Proof.
  rewrite (e_held _ _ _ _ _ He). destruct (decide (u = t)) as [->|Hu].
  - rewrite access_rest_t. pose proof access_wf as Hw.
    destruct i; cbn [next]; try apply Hw; case_match; try apply Hw.
    + by apply wfk_acquire_wait.
    + by apply wfk_P_wait.
  - rewrite access_rest_ne by done. apply (i_wf s Hi).
Qed.

Lemma next_spin x :
  holds_spin x (next s t i k) =
  match i with
  | SpinAcquire y => if decide (x = y) then true else holds_spin x (i :: k)
  | SpinRelease y => if decide (x = y) then false else holds_spin x (i :: k)
  | Sleep w => if decide (x = SWc w) then false else holds_spin x (i :: k)
  | _ => holds_spin x (i :: k)
  end.
Proof.
  pose proof access_wf as (Ho & _ & _ & _).
  destruct i; cbn [next holds_spin]; try done.
  - cbn in Ho. case_decide; [subst; apply Ho|done].
  - cbn in Ho. case_decide; [by subst|done].
  - case_match; [|done]. destruct Ho as (_ & _ & _ & _ & Hs). cbn.
    repeat case_decide; subst; try done.
    + symmetry. by apply (holds_only_other _ _ _ Hs).
    + symmetry. by apply Hs.
  - case_match; [|done]. destruct Ho as (_ & _ & _ & _ & Hs). cbn.
    repeat case_decide; subst; try done.
    + symmetry. by apply (holds_only_other _ _ _ Hs).
    + symmetry. by apply Hs.
  - cbn in Ho. case_decide; [apply Ho|done].
  - by case_match.
Qed.

Lemma spin_step x u : spin s' x = Some u <-> holds_spin x (rest s' u) = true.
Proof.
  rewrite (e_spin _ _ _ _ _ He). pose proof (e_free _ _ _ _ _ He) as Hf.
  pose proof (i_spin s Hi) as Hs. pose proof (Hs x t) as Hst. rewrite Hr in Hst.
  destruct (decide (u = t)) as [->|Hu].
  - rewrite access_rest_t, next_spin.
    destruct i; try done; case_decide; subst;
      rewrite ?fn_lookup_insert, ?fn_lookup_insert_ne by done; try done.
  - rewrite access_rest_ne, <- Hs by done.
    destruct i; try done;
    match goal with |- context [<[?y := _]> (spin s) x] => destruct (decide (x = y)) as [->|] end;
      rewrite ?fn_lookup_insert, ?fn_lookup_insert_ne by done; try done.
    + rewrite Hf. naive_solver.
    + cbn in Hst. rewrite decide_True in Hst by done. naive_solver.
    + cbn in Hst. rewrite decide_True in Hst by done. naive_solver.
Qed.

(** A write changes what the thread has; every other access does not. *)
Lemma next_owns l :
  owns l (next s t i k) (held s t) =
  match i with
  | SetOwner m b => if decide (l = m) then b else owns l (i :: k) (held s t)
  | _ => owns l (i :: k) (held s t)
  end.
Proof.
  pose proof access_wf as (Ho & _ & _ & _).
  destruct i; cbn [next owns]; try done; try by case_match.
  cbn in Ho. case_decide; [subst; apply Ho|done].
Qed.

Lemma next_holds l :
  holds_lock l (next s t i k) (held s t) =
  match i with
  | SetHold m b => if decide (l = m) then b else holds_lock l (i :: k) (held s t)
  | _ => holds_lock l (i :: k) (held s t)
  end.
Proof.
  pose proof access_wf as (Ho & _ & _ & _).
  destruct i; cbn [next holds_lock]; try done; try by case_match.
  cbn in Ho. case_decide; [subst; apply Ho|done].
Qed.

Lemma owner_step l u : owner s' l = Some u <-> owns l (rest s' u) (held s' u) = true.
Proof.
  rewrite (e_owner _ _ _ _ _ He), (e_held _ _ _ _ _ He).
  pose proof (i_owner s Hi) as Ho. pose proof access_wf as Hw. pose proof (Ho l t) as Hot. rewrite Hr in Hot.
  pose proof (fun x => access_spin_excl x u) as Hex.
  destruct (decide (u = t)) as [->|Hu].
  - rewrite access_rest_t, next_owns. destruct i; try done. case_decide; subst;
      rewrite ?fn_lookup_insert, ?fn_lookup_insert_ne by done; [by destruct b|done].
  - rewrite access_rest_ne, <- Ho by done. destruct i as [| | | | | | |m b| | | | | | | |]; try done.
    destruct (decide (l = m)) as [->|]; rewrite ?fn_lookup_insert, ?fn_lookup_insert_ne by done; [|done].
    destruct Hw as ((Hsp & _ & Hl) & _). cbn in Hot. rewrite decide_True in Hot by done.
    destruct b; [|naive_solver]. split; [naive_solver|]. intros Hou. exfalso. apply Hu.
    apply Ho in Hou. destruct (holds_lock m (rest s u) (held s u)) eqn:E.
    + apply (i_excl s Hi m); [done|]. by rewrite Hr.
    + apply (Hex (SLock m)); [done|]. by apply (owns_holds (held s u)); [apply (i_wf s Hi)|..].
Qed.

Lemma holds_step l u :
  holds_lock l (rest s' u) (held s' u) =
  match i with
  | SetHold m b => if decide (l = m) then bool_decide (u = t) && b else holds_lock l (rest s u) (held s u)
  | _ => holds_lock l (rest s u) (held s u)
  end.
Proof.
  rewrite (e_held _ _ _ _ _ He). pose proof access_wf as Hw. pose proof (i_head s Hi t) as Hh. rewrite Hr in Hh.
  destruct (decide (u = t)) as [->|Hu].
  - rewrite access_rest_t, next_holds, Hr, bool_decide_eq_true_2 by done. done.
  - rewrite access_rest_ne, bool_decide_eq_false_2 by done.
    destruct i as [| | | | | |m b| | | | | | | | |]; try done. case_decide; [subst m|done]. cbn.
    destruct (holds_lock l (rest s u) (held s u)) eqn:E; [|done]. exfalso.
    destruct b.
    + cbn in Hh. assert (hold s l = true) by (apply (i_hold s Hi); eauto). congruence.
    + apply Hu, (i_excl s Hi l u t); [done|]. rewrite Hr. cbn. by rewrite decide_True.
Qed.

Lemma hold_step l : hold s' l = true <-> exists u, holds_lock l (rest s' u) (held s' u) = true.
Proof.
  rewrite (e_hold _ _ _ _ _ He). setoid_rewrite holds_step. pose proof (i_hold s Hi l) as Hl.
  destruct i as [| | | | | |m b| | | | | | | | |]; try done.
  destruct (decide (l = m)) as [->|]; rewrite ?fn_lookup_insert, ?fn_lookup_insert_ne by done; [|done].
  split.
  - intros ->. exists t. by rewrite bool_decide_eq_true_2.
  - intros [u Hu]. by apply andb_prop in Hu as [_ ->].
Qed.

Lemma excl_step l u v :
  holds_lock l (rest s' u) (held s' u) = true -> holds_lock l (rest s' v) (held s' v) = true -> u = v.
Proof.
  rewrite !holds_step. pose proof (i_excl s Hi l u v) as Hl.
  destruct i; try done. case_decide; [|done]. intros [H1 _]%andb_prop [H2 _]%andb_prop.
  by apply bool_decide_eq_true in H1, H2; subst.
Qed.

Lemma count_step x : 0 <= sem_count s' x < 2147483648.
Proof.
  rewrite (e_count _ _ _ _ _ He). pose proof (i_count s Hi x) as Hc.
  pose proof (i_head s Hi t) as Hh. rewrite Hr in Hh.
  destruct i as [| | | | | | | | | |y|y| | | |]; try done;
    (destruct (decide (x = y)) as [->|]; rewrite ?fn_lookup_insert, ?fn_lookup_insert_ne by done; [|done]).
  - cbn in Hh. unfold s32, two32. rewrite Z.mod_small; lia.
  - specialize (Hcap y eq_refl). unfold s32, two32. rewrite Z.mod_small; lia.
Qed.

Lemma head_other u : u <> t -> head_ok s' (rest s u).
Proof.
  intros Hu. pose proof (i_head s Hi u) as Hh. pose proof (i_wf s Hi u) as Hw. pose proof access_wf as Hwt.
  destruct (rest s u) as [|a k'] eqn:E; [done|]. destruct Hw as (Ha & _).
  assert (Hx : forall x, holds_spin x (a :: k') = true -> holds_spin x (i :: k) = true -> False).
  { intros x H1 H2. apply Hu, (access_spin_excl x); [done|]. by rewrite E. }
  destruct Hwt as (Hit & _).
  destruct a as [| | | | | |m [|]| | |x|x| | | | |]; try done; cbn in *.
  - rewrite (e_hold _ _ _ _ _ He). destruct i as [| | | | | |m' b'| | | | | | | | |]; try done.
    rewrite fn_lookup_insert_ne; [done|]. intros ->. by apply (Hx (SLock m)); [apply Ha|apply Hit].
  - rewrite (e_count _ _ _ _ _ He). destruct i; try done; rewrite fn_lookup_insert_ne; try done;
      intros ->; apply (Hx (SSem x)); try done; apply Hit.
  - rewrite (e_count _ _ _ _ _ He). destruct i; try done; rewrite fn_lookup_insert_ne; try done;
      intros ->; apply (Hx (SSem x)); try done; apply Hit.
Qed.

Lemma head_step u : head_ok s' (rest s' u).
Proof.
  destruct (decide (u = t)) as [->|Hu]; [|rewrite access_rest_ne by done; by apply head_other].
  rewrite access_rest_t. pose proof access_wf as (Hit & Hg & _). pose proof (i_head s Hi t) as Hh. rewrite Hr in Hh.
  pose proof (e_hold _ _ _ _ _ He) as Eh. pose proof (e_count _ _ _ _ _ He) as Ec.
  pose proof (i_count s Hi) as Hc.
  assert (Hk : next s t i k = k -> head_ok s' k).
  { intros Hn. destruct k as [|a k']; [done|].
    destruct a as [| | | | | |m [|]| | |x|x| | | | |]; try done; cbn in Hg |- *.
    - subst i. rewrite Eh. cbn in Hn. by destruct (hold s m).
    - rewrite Ec. destruct Hg as [-> | ->].
      + cbn in Hn. destruct (Z.eqb_spec (sem_count s x) 0); [done|]. specialize (Hc x). lia.
      + specialize (Hcap x eq_refl). rewrite fn_lookup_insert. specialize (Hc x).
        unfold s32, two32. rewrite Z.mod_small; lia.
    - subst i. by rewrite Ec. }
  destruct i; try (by apply Hk); cbn [next] in *; case_match; try done; by apply Hk.
Qed.

(** A running thread is on no channel and in nobody's hands. *)
Lemma running_free u : running s u = true -> ~ on_channel s u /\ forall v, u ∉ target s v.
Proof.
  intros Hu. pose proof (i_sleep s Hi) as Hs. split.
  - intros [w Hw]. destruct (so_chan s Hs w u Hw). congruence.
  - intros v Hv. destruct (so_target s Hs v u Hv). congruence.
Qed.

Lemma sleeper_rest u : running s u = false -> rest s' u = rest s u.
Proof. intros Hu. apply access_rest_ne. intros ->. congruence. Qed.

Definition quiet : Prop :=
  match i with Sleep _ | RemHead _ | RemAll _ | MakeRunnable => False | _ => True end.

Lemma sleep_quiet : quiet -> sleep_ok s'.
Proof.
  intros Hq. pose proof (i_sleep s Hi) as Hs. unfold quiet in Hq.
  assert (Ew : wc_threads s' = wc_threads s) by (rewrite (e_wc _ _ _ _ _ He); by destruct i).
  assert (Er : forall u, running s' u = running s u) by (intros u; rewrite (e_running _ _ _ _ _ He); by destruct i).
  assert (Et : forall u, target s' u = target s u).
  { intros u. rewrite (e_target _ _ _ _ _ He). case_decide; [subst|done]. by destruct i. }
  pose proof (so_drain s Hs) as Hd. pose proof (Hd t) as Hdt. rewrite Hr in Hdt.
  assert (Hoc : forall u, on_channel s' u <-> on_channel s u) by (intros u; unfold on_channel; by rewrite Ew).
  split.
  - intros w. rewrite Ew. apply (so_nodup s Hs).
  - intros w u Hu. rewrite Ew in Hu |- *. destruct (so_chan s Hs w u Hu) as (? & ? & ? & ?).
    rewrite Er, sleeper_rest by done. setoid_rewrite Et. auto.
  - intros v u. rewrite Er, Hoc. setoid_rewrite Et. intros Hu. by apply (so_target s Hs).
  - intros u. rewrite Et. apply (so_tnodup s Hs).
  - intros u. rewrite Et. intros Hu. destruct (decide (u = t)) as [->|]; [|rewrite access_rest_ne by done; auto].
    rewrite access_rest_t. specialize (Hdt Hu).
    destruct i; try done; cbn [next]; case_match; done.
  - intros u. rewrite Er, Hoc. setoid_rewrite Et. apply (so_place s Hs).
  - intros u x. rewrite Er. intros Hu. rewrite sleeper_rest by done. by apply (so_spins s Hs).
Qed.

Lemma sleep_sleep w : i = Sleep w -> sleep_ok s'.
Proof.
  intros Ei. pose proof (i_sleep s Hi) as Hs. destruct (running_free t Hrun) as [Hnc Hnt].
  pose proof (e_wc _ _ _ _ _ He) as Ew. rewrite Ei in Ew.
  assert (Er : forall u, running s' u = if decide (u = t) then false else running s u)
    by (intros u; rewrite (e_running _ _ _ _ _ He), Ei; done).
  assert (Et : forall u, target s' u = target s u).
  { intros u. rewrite (e_target _ _ _ _ _ He), Ei. by case_decide; subst. }
  assert (Hin : forall v u, u ∈ wc_threads s' v <-> u ∈ wc_threads s v \/ (v = w /\ u = t)).
  { intros v u. rewrite Ew. destruct (decide (v = w)) as [->|];
      rewrite ?fn_lookup_insert, ?fn_lookup_insert_ne by done; set_solver. }
  assert (Hnt' : forall v, t ∉ wc_threads s v) by (intros v Hv; apply Hnc; by exists v).
  pose proof access_wf as (Hit & _). rewrite Ei in Hit. destruct Hit as [Hsp Hhp].
  assert (Hk : rest s' t = k) by (rewrite access_rest_t, Ei; done).
  split.
  - intros v. rewrite Ew. destruct (decide (v = w)) as [->|];
      rewrite ?fn_lookup_insert, ?fn_lookup_insert_ne by done; [|apply (so_nodup s Hs)].
    apply list.NoDup_app. split_and!; [apply (so_nodup s Hs)| |apply NoDup_singleton].
    intros u Hu ->%list_elem_of_singleton. by apply (Hnt' w).
  - intros v u. setoid_rewrite Hin. intros [Hu|[-> ->]].
    + destruct (so_chan s Hs v u Hu) as (? & ? & ? & ?).
      rewrite Er, decide_False, sleeper_rest by (done || congruence). setoid_rewrite Et. split_and!; try done.
      intros v' [Hv|[-> ->]]; [by auto|congruence].
    + rewrite Er, decide_True, Hk by done. setoid_rewrite Et. split_and!; try done.
      * intros v [Hv|[-> _]]; [by apply Hnt' in Hv|done].
      * intros Hg. by destruct (guard w).
  - intros v u. rewrite Et. intros Hu. destruct (so_target s Hs v u Hu) as (? & ? & Hn).
    rewrite Er, decide_False by congruence. setoid_rewrite Et. split_and!; try done.
    intros [w' Hw']. apply Hin in Hw' as [Hw'|[-> ->]]; [apply Hn; by exists w'|congruence].
  - intros u. rewrite Et. apply (so_tnodup s Hs).
  - intros u. rewrite Et. intros Hu. pose proof (so_drain s Hs u Hu) as Hd.
    destruct (decide (u = t)) as [->|]; [|by rewrite access_rest_ne].
    rewrite Hk. by rewrite Hr, Ei in Hd.
  - intros u. rewrite Er. setoid_rewrite Et. case_decide as Hd.
    + intros _. left. exists w. apply Hin. auto.
    + intros Hu. destruct (so_place s Hs u Hu) as [[v Hv]|?]; [left; exists v; apply Hin; auto|auto].
  - intros u x. rewrite Er. case_decide as Hd; [subst u; by rewrite Hk|].
    intros Hu. rewrite access_rest_ne by done. by apply (so_spins s Hs).
Qed.

(** The waker takes [ts] from the front of a channel. *)
Lemma sleep_take w ts vs :
  i = RemHead w \/ i = RemAll w -> wc_threads s w = ts ++ vs ->
  wc_threads s' = <[w := vs]> (wc_threads s) -> target s' t = ts -> sleep_ok s'.
Proof.
  intros Ei Hw Ew Htt. pose proof (i_sleep s Hi) as Hs.
  assert (Er : forall u, running s' u = running s u)
    by (intros u; rewrite (e_running _ _ _ _ _ He); by destruct Ei as [-> | ->]).
  assert (Et : forall u, u <> t -> target s' u = target s u)
    by (intros u Hu; rewrite (e_target _ _ _ _ _ He); by rewrite decide_False).
  assert (Hk : rest s' t = k /\ drains k = true).
  { rewrite access_rest_t. pose proof access_wf as (Hit & _). destruct Ei as [-> | ->]; split; done || apply Hit. }
  destruct Hk as [Hk Hdk].
  assert (H0 : target s t = []).
  { destruct (target s t) as [|a l] eqn:E; [done|]. assert (Hd : drains (rest s t) = true) by (apply (so_drain s Hs); by rewrite E).
    rewrite Hr in Hd. by destruct Ei as [-> | ->]. }
  pose proof (so_nodup s Hs w) as Hn. rewrite Hw in Hn. apply list.NoDup_app in Hn as (Hn1 & Hn2 & Hn3).
  assert (Hin : forall v u, u ∈ wc_threads s' v <-> u ∈ wc_threads s v /\ u ∉ ts).
  { intros v u. rewrite Ew. destruct (decide (v = w)) as [->|Hv];
      rewrite ?fn_lookup_insert, ?fn_lookup_insert_ne by done; [rewrite Hw, elem_of_app; naive_solver|].
    split; [|naive_solver]. intros Hu. split; [done|]. intros Hts. apply Hv.
    symmetry. apply (so_chan s Hs v u Hu). rewrite Hw. set_solver. }
  assert (Hts : forall u, u ∈ ts -> u ∈ wc_threads s w) by (intros u; rewrite Hw; set_solver).
  assert (Htg : forall v u, u ∈ target s' v <-> (v = t /\ u ∈ ts) \/ u ∈ target s v).
  { intros v u. destruct (decide (v = t)) as [->|Hv]; [rewrite Htt, H0|rewrite Et by done]; set_solver. }
  split.
  - intros v. rewrite Ew. destruct (decide (v = w)) as [->|];
      rewrite ?fn_lookup_insert, ?fn_lookup_insert_ne by done; [done|apply (so_nodup s Hs)].
  - intros v u [Hu Hut]%Hin. destruct (so_chan s Hs v u Hu) as (? & ? & ? & ?).
    rewrite Er, sleeper_rest by done. setoid_rewrite Hin. setoid_rewrite Htg. naive_solver.
  - intros v u Hu%Htg. rewrite Er. setoid_rewrite Htg. unfold on_channel. setoid_rewrite Hin.
    destruct Hu as [[-> Hu]|Hu].
    + destruct (so_chan s Hs w u (Hts u Hu)) as (? & ? & ? & ?). naive_solver.
    + destruct (so_target s Hs v u Hu) as (? & ? & Hno). split_and!; try done; [|intros [z [Hz _]]; apply Hno; by exists z].
      intros v' [[-> Hu']|?]; [|by auto]. exfalso. apply Hno. exists w. auto.
  - intros v. destruct (decide (v = t)) as [->|]; [by rewrite Htt|rewrite Et by done; apply (so_tnodup s Hs)].
  - intros v. destruct (decide (v = t)) as [->|]; [by rewrite Hk|].
    rewrite Et, access_rest_ne by done. apply (so_drain s Hs).
  - intros u. rewrite Er. intros Hu. unfold on_channel. setoid_rewrite Hin. setoid_rewrite Htg.
    destruct (decide (u ∈ ts)); [naive_solver|]. destruct (so_place s Hs u Hu) as [[v ?]|[v ?]]; naive_solver.
  - intros u x. rewrite Er. intros Hu. rewrite sleeper_rest by done. by apply (so_spins s Hs).
Qed.

Lemma sleep_runnable : i = MakeRunnable -> sleep_ok s'.
Proof.
  intros Ei. pose proof (i_sleep s Hi) as Hs.
  pose proof (e_wc _ _ _ _ _ He) as Ew. rewrite Ei in Ew.
  assert (Er : forall u, running s' u = if decide (head (target s t) = Some u) then true else running s u)
    by (intros u; rewrite (e_running _ _ _ _ _ He), Ei; done).
  assert (Et : forall u, target s' u = if decide (u = t) then tail (target s t) else target s u)
    by (intros u; rewrite (e_target _ _ _ _ _ He), Ei; done).
  assert (Hoc : forall u, on_channel s' u <-> on_channel s u) by (intros u; unfold on_channel; by rewrite Ew).
  assert (Hsub : forall v u, u ∈ target s' v -> u ∈ target s v /\ head (target s t) <> Some u).
  { intros v u. rewrite Et. pose proof (so_tnodup s Hs t) as Hn. case_decide; [subst|].
    - destruct (target s t) as [|a l] eqn:E; cbn; [set_solver|]. apply list.NoDup_cons in Hn as [? ?]. set_solver.
    - intros Hu. split; [done|]. intros Hh. destruct (so_target s Hs v u Hu) as (_ & H1 & _).
      assert (t = v) by (apply H1; by apply head_Some_elem_of). congruence. }
  assert (Hch : forall w u, u ∈ wc_threads s w -> head (target s t) <> Some u).
  { intros w u Hu Hh. destruct (so_chan s Hs w u Hu) as (_ & _ & _ & H1). apply (H1 t).
    by apply head_Some_elem_of. }
  split.
  - intros w. rewrite Ew. apply (so_nodup s Hs).
  - intros w u Hu. rewrite Ew in Hu |- *. destruct (so_chan s Hs w u Hu) as (? & ? & ? & Hnt).
    rewrite Er, decide_False, sleeper_rest by eauto. split_and!; try done. intros v Hv. by apply Hsub in Hv as [Hv%Hnt _].
  - intros v u Hu. destruct (Hsub v u Hu) as [Hu' Hh]. destruct (so_target s Hs v u Hu') as (? & H1 & ?).
    rewrite Er, decide_False, Hoc by done. split_and!; try done. intros v' Hv'. by apply H1, Hsub.
  - intros u. rewrite Et. pose proof (so_tnodup s Hs t) as Hn. case_decide; [|apply (so_tnodup s Hs)].
    destruct (target s t); [done|]. by apply list.NoDup_cons in Hn as [_ ?].
  - intros u. rewrite Et. case_decide as Hd; [subst u|rewrite access_rest_ne by done; apply (so_drain s Hs)].
    rewrite access_rest_t, Ei. cbn. by destruct (target s t).
  - intros u. rewrite Er, Hoc. case_decide as Hh; [done|]. intros Hu.
    destruct (so_place s Hs u Hu) as [?|[v Hv]]; [by left|right; exists v]. rewrite Et.
    case_decide; [subst v|done]. destruct (target s t) as [|a l]; [set_solver|]. cbn in *. set_solver.
  - intros u x. rewrite Er. case_decide; [done|]. intros Hu. rewrite sleeper_rest by done. by apply (so_spins s Hs).
Qed.

Lemma sleep_step : sleep_ok s'.
Proof.
  pose proof (e_wc _ _ _ _ _ He) as Ew. pose proof (e_target _ _ _ _ _ He t) as Et.
  rewrite decide_True in Et by done.
  pose proof sleep_quiet as Hq. unfold quiet in Hq.
  pose proof (fun w => sleep_sleep w) as Hsl. pose proof sleep_runnable as Hru. pose proof sleep_take as Htk.
  clear Hr Hcap He. destruct i as [| | | | | | | | | | | |w|w|w|]; try by apply Hq.
  - by apply (Hsl w).
  - apply (Htk w (take 1 (wc_threads s w)) (tail (wc_threads s w))); auto.
    by destruct (wc_threads s w).
  - apply (Htk w (wc_threads s w) []); auto. by rewrite app_nil_r.
  - by apply Hru.
Qed.

Lemma chan_step w u : u ∈ wc_threads s' w -> u ∈ wc_threads s w \/ (u = t /\ i = Sleep w).
Proof.
  rewrite (e_wc _ _ _ _ _ He). clear Hi Hr Hrun He Hcap.
  destruct i as [| | | | | | | | | | | |v|v|v|]; try (by left);
    (destruct (decide (w = v)) as [->|]; rewrite ?fn_lookup_insert, ?fn_lookup_insert_ne by done; [|by left]).
  - intros [?| ->%list_elem_of_singleton]%elem_of_app; auto.
  - left. destruct (wc_threads s v); set_solver.
  - by intros ?%elem_of_nil.
Qed.

Lemma on_channel_step u : u <> t -> on_channel s' u -> on_channel s u.
Proof. intros Hu [w [Hw|[? _]]%chan_step]; [by exists w|done]. Qed.

Lemma helper_other w u : u <> t -> helper s w u -> helper s' w u.
Proof.
  intros Hu [H1 H2]. split; [by rewrite access_rest_ne|]. by intros ?%on_channel_step.
Qed.

Lemma running_off : (forall w, i <> Sleep w) -> ~ on_channel s' t.
Proof.
  intros Hn [w [Hw|[_ Hw]]%chan_step]; [|by apply (Hn w)].
  destruct (running_free t Hrun) as [Hc _]. apply Hc. by exists w.
Qed.

(** The accesses at which a thread stops being of help to the sleepers of [w],
    or [w] gets more to give. *)
Definition turns (w : wchan) : Prop :=
  match i with
  | SetHold l _ => w = WLock l
  | DecCount x | IncCount x => w = WSem x
  | RemHead v => w = v
  | WhileHold l => w = WLock l /\ hold s l = true
  | WhileZero x => w = WSem x /\ sem_count s x = 0
  | _ => False
  end.

Lemma helper_same w : ~ turns w -> helper s w t -> helper s' w t.
Proof.
  intros Hn [Hh _]. rewrite Hr in Hh. pose proof access_wf as (Hit & _). pose proof running_off as Hof.
  split; [rewrite access_rest_t|apply Hof; intros v Ev; by rewrite Ev in Hh].
  unfold turns in Hn. clear Hof. destruct i; cbn [next helps] in *; try done; try (case_decide; tauto || done).
  - case_match; [|done]. destruct Hit as (_ & _ & _ & Hw & _). apply Hw in Hh. tauto.
  - case_match; [|done]. destruct Hit as (_ & _ & _ & Hw & _). apply Hw in Hh. lia || (exfalso; apply Hn; split; [done|lia]).
  - by case_match.
Qed.

Lemma units_same w : ~ turns w -> units s' w = units s w.
Proof.
  intros Hn. unfold units, turns in *. rewrite (e_hold _ _ _ _ _ He), (e_count _ _ _ _ _ He).
  destruct w as [l|x|]; try done.
  - destruct i; try done. rewrite fn_lookup_insert_ne; [done|congruence].
  - destruct i; try done; (rewrite fn_lookup_insert_ne; [done|congruence]).
Qed.

(** Who waits afterwards waited before, or has just seen that there is nothing
    to take. *)
Lemma waits_step w : waits s' w -> waits s w \/ units s' w = 0.
Proof.
  intros [Hw|[u Hu]].
  - left. destruct (wc_threads s' w) as [|u l] eqn:E; [done|].
    destruct (chan_step w u) as [Hc|[-> Ei]]; [rewrite E; set_solver| |].
    + left. intros E'. rewrite E' in Hc. by apply elem_of_nil in Hc.
    + right. exists t. rewrite Hr, Ei. set_solver.
  - destruct (decide (u = t)) as [->|]; [|left; right; exists u; by rewrite access_rest_ne in Hu].
    rewrite access_rest_t in Hu. unfold waits.
    assert (Hk : Sleep w ∈ k -> exists t, Sleep w ∈ rest s t) by (intros; exists t; rewrite Hr; set_solver).
    pose proof (e_hold _ _ _ _ _ He) as Eh. pose proof (e_count _ _ _ _ _ He) as Ec. clear Hr Hcap He.
    destruct i; cbn [next] in Hu; try (by auto); case_match eqn:E; try (by auto).
    + repeat (apply elem_of_cons in Hu as [?|Hu]; [simplify_eq; try done|]); [|by auto].
      right. cbn. by rewrite Eh, E.
    + repeat (apply elem_of_cons in Hu as [?|Hu]; [simplify_eq; try done|]); [|by auto].
      right. cbn. rewrite Ec. lia.
    + apply elem_of_cons in Hu as [?|Hu]; [done|]. auto.
Qed.

(** Taking a thread off the channel: it helps from now on. *)
Lemma wake_remhead w :
  i = RemHead w -> guard w <> None -> waits s' w -> at_least (units s w) (helper s w) ->
  at_least (units s' w) (helper s' w).
Proof.
  intros Ei Hg Hw Ha.
  assert (Eu : units s' w = units s w).
  { unfold units. by rewrite (e_hold _ _ _ _ _ He), (e_count _ _ _ _ _ He), Ei. }
  rewrite Eu. pose proof (i_sleep s Hi) as Hs. pose proof access_wf as (Hit & _ & _ & _). rewrite Ei in Hit.
  destruct Hit as (Hsp & Hun & _ & Hcv). pose proof (e_wc _ _ _ _ _ He) as Ew. rewrite Ei in Ew.
  destruct (wc_threads s w) as [|v vs] eqn:E.
  - exfalso. destruct Hw as [Hw|[u Hu]].
    + apply Hw. rewrite Ew. by rewrite fn_lookup_insert.
    + destruct (decide (u = t)) as [->|Hut].
      * rewrite access_rest_t, Ei in Hu. by apply Hg, (only_cv_elem _ _ Hcv).
      * rewrite access_rest_ne in Hu by done. apply Hut.
        assert (Hc : commits (rest s u)).
        { pose proof (i_wf s Hi u) as Hwf. destruct (rest s u); [by apply elem_of_nil in Hu|]. apply Hwf. }
        specialize (Hc w Hu). unfold under_guard in Hun. destruct (guard w) as [x|]; [|done].
        destruct Hc as [Hc|Hc]; eapply access_spin_excl; try exact Hc; rewrite Ei; cbn; done.
  - destruct (so_chan s Hs w v) as (Hrv & Huniq & Hhv & _); [rewrite E; set_solver|].
    assert (Hvt : v <> t) by congruence.
    apply (at_least_replace t v _ (helper s w)); try done.
    + intros [_ Hn]. apply Hn. exists w. rewrite E. set_solver.
    + split; [rewrite access_rest_ne by done; auto|]. intros [z Hz].
      pose proof (so_nodup s Hs w) as Hnd. rewrite E in Hnd. apply list.NoDup_cons in Hnd as [Hnd _].
      rewrite Ew in Hz. destruct (decide (z = w)) as [->|Hzw];
        rewrite ?fn_lookup_insert, ?fn_lookup_insert_ne in Hz by done; [done|]. by apply Hzw, Huniq.
    + intros u Hu Hne. by apply helper_other.
Qed.

Lemma helper_now w : (forall v, i <> Sleep v) -> helps w (next s t i k) = true -> helper s' w t.
Proof. intros Hn Hh. split; [by rewrite access_rest_t|by apply running_off]. Qed.

Lemma wake_step w : waits s' w -> at_least (units s' w) (helper s' w).
Proof.
  intros Hw. destruct (waits_step w Hw) as [Hws|E0]; [|apply at_least_0; lia].
  destruct (guard w) eqn:Hg; [|destruct w; try done; by apply at_least_0].
  pose proof (i_wake s Hi w Hws) as Ha.
  assert (Hother : forall u, helper s w u -> u <> t -> helper s' w u) by (intros; by apply helper_other).
  pose proof (fun v (E : i = RemHead v) => wake_remhead v E) as Hrem.
  pose proof (helper_same w) as Hsame. pose proof (units_same w) as Eun. pose proof (helper_now w) as Hnow.
  assert (Hquiet : ~ turns w -> at_least (units s' w) (helper s' w)).
  { intros Hn. rewrite Eun by done. eapply at_least_mono; [|exact Ha].
    intros u Hu. destruct (decide (u = t)) as [->|]; auto. }
  pose proof access_wf as (Hit & _). pose proof (e_hold _ _ _ _ _ He) as Eh. pose proof (e_count _ _ _ _ _ He) as Ec.
  pose proof (i_count s Hi) as Hc. pose proof (i_head s Hi t) as Hh. rewrite Hr in Hh.
  assert (Hnot : helps w (i :: k) = false -> ~ helper s w t) by (rewrite <- Hr; unfold helper; intros ? [? _]; congruence).
  unfold turns in Hquiet, Hsame, Eun. destruct i as [| | | | |l|l b| |x| |x|x| |v| |]; try (by apply Hquiet; auto).
  - destruct (decide (w = WLock l /\ hold s l = true)) as [[-> E]|Hn]; [|by apply Hquiet].
    apply at_least_0. cbn. by rewrite Eh, E.
  - destruct (decide (w = WLock l)) as [->|Hn]; [|by apply Hquiet]. cbn [units]. rewrite Eh, fn_lookup_insert.
    destruct b; [by apply at_least_0|]. exists [t]. split_and!; [apply NoDup_singleton|done|].
    apply Forall_singleton. apply Hnow; [done|]. by apply Hit.
  - destruct (decide (w = WSem x /\ sem_count s x = 0)) as [[-> E]|Hn]; [|by apply Hquiet].
    apply at_least_0. cbn. rewrite Ec. lia.
  - destruct (decide (w = WSem x)) as [->|Hn]; [|by apply Hquiet]. cbn [units] in *. rewrite Ec, fn_lookup_insert.
    cbn in Hh. specialize (Hc x). replace (s32 (sem_count s x - 1)) with (sem_count s x - 1)
      by (unfold s32, two32; rewrite Z.mod_small; lia).
    by apply (at_least_remove t _ (helper s (WSem x))).
  - destruct (decide (w = WSem x)) as [->|Hn]; [|by apply Hquiet]. cbn [units] in *. rewrite Ec, fn_lookup_insert.
    specialize (Hc x). specialize (Hcap x eq_refl). replace (s32 (sem_count s x + 1)) with (sem_count s x + 1)
      by (unfold s32, two32; rewrite Z.mod_small; lia).
    assert (Hnt : ~ helper s (WSem x) t) by (apply Hnot; cbn; by rewrite decide_True).
    apply (at_least_add t _ (helper s (WSem x))); try done; [by apply Hnow; [done|apply Hit]|].
    intros u Hu. apply Hother; [done|]. by intros ->.
  - destruct (decide (w = v)) as [->|Hn]; [|by apply Hquiet]. apply Hrem; try done. congruence.
Qed.

Lemma access_inv : Inv s'.
Proof.
  split; [exact wf_step|exact spin_step|exact owner_step|exact hold_step|exact excl_step|exact head_step|
    exact count_step|exact sleep_step|exact wake_step].
Qed.

End access.

(** An access fails no assertion and touches no missing thread. *)
Lemma exec_safe s t th i k :
  Inv s -> threads s !! t = Some th -> t_rest th = i :: k -> t_run th = true ->
  (forall x, i = IncCount x -> sem_count s x < 2147483647) ->
  exec t th i k s = None \/ exists s', exec t th i k s = Some (Ret s').
Proof.
  intros Hi Ht Hr Hrun Hcap. destruct (views_of s t th Ht) as (V1 & V2 & V3 & V4).
  rewrite Hr in V1. pose proof (i_wf s Hi t) as Hw. rewrite V1, V2 in Hw. destruct Hw as (Ho & _).
  pose proof (i_owner s Hi) as Hown. pose proof (i_hold s Hi) as Hhold. pose proof (i_spin s Hi) as Hsp.
  pose proof (i_head s Hi t) as Hh. rewrite V1 in Hh.
  assert (Hot : forall l, owner s l = Some t <-> owns l (i :: k) (t_held th) = true)
    by (intros l; rewrite Hown, V1, V2; done).
  assert (Hhl : forall l, holds_lock l (i :: k) (t_held th) = true -> hold s l = true)
    by (intros l Hl; apply Hhold; exists t; by rewrite V1, V2).
  assert (Hspt : forall x, spin s x = Some t <-> holds_spin x (i :: k) = true)
    by (intros x; rewrite Hsp, V1; done).
  destruct i as [l|l|l|x|x|l| | |x|x| | |w|w|w|]; cbn [exec]; try (by right; eauto); cbn in Ho;
    unfold spinlock_acquire, spinlock_release, switch_sleep, make_runnable.
  - right. unfold lock_do_i_hold. rewrite (bool_decide_eq_false_2 (owner s l = Some t)).
    + rewrite andb_false_r. eauto.
    + rewrite Hot. cbn. congruence.
  - right. unfold lock_do_i_hold. rewrite Hhl, (bool_decide_eq_true_2 (owner s l = Some t)) by (try apply Hot; apply Ho).
    eauto.
  - right. rewrite (bool_decide_eq_true_2 (owner s l = Some t)) by (apply Hot; apply Ho). eauto.
  - destruct (spin s x) as [u|] eqn:E; [|by right; eauto]. destruct (Z.eqb_spec u t) as [->|]; [|by left].
    exfalso. apply Hspt in E. cbn in E. by rewrite decide_True in E.
  - right. rewrite bool_decide_eq_true_2; [eauto|]. apply Hspt. cbn. by rewrite decide_True.
  - right. case_match; eauto.
  - right. case_match; eauto.
  - right. cbn in Hh. destruct (Z.ltb_spec 0 (sem_count s x)); [eauto|lia].
  - right. rewrite bool_decide_eq_true_2; [eauto|]. apply Hspt. cbn. by rewrite decide_True.
  - right. destruct (t_target th) as [|u us] eqn:Et; [eauto|].
    assert (Hu : u ∈ target s t) by (rewrite V3; set_solver).
    destruct (so_target s (i_sleep s Hi) t u Hu) as (Hru & _). unfold running in Hru.
    destruct (threads s !! u) as [thu|] eqn:Eu; [|done].
    cbn. destruct (decide (u = t)) as [->|]; [rewrite lookup_insert_eq|rewrite lookup_insert_ne by done; rewrite Eu]; eauto.
Qed.

(** What a call says about its thread before its first access. *)
Lemma code_start h o l :
  allowed h o ->
  owns l (code o) (held_after o h) = bool_decide (l ∈ h) /\
  holds_lock l (code o) (held_after o h) = bool_decide (l ∈ h).
Proof.
  intros Ha. destruct o; cbn in *; try done; case_decide; subst; cbn; split;
    repeat case_bool_decide; set_solver.
Qed.

Lemma code_spins x o : holds_spin x (code o) = false.
Proof. destruct o; cbn; repeat case_decide; simplify_eq; done. Qed.

Lemma code_only_cv o : only_cv (code o) = true.
Proof. by destruct o. Qed.

Lemma call_views s t g o h c u :
  let s' := upd (set_shared s g) t (mk_thread (code o) [] true h c) in
  (rest s' u = if decide (u = t) then code o else rest s u) /\
  (held s' u = if decide (u = t) then h else held s u) /\
  (t_client <$> threads s' !! u = if decide (u = t) then Some c else t_client <$> threads s !! u).
Proof.
  intros s'. split_and!.
  - exact (field_upd t_rest [] (set_shared s g) t (mk_thread (code o) [] true h c) u).
  - exact (field_upd t_held ∅ (set_shared s g) t (mk_thread (code o) [] true h c) u).
  - cbn. case_decide; subst; [by rewrite lookup_insert_eq|by rewrite lookup_insert_ne].
Qed.

(** Starting a call changes only what the thread has still to do. *)
Lemma call_inv s t th c g o :
  Inv s -> threads s !! t = Some th -> t_rest th = [] -> t_run th = true -> allowed (t_held th) o ->
  Inv (upd (set_shared s g) t (mk_thread (code o) [] true (held_after o (t_held th)) c)).
Proof.
  intros Hi Ht Hr Hrun Ha. destruct (views_of s t th Ht) as (V1 & V2 & V3 & V4). rewrite Hr in V1. rewrite Hrun in V4.
  set (th' := mk_thread (code o) [] true (held_after o (t_held th)) c). set (s' := upd (set_shared s g) t th').
  pose proof (i_sleep s Hi) as Hs.
  assert (V0 : target s t = []).
  { destruct (target s t) eqn:E; [done|]. assert (Hd : drains (rest s t) = true) by (apply (so_drain s Hs); by rewrite E).
    by rewrite V1 in Hd. }
  assert (Er : forall u, rest s' u = if decide (u = t) then code o else rest s u)
    by (intros u; apply (call_views s t g o)).
  assert (Eh : forall u, held s' u = if decide (u = t) then held_after o (t_held th) else held s u)
    by (intros u; apply (call_views s t g o)).
  assert (Et : forall u, target s' u = target s u).
  { intros u. unfold target at 1. unfold s'. rewrite (field_upd t_target []). by case_decide; subst. }
  assert (Eu : forall u, running s' u = running s u).
  { intros u. unfold running at 1. unfold s'. rewrite (field_upd t_run true). by case_decide; subst. }
  assert (Hspin : forall x u, holds_spin x (rest s' u) = holds_spin x (rest s u)).
  { intros x u. rewrite Er. case_decide; [subst|done]. by rewrite code_spins, V1. }
  assert (Hown : forall l u, owns l (rest s' u) (held s' u) = owns l (rest s u) (held s u) /\
    holds_lock l (rest s' u) (held s' u) = holds_lock l (rest s u) (held s u)).
  { intros l u. rewrite Er, Eh. case_decide; [subst|done]. rewrite V1, V2. by apply code_start. }
  assert (Hne : forall u, running s u = false -> rest s' u = rest s u).
  { intros u Hu. rewrite Er, decide_False by congruence. done. }
  assert (Hhelp : forall w u, helper s w u -> helper s' w u).
  { intros w u [H1 H2]. split; [|done]. rewrite Er. case_decide; [subst; by rewrite V1 in H1|done]. }
  destruct Hi as [Iw Is Io Ih Ie Id Ic _ Ik]. split.
  - intros u. rewrite Er, Eh. case_decide; [|apply Iw]. by apply wfk_code.
  - intros x u. rewrite Hspin. apply Is.
  - intros l u. rewrite (proj1 (Hown l u)). apply Io.
  - intros l. setoid_rewrite (fun u => proj2 (Hown l u)). apply Ih.
  - intros l u v. rewrite (proj2 (Hown l u)), (proj2 (Hown l v)). apply Ie.
  - intros u. rewrite Er. case_decide; [by destruct o|apply Id].
  - apply Ic.
  - destruct Hs as [S1 S2 S3 S4 S5 S6 S7]. split.
    + apply S1.
    + intros w u Hu. destruct (S2 w u Hu) as (? & ? & ? & ?). rewrite Eu, Hne by done. setoid_rewrite Et. auto.
    + intros v u. rewrite Eu. setoid_rewrite Et. apply S3.
    + intros u. rewrite Et. apply S4.
    + intros u. rewrite Et. intros Hu. rewrite Er, decide_False by (intros ->; by rewrite V0 in Hu). by apply S5.
    + intros u. rewrite Eu. setoid_rewrite Et. apply S6.
    + intros u x. rewrite Eu, Hspin. apply S7.
  - intros w Hw. eapply at_least_mono; [apply Hhelp|].
    destruct (guard w) eqn:Eg; [|destruct w; try done; by apply at_least_0].
    apply (Ik w). destruct Hw as [Hw|[u Hu]]; [by left|right; exists u].
    rewrite Er in Hu. case_decide; [|done]. pose proof (only_cv_elem _ _ (code_only_cv o) Hu). congruence.
Qed.

Lemma drains_elem k : drains k = true -> MakeRunnable ∈ k.
Proof.
  induction k as [|i k IH]; [done|]. destruct i; cbn; try done; rewrite elem_of_cons; auto.
Qed.

(** A thread on its way to sleep in [cv_wait] has the lock or the channel. *)
Lemma wait_position c l k h :
  k `suffix_of` cv_wait c l -> Sleep (WCv c) ∈ k ->
  holds_lock l k h = true \/ holds_spin (SWc (WCv c)) k = true.
Proof.
  unfold cv_wait, lock_acquire, lock_release, wchan_wakeone, wchan_lock, wchan_sleep. cbn [app].
  intros Hk Hin. destruct k as [|a k]; [by apply elem_of_nil in Hin|].
  do 12 (apply suffix_cons_inv in Hk as [E|Hk]; [rewrite E; cbn; repeat case_decide; simplify_eq; by auto|]).
  exfalso. destruct Hk as [k' E]. assert (Hs : Sleep (WCv c) ∈ k' ++ a :: k) by set_solver. rewrite <- E in Hs.
  repeat (apply elem_of_cons in Hs as [?|Hs]; [done|]). by apply elem_of_nil in Hs.
Qed.

Lemma spin_cases a : (exists y, a = SpinAcquire y) \/ forall y, a <> SpinAcquire y.
Proof. destruct a; eauto. Qed.

(** A thread that waits for a spinlock waits for one that can go on. *)
Lemma spin_chain s n t x k :
  Inv s -> rest s t = SpinAcquire x :: k -> running s t = true -> (3 - rank x <= Z.of_nat n) ->
  exists u th a k', threads s !! u = Some th /\ t_run th = true /\ t_rest th = a :: k' /\
    forall y, a = SpinAcquire y -> spin s y = None.
Proof.
  intros Hi. revert t x k. induction n as [|n IH]; intros t x k Hr Hrun Hn.
  { destruct x as [| |[]]; cbn in Hn; lia. }
  destruct (spin s x) as [u|] eqn:E.
  - apply (i_spin s Hi) in E.
    assert (Hu : running s u = true).
    { destruct (running s u) eqn:Eu; [done|]. by rewrite (so_spins s (i_sleep s Hi) u x Eu) in E. }
    pose proof (i_wf s Hi u) as Hw. destruct (rest s u) as [|a k'] eqn:Er; [done|]. destruct Hw as (Ha & _).
    destruct (spin_cases a) as [[y ->]|Hno].
    + cbn in E. case_decide as Hd; [done|]. destruct Ha as (_ & Ha & _). destruct (Ha x E) as [?|?]; [done|].
      apply (IH u y k'); [done|done|lia].
    + destruct (threads s !! u) as [th|] eqn:Et; [|by unfold rest in Er; rewrite Et in Er].
      destruct (views_of s u th Et) as (V1 & _ & _ & V4). exists u, th, a, k'.
      split_and!; congruence.
  - destruct (threads s !! t) as [th|] eqn:Et; [|by unfold rest in Hr; rewrite Et in Hr].
    destruct (views_of s t th Et) as (V1 & _ & _ & V4). exists t, th, (SpinAcquire x), k.
    split_and!; try congruence.
Qed.

Lemma cv_atomic s t u c l :
  Inv s -> l ∈ held s t ->
  rest s t = [RemAll (WCv c); SpinRelease (SWc (WCv c)); MakeRunnable] \/
  rest s t = [RemHead (WCv c); SpinRelease (SWc (WCv c)); MakeRunnable] ->
  rest s u `suffix_of` cv_wait c l -> Sleep (WCv c) ∉ rest s u.
Proof.
  intros Hi Hl Ht Hk Hin.
  assert (Htl : holds_lock l (rest s t) (held s t) = true)
    by (destruct Ht as [-> | ->]; by apply bool_decide_eq_true_2).
  assert (Hts : spin s (SWc (WCv c)) = Some t)
    by (apply (i_spin s Hi); destruct Ht as [-> | ->]; cbn; by rewrite decide_True).
  assert (Hne : u <> t) by (intros ->; destruct Ht as [E|E]; rewrite E in Hin; set_solver).
  apply Hne. destruct (wait_position c l (rest s u) (held s u) Hk Hin) as [H|H].
  - by apply (i_excl s Hi l).
  - apply (i_spin s Hi) in H. congruence.
Qed.

Context (body : Z -> I -> C -> G -> outcome (C * G * op)).

Lemma step_inv s t i s' :
  Inv s -> obeys body t i s -> step body t i s = Some (Ret s') -> Inv s'.
Proof.
  intros Hi [Ho Hc] E. unfold step in E. destruct (threads s !! t) as [th|] eqn:Ht; [|done].
  destruct (t_run th) eqn:Hrun; [|done]. destruct (views_of s t th Ht) as (V1 & V2 & V3 & V4).
  destruct (t_rest th) as [|a k] eqn:Hr; cbn in E.
  - destruct (body t i (t_client th) (shared s)) as [[[c g] o]| | |] eqn:Eb; simplify_eq.
    apply call_inv; try done. by eapply Ho.
  - eapply (access_inv s s' t a k); try done; [congruence|by eapply exec_effect|].
    intros x ->. by eapply Hc.
Qed.

Lemma reach_inv s0 s : reach body s0 s -> Inv s.
Proof. induction 1; [by apply initial_inv|by eapply step_inv]. Qed.

(** ** Executions *)

(** [obeys] as a test, and the run of a schedule: thread and outside choice of
    every step. *)
Definition allowedb (h : gset Z) (o : op) : bool :=
  match o with
  | OpAcquire l => bool_decide (l ∉ h)
  | OpRelease l | OpWait _ l | OpSignal _ l | OpBroadcast _ l => bool_decide (l ∈ h)
  | _ => true
  end.

Lemma allowedb_ok h o : allowedb h o = true -> allowed h o.
Proof. destruct o; cbn; try done; apply bool_decide_eq_true_1. Qed.

Definition obeysb t i s : bool :=
  match threads s !! t with
  | None => true
  | Some th =>
      match t_rest th with
      | [] => match body t i (t_client th) (shared s) with
              | Ret (_, _, o) => allowedb (t_held th) o
              | _ => true
              end
      | IncCount x :: _ => sem_count s x <? 2147483647
      | _ => true
      end
  end.

Lemma obeysb_ok t i s : obeysb t i s = true -> obeys body t i s.
Proof.
  unfold obeysb. intros H. split.
  - intros th c g o Ht Hr Eb. rewrite Ht, Hr, Eb in H. by apply allowedb_ok.
  - intros th x k Ht Hr. rewrite Ht, Hr in H. lia.
Qed.

Fixpoint run (l : list (Z * I)) s : option (outcome (st C G)) :=
  match l with
  | [] => Some (Ret s)
  | (t, i) :: l =>
      if obeysb t i s then
        match step body t i s with
        | Some (Ret s') => run l s'
        | r => r
        end
      else None
  end.

Lemma run_reach l s0 s s' : reach body s0 s -> run l s = Some (Ret s') -> reach body s0 s'.
Proof.
  revert s. induction l as [|[t i] l IH]; cbn; intros s Hr E; [by simplify_eq|].
  destruct (obeysb t i s) eqn:Eo; [|done]. destruct (step body t i s) as [[s1| | |]|] eqn:Es; try done.
  apply (IH s1); [|done]. eapply reach_step; [done|by apply obeysb_ok|done].
Qed.

(** The state in which a schedule ends, when it can be run. *)
Definition finished (r : option (outcome (st C G))) : bool :=
  match r with Some (Ret _) => true | _ => false end.
Definition final (l : list (Z * I)) s0 : st C G :=
  match run l s0 with Some (Ret s) => s | _ => s0 end.

Lemma final_reach l s0 : initial s0 -> finished (run l s0) = true -> reach body s0 (final l s0).
Proof.
  intros Hi. unfold final. destruct (run l s0) as [[s| | |]|] eqn:E; try done.
  intros _. eapply run_reach; [by apply reach_init|done].
Qed.

(** ** Theorems *)

(** C2. Locks exclude each other and the assertions hold.  For every client
    that keeps to the rules of use and under every interleaving of single
    accesses: a thread inside [P], [V], [lock_acquire], [lock_release],
    [cv_wait], [cv_signal] or [cv_broadcast] either spins on a spinlock of
    another thread or completes its next access without a failing assertion;
    two threads that have returned from [lock_acquire] and not yet called
    [lock_release] on the same lock are the same thread, which is the owner;
    and semaphore counts stay between 0 and the largest [int]. *)
Theorem synch_safe s0 s :
  reach body s0 s ->
  (forall t i, obeys body t i s -> rest s t <> [] ->
     step body t i s = None \/ exists s', step body t i s = Some (Ret s')) /\
  (forall l t, l ∈ held s t -> rest s t = [] -> hold s l = true /\ owner s l = Some t) /\
  (forall l t u, l ∈ held s t -> rest s t = [] -> l ∈ held s u -> rest s u = [] -> t = u) /\
  (forall x, 0 <= sem_count s x < 2147483648).
Proof.
  intros Hi%reach_inv. split_and!.
  - intros t i [_ Hc] Hr. unfold step. unfold rest in Hr. destruct (threads s !! t) as [th|] eqn:Ht; [|done].
    destruct (t_run th) eqn:Hrun; [|by left]. cbn in *. destruct (t_rest th) as [|a k] eqn:E; [done|].
    apply exec_safe; try done. intros x ->. by eapply Hc.
  - intros l t Hl Hr. split; [apply (i_hold s Hi); exists t|apply (i_owner s Hi)];
      rewrite Hr; by apply bool_decide_eq_true_2.
  - intros l t u Ht Hrt Hu Hru. apply (i_excl s Hi l); rewrite ?Hrt, ?Hru; by apply bool_decide_eq_true_2.
  - apply (i_count s Hi).
Qed.

(** C12. No wakeup is lost.  Whenever a thread sleeps on the channel of a free
    lock, some other thread that is not asleep is about to take the lock or to
    wake a sleeper; for a semaphore there are at least as many such threads as
    its count.  A thread that does not run is on a channel, or a waker has it
    in its hands and is about to make it runnable. *)
Theorem no_lost_wakeup s0 s :
  reach body s0 s ->
  (forall l, wc_threads s (WLock l) <> [] -> hold s l = false -> exists t, helper s (WLock l) t) /\
  (forall x, wc_threads s (WSem x) <> [] -> at_least (sem_count s x) (helper s (WSem x))) /\
  (forall t, running s t = false ->
     on_channel s t \/ exists u, t ∈ target s u /\ MakeRunnable ∈ rest s u).
Proof.
  intros Hi%reach_inv. pose proof (i_sleep s Hi) as Hs. split_and!.
  - intros l Hl Hh. destruct (i_wake s Hi (WLock l)) as ([|t ts] & _ & Hn & Hf); [by left|..].
    + cbn in Hn. by rewrite Hh in Hn.
    + exists t. by inversion Hf.
  - intros x Hx. apply (i_wake s Hi (WSem x)). by left.
  - intros t Ht. destruct (so_place s Hs t Ht) as [?|[u Hu]]; [by left|right]. exists u. split; [done|].
    apply drains_elem, (so_drain s Hs). intros E. rewrite E in Hu. by apply elem_of_nil in Hu.
Qed.

(** C32. Spinlocks do not deadlock.  Whenever a thread that is not asleep is
    inside one of the operations, some thread inside an operation can make its
    next access: the spinlocks are always taken in the order condition variable
    channel, lock or semaphore, and channel of the lock or semaphore. *)
Theorem operations_progress s0 s t i :
  reach body s0 s -> running s t = true -> rest s t <> [] -> (forall u, obeys body u i s) ->
  exists u s', rest s u <> [] /\ step body u i s = Some (Ret s').
Proof.
  intros Hi%reach_inv Hrun Hr Ho.
  assert (H : exists u th a k', threads s !! u = Some th /\ t_run th = true /\ t_rest th = a :: k' /\
    forall y, a = SpinAcquire y -> spin s y = None).
  { destruct (rest s t) as [|a k] eqn:E; [done|]. destruct (spin_cases a) as [[y ->]|Hno].
    - apply (spin_chain s 3 t y k); try done. destruct y as [| |[]]; cbn; lia.
    - destruct (threads s !! t) as [th|] eqn:Et; [|by unfold rest in E; rewrite Et in E].
      destruct (views_of s t th Et) as (V1 & _ & _ & V4). exists t, th, a, k.
      split_and!; congruence. }
  destruct H as (u & th & a & k & Ht & Hru & Hre & Hsp). destruct (views_of s u th Ht) as (V1 & _).
  exists u. unfold step. rewrite Ht, Hru, Hre, V1, Hre. cbn [negb].
  destruct (exec_safe s u th a k) as [E|[s' E]]; try done; [intros x ->; by eapply (Ho u)| |by eauto].
  exfalso. destruct a; cbn in E; unfold spinlock_acquire, spinlock_release, switch_sleep, make_runnable in E;
    repeat case_match; try done. by rewrite Hsp in *.
Qed.

(** C33. Condition variables do not miss a waiter.  When a thread that has the
    lock empties the channel of a condition variable in [cv_broadcast], or
    takes the first thread off it in [cv_signal], every other thread that is
    inside [cv_wait] with the same lock and has not yet been woken is already
    on the channel: none is between giving up the lock and going to sleep. *)
Theorem cv_wait_atomic s0 s t u c l :
  reach body s0 s -> l ∈ held s t ->
  rest s t = [RemAll (WCv c); SpinRelease (SWc (WCv c)); MakeRunnable] \/
  rest s t = [RemHead (WCv c); SpinRelease (SWc (WCv c)); MakeRunnable] ->
  rest s u `suffix_of` cv_wait c l -> Sleep (WCv c) ∉ rest s u.
Proof. intros Hi%reach_inv. by apply cv_atomic. Qed.

End invariant.

(** ** Examples: clients that run a script of calls *)

Definition script (t : Z) (i : unit) (c : list op) (g : unit) : outcome (list op * unit * op) :=
  match c with [] => Ret ([], g, Nop) | o :: c => Ret (c, g, o) end.

Definition starts (ths : list (Z * list op)) : st (list op) unit :=
  mk_st (fun _ => None) (fun _ => []) (fun _ => false) (fun _ => None) (fun _ => 0)
    (list_to_map ((fun p => (p.1, mk_thread [] [] true ∅ p.2)) <$> ths)) tt.

Lemma starts_initial ths : initial (starts ths).
Proof.
  split; try done. intros t th Ht. apply elem_of_list_to_map_2, list_elem_of_fmap in Ht as ((u & c) & E & _).
  by simplify_eq.
Qed.

(** Thread [t] makes [n] steps. *)
Definition turn (t : Z) (n : nat) : list (Z * unit) := replicate n (t, tt).

Definition reached (ths : list (Z * list op)) (l : list (Z * unit)) : st (list op) unit :=
  final script l (starts ths).

Lemma reached_reach ths l :
  finished (run script l (starts ths)) = true -> reach script (starts ths) (reached ths l).
Proof. apply final_reach, starts_initial. Qed.

Definition ex_lock : list (Z * list op) :=
  [(1, [OpAcquire 0; OpRelease 0]); (2, [OpAcquire 0; OpRelease 0])].

(** Thread 1 has the lock. *)
Lemma synch_safe_witness :
  hold (reached ex_lock (turn 1 7)) 0 = true /\ owner (reached ex_lock (turn 1 7)) 0 = Some 1.
Proof.
  apply (synch_safe script (starts ex_lock) (reached ex_lock (turn 1 7))).
  - apply reached_reach. vm_compute. reflexivity.
  - apply (bool_decide_eq_true_1 (_ ∈ _)). vm_compute. reflexivity.
  - vm_compute. reflexivity.
Defined.

(** Thread 2 sleeps, thread 1 has just freed the lock. *)
Definition ex_free : list (Z * unit) := turn 1 7 ++ turn 2 7 ++ turn 1 4.

Lemma no_lost_wakeup_witness : exists t, helper (reached ex_lock ex_free) (WLock 0) t.
Proof.
  apply (no_lost_wakeup script (starts ex_lock) (reached ex_lock ex_free)).
  - apply reached_reach. vm_compute. reflexivity.
  - vm_compute. discriminate.
  - vm_compute. reflexivity.
Defined.

Lemma obeys_all s i :
  forallb (fun p => obeysb script p.1 i s) (map_to_list (threads s)) = true -> forall u, obeys script u i s.
Proof.
  intros H u. apply obeysb_ok. destruct (threads s !! u) as [th|] eqn:E; [|unfold obeysb; by rewrite E].
  rewrite forallb_forall in H. apply (H (u, th)). by apply list_elem_of_In, elem_of_map_to_list.
Qed.

(** Thread 2 spins on the lock's spinlock, which thread 1 has. *)
Definition ex_spin : list (Z * unit) := turn 1 3 ++ turn 2 2.

Lemma operations_progress_witness :
  exists u s', rest (reached ex_lock ex_spin) u <> [] /\ step script u tt (reached ex_lock ex_spin) = Some (Ret s').
Proof.
  apply (operations_progress script (starts ex_lock) (reached ex_lock ex_spin) 2 tt).
  - apply reached_reach. vm_compute. reflexivity.
  - vm_compute. reflexivity.
  - vm_compute. discriminate.
  - apply obeys_all. vm_compute. reflexivity.
Defined.

(** Thread 2 sleeps in [cv_wait] and thread 1 is about to empty the channel. *)
Definition ex_cv : list (Z * list op) :=
  [(1, [OpAcquire 0; OpBroadcast 5 0; OpRelease 0]); (2, [OpAcquire 0; OpWait 5 0; OpRelease 0])].
Definition ex_signal : list (Z * unit) := turn 2 20 ++ turn 1 10.

Lemma cv_wait_atomic_witness :
  wc_threads (reached ex_cv ex_signal) (WCv 5) = [2] /\
  Sleep (WCv 5) ∉ rest (reached ex_cv ex_signal) 2.
Proof.
  split; [vm_compute; reflexivity|].
  apply (cv_wait_atomic script (starts ex_cv) (reached ex_cv ex_signal) 1 2 5 0).
  - apply reached_reach. vm_compute. reflexivity.
  - apply (bool_decide_eq_true_1 (_ ∈ _)). vm_compute. reflexivity.
  - left. vm_compute. reflexivity.
  - exists (take 12 (cv_wait 5 0)). vm_compute. reflexivity.
Defined.
