(* ===== verification/Traffic.v ===== *)
(** * The intersection (kern/synchprobs/traffic_synch.c, traffic.c)

    Vehicles cross an intersection under the control of
    [intersection_before_entry] and [intersection_after_exit], as a client of
    the machine of Synch.v: the critical sections of the vehicles interleave
    with the single accesses of the locks, semaphores and condition variables
    that they use.  The number of iterations and the statistics of the
    simulation are left out: vehicles keep arriving. *)

From stdpp Require Import base numbers list gmap functions.
From Stdlib Require Import ZArith Lia.
From S2P Require Import Prelude Synch SynchSpec.

(** ** Data *)

Definition north : Z := 0.
Definition east : Z := 1.
Definition south : Z := 2.
Definition west : Z := 3.

Record vehicle := mk_vehicle { origin : Z; destination : Z }.

#[global] Instance vehicle_eq_dec : EqDecision vehicle.
Proof. solve_decision. Defined.

Record traffic := mk_traffic {
  waitlist : list Z;
  len_waitlist : Z;
  currentTraffic : Z;
  count : Z;
  vehicles : list (option vehicle)
}.

Definition MAX_THREADS : Z := 10.

(** The lock [lk_mutex], the semaphore [mutex] of the driver, and the condition
    variables by direction. *)
Definition lk_mutex : Z := 0.
Definition mutex : Z := 0.

Definition initialize_state : traffic :=
  mk_traffic [-1; -1; -1; -1] 0 (-1) 0 (replicate 10 None).

(** ** traffic_synch.c *)

Definition transDir (o : Z) : Z :=
  if o =? north then 0 else if o =? east then 1 else if o =? south then 2
  else if o =? west then 3 else -1.

Definition set_entered (g : traffic) cur n := mk_traffic (waitlist g) (len_waitlist g) cur n (vehicles g).
Definition set_waitlist (g : traffic) l n := mk_traffic l n (currentTraffic g) (count g) (vehicles g).
Definition set_vehicles (g : traffic) v := mk_traffic (waitlist g) (len_waitlist g) (currentTraffic g) (count g) v.

(** [intersection_before_entry] up to the call of [cv_wait]: true if the
    vehicle may enter at once. *)
Definition intersection_before_entry (o : Z) (g : traffic) : outcome (traffic * bool) :=
  if (count g =? 0) && ((currentTraffic g =? -1) || (currentTraffic g =? transDir o)) then
    Ret (set_entered g (transDir o) (s32 (count g + 1)), true)
  else if negb (len_waitlist g =? 4) then
    if existsb (fun x => x =? transDir o) (waitlist g) then Ret (g, false)
    else
      match set_at (waitlist g) (len_waitlist g) (transDir o) with
      | Ret l => Ret (set_waitlist g l (s32 (len_waitlist g + 1)), false)
      | _ => Fault
      end
  else Ret (g, false).

(** After [cv_wait]. *)
Definition entry_resumed (g : traffic) : traffic := set_entered g (currentTraffic g) (s32 (count g + 1)).

(** [intersection_after_exit] up to the broadcast: the condition variable to
    broadcast, if any. *)
Definition intersection_after_exit (g : traffic) : outcome (traffic * option Z) :=
  let n := s32 (count g - 1) in
  if n =? 0 then
    match waitlist g with
    | [a; b; c; d] =>
        if a =? -1 then Ret (set_entered g (-1) n, None)
        else
          let g' := set_waitlist (set_entered g a n) [b; c; d; -1] (s32 (len_waitlist g - 1)) in
          Ret (g', if (0 <=? a) && (a <=? 3) then Some a else None)
    | _ => Fault
    end
  else Ret (set_entered g (currentTraffic g) n, None).

(** ** traffic.c *)

Definition right_turn (v : vehicle) : bool :=
  ((origin v =? west) && (destination v =? south)) ||
  ((origin v =? south) && (destination v =? east)) ||
  ((origin v =? east) && (destination v =? north)) ||
  ((origin v =? north) && (destination v =? west)).

Definition no_conflict (a b : vehicle) : bool :=
  (origin a =? origin b) ||
  ((origin a =? destination b) && (destination a =? origin b)) ||
  ((right_turn a || right_turn b) && negb (destination b =? destination a)).

Definition check_constraints (NumThreads t : Z) (v : vehicle) (g : traffic) : bool :=
  forallb (fun i => if i =? t then true
                    else match vehicles g !! Z.to_nat i with
                         | Some (Some a) => no_conflict a v
                         | _ => true
                         end) (seqZ 0 NumThreads).

(** Where a thread of [vehicle_simulation] is between two calls. *)
Inductive vpc :=
  | Arrive
  | BeforeEntry (v : vehicle) | Waiting (v : vehicle)
  | EnterP (v : vehicle) | Enter (v : vehicle) | Inside (v : vehicle) | Leave (v : vehicle)
  | ExitLock (v : vehicle) | AfterExit (v : vehicle) | ExitRelease.

(** [choose_direction] gives any direction; the destination is another one. *)
Definition arrival (i : Z * Z) : vehicle :=
  let o := i.1 mod 4 in mk_vehicle o ((o + i.2 mod 3 + 1) mod 4).

Definition vehicle_simulation (NumThreads t : Z) (i : Z * Z) (p : vpc) (g : traffic)
  : outcome (vpc * traffic * op) :=
  match p with
  | Arrive => Ret (BeforeEntry (arrival i), g, OpAcquire lk_mutex)
  | BeforeEntry v =>
      match intersection_before_entry (origin v) g with
      | Ret (g, true) => Ret (EnterP v, g, OpRelease lk_mutex)
      | Ret (g, false) => Ret (Waiting v, g, OpWait (origin v) lk_mutex)
      | _ => Fault
      end
  | Waiting v => Ret (EnterP v, entry_resumed g, OpRelease lk_mutex)
  | EnterP v => Ret (Enter v, g, OpP mutex)
  | Enter v =>
      match get_at (vehicles g) t with
      | Ret None =>
          match set_at (vehicles g) t (Some v) with
          | Ret vs =>
              let g := set_vehicles g vs in
              if check_constraints NumThreads t v g then Ret (Inside v, g, OpV mutex) else Panic
          | _ => Fault
          end
      | Ret (Some _) => Panic
      | _ => Fault
      end
  | Inside v => Ret (Leave v, g, OpP mutex)
  | Leave v =>
      match get_at (vehicles g) t with
      | Ret (Some _) =>
          match set_at (vehicles g) t None with
          | Ret vs => Ret (ExitLock v, set_vehicles g vs, OpV mutex)
          | _ => Fault
          end
      | Ret None => Panic
      | _ => Fault
      end
  | ExitLock v => Ret (AfterExit v, g, OpAcquire lk_mutex)
  | AfterExit v =>
      match intersection_after_exit g with
      | Ret (g, Some c) => Ret (ExitRelease, g, OpBroadcast c lk_mutex)
      | Ret (g, None) => Ret (Arrive, g, OpRelease lk_mutex)
      | _ => Fault
      end
  | ExitRelease => Ret (Arrive, g, OpRelease lk_mutex)
  end.

(** [NumThreads] threads before the first arrival. *)
Definition traffic_simulation (NumThreads : Z) : st vpc traffic :=
  mk_st (fun _ => None) (fun _ => []) (fun _ => false) (fun _ => None)
    (fun x => if x =? mutex then 1 else 0)
    (list_to_map ((fun t => (t, mk_thread [] [] true ∅ Arrive)) <$> seqZ 0 NumThreads))
    initialize_state.

(** ** A collision *)

Lemma traffic_initial n : 0 <= n -> initial (traffic_simulation n).
Proof.
  intros Hn. split; try done.
  - intros x. cbn. by destruct (x =? mutex).
  - intros t th Ht. apply elem_of_list_to_map_2, list_elem_of_fmap in Ht as (u & E & _). by simplify_eq.
Qed.

Definition turns_of (t : Z) (i : Z * Z) (n : nat) : list (Z * (Z * Z)) := replicate n (t, i).
Definition from_east : Z * Z := (1, 1).
Definition from_north : Z * Z := (0, 1).

(** Thread 0 crosses from the east while 1 and 2 arrive from the north and
    wait; it leaves and wakes both; 1 crosses and leaves before 2 gets the
    lock; 0 comes from the east again, and then 2 enters. *)
Definition collision : list (Z * (Z * Z)) :=
  turns_of 0 from_east 32 ++ turns_of 1 from_north 20 ++ turns_of 2 from_north 20 ++
  turns_of 0 from_east 40 ++ turns_of 1 from_north 63 ++ turns_of 0 from_east 32 ++
  turns_of 2 from_north 22.

Definition collision_state : st vpc traffic :=
  final (vehicle_simulation 3) collision (traffic_simulation 3).

(** The intersection is not safe: an execution with three threads in which
    a vehicle that was woken late goes from north to south while another one is
    on its way from east to west, and [check_constraints] stops the kernel. *)
Theorem vehicles_collide :
  exists s,
    reach (vehicle_simulation 3) (traffic_simulation 3) s /\
    t_client <$> threads s !! 2 = Some (Enter (mk_vehicle north south)) /\ rest s 2 = [] /\
    vehicles (shared s) !! 0%nat = Some (Some (mk_vehicle east west)) /\
    step (vehicle_simulation 3) 2 from_north s = Some Panic.
Proof.
  exists collision_state. split.
  - apply final_reach; [apply traffic_initial; lia|]. vm_compute. reflexivity.
  - split_and!; vm_compute; reflexivity.
Qed.

(** ** No vehicle is stranded *)

Definition pc (s : st vpc traffic) t : vpc := default Arrive (t_client <$> threads s !! t).

Definition has_lock (p : vpc) : bool :=
  match p with BeforeEntry _ | Waiting _ | AfterExit _ | ExitRelease => true | _ => false end.

(** Let in by [intersection_before_entry] and not yet out of
    [intersection_after_exit]. *)
Definition counted (p : vpc) : bool :=
  match p with
  | EnterP _ | Enter _ | Inside _ | Leave _ | ExitLock _ | AfterExit _ => true
  | _ => false
  end.

Definition vehicle_of (p : vpc) : option vehicle :=
  match p with
  | Arrive | ExitRelease => None
  | BeforeEntry v | Waiting v | EnterP v | Enter v | Inside v | Leave v | ExitLock v | AfterExit v => Some v
  end.

(** Waiting for its turn on the condition variable of direction [c]; about to
    wake these; woken and not yet let in. *)
Definition blocked (s : st vpc traffic) c t : Prop := t ∈ wc_threads s (WCv c) \/ Sleep (WCv c) ∈ rest s t.
Definition wakes (s : st vpc traffic) c u : Prop := RemAll (WCv c) ∈ rest s u.
Definition woken s t : Prop := (exists v, pc s t = Waiting v) /\ forall c, ~ blocked s c t.

(** Some vehicle is inside, or on its way in. *)
Definition active (s : st vpc traffic) : Prop :=
  0 < count (shared s) \/ (exists t, woken s t) \/ exists u c, wakes s c u.

Record queue_ok (g : traffic) (ds : list Z) : Prop := {
  q_list : waitlist g = ds ++ replicate (4 - length ds) (-1);
  q_len : len_waitlist g = zlength ds;
  q_nodup : NoDup ds;
  q_dirs : Forall (fun d => 0 <= d <= 3) ds
}.

Record turns_ok s (ds : list Z) : Prop := {
  u_queue : queue_ok (shared s) ds;
  u_blocked : forall c t, blocked s c t -> c ∈ ds \/ exists u, wakes s c u;
  u_listed : forall c, c ∈ ds -> exists t, blocked s c t;
  u_wakes : forall c u, wakes s c u -> c ∉ ds /\ exists t, blocked s c t;
  u_active : ds <> [] \/ currentTraffic (shared s) <> -1 -> active s
}.

(** The number of threads in a list for which a test holds. *)
Definition number (f : Z -> bool) (l : list Z) : Z := foldr (fun t n => (if f t then 1 else 0) + n) 0 l.

Lemma number_cons f t l : number f (t :: l) = (if f t then 1 else 0) + number f l.
Proof. done. Qed.

Lemma number_bounds f l : 0 <= number f l <= zlength l.
Proof.
  unfold zlength. induction l as [|t l IH]; [done|]. rewrite number_cons. cbn [length]. destruct (f t); lia.
Qed.

Lemma number_pos f l t : t ∈ l -> f t = true -> 0 < number f l.
Proof.
  intros Ht Hf. induction l as [|u l IH]; [by apply elem_of_nil in Ht|]. rewrite number_cons.
  pose proof (number_bounds f l). apply elem_of_cons in Ht as [->|Ht]; [rewrite Hf; lia|].
  specialize (IH Ht). destruct (f u); lia.
Qed.

Lemma number_ext f f' l : (forall u, u ∈ l -> f' u = f u) -> number f' l = number f l.
Proof.
  induction l as [|u l IH]; intros H; [done|]. rewrite !number_cons, IH, H by set_solver. done.
Qed.

Lemma number_change f f' t l :
  NoDup l -> t ∈ l -> (forall u, u <> t -> f' u = f u) ->
  number f' l = number f l + (if f' t then 1 else 0) - (if f t then 1 else 0).
Proof.
  intros Hn Ht Hf. induction l as [|u l IH]; [by apply elem_of_nil in Ht|].
  apply list.NoDup_cons in Hn as [Hn1 Hn2]. rewrite !number_cons. apply elem_of_cons in Ht as [->|Ht].
  - rewrite (number_ext f f' l); [lia|]. intros v Hv. apply Hf. by intros ->.
  - rewrite IH by done. rewrite (Hf u); [lia|]. by intros ->.
Qed.

(** [count] is the number of vehicles that were let in and are not yet out. *)
Definition inside (s : st vpc traffic) : Z := number (fun t => counted (pc s t)) (seqZ 0 MAX_THREADS).

Record TInv s : Prop := {
  t_dom : forall t th, threads s !! t = Some th -> 0 <= t < MAX_THREADS;
  t_lock : forall t, held s t = if has_lock (pc s t) then {[lk_mutex]} else ∅;
  t_sleep : forall t c, Sleep (WCv c) ∈ rest s t ->
    rest s t `suffix_of` cv_wait c lk_mutex /\ exists v, pc s t = Waiting v /\ origin v = c;
  t_wakes : forall u c, wakes s c u ->
    rest s u `suffix_of` cv_broadcast c lk_mutex /\ pc s u = ExitRelease;
  t_nosig : forall t c, RemHead (WCv c) ∉ rest s t;
  t_chan : forall t c, t ∈ wc_threads s (WCv c) -> exists v, pc s t = Waiting v /\ origin v = c;
  t_dirs : forall t v, vehicle_of (pc s t) = Some v -> 0 <= origin v <= 3;
  t_count : count (shared s) = inside s;
  t_turns : exists ds, turns_ok s ds
}.

(** *** Accesses *)

(** All suffixes of a piece of code. *)
Ltac suffix_cases H :=
  repeat (apply suffix_cons_inv in H as [H|H]; [simplify_eq|]);
  try by apply suffix_nil_inv in H.

Lemma wait_after_loop l c k : WhileHold l :: k `suffix_of` cv_wait c lk_mutex -> Sleep (WCv c) ∉ k.
Proof.
  unfold cv_wait, lock_acquire, lock_release, wchan_wakeone, wchan_lock, wchan_sleep. cbn [app].
  intros H. suffix_cases H. set_solver.
Qed.

Lemma wait_no_zero x c k : ~ WhileZero x :: k `suffix_of` cv_wait c lk_mutex.
Proof.
  unfold cv_wait, lock_acquire, lock_release, wchan_wakeone, wchan_lock, wchan_sleep. cbn [app].
  intros H. suffix_cases H.
Qed.

Lemma broadcast_no_loop i c k :
  (exists l, i = WhileHold l) \/ (exists x, i = WhileZero x) -> ~ i :: k `suffix_of` cv_broadcast c lk_mutex.
Proof.
  unfold cv_broadcast, wchan_wakeall. intros Hi H. destruct Hi as [[? ->]|[? ->]]; suffix_cases H.
Qed.

Lemma broadcast_at_rem c k :
  RemAll (WCv c) :: k `suffix_of` cv_broadcast c lk_mutex -> k = [SpinRelease (SWc (WCv c)); MakeRunnable].
Proof. unfold cv_broadcast, wchan_wakeall. intros H. suffix_cases H. done. Qed.

Lemma broadcast_same c c' k :
  RemAll (WCv c) ∈ k -> k `suffix_of` cv_broadcast c' lk_mutex -> c = c'.
Proof.
  intros Hin [k' E]. assert (H : RemAll (WCv c) ∈ cv_broadcast c' lk_mutex) by (rewrite E; set_solver).
  unfold cv_broadcast, wchan_wakeall in H. set_solver.
Qed.

Lemma broadcast_holds c k h :
  k `suffix_of` cv_broadcast c lk_mutex -> lk_mutex ∈ h -> holds_lock lk_mutex k h = true.
Proof.
  unfold cv_broadcast, wchan_wakeall. intros H Hh. destruct k as [|a k]; [by apply bool_decide_eq_true_2|].
  suffix_cases H; by apply bool_decide_eq_true_2.
Qed.

(** The accesses that matter here, which no loop repeats. *)
Definition marks (a : instr) : Prop :=
  match a with Sleep (WCv _) | RemAll _ | RemHead (WCv _) => True | _ => False end.

Lemma marks_next {C G} (s : st C G) t i k a : marks a -> a ∈ next s t i k <-> a ∈ k.
Proof.
  intros Ha. destruct i; cbn [next]; try done; case_match; try done;
    cbn; rewrite !elem_of_cons; destruct a; naive_solver.
Qed.

Section access.
Context (s s' : st vpc traffic) (t : Z) (i : instr) (k : list instr).
Context (HI : Inv s) (HT : TInv s) (Hr : rest s t = i :: k) (Hrun : running s t = true).
Context (He : effect t i k s s').

Lemma mark_step a u : marks a -> a <> i -> a ∈ rest s' u <-> a ∈ rest s u.
Proof.
  intros Ha Hi. rewrite (e_rest _ _ _ _ _ He). case_decide; [subst|done].
  rewrite marks_next, Hr, elem_of_cons by done. naive_solver.
Qed.

Lemma mark_fewer a u : marks a -> a ∈ rest s' u -> a ∈ rest s u.
Proof.
  intros Ha. rewrite (e_rest _ _ _ _ _ He). case_decide; [subst|done].
  rewrite marks_next, Hr, elem_of_cons by done. auto.
Qed.

Lemma pc_step u : pc s' u = pc s u.
Proof. unfold pc. by rewrite (e_client _ _ _ _ _ He). Qed.

Lemma cv_chan_step c u :
  (forall w, i <> RemAll w) ->
  u ∈ wc_threads s' (WCv c) <-> u ∈ wc_threads s (WCv c) \/ (u = t /\ i = Sleep (WCv c)).
Proof.
  intros Hn. pose proof (t_nosig s HT t) as Hs. rewrite Hr in Hs. rewrite (e_wc _ _ _ _ _ He).
  destruct i as [| | | | | | | | | | | |v|v|v|]; try naive_solver.
  - destruct (decide (WCv c = v)) as [<-|]; rewrite ?fn_lookup_insert, ?fn_lookup_insert_ne by done; set_solver.
  - rewrite fn_lookup_insert_ne; [naive_solver|]. intros ->. apply (Hs c). set_solver.
Qed.

Lemma blocked_step c u : (forall w, i <> RemAll w) -> blocked s' c u <-> blocked s c u.
Proof.
  intros Hn. unfold blocked. rewrite cv_chan_step by done.
  destruct (decide (i = Sleep (WCv c))) as [Ei|Hi].
  - destruct (decide (u = t)) as [->|Hu]; [rewrite Hr, Ei; set_solver|].
    rewrite (e_rest _ _ _ _ _ He), decide_False by done. naive_solver.
  - rewrite mark_step by done. naive_solver.
Qed.

Lemma wakes_step c u : (forall w, i <> RemAll w) -> wakes s' c u <-> wakes s c u.
Proof. intros Hn. apply mark_step; [done|]. intros E. by apply (Hn (WCv c)). Qed.

Lemma suffix_step u k0 a :
  marks a -> a ∈ rest s' u -> rest s u `suffix_of` k0 -> (forall l, WhileHold l :: k `suffix_of` k0 -> a ∉ k) ->
  (forall x, WhileZero x :: k `suffix_of` k0 -> a ∉ k) -> rest s' u `suffix_of` k0.
Proof.
  intros Ha Hin Hs H1 H2. rewrite (e_rest _ _ _ _ _ He) in Hin |- *. case_decide; [subst u|done].
  rewrite marks_next in Hin by done. rewrite Hr in Hs.
  assert (Hk : k `suffix_of` k0) by (by apply suffix_cons_l in Hs).
  destruct i; cbn [next]; try done; case_match; try done; exfalso; naive_solver.
Qed.

Lemma sleep_code u c :
  Sleep (WCv c) ∈ rest s' u ->
  rest s' u `suffix_of` cv_wait c lk_mutex /\ exists v, pc s' u = Waiting v /\ origin v = c.
Proof.
  intros Hin. destruct (t_sleep s HT u c) as [Hs Hp]; [by apply mark_fewer|]. rewrite pc_step.
  split; [|done]. eapply suffix_step; eauto; [done|..].
  - intros l. apply wait_after_loop.
  - intros x Hx. by apply wait_no_zero in Hx.
Qed.

Lemma wakes_code u c :
  wakes s' c u -> rest s' u `suffix_of` cv_broadcast c lk_mutex /\ pc s' u = ExitRelease.
Proof.
  intros Hin. destruct (t_wakes s HT u c) as [Hs Hp]; [by apply mark_fewer|]. rewrite pc_step.
  split; [|done]. eapply suffix_step; eauto; [done|..].
  - intros l Hl. apply broadcast_no_loop in Hl; eauto.
  - intros x Hx. apply broadcast_no_loop in Hx; eauto.
Qed.

(** The thread that is about to wake is alone with the lock. *)
Lemma waker_unique u v c c' : wakes s c u -> wakes s c' v -> u = v.
Proof.
  intros H1 H2. destruct (t_wakes s HT u c H1) as [S1 P1], (t_wakes s HT v c' H2) as [S2 P2].
  apply (i_excl s HI lk_mutex); eapply broadcast_holds; eauto; rewrite (t_lock s HT), ?P1, ?P2; set_solver.
Qed.

Lemma turns_same ds : (forall w, i <> RemAll w) -> turns_ok s ds -> turns_ok s' ds.
Proof.
  intros Hn [U1 U2 U3 U4 U5]. pose proof (fun c u => blocked_step c u Hn) as Hb.
  pose proof (fun c u => wakes_step c u Hn) as Hw. pose proof (e_shared _ _ _ _ _ He) as Eg. split.
  - by rewrite Eg.
  - intros c u. rewrite Hb. setoid_rewrite Hw. apply U2.
  - intros c. setoid_rewrite Hb. apply U3.
  - intros c u. rewrite Hw. setoid_rewrite Hb. apply U4.
  - rewrite Eg. unfold active, woken. rewrite Eg. setoid_rewrite Hw. setoid_rewrite Hb. setoid_rewrite pc_step. apply U5.
Qed.

(** The broadcast reaches all that wait in its direction. *)
Lemma turns_broadcast ds w : i = RemAll w -> turns_ok s ds -> turns_ok s' ds.
Proof.
  intros Ei [U1 U2 U3 U4 U5]. pose proof (e_shared _ _ _ _ _ He) as Eg.
  assert (Hw : exists c, w = WCv c).
  { pose proof (i_wf s HI t) as Hwf. rewrite Hr, Ei in Hwf. destruct Hwf as ((_ & Hg & _) & _).
    destruct w; try done. eauto. }
  destruct Hw as [c0 ->]. assert (Hwt : wakes s c0 t) by (unfold wakes; rewrite Hr, Ei; set_solver).
  destruct (t_wakes s HT t c0 Hwt) as [Hs Hp]. rewrite Hr, Ei in Hs. apply broadcast_at_rem in Hs.
  assert (Hno : forall u, Sleep (WCv c0) ∉ rest s u).
  { intros u Hin. destruct (t_sleep s HT u c0 Hin) as [Hsu _]. revert Hin.
    apply (cv_atomic s t u c0 lk_mutex HI); [|left; by rewrite Hr, Ei, Hs|done]. rewrite (t_lock s HT), Hp. set_solver. }
  pose proof (e_wc _ _ _ _ _ He) as Ew. rewrite Ei in Ew.
  assert (Hb : forall c u, blocked s' c u <-> blocked s c u /\ c <> c0).
  { intros c u. unfold blocked. rewrite (mark_step (Sleep (WCv c))) by (try done; by rewrite Ei). rewrite Ew.
    destruct (decide (c = c0)) as [->|Hc]; [rewrite fn_lookup_insert; set_solver|].
    rewrite fn_lookup_insert_ne by congruence. naive_solver. }
  assert (Hnw : forall c u, ~ wakes s' c u).
  { intros c u Hu. assert (u = t) as -> by (eapply (waker_unique u t c c0); [by apply mark_fewer|done]).
    unfold wakes in Hu. rewrite (e_rest _ _ _ _ _ He), decide_True, Ei in Hu by done. cbn in Hu. rewrite Hs in Hu. set_solver. }
  split.
  - by rewrite Eg.
  - intros c u [Hu Hc]%Hb. left. destruct (U2 c u Hu) as [?|[v Hv]]; [done|]. exfalso. apply Hc.
    assert (v = t) as -> by (by eapply waker_unique). unfold wakes in Hv. rewrite Hr, Ei, Hs in Hv. set_solver.
  - intros c Hc. destruct (U3 c Hc) as [u Hu]. exists u. apply Hb. split; [done|].
    intros ->. by destruct (U4 c0 t Hwt).
  - intros c u Hu. by apply Hnw in Hu.
  - intros _. right. left. destruct (U4 c0 t Hwt) as [_ [u Hu]]. exists u.
    destruct Hu as [Hu|Hu]; [|by apply Hno in Hu]. destruct (t_chan s HT u c0 Hu) as (v & Hv & Ho). split.
    + exists v. by rewrite pc_step.
    + intros c [[Hc|Hc] Hne]%Hb.
      * destruct (so_chan s (i_sleep s HI) _ _ Hu) as (_ & Hq & _). apply Hq in Hc. congruence.
      * destruct (t_sleep s HT u c Hc) as (_ & v' & Hv' & Ho'). congruence.
Qed.

Lemma access_traffic : TInv s'.
Proof.
  pose proof (e_shared _ _ _ _ _ He) as Eg. destruct (t_turns s HT) as [ds Hds]. split.
  - intros u th Hu. pose proof (e_client _ _ _ _ _ He u) as Hc. rewrite Hu in Hc. cbn in Hc.
    destruct (threads s !! u) as [th'|] eqn:E; [|done]. by apply (t_dom s HT u th').
  - intros u. rewrite (e_held _ _ _ _ _ He), pc_step. apply (t_lock s HT).
  - intros u c. apply sleep_code.
  - intros u c. apply wakes_code.
  - intros u c Hin. apply (t_nosig s HT u c). by apply mark_fewer.
  - intros u c Hu. rewrite pc_step.
    destruct (chan_step s s' t i k He (WCv c) u Hu) as [H|[-> Ei]]; [by apply (t_chan s HT)|].
    apply (t_sleep s HT t c). rewrite Hr, Ei. set_solver.
  - intros u v. rewrite pc_step. apply (t_dirs s HT).
  - rewrite Eg, (t_count s HT). apply number_ext. intros u _. by rewrite pc_step.
  - exists ds. assert (Hc : (exists w, i = RemAll w) \/ forall w, i <> RemAll w) by (clear -i; destruct i; eauto).
    destruct Hc as [[w Ei]|Hn]; [by apply (turns_broadcast ds w)|by apply turns_same].
Qed.

End access.

(** *** Pieces of the client *)

Lemma code_sleep o c : Sleep (WCv c) ∈ code o <-> exists l, o = OpWait c l.
Proof.
  split; [|intros [l ->]; cbn; set_solver].
  destruct o; cbn; intros H; repeat (apply elem_of_cons in H as [?|H]; [simplify_eq; eauto|]); by apply elem_of_nil in H.
Qed.

Lemma code_remall o c : RemAll (WCv c) ∈ code o <-> exists l, o = OpBroadcast c l.
Proof.
  split; [|intros [l ->]; cbn; set_solver].
  destruct o; cbn; intros H; repeat (apply elem_of_cons in H as [?|H]; [simplify_eq; eauto|]); by apply elem_of_nil in H.
Qed.

Lemma code_remhead o c : RemHead (WCv c) ∈ code o -> exists l, o = OpSignal c l.
Proof.
  destruct o; cbn; intros H; repeat (apply elem_of_cons in H as [?|H]; [simplify_eq; eauto|]); by apply elem_of_nil in H.
Qed.

Section piece.
Context (s : st vpc traffic) (t : Z) (th : thread vpc) (g' : traffic) (o : op) (p' : vpc).
Context (HI : Inv s) (HT : TInv s).
Context (Ht : threads s !! t = Some th) (Hr : t_rest th = []) (Hrun : t_run th = true).

Let s' : st vpc traffic := upd (set_shared s g') t (mk_thread (code o) [] true (held_after o (t_held th)) p').

Lemma piece_rest u : rest s' u = if decide (u = t) then code o else rest s u.
Proof. apply call_views. Qed.

Lemma piece_pc u : pc s' u = if decide (u = t) then p' else pc s u.
Proof.
  unfold pc. destruct (call_views s t g' o (held_after o (t_held th)) p' u) as (_ & _ & E). fold s' in E. rewrite E.
  by case_decide.
Qed.

Lemma piece_free c : ~ blocked s c t /\ ~ wakes s c t.
Proof.
  destruct (views_of s t th Ht) as (V1 & _ & _ & V4). rewrite Hr in V1. rewrite Hrun in V4.
  unfold blocked, wakes. rewrite V1. split; [|by intros ?%elem_of_nil].
  intros [H|H]; [|by apply elem_of_nil in H].
  destruct (running_free s HI t V4) as [Hc _]. apply Hc. by exists (WCv c).
Qed.

Lemma piece_blocked c u : blocked s' c u <-> blocked s c u \/ (u = t /\ exists l, o = OpWait c l).
Proof.
  unfold blocked at 1. rewrite piece_rest. destruct (piece_free c) as [Hf _]. change (wc_threads s') with (wc_threads s).
  case_decide as Hd; [subst|unfold blocked; naive_solver]. rewrite code_sleep. unfold blocked in *. naive_solver.
Qed.

Lemma piece_wakes c u : wakes s' c u <-> wakes s c u \/ (u = t /\ exists l, o = OpBroadcast c l).
Proof.
  unfold wakes at 1. rewrite piece_rest. destruct (piece_free c) as [_ Hf].
  case_decide as Hd; [subst|unfold wakes; naive_solver]. rewrite code_remall. naive_solver.
Qed.

Lemma piece_inv :
  (forall c l, o <> OpSignal c l) ->
  held_after o (held s t) = (if has_lock p' then {[lk_mutex]} else ∅) ->
  (forall c l, o = OpWait c l -> l = lk_mutex /\ exists v, p' = Waiting v /\ origin v = c) ->
  (forall c l, o = OpBroadcast c l -> l = lk_mutex /\ p' = ExitRelease) ->
  (forall v, vehicle_of p' = Some v -> 0 <= origin v <= 3) ->
  count g' = inside s' -> (exists ds, turns_ok s' ds) -> TInv s'.
Proof.
  intros Hns Hh Hwt Hbc Hd Hc Htu. destruct (views_of s t th Ht) as (V1 & V2 & _ & _). split; try done.
  - intros u thu. cbn. destruct (decide (u = t)) as [->|]; [intros _; by apply (t_dom s HT t th)|].
    rewrite lookup_insert_ne by done. apply (t_dom s HT).
  - intros u. rewrite piece_pc. destruct (call_views s t g' o (held_after o (t_held th)) p' u) as (_ & E & _).
    fold s' in E. rewrite E. case_decide; [by rewrite <- V2|apply (t_lock s HT)].
  - intros u c. rewrite piece_rest, piece_pc. case_decide; [|apply (t_sleep s HT)].
    intros [l Ho]%code_sleep. destruct (Hwt _ _ Ho) as [-> Hv]. by rewrite Ho.
  - intros u c. unfold wakes. rewrite piece_rest, piece_pc. case_decide; [|apply (t_wakes s HT)].
    intros [l Ho]%code_remall. destruct (Hbc _ _ Ho) as [-> Hv]. by rewrite Ho.
  - intros u c. rewrite piece_rest. case_decide; [|apply (t_nosig s HT)].
    intros [l Ho]%code_remhead. by apply (Hns c l).
  - intros u c Hu. rewrite piece_pc. case_decide; [subst u|by apply (t_chan s HT)].
    exfalso. apply (proj1 (piece_free c)). by left.
  - intros u v. rewrite piece_pc. case_decide; [apply Hd|apply (t_dirs s HT)].
Qed.

Lemma piece_dom : t ∈ seqZ 0 MAX_THREADS.
Proof. apply elem_of_seqZ. pose proof (t_dom s HT t th Ht). lia. Qed.

(** The number of vehicles inside follows the place of the thread. *)
Lemma piece_inside :
  inside s' = inside s + (if counted p' then 1 else 0) - (if counted (pc s t) then 1 else 0).
Proof.
  unfold inside. rewrite (number_change (fun u => counted (pc s u)) _ t); [|apply NoDup_seqZ|apply piece_dom|].
  - rewrite piece_pc. by rewrite decide_True.
  - intros u Hu. rewrite piece_pc. by rewrite decide_False.
Qed.

Lemma count_range : 0 <= count (shared s) <= 10.
Proof.
  rewrite (t_count s HT). pose proof (number_bounds (fun u => counted (pc s u)) (seqZ 0 MAX_THREADS)) as H.
  exact H.
Qed.

Lemma counted_pos : counted (pc s t) = true -> 0 < count (shared s).
Proof. intros Hc. rewrite (t_count s HT). by apply (number_pos _ _ t piece_dom). Qed.

(** A piece that neither waits nor broadcasts. *)
Definition calm : Prop := (forall c l, o <> OpWait c l) /\ (forall c l, o <> OpBroadcast c l).

Lemma calm_turns ds :
  calm -> turns_ok s ds -> waitlist g' = waitlist (shared s) -> len_waitlist g' = len_waitlist (shared s) ->
  (0 < count g' \/ (count g' = count (shared s) /\ currentTraffic g' = currentTraffic (shared s) /\
     forall v, pc s t <> Waiting v)) ->
  turns_ok s' ds.
Proof.
  intros [Hc1 Hc2] [[Q1 Q2 Q3 Q4] U2 U3 U4 U5] Ew El Hact.
  assert (Hb : forall c u, blocked s' c u <-> blocked s c u) by (intros c u; rewrite piece_blocked; naive_solver).
  assert (Hw : forall c u, wakes s' c u <-> wakes s c u) by (intros c u; rewrite piece_wakes; naive_solver).
  split.
  - split; try done; cbn; congruence.
  - intros c u. rewrite Hb. setoid_rewrite Hw. apply U2.
  - intros c. setoid_rewrite Hb. apply U3.
  - intros c u. rewrite Hw. setoid_rewrite Hb. apply U4.
  - intros Hne. destruct Hact as [?|(En & Ec & Hnw)]; [by left|].
    destruct U5 as [H|[[u Hu]|(u & c & Hu)]].
    + cbn in Hne. by rewrite Ec in Hne.
    + left. cbn. lia.
    + right. left. exists u. destruct Hu as [[v Hv] Hub]. split.
      * exists v. rewrite piece_pc. case_decide; [subst; by destruct (Hnw v)|done].
      * intros c. rewrite Hb. apply Hub.
    + right. right. exists u, c. by apply Hw.
Qed.

End piece.

(** *** The two functions on the list of directions *)

Lemma transDir_id d : 0 <= d <= 3 -> transDir d = d.
Proof.
  intros H. unfold transDir, north, east, south, west.
  destruct (Z.eqb_spec d 0), (Z.eqb_spec d 1), (Z.eqb_spec d 2), (Z.eqb_spec d 3); lia.
Qed.

Lemma s32_small n : -10 <= n <= 10 -> s32 n = n.
Proof. intros H. unfold s32, two32. rewrite Z.mod_small; lia. Qed.

Lemma dirs_length ds : NoDup ds -> Forall (fun d => 0 <= d <= 3) ds -> (length ds <= 4)%nat.
Proof.
  intros Hn Hd. apply (submseteq_length ds (seqZ 0 4)), NoDup_submseteq; [done|].
  intros d Hx. apply elem_of_seqZ. pose proof (proj1 (list.Forall_forall _ _) Hd d Hx) as H. cbn in H. lia.
Qed.

(** When all four directions wait, each of them does. *)
Lemma dirs_full ds d :
  NoDup ds -> Forall (fun d => 0 <= d <= 3) ds -> length ds = 4%nat -> 0 <= d <= 3 -> d ∈ ds.
Proof.
  intros Hn Hd Hl Hx. destruct (decide (d ∈ ds)) as [?|Hnot]; [done|]. exfalso.
  assert (Hc : (length (d :: ds) <= 4)%nat) by (apply dirs_length; [by apply list.NoDup_cons|by apply Forall_cons]).
  cbn in Hc. lia.
Qed.

Lemma queue_elem g ds d : queue_ok g ds -> 0 <= d -> existsb (fun x => x =? d) (waitlist g) = bool_decide (d ∈ ds).
Proof.
  intros [Ql _ _ _] Hd. apply eq_bool_prop_intro. rewrite Is_true_true, bool_decide_spec, existsb_exists, Ql.
  split.
  - intros (x & [Hx|Hx]%list_elem_of_In%elem_of_app & E%Z.eqb_eq); subst; [done|].
    apply elem_of_replicate in Hx as [? _]. lia.
  - intros Hx. exists d. split; [apply list_elem_of_In; set_solver|apply Z.eqb_refl].
Qed.

Lemma queue_add g ds d :
  queue_ok g ds -> (length ds < 4)%nat -> d ∉ ds -> 0 <= d <= 3 ->
  exists l, set_at (waitlist g) (len_waitlist g) d = Ret l /\
    queue_ok (set_waitlist g l (s32 (len_waitlist g + 1))) (ds ++ [d]).
Proof.
  intros [Ql Qn Qd Qf] Hl Hd Hr. unfold zlength in Qn.
  assert (Hlen : length (waitlist g) = 4%nat) by (rewrite Ql, length_app, length_replicate; lia).
  eexists. split; [apply set_at_in_range; unfold zlength; lia|].
  assert (E : <[length ds := d]> (ds ++ replicate (4 - length ds) (-1)) = (ds ++ [d]) ++ replicate (4 - length (ds ++ [d])) (-1)).
  { rewrite insert_app_r_alt, Nat.sub_diag by lia. rewrite length_app. cbn [length].
    replace (4 - length ds)%nat with (S (4 - (length ds + 1))) by lia. cbn. by rewrite <- app_assoc. }
  split; cbn.
  - rewrite Ql, Qn, Nat2Z.id. exact E.
  - unfold zlength. rewrite length_app. cbn. rewrite Qn, s32_small; lia.
  - apply list.NoDup_app. split_and!; [done|set_solver|apply NoDup_singleton].
  - apply Forall_app. split; [done|]. by apply Forall_singleton.
Qed.

Lemma before_entry_spec g ds d :
  queue_ok g ds -> 0 <= d <= 3 -> 0 <= count g <= 9 ->
  intersection_before_entry d g = Ret (set_entered g d (count g + 1), true) \/
  exists g' ds', intersection_before_entry d g = Ret (g', false) /\
    (count g <> 0 \/ currentTraffic g <> -1) /\ queue_ok g' ds' /\ (forall c, c ∈ ds' <-> c ∈ ds \/ c = d) /\
    count g' = count g /\ currentTraffic g' = currentTraffic g.
Proof.
  intros Hq Hd Hc. unfold intersection_before_entry. rewrite transDir_id, s32_small by lia.
  destruct ((count g =? 0) && _) eqn:E; [by left|]. right.
  assert (Hne : count g <> 0 \/ currentTraffic g <> -1).
  { destruct (Z.eqb_spec (count g) 0); [right|by left]. intros H. by rewrite H in E. }
  pose proof Hq as [Ql Qn Qd Qf]. pose proof (dirs_length ds Qd Qf) as Hle. unfold zlength in Qn.
  destruct (Z.eqb_spec (len_waitlist g) 4) as [E4|E4]; cbn [negb].
  - exists g, ds. split_and!; try done. intros c. split; [by left|]. intros [?| ->]; [done|].
    apply dirs_full; try done. lia.
  - rewrite (queue_elem g ds d) by (done || lia). case_bool_decide as Hin.
    + exists g, ds. split_and!; try done. naive_solver.
    + destruct (queue_add g ds d) as (l & El & Hq'); try done; [lia|]. rewrite El.
      eexists _, (ds ++ [d]). split_and!; try done. set_solver.
Qed.

Lemma after_exit_spec g ds :
  queue_ok g ds -> 1 <= count g <= 10 ->
  match ds with
  | d :: ds' =>
      if count g =? 1 then
        exists g', intersection_after_exit g = Ret (g', Some d) /\ queue_ok g' ds' /\ count g' = 0 /\
          currentTraffic g' = d
      else intersection_after_exit g = Ret (set_entered g (currentTraffic g) (count g - 1), None)
  | [] =>
      intersection_after_exit g =
        Ret (set_entered g (if count g =? 1 then -1 else currentTraffic g) (count g - 1), None)
  end.
Proof.
  intros Hq Hc. pose proof Hq as [Ql Qn Qd Qf]. unfold intersection_after_exit. rewrite s32_small by lia.
  replace (count g - 1 =? 0) with (count g =? 1) by lia.
  destruct ds as [|d ds'].
  - cbn in Ql. rewrite Ql. by destruct (count g =? 1).
  - destruct (Z.eqb_spec (count g) 1) as [E|]; [|done].
    pose proof (dirs_length _ Qd Qf) as Hle. unfold zlength in Qn. cbn [length] in *.
    apply list.NoDup_cons in Qd as [Qd1 Qd2]. apply list.Forall_cons in Qf as [Qf1 Qf2].
    assert (Hw : exists a b c, waitlist g = [d; a; b; c] /\ [a; b; c; -1] = ds' ++ replicate (4 - length ds') (-1)).
    { rewrite Ql. destruct ds' as [|a [|b [|c [|e ds']]]]; cbn in *; try lia; eauto 6. }
    destruct Hw as (a & b & c & -> & E'). destruct (Z.eqb_spec d (-1)); [lia|].
    replace ((0 <=? d) && (d <=? 3)) with true by (symmetry; apply andb_true_intro; lia).
    eexists. split; [done|]. split_and!; [|cbn; lia|done]. split; try done.
    cbn. unfold zlength. rewrite Qn, s32_small; lia.
Qed.

(** *** Every step of a vehicle keeps the invariant *)

Section vehicle_step.
Context (s : st vpc traffic) (t : Z) (th : thread vpc).
Context (HI : Inv s) (HT : TInv s).
Context (Ht : threads s !! t = Some th) (Hr : t_rest th = []) (Hrun : t_run th = true).

Lemma vs_pc : pc s t = t_client th.
Proof. unfold pc. by rewrite Ht. Qed.

Lemma vs_held : held s t = if has_lock (t_client th) then {[lk_mutex]} else ∅.
Proof. rewrite (t_lock s HT). by rewrite vs_pc. Qed.

Lemma count_room : counted (t_client th) = false -> count (shared s) <= 9.
Proof.
  intros Hc. rewrite (t_count s HT). unfold inside.
  pose proof (number_change (fun u => counted (pc s u)) (fun u => if decide (u = t) then true else counted (pc s u)) t
    (seqZ 0 MAX_THREADS) (NoDup_seqZ _ _) (piece_dom s t th HT Ht)) as H.
  cbv beta in H. rewrite vs_pc, Hc, decide_True in H by done.
  pose proof (number_bounds (fun u => if decide (u = t) then true else counted (pc s u)) (seqZ 0 MAX_THREADS)) as [_ Hb].
  change (zlength (seqZ 0 MAX_THREADS)) with 10 in Hb. rewrite H in Hb; [lia|].
  intros u Hu. by rewrite decide_False.
Qed.

(** While [t] is between two calls with the lock, nobody is about to wake. *)
Lemma alone c u : has_lock (t_client th) = true -> ~ wakes s c u.
Proof.
  intros Hl Hw. destruct (t_wakes s HT u c Hw) as [Hs Hp].
  assert (Hu : u = t).
  { apply (i_excl s HI lk_mutex).
    - eapply broadcast_holds; [done|]. rewrite (t_lock s HT), Hp. set_solver.
    - destruct (views_of s t th Ht) as (V1 & _). rewrite V1, Hr, vs_held, Hl. apply bool_decide_eq_true_2. set_solver. }
  subst u. by apply (piece_free s t th HI Ht Hr Hrun c).
Qed.

(** [s'] after a piece with call [o], place [p'] and shared data [g']. *)
Let after g' o p' : st vpc traffic :=
  upd (set_shared s g') t (mk_thread (code o) [] true (held_after o (t_held th)) p').

(** The vehicle joins the others of its direction. *)
Lemma wait_turns v g' ds ds' :
  t_client th = BeforeEntry v -> turns_ok s ds -> queue_ok g' ds' ->
  (forall c, c ∈ ds' <-> c ∈ ds \/ c = origin v) ->
  count g' = count (shared s) -> currentTraffic g' = currentTraffic (shared s) ->
  count (shared s) <> 0 \/ currentTraffic (shared s) <> -1 ->
  turns_ok (after g' (OpWait (origin v) lk_mutex) (Waiting v)) ds'.
Proof.
  intros Hp [U1 U2 U3 U4 U5] Hq Hds Ec Ecur Hne.
  assert (Hl : has_lock (t_client th) = true) by (by rewrite Hp).
  pose proof (piece_blocked s t th g' (OpWait (origin v) lk_mutex) (Waiting v) HI Ht Hr Hrun) as Hb.
  pose proof (piece_wakes s t th g' (OpWait (origin v) lk_mutex) (Waiting v) HI Ht Hr Hrun) as Hw.
  pose proof (piece_pc s t th g' (OpWait (origin v) lk_mutex) (Waiting v)) as Hpc.
  fold (after g' (OpWait (origin v) lk_mutex) (Waiting v)) in Hb, Hw, Hpc. split.
  - done.
  - intros c u. rewrite Hb. intros [Hu|[-> [l ?]]]; left; apply Hds; [|right; congruence].
    destruct (U2 c u Hu) as [?|[w Hw']]; [by left|]. by apply alone in Hw'.
  - intros c [Hc| ->]%Hds.
    + destruct (U3 c Hc) as [u Hu]. exists u. apply Hb. by left.
    + exists t. apply Hb. right. eauto.
  - intros c u [H|[_ [l H]]]%Hw; [by apply alone in H|done].
  - intros _. pose proof (count_range s HT) as Hrange. destruct Hne as [Hne|Hne]; [left; cbn; lia|].
    destruct (U5 (or_intror Hne)) as [H|[[u [[w Hu] Hnb]]|(u & c & Hu)]]; [left; cbn; lia| |by apply alone in Hu].
    right. left. exists u. assert (Hut : u <> t) by (intros ->; rewrite vs_pc in Hu; congruence). split.
    + exists w. by rewrite Hpc, decide_False.
    + intros c [H|[? _]]%Hb; [by apply (Hnb c)|done].
Qed.

(** The next direction in the list gets its turn. *)
Lemma exit_turns g' d ds' :
  has_lock (t_client th) = true -> turns_ok s (d :: ds') -> queue_ok g' ds' ->
  turns_ok (after g' (OpBroadcast d lk_mutex) ExitRelease) ds'.
Proof.
  intros Hl [U1 U2 U3 U4 U5] Hq.
  pose proof (piece_blocked s t th g' (OpBroadcast d lk_mutex) ExitRelease HI Ht Hr Hrun) as Hb.
  pose proof (piece_wakes s t th g' (OpBroadcast d lk_mutex) ExitRelease HI Ht Hr Hrun) as Hw.
  fold (after g' (OpBroadcast d lk_mutex) ExitRelease) in Hb, Hw.
  assert (Hb' : forall c u, blocked (after g' (OpBroadcast d lk_mutex) ExitRelease) c u <-> blocked s c u)
    by (intros c u; rewrite Hb; naive_solver).
  assert (Hwt : wakes (after g' (OpBroadcast d lk_mutex) ExitRelease) d t) by (apply Hw; right; eauto).
  pose proof (q_nodup _ _ U1) as [Hnd _]%list.NoDup_cons. split.
  - done.
  - intros c u Hu%Hb'. destruct (U2 c u Hu) as [[->|?]%elem_of_cons|[w Hw']]; [right; eauto|by left|].
    by apply alone in Hw'.
  - intros c Hc. setoid_rewrite Hb'. apply U3. set_solver.
  - intros c u [H|[-> [l H]]]%Hw; [by apply alone in H|]. simplify_eq. split; [done|].
    setoid_rewrite Hb'. apply U3. set_solver.
  - intros _. right. right. eauto.
Qed.

(** The list is empty when the last vehicle leaves. *)
Lemma empty_turns g' :
  has_lock (t_client th) = true -> turns_ok s [] -> queue_ok g' [] -> currentTraffic g' = -1 ->
  turns_ok (after g' (OpRelease lk_mutex) Arrive) [].
Proof.
  intros Hl [U1 U2 U3 U4 U5] Hq Hcur.
  pose proof (piece_blocked s t th g' (OpRelease lk_mutex) Arrive HI Ht Hr Hrun) as Hb.
  pose proof (piece_wakes s t th g' (OpRelease lk_mutex) Arrive HI Ht Hr Hrun) as Hw.
  fold (after g' (OpRelease lk_mutex) Arrive) in Hb, Hw. split.
  - done.
  - intros c u [H|[_ [l H]]]%Hb; [|done]. destruct (U2 c u H) as [?|[w Hw']]; [by left|]. by apply alone in Hw'.
  - by intros c ?%elem_of_nil.
  - intros c u [H|[_ [l H]]]%Hw; [by apply alone in H|done].
  - by intros [?|?].
Qed.

End vehicle_step.

(** A piece without waiting and broadcasting, in terms of its data. *)
Lemma calm_piece s t th g' o p' :
  Inv s -> TInv s -> threads s !! t = Some th -> t_rest th = [] -> t_run th = true ->
  (forall c l, o <> OpSignal c l) -> calm o ->
  held_after o (held s t) = (if has_lock p' then {[lk_mutex]} else ∅) ->
  (forall v, vehicle_of p' = Some v -> 0 <= origin v <= 3) ->
  count g' = count (shared s) + (if counted p' then 1 else 0) - (if counted (pc s t) then 1 else 0) ->
  waitlist g' = waitlist (shared s) -> len_waitlist g' = len_waitlist (shared s) ->
  (0 < count g' \/ (count g' = count (shared s) /\ currentTraffic g' = currentTraffic (shared s) /\
     forall v, pc s t <> Waiting v)) ->
  TInv (upd (set_shared s g') t (mk_thread (code o) [] true (held_after o (t_held th)) p')).
Proof.
  intros HI HT Ht Hr Hrun Hns Hcalm Hh Hd Hc Hw Hl Hact. destruct (t_turns s HT) as [ds Hds].
  apply (piece_inv s t th g' o p'); try done.
  - intros c l E. by destruct Hcalm as [H _]; destruct (H c l).
  - intros c l E. by destruct Hcalm as [_ H]; destruct (H c l).
  - rewrite (piece_inside s t th g' o p' HT Ht), <- (t_count s HT). done.
  - exists ds. by apply (calm_turns s t th g' o p').
Qed.

Section pieces.
Context (s : st vpc traffic) (t : Z) (th : thread vpc).
Context (HI : Inv s) (HT : TInv s).
Context (Ht : threads s !! t = Some th) (Hr : t_rest th = []) (Hrun : t_run th = true).

Let after g' o p' : st vpc traffic :=
  upd (set_shared s g') t (mk_thread (code o) [] true (held_after o (t_held th)) p').

Ltac by_calm Hp Hh :=
  apply calm_piece; try done;
  match goal with
  | |- calm _ => by split
  | |- held_after _ _ = _ => rewrite Hh; cbn; set_solver
  | |- count _ = _ => rewrite Hp; cbn; lia
  | _ => idtac
  end.

Lemma entry_piece v i N p' g' o :
  t_client th = BeforeEntry v ->
  vehicle_simulation N t i (BeforeEntry v) (shared s) = Ret (p', g', o) ->
  allowed (held s t) o /\ TInv (after g' o p').
Proof.
  intros Ep E. pose proof (vs_pc s t th Ht) as Hp. pose proof (vs_held s t th HT Ht) as Hh. rewrite Ep in Hp, Hh. cbn in Hh.
  assert (Hd : 0 <= origin v <= 3) by (apply (t_dirs s HT t); by rewrite Hp).
  pose proof (count_range s HT) as Hc. pose proof (count_room s t th HT Ht) as Hroom. rewrite Ep in Hroom.
  destruct (t_turns s HT) as [ds Hds]. cbn in E.
  destruct (before_entry_spec (shared s) ds (origin v)) as [E'|(g1 & ds' & E' & Hne & Hq & Hds' & Ec & Ecur)];
    try done; [apply Hds|split; [lia|by apply Hroom]|..]; rewrite E' in E; simplify_eq; (split; [cbn; rewrite Hh; set_solver|]).
  - unfold after. by_calm Hp Hh; [by intros ? [= <-]|left; cbn; lia].
  - unfold after. apply piece_inv; try done.
    + intros c l [= <- <-]. eauto.
    + by intros w [= <-].
    + rewrite (piece_inside s t th g' _ _ HT Ht), <- (t_count s HT), Hp. cbn. lia.
    + exists ds'. by apply (wait_turns s t th HI HT Ht Hr Hrun v g' ds).
Qed.

Lemma exit_piece v i N p' g' o :
  t_client th = AfterExit v ->
  vehicle_simulation N t i (AfterExit v) (shared s) = Ret (p', g', o) ->
  allowed (held s t) o /\ TInv (after g' o p').
Proof.
  intros Ep E. pose proof (vs_pc s t th Ht) as Hp. pose proof (vs_held s t th HT Ht) as Hh. rewrite Ep in Hp, Hh. cbn in Hh.
  pose proof (count_range s HT) as Hc. pose proof (counted_pos s t th HT Ht) as Hpos. rewrite Hp in Hpos. specialize (Hpos eq_refl).
  assert (Hl : has_lock (t_client th) = true) by (by rewrite Ep).
  destruct (t_turns s HT) as [ds Hds]. cbn in E. pose proof (u_queue _ _ Hds) as Hq.
  assert (Hmany : count (shared s) <> 1 ->
    TInv (after (set_entered (shared s) (currentTraffic (shared s)) (count (shared s) - 1)) (OpRelease lk_mutex) Arrive)).
  { intros Hn. unfold after. by_calm Hp Hh. left. cbn. lia. }
  pose proof (after_exit_spec (shared s) ds Hq) as Hx. destruct ds as [|d ds'].
  - rewrite Hx in E by lia. simplify_eq. split; [cbn; rewrite Hh; set_solver|].
    destruct (Z.eqb_spec (count (shared s)) 1) as [E1|]; [|by apply Hmany]. unfold after. apply piece_inv; try done.
    + rewrite Hh. cbn. set_solver.
    + rewrite (piece_inside s t th _ _ _ HT Ht), <- (t_count s HT), Hp. cbn. lia.
    + exists []. apply (empty_turns s t th HI HT Ht Hr Hrun); try done. by destruct Hq.
  - destruct (Z.eqb_spec (count (shared s)) 1) as [E1|].
    + destruct Hx as (g1 & E' & Hq' & Ec & Ecur); [lia|]. rewrite E' in E. simplify_eq.
      split; [cbn; rewrite Hh; set_solver|]. unfold after. apply piece_inv; try done.
      * by intros c l [= <- <-].
      * rewrite (piece_inside s t th _ _ _ HT Ht), <- (t_count s HT), Hp. cbn. lia.
      * exists ds'. by apply (exit_turns s t th HI HT Ht Hr Hrun).
    + rewrite Hx in E by lia. simplify_eq. split; [cbn; rewrite Hh; set_solver|by apply Hmany].
Qed.

Lemma vehicle_piece N i p' g' o :
  vehicle_simulation N t i (t_client th) (shared s) = Ret (p', g', o) ->
  allowed (held s t) o /\ TInv (after g' o p').
Proof.
  intros E. pose proof (vs_pc s t th Ht) as Hp. pose proof (vs_held s t th HT Ht) as Hh.
  pose proof (t_dirs s HT t) as Hd. rewrite Hp in Hd. pose proof (count_range s HT) as Hc.
  pose proof (count_room s t th HT Ht) as Hroom. pose proof (counted_pos s t th HT Ht) as Hpos. rewrite Hp in Hpos.
  destruct (t_client th) as [|v|v|v|v|v|v|v|v|] eqn:Ep; try (by eapply entry_piece); try (by eapply exit_piece);
    cbn in E, Hh, Hd; repeat case_match; simplify_eq; (split; [cbn; rewrite ?Hh; set_solver|]); unfold after.
  - by_calm Hp Hh; [|right; by rewrite Hp].
    intros ? [= <-]. cbn. pose proof (Z.mod_pos_bound i.1 4). lia.
  - specialize (Hroom eq_refl).
    assert (Er : entry_resumed (shared s) = set_entered (shared s) (currentTraffic (shared s)) (count (shared s) + 1))
      by (unfold entry_resumed; rewrite s32_small; [done|lia]).
    rewrite Er. by_calm Hp Hh. left. cbn. lia.
  - by_calm Hp Hh. left. by apply Hpos.
  - by_calm Hp Hh. left. by apply Hpos.
  - by_calm Hp Hh. left. by apply Hpos.
  - by_calm Hp Hh. left. by apply Hpos.
  - by_calm Hp Hh. left. by apply Hpos.
  - by_calm Hp Hh. right. by rewrite Hp.
Qed.

End pieces.

Lemma traffic_start n : 0 <= n <= MAX_THREADS -> TInv (traffic_simulation n).
Proof.
  intros Hn.
  assert (Hth : forall t th, threads (traffic_simulation n) !! t = Some th ->
    0 <= t < n /\ th = mk_thread [] [] true ∅ Arrive).
  { intros t th Ht. apply elem_of_list_to_map_2, list_elem_of_fmap in Ht as (u & E & Hu%elem_of_seqZ). simplify_eq. split; [lia|done]. }
  assert (Hv : forall t, rest (traffic_simulation n) t = [] /\ held (traffic_simulation n) t = ∅ /\ pc (traffic_simulation n) t = Arrive).
  { intros t. unfold rest, held, pc. destruct (threads (traffic_simulation n) !! t) as [th|] eqn:E; [|done].
    by destruct (Hth _ _ E) as [_ ->]. }
  assert (Hr := fun t => proj1 (Hv t)). assert (Hp := fun t => proj2 (proj2 (Hv t))).
  assert (Hb : forall c t, ~ blocked (traffic_simulation n) c t).
  { intros c t. unfold blocked. rewrite Hr. by intros [?%elem_of_nil|?%elem_of_nil]. }
  assert (Hw : forall c t, ~ wakes (traffic_simulation n) c t).
  { intros c t. unfold wakes. rewrite Hr. by intros ?%elem_of_nil. }
  split.
  - intros t th [? _]%Hth. lia.
  - intros t. by rewrite (proj1 (proj2 (Hv t))), Hp.
  - intros t c H. exfalso. apply (Hb c t). by right.
  - intros u c H. by apply Hw in H.
  - intros t c. rewrite Hr. by intros ?%elem_of_nil.
  - by intros t c ?%elem_of_nil.
  - intros t v. by rewrite Hp.
  - unfold inside. rewrite (number_ext (fun _ => false)); [done|]. intros u _. by rewrite Hp.
  - exists []. split.
    + split; try done. apply NoDup_nil_2.
    + intros c t H. by apply Hb in H.
    + by intros c ?%elem_of_nil.
    + intros c u H. by apply Hw in H.
    + by intros [?|?].
Qed.

Lemma traffic_step N s t i s' :
  Inv s -> TInv s -> obeys (vehicle_simulation N) t i s ->
  step (vehicle_simulation N) t i s = Some (Ret s') -> TInv s'.
Proof.
  intros HI HT Ho E. unfold step in E. destruct (threads s !! t) as [th|] eqn:Ht; [|done].
  destruct (t_run th) eqn:Hrun; [|done]. destruct (views_of s t th Ht) as (V1 & _ & _ & V4).
  destruct (t_rest th) as [|a k] eqn:Hr; cbn in E.
  - destruct (vehicle_simulation N t i (t_client th) (shared s)) as [[[c g] o]| | |] eqn:Eb; simplify_eq.
    by eapply (vehicle_piece s t th).
  - eapply (access_traffic s s' t a k); try done; [congruence|by eapply exec_effect].
Qed.

Lemma traffic_inv N s :
  0 <= N <= MAX_THREADS -> reach (vehicle_simulation N) (traffic_simulation N) s -> Inv s /\ TInv s.
Proof.
  intros HN Hr. split; [by eapply reach_inv|].
  induction Hr as [|s t i s' Hr IH Ho E]; [by apply traffic_start|].
  eapply traffic_step; [by eapply reach_inv|done..].
Qed.

(** No vehicle is stranded.  Under every interleaving, the number of
    vehicles let in is [count], the list of waiting directions holds each
    direction at most once and within its bounds, the calls of the vehicles
    keep to the rules of locks and condition variables, and whenever a vehicle
    waits for its turn there is a vehicle inside the intersection, or one that
    has been woken and is on its way in, or one that is about to wake some:
    one that will give the turn away when it leaves. *)
Theorem vehicles_not_stranded N s :
  0 <= N <= MAX_THREADS -> reach (vehicle_simulation N) (traffic_simulation N) s ->
  count (shared s) = inside s /\
  (exists ds, queue_ok (shared s) ds) /\
  (forall t i th c g o, threads s !! t = Some th -> t_rest th = [] -> t_run th = true ->
     vehicle_simulation N t i (t_client th) (shared s) = Ret (c, g, o) -> allowed (t_held th) o) /\
  (forall c t, t ∈ wc_threads s (WCv c) -> active s).
Proof.
  intros HN Hr. destruct (traffic_inv N s HN Hr) as [HI HT]. destruct (t_turns s HT) as [ds Hds]. split_and!.
  - apply (t_count s HT).
  - exists ds. apply Hds.
  - intros t i th c g o Ht Hre Hrun E. destruct (views_of s t th Ht) as (_ & <- & _).
    by eapply (vehicle_piece s t th).
  - intros c t Ht. destruct (u_blocked s ds Hds c t (or_introl Ht)) as [Hc|[u Hu]].
    + apply (u_active s ds Hds). left. intros ->. by apply elem_of_nil in Hc.
    + right. right. eauto.
Qed.

(** Thread 1 waits while thread 0 crosses. *)
Lemma vehicles_not_stranded_witness :
  active (final (vehicle_simulation 3) (take 52 collision) (traffic_simulation 3)).
Proof.
  apply (vehicles_not_stranded 3 (final (vehicle_simulation 3) (take 52 collision) (traffic_simulation 3))) with (c := 0) (t := 1).
  - unfold MAX_THREADS. lia.
  - apply final_reach; [apply traffic_initial; lia|]. vm_compute. reflexivity.
  - apply (bool_decide_eq_true_1 (_ ∈ _)). vm_compute. reflexivity.
Defined.
