(* ===== verification/Array.v ===== *)
(** * Resizable arrays (kern/lib/array.c, kern/include/array.h)

    Arrays of pointers in the kernel heap that grow by doubling. The typed
    arrays of the kernel (threads of a process, processors, vnodes, known
    devices) are instances of the same code. The refinement theorem says that
    an array behaves as the list of its elements. *)

From stdpp Require Import base numbers list gmap.
From Stdlib Require Import ZArith Lia.
From S2P Require Import Prelude Heap.

(** ** The code *)

Section code.
Context {H : Type} `{KHeap H}.

(** [a_v] is the address of the block and [a_data] its words; a word that was
    never written is [None]. *)
Record array := mk_array {
  a_v : Z;
  a_data : list (option Z);
  a_num : Z;
  a_max : Z
}.

Definition sizeof_array : Z := 12.
Definition sizeof_ptr : Z := 4.

Definition array_init : array := mk_array 0 [] 0 0.

Definition array_create : M H (option (Z * array)) :=
  let* p := kmalloc sizeof_array in
  if p =? 0 then ret None else ret (Some (p, array_init)).

Definition array_cleanup (a : array) : M H array :=
  do* kassert (a_num a =? 0) in
  do* kfree (a_v a) in
  ret (mk_array 0 [] (a_num a) (a_max a)).

Definition array_destroy (self : Z) (a : array) : M H unit :=
  do* array_cleanup a in
  kfree self.

(** [while (num > newmax) newmax = newmax ? newmax*2 : 4;] *)
Fixpoint grow_max (fuel : nat) (num newmax : Z) : outcome Z :=
  match fuel with
  | O => NoFuel
  | S fuel' =>
      if newmax <? num
      then grow_max fuel' num (if newmax =? 0 then 4 else w32 (newmax * 2))
      else Ret newmax
  end.

(** Enough for any request up to 2^31. *)
Definition grow_fuel : nat := 40.

Definition array_setsize (a : array) (num : Z) : M H (Z * array) :=
  if a_max a <? num then
    let* newmax := lift (grow_max grow_fuel num (a_max a)) in
    let bytes := w32 (newmax * sizeof_ptr) in
    let* newptr := kmalloc bytes in
    if newptr =? 0 then ret (ENOMEM, a)
    else
      (* the memcpy of a->num words fits the new block *)
      if w32 (a_num a * sizeof_ptr) <=? bytes then
        let n := Z.to_nat (w32 (a_num a * sizeof_ptr) / sizeof_ptr) in
        do* kfree (a_v a) in
        ret (0, mk_array newptr
                  (take n (a_data a) ++ replicate (Z.to_nat (bytes / sizeof_ptr) - n) None)
                  num newmax)
      else fault
  else ret (0, mk_array (a_v a) (a_data a) num (a_max a)).

Definition array_num (a : array) : Z := a_num a.

(** [a->v[index]]; reading a word that was never written is a fault. *)
Definition load_v (a : array) (index : Z) : M H Z :=
  let* w := lift (get_at (a_data a) index) in
  match w with Some v => ret v | None => fault end.
Definition store_v (a : array) (index v : Z) : M H array :=
  let* d := lift (set_at (a_data a) index (Some v)) in
  ret (mk_array (a_v a) d (a_num a) (a_max a)).

Definition array_get (a : array) (index : Z) : M H Z :=
  do* kassert (index <? a_num a) in
  load_v a index.

Definition array_set (a : array) (index v : Z) : M H array :=
  do* kassert (index <? a_num a) in
  store_v a index v.

Definition array_add (a : array) (v : Z) : M H (Z * array * Z) :=
  let index := a_num a in
  let* (r, a) := array_setsize a (w32 (index + 1)) in
  if negb (r =? 0) then ret (r, a, 0)
  else
    let* a := store_v a index v in
    ret (0, a, index).

(** [memmove(a->v + index, a->v + index+1, num_to_move*sizeof(void * ))]. *)
Definition array_remove (a : array) (index : Z) : M H array :=
  do* kassert (a_num a <=? a_max a) in
  do* kassert (index <? a_num a) in
  let num_to_move := Z.to_nat (w32 (a_num a - w32 (index + 1))) in
  let i := Z.to_nat index in
  if (S i + num_to_move <=? length (a_data a))%nat then
    ret (mk_array (a_v a)
           (take i (a_data a) ++ take num_to_move (drop (S i) (a_data a)) ++
            drop (i + num_to_move) (a_data a))
           (w32 (a_num a - 1)) (a_max a))
  else fault.

(** ** Growth *)

Lemma grow_max_S fuel num newmax :
  grow_max (S fuel) num newmax =
  if newmax <? num then grow_max fuel num (if newmax =? 0 then 4 else w32 (newmax * 2))
  else Ret newmax.
Proof. done. Qed.

Lemma grow_max_pos fuel num newmax :
  0 < newmax -> num <= 2147483648 -> num <= newmax * 2 ^ Z.of_nat fuel ->
  exists r, grow_max (S fuel) num newmax = Ret r /\ num <= r /\ newmax <= r /\
    (r = newmax \/ r < 2 * num).
Proof.
  revert newmax. induction fuel as [|fuel IH]; intros newmax Hm Hn Hb.
  { exists newmax. rewrite grow_max_S. rewrite (proj2 (Z.ltb_ge newmax num)) by (cbn in Hb; lia).
    split; [done|]. cbn in Hb. lia. }
  rewrite grow_max_S. destruct (Z.ltb_spec newmax num) as [Hlt|Hge].
  2: { exists newmax. split; [done|lia]. }
  rewrite (proj2 (Z.eqb_neq newmax 0)) by lia. rewrite w32_id by (unfold is_u32, two32; lia).
  destruct (IH (newmax * 2)) as (r & E & ? & ? & ?); [lia|done| |].
  { rewrite Nat2Z.inj_succ, Z.pow_succ_r in Hb by lia. lia. }
  exists r. split; [done|]. lia.
Qed.

Lemma grow_max_spec num newmax :
  0 <= newmax -> newmax < num <= 2147483648 ->
  exists r, grow_max grow_fuel num newmax = Ret r /\ num <= r <= Z.max 4 (2 * num).
Proof.
  intros Hm Hn. unfold grow_fuel. destruct (Z.eq_dec newmax 0) as [->|Hne].
  - rewrite grow_max_S, (proj2 (Z.ltb_lt 0 num)) by lia. cbn [Z.eqb].
    destruct (grow_max_pos 38 num 4) as (r & E & ? & ? & ?); [lia|lia|cbn; lia|].
    exists r. split; [exact E|lia].
  - destruct (grow_max_pos 39 num newmax) as (r & E & ? & ? & ?); [lia|lia| |].
    { assert (1 * 2 ^ Z.of_nat 39 <= newmax * 2 ^ Z.of_nat 39); [|cbn in *; lia].
      apply Z.mul_le_mono_nonneg_r; [cbn; lia|lia]. }
    exists r. split; [exact E|lia].
Qed.

(** ** What an array represents *)

(** The array [a] holds the elements [l]; its block is live in the heap. *)
Record array_rep (h : H) (a : array) (l : list Z) : Prop := {
  ar_num : a_num a = zlength l;
  ar_max : zlength (a_data a) = a_max a;
  ar_fit : zlength l <= a_max a <= 536870912;
  ar_elems : take (length l) (a_data a) = map Some l;
  ar_block : (a_v a = 0 /\ a_max a = 0) \/ live h !! a_v a = Some (a_max a * sizeof_ptr);
}.

(** Arrays stay below 2^28 elements: four times that number of bytes, after
    doubling, is what a 32-bit size can say. *)
Definition array_limit : Z := 268435456.

Lemma array_rep_init h : array_rep h array_init [].
Proof. split; cbn; try done; try lia. Qed.

(** Changing the heap elsewhere. *)
Lemma array_rep_heap h h' a l :
  array_rep h a l -> (a_v a <> 0 -> live h' !! a_v a = live h !! a_v a) ->
  (a_v a = 0 -> a_max a = 0) -> array_rep h' a l.
Proof.
  intros [? ? ? ? Hb] Hl Hz. split; try done. destruct (Z.eq_dec (a_v a) 0); [left; auto|].
  destruct Hb as [[? _]|Hb]; [done|]. right. by rewrite Hl.
Qed.

Lemma ar_lookup h a l i :
  array_rep h a l -> 0 <= i < zlength l ->
  exists v, l !! Z.to_nat i = Some v /\ a_data a !! Z.to_nat i = Some (Some v).
Proof.
  intros [? ? ? He _] Hi. destruct (lookup_lt_is_Some_2 l (Z.to_nat i)) as [v Hv];
    [unfold zlength in *; lia|]. exists v. split; [done|].
  rewrite <- (lookup_take_lt _ (length l)) by (unfold zlength in *; lia).
  by rewrite He, list_lookup_fmap, Hv.
Qed.

Lemma array_get_spec h a l i v :
  array_rep h a l -> 0 <= i -> l !! Z.to_nat i = Some v -> array_get a i h = Ret (v, h).
Proof.
  intros Hr Hi Hv. assert (0 <= i < zlength l) as Hlt.
  { apply lookup_lt_Some in Hv. unfold zlength. lia. }
  destruct (ar_lookup h a l i Hr Hlt) as (v' & Hv' & Hd). rewrite Hv in Hv'. injection Hv' as <-.
  unfold array_get, load_v. rewrite (ar_num _ _ _ Hr).
  rewrite (proj2 (Z.ltb_lt i (zlength l))) by lia. mrun.
  unfold get_at. rewrite (proj2 (Z.ltb_ge i 0)) by lia. rewrite Hd. by mrun.
Qed.

Lemma array_set_spec h a l i v :
  array_rep h a l -> 0 <= i < zlength l ->
  exists a', array_set a i v h = Ret (a', h) /\ array_rep h a' (<[Z.to_nat i := v]> l).
Proof.
  intros Hr Hi. pose proof Hr as [Hn Hm Hf He Hb]. unfold array_set, store_v. rewrite Hn.
  rewrite (proj2 (Z.ltb_lt i (zlength l))) by lia. mrun. rewrite set_at_in_range by lia. mrun.
  eexists. split; [done|]. split; cbn; rewrite ?zlength_insert; try done.
  rewrite length_insert, take_insert_lt by (unfold zlength in *; lia).
  by rewrite He, list_fmap_insert.
Qed.


(** Making room for one more element. *)
Lemma setsize_grow h a l :
  heap_ok h -> array_rep h a l -> zlength l < array_limit ->
  (exists h', array_setsize a (zlength l + 1) h = Ret ((ENOMEM, a), h') /\ heap_ok h' /\
     live h' = live h) \/
  (exists v data max h', array_setsize a (zlength l + 1) h =
       Ret ((0, mk_array v data (zlength l + 1) max), h') /\ heap_ok h' /\
     zlength l + 1 <= max <= 536870912 /\ zlength data = max /\
     take (length l) data = map Some l /\ live h' !! v = Some (max * sizeof_ptr) /\
     heap_frame h h' (a_v a) v).
Proof.
  intros Hok Hr Hlim. pose proof Hr as [Hn Hm Hf He Hb]. pose proof (zlength_nonneg l).
  unfold array_setsize, array_limit in *.
  destruct (Z.ltb_spec (a_max a) (zlength l + 1)) as [Hlt|Hge].
  - destruct (grow_max_spec (zlength l + 1) (a_max a)) as (max & E & Hmax); [lia|lia|].
    rewrite E. mrun. rewrite w32_id by (unfold is_u32, two32, sizeof_ptr; lia).
    destruct (kmalloc_cases (max * sizeof_ptr) h) as
      [(h1 & Ek & ? & ?)|(v & h1 & Ek & Hok1 & Hv & Hfr & Hl1)]; [done|unfold sizeof_ptr, heap_max; lia|left|right];
      rewrite (bind_ok _ _ _ _ _ Ek); [cbn [Z.eqb]; eauto|].
    rewrite (proj2 (Z.eqb_neq v 0)) by lia. rewrite Hn.
    rewrite w32_id by (unfold is_u32, two32, sizeof_ptr; lia).
    rewrite (proj2 (Z.leb_le _ _)) by (unfold sizeof_ptr; lia).
    rewrite !Z.div_mul by done. rewrite !to_nat_zlength.
    assert (exists h', kfree (a_v a) h1 = Ret (tt, h') /\ heap_ok h' /\
      live h' !! v = Some (max * sizeof_ptr) /\ heap_frame h h' (a_v a) v) as (h' & Ef & ? & ? & ?).
    { destruct Hb as [[Hz _]|Hb].
      - rewrite Hz. exists h1. rewrite kfree_null by done. split_and!; try done.
        + by rewrite Hl1, lookup_insert_eq.
        + split; [intros q ? ?; by rewrite Hl1, lookup_insert_ne|done].
      - assert (a_v a <> v) by congruence.
        destruct (kfree_spec (a_v a) h1) as (h' & Ef & ? & Hl'); [done|rewrite Hl1, lookup_insert_ne by done; eauto|].
        exists h'. split_and!; try done.
        + by rewrite Hl', lookup_delete_ne, Hl1, lookup_insert_eq.
        + split; [intros q ? ?|intros _ _]; rewrite Hl'; [|apply lookup_delete_eq].
          by rewrite lookup_delete_ne, Hl1, lookup_insert_ne. }
    rewrite (bind_ok _ _ _ _ _ Ef). eexists v, _, max, h'. split; [done|].
    split_and!; try done; [lia|lia| |].
    + unfold zlength in *. rewrite length_app, length_take, length_replicate. lia.
    + rewrite take_app_le by (rewrite length_take; unfold zlength in *; lia).
      by rewrite take_take, Nat.min_id.
  - right. destruct Hb as [[_ Hz]|Hb]; [lia|].
    eexists (a_v a), (a_data a), (a_max a), h. split; [done|]. split_and!; try done; try lia.
Qed.

Lemma array_add_spec h a l v :
  heap_ok h -> array_rep h a l -> zlength l < array_limit ->
  (exists h', array_add a v h = Ret ((ENOMEM, a, 0), h') /\ heap_ok h' /\ live h' = live h) \/
  (exists a' h', array_add a v h = Ret ((0, a', zlength l), h') /\ heap_ok h' /\
     array_rep h' a' (l ++ [v]) /\ heap_frame h h' (a_v a) (a_v a')).
Proof.
  intros Hok Hr Hlim. unfold array_add. rewrite (ar_num _ _ _ Hr). pose proof (zlength_nonneg l).
  rewrite w32_id by (unfold is_u32, two32, array_limit in *; lia).
  destruct (setsize_grow h a l Hok Hr Hlim) as
    [(h' & E & ? & ?)|(p & data & max & h' & E & Hok' & Hmax & Hd & Ht & Hl & Hfr)];
    [left|right]; rewrite (bind_ok _ _ _ _ _ E); [cbn; eauto|].
  cbn [Z.eqb negb]. unfold store_v. cbn [a_data a_v a_num a_max].
  rewrite set_at_in_range by lia. mrun. eexists _, h'. split; [done|]. split_and!; try done.
  assert (zlength (l ++ [v]) = zlength l + 1) as Hz by (unfold zlength; rewrite length_app; cbn; lia).
  split; cbn; rewrite ?zlength_insert, ?Hz; try done; [|by right].
  rewrite length_app, map_app, <- Ht. cbn. unfold zlength in *. rewrite Nat2Z.id, Nat.add_1_r.
  rewrite (take_S_r _ _ (Some v)) by (rewrite list_lookup_insert_eq; [done|lia]).
  by rewrite take_insert_ge.
Qed.

Lemma array_remove_spec h a l1 x l2 :
  array_rep h a (l1 ++ x :: l2) ->
  exists a', array_remove a (zlength l1) h = Ret (a', h) /\ array_rep h a' (l1 ++ l2) /\
    a_v a' = a_v a.
Proof.
  intros Hr. pose proof Hr as [Hn Hm Hf He Hb]. unfold array_remove. rewrite Hn.
  assert (zlength (l1 ++ x :: l2) = zlength l1 + 1 + zlength l2) as Hz
    by (unfold zlength; rewrite length_app; cbn; lia).
  pose proof (zlength_nonneg l1). pose proof (zlength_nonneg l2).
  rewrite (proj2 (Z.leb_le _ _)) by lia. rewrite (proj2 (Z.ltb_lt (zlength l1) _)) by lia. mrun.
  rewrite !w32_id by (unfold is_u32, two32; rewrite ?w32_id by (unfold is_u32, two32; lia); lia).
  replace (zlength (l1 ++ x :: l2) - (zlength l1 + 1)) with (zlength l2) by lia.
  rewrite !to_nat_zlength.
  rewrite (proj2 (Nat.leb_le _ _)) by (unfold zlength in *; lia).
  eexists. split; [done|]. split; [|done].
  assert (zlength (l1 ++ l2) = zlength l1 + zlength l2) as Hz2
    by (unfold zlength; rewrite length_app; lia).
  split; cbn; try done; try (unfold zlength in *; lia).
  - rewrite <- Hm. unfold zlength in *. rewrite !length_app, !length_take, !length_drop. lia.
  - rewrite length_app in He. cbn [length] in He. rewrite map_app in He. cbn [map] in He.
    assert (exists tail, a_data a = map Some l1 ++ Some x :: map Some l2 ++ tail) as [tail Hd].
    { exists (drop (length l1 + S (length l2)) (a_data a)).
      rewrite <- (take_drop (length l1 + S (length l2)) (a_data a)) at 1. rewrite He.
      by rewrite <- (assoc_L (++)). }
    rewrite Hd. rewrite length_app, map_app.
    rewrite (take_app_length' (map Some l1)) by (by rewrite length_map).
    rewrite (drop_app_ge (map Some l1)) by (rewrite length_map; lia).
    rewrite length_map. replace (S (length l1) - length l1)%nat with 1%nat by lia. cbn [drop]. rewrite drop_0.
    rewrite (take_app_length' (map Some l2)) by (by rewrite length_map).
    rewrite (assoc_L (++)). apply take_app_length'. by rewrite length_app, !length_map.
Qed.

(** ** Refinement *)

Inductive arr_op := AGet (i : Z) | ASet (i v : Z) | AAdd (v : Z) | ARemove (i : Z) | ANum.

(** The answer and the array after an operation. *)
Definition do_arr_op (op : arr_op) (a : array) : M H (Z * array) :=
  match op with
  | AGet i => let* v := array_get a i in ret (v, a)
  | ASet i v => let* a := array_set a i v in ret (0, a)
  | AAdd v => let* (r, a, _) := array_add a v in ret (r, a)
  | ARemove i => let* a := array_remove a i in ret (0, a)
  | ANum => ret (array_num a, a)
  end.

(** The same on lists. *)
Inductive arr_step (l : list Z) : arr_op -> Z -> list Z -> Prop :=
  | as_get i v : 0 <= i -> l !! Z.to_nat i = Some v -> arr_step l (AGet i) v l
  | as_set i v : 0 <= i < zlength l -> arr_step l (ASet i v) 0 (<[Z.to_nat i := v]> l)
  | as_add v : arr_step l (AAdd v) 0 (l ++ [v])
  | as_add_full v : arr_step l (AAdd v) ENOMEM l
  | as_remove l1 x l2 : l = l1 ++ x :: l2 -> arr_step l (ARemove (zlength l1)) 0 (l1 ++ l2)
  | as_num : arr_step l ANum (zlength l) l.

Definition arr_legal (l : list Z) (op : arr_op) : Prop :=
  match op with
  | AGet i | ASet i _ | ARemove i => 0 <= i < zlength l
  | AAdd _ => zlength l < array_limit
  | ANum => True
  end.

(** An operation on an array whose index is in range does on the block in
    the heap what it does on the list of elements: it returns the element, or
    stores, appends or removes it, and the array represents the new list.
    Appending may instead return [ENOMEM], and then nothing has changed. No
    other heap block is touched, and a block that was outgrown is freed. *)
Theorem array_refines_list h a l op
    (Hok : heap_ok h) (Hrep : array_rep h a l) (Hlegal : arr_legal l op) :
  exists r a' l' h', do_arr_op op a h = Ret ((r, a'), h') /\ arr_step l op r l' /\
    heap_ok h' /\ array_rep h' a' l' /\ heap_frame h h' (a_v a) (a_v a').
Proof.
  assert (heap_frame h h (a_v a) (a_v a)) as Hid by (by split).
  destruct op as [i|i v|v|i|]; cbn [do_arr_op arr_legal] in *.
  - destruct (ar_lookup h a l i Hrep Hlegal) as (v & Hv & _).
    rewrite (bind_ok _ _ _ _ _ (array_get_spec h a l i v Hrep ltac:(lia) Hv)).
    exists v, a, l, h. split; [done|]. split; [by apply as_get; [lia|]|done].
  - destruct (array_set_spec h a l i v Hrep Hlegal) as (a' & E & Hr).
    rewrite (bind_ok _ _ _ _ _ E). exists 0, a', (<[Z.to_nat i := v]> l), h.
    split; [done|]. split; [by apply as_set|]. split; [done|]. split; [done|].
    unfold array_set, store_v in E. minv. subst. done.
  - destruct (array_add_spec h a l v Hok Hrep Hlegal) as
      [(h' & E & Hok' & Hl)|(a' & h' & E & Hok' & Hr & Hf)]; rewrite (bind_ok _ _ _ _ _ E).
    + exists ENOMEM, a, l, h'. split; [done|]. split; [apply as_add_full|]. split; [done|].
      split; [|by split; intros; [rewrite Hl|]].
      destruct Hrep as [? ? ? ? Hb]. split; try done. by rewrite Hl.
    + exists 0, a', (l ++ [v]), h'. split; [done|]. split; [apply as_add|done].
  - destruct (ar_lookup h a l i Hrep Hlegal) as (x & Hx & _).
    assert (exists l1 l2, l = l1 ++ x :: l2 /\ i = zlength l1) as (l1 & l2 & -> & ->).
    { exists (take (Z.to_nat i) l), (drop (S (Z.to_nat i)) l).
      rewrite take_drop_middle by done. split; [done|].
      unfold zlength in *. rewrite length_take. lia. }
    destruct (array_remove_spec h a l1 x l2 Hrep) as (a' & E & Hr & Hv).
    rewrite (bind_ok _ _ _ _ _ E). exists 0, a', (l1 ++ l2), h. rewrite Hv.
    split; [done|]. split; [by eapply as_remove|done].
  - exists (zlength l), a, l, h. unfold array_num. rewrite (ar_num _ _ _ Hrep).
    split; [done|]. split; [apply as_num|done].
Qed.

End code.

Lemma array_refines_list_witness :
  exists a' h', do_arr_op (AAdd 7) array_init (RefHeap.init 1000) = Ret ((0, a'), h') /\
    array_rep h' a' [7].
Proof.
  destruct (@array_refines_list RefHeap.t RefHeap.ref_heap (RefHeap.init 1000) array_init [] (AAdd 7)
    (RefHeap.init_ok 1000) (array_rep_init _)) as (r & a' & l' & h' & E & Hs & _ & Hr & _).
  - reflexivity.
  - vm_compute in E. injection E as <- <- <-. eexists _, _. split; [reflexivity|].
    inversion Hs; subst. exact Hr.
Defined.
