(* ===== verification/Queue.v ===== *)
(** * Queues (kern/lib/queue.c)

    Queues of pointers in a ring buffer that doubles when it is full. One slot
    is always kept free, so that an empty and a full buffer can be told apart.
    The refinement theorem says that a queue behaves as a list with [addtail]
    and [remhead]. *)

From stdpp Require Import base numbers list gmap.
From Stdlib Require Import ZArith Lia.
From S2P Require Import Prelude Heap.

Section code.
Context {H : Type} `{KHeap H}.

(** [q_ptr] is the address of the buffer and [q_data] its words, [None] where
    nothing has been stored. *)
Record queue := mk_queue {
  q_size : Z;
  q_nextwrite : Z;
  q_nextread : Z;
  q_ptr : Z;
  q_data : list (option Z)
}.

Definition sizeof_queue : Z := 16.
Definition sizeof_voidp : Z := 4.

Definition q_empty (q : queue) : bool := q_nextwrite q =? q_nextread q.

(** [while (nsize < targetsize) { nsize *= 2; KASSERT(nsize > 0); }] *)
Fixpoint grow_size (fuel : nat) (nsize targetsize : Z) : outcome Z :=
  match fuel with
  | O => NoFuel
  | S fuel' =>
      if nsize <? targetsize then
        let nsize := s32 (nsize * 2) in
        if 0 <? nsize then grow_size fuel' nsize targetsize else Panic
      else Ret nsize
  end.

(** At most 31 doublings before an [int] overflows. *)
Definition size_fuel : nat := 33.

(** [q->data[i]] of a buffer. *)
Definition load_data (data : list (option Z)) (i : Z) : M H Z :=
  let* w := lift (get_at data i) in
  match w with Some v => ret v | None => fault end.

(** The loop of [q_grow] that moves the elements over with [q_addtail]; it
    runs at most once round the old buffer. *)
Fixpoint move_all (addtail : queue -> Z -> M H (Z * queue)) (fuel : nat)
    (olddata : list (option Z)) (osize onw i : Z) (q : queue) : M H queue :=
  match fuel with
  | O => fun _ => NoFuel
  | S fuel' =>
      if i =? onw then ret q
      else
        let* v := load_data olddata i in
        let* (r, q) := addtail q v in
        do* kassert (r =? 0) in
        move_all addtail fuel' olddata osize onw (Z.rem (i + 1) osize) q
  end.

Definition q_grow_with (addtail : queue -> Z -> M H (Z * queue)) (q : queue) (targetsize : Z)
    : M H (Z * queue) :=
  let* nsize := lift (grow_size size_fuel (q_size q) targetsize) in
  let bytes := w32 (nsize * sizeof_voidp) in
  let* ndata := kmalloc bytes in
  if ndata =? 0 then ret (ENOMEM, q)
  else
    let nq := mk_queue nsize 0 0 ndata
                (replicate (Z.to_nat (bytes / sizeof_voidp)) None) in
    let* nq := move_all addtail (S (Z.to_nat (q_size q))) (q_data q) (q_size q)
                 (q_nextwrite q) (q_nextread q) nq in
    do* kfree (q_ptr q) in
    ret (0, nq).

(** The end of [q_addtail]: [nextnext] is recomputed when the queue has grown. *)
Definition q_put (q : queue) (ptr : Z) : M H queue :=
  let nextnext := Z.rem (q_nextwrite q + 1) (q_size q) in
  let* d := lift (set_at (q_data q) (q_nextwrite q) (Some ptr)) in
  ret (mk_queue (q_size q) nextnext (q_nextread q) (q_ptr q) d).

(** [q_addtail] and [q_grow] call each other; [depth] bounds the nesting. *)
Fixpoint q_addtail_at (depth : nat) (q : queue) (ptr : Z) : M H (Z * queue) :=
  match depth with
  | O => fun _ => NoFuel
  | S depth' =>
      do* kassert (0 <? q_size q) in
      let nextnext := Z.rem (q_nextwrite q + 1) (q_size q) in
      let* (r, q) := (if nextnext =? q_nextread q
                      then q_grow_with (q_addtail_at depth') q (q_size q + 1)
                      else ret (0, q)) in
      if negb (r =? 0) then ret (r, q)
      else let* q := q_put q ptr in ret (0, q)
  end.

(** The nested calls never grow the queue again. *)
Definition q_addtail : queue -> Z -> M H (Z * queue) := q_addtail_at 2.
Definition q_grow : queue -> Z -> M H (Z * queue) := q_grow_with (q_addtail_at 1).

Definition q_create (size : Z) : M H (option (Z * queue)) :=
  let* q := kmalloc sizeof_queue in
  if q =? 0 then ret None
  else
    let bytes := w32 (size * sizeof_voidp) in
    let* d := kmalloc bytes in
    if d =? 0 then do* kfree q in ret None
    else ret (Some (q, mk_queue size 0 0 d (replicate (Z.to_nat (bytes / sizeof_voidp)) None))).

Definition q_preallocate (q : queue) (size : Z) : M H (Z * queue) :=
  do* kassert (0 <? q_size q) in
  if q_size q <? size then q_grow q size else ret (0, q).

Definition q_remhead (q : queue) : M H (Z * queue) :=
  do* kassert (0 <? q_size q) in
  do* kassert (negb (q_empty q)) in
  let* v := load_data (q_data q) (q_nextread q) in
  ret (v, mk_queue (q_size q) (q_nextwrite q) (Z.rem (q_nextread q + 1) (q_size q))
            (q_ptr q) (q_data q)).

Definition q_destroy (self : Z) (q : queue) : M H unit :=
  do* kassert (q_empty q) in
  do* kfree (q_ptr q) in
  kfree self.

Definition q_getstart (q : queue) : Z := q_nextread q.
Definition q_getend (q : queue) : Z := q_nextwrite q.
Definition q_getsize (q : queue) : Z := q_size q.

Definition q_getguy (q : queue) (index : Z) : M H Z :=
  do* kassert ((0 <=? index) && (index <? q_size q)) in
  load_data (q_data q) index.

(** A null result is 0. *)
Definition q_peek (q : queue) : M H Z :=
  do* kassert (0 <? q_size q) in
  if q_empty q then ret 0 else load_data (q_data q) (q_nextread q).

(** [while (tmp != nextwrite) { tmp = (tmp+1) % size; count++; }] *)
Fixpoint count_len (fuel : nat) (q : queue) (tmp count : Z) : outcome Z :=
  match fuel with
  | O => NoFuel
  | S fuel' =>
      if tmp =? q_nextwrite q then Ret count
      else count_len fuel' q (Z.rem (tmp + 1) (q_size q)) (count + 1)
  end.
Definition q_len (q : queue) : M H Z :=
  lift (count_len (S (Z.to_nat (q_size q))) q (q_nextread q) 0).


(** ** What a queue represents *)

(** Positions in the buffer. *)
Definition slot (q : queue) (i : Z) : Z := (q_nextread q + i) mod q_size q.

Record queue_rep (h : H) (q : queue) (l : list Z) : Prop := {
  qr_size : zlength l < q_size q <= 536870912;
  qr_len : zlength (q_data q) = q_size q;
  qr_read : 0 <= q_nextread q < q_size q;
  qr_write : q_nextwrite q = slot q (zlength l);
  qr_elems : forall i v, l !! i = Some v ->
    q_data q !! Z.to_nat (slot q (Z.of_nat i)) = Some (Some v);
  qr_block : live h !! q_ptr q = Some (q_size q * sizeof_voidp);
}.

Lemma slot_range q i : 0 < q_size q -> 0 <= slot q i < q_size q.
Proof. intros. apply Z.mod_pos_bound. lia. Qed.

Lemma slot_next q i :
  0 < q_size q -> Z.rem (slot q i + 1) (q_size q) = slot q (i + 1).
Proof.
  intros Hs. pose proof (slot_range q i Hs). rewrite Z.rem_mod_nonneg by lia. unfold slot.
  rewrite Z.add_mod_idemp_l by lia. f_equal. lia.
Qed.

(** Different positions less than a round apart are different slots. *)
Lemma slot_inj q i j :
  0 < q_size q -> 0 <= i < q_size q -> 0 <= j < q_size q -> slot q i = slot q j -> i = j.
Proof.
  intros Hs Hi Hj E. unfold slot in E.
  set (r := q_nextread q) in *. set (n := q_size q) in *.
  assert (n * ((r + i) / n) - n * ((r + j) / n) = i - j) as Hd.
  { assert (n <> 0) as Hn by lia.
    pose proof (Z.div_mod (r + i) n Hn). pose proof (Z.div_mod (r + j) n Hn). lia. }
  clear E. set (x := (r + i) / n) in *. set (y := (r + j) / n) in *.
  assert (x = y) as ->; [|lia]. nia.
Qed.

Lemma slot_zero q : 0 <= q_nextread q < q_size q -> slot q 0 = q_nextread q.
Proof. intros. unfold slot. rewrite Z.add_0_r. by apply Z.mod_small. Qed.

Lemma q_empty_spec h q l : queue_rep h q l -> q_empty q = bool_decide (l = []).
Proof.
  intros [Hs _ Hr Hw _ _]. unfold q_empty. pose proof (zlength_nonneg l).
  rewrite Hw. destruct l as [|x l]; [by rewrite slot_zero, Z.eqb_refl|].
  apply Z.eqb_neq. intros E. rewrite <- (slot_zero q Hr) in E.
  apply slot_inj in E; [|lia..]. unfold zlength in E. cbn [length] in E. lia.
Qed.

Lemma load_slot h q l i v :
  queue_rep h q l -> l !! i = Some v -> load_data (q_data q) (slot q (Z.of_nat i)) h = Ret (v, h).
Proof.
  intros Hr Hv. pose proof (slot_range q (Z.of_nat i)) as Hsl. pose proof (qr_size _ _ _ Hr).
  pose proof (zlength_nonneg l). unfold load_data, get_at.
  rewrite (proj2 (Z.ltb_ge _ 0)) by lia. rewrite (qr_elems _ _ _ Hr i v Hv). by mrun.
Qed.

(** ** Adding without growing *)

Lemma q_put_spec h q l v :
  queue_rep h q l -> zlength l + 1 < q_size q ->
  exists q', q_put q v h = Ret (q', h) /\ queue_rep h q' (l ++ [v]) /\
    q_size q' = q_size q /\ q_ptr q' = q_ptr q.
Proof.
  intros Hr Hfit. pose proof Hr as [Hs Hl Hrd Hw He Hb]. pose proof (zlength_nonneg l).
  pose proof (slot_range q (zlength l) ltac:(lia)) as Hsr. unfold q_put.
  rewrite Hw, slot_next by lia. rewrite set_at_in_range by lia. mrun.
  eexists. split; [done|]. split_and!; try done.
  assert (zlength (l ++ [v]) = zlength l + 1) as Hz by (unfold zlength; rewrite length_app; cbn; lia).
  split; cbn; rewrite ?zlength_insert, ?Hz; try done; [lia|].
  intros i x Hx. fold (slot q (Z.of_nat i)).
  change (slot (mk_queue _ _ _ _ _) (Z.of_nat i)) with (slot q (Z.of_nat i)).
  apply lookup_snoc_Some in Hx as [[Hi Hx]|[-> ->]].
  - rewrite list_lookup_insert_ne; [by apply He|]. intros E.
    pose proof (slot_range q (Z.of_nat i) ltac:(lia)).
    assert (slot q (zlength l) = slot q (Z.of_nat i)) as E' by lia.
    apply slot_inj in E'; unfold zlength in *; lia.
  - fold (zlength l). apply list_lookup_insert_eq. unfold zlength in *. lia.
Qed.

Lemma addtail_fits depth h q l v :
  queue_rep h q l -> zlength l + 1 < q_size q ->
  exists q', q_addtail_at (S depth) q v h = Ret ((0, q'), h) /\ queue_rep h q' (l ++ [v]) /\
    q_size q' = q_size q /\ q_ptr q' = q_ptr q.
Proof.
  intros Hr Hfit. pose proof Hr as [Hs Hl Hrd Hw He Hb]. pose proof (zlength_nonneg l).
  cbn [q_addtail_at]. rewrite (proj2 (Z.ltb_lt 0 (q_size q))) by lia. mrun.
  rewrite Hw, slot_next by lia.
  assert (slot q (zlength l + 1) <> q_nextread q) as Hne.
  { rewrite <- (slot_zero q Hrd). intros E. apply slot_inj in E; lia. }
  rewrite (proj2 (Z.eqb_neq _ _)) by done. mrun. cbn [Z.eqb negb].
  destruct (q_put_spec h q l v Hr Hfit) as (q' & E & ?). rewrite (bind_ok _ _ _ _ _ E). eauto.
Qed.

(** ** Growing *)

Lemma grow_size_spec fuel nsize target :
  0 < nsize <= 268435456 -> target <= 268435456 -> target <= nsize * 2 ^ Z.of_nat fuel ->
  exists r, grow_size (S fuel) nsize target = Ret r /\ target <= r /\ nsize <= r /\
    (r = nsize \/ r < 2 * target).
Proof.
  revert nsize. induction fuel as [|fuel IH]; intros nsize Hm Hn Hb.
  { exists nsize. cbn [grow_size]. rewrite (proj2 (Z.ltb_ge nsize target)) by (cbn in Hb; lia).
    split; [done|]. cbn in Hb. lia. }
  assert (forall f, grow_size (S f) nsize target =
    if nsize <? target then
      if 0 <? s32 (nsize * 2) then grow_size f (s32 (nsize * 2)) target else Panic
    else Ret nsize) as -> by done.
  destruct (Z.ltb_spec nsize target) as [Hlt|Hge]; [|exists nsize; split; [done|lia]].
  rewrite s32_id by (unfold is_s32; lia). rewrite (proj2 (Z.ltb_lt 0 (nsize * 2))) by lia.
  destruct (Z.lt_ge_cases (nsize * 2) 268435457).
  - destruct (IH (nsize * 2)) as (r & E & ? & ? & ?); [lia|lia| |exists r; split; [done|lia]].
    rewrite Nat2Z.inj_succ, Z.pow_succ_r in Hb by lia. lia.
  - exists (nsize * 2). split; [|lia]. destruct fuel; cbn [grow_size];
      by rewrite (proj2 (Z.ltb_ge (nsize * 2) target)) by lia.
Qed.

(** The representation only needs the buffer's own block. *)
Lemma queue_rep_heap h h' q l :
  queue_rep h q l -> live h' !! q_ptr q = live h !! q_ptr q -> queue_rep h' q l.
Proof. intros [] E. split; try done. by rewrite E. Qed.

(** Moving the elements [l2], of which [l1] have been moved already. *)
Lemma move_all_spec h oq l1 l2 q fuel :
  queue_rep h oq (l1 ++ l2) -> queue_rep h q l1 -> q_size oq <= q_size q ->
  (length l2 < fuel)%nat ->
  exists q', move_all (q_addtail_at 1) fuel (q_data oq) (q_size oq) (q_nextwrite oq)
      (slot oq (zlength l1)) q h = Ret (q', h) /\
    queue_rep h q' (l1 ++ l2) /\ q_size q' = q_size q /\ q_ptr q' = q_ptr q.
Proof.
  intros Ho. revert l1 q fuel Ho. induction l2 as [|v l2 IH]; intros l1 q fuel Ho Hq Hsz Hf;
    (destruct fuel as [|fuel]; [cbn in Hf; lia|]); cbn [move_all].
  - rewrite app_nil_r in *. rewrite (qr_write _ _ _ Ho), Z.eqb_refl. exists q. done.
  - pose proof (qr_size _ _ _ Ho) as Hs. rewrite zlength_app in Hs.
    pose proof (zlength_nonneg l1). pose proof (zlength_nonneg l2).
    assert (zlength (v :: l2) = zlength l2 + 1) as Hz by (unfold zlength; cbn; lia).
    rewrite (proj2 (Z.eqb_neq _ _)).
    2: { rewrite (qr_write _ _ _ Ho), zlength_app. intros E. apply slot_inj in E; lia. }
    rewrite (bind_ok _ _ _ v h).
    2: { unfold zlength at 1. eapply load_slot; [done|]. by apply list_lookup_middle. }
    destruct (addtail_fits 0 h q l1 v Hq) as (q1 & E1 & Hq1 & Hs1 & Hp1); [lia|].
    rewrite (bind_ok _ _ _ _ _ E1). cbn [Z.eqb]. rewrite bind_kassert, slot_next by lia.
    rewrite cons_middle, (assoc_L (++)) in Ho.
    destruct (IH (l1 ++ [v]) q1 fuel Ho Hq1) as (q' & E & Hq' & Hs' & Hp'); [lia|cbn in Hf; lia|].
    rewrite zlength_app in E. change (zlength [v]) with 1 in E. rewrite <- (assoc_L (++)) in Hq'.
    exists q'. split; [exact E|]. split; [exact Hq'|]. split; congruence.
Qed.

Lemma q_grow_spec h q l target :
  heap_ok h -> queue_rep h q l -> q_size q < target <= 268435456 ->
  (exists h', q_grow q target h = Ret ((ENOMEM, q), h') /\ heap_ok h' /\ live h' = live h) \/
  (exists q' h', q_grow q target h = Ret ((0, q'), h') /\ heap_ok h' /\ queue_rep h' q' l /\
     q_size q < q_size q' /\ heap_frame h h' (q_ptr q) (q_ptr q')).
Proof.
  intros Hok Hr Ht. pose proof Hr as [Hs Hl Hrd Hw He Hb]. pose proof (zlength_nonneg l).
  unfold q_grow, q_grow_with, size_fuel.
  destruct (grow_size_spec 32 (q_size q) target) as (nsize & E & ? & ? & Hn); [lia|lia| |].
  { assert (1 * 2 ^ Z.of_nat 32 <= q_size q * 2 ^ Z.of_nat 32); [|cbn in *; lia].
    apply Z.mul_le_mono_nonneg_r; [cbn; lia|lia]. }
  rewrite E. mrun. rewrite w32_id by (unfold is_u32, two32, sizeof_voidp; lia).
  destruct (kmalloc_cases (nsize * sizeof_voidp) h) as
    [(h1 & Ek & ? & ?)|(p & h1 & Ek & Hok1 & Hp & Hfr & Hl1)];
    [done|unfold sizeof_voidp, heap_max; lia|left|right]; rewrite (bind_ok _ _ _ _ _ Ek); [cbn [Z.eqb]; eauto|].
  rewrite (proj2 (Z.eqb_neq p 0)) by lia. rewrite Z.div_mul by done.
  assert (q_ptr q <> p) as Hne by congruence.
  assert (queue_rep h1 q ([] ++ l)) as Hr1.
  { apply (queue_rep_heap h); [done|]. by rewrite Hl1, lookup_insert_ne. }
  assert (queue_rep h1 (mk_queue nsize 0 0 p (replicate (Z.to_nat nsize) None)) []) as Hnq.
  { assert (zlength (@nil Z) = 0) as Hnil by done.
    split; cbn [q_size q_data q_nextread q_nextwrite q_ptr]; try lia; try done.
    - unfold zlength. rewrite length_replicate. lia.
    - by rewrite Hl1, lookup_insert_eq. }
  destruct (move_all_spec h1 q [] l _ (S (Z.to_nat (q_size q))) Hr1 Hnq)
    as (q' & Em & Hq' & Hs' & Hp'); [cbn; lia|unfold zlength in *; lia|].
  rewrite slot_zero in Em by done. rewrite (bind_ok _ _ _ _ _ Em).
  destruct (kfree_spec (q_ptr q) h1) as (h' & Ef & Hok' & Hl'); [done| |].
  { rewrite Hl1, lookup_insert_ne by done. eauto. }
  rewrite (bind_ok _ _ _ _ _ Ef). cbn in Hs', Hp'. exists q', h'. split; [done|]. split; [done|].
  split; [|split; [lia|]].
  - apply (queue_rep_heap h1); [done|]. by rewrite Hl', Hp', lookup_delete_ne.
  - rewrite Hp'. split; [intros x ? ?|intros _ _]; rewrite Hl'; [|apply lookup_delete_eq].
    by rewrite lookup_delete_ne, Hl1, lookup_insert_ne.
Qed.

(** ** Refinement *)

Inductive q_op := QAdd (v : Z) | QRem | QPeek | QLen | QEmpty | QPrealloc (n : Z).

Definition do_q_op (op : q_op) (q : queue) : M H (Z * queue) :=
  match op with
  | QAdd v => q_addtail q v
  | QRem => q_remhead q
  | QPeek => let* v := q_peek q in ret (v, q)
  | QLen => let* n := q_len q in ret (n, q)
  | QEmpty => ret (if q_empty q then 1 else 0, q)
  | QPrealloc n => q_preallocate q n
  end.

(** The same on lists: adding may fail, and then does nothing. *)
Inductive q_step (l : list Z) : q_op -> Z -> list Z -> Prop :=
  | qs_add v : q_step l (QAdd v) 0 (l ++ [v])
  | qs_add_full v : q_step l (QAdd v) ENOMEM l
  | qs_rem v l' : l = v :: l' -> q_step l QRem v l'
  | qs_peek v l' : l = v :: l' -> q_step l QPeek v l
  | qs_peek_none : l = [] -> q_step l QPeek 0 l
  | qs_len : q_step l QLen (zlength l) l
  | qs_empty : q_step l QEmpty (if decide (l = []) then 1 else 0) l
  | qs_prealloc n r : r = 0 \/ r = ENOMEM -> q_step l (QPrealloc n) r l.

Definition q_legal (q : queue) (l : list Z) (op : q_op) : Prop :=
  match op with
  | QAdd _ => q_size q < 268435456
  | QRem => l <> []
  | QPrealloc n => n <= 268435456
  | _ => True
  end.

Lemma queue_rep_tail h q v l :
  queue_rep h q (v :: l) ->
  queue_rep h (mk_queue (q_size q) (q_nextwrite q) (Z.rem (q_nextread q + 1) (q_size q))
                 (q_ptr q) (q_data q)) l.
Proof.
  intros [Hs Hl Hrd Hw He Hb].
  assert (zlength (v :: l) = zlength l + 1) as Hz by (unfold zlength; cbn [length]; lia).
  pose proof (zlength_nonneg l).
  assert (Hsl : forall i, slot (mk_queue (q_size q) (q_nextwrite q)
    (Z.rem (q_nextread q + 1) (q_size q)) (q_ptr q) (q_data q)) i = slot q (i + 1)).
  { intros i. unfold slot. cbn. rewrite Z.rem_mod_nonneg by lia.
    rewrite Z.add_mod_idemp_l by lia. f_equal. lia. }
  split; rewrite ?Hsl; cbn [q_size q_data q_nextread q_nextwrite q_ptr]; try done; try lia.
  - rewrite Z.rem_mod_nonneg by lia. apply Z.mod_pos_bound. lia.
  - by rewrite Hw, Hz.
  - intros i x Hx. rewrite Hsl. replace (Z.of_nat i + 1) with (Z.of_nat (S i)) by lia. by apply He.
Qed.

Lemma heap_frame_refl h p : heap_frame h h p p.
Proof. by split. Qed.

Lemma heap_frame_same h h' p : live h' = live h -> heap_frame h h' p p.
Proof. intros E. split; [intros; by rewrite E|done]. Qed.

Lemma q_addtail_spec h q l v :
  heap_ok h -> queue_rep h q l -> q_size q < 268435456 ->
  exists r q' l' h', q_addtail q v h = Ret ((r, q'), h') /\ q_step l (QAdd v) r l' /\
    heap_ok h' /\ queue_rep h' q' l' /\ heap_frame h h' (q_ptr q) (q_ptr q').
Proof.
  intros Hok Hr Hlim. destruct (Z.lt_ge_cases (zlength l + 1) (q_size q)) as [Hfit|Hfull].
  { destruct (addtail_fits 1 h q l v Hr Hfit) as (q' & E & Hq' & _ & Hp).
    exists 0, q', (l ++ [v]), h. rewrite Hp. split; [exact E|]. split; [apply qs_add|].
    split_and!; try done. }
  pose proof Hr as [Hs Hl Hrd Hw He Hb]. pose proof (zlength_nonneg l).
  unfold q_addtail. remember 1%nat as d eqn:Hd. cbn [q_addtail_at]. subst d.
  rewrite (proj2 (Z.ltb_lt 0 (q_size q))) by lia. rewrite bind_kassert. cbv zeta.
  rewrite Hw, slot_next by lia.
  assert (slot q (zlength l + 1) = q_nextread q) as Hsl.
  { replace (zlength l + 1) with (q_size q) by lia. unfold slot.
    rewrite <- (Z.mul_1_l (q_size q)) at 1. rewrite Z.mod_add by lia. by apply Z.mod_small. }
  rewrite Hsl, Z.eqb_refl.
  destruct (q_grow_spec h q l (q_size q + 1) Hok Hr) as
    [(h' & E & Hok' & Hl')|(q1 & h1 & E & Hok1 & Hr1 & Hs1 & Hf1)]; [lia| |];
    unfold q_grow in E; rewrite (bind_ok _ _ _ _ _ E).
  - exists ENOMEM, q, l, h'. split; [done|]. split; [apply qs_add_full|]. split; [done|].
    split; [by apply (queue_rep_heap h); [|rewrite Hl']|by apply heap_frame_same].
  - cbn [Z.eqb negb]. destruct (q_put_spec h1 q1 l v Hr1) as (q' & E2 & Hq' & _ & Hp); [lia|].
    rewrite (bind_ok _ _ _ _ _ E2). exists 0, q', (l ++ [v]), h1. rewrite Hp.
    split; [done|]. split; [apply qs_add|]. done.
Qed.

Lemma count_len_spec h q l1 l2 fuel :
  queue_rep h q (l1 ++ l2) -> (length l2 < fuel)%nat ->
  count_len fuel q (slot q (zlength l1)) (zlength l1) = Ret (zlength (l1 ++ l2)).
Proof.
  intros Hr. revert l1 fuel Hr. induction l2 as [|v l2 IH]; intros l1 fuel Hr Hf;
    (destruct fuel as [|fuel]; [cbn in Hf; lia|]); cbn [count_len].
  - rewrite app_nil_r in *. by rewrite (qr_write _ _ _ Hr), Z.eqb_refl.
  - pose proof (qr_size _ _ _ Hr) as Hs. rewrite zlength_app in Hs.
    pose proof (zlength_nonneg l1). pose proof (zlength_nonneg l2).
    assert (zlength (v :: l2) = zlength l2 + 1) as Hz by (unfold zlength; cbn [length]; lia).
    rewrite (proj2 (Z.eqb_neq _ _)).
    2: { rewrite (qr_write _ _ _ Hr), zlength_app. intros E. apply slot_inj in E; lia. }
    rewrite slot_next by lia. rewrite cons_middle, (assoc_L (++)) in Hr |- *.
    rewrite <- (IH (l1 ++ [v]) fuel Hr ltac:(cbn in Hf; lia)). by rewrite zlength_app.
Qed.

(** An operation on a queue does on the ring buffer what it does on the
    list of elements: elements come out in the order in which they went in,
    [q_len] and [q_empty] are about the list, growing moves every element in
    order. Adding or preallocating may return [ENOMEM], and then the elements
    are unchanged. The nested call of [q_addtail] in [q_grow] never grows
    again, no assertion fails and no other heap block is touched. *)
Theorem queue_refines_list h q l op
    (Hok : heap_ok h) (Hrep : queue_rep h q l) (Hlegal : q_legal q l op) :
  exists r q' l' h', do_q_op op q h = Ret ((r, q'), h') /\ q_step l op r l' /\
    heap_ok h' /\ queue_rep h' q' l' /\ heap_frame h h' (q_ptr q) (q_ptr q').
Proof.
  pose proof Hrep as [Hs Hl Hrd Hw He Hb]. pose proof (zlength_nonneg l).
  pose proof (heap_frame_refl h (q_ptr q)) as Hid. pose proof (q_empty_spec h q l Hrep) as Hem.
  destruct op as [v| | | | |n]; cbn [do_q_op q_legal] in *.
  - by apply q_addtail_spec.
  - destruct l as [|v l]; [done|]. unfold q_remhead. rewrite Hem.
    rewrite (proj2 (Z.ltb_lt 0 (q_size q))), bool_decide_eq_false_2 by (done || lia). mrun.
    cbn [negb]; mrun.
    pose proof (load_slot h q (v :: l) 0 v Hrep eq_refl) as Ev. rewrite slot_zero in Ev by done.
    rewrite (bind_ok _ _ _ _ _ Ev). eexists v, _, l, h. split; [done|].
    split; [by eapply qs_rem|]. split; [done|]. split; [by eapply queue_rep_tail|done].
  - unfold q_peek. rewrite Hem, (proj2 (Z.ltb_lt 0 (q_size q))) by lia. rewrite bind_bind, bind_kassert.
    destruct l as [|v l]; [exists 0, q, [], h|exists v, q, (v :: l), h].
    + split; [done|]. split; [by apply qs_peek_none|done].
    + rewrite bool_decide_eq_false_2 by done.
      pose proof (load_slot h q (v :: l) 0 v Hrep eq_refl) as Ev. rewrite slot_zero in Ev by done.
      rewrite (bind_ok _ _ _ _ _ Ev). split; [done|]. split; [by eapply qs_peek|done].
  - exists (zlength l), q, l, h. unfold q_len.
    pose proof (count_len_spec h q [] l (S (Z.to_nat (q_size q))) Hrep) as E.
    rewrite slot_zero in E by done. change (zlength []) with 0 in E.
    rewrite E by (unfold zlength in *; lia). split; [done|]. split; [apply qs_len|done].
  - eexists _, q, l, h. split; [done|]. split; [|done]. rewrite Hem.
    replace (if bool_decide (l = []) then 1 else 0) with (if decide (l = []) then 1 else 0); [apply qs_empty|].
    by case_bool_decide; case_decide.
  - unfold q_preallocate. rewrite (proj2 (Z.ltb_lt 0 (q_size q))) by lia. rewrite bind_kassert.
    destruct (Z.ltb_spec (q_size q) n).
    2: { exists 0, q, l, h. split; [done|]. split; [apply qs_prealloc; auto|done]. }
    destruct (q_grow_spec h q l n Hok Hrep) as
      [(h' & E & Hok' & Hl')|(q1 & h1 & E & Hok1 & Hr1 & Hs1 & Hf1)]; [lia| |].
    + exists ENOMEM, q, l, h'. split; [done|]. split; [apply qs_prealloc; auto|]. split; [done|].
      split; [by apply (queue_rep_heap h); [|rewrite Hl']|by apply heap_frame_same].
    + exists 0, q1, l, h1. split; [done|]. split; [apply qs_prealloc; auto|done].
Qed.

End code.

(** A queue of four slots at the end of its buffer, full: adding grows it. *)
Definition example_heap : RefHeap.t := RefHeap.mk {[16 := 16]} 32 1000.
Definition example_queue : queue := mk_queue 4 2 3 16 [Some 8; Some 9; None; Some 7].

Lemma example_heap_ok : RefHeap.ok example_heap.
Proof.
  split; [cbn; lia|]. split; cbn.
  - intros p n [<- <-]%lookup_singleton_Some. lia.
  - intros p q n m [<- <-]%lookup_singleton_Some [<- <-]%lookup_singleton_Some. done.
Qed.

Lemma example_queue_rep : queue_rep example_heap example_queue [7; 8; 9].
Proof.
  split; try done.
  intros i v Hv. do 3 (destruct i as [|i]; [injection Hv as <-; reflexivity|]). by destruct i.
Qed.

Lemma queue_refines_list_witness :
  exists q' h', do_q_op (QAdd 10) example_queue example_heap = Ret ((0, q'), h') /\
    queue_rep h' q' [7; 8; 9; 10] /\ q_size q' = 8.
Proof.
  destruct (@queue_refines_list RefHeap.t RefHeap.ref_heap example_heap example_queue [7; 8; 9]
    (QAdd 10) example_heap_ok example_queue_rep) as (r & q' & l' & h' & E & Hs & _ & Hr & _).
  - reflexivity.
  - assert (r = 0 /\ q_size q' = 8) as [-> Hsz].
    { vm_compute in E. injection E as <- <- <-. split; reflexivity. }
    exists q', h'. split; [exact E|]. inversion Hs; subst. split; [exact Hr|exact Hsz].
Defined.
