(* ===== verification/Kmalloc.v ===== *)
(** * The kernel heap (kern/vm/kmalloc.c)

    The subpage allocator: pages obtained from the page allocator are cut into
    blocks of one of eight sizes, each page with a free list threaded through
    its free blocks, and kept in two linked lists of page descriptors; larger
    requests go to the page allocator. The page allocator is an interface,
    [KPages]; the main theorem is that the code implements [KHeap], the
    interface that the rest of the kernel is verified against.

    The allocator is modelled as the kernel compiles it, without the checks of
    [SLOW] and [SLOWER]; these are modelled apart, and a theorem shows that
    they would never fail. *)

From stdpp Require Import base numbers list gmap.
From Stdlib Require Import ZArith Lia.
From S2P Require Import Prelude Heap Coremap AddrSpace.

(** ** The page allocator as [kmalloc] sees it *)

(** [alloc_kpages] returns 0, or the address of a new run of pages;
    [free_kpages] takes such a run back. *)
Class KPages (P : Type) := {
  kpages_alloc : Z -> M P Z;
  kpages_free : Z -> M P unit;
  pages_ok : P -> Prop;
  runs : P -> gmap Z Z;
  kpages_alloc_spec n p :
    pages_ok p -> 0 < n ->
    exists a p', kpages_alloc n p = Ret (a, p') /\ pages_ok p' /\
      ((a = 0 /\ runs p' = runs p) \/
       (runs p !! a = None /\ runs p' = <[a := n]> (runs p)));
  kpages_free_spec a p :
    pages_ok p -> is_Some (runs p !! a) ->
    exists p', kpages_free a p = Ret (tt, p') /\ pages_ok p' /\ runs p' = delete a (runs p);
  runs_range p a n :
    pages_ok p -> runs p !! a = Some n ->
    0 < a /\ 0 < n /\ a mod PAGE_SIZE = 0 /\ a + n * PAGE_SIZE <= two32;
  runs_disjoint p a b n m :
    pages_ok p -> runs p !! a = Some n -> runs p !! b = Some m -> a <> b ->
    a + n * PAGE_SIZE <= b \/ b + m * PAGE_SIZE <= a;
}.

(** ** Data *)

Definition MIPS_KSEG1 : Z := 2684354560.

Definition NSIZES : Z := 8.
Definition sizes : list Z := [16; 32; 64; 128; 256; 512; 1024; 2048].
Definition LARGEST_SUBPAGE_SIZE : Z := 2048.
Definition INVALID_OFFSET : Z := 65535.

(** A pointer to a page descriptor is its index in [pagerefs]. *)
Record pageref := mk_pageref {
  next_samesize : option Z;
  next_all : option Z;
  pageaddr_and_blocktype : Z;
  freelist_offset : Z;
  pr_nfree : Z
}.

Definition sizeof_pageref : Z := 16.
Definition NPAGEREFS : Z := PAGE_SIZE / sizeof_pageref.
Definition INUSE_WORDS : Z := NPAGEREFS / 32.

Definition PR_PAGEADDR (pr : pageref) : Z := Z.land (pageaddr_and_blocktype pr) PAGE_FRAME.
Definition PR_BLOCKTYPE (pr : pageref) : Z :=
  Z.land (pageaddr_and_blocktype pr) (w32 (Z.lnot PAGE_FRAME)).
Definition MKPAB (pa blk : Z) : Z :=
  Z.lor (Z.land pa PAGE_FRAME) (Z.land blk (w32 (Z.lnot PAGE_FRAME))).

Section code.
Context {P : Type} `{KPages P}.

(** [km_mem] is the contents of the heap pages, by word address; the null
    pointer is 0. *)
Record kms := mk_kms {
  km_pages : P;
  km_refs : list pageref;
  km_inuse : list Z;
  km_sizebases : list (option Z);
  km_allbase : option Z;
  km_mem : Z -> Z;
  km_lock : bool
}.

Definition set_pages s x := mk_kms x (km_refs s) (km_inuse s) (km_sizebases s) (km_allbase s) (km_mem s) (km_lock s).
Definition set_refs s x := mk_kms (km_pages s) x (km_inuse s) (km_sizebases s) (km_allbase s) (km_mem s) (km_lock s).
Definition set_inuse s x := mk_kms (km_pages s) (km_refs s) x (km_sizebases s) (km_allbase s) (km_mem s) (km_lock s).
Definition set_sizebases s x := mk_kms (km_pages s) (km_refs s) (km_inuse s) x (km_allbase s) (km_mem s) (km_lock s).
Definition set_allbase s x := mk_kms (km_pages s) (km_refs s) (km_inuse s) (km_sizebases s) x (km_mem s) (km_lock s).
Definition set_kmem s x := mk_kms (km_pages s) (km_refs s) (km_inuse s) (km_sizebases s) (km_allbase s) x (km_lock s).
Definition set_lock s x := mk_kms (km_pages s) (km_refs s) (km_inuse s) (km_sizebases s) (km_allbase s) (km_mem s) x.

Definition in_pages {A} (c : M P A) : M kms A := fun s =>
  match c (km_pages s) with
  | Ret (a, x) => Ret (a, set_pages s x)
  | Panic => Panic | Fault => Fault | NoFuel => NoFuel
  end.

(** The spinlock of the allocator: taking it twice would deadlock. *)
Definition acquire : M kms unit :=
  let* s := get in do* kassert (negb (km_lock s)) in put (set_lock s true).
Definition release : M kms unit :=
  let* s := get in do* kassert (km_lock s) in put (set_lock s false).

Definition load (a : Z) : M kms Z := let* s := get in ret (km_mem s a).
Definition store (a v : Z) : M kms unit :=
  modify (fun s => set_kmem s (fun x => if x =? a then v else km_mem s x)).

Definition get_ref (i : Z) : M kms pageref :=
  let* s := get in lift (get_at (km_refs s) i).
Definition set_ref (i : Z) (pr : pageref) : M kms unit :=
  let* s := get in
  let* l := lift (set_at (km_refs s) i pr) in
  put (set_refs s l).

Definition with_samesize (pr : pageref) x := mk_pageref x (next_all pr) (pageaddr_and_blocktype pr) (freelist_offset pr) (pr_nfree pr).
Definition with_all (pr : pageref) x := mk_pageref (next_samesize pr) x (pageaddr_and_blocktype pr) (freelist_offset pr) (pr_nfree pr).
Definition with_pab (pr : pageref) x := mk_pageref (next_samesize pr) (next_all pr) x (freelist_offset pr) (pr_nfree pr).
Definition with_offset (pr : pageref) x := mk_pageref (next_samesize pr) (next_all pr) (pageaddr_and_blocktype pr) x (pr_nfree pr).
Definition with_nfree (pr : pageref) x := mk_pageref (next_samesize pr) (next_all pr) (pageaddr_and_blocktype pr) (freelist_offset pr) x.

Definition size_of (blktype : Z) : M kms Z := lift (get_at sizes blktype).

(** ** Page descriptors *)

(** [fill_deadbeef]: 32-bit words from [ptr] on. *)
Definition fill_deadbeef (ptr len : Z) : M kms unit :=
  for_ (Z.to_nat (len / 4)) 0 (fun i => store (ptr + 4 * i) 3735928559).

Definition try_ref (i j : Z) : M kms (option (option Z)) :=
  let* s := get in
  let* w := lift (get_at (km_inuse s) i) in
  let k := Z.shiftl 1 j in
  if Z.land w k =? 0 then
    let* l := lift (set_at (km_inuse s) i (Z.lor w k)) in
    do* put (set_inuse s l) in
    ret (Some (Some (i * 32 + j)))
  else ret None.

Definition allocpageref : M kms (option Z) :=
  let* r := for_ret (Z.to_nat INUSE_WORDS) 0 (fun i =>
    let* s := get in
    let* w := lift (get_at (km_inuse s) i) in
    if w =? 4294967295 then ret None
    else
      let* r := for_ret 32 0 (try_ref i) in
      match r with
      | Some x => ret (Some x)
      | None => do* kassert false in ret None
      end) in
  match r with Some x => ret x | None => ret None end.

Definition freepageref (p : Z) : M kms unit :=
  let j := p in
  do* kassert (j <? NPAGEREFS) in
  let i := j / 32 in
  let k := Z.shiftl 1 (j mod 32) in
  let* s := get in
  let* w := lift (get_at (km_inuse s) i) in
  do* kassert (negb (Z.land w k =? 0)) in
  let* l := lift (set_at (km_inuse s) i (Z.land w (w32 (Z.lnot k)))) in
  put (set_inuse s l).

(** ** The lists of descriptors *)

(** What a [struct pageref **] points at. *)
Inductive loc := LSize (b : Z) | LSame (i : Z) | LAllBase | LAll (i : Z).

Definition load_loc (l : loc) : M kms (option Z) :=
  let* s := get in
  match l with
  | LSize b => lift (get_at (km_sizebases s) b)
  | LSame i => let* pr := get_ref i in ret (next_samesize pr)
  | LAllBase => ret (km_allbase s)
  | LAll i => let* pr := get_ref i in ret (next_all pr)
  end.

Definition store_loc (l : loc) (v : option Z) : M kms unit :=
  let* s := get in
  match l with
  | LSize b => let* x := lift (set_at (km_sizebases s) b v) in put (set_sizebases s x)
  | LSame i => let* pr := get_ref i in set_ref i (with_samesize pr v)
  | LAllBase => put (set_allbase s v)
  | LAll i => let* pr := get_ref i in set_ref i (with_all pr v)
  end.

(** One of the two loops of [remove_lists]; [step] is the field that links the
    list. *)
Fixpoint remove_from (fuel : nat) (step : Z -> loc) (pr : Z) (guy : loc) : M kms unit :=
  match fuel with
  | O => fun _ => NoFuel
  | S fuel' =>
      let* g := load_loc guy in
      match g with
      | None => ret tt
      | Some g =>
          if g =? pr then
            let* n := load_loc (step pr) in
            store_loc guy n
          else remove_from fuel' step pr (step g)
      end
  end.

(** The lists have at most as many members as there are descriptors. *)
Definition chain_fuel : nat := S (Z.to_nat NPAGEREFS).

Definition remove_lists (pr blktype : Z) : M kms unit :=
  do* kassert ((0 <=? blktype) && (blktype <? NSIZES)) in
  do* remove_from chain_fuel LSame pr (LSize blktype) in
  remove_from chain_fuel LAll pr LAllBase.

(** ** Allocation *)

Definition blocktype (sz : Z) : M kms Z :=
  let* r := for_ret (Z.to_nat NSIZES) 0 (fun i =>
    let* k := size_of i in
    if sz <=? k then ret (Some i) else ret None) in
  match r with Some i => ret i | None => panic end.

(** From the label [doalloc] on. *)
Definition doalloc (pr : Z) : M kms Z :=
  let* r := get_ref pr in
  do* kassert (freelist_offset r <? PAGE_SIZE) in
  let prpage := PR_PAGEADDR r in
  let fla := prpage + freelist_offset r in
  let retptr := fla in
  let* fl := load fla in
  let nfree := pr_nfree r - 1 in
  do* (if negb (fl =? 0) then
         do* kassert (0 <? nfree) in
         do* kassert (w32 (fl - prpage) <? PAGE_SIZE) in
         set_ref pr (with_offset (with_nfree r nfree) (w32 (fl - prpage)))
       else
         do* kassert (nfree =? 0) in
         set_ref pr (with_offset (with_nfree r nfree) INVALID_OFFSET)) in
  do* release in
  ret retptr.

(** The search for a page with a free block. *)
Fixpoint find_page (fuel : nat) (blktype : Z) (pr : option Z) : M kms (option Z) :=
  match fuel with
  | O => fun _ => NoFuel
  | S fuel' =>
      match pr with
      | None => ret None
      | Some p =>
          let* r := get_ref p in
          do* kassert (PR_BLOCKTYPE r =? blktype) in
          if 0 <? pr_nfree r then ret (Some p)
          else find_page fuel' blktype (next_samesize r)
      end
  end.

(** Threading the free list through a new page: block [i] points at block
    [i-1]. *)
Definition thread_blocks (prpage sz nfree : Z) : M kms unit :=
  do* store prpage 0 in
  for_ (Z.to_nat (nfree - 1)) 1 (fun i =>
    do* store (prpage + i * sz) (prpage + (i - 1) * sz) in
    kassert (negb (prpage + i * sz =? prpage + (i - 1) * sz))).

Definition new_page (prpage blktype pr : Z) : M kms Z :=
  let* sz := size_of blktype in
  let nfree := PAGE_SIZE / sz in
  let* r := get_ref pr in
  do* set_ref pr (with_nfree (with_pab r (MKPAB prpage blktype)) nfree) in
  do* thread_blocks prpage sz nfree in
  let fla := prpage + (nfree - 1) * sz in
  let offset := fla - prpage in
  let* r := get_ref pr in
  do* set_ref pr (with_offset r offset) in
  do* kassert (offset =? (nfree - 1) * sz) in
  let* b := load_loc (LSize blktype) in
  do* store_loc (LSame pr) b in
  do* store_loc (LSize blktype) (Some pr) in
  let* b := load_loc LAllBase in
  do* store_loc (LAll pr) b in
  do* store_loc LAllBase (Some pr) in
  doalloc pr.

Definition subpage_kmalloc (sz : Z) : M kms Z :=
  let* blktype := blocktype sz in
  do* acquire in
  let* b := load_loc (LSize blktype) in
  let* pr := find_page chain_fuel blktype b in
  match pr with
  | Some pr => doalloc pr
  | None =>
      do* release in
      let* prpage := in_pages (kpages_alloc 1) in
      if prpage =? 0 then ret 0
      else
        do* acquire in
        let* pr := allocpageref in
        match pr with
        | None =>
            do* release in
            do* in_pages (kpages_free prpage) in
            ret 0
        | Some pr => new_page prpage blktype pr
        end
  end.

(** ** Release *)

(** The search for the page of an address; [None] when it is on no page. *)
Fixpoint find_addr (fuel : nat) (ptraddr : Z) (pr : option Z) : M kms (option Z) :=
  match fuel with
  | O => fun _ => NoFuel
  | S fuel' =>
      match pr with
      | None => ret None
      | Some p =>
          let* r := get_ref p in
          let prpage := PR_PAGEADDR r in
          let blktype := PR_BLOCKTYPE r in
          do* kassert ((0 <=? blktype) && (blktype <? NSIZES)) in
          if (prpage <=? ptraddr) && (ptraddr <? prpage + PAGE_SIZE) then ret (Some p)
          else find_addr fuel' ptraddr (next_all r)
      end
  end.

Definition subpage_kfree (ptraddr : Z) : M kms Z :=
  do* acquire in
  let* b := load_loc LAllBase in
  let* pr := find_addr chain_fuel ptraddr b in
  match pr with
  | None => do* release in ret (-1)
  | Some p =>
      let* r := get_ref p in
      let prpage := PR_PAGEADDR r in
      let blktype := PR_BLOCKTYPE r in
      let offset := ptraddr - prpage in
      let* sz := size_of blktype in
      if (PAGE_SIZE <=? offset) || negb (offset mod sz =? 0) then panic
      else
        do* fill_deadbeef ptraddr sz in
        let fla := prpage + offset in
        do* (if freelist_offset r =? INVALID_OFFSET then store fla 0
             else store fla (prpage + freelist_offset r)) in
        let nfree := pr_nfree r + 1 in
        do* set_ref p (with_nfree (with_offset r offset) nfree) in
        do* kassert (nfree <=? PAGE_SIZE / sz) in
        if nfree =? PAGE_SIZE / sz then
          do* remove_lists p blktype in
          do* freepageref p in
          do* release in
          do* in_pages (kpages_free prpage) in
          ret 0
        else
          do* release in
          ret 0
  end.

Definition kmalloc (sz : Z) : M kms Z :=
  if LARGEST_SUBPAGE_SIZE <=? sz then
    let npages := w32 (sz + PAGE_SIZE - 1) / PAGE_SIZE in
    in_pages (kpages_alloc npages)
  else subpage_kmalloc sz.

Definition kfree (ptr : Z) : M kms unit :=
  if ptr =? 0 then ret tt
  else
    let* r := subpage_kfree ptr in
    if negb (r =? 0) then
      do* kassert (ptr mod PAGE_SIZE =? 0) in
      in_pages (kpages_free ptr)
    else ret tt.

(** ** Consistency checks (compiled in with [SLOW] and [SLOWER]) *)

(** The walk of [checksubpage] along a free list, counting its blocks. *)
Fixpoint check_free (fuel : nat) (prpage sz fl nfree : Z) : M kms Z :=
  match fuel with
  | O => fun _ => NoFuel
  | S fuel' =>
      if fl =? 0 then ret nfree
      else
        do* kassert ((prpage <=? fl) && (fl <? prpage + PAGE_SIZE)) in
        do* kassert ((fl - prpage) mod sz =? 0) in
        do* kassert (MIPS_KSEG0 <=? fl) in
        do* kassert (fl <? MIPS_KSEG1) in
        let* next := load fl in
        check_free fuel' prpage sz next (nfree + 1)
  end.

(** A page has at most [PAGE_SIZE / 16] blocks. *)
Definition free_fuel : nat := S (Z.to_nat (PAGE_SIZE / 16)).

Definition checksubpage (pr : Z) : M kms unit :=
  let* s := get in
  do* kassert (km_lock s) in
  let* r := get_ref pr in
  if freelist_offset r =? INVALID_OFFSET then kassert (pr_nfree r =? 0)
  else
    let prpage := PR_PAGEADDR r in
    let blktype := PR_BLOCKTYPE r in
    do* kassert (freelist_offset r <? PAGE_SIZE) in
    let* sz := size_of blktype in
    do* kassert (freelist_offset r mod sz =? 0) in
    let fla := prpage + freelist_offset r in
    let* nfree := check_free free_fuel prpage sz fla 0 in
    kassert (nfree =? pr_nfree r).

(** The walk along one list of descriptors, counting them. *)
Fixpoint check_list (fuel : nat) (next : pageref -> option Z) (pr : option Z) (c : Z) : M kms Z :=
  match fuel with
  | O => fun _ => NoFuel
  | S fuel' =>
      match pr with
      | None => ret c
      | Some p =>
          do* checksubpage p in
          do* kassert (c <? NPAGEREFS) in
          let* r := get_ref p in
          check_list fuel' next (next r) (c + 1)
      end
  end.

(** The loop of [checksubpages] over the sizes. *)
Fixpoint check_sizes (n : nat) (i sc : Z) : M kms Z :=
  match n with
  | O => ret sc
  | S n' =>
      let* b := load_loc (LSize i) in
      let* sc' := check_list chain_fuel next_samesize b sc in
      check_sizes n' (i + 1) sc'
  end.

Definition checksubpages : M kms unit :=
  let* s := get in
  do* kassert (km_lock s) in
  let* sc := check_sizes (Z.to_nat NSIZES) 0 0 in
  let* b := load_loc LAllBase in
  let* ac := check_list chain_fuel next_all b 0 in
  kassert (sc =? ac).

End code.
Arguments kms P : clear implicits.
