(* ===== verification/KmallocSpec.v ===== *)
(** * The kernel heap is a heap

    The invariant of kmalloc.c, proofs that [kmalloc] and [kfree] keep it, and
    the instance of [KHeap] that they amount to. *)

From stdpp Require Import base numbers list gmap.
From Stdlib Require Import ZArith Lia.
From S2P Require Import Prelude Heap Coremap AddrSpace Kmalloc.

(** ** Block sizes *)

Definition szk (t : Z) : Z := 16 * 2 ^ t.
Definition nblk (t : Z) : Z := PAGE_SIZE / szk t.

Ltac types t H :=
  assert (t = 0 \/ t = 1 \/ t = 2 \/ t = 3 \/ t = 4 \/ t = 5 \/ t = 6 \/ t = 7) as H by lia;
  destruct H as [-> |[-> |[-> |[-> |[-> |[-> |[-> | ->]]]]]]].

Lemma szk_facts t :
  0 <= t < 8 -> 16 <= szk t <= 2048 /\ nblk t * szk t = PAGE_SIZE /\ 2 <= nblk t <= 256 /\
    szk t mod 4 = 0.
Proof. intros Ht. types t Hc; by vm_compute. Qed.

Lemma szk_get t : 0 <= t < 8 -> get_at sizes t = Ret (szk t).
Proof. intros Ht. types t Hc; done. Qed.

Lemma mkpab_page pa t :
  is_u32 pa -> pa mod PAGE_SIZE = 0 -> 0 <= t < 8 -> Z.land (MKPAB pa t) PAGE_FRAME = pa.
Proof.
  intros Hu Ha Ht. unfold MKPAB. rewrite Z.land_lor_distr_l, !(land_aligned pa) by done.
  assert (Z.land (Z.land t (w32 (Z.lnot PAGE_FRAME))) PAGE_FRAME = 0) as ->
    by (types t Hc; done). apply Z.lor_0_r.
Qed.

Lemma mkpab_type pa t :
  is_u32 pa -> pa mod PAGE_SIZE = 0 -> 0 <= t < 8 ->
  Z.land (MKPAB pa t) (w32 (Z.lnot PAGE_FRAME)) = t.
Proof.
  intros Hu Ha Ht. unfold MKPAB. rewrite Z.land_lor_distr_l, (land_aligned pa) by done.
  rewrite land_page_offset, Ha by done. types t Hc; done.
Qed.

Section spec.
Context {P : Type} `{KPages P}.
Implicit Types (s : kms P).

Lemma size_of_run t s : 0 <= t < 8 -> size_of t s = Ret (szk t, s).
Proof. intros Ht. unfold size_of. by rewrite szk_get. Qed.

(** The type chosen for a request is the first that fits it. *)
Lemma blocktype_spec sz s :
  0 <= sz < LARGEST_SUBPAGE_SIZE ->
  exists t, blocktype sz s = Ret (t, s) /\ 0 <= t < 8 /\ sz <= szk t /\
    forall u, 0 <= u < t -> szk u < sz.
Proof.
  unfold LARGEST_SUBPAGE_SIZE. intros Hsz. unfold blocktype. change (Z.to_nat NSIZES) with 8%nat.
  destruct (for_ret_search (fun i => sz <=? szk i)
    (fun i => let* k := size_of i in if sz <=? k then ret (Some i) else ret None)
    8 0 s) as [[E HP]|(t & Ht & HP & Hj & E)].
  - intros i Hi HPi. rewrite (bind_ok _ _ _ _ _ (size_of_run i s ltac:(lia))).
    by rewrite HPi.
  - intros i Hi HPi _. rewrite (bind_ok _ _ _ _ _ (size_of_run i s ltac:(lia))).
    rewrite HPi. eauto.
  - specialize (HP 7 ltac:(lia)). change (szk 7) with 2048 in HP. lia.
  - exists t. bprop.
    rewrite (bind_ok _ _ _ (Some t) s).
    + split; [done|]. split; [lia|]. split; [done|]. intros u Hu.
      specialize (Hj u ltac:(lia)). cbn in Hj. lia.
    + rewrite E. rewrite (bind_ok _ _ _ _ _ (size_of_run t s ltac:(lia))).
      by rewrite (proj2 (Z.leb_le sz (szk t))).
Qed.

(** ** The bits of the descriptors in use *)

Record inuse_rep (w used : list Z) : Prop := {
  iu_len : length w = 8%nat;
  iu_range : forall i x, w !! i = Some x -> is_u32 x;
  iu_bits : forall i j x, w !! Z.to_nat i = Some x -> 0 <= i < 8 -> 0 <= j < 32 ->
    Z.testbit x j = bool_decide (i * 32 + j ∈ used);
}.

Lemma full_word32 x :
  is_u32 x -> (forall j, 0 <= j < 32 -> Z.testbit x j = true) -> x = 4294967295.
Proof.
  intros Hx Hb. change 4294967295 with (Z.ones 32). apply Z.bits_inj'. intros n Hn.
  destruct (Z.lt_ge_cases n 32).
  - rewrite Z.ones_spec_low by lia. apply Hb. lia.
  - rewrite Z.ones_spec_high by lia. unfold is_u32, two32 in Hx.
    rewrite <- (Z.mod_small x (2 ^ 32)) by (cbn; lia). apply Z.mod_pow2_bits_high. lia.
Qed.

Lemma testbit_shift1 j k : 0 <= j -> 0 <= k -> Z.testbit (Z.shiftl 1 j) k = (j =? k).
Proof.
  intros Hj Hk. rewrite Z.shiftl_mul_pow2, Z.mul_1_l by lia. rewrite Z.pow2_bits_eqb by lia. done.
Qed.

Lemma land_shift1_zero x j : 0 <= j -> (Z.land x (Z.shiftl 1 j) =? 0) = negb (Z.testbit x j).
Proof.
  intros Hj. destruct (Z.testbit x j) eqn:E; cbn.
  - apply Z.eqb_neq. intros Hz. assert (Z.testbit (Z.land x (Z.shiftl 1 j)) j = false) as Hf
      by (rewrite Hz; apply Z.bits_0).
    rewrite Z.land_spec, E, testbit_shift1, Z.eqb_refl in Hf by lia. done.
  - apply Z.eqb_eq. apply Z.bits_inj'. intros n Hn. rewrite Z.land_spec, Z.bits_0, testbit_shift1 by lia.
    destruct (Z.eqb_spec j n) as [->|]; [by rewrite E|by rewrite andb_false_r].
Qed.

Lemma lor_shift1_range x j : is_u32 x -> 0 <= j < 32 -> is_u32 (Z.lor x (Z.shiftl 1 j)).
Proof.
  unfold is_u32, two32. intros Hx Hj. rewrite Z.shiftl_mul_pow2, Z.mul_1_l by lia.
  assert (0 <= 2 ^ j < 2 ^ 32) by (split; [lia|apply Z.pow_lt_mono_r; lia]).
  assert (0 <= Z.lor x (2 ^ j)) by (apply Z.lor_nonneg; lia).
  split; [done|]. change 4294967296 with (2 ^ 32) in *.
  destruct (Z.eq_dec (Z.lor x (2 ^ j)) 0) as [->|]; [lia|].
  apply Z.log2_lt_pow2; [lia|]. rewrite Z.log2_lor by lia.
  assert (Z.log2 x < 32) by (destruct (Z.eq_dec x 0) as [->|]; [done|apply Z.log2_lt_pow2; lia]).
  assert (Z.log2 (2 ^ j) < 32) by (rewrite Z.log2_pow2; lia). lia.
Qed.

Lemma bool_decide_cons (x y : Z) l :
  bool_decide (x ∈ y :: l) = (x =? y) || bool_decide (x ∈ l).
Proof.
  destruct (Z.eqb_spec x y) as [->|]; cbn; [apply bool_decide_eq_true_2; set_solver|].
  repeat case_bool_decide; set_solver.
Qed.

Lemma inuse_set w used i j x :
  inuse_rep w used -> 0 <= i < 8 -> 0 <= j < 32 -> w !! Z.to_nat i = Some x ->
  inuse_rep (<[Z.to_nat i := Z.lor x (Z.shiftl 1 j)]> w) (i * 32 + j :: used).
Proof.
  intros [Hl Hr Hb] Hi Hj Hx. split.
  - by rewrite length_insert.
  - intros k y. destruct (decide (k = Z.to_nat i)) as [->|Hne].
    + rewrite list_lookup_insert_eq by lia. intros [= <-]. apply lor_shift1_range; [by eapply Hr|lia].
    + rewrite list_lookup_insert_ne by done. apply Hr.
  - intros i' j' y Hy Hi' Hj'. destruct (decide (i' = i)) as [->|Hne].
    + rewrite list_lookup_insert_eq in Hy by lia. injection Hy as <-.
      rewrite Z.lor_spec, testbit_shift1, (Hb i j' x) by (done || lia).
      rewrite bool_decide_cons, orb_comm. f_equal. lia.
    + rewrite list_lookup_insert_ne in Hy by lia. rewrite (Hb i' j' y Hy) by lia.
      rewrite bool_decide_cons, (proj2 (Z.eqb_neq _ _)) by lia. done.
Qed.

Lemma land_lnot_shift1 x j :
  is_u32 x -> 0 <= j < 32 -> is_u32 (Z.land x (w32 (Z.lnot (Z.shiftl 1 j)))) /\
  forall k, 0 <= k < 32 ->
    Z.testbit (Z.land x (w32 (Z.lnot (Z.shiftl 1 j)))) k = Z.testbit x k && negb (j =? k).
Proof.
  intros Hx Hj. split.
  - pose proof (w32_range (Z.lnot (Z.shiftl 1 j))) as [? _]. unfold is_u32 in *.
    split; [apply Z.land_nonneg; lia|].
    destruct (Z.eq_dec (Z.land x (w32 (Z.lnot (Z.shiftl 1 j)))) 0) as [->|]; [unfold two32; lia|].
    pose proof (Z.land_nonneg x (w32 (Z.lnot (Z.shiftl 1 j)))).
    change two32 with (2 ^ 32). apply Z.log2_lt_pow2; [lia|].
    pose proof (Z.log2_land x (w32 (Z.lnot (Z.shiftl 1 j))) ltac:(lia) ltac:(lia)).
    assert (Z.log2 x < 32); [|lia].
    destruct (Z.eq_dec x 0) as [->|]; [done|]. apply Z.log2_lt_pow2; unfold two32 in *; cbn; lia.
  - intros k Hk. rewrite Z.land_spec. f_equal. unfold w32. change two32 with (2 ^ 32).
    rewrite Z.mod_pow2_bits_low, Z.lnot_spec, testbit_shift1 by lia. done.
Qed.

Lemma inuse_clear w used i j x :
  inuse_rep w used -> 0 <= i < 8 -> 0 <= j < 32 -> w !! Z.to_nat i = Some x ->
  inuse_rep (<[Z.to_nat i := Z.land x (w32 (Z.lnot (Z.shiftl 1 j)))]> w)
            (filter (fun k => k <> i * 32 + j) used).
Proof.
  intros [Hl Hr Hb] Hi Hj Hx. destruct (land_lnot_shift1 x j) as [Hu Ht]; [by eapply Hr|done|]. split.
  - by rewrite length_insert.
  - intros k y. destruct (decide (k = Z.to_nat i)) as [->|Hne].
    + rewrite list_lookup_insert_eq by lia. by intros [= <-].
    + rewrite list_lookup_insert_ne by done. apply Hr.
  - assert (Hf : forall k, bool_decide (k ∈ filter (fun k => k <> i * 32 + j) used) =
      bool_decide (k ∈ used) && negb (k =? i * 32 + j)).
    { intros k. destruct (Z.eqb_spec k (i * 32 + j)); repeat case_bool_decide; cbn; try done;
        rewrite list_elem_of_filter in *; tauto. }
    intros i' j' y Hy Hi' Hj'. rewrite Hf. destruct (decide (i' = i)) as [->|Hne].
    + rewrite list_lookup_insert_eq in Hy by lia. injection Hy as <-.
      rewrite Ht, (Hb i j' x) by (done || lia). do 2 f_equal. lia.
    + rewrite list_lookup_insert_ne in Hy by lia. rewrite (Hb i' j' y Hy) by lia.
      rewrite (proj2 (Z.eqb_neq _ _)) by lia. by rewrite andb_true_r.
Qed.

Lemma try_ref_run i j x s :
  0 <= i -> 0 <= j -> km_inuse s !! Z.to_nat i = Some x ->
  try_ref i j s =
  if Z.testbit x j then Ret (None, s)
  else Ret (Some (Some (i * 32 + j)),
            set_inuse s (<[Z.to_nat i := Z.lor x (Z.shiftl 1 j)]> (km_inuse s))).
Proof.
  intros Hi Hj Hx. unfold try_ref. mrun. rewrite (get_at_lookup _ _ x) by done. mrun.
  rewrite land_shift1_zero by done. destruct (Z.testbit x j); cbn; [done|].
  assert (0 <= i < zlength (km_inuse s)).
  { apply lookup_lt_Some in Hx. unfold zlength. lia. }
  rewrite set_at_in_range by done. by mrun.
Qed.

Lemma allocpageref_spec s used :
  inuse_rep (km_inuse s) used ->
  (allocpageref s = Ret (None, s)) \/
  (exists p w, allocpageref s = Ret (Some p, set_inuse s w) /\ 0 <= p < 256 /\ p ∉ used /\
     inuse_rep w (p :: used)).
Proof.
  intros Hr. pose proof Hr as [Hl Hrg Hb]. unfold allocpageref.
  change (Z.to_nat INUSE_WORDS) with 8%nat.
  set (body := fun i : Z => _).
  assert (Hbody : forall i, 0 <= i < 8 -> exists x, km_inuse s !! Z.to_nat i = Some x /\
    if x =? 4294967295 then body i s = Ret (None, s)
    else exists j, 0 <= j < 32 /\ Z.testbit x j = false /\
      body i s = Ret (Some (Some (i * 32 + j)),
                      set_inuse s (<[Z.to_nat i := Z.lor x (Z.shiftl 1 j)]> (km_inuse s)))).
  { intros i Hi. destruct (lookup_lt_is_Some_2 (km_inuse s) (Z.to_nat i)) as [x Hx]; [lia|].
    exists x. split; [done|]. unfold body. mrun. rewrite (get_at_lookup _ _ x) by (done || lia). mrun.
    destruct (Z.eqb_spec x 4294967295) as [->|Hne]; [done|].
    destruct (for_ret_search (fun j => negb (Z.testbit x j)) (try_ref i) 32 0 s)
      as [[E HP]|(j & Hj & HP & _ & E)].
    - intros j Hj HP. bprop. rewrite (try_ref_run i j x) by (done || lia). by rewrite HP.
    - intros j Hj HP _. bprop. rewrite (try_ref_run i j x) by (done || lia). rewrite HP. eauto.
    - exfalso. apply Hne, full_word32; [by eapply Hrg|]. intros j Hj.
      specialize (HP j ltac:(lia)). by apply negb_false_iff.
    - bprop. exists j. split; [lia|]. split; [done|].
      rewrite (try_ref_run i j x), HP in E by (done || lia). by rewrite (bind_ok _ _ _ _ _ E). }
  destruct (for_ret_search (fun i => match km_inuse s !! Z.to_nat i with
      Some x => negb (x =? 4294967295) | None => false end) body 8 0 s)
    as [[E HP]|(i & Hi & HP & _ & E)].
  - intros i Hi HP. destruct (Hbody i ltac:(lia)) as (x & Hx & Hc). rewrite Hx in HP. bprop. by rewrite HP in Hc.
  - intros i Hi HP _. destruct (Hbody i ltac:(lia)) as (x & Hx & Hc). rewrite Hx in HP. bprop.
    rewrite (proj2 (Z.eqb_neq x _)) in Hc by done. destruct Hc as (j & _ & _ & Ec). eauto.
  - left. by rewrite (bind_ok _ _ _ _ _ E).
  - right. destruct (Hbody i ltac:(lia)) as (x & Hx & Hc). rewrite Hx in HP. bprop.
    rewrite (proj2 (Z.eqb_neq x _)) in Hc by done. destruct Hc as (j & Hj & Hbit & Ec).
    rewrite Ec in E. rewrite (bind_ok _ _ _ _ _ E). eexists _, _. split; [done|].
    split; [lia|]. split; [|by apply inuse_set; [|lia|..]].
    rewrite (Hb i j x Hx) in Hbit by lia. by apply bool_decide_eq_false in Hbit.
Qed.

Lemma freepageref_spec s used p :
  inuse_rep (km_inuse s) used -> 0 <= p < 256 -> p ∈ used ->
  exists w, freepageref p s = Ret (tt, set_inuse s w) /\
    inuse_rep w (filter (fun k => k <> p) used).
Proof.
  intros Hr Hp Hin. pose proof Hr as [Hl Hrg Hb]. unfold freepageref.
  change NPAGEREFS with 256. rewrite (proj2 (Z.ltb_lt p 256)) by lia. mrun.
  assert (0 <= p / 32 < 8) as Hd by (split; [apply Z.div_pos; lia|apply Z.div_lt_upper_bound; lia]).
  pose proof (Z.mod_pos_bound p 32) as Hm. pose proof (Z.div_mod p 32) as Hdm.
  destruct (lookup_lt_is_Some_2 (km_inuse s) (Z.to_nat (p / 32))) as [x Hx]; [lia|].
  rewrite (get_at_lookup _ _ x) by (done || lia). mrun.
  rewrite land_shift1_zero, (Hb (p / 32) (p mod 32) x) by (done || lia).
  replace (p / 32 * 32 + p mod 32) with p by lia. rewrite bool_decide_eq_true_2 by done.
  cbn [negb]. rewrite bind_kassert, set_at_in_range by (unfold zlength; lia). mrun.
  eexists. split; [done|].
  pose proof (inuse_clear _ used (p / 32) (p mod 32) x Hr ltac:(lia) ltac:(lia) Hx) as Hc.
  by replace (p / 32 * 32 + p mod 32) with p in Hc by lia.
Qed.

(** ** The lists of descriptors *)

(** From [base] on, the field [next] links the descriptors [l]. *)
Fixpoint chain (next : pageref -> option Z) (refs : list pageref) (base : option Z) (l : list Z) : Prop :=
  match l with
  | [] => base = None
  | i :: l' => base = Some i /\ 0 <= i < 256 /\
      exists pr, refs !! Z.to_nat i = Some pr /\ chain next refs (next pr) l'
  end.

(** Descriptors outside of the list, and other fields, may change. *)
Lemma chain_update next refs i pr pr' base l :
  refs !! Z.to_nat i = Some pr -> 0 <= i -> (i ∈ l -> next pr' = next pr) ->
  chain next refs base l -> chain next (<[Z.to_nat i := pr']> refs) base l.
Proof.
  intros Hi Hp. revert base. induction l as [|j l IH]; intros base Hn; [done|].
  intros (-> & Hj & pj & Hpj & Hc). split; [done|]. split; [done|].
  destruct (decide (i = j)) as [->|Hne].
  - rewrite Hi in Hpj. injection Hpj as <-. exists pr'.
    rewrite list_lookup_insert_eq by (by eapply lookup_lt_Some). split; [done|].
    rewrite Hn by set_solver. apply IH; [|done]. intros; apply Hn; set_solver.
  - exists pj. rewrite list_lookup_insert_ne by lia. split; [done|].
    apply IH; [|done]. intros; apply Hn; set_solver.
Qed.

Lemma chain_cons next refs i pr base l :
  refs !! Z.to_nat i = Some pr -> 0 <= i < 256 -> next pr = base -> chain next refs base l ->
  chain next refs (Some i) (i :: l).
Proof. intros Hi Hr <- Hc. split; [done|]. split; [done|]. eauto. Qed.

Lemma chain_lookup next refs base l i :
  chain next refs base l -> i ∈ l -> 0 <= i < 256 /\ is_Some (refs !! Z.to_nat i).
Proof.
  revert base. induction l as [|j l IH]; intros base; [set_solver|].
  intros (_ & Hj & pj & Hpj & Hc) [->|Hi]%elem_of_cons; [by eauto|]. by eapply IH.
Qed.

(** The descriptor after [p], and the list without [p]. *)
Lemma chain_app next refs base l1 p l2 :
  chain next refs base (l1 ++ p :: l2) ->
  exists pr, refs !! Z.to_nat p = Some pr /\ 0 <= p < 256 /\ chain next refs (next pr) l2.
Proof.
  revert base. induction l1 as [|j l1 IH]; intros base.
  - intros (_ & Hp & pr & Hpr & Hc). eauto.
  - intros (_ & _ & pj & _ & Hc). eauto.
Qed.

Lemma chain_unlink next refs base l1 q p l2 pq pp pq' :
  NoDup (l1 ++ q :: p :: l2) -> chain next refs base (l1 ++ q :: p :: l2) ->
  refs !! Z.to_nat q = Some pq -> refs !! Z.to_nat p = Some pp -> next pq' = next pp ->
  chain next (<[Z.to_nat q := pq']> refs) base (l1 ++ q :: l2).
Proof.
  intros Nd Hc Hq Hp Hn. revert base Nd Hc. induction l1 as [|j l1 IH]; intros base Nd Hc.
  - destruct Hc as (-> & Hqr & pr & Hpr & _ & Hpr' & pp' & Hpp & Hc).
    rewrite Hq in Hpr. injection Hpr as <-. rewrite Hp in Hpp. injection Hpp as <-.
    cbn [app]. split; [done|]. split; [done|]. exists pq'.
    rewrite list_lookup_insert_eq by (by eapply lookup_lt_Some). split; [done|]. rewrite Hn.
    apply NoDup_cons in Nd as [Nq _].
    eapply chain_update; [done|lia| |done]. intros Hin. exfalso. set_solver.
  - destruct Hc as (-> & Hjr & pj & Hpj & Hc). cbn [app] in *. apply NoDup_cons in Nd as [Nj Nd].
    split; [done|]. split; [done|]. exists pj.
    assert (j <> q) by set_solver.
    destruct (chain_app _ _ _ _ _ _ Hc) as (? & _ & ? & _).
    rewrite list_lookup_insert_ne by lia. split; [done|]. by apply IH.
Qed.

Lemma get_ref_run i pr s :
  0 <= i -> km_refs s !! Z.to_nat i = Some pr -> get_ref i s = Ret (pr, s).
Proof. intros Hi Hp. unfold get_ref. mrun. by rewrite (get_at_lookup _ _ pr). Qed.

Lemma set_ref_run i pr pr' s :
  0 <= i -> km_refs s !! Z.to_nat i = Some pr ->
  set_ref i pr' s = Ret (tt, set_refs s (<[Z.to_nat i := pr']> (km_refs s))).
Proof.
  intros Hi Hp. unfold set_ref. mrun. apply lookup_lt_Some in Hp.
  rewrite set_at_in_range by (unfold zlength; lia). by mrun.
Qed.

(** The loop of [remove_lists] stores into the link that points at [p]. *)
Lemma remove_from_run (next : pageref -> option Z) (step : Z -> loc) s base l1 p l2 pp fuel guy :
  (forall i pr, 0 <= i -> km_refs s !! Z.to_nat i = Some pr ->
     load_loc (step i) s = Ret (next pr, s)) ->
  load_loc guy s = Ret (base, s) ->
  NoDup (l1 ++ p :: l2) -> chain next (km_refs s) base (l1 ++ p :: l2) ->
  km_refs s !! Z.to_nat p = Some pp -> (length l1 < fuel)%nat ->
  remove_from fuel step p guy s = store_loc (default guy (step <$> last l1)) (next pp) s.
Proof.
  intros Hstep. revert base guy fuel. induction l1 as [|j l1 IH]; intros base guy fuel Hg Nd Hc Hp Hf;
    (destruct fuel as [|fuel]; [cbn in Hf; lia|]); cbn [remove_from]; rewrite (bind_ok _ _ _ _ _ Hg).
  - destruct Hc as (-> & Hpr & _). rewrite Z.eqb_refl.
    by rewrite (bind_ok _ _ _ _ _ (Hstep p pp ltac:(lia) Hp)).
  - destruct Hc as (-> & Hjr & pj & Hpj & Hc). cbn [app] in Nd. apply NoDup_cons in Nd as [Nj Nd].
    rewrite (proj2 (Z.eqb_neq j p)) by set_solver.
    rewrite (IH (next pj) (step j) fuel); try done; [|by apply Hstep; [lia|]|cbn in Hf; lia].
    destruct l1 as [|k l1]; [done|]. rewrite last_cons_cons.
    by destruct (last (k :: l1)) eqn:E; [|apply last_None in E].
Qed.

Lemma chain_length next refs base l :
  chain next refs base l -> NoDup l -> (length l <= 256)%nat.
Proof.
  intros Hc Nd. transitivity (length (seqZ 0 256)); [|by rewrite length_seqZ].
  apply submseteq_length, NoDup_submseteq; [done|]. intros i Hi.
  apply elem_of_seqZ. destruct (chain_lookup _ _ _ _ _ Hc Hi). lia.
Qed.


(** ** The invariant *)

(** A page of the subpage allocator: its descriptor, its address, the type of
    its blocks, and the offsets of its free blocks in list order. *)
Record pdesc := mk_pdesc { d_ref : Z; d_page : Z; d_type : Z; d_free : list Z }.

Definition valid_off (t o : Z) : Prop := 0 <= o < PAGE_SIZE /\ o mod szk t = 0.

(** The free list, threaded through the first words of the free blocks. *)
Fixpoint links_mem (mem : Z -> Z) (page : Z) (offs : list Z) : Prop :=
  match offs with
  | [] => True
  | o :: offs' => mem (page + o) = match offs' with [] => 0 | o' :: _ => page + o' end /\
                  links_mem mem page offs'
  end.

Record desc_ok (refs : list pageref) (mem : Z -> Z) (d : pdesc) : Prop := {
  do_ref : exists r, refs !! Z.to_nat (d_ref d) = Some r /\
    pageaddr_and_blocktype r = MKPAB (d_page d) (d_type d) /\ pr_nfree r = zlength (d_free d) /\
    freelist_offset r = hd INVALID_OFFSET (d_free d);
  do_idx : 0 <= d_ref d < 256;
  do_type : 0 <= d_type d < 8;
  do_page : 0 < d_page d /\ d_page d mod PAGE_SIZE = 0 /\ d_page d + PAGE_SIZE <= two32;
  do_valid : forall o, o ∈ d_free d -> valid_off (d_type d) o;
  do_nodup : NoDup (d_free d);
  do_mem : links_mem mem (d_page d) (d_free d);
}.

(** The two kinds of lists and the bits agree on which descriptors are in use. *)
Record lists_ok s (ds : list pdesc) : Prop := {
  li_all : chain next_all (km_refs s) (km_allbase s) (map d_ref ds);
  li_same : forall b, 0 <= b < 8 -> exists base, km_sizebases s !! Z.to_nat b = Some base /\
    chain next_samesize (km_refs s) base (map d_ref (filter (fun d => d_type d = b) ds));
  li_nodup : NoDup (map d_ref ds);
  li_used : inuse_rep (km_inuse s) (map d_ref ds);
  li_len : length (km_refs s) = 256%nat /\ length (km_sizebases s) = 8%nat;
}.

(** [big] are the page runs of large blocks, [L] the live blocks with the
    sizes that were asked for. *)
Record km_inv s (ds : list pdesc) (big L : gmap Z Z) : Prop := {
  ki_lists : lists_ok s ds;
  ki_desc : forall d, d ∈ ds -> desc_ok (km_refs s) (km_mem s) d;
  ki_pages : pages_ok (km_pages s);
  ki_small : forall d, d ∈ ds -> runs (km_pages s) !! d_page d = Some 1 /\ big !! d_page d = None;
  ki_big : forall a n, big !! a = Some n -> runs (km_pages s) !! a = Some n;
  ki_pgdup : NoDup (map d_page ds);
  ki_live : forall p sz, L !! p = Some sz ->
    (exists d o, d ∈ ds /\ p = d_page d + o /\ valid_off (d_type d) o /\ o ∉ d_free d /\
       0 <= sz <= szk (d_type d)) \/
    (exists n, big !! p = Some n /\ 0 <= sz <= n * PAGE_SIZE);
}.

Lemma pages_apart a b x y :
  a mod PAGE_SIZE = 0 -> b mod PAGE_SIZE = 0 -> 0 <= x < PAGE_SIZE -> 0 <= y < PAGE_SIZE ->
  a + x = b + y -> a = b /\ x = y.
Proof.
  unfold PAGE_SIZE. intros Ha Hb Hx Hy E.
  apply Z.mod_divide in Ha as [i ->]; [|lia]. apply Z.mod_divide in Hb as [j ->]; [|lia]. lia.
Qed.

Lemma NoDup_map_inj {A} (f : A -> Z) (l : list A) x y :
  NoDup (map f l) -> x ∈ l -> y ∈ l -> f x = f y -> x = y.
Proof.
  intros Nd [i Hi]%list_elem_of_lookup [j Hj]%list_elem_of_lookup E.
  assert (i = j) as ->; [|congruence].
  eapply (NoDup_lookup (map f l)); [done|by rewrite list_lookup_fmap, Hi|].
  rewrite list_lookup_fmap, Hj. cbn. by rewrite E.
Qed.

(** A block on the free list is not live. *)
Lemma free_not_live s ds big L d o :
  km_inv s ds big L -> d ∈ ds -> o ∈ d_free d -> L !! (d_page d + o) = None.
Proof.
  intros Hi Hd Ho. destruct (L !! (d_page d + o)) as [sz|] eqn:E; [|done]. exfalso.
  pose proof (ki_desc _ _ _ _ Hi d Hd) as Hok. pose proof (do_page _ _ _ Hok) as (Hp & Ha & Ht).
  destruct (do_valid _ _ _ Hok o Ho) as [Hr _].
  destruct (ki_small _ _ _ _ Hi d Hd) as [Hrun Hnb].
  destruct (ki_live _ _ _ _ Hi _ _ E) as [(d2 & o2 & Hd2 & Heq & [Hv2 _] & Hno & _)|(n & Hb & _)].
  - pose proof (ki_desc _ _ _ _ Hi d2 Hd2) as Hok2. pose proof (do_page _ _ _ Hok2) as (_ & Ha2 & _).
    destruct (pages_apart _ _ _ _ Ha Ha2 Hr Hv2 Heq) as [Hpg ->].
    assert (d2 = d) as -> by (by eapply (NoDup_map_inj d_page), eq_sym; [apply Hi|..]).
    done.
  - destruct (Z.eq_dec o 0) as [->|Hne]; [rewrite Z.add_0_r in Hb; congruence|].
    pose proof (ki_big _ _ _ _ Hi _ _ Hb) as Hrb.
    pose proof (runs_range _ _ _ (ki_pages _ _ _ _ Hi) Hrb) as (_ & Hn & _).
    destruct (runs_disjoint _ _ _ _ _ (ki_pages _ _ _ _ Hi) Hrun Hrb);
      unfold PAGE_SIZE in *; lia.
Qed.

Lemma lists_ok_replace s ds1 d d' ds2 :
  lists_ok s (ds1 ++ d :: ds2) -> d_ref d' = d_ref d -> d_type d' = d_type d ->
  lists_ok s (ds1 ++ d' :: ds2).
Proof.
  intros [Ha Hs Hn Hu Hl] Er Et.
  assert (map d_ref (ds1 ++ d' :: ds2) = map d_ref (ds1 ++ d :: ds2)) as Em
    by (rewrite !map_app; cbn; by rewrite Er).
  split; rewrite ?Em; try done. intros b Hb. destruct (Hs b Hb) as (base & Hbase & Hc).
  exists base. split; [done|]. rewrite filter_app, filter_cons, map_app in *.
  rewrite Et. case_decide; [|done]. cbn in *. by rewrite Er.
Qed.

(** Storing into a descriptor without changing its links. *)
Lemma lists_ok_set_ref s ds i r r' :
  lists_ok s ds -> 0 <= i -> km_refs s !! Z.to_nat i = Some r ->
  next_all r' = next_all r -> next_samesize r' = next_samesize r ->
  lists_ok (set_refs s (<[Z.to_nat i := r']> (km_refs s))) ds.
Proof.
  intros [Ha Hs Hn Hu Hl] Hi Hr Ea Es. split; cbn; try done.
  - by eapply chain_update.
  - intros b Hb. destruct (Hs b Hb) as (base & Hbase & Hc). exists base. split; [done|].
    by eapply chain_update.
  - by rewrite length_insert.
Qed.

Lemma lists_ok_ext s s' ds :
  lists_ok s ds -> km_refs s' = km_refs s -> km_allbase s' = km_allbase s ->
  km_sizebases s' = km_sizebases s -> km_inuse s' = km_inuse s -> lists_ok s' ds.
Proof. intros [] E1 E2 E3 E4. split; rewrite ?E1, ?E2, ?E3, ?E4; done. Qed.

Lemma links_mem_frame mem mem' page offs :
  (forall o, o ∈ offs -> mem' (page + o) = mem (page + o)) ->
  links_mem mem page offs -> links_mem mem' page offs.
Proof.
  induction offs as [|o offs IH]; [done|]. intros Hf [Ho Hl]. split.
  - rewrite Hf by set_solver. done.
  - apply IH; [|done]. intros; apply Hf; set_solver.
Qed.

Lemma desc_ok_frame refs refs' mem mem' d :
  desc_ok refs mem d ->
  refs' !! Z.to_nat (d_ref d) = refs !! Z.to_nat (d_ref d) ->
  (forall o, o ∈ d_free d -> mem' (d_page d + o) = mem (d_page d + o)) -> desc_ok refs' mem' d.
Proof.
  intros [Hr Hi Ht Hp Hv Nd Hm] E Hf. split; try done; [by rewrite E|].
  by eapply links_mem_frame.
Qed.


(** What [L] must satisfy with respect to the pages [ds] and the runs [big]. *)
Definition live_ok (ds : list pdesc) (big L : gmap Z Z) : Prop :=
  forall p sz, L !! p = Some sz ->
    (exists d o, d ∈ ds /\ p = d_page d + o /\ valid_off (d_type d) o /\ o ∉ d_free d /\
       0 <= sz <= szk (d_type d)) \/
    (exists n, big !! p = Some n /\ 0 <= sz <= n * PAGE_SIZE).

(** One page changes its free list. *)
Lemma inv_replace s s' ds1 d d' ds2 big L L' r r' :
  km_inv s (ds1 ++ d :: ds2) big L ->
  d_ref d' = d_ref d -> d_page d' = d_page d -> d_type d' = d_type d ->
  km_pages s' = km_pages s -> km_inuse s' = km_inuse s -> km_allbase s' = km_allbase s ->
  km_sizebases s' = km_sizebases s ->
  km_refs s !! Z.to_nat (d_ref d) = Some r ->
  km_refs s' = <[Z.to_nat (d_ref d) := r']> (km_refs s) ->
  next_all r' = next_all r -> next_samesize r' = next_samesize r ->
  desc_ok (km_refs s') (km_mem s') d' ->
  (forall d2 o, d2 ∈ ds1 ++ ds2 -> o ∈ d_free d2 ->
     km_mem s' (d_page d2 + o) = km_mem s (d_page d2 + o)) ->
  live_ok (ds1 ++ d' :: ds2) big L' ->
  km_inv s' (ds1 ++ d' :: ds2) big L'.
Proof.
  intros Hi Er Ep Et E1 E2 E3 E4 Hr E5 Ea Es Hd' Hm HL.
  pose proof Hi as [Hli Hde Hpg Hsm Hbg Hdup _].
  pose proof (Hde d ltac:(set_solver)) as Hdo. pose proof (do_idx _ _ _ Hdo) as Hidx.
  assert (Hmap : map d_page (ds1 ++ d' :: ds2) = map d_page (ds1 ++ d :: ds2))
    by (rewrite !map_app; cbn; by rewrite Ep).
  split; rewrite ?E1, ?Hmap; try done.
  - apply lists_ok_replace with d; [|done|done].
    eapply lists_ok_ext; [eapply (lists_ok_set_ref s _ (d_ref d)); [done|lia|exact Hr|exact Ea|exact Es]|done..].
  - intros d2 Hd2. assert (d2 = d' \/ d2 ∈ ds1 ++ ds2) as [->|Hin] by set_solver; [done|].
    eapply desc_ok_frame; [apply Hde; set_solver| |intros; by apply Hm].
    rewrite E5. apply list_lookup_insert_ne.
    assert (d_ref d2 <> d_ref d).
    { intros E. pose proof (li_nodup _ _ Hli) as Nd. rewrite map_app in Nd. cbn in Nd.
      rewrite <- Permutation_middle in Nd. apply NoDup_cons in Nd as [Nd _]. apply Nd.
      rewrite <- map_app, <- E. by apply list_elem_of_fmap_2. }
    pose proof (do_idx _ _ _ (Hde d2 ltac:(set_solver))). lia.
  - intros d2 Hd2. assert (d2 = d' \/ d2 ∈ ds1 ++ ds2) as [->|Hin] by set_solver.
    + rewrite Ep. apply Hsm. set_solver.
    + apply Hsm. set_solver.
Qed.

Lemma live_ok_alloc ds1 d o fr ds2 big L sz :
  live_ok (ds1 ++ d :: ds2) big L -> d_free d = o :: fr -> NoDup (d_free d) ->
  valid_off (d_type d) o -> 0 <= sz <= szk (d_type d) ->
  live_ok (ds1 ++ mk_pdesc (d_ref d) (d_page d) (d_type d) fr :: ds2) big
          (<[d_page d + o := sz]> L).
Proof.
  intros HL Ef Nd Hv Hsz p z. rewrite lookup_insert. case_decide as Hp.
  - intros [= <-]. left. exists (mk_pdesc (d_ref d) (d_page d) (d_type d) fr), o.
    rewrite Ef in Nd. apply NoDup_cons in Nd as [? _]. cbn. split_and!; try done; try set_solver; lia.
  - intros Hz. destruct (HL p z Hz) as [(d2 & o2 & Hd2 & Hp2 & Hv2 & Hno & Hsz2)|Hb]; [left|by right].
    assert (d2 = d \/ d2 ∈ ds1 ++ ds2) as [->|Hin] by set_solver.
    + rewrite Ef in Hno. exists (mk_pdesc (d_ref d) (d_page d) (d_type d) fr), o2. cbn.
      split_and!; try done; try set_solver; lia.
    + exists d2, o2. split_and!; try done; try set_solver; lia.
Qed.

(** ** Taking a block off a free list *)

Lemma doalloc_spec s ds1 d ds2 big L o fr sz :
  km_inv s (ds1 ++ d :: ds2) big L -> km_lock s = true -> d_free d = o :: fr ->
  0 <= sz <= szk (d_type d) ->
  exists s', doalloc (d_ref d) s = Ret (d_page d + o, s') /\ km_lock s' = false /\
    km_inv s' (ds1 ++ mk_pdesc (d_ref d) (d_page d) (d_type d) fr :: ds2) big
           (<[d_page d + o := sz]> L).
Proof.
  intros Hi Hlk Ef Hsz. pose proof (ki_desc _ _ _ _ Hi d ltac:(set_solver)) as Hdo.
  pose proof Hdo as [(r & Hr & Hpab & Hnf & Hoff) Hidx Hty (Hp & Ha & Ht) Hv Nd Hm].
  rewrite Ef in *. cbn [hd links_mem] in *. destruct Hm as [Hmo Hm].
  assert (is_u32 (d_page d)) as Hu by (unfold is_u32, two32, PAGE_SIZE in *; lia).
  destruct (Hv o ltac:(set_solver)) as [Hor Hom].
  unfold doalloc. rewrite (bind_ok _ _ _ _ _ (get_ref_run (d_ref d) r s ltac:(lia) Hr)).
  rewrite Hoff. rewrite (proj2 (Z.ltb_lt o PAGE_SIZE)) by lia. rewrite bind_kassert.
  unfold PR_PAGEADDR. rewrite Hpab, mkpab_page by done. unfold load. mrun. rewrite Hmo.
  set (r' := with_offset (with_nfree r (zlength fr)) (hd INVALID_OFFSET fr)).
  assert (Hz : pr_nfree r - 1 = zlength fr) by (rewrite Hnf; unfold zlength; cbn [length]; lia).
  rewrite Hz.
  set (s' := set_lock (set_refs s (<[Z.to_nat (d_ref d) := r']> (km_refs s))) false).
  assert (Hrun : forall m : M (kms P) unit,
    m s = Ret (tt, set_refs s (<[Z.to_nat (d_ref d) := r']> (km_refs s))) ->
    bind m (fun _ => bind release (fun _ => ret (d_page d + o))) s = Ret (d_page d + o, s')).
  { intros m E. rewrite (bind_ok _ _ _ _ _ E). unfold release. mrun. cbn [km_lock set_refs].
    rewrite Hlk. by mrun. }
  exists s'. split; [|split; [done|]].
  - apply Hrun. destruct fr as [|o' fr].
    + cbn [Z.eqb negb]. change (zlength []) with 0. cbn [Z.eqb]. rewrite bind_kassert.
      by rewrite (set_ref_run _ r) by (done || lia).
    + destruct (Hv o' ltac:(set_solver)) as [Ho' _].
      rewrite (proj2 (Z.eqb_neq (d_page d + o') 0)) by lia. cbn [negb].
      rewrite (proj2 (Z.ltb_lt 0 _)) by (unfold zlength; cbn [length]; lia). rewrite bind_kassert.
      replace (d_page d + o' - d_page d) with o' by lia.
      rewrite w32_id by (unfold is_u32, two32, PAGE_SIZE in *; lia).
      rewrite (proj2 (Z.ltb_lt o' PAGE_SIZE)) by lia. rewrite bind_kassert.
      by rewrite (set_ref_run _ r) by (done || lia).
  - eapply (inv_replace s s' ds1 d); try done.
    + split; cbn; try done; [|by intros; apply Hv; set_solver|by apply NoDup_cons in Nd as [_ ?]].
      exists r'. rewrite list_lookup_insert_eq by (by eapply lookup_lt_Some). done.
    + apply live_ok_alloc; rewrite ?Ef; try done. exact (ki_live _ _ _ _ Hi).
Qed.

(** ** Looking for a page with a free block *)

Lemma find_page_spec s ds b base fuel :
  (forall d, d ∈ ds -> desc_ok (km_refs s) (km_mem s) d /\ d_type d = b) ->
  chain next_samesize (km_refs s) base (map d_ref ds) -> (length ds < fuel)%nat ->
  find_page fuel b base s = Ret (None, s) \/
  exists d, d ∈ ds /\ d_free d <> [] /\ find_page fuel b base s = Ret (Some (d_ref d), s).
Proof.
  revert base fuel. induction ds as [|d ds IH]; intros base fuel Hd Hc Hf;
    (destruct fuel as [|fuel]; [cbn in Hf; lia|]).
  - cbn in Hc. subst base. by left.
  - destruct Hc as (-> & Hr & r & Hrd & Hc). destruct (Hd d ltac:(set_solver)) as [Hok Ht].
    pose proof Hok as [(r' & Hr' & Hpab & Hnf & _) _ Hty (Hp & Ha & Hu) _ _ _].
    assert (r' = r) as -> by congruence. cbn [find_page].
    rewrite (bind_ok _ _ _ _ _ (get_ref_run (d_ref d) r s ltac:(lia) Hrd)).
    unfold PR_BLOCKTYPE. rewrite Hpab, mkpab_type by (done || unfold is_u32, two32, PAGE_SIZE in *; lia).
    rewrite Ht, Z.eqb_refl, bind_kassert, Hnf.
    destruct (d_free d) as [|o fr] eqn:Ef.
    + cbn [zlength length Z.of_nat Z.ltb Z.compare]. change (0 <? zlength []) with false. cbn match.
      destruct (IH (next_samesize r) fuel) as [E|(d2 & Hd2 & Hf2 & E)]; try done; [|cbn in Hf; lia|by left|].
      * intros d2 Hd2. apply Hd. set_solver.
      * right. exists d2. split_and!; [set_solver|done|done].
    + rewrite (proj2 (Z.ltb_lt 0 _)) by (unfold zlength; cbn [length]; lia).
      right. exists d. rewrite Ef. split_and!; [set_solver|done|done].
Qed.

(** ** A new page *)

(** The offsets of the first [n] blocks, from the last one down. *)
Fixpoint down (sz : Z) (n : nat) : list Z :=
  match n with O => [] | S m => Z.of_nat m * sz :: down sz m end.

Lemma elem_of_down sz n o : o ∈ down sz n <-> exists i, 0 <= i < Z.of_nat n /\ o = i * sz.
Proof.
  induction n as [|n IH]; cbn; [split; [set_solver|intros (? & ? & _); lia]|].
  rewrite elem_of_cons, IH. split.
  - intros [->|(i & ? & ->)]; [exists (Z.of_nat n)|exists i]; split; (lia || done).
  - intros (i & Hi & ->). destruct (Z.eq_dec i (Z.of_nat n)) as [->|]; [by left|].
    right. exists i. split; [lia|done].
Qed.

Lemma NoDup_down sz n : 0 < sz -> NoDup (down sz n).
Proof.
  intros Hs. induction n as [|n IH]; cbn; constructor; [|done].
  rewrite elem_of_down. intros (i & Hi & E). apply Z.mul_reg_r in E; lia.
Qed.

Lemma length_down sz n : length (down sz n) = n.
Proof. induction n; cbn; auto. Qed.

(** The blocks after [thread_blocks] has linked the first [k]. *)
Definition threaded (mem mem' : Z -> Z) (pg sz k : Z) : Prop :=
  mem' pg = 0 /\
  (forall i, 1 <= i < k -> mem' (pg + i * sz) = pg + (i - 1) * sz) /\
  (forall x, (forall i, 0 <= i < k -> x <> pg + i * sz) -> mem' x = mem x).

Lemma thread_blocks_spec s pg sz n :
  0 < sz -> 1 <= n ->
  exists mem', thread_blocks pg sz n s = Ret (tt, set_kmem s mem') /\
    threaded (km_mem s) mem' pg sz n.
Proof.
  intros Hs Hn. unfold thread_blocks, store. mrun.
  destruct (for_inv (fun i st => exists mem', st = set_kmem s mem' /\ threaded (km_mem s) mem' pg sz i)
    (fun i => do* modify (fun s0 : kms P => set_kmem s0 (fun x => if x =? pg + i * sz
        then pg + (i - 1) * sz else km_mem s0 x)) in
      kassert (negb (pg + i * sz =? pg + (i - 1) * sz))) (Z.to_nat (n - 1)) 1
    (set_kmem s (fun x => if x =? pg then 0 else km_mem s x))) as (s' & E & mem' & -> & Ht).
  - eexists. split; [done|]. split_and!; cbn.
    + by rewrite Z.eqb_refl.
    + lia.
    + intros x Hx. rewrite (proj2 (Z.eqb_neq x pg)); [done|]. specialize (Hx 0 ltac:(lia)). lia.
  - intros i st Hi (mem & -> & H0 & Hl & Hx). mrun.
    rewrite (proj2 (Z.eqb_neq (pg + i * sz) _)) by nia. cbn. eexists. split; [done|].
    eexists. split; [done|]. split_and!; cbn.
    + rewrite (proj2 (Z.eqb_neq pg _)) by nia. done.
    + intros j Hj. destruct (Z.eqb_spec (pg + j * sz) (pg + i * sz)) as [e|Hne].
      * assert (j = i) as -> by nia. done.
      * apply Hl. assert (j <> i) by congruence. lia.
    + intros x Hx'. rewrite (proj2 (Z.eqb_neq x _)) by (apply Hx'; lia).
      apply Hx. intros j Hj. apply Hx'. lia.
  - exists mem'. rewrite E. split; [done|]. by replace (1 + Z.of_nat (Z.to_nat (n - 1))) with n in Ht by lia.
Qed.

Lemma threaded_links mem mem' pg sz n m :
  threaded mem mem' pg sz n -> Z.of_nat m <= n -> links_mem mem' pg (down sz m).
Proof.
  intros (H0 & Hl & _). induction m as [|m IH]; intros Hm; [done|]. cbn [down links_mem].
  split; [|apply IH; lia]. destruct m as [|m]; cbn [down].
  - by rewrite Z.mul_0_l, Z.add_0_r.
  - rewrite Hl by lia. do 2 f_equal. lia.
Qed.

(** What [new_page] has done when it reaches [doalloc]. *)
Lemma new_page_run s pg t p r b :
  0 <= t < 8 -> 0 <= p -> km_refs s !! Z.to_nat p = Some r ->
  km_sizebases s !! Z.to_nat t = Some b ->
  exists mem', threaded (km_mem s) mem' pg (szk t) (nblk t) /\
    new_page pg t p s = doalloc p (mk_kms (km_pages s)
      (<[Z.to_nat p := mk_pageref b (km_allbase s) (MKPAB pg t) ((nblk t - 1) * szk t) (nblk t)]>
        (km_refs s))
      (km_inuse s) (<[Z.to_nat t := Some p]> (km_sizebases s)) (Some p) mem' (km_lock s)).
Proof.
  intros Ht Hp Hr Hb. destruct (szk_facts t Ht) as (Hs & Hn & Hn2 & _).
  assert (Hlp : (Z.to_nat p < length (km_refs s))%nat) by (by eapply lookup_lt_Some).
  assert (Hlt : (Z.to_nat t < length (km_sizebases s))%nat) by (by eapply lookup_lt_Some).
  unfold new_page. rewrite (bind_ok _ _ _ _ _ (size_of_run t s Ht)). fold (nblk t).
  rewrite (bind_ok _ _ _ _ _ (get_ref_run p r s Hp Hr)).
  rewrite (bind_ok _ _ _ _ _ (set_ref_run p r _ s Hp Hr)).
  destruct (thread_blocks_spec (set_refs s (<[Z.to_nat p :=
    with_nfree (with_pab r (MKPAB pg t)) (nblk t)]> (km_refs s))) pg (szk t) (nblk t)
    ltac:(lia) ltac:(lia)) as (mem' & E & Hth).
  rewrite (bind_ok _ _ _ _ _ E). exists mem'. split; [exact Hth|].
  replace (pg + (nblk t - 1) * szk t - pg) with ((nblk t - 1) * szk t) by lia.
  repeat (first [rewrite Z.eqb_refl, bind_kassert
                |progress unfold get_ref, set_ref, load_loc, store_loc
                |rewrite list_insert_insert_eq
                |progress mrun
                |progress cbn [km_refs km_sizebases km_allbase set_refs set_sizebases set_allbase set_kmem]
                |rewrite (get_at_lookup _ p _ Hp (list_lookup_insert_eq _ _ _ Hlp))
                |rewrite (get_at_lookup _ t _ (proj1 Ht) Hb)
                |rewrite set_at_in_range by (rewrite ?zlength_insert; unfold zlength; lia)]).
  done.
Qed.

Lemma lists_ok_push s ds p pg t fr w b off n mem' P' lk :
  lists_ok s ds -> p ∉ map d_ref ds -> 0 <= p < 256 -> 0 <= t < 8 ->
  inuse_rep w (p :: map d_ref ds) -> km_sizebases s !! Z.to_nat t = Some b ->
  lists_ok (mk_kms P' (<[Z.to_nat p := mk_pageref b (km_allbase s) (MKPAB pg t) off n]> (km_refs s))
      w (<[Z.to_nat t := Some p]> (km_sizebases s)) (Some p) mem' lk)
    (mk_pdesc p pg t fr :: ds).
Proof.
  intros [Ha Hs Hn Hu [Hl1 Hl2]] Hp Hpr Ht Hw Hb.
  destruct (lookup_lt_is_Some_2 (km_refs s) (Z.to_nat p)) as [r Hr]; [lia|].
  set (r' := mk_pageref b _ _ _ _). set (refs' := <[Z.to_nat p := r']> _).
  assert (Hr' : refs' !! Z.to_nat p = Some r') by (apply list_lookup_insert_eq; lia).
  split; cbn [km_refs km_allbase km_sizebases km_inuse map d_ref]; try done.
  - apply (chain_cons _ _ _ r' (km_allbase s)); try done.
    eapply chain_update; [done|lia| |done]. done.
  - intros c Hc. destruct (Hs c Hc) as (base & Hbase & Hch).
    assert (Hsub : p ∉ map d_ref (filter (fun d => d_type d = c) ds)).
    { intros (d & -> & Hd)%list_elem_of_fmap. apply Hp, list_elem_of_fmap. exists d.
      split; [done|]. by apply list_elem_of_filter in Hd as [_ ?]. }
    rewrite filter_cons. case_decide as Htc; cbn [d_type] in Htc.
    + subst c. exists (Some p). rewrite list_lookup_insert_eq by lia. split; [done|].
      assert (base = b) as -> by congruence. cbn [map d_ref].
      apply (chain_cons _ _ _ r' b); try done. by eapply chain_update; [|lia| |].
    + exists base. rewrite list_lookup_insert_ne by lia. split; [done|].
      by eapply chain_update; [|lia| |].
  - by constructor.
  - unfold refs'. by rewrite !length_insert.
Qed.

Lemma new_page_inv s ds big L p pg t w b mem' P' lk :
  km_inv s ds big L -> p ∉ map d_ref ds -> 0 <= p < 256 -> 0 <= t < 8 ->
  inuse_rep w (p :: map d_ref ds) -> km_sizebases s !! Z.to_nat t = Some b ->
  pages_ok P' -> runs P' = <[pg := 1]> (runs (km_pages s)) -> runs (km_pages s) !! pg = None ->
  threaded (km_mem s) mem' pg (szk t) (nblk t) ->
  km_inv (mk_kms P'
      (<[Z.to_nat p := mk_pageref b (km_allbase s) (MKPAB pg t) ((nblk t - 1) * szk t) (nblk t)]>
        (km_refs s))
      w (<[Z.to_nat t := Some p]> (km_sizebases s)) (Some p) mem' lk)
    (mk_pdesc p pg t (down (szk t) (Z.to_nat (nblk t))) :: ds) big L.
Proof.
  intros [Hli Hde Hpg Hsm Hbg Hdup Hlv] Hp Hpr Ht Hw Hb Hok Hruns Hfresh Hth.
  destruct (szk_facts t Ht) as (Hs & Hn & Hn2 & _).
  destruct (runs_range P' pg 1 Hok) as (Hpg0 & _ & Hal & Htop); [by rewrite Hruns, lookup_insert_eq|].
  assert (Hlen : length (km_refs s) = 256%nat) by apply Hli.
  assert (Hne : forall d, d ∈ ds -> d_page d <> pg).
  { intros d Hd E. subst pg. destruct (Hsm d Hd). congruence. }
  split; cbn [km_pages km_refs km_mem].
  - by apply lists_ok_push.
  - intros d [->|Hd]%elem_of_cons.
    + split; cbn [d_ref d_page d_type d_free]; try done.
      * eexists. rewrite list_lookup_insert_eq by lia. split; [done|]. cbn.
        unfold zlength. rewrite length_down. split; [done|]. split; [lia|].
        destruct (Z.to_nat (nblk t)) as [|m] eqn:Em; [lia|]. cbn. f_equal. lia.
      * intros o (i & Hi & ->)%elem_of_down. split; [nia|apply Z.mod_mul; lia].
      * apply NoDup_down. lia.
      * eapply threaded_links; [done|lia].
    + pose proof (Hde d Hd) as Hdo. pose proof (do_idx _ _ _ Hdo).
      eapply desc_ok_frame; [done|cbn|].
      * apply list_lookup_insert_ne. assert (d_ref d <> p); [|lia].
        intros <-. apply Hp. by apply list_elem_of_fmap_2.
      * intros o Ho. cbn. destruct Hth as (_ & _ & ->); [done|]. intros i Hi E.
        destruct (do_valid _ _ _ Hdo o Ho) as [Ho' _]. pose proof (do_page _ _ _ Hdo) as (_ & Ha & _).
        destruct (pages_apart (d_page d) pg o (i * szk t)); try done; [nia|]. by eapply Hne.
  - done.
  - rewrite Hruns. intros d [->|Hd]%elem_of_cons; cbn.
    + rewrite lookup_insert_eq. split; [done|]. destruct (big !! pg) eqn:E; [|done].
      apply Hbg in E. congruence.
    + rewrite lookup_insert_ne by (by apply not_eq_sym, Hne). by apply Hsm.
  - intros a n Ha. rewrite Hruns, lookup_insert_ne; [by apply Hbg|]. intros ->. apply Hbg in Ha. congruence.
  - cbn. constructor; [|done]. intros (d & -> & Hd)%list_elem_of_fmap. by eapply Hne.
  - intros q sz Hq. destruct (Hlv q sz Hq) as [(d & o & Hd & ?)|?]; [left|by right].
    exists d, o. split; [set_solver|done].
Qed.

(** ** [kmalloc] *)

Lemma inv_lock s ds big L lk : km_inv s ds big L -> km_inv (set_lock s lk) ds big L.
Proof. intros [[] ? ? ? ? ? ?]. split; try done. Qed.

(** Changing the page allocator's state without changing the runs. *)
Lemma inv_pages s ds big L P' lk :
  km_inv s ds big L -> pages_ok P' -> runs P' = runs (km_pages s) ->
  km_inv (set_lock (set_pages s P') lk) ds big L.
Proof. intros [[] ? ? Hs Hb ? ?] Hok Hr. split; cbn; rewrite ?Hr; try done. Qed.

Lemma in_pages_run {A} (c : M P A) s a P' :
  c (km_pages s) = Ret (a, P') -> in_pages c s = Ret (a, set_pages s P').
Proof. intros E. unfold in_pages. by rewrite E. Qed.

Lemma acquire_run s : km_lock s = false -> acquire s = Ret (tt, set_lock s true).
Proof. intros E. unfold acquire. mrun. by rewrite E. Qed.

Lemma release_run s : km_lock s = true -> release s = Ret (tt, set_lock s false).
Proof. intros E. unfold release. mrun. by rewrite E. Qed.

Definition kmalloc_post s' big L p sz : Prop :=
  exists ds', km_lock s' = false /\
    ((p = 0 /\ km_inv s' ds' big L) \/
     (0 < p /\ L !! p = None /\ km_inv s' ds' big (<[p := sz]> L))).

Lemma doalloc_post s ds big L d sz :
  km_inv s ds big L -> km_lock s = true -> d ∈ ds -> d_free d <> [] ->
  0 <= sz <= szk (d_type d) ->
  exists p s', doalloc (d_ref d) s = Ret (p, s') /\ kmalloc_post s' big L p sz.
Proof.
  intros Hi Hlk Hd Hf Hsz. destruct (d_free d) as [|o fr] eqn:Ef; [done|].
  pose proof (ki_desc _ _ _ _ Hi d Hd) as Hdo.
  pose proof (do_page _ _ _ Hdo) as (Hpos & _).
  destruct (do_valid _ _ _ Hdo o) as [Ho _]; [rewrite Ef; set_solver|].
  assert (L !! (d_page d + o) = None) by (eapply free_not_live; [done..|rewrite Ef; set_solver]).
  apply list_elem_of_split in Hd as (ds1 & ds2 & ->).
  destruct (doalloc_spec s ds1 d ds2 big L o fr sz) as (s' & E & Hl & Hi'); try done.
  exists (d_page d + o), s'. split; [done|]. eexists. split; [done|]. right.
  split; [lia|]. split; [done|exact Hi'].
Qed.

Lemma chain_len_fuel next refs base ds :
  chain next refs base (map d_ref ds) -> NoDup (map d_ref ds) -> (length ds < chain_fuel)%nat.
Proof.
  intros Hc Hn. pose proof (chain_length _ _ _ _ Hc Hn) as Hlen. rewrite length_map in Hlen.
  unfold chain_fuel. change (Z.to_nat NPAGEREFS) with 256%nat. lia.
Qed.

Lemma NoDup_map_filter (Q : pdesc -> Prop) `{forall d, Decision (Q d)} ds :
  NoDup (map d_ref ds) -> NoDup (map d_ref (filter Q ds)).
Proof.
  induction ds as [|d ds IH]; [done|]. cbn [map]. intros [Hd Hn]%NoDup_cons. rewrite filter_cons.
  case_decide; [|by apply IH]. cbn. constructor; [|by apply IH].
  intros (d2 & E & Hd2)%list_elem_of_fmap. apply list_elem_of_filter in Hd2 as [_ Hd2].
  apply Hd. rewrite E. by apply list_elem_of_fmap_2.
Qed.

(** The part of [subpage_kmalloc] that gets a new page. *)
Lemma subpage_new_spec s ds big L t sz :
  km_inv s ds big L -> km_lock s = false -> 0 <= t < 8 -> 0 <= sz <= szk t ->
  exists p s', (let* prpage := in_pages (kpages_alloc 1) in
      if prpage =? 0 then ret 0
      else
        do* acquire in
        let* pr := allocpageref in
        match pr with
        | None => do* release in do* in_pages (kpages_free prpage) in ret 0
        | Some pr => new_page prpage t pr
        end) s = Ret (p, s') /\ kmalloc_post s' big L p sz.
Proof.
  intros Hi Hlk Ht Hsz. pose proof (ki_pages _ _ _ _ Hi) as Hpo.
  destruct (kpages_alloc_spec 1 (km_pages s) Hpo ltac:(lia)) as (pg & P' & E & Hok & Hc).
  rewrite (bind_ok _ _ _ _ _ (in_pages_run _ _ _ _ E)).
  destruct (Z.eqb_spec pg 0) as [->|Hne].
  { exists 0, (set_pages s P'). split; [done|]. exists ds. split; [done|]. left. split; [done|].
    destruct Hc as [[_ Hr]|[_ Hr]].
    - pose proof (inv_pages s ds big L P' (km_lock s) Hi Hok Hr) as Hi'. by destruct s.
    - destruct (runs_range P' 0 1 Hok); [by rewrite Hr, lookup_insert_eq|lia]. }
  destruct Hc as [[? _]|[Hfr Hr]]; [done|].
  rewrite (bind_ok _ _ _ _ _ (acquire_run (set_pages s P') Hlk)).
  destruct (allocpageref_spec (set_lock (set_pages s P') true) (map d_ref ds)) as
    [Ea|(p & w & Ea & Hp & Hnew & Hw)]; [apply Hi| |];
    rewrite (bind_ok _ _ _ _ _ Ea).
  - rewrite (bind_ok _ _ _ _ _ (release_run (set_lock (set_pages s P') true) eq_refl)).
    destruct (kpages_free_spec pg P' Hok) as (P2 & E2 & Hok2 & Hr2); [rewrite Hr, lookup_insert_eq; eauto|].
    rewrite (bind_ok _ _ _ _ _ (in_pages_run _ (set_lock (set_lock (set_pages s P') true) false) tt P2 E2)).
    eexists 0, _. split; [done|]. exists ds. split; [done|]. left. split; [done|].
    apply (inv_pages s ds big L P2 false Hi Hok2). by rewrite Hr2, Hr, delete_insert_id.
  - destruct (li_same _ _ (ki_lists _ _ _ _ Hi) t Ht) as (b & Hb & _).
    destruct (lookup_lt_is_Some_2 (km_refs s) (Z.to_nat p)) as [r Hrf].
    { destruct (li_len _ _ (ki_lists _ _ _ _ Hi)) as [-> _]. lia. }
    destruct (new_page_run (set_inuse (set_lock (set_pages s P') true) w) pg t p r b)
      as (mem' & Hth & En); try done; [lia|]. rewrite En. clear En.
    destruct (szk_facts t Ht) as (? & _ & ? & _).
    apply (doalloc_post _ (mk_pdesc p pg t (down (szk t) (Z.to_nat (nblk t))) :: ds) big L
             (mk_pdesc p pg t (down (szk t) (Z.to_nat (nblk t)))) sz); try done; [|set_solver|].
    + by apply (new_page_inv s).
    + cbn. by destruct (Z.to_nat (nblk t)) eqn:?; [lia|].
Qed.

Lemma subpage_kmalloc_spec s ds big L sz :
  km_inv s ds big L -> km_lock s = false -> 0 <= sz < LARGEST_SUBPAGE_SIZE ->
  exists p s', subpage_kmalloc sz s = Ret (p, s') /\ kmalloc_post s' big L p sz.
Proof.
  intros Hi Hlk Hsz. destruct (blocktype_spec sz s Hsz) as (t & Et & Ht & Hfit & _).
  unfold subpage_kmalloc. rewrite (bind_ok _ _ _ _ _ Et).
  rewrite (bind_ok _ _ _ _ _ (acquire_run s Hlk)).
  destruct (li_same _ _ (ki_lists _ _ _ _ Hi) t Ht) as (b & Hb & Hch).
  unfold load_loc at 1. mrun. cbn [km_sizebases set_lock].
  rewrite (get_at_lookup _ t b) by (done || lia). mrun.
  destruct (find_page_spec (set_lock s true) (filter (fun d => d_type d = t) ds) t b chain_fuel)
    as [E|(d & Hd & Hf & E)]; try done.
  - intros d [Htd Hd]%list_elem_of_filter. split; [by apply (ki_desc _ _ _ _ Hi)|done].
  - eapply chain_len_fuel; [done|]. apply NoDup_map_filter, Hi.
  - rewrite (bind_ok _ _ _ _ _ E). rewrite (bind_ok _ _ _ _ _ (release_run (set_lock s true) eq_refl)).
    apply (subpage_new_spec _ ds); try done; [|lia]. by apply (inv_lock (set_lock s true)), inv_lock.
  - rewrite (bind_ok _ _ _ _ _ E). apply list_elem_of_filter in Hd as [Htd Hd]. subst t.
    apply (doalloc_post _ ds); try done; [|lia]. by apply inv_lock.
Qed.

Lemma inv_new_run s ds big L p n sz P' :
  km_inv s ds big L -> pages_ok P' -> runs P' = <[p := n]> (runs (km_pages s)) ->
  runs (km_pages s) !! p = None -> 0 <= sz <= n * PAGE_SIZE ->
  0 < p /\ L !! p = None /\ km_inv (set_pages s P') ds (<[p := n]> big) (<[p := sz]> L).
Proof.
  intros [Hli Hde Hpg Hsm Hbg Hdup Hlv] Hok Hr Hfr Hsz.
  destruct (runs_range P' p n Hok) as (Hp0 & Hn & Hal & _); [by rewrite Hr, lookup_insert_eq|].
  assert (Hne : forall d, d ∈ ds -> d_page d <> p) by (intros d Hd E; destruct (Hsm d Hd); congruence).
  assert (Hbn : big !! p = None).
  { destruct (big !! p) eqn:E; [|done]. apply Hbg in E. congruence. }
  split; [done|]. split.
  - destruct (L !! p) eqn:E; [|done]. destruct (Hlv _ _ E) as [(d & o & Hd & Hpo & [Ho _] & _)|(m & Hm & _)];
      [|congruence].
    pose proof (do_page _ _ _ (Hde d Hd)) as (_ & Ha & _).
    destruct (pages_apart p (d_page d) 0 o) as [? _]; try done; [lia|].
    by destruct (Hne d Hd).
  - split; cbn [km_pages km_refs km_mem set_pages]; try done.
    + by destruct Hli.
    + intros d Hd. rewrite Hr, !lookup_insert_ne by (by apply not_eq_sym, Hne). by apply Hsm.
    + intros a m. rewrite Hr, !lookup_insert. case_decide; [done|apply Hbg].
    + intros q z. rewrite !lookup_insert. case_decide as Hpq.
      * intros [= <-]. right. by exists n.
      * intros Hz. destruct (Hlv q z Hz) as [?|(m & Hm & ?)]; [by left|right]. by exists m.
Qed.

Lemma kmalloc_correct s ds big L sz :
  km_inv s ds big L -> km_lock s = false -> 0 <= sz <= heap_max ->
  exists p s' big', kmalloc sz s = Ret (p, s') /\ kmalloc_post s' big' L p sz.
Proof.
  unfold heap_max. intros Hi Hlk Hsz. unfold kmalloc. destruct (Z.leb_spec LARGEST_SUBPAGE_SIZE sz) as [Hb|Hb].
  2: { destruct (subpage_kmalloc_spec s ds big L sz Hi Hlk ltac:(lia)) as (p & s' & E & Hp). eauto. }
  unfold LARGEST_SUBPAGE_SIZE in Hb. rewrite w32_id by (unfold is_u32, two32, PAGE_SIZE; lia).
  set (n := (sz + PAGE_SIZE - 1) / PAGE_SIZE).
  assert (0 < n /\ sz <= n * PAGE_SIZE) as [Hn Hfit].
  { unfold n, PAGE_SIZE. pose proof (Z.div_mod (sz + 4096 - 1) 4096 ltac:(lia)).
    pose proof (Z.mod_pos_bound (sz + 4096 - 1) 4096 ltac:(lia)). lia. }
  destruct (kpages_alloc_spec n (km_pages s) (ki_pages _ _ _ _ Hi) Hn) as (p & P' & E & Hok & Hc).
  exists p, (set_pages s P'). destruct Hc as [[-> Hr]|[Hfr Hr]].
  - exists big. split; [by apply in_pages_run|]. exists ds. split; [done|]. left. split; [done|].
    pose proof (inv_pages s ds big L P' (km_lock s) Hi Hok Hr) as Hi'. by destruct s.
  - exists (<[p := n]> big). split; [by apply in_pages_run|]. exists ds. split; [done|]. right.
    by apply inv_new_run; [..|lia].
Qed.

(** ** Looking for the page of an address *)

Definition on_page (d : pdesc) (a : Z) : Prop := d_page d <= a < d_page d + PAGE_SIZE.

Lemma find_addr_spec s ds a base fuel :
  (forall d, d ∈ ds -> desc_ok (km_refs s) (km_mem s) d) ->
  chain next_all (km_refs s) base (map d_ref ds) -> (length ds < fuel)%nat ->
  (find_addr fuel a base s = Ret (None, s) /\ forall d, d ∈ ds -> ~ on_page d a) \/
  exists d, d ∈ ds /\ on_page d a /\ find_addr fuel a base s = Ret (Some (d_ref d), s).
Proof.
  revert base fuel. induction ds as [|d ds IH]; intros base fuel Hd Hc Hf;
    (destruct fuel as [|fuel]; [cbn in Hf; lia|]).
  - cbn in Hc. subst base. left. split; [done|]. set_solver.
  - destruct Hc as (-> & Hr & r & Hrd & Hc). pose proof (Hd d ltac:(set_solver)) as Hok.
    pose proof Hok as [(r' & Hr' & Hpab & Hnf & _) _ Hty (Hp & Ha & Hu) _ _ _].
    assert (r' = r) as -> by congruence. cbn [find_addr].
    assert (is_u32 (d_page d)) by (unfold is_u32, two32, PAGE_SIZE in *; lia).
    rewrite (bind_ok _ _ _ _ _ (get_ref_run (d_ref d) r s ltac:(lia) Hrd)).
    unfold PR_BLOCKTYPE, PR_PAGEADDR. rewrite Hpab, mkpab_type, mkpab_page by done.
    rewrite (proj2 (Z.leb_le 0 _)), (proj2 (Z.ltb_lt (d_type d) NSIZES)) by (unfold NSIZES; lia).
    rewrite bind_kassert.
    destruct ((d_page d <=? a) && (a <? d_page d + PAGE_SIZE)) eqn:Eb.
    + right. exists d. unfold on_page. split_and!; [set_solver|lia..|done].
    + destruct (IH (next_all r) fuel) as [[E Hn]|(d2 & Hd2 & Hf2 & E)]; try done; [|cbn in Hf; lia|left|right].
      * intros d2 Hd2. apply Hd. set_solver.
      * split; [done|]. intros d2 [->|?]%elem_of_cons; [unfold on_page; lia|by apply Hn].
      * exists d2. split_and!; [set_solver|done|done].
Qed.

Lemma fill_deadbeef_spec s ptr len :
  0 <= len ->
  exists mem', fill_deadbeef ptr len s = Ret (tt, set_kmem s mem') /\
    forall x, x < ptr \/ ptr + len <= x -> mem' x = km_mem s x.
Proof.
  intros Hl. unfold fill_deadbeef. assert (4 * (len / 4) <= len) by (apply Z.mul_div_le; lia).
  assert (0 <= len / 4) by (apply Z.div_pos; lia).
  destruct (for_inv (fun i st => exists mem', st = set_kmem s mem' /\
      forall x, x < ptr \/ ptr + len <= x -> mem' x = km_mem s x)
    (fun i => store (ptr + 4 * i) 3735928559) (Z.to_nat (len / 4)) 0 s) as (s' & E & mem' & -> & Hm).
  - exists (km_mem s). by destruct s.
  - intros i st Hi (mem & -> & Hm). unfold store. mrun. eexists. split; [done|].
    eexists. split; [done|]. intros x Hx. cbn.
    rewrite (proj2 (Z.eqb_neq x _)) by lia. by apply Hm.
  - eauto.
Qed.

(** ** Removing a page from the lists *)

(** What the two loops of [remove_lists] leave alone. *)
Record same_rest s s' : Prop := {
  sr_pages : km_pages s' = km_pages s;
  sr_inuse : km_inuse s' = km_inuse s;
  sr_mem : km_mem s' = km_mem s;
  sr_lock : km_lock s' = km_lock s;
  sr_len : length (km_refs s') = length (km_refs s) /\ length (km_sizebases s') = length (km_sizebases s);
  sr_refs : forall i r, km_refs s !! i = Some r -> exists r', km_refs s' !! i = Some r' /\
    pageaddr_and_blocktype r' = pageaddr_and_blocktype r /\ pr_nfree r' = pr_nfree r /\
    freelist_offset r' = freelist_offset r;
}.

Lemma same_rest_ref s i r r' :
  0 <= i -> km_refs s !! Z.to_nat i = Some r ->
  pageaddr_and_blocktype r' = pageaddr_and_blocktype r -> pr_nfree r' = pr_nfree r ->
  freelist_offset r' = freelist_offset r ->
  same_rest s (set_refs s (<[Z.to_nat i := r']> (km_refs s))).
Proof.
  intros Hi Hr E1 E2 E3. split; cbn; try done; [by rewrite length_insert|].
  intros j rj Hj. destruct (decide (j = Z.to_nat i)) as [->|Hne].
  - rewrite list_lookup_insert_eq by (by eapply lookup_lt_Some). exists r'.
    rewrite Hr in Hj. by injection Hj as <-.
  - rewrite list_lookup_insert_ne by done. eauto.
Qed.

Lemma same_rest_trans s1 s2 s3 : same_rest s1 s2 -> same_rest s2 s3 -> same_rest s1 s3.
Proof.
  intros [A1 A2 A3 A4 [A5 A5'] A6] [B1 B2 B3 B4 [B5 B5'] B6]. split; try congruence.
  - split; congruence.
  - intros i r Hr. destruct (A6 i r Hr) as (r2 & Hr2 & ? & ? & ?).
    destruct (B6 i r2 Hr2) as (r3 & Hr3 & ? & ? & ?). exists r3. split_and!; congruence.
Qed.

Lemma desc_ok_rest s s' d :
  same_rest s s' -> desc_ok (km_refs s) (km_mem s) d -> desc_ok (km_refs s') (km_mem s') d.
Proof.
  intros Hsr [(r & Hr & E1 & E2 & E3) ? ? ? ? ? ?]. rewrite (sr_mem _ _ Hsr). split; try done.
  destruct (sr_refs _ _ Hsr _ _ Hr) as (r' & ? & ? & ? & ?). exists r'. split_and!; congruence.
Qed.

(** The lists by size without the page [d]; the list of all pages with it. *)
Definition same_lists s (ds : list pdesc) : Prop :=
  forall b, 0 <= b < 8 -> exists base, km_sizebases s !! Z.to_nat b = Some base /\
    chain next_samesize (km_refs s) base (map d_ref (filter (fun d => d_type d = b) ds)).

Lemma last_snoc_inv {A} (l : list A) : l = [] \/ exists l' x, l = l' ++ [x].
Proof. induction l using rev_ind; eauto. Qed.

Lemma load_same i pr s : 0 <= i -> km_refs s !! Z.to_nat i = Some pr ->
  load_loc (LSame i) s = Ret (next_samesize pr, s).
Proof. intros Hi Hr. unfold load_loc. mrun. by rewrite (bind_ok _ _ _ _ _ (get_ref_run i pr s Hi Hr)). Qed.

Lemma load_all i pr s : 0 <= i -> km_refs s !! Z.to_nat i = Some pr ->
  load_loc (LAll i) s = Ret (next_all pr, s).
Proof. intros Hi Hr. unfold load_loc. mrun. by rewrite (bind_ok _ _ _ _ _ (get_ref_run i pr s Hi Hr)). Qed.

Lemma store_same i pr s v : 0 <= i -> km_refs s !! Z.to_nat i = Some pr ->
  store_loc (LSame i) v s = Ret (tt, set_refs s (<[Z.to_nat i := with_samesize pr v]> (km_refs s))).
Proof.
  intros Hi Hr. unfold store_loc. mrun. rewrite (bind_ok _ _ _ _ _ (get_ref_run i pr s Hi Hr)).
  by eapply set_ref_run.
Qed.

Lemma store_all i pr s v : 0 <= i -> km_refs s !! Z.to_nat i = Some pr ->
  store_loc (LAll i) v s = Ret (tt, set_refs s (<[Z.to_nat i := with_all pr v]> (km_refs s))).
Proof.
  intros Hi Hr. unfold store_loc. mrun. rewrite (bind_ok _ _ _ _ _ (get_ref_run i pr s Hi Hr)).
  by eapply set_ref_run.
Qed.

Lemma ref_in_one_type ds d1 d2 b1 b2 :
  NoDup (map d_ref ds) -> d1 ∈ filter (fun d => d_type d = b1) ds ->
  d2 ∈ filter (fun d => d_type d = b2) ds -> d_ref d1 = d_ref d2 -> b1 = b2.
Proof.
  intros Nd [<- H1]%list_elem_of_filter [<- H2]%list_elem_of_filter E.
  by rewrite (NoDup_map_inj d_ref ds d1 d2).
Qed.

Lemma remove_same_spec s ds1 d ds2 :
  lists_ok s (ds1 ++ d :: ds2) -> 0 <= d_type d < 8 ->
  exists s', remove_from chain_fuel LSame (d_ref d) (LSize (d_type d)) s = Ret (tt, s') /\
    same_rest s s' /\ same_lists s' (ds1 ++ ds2) /\
    chain next_all (km_refs s') (km_allbase s') (map d_ref (ds1 ++ d :: ds2)).
Proof.
  intros [Ha Hs Nd Hu [Hl1 Hl2]] Ht. set (t := d_type d) in *. set (p := d_ref d).
  destruct (Hs t Ht) as (base & Hbase & Hch).
  pose proof (NoDup_map_filter (fun d => d_type d = t) _ Nd) as NdF.
  assert (HF : map d_ref (filter (fun d => d_type d = t) (ds1 ++ d :: ds2)) =
    map d_ref (filter (fun d => d_type d = t) ds1) ++ p :: map d_ref (filter (fun d => d_type d = t) ds2)).
  { rewrite filter_app, filter_cons_True, map_app by done. done. }
  pose proof HF as HF'. rewrite HF in Hch, NdF.
  destruct (chain_app _ _ _ _ _ _ Hch) as (pp & Hpp & Hp & Hc2).
  assert (Hbl : load_loc (LSize t) s = Ret (base, s)).
  { unfold load_loc. mrun. by rewrite (get_at_lookup _ t base) by (done || lia). }
  rewrite (remove_from_run next_samesize LSame s base
    (map d_ref (filter (fun d => d_type d = t) ds1)) p
    (map d_ref (filter (fun d => d_type d = t) ds2)) pp chain_fuel (LSize t)); try done.
  2: { intros. by apply load_same. }
  2: { pose proof (chain_length _ _ _ _ Hch NdF) as Hlen. rewrite length_app in Hlen. cbn in Hlen.
       unfold chain_fuel. change (Z.to_nat NPAGEREFS) with 256%nat. lia. }
  assert (Hother : forall b, b <> t -> filter (fun d => d_type d = b) (ds1 ++ d :: ds2) =
    filter (fun d => d_type d = b) (ds1 ++ ds2)).
  { intros b Hb. rewrite !filter_app, filter_cons_False; [done|]. fold t. congruence. }
  destruct (last_snoc_inv (filter (fun d => d_type d = t) ds1)) as [E1|(l & q & E1)]; rewrite E1 in *.
  - cbn. mrun. rewrite set_at_in_range by (unfold zlength; lia). mrun. eexists. split; [done|].
    split; [split; cbn; try done; [by rewrite length_insert|eauto]|]. split; [|done].
    intros b Hb. destruct (decide (b = t)) as [->|Hne].
    + exists (next_samesize pp). cbn. rewrite list_lookup_insert_eq by lia. split; [done|].
      by rewrite filter_app, E1.
    + destruct (Hs b Hb) as (base' & Hb' & Hc'). exists base'. cbn.
      rewrite list_lookup_insert_ne by lia. split; [done|]. by rewrite <- Hother.
  - rewrite map_app in Hch, NdF |- *. rewrite last_app.
    cbn [map last default fmap option_fmap option_map] in *.
    rewrite <- app_assoc in Hch, NdF. cbn [app] in Hch, NdF.
    assert (Hq : q ∈ filter (fun d => d_type d = t) (ds1 ++ d :: ds2)).
    { rewrite filter_app, E1. set_solver. }
    destruct (chain_app _ _ _ _ _ _ Hch) as (pq & Hpq & Hqr & _).
    unfold id. rewrite (store_same _ pq) by (done || lia). eexists. split; [done|].
    split; [by apply (same_rest_ref _ _ pq); [lia|..]|].
    split; [|by apply (chain_update _ _ _ pq); [|lia| |]].
    intros b Hb. destruct (decide (b = t)) as [->|Hne]; cbn.
    + exists base. split; [done|]. rewrite filter_app, E1, !map_app. cbn. rewrite <- app_assoc.
      by eapply chain_unlink.
    + destruct (Hs b Hb) as (base' & Hb' & Hc'). exists base'. split; [done|].
      rewrite <- Hother by done. eapply chain_update; [done|lia| |done].
      intros (d2 & E2 & Hd2)%list_elem_of_fmap. exfalso. apply Hne, eq_sym.
      by eapply (ref_in_one_type _ q d2).
Qed.

Lemma remove_all_spec s ds1 d ds2 ds :
  chain next_all (km_refs s) (km_allbase s) (map d_ref (ds1 ++ d :: ds2)) ->
  NoDup (map d_ref (ds1 ++ d :: ds2)) -> same_lists s ds ->
  exists s', remove_from chain_fuel LAll (d_ref d) LAllBase s = Ret (tt, s') /\
    same_rest s s' /\ same_lists s' ds /\
    chain next_all (km_refs s') (km_allbase s') (map d_ref (ds1 ++ ds2)).
Proof.
  rewrite !map_app. cbn [map]. set (p := d_ref d). intros Hch Nd Hs.
  destruct (chain_app _ _ _ _ _ _ Hch) as (pp & Hpp & Hp & Hc2).
  rewrite (remove_from_run next_all LAll s (km_allbase s) (map d_ref ds1) p (map d_ref ds2) pp);
    try done.
  2: { intros. by apply load_all. }
  2: { pose proof (chain_length _ _ _ _ Hch Nd) as Hlen. rewrite length_app in Hlen. cbn in Hlen.
       unfold chain_fuel. change (Z.to_nat NPAGEREFS) with 256%nat. lia. }
  destruct (last_snoc_inv ds1) as [->|(l & q & ->)].
  - cbn. mrun. eexists. split; [done|]. split; [split; cbn; try done; eauto|]. by split.
  - rewrite map_app in *. rewrite last_app. cbn [map last default fmap option_fmap option_map] in *.
    rewrite <- app_assoc in Hch, Nd. cbn [app] in Hch, Nd.
    destruct (chain_app _ _ _ _ _ _ Hch) as (pq & Hpq & Hqr & _).
    unfold id. rewrite (store_all _ pq) by (done || lia). eexists. split; [done|].
    split; [by apply (same_rest_ref _ _ pq); [lia|..]|]. split.
    + intros b Hb. destruct (Hs b Hb) as (base & Hbase & Hc). exists base. split; [done|].
      by apply (chain_update _ _ _ pq); [|lia| |].
    + cbn. rewrite <- app_assoc. by eapply chain_unlink.
Qed.

Lemma remove_lists_spec s ds1 d ds2 :
  lists_ok s (ds1 ++ d :: ds2) -> 0 <= d_type d < 8 ->
  exists s', remove_lists (d_ref d) (d_type d) s = Ret (tt, s') /\ same_rest s s' /\
    same_lists s' (ds1 ++ ds2) /\
    chain next_all (km_refs s') (km_allbase s') (map d_ref (ds1 ++ ds2)).
Proof.
  intros Hl Ht. unfold remove_lists, NSIZES.
  rewrite (proj2 (Z.leb_le 0 _)), (proj2 (Z.ltb_lt (d_type d) 8)) by lia. rewrite bind_kassert.
  destruct (remove_same_spec s ds1 d ds2 Hl Ht) as (s1 & E1 & Hr1 & Hs1 & Hc1).
  rewrite (bind_ok _ _ _ _ _ E1).
  destruct (remove_all_spec s1 ds1 d ds2 (ds1 ++ ds2) Hc1 (li_nodup _ _ Hl) Hs1)
    as (s2 & E2 & Hr2 & Hs2 & Hc2).
  exists s2. split_and!; try done. by eapply same_rest_trans.
Qed.

(** ** Giving a page back *)

Lemma inuse_ext w used used' :
  (forall i, i ∈ used <-> i ∈ used') -> inuse_rep w used -> inuse_rep w used'.
Proof.
  intros He [Hl Hr Hb]. split; try done. intros i j x Hx Hi Hj. rewrite (Hb i j x) by done.
  apply bool_decide_ext, He.
Qed.

(** A page whose blocks are all free holds no live block. *)
Lemma inv_release s s' ds1 d ds2 big L :
  km_inv s (ds1 ++ d :: ds2) big L ->
  (forall o, valid_off (d_type d) o -> o ∈ d_free d) ->
  lists_ok s' (ds1 ++ ds2) ->
  (forall d2, d2 ∈ ds1 ++ ds2 -> desc_ok (km_refs s') (km_mem s') d2) ->
  pages_ok (km_pages s') -> runs (km_pages s') = delete (d_page d) (runs (km_pages s)) ->
  km_inv s' (ds1 ++ ds2) big L.
Proof.
  intros [Hli Hde Hpg Hsm Hbg Hdup Hlv] Hall Hl' Hd' Hp' Hr'.
  assert (Hsub : forall d2, d2 ∈ ds1 ++ ds2 -> d2 ∈ ds1 ++ d :: ds2) by set_solver.
  assert (Hnp : d_page d ∉ map d_page (ds1 ++ ds2) /\ NoDup (map d_page (ds1 ++ ds2))).
  { apply NoDup_cons. rewrite !map_app in *. cbn in Hdup. by rewrite <- Permutation_middle in Hdup. }
  destruct Hnp as [Hnp Hdup']. split; try done.
  - intros d2 Hd2. rewrite Hr', lookup_delete_ne; [by apply Hsm, Hsub|].
    intros E. apply Hnp. rewrite E. by apply list_elem_of_fmap_2.
  - intros a n Ha. rewrite Hr', lookup_delete_ne; [by apply Hbg|]. intros <-.
    destruct (Hsm d ltac:(set_solver)). congruence.
  - intros q sz Hq. destruct (Hlv q sz Hq) as [(d2 & o & Hd2 & Hqo & Hv & Hno & Hsz)|?]; [left|by right].
    exists d2, o. split; [|done]. assert (d2 = d \/ d2 ∈ ds1 ++ ds2) as [->|?] by set_solver; [|done].
    by destruct Hno; apply Hall.
Qed.

Lemma valid_down t o : 0 <= t < 8 -> valid_off t o <-> o ∈ down (szk t) (Z.to_nat (nblk t)).
Proof.
  intros Ht. destruct (szk_facts t Ht) as (Hs & Hn & Hn2 & _). rewrite elem_of_down, Z2Nat.id by lia.
  unfold valid_off. split.
  - intros [Hr [i ->]%Z.mod_divide]; [|lia]. exists i. split; [nia|done].
  - intros (i & Hi & ->). split; [nia|apply Z.mod_mul; lia].
Qed.

(** There are no more free blocks than blocks, and when there are as many,
    every block is free. *)
Lemma free_bound t fr :
  0 <= t < 8 -> NoDup fr -> (forall o, o ∈ fr -> valid_off t o) ->
  zlength fr <= nblk t /\ (zlength fr = nblk t -> forall o, valid_off t o -> o ∈ fr).
Proof.
  intros Ht Nd Hv. destruct (szk_facts t Ht) as (Hs & Hn & Hn2 & _).
  assert (Hsub : fr ⊆+ down (szk t) (Z.to_nat (nblk t))).
  { apply NoDup_submseteq; [done|]. intros o Ho. by apply valid_down, Hv. }
  pose proof (submseteq_length _ _ Hsub) as Hle. rewrite length_down in Hle. unfold zlength.
  split; [lia|]. intros E o Ho. apply valid_down in Ho; [|done].
  apply submseteq_length_Permutation in Hsub; [|rewrite length_down; lia]. by rewrite Hsub.
Qed.

(** ** [kfree] *)

Lemma live_ok_free ds1 d o ds2 big L :
  live_ok (ds1 ++ d :: ds2) big L ->
  live_ok (ds1 ++ mk_pdesc (d_ref d) (d_page d) (d_type d) (o :: d_free d) :: ds2) big
          (delete (d_page d + o) L).
Proof.
  intros HL p z [Hp Hz]%lookup_delete_Some.
  destruct (HL p z Hz) as [(d2 & o2 & Hd2 & Hp2 & Hv2 & Hno & Hsz2)|Hb]; [left|by right].
  assert (d2 = d \/ d2 ∈ ds1 ++ ds2) as [->|Hin] by set_solver.
  - eexists _, o2. split; [apply elem_of_app; right; left|]. cbn. split_and!; try done; try lia.
    assert (o2 <> o) by congruence. set_solver.
  - exists d2, o2. split_and!; try done; try lia. set_solver.
Qed.

(** Two blocks of a page do not meet. *)
Lemma blocks_apart t o o' :
  0 <= t < 8 -> valid_off t o -> valid_off t o' -> o <> o' ->
  o' + szk t <= o \/ o + szk t <= o'.
Proof.
  intros Ht. destruct (szk_facts t Ht) as (Hs & _).
  intros [_ [i ->]%Z.mod_divide] [_ [j ->]%Z.mod_divide] Hne; try lia.
  destruct (Z.lt_trichotomy i j) as [?|[->|?]]; [right; nia|done|left; nia].
Qed.

Lemma free_block_inv s ds1 d o ds2 big L r mem' :
  km_inv s (ds1 ++ d :: ds2) big L -> valid_off (d_type d) o -> o ∉ d_free d ->
  km_refs s !! Z.to_nat (d_ref d) = Some r ->
  mem' (d_page d + o) = match d_free d with [] => 0 | o' :: _ => d_page d + o' end ->
  (forall x, x < d_page d + o \/ d_page d + o + szk (d_type d) <= x -> mem' x = km_mem s x) ->
  km_inv (set_refs (set_kmem s mem') (<[Z.to_nat (d_ref d) :=
            with_nfree (with_offset r o) (pr_nfree r + 1)]> (km_refs s)))
    (ds1 ++ mk_pdesc (d_ref d) (d_page d) (d_type d) (o :: d_free d) :: ds2) big
    (delete (d_page d + o) L).
Proof.
  intros Hi Hv Hno Hr Hlink Hframe. pose proof (ki_desc _ _ _ _ Hi d ltac:(set_solver)) as Hdo.
  pose proof Hdo as [(r0 & Hr0 & Hpab & Hnf & Hoff) Hidx Hty (Hp & Ha & Ht) Hvs Nd Hm].
  assert (r0 = r) as -> by congruence. destruct (szk_facts _ Hty) as (Hs & Hn & Hn2 & _).
  assert (Hfit : o + szk (d_type d) <= PAGE_SIZE).
  { pose proof (proj1 (valid_down _ o Hty) Hv) as (i & Hi' & ->)%elem_of_down. nia. }
  assert (Hno0 : 0 <= o) by apply Hv.
  eapply (inv_replace s _ ds1 d _ ds2 big L _ r); try done.
  - split; cbn [d_ref d_page d_type d_free km_refs km_mem set_refs set_kmem]; try done.
    + eexists. rewrite list_lookup_insert_eq by (by eapply lookup_lt_Some). split; [done|].
      cbn. rewrite Hnf. unfold zlength. cbn [length]. split_and!; [done|lia|done].
    + intros o' [->|?]%elem_of_cons; [done|by apply Hvs].
    + by constructor.
    + split; [done|]. eapply links_mem_frame; [|done]. intros o' Ho'. apply Hframe.
      destruct (blocks_apart (d_type d) o o'); try done; [by apply Hvs|congruence|lia..].
  - intros d2 o2 Hd2 Ho2. cbn. apply Hframe.
    pose proof (ki_desc _ _ _ _ Hi d2 ltac:(set_solver)) as Hdo2.
    destruct (do_valid _ _ _ Hdo2 o2 Ho2) as [Ho2' _]. pose proof (do_page _ _ _ Hdo2) as (_ & Ha2 & _).
    assert (d_page d2 <> d_page d).
    { intros E. pose proof (ki_pgdup _ _ _ _ Hi) as Nd'. rewrite map_app in Nd'. cbn in Nd'.
      rewrite <- Permutation_middle in Nd'. apply NoDup_cons in Nd' as [Nd' _]. apply Nd'.
      rewrite <- map_app, <- E. by apply list_elem_of_fmap_2. }
    unfold PAGE_SIZE in *. apply Z.mod_divide in Ha as [i Ha]; [|lia].
    apply Z.mod_divide in Ha2 as [j Ha2]; [|lia]. lia.
  - apply live_ok_free. exact (ki_live _ _ _ _ Hi).
Qed.

(** The end of [subpage_kfree]: a page whose blocks are all free goes back to
    the page allocator. *)
Lemma release_page_spec s ds1 d ds2 big L :
  km_inv s (ds1 ++ d :: ds2) big L -> km_lock s = true -> zlength (d_free d) = nblk (d_type d) ->
  exists s', (do* remove_lists (d_ref d) (d_type d) in
              do* freepageref (d_ref d) in
              do* release in
              do* in_pages (kpages_free (d_page d)) in
              ret 0) s = Ret (0, s') /\ km_lock s' = false /\ km_inv s' (ds1 ++ ds2) big L.
Proof.
  intros Hi Hlk Hfull. pose proof (ki_desc _ _ _ _ Hi d ltac:(set_solver)) as Hdo.
  pose proof (do_type _ _ _ Hdo) as Ht. pose proof (ki_lists _ _ _ _ Hi) as Hli.
  pose proof (do_idx _ _ _ Hdo) as Hidx.
  destruct (free_bound _ _ Ht (do_nodup _ _ _ Hdo) (do_valid _ _ _ Hdo)) as [_ Hall].
  destruct (remove_lists_spec s ds1 d ds2 Hli Ht) as (s1 & E1 & Hsr & Hsame & Hch).
  rewrite (bind_ok _ _ _ _ _ E1). pose proof Hsr as [Hp1 Hu1 Hm1 Hl1 [Hn1 Hn2] _].
  pose proof (li_nodup _ _ Hli) as Nd. rewrite map_app in Nd. cbn in Nd.
  rewrite <- Permutation_middle, <- map_app in Nd. apply NoDup_cons in Nd as [Nd0 Nd].
  destruct (freepageref_spec s1 (map d_ref (ds1 ++ d :: ds2)) (d_ref d)) as (w & E2 & Hw);
    [rewrite Hu1; apply Hli|done|rewrite map_app; set_solver|].
  rewrite (bind_ok _ _ _ _ _ E2).
  rewrite (bind_ok _ _ _ _ _ (release_run (set_inuse s1 w) (eq_trans Hl1 Hlk))).
  destruct (kpages_free_spec (d_page d) (km_pages s1)) as (P' & E3 & Hok & Hr').
  { rewrite Hp1. apply Hi. } { rewrite Hp1. by destruct (ki_small _ _ _ _ Hi d ltac:(set_solver)) as [-> _]. }
  rewrite (bind_ok _ _ _ _ _ (in_pages_run _ (set_lock (set_inuse s1 w) false) tt P' E3)).
  eexists. split; [done|]. split; [done|]. rewrite Hp1 in Hr'.
  apply (inv_release s _ ds1 d ds2); try done.
  - by apply Hall.
  - split; cbn; try done.
    + eapply inuse_ext; [|done]. intros i. rewrite list_elem_of_filter, map_app. cbn.
      rewrite map_app in *. set_solver.
    + destruct (li_len _ _ Hli). lia.
  - intros d2 Hd2. apply (desc_ok_rest s s1 d2 Hsr), (ki_desc _ _ _ _ Hi). set_solver.
Qed.

(** A block of the page [d] is found on [d]. *)
Lemma find_owner s ds big L d o :
  km_inv s ds big L -> d ∈ ds -> 0 <= o < PAGE_SIZE ->
  find_addr chain_fuel (d_page d + o) (km_allbase s) s = Ret (Some (d_ref d), s).
Proof.
  intros Hi Hd Ho. pose proof (ki_lists _ _ _ _ Hi) as Hli.
  pose proof (do_page _ _ _ (ki_desc _ _ _ _ Hi d Hd)) as (_ & Ha & _).
  destruct (find_addr_spec s ds (d_page d + o) (km_allbase s) chain_fuel)
    as [[_ Hnone]|(d2 & Hd2 & Hon & E)]; [apply Hi|apply Hli|eapply chain_len_fuel; apply Hli|..].
  { destruct (Hnone d Hd). unfold on_page. lia. }
  assert (d2 = d) as ->; [|done].
  apply (NoDup_map_inj d_page ds); [apply Hi|done|done|].
  pose proof (do_page _ _ _ (ki_desc _ _ _ _ Hi d2 Hd2)) as (_ & Ha2 & _). unfold on_page in Hon.
  destruct (pages_apart (d_page d2) (d_page d) (d_page d + o - d_page d2) o); try done; lia.
Qed.

(** The link that [subpage_kfree] writes into the block. *)
Definition free_link (d : pdesc) : Z :=
  match d_free d with [] => 0 | o' :: _ => d_page d + o' end.

Lemma store_link_run s refs mem0 d r fla :
  desc_ok refs mem0 d -> refs !! Z.to_nat (d_ref d) = Some r ->
  (if freelist_offset r =? INVALID_OFFSET then store fla 0
   else store fla (d_page d + freelist_offset r)) s =
  Ret (tt, set_kmem s (fun x => if x =? fla then free_link d else km_mem s x)).
Proof.
  intros [(r' & Hr' & _ & _ & Hoff) _ _ _ Hvs _ _] Hr. assert (r' = r) as -> by congruence.
  rewrite Hoff. unfold free_link. destruct (d_free d) as [|o' fr]; cbn [hd]; [done|].
  destruct (Hvs o' ltac:(set_solver)) as [Ho' _].
  rewrite (proj2 (Z.eqb_neq o' INVALID_OFFSET)); [done|]. unfold INVALID_OFFSET, PAGE_SIZE in *. lia.
Qed.

Lemma subpage_kfree_small s ds1 d ds2 big L o :
  km_inv s (ds1 ++ d :: ds2) big L -> km_lock s = false ->
  valid_off (d_type d) o -> o ∉ d_free d ->
  exists s' ds', subpage_kfree (d_page d + o) s = Ret (0, s') /\ km_lock s' = false /\
    km_inv s' ds' big (delete (d_page d + o) L).
Proof.
  intros Hi Hlk Hv Hno. pose proof (ki_desc _ _ _ _ Hi d ltac:(set_solver)) as Hdo.
  pose proof Hdo as [(r & Hr & Hpab & Hnf & Hoff) Hidx Hty (Hp & Ha & Ht) Hvs Nd Hm].
  destruct (szk_facts _ Hty) as (Hs & Hn & Hn2 & _).
  assert (is_u32 (d_page d)) as Hu by (unfold is_u32, two32, PAGE_SIZE in *; lia).
  destruct Hv as [Hor Hom].
  unfold subpage_kfree. rewrite (bind_ok _ _ _ _ _ (acquire_run s Hlk)).
  set (s0 := set_lock s true). assert (Hi0 : km_inv s0 (ds1 ++ d :: ds2) big L) by (by apply inv_lock).
  change (load_loc LAllBase) with (fun st : kms P => Ret (km_allbase st, st)).
  rewrite (bind_ok _ _ s0 (km_allbase s0) s0 eq_refl).
  rewrite (bind_ok _ _ _ _ _ (find_owner s0 _ big L d o Hi0 ltac:(set_solver) Hor)).
  rewrite (bind_ok _ _ _ _ _ (get_ref_run (d_ref d) r s0 ltac:(lia) Hr)).
  unfold PR_PAGEADDR, PR_BLOCKTYPE. rewrite Hpab, mkpab_page, mkpab_type by done.
  rewrite (bind_ok _ _ _ _ _ (size_of_run (d_type d) s0 Hty)).
  replace (d_page d + o - d_page d) with o by lia.
  rewrite (proj2 (Z.leb_gt PAGE_SIZE o)), Hom by lia. cbn [orb negb Z.eqb].
  destruct (fill_deadbeef_spec s0 (d_page d + o) (szk (d_type d)) ltac:(lia)) as (mem1 & E1 & Hm1).
  rewrite (bind_ok _ _ _ _ _ E1).
  rewrite (bind_ok _ _ _ _ _ (store_link_run (set_kmem s0 mem1) _ _ d r (d_page d + o) Hdo Hr)).
  rewrite (bind_ok _ _ _ _ _ (set_ref_run (d_ref d) r _ (set_kmem (set_kmem s0 mem1) _) ltac:(lia) Hr)).
  set (s1 := set_refs _ _).
  assert (Hi1 : km_inv s1 (ds1 ++ mk_pdesc (d_ref d) (d_page d) (d_type d) (o :: d_free d) :: ds2) big
    (delete (d_page d + o) L)).
  { apply (free_block_inv s0); try done.
    - by rewrite Z.eqb_refl.
    - intros x Hx. rewrite (proj2 (Z.eqb_neq x _)) by lia. by apply Hm1. }
  fold (nblk (d_type d)).
  assert (Hz : pr_nfree r + 1 = zlength (o :: d_free d)) by (rewrite Hnf; unfold zlength; cbn [length]; lia).
  rewrite Hz. destruct (free_bound (d_type d) (o :: d_free d)) as [Hle _]; [done|by constructor| |].
  { intros o' [->|?]%elem_of_cons; [done|by apply Hvs]. }
  rewrite (proj2 (Z.leb_le _ _) Hle), bind_kassert.
  destruct (Z.eqb_spec (zlength (o :: d_free d)) (nblk (d_type d))) as [Hfull|Hnf'].
  - destruct (release_page_spec s1 ds1 _ ds2 big (delete (d_page d + o) L) Hi1 eq_refl Hfull)
      as (s' & E' & ? & ?). exists s', (ds1 ++ ds2). done.
  - rewrite (bind_ok _ _ _ _ _ (release_run s1 eq_refl)). eexists _, _. split; [done|].
    split; [done|]. by apply inv_lock.
Qed.

(** A large block is on no page of the subpage allocator. *)
Lemma subpage_kfree_big s ds big L p n :
  km_inv s ds big L -> km_lock s = false -> big !! p = Some n ->
  subpage_kfree p s = Ret (-1, s).
Proof.
  intros Hi Hlk Hb. unfold subpage_kfree. rewrite (bind_ok _ _ _ _ _ (acquire_run s Hlk)).
  set (s0 := set_lock s true). pose proof (inv_lock s ds big L true Hi) as Hi0.
  change (load_loc LAllBase) with (fun st : kms P => Ret (km_allbase st, st)).
  rewrite (bind_ok _ _ s0 (km_allbase s0) s0 eq_refl).
  pose proof (ki_lists _ _ _ _ Hi0) as Hli.
  destruct (find_addr_spec s0 ds p (km_allbase s0) chain_fuel)
    as [[E _]|(d & Hd & Hon & _)]; [apply Hi0|apply Hli|eapply chain_len_fuel; apply Hli|..].
  - rewrite (bind_ok _ _ _ _ _ E), (bind_ok _ _ _ _ _ (release_run s0 eq_refl)).
    unfold s0. destruct s; cbn in *. by subst.
  - exfalso. destruct (ki_small _ _ _ _ Hi d Hd) as [Hr Hnb]. pose proof (ki_big _ _ _ _ Hi _ _ Hb) as Hrb.
    pose proof (runs_range _ _ _ (ki_pages _ _ _ _ Hi) Hrb) as (_ & Hn & _).
    unfold on_page, PAGE_SIZE in Hon.
    destruct (runs_disjoint _ _ _ _ _ (ki_pages _ _ _ _ Hi) Hr Hrb) as [?|?];
      [congruence|unfold PAGE_SIZE in *; lia..].
Qed.

Lemma inv_drop_run s ds big L p n P' :
  km_inv s ds big L -> big !! p = Some n -> pages_ok P' ->
  runs P' = delete p (runs (km_pages s)) -> km_inv (set_pages s P') ds (delete p big) (delete p L).
Proof.
  intros [Hli Hde Hpg Hsm Hbg Hdup Hlv] Hp Hok Hr.
  assert (Hne : forall d, d ∈ ds -> p <> d_page d) by (intros d Hd ->; destruct (Hsm d Hd); congruence).
  split; cbn [km_pages km_refs km_mem set_pages]; try done.
  - by destruct Hli.
  - intros d Hd. rewrite Hr, !lookup_delete_ne by (by apply Hne). by apply Hsm.
  - intros a m [? ?]%lookup_delete_Some. rewrite Hr, lookup_delete_ne by done. by apply Hbg.
  - intros q z [Hq Hz]%lookup_delete_Some. destruct (Hlv q z Hz) as [?|(m & Hm & ?)]; [by left|right].
    exists m. by rewrite lookup_delete_ne.
Qed.

(** The state [s] holds exactly the live blocks [L]. *)
Definition heap_state s (L : gmap Z Z) : Prop :=
  km_lock s = false /\ exists ds big, km_inv s ds big L.

Lemma kfree_correct s L p :
  heap_state s L -> is_Some (L !! p) ->
  exists s', kfree p s = Ret (tt, s') /\ heap_state s' (delete p L).
Proof.
  intros (Hlk & ds & big & Hi) [sz Hp]. unfold kfree.
  destruct (ki_live _ _ _ _ Hi p sz Hp) as [(d & o & Hd & -> & Hv & Hno & _)|(n & Hb & _)].
  - pose proof (do_page _ _ _ (ki_desc _ _ _ _ Hi d Hd)) as (? & _). pose proof (proj1 (proj1 Hv)).
    rewrite (proj2 (Z.eqb_neq _ 0)) by lia.
    apply list_elem_of_split in Hd as (ds1 & ds2 & ->).
    destruct (subpage_kfree_small s ds1 d ds2 big L o) as (s' & ds' & E & ? & ?); try done.
    rewrite (bind_ok _ _ _ _ _ E). exists s'. split; [done|]. split; [done|eauto].
  - pose proof (ki_big _ _ _ _ Hi _ _ Hb) as Hr.
    pose proof (runs_range _ _ _ (ki_pages _ _ _ _ Hi) Hr) as (Hpos & _ & Hal & _).
    rewrite (proj2 (Z.eqb_neq p 0)) by lia.
    rewrite (bind_ok _ _ _ _ _ (subpage_kfree_big s ds big L p n Hi Hlk Hb)).
    cbn [Z.eqb negb]. rewrite Hal, bind_kassert.
    destruct (kpages_free_spec p (km_pages s)) as (P' & E & Hok & Hr'); [apply Hi|eauto|].
    exists (set_pages s P'). split; [by apply in_pages_run|]. split; [done|].
    exists ds, (delete p big). by eapply inv_drop_run.
Qed.

(** ** Live blocks *)

(** The range of addresses that a live block may use. *)
Lemma live_place s ds big L p sz :
  km_inv s ds big L -> L !! p = Some sz ->
  0 < p /\ p mod 16 = 0 /\ 0 <= sz /\ p + sz <= two32.
Proof.
  intros Hi Hp. destruct (ki_live _ _ _ _ Hi p sz Hp) as [(d & o & Hd & -> & [Hor Hom] & _ & Hsz)|(n & Hb & Hsz)].
  - pose proof (ki_desc _ _ _ _ Hi d Hd) as Hdo. pose proof (do_page _ _ _ Hdo) as (Hp0 & Ha & Ht).
    pose proof (do_type _ _ _ Hdo) as Hty. destruct (szk_facts _ Hty) as (Hs & Hn & _).
    pose proof (proj1 (valid_down _ o Hty) (conj Hor Hom)) as (i & Hir & ->)%elem_of_down.
    split; [lia|]. split; [|split; [lia|nia]].
    apply Z.mod_divide in Ha as [j Hj]; [|done]. rewrite Hj. unfold PAGE_SIZE, szk.
    replace (j * 4096 + i * (16 * 2 ^ d_type d)) with ((j * 256 + i * 2 ^ d_type d) * 16) by lia.
    by apply Z.mod_mul.
  - pose proof (runs_range _ _ _ (ki_pages _ _ _ _ Hi) (ki_big _ _ _ _ Hi _ _ Hb)) as (? & ? & Ha & ?).
    split; [lia|]. split; [|lia]. apply Z.mod_divide in Ha as [j Hj]; [|done]. rewrite Hj. unfold PAGE_SIZE.
    replace (j * 4096) with (j * 256 * 16) by lia. by apply Z.mod_mul.
Qed.

(** Pages of different kinds of runs do not meet. *)
Lemma runs_apart (x : P) a b n m u v k l :
  pages_ok x -> runs x !! a = Some n -> runs x !! b = Some m -> a <> b ->
  0 <= u -> u + k <= n * PAGE_SIZE -> 0 <= v -> v + l <= m * PAGE_SIZE ->
  disjoint_range (a + u) k (b + v) l.
Proof.
  intros Hok Ha Hb Hne Hu Hk Hv Hl. unfold disjoint_range.
  destruct (runs_disjoint _ _ _ _ _ Hok Ha Hb Hne); lia.
Qed.

(** A live block lies in a run of pages, and no other live block of the run
    meets it. *)
Lemma live_in_run s ds big L p sz :
  km_inv s ds big L -> L !! p = Some sz ->
  exists a n u, p = a + u /\ 0 <= u /\ u + sz <= n * PAGE_SIZE /\ runs (km_pages s) !! a = Some n /\
    ((exists d, d ∈ ds /\ a = d_page d /\ valid_off (d_type d) u /\ sz <= szk (d_type d)) \/
     (big !! a = Some n /\ u = 0)).
Proof.
  intros Hi Hp. destruct (ki_live _ _ _ _ Hi p sz Hp) as [(d & o & Hd & -> & Hv & _ & Hsz)|(n & Hb & Hsz)].
  - pose proof (ki_desc _ _ _ _ Hi d Hd) as Hdo. pose proof (do_type _ _ _ Hdo) as Hty.
    destruct (szk_facts _ Hty) as (Hs & Hn & _).
    pose proof (proj1 (valid_down _ o Hty) Hv) as (i & Hir & Ho)%elem_of_down.
    exists (d_page d), 1, o. split; [done|]. split; [nia|]. split; [nia|].
    split; [by apply (ki_small _ _ _ _ Hi)|]. left. exists d. split_and!; try done. lia.
  - exists p, n, 0. split_and!; try lia; [by apply (ki_big _ _ _ _ Hi)|]. by right.
Qed.

Lemma live_blocks_disjoint s ds big L p q n m :
  km_inv s ds big L -> L !! p = Some n -> L !! q = Some m -> p <> q -> disjoint_range p n q m.
Proof.
  intros Hi Hp Hq Hne.
  destruct (live_in_run _ _ _ _ _ _ Hi Hp) as (a & k & u & -> & Hu & Huk & Ha & Hka).
  destruct (live_in_run _ _ _ _ _ _ Hi Hq) as (b & l & v & -> & Hv & Hvl & Hb & Hkb).
  destruct (decide (a = b)) as [->|Hab]; [|by eapply runs_apart; [apply Hi|..]].
  destruct Hka as [(d & Hd & Ed & Hvd & Hsz)|[Hba Hu0]], Hkb as [(d2 & Hd2 & Ed2 & Hvd2 & Hsz2)|[Hbb Hv0]].
  - assert (d2 = d) as -> by (apply (NoDup_map_inj d_page ds); [apply Hi|done|done|congruence]).
    unfold disjoint_range.
    destruct (blocks_apart (d_type d) u v); try done; [|intros ->; congruence|lia..].
    by apply (do_type _ _ _ (ki_desc _ _ _ _ Hi d Hd)).
  - destruct (ki_small _ _ _ _ Hi d Hd) as [_ Hnb]. congruence.
  - destruct (ki_small _ _ _ _ Hi d2 Hd2) as [_ Hnb]. congruence.
  - subst. congruence.
Qed.

(** ** The state at boot *)

Definition no_ref : pageref := mk_pageref None None 0 0 0.

(** The variables of kmalloc.c as the loader initialises them. *)
Definition km_boot (x : P) : kms P :=
  mk_kms x (replicate 256 no_ref) (replicate 8 0) (replicate 8 None) None (fun _ => 0) false.

Lemma boot_state x : pages_ok x -> heap_state (km_boot x) ∅.
Proof.
  intros Hok. split; [done|]. exists [], ∅. split; cbn; try done; try set_solver.
  - split; cbn [km_boot km_refs km_allbase km_sizebases km_inuse]; try done.
    + intros b Hb. exists None. split; [|done]. apply lookup_replicate_2. lia.
    + constructor.
    + split; [done| |].
      * intros i v [-> _]%lookup_replicate. unfold is_u32, two32. lia.
      * intros i j v [-> _]%lookup_replicate _ _. by rewrite Z.testbit_0_l.
  - constructor.
Qed.

(** ** Refinement of an abstract heap *)

Inductive heap_op := Alloc (sz : Z) | Free (p : Z).

Definition do_heap_op (op : heap_op) : M (kms P) Z :=
  match op with Alloc sz => kmalloc sz | Free p => do* kfree p in ret 0 end.

(** What a caller may ask for. *)
Definition heap_legal (L : gmap Z Z) (op : heap_op) : Prop :=
  match op with Alloc sz => 0 <= sz <= heap_max | Free p => p = 0 \/ is_Some (L !! p) end.

(** What the operations do to the live blocks. *)
Inductive heap_step (L : gmap Z Z) : heap_op -> Z -> gmap Z Z -> Prop :=
| step_alloc_null sz : heap_step L (Alloc sz) 0 L
| step_alloc sz p :
    0 < p -> p mod 16 = 0 -> p + sz <= two32 -> L !! p = None ->
    (forall q n, L !! q = Some n -> disjoint_range p sz q n) ->
    heap_step L (Alloc sz) p (<[p := sz]> L)
| step_free_null : heap_step L (Free 0) 0 L
| step_free p : is_Some (L !! p) -> heap_step L (Free p) 0 (delete p L).

Lemma heap_op_simulates s L op :
  heap_state s L -> heap_legal L op ->
  exists r s' L', do_heap_op op s = Ret (r, s') /\ heap_step L op r L' /\ heap_state s' L'.
Proof.
  intros Hst Hlegal. destruct op as [sz|p]; cbn in *.
  - destruct Hst as (Hlk & ds & big & Hi).
    destruct (kmalloc_correct s ds big L sz Hi Hlk Hlegal) as (p & s' & big' & E & ds' & Hlk' & Hc).
    destruct Hc as [[-> Hi']|(Hp & Hnew & Hi')].
    + exists 0, s', L. split; [done|]. split; [constructor|]. split; [done|eauto].
    + exists p, s', (<[p := sz]> L). split; [done|]. split; [|split; [done|eauto]].
      pose proof (lookup_insert_eq L p sz) as Hl.
      destruct (live_place _ _ _ _ _ _ Hi' Hl) as (_ & Hal & _ & Htop).
      constructor; try done. intros q n Hq. assert (q <> p) by congruence.
      eapply live_blocks_disjoint; [done|done| |done]. by rewrite lookup_insert_ne.
  - destruct (Z.eq_dec p 0) as [->|Hp].
    + exists 0, s, L. split; [done|]. split; [constructor|done].
    + destruct Hlegal as [?|Hl]; [done|]. destruct (kfree_correct s L p Hst Hl) as (s' & E & Hst').
      exists 0, s', (delete p L). rewrite (bind_ok _ _ _ _ _ E). split; [done|].
      split; [by constructor|done].
Qed.

Inductive heap_steps (L : gmap Z Z) : list (heap_op * Z) -> gmap Z Z -> Prop :=
| steps_nil : heap_steps L [] L
| steps_snoc tr op r L1 L2 :
    heap_steps L tr L1 -> heap_step L1 op r L2 -> heap_steps L (tr ++ [(op, r)]) L2.

(** A caller decides on its next request from the blocks it has. *)
Fixpoint client_run (fuel : nat) (client : list (heap_op * Z) -> option heap_op)
    (hist : list (heap_op * Z)) : M (kms P) (list (heap_op * Z)) :=
  match fuel, client hist with
  | S fuel', Some op =>
      let* r := do_heap_op op in
      client_run fuel' client (hist ++ [(op, r)])
  | _, _ => ret hist
  end.

Lemma client_run_correct client n hist s L :
  (forall hist L op, heap_steps ∅ hist L -> client hist = Some op -> heap_legal L op) ->
  heap_steps ∅ hist L -> heap_state s L ->
  exists hist' s' L', client_run n client hist s = Ret (hist', s') /\ heap_steps ∅ hist' L' /\ heap_state s' L'.
Proof.
  intros Hleg. revert hist s L. induction n as [|n IH]; intros hist s L Hh Hst; cbn [client_run].
  { exists hist, s, L. done. }
  destruct (client hist) as [op|] eqn:Eop; [|exists hist, s, L; done].
  destruct (heap_op_simulates s L op Hst) as (r & s1 & L1 & E & Hs1 & Hst1); [by eapply Hleg|].
  rewrite (bind_ok _ _ _ _ _ E). apply IH with L1; [|done]. by eapply steps_snoc.
Qed.


(** ** The consistency checks *)

(** The pages are in the kernel's direct-mapped segment. *)
Definition in_kseg0 (x : P) : Prop :=
  forall a n, runs x !! a = Some n -> MIPS_KSEG0 <= a /\ a + n * PAGE_SIZE <= MIPS_KSEG1.

Lemma check_free_run s page t offs fuel c :
  0 < page -> MIPS_KSEG0 <= page -> page + PAGE_SIZE <= MIPS_KSEG1 ->
  (forall o, o ∈ offs -> valid_off t o) -> links_mem (km_mem s) page offs ->
  (length offs < fuel)%nat ->
  check_free fuel page (szk t) (match offs with [] => 0 | o :: _ => page + o end) c s =
  Ret (c + zlength offs, s).
Proof.
  intros Hp H0 H1. revert fuel c. induction offs as [|o offs IH]; intros fuel c Hv Hm Hf;
    (destruct fuel as [|fuel]; [cbn in Hf; lia|]); cbn [check_free].
  - cbn. by rewrite Z.add_0_r.
  - destruct (Hv o ltac:(set_solver)) as [Ho Hom]. destruct Hm as [Hmo Hm].
    rewrite (proj2 (Z.eqb_neq (page + o) 0)) by lia.
    rewrite (proj2 (Z.leb_le page (page + o))), (proj2 (Z.ltb_lt (page + o) (page + PAGE_SIZE))) by lia.
    rewrite bind_kassert. replace (page + o - page) with o by lia. rewrite Hom, bind_kassert.
    rewrite (proj2 (Z.leb_le MIPS_KSEG0 _)), bind_kassert by lia.
    rewrite (proj2 (Z.ltb_lt (page + o) MIPS_KSEG1)), bind_kassert by lia.
    unfold load. mrun. rewrite Hmo. rewrite IH; [|intros; apply Hv; set_solver|done|cbn in Hf; lia].
    f_equal. f_equal. unfold zlength. cbn [length]. lia.
Qed.

Lemma checksubpage_run s ds big L d :
  km_inv s ds big L -> in_kseg0 (km_pages s) -> km_lock s = true -> d ∈ ds ->
  checksubpage (d_ref d) s = Ret (tt, s).
Proof.
  intros Hi Hk Hlk Hd. pose proof (ki_desc _ _ _ _ Hi d Hd) as Hdo.
  pose proof Hdo as [(r & Hr & Hpab & Hnf & Hoff) Hidx Hty (Hp & Ha & Ht) Hv Nd Hm].
  assert (is_u32 (d_page d)) as Hu by (unfold is_u32, two32, PAGE_SIZE in *; lia).
  destruct (Hk (d_page d) 1) as [Hk0 Hk1]; [by apply (ki_small _ _ _ _ Hi)|].
  unfold checksubpage. mrun. rewrite Hlk, bind_kassert.
  rewrite (bind_ok _ _ _ _ _ (get_ref_run (d_ref d) r s ltac:(lia) Hr)). rewrite Hoff, Hnf.
  destruct (free_bound _ _ Hty Nd Hv) as [Hle _]. destruct (szk_facts _ Hty) as (_ & _ & Hnb & _).
  pose proof (check_free_run s (d_page d) (d_type d) (d_free d) free_fuel 0) as Hrun.
  destruct (d_free d) as [|o fr]; cbn [hd]; [done|].
  destruct (Hv o ltac:(left)) as [Ho Hom].
  rewrite (proj2 (Z.eqb_neq o INVALID_OFFSET)) by (unfold INVALID_OFFSET, PAGE_SIZE in *; lia).
  rewrite (proj2 (Z.ltb_lt o PAGE_SIZE)), bind_kassert by lia.
  unfold PR_PAGEADDR, PR_BLOCKTYPE. rewrite Hpab, mkpab_page, mkpab_type by done.
  rewrite (bind_ok _ _ _ _ _ (size_of_run (d_type d) s Hty)). rewrite Hom, bind_kassert.
  assert (Hfu : (length (o :: fr) < free_fuel)%nat).
  { change free_fuel with 257%nat. unfold zlength in Hle. lia. }
  rewrite (bind_ok _ _ _ _ _ (Hrun Hp Hk0 ltac:(lia) Hv Hm Hfu)).
  by rewrite Z.add_0_l, Z.eqb_refl.
Qed.

Lemma check_list_run s ds big L (next : pageref -> option Z) l base fuel c :
  km_inv s ds big L -> in_kseg0 (km_pages s) -> km_lock s = true ->
  (forall d, d ∈ l -> d ∈ ds) -> chain next (km_refs s) base (map d_ref l) ->
  (length l < fuel)%nat -> 0 <= c -> c + zlength l <= 256 ->
  check_list fuel next base c s = Ret (c + zlength l, s).
Proof.
  intros Hi Hk Hlk. revert base fuel c. induction l as [|d l IH]; intros base fuel c Hsub Hc Hf Hc0 Hcl;
    (destruct fuel as [|fuel]; [cbn in Hf; lia|]).
  - cbn in Hc. subst base. cbn. by rewrite Z.add_0_r.
  - destruct Hc as (-> & Hr & r & Hrd & Hc). cbn [check_list].
    rewrite (bind_ok _ _ _ _ _ (checksubpage_run s ds big L d Hi Hk Hlk (Hsub d ltac:(set_solver)))).
    change NPAGEREFS with 256. unfold zlength in *. cbn [length] in *.
    rewrite (proj2 (Z.ltb_lt c 256)), bind_kassert by lia.
    rewrite (bind_ok _ _ _ _ _ (get_ref_run (d_ref d) r s ltac:(lia) Hrd)).
    rewrite IH; try done; try lia; [do 2 f_equal; lia|]. intros. apply Hsub. set_solver.
Qed.

Lemma length_filter_split ds i :
  zlength (filter (fun d => i <= d_type d) ds) =
  zlength (filter (fun d => d_type d = i) ds) + zlength (filter (fun d => i + 1 <= d_type d) ds).
Proof.
  unfold zlength. induction ds as [|d ds IH]; [done|]. rewrite !filter_cons.
  repeat case_decide; cbn [length]; lia.
Qed.

Lemma check_sizes_run s ds big L n i c :
  km_inv s ds big L -> in_kseg0 (km_pages s) -> km_lock s = true -> i + Z.of_nat n = 8 -> 0 <= i ->
  0 <= c -> c + zlength (filter (fun d => i <= d_type d) ds) <= 256 ->
  check_sizes n i c s = Ret (c + zlength (filter (fun d => i <= d_type d) ds), s).
Proof.
  intros Hi Hk Hlk. revert i c. induction n as [|n IH]; intros i c Hn Hi0 Hc Hle.
  - cbn. assert (filter (fun d => i <= d_type d) ds = []) as ->; [|cbn; by rewrite Z.add_0_r].
    assert (Hall : forall d, d ∈ ds -> d_type d < 8)
      by (intros d Hd; pose proof (do_type _ _ _ (ki_desc _ _ _ _ Hi d Hd)); lia).
    clear -Hall Hn. induction ds as [|d ds IH]; [done|]. rewrite filter_cons_False.
    + apply IH. intros. apply Hall. set_solver.
    + specialize (Hall d ltac:(set_solver)). lia.
  - destruct (li_same _ _ (ki_lists _ _ _ _ Hi) i ltac:(lia)) as (base & Hb & Hch).
    cbn [check_sizes]. rewrite length_filter_split in Hle |- *.
    pose proof (zlength_nonneg (filter (fun d => i + 1 <= d_type d) ds)).
    pose proof (zlength_nonneg (filter (fun d => d_type d = i) ds)).
    unfold load_loc at 1. mrun. rewrite (get_at_lookup _ i base) by done. mrun.
    rewrite (bind_ok _ _ _ (c + zlength (filter (fun d => d_type d = i) ds)) s).
    2: { eapply check_list_run; try done; [by intros d [_ ?]%list_elem_of_filter| |lia].
         eapply chain_len_fuel; [done|]. apply NoDup_map_filter, Hi. }
    rewrite IH by lia. do 2 f_equal. lia.
Qed.

Lemma checksubpages_run s ds big L :
  km_inv s ds big L -> in_kseg0 (km_pages s) -> km_lock s = true ->
  checksubpages s = Ret (tt, s).
Proof.
  intros Hi Hk Hlk. pose proof (ki_lists _ _ _ _ Hi) as Hli.
  pose proof (chain_length _ _ _ _ (li_all _ _ Hli) (li_nodup _ _ Hli)) as Hlen. rewrite length_map in Hlen.
  assert (Hf : filter (fun d => 0 <= d_type d) ds = ds).
  { assert (Hall : forall d, d ∈ ds -> 0 <= d_type d)
      by (intros d Hd; by destruct (do_type _ _ _ (ki_desc _ _ _ _ Hi d Hd))).
    clear -Hall. induction ds as [|d ds IH]; [done|].
    rewrite filter_cons_True, IH by (set_solver || (apply Hall; set_solver)). done. }
  unfold checksubpages. mrun. rewrite Hlk, bind_kassert.
  rewrite (bind_ok _ _ _ (zlength ds) s).
  2: { rewrite (check_sizes_run s ds big L) by (try done; rewrite ?Hf; unfold zlength; lia).
       by rewrite Hf. }
  change (load_loc LAllBase) with (fun st : kms P => Ret (km_allbase st, st)).
  rewrite (bind_ok _ _ s (km_allbase s) s eq_refl).
  rewrite (bind_ok _ _ _ (zlength ds) s); [by rewrite Z.eqb_refl|].
  rewrite <- (Z.add_0_l (zlength ds)).
  eapply check_list_run; try done; [apply Hli|eapply chain_len_fuel; apply Hli|unfold zlength; lia].
Qed.

(** The consistency checks that kmalloc.c has for debugging never fail:
    after any run of a caller that keeps to the rules, with pages from the
    direct-mapped kernel segment, [checksubpages] called with the lock held
    returns without a failing assertion and without a change. *)
Theorem heap_passes_checks client n x hist s :
  pages_ok x ->
  (forall hist L op, heap_steps ∅ hist L -> client hist = Some op -> heap_legal L op) ->
  client_run n client [] (km_boot x) = Ret (hist, s) -> in_kseg0 (km_pages s) ->
  checksubpages (set_lock s true) = Ret (tt, set_lock s true).
Proof.
  intros Hok Hleg E Hk.
  destruct (client_run_correct client n [] (km_boot x) ∅ Hleg) as (hist' & s' & L & E' & _ & _ & ds & big & Hi);
    [constructor|by apply boot_state|].
  rewrite E in E'. injection E' as <- <-. by eapply checksubpages_run; [apply inv_lock|..].
Qed.

End spec.

(** ** The kernel heap as an instance of the interface *)

(** The allocator with its live blocks. *)
Record kheap (P : Type) := mk_kheap { kh_state : kms P; kh_live : gmap Z Z }.
Arguments mk_kheap {P} _ _.
Arguments kh_state {P} _.
Arguments kh_live {P} _.

Section instance.
Context {P : Type} `{KPages P}.

Definition kh_kmalloc (sz : Z) : M (kheap P) Z := fun h =>
  match kmalloc sz (kh_state h) with
  | Ret (p, s) => Ret (p, mk_kheap s (if p =? 0 then kh_live h else <[p := sz]> (kh_live h)))
  | Panic => Panic | Fault => Fault | NoFuel => NoFuel
  end.

Definition kh_kfree (p : Z) : M (kheap P) unit := fun h =>
  match kfree p (kh_state h) with
  | Ret (_, s) => Ret (tt, mk_kheap s (if p =? 0 then kh_live h else delete p (kh_live h)))
  | Panic => Panic | Fault => Fault | NoFuel => NoFuel
  end.

Definition kh_ok (h : kheap P) : Prop := heap_state (kh_state h) (kh_live h).

#[export, refine] Instance kmalloc_heap : KHeap (kheap P) := {|
  Heap.kmalloc := kh_kmalloc; Heap.kfree := kh_kfree; heap_ok := kh_ok; live := kh_live |}.
Proof.
  - intros sz h (Hlk & ds & big & Hi) Hsz. unfold kh_kmalloc.
    destruct (kmalloc_correct _ _ _ _ sz Hi Hlk Hsz) as (p & s' & big' & -> & ds' & Hlk' & Hc).
    eexists p, _. split; [done|]. destruct Hc as [[-> Hi']|(Hp & Hnew & Hi')]; cbn [Z.eqb].
    + split; [split; [done|eauto]|]. by left.
    + rewrite (proj2 (Z.eqb_neq p 0)) by lia. split; [split; [done|eauto]|]. by right.
  - intros p h Hst Hl. unfold kh_kfree.
    destruct (kfree_correct _ _ p Hst Hl) as (s' & -> & Hst'). eexists. split; [done|].
    destruct Hst as (_ & ds & big & Hi). destruct Hl as [sz Hl].
    destruct (live_place _ _ _ _ _ _ Hi Hl) as (Hp & _).
    rewrite (proj2 (Z.eqb_neq p 0)) by lia. done.
  - intros [s L] _. done.
  - intros h p q n m (_ & ds & big & Hi) Hp Hq Hne. by eapply live_blocks_disjoint.
Defined.

End instance.

(** ** A reference page allocator

    Page runs at increasing addresses, up to a limit, never reused. *)
Module RefPages.

Record t := mk { rp_runs : gmap Z Z; rp_next : Z; rp_limit : Z }.

Definition alloc (n : Z) : M t Z := fun x =>
  if (rp_next x + n) * PAGE_SIZE <=? rp_limit x
  then Ret (rp_next x * PAGE_SIZE,
            mk (<[rp_next x * PAGE_SIZE := n]> (rp_runs x)) (rp_next x + n) (rp_limit x))
  else Ret (0, x).

Definition free (a : Z) : M t unit := fun x =>
  Ret (tt, mk (delete a (rp_runs x)) (rp_next x) (rp_limit x)).

Definition ok (x : t) : Prop :=
  0 < rp_next x /\ rp_limit x <= two32 /\
  (forall a n, rp_runs x !! a = Some n -> 0 < a /\ 0 < n /\ a mod PAGE_SIZE = 0 /\
     a + n * PAGE_SIZE <= rp_next x * PAGE_SIZE /\ a + n * PAGE_SIZE <= rp_limit x) /\
  (forall a b n m, rp_runs x !! a = Some n -> rp_runs x !! b = Some m -> a <> b ->
     a + n * PAGE_SIZE <= b \/ b + m * PAGE_SIZE <= a).

Definition init (lim : Z) : t := mk ∅ 1 lim.

Lemma pages_init_ok lim : lim <= two32 -> ok (init lim).
Proof. intros Hl. unfold ok; cbn. split_and!; [lia|done|intros *; by rewrite lookup_empty..]. Qed.

#[global, refine] Instance ref_pages : KPages t := {|
  kpages_alloc := alloc; kpages_free := free; pages_ok := ok; runs := rp_runs |}.
Proof.
  - intros n x (Hn & Hl & Hr & Hd) Hpos. unfold alloc.
    destruct (Z.leb_spec ((rp_next x + n) * PAGE_SIZE) (rp_limit x)).
    2: { exists 0, x. split_and!; try done. by left. }
    assert (Hfr : rp_runs x !! (rp_next x * PAGE_SIZE) = None).
    { destruct (_ !! _) eqn:E; [|done]. apply Hr in E. unfold PAGE_SIZE in *. lia. }
    eexists _, _. split; [done|]. split; [|by right].
    split; [cbn; lia|]. split; [done|]. cbn [rp_runs rp_next rp_limit]. split.
    + intros a m. rewrite lookup_insert. case_decide as Ha.
      * intros [= <-]. subst a. rewrite Z.mod_mul by done. unfold PAGE_SIZE in *. split_and!; try lia.
      * intros E. apply Hr in E. unfold PAGE_SIZE in *. split_and!; try tauto; lia.
    + intros a b m k. rewrite !lookup_insert.
      do 2 case_decide; try congruence; intros Ha Hb Hne;
        [apply Hr in Hb|apply Hr in Ha|by eapply Hd]; lia.
  - intros a x (Hn & Hl & Hr & Hd) _. eexists. split; [done|]. split; [|done].
    split; [done|]. split; [done|]. cbn. split.
    + intros b n [_ Hb]%lookup_delete_Some. by apply Hr.
    + intros b c n m [_ Hb]%lookup_delete_Some [_ Hc]%lookup_delete_Some. by apply Hd.
  - intros x a n (_ & Hl & Hr & _) Ha. apply Hr in Ha. split_and!; try tauto. lia.
  - intros x a b n m (_ & _ & _ & Hd). apply Hd.
Defined.

End RefPages.

(** A caller that takes a small and a large block and gives the small one
    back. *)
Definition demo_client (hist : list (heap_op * Z)) : option heap_op :=
  match hist with
  | [] => Some (Alloc 100)
  | [_] => Some (Alloc 5000)
  | [(Alloc _, p); (Alloc _, _)] => Some (Free p)
  | _ => None
  end.

Lemma heap_steps_inv L tr L' :
  heap_steps L tr L' ->
  tr = [] /\ L' = L \/
  exists tr' op r L1, tr = tr' ++ [(op, r)] /\ heap_steps L tr' L1 /\ heap_step L1 op r L'.
Proof. intros [|tr' op r L1 L2 H1 H2]; [by left|right]. exists tr', op, r, L1. done. Qed.

Lemma demo_legal hist L op : heap_steps ∅ hist L -> demo_client hist = Some op -> heap_legal L op.
Proof.
  intros Hs. destruct hist as [|[o1 p1] [|[o2 p2] [|]]]; cbn [demo_client].
  - intros [= <-]. cbn. unfold heap_max. lia.
  - destruct o1; intros [= <-]; cbn; unfold heap_max; lia.
  - destruct o1 as [z1|]; [|done].
    destruct o2 as [z2|]; [|done]. intros [= <-].
    apply heap_steps_inv in Hs as [[? _]|(tr & op & r & L1 & E & Hs & H2)]; [done|].
    change [(Alloc z1, p1); (Alloc z2, p2)] with ([(Alloc z1, p1)] ++ [(Alloc z2, p2)]) in E.
    apply app_inj_tail in E as [<- [= <- <-]].
    apply heap_steps_inv in Hs as [[? _]|(tr & op & r & L2 & E & Hs & H1)]; [done|].
    change [(Alloc z1, p1)] with ([] ++ [(Alloc z1, p1)]) in E. apply app_inj_tail in E as [<- [= <- <-]].
    inversion H1; subst; cbn; [by left|right]. inversion H2; subst; rewrite ?lookup_insert; repeat case_decide; eauto; done.
  - by destruct o1, o2.
Qed.


Lemma heap_passes_checks_witness :
  exists hist s, client_run 3 demo_client [] (km_boot (RefPages.mk ∅ 524289 2147549184)) = Ret (hist, s) /\
    checksubpages (set_lock s true) = Ret (tt, set_lock s true).
Proof.
  destruct (client_run 3 demo_client [] (km_boot (RefPages.mk ∅ 524289 2147549184)))
    as [[hist s]| | |] eqn:E; [|by vm_compute in E..].
  exists hist, s. split; [done|].
  apply (heap_passes_checks demo_client 3 (RefPages.mk ∅ 524289 2147549184) hist s).
  - split_and!; cbn; [lia|unfold two32; lia|intros *; by rewrite lookup_empty..].
  - exact demo_legal.
  - exact E.
  - assert (runs (km_pages s) = {[ 2147491840 := 2 ]}) as Er.
    { vm_compute in E. injection E as _ <-. reflexivity. }
    intros a n. rewrite Er. intros [<- <-]%lookup_singleton_Some.
    unfold MIPS_KSEG0, MIPS_KSEG1, PAGE_SIZE. lia.
Defined.
