(* ===== verification/Proc.v ===== *)
(** * Processes (kern/proc/proc.c, kern/syscall/proc_syscalls.c, kern/startup/menu.c)

    The process table and the system calls [fork], [_exit], [waitpid] and
    [getpid], with the kernel menu that starts programs and waits for them.
    Every process has one thread; threads interleave. A system call is cut
    into the pieces between the points where another thread can get in the way
    of shared data: [pc] says where in the kernel a thread is, and [run_step]
    runs the next piece. The lock [lk_tb] and the condition variables are
    modelled by their owner and their sleepers; the sections under
    [proc_count_mutex] and [lk_pid] contain nothing that blocks and are one
    piece each. The results of calls into other parts of the kernel (memory,
    files, threads) are inputs of the step. *)

From stdpp Require Import base numbers list gmap.
From Stdlib Require Import ZArith Lia.
From S2P Require Import Prelude.

(** ** Data *)

(** The fields of [struct proc] that the code reads; [cv_sleepers] are the
    threads asleep on [cv_child]. *)
Record proc := mk_proc {
  p_threads : list Z;
  p_addrspace : option Z;
  p_cwd : option Z;
  console : option Z;
  pid : Z;
  countChild : Z;
  childArray : list Z;
  isAlive : bool;
  code : Z;
  status : Z;
  cv_sleepers : list Z
}.

(** Who asked for a new process. *)
Inductive creator := ByFork | ByMenu.

Inductive pc :=
  | User
  | CreatePid (by_ : creator) (p : Z)
  | ForkCopy (p : Z) | ForkThread (p : Z) | ForkReturn (p : Z)
  | ExitLock (exitcode : Z) | ExitMark (exitcode : Z) | ExitUnlock
  | ExitAs | ExitRem | ExitDestroy (p : Z) | Exited
  | WaitLock (pid ptr : Z) | WaitTest (pid ptr : Z) | WaitSleep (pid ptr : Z)
  | WaitUnlock (pid ptr exitstatus : Z) | WaitCopy (pid ptr exitstatus : Z)
  | Menu | RunThread (p : Z) | MenuWait
  | Loading.

Record thread := mk_thread { t_proc : option Z; t_pc : pc }.

Record kst := mk_kst {
  procs : gmap Z proc;
  threads : gmap Z thread;
  counter_pid : Z;
  procTable : list (option Z);
  exitTable : list Z;
  aliveTable : list bool;
  lk_tb : option Z;
  proc_count : Z;
  no_proc_sem : Z;
  vrefs : Z -> Z
}.

Definition kproc : Z := 1.
Definition menu_thread : Z := 0.
Definition NPROC : Z := 64.

Definition set_procs s x := mk_kst x (threads s) (counter_pid s) (procTable s) (exitTable s) (aliveTable s) (lk_tb s) (proc_count s) (no_proc_sem s) (vrefs s).
Definition set_threads s x := mk_kst (procs s) x (counter_pid s) (procTable s) (exitTable s) (aliveTable s) (lk_tb s) (proc_count s) (no_proc_sem s) (vrefs s).
Definition set_tables s c pt := mk_kst (procs s) (threads s) c pt (exitTable s) (aliveTable s) (lk_tb s) (proc_count s) (no_proc_sem s) (vrefs s).
Definition set_exits s et al := mk_kst (procs s) (threads s) (counter_pid s) (procTable s) et al (lk_tb s) (proc_count s) (no_proc_sem s) (vrefs s).
Definition set_lk_tb s x := mk_kst (procs s) (threads s) (counter_pid s) (procTable s) (exitTable s) (aliveTable s) x (proc_count s) (no_proc_sem s) (vrefs s).
Definition set_count s c n := mk_kst (procs s) (threads s) (counter_pid s) (procTable s) (exitTable s) (aliveTable s) (lk_tb s) c n (vrefs s).
Definition set_vrefs s x := mk_kst (procs s) (threads s) (counter_pid s) (procTable s) (exitTable s) (aliveTable s) (lk_tb s) (proc_count s) (no_proc_sem s) x.

Definition with_threads pr x := mk_proc x (p_addrspace pr) (p_cwd pr) (console pr) (pid pr) (countChild pr) (childArray pr) (isAlive pr) (code pr) (status pr) (cv_sleepers pr).
Definition with_as pr x := mk_proc (p_threads pr) x (p_cwd pr) (console pr) (pid pr) (countChild pr) (childArray pr) (isAlive pr) (code pr) (status pr) (cv_sleepers pr).
Definition with_pid pr x := mk_proc (p_threads pr) (p_addrspace pr) (p_cwd pr) (console pr) x 0 (childArray pr) true (code pr) (status pr) (cv_sleepers pr).
Definition with_child pr n l := mk_proc (p_threads pr) (p_addrspace pr) (p_cwd pr) (console pr) (pid pr) n l (isAlive pr) (code pr) (status pr) (cv_sleepers pr).
Definition with_exit pr c st := mk_proc (p_threads pr) (p_addrspace pr) (p_cwd pr) (console pr) (pid pr) (countChild pr) (childArray pr) false c st (cv_sleepers pr).
Definition with_sleepers pr x := mk_proc (p_threads pr) (p_addrspace pr) (p_cwd pr) (console pr) (pid pr) (countChild pr) (childArray pr) (isAlive pr) (code pr) (status pr) x.

(** ** Encoding of exit codes (kern/include/kern/wait.h) *)

Definition __WEXITED : Z := 0.
Definition _MKWVAL (x : Z) : Z := s32 (Z.shiftl x 2).
Definition _MKWAIT_EXIT (x : Z) : Z := Z.lor (_MKWVAL x) __WEXITED.
Definition _WWHAT (x : Z) : Z := Z.land x 3.
Definition _WVAL (x : Z) : Z := Z.shiftr x 2.
Definition WIFEXITED (x : Z) : bool := _WWHAT x =? __WEXITED.
Definition WEXITSTATUS (x : Z) : Z := _WVAL x.

(** ** Access to the state *)

(** Reading through a pointer to a process that has been freed is undefined. *)
Definition get_proc (p : Z) : M kst proc :=
  let* s := get in
  match procs s !! p with Some pr => ret pr | None => fault end.
Definition put_proc (p : Z) (pr : proc) : M kst unit :=
  modify (fun s => set_procs s (<[p := pr]> (procs s))).

Definition get_thread (t : Z) : M kst thread :=
  let* s := get in
  match threads s !! t with Some th => ret th | None => fault end.
Definition put_thread (t : Z) (th : thread) : M kst unit :=
  modify (fun s => set_threads s (<[t := th]> (threads s))).
Definition set_pc (t : Z) (c : pc) : M kst unit :=
  let* th := get_thread t in put_thread t (mk_thread (t_proc th) c).

(** [curproc] of the thread [t]. *)
Definition curproc (t : Z) : M kst (Z * proc) :=
  let* th := get_thread t in
  match t_proc th with
  | Some p => let* pr := get_proc p in ret (p, pr)
  | None => fault
  end.

Definition VOP_INCREF (v : Z) : M kst unit :=
  modify (fun s => set_vrefs s (fun x => if x =? v then vrefs s x + 1 else vrefs s x)).
Definition VOP_DECREF (v : Z) : M kst unit :=
  modify (fun s => set_vrefs s (fun x => if x =? v then vrefs s x - 1 else vrefs s x)).

(** ** proc.c *)

(** What the calls made while a process is created return: the block for the
    process (0: none), whether the name and the console path could be copied,
    the console's vnode, whether the lock and the condition variable could be
    made. *)
Record create_env := mk_env {
  e_proc : Z; e_name : bool; e_path : bool; e_console : option Z; e_lock : bool; e_cv : bool
}.

(** The fields that [proc_create] leaves unset are set before they are read. *)
Definition fresh_proc : proc :=
  mk_proc [] None None None 0 0 (replicate 64 0) true 0 0 [].

Definition proc_create (e : create_env) : M kst Z :=
  if e_proc e =? 0 then ret 0
  else if negb (e_name e) then ret 0
  else do* put_proc (e_proc e) fresh_proc in ret (e_proc e).

(** [proc_create_runprogram] up to and including the process count. *)
Definition proc_create_runprogram (t : Z) (e : create_env) : M kst Z :=
  let* p := proc_create e in
  if p =? 0 then ret 0
  else
    do* kassert (e_path e) in
    match e_console e with
    | None => panic
    | Some v =>
        do* VOP_INCREF v in
        let* (_, cur) := curproc t in
        do* match p_cwd cur with Some c => VOP_INCREF c | None => ret tt end in
        do* put_proc p (mk_proc [] None (p_cwd cur) (Some v) 0 0 (replicate 64 0) true 0 0 []) in
        do* modify (fun s => set_count s (proc_count s + 1) (no_proc_sem s)) in
        ret p
    end.

(** The rest of it: the process gets its number, lock and condition variable. *)
Definition proc_assign_pid (p : Z) (e : create_env) : M kst Z :=
  let* s := get in
  let* pr := get_proc p in
  let* pt := lift (set_at (procTable s) (counter_pid s - 2) (Some p)) in
  do* put_proc p (with_pid pr (counter_pid s)) in
  do* modify (fun s => set_tables s (counter_pid s + 1) pt) in
  do* kassert (e_lock e) in
  if negb (e_cv e) then
    do* modify (fun s => set_procs s (delete p (procs s))) in
    ret 0
  else ret p.

Definition proc_destroy (p : Z) : M kst unit :=
  do* kassert (negb (p =? 0)) in
  do* kassert (negb (p =? kproc)) in
  let* pr := get_proc p in
  do* match p_cwd pr with Some v => VOP_DECREF v | None => ret tt end in
  do* match console pr with Some v => VOP_DECREF v | None => ret tt end in
  let* s := get in
  let* q := lift (get_at (procTable s) (pid pr - 2)) in
  match q with
  | None => fault
  | Some q =>
      let* prq := get_proc q in
      do* kassert (bool_decide (cv_sleepers prq = [])) in
      do* kassert (bool_decide (p_threads pr = [])) in
      do* modify (fun s => set_procs s (delete p (procs s))) in
      let* s := get in
      do* kassert (0 <? proc_count s) in
      let c := proc_count s - 1 in
      put (set_count s c (if c =? 0 then no_proc_sem s + 1 else no_proc_sem s))
  end.

(** [result] is what [threadarray_add] returns. *)
Definition proc_addthread (p t result : Z) : M kst Z :=
  let* th := get_thread t in
  do* kassert (bool_decide (t_proc th = None)) in
  let* pr := get_proc p in
  if result =? 0 then
    do* put_proc p (with_threads pr (p_threads pr ++ [t])) in
    do* put_thread t (mk_thread (Some p) (t_pc th)) in
    ret 0
  else ret result.

Definition proc_remthread (t : Z) : M kst unit :=
  let* th := get_thread t in
  match t_proc th with
  | None => panic
  | Some p =>
      let* pr := get_proc p in
      match list_find (fun u => u = t) (p_threads pr) with
      | Some (i, _) =>
          do* put_proc p (with_threads pr (delete i (p_threads pr))) in
          put_thread t (mk_thread None (t_pc th))
      | None => panic
      end
  end.

Definition curproc_setas (t : Z) (newas : option Z) : M kst (option Z) :=
  let* (p, pr) := curproc t in
  do* put_proc p (with_as pr newas) in
  ret (p_addrspace pr).

(** [proc_bootstrap]; [cwd] is the directory that the kernel starts in. *)
Definition proc_bootstrap (cwd : option Z) : kst :=
  mk_kst {[ kproc := mk_proc [menu_thread] None cwd None 0 0 (replicate 64 0) true 0 0 [] ]}
         {[ menu_thread := mk_thread (Some kproc) Menu ]}
         2 (replicate 64 None) (replicate 64 0) (replicate 64 true) None 0 0
         (fun v => if bool_decide (cwd = Some v) then 1 else 0).

(** ** Condition variables *)

(** The caller must own the lock. *)
Definition cv_broadcast (t p : Z) : M kst unit :=
  let* s := get in
  do* kassert (bool_decide (lk_tb s = Some t)) in
  let* pr := get_proc p in
  do* put_proc p (with_sleepers pr []) in
  modify (fun s => set_threads s (foldr (fun u m =>
    match m !! u with
    | Some (mk_thread q (WaitSleep k ptr)) => <[u := mk_thread q (WaitLock k ptr)]> m
    | _ => m
    end) (threads s) (cv_sleepers pr))).

(** ** The system calls, piece by piece *)

(** What a step shows to the outside: the values a call returns, the exit of a
    process, the status that [waitpid] copies out. *)
Inductive obs :=
  | Silent
  | Returned (err retval : Z)
  | ExitedWith (pid exitcode : Z)
  | CopiedOut (ptr pid exitstatus : Z).

(** What a thread in user mode, in the menu or inside the kernel does next,
    with the results of the calls into other parts of the kernel. *)
Inductive event :=
  | Getpid
  | Exit (exitcode : Z)
  | Waitpid (pid ptr options : Z)
  | Fork (e : create_env)
  | Run (e : create_env)
  | Assign (e : create_env)
  | CopyAs (result asid : Z)
  | StartThread (tf : bool) (result tid : Z)
  | Load (result asid : Z)
  | Copyout (result : Z)
  | Continue.

(** [isExist]: is [pid] one of the recorded children? *)
Definition isExist (pr : proc) (pid : Z) : M kst bool :=
  let* r := for_ret (Z.to_nat (countChild pr)) 0 (fun i =>
    let* c := lift (get_at (childArray pr) i) in
    if c =? pid then ret (Some tt) else ret None) in
  match r with Some _ => ret true | None => ret false end.

Definition sys_getpid (t : Z) : M kst obs :=
  let* (_, pr) := curproc t in ret (Returned 0 (pid pr)).

Definition sys__exit (t exitcode : Z) : M kst obs :=
  let* (_, pr) := curproc t in
  do* kassert (bool_decide (p_addrspace pr <> None)) in
  do* set_pc t (ExitLock exitcode) in
  ret Silent.

(** Under [lk_tb]: the tables are set and the waiters woken. *)
Definition exit_mark (t exitcode : Z) : M kst obs :=
  let* (p, pr) := curproc t in
  do* put_proc p (with_exit pr exitcode (_MKWAIT_EXIT exitcode)) in
  let* s := get in
  let* et := lift (set_at (exitTable s) (pid pr - 2) exitcode) in
  let* al := lift (set_at (aliveTable s) (pid pr - 2) false) in
  do* put (set_exits s et al) in
  do* cv_broadcast t p in
  do* set_pc t ExitUnlock in
  ret (ExitedWith (pid pr) exitcode).

Definition exit_as (t : Z) : M kst obs :=
  let* old := curproc_setas t None in
  match old with
  | None => fault
  | Some _ => do* set_pc t ExitRem in ret Silent
  end.

Definition exit_rem (t : Z) : M kst obs :=
  let* th := get_thread t in
  match t_proc th with
  | None => panic
  | Some p =>
      do* proc_remthread t in
      do* set_pc t (ExitDestroy p) in
      ret Silent
  end.

Definition exit_destroy (t p : Z) : M kst obs :=
  do* proc_destroy p in
  do* set_pc t Exited in
  ret Silent.

Definition sys_waitpid (t pid ptr options : Z) : M kst obs :=
  if negb (options =? 0) then ret (Returned EINVAL 0)
  else if ptr =? 0 then ret (Returned EFAULT 0)
  else
    let* (_, pr) := curproc t in
    let* child_flag := isExist pr pid in
    if negb child_flag then ret (Returned ECHILD 0)
    else do* set_pc t (WaitLock pid ptr) in ret Silent.

(** The test of the loop, with [lk_tb] held: sleep, or read the exit code. *)
Definition wait_test (t pid ptr : Z) : M kst obs :=
  let* s := get in
  let* alive := lift (get_at (aliveTable s) (pid - 2)) in
  if (alive : bool) then
    let* q := lift (get_at (procTable s) (pid - 2)) in
    match q with
    | None => fault
    | Some q =>
        let* prq := get_proc q in
        do* kassert (bool_decide (lk_tb s = Some t)) in
        do* put_proc q (with_sleepers prq (t :: cv_sleepers prq)) in
        do* modify (fun s => set_lk_tb s None) in
        do* set_pc t (WaitSleep pid ptr) in
        ret Silent
    end
  else
    let* exitcode := lift (get_at (exitTable s) (pid - 2)) in
    do* set_pc t (WaitUnlock pid ptr (_MKWAIT_EXIT exitcode)) in
    ret Silent.

Definition wait_copy (t pid ptr exitstatus result : Z) : M kst obs :=
  do* set_pc t User in
  if result =? 0 then ret (CopiedOut ptr pid exitstatus) else ret (Returned result 0).

(** [sys_fork] up to the process count. *)
Definition sys_fork (t : Z) (e : create_env) : M kst obs :=
  let* p := proc_create_runprogram t e in
  if p =? 0 then ret (Returned ENOMEM 1)
  else do* set_pc t (CreatePid ByFork p) in ret Silent.

Definition create_pid (t : Z) (by_ : creator) (p : Z) (e : create_env) : M kst obs :=
  let* q := proc_assign_pid p e in
  match by_ with
  | ByFork => if q =? 0 then do* set_pc t User in ret (Returned ENOMEM 1)
              else do* set_pc t (ForkCopy p) in ret Silent
  | ByMenu => if q =? 0 then do* set_pc t Menu in ret (Returned ENOMEM 0)
              else do* set_pc t (RunThread p) in ret Silent
  end.

Definition fork_copy (t p result asid : Z) : M kst obs :=
  let* child := get_proc p in
  if 0 <? pid child then
    if negb (result =? 0) then
      do* proc_destroy p in
      do* set_pc t User in
      ret (Returned result 0)
    else
      do* put_proc p (with_as child (Some asid)) in
      let* (q, pr) := curproc t in
      let* l := lift (set_at (childArray pr) (countChild pr) (pid child)) in
      do* put_proc q (with_child pr (countChild pr + 1) l) in
      do* set_pc t (ForkThread p) in
      ret Silent
  else
    do* proc_destroy p in
    do* set_pc t User in
    ret (Returned 0 0).

(** [thread_fork] with a fresh thread [tid]: it is attached to the process. *)
Definition thread_fork (p result tid : Z) (start : pc) : M kst Z :=
  if negb (result =? 0) then ret result
  else
    do* put_thread tid (mk_thread None start) in
    proc_addthread p tid 0.

(** [tf]: whether there was memory for the trap frame, which is not checked. *)
Definition fork_thread (t p : Z) (tf : bool) (result tid : Z) : M kst obs :=
  do* (if tf then ret tt else fault) in
  let* r := thread_fork p result tid User in
  if negb (r =? 0) then
    do* proc_destroy p in
    do* set_pc t User in
    ret (Returned r 0)
  else do* set_pc t (ForkReturn p) in ret Silent.

(** [*retval = childProc->pid], after the child may have run. *)
Definition fork_return (t p : Z) : M kst obs :=
  let* child := get_proc p in
  do* set_pc t User in
  ret (Returned 0 (pid child)).

(** [common_prog] of the menu. *)
Definition common_prog (t : Z) (e : create_env) : M kst obs :=
  let* p := proc_create_runprogram t e in
  if p =? 0 then ret (Returned ENOMEM 0)
  else do* set_pc t (CreatePid ByMenu p) in ret Silent.

Definition run_thread (t p result tid : Z) : M kst obs :=
  let* r := thread_fork p result tid Loading in
  if negb (r =? 0) then
    do* proc_destroy p in
    do* set_pc t Menu in
    ret (Returned r 0)
  else do* set_pc t MenuWait in ret Silent.

(** [P(no_proc_sem)]. *)
Definition menu_wait (t : Z) : M kst obs :=
  do* modify (fun s => set_count s (proc_count s) (no_proc_sem s - 1)) in
  do* set_pc t Menu in
  ret (Returned 0 0).

(** [runprogram]: the new process gets an address space and enters user mode;
    when it fails the thread returns to [thread_exit], which asserts that it
    is not in a user process. *)
Definition load_program (t result asid : Z) : M kst obs :=
  if result =? 0 then
    let* _ := curproc_setas t (Some asid) in
    do* set_pc t User in
    ret Silent
  else
    let* th := get_thread t in
    do* kassert (bool_decide (t_proc th = Some kproc \/ t_proc th = None)) in
    do* set_pc t Exited in
    ret Silent.

Definition lock_tb (t : Z) (next : pc) : M kst obs :=
  do* modify (fun s => set_lk_tb s (Some t)) in
  do* set_pc t next in
  ret Silent.
Definition unlock_tb (t : Z) (next : pc) : M kst obs :=
  let* s := get in
  do* kassert (bool_decide (lk_tb s = Some t)) in
  do* put (set_lk_tb s None) in
  do* set_pc t next in
  ret Silent.

(** ** Steps *)

Definition fresh_id (s : kst) (x : Z) : bool :=
  bool_decide (procs s !! x = None) && bool_decide (threads s !! x = None) && (kproc <? x).

Definition fresh_env (s : kst) (e : create_env) : bool := (e_proc e =? 0) || fresh_id s (e_proc e).

(** The step of thread [t] on event [ev]; [None] when [t] cannot take it. *)
Definition run_step (t : Z) (ev : event) (s : kst) : option (M kst obs) :=
  match threads s !! t with
  | None => None
  | Some th =>
      match t_pc th, ev with
      | User, Getpid => Some (sys_getpid t)
      | User, Exit c => Some (sys__exit t c)
      | User, Waitpid k ptr options => Some (sys_waitpid t k ptr options)
      | User, Fork e => if fresh_env s e then Some (sys_fork t e) else None
      | Menu, Run e => if fresh_env s e then Some (common_prog t e) else None
      | CreatePid b p, Assign e => Some (create_pid t b p e)
      | ForkCopy p, CopyAs result asid => Some (fork_copy t p result asid)
      | ForkThread p, StartThread tf result tid =>
          if fresh_id s tid then Some (fork_thread t p tf result tid) else None
      | RunThread p, StartThread _ result tid =>
          if fresh_id s tid then Some (run_thread t p result tid) else None
      | ForkReturn p, Continue => Some (fork_return t p)
      | Loading, Load result asid => Some (load_program t result asid)
      | ExitLock c, Continue =>
          if bool_decide (lk_tb s = None) then Some (lock_tb t (ExitMark c)) else None
      | ExitMark c, Continue => Some (exit_mark t c)
      | ExitUnlock, Continue => Some (unlock_tb t ExitAs)
      | ExitAs, Continue => Some (exit_as t)
      | ExitRem, Continue => Some (exit_rem t)
      | ExitDestroy p, Continue => Some (exit_destroy t p)
      | WaitLock k ptr, Continue =>
          if bool_decide (lk_tb s = None) then Some (lock_tb t (WaitTest k ptr)) else None
      | WaitTest k ptr, Continue => Some (wait_test t k ptr)
      | WaitUnlock k ptr st, Continue => Some (unlock_tb t (WaitCopy k ptr st))
      | WaitCopy k ptr st, Copyout result => Some (wait_copy t k ptr st result)
      | MenuWait, Continue => if 0 <? no_proc_sem s then Some (menu_wait t) else None
      | _, _ => None
      end
  end.

(** Executions from boot, with what they show. *)
Inductive reachable (cwd : option Z) (ok : event -> Prop) : kst -> list obs -> Prop :=
| reach_boot : reachable cwd ok (proc_bootstrap cwd) []
| reach_step s h t ev m o s' :
    reachable cwd ok s h -> ok ev -> run_step t ev s = Some m -> m s = Ret (o, s') ->
    reachable cwd ok s' (h ++ [o]).
