(* ===== verification/ProcSpec.v ===== *)
(** * Processes: invariant and theorems

    The invariant of the process table under all interleavings of the steps of
    Proc.v, and what follows from it for [waitpid], [fork] and the menu. *)

From stdpp Require Import base numbers list gmap.
From Stdlib Require Import ZArith Lia.
From S2P Require Import Prelude Proc.

(** ** Exit codes *)

(** What [waitpid] hands out decodes to the exit code: for a code of at
    most 30 bits the status says that the process exited, with that code. *)
Theorem wait_status_roundtrip c :
  - 2 ^ 29 <= c < 2 ^ 29 ->
  WIFEXITED (_MKWAIT_EXIT c) = true /\ WEXITSTATUS (_MKWAIT_EXIT c) = c.
Proof.
  intros Hc. unfold WIFEXITED, WEXITSTATUS, _WWHAT, _WVAL, _MKWAIT_EXIT, _MKWVAL, __WEXITED.
  rewrite Z.lor_0_r, Z.shiftl_mul_pow2 by lia. rewrite s32_id by (unfold is_s32; lia). split.
  - change 3 with (Z.ones 2). rewrite Z.land_ones by lia. rewrite Z.mod_mul by lia. done.
  - rewrite Z.shiftr_div_pow2 by lia. apply Z.div_mul. lia.
Qed.

Lemma wait_status_roundtrip_witness :
  WIFEXITED (_MKWAIT_EXIT (-7)) = true /\ WEXITSTATUS (_MKWAIT_EXIT (-7)) = -7.
Proof. apply (wait_status_roundtrip (-7)). lia. Defined.

(** ** Where a thread is *)

Definition is_menu (c : pc) : bool :=
  match c with Menu | MenuWait | CreatePid ByMenu _ | RunThread _ => true | _ => false end.
(** The thread belongs to a process. *)
Definition attached (c : pc) : bool :=
  match c with ExitDestroy _ | Exited => false | _ => true end.
(** The process has not yet announced its exit. *)
Definition before_mark (c : pc) : bool :=
  match c with ExitUnlock | ExitAs | ExitRem => false | _ => true end.
Definition has_as (c : pc) : bool := match c with Loading | ExitRem => false | _ => true end.
(** The thread holds [lk_tb]. *)
Definition locked (c : pc) : bool :=
  match c with ExitMark _ | ExitUnlock | WaitTest _ _ | WaitUnlock _ _ _ => true | _ => false end.
(** The process without threads that the thread works on. *)
Definition owns (c : pc) : option Z :=
  match c with
  | CreatePid _ p | ForkCopy p | ForkThread p | RunThread p | ExitDestroy p => Some p
  | _ => None
  end.
(** The child that the thread waits for. *)
Definition waits (c : pc) : option Z :=
  match c with
  | WaitLock k _ | WaitTest k _ | WaitSleep k _ | WaitUnlock k _ _ | WaitCopy k _ _ => Some k
  | _ => None
  end.

Definition kids (pr : proc) : list Z := take (Z.to_nat (countChild pr)) (childArray pr).
Definition alive (s : kst) (k : Z) : option bool := aliveTable s !! Z.to_nat (k - 2).
Definition table (s : kst) (k : Z) : option (option Z) := procTable s !! Z.to_nat (k - 2).

(** ** The invariant *)

(** The process that a thread at [c] works on. *)
Definition owned_ok (s : kst) (c : pc) (p : Z) (pr : proc) : Prop :=
  p_threads pr = [] /\
  match c with
  | CreatePid _ _ => pid pr = 0 /\ countChild pr = 0
  | ForkCopy _ | RunThread _ =>
      2 <= pid pr /\ alive s (pid pr) = Some true /\ countChild pr = 0 /\
      forall q prq, procs s !! q = Some prq -> pid pr ∉ kids prq
  | ForkThread _ => 2 <= pid pr /\ alive s (pid pr) = Some true /\ p_addrspace pr <> None
  | _ => 2 <= pid pr /\ alive s (pid pr) = Some false
  end.

(** The process that a thread at [c] runs in. *)
Definition member_ok (s : kst) (t : Z) (c : pc) (q : Z) (pr : proc) : Prop :=
  p_threads pr = [t] /\
  if is_menu c then q = kproc /\ t = menu_thread
  else q <> kproc /\ 2 <= pid pr /\ alive s (pid pr) = Some (before_mark c) /\
       (has_as c = true -> p_addrspace pr <> None) /\
       (forall k, waits c = Some k -> k ∈ kids pr).

Record thr_ok (s : kst) (h : list obs) (t : Z) (th : thread) : Prop := {
  to_proc : if attached (t_pc th)
            then exists q pr, t_proc th = Some q /\ procs s !! q = Some pr /\
                   member_ok s t (t_pc th) q pr
            else t_proc th = None;
  to_own : forall p, owns (t_pc th) = Some p ->
    exists pr, procs s !! p = Some pr /\ kproc < p /\ owned_ok s (t_pc th) p pr;
  to_sleep : forall k ptr, t_pc th = WaitSleep k ptr ->
    exists q pr, procs s !! q = Some pr /\ pid pr = k /\ t ∈ cv_sleepers pr /\
      alive s k = Some true;
  to_status : forall k ptr st, t_pc th = WaitUnlock k ptr st \/ t_pc th = WaitCopy k ptr st ->
    exists c, ExitedWith k c ∈ h /\ st = _MKWAIT_EXIT c;
}.

(** A recorded child that has not exited still exists, and it has a thread
    or is just being started. *)
Definition kid_ok (s : kst) (p k : Z) : Prop :=
  2 <= k < counter_pid s /\
  (alive s k = Some true ->
   exists q prq, table s k = Some (Some q) /\ procs s !! q = Some prq /\ pid prq = k /\
     (p_threads prq <> [] \/
      exists t th, threads s !! t = Some th /\ t_proc th = Some p /\ t_pc th = ForkThread q)).

Record proc_ok (s : kst) (p : Z) (pr : proc) : Prop := {
  po_pid : pid pr = 0 \/ (2 <= pid pr < counter_pid s /\ table s (pid pr) = Some (Some p));
  po_kids : length (childArray pr) = 64%nat /\ 0 <= countChild pr <= 64 /\ NoDup (kids pr);
  po_kid : forall k, k ∈ kids pr -> kid_ok s p k;
  po_threads : forall t, t ∈ p_threads pr -> exists th, threads s !! t = Some th /\ t_proc th = Some p;
  po_sleep : forall t, t ∈ cv_sleepers pr ->
    exists th ptr, threads s !! t = Some th /\ t_pc th = WaitSleep (pid pr) ptr;
  po_pos : kproc <= p;
}.

(** The menu waits exactly while there are processes. *)
Definition menu_ok (s : kst) : Prop :=
  exists th, threads s !! menu_thread = Some th /\ is_menu (t_pc th) = true /\
    no_proc_sem s = match t_pc th with MenuWait => if proc_count s =? 0 then 1 else 0 | _ => 0 end /\
    (t_pc th = Menu -> proc_count s = 0).

(** The owner of [lk_tb] is the thread whose code holds it. *)
Definition lock_ok (s : kst) : Prop :=
  forall t, lk_tb s = Some t <-> exists th, threads s !! t = Some th /\ locked (t_pc th) = true.

Record Inv (s : kst) (h : list obs) : Prop := {
  iv_len : length (procTable s) = 64%nat /\ length (exitTable s) = 64%nat /\ length (aliveTable s) = 64%nat;
  iv_ctr : 2 <= counter_pid s <= 66;
  iv_kproc : exists pr, procs s !! kproc = Some pr /\ pid pr = 0;
  iv_proc : forall p pr, procs s !! p = Some pr -> proc_ok s p pr;
  iv_thr : forall t th, threads s !! t = Some th -> thr_ok s h t th;
  iv_own : forall t1 t2 th1 th2 p, threads s !! t1 = Some th1 -> threads s !! t2 = Some th2 ->
    owns (t_pc th1) = Some p -> owns (t_pc th2) = Some p -> t1 = t2;
  iv_lock : lock_ok s;
  iv_count : proc_count s = Z.of_nat (size (procs s)) - 1;
  iv_exits : forall k, 2 <= k < 66 -> alive s k = Some false ->
    exists c, exitTable s !! Z.to_nat (k - 2) = Some c /\ ExitedWith k c ∈ h;
  iv_new : forall k, counter_pid s <= k < 66 -> alive s k = Some true;
  iv_menu : menu_ok s;
  iv_hist : forall h1 h2 ptr k st, h = h1 ++ CopiedOut ptr k st :: h2 ->
    exists c, ExitedWith k c ∈ h1 /\ st = _MKWAIT_EXIT c;
}.

(** The results of other parts of the kernel that the theorems assume: there
    is memory for the names, locks, condition variables, trap frames and
    threads, the console opens, and programs load. Running out of memory for
    the process itself or for its address space, and a bad status pointer, are
    allowed. *)
Definition good (ev : event) : Prop :=
  match ev with
  | Fork e | Run e => e_path e = true /\ e_console e <> None
  | Assign e => e_lock e = true /\ e_cv e = true
  | StartThread tf result _ => tf = true /\ result = 0
  | Load result _ => result = 0
  | _ => True
  end.

(** ** Histories and the state at boot *)

Lemma thr_ok_hist s h h' t th : (forall o, o ∈ h -> o ∈ h') -> thr_ok s h t th -> thr_ok s h' t th.
Proof.
  intros Hsub [H1 H2 H3 H4]. split; try done. intros k ptr st Hst.
  destruct (H4 k ptr st Hst) as (c & ? & ?). eauto.
Qed.

Lemma app_snoc_split {A} (h h1 h2 : list A) o x :
  h ++ [o] = h1 ++ x :: h2 ->
  (exists h2', h = h1 ++ x :: h2') \/ (h = h1 /\ o = x).
Proof.
  destruct h2 as [|y h2] using rev_ind.
  - intros E. right. by apply app_inj_tail in E as [-> ->].
  - intros E. left. exists h2. rewrite app_comm_cons, app_assoc in E. by apply app_inj_tail in E as [-> _].
Qed.

Lemma inv_hist s h o :
  Inv s h ->
  (forall ptr k st, o = CopiedOut ptr k st -> exists c, ExitedWith k c ∈ h /\ st = _MKWAIT_EXIT c) ->
  Inv s (h ++ [o]).
Proof.
  intros [H1 H2 H3 H4 H5 H6 H7 H8 H9 H10 H11 H12] Ho. split; try done.
  - intros t th Ht. eapply thr_ok_hist; [|by apply H5]. set_solver.
  - intros k Hk Ha. destruct (H9 k Hk Ha) as (c & ? & ?). exists c. set_solver.
  - intros h1 h2 ptr k st [(h2' & E)|[-> E]]%app_snoc_split; [by eapply H12|by eapply Ho].
Qed.

Lemma boot_inv cwd : Inv (proc_bootstrap cwd) [].
Proof.
  split; cbn [proc_bootstrap procTable exitTable aliveTable counter_pid procs threads lk_tb proc_count].
  - done.
  - lia.
  - eexists. by rewrite lookup_singleton_eq.
  - intros p pr [<- <-]%lookup_singleton_Some. split; cbn; try done; try set_solver.
    split; [done|]. split; [lia|constructor].
  - intros t th [<- <-]%lookup_singleton_Some. split; cbn [attached t_pc t_proc owns]; try done.
    + eexists _, _. split; [done|]. split; [exact (lookup_singleton_eq _ _)|]. done.
    + intros k ptr st [|]; done.
  - intros t1 t2 th1 th2 p [<- <-]%lookup_singleton_Some [<- <-]%lookup_singleton_Some. done.
  - intros t. cbn. split; [done|]. by intros (th & [<- <-]%lookup_singleton_Some & ?).
  - by rewrite map_size_singleton.
  - intros k Hk. unfold alive. cbn [proc_bootstrap aliveTable]. by intros [? _]%lookup_replicate.
  - intros k Hk. unfold alive. cbn [proc_bootstrap aliveTable]. apply lookup_replicate_2. lia.
  - exists (mk_thread (Some kproc) Menu). done.
  - intros h1 h2 ptr k st E. by destruct h1.
Qed.

(** ** Steps that change one thread and the contents of one process *)

(** The parts of a process that other threads rely on. *)
Definition same_core (pr pr' : proc) : Prop :=
  p_threads pr' = p_threads pr /\ pid pr' = pid pr /\ countChild pr' = countChild pr /\
  childArray pr' = childArray pr /\ (forall u, u ∈ cv_sleepers pr -> u ∈ cv_sleepers pr').

(** Every process of the old state is in the new one, with the parts that
    another thread relies on. *)
Record view (s s' : kst) (t : Z) : Prop := {
  vw_alive : aliveTable s' = aliveTable s;
  vw_fwd : forall q pr, procs s !! q = Some pr -> exists pr', procs s' !! q = Some pr' /\
    same_core pr pr' /\ (p_addrspace pr' = p_addrspace pr \/ p_threads pr = [t]);
  vw_bwd : forall q pr', procs s' !! q = Some pr' -> exists pr, procs s !! q = Some pr /\ same_core pr pr';
}.

Lemma same_core_kids pr pr' : same_core pr pr' -> kids pr' = kids pr.
Proof. intros (_ & _ & E1 & E2 & _). unfold kids. by rewrite E1, E2. Qed.

Lemma thr_ok_view s s' h t t2 th2 :
  view s s' t -> t2 <> t -> thr_ok s h t2 th2 -> thr_ok s' h t2 th2.
Proof.
  intros [Va Vf Vb] Hne [H1 H2 H3 H4].
  assert (Hal : forall k, alive s' k = alive s k) by (intros k; unfold alive; by rewrite Va).
  split; try done.
  - destruct (attached (t_pc th2)); [|done]. destruct H1 as (q & pr & Hq & Hp & Hm).
    destruct (Vf q pr Hp) as (pr' & Hp' & Hc & Has). exists q, pr'. split; [done|]. split; [done|].
    destruct Hm as [Hth Hm]. pose proof Hc as (E1 & E2 & _). split; [by rewrite E1|].
    destruct (is_menu (t_pc th2)); [done|]. destruct Has as [Has|Has]; [|congruence].
    rewrite Hal, E2, Has, (same_core_kids _ _ Hc). done.
  - intros p Hp. destruct (H2 p Hp) as (pr & Hpr & Hpos & Ho). destruct (Vf p pr Hpr) as (pr' & Hp' & Hc & Has).
    exists pr'. split; [done|]. split; [done|]. destruct Ho as [Hth Ho].
    pose proof Hc as (E1 & E2 & E3 & _). split; [by rewrite E1|].
    destruct Has as [Has|Has]; [|congruence].
    destruct (t_pc th2); rewrite ?E2, ?Hal, ?E3, ?Has; try done; destruct Ho as (? & ? & ? & Hno);
      split_and!; try done; intros q prq Hq; destruct (Vb q prq Hq) as (pr0 & Hq0 & Hc0);
      rewrite (same_core_kids _ _ Hc0); by eapply Hno.
  - intros k ptr Hk. destruct (H3 k ptr Hk) as (q & pr & Hq & Hpid & Hin & Hk').
    destruct (Vf q pr Hq) as (pr' & Hp' & (E1 & E2 & _ & _ & E5) & _). exists q, pr'.
    rewrite E2, Hal. split_and!; auto.
Qed.

Definition same_tables (s s' : kst) : Prop :=
  procTable s' = procTable s /\ exitTable s' = exitTable s /\ counter_pid s' = counter_pid s /\
  proc_count s' = proc_count s.

Lemma kid_ok_view s s' t th c' p k :
  view s s' t -> same_tables s s' -> threads s !! t = Some th ->
  threads s' = <[t := mk_thread (t_proc th) c']> (threads s) ->
  (forall q, t_pc th <> ForkThread q) -> kid_ok s p k -> kid_ok s' p k.
Proof.
  intros [Va Vf Vb] (E1 & E2 & E3 & E4) Ht Et Hnf [Hr Ha]. unfold kid_ok, alive, table in *.
  rewrite Va, E1, E3. split; [done|]. intros Hk. destruct (Ha Hk) as (q & prq & Hq & Hpq & Hpid & Hor).
  destruct (Vf q prq Hpq) as (pr' & Hp' & (F1 & F2 & _) & _). exists q, pr'. rewrite F1, F2.
  split_and!; try done. destruct Hor as [?|(t2 & th2 & Ht2 & ? & Hf)]; [by left|right].
  exists t2, th2. split; [|done]. rewrite Et, lookup_insert_ne; [done|]. intros <-.
  rewrite Ht in Ht2. injection Ht2 as <-. by destruct (Hnf q).
Qed.

Lemma inv_upd s h s' t th c' :
  Inv s h -> threads s !! t = Some th ->
  threads s' = <[t := mk_thread (t_proc th) c']> (threads s) ->
  view s s' t -> same_tables s s' -> size (procs s') = size (procs s) ->
  (forall k ptr, t_pc th <> WaitSleep k ptr) -> (forall q, t_pc th <> ForkThread q) ->
  (owns c' = owns (t_pc th) \/ owns c' = None) ->
  (forall q pr' u, procs s' !! q = Some pr' -> u ∈ cv_sleepers pr' ->
     (exists pr, procs s !! q = Some pr /\ u ∈ cv_sleepers pr) \/
     (u = t /\ exists ptr, c' = WaitSleep (pid pr') ptr)) ->
  thr_ok s' h t (mk_thread (t_proc th) c') -> lock_ok s' -> menu_ok s' ->
  Inv s' h.
Proof.
  intros [H1 H2 H3 H4 H5 H6 H7 H8 H9 H10 H11 H12] Ht Et Hv Htab Hsz Hns Hnf Hown Hslp Hok Hlk Hmn.
  pose proof Hv as [Va Vf Vb]. pose proof Htab as (E1 & E2 & E3 & E4).
  split; rewrite ?E1, ?E2, ?E3, ?E4, ?Va, ?Hsz; try done.
  - destruct H3 as (pr & Hp & Hpid). destruct (Vf _ _ Hp) as (pr' & ? & (_ & F & _) & _).
    exists pr'. by rewrite F.
  - intros p pr' Hp. destruct (Vb p pr' Hp) as (pr & Hpr & Hc). pose proof Hc as (F1 & F2 & F3 & F4 & F5).
    destruct (H4 p pr Hpr) as [G1 G2 G3 G4 G5 G6].
    split; unfold table in *; rewrite ?F1, ?F2, ?F3, ?F4, ?(same_core_kids _ _ Hc), ?E1, ?E3; try done.
    + intros k Hk. eapply kid_ok_view; try done. by apply G3.
    + intros u Hu. destruct (G4 u Hu) as (thu & Hu1 & Hu2). rewrite Et.
      destruct (decide (u = t)) as [->|]; [|rewrite lookup_insert_ne by done; eauto].
      rewrite lookup_insert_eq. eexists. split; [done|]. cbn. congruence.
    + intros u Hu. rewrite Et. destruct (Hslp p pr' u Hp Hu) as [(pr0 & Hp0 & Hu0)|(-> & ptr & ->)].
      2: { rewrite lookup_insert_eq. eexists _, ptr. rewrite <- F2. done. }
      assert (pr0 = pr) as -> by congruence. destruct (G5 u Hu0) as (thu & ptr & Hu1 & Hu2).
      destruct (decide (u = t)) as [->|]; [|rewrite lookup_insert_ne by done; eauto].
      exfalso. apply (Hns (pid pr) ptr). congruence.
  - intros u thu. rewrite Et, lookup_insert. case_decide; [intros [= <-]; by subst|].
    intros Hu. eapply thr_ok_view; [done| |by apply H5]. done.
  - intros t1 t2 th1 th2 p. rewrite Et, !lookup_insert. do 2 case_decide; subst; try done.
    + intros [= <-] Hu Ho Ho2. cbn in Ho. destruct Hown as [Hw|Hw]; [|congruence]. rewrite Hw in Ho. by eapply H6.
    + intros Hu [= <-] Ho Ho2. cbn in Ho2. destruct Hown as [Hw|Hw]; [|congruence]. rewrite Hw in Ho2. by eapply H6.
    + by apply H6.
  - intros k Hk. unfold alive. rewrite Va. apply H9. done.
  - intros k Hk. unfold alive. rewrite Va. apply H10. done.
Qed.

(** ** Symbolic execution *)

Lemma get_thread_run t th s : threads s !! t = Some th -> get_thread t s = Ret (th, s).
Proof. intros E. unfold get_thread. mrun. by rewrite E. Qed.

Lemma get_proc_run p pr s : procs s !! p = Some pr -> get_proc p s = Ret (pr, s).
Proof. intros E. unfold get_proc. mrun. by rewrite E. Qed.

Lemma set_pc_run t th c s :
  threads s !! t = Some th ->
  set_pc t c s = Ret (tt, set_threads s (<[t := mk_thread (t_proc th) c]> (threads s))).
Proof. intros E. unfold set_pc. by rewrite (bind_ok _ _ _ _ _ (get_thread_run _ _ _ E)). Qed.

Lemma curproc_run t th q pr s :
  threads s !! t = Some th -> t_proc th = Some q -> procs s !! q = Some pr ->
  curproc t s = Ret ((q, pr), s).
Proof.
  intros E1 E2 E3. unfold curproc. rewrite (bind_ok _ _ _ _ _ (get_thread_run _ _ _ E1)), E2.
  by rewrite (bind_ok _ _ _ _ _ (get_proc_run _ _ _ E3)).
Qed.

Definition pc_state (s : kst) (t : Z) (th : thread) (c : pc) : kst :=
  set_threads s (<[t := mk_thread (t_proc th) c]> (threads s)).

(** ** Frames *)

Lemma view_same s s' t : procs s' = procs s -> aliveTable s' = aliveTable s -> view s s' t.
Proof.
  intros E1 E2. split; [done| |]; intros q pr; rewrite E1; intros Hq; exists pr; unfold same_core.
  - split_and!; try done. by left.
  - done.
Qed.

Lemma view_upd s s' t q pr pr' :
  procs s !! q = Some pr -> procs s' = <[q := pr']> (procs s) -> aliveTable s' = aliveTable s ->
  same_core pr pr' -> (p_addrspace pr' = p_addrspace pr \/ p_threads pr = [t]) -> view s s' t.
Proof.
  intros Hq E1 E2 Hc Has. split; [done| |].
  - intros r prr Hr. rewrite E1, lookup_insert. case_decide as Hqr.
    + subst r. exists pr'. rewrite Hq in Hr. by injection Hr as <-.
    + exists prr. unfold same_core. split_and!; try done. by left.
  - intros r prr. rewrite E1, lookup_insert. case_decide as Hqr.
    + intros [= <-]. subst r. eauto.
    + intros Hr. exists prr. done.
Qed.

Lemma size_upd s s' q pr pr' :
  procs s !! q = Some pr -> procs s' = <[q := pr']> (procs s) -> size (procs s') = size (procs s).
Proof. intros Hq ->. by rewrite map_size_insert_Some; [|eauto]. Qed.

Lemma not_menu s t th :
  menu_ok s -> threads s !! t = Some th -> is_menu (t_pc th) = false -> t <> menu_thread.
Proof. intros (th0 & H0 & Hm & _) Ht Hf ->. congruence. Qed.

Lemma menu_ok_other s s' t th' :
  menu_ok s -> t <> menu_thread -> threads s' = <[t := th']> (threads s) ->
  proc_count s' = proc_count s -> no_proc_sem s' = no_proc_sem s -> menu_ok s'.
Proof.
  intros (th & H1 & H2 & H3 & H4) Hne Et E1 E2. exists th.
  rewrite Et, E1, E2, lookup_insert_ne by done. done.
Qed.

Lemma lock_ok_same s s' t th c' :
  lock_ok s -> threads s !! t = Some th -> threads s' = <[t := mk_thread (t_proc th) c']> (threads s) ->
  lk_tb s' = lk_tb s -> locked c' = locked (t_pc th) -> lock_ok s'.
Proof.
  intros Hl Ht Et El Ec u. rewrite El, Et, (Hl u), lookup_insert. case_decide as Htu; [subst u|done].
  split; intros (th' & E & Hlk).
  - eexists. split; [done|]. cbn. rewrite Ec. congruence.
  - injection E as <-. exists th. split; [done|]. cbn in Hlk. congruence.
Qed.

Lemma lock_ok_acquire s s' t th c' :
  lock_ok s -> lk_tb s = None -> threads s' = <[t := mk_thread (t_proc th) c']> (threads s) ->
  lk_tb s' = Some t -> locked c' = true -> lock_ok s'.
Proof.
  intros Hl Hn Et El Ec u. rewrite El, Et, lookup_insert. split.
  - intros [= <-]. rewrite decide_True by done. eauto.
  - intros (th' & E & Hlk). case_decide; [congruence|]. assert (lk_tb s = Some u) by (apply Hl; eauto). congruence.
Qed.

Lemma lock_ok_release s s' t th c' :
  lock_ok s -> lk_tb s = Some t -> threads s' = <[t := mk_thread (t_proc th) c']> (threads s) ->
  lk_tb s' = None -> locked c' = false -> lock_ok s'.
Proof.
  intros Hl Hn Et El Ec u. rewrite El, Et, lookup_insert. split; [done|].
  intros (th' & E & Hlk). case_decide as Htu.
  - injection E as <-. cbn in Hlk. congruence.
  - assert (lk_tb s = Some u) by (apply Hl; eauto). congruence.
Qed.

(** The thread's own part of the invariant at an ordinary point. *)
Lemma thr_ok_member s h t q pr c :
  procs s !! q = Some pr -> attached c = true -> member_ok s t c q pr -> owns c = None ->
  (forall k ptr, c <> WaitSleep k ptr) ->
  (forall k ptr st, c = WaitUnlock k ptr st \/ c = WaitCopy k ptr st ->
     exists e, ExitedWith k e ∈ h /\ st = _MKWAIT_EXIT e) ->
  thr_ok s h t (mk_thread (Some q) c).
Proof.
  intros Hq Ha Hm Ho Hs Hst. split; cbn [t_pc t_proc].
  - rewrite Ha. eauto.
  - by rewrite Ho.
  - intros k ptr E. by destruct (Hs k ptr).
  - done.
Qed.

(** A thread in a user process. *)
Lemma user_member s h t th :
  Inv s h -> threads s !! t = Some th -> is_menu (t_pc th) = false -> attached (t_pc th) = true ->
  exists q pr, t_proc th = Some q /\ procs s !! q = Some pr /\ member_ok s t (t_pc th) q pr /\
    q <> kproc /\ 2 <= pid pr < counter_pid s /\ t <> menu_thread.
Proof.
  intros Hi Ht Hm Ha. pose proof (to_proc _ _ _ _ (iv_thr _ _ Hi t th Ht)) as Hp. rewrite Ha in Hp.
  destruct Hp as (q & pr & Hq & Hpr & Hmem). exists q, pr. pose proof Hmem as [_ Hmem']. rewrite Hm in Hmem'.
  destruct Hmem' as (Hk & Hpid & _). split_and!; try done.
  - destruct (po_pid _ _ _ (iv_proc _ _ Hi q pr Hpr)); lia.
  - eapply not_menu; [apply Hi|done|done].
Qed.

(** ** Steps inside a process *)

(** The piece of code runs to its end and keeps the invariant. *)
Definition good_run (m : M kst obs) (s : kst) (h : list obs) : Prop :=
  exists o s', m s = Ret (o, s') /\ Inv s' (h ++ [o]).

Lemma good_run_intro m s h o s' :
  m s = Ret (o, s') -> Inv s (h ++ [o]) -> (Inv s (h ++ [o]) -> Inv s' (h ++ [o])) -> good_run m s h.
Proof. intros E Hi Hs. exists o, s'. auto. Qed.

Lemma step_member s h s' t th q pr pr' c' :
  Inv s h -> threads s !! t = Some th -> t_proc th = Some q -> procs s !! q = Some pr ->
  member_ok s t (t_pc th) q pr -> is_menu (t_pc th) = false ->
  threads s' = <[t := mk_thread (Some q) c']> (threads s) -> procs s' = <[q := pr']> (procs s) ->
  aliveTable s' = aliveTable s -> same_tables s s' -> no_proc_sem s' = no_proc_sem s ->
  same_core pr pr' -> cv_sleepers pr' = cv_sleepers pr -> lock_ok s' ->
  (forall k ptr, t_pc th <> WaitSleep k ptr) -> (forall r, t_pc th <> ForkThread r) ->
  owns c' = None -> attached c' = true -> is_menu c' = false -> before_mark c' = before_mark (t_pc th) ->
  (has_as c' = true -> p_addrspace pr' <> None) -> (forall k, waits c' = Some k -> k ∈ kids pr) ->
  (forall k ptr, c' <> WaitSleep k ptr) ->
  (forall k ptr st, c' = WaitUnlock k ptr st \/ c' = WaitCopy k ptr st ->
     exists e, ExitedWith k e ∈ h /\ st = _MKWAIT_EXIT e) ->
  Inv s' h.
Proof.
  intros Hi Ht Hq Hp [Hth Hm] Hmenu Et Ep Ea Htab En Hc Hsl Hlk Hns Hnf Ho Hat Hm' Hbm Has Hw Hns' Hst.
  rewrite Hmenu in Hm. destruct Hm as (Hk & Hpid & Hal & Has0 & Hw0). pose proof Hc as (F1 & F2 & _).
  assert (Hne : t <> menu_thread) by (eapply not_menu; [apply Hi|done|done]).
  eapply (inv_upd s h s' t th c'); try done.
  - by rewrite Hq.
  - eapply view_upd; [done|done|done|done|by right].
  - by eapply size_upd.
  - by right.
  - intros r prr u. rewrite Ep, lookup_insert. case_decide; [|by eauto]. intros [= <-]. subst r.
    rewrite Hsl. eauto.
  - rewrite Hq. apply thr_ok_member with pr'; try done; [by rewrite Ep, lookup_insert_eq|].
    split; [by rewrite F1|]. rewrite Hm', F2, (same_core_kids _ _ Hc). split_and!; try done.
    unfold alive in *. by rewrite Ea, Hal, Hbm.
  - eapply menu_ok_other; [apply Hi|done|done|apply Htab|done].
Qed.

(** The same when only the point in the code changes. *)
Lemma step_pc s h s' t th q pr c' :
  Inv s h -> threads s !! t = Some th -> t_proc th = Some q -> procs s !! q = Some pr ->
  member_ok s t (t_pc th) q pr -> is_menu (t_pc th) = false ->
  threads s' = <[t := mk_thread (Some q) c']> (threads s) -> procs s' = procs s ->
  aliveTable s' = aliveTable s -> same_tables s s' -> no_proc_sem s' = no_proc_sem s -> lock_ok s' ->
  (forall k ptr, t_pc th <> WaitSleep k ptr) -> (forall r, t_pc th <> ForkThread r) ->
  owns c' = None -> attached c' = true -> is_menu c' = false -> before_mark c' = before_mark (t_pc th) ->
  (has_as c' = true -> has_as (t_pc th) = true) -> (forall k, waits c' = Some k -> k ∈ kids pr) ->
  (forall k ptr, c' <> WaitSleep k ptr) ->
  (forall k ptr st, c' = WaitUnlock k ptr st \/ c' = WaitCopy k ptr st ->
     exists e, ExitedWith k e ∈ h /\ st = _MKWAIT_EXIT e) ->
  Inv s' h.
Proof.
  intros Hi Ht Hq Hp Hm Hmenu Et Ep Ea Htab En Hlk Hns Hnf Ho Hat Hm' Hbm Has Hw Hns' Hst.
  eapply (step_member s h s' t th q pr pr c'); try done.
  - rewrite Ep. by rewrite insert_id.
  - intros Hc. destruct Hm as [_ Hm]. rewrite Hmenu in Hm. apply Hm. auto.
Qed.

Lemma sys_getpid_good s h t th :
  Inv s h -> threads s !! t = Some th -> t_pc th = User -> good_run (sys_getpid t) s h.
Proof.
  intros Hi Ht Hpc. destruct (user_member s h t th) as (q & pr & Hq & Hp & _); rewrite ?Hpc; try done.
  unfold sys_getpid. eexists _, s. rewrite (bind_ok _ _ _ _ _ (curproc_run t th q pr s Ht Hq Hp)).
  split; [done|]. by apply inv_hist.
Qed.

Lemma sys__exit_good s h t th c :
  Inv s h -> threads s !! t = Some th -> t_pc th = User -> good_run (sys__exit t c) s h.
Proof.
  intros Hi Ht Hpc. destruct (user_member s h t th) as (q & pr & Hq & Hp & Hm & _); rewrite ?Hpc; try done.
  rewrite Hpc in Hm. pose proof Hm as [_ (_ & _ & _ & Has & _)].
  eexists _, _. split.
  - unfold sys__exit. rewrite (bind_ok _ _ _ _ _ (curproc_run t th q pr s Ht Hq Hp)).
    rewrite bool_decide_eq_true_2 by auto. rewrite bind_kassert.
    by rewrite (bind_ok _ _ _ _ _ (set_pc_run t th _ s Ht)).
  - apply inv_hist; [|done]. eapply (step_pc s h _ t th q pr (ExitLock c)); rewrite ?Hpc; try done.
    + cbn. by rewrite Hq.
    + eapply lock_ok_same; [apply Hi|done|done|done|by rewrite Hpc].
    + intros k ptr st [|]; done.
Qed.

Lemma isExist_run pr k s :
  length (childArray pr) = 64%nat -> 0 <= countChild pr <= 64 ->
  isExist pr k s = Ret (bool_decide (k ∈ kids pr), s).
Proof.
  intros Hl Hc. unfold isExist.
  assert (Hget : forall i, 0 <= i < countChild pr -> exists c, childArray pr !! Z.to_nat i = Some c).
  { intros i Hi. destruct (lookup_lt_is_Some_2 (childArray pr) (Z.to_nat i)) as [c ?]; [lia|eauto]. }
  assert (Hin : forall i, childArray pr !! Z.to_nat i = Some k -> 0 <= i < countChild pr -> k ∈ kids pr).
  { intros i Hi Hr. apply list_elem_of_lookup. exists (Z.to_nat i). unfold kids.
    rewrite lookup_take_lt by lia. done. }
  set (body := fun i : Z => _).
  assert (Hbody : forall i c, 0 <= i -> childArray pr !! Z.to_nat i = Some c ->
    body i s = Ret (if c =? k then Some tt else None, s)).
  { intros i c Hi Hci. unfold body. rewrite (get_at_lookup _ _ c) by done. mrun. by destruct (c =? k). }
  destruct (for_ret_search (fun i => match childArray pr !! Z.to_nat i with Some c => c =? k | None => false end)
    body (Z.to_nat (countChild pr)) 0 s) as [[E HP]|(i & Hi & HP & _ & E)].
  - intros i Hi HP. destruct (Hget i) as [c Hci]; [lia|]. rewrite Hci in HP. rewrite (Hbody i c) by (done || lia).
    by rewrite HP.
  - intros i Hi HP _. destruct (Hget i) as [c Hci]; [lia|]. rewrite Hci in HP. rewrite (Hbody i c) by (done || lia).
    rewrite HP. eauto.
  - rewrite (bind_ok _ _ _ _ _ E). rewrite bool_decide_eq_false_2; [done|].
    intros [j Hj]%list_elem_of_lookup. unfold kids in Hj. apply lookup_take_Some in Hj as [Hj Hlt].
    specialize (HP (Z.of_nat j) ltac:(lia)). cbn in HP. rewrite Nat2Z.id, Hj in HP. lia.
  - destruct (Hget i) as [c Hci]; [lia|]. rewrite Hci in HP. bprop. subst c.
    rewrite (Hbody i k) in E by (done || lia). rewrite Z.eqb_refl in E.
    rewrite (bind_ok _ _ _ _ _ E). rewrite bool_decide_eq_true_2; [done|]. apply (Hin i); [done|lia].
Qed.

Lemma sys_waitpid_good s h t th k ptr options :
  Inv s h -> threads s !! t = Some th -> t_pc th = User -> good_run (sys_waitpid t k ptr options) s h.
Proof.
  intros Hi Ht Hpc. unfold sys_waitpid.
  destruct (Z.eqb_spec options 0); cbn [negb]; [|eexists _, s; split; [done|by apply inv_hist]].
  destruct (Z.eqb_spec ptr 0); [eexists _, s; split; [done|by apply inv_hist]|].
  destruct (user_member s h t th) as (q & pr & Hq & Hp & Hm & _); rewrite ?Hpc; try done. rewrite Hpc in Hm.
  destruct (po_kids _ _ _ (iv_proc _ _ Hi q pr Hp)) as (Hl & Hc & _).
  destruct (decide (k ∈ kids pr)) as [Hk|Hk].
  - eexists _, _. split.
    + rewrite (bind_ok _ _ _ _ _ (curproc_run t th q pr s Ht Hq Hp)).
      rewrite (bind_ok _ _ _ _ _ (isExist_run pr k s Hl Hc)). rewrite bool_decide_eq_true_2 by done.
      cbn [negb]. by rewrite (bind_ok _ _ _ _ _ (set_pc_run t th _ s Ht)).
    + apply inv_hist; [|done]. eapply (step_pc s h _ t th q pr (WaitLock k ptr)); rewrite ?Hpc; try done.
      * cbn. by rewrite Hq.
      * eapply lock_ok_same; [apply Hi|done|done|done|by rewrite Hpc].
      * by intros k' [= <-].
      * intros ? ? ? [|]; done.
  - exists (Returned ECHILD 0), s. split; [|by apply inv_hist].
    rewrite (bind_ok _ _ _ _ _ (curproc_run t th q pr s Ht Hq Hp)).
    rewrite (bind_ok _ _ _ _ _ (isExist_run pr k s Hl Hc)). by rewrite bool_decide_eq_false_2.
Qed.

(** Taking and releasing [lk_tb]. *)
Lemma lock_tb_good s h t th c' :
  Inv s h -> threads s !! t = Some th -> lk_tb s = None ->
  (exists e, t_pc th = ExitLock e /\ c' = ExitMark e) \/
  (exists k ptr, t_pc th = WaitLock k ptr /\ c' = WaitTest k ptr) ->
  good_run (lock_tb t c') s h.
Proof.
  intros Hi Ht Hlk Hc.
  destruct (user_member s h t th) as (q & pr & Hq & Hp & Hm & _); try done;
    [destruct Hc as [(?&->&?)|(?&?&->&?)]; done..|].
  eexists _, _. split.
  - unfold lock_tb. mrun. by rewrite (bind_ok _ _ _ _ _ (set_pc_run t th _ (set_lk_tb s (Some t)) Ht)).
  - apply inv_hist; [|done]. pose proof Hm as [_ Hm'].
    eapply (step_pc s h _ t th q pr c'); try done; try (cbn; by rewrite Hq);
      try (destruct Hc as [(?&E&->)|(?&?&E&->)]; rewrite ?E; done).
    + eapply lock_ok_acquire; [apply Hi|done|done|done|].
      by destruct Hc as [(?&?&->)|(?&?&?&->)].
    + destruct Hc as [(?&E&->)|(k&ptr&E&->)]; [done|]. rewrite E in Hm'. intros ? [= <-]. by apply Hm'.
    + destruct Hc as [(?&E&->)|(k&ptr&E&->)]; intros ? ? ? [|]; done.
Qed.

Lemma unlock_tb_good s h t th c' :
  Inv s h -> threads s !! t = Some th ->
  (t_pc th = ExitUnlock /\ c' = ExitAs) \/
  (exists k ptr st, t_pc th = WaitUnlock k ptr st /\ c' = WaitCopy k ptr st) ->
  good_run (unlock_tb t c') s h.
Proof.
  intros Hi Ht Hc.
  destruct (user_member s h t th) as (q & pr & Hq & Hp & Hm & _); try done;
    [destruct Hc as [(->&?)|(?&?&?&->&?)]; done..|].
  assert (Hlk : lk_tb s = Some t).
  { apply (iv_lock _ _ Hi). exists th. split; [done|]. by destruct Hc as [(->&?)|(?&?&?&->&?)]. }
  eexists _, _. split.
  - unfold unlock_tb. mrun. rewrite bool_decide_eq_true_2 by done. mrun.
    by rewrite (bind_ok _ _ _ _ _ (set_pc_run t th _ (set_lk_tb s None) Ht)).
  - apply inv_hist; [|done]. pose proof Hm as [_ Hm'].
    eapply (step_pc s h _ t th q pr c'); try done; try (cbn; by rewrite Hq);
      try (destruct Hc as [(E&->)|(?&?&?&E&->)]; rewrite ?E; done).
    + eapply lock_ok_release; [apply Hi|done|done|done|].
      by destruct Hc as [(?&->)|(?&?&?&?&->)].
    + destruct Hc as [(E&->)|(k&ptr&st&E&->)]; [done|]. rewrite E in Hm'. intros ? [= <-]. by apply Hm'.
    + destruct Hc as [(E&->)|(k&ptr&st&E&->)]; intros k' ptr' st' [|Ew]; try done. injection Ew as <- <- <-.
      apply (to_status _ _ _ _ (iv_thr _ _ Hi t th Ht) k ptr st). by left.
Qed.

Lemma get_alive s h k b : Inv s h -> 2 <= k -> alive s k = Some b -> get_at (aliveTable s) (k - 2) = Ret b.
Proof. intros Hi Hk Ha. apply get_at_lookup; [lia|done]. Qed.

(** The test of the loop of [waitpid]: a child that is alive can be slept on. *)
Lemma wait_test_good s h t th k ptr :
  Inv s h -> threads s !! t = Some th -> t_pc th = WaitTest k ptr -> good_run (wait_test t k ptr) s h.
Proof.
  intros Hi Ht Hpc.
  destruct (user_member s h t th) as (q & pr & Hq & Hp & Hm & Hqk & Hpid & Hne); rewrite ?Hpc; try done.
  rewrite Hpc in Hm. pose proof Hm as [Hth (_ & _ & Hown & Has & Hw)].
  pose proof (Hw k eq_refl) as Hkid. destruct (po_kid _ _ _ (iv_proc _ _ Hi q pr Hp) k Hkid) as [Hkr Hka].
  pose proof (iv_ctr _ _ Hi) as Hctr. destruct (iv_len _ _ Hi) as (_ & Hle & Hla).
  assert (Hlk : lk_tb s = Some t) by (apply (iv_lock _ _ Hi); exists th; by rewrite Hpc).
  destruct (lookup_lt_is_Some_2 (aliveTable s) (Z.to_nat (k - 2))) as [b Hb]; [lia|].
  unfold wait_test. unfold good_run. mrun. rewrite (get_at_lookup _ _ b) by (done || lia). mrun. destruct b.
  - destruct (Hka Hb) as (r & prr & Htab & Hr & Hpr & _). rewrite (get_at_lookup _ _ (Some r)) by (done || lia).
    mrun. rewrite (bind_ok _ _ _ _ _ (get_proc_run r prr s Hr)).
    rewrite bool_decide_eq_true_2 by done. unfold put_proc. mrun.
    set (s1 := set_lk_tb _ None). rewrite (bind_ok _ _ _ _ _ (set_pc_run t th (WaitSleep k ptr) s1 Ht)).
    eexists _, _. split; [done|]. apply inv_hist; [|done].
    eapply (inv_upd s h _ t th (WaitSleep k ptr)); rewrite ?Hpc; try done.
    + eapply (view_upd s _ t r prr (with_sleepers prr (t :: cv_sleepers prr))); try done; [|by left].
      repeat split; cbn. set_solver.
    + by eapply (size_upd s _ r prr).
    + by left.
    + intros r' prr' u. cbn. rewrite lookup_insert. case_decide; [|by eauto]. intros [= <-]. subst r'. cbn.
      intros [->|Hu]%elem_of_cons; [right|left; eauto]. split; [done|]. exists ptr. by rewrite Hpr.
    + rewrite Hq. split; cbn [t_pc t_proc attached owns]; try done.
      * destruct (decide (r = q)) as [->|Hrq].
        -- exists q, (with_sleepers prr (t :: cv_sleepers prr)). cbn. rewrite lookup_insert_eq.
           assert (prr = pr) as -> by congruence. by split_and!.
        -- exists q, pr. cbn. rewrite lookup_insert_ne by done. by split_and!.
      * intros k' ptr' [= <- <-]. exists r, (with_sleepers prr (t :: cv_sleepers prr)). cbn.
        rewrite lookup_insert_eq. split_and!; try done. set_solver.
      * intros ? ? ? [|]; done.
    + eapply lock_ok_release; [apply Hi|done|done|done|done].
    + eapply menu_ok_other; [apply Hi|done|done|done|done].
  - destruct (lookup_lt_is_Some_2 (exitTable s) (Z.to_nat (k - 2))) as [c Hc]; [lia|].
    rewrite (get_at_lookup _ _ c) by (done || lia). mrun.
    rewrite (bind_ok _ _ _ _ _ (set_pc_run t th _ s Ht)). eexists _, _. split; [done|].
    apply inv_hist; [|done].
    eapply (step_pc s h _ t th q pr (WaitUnlock k ptr (_MKWAIT_EXIT c))); rewrite ?Hpc; try done.
    + cbn. by rewrite Hq.
    + eapply lock_ok_same; [apply Hi|done|done|done|by rewrite Hpc].
    + intros ? ? ? [E|E]; [|done]. injection E as <- <- <-.
      destruct (iv_exits _ _ Hi k ltac:(lia) Hb) as (c' & Hc' & Hin). exists c'. split; [done|congruence].
Qed.

Lemma wait_copy_good s h t th k ptr st result :
  Inv s h -> threads s !! t = Some th -> t_pc th = WaitCopy k ptr st ->
  good_run (wait_copy t k ptr st result) s h.
Proof.
  intros Hi Ht Hpc. destruct (user_member s h t th) as (q & pr & Hq & Hp & Hm & _); rewrite ?Hpc; try done.
  rewrite Hpc in Hm.
  assert (Hs : Inv (pc_state s t th User) h).
  { eapply (step_pc s h _ t th q pr User); rewrite ?Hpc; try done.
    - cbn. by rewrite Hq.
    - eapply lock_ok_same; [apply Hi|done|done|done|by rewrite Hpc].
    - intros ? ? ? [|]; done. }
  unfold wait_copy, good_run. rewrite (bind_ok _ _ _ _ _ (set_pc_run t th _ s Ht)).
  destruct (result =? 0); eexists _, _; (split; [done|]); apply inv_hist; try done.
  intros ? ? ? [= <- <- <-]. apply (to_status _ _ _ _ (iv_thr _ _ Hi t th Ht) k ptr st). by right.
Qed.

Lemma fork_return_good s h t th p pr0 :
  Inv s h -> threads s !! t = Some th -> t_pc th = ForkReturn p -> procs s !! p = Some pr0 ->
  good_run (fork_return t p) s h.
Proof.
  intros Hi Ht Hpc Hp0. destruct (user_member s h t th) as (q & pr & Hq & Hp & Hm & _); rewrite ?Hpc; try done.
  rewrite Hpc in Hm. eexists _, _. split.
  - unfold fork_return. rewrite (bind_ok _ _ _ _ _ (get_proc_run p pr0 s Hp0)).
    by rewrite (bind_ok _ _ _ _ _ (set_pc_run t th _ s Ht)).
  - apply inv_hist; [|done]. eapply (step_pc s h _ t th q pr User); rewrite ?Hpc; try done.
    + cbn. by rewrite Hq.
    + eapply lock_ok_same; [apply Hi|done|done|done|by rewrite Hpc].
    + intros ? ? ? [|]; done.
Qed.

Lemma load_program_good s h t th asid :
  Inv s h -> threads s !! t = Some th -> t_pc th = Loading -> good_run (load_program t 0 asid) s h.
Proof.
  intros Hi Ht Hpc. destruct (user_member s h t th) as (q & pr & Hq & Hp & Hm & _); rewrite ?Hpc; try done.
  rewrite Hpc in Hm. eexists _, _. split.
  - unfold load_program, curproc_setas. cbn [Z.eqb]. mrun.
    rewrite (bind_ok _ _ _ _ _ (curproc_run t th q pr s Ht Hq Hp)). unfold put_proc. mrun.
    by rewrite (bind_ok _ _ _ _ _ (set_pc_run t th User (set_procs s _) Ht)).
  - apply inv_hist; [|done].
    eapply (step_member s h _ t th q pr (with_as pr (Some asid)) User); rewrite ?Hpc; try done.
    + cbn. by rewrite Hq.
    + eapply lock_ok_same; [apply Hi|done|done|done|by rewrite Hpc].
    + intros ? ? ? [|]; done.
Qed.

Lemma exit_as_good s h t th :
  Inv s h -> threads s !! t = Some th -> t_pc th = ExitAs -> good_run (exit_as t) s h.
Proof.
  intros Hi Ht Hpc. destruct (user_member s h t th) as (q & pr & Hq & Hp & Hm & _); rewrite ?Hpc; try done.
  rewrite Hpc in Hm. pose proof Hm as [_ (_ & _ & _ & Has & _)]. specialize (Has eq_refl).
  destruct (p_addrspace pr) as [a|] eqn:Ea; [|done]. eexists _, _. split.
  - unfold exit_as, curproc_setas. mrun. rewrite (bind_ok _ _ _ _ _ (curproc_run t th q pr s Ht Hq Hp)).
    unfold put_proc. mrun. rewrite Ea.
    by rewrite (bind_ok _ _ _ _ _ (set_pc_run t th ExitRem (set_procs s _) Ht)).
  - apply inv_hist; [|done].
    eapply (step_member s h _ t th q pr (with_as pr None) ExitRem); rewrite ?Hpc; try done.
    + cbn. by rewrite Hq.
    + eapply lock_ok_same; [apply Hi|done|done|done|by rewrite Hpc].
    + intros ? ? ? [|]; done.
Qed.

(** ** Frames for steps that create, start or end processes *)

(** The processes that a thread relies on: its own, the one it works on, the
    one it sleeps on. *)
Definition relies (t : Z) (th : thread) (q : Z) (pr : proc) : Prop :=
  t_proc th = Some q \/ owns (t_pc th) = Some q \/
  (t ∈ cv_sleepers pr /\ exists ptr, t_pc th = WaitSleep (pid pr) ptr).

Lemma thr_ok_frame s s' h t2 th2 :
  thr_ok s h t2 th2 ->
  (forall k b, 2 <= k -> alive s k = Some b ->
     (exists q pr, procs s !! q = Some pr /\ pid pr = k /\
        relies t2 th2 q pr) -> alive s' k = Some b) ->
  (forall q pr, procs s !! q = Some pr ->
     relies t2 th2 q pr ->
     exists pr', procs s' !! q = Some pr' /\ pid pr' = pid pr /\
       (forall u, u ∈ cv_sleepers pr -> u ∈ cv_sleepers pr') /\
       (t_proc th2 = Some q \/ owns (t_pc th2) = Some q ->
        p_threads pr' = p_threads pr /\ p_addrspace pr' = p_addrspace pr /\
        countChild pr' = countChild pr /\ childArray pr' = childArray pr)) ->
  (forall p pr, owns (t_pc th2) = Some p -> procs s !! p = Some pr -> 2 <= pid pr ->
     (forall q prq, procs s !! q = Some prq -> pid pr ∉ kids prq) ->
     forall q prq, procs s' !! q = Some prq -> pid pr ∉ kids prq) ->
  (forall k ptr, t_pc th2 = WaitSleep k ptr -> 2 <= k) ->
  thr_ok s' h t2 th2.
Proof.
  intros [H1 H2 H3 H4] Fa Fp Fk Fs. split; try done.
  - destruct (attached (t_pc th2)); [|done]. destruct H1 as (q & pr & Hq & Hp & Hth & Hm).
    destruct (Fp q pr Hp) as (pr' & Hp' & E2 & _ & Hk); [by left|].
    destruct Hk as (E1 & Has & E3 & E4); [by left|]. exists q, pr'. split; [done|]. split; [done|]. split; [by rewrite E1|].
    destruct (is_menu (t_pc th2)); [done|]. destruct Hm as (? & ? & Hal & ?).
    unfold kids in *. rewrite E2, Has, E3, E4. split_and!; try done; try tauto.
    apply Fa; [done|done|]. exists q, pr. unfold relies. eauto.
  - intros p Hp. destruct (H2 p Hp) as (pr & Hpr & Hpos & Hth & Ho).
    destruct (Fp p pr Hpr) as (pr' & Hp' & E2 & _ & Hk); [by right; left|].
    destruct Hk as (E1 & Has & E3 & E4); [by right|].
    exists pr'. split; [done|]. split; [done|]. split; [by rewrite E1|].
    assert (Hex : exists q pr, procs s !! q = Some pr /\ pid pr = pid pr' /\
      relies t2 th2 q pr) by (exists p, pr; unfold relies; eauto).
    rewrite E2 in Hex.
    destruct (t_pc th2); rewrite ?E2, ?E3, ?Has; try done;
      (destruct Ho as (? & Ha & ?) || destruct Ho as (? & Ha)); split_and!; try tauto; eauto;
      apply (Fk p pr); tauto.
  - intros k ptr Hk. destruct (H3 k ptr Hk) as (q & pr & Hq & Hpid & Hin & Hk').
    assert (Hrel : relies t2 th2 q pr) by (right; right; split; [done|]; exists ptr; by subst k).
    destruct (Fp q pr Hq Hrel) as (pr' & Hp' & E2 & E5 & _).
    exists q, pr'. rewrite E2. split_and!; auto. apply Fa; [by eapply Fs|done|eauto].
Qed.

(** A sleeper's child has a number. *)
Lemma sleep_pid s h t th k ptr :
  Inv s h -> threads s !! t = Some th -> t_pc th = WaitSleep k ptr -> 2 <= k < counter_pid s.
Proof.
  intros Hi Ht Hpc. destruct (user_member s h t th) as (q & pr & Hq & Hp & Hm & _); rewrite ?Hpc; try done.
  rewrite Hpc in Hm. destruct Hm as [_ (_ & _ & _ & _ & Hw)].
  apply (po_kid _ _ _ (iv_proc _ _ Hi q pr Hp) k), Hw. done.
Qed.

Lemma kid_ok_frame s s' p k :
  kid_ok s p k -> counter_pid s <= counter_pid s' ->
  (alive s' k = Some true -> alive s k = Some true) ->
  (forall q, table s k = Some (Some q) -> alive s' k = Some true -> table s' k = Some (Some q)) ->
  (forall q prq, table s k = Some (Some q) -> alive s' k = Some true -> procs s !! q = Some prq -> pid prq = k ->
     exists prq', procs s' !! q = Some prq' /\ pid prq' = k /\ (p_threads prq <> [] -> p_threads prq' <> [])) ->
  (forall q t th, alive s' k = Some true -> threads s !! t = Some th -> t_proc th = Some p ->
     t_pc th = ForkThread q -> table s k = Some (Some q) ->
     (exists th', threads s' !! t = Some th' /\ t_proc th' = Some p /\ t_pc th' = ForkThread q) \/
     (exists prq, procs s' !! q = Some prq /\ p_threads prq <> [])) ->
  kid_ok s' p k.
Proof.
  intros [Hr Ha] Hc Hal Htab Hpr Hth. split; [lia|]. intros Hk.
  destruct (Ha (Hal Hk)) as (q & prq & Hq & Hpq & Hpid & Hor).
  destruct (Hpr q prq Hq Hk Hpq Hpid) as (prq' & Hpq' & Hpid' & Hne).
  exists q, prq'. split_and!; auto.
  destruct Hor as [Hor|(t & th & Ht & Htp & Htc)]; [left; auto|].
  destruct (Hth q t th Hk Ht Htp Htc Hq) as [(th' & ?)|(prq2 & Hq2 & Hne2)]; [right; eauto|left; congruence].
Qed.

(** The owner of a process without threads. *)
Lemma owned_by s h t th p :
  Inv s h -> threads s !! t = Some th -> owns (t_pc th) = Some p ->
  exists pr, procs s !! p = Some pr /\ kproc < p /\ owned_ok s (t_pc th) p pr.
Proof. intros Hi Ht Ho. exact (to_own _ _ _ _ (iv_thr _ _ Hi t th Ht) p Ho). Qed.

(** No thread runs in a process without threads. *)
Lemma no_member s h t th q pr :
  Inv s h -> threads s !! t = Some th -> t_proc th = Some q -> procs s !! q = Some pr ->
  p_threads pr = [t].
Proof.
  intros Hi Ht Hq Hp. pose proof (to_proc _ _ _ _ (iv_thr _ _ Hi t th Ht)) as Hm.
  destruct (attached (t_pc th)); [|congruence]. destruct Hm as (q' & pr' & Hq' & Hp' & Hth & _). congruence.
Qed.

(** ** Destroying a process *)

Lemma proc_destroy_run s p pr :
  procs s !! p = Some pr -> kproc < p -> 2 <= pid pr -> table s (pid pr) = Some (Some p) ->
  cv_sleepers pr = [] -> p_threads pr = [] -> 0 < proc_count s ->
  exists v, proc_destroy p s =
    Ret (tt, set_count (set_procs (set_vrefs s v) (delete p (procs s))) (proc_count s - 1)
               (if proc_count s - 1 =? 0 then no_proc_sem s + 1 else no_proc_sem s)).
Proof.
  intros Hp Hk Hpid Htab Hsl Hth Hc. unfold proc_destroy, kproc in *.
  rewrite (proj2 (Z.eqb_neq p 0)) by lia. rewrite (proj2 (Z.eqb_neq p 1)) by lia. cbn [negb]. mrun.
  rewrite (bind_ok _ _ _ _ _ (get_proc_run p pr s Hp)).
  assert (Hdec : forall o s0, procs s0 = procs s -> exists v, match o with Some x => VOP_DECREF x | None => ret tt end s0 =
    Ret (tt, set_vrefs s0 v)).
  { intros [x|] s0 _; [by eexists|]. exists (vrefs s0). by destruct s0. }
  destruct (Hdec (p_cwd pr) s eq_refl) as (v1 & E1). rewrite (bind_ok _ _ _ _ _ E1).
  destruct (Hdec (console pr) (set_vrefs s v1) eq_refl) as (v2 & E2). rewrite (bind_ok _ _ _ _ _ E2).
  mrun. cbn [procTable set_vrefs]. rewrite (get_at_lookup _ _ (Some p)) by (done || lia). mrun.
  rewrite (bind_ok _ _ _ _ _ (get_proc_run p pr (set_vrefs (set_vrefs s v1) v2) Hp)).
  rewrite !bool_decide_eq_true_2 by done. mrun. cbn [proc_count set_procs set_vrefs].
  rewrite (proj2 (Z.ltb_lt 0 _)) by lia. mrun. exists v2. done.
Qed.

(** The owner's process has no sleepers on its condition variable. *)
Lemma owned_no_sleepers s h p pr :
  Inv s h -> procs s !! p = Some pr ->
  (alive s (pid pr) = Some false \/ forall q prq, procs s !! q = Some prq -> pid pr ∉ kids prq) ->
  cv_sleepers pr = [].
Proof.
  intros Hi Hp Hor. destruct (cv_sleepers pr) as [|u l] eqn:E; [done|]. exfalso.
  destruct (po_sleep _ _ _ (iv_proc _ _ Hi p pr Hp) u) as (th & ptr & Hu & Hpc); [rewrite E; left|].
  destruct (to_sleep _ _ _ _ (iv_thr _ _ Hi u th Hu) _ _ Hpc) as (q & prq & Hq & Hpid & _ & Ha).
  destruct Hor as [Hf|Hno]; [congruence|].
  destruct (user_member s h u th) as (r & prr & Hr & Hpr & Hm & _); rewrite ?Hpc; try done.
  rewrite Hpc in Hm. destruct Hm as [_ (_ & _ & _ & _ & Hw)]. by apply (Hno r prr Hpr), Hw.
Qed.

Lemma size_ge_2 (m : gmap Z proc) a b : is_Some (m !! a) -> is_Some (m !! b) -> a <> b -> (2 <= size m)%nat.
Proof.
  intros [x Ha] [y Hb] Hne. rewrite <- (insert_delete_id m a x Ha).
  rewrite map_size_insert_None by apply lookup_delete_eq.
  rewrite <- (insert_delete_id (delete a m) b y) by (by rewrite lookup_delete_ne).
  rewrite map_size_insert_None by apply lookup_delete_eq. lia.
Qed.

(** The menu notices that the last process is gone. *)
Lemma menu_ok_destroy s s' h t th th' p :
  Inv s h -> threads s !! t = Some th -> owns (t_pc th) = Some p -> t <> menu_thread ->
  is_Some (procs s !! p) -> kproc < p ->
  threads s' = <[t := th']> (threads s) -> procs s' = delete p (procs s) ->
  proc_count s' = proc_count s - 1 ->
  no_proc_sem s' = (if proc_count s - 1 =? 0 then no_proc_sem s + 1 else no_proc_sem s) ->
  menu_ok s'.
Proof.
  intros Hi Ht Hown Hne Hp Hkp Et Ep Ec En. destruct (iv_menu _ _ Hi) as (th0 & H1 & H2 & H3 & H4).
  destruct (iv_kproc _ _ Hi) as (prk & Hk & _).
  assert (Hc : 1 <= proc_count s).
  { rewrite (iv_count _ _ Hi). pose proof (size_ge_2 (procs s) kproc p ltac:(eauto) Hp). lia. }
  exists th0. rewrite Et, lookup_insert_ne by done. rewrite Ec, En. split; [done|]. split; [done|].
  assert (Hnew : forall r, owns (t_pc th0) = Some r -> proc_count s - 1 <> 0).
  { intros r Hr. destruct (owned_by s h _ th0 r Hi H1 Hr) as (prr & Hpr & Hkr & _).
    assert (r <> p) by (intros ->; apply Hne; by eapply (iv_own _ _ Hi)).
    rewrite (iv_count _ _ Hi). destruct Hp as [pr Hp]. rewrite <- (insert_delete_id (procs s) p pr Hp).
    rewrite map_size_insert_None by apply lookup_delete_eq.
    pose proof (size_ge_2 (delete p (procs s)) kproc r).
    rewrite !lookup_delete_ne in H0 by (unfold kproc in *; lia || done).
    specialize (H0 ltac:(eauto) ltac:(eauto) ltac:(lia)). lia. }
  destruct (t_pc th0) as [|b p0| | | | | | | | | | | | | | | | | | |]; try done.
  - destruct b; [done|]. split; [|done]. rewrite (proj2 (Z.eqb_neq _ 0)) by (by eapply Hnew). done.
  - specialize (H4 eq_refl). lia.
  - split; [|done]. rewrite (proj2 (Z.eqb_neq _ 0)) by (by eapply Hnew). done.
  - split; [|done]. rewrite (proj2 (Z.eqb_neq (proc_count s) 0)) in H3 by lia.
    destruct (_ =? 0); lia.
Qed.

Lemma inv_destroy s h s' t th th' p pr :
  Inv s h -> threads s !! t = Some th -> owns (t_pc th) = Some p -> procs s !! p = Some pr ->
  p_threads pr = [] -> (forall r, t_pc th <> ForkThread r) ->
  (alive s (pid pr) = Some false \/ forall q prq, procs s !! q = Some prq -> pid pr ∉ kids prq) ->
  threads s' = <[t := th']> (threads s) -> t_proc th' = t_proc th -> owns (t_pc th') = None ->
  (forall k ptr, t_pc th' <> WaitSleep k ptr) ->
  procs s' = delete p (procs s) -> same_tables s (set_count s' (proc_count s) 0) ->
  aliveTable s' = aliveTable s -> proc_count s' = proc_count s - 1 ->
  thr_ok s' h t th' -> lock_ok s' -> menu_ok s' ->
  Inv s' h.
Proof.
  intros Hi Ht Hown Hp Hth Hnf Hgone Et Etp Eo Ens Ep (E1 & E2 & E3 & _) Ea Ec Hok Hlk Hmn. cbn in E1, E2, E3.
  pose proof (owned_no_sleepers s h p pr Hi Hp Hgone) as Hsl.
  pose proof Hi as [H1 H2 H3 H4 H5 H6 H7 H8 H9 H10 H11 H12].
  assert (Hkp : kproc < p) by (destruct (owned_by s h t th p Hi Ht Hown) as (? & ? & ? & ?); done).
  assert (Hal : forall k, alive s' k = alive s k) by (intros k; unfold alive; by rewrite Ea).
  assert (Htb : forall k, table s' k = table s k) by (intros k; unfold table; by rewrite E1).
  assert (Hnt : forall u thu, threads s !! u = Some thu -> t_proc thu <> Some p).
  { intros u thu Hu E. pose proof (no_member s h u thu p pr Hi Hu E Hp). congruence. }
  assert (Hns : forall k ptr, t_pc th <> WaitSleep k ptr) by (intros k ptr E; by rewrite E in Hown).
  split; rewrite ?E1, ?E2, ?E3, ?Ea; try done.
  - destruct H3 as (prk & Hk & ?). exists prk. rewrite Ep, lookup_delete_ne by lia. done.
  - intros q prq. rewrite Ep. intros [Hqp Hq]%lookup_delete_Some.
    destruct (H4 q prq Hq) as [G1 G2 G3 G4 G5 G6].
    split; rewrite ?Htb, ?E3; try done.
    + intros k Hk. eapply kid_ok_frame; [by apply G3|lia|by rewrite Hal|by rewrite Htb|..].
      * intros r prr Hr Hka Hpr Hpid. exists prr. rewrite Ep, lookup_delete_ne; [done|]. intros <-.
        assert (prr = pr) as -> by congruence. rewrite Hal in Hka. subst k.
        destruct Hgone as [?|Hno]; [congruence|]. by destruct (Hno q prq Hq).
      * intros r u thu _ Hu Hup Huc _. left. exists thu. rewrite Et, lookup_insert_ne; [done|]. intros <-.
        rewrite Ht in Hu. injection Hu as <-. by destruct (Hnf r).
    + intros u Hu. destruct (G4 u Hu) as (thu & Hu1 & Hu2). rewrite Et, lookup_insert. case_decide; [subst u|eauto].
      exists th'. split; [done|]. congruence.
    + intros u Hu. destruct (G5 u Hu) as (thu & ptr & Hu1 & Hu2). rewrite Et, lookup_insert_ne; [eauto|].
      intros <-. apply (Hns (pid prq) ptr). congruence.
  - intros u thu. rewrite Et, lookup_insert. case_decide as Hut; [intros [= <-]; by subst|]. intros Hu.
    eapply thr_ok_frame; [by apply H5|by intros; rewrite Hal| | |].
    + intros q prq Hq Hrel. exists prq. rewrite Ep, lookup_delete_ne; [by repeat split|]. intros <-.
      assert (prq = pr) as -> by congruence.
      destruct Hrel as [?|[?|[Hin _]]]; [by eapply Hnt|by apply Hut; eapply (H6 t u th thu p)|].
      rewrite Hsl in Hin. by apply elem_of_nil in Hin.
    + intros p2 pr2 _ _ _ Hno q prq. rewrite Ep. intros [_ Hq]%lookup_delete_Some. by apply (Hno q).
    + intros k ptr Hk. by destruct (sleep_pid s h u thu k ptr Hi Hu Hk).
  - intros t1 t2 th1 th2 p2. rewrite Et, !lookup_insert. do 2 case_decide; subst; try done.
    + intros [= <-] _ Ho. congruence.
    + intros _ [= <-] _ Ho. congruence.
    + by apply H6.
  - rewrite Ec, H8, Ep, <- (insert_delete_id (procs s) p pr Hp) at 1.
    rewrite map_size_insert_None by apply lookup_delete_eq. lia.
  - intros k Hk. rewrite Hal. by apply H9.
  - intros k Hk. rewrite Hal. by apply H10.
Qed.

Lemma proc_pid_table s h p pr :
  Inv s h -> procs s !! p = Some pr -> 2 <= pid pr -> table s (pid pr) = Some (Some p).
Proof. intros Hi Hp Hpid. destruct (po_pid _ _ _ (iv_proc _ _ Hi p pr Hp)) as [?|[_ ?]]; [lia|done]. Qed.

Lemma count_pos s h p : Inv s h -> is_Some (procs s !! p) -> kproc < p -> 0 < proc_count s.
Proof.
  intros Hi Hp Hk. rewrite (iv_count _ _ Hi). destruct (iv_kproc _ _ Hi) as (prk & Hpk & _).
  pose proof (size_ge_2 (procs s) kproc p ltac:(eauto) Hp ltac:(lia)). lia.
Qed.

Lemma exit_destroy_good s h t th p :
  Inv s h -> threads s !! t = Some th -> t_pc th = ExitDestroy p -> good_run (exit_destroy t p) s h.
Proof.
  intros Hi Ht Hpc. destruct (owned_by s h t th p) as (pr & Hp & Hkp & Hth & Ho); rewrite ?Hpc; try done.
  rewrite Hpc in Ho. destruct Ho as [Hpid Hal].
  assert (Hsl : cv_sleepers pr = []) by (eapply owned_no_sleepers; [done|done|by left]).
  destruct (proc_destroy_run s p pr) as (v & E); try done; [by eapply proc_pid_table|by eapply count_pos|].
  assert (Hne : t <> menu_thread) by (eapply not_menu; [apply Hi|done|by rewrite Hpc]).
  assert (Hnp : t_proc th = None).
  { pose proof (to_proc _ _ _ _ (iv_thr _ _ Hi t th Ht)) as Hq. by rewrite Hpc in Hq. }
  unfold exit_destroy, good_run. rewrite (bind_ok _ _ _ _ _ E). clear E. set (s1 := set_count _ _ _).
  rewrite (bind_ok _ _ _ _ _ (set_pc_run t th Exited s1 Ht)). eexists _, _. split; [done|].
  apply inv_hist; [|done].
  eapply (inv_destroy s h _ t th (mk_thread (t_proc th) Exited) p pr); rewrite ?Hpc; try done.
  - by left.
  - split; cbn; try done. intros ? ? ? [|]; done.
  - eapply lock_ok_same; [apply Hi|done|done|done|by rewrite Hpc].
  - eapply (menu_ok_destroy s _ h t th _ p); rewrite ?Hpc; try done; eauto.
Qed.

Lemma fork_copy_fail_good s h t th p result asid :
  Inv s h -> threads s !! t = Some th -> t_pc th = ForkCopy p -> result <> 0 ->
  good_run (fork_copy t p result asid) s h.
Proof.
  intros Hi Ht Hpc Hres. destruct (owned_by s h t th p) as (pr & Hp & Hkp & Hth & Ho); rewrite ?Hpc; try done.
  rewrite Hpc in Ho. destruct Ho as (Hpid & Hal & _ & Hno).
  assert (Hsl : cv_sleepers pr = []) by (eapply owned_no_sleepers; [done|done|by right]).
  destruct (proc_destroy_run s p pr) as (v & E); try done; [by eapply proc_pid_table|by eapply count_pos|].
  destruct (user_member s h t th) as (q & prq & Hq & Hpq & Hm & Hqk & _ & Hne); rewrite ?Hpc; try done.
  rewrite Hpc in Hm. pose proof Hm as [Hthq _].
  unfold fork_copy, good_run. rewrite (bind_ok _ _ _ _ _ (get_proc_run p pr s Hp)).
  rewrite (proj2 (Z.ltb_lt 0 _)) by lia. rewrite (proj2 (Z.eqb_neq result 0)) by done. cbn [negb].
  rewrite (bind_ok _ _ _ _ _ E). clear E. set (s1 := set_count _ _ _).
  rewrite (bind_ok _ _ _ _ _ (set_pc_run t th User s1 Ht)). eexists _, _. split; [done|].
  apply inv_hist; [|done].
  eapply (inv_destroy s h _ t th (mk_thread (t_proc th) User) p pr); rewrite ?Hpc; try done.
  - by right.
  - rewrite Hq. apply thr_ok_member with prq; try done.
    + cbn. rewrite lookup_delete_ne; [done|]. intros ->. congruence.
    + intros ? ? ? [|]; done.
  - eapply lock_ok_same; [apply Hi|done|done|done|by rewrite Hpc].
  - eapply (menu_ok_destroy s _ h t th _ p); rewrite ?Hpc; try done; eauto.
Qed.

(** ** Leaving a process *)

Lemma pid_inj s h p1 p2 pr1 pr2 :
  Inv s h -> procs s !! p1 = Some pr1 -> procs s !! p2 = Some pr2 -> 2 <= pid pr1 -> pid pr1 = pid pr2 -> p1 = p2.
Proof.
  intros Hi H1 H2 Hp E. pose proof (proc_pid_table s h p1 pr1 Hi H1 Hp) as T1.
  pose proof (proc_pid_table s h p2 pr2 Hi H2 ltac:(lia)) as T2. congruence.
Qed.

(** A process with one thread: no other thread is in it or works on it. *)
Lemma only_member s h q pr t :
  Inv s h -> procs s !! q = Some pr -> p_threads pr = [t] ->
  (forall u thu, threads s !! u = Some thu -> t_proc thu = Some q -> u = t) /\
  (forall u thu, threads s !! u = Some thu -> owns (t_pc thu) <> Some q).
Proof.
  intros Hi Hp Hth. split; intros u thu Hu Huq.
  - pose proof (no_member s h u thu q pr Hi Hu Huq Hp). congruence.
  - destruct (owned_by s h u thu q Hi Hu Huq) as (pr' & Hp' & _ & Hth' & _). congruence.
Qed.

Lemma inv_detach s h s' t th q pr :
  Inv s h -> threads s !! t = Some th -> t_pc th = ExitRem -> t_proc th = Some q ->
  procs s !! q = Some pr -> member_ok s t (t_pc th) q pr ->
  threads s' = <[t := mk_thread None (ExitDestroy q)]> (threads s) ->
  procs s' = <[q := with_threads pr []]> (procs s) -> aliveTable s' = aliveTable s ->
  same_tables s s' -> no_proc_sem s' = no_proc_sem s -> lk_tb s' = lk_tb s -> Inv s' h.
Proof.
  intros Hi Ht Hpc Hq Hp [Hth Hm] Et Ep Ea (E1 & E2 & E3 & E4) En El. rewrite Hpc in Hm.
  destruct Hm as (Hqk & Hpid & Hal & _ & _). cbn in Hal.
  pose proof Hi as [H1 H2 H3 H4 H5 H6 H7 H8 H9 H10 H11 H12].
  assert (Hsl : cv_sleepers pr = []) by (eapply owned_no_sleepers; [done|done|by left]).
  assert (Hal' : forall k, alive s' k = alive s k) by (intros k; unfold alive; by rewrite Ea).
  assert (Htb : forall k, table s' k = table s k) by (intros k; unfold table; by rewrite E1).
  assert (Hkq : kproc < q) by (pose proof (po_pos _ _ _ (H4 q pr Hp)); lia).
  destruct (only_member s h q pr t Hi Hp Hth) as [Hmem Hno].
  split; rewrite ?E1, ?E2, ?E3, ?E4, ?Ea; try done.
  - destruct H3 as (prk & Hk & ?). exists prk. rewrite Ep, lookup_insert_ne by lia. done.
  - assert (Hproc : forall p prp, procs s !! p = Some prp -> p_threads prp <> [t] ->
      proc_ok s' p prp).
    { intros p prp Hpp Hnt. destruct (H4 p prp Hpp) as [G1 G2 G3 G4 G5 G6].
      split; rewrite ?Htb, ?E3; try done.
      - intros k Hk. eapply kid_ok_frame; [by apply G3|lia|by rewrite Hal'|by rewrite Htb|..].
        + intros r prr Hr Hka Hpr Hpk. rewrite Hal' in Hka. exists prr. rewrite Ep, lookup_insert_ne; [done|].
          intros <-. congruence.
        + intros r u thu _ Hu Hup Huc _. left. exists thu. rewrite Et, lookup_insert_ne; [done|]. congruence.
      - intros u Hu. destruct (G4 u Hu) as (thu & Hu1 & Hu2). exists thu. rewrite Et, lookup_insert_ne; [done|].
        intros <-. apply Hnt. eapply no_member; [done|done|by rewrite Hu2|done].
      - intros u Hu. destruct (G5 u Hu) as (thu & ptr & Hu1 & Hu2). exists thu, ptr.
        rewrite Et, lookup_insert_ne; [done|]. congruence. }
    intros p prp. rewrite Ep, lookup_insert. case_decide as Hqp.
    + intros [= <-]. subst p. destruct (H4 q pr Hp) as [G1 G2 G3 G4 G5 G6].
      split; cbn; rewrite ?Htb, ?E3, ?Hsl; try done; [|by intros u ?%elem_of_nil..].
      intros k Hk. eapply kid_ok_frame; [by apply G3|lia|by rewrite Hal'|by rewrite Htb|..].
      * intros r prr Hr Hka Hpr Hpk. rewrite Hal' in Hka. exists prr. rewrite Ep, lookup_insert_ne; [done|].
        intros <-. congruence.
      * intros r u thu _ Hu Hup Huc _. assert (u = t) as -> by (by eapply Hmem). congruence.
    + intros Hpp. apply Hproc; [done|]. intros E.
      destruct (po_threads _ _ _ (H4 p prp Hpp) t) as (tht & Ht1 & Ht2); [rewrite E; left|]. congruence.
  - intros u thu. rewrite Et, lookup_insert. case_decide as Hut.
    + intros [= <-]. subst u. split; cbn; try done.
      * intros p [= <-]. exists (with_threads pr []). rewrite Ep, lookup_insert_eq. split; [done|].
        split; [done|]. split; [done|]. cbn. by rewrite Hal'.
      * intros ? ? ? [|]; done.
    + intros Hu. eapply thr_ok_frame; [by apply H5|by intros; rewrite Hal'| | |].
      * intros r prr Hr Hrel. exists prr. rewrite Ep, lookup_insert_ne; [by repeat split|]. intros <-.
        assert (prr = pr) as -> by congruence.
        destruct Hrel as [?|[?|[Hin _]]]; [by apply Hut; symmetry; eapply Hmem|by eapply Hno|].
        rewrite Hsl in Hin. by apply elem_of_nil in Hin.
      * intros p2 pr2 _ _ _ Hnk r prr. rewrite Ep, lookup_insert. case_decide; [|by apply Hnk].
        intros [= <-]. subst r. by apply (Hnk q pr).
      * intros k ptr Hk. by destruct (sleep_pid s h u thu k ptr Hi Hu Hk).
  - intros t1 t2 th1 th2 p2. rewrite Et, !lookup_insert. do 2 case_decide; subst; try done.
    + intros [= <-] Hu [= <-] Ho. by destruct (Hno t2 th2 Hu).
    + intros Hu [= <-] Ho [= <-]. by destruct (Hno t1 th1 Hu).
    + by apply H6.
  - intros u. rewrite El, Et, (H7 u), lookup_insert. case_decide as Hut; [subst u|done].
    split; intros (th' & E & Hlk); [|by injection E as <-]. rewrite Ht in E. injection E as <-. by rewrite Hpc in Hlk.
  - rewrite Ep, map_size_insert_Some; [done|eauto].
  - intros k Hk. rewrite Hal'. by apply H9.
  - intros k Hk. rewrite Hal'. by apply H10.
  - eapply menu_ok_other; [done| |done|done|done]. eapply not_menu; [done|done|by rewrite Hpc].
Qed.

Lemma exit_rem_good s h t th :
  Inv s h -> threads s !! t = Some th -> t_pc th = ExitRem -> good_run (exit_rem t) s h.
Proof.
  intros Hi Ht Hpc. destruct (user_member s h t th) as (q & pr & Hq & Hp & Hm & _); rewrite ?Hpc; try done.
  pose proof Hm as [Hth _]. unfold exit_rem, good_run, proc_remthread. mrun.
  rewrite (bind_ok _ _ _ _ _ (get_thread_run t th s Ht)), Hq. mrun.
  rewrite (bind_ok _ _ _ _ _ (get_thread_run t th s Ht)), Hq. mrun.
  rewrite (bind_ok _ _ _ _ _ (get_proc_run q pr s Hp)), Hth. cbn [list_find]. rewrite decide_True by done.
  unfold put_proc, put_thread. mrun. cbn [delete list_delete].
  set (s1 := set_threads _ _). rewrite (bind_ok _ _ _ _ _ (set_pc_run t (mk_thread None (t_pc th)) _ s1
    (lookup_insert_eq _ _ _))).
  eexists _, _. split; [done|]. apply inv_hist; [|done].
  eapply (inv_detach s h _ t th q pr); try done. cbn. by rewrite insert_insert_eq.
Qed.

(** ** Announcing an exit *)

(** The thread [th] after a broadcast. *)
Definition wake (th : thread) : thread :=
  match th with mk_thread q (WaitSleep k ptr) => mk_thread q (WaitLock k ptr) | _ => th end.

Definition woken (l : list Z) (m : gmap Z thread) : gmap Z thread :=
  foldr (fun u m =>
    match m !! u with
    | Some (mk_thread q (WaitSleep k ptr)) => <[u := mk_thread q (WaitLock k ptr)]> m
    | _ => m
    end) m l.

Lemma wake_wake th : wake (wake th) = wake th.
Proof. by destruct th as [q []]. Qed.

Lemma woken_lookup l m u :
  woken l m !! u = (if decide (u ∈ l) then wake else id) <$> m !! u.
Proof.
  unfold woken. induction l as [|v l IH]; [rewrite decide_False by set_solver; cbn; by destruct (m !! u)|].
  cbn [foldr]. fold (woken l m) in *. set (W := woken l m) in *.
  assert (Hstep : (match W !! v with
    | Some (mk_thread q (WaitSleep k ptr)) => <[v := mk_thread q (WaitLock k ptr)]> W
    | _ => W end) !! u = (if decide (u = v) then wake else id) <$> W !! u).
  { destruct (decide (u = v)) as [->|Hne].
    - destruct (W !! v) as [[q []]|] eqn:E; rewrite ?E; try done. by rewrite lookup_insert_eq.
    - destruct (W !! v) as [[q []]|] eqn:E; rewrite ?lookup_insert_ne by done; by destruct (W !! u). }
  rewrite Hstep, IH. destruct (m !! u) as [th|]; [|done]. cbn [fmap option_fmap option_map].
  repeat case_decide; cbn; rewrite ?wake_wake; try done; set_solver.
Qed.

(** A thread is woken exactly when it sleeps on the process. *)
Lemma wake_props th :
  t_proc (wake th) = t_proc th /\ owns (t_pc (wake th)) = owns (t_pc th) /\
  locked (t_pc (wake th)) = locked (t_pc th) /\ is_menu (t_pc (wake th)) = is_menu (t_pc th) /\
  attached (t_pc (wake th)) = attached (t_pc th) /\ before_mark (t_pc (wake th)) = before_mark (t_pc th) /\
  has_as (t_pc (wake th)) = has_as (t_pc th) /\ waits (t_pc (wake th)) = waits (t_pc th) /\
  (forall k ptr, t_pc (wake th) <> WaitSleep k ptr) /\
  (forall q, t_pc (wake th) = ForkThread q <-> t_pc th = ForkThread q).
Proof. by destruct th as [q []]. Qed.

Lemma thr_ok_wake s h u thu : thr_ok s h u thu -> thr_ok s h u (wake thu).
Proof.
  intros [H1 H2 H3 H4]. destruct (wake_props thu) as (E1 & E2 & _ & E4 & E5 & E6 & E7 & E8 & E9 & _). split.
  - rewrite E5, E1. destruct (attached (t_pc thu)); [|done]. destruct H1 as (q & pr & Hq & Hp & Hth & Hm).
    exists q, pr. split_and!; try done. split; [done|]. by rewrite E4, E6, E7, E8.
  - rewrite E2. intros p Hp. destruct (H2 p Hp) as (pr & ? & ? & Ho). exists pr. split_and!; try done.
    by destruct thu as [? []].
  - intros k ptr E. by destruct (E9 k ptr).
  - intros k ptr st Hst. apply (H4 k ptr st). destruct thu as [? []]; try done; by destruct Hst.
Qed.

Section mark.
Context (s s' : kst) (h : list obs) (t : Z) (th : thread) (q : Z) (pr : proc) (c : Z).
Context (Hi : Inv s h) (Ht : threads s !! t = Some th) (Hpc : t_pc th = ExitMark c)
        (Hq : t_proc th = Some q) (Hp : procs s !! q = Some pr)
        (Hth : p_threads pr = [t]) (Hqk : q <> kproc) (Hpid : 2 <= pid pr < counter_pid s)
        (Has : p_addrspace pr <> None) (Hh : ExitedWith (pid pr) c ∈ h).
Context (Et : threads s' = <[t := mk_thread (Some q) ExitUnlock]> (woken (cv_sleepers pr) (threads s)))
        (Ep : procs s' = <[q := with_sleepers (with_exit pr c (_MKWAIT_EXIT c)) []]> (procs s))
        (Ea : aliveTable s' = <[Z.to_nat (pid pr - 2) := false]> (aliveTable s))
        (Ee : exitTable s' = <[Z.to_nat (pid pr - 2) := c]> (exitTable s))
        (E1 : procTable s' = procTable s) (E3 : counter_pid s' = counter_pid s)
        (E4 : proc_count s' = proc_count s) (En : no_proc_sem s' = no_proc_sem s)
        (El : lk_tb s' = lk_tb s).

Lemma mark_alive k : 2 <= k -> k <> pid pr -> alive s' k = alive s k.
Proof. intros Hk Hne. unfold alive. rewrite Ea. apply list_lookup_insert_ne. lia. Qed.

Lemma mark_alive_own : alive s' (pid pr) = Some false.
Proof.
  unfold alive. rewrite Ea. apply list_lookup_insert_eq.
  destruct (iv_len _ _ Hi) as (_ & _ & ->). pose proof (iv_ctr _ _ Hi). lia.
Qed.

Lemma mark_thread u thu' :
  u <> t -> threads s' !! u = Some thu' ->
  exists thu, threads s !! u = Some thu /\
    thu' = (if decide (u ∈ cv_sleepers pr) then wake thu else thu).
Proof.
  intros Hne. rewrite Et, lookup_insert_ne, woken_lookup by done.
  destruct (threads s !! u) as [thu|]; [|done]. cbn. intros [= <-]. exists thu. by case_decide.
Qed.

Lemma mark_thread_fwd u thu :
  u <> t -> threads s !! u = Some thu ->
  threads s' !! u = Some (if decide (u ∈ cv_sleepers pr) then wake thu else thu).
Proof.
  intros Hne Hu. rewrite Et, lookup_insert_ne, woken_lookup, Hu by done. cbn. by case_decide.
Qed.

Lemma mark_kid p k : kid_ok s p k -> kid_ok s' p k.
Proof.
  intros Hk. pose proof Hk as [Hkr _].
  assert (Hka : alive s' k = Some true -> k <> pid pr /\ alive s k = Some true).
  { intros Ha. assert (k <> pid pr) by (intros ->; rewrite mark_alive_own in Ha; done).
    rewrite mark_alive in Ha by (done || lia). done. }
  eapply kid_ok_frame; [done|lia|by intros [_ ?]%Hka|unfold table; by rewrite E1|..].
  - intros r prr _ _ Hr Hpk. rewrite Ep, lookup_insert. case_decide; [subst r|eauto].
    assert (prr = pr) as -> by congruence. eexists. split; [done|]. done.
  - intros r u thu _ Hu Hup Huc _. left. assert (u <> t) by congruence.
    rewrite (mark_thread_fwd u thu) by done. eexists. split; [done|].
    case_decide; [|done]. destruct (wake_props thu) as (F1 & _ & _ & _ & _ & _ & _ & _ & _ & F2).
    rewrite F1, F2. done.
Qed.

Lemma mark_other u thu : u <> t -> threads s !! u = Some thu ->
  thr_ok s' h u (if decide (u ∈ cv_sleepers pr) then wake thu else thu).
Proof.
  intros Hne Hu. pose proof (iv_thr _ _ Hi u thu Hu) as Hok.
  destruct (only_member s h q pr t Hi Hp Hth) as [Hmem Hno].
  assert (Hok' : thr_ok s h u (if decide (u ∈ cv_sleepers pr) then wake thu else thu))
    by (case_decide; [by apply thr_ok_wake|done]).
  assert (Hrel : forall r prr, procs s !! r = Some prr ->
    relies u (if decide (u ∈ cv_sleepers pr) then wake thu else thu) r prr -> r <> q).
  { intros r prr Hr Hrel ->. assert (prr = pr) as -> by congruence.
    destruct (wake_props thu) as (F1 & F2 & _ & _ & _ & _ & _ & _ & F9 & _).
    destruct Hrel as [E|[E|[Hin (ptr & E)]]]; case_decide; rewrite ?F1, ?F2 in E;
      first [by apply Hne; eapply Hmem|by eapply Hno|by eapply F9|done]. }
  eapply thr_ok_frame; [exact Hok'| | | |].
  - intros k b Hk Hb (r & prr & Hr & Hpk & Hrl). rewrite mark_alive; [done|done|]. intros Ek.
    apply (Hrel r prr Hr Hrl). apply (pid_inj s h r q prr pr); (done || lia).
  - intros r prr Hr Hrl. pose proof (Hrel r prr Hr Hrl). exists prr.
    rewrite Ep, lookup_insert_ne by done. by repeat split.
  - intros p2 pr2 _ _ _ Hnk r prr. rewrite Ep, lookup_insert. destruct (decide (q = r)); [|by apply Hnk].
    intros [= <-]. subst r. by apply (Hnk q pr).
  - clear Hrel Hok'. intros k ptr E. case_decide; [|by destruct (sleep_pid s h u thu k ptr Hi Hu E)].
    by destruct (wake_props thu) as (_ & _ & _ & _ & _ & _ & _ & _ & F9 & _), (F9 k ptr).
Qed.

Lemma inv_mark : Inv s' h.
Proof.
  pose proof Hi as [H1 H2 H3 H4 H5 H6 H7 H8 H9 H10 H11 H12].
  assert (Hne : t <> menu_thread) by (eapply not_menu; [done|done|by rewrite Hpc]).
  assert (Hw : forall u thu', threads s' !! u = Some thu' -> exists thu, threads s !! u = Some thu /\
    owns (t_pc thu') = owns (t_pc thu) /\ locked (t_pc thu') = locked (t_pc thu)).
  { intros u thu'. destruct (decide (u = t)) as [->|Hu].
    - rewrite Et, lookup_insert_eq. intros [= <-]. exists th. by rewrite Hpc.
    - intros Hu'. destruct (mark_thread u thu' Hu Hu') as (thu & ? & ->). exists thu. split; [done|].
      destruct (wake_props thu) as (_ & F2 & F3 & _). by case_decide. }
  split; rewrite ?E1, ?E3, ?E4, ?Ea, ?Ee, ?length_insert; try done.
  - destruct H3 as (prk & Hk & ?). exists prk. by rewrite Ep, lookup_insert_ne.
  - intros p prp Hpp. assert (exists pr0, procs s !! p = Some pr0 /\ pid prp = pid pr0 /\
      childArray prp = childArray pr0 /\ countChild prp = countChild pr0 /\ p_threads prp = p_threads pr0 /\
      (forall u, u ∈ cv_sleepers prp -> p <> q /\ u ∈ cv_sleepers pr0)) as (pr0 & Hp0 & F1 & F2 & F3 & F4 & F5).
    { revert Hpp. rewrite Ep, lookup_insert. case_decide; [intros [= <-]; subst p|]; eauto 10.
      exists pr. split_and!; try done. by intros u ?%elem_of_nil. }
    destruct (H4 p pr0 Hp0) as [G1 G2 G3 G4 G5 G6].
    split; unfold kids, table in *; rewrite ?F1, ?F2, ?F3, ?F4, ?E1, ?E3; try done.
    + intros k Hk. by apply mark_kid, G3.
    + intros u Hu. destruct (G4 u Hu) as (thu & Hu1 & Hu2). destruct (decide (u = t)) as [->|Hut].
      * rewrite Et, lookup_insert_eq. eexists. split; [done|]. cbn. congruence.
      * rewrite (mark_thread_fwd u thu) by done. eexists. split; [done|].
        destruct (wake_props thu) as (Fw & _). case_decide; congruence.
    + intros u Hu. destruct (F5 u Hu) as [Hpq Hu0]. destruct (G5 u Hu0) as (thu & ptr & Hu1 & Hu2).
      assert (u <> t) by congruence. rewrite (mark_thread_fwd u thu) by done.
      case_decide as Hin; [|eauto].
      destruct (po_sleep _ _ _ (H4 q pr Hp) u Hin) as (thu2 & ptr2 & Hu3 & Hu4).
      exfalso. apply Hpq, eq_sym. eapply (pid_inj s h q p pr pr0); try done; [lia|congruence].
  - intros u thu'. destruct (decide (u = t)) as [->|Hu].
    + rewrite Et, lookup_insert_eq. intros [= <-].
      apply (thr_ok_member s' h t q (with_sleepers (with_exit pr c (_MKWAIT_EXIT c)) [])); try done.
      * by rewrite Ep, lookup_insert_eq.
      * split; [done|]. split_and!; try done; [cbn; lia|apply mark_alive_own].
      * intros ? ? ? [|]; done.
    + intros Hu'. destruct (mark_thread u thu' Hu Hu') as (thu & Hu2 & ->). by apply mark_other.
  - intros t1 t2 th1 th2 p Ht1 Ht2 Ho1 Ho2. destruct (Hw t1 th1 Ht1) as (th1' & ? & F1 & _).
    destruct (Hw t2 th2 Ht2) as (th2' & ? & F2 & _). eapply (H6 t1 t2 th1' th2' p); congruence.
  - intros u. rewrite El, (H7 u). split; intros (thu & Hu & Hlk).
    + destruct (decide (u = t)) as [->|Hut]; [rewrite Et, lookup_insert_eq; eauto|].
      rewrite (mark_thread_fwd u thu) by done. eexists. split; [done|].
      destruct (wake_props thu) as (_ & _ & Fw & _). case_decide; congruence.
    + destruct (Hw u thu Hu) as (thu' & ? & _ & Fw). exists thu'. split; [done|congruence].
  - rewrite Ep, map_size_insert_Some; [done|eauto].
  - intros k Hk Hka. destruct (decide (k = pid pr)) as [->|Hkp].
    + exists c. split; [|done]. apply list_lookup_insert_eq. lia.
    + rewrite mark_alive in Hka by (done || lia). destruct (H9 k Hk Hka) as (e & He & Hin). exists e.
      split; [|done]. rewrite list_lookup_insert_ne by lia. done.
  - intros k Hk. rewrite mark_alive by lia. by apply H10.
  - destruct H11 as (th0 & G1 & G2 & G3 & G4). exists th0. rewrite E4, En. split; [|done].
    rewrite (mark_thread_fwd _ th0) by done. case_decide; [|done]. by destruct th0 as [? []].
Qed.

End mark.

Lemma exit_mark_good s h t th c :
  Inv s h -> threads s !! t = Some th -> t_pc th = ExitMark c -> good_run (exit_mark t c) s h.
Proof.
  intros Hi Ht Hpc.
  destruct (user_member s h t th) as (q & pr & Hq & Hp & Hm & Hqk & Hpid & Hne); rewrite ?Hpc; try done.
  rewrite Hpc in Hm. destruct Hm as [Hth (_ & _ & _ & Has & _)]. pose proof (iv_ctr _ _ Hi) as Hctr.
  destruct (iv_len _ _ Hi) as (_ & Hle & Hla).
  assert (Hlk : lk_tb s = Some t) by (apply (iv_lock _ _ Hi); exists th; by rewrite Hpc).
  unfold exit_mark, good_run. rewrite (bind_ok _ _ _ _ _ (curproc_run t th q pr s Ht Hq Hp)).
  unfold put_proc, cv_broadcast. mrun. cbn [exitTable aliveTable set_procs].
  rewrite !set_at_in_range by (unfold zlength; lia). mrun. cbn [lk_tb set_exits set_procs].
  rewrite bool_decide_eq_true_2 by done. mrun. set (s1 := set_exits _ _ _).
  rewrite (bind_ok _ _ _ _ _ (get_proc_run q (with_exit pr c (_MKWAIT_EXIT c)) s1 (lookup_insert_eq _ _ _))).
  unfold put_proc. mrun. set (s2 := set_threads _ _).
  assert (Ht2 : threads s2 !! t = Some th).
  { change (woken (cv_sleepers pr) (threads s) !! t = Some th). rewrite woken_lookup, Ht. cbn.
    destruct th as [? c']; cbn in Hpc; subst c'. by case_decide. }
  rewrite (bind_ok _ _ _ _ _ (set_pc_run t th ExitUnlock s2 Ht2)).
  eexists _, _. split; [done|].
  eapply (inv_mark s _ _ t th q pr c); try done.
  - by apply inv_hist.
  - by apply Has.
  - set_solver.
  - cbn. by rewrite Hq.
  - cbn. by rewrite insert_insert_eq.
Qed.

(** ** Creating a process *)

Lemma inv_create s h s' t th c' p pr0 :
  Inv s h -> threads s !! t = Some th ->
  (exists b, c' = CreatePid b p /\ t_pc th = match b with ByFork => User | ByMenu => Menu end) ->
  procs s !! p = None -> kproc < p ->
  threads s' = <[t := mk_thread (t_proc th) c']> (threads s) ->
  procs s' = <[p := pr0]> (procs s) ->
  p_threads pr0 = [] -> pid pr0 = 0 -> countChild pr0 = 0 -> cv_sleepers pr0 = [] ->
  length (childArray pr0) = 64%nat ->
  aliveTable s' = aliveTable s -> procTable s' = procTable s -> exitTable s' = exitTable s ->
  counter_pid s' = counter_pid s -> lk_tb s' = lk_tb s ->
  proc_count s' = proc_count s + 1 -> no_proc_sem s' = no_proc_sem s -> Inv s' h.
Proof.
  intros Hi Ht (b & -> & Hpc) Hfr Hkp Et Ep F1 F2 F3 F4 F5 Ea E1 E2 E3 El Ec En.
  pose proof Hi as [H1 H2 H3 H4 H5 H6 H7 H8 H9 H10 H11 H12].
  assert (Hal : forall k, alive s' k = alive s k) by (intros k; unfold alive; by rewrite Ea).
  assert (Htb : forall k, table s' k = table s k) by (intros k; unfold table; by rewrite E1).
  assert (Hfwd : forall q prq, procs s !! q = Some prq -> procs s' !! q = Some prq).
  { intros q prq Hq. rewrite Ep, lookup_insert_ne; congruence. }
  assert (Hnof : forall r, t_pc th <> ForkThread r) by (intros r E; rewrite E in Hpc; by destruct b).
  assert (Hnos : forall k ptr, t_pc th <> WaitSleep k ptr) by (intros k ptr E; rewrite E in Hpc; by destruct b).
  assert (Hnoo : owns (t_pc th) = None) by (rewrite Hpc; by destruct b).
  assert (Hkids : kids pr0 = []) by (unfold kids; by rewrite F3).
  assert (Hfree : forall u thu, threads s !! u = Some thu -> owns (t_pc thu) <> Some p).
  { intros u thu Hu Ho. destruct (owned_by s h u thu p Hi Hu Ho) as (pr' & Hp' & _). congruence. }
  split; rewrite ?Ea, ?E1, ?E2, ?E3; try done.
  - destruct H3 as (prk & Hk & ?). exists prk. auto.
  - intros q prq. rewrite Ep, lookup_insert. case_decide as Hpq.
    + intros [= <-]. subst q. split; rewrite ?F1, ?F2, ?F3, ?F4, ?Hkids; try by intros ? ?%elem_of_nil.
      * by left.
      * split; [done|]. split; [lia|constructor].
      * lia.
    + intros Hq. destruct (H4 q prq Hq) as [G1 G2 G3 G4 G5 G6]. split; rewrite ?Htb, ?E3; try done.
      * intros k Hk. eapply kid_ok_frame; [by apply G3|lia|by rewrite Hal|by rewrite Htb|..].
        -- intros r prr _ _ Hr Hpk. exists prr. auto.
        -- intros r u thu _ Hu Hup Huc _. left. exists thu. rewrite Et, lookup_insert_ne; [done|].
           intros <-. rewrite Ht in Hu. injection Hu as <-. by destruct (Hnof r).
      * intros u Hu. destruct (G4 u Hu) as (thu & Hu1 & Hu2). rewrite Et, lookup_insert.
        case_decide; [subst u|eauto]. eexists. split; [done|]. cbn. congruence.
      * intros u Hu. destruct (G5 u Hu) as (thu & ptr & Hu1 & Hu2). rewrite Et, lookup_insert_ne; [eauto|].
        intros <-. apply (Hnos (pid prq) ptr). congruence.
  - intros u thu. rewrite Et, lookup_insert. case_decide as Hut.
    + intros [= <-]. subst u. pose proof (to_proc _ _ _ _ (H5 t th Ht)) as Hm.
      rewrite Hpc in Hm. split; cbn [t_pc t_proc attached].
      * destruct b; cbn in Hm; destruct Hm as (q & prq & ? & Hq & Hmq & Hm); exists q, prq;
          (split; [done|]); (split; [by auto|]); (split; [done|]); [|done].
        cbn. rewrite Hal. destruct Hm as (? & ? & ? & ? & ?). done.
      * intros p' [= <-]. exists pr0. rewrite Ep, lookup_insert_eq. split; [done|]. split; [done|]. done.
      * done.
      * intros ? ? ? [|]; done.
    + intros Hu. eapply thr_ok_frame; [by apply H5|by intros; rewrite Hal| | |].
      * intros q prq Hq _. exists prq. split; [by auto|]. by repeat split.
      * intros p2 pr2 _ _ _ Hno q prq. rewrite Ep, lookup_insert. case_decide; [|by apply Hno].
        intros [= <-]. rewrite Hkids. by intros ?%elem_of_nil.
      * intros k ptr Hk. by destruct (sleep_pid s h u thu k ptr Hi Hu Hk).
  - intros t1 t2 th1 th2 p2. rewrite Et, !lookup_insert. do 2 case_decide; subst; try done.
    + intros [= <-] Hu [= <-] Ho. by destruct (Hfree t2 th2 Hu).
    + intros Hu [= <-] Ho [= <-]. by destruct (Hfree t1 th1 Hu).
    + by apply H6.
  - eapply lock_ok_same; [done|exact Ht|done|done|]. rewrite Hpc. by destruct b.
  - rewrite Ec, H8, Ep, map_size_insert_None by done. lia.
  - intros k Hk. rewrite Hal. by apply H9.
  - intros k Hk. rewrite Hal. by apply H10.
  - destruct H11 as (th0 & G1 & G2 & G3 & G4). destruct b.
    + assert (t <> menu_thread) by (eapply not_menu; [exact (iv_menu _ _ Hi)|done|by rewrite Hpc]).
      destruct (user_member s h t th) as (q & prq & Hq & Hpq & _ & Hqk & _); rewrite ?Hpc; try done.
      assert (0 < proc_count s).
      { eapply count_pos; [done|eauto|]. pose proof (po_pos _ _ _ (H4 q prq Hpq)). lia. }
      exists th0. rewrite Et, lookup_insert_ne, En, Ec by done. split; [done|]. split; [done|].
      rewrite G3. rewrite !(proj2 (Z.eqb_neq _ 0)) by lia. split; [done|]. intros E. specialize (G4 E). lia.
    + pose proof (to_proc _ _ _ _ (H5 t th Ht)) as Hm. rewrite Hpc in Hm.
      destruct Hm as (q & prq & _ & _ & _ & _ & ->). unfold menu_ok. rewrite Et, lookup_insert_eq.
      rewrite Ht in G1. injection G1 as <-. rewrite Hpc in G3.
      eexists. split; [done|]. cbn. rewrite En. done.
Qed.

Lemma proc_create_runprogram_run s h t th e :
  Inv s h -> threads s !! t = Some th -> attached (t_pc th) = true ->
  fresh_env s e = true -> e_path e = true -> e_console e <> None ->
  (proc_create_runprogram t e s = Ret (0, s)) \/
  (exists p pr0 v, proc_create_runprogram t e s = Ret (p, set_count (set_procs (set_vrefs s v)
       (<[p := pr0]> (procs s))) (proc_count s + 1) (no_proc_sem s)) /\
     kproc < p /\ procs s !! p = None /\ p_threads pr0 = [] /\ pid pr0 = 0 /\ countChild pr0 = 0 /\
     cv_sleepers pr0 = [] /\ length (childArray pr0) = 64%nat).
Proof.
  intros Hi Ht Hat Hfr Hpath Hcon. unfold proc_create_runprogram, proc_create.
  unfold fresh_env, fresh_id in Hfr.
  destruct (Z.eqb_spec (e_proc e) 0) as [E0|E0]; [by left|]. cbn [orb] in Hfr. bprop.
  match goal with H : bool_decide (procs s !! _ = None) = true |- _ => apply bool_decide_eq_true in H as Hnp end.
  destruct (e_name e); [|by left]. right. cbn [negb]. unfold put_proc. mrun.
  rewrite (proj2 (Z.eqb_neq (e_proc e) 0)) by done. rewrite Hpath. mrun.
  destruct (e_console e) as [v|]; [|done]. unfold VOP_INCREF. mrun.
  pose proof (to_proc _ _ _ _ (iv_thr _ _ Hi t th Ht)) as Hm. rewrite Hat in Hm.
  destruct Hm as (q & prq & Hq & Hpq & _).
  set (s1 := set_vrefs _ _).
  assert (Hpq1 : procs s1 !! q = Some prq) by (cbn; rewrite lookup_insert_ne; congruence).
  rewrite (bind_ok _ _ _ _ _ (curproc_run t th q prq s1 Ht Hq Hpq1)). cbn beta iota zeta.
  destruct (p_cwd prq) as [c|]; mrun; eexists (e_proc e), _, _;
    (split; [cbn; by rewrite insert_insert_eq|]); cbn; split_and!; done.
Qed.

Lemma sys_fork_good s h t th e :
  Inv s h -> threads s !! t = Some th -> t_pc th = User -> fresh_env s e = true -> good (Fork e) ->
  good_run (sys_fork t e) s h.
Proof.
  intros Hi Ht Hpc Hfr [Hpath Hcon].
  destruct (proc_create_runprogram_run s h t th e) as [E|(p & pr0 & v & E & Hk & Hn & F1 & F2 & F3 & F4 & F5)];
    rewrite ?Hpc; try done; unfold sys_fork, good_run; rewrite (bind_ok _ _ _ _ _ E); clear E.
  - eexists _, s. split; [done|]. by apply inv_hist.
  - rewrite (proj2 (Z.eqb_neq p 0)) by (unfold kproc in Hk; lia). set (s1 := set_count _ _ _).
    rewrite (bind_ok _ _ _ _ _ (set_pc_run t th (CreatePid ByFork p) s1 Ht)).
    eexists _, _. split; [done|]. apply inv_hist; [|done].
    eapply (inv_create s h _ t th (CreatePid ByFork p) p pr0); try done. exists ByFork. done.
Qed.

Lemma common_prog_good s h t th e :
  Inv s h -> threads s !! t = Some th -> t_pc th = Menu -> fresh_env s e = true -> good (Run e) ->
  good_run (common_prog t e) s h.
Proof.
  intros Hi Ht Hpc Hfr [Hpath Hcon].
  destruct (proc_create_runprogram_run s h t th e) as [E|(p & pr0 & v & E & Hk & Hn & F1 & F2 & F3 & F4 & F5)];
    rewrite ?Hpc; try done; unfold common_prog, good_run; rewrite (bind_ok _ _ _ _ _ E); clear E.
  - eexists _, s. split; [done|]. by apply inv_hist.
  - rewrite (proj2 (Z.eqb_neq p 0)) by (unfold kproc in Hk; lia). set (s1 := set_count _ _ _).
    rewrite (bind_ok _ _ _ _ _ (set_pc_run t th (CreatePid ByMenu p) s1 Ht)).
    eexists _, _. split; [done|]. apply inv_hist; [|done].
    eapply (inv_create s h _ t th (CreatePid ByMenu p) p pr0); try done. exists ByMenu. done.
Qed.

(** ** Numbering a process *)

Lemma inv_number s h s' t th c' b p pr :
  Inv s h -> threads s !! t = Some th -> t_pc th = CreatePid b p ->
  c' = (match b with ByFork => ForkCopy p | ByMenu => RunThread p end) ->
  procs s !! p = Some pr -> counter_pid s < 66 ->
  threads s' = <[t := mk_thread (t_proc th) c']> (threads s) ->
  procs s' = <[p := with_pid pr (counter_pid s)]> (procs s) ->
  procTable s' = <[Z.to_nat (counter_pid s - 2) := Some p]> (procTable s) ->
  counter_pid s' = counter_pid s + 1 ->
  aliveTable s' = aliveTable s -> exitTable s' = exitTable s -> lk_tb s' = lk_tb s ->
  proc_count s' = proc_count s -> no_proc_sem s' = no_proc_sem s -> Inv s' h.
Proof.
  intros Hi Ht Hpc -> Hp Hctr Et Ep E1 E3 Ea E2 El Ec En.
  destruct (owned_by s h t th p) as (pr' & Hp' & Hkp & Hth & Ho); rewrite ?Hpc; try done.
  assert (pr' = pr) as -> by congruence. rewrite Hpc in Ho. destruct Ho as [Hpid Hcc].
  pose proof Hi as [H1 H2 H3 H4 H5 H6 H7 H8 H9 H10 H11 H12].
  assert (Hal : forall k, alive s' k = alive s k) by (intros k; unfold alive; by rewrite Ea).
  assert (Htb : forall k, 2 <= k < counter_pid s -> table s' k = table s k).
  { intros k Hk. unfold table. rewrite E1, list_lookup_insert_ne by lia. done. }
  assert (Hnew : table s' (counter_pid s) = Some (Some p)).
  { unfold table. rewrite E1. apply list_lookup_insert_eq. lia. }
  assert (Hsl : cv_sleepers pr = []).
  { destruct (cv_sleepers pr) as [|u l] eqn:E; [done|].
    destruct (po_sleep _ _ _ (H4 p pr Hp) u) as (thu & ptr & Hu & Hup); [rewrite E; left|].
    rewrite Hpid in Hup. destruct (sleep_pid s h u thu 0 ptr Hi Hu Hup). lia. }
  assert (Hkb : forall q prq k, procs s !! q = Some prq -> k ∈ kids prq -> 2 <= k < counter_pid s).
  { intros q prq k Hq Hk. apply (po_kid _ _ _ (H4 q prq Hq) k Hk). }
  split; rewrite ?Ea, ?E1, ?E2, ?E3, ?Ec, ?length_insert; try done; [lia|..].
  - destruct H3 as (prk & Hk & ?). exists prk. rewrite Ep, lookup_insert_ne by lia. done.
  - intros q prq. rewrite Ep, lookup_insert. case_decide as Hpq.
    + intros [= <-]. subst q. split; cbn; rewrite ?Hth, ?Hsl; try by intros ? ?%elem_of_nil.
      * right. rewrite E3. split; [lia|done].
      * split; [apply (H4 p pr Hp)|]. split; [lia|constructor].
      * lia.
    + intros Hq. destruct (H4 q prq Hq) as [G1 G2 G3 G4 G5 G6]. split; rewrite ?E3; try done.
      * destruct G1 as [?|[? ?]]; [by left|right]. split; [lia|]. by rewrite Htb.
      * intros k Hk. pose proof (Hkb q prq k Hq Hk). eapply kid_ok_frame; [by apply G3|lia|by rewrite Hal|by rewrite Htb|..].
        -- intros r prr _ _ Hr Hpk. rewrite Ep, lookup_insert. case_decide; [subst r|eauto].
           assert (prr = pr) as -> by congruence. lia.
        -- intros r u thu _ Hu Hup Huc _. left. exists thu. rewrite Et, lookup_insert_ne; [done|]. congruence.
      * intros u Hu. destruct (G4 u Hu) as (thu & Hu1 & Hu2). rewrite Et, lookup_insert.
        case_decide; [subst u|eauto]. eexists. split; [done|]. cbn. congruence.
      * intros u Hu. destruct (G5 u Hu) as (thu & ptr & Hu1 & Hu2). rewrite Et, lookup_insert_ne; [eauto|].
        congruence.
  - intros u thu. rewrite Et, lookup_insert. case_decide as Hut.
    + intros [= <-]. subst u. pose proof (to_proc _ _ _ _ (H5 t th Ht)) as Hm.
      rewrite Hpc in Hm. destruct Hm as (q & prq & Hq & Hpq & Hmq & Hm).
      assert (q <> p) by (intros ->; congruence). split; cbn [t_pc t_proc attached].
      * destruct b; cbn in Hm |- *; exists q, prq; rewrite Ep, lookup_insert_ne by done;
          (split; [done|]); (split; [done|]); (split; [done|]); [|done].
        cbn. rewrite Hal. destruct Hm as (? & ? & ? & ? & ?). done.
      * intros p' Hp''. assert (p' = p) as -> by (destruct b; cbn in Hp''; congruence).
        exists (with_pid pr (counter_pid s)). rewrite Ep, lookup_insert_eq. split; [done|]. split; [done|].
        split; [done|]. assert (Hno : forall q0 prq0, <[p:=with_pid pr (counter_pid s)]> (procs s) !! q0 = Some prq0 ->
          counter_pid s ∉ kids prq0).
        { intros q0 prq0. rewrite lookup_insert. case_decide; [intros [= <-]; by intros ?%elem_of_nil|].
          intros Hq0 Hin. pose proof (Hkb q0 prq0 _ Hq0 Hin). lia. }
        destruct b; cbn; rewrite Hal, Ep; split_and!; try done; try lia; apply H10; lia.
      * by destruct b.
      * destruct b; intros ? ? ? [|]; done.
    + intros Hu. eapply thr_ok_frame; [by apply H5|by intros; rewrite Hal| | |].
      * intros q prq Hq Hrel. exists prq. rewrite Ep, lookup_insert_ne; [by repeat split|]. intros <-.
        assert (prq = pr) as -> by congruence. destruct Hrel as [Hr|[Hr|[Hr _]]].
        -- pose proof (no_member s h u thu p pr Hi Hu Hr Hp). congruence.
        -- apply Hut. eapply (H6 t u th thu p); try done. by rewrite Hpc.
        -- rewrite Hsl in Hr. by apply elem_of_nil in Hr.
      * intros p2 pr2 _ _ _ Hno q prq. rewrite Ep, lookup_insert. case_decide; [|by apply Hno].
        intros [= <-]. by intros ?%elem_of_nil.
      * intros k ptr Hk. by destruct (sleep_pid s h u thu k ptr Hi Hu Hk).
  - intros t1 t2 th1 th2 p2. rewrite Et, !lookup_insert. do 2 case_decide; subst; try done.
    + intros [= <-] Hu Ho1 Ho2. assert (p2 = p) as -> by (destruct b; cbn in Ho1; congruence).
      eapply (H6 t1 t2 th th2 p); try done. by rewrite Hpc.
    + intros Hu [= <-] Ho1 Ho2. assert (p2 = p) as -> by (destruct b; cbn in Ho2; congruence).
      eapply (H6 t1 t2 th1 th p); try done. by rewrite Hpc.
    + by apply H6.
  - eapply lock_ok_same; [done|exact Ht|done|done|]. rewrite Hpc. by destruct b.
  - rewrite Ep, map_size_insert_Some; [done|eauto].
  - intros k Hk. rewrite Hal. by apply H9.
  - intros k Hk. rewrite Hal. apply H10. lia.
  - destruct H11 as (th0 & G1 & G2 & G3 & G4). destruct (decide (t = menu_thread)) as [->|Hmt].
    + unfold menu_ok. rewrite Et, lookup_insert_eq. rewrite Ht in G1. injection G1 as <-.
      rewrite Hpc in G2, G3. eexists. split; [done|]. cbn. rewrite En. by destruct b.
    + exists th0. rewrite Et, lookup_insert_ne, Ec, En by done. done.
Qed.

Lemma create_pid_good s h t th b p e :
  Inv s h -> threads s !! t = Some th -> t_pc th = CreatePid b p -> good (Assign e) ->
  if decide (counter_pid s = 66) then create_pid t b p e s = Fault else good_run (create_pid t b p e) s h.
Proof.
  intros Hi Ht Hpc [Hl Hc]. destruct (owned_by s h t th p) as (pr & Hp & Hkp & _); rewrite ?Hpc; try done.
  pose proof (iv_ctr _ _ Hi). destruct (iv_len _ _ Hi) as (Hlen & _).
  unfold create_pid, proc_assign_pid, good_run. case_decide as Hfull.
  - mrun. rewrite (bind_ok _ _ _ _ _ (get_proc_run p pr s Hp)). unfold set_at.
    rewrite Hfull, Hlen. done.
  - mrun. rewrite (bind_ok _ _ _ _ _ (get_proc_run p pr s Hp)).
    rewrite set_at_in_range by (unfold zlength; lia). unfold put_proc. mrun. rewrite Hl, Hc. cbn [negb]. mrun.
    rewrite (proj2 (Z.eqb_neq p 0)) by (unfold kproc in Hkp; lia). cbn [counter_pid set_procs].
    set (s1 := set_tables _ _ _).
    assert (Hrun : forall c', exists o s2, (do* set_pc t c' in ret Silent) s1 = Ret (o, s2) /\ o = Silent /\
      s2 = pc_state s1 t th c').
    { intros c'. rewrite (bind_ok _ _ _ _ _ (set_pc_run t th c' s1 Ht)). by eexists _, _. }
    destruct b; [destruct (Hrun (ForkCopy p)) as (o & s2 & -> & -> & ->)
                |destruct (Hrun (RunThread p)) as (o & s2 & -> & -> & ->)];
      eexists _, _; (split; [done|]); (apply inv_hist; [|done]);
      (eapply (inv_number s h _ t th _ _ p pr); [done|done|exact Hpc|done|done|lia|done..]).
Qed.

(** ** Recording a child *)

Lemma kids_add pr k :
  length (childArray pr) = 64%nat -> 0 <= countChild pr < 64 ->
  kids (with_child pr (countChild pr + 1) (<[Z.to_nat (countChild pr) := k]> (childArray pr))) = kids pr ++ [k].
Proof.
  intros Hl Hc. unfold kids. cbn.
  replace (Z.to_nat (countChild pr + 1)) with (S (Z.to_nat (countChild pr))) by lia.
  rewrite (take_S_r _ _ k) by (apply list_lookup_insert_eq; lia).
  by rewrite take_insert_ge.
Qed.

(** There is room for the child: the children are distinct numbers below the
    counter, and the new one is not among them. *)
Lemma kids_room s h q pr k :
  Inv s h -> procs s !! q = Some pr -> 2 <= k < counter_pid s -> k ∉ kids pr ->
  0 <= countChild pr < 64.
Proof.
  intros Hi Hq Hk Hno. destruct (po_kids _ _ _ (iv_proc _ _ Hi q pr Hq)) as (Hl & Hc & Nd).
  assert (Hsub : (k :: kids pr) ⊆+ seqZ 2 64).
  { apply NoDup_submseteq; [by constructor|]. intros x [->|Hx]%elem_of_cons; apply elem_of_seqZ.
    - pose proof (iv_ctr _ _ Hi). lia.
    - pose proof (iv_ctr _ _ Hi). destruct (po_kid _ _ _ (iv_proc _ _ Hi q pr Hq) x Hx). lia. }
  apply submseteq_length in Hsub. rewrite length_seqZ in Hsub. cbn in Hsub.
  unfold kids in Hsub. rewrite length_take in Hsub. lia.
Qed.

Section child.
Context (s s' : kst) (h : list obs) (t : Z) (th : thread) (q : Z) (pr : proc) (p : Z) (c : proc) (asid : Z).
Context (Hi : Inv s h) (Ht : threads s !! t = Some th) (Hpc : t_pc th = ForkCopy p)
        (Hq : t_proc th = Some q) (Hpq : procs s !! q = Some pr) (Hth : p_threads pr = [t])
        (Hqk : q <> kproc) (Hp : procs s !! p = Some c) (Hkp : kproc < p) (Hcth : p_threads c = [])
        (Hpid : 2 <= pid c) (Hca : alive s (pid c) = Some true)
        (Hno : forall r prr, procs s !! r = Some prr -> pid c ∉ kids prr).
Let pr' := with_child pr (countChild pr + 1) (<[Z.to_nat (countChild pr) := pid c]> (childArray pr)).
Let c' := with_as c (Some asid).
Context (Et : threads s' = <[t := mk_thread (Some q) (ForkThread p)]> (threads s))
        (Ep : procs s' = <[q := pr']> (<[p := c']> (procs s)))
        (Ea : aliveTable s' = aliveTable s) (E1 : procTable s' = procTable s)
        (E2 : exitTable s' = exitTable s) (E3 : counter_pid s' = counter_pid s)
        (El : lk_tb s' = lk_tb s) (Ec : proc_count s' = proc_count s)
        (En : no_proc_sem s' = no_proc_sem s).

Lemma child_ne : q <> p.
Proof. intros ->. congruence. Qed.

Lemma child_range : 2 <= pid c < counter_pid s.
Proof. destruct (po_pid _ _ _ (iv_proc _ _ Hi p c Hp)); lia. Qed.

Lemma child_kids : kids pr' = kids pr ++ [pid c].
Proof.
  apply kids_add; [apply (iv_proc _ _ Hi q pr Hpq)|].
  eapply kids_room; [done|done|exact child_range|by eapply Hno].
Qed.

(** The processes before and after: the same but for the new child. *)
Lemma child_procs r prr :
  procs s' !! r = Some prr ->
  exists pr0, procs s !! r = Some pr0 /\ p_threads prr = p_threads pr0 /\ pid prr = pid pr0 /\
    cv_sleepers prr = cv_sleepers pr0 /\ kids prr = (if decide (r = q) then kids pr0 ++ [pid c] else kids pr0).
Proof.
  rewrite Ep, lookup_insert. destruct (decide (q = r)) as [<-|Hqr].
  - intros [= <-]. exists pr. rewrite decide_True, child_kids by done. done.
  - assert (r <> q) by congruence. rewrite lookup_insert. destruct (decide (p = r)) as [<-|].
    + intros [= <-]. exists c. by rewrite decide_False.
    + intros Hr. exists prr. by rewrite decide_False.
Qed.

Lemma child_procs_fwd r pr0 :
  procs s !! r = Some pr0 ->
  exists prr, procs s' !! r = Some prr /\ p_threads prr = p_threads pr0 /\ pid prr = pid pr0 /\
    (r <> q -> r <> p -> prr = pr0).
Proof.
  intros Hr. rewrite Ep. destruct (decide (r = q)) as [->|Hrq].
  - exists pr'. rewrite lookup_insert_eq. assert (pr0 = pr) as -> by congruence. done.
  - rewrite lookup_insert_ne by done. destruct (decide (r = p)) as [->|Hrp].
    + exists c'. rewrite lookup_insert_eq. assert (pr0 = c) as -> by congruence. done.
    + exists pr0. rewrite lookup_insert_ne by done. done.
Qed.

Lemma child_kid r k : kid_ok s r k -> kid_ok s' r k.
Proof.
  intros Hk. eapply kid_ok_frame; [done|lia|unfold alive; by rewrite Ea|unfold table; by rewrite E1|..].
  - intros u pru _ _ Hu Hpu. destruct (child_procs_fwd u pru Hu) as (pru' & Hu' & F1 & F2 & _).
    exists pru'. rewrite F1, F2. done.
  - intros u t2 th2 _ Ht2 ? Hc2 _. left. exists th2. rewrite Et, lookup_insert_ne; [done|]. congruence.
Qed.

Lemma inv_child : Inv s' h.
Proof.
  pose proof Hi as [H1 H2 H3 H4 H5 H6 H7 H8 H9 H10 H11 H12]. pose proof child_ne as Hne.
  pose proof child_range as Hrg.
  assert (Hal : forall k, alive s' k = alive s k) by (intros k; unfold alive; by rewrite Ea).
  assert (Htb : forall k, table s' k = table s k) by (intros k; unfold table; by rewrite E1).
  destruct (only_member s h q pr t Hi Hpq Hth) as [Hmem Hnown].
  split; rewrite ?Ea, ?E1, ?E2, ?E3, ?Ec; try done.
  - destruct H3 as (prk & Hk & ?). destruct (child_procs_fwd _ _ Hk) as (x & ? & _ & F & _). exists x. by rewrite F.
  - intros r prr Hr. destruct (child_procs r prr Hr) as (pr0 & Hr0 & F1 & F2 & F3 & F4).
    destruct (H4 r pr0 Hr0) as [G1 G2 G3 G4 G5 G6]. split; rewrite ?F1, ?F2, ?F3, ?Htb, ?E3; try done.
    + rewrite F4. revert Hr. rewrite Ep, lookup_insert. destruct (decide (q = r)) as [<-|Hqr].
      * intros [= <-]. assert (pr0 = pr) as -> by congruence.
        pose proof (kids_room s h q pr (pid c) Hi Hpq Hrg ltac:(by eapply Hno)).
        cbn. rewrite length_insert, decide_True by done. split; [apply G2|]. split; [lia|].
        apply NoDup_app. split; [apply G2|]. split; [|apply NoDup_singleton].
        intros x Hx ->%list_elem_of_singleton. by eapply Hno.
      * rewrite lookup_insert. rewrite (decide_False (P := r = q)) by congruence.
        destruct (decide (p = r)) as [<-|]; intros E; [injection E as <-; assert (pr0 = c) as -> by congruence; done|].
        assert (pr0 = prr) as -> by congruence. done.
    + intros k. rewrite F4. case_decide as Hrq; [|intros; by apply child_kid, G3].
      intros [Hk| ->%list_elem_of_singleton]%elem_of_app; [by apply child_kid, G3|].
      subst r. split; [lia|]. intros _. exists p, c'. rewrite Htb. split; [by eapply proc_pid_table|].
      rewrite Ep, lookup_insert_ne, lookup_insert_eq by done. split; [done|]. split; [done|]. right.
      exists t, (mk_thread (Some q) (ForkThread p)). by rewrite Et, lookup_insert_eq.
    + intros u Hu. destruct (G4 u Hu) as (thu & Hu1 & Hu2). rewrite Et, lookup_insert.
      destruct (decide (t = u)) as [<-|]; [|eauto]. eexists. split; [done|]. cbn. congruence.
    + intros u Hu. destruct (G5 u Hu) as (thu & ptr & Hu1 & Hu2). rewrite Et, lookup_insert_ne; [eauto|].
      congruence.
  - intros u thu. rewrite Et, lookup_insert. case_decide as Hut.
    + intros [= <-]. subst u. pose proof (to_proc _ _ _ _ (H5 t th Ht)) as Hm.
      rewrite Hpc in Hm. destruct Hm as (q2 & pr2 & Hq2 & Hpq2 & _ & Hm).
      assert (q2 = q) as -> by congruence. assert (pr2 = pr) as -> by congruence.
      split; cbn [t_pc t_proc attached]; try done.
      * exists q, pr'. rewrite Ep, lookup_insert_eq. split; [done|]. split; [done|]. split; [done|].
        cbn in Hm |- *. rewrite Hal. destruct Hm as (? & ? & ? & ? & ?). done.
      * intros p' [= <-]. exists c'. rewrite Ep, lookup_insert_ne, lookup_insert_eq by done.
        split; [done|]. split; [done|]. split; [done|]. cbn. rewrite Hal. done.
      * intros ? ? ? [|]; done.
    + intros Hu. assert (Hrel : forall r prr, procs s !! r = Some prr ->
        relies u thu r prr -> r <> p /\ (r = q -> t_proc thu <> Some q /\ owns (t_pc thu) <> Some q)).
      { intros r prr Hr Hrel. split.
        - intros ->. assert (prr = c) as -> by congruence. destruct Hrel as [Hx|[Hx|[Hx _]]].
          + pose proof (no_member s h u thu p c Hi Hu Hx Hp). congruence.
          + apply Hut. eapply (H6 t u th thu p); try done. by rewrite Hpc.
          + rewrite (owned_no_sleepers s h p c Hi Hp) in Hx by (by right). by apply elem_of_nil in Hx.
        - intros ->. split; [|by apply (Hnown u thu Hu)]. intros Hx. by destruct Hut; symmetry; eapply Hmem. }
      eapply thr_ok_frame; [by apply H5|by intros; rewrite Hal| | |].
      * intros r prr Hr Hrl. destruct (Hrel r prr Hr Hrl) as [Hrp Hrq].
        destruct (decide (r = q)) as [->|Hrq'].
        -- exists pr'. assert (prr = pr) as -> by congruence. rewrite Ep, lookup_insert_eq.
           split_and!; try done. destruct (Hrq eq_refl). by intros [?|?].
        -- exists prr. rewrite Ep, !lookup_insert_ne by done. by split_and!.
      * intros p2 pr2 Hp2 Hpr2 Hpid2 Hno2 r prr Hr. destruct (child_procs r prr Hr) as (pr0 & Hr0 & _ & _ & _ & ->).
        case_decide; [|by eapply Hno2]. intros [?| Hx%list_elem_of_singleton]%elem_of_app; [by eapply Hno2|].
        assert (p2 = p) as -> by (by eapply (pid_inj s h p2 p pr2 c)). apply Hut.
        eapply (H6 t u th thu p); try done. by rewrite Hpc.
      * intros k ptr Hk. by destruct (sleep_pid s h u thu k ptr Hi Hu Hk).
  - intros t1 t2 th1 th2 p2. rewrite Et, !lookup_insert. do 2 case_decide; subst; try done.
    + intros [= <-] Hu [= <-] Ho2. eapply (H6 t1 t2 th th2 p); try done. by rewrite Hpc.
    + intros Hu [= <-] Ho1 [= <-]. eapply (H6 t1 t2 th1 th p); try done. by rewrite Hpc.
    + by apply H6.
  - eapply (lock_ok_same s s' t th); [done|exact Ht|by rewrite Hq|done|]. by rewrite Hpc.
  - rewrite Ep, !map_size_insert_Some; [done|eauto|]. rewrite lookup_insert_ne by done. eauto.
  - intros k Hk. rewrite Hal. by apply H9.
  - intros k Hk. rewrite Hal. by apply H10.
  - eapply menu_ok_other; [done| |exact Et|done|done]. eapply not_menu; [done|exact Ht|by rewrite Hpc].
Qed.

End child.

Lemma fork_copy_good s h t th p result asid :
  Inv s h -> threads s !! t = Some th -> t_pc th = ForkCopy p -> good_run (fork_copy t p result asid) s h.
Proof.
  intros Hi Ht Hpc. destruct (Z.eq_dec result 0) as [->|Hr]; [|by eapply fork_copy_fail_good].
  destruct (owned_by s h t th p) as (c & Hp & Hkp & Hcth & Ho); rewrite ?Hpc; try done.
  rewrite Hpc in Ho. destruct Ho as (Hpid & Hal & _ & Hno).
  destruct (user_member s h t th) as (q & pr & Hq & Hpq & Hm & Hqk & _ & Hne); rewrite ?Hpc; try done.
  destruct Hm as [Hth _]. assert (q <> p) by (intros ->; congruence).
  assert (Hrg : 2 <= pid c < counter_pid s) by (destruct (po_pid _ _ _ (iv_proc _ _ Hi p c Hp)); lia).
  pose proof (kids_room s h q pr (pid c) Hi Hpq Hrg ltac:(by eapply Hno)) as Hroom.
  destruct (po_kids _ _ _ (iv_proc _ _ Hi q pr Hpq)) as (Hl & _).
  unfold fork_copy, good_run. rewrite (bind_ok _ _ _ _ _ (get_proc_run p c s Hp)).
  rewrite (proj2 (Z.ltb_lt 0 _)) by lia. cbn [Z.eqb negb]. unfold put_proc. mrun.
  set (s1 := set_procs s _).
  assert (Hpq1 : procs s1 !! q = Some pr) by (cbn; by rewrite lookup_insert_ne).
  rewrite (bind_ok _ _ _ _ _ (curproc_run t th q pr s1 Ht Hq Hpq1)).
  rewrite set_at_in_range by (unfold zlength; lia). mrun. set (s2 := set_procs s1 _).
  rewrite (bind_ok _ _ _ _ _ (set_pc_run t th (ForkThread p) s2 Ht)).
  eexists _, _. split; [done|]. apply inv_hist; [|done].
  eapply (inv_child s _ h t th q pr p c asid); try done. cbn. by rewrite Hq.
Qed.

(** ** Starting a thread *)

Section start.
Context (s s' : kst) (h : list obs) (t : Z) (th : thread) (p : Z) (c : proc) (tid : Z) (c1 c2 : pc).
Context (Hi : Inv s h) (Ht : threads s !! t = Some th)
        (Hpc : (t_pc th = ForkThread p /\ c1 = ForkReturn p /\ c2 = User) \/
               (t_pc th = RunThread p /\ c1 = MenuWait /\ c2 = Loading))
        (Hp : procs s !! p = Some c) (Hfr : threads s !! tid = None).
Context (Et : threads s' = <[t := mk_thread (t_proc th) c1]> (<[tid := mk_thread (Some p) c2]> (threads s)))
        (Ep : procs s' = <[p := with_threads c [tid]]> (procs s))
        (Ea : aliveTable s' = aliveTable s) (E1 : procTable s' = procTable s)
        (E2 : exitTable s' = exitTable s) (E3 : counter_pid s' = counter_pid s)
        (El : lk_tb s' = lk_tb s) (Ec : proc_count s' = proc_count s)
        (En : no_proc_sem s' = no_proc_sem s).

Lemma start_owned :
  kproc < p /\ p_threads c = [] /\ 2 <= pid c /\ alive s (pid c) = Some true /\
  (has_as c2 = true -> p_addrspace c <> None).
Proof.
  assert (Ho : owns (t_pc th) = Some p) by (by destruct Hpc as [(-> & _)|(-> & _)]).
  destruct (owned_by s h t th p Hi Ht Ho) as (c' & Hc' & Hk & Hth & Hst).
  assert (c' = c) as -> by congruence.
  destruct Hpc as [(E & -> & ->)|(E & -> & ->)]; rewrite E in Hst; destruct Hst as (? & ? & ?); done.
Qed.

Lemma start_ne : tid <> t.
Proof. congruence. Qed.

Lemma start_thread u : u <> t -> u <> tid -> threads s' !! u = threads s !! u.
Proof. intros ? ?. by rewrite Et, !lookup_insert_ne. Qed.

Lemma start_proc r prr : procs s' !! r = Some prr -> r <> p -> procs s !! r = Some prr.
Proof. rewrite Ep. intros E ?. by rewrite lookup_insert_ne in E. Qed.

(** No other thread relies on the process. *)
Lemma start_rely u thu r prr :
  u <> t -> threads s !! u = Some thu -> procs s !! r = Some prr -> relies u thu r prr ->
  r <> p \/ (t_proc thu <> Some p /\ owns (t_pc thu) <> Some p).
Proof.
  intros Hut Hu Hr Hrel. destruct (decide (r = p)) as [->|]; [right|by left].
  destruct start_owned as (_ & Hth & _).
  split.
  - intros Hx. pose proof (no_member s h u thu p c Hi Hu Hx Hp). congruence.
  - intros Hx. apply Hut. eapply (iv_own _ _ Hi u t thu th p); try done.
    by destruct Hpc as [(-> & _)|(-> & _)].
Qed.

Lemma inv_start : Inv s' h.
Proof.
  pose proof Hi as [H1 H2 H3 H4 H5 H6 H7 H8 H9 H10 H11 H12].
  destruct start_owned as (Hkp & Hth & Hpid & Hca & Has). pose proof start_ne as Hne.
  assert (Hal : forall k, alive s' k = alive s k) by (intros k; unfold alive; by rewrite Ea).
  assert (Htb : forall k, table s' k = table s k) by (intros k; unfold table; by rewrite E1).
  assert (Hkid : forall r k, kid_ok s r k -> kid_ok s' r k).
  { intros r k Hk. eapply kid_ok_frame; [done|lia|by rewrite Hal|by rewrite Htb|..].
    - intros u pru _ _ Hu Hpu. rewrite Ep, lookup_insert. case_decide; [subst u|eauto].
      assert (pru = c) as -> by congruence. eexists. split; [done|]. done.
    - intros r2 u thu _ Hu Hup Huc _. destruct (decide (u = t)) as [->|Hut].
      + right. assert (thu = th) as -> by congruence. assert (r2 = p) as ->.
        { destruct Hpc as [(E & _)|(E & _)]; congruence. }
        exists (with_threads c [tid]). by rewrite Ep, lookup_insert_eq.
      + left. exists thu. rewrite start_thread; [done|done|congruence]. }
  assert (Hns : forall k ptr, t_pc th <> WaitSleep k ptr) by (by destruct Hpc as [(-> & _)|(-> & _)]).
  split; rewrite ?Ea, ?E1, ?E2, ?E3, ?Ec; try done.
  - destruct H3 as (prk & Hk & ?). exists prk. rewrite Ep, lookup_insert_ne by lia. done.
  - assert (Hthr : forall r pr0, procs s !! r = Some pr0 -> forall u, u ∈ p_threads pr0 ->
      exists thu, threads s' !! u = Some thu /\ t_proc thu = Some r).
    { intros r pr0 Hr u Hu. destruct (po_threads _ _ _ (H4 r pr0 Hr) u Hu) as (thu & Hu1 & Hu2).
      destruct (decide (u = t)) as [->|Hut].
      - rewrite Et, lookup_insert_eq. eexists. split; [done|]. cbn. congruence.
      - rewrite start_thread by congruence. eauto. }
    assert (Hslp : forall r pr0, procs s !! r = Some pr0 -> forall u, u ∈ cv_sleepers pr0 ->
      exists thu ptr, threads s' !! u = Some thu /\ t_pc thu = WaitSleep (pid pr0) ptr).
    { intros r pr0 Hr u Hu. destruct (po_sleep _ _ _ (H4 r pr0 Hr) u Hu) as (thu & ptr & Hu1 & Hu2).
      exists thu, ptr. rewrite start_thread; [done| |congruence]. intros ->. apply (Hns (pid pr0) ptr). congruence. }
    intros r prr Hr. destruct (decide (r = p)) as [->|Hrp].
    + rewrite Ep, lookup_insert_eq in Hr. injection Hr as <-. destruct (H4 p c Hp) as [G1 G2 G3 G4 G5 G6].
      split; cbn; rewrite ?Htb, ?E3; try done; [by intros; apply Hkid, G3| |by eapply Hslp].
      intros u ->%list_elem_of_singleton. rewrite Et, lookup_insert_ne, lookup_insert_eq by done. eauto.
    + pose proof (start_proc r prr Hr Hrp) as Hr0. destruct (H4 r prr Hr0) as [G1 G2 G3 G4 G5 G6].
      split; rewrite ?Htb, ?E3; try done; [by intros; apply Hkid, G3|by eapply Hthr|by eapply Hslp].
  - intros u thu Hu. destruct (decide (u = t)) as [->|Hut]; [|destruct (decide (u = tid)) as [->|Hutid]].
    + rewrite Et, lookup_insert_eq in Hu. injection Hu as <-. pose proof (to_proc _ _ _ _ (H5 t th Ht)) as Hm.
      destruct Hpc as [(E & -> & ->)|(E & -> & ->)]; rewrite E in Hm; destruct Hm as (q & prq & Hq & Hpq & Hmt & Hm);
        assert (q <> p) by (intros ->; congruence); rewrite Hq; apply (thr_ok_member s' h t q prq); try done.
      * by rewrite Ep, lookup_insert_ne.
      * split; [done|]. cbn in Hm |- *. rewrite Hal. destruct Hm as (? & ? & ? & ? & ?). done.
      * by intros ? ? ? [|].
      * by rewrite Ep, lookup_insert_ne.
      * by intros ? ? ? [|].
    + rewrite Et, lookup_insert_ne, lookup_insert_eq in Hu by done. injection Hu as <-.
      apply (thr_ok_member s' h tid p (with_threads c [tid])).
      * by rewrite Ep, lookup_insert_eq.
      * by destruct Hpc as [(_ & _ & ->)|(_ & _ & ->)].
      * split; [done|]. destruct Hpc as [(_ & _ & ->)|(_ & _ & ->)]; cbn; rewrite Hal; split_and!; try done; lia.
      * by destruct Hpc as [(_ & _ & ->)|(_ & _ & ->)].
      * by destruct Hpc as [(_ & _ & ->)|(_ & _ & ->)].
      * destruct Hpc as [(_ & _ & ->)|(_ & _ & ->)]; by intros ? ? ? [|].
    + rewrite start_thread in Hu by done.
      eapply thr_ok_frame; [by apply H5|by intros; rewrite Hal| | |].
      * intros r prr Hr Hrel. destruct (decide (r = p)) as [->|Hrp].
        -- destruct (start_rely u thu p prr Hut Hu Hr Hrel) as [?|[Hx Hy]]; [done|].
           exists (with_threads c [tid]). rewrite Ep, lookup_insert_eq. assert (prr = c) as -> by congruence.
           split_and!; try done. by intros [?|?].
        -- exists prr. rewrite Ep, lookup_insert_ne by done. by split_and!.
      * intros p2 pr2 _ _ _ Hno2 r prr. rewrite Ep, lookup_insert. case_decide; [|by apply Hno2].
        intros [= <-]. subst r. by apply (Hno2 p c).
      * intros k ptr Hk. by destruct (sleep_pid s h u thu k ptr Hi Hu Hk).
  - assert (Ho1 : owns c1 = None /\ owns c2 = None) by (by destruct Hpc as [(_ & -> & ->)|(_ & -> & ->)]).
    destruct Ho1 as [Ho1 Ho2]. intros t1 t2 th1 th2 p2. rewrite Et, !lookup_insert.
    repeat case_decide; subst; try done; intros E F G I; simplify_eq; try (cbn in *; congruence). by eapply H6.
  - assert (Hl : locked c1 = locked (t_pc th) /\ locked c2 = false)
      by (by destruct Hpc as [(-> & -> & ->)|(-> & -> & ->)]).
    destruct Hl as [Hl1 Hl2]. intros u. rewrite El, (H7 u), Et, !lookup_insert. repeat case_decide; subst.
    + rewrite Ht. split; intros (x & [= <-] & Hx); eexists; (split; [done|]); cbn in *; congruence.
    + rewrite Hfr. split; [by intros (x & ? & _)|]. intros (x & [= <-] & Hx). cbn in Hx. congruence.
    + done.
  - rewrite Ep, map_size_insert_Some; [done|eauto].
  - intros k Hk. rewrite Hal. by apply H9.
  - intros k Hk. rewrite Hal. by apply H10.
  - destruct H11 as (th0 & G1 & G2 & G3 & G4). destruct (decide (t = menu_thread)) as [Hm|Hm].
    + assert (th0 = th) as -> by congruence. unfold menu_ok. rewrite <- Hm, Et, lookup_insert_eq, En, Ec.
      destruct Hpc as [(E & _ & _)|(E & -> & _)]; rewrite E in G2, G3; [done|].
      eexists. split; [done|]. split; [done|]. cbn. rewrite G3. split; [|done].
      rewrite (proj2 (Z.eqb_neq _ 0)); [done|]. pose proof (count_pos s h p Hi ltac:(eauto) Hkp). lia.
    + exists th0. rewrite En, Ec, start_thread; [done|congruence|congruence].
Qed.

End start.

Lemma thread_fork_run s p c tid start :
  procs s !! p = Some c -> p_threads c = [] ->
  thread_fork p 0 tid start s =
  Ret (0, set_threads (set_procs (set_threads s (<[tid := mk_thread None start]> (threads s)))
            (<[p := with_threads c [tid]]> (procs s)))
          (<[tid := mk_thread (Some p) start]> (<[tid := mk_thread None start]> (threads s)))).
Proof.
  intros Hp Hth. unfold thread_fork, proc_addthread, put_thread, put_proc. cbn [Z.eqb negb]. mrun.
  set (s1 := set_threads s _).
  rewrite (bind_ok _ _ _ _ _ (get_thread_run tid (mk_thread None start) s1 (lookup_insert_eq _ _ _))).
  rewrite bool_decide_eq_true_2 by done. mrun.
  rewrite (bind_ok _ _ _ _ _ (get_proc_run p c s1 Hp)). mrun. by rewrite Hth.
Qed.

Lemma started_good s h t th p tid c1 c2 :
  Inv s h -> threads s !! t = Some th -> fresh_id s tid = true ->
  (t_pc th = ForkThread p /\ c1 = ForkReturn p /\ c2 = User) \/
  (t_pc th = RunThread p /\ c1 = MenuWait /\ c2 = Loading) ->
  exists s1 s2, thread_fork p 0 tid c2 s = Ret (0, s1) /\ set_pc t c1 s1 = Ret (tt, s2) /\ Inv s2 h.
Proof.
  intros Hi Ht Hfr Hpc.
  assert (Ho : owns (t_pc th) = Some p) by (by destruct Hpc as [(-> & _)|(-> & _)]).
  destruct (owned_by s h t th p Hi Ht Ho) as (c & Hp & Hk & Hth & _).
  unfold fresh_id in Hfr. bprop.
  match goal with H : bool_decide (threads s !! _ = None) = true |- _ => apply bool_decide_eq_true in H as Hnt end.
  assert (tid <> t) by congruence.
  eexists _, _. split; [by apply (thread_fork_run s p c)|]. split.
  - apply (set_pc_run t th). cbn. by rewrite !lookup_insert_ne.
  - eapply (inv_start s _ h t th p c tid c1 c2); try done. cbn. by rewrite insert_insert_eq.
Qed.

Lemma fork_thread_good s h t th p tid :
  Inv s h -> threads s !! t = Some th -> t_pc th = ForkThread p -> fresh_id s tid = true ->
  good_run (fork_thread t p true 0 tid) s h.
Proof.
  intros Hi Ht Hpc Hfr.
  destruct (started_good s h t th p tid (ForkReturn p) User Hi Ht Hfr) as (s1 & s2 & E1 & E2 & Hi2); [by left|].
  unfold fork_thread, good_run. mrun. rewrite (bind_ok _ _ _ _ _ E1). cbn [Z.eqb negb].
  rewrite (bind_ok _ _ _ _ _ E2). eexists _, _. split; [done|]. by apply inv_hist.
Qed.

Lemma run_thread_good s h t th p tid :
  Inv s h -> threads s !! t = Some th -> t_pc th = RunThread p -> fresh_id s tid = true ->
  good_run (run_thread t p 0 tid) s h.
Proof.
  intros Hi Ht Hpc Hfr.
  destruct (started_good s h t th p tid MenuWait Loading Hi Ht Hfr) as (s1 & s2 & E1 & E2 & Hi2); [by right|].
  unfold run_thread, good_run. rewrite (bind_ok _ _ _ _ _ E1). cbn [Z.eqb negb].
  rewrite (bind_ok _ _ _ _ _ E2). eexists _, _. split; [done|]. by apply inv_hist.
Qed.

Lemma menu_wait_good s h t th :
  Inv s h -> threads s !! t = Some th -> t_pc th = MenuWait -> 0 < no_proc_sem s ->
  proc_count s = 0 /\ good_run (menu_wait t) s h.
Proof.
  intros Hi Ht Hpc Hsem. pose proof (to_proc _ _ _ _ (iv_thr _ _ Hi t th Ht)) as Hm. rewrite Hpc in Hm.
  destruct Hm as (q & pr & Hq & Hp & Hth & -> & ->).
  destruct (iv_menu _ _ Hi) as (th0 & G1 & _ & G3 & _). rewrite Ht in G1. injection G1 as <-. rewrite Hpc in G3.
  destruct (Z.eqb_spec (proc_count s) 0) as [Hc|]; [|lia]. split; [done|].
  unfold menu_wait, good_run. mrun. set (s1 := set_count _ _ _).
  rewrite (bind_ok _ _ _ _ _ (set_pc_run menu_thread th Menu s1 Ht)). eexists _, _. split; [done|].
  apply inv_hist; [|done].
  eapply (inv_upd s h _ menu_thread th Menu); rewrite ?Hpc; try done.
  - by apply view_same.
  - by right.
  - intros r prr u Hr Hu. left. exists prr. done.
  - rewrite Hq. apply (thr_ok_member _ h menu_thread kproc pr); try done. by intros ? ? ? [|].
  - eapply lock_ok_same; [apply Hi|done|done|done|by rewrite Hpc].
  - eexists. cbn. rewrite lookup_insert_eq. split; [done|]. cbn. split; [done|]. split; [lia|done].
Qed.

(** ** All steps *)

(** The two ways in which a step can go wrong. *)
Definition dangling (s : kst) (t : Z) : Prop :=
  exists th p, threads s !! t = Some th /\ t_pc th = ForkReturn p /\ procs s !! p = None.
Definition table_full (s : kst) (t : Z) : Prop :=
  exists th b p, threads s !! t = Some th /\ t_pc th = CreatePid b p /\ counter_pid s = 66.

Lemma step_cases s h t ev m :
  Inv s h -> good ev -> run_step t ev s = Some m ->
  good_run m s h \/ (m s = Fault /\ (dangling s t \/ table_full s t)).
Proof.
  intros Hi Hg Hm. unfold run_step in Hm. destruct (threads s !! t) as [th|] eqn:Ht; [|done].
  destruct (t_pc th) eqn:Hpc, ev; try discriminate Hm;
    try (match type of Hm with context [if ?b then _ else _] => destruct b eqn:Eb end; [|discriminate Hm]);
    injection Hm as <-;
    try (match goal with Eb : bool_decide _ = true |- _ => apply bool_decide_eq_true in Eb end).
  - left. by eapply sys_getpid_good.
  - left. by eapply sys__exit_good.
  - left. by eapply sys_waitpid_good.
  - left. by eapply sys_fork_good.
  - pose proof (create_pid_good s h t th by_ p e Hi Ht Hpc Hg) as Hc. case_decide; [right|by left].
    split; [done|]. right. by exists th, by_, p.
  - left. by eapply fork_copy_good.
  - left. destruct Hg as [-> ->]. by eapply fork_thread_good.
  - destruct (procs s !! p) as [pr0|] eqn:Hp; [left; by eapply fork_return_good|right].
    split; [|left; by exists th, p]. unfold fork_return, get_proc. unfold bind. cbn. by rewrite Hp.
  - left. eapply lock_tb_good; try done. left. eauto.
  - left. by eapply exit_mark_good.
  - left. eapply unlock_tb_good; try done. by left.
  - left. by eapply exit_as_good.
  - left. by eapply exit_rem_good.
  - left. by eapply exit_destroy_good.
  - left. eapply lock_tb_good; try done. right. eauto.
  - left. by eapply wait_test_good.
  - left. eapply unlock_tb_good; try done. right. eauto.
  - left. by eapply wait_copy_good.
  - left. by eapply common_prog_good.
  - left. destruct Hg as [_ ->]. by eapply run_thread_good.
  - left. bprop. by eapply menu_wait_good.
  - left. cbn in Hg. subst. by eapply load_program_good.
Qed.

Lemma reachable_inv cwd s h : reachable cwd good s h -> Inv s h.
Proof.
  induction 1 as [|s h t ev m o s' Hr IH Hg Hm E]; [apply boot_inv|].
  destruct (step_cases s h t ev m IH Hg Hm) as [(o' & s1 & E' & Hi)|[E' _]]; congruence.
Qed.

(** ** Running a list of steps *)

Fixpoint run_trace (tr : list (Z * event)) (s : kst) : option (list obs * kst) :=
  match tr with
  | [] => Some ([], s)
  | (t, ev) :: tr' =>
      match run_step t ev s with
      | Some m =>
          match m s with
          | Ret (o, s') => match run_trace tr' s' with Some (os, s2) => Some (o :: os, s2) | None => None end
          | _ => None
          end
      | None => None
      end
  end.

Definition goodb (ev : event) : bool :=
  match ev with
  | Fork e | Run e => e_path e && match e_console e with Some _ => true | None => false end
  | Assign e => e_lock e && e_cv e
  | StartThread tf result _ => tf && (result =? 0)
  | Load result _ => result =? 0
  | _ => true
  end.

Lemma goodb_good ev : goodb ev = true -> good ev.
Proof. destruct ev; cbn; intros; bprop; auto; by destruct (e_console e). Qed.

Lemma run_trace_reachable cwd tr s h os s2 :
  reachable cwd good s h -> forallb (fun x => goodb (snd x)) tr = true ->
  run_trace tr s = Some (os, s2) -> reachable cwd good s2 (h ++ os).
Proof.
  revert s h os. induction tr as [|[t ev] tr IH]; intros s h os Hr Hg; cbn [run_trace].
  - intros [= <- <-]. by rewrite app_nil_r.
  - cbn in Hg. bprop. destruct (run_step t ev s) as [m|] eqn:Em; [|done].
    destruct (m s) as [[o s1]| | |] eqn:E1; try done.
    destruct (run_trace tr s1) as [[os' s3]|] eqn:E2; [|done]. intros [= <- <-].
    change (o :: os') with ([o] ++ os'). rewrite app_assoc. apply (IH s1); try done.
    econstructor; [done| |done|done]. by apply goodb_good.
Qed.

(** A program [q] that is started from the menu, and a fork by thread [t]. *)
Definition env_of (p : Z) : create_env := mk_env p true true (Some 7) true true.
Definition start_program (p tid : Z) : list (Z * event) :=
  [(menu_thread, Run (env_of p)); (menu_thread, Assign (env_of p));
   (menu_thread, StartThread true 0 tid); (tid, Load 0 5)].
Definition fork_steps (t p tid : Z) : list (Z * event) :=
  [(t, Fork (env_of p)); (t, Assign (env_of p)); (t, CopyAs 0 p); (t, StartThread true 0 tid)].
Definition exit_steps (t c : Z) : list (Z * event) :=
  (t, Exit c) :: replicate 6 (t, Continue).

(** ** Theorems *)


Definition demo_state (tr : list (Z * event)) : kst :=
  match run_trace tr (proc_bootstrap (Some 3)) with Some (_, s) => s | None => proc_bootstrap None end.
Definition demo_obs (tr : list (Z * event)) : list obs :=
  match run_trace tr (proc_bootstrap (Some 3)) with Some (os, _) => os | None => [] end.

Lemma demo_reachable tr :
  forallb (fun x => goodb (snd x)) tr = true ->
  (if run_trace tr (proc_bootstrap (Some 3)) then true else false) = true ->
  reachable (Some 3) good (demo_state tr) (demo_obs tr).
Proof.
  intros Hg He. unfold demo_state, demo_obs.
  destruct (run_trace tr (proc_bootstrap (Some 3))) as [[os s]|] eqn:E; [|done].
  by eapply (run_trace_reachable (Some 3) tr _ [] os s); [constructor| |].
Qed.

Definition fork_trace : list (Z * event) :=
  start_program 100 101 ++ fork_steps 101 200 201 ++ [(101, Continue)].


(** C20. The status that [waitpid] copies to the caller for a child is the
    encoding of the code with which that child has called [_exit] before. *)
Theorem waitpid_reports_exit cwd s h h1 h2 ptr k st :
  reachable cwd good s h -> h = h1 ++ CopiedOut ptr k st :: h2 ->
  exists c, ExitedWith k c ∈ h1 /\ st = _MKWAIT_EXIT c.
Proof. intros Hr E. exact (iv_hist _ _ (reachable_inv _ _ _ Hr) h1 h2 ptr k st E). Qed.

(** The parent sleeps, the child exits with code 42, the parent wakes up. *)
Definition wait_trace : list (Z * event) :=
  fork_trace ++ [(101, Waitpid 3 64 0); (101, Continue); (101, Continue)] ++ exit_steps 201 42 ++
  [(101, Continue); (101, Continue); (101, Continue); (101, Copyout 0)].

Lemma waitpid_reports_exit_witness :
  exists c, ExitedWith 3 c ∈ removelast (demo_obs wait_trace) /\ 168 = _MKWAIT_EXIT c.
Proof.
  apply (waitpid_reports_exit (Some 3) (demo_state wait_trace) (demo_obs wait_trace)
           (removelast (demo_obs wait_trace)) [] 64 3 168).
  - apply demo_reachable; vm_compute; reflexivity.
  - vm_compute; reflexivity.
Defined.

(** No wakeup is lost: whenever a thread sleeps in [waitpid] for a child,
    the child still exists, has a thread that has yet to announce its exit,
    and that announcement wakes the sleeper, since it is on the child's list. *)
Theorem sleeper_will_be_woken cwd s h t th k ptr :
  reachable cwd good s h -> threads s !! t = Some th -> t_pc th = WaitSleep k ptr ->
  exists t' th' q pr, threads s !! t' = Some th' /\ t_proc th' = Some q /\ procs s !! q = Some pr /\
    pid pr = k /\ attached (t_pc th') = true /\ before_mark (t_pc th') = true /\ t ∈ cv_sleepers pr.
Proof.
  intros Hr Ht Hpc. pose proof (reachable_inv _ _ _ Hr) as Hi.
  destruct (to_sleep _ _ _ _ (iv_thr _ _ Hi t th Ht) k ptr Hpc) as (q & pr & Hq & Hpid & Hin & Hal).
  destruct (user_member s h t th) as (r & prr & Hr1 & Hr2 & Hm & _); rewrite ?Hpc; try done.
  rewrite Hpc in Hm. destruct Hm as [Hth (_ & _ & _ & _ & Hw)].
  destruct (po_kid _ _ _ (iv_proc _ _ Hi r prr Hr2) k (Hw k eq_refl)) as [Hrg Hka].
  destruct (Hka Hal) as (q' & pr' & Htab & Hq' & Hpid' & Hor).
  assert (q' = q) as -> by (by eapply (pid_inj s h q' q pr' pr); [..|lia|congruence]).
  assert (pr' = pr) as -> by congruence.
  destruct Hor as [Hne|(t2 & th2 & Ht2 & Htp2 & Htc2)].
  - destruct (p_threads pr) as [|t' l] eqn:El; [done|].
    destruct (po_threads _ _ _ (iv_proc _ _ Hi q pr Hq) t') as (th' & Ht' & Htp'); [rewrite El; left|].
    exists t', th', q, pr. split_and!; try done.
    + pose proof (to_proc _ _ _ _ (iv_thr _ _ Hi t' th' Ht')) as Hm'. destruct (attached (t_pc th')); congruence.
    + pose proof (to_proc _ _ _ _ (iv_thr _ _ Hi t' th' Ht')) as Hm'. destruct (attached (t_pc th')); [|congruence].
      destruct Hm' as (q2 & pr2 & Hq2 & Hp2 & _ & Hm'). assert (q2 = q) as -> by congruence.
      assert (pr2 = pr) as -> by congruence.
      destruct (is_menu (t_pc th')) eqn:Em; [by destruct (t_pc th') as [|[]| | | | | | | | | | | | | | | | | | |]|].
      destruct Hm' as (_ & _ & Ha & _). congruence.
  - pose proof (no_member s h t2 th2 r prr Hi Ht2 Htp2 Hr2) as E. rewrite Hth in E. injection E as <-. congruence.
Qed.

Definition sleep_trace : list (Z * event) :=
  fork_trace ++ [(101, Waitpid 3 64 0); (101, Continue); (101, Continue)].

Lemma sleeper_will_be_woken_witness :
  exists t' th' q pr, threads (demo_state sleep_trace) !! t' = Some th' /\ t_proc th' = Some q /\
    procs (demo_state sleep_trace) !! q = Some pr /\ pid pr = 3 /\ attached (t_pc th') = true /\
    before_mark (t_pc th') = true /\ 101 ∈ cv_sleepers pr.
Proof.
  apply (sleeper_will_be_woken (Some 3) (demo_state sleep_trace) (demo_obs sleep_trace) 101
           (mk_thread (Some 100) (WaitSleep 3 64)) 3 64).
  - apply demo_reachable; vm_compute; reflexivity.
  - vm_compute; reflexivity.
  - reflexivity.
Defined.

(** The kernel menu goes on only when every user process is gone: when its
    wait on [no_proc_sem] can succeed, the kernel's own process is the only
    one left. *)
Theorem menu_resumes_when_idle cwd s h th p :
  reachable cwd good s h -> threads s !! menu_thread = Some th -> t_pc th = MenuWait ->
  0 < no_proc_sem s -> is_Some (procs s !! p) -> p = kproc.
Proof.
  intros Hr Ht Hpc Hs Hp. pose proof (reachable_inv _ _ _ Hr) as Hi.
  destruct (menu_wait_good s h menu_thread th Hi Ht Hpc Hs) as [Hc _].
  destruct (decide (p = kproc)) as [|Hne]; [done|]. destruct (iv_kproc _ _ Hi) as (prk & Hk & _).
  pose proof (size_ge_2 (procs s) kproc p ltac:(eauto) Hp ltac:(congruence)).
  rewrite (iv_count _ _ Hi) in Hc. lia.
Qed.

Definition idle_trace : list (Z * event) := start_program 100 101 ++ exit_steps 101 0.

Lemma menu_resumes_when_idle_witness : 0 < no_proc_sem (demo_state idle_trace) /\ kproc = kproc.
Proof.
  assert (H : 0 < no_proc_sem (demo_state idle_trace)) by (vm_compute; reflexivity).
  split; [exact H|].
  apply (menu_resumes_when_idle (Some 3) (demo_state idle_trace) (demo_obs idle_trace)
           (mk_thread (Some kproc) MenuWait) kproc).
  - apply demo_reachable; vm_compute; reflexivity.
  - vm_compute; reflexivity.
  - reflexivity.
  - exact H.
  - vm_compute. eexists. reflexivity.
Defined.

(** Two processes never have the same number. *)
Theorem pids_unique cwd s h p1 p2 pr1 pr2 :
  reachable cwd good s h -> procs s !! p1 = Some pr1 -> procs s !! p2 = Some pr2 ->
  2 <= pid pr1 -> pid pr1 = pid pr2 -> p1 = p2.
Proof. intros Hr. apply (pid_inj s h). by eapply reachable_inv. Qed.

Lemma pids_unique_witness : 100 = 100.
Proof.
  destruct (procs (demo_state fork_trace) !! 100) as [pr|] eqn:E; [|vm_compute in E; discriminate E].
  apply (pids_unique (Some 3) (demo_state fork_trace) (demo_obs fork_trace) 100 100 pr pr); try assumption.
  - apply demo_reachable; vm_compute; reflexivity.
  - vm_compute in E. injection E as <-. cbn. lia.
  - reflexivity.
Defined.

(** [fork] reads the child's number after the child has been started: when
    the child exits before its parent runs again, the parent reads through a
    pointer to freed memory. *)
Theorem fork_reads_freed_child :
  exists s h m, reachable (Some 3) good s h /\ run_step 101 Continue s = Some m /\ m s = Fault.
Proof.
  exists (demo_state (start_program 100 101 ++ fork_steps 101 200 201 ++ exit_steps 201 0)),
         (demo_obs (start_program 100 101 ++ fork_steps 101 200 201 ++ exit_steps 201 0)), (fork_return 101 200).
  split; [apply demo_reachable; vm_compute; reflexivity|]. split; vm_compute; reflexivity.
Qed.

(** Process numbers are never reused: the 65th process created since boot
    writes past the end of [procTable]. *)
Theorem process_table_overflows :
  exists s h t m, reachable (Some 3) good s h /\ run_step t (Assign (env_of 9999)) s = Some m /\ m s = Fault.
Proof.
  set (tr := start_program 100 101 ++
    flat_map (fun i => fork_steps 101 (1000 + 2 * i) (1001 + 2 * i) ++ [(101, Continue)]) (seqZ 0 63) ++
    [(101, Fork (env_of 9999))]).
  exists (demo_state tr), (demo_obs tr), 101, (create_pid 101 ByFork 9999 (env_of 9999)).
  split; [apply demo_reachable; vm_compute; reflexivity|]. split; vm_compute; reflexivity.
Qed.
