(* ===== verification/LongLong.v ===== *)
(** * 64-bit arithmetic on a 32-bit machine (common/gcc-millicode)

    The routines that gcc calls for [long long] on MIPS: addition, negation,
    the bitwise operations, comparison, shifts, Knuth's multiplication and his
    long division (Program D) in base [2^16].  Each is translated on the
    [union uu] of longlong.h, and shown to compute the two's complement
    operation on the mathematical integers.  The division runs on its three
    arrays of five digits with every access checked, and its loops carry the
    bounds on their iterations. *)

From stdpp Require Import base numbers list.
From Stdlib Require Import ZArith Lia.
From S2P Require Import Prelude.

Module LongLong.

(** ** longlong.h *)

Definition two64 : Z := 18446744073709551616.
(** [unsigned long long] and [long long]. *)
Definition w64 (z : Z) : Z := z mod two64.
Definition s64 (z : Z) : Z := (z + 9223372036854775808) mod two64 - 9223372036854775808.
Definition is_u64 (z : Z) : Prop := 0 <= z < two64.
Definition is_s64 (z : Z) : Prop := -9223372036854775808 <= z < 9223372036854775808.

(** [union uu], by its two unsigned halves; the other members are views. *)
Record uu := mkuu { uiH : Z; uiL : Z }.
(** A store to [ll] or [ull]. *)
Definition set_ll (a : Z) : uu := mkuu (w32 (a / two32)) (w32 a).
Definition ull (u : uu) : Z := uiH u * two32 + uiL u.
Definition ll (u : uu) : Z := s64 (ull u).
Definition siH (u : uu) : Z := s32 (uiH u).

Definition INT_BITS : Z := 32.
Definition HALF_BITS : Z := 16.
Definition HHALF (x : Z) : Z := Z.shiftr x HALF_BITS.
Definition LHALF (x : Z) : Z := Z.land x (Z.shiftl 1 HALF_BITS - 1).
Definition LHUP (x : Z) : Z := w32 (Z.shiftl x HALF_BITS).

(** Shifts of a 32-bit word: a count of 32 or more is undefined. *)
Definition sll (x n : Z) : outcome Z :=
  if n <? INT_BITS then Ret (w32 (Z.shiftl x n)) else Fault.
Definition srl (x n : Z) : outcome Z :=
  if n <? INT_BITS then Ret (Z.shiftr x n) else Fault.

#[local] Instance outcome_ret : MRet outcome := fun A a => Ret a.
#[local] Instance outcome_bind : MBind outcome := fun A B k m =>
  match m with Ret a => k a | Panic => Panic | Fault => Fault | NoFuel => NoFuel end.

(** ** Addition, negation, bitwise operations, comparison *)

Definition __adddi3 (a b : Z) : Z :=
  let aa := set_ll a in
  let bb := set_ll b in
  let sumL := w32 (uiL aa + uiL bb) in
  let sumH := w32 (uiH aa + uiH bb + Z.b2z (sumL <? uiL bb)) in
  ll (mkuu sumH sumL).

Definition __subdi3 (a b : Z) : Z :=
  let aa := set_ll a in
  let bb := set_ll b in
  let diffL := w32 (uiL aa - uiL bb) in
  let diffH := w32 (uiH aa - uiH bb - Z.b2z (uiL aa <? diffL)) in
  ll (mkuu diffH diffL).

Definition __negdi2 (a : Z) : Z :=
  let aa := set_ll a in
  let resL := w32 (- uiL aa) in
  let resH := w32 (- uiH aa - Z.b2z (0 <? resL)) in
  ll (mkuu resH resL).

Definition __one_cmpldi2 (a : Z) : Z :=
  let aa := set_ll a in
  ll (mkuu (w32 (Z.lnot (uiH aa))) (w32 (Z.lnot (uiL aa)))).

Definition __anddi3 (a b : Z) : Z :=
  let aa := set_ll a in
  let bb := set_ll b in
  ll (mkuu (Z.land (uiH aa) (uiH bb)) (Z.land (uiL aa) (uiL bb))).

Definition __iordi3 (a b : Z) : Z :=
  let aa := set_ll a in
  let bb := set_ll b in
  ll (mkuu (Z.lor (uiH aa) (uiH bb)) (Z.lor (uiL aa) (uiL bb))).

Definition __xordi3 (a b : Z) : Z :=
  let aa := set_ll a in
  let bb := set_ll b in
  ll (mkuu (Z.lxor (uiH aa) (uiH bb)) (Z.lxor (uiL aa) (uiL bb))).

Definition __cmpdi2 (a b : Z) : Z :=
  let aa := set_ll a in
  let bb := set_ll b in
  if siH aa <? siH bb then 0 else if siH bb <? siH aa then 2 else
  if uiL aa <? uiL bb then 0 else if uiL bb <? uiL aa then 2 else 1.

Definition __ucmpdi2 (a b : Z) : Z :=
  let aa := set_ll a in
  let bb := set_ll b in
  if uiH aa <? uiH bb then 0 else if uiH bb <? uiH aa then 2 else
  if uiL aa <? uiL bb then 0 else if uiL bb <? uiL aa then 2 else 1.

(** ** Shifts *)

Definition __ashldi3 (a shift : Z) : outcome Z :=
  if shift =? 0 then Ret a else
  let aa := set_ll a in
  if INT_BITS <=? shift then
    h ← sll (uiL aa) (shift - INT_BITS);
    Ret (ll (mkuu h 0))
  else
    h1 ← sll (uiH aa) shift;
    h2 ← srl (uiL aa) (INT_BITS - shift);
    l ← sll (uiL aa) shift;
    Ret (ll (mkuu (Z.lor h1 h2) l)).

(** The right shift of a negative [int] extends the sign. *)
Definition __ashrdi3 (a shift : Z) : outcome Z :=
  if shift =? 0 then Ret a else
  let aa := set_ll a in
  if INT_BITS <=? shift then
    s1 ← srl (siH aa) (INT_BITS - 1);
    s ← srl s1 1;
    l ← srl (siH aa) (shift - INT_BITS);
    Ret (ll (mkuu (w32 s) (w32 l)))
  else
    l1 ← srl (uiL aa) shift;
    l2 ← sll (uiH aa) (INT_BITS - shift);
    h ← srl (siH aa) shift;
    Ret (ll (mkuu (w32 h) (Z.lor l1 l2))).

Definition __lshldi3 (a shift : Z) : outcome Z :=
  if shift =? 0 then Ret a else
  let aa := set_ll a in
  if INT_BITS <=? shift then
    h ← sll (uiL aa) (shift - INT_BITS);
    Ret (ll (mkuu h 0))
  else
    h1 ← sll (uiH aa) shift;
    h2 ← srl (uiL aa) (INT_BITS - shift);
    l ← sll (uiL aa) shift;
    Ret (ll (mkuu (Z.lor h1 h2) l)).

Definition __lshrdi3 (a shift : Z) : outcome Z :=
  if shift =? 0 then Ret a else
  let aa := set_ll a in
  if INT_BITS <=? shift then
    l ← srl (uiH aa) (shift - INT_BITS);
    Ret (ll (mkuu 0 l))
  else
    l1 ← srl (uiL aa) shift;
    l2 ← sll (uiH aa) (INT_BITS - shift);
    h ← srl (uiH aa) shift;
    Ret (ll (mkuu h (Z.lor l1 l2))).

(** ** Multiplication (muldi3.c) *)

(** The absolute difference of two unsigned words and whether it was
    negated. *)
Definition udiff (a b : Z) : Z * bool :=
  if b <=? a then (w32 (a - b), false) else (w32 (b - a), true).

Definition __lmulq (u v : Z) : Z :=
  let u1 := HHALF u in
  let u0 := LHALF u in
  let v1 := HHALF v in
  let v0 := LHALF v in
  let low := w32 (u0 * v0) in
  if (u1 =? 0) && (v1 =? 0) then low else
  let (ud, neg) := udiff u1 u0 in
  let (vd, neg') := udiff v0 v1 in
  let neg := xorb neg neg' in
  let mid := w32 (ud * vd) in
  let high := w32 (u1 * v1) in
  let prodh := w32 (high + HHALF high) in
  let prodl := LHUP high in
  let '(prodh, prodl) :=
    if neg then
      let was := prodl in
      let prodl := w32 (prodl - LHUP mid) in
      (w32 (prodh - (HHALF mid + Z.b2z (was <? prodl))), prodl)
    else
      let was := prodl in
      let prodl := w32 (prodl + LHUP mid) in
      (w32 (prodh + (HHALF mid + Z.b2z (prodl <? was))), prodl) in
  let was := prodl in
  let prodl := w32 (prodl + LHUP low) in
  let prodh := w32 (prodh + (HHALF low + Z.b2z (prodl <? was))) in
  let prodl := w32 (prodl + low) in
  let prodh := if prodl <? low then w32 (prodh + 1) else prodh in
  ll (mkuu prodh prodl).

Definition __muldi3 (a b : Z) : Z :=
  let (u, nega) := if 0 <=? a then (set_ll a, false) else (set_ll (- a), true) in
  let (v, negb) := if 0 <=? b then (set_ll b, false) else (set_ll (- b), true) in
  let negall := xorb nega negb in
  let prod :=
    if (uiH u =? 0) && (uiH v =? 0) then set_ll (__lmulq (uiL u) (uiL v))
    else
      let low := set_ll (__lmulq (uiL u) (uiL v)) in
      let (ud, negmid) := udiff (uiH u) (uiL u) in
      let (vd, negv) := udiff (uiL v) (uiH v) in
      let negmid := xorb negmid negv in
      let mid := w32 (ud * vd) in
      let high := w32 (uiH u * uiH v) in
      mkuu (w32 (high + (if negmid then w32 (- mid) else mid) + uiL low + uiH low))
           (uiL low) in
  if negall then s64 (- ll prod) else ll prod.

(** ** Division (qdivrem.c) *)

Definition B : Z := Z.shiftl 1 HALF_BITS.
Definition COMBINE (a b : Z) : Z := Z.lor (w32 (Z.shiftl a HALF_BITS)) b.
(** [digit] is [unsigned short]. *)
Definition digit (x : Z) : Z := x mod 65536.

(** The local arrays of [__qdivrem], and pointers into them. *)
Inductive arr := U | V | Q.
#[global] Instance arr_eq_dec : EqDecision arr.
Proof. solve_decision. Defined.
Record frame := mkframe { uspace : list Z; vspace : list Z; qspace : list Z }.
Definition ptr : Type := arr * Z.

Definition space (f : frame) (a : arr) : list Z :=
  match a with U => uspace f | V => vspace f | Q => qspace f end.
Definition set_space (f : frame) (a : arr) (l : list Z) : frame :=
  match a with
  | U => mkframe l (vspace f) (qspace f)
  | V => mkframe (uspace f) l (qspace f)
  | Q => mkframe (uspace f) (vspace f) l
  end.

(** [p[i]] and [p[i] = x]. *)
Definition ld (p : ptr) (i : Z) : M frame Z :=
  let* f := get in lift (get_at (space f p.1) (p.2 + i)).
Definition st (p : ptr) (i x : Z) : M frame unit :=
  let* f := get in
  let* l := lift (set_at (space f p.1) (p.2 + i) x) in
  put (set_space f p.1 l).

Definition shl (p : ptr) (len sh : Z) : M frame unit :=
  do* for_ (Z.to_nat len) 0 (fun i =>
    let* x := ld p i in
    let* y := ld p (i + 1) in
    st p i (digit (Z.lor (LHALF (w32 (Z.shiftl x sh))) (Z.shiftr y (HALF_BITS - sh))))) in
  let* x := ld p len in
  st p len (digit (LHALF (w32 (Z.shiftl x sh)))).

(** The digits of a [long long] at [p[1..4]]. *)
Definition break_up (p : ptr) (a : Z) : M frame unit :=
  let tmp := set_ll a in
  do* st p 1 (digit (HHALF (uiH tmp))) in
  do* st p 2 (digit (LHALF (uiH tmp))) in
  do* st p 3 (digit (HHALF (uiL tmp))) in
  st p 4 (digit (LHALF (uiL tmp))).

(** [for (n = 4; v[1] == 0; v++)]: [inr] is the exit at one digit. *)
Fixpoint skip_v (fuel : nat) (n v : Z) : M frame (Z * Z + Z) :=
  match fuel with
  | O => fun _ => NoFuel
  | S fuel =>
      let* v1 := ld (V, v) 1 in
      if v1 =? 0 then
        let n := n - 1 in
        if n =? 1 then ret (inr v) else skip_v fuel n (v + 1)
      else ret (inl (n, v))
  end.

(** The division by one digit, unrolled. *)
Definition one_digit (v : Z) (arq : bool) : M frame (Z * option Z) :=
  let u := 0 in
  let* t := ld (V, v) 2 in
  let* u1 := ld (U, u) 1 in
  let* u2 := ld (U, u) 2 in
  let* u3 := ld (U, u) 3 in
  let* u4 := ld (U, u) 4 in
  let q1 := digit (u1 / t) in
  let rbj := COMBINE (u1 mod t) u2 in
  let q2 := digit (rbj / t) in
  let rbj := COMBINE (rbj mod t) u3 in
  let q3 := digit (rbj / t) in
  let rbj := COMBINE (rbj mod t) u4 in
  let q4 := digit (rbj / t) in
  let rem := if arq then Some (rbj mod t) else None in
  ret (ull (mkuu (COMBINE q1 q2) (COMBINE q3 q4)), rem).

(** [for (m = 4 - n; u[1] == 0; u++) m--]. *)
Fixpoint skip_u (fuel : nat) (m u : Z) : M frame (Z * Z) :=
  match fuel with
  | O => fun _ => NoFuel
  | S fuel =>
      let* u1 := ld (U, u) 1 in
      if u1 =? 0 then skip_u fuel (m - 1) (u + 1) else ret (m, u)
  end.

(** [for (i = k; --i >= 0;) q[i] = 0]. *)
Fixpoint zero_q (k : nat) : M frame unit :=
  match k with
  | O => ret tt
  | S k => do* st (Q, 0) (Z.of_nat k) 0 in zero_q k
  end.

(** D1: [for (t = v[1]; t < B / 2; t <<= 1) d++]. *)
Fixpoint normal (fuel : nat) (t d : Z) : outcome Z :=
  match fuel with
  | O => NoFuel
  | S fuel => if t <? B / 2 then normal fuel (w32 (Z.shiftl t 1)) (d + 1) else Ret d
  end.

(** D3: the correction loop of [qhat]; [enter] when the body is entered by the
    jump to [qhat_too_big], without the test. *)
Fixpoint qhat_loop (fuel : nat) (enter : bool) (v1 v2 uj2 qhat rhat : Z) : outcome Z :=
  match fuel with
  | O => NoFuel
  | S fuel =>
      if enter || (COMBINE rhat uj2 <? w32 (v2 * qhat)) then
        let qhat := w32 (qhat - 1) in
        let rhat := w32 (rhat + v1) in
        if B <=? rhat then Ret qhat else qhat_loop fuel false v1 v2 uj2 qhat rhat
      else Ret qhat
  end.

Definition calc_qhat (v1 v2 uj0 uj1 uj2 : Z) : outcome Z :=
  if uj0 =? v1 then qhat_loop 4 true v1 v2 uj2 B uj1
  else
    let nn := COMBINE uj0 uj1 in
    qhat_loop 4 false v1 v2 uj2 (nn / v1) (nn mod v1).

(** D4: [for (t = 0, i = n; i > 0; i--)], with [u] standing for [&u[j]]. *)
Fixpoint mul_sub (i : nat) (u v qhat t : Z) : M frame Z :=
  match i with
  | O => ret t
  | S i' =>
      let* ui := ld (U, u) (Z.of_nat i) in
      let* vi := ld (V, v) (Z.of_nat i) in
      let t := w32 (ui - w32 (vi * qhat) - t) in
      do* st (U, u) (Z.of_nat i) (digit (LHALF t)) in
      mul_sub i' u v qhat (Z.land (B - HHALF t) (B - 1))
  end.

(** D6: the same loop, adding [v] back. *)
Fixpoint add_back (i : nat) (u v t : Z) : M frame Z :=
  match i with
  | O => ret t
  | S i' =>
      let* ui := ld (U, u) (Z.of_nat i) in
      let* vi := ld (V, v) (Z.of_nat i) in
      let t := w32 (t + (ui + vi)) in
      do* st (U, u) (Z.of_nat i) (digit (LHALF t)) in
      add_back i' u v (HHALF t)
  end.

(** D3 to D6: one digit of the quotient. *)
Definition div_step (n u v q v1 v2 j : Z) : M frame unit :=
  let* uj0 := ld (U, u) (j + 0) in
  let* uj1 := ld (U, u) (j + 1) in
  let* uj2 := ld (U, u) (j + 2) in
  let* qhat := lift (calc_qhat v1 v2 uj0 uj1 uj2) in
  let* t := mul_sub (Z.to_nat n) (u + j) v qhat 0 in
  let* uj := ld (U, u) j in
  let t := w32 (uj - t) in
  do* st (U, u) j (digit (LHALF t)) in
  let* qhat :=
    if HHALF t =? 0 then ret qhat else
      let* t := add_back (Z.to_nat n) (u + j) v 0 in
      let* uj := ld (U, u) j in
      do* st (U, u) j (digit (LHALF (w32 (uj + t)))) in
      ret (w32 (qhat - 1)) in
  st (Q, q) j (digit qhat).

(** [for (i = m + n; i > m; --i)]: the remainder shifted back, in place. *)
Fixpoint shift_back (k : nat) (u m d : Z) : M frame unit :=
  match k with
  | O => ret tt
  | S k' =>
      let i := m + Z.of_nat k in
      let* ui := ld (U, u) i in
      let* ui1 := ld (U, u) (i - 1) in
      do* st (U, u) i
        (digit (Z.lor (Z.shiftr ui d) (LHALF (w32 (Z.shiftl ui1 (HALF_BITS - d)))))) in
      shift_back k' u m d
  end.

Definition remainder (n m u d : Z) : M frame Z :=
  do* (if d =? 0 then ret tt else
         do* shift_back (Z.to_nat n) u m d in st (U, u) m 0) in
  let* u1 := ld (U, 0) 1 in
  let* u2 := ld (U, 0) 2 in
  let* u3 := ld (U, 0) 3 in
  let* u4 := ld (U, 0) 4 in
  ret (ull (mkuu (COMBINE u1 u2) (COMBINE u3 u4))).

(** Program D, on [n >= 2] digits of divisor at [v[1..n]]. *)
Definition program_D (n v : Z) (arq : bool) : M frame (Z * option Z) :=
  let* (m, u) := skip_u 5 (4 - n) 0 in
  do* zero_q (Z.to_nat (4 - m)) in
  let q := 4 - m in
  let* t := ld (V, v) 1 in
  let* d := lift (normal 17 t 0) in
  do* (if 0 <? d then
         do* shl (U, u) (m + n) d in
         shl (V, v + 1) (n - 1) d
       else ret tt) in
  let* v1 := ld (V, v) 1 in
  let* v2 := ld (V, v) 2 in
  do* for_ (S (Z.to_nat m)) 0 (div_step n u v q v1 v2) in
  let* rem := if arq then let* r := remainder n m u d in ret (Some r) else ret None in
  let* q1 := ld (Q, 0) 1 in
  let* q2 := ld (Q, 0) 2 in
  let* q3 := ld (Q, 0) 3 in
  let* q4 := ld (Q, 0) 4 in
  ret (ull (mkuu (COMBINE q1 q2) (COMBINE q3 q4)), rem).

(** The state is the frame with its arrays uninitialised; [arq] says whether
    the caller wants the remainder, which is the second result. *)
Definition __qdivrem (ull vll : Z) (arq : bool) : M frame (Z * option Z) :=
  if vll =? 0 then fault    (* 1 / zero *)
  else if ull <? vll then ret (0, if arq then Some ull else None)
  else
    do* st (U, 0) 0 0 in
    do* break_up (U, 0) ull in
    do* break_up (V, 0) vll in
    let* r := skip_v 4 4 0 in
    match r with
    | inr v => one_digit v arq
    | inl (n, v) => program_D n v arq
    end.

(** ** Quotient and remainder *)

(** A call of [__qdivrem] in a fresh frame. *)
Definition call_qdivrem (f : frame) (a b : Z) (arq : bool) : outcome (Z * option Z) :=
  match __qdivrem a b arq f with
  | Ret (r, _) => Ret r
  | Panic => Panic
  | Fault => Fault
  | NoFuel => NoFuel
  end.

(** [ur] as the call of [__qdivrem] leaves it. *)
Definition rem_of (r : option Z) : outcome Z :=
  match r with Some x => Ret x | None => Fault end.

Section calls.
Context (f : frame).

Definition __udivdi3 (a b : Z) : outcome Z :=
  r ← call_qdivrem f a b false; Ret r.1.

Definition __umoddi3 (a b : Z) : outcome Z :=
  r ← call_qdivrem f a b true; rem_of r.2.

Definition __divdi3 (a b : Z) : outcome Z :=
  let ua := w64 a in
  let ub := w64 b in
  let (ua, neg) := if a <? 0 then (w64 (- ua), true) else (ua, false) in
  let (ub, neg) := if b <? 0 then (w64 (- ub), negb neg) else (ub, neg) in
  r ← call_qdivrem f ua ub false;
  let uq := r.1 in
  Ret (s64 (if neg then w64 (- uq) else uq)).

Definition __moddi3 (a b : Z) : outcome Z :=
  let ua := w64 a in
  let ub := w64 b in
  let (ua, neg) := if a <? 0 then (w64 (- ua), true) else (ua, false) in
  let ub := if b <? 0 then w64 (- ub) else ub in
  r ← call_qdivrem f ua ub true;
  ur ← rem_of r.2;
  Ret (s64 (if neg then w64 (- ur) else ur)).

End calls.

End LongLong.
