(* ===== verification/LongLongSpec.v ===== *)
(** * The 64-bit routines compute the operations on integers

    Addition, the bitwise operations, comparison, shifts and multiplication on
    halves agree with the two's complement operations on [Z]
    ([longlong_ops_correct]), and long division in base [2^16] with its
    normalisation, trial digits and corrections returns the quotient and the
    remainder, within its array bounds and its loop bounds
    ([qdivrem_correct]). *)

From stdpp Require Import base numbers list.
From Stdlib Require Import ZArith Lia.
From S2P Require Import Prelude LongLong.

Import LongLong.

(** Linear arithmetic with division by constants. *)
Ltac dlia := unfold w64, s64, w32, s32, is_u64, is_s64, is_u32, two32, two64 in *;
             Z.to_euclidean_division_equations; lia.

(** ** Words *)

Lemma s64_congr a b k : a = b + k * two64 -> s64 a = s64 b.
Proof.
  intros ->. unfold s64. f_equal.
  replace (b + k * two64 + 9223372036854775808) with (b + 9223372036854775808 + k * two64) by lia.
  apply Z_mod_plus_full.
Qed.

Lemma s64_id a : is_s64 a -> s64 a = a.
Proof. dlia. Qed.

Lemma s64_w64 a : s64 (w64 a) = s64 a.
Proof. apply (s64_congr _ _ (- (a / two64))). dlia. Qed.

Lemma w64_range a : is_u64 (w64 a).
Proof. dlia. Qed.

Lemma ull_set_ll a : ull (set_ll a) = w64 a.
Proof. unfold ull, set_ll. cbn [uiH uiL]. dlia. Qed.

Lemma set_ll_range a : is_u32 (uiH (set_ll a)) /\ is_u32 (uiL (set_ll a)).
Proof. split; apply w32_range. Qed.

Lemma ull_range u : is_u32 (uiH u) -> is_u32 (uiL u) -> is_u64 (ull u).
Proof. unfold ull. dlia. Qed.

(** The halves of an integer and what they sum to. *)
Lemma halves a : exists k, a = uiH (set_ll a) * two32 + uiL (set_ll a) + k * two64.
Proof. exists (a / two64). unfold set_ll. cbn [uiH uiL]. dlia. Qed.

Ltac split_ll a :=
  let Hr := fresh "Hr" in let k := fresh "k" in let Hk := fresh "Hk" in
  pose proof (set_ll_range a) as Hr; destruct (halves a) as [k Hk];
  let x := fresh "x" in set (x := set_ll a) in *; clearbody x;
  destruct x as [? ?]; cbn [uiH uiL] in Hr, Hk; destruct Hr.

(** Double-word addition and subtraction with carry. *)
Lemma add_carry h l xh xl :
  is_u32 l -> is_u32 xl ->
  exists k, w32 (h + (xh + Z.b2z (w32 (l + xl) <? l))) * two32 + w32 (l + xl)
    = (h * two32 + l) + (xh * two32 + xl) + k * two64.
Proof.
  intros Hl Hx. destruct (Z.ltb_spec (w32 (l + xl)) l); cbn [Z.b2z].
  - exists (- ((h + (xh + 1)) / two32)). dlia.
  - exists (- ((h + (xh + 0)) / two32)). dlia.
Qed.

Lemma sub_borrow h l xh xl :
  is_u32 l -> is_u32 xl ->
  exists k, w32 (h - (xh + Z.b2z (l <? w32 (l - xl)))) * two32 + w32 (l - xl)
    = (h * two32 + l) - (xh * two32 + xl) + k * two64.
Proof.
  intros Hl Hx. destruct (Z.ltb_spec l (w32 (l - xl))); cbn [Z.b2z].
  - exists (- ((h - (xh + 1)) / two32)). dlia.
  - exists (- ((h - (xh + 0)) / two32)). dlia.
Qed.

Lemma adddi3_ok a b : __adddi3 a b = s64 (a + b).
Proof.
  unfold __adddi3. split_ll a. split_ll b. cbn [uiH uiL].
  unfold ll, ull. cbn [uiH uiL].
  rewrite (Z.add_comm uiL0 uiL1).
  replace (uiH0 + uiH1 + Z.b2z (w32 (uiL1 + uiL0) <? uiL1))
    with (uiH0 + (uiH1 + Z.b2z (w32 (uiL1 + uiL0) <? uiL1))) by lia.
  destruct (add_carry uiH0 uiL1 uiH1 uiL0) as [c Hc]; [done..|].
  apply (s64_congr _ _ (c - k - k0)). rewrite Hc. lia.
Qed.

Lemma subdi3_ok a b : __subdi3 a b = s64 (a - b).
Proof.
  unfold __subdi3. split_ll a. split_ll b. cbn [uiH uiL].
  unfold ll, ull. cbn [uiH uiL].
  rewrite <- Z.sub_add_distr.
  destruct (sub_borrow uiH0 uiL0 uiH1 uiL1) as [c Hc]; [done..|].
  apply (s64_congr _ _ (c - k + k0)). rewrite Hc. lia.
Qed.

Lemma negdi2_ok a : __negdi2 a = s64 (- a).
Proof.
  unfold __negdi2. split_ll a. unfold ll, ull. cbn [uiH uiL].
  destruct (sub_borrow 0 0 uiH0 uiL0) as [c Hc]; [unfold is_u32, two32; lia|done|].
  apply (s64_congr _ _ (c + k)).
  replace (w32 (- uiL0)) with (w32 (0 - uiL0)) by done.
  replace (- uiH0 - Z.b2z (0 <? w32 (0 - uiL0)))
    with (0 - (uiH0 + Z.b2z (0 <? w32 (0 - uiL0)))) by lia.
  rewrite Hc. lia.
Qed.

(** ** Bits *)

Lemma testbit_ull h l i :
  is_u32 l -> 0 <= i ->
  Z.testbit (h * two32 + l) i = if i <? 32 then Z.testbit l i else Z.testbit h (i - 32).
Proof.
  intros Hl Hi. unfold is_u32 in Hl. change two32 with (2 ^ 32) in *.
  destruct (Z.ltb_spec i 32).
  - rewrite <- (Z.mod_pow2_bits_low _ 32) by lia. f_equal.
    rewrite Z.add_comm, Z_mod_plus_full. by apply Z.mod_small.
  - replace i with (i - 32 + 32) at 1 by lia.
    rewrite <- Z.div_pow2_bits by lia. f_equal.
    rewrite Z.add_comm, Z_div_plus by lia. rewrite Z.div_small; lia.
Qed.

Lemma testbit_w32 a i : 0 <= i -> Z.testbit (w32 a) i = (i <? 32) && Z.testbit a i.
Proof.
  intros Hi. unfold w32. change two32 with (2 ^ 32). destruct (Z.ltb_spec i 32); cbn.
  - apply Z.mod_pow2_bits_low; lia.
  - apply Z.mod_pow2_bits_high; lia.
Qed.

Lemma testbit_w64 a i : 0 <= i -> Z.testbit (w64 a) i = (i <? 64) && Z.testbit a i.
Proof.
  intros Hi. unfold w64. change two64 with (2 ^ 64). destruct (Z.ltb_spec i 64); cbn.
  - apply Z.mod_pow2_bits_low; lia.
  - apply Z.mod_pow2_bits_high; lia.
Qed.

Lemma testbit_uiH a i : 0 <= i -> Z.testbit (uiH (set_ll a)) i = (i <? 32) && Z.testbit a (i + 32).
Proof.
  intros Hi. cbn. rewrite testbit_w32 by done.
  change two32 with (2 ^ 32). by rewrite Z.div_pow2_bits by lia.
Qed.

Lemma testbit_uiL a i : 0 <= i -> Z.testbit (uiL (set_ll a)) i = (i <? 32) && Z.testbit a i.
Proof. intros Hi. cbn. by apply testbit_w32. Qed.

(** A word is a value whose bits from 32 on are zero. *)
Lemma u32_bits a : (forall i, 32 <= i -> Z.testbit a i = false) -> is_u32 a.
Proof.
  intros H. replace a with (w32 a); [apply w32_range|].
  apply Z.bits_inj'. intros i Hi. rewrite testbit_w32 by done.
  destruct (Z.ltb_spec i 32); [done|]. by rewrite H.
Qed.

Lemma u32_high a i : is_u32 a -> 32 <= i -> Z.testbit a i = false.
Proof.
  intros Ha Hi. rewrite <- (w32_id a) by done. rewrite testbit_w32 by lia.
  by destruct (Z.ltb_spec i 32); [lia|].
Qed.

(** A double word from its bits. *)
Lemma ll_bits h l a :
  is_u32 l -> is_u32 h ->
  (forall i, 0 <= i < 32 -> Z.testbit l i = Z.testbit a i) ->
  (forall i, 0 <= i < 32 -> Z.testbit h i = Z.testbit a (i + 32)) ->
  ll (mkuu h l) = s64 a.
Proof.
  intros Hl Hh Hbl Hbh. unfold ll. rewrite <- (s64_w64 a). f_equal.
  unfold ull. cbn [uiH uiL]. apply Z.bits_inj'. intros i Hi.
  rewrite testbit_ull, testbit_w64 by done.
  destruct (Z.ltb_spec i 32), (Z.ltb_spec i 64); cbn; try lia.
  - auto with lia.
  - rewrite Hbh by lia. f_equal. lia.
  - apply u32_high; [done|lia].
Qed.

Section bitwise.
Context (op : Z -> Z -> Z) (f : bool -> bool -> bool).
Context (Hop : forall a b i, Z.testbit (op a b) i = f (Z.testbit a i) (Z.testbit b i)).
Context (Hf : f false false = false).

Lemma bitwise_u32 a b : is_u32 a -> is_u32 b -> is_u32 (op a b).
Proof.
  intros Ha Hb. apply u32_bits. intros i Hi. rewrite Hop. by rewrite !u32_high.
Qed.

Lemma bitwise_ok a b :
  ll (mkuu (op (uiH (set_ll a)) (uiH (set_ll b))) (op (uiL (set_ll a)) (uiL (set_ll b))))
  = s64 (op a b).
Proof.
  destruct (set_ll_range a), (set_ll_range b).
  apply ll_bits; [by apply bitwise_u32..| |]; intros i Hi; rewrite !Hop.
  - rewrite !testbit_uiL by lia. by destruct (Z.ltb_spec i 32); [|lia].
  - rewrite !testbit_uiH by lia. by destruct (Z.ltb_spec i 32); [|lia].
Qed.

End bitwise.

Lemma one_cmpldi2_ok a : __one_cmpldi2 a = s64 (Z.lnot a).
Proof.
  unfold __one_cmpldi2. apply ll_bits; [apply w32_range..| |]; intros i Hi;
    rewrite testbit_w32, !Z.lnot_spec by lia.
  - rewrite testbit_uiL by lia. by destruct (Z.ltb_spec i 32); [|lia].
  - rewrite testbit_uiH by lia. by destruct (Z.ltb_spec i 32); [|lia].
Qed.

(** ** Comparison *)

Definition cmp_code (c : comparison) : Z :=
  match c with Lt => 0 | Eq => 1 | Gt => 2 end.

Lemma cmpdi2_ok a b : is_s64 a -> is_s64 b -> __cmpdi2 a b = cmp_code (a ?= b).
Proof.
  intros Ha Hb. unfold __cmpdi2.
  replace (siH (set_ll a)) with (a / two32) by (unfold siH, set_ll; cbn [uiH]; dlia).
  replace (siH (set_ll b)) with (b / two32) by (unfold siH, set_ll; cbn [uiH]; dlia).
  cbn [uiL set_ll].
  destruct (Z.ltb_spec (a / two32) (b / two32)), (Z.ltb_spec (b / two32) (a / two32)),
    (Z.ltb_spec (w32 a) (w32 b)), (Z.ltb_spec (w32 b) (w32 a)),
    (Z.compare_spec a b); cbn; dlia.
Qed.

Lemma ucmpdi2_ok a b : is_u64 a -> is_u64 b -> __ucmpdi2 a b = cmp_code (a ?= b).
Proof.
  intros Ha Hb. unfold __ucmpdi2. cbn [uiL uiH set_ll].
  destruct (Z.ltb_spec (w32 (a / two32)) (w32 (b / two32))),
    (Z.ltb_spec (w32 (b / two32)) (w32 (a / two32))),
    (Z.ltb_spec (w32 a) (w32 b)), (Z.ltb_spec (w32 b) (w32 a)),
    (Z.compare_spec a b); cbn; dlia.
Qed.

(** ** Shifts *)

Lemma srl_ok x n : n < 32 -> srl x n = Ret (Z.shiftr x n).
Proof. intros. unfold srl, INT_BITS. by destruct (Z.ltb_spec n 32); [|lia]. Qed.
Lemma sll_ok x n : n < 32 -> sll x n = Ret (w32 (Z.shiftl x n)).
Proof. intros. unfold sll, INT_BITS. by destruct (Z.ltb_spec n 32); [|lia]. Qed.

Lemma testbit_siH a i :
  is_s64 a -> 0 <= i -> Z.testbit (siH (set_ll a)) i = Z.testbit a (i + 32).
Proof.
  intros Ha Hi.
  replace (siH (set_ll a)) with (a / two32) by (unfold siH, set_ll; cbn [uiH]; dlia).
  change two32 with (2 ^ 32). by apply Z.div_pow2_bits; lia.
Qed.

(** Decide the tests on bit indices and close a goal on bits. *)
Ltac bit_cases :=
  repeat match goal with
  | |- context [?i <? ?j] => destruct (Z.ltb_spec i j); cbn [andb orb]; try lia
  end;
  rewrite ?orb_false_r; try done.
Ltac bits :=
  rewrite ?Z.lor_spec, ?testbit_w32, ?Z.shiftr_spec, ?testbit_w64 by lia;
  rewrite ?testbit_uiL, ?testbit_uiH, ?testbit_siH by (lia || done);
  bit_cases.

Lemma u32_lor a b : is_u32 a -> is_u32 b -> is_u32 (Z.lor a b).
Proof. apply (bitwise_u32 Z.lor orb Z.lor_spec). done. Qed.

Lemma u32_shiftr a n : is_u32 a -> 0 <= n -> is_u32 (Z.shiftr a n).
Proof.
  intros Ha Hn. apply u32_bits. intros i Hi. rewrite Z.shiftr_spec by lia.
  apply u32_high; [done|lia].
Qed.

#[local] Hint Resolve w32_range u32_lor u32_shiftr : words.
#[local] Hint Extern 1 (_ <= _) => lia : words.
#[local] Hint Extern 1 (is_u32 (uiL (set_ll _))) => apply w32_range : words.
#[local] Hint Extern 1 (is_u32 (uiH (set_ll _))) => apply w32_range : words.
#[local] Hint Extern 1 (is_u32 0) => (unfold is_u32, two32; lia) : words.

Lemma lshldi3_ok a n : is_s64 a -> 0 <= n < 64 -> __lshldi3 a n = Ret (s64 (Z.shiftl a n)).
Proof.
  intros Ha Hn. unfold __lshldi3, INT_BITS. destruct (Z.eqb_spec n 0) as [->|].
  { by rewrite Z.shiftl_0_r, s64_id. }
  destruct (Z.leb_spec 32 n).
  - rewrite sll_ok by lia. cbn [mbind outcome_bind]. f_equal.
    apply ll_bits; [eauto 6 with words..| |]; intros i Hi.
    + rewrite Z.testbit_0_l, Z.shiftl_spec_low by lia. done.
    + rewrite testbit_w32, !Z.shiftl_spec by lia.
      destruct (Z.ltb_spec i 32); [cbn [andb]|lia].
      destruct (Z.ltb_spec i (n - 32)).
      * rewrite !(Z.testbit_neg_r _ (_ - _)) by lia. done.
      * rewrite testbit_uiL by lia. bit_cases. f_equal. lia.
  - rewrite !sll_ok, srl_ok by lia. cbn [mbind outcome_bind]. f_equal.
    apply ll_bits; [eauto 6 with words..| |]; intros i Hi.
    + rewrite testbit_w32, !Z.shiftl_spec by lia.
      destruct (Z.ltb_spec i 32); [cbn [andb]|lia].
      destruct (Z.ltb_spec i n).
      * rewrite !(Z.testbit_neg_r _ (_ - _)) by lia. done.
      * rewrite testbit_uiL by lia. bit_cases.
    + rewrite Z.lor_spec, testbit_w32, Z.shiftr_spec, !Z.shiftl_spec by lia.
      rewrite testbit_uiL by lia.
      destruct (Z.ltb_spec i n).
      * rewrite (Z.testbit_neg_r _ (i - n)) by lia. bit_cases. cbn [andb orb]. f_equal. lia.
      * rewrite testbit_uiH by lia. bit_cases. f_equal. lia.
Qed.

Lemma ashldi3_ok a n : is_s64 a -> 0 <= n < 64 -> __ashldi3 a n = Ret (s64 (Z.shiftl a n)).
Proof. exact (lshldi3_ok a n). Qed.

Lemma lshrdi3_ok a n :
  is_s64 a -> 0 <= n < 64 -> __lshrdi3 a n = Ret (s64 (Z.shiftr (w64 a) n)).
Proof.
  intros Ha Hn. unfold __lshrdi3, INT_BITS. destruct (Z.eqb_spec n 0) as [->|].
  { by rewrite Z.shiftr_0_r, s64_w64, s64_id. }
  destruct (Z.leb_spec 32 n).
  - rewrite srl_ok by lia. cbn [mbind outcome_bind]. f_equal.
    apply ll_bits; [eauto 6 with words..| |]; intros i Hi.
    + bits; f_equal; lia.
    + rewrite Z.testbit_0_l. by bits.
  - rewrite !sll_ok, !srl_ok by lia. cbn [mbind outcome_bind]. f_equal.
    apply ll_bits; [eauto 6 with words..| |]; intros i Hi.
    + rewrite Z.lor_spec, testbit_w32, !Z.shiftr_spec, Z.shiftl_spec by lia.
      rewrite testbit_w64, testbit_uiL by lia.
      destruct (Z.ltb_spec i (32 - n)).
      * rewrite (Z.testbit_neg_r _ (i - _)) by lia. bit_cases.
      * rewrite testbit_uiH by lia. bit_cases. cbn [andb orb]. f_equal. lia.
    + bits; f_equal; lia.
Qed.

(** The sign of a [long long] is its bit 63 and all bits above. *)
Lemma s64_sign a i : is_s64 a -> 63 <= i -> Z.testbit a i = (a <? 0).
Proof.
  intros Ha Hi. unfold is_s64 in Ha.
  assert (2 ^ 63 <= 2 ^ i) by (apply Z.pow_le_mono_r; lia).
  change (2 ^ 63) with 9223372036854775808 in *.
  rewrite Z.testbit_odd, Z.shiftr_div_pow2 by lia. destruct (Z.ltb_spec a 0).
  - by rewrite <- (Z.div_unique a (2 ^ i) (-1) (a + 2 ^ i)) by lia.
  - by rewrite Z.div_small by lia.
Qed.

Lemma shiftr_s64 a n : is_s64 a -> 0 <= n -> is_s64 (Z.shiftr a n).
Proof.
  intros Ha Hn. unfold is_s64 in *. rewrite Z.shiftr_div_pow2 by lia.
  assert (0 < 2 ^ n) by (apply Z.pow_pos_nonneg; lia).
  split; [apply Z.div_le_lower_bound|apply Z.div_lt_upper_bound]; nia.
Qed.

Lemma ashrdi3_ok a n : is_s64 a -> 0 <= n < 64 -> __ashrdi3 a n = Ret (Z.shiftr a n).
Proof.
  intros Ha Hn. unfold __ashrdi3, INT_BITS. destruct (Z.eqb_spec n 0) as [->|].
  { by rewrite Z.shiftr_0_r. }
  rewrite <- (s64_id (Z.shiftr a n)) by (apply shiftr_s64; [done|lia]).
  destruct (Z.leb_spec 32 n).
  - rewrite !srl_ok by lia. cbn [mbind outcome_bind]. rewrite srl_ok by lia.
    cbn [mbind outcome_bind]. f_equal.
    apply ll_bits; [eauto 6 with words..| |]; intros i Hi.
    + bits. f_equal. lia.
    + bits. by rewrite !s64_sign by (done || lia).
  - rewrite !sll_ok, !srl_ok by lia. cbn [mbind outcome_bind]. f_equal.
    apply ll_bits; [eauto 6 with words..| |]; intros i Hi.
    + rewrite Z.lor_spec, testbit_w32, !Z.shiftr_spec, Z.shiftl_spec by lia.
      rewrite testbit_uiL by lia.
      destruct (Z.ltb_spec i (32 - n)).
      * rewrite (Z.testbit_neg_r _ (i - _)) by lia. bit_cases.
      * rewrite testbit_uiH by lia. bit_cases. cbn [andb orb]. f_equal. lia.
    + bits. f_equal. lia.
Qed.

(** ** Multiplication *)

Lemma HHALF_eq x : HHALF x = x / 65536.
Proof. unfold HHALF. by rewrite Z.shiftr_div_pow2. Qed.
Lemma LHALF_eq x : LHALF x = x mod 65536.
Proof. unfold LHALF. change (_ - 1) with (Z.ones 16). by rewrite Z.land_ones. Qed.
Lemma LHUP_eq x : LHUP x = w32 (x * 65536).
Proof. unfold LHUP. by rewrite Z.shiftl_mul_pow2. Qed.

(** The difference with its sign. *)
Lemma udiff_ok a b : is_u32 a -> is_u32 b ->
  exists d n, udiff a b = (d, n) /\ is_u32 d /\ a - b = (if n : bool then - d else d).
Proof.
  intros Ha Hb. unfold udiff. destruct (Z.leb_spec b a); eexists _, _; split_and!; try done;
    dlia.
Qed.

(** [x << 16] as a pair of words. *)
Lemma half_up x : is_u32 x -> HHALF x * two32 + LHUP x = x * 65536.
Proof. rewrite HHALF_eq, LHUP_eq. dlia. Qed.

Lemma halves_u32 x : is_u32 x ->
  x = HHALF x * 65536 + LHALF x /\ 0 <= HHALF x < 65536 /\ 0 <= LHALF x < 65536.
Proof. rewrite HHALF_eq, LHALF_eq. dlia. Qed.

Lemma small_mul a b : 0 <= a < 65536 -> 0 <= b < 65536 -> w32 (a * b) = a * b.
Proof. intros. apply w32_id. unfold is_u32, two32. nia. Qed.

Lemma udiff_half a b : 0 <= a < 65536 -> 0 <= b < 65536 ->
  exists d n, udiff a b = (d, n) /\ 0 <= d < 65536 /\ a - b = (if n : bool then - d else d).
Proof.
  intros Ha Hb. unfold udiff. destruct (Z.leb_spec b a); eexists _, _; split_and!; try done;
    dlia.
Qed.

(** Adding or subtracting the shifted middle product. *)
Lemma add_mid (neg : bool) h l mid :
  is_u32 l -> is_u32 mid ->
  exists h' l' k,
    (if neg then
       (w32 (h - (HHALF mid + Z.b2z (l <? w32 (l - LHUP mid)))), w32 (l - LHUP mid))
     else
       (w32 (h + (HHALF mid + Z.b2z (w32 (l + LHUP mid) <? l))), w32 (l + LHUP mid)))
    = (h', l') /\ is_u32 l' /\
    h' * two32 + l' = h * two32 + l + (if neg then - mid else mid) * 65536 + k * two64.
Proof.
  intros Hl Hm. pose proof (half_up mid Hm) as Hu.
  assert (is_u32 (LHUP mid)) by apply w32_range. destruct neg.
  - destruct (sub_borrow h l (HHALF mid) (LHUP mid)) as [k Hk]; [done..|].
    eexists _, _, k. split; [done|]. split; [apply w32_range|]. rewrite Hk. lia.
  - destruct (add_carry h l (HHALF mid) (LHUP mid)) as [k Hk]; [done..|].
    eexists _, _, k. split; [done|]. split; [apply w32_range|]. rewrite Hk. lia.
Qed.

(** Residues. *)
Lemma s64_exists x : exists k, s64 x = x + k * two64.
Proof. exists (- ((x + 9223372036854775808) / two64)). dlia. Qed.
Lemma w32_exists x : exists k, w32 x = x + k * two32.
Proof. exists (- (x / two32)). dlia. Qed.
Lemma w32_congr x : exists k, w32 x * two32 = x * two32 + k * two64.
Proof. exists (- (x / two32)). dlia. Qed.

Lemma sign_mul d e a b c f (n m : bool) :
  a - b = (if n then - d else d) -> c - f = (if m then - e else e) ->
  (if xorb n m then - (d * e) else d * e) = (a - b) * (c - f).
Proof. intros -> ->. destruct n, m; cbn; lia. Qed.

Lemma lmulq_ok u v : is_u32 u -> is_u32 v ->
  exists k, __lmulq u v = u * v + k * two64.
Proof.
  intros Hu Hv. unfold __lmulq.
  destruct (halves_u32 u Hu) as (Eu & Hu1 & Hu0), (halves_u32 v Hv) as (Ev & Hv1 & Hv0).
  set (u1 := HHALF u) in *. set (u0 := LHALF u) in *.
  set (v1 := HHALF v) in *. set (v0 := LHALF v) in *. clearbody u1 u0 v1 v0.
  rewrite !small_mul by done.
  destruct ((u1 =? 0) && (v1 =? 0)) eqn:E.
  { bprop. subst. exists 0. nia. }
  destruct (udiff_half u1 u0) as (ud & nu & -> & Hud & Du); [done..|].
  destruct (udiff_half v0 v1) as (vd & nv & -> & Hvd & Dv); [done..|].
  rewrite small_mul by done. cbv beta zeta iota.
  assert (is_u32 (u1 * v1) /\ is_u32 (ud * vd) /\ is_u32 (u0 * v0)) as (Hh & Hm & Hl)
    by (unfold is_u32, two32; nia).
  destruct (add_mid (xorb nu nv) (w32 (u1 * v1 + HHALF (u1 * v1))) (LHUP (u1 * v1)) (ud * vd))
    as (ph & pl & k1 & -> & Hpl & E1); [apply w32_range|done|].
  destruct (add_mid false ph pl (u0 * v0)) as (ph2 & pl2 & k2 & E2 & Hpl2 & E3); [done..|].
  cbv iota in E2, E3. injection E2 as E2a E2b. rewrite E2b in E2a |- *. rewrite E2a.
  assert (exists k3, (if w32 (pl2 + u0 * v0) <? u0 * v0 then w32 (ph2 + 1) else ph2) * two32
     + w32 (pl2 + u0 * v0) = ph2 * two32 + pl2 + u0 * v0 + k3 * two64) as [k3 E4].
  { destruct (Z.ltb_spec (w32 (pl2 + u0 * v0)) (u0 * v0));
      [exists (- ((ph2 + 1) / two32))|exists 0]; dlia. }
  unfold ll, ull. cbn [uiH uiL]. rewrite E4, E3, E1, (sign_mul ud vd _ _ _ _ _ _ Du Dv).
  destruct (w32_congr (u1 * v1 + HHALF (u1 * v1))) as [k4 E5]. rewrite E5.
  match goal with |- context [s64 ?x] => destruct (s64_exists x) as [k5 E6]; rewrite E6 end.
  pose proof (half_up _ Hh). exists (k1 + k2 + k3 + k4 + k5). subst u v.
  unfold two64, two32 in *. lia.
Qed.

Lemma set_ll_congr a k : set_ll (a + k * two64) = set_ll a.
Proof. unfold set_ll. f_equal; dlia. Qed.

Lemma ll_congr h l : exists k, ll (mkuu h l) = h * two32 + l + k * two64.
Proof. apply s64_exists. Qed.

(** The magnitude of a signed operand, as [__muldi3] takes it. *)
Lemma magnitude a : is_s64 a ->
  exists u n, (if 0 <=? a then (set_ll a, false) else (set_ll (- a), true)) = (u, n) /\
    is_u32 (uiH u) /\ is_u32 (uiL u) /\ a = (if n : bool then - ull u else ull u).
Proof.
  intros Ha. destruct (Z.leb_spec 0 a); eexists _, _;
    (split; [reflexivity|]); (split_and!; [apply set_ll_range..|]);
    rewrite ull_set_ll; dlia.
Qed.

(** The product of the magnitudes, modulo [2^64]. *)
Lemma mul_mid u1 u0 v1 v0 low :
  is_u32 u1 -> is_u32 u0 -> is_u32 v1 -> is_u32 v0 ->
  (exists k, low = u0 * v0 + k * two64) ->
  exists k,
    ull (let low := set_ll low in
         let (ud, negmid) := udiff u1 u0 in
         let (vd, negv) := udiff v0 v1 in
         let negmid := xorb negmid negv in
         let mid := w32 (ud * vd) in
         let high := w32 (u1 * v1) in
         mkuu (w32 (high + (if negmid then w32 (- mid) else mid) + uiL low + uiH low))
              (uiL low))
    = (u1 * two32 + u0) * (v1 * two32 + v0) + k * two64.
Proof.
  intros Hu1 Hu0 Hv1 Hv0 [k ->].
  destruct (udiff_ok u1 u0) as (ud & nu & -> & Hud & Du); [done..|].
  destruct (udiff_ok v0 v1) as (vd & nv & -> & Hvd & Dv); [done..|].
  pose proof (sign_mul ud vd _ _ _ _ _ _ Du Dv) as Hs. cbv zeta.
  rewrite set_ll_congr. split_ll (u0 * v0). unfold ull. cbn [uiH uiL].
  destruct (w32_congr (w32 (u1 * v1)
     + (if xorb nu nv then w32 (- w32 (ud * vd)) else w32 (ud * vd)) + uiL0 + uiH0)) as [c ->].
  destruct (w32_exists (u1 * v1)) as [c1 ->], (w32_exists (ud * vd)) as [c2 ->],
    (w32_exists (- (ud * vd + c2 * two32))) as [c3 ->].
  destruct (xorb nu nv); [exists (c + c1 + c3 - c2 - k0 - k0 * two32 - uiH0 - u1 * v1)
    |exists (c + c1 + c2 - k0 - k0 * two32 - uiH0 - u1 * v1)];
    unfold two64, two32 in *; lia.
Qed.

Lemma muldi3_ok a b : is_s64 a -> is_s64 b -> __muldi3 a b = s64 (a * b).
Proof.
  intros Ha Hb. unfold __muldi3.
  destruct (magnitude a Ha) as (u & na & -> & Hu1 & Hu0 & Ea).
  destruct (magnitude b Hb) as (v & nb & -> & Hv1 & Hv0 & Eb).
  destruct (lmulq_ok (uiL u) (uiL v)) as [kl El]; [done..|].
  cbv zeta.
  match goal with |- (if _ then s64 (- ll ?p) else ll ?p) = _ =>
    assert (exists k, ull p = ull u * ull v + k * two64) as [k E]; [|revert E; generalize p] end.
  { destruct ((uiH u =? 0) && (uiH v =? 0)) eqn:E.
    - apply andb_true_iff in E as [E1%Z.eqb_eq E2%Z.eqb_eq].
      rewrite El, set_ll_congr, ull_set_ll. unfold ull. rewrite E1, E2.
      exists (- (uiL u * uiL v / two64)). dlia.
    - apply mul_mid; eauto. }
  intros p E. unfold ll. rewrite E.
  assert (a * b = if xorb na nb then - (ull u * ull v) else ull u * ull v) as ->
    by (subst; destruct na, nb; cbn; lia).
  destruct (xorb na nb).
  - destruct (s64_exists (ull u * ull v + k * two64)) as [k2 ->].
    apply (s64_congr _ _ (- k - k2)). lia.
  - by apply (s64_congr _ _ k).
Qed.

(** ** Digits

    The value of [k] digits from index [i] on, most significant first. *)

Definition dig (l : list Z) (i : Z) : Z := nth (Z.to_nat i) l 0.
Definition is_digit (x : Z) : Prop := 0 <= x < 65536.

Fixpoint seg (g : Z -> Z) (i : Z) (k : nat) : Z :=
  match k with
  | O => 0
  | S k => g i * 65536 ^ Z.of_nat k + seg g (i + 1) k
  end.

Section seg.
Implicit Types (g : Z -> Z) (i : Z) (k : nat).

Lemma seg_ext g g' i k :
  (forall x, i <= x < i + Z.of_nat k -> g x = g' x) -> seg g i k = seg g' i k.
Proof.
  revert i. induction k as [|k IH]; intros i H; [done|]. cbn [seg].
  rewrite (H i), (IH (i + 1)) by (lia || (intros; apply H; lia)). done.
Qed.

Lemma seg_app g i a b :
  seg g i (a + b) = seg g i a * 65536 ^ Z.of_nat b + seg g (i + Z.of_nat a) b.
Proof.
  revert i. induction a as [|a IH]; intros i; cbn [Nat.add seg].
  - rewrite Z.add_0_r. lia.
  - rewrite IH. rewrite Nat2Z.inj_add, Z.pow_add_r by lia.
    replace (i + 1 + Z.of_nat a) with (i + Z.of_nat (S a)) by lia. lia.
Qed.

Lemma seg_snoc g i k : seg g i (S k) = seg g i k * 65536 + g (i + Z.of_nat k).
Proof.
  replace (S k) with (k + 1)%nat by lia. rewrite seg_app. cbn [seg]. lia.
Qed.

Lemma seg_bound g i k :
  (forall x, i <= x < i + Z.of_nat k -> is_digit (g x)) -> 0 <= seg g i k < 65536 ^ Z.of_nat k.
Proof.
  revert i. induction k as [|k IH]; intros i H; cbn [seg]; [lia|].
  assert (is_digit (g i)) as Hi by (apply H; lia). unfold is_digit in Hi.
  assert (0 <= seg g (i + 1) k < 65536 ^ Z.of_nat k) by (apply IH; intros; apply H; lia).
  rewrite Nat2Z.inj_succ, Z.pow_succ_r by lia. nia.
Qed.

Lemma seg_zero g i k : (forall x, i <= x < i + Z.of_nat k -> g x = 0) -> seg g i k = 0.
Proof.
  revert i. induction k as [|k IH]; intros i H; cbn [seg]; [done|].
  rewrite H, IH by (lia || (intros; apply H; lia)). done.
Qed.

Lemma seg_0_inv g i k :
  (forall x, i <= x < i + Z.of_nat k -> is_digit (g x)) -> seg g i k = 0 ->
  forall x, i <= x < i + Z.of_nat k -> g x = 0.
Proof.
  revert i. induction k as [|k IH]; intros i H H0 x Hx; [lia|]. cbn [seg] in H0.
  pose proof (H i ltac:(lia)) as Hi. unfold is_digit in Hi.
  assert (0 <= seg g (i + 1) k < 65536 ^ Z.of_nat k)
    by (apply seg_bound; intros; apply H; lia).
  destruct (Z.eq_dec x i) as [->|]; [nia|].
  apply (IH (i + 1)); [intros; apply H; lia|nia|lia].
Qed.

End seg.

(** ** The arrays of the division *)

Definition frame_ok (f : frame) : Prop := forall a, length (space f a) = 5%nat.

(** The digit [i] of an array. *)
Definition at_ (f : frame) (a : arr) (i : Z) : Z := dig (space f a) i.

(** [f'] is [f] with the array [a] changed only at the indices from [lo] up to
    [hi]. *)
Record touches (a : arr) (lo hi : Z) (f f' : frame) : Prop := {
  touch_ok : frame_ok f';
  touch_arr : forall b i, b <> a -> at_ f' b i = at_ f b i;
  touch_out : forall i, i < lo \/ hi <= i -> 0 <= i -> at_ f' a i = at_ f a i
}.

Lemma ld_ok f p i :
  frame_ok f -> 0 <= p.2 + i < 5 -> ld p i f = Ret (at_ f p.1 (p.2 + i), f).
Proof.
  intros Hf Hi. unfold ld. mrun.
  destruct (get_at_in_range (space f p.1) (p.2 + i)) as (x & -> & Hx);
    [unfold zlength; rewrite Hf; lia|].
  cbn. do 2 f_equal. unfold at_, dig. symmetry. by apply nth_lookup_Some.
Qed.

Lemma st_ok f p i x :
  frame_ok f -> 0 <= p.2 + i < 5 ->
  exists f', st p i x f = Ret (tt, f') /\ touches p.1 (p.2 + i) (p.2 + i + 1) f f' /\
             at_ f' p.1 (p.2 + i) = x.
Proof.
  intros Hf Hi. unfold st. mrun.
  rewrite set_at_in_range by (unfold zlength; rewrite Hf; lia). cbn.
  set (j := p.2 + i) in *. set (l := <[Z.to_nat j := x]> (space f p.1)).
  assert (forall k, 0 <= k -> dig l k = if k =? j then x else dig (space f p.1) k) as Hl.
  { intros k Hk. unfold dig, l. rewrite !nth_lookup. destruct (Z.eqb_spec k j) as [->|].
    - rewrite list_lookup_insert_eq; [done|]. rewrite Hf. lia.
    - rewrite list_lookup_insert_ne by lia. done. }
  assert (length l = 5%nat) as Hlen by (unfold l; by rewrite length_insert).
  eexists. split; [reflexivity|]. split; [split|].
  - intros b. pose proof (Hf U). pose proof (Hf V). pose proof (Hf Q).
    by destruct p as [[] ?], b.
  - intros b k Hb. unfold at_. by destruct p as [[] ?], b.
  - intros k Hk Hk0. unfold at_. replace (space (set_space f p.1 l) p.1) with l
      by (by destruct p as [[] ?]).
    rewrite Hl by done. by destruct (Z.eqb_spec k j); [lia|].
  - unfold at_. replace (space (set_space f p.1 l) p.1) with l by (by destruct p as [[] ?]).
    rewrite Hl by lia. by rewrite Z.eqb_refl.
Qed.

Lemma touches_refl a lo hi f : frame_ok f -> touches a lo hi f f.
Proof. by split. Qed.

Lemma touches_trans a lo hi f1 f2 f3 :
  touches a lo hi f1 f2 -> touches a lo hi f2 f3 -> touches a lo hi f1 f3.
Proof.
  intros [A1 A2 A3] [B1 B2 B3]. split; [done| |].
  - intros. by rewrite B2, A2.
  - intros. by rewrite B3, A3.
Qed.

Lemma touches_sub a lo hi lo' hi' f f' :
  touches a lo hi f f' -> lo' <= lo -> hi <= hi' -> touches a lo' hi' f f'.
Proof. intros [A1 A2 A3] ??. split; [done..|]. intros; apply A3; lia. Qed.

Definition digits (f : frame) (a : arr) (lo hi : Z) : Prop :=
  forall i, lo <= i < hi -> is_digit (at_ f a i).

Lemma B_eq : B = 65536.
Proof. done. Qed.

Lemma digit_digit x : is_digit (digit x).
Proof. unfold is_digit, digit. dlia. Qed.

Lemma digit_LHALF x : digit (LHALF x) = x mod 65536.
Proof. rewrite LHALF_eq. unfold digit. dlia. Qed.

Lemma digits_touch f f' a b lo hi lo' hi' :
  touches a lo hi f f' -> digits f b lo' hi' -> 0 <= lo' ->
  a <> b \/ hi' <= lo \/ hi <= lo' -> digits f' b lo' hi'.
Proof.
  intros T D Hlo Hd i Hi. destruct (decide (b = a)) as [->|Hn].
  - destruct Hd; [done|]. rewrite (touch_out _ _ _ _ _ T) by lia. by apply D.
  - rewrite (touch_arr _ _ _ _ _ T) by done. by apply D.
Qed.

(** A segment that a change does not touch. *)
Lemma seg_touch f f' a b lo hi i k :
  touches a lo hi f f' -> 0 <= i -> a <> b \/ i + Z.of_nat k <= lo \/ hi <= i ->
  seg (at_ f' b) i k = seg (at_ f b) i k.
Proof.
  intros T Hi Hd. apply seg_ext. intros x Hx. destruct (decide (b = a)) as [->|Hn].
  - destruct Hd; [done|]. apply (touch_out _ _ _ _ _ T); lia.
  - by apply (touch_arr _ _ _ _ _ T).
Qed.

Lemma seg_digits f a i n hi :
  0 <= n -> digits f a i hi -> i + n <= hi -> 0 <= seg (at_ f a) i (Z.to_nat n) < 65536 ^ n.
Proof.
  intros Hn Hd Hh.
  assert (0 <= seg (at_ f a) i (Z.to_nat n) < 65536 ^ Z.of_nat (Z.to_nat n)) as Hb
    by (apply seg_bound; intros x Hx; apply Hd; lia).
  by rewrite Z2Nat.id in Hb.
Qed.

Lemma borrow_step ui vi qhat t :
  is_digit ui -> is_digit vi -> is_digit qhat -> is_digit t ->
  exists x, x = ui - vi * qhat - t /\
    digit (LHALF (w32 (ui - w32 (vi * qhat) - t))) = x mod 65536 /\
    Z.land (B - HHALF (w32 (ui - w32 (vi * qhat) - t))) (B - 1) = - (x / 65536) /\
    is_digit (- (x / 65536)).
Proof.
  unfold is_digit. intros Hu Hv Hq Ht. eexists. split; [done|].
  assert (0 <= vi * qhat <= 65535 * 65535) as Hp by nia.
  rewrite (w32_id (vi * qhat)) by (unfold is_u32, two32; lia).
  rewrite digit_LHALF, HHALF_eq. change (B - 1) with (Z.ones 16). rewrite Z.land_ones by lia.
  change (2 ^ 16) with 65536. rewrite B_eq. set (p := vi * qhat) in *. clearbody p.
  split_and!; dlia.
Qed.

Lemma mul_sub_ok i f u v qhat t :
  frame_ok f -> 0 <= u -> u + Z.of_nat i < 5 -> 0 <= v -> v + Z.of_nat i < 5 ->
  digits f U (u + 1) (u + 1 + Z.of_nat i) -> digits f V (v + 1) (v + 1 + Z.of_nat i) ->
  is_digit qhat -> is_digit t ->
  exists f' t', mul_sub i u v qhat t f = Ret (t', f') /\
    touches U (u + 1) (u + 1 + Z.of_nat i) f f' /\
    digits f' U (u + 1) (u + 1 + Z.of_nat i) /\ is_digit t' /\
    seg (at_ f' U) (u + 1) i - t' * 65536 ^ Z.of_nat i
      = seg (at_ f U) (u + 1) i - qhat * seg (at_ f V) (v + 1) i - t.
Proof.
  revert f t. induction i as [|i IH]; intros f t Hf Hu Hu5 Hv Hv5 Du Dv Hq Ht.
  { exists f, t. split_and!; [done|by apply touches_refl|done|done|cbn [seg]; lia]. }
  assert (is_digit (at_ f U (u + Z.of_nat (S i)))) as Hui by (apply Du; lia).
  assert (is_digit (at_ f V (v + Z.of_nat (S i)))) as Hvi by (apply Dv; lia).
  cbn [mul_sub].
  rewrite (bind_ok _ _ _ _ _ (ld_ok f (U, u) (Z.of_nat (S i)) Hf ltac:(cbn; lia))).
  rewrite (bind_ok _ _ _ _ _ (ld_ok f (V, v) (Z.of_nat (S i)) Hf ltac:(cbn; lia))). cbn [fst snd].
  destruct (borrow_step _ _ _ _ Hui Hvi Hq Ht) as (x & Ex & -> & -> & Hb).
  destruct (st_ok f (U, u) (Z.of_nat (S i)) (x mod 65536) Hf ltac:(cbn; lia))
    as (f1 & E1 & T1 & V1). cbn [fst snd] in T1, V1.
  rewrite (bind_ok _ _ _ _ _ E1).
  destruct (IH f1 (- (x / 65536))) as (f2 & t2 & E2 & T2 & D2 & Ht2 & S2); try done; try lia.
  { apply (touch_ok _ _ _ _ _ T1). }
  { apply (digits_touch _ _ _ _ _ _ _ _ T1); [|lia|lia]. intros y Hy; apply Du; lia. }
  { apply (digits_touch _ _ _ _ _ _ _ _ T1); [|lia|by left]. intros y Hy; apply Dv; lia. }
  assert (at_ f2 U (u + Z.of_nat (S i)) = x mod 65536) as V2.
  { rewrite (touch_out _ _ _ _ _ T2) by lia. done. }
  exists f2, t2. split_and!; [done| | |done|].
  - eapply touches_trans; eapply touches_sub; [exact T1|lia|lia|exact T2|lia|lia].
  - intros y Hy. destruct (Z.eq_dec y (u + Z.of_nat (S i))) as [->|].
    + rewrite V2. unfold is_digit. dlia.
    + apply D2. lia.
  - rewrite !seg_snoc, Nat2Z.inj_succ, Z.pow_succ_r by lia.
    replace (u + 1 + Z.of_nat i) with (u + Z.of_nat (S i)) by lia.
    replace (v + 1 + Z.of_nat i) with (v + Z.of_nat (S i)) by lia. rewrite V2.
    rewrite (seg_touch f f1 U U _ _ _ _ T1) in S2 by lia.
    rewrite (seg_touch f f1 U V _ _ _ _ T1) in S2 by (lia || by left).
    pose proof (Z.div_mod x 65536 ltac:(lia)). nia.
Qed.

(** The same bookkeeping for a loop that stores digit [i] of [u] and goes on
    with a smaller [i]. *)
Lemma carry_step ui vi t :
  is_digit ui -> is_digit vi -> 0 <= t <= 1 ->
  digit (LHALF (w32 (t + (ui + vi)))) = (t + ui + vi) mod 65536 /\
  HHALF (w32 (t + (ui + vi))) = (t + ui + vi) / 65536 /\ 0 <= (t + ui + vi) / 65536 <= 1.
Proof.
  unfold is_digit. intros Hu Hv Ht. rewrite digit_LHALF, HHALF_eq. split_and!; dlia.
Qed.

Lemma add_back_ok i f u v t :
  frame_ok f -> 0 <= u -> u + Z.of_nat i < 5 -> 0 <= v -> v + Z.of_nat i < 5 ->
  digits f U (u + 1) (u + 1 + Z.of_nat i) -> digits f V (v + 1) (v + 1 + Z.of_nat i) ->
  0 <= t <= 1 ->
  exists f' t', add_back i u v t f = Ret (t', f') /\
    touches U (u + 1) (u + 1 + Z.of_nat i) f f' /\
    digits f' U (u + 1) (u + 1 + Z.of_nat i) /\ 0 <= t' <= 1 /\
    seg (at_ f' U) (u + 1) i + t' * 65536 ^ Z.of_nat i
      = seg (at_ f U) (u + 1) i + seg (at_ f V) (v + 1) i + t.
Proof.
  revert f t. induction i as [|i IH]; intros f t Hf Hu Hu5 Hv Hv5 Du Dv Ht.
  { exists f, t. split_and!; [done|by apply touches_refl|done|lia|lia|cbn [seg]; lia]. }
  assert (is_digit (at_ f U (u + Z.of_nat (S i)))) as Hui by (apply Du; lia).
  assert (is_digit (at_ f V (v + Z.of_nat (S i)))) as Hvi by (apply Dv; lia).
  cbn [add_back].
  rewrite (bind_ok _ _ _ _ _ (ld_ok f (U, u) (Z.of_nat (S i)) Hf ltac:(cbn; lia))).
  rewrite (bind_ok _ _ _ _ _ (ld_ok f (V, v) (Z.of_nat (S i)) Hf ltac:(cbn; lia))). cbn [fst snd].
  destruct (carry_step _ _ _ Hui Hvi Ht) as (-> & -> & Hb).
  set (x := t + _ + _) in *.
  destruct (st_ok f (U, u) (Z.of_nat (S i)) (x mod 65536) Hf ltac:(cbn; lia))
    as (f1 & E1 & T1 & V1). cbn [fst snd] in T1, V1.
  rewrite (bind_ok _ _ _ _ _ E1).
  destruct (IH f1 (x / 65536)) as (f2 & t2 & E2 & T2 & D2 & Ht2 & S2); try done; try lia.
  { apply (touch_ok _ _ _ _ _ T1). }
  { apply (digits_touch _ _ _ _ _ _ _ _ T1); [|lia|lia]. intros y Hy; apply Du; lia. }
  { apply (digits_touch _ _ _ _ _ _ _ _ T1); [|lia|by left]. intros y Hy; apply Dv; lia. }
  assert (at_ f2 U (u + Z.of_nat (S i)) = x mod 65536) as V2.
  { rewrite (touch_out _ _ _ _ _ T2) by lia. done. }
  exists f2, t2. split_and!; [done| | |lia|lia|].
  - eapply touches_trans; eapply touches_sub; [exact T1|lia|lia|exact T2|lia|lia].
  - intros y Hy. destruct (Z.eq_dec y (u + Z.of_nat (S i))) as [->|].
    + rewrite V2. unfold is_digit. dlia.
    + apply D2. lia.
  - rewrite !seg_snoc, Nat2Z.inj_succ, Z.pow_succ_r by lia.
    replace (u + 1 + Z.of_nat i) with (u + Z.of_nat (S i)) by lia.
    replace (v + 1 + Z.of_nat i) with (v + Z.of_nat (S i)) by lia. rewrite V2.
    rewrite (seg_touch f f1 U U _ _ _ _ T1) in S2 by lia.
    rewrite (seg_touch f f1 U V _ _ _ _ T1) in S2 by (lia || by left).
    pose proof (Z.div_mod x 65536 ltac:(lia)). unfold x in *. nia.
Qed.

(** ** The trial digit *)

Lemma lor_add x y k : 0 <= k -> 0 <= y < 2 ^ k -> Z.lor (x * 2 ^ k) y = x * 2 ^ k + y.
Proof.
  intros Hk Hy. apply Z.bits_inj'. intros i Hi. rewrite Z.lor_spec.
  rewrite <- (Z.mod_small y (2 ^ k)) at 1 by done. destruct (Z.ltb_spec i k).
  - rewrite Z.mul_pow2_bits_low, Z.mod_pow2_bits_low by lia.
    rewrite <- (Z.mod_pow2_bits_low (_ + y) k) by lia.
    by rewrite Z.add_comm, Z_mod_plus_full, Z.mod_small.
  - rewrite Z.mul_pow2_bits, Z.mod_pow2_bits_high by lia. rewrite orb_false_r.
    replace i with (i - k + k) at 2 by lia. rewrite <- (Z.div_pow2_bits (_ + y)) by lia.
    f_equal. rewrite Z.add_comm, Z_div_plus by lia. rewrite Z.div_small; lia.
Qed.

Lemma COMBINE_eq a b : 0 <= a < 65536 -> 0 <= b < 65536 -> COMBINE a b = a * 65536 + b.
Proof.
  intros Ha Hb. unfold COMBINE, HALF_BITS. rewrite Z.shiftl_mul_pow2 by lia.
  rewrite w32_id by (unfold is_u32, two32; lia). by apply lor_add.
Qed.

Section trial.
Context (v1 v2 uj0 uj1 uj2 : Z).
Context (Hv1 : 32768 <= v1 < 65536) (Hv2 : is_digit v2).
Context (Hu0 : 0 <= uj0 <= v1) (Hu1 : is_digit uj1) (Hu2 : is_digit uj2).

(** The two leading digits of the divisor and the three of the dividend. *)
Let vv := v1 * 65536 + v2.
Let u3 := (uj0 * 65536 + uj1) * 65536 + uj2.

Definition good_trial (qhat : Z) : Prop :=
  is_digit qhat /\ qhat * vv <= u3 /\ (u3 < (qhat + 1) * vv \/ qhat = 65535).

Lemma qhat_loop_ok fuel enter qhat rhat :
  65536 <= rhat + Z.of_nat fuel * 32768 -> is_digit rhat -> 0 <= qhat ->
  qhat * v1 + rhat = uj0 * 65536 + uj1 ->
  (if enter : bool then qhat = 65536 else is_digit qhat /\ (u3 < (qhat + 1) * vv \/ qhat = 65535)) ->
  exists qh, qhat_loop fuel enter v1 v2 uj2 qhat rhat = Ret qh /\ good_trial qh.
Proof.
  unfold is_digit in *. revert enter qhat rhat.
  induction fuel as [|fuel IH]; intros enter qhat rhat Hfuel Hr Hq Hinv He; [lia|].
  cbn [qhat_loop]. rewrite COMBINE_eq by done.
  assert (0 <= qhat <= 65536) as Hq' by (destruct enter; lia).
  rewrite (w32_id (v2 * qhat)) by (unfold is_u32, two32; nia).
  assert (enter = true \/ rhat * 65536 + uj2 < v2 * qhat \/
          enter = false /\ v2 * qhat <= rhat * 65536 + uj2) as Hc by (destruct enter; lia).
  destruct (enter || _) eqn:Et.
  - assert (1 <= qhat /\ (u3 < qhat * vv \/ qhat = 65536)) as [Hq1 Hbig].
    { destruct enter; [lia|]. cbn in Et. bprop. unfold u3, vv. split; [nia|]. left. nia. }
    rewrite (w32_id (qhat - 1)), (w32_id (rhat + v1)) by (unfold is_u32, two32; lia).
    rewrite B_eq. destruct (Z.leb_spec 65536 (rhat + v1)).
    + exists (qhat - 1). split; [done|]. split_and!; [unfold is_digit; lia| |].
      * unfold u3, vv. nia.
      * replace (qhat - 1 + 1) with qhat by lia. lia.
    + apply IH; [lia|lia|lia|lia|]. replace (qhat - 1 + 1) with qhat by lia. lia.
  - apply orb_false_iff in Et as [-> Et]. bprop.
    exists qhat. split; [done|]. split_and!; [apply He| |apply He].
    unfold u3, vv. nia.
Qed.

Lemma calc_qhat_ok : exists qh, calc_qhat v1 v2 uj0 uj1 uj2 = Ret qh /\ good_trial qh.
Proof.
  unfold is_digit in *. unfold calc_qhat. destruct (Z.eqb_spec uj0 v1) as [Heq|].
  - apply qhat_loop_ok; unfold is_digit; try lia; by rewrite ?B_eq; lia.
  - rewrite COMBINE_eq by lia. set (nn := uj0 * 65536 + uj1) in *.
    pose proof (Z.div_mod nn v1 ltac:(lia)). pose proof (Z.mod_pos_bound nn v1 ltac:(lia)).
    assert (0 <= nn / v1 < 65536)
      by (split; [apply Z.div_pos; lia|apply Z.div_lt_upper_bound; nia]).
    apply qhat_loop_ok; unfold is_digit; try lia.
Qed.

(** Knuth's bound: the trial digit is the digit or one more. *)
Lemma trial_bound qh P ul vl W D :
  good_trial qh -> 0 <= ul < P -> 0 <= vl < P ->
  W = u3 * P + ul -> D = vv * P + vl -> W < D * 65536 ->
  W / D = qh \/ W / D = qh - 1 /\ W - qh * D < 0.
Proof.
  unfold is_digit in *. intros (Hq & Hle & Hgt) Hul Hvl EW ED Hlt. unfold is_digit in Hq.
  assert (65536 * 32768 <= vv) by (unfold vv; lia).
  assert (0 < D) by nia.
  assert (W < (qh + 1) * D) as H1.
  { destruct Hgt as [Hgt| ->]; [|lia]. subst W D.
    assert ((u3 + 1) * P <= (qh + 1) * vv * P) by nia. nia. }
  assert (qh * D < W + D) as H2.
  { subst W D. assert (qh * vv * P <= u3 * P) by nia. nia. }
  destruct (Z.ltb_spec (W - qh * D) 0).
  - right. split; [|done]. symmetry. apply (Z.div_unique W D (qh - 1) (W - (qh - 1) * D)); lia.
  - left. symmetry. apply (Z.div_unique W D qh (W - qh * D)); lia.
Qed.

End trial.

(** Run a load, or a store, at the head of the goal. *)
Ltac run_ld Hf :=
  match goal with |- context [bind (ld ?p ?i) _ ?f] =>
    rewrite (bind_ok _ _ _ _ _ (ld_ok f p i Hf ltac:(cbn [fst snd]; lia))); cbn [fst snd]
  end.
Ltac run_st Hf f1 E T W :=
  match goal with
  | |- context [bind (st ?p ?i ?x) _ ?f] =>
      destruct (st_ok f p i x Hf ltac:(cbn [fst snd]; lia)) as (f1 & E & T & W);
      rewrite (bind_ok _ _ _ _ _ E)
  | |- context [st ?p ?i ?x ?f] =>
      destruct (st_ok f p i x Hf ltac:(cbn [fst snd]; lia)) as (f1 & E & T & W)
  end;
  cbn [fst snd] in T, W.

(** ** One digit of the quotient *)

(** The divisor at [v + 1 .. v + n], normalised. *)
Record divisor (f : frame) (n v : Z) : Prop := {
  dv_n : 2 <= n;
  dv_v : 0 <= v;
  dv_end : v + n < 5;
  dv_digits : digits f V (v + 1) (v + 1 + n);
  dv_norm : 32768 <= at_ f V (v + 1)
}.

Definition dval (f : frame) (n v : Z) : Z := seg (at_ f V) (v + 1) (Z.to_nat n).

Lemma divisor_pos f n v : divisor f n v -> 0 < dval f n v < 65536 ^ n.
Proof.
  intros [Hn Hv He Hd Hm]. unfold dval.
  assert (0 <= seg (at_ f V) (v + 1) (Z.to_nat n) < 65536 ^ Z.of_nat (Z.to_nat n)) as Hb
    by (apply seg_bound; intros; apply Hd; lia).
  rewrite Z2Nat.id in Hb by lia. split; [|apply Hb].
  destruct (Z.to_nat n) as [|k] eqn:E; [lia|]. cbn [seg].
  assert (0 <= seg (at_ f V) (v + 1 + 1) k < 65536 ^ Z.of_nat k)
    by (apply seg_bound; intros; apply Hd; lia). nia.
Qed.

(** The leading digits of the divisor and of a dividend of one digit more. *)
Lemma lead2 g i k : seg g i (2 + k) =
  (g i * 65536 + g (i + 1)) * 65536 ^ Z.of_nat k + seg g (i + 2) k.
Proof. rewrite seg_app. cbn [seg]. repeat f_equal; lia. Qed.

Lemma lead3 g i k : seg g i (3 + k) =
  ((g i * 65536 + g (i + 1)) * 65536 + g (i + 2)) * 65536 ^ Z.of_nat k + seg g (i + 3) k.
Proof.
  rewrite seg_app. cbn [seg]. replace (i + 1 + 1) with (i + 2) by lia.
  change (Z.of_nat 3) with 3. change (65536 ^ Z.of_nat 2) with (65536 * 65536).
  change (65536 ^ Z.of_nat 1) with 65536. change (65536 ^ Z.of_nat 0) with 1. f_equal; lia.
Qed.

Lemma lead_le f n v p :
  divisor f n v -> 0 <= p -> digits f U p (p + n + 1) ->
  seg (at_ f U) p (Z.to_nat n) < dval f n v -> at_ f U p <= at_ f V (v + 1).
Proof.
  intros [Hn Hv He Hdg Hm] Hp Du Hlt. unfold dval in Hlt.
  destruct (Z.to_nat n) as [|k] eqn:En; [lia|]. cbn [seg] in Hlt.
  assert (0 <= seg (at_ f U) (p + 1) k) by (apply seg_bound; intros; apply Du; lia).
  assert (seg (at_ f V) (v + 1 + 1) k < 65536 ^ Z.of_nat k)
    by (apply seg_bound; intros; apply Hdg; lia).
  nia.
Qed.

(** What the trial digit leaves: the digit itself, or one too many. *)
Lemma trial_digit f n v p qh :
  divisor f n v -> 0 <= p -> digits f U p (p + n + 1) ->
  seg (at_ f U) p (Z.to_nat n) < dval f n v ->
  good_trial (at_ f V (v + 1)) (at_ f V (v + 2)) (at_ f U p) (at_ f U (p + 1)) (at_ f U (p + 2)) qh ->
  let W := seg (at_ f U) p (S (Z.to_nat n)) in
  let D := dval f n v in
  W / D = qh \/ W / D = qh - 1 /\ W - qh * D < 0.
Proof.
  intros Hd Hp Du Hlt Ht W D. pose proof (lead_le f n v p Hd Hp Du Hlt). destruct Hd as [Hn Hv He Hdg Hm].
  destruct (Z.to_nat n) as [|[|k]] eqn:En; [lia..|].
  assert (W = _) as EW by exact (lead3 (at_ f U) p k).
  assert (D = _) as ED by (unfold D, dval; rewrite En; exact (lead2 (at_ f V) (v + 1) k)).
  replace (v + 1 + 1) with (v + 2) in ED by lia.
  assert (is_digit (at_ f V (v + 1))) as H1 by (apply Hdg; lia).
  assert (is_digit (at_ f V (v + 2))) as H2 by (apply Hdg; lia).
  assert (is_digit (at_ f U p)) as H3 by (apply Du; lia).
  assert (is_digit (at_ f U (p + 1))) as H4 by (apply Du; lia).
  assert (is_digit (at_ f U (p + 2))) as H5 by (apply Du; lia).
  eapply trial_bound; [..|exact EW|exact ED|]; unfold is_digit in *; try lia; try done.
  - apply seg_bound. intros; apply Du; lia.
  - apply seg_bound. intros; apply Hdg; lia.
  - unfold W. rewrite seg_snoc. fold D in Hlt.
    assert (is_digit (at_ f U (p + Z.of_nat (S (S k))))) as Hl by (apply Du; lia).
    unfold is_digit in Hl. lia.
Qed.

(** D4 to D6 from a good trial digit: the remainder is left in [u[j..j+n]] and
    the top digit is zero. *)
Definition after_step (n u v j : Z) (f f' : frame) : Prop :=
  touches U (u + j) (u + j + n + 1) f f' /\ digits f' U (u + j) (u + j + n + 1) /\
  at_ f' U (u + j) = 0 /\
  seg (at_ f' U) (u + j + 1) (Z.to_nat n)
    = seg (at_ f U) (u + j) (S (Z.to_nat n)) mod dval f n v.

(** The borrow out of the top digit. *)
Lemma top_borrow uj t : is_digit uj -> is_digit t ->
  digit (LHALF (w32 (uj - t))) = (uj - t) mod 65536 /\
  (HHALF (w32 (uj - t)) =? 0) = (t <=? uj).
Proof.
  intros Hu Ht. rewrite digit_LHALF, HHALF_eq. unfold is_digit in *. split; [dlia|].
  destruct (Z.leb_spec t uj); [apply Z.eqb_eq|apply Z.eqb_neq]; dlia.
Qed.

(** The value left by the subtraction, by its sign. *)
Lemma sub_cases P D W qh uj t s : 0 < D < P -> 0 <= s < P ->
  s - t * P = W - uj * P - qh * D ->
  W / D = qh \/ W / D = qh - 1 /\ W - qh * D < 0 ->
  (t = uj /\ s = W mod D /\ W / D = qh) \/
  (t = uj + 1 /\ s + D = W mod D + P /\ W / D = qh - 1).
Proof.
  intros HD Hs E Hq. pose proof (Z.div_mod W D ltac:(lia)) as Hdm.
  pose proof (Z.mod_pos_bound W D ltac:(lia)) as Hb.
  set (r := W mod D) in *. clearbody r. destruct Hq as [Hq|[Hq Hneg]]; rewrite Hq in Hdm.
  - left. assert (uj - t = 0) by nia. split_and!; [lia|nia|lia].
  - right. assert (uj - t = -1) by nia. split_and!; [lia|nia|lia].
Qed.

Section step.
Context (f : frame) (n u v j : Z).
Context (Hf : frame_ok f) (Hd : divisor f n v) (Hu : 0 <= u + j) (Hu5 : u + j + n < 5).
Context (Du : digits f U (u + j) (u + j + n + 1)).
Context (Hlt : seg (at_ f U) (u + j) (Z.to_nat n) < dval f n v).

Let D := dval f n v.
Let W := seg (at_ f U) (u + j) (S (Z.to_nat n)).

(** D3. *)
Lemma trial_at :
  exists qh, calc_qhat (at_ f V (v + 1)) (at_ f V (v + 2)) (at_ f U (u + (j + 0)))
               (at_ f U (u + (j + 1))) (at_ f U (u + (j + 2))) = Ret qh /\
    is_digit qh /\ (W / D = qh \/ W / D = qh - 1 /\ W - qh * D < 0).
Proof.
  pose proof (lead_le f n v (u + j) Hd Hu Du Hlt). pose proof Hd as [Hn Hv He Hdg Hm].
  replace (u + (j + 0)) with (u + j) by lia. replace (u + (j + 1)) with (u + j + 1) by lia.
  replace (u + (j + 2)) with (u + j + 2) by lia.
  assert (is_digit (at_ f V (v + 1))) as H1 by (apply Hdg; lia).
  assert (is_digit (at_ f U (u + j))) as H2 by (apply Du; lia).
  unfold is_digit in H1, H2.
  destruct (calc_qhat_ok (at_ f V (v + 1)) (at_ f V (v + 2)) (at_ f U (u + j))
              (at_ f U (u + j + 1)) (at_ f U (u + j + 2))) as (qh & -> & Hqh);
    [lia|apply Hdg; lia|lia|apply Du; lia|apply Du; lia|].
  exists qh. split_and!; [done|apply Hqh|]. by apply trial_digit.
Qed.

(** D4: the digits [u[j+1..j+n]] after the subtraction of [qh] divisors, and the
    borrow [t] into [u[j]]. *)
Lemma sub_at qh :
  is_digit qh -> W / D = qh \/ W / D = qh - 1 /\ W - qh * D < 0 ->
  exists f1 t, mul_sub (Z.to_nat n) (u + j) v qh 0 f = Ret (t, f1) /\
    touches U (u + j + 1) (u + j + n + 1) f f1 /\
    digits f1 U (u + j + 1) (u + j + n + 1) /\ is_digit t /\
    let s := seg (at_ f1 U) (u + j + 1) (Z.to_nat n) in
    let uj := at_ f U (u + j) in
    (t = uj /\ s = W mod D /\ W / D = qh) \/
    (t = uj + 1 /\ s + D = W mod D + 65536 ^ n /\ W / D = qh - 1).
Proof.
  intros Hq Hc. pose proof Hd as [Hn Hv He Hdg Hm].
  destruct (mul_sub_ok (Z.to_nat n) f (u + j) v qh 0) as (f1 & t & E & T & D1 & Ht & Eq);
    rewrite ?Z2Nat.id by lia; try done; try lia.
  { intros i Hi. apply Du. lia. }
  exists f1, t. rewrite Z2Nat.id in T, D1, Eq by lia.
  replace (u + j + 1 + n) with (u + j + n + 1) in T, D1 by lia.
  split_and!; [done..|]. apply sub_cases; [by apply divisor_pos| | |done].
  - eapply seg_digits; [lia|exact D1|lia].
  - unfold W. cbn [seg]. rewrite Z2Nat.id by lia. fold (dval f n v) in Eq. fold D in Eq. lia.
Qed.

(** D5: no borrow out of [u[j]]. *)
Lemma settled f1 f2 :
  touches U (u + j) (u + j + n + 1) f f1 ->
  digits f1 U (u + j + 1) (u + j + n + 1) ->
  seg (at_ f1 U) (u + j + 1) (Z.to_nat n) = W mod D ->
  touches U (u + j) (u + j + 1) f1 f2 -> at_ f2 U (u + j) = 0 -> after_step n u v j f f2.
Proof.
  intros T1 D1 S1 T2 V2. pose proof Hd as [Hn Hv He Hdg Hm].
  assert (forall i, u + j + 1 <= i -> at_ f2 U i = at_ f1 U i) as Hi
    by (intros; apply (touch_out _ _ _ _ _ T2); lia).
  split_and!; [|intros i Hr|done|].
  - eapply touches_trans; eapply touches_sub; [exact T1|lia|lia|exact T2|lia|lia].
  - destruct (Z.eq_dec i (u + j)) as [->|]; [rewrite V2; unfold is_digit; lia|].
    rewrite Hi by lia. apply D1. lia.
  - rewrite (seg_ext _ (at_ f1 U)) by (intros; apply Hi; lia). done.
Qed.

(** D6: the divisor added back. *)
Lemma add_at f1 :
  touches U (u + j) (u + j + n + 1) f f1 ->
  digits f1 U (u + j) (u + j + n + 1) ->
  seg (at_ f1 U) (u + j + 1) (Z.to_nat n) + D = W mod D + 65536 ^ n ->
  exists f2, add_back (Z.to_nat n) (u + j) v 0 f1 = Ret (1, f2) /\
    touches U (u + j + 1) (u + j + n + 1) f1 f2 /\
    digits f2 U (u + j + 1) (u + j + n + 1) /\
    seg (at_ f2 U) (u + j + 1) (Z.to_nat n) = W mod D.
Proof.
  intros T1 D1 S1. pose proof Hd as [Hn Hv He Hdg Hm]. pose proof (divisor_pos f n v Hd) as HD.
  destruct (add_back_ok (Z.to_nat n) f1 (u + j) v 0) as (f2 & t & E & T & D2 & Ht & Eq);
    rewrite ?Z2Nat.id by lia; try done; try lia.
  { apply (touch_ok _ _ _ _ _ T1). }
  { intros i Hi. apply D1. lia. }
  { apply (digits_touch _ _ _ _ _ _ _ _ T1); [|lia|by left]. done. }
  rewrite Z2Nat.id in T, D2, Eq by lia.
  rewrite (seg_touch f f1 U V _ _ _ _ T1) in Eq by (lia || by left).
  fold (dval f n v) in Eq. fold D in Eq, HD.
  replace (u + j + 1 + n) with (u + j + n + 1) in T, D2 by lia.
  assert (0 <= seg (at_ f2 U) (u + j + 1) (Z.to_nat n) < 65536 ^ n) as Hb.
  { eapply seg_digits; [lia|exact D2|lia]. }
  pose proof (Z.mod_pos_bound W D ltac:(lia)).
  assert (t = 1) as -> by nia. exists f2. split_and!; [done..|]. lia.
Qed.

(** The add-back with the store of the top digit. *)
Lemma fix_at f1 :
  touches U (u + j) (u + j + n + 1) f f1 ->
  digits f1 U (u + j + 1) (u + j + n + 1) ->
  seg (at_ f1 U) (u + j + 1) (Z.to_nat n) + D = W mod D + 65536 ^ n ->
  at_ f1 U (u + j) = 65535 ->
  exists f2,
    (let* t := add_back (Z.to_nat n) (u + j) v 0 in
     let* uj := ld (U, u) j in
     st (U, u) j (digit (LHALF (w32 (uj + t))))) f1 = Ret (tt, f2) /\
    after_step n u v j f f2.
Proof.
  intros T1 D1 S1 V1. pose proof Hd as [Hn Hv He Hdg Hm].
  destruct (add_at f1) as (f2 & E2 & T2 & D2 & S2); try done.
  { intros i Hi. destruct (Z.eq_dec i (u + j)) as [->|]; [rewrite V1; unfold is_digit; lia|].
    apply D1. lia. }
  rewrite (bind_ok _ _ _ _ _ E2). pose proof (touch_ok _ _ _ _ _ T2) as Hf2.
  run_ld Hf2. rewrite (touch_out _ _ _ _ _ T2), V1 by lia.
  run_st Hf2 f3 E3 T3 V3. exists f3. split; [exact E3|].
  apply (settled f2 f3); try done.
  eapply touches_trans; [exact T1|]. eapply touches_sub; [exact T2|lia..].
Qed.

Lemma div_step_ok q :
  0 <= q + j < 5 ->
  exists f1 f', div_step n u v q (at_ f V (v + 1)) (at_ f V (v + 2)) j f = Ret (tt, f') /\
    after_step n u v j f f1 /\ touches Q (q + j) (q + j + 1) f1 f' /\
    at_ f' Q (q + j) = W / D.
Proof.
  intros Hq. pose proof Hd as [Hn Hv He Hdg Hm].
  unfold div_step. do 3 run_ld Hf.
  destruct trial_at as (qh & -> & Hqh & Hc). mrun.
  destruct (sub_at qh Hqh Hc) as (f1 & t & E1 & T1 & D1 & Ht & Hs). cbv zeta in Hs.
  rewrite (bind_ok _ _ _ _ _ E1). pose proof (touch_ok _ _ _ _ _ T1) as Hf1.
  run_ld Hf1. rewrite (touch_out _ _ _ _ _ T1) by lia.
  assert (is_digit (at_ f U (u + j))) as Huj by (apply Du; lia).
  destruct (top_borrow _ _ Huj Ht) as [-> ->].
  run_st Hf1 f2 E2 T2 V2.
  pose proof (touch_ok _ _ _ _ _ T2) as Hf2. unfold is_digit in Hqh.
  apply (touches_sub _ _ _ (u + j) (u + j + n + 1)) in T1; [|lia..].
  destruct Hs as [(-> & Hs & Eq)|(-> & Hs & Eq)].
  - rewrite Z.leb_refl. mrun. run_st Hf2 f3 E3 T3 V3. exists f2, f3. split; [exact E3|].
    split; [|by rewrite V3, Eq; split; [|unfold digit; apply Z.mod_small]].
    apply (settled f1 f2); try done. rewrite V2, Z.sub_diag. done.
  - destruct (Z.leb_spec (at_ f U (u + j) + 1) (at_ f U (u + j))); [lia|].
    assert (forall i, u + j + 1 <= i -> at_ f2 U i = at_ f1 U i) as Hi
      by (intros; apply (touch_out _ _ _ _ _ T2); lia).
    destruct (fix_at f2) as (f3 & E3 & A3).
    { eapply touches_trans; [exact T1|]. eapply touches_sub; [exact T2|lia..]. }
    { intros i Hr. rewrite Hi by lia. by apply D1. }
    { rewrite (seg_ext _ (at_ f1 U)) by (intros; apply Hi; lia). done. }
    { rewrite V2. unfold is_digit in Huj. by replace (_ - _) with (-1) by lia. }
    minv. rewrite !bind_bind, (bind_ok _ _ _ _ _ Hm0), !bind_bind, (bind_ok _ _ _ _ _ Hm1),
      !bind_bind, (bind_ok _ _ _ _ _ E3). mrun.
    assert (0 <= W / D) by (apply Z.div_pos; [apply seg_bound; intros; apply Du; lia|];
                            apply divisor_pos; done).
    destruct A3 as [T4 A4]. pose proof (touch_ok _ _ _ _ _ T4) as Hf3.
    run_st Hf3 f4 E5 T5 V5. exists f3, f4. split_and!; [exact E5|by split|done|].
    rewrite V5, Eq, w32_id by (unfold is_u32, two32; lia). apply Z.mod_small. lia.
Qed.

End step.

(** ** All digits of the quotient *)

Section loop.
Context (f0 : frame) (n m u v q : Z).
Context (Hd : divisor f0 n v) (Hm : 0 <= m) (Hu : 0 <= u) (Hu5 : u + m + n < 5).
Context (Hq : 0 <= q) (Hq5 : q + m < 5).

Let D := dval f0 n v.
(** The dividend that is left at [u[j..m+n]]. *)
Let left_ (f : frame) (j : Z) : Z := seg (at_ f U) (u + j) (Z.to_nat (m + n + 1 - j)).

Record quo_inv (U0 j : Z) (f : frame) : Prop := {
  qi_ok : frame_ok f;
  qi_V : forall i, at_ f V i = at_ f0 V i;
  qi_U : forall i, 0 <= i < u -> at_ f U i = at_ f0 U i;
  qi_Q : forall i, 0 <= i < q -> at_ f Q i = at_ f0 Q i;
  qi_dig : digits f U (u + j) (u + m + n + 1);
  qi_zero : forall i, u <= i < u + j -> at_ f U i = 0;
  qi_qdig : digits f Q q (q + j);
  qi_lt : seg (at_ f U) (u + j) (Z.to_nat n) < D;
  qi_val : U0 = seg (at_ f Q) q (Z.to_nat j) * 65536 ^ (m + 1 - j) * D + left_ f j
}.

Lemma inv_divisor U0 j f : quo_inv U0 j f -> divisor f n v /\ dval f n v = D.
Proof.
  intros H. destruct Hd as [H1 H2 H3 H4 H5]. split; [split; try done|].
  - intros i Hi. rewrite (qi_V _ _ _ H). by apply H4.
  - by rewrite (qi_V _ _ _ H).
  - apply seg_ext. intros. apply (qi_V _ _ _ H).
Qed.

Lemma left_split f j : 0 <= j <= m -> 0 <= n ->
  left_ f j = seg (at_ f U) (u + j) (S (Z.to_nat n)) * 65536 ^ (m - j)
              + seg (at_ f U) (u + j + n + 1) (Z.to_nat (m - j)).
Proof.
  intros Hj Hn. unfold left_.
  replace (Z.to_nat (m + n + 1 - j)) with (S (Z.to_nat n) + Z.to_nat (m - j))%nat by lia.
  rewrite seg_app, Z2Nat.id by lia.
  by replace (u + j + Z.of_nat (S (Z.to_nat n))) with (u + j + n + 1) by lia.
Qed.

Lemma quo_step U0 j f :
  0 <= j <= m -> quo_inv U0 j f ->
  exists f', div_step n u v q (at_ f0 V (v + 1)) (at_ f0 V (v + 2)) j f = Ret (tt, f') /\
             quo_inv U0 (j + 1) f'.
Proof.
  intros Hj HI. destruct (inv_divisor _ _ _ HI) as [Hdv HD]. pose proof (dv_n _ _ _ Hd) as Hn.
  pose proof HI as [I1 I2 I3 I4 I5 I6 I7 I8 I9]. rewrite <- !I2.
  destruct (div_step_ok f n u v j I1 Hdv) with (q := q) as (f1 & f' & E & (T1 & D1 & Z1 & S1) & T2 & V2);
    rewrite ?HD; try lia.
  { intros i Hi; apply I5; lia. }
  rewrite HD in S1, V2. set (W := seg (at_ f U) (u + j) (S (Z.to_nat n))) in *.
  exists f'. split; [done|].
  assert (forall i, at_ f' U i = at_ f1 U i) as HU
    by (intros; by apply (touch_arr _ _ _ _ _ T2)).
  assert (forall i, u + j + n + 1 <= i -> at_ f1 U i = at_ f U i) as HU1
    by (intros; apply (touch_out _ _ _ _ _ T1); lia).
  assert (forall i, 0 <= i -> i <> q + j -> at_ f' Q i = at_ f Q i) as HQ.
  { intros i Hi Hne. rewrite (touch_out _ _ _ _ _ T2) by lia. by apply (touch_arr _ _ _ _ _ T1). }
  assert (0 < D) as HD0 by (unfold D; pose proof (divisor_pos _ _ _ Hd); lia).
  assert (0 <= W < D * 65536) as HW.
  { split; [apply seg_bound; intros; apply I5; lia|]. unfold W. rewrite seg_snoc.
    assert (is_digit (at_ f U (u + j + Z.of_nat (Z.to_nat n)))) as Hl by (apply I5; lia).
    unfold is_digit in Hl. lia. }
  split.
  - apply (touch_ok _ _ _ _ _ T2).
  - intros i. by rewrite (touch_arr _ _ _ _ _ T2), (touch_arr _ _ _ _ _ T1).
  - intros i Hi. rewrite HU, (touch_out _ _ _ _ _ T1) by lia. by apply I3.
  - intros i Hi. rewrite HQ by lia. by apply I4.
  - intros i Hi. rewrite HU. destruct (Z.ltb_spec i (u + j + n + 1)); [apply D1; lia|].
    rewrite HU1 by lia. apply I5. lia.
  - intros i Hi. rewrite HU. destruct (Z.eq_dec i (u + j)) as [->|]; [done|].
    rewrite (touch_out _ _ _ _ _ T1) by lia. apply I6. lia.
  - intros i Hi. destruct (Z.eq_dec i (q + j)) as [->|]; [|rewrite HQ by lia; apply I7; lia].
    rewrite V2. split; [by apply Z.div_pos; lia|apply Z.div_lt_upper_bound; lia].
  - rewrite Z.add_assoc, (seg_ext _ (at_ f1 U)) by (intros; apply HU). rewrite S1.
    apply Z.mod_pos_bound. lia.
  - rewrite I9, left_split by lia. unfold left_.
    replace (Z.to_nat (j + 1)) with (S (Z.to_nat j)) by lia.
    rewrite (seg_snoc (at_ f' Q)).
    rewrite (seg_ext (at_ f' Q) (at_ f Q)) by (intros; apply HQ; lia).
    rewrite Z2Nat.id, V2 by lia.
    replace (Z.to_nat (m + n + 1 - (j + 1))) with (Z.to_nat n + Z.to_nat (m - j))%nat by lia.
    rewrite seg_app, !Z2Nat.id by lia.
    rewrite !(seg_ext (at_ f' U) (at_ f1 U)) by (intros; apply HU).
    replace (u + (j + 1)) with (u + j + 1) by lia. rewrite S1.
    replace (u + j + 1 + n) with (u + j + n + 1) by lia.
    rewrite (seg_ext (at_ f1 U) (at_ f U)) by (intros; apply HU1; lia).
    replace (m + 1 - j) with (Z.succ (m - j)) by lia. rewrite Z.pow_succ_r by lia.
    replace (m + 1 - (j + 1)) with (m - j) by lia. fold W.
    pose proof (Z.div_mod W D ltac:(lia)). set (P := 65536 ^ (m - j)) in *. clearbody P. nia.
Qed.

Lemma quo_loop U0 f :
  quo_inv U0 0 f ->
  exists f', for_ (S (Z.to_nat m)) 0 (div_step n u v q (at_ f0 V (v + 1)) (at_ f0 V (v + 2))) f
             = Ret (tt, f') /\ quo_inv U0 (m + 1) f'.
Proof.
  intros H0.
  destruct (for_inv (quo_inv U0) (div_step n u v q (at_ f0 V (v + 1)) (at_ f0 V (v + 2)))
              (S (Z.to_nat m)) 0 f H0) as (f' & E & HI).
  - intros i st Hi HI. apply quo_step; [lia|done].
  - exists f'. split; [done|]. by replace (m + 1) with (0 + Z.of_nat (S (Z.to_nat m))) by lia.
Qed.

(** After the loop: quotient and remainder. *)
Lemma quo_done U0 f :
  quo_inv U0 (m + 1) f ->
  seg (at_ f Q) q (Z.to_nat (m + 1)) = U0 / D /\
  seg (at_ f U) (u + m + 1) (Z.to_nat n) = U0 mod D.
Proof.
  intros HI. pose proof (dv_n _ _ _ Hd) as Hn.
  pose proof HI as [I1 I2 I3 I4 I5 I6 I7 I8 I9]. unfold left_ in I9.
  rewrite Z.add_assoc in I5, I8, I9. replace (m + n + 1 - (m + 1)) with n in I9 by lia.
  rewrite Z.sub_diag, Z.mul_1_r in I9.
  assert (0 <= seg (at_ f U) (u + m + 1) (Z.to_nat n)) by (apply seg_bound; intros; apply I5; lia).
  set (qv := seg (at_ f Q) _ _) in *. set (r := seg (at_ f U) _ _) in *.
  split; [apply (Z.div_unique U0 D qv r)|apply (Z.mod_unique U0 D qv r)]; lia.
Qed.

End loop.

(** ** Shifting digits *)

(** A left shift of [k + 1] digits by [s] bits; the bits shifted out of the
    first digit are those of its product with [s]. *)
Lemma seg_shl g g' s i k :
  0 < s -> (forall x, i <= x <= i + Z.of_nat k -> is_digit (g x)) ->
  (forall x, i <= x < i + Z.of_nat k -> g' x = (g x * s) mod 65536 + g (x + 1) * s / 65536) ->
  g' (i + Z.of_nat k) = (g (i + Z.of_nat k) * s) mod 65536 ->
  seg g' i (S k) + (g i * s / 65536) * 65536 ^ Z.of_nat (S k) = seg g i (S k) * s.
Proof.
  intros Hs. revert i. induction k as [|k IH]; intros i Hd Hi Hl.
  - cbn [seg]. rewrite Z.add_0_r in Hl. rewrite Hl.
    change (65536 ^ Z.of_nat 0) with 1. change (65536 ^ Z.of_nat 1) with 65536.
    pose proof (Z.div_mod (g i * s) 65536 ltac:(lia)). lia.
  - specialize (IH (i + 1)). cbn [seg] in IH |- *.
    rewrite (Hi i) by lia. pose proof (Z.div_mod (g i * s) 65536 ltac:(lia)).
    rewrite !(Nat2Z.inj_succ (S k)), !Z.pow_succ_r by lia.
    assert (seg g' (i + 1) (S k) + g (i + 1) * s / 65536 * 65536 ^ Z.of_nat (S k)
            = seg g (i + 1) (S k) * s) as IH'.
    { apply IH.
      - intros x Hx. apply Hd. lia.
      - intros x Hx. apply Hi. lia.
      - replace (i + 1 + Z.of_nat k) with (i + Z.of_nat (S k)) by lia. done. }
    cbn [seg] in IH'. nia.
Qed.

(** A right shift in place by [d] bits, each digit taking in the bits shifted
    out of the one before it. *)
Lemma seg_shr g g' d i k :
  0 <= d <= 16 ->
  (forall x, i < x <= i + Z.of_nat k ->
     g' x = g x / 2 ^ d + (g (x - 1) mod 2 ^ d) * 2 ^ (16 - d)) ->
  2 ^ d * seg g' (i + 1) k
  = seg g (i + 1) k + (g i mod 2 ^ d) * 65536 ^ Z.of_nat k - g (i + Z.of_nat k) mod 2 ^ d.
Proof.
  intros Hd. assert (2 ^ d * 2 ^ (16 - d) = 65536) as Hp.
  { rewrite <- Z.pow_add_r by lia. by replace (d + (16 - d)) with 16 by lia. }
  assert (0 < 2 ^ d) by (apply Z.pow_pos_nonneg; lia).
  induction k as [|k IH]; intros Hg.
  { cbn [seg]. rewrite Z.add_0_r. change (65536 ^ Z.of_nat 0) with 1. lia. }
  rewrite !seg_snoc, Hg by lia. rewrite Nat2Z.inj_succ, Z.pow_succ_r by lia.
  replace (i + 1 + Z.of_nat k - 1) with (i + Z.of_nat k) by lia.
  replace (i + Z.succ (Z.of_nat k)) with (i + 1 + Z.of_nat k) by lia.
  pose proof (Z.div_mod (g (i + 1 + Z.of_nat k)) (2 ^ d) ltac:(lia)).
  assert (2 ^ d * seg g' (i + 1) k = _) as IH' by (apply IH; intros; apply Hg; lia).
  rewrite Z.mul_add_distr_l, Z.mul_assoc, IH', Z.mul_add_distr_l.
  replace (2 ^ d * (g (i + Z.of_nat k) mod 2 ^ d * 2 ^ (16 - d)))
    with (g (i + Z.of_nat k) mod 2 ^ d * 65536) by (rewrite <- Hp; lia).
  lia.
Qed.

(** The digits that the shifts of the code store. *)
Lemma digit_shl x y s : is_digit x -> is_digit y -> 1 <= s <= 15 ->
  digit (Z.lor (LHALF (w32 (Z.shiftl x s))) (Z.shiftr y (HALF_BITS - s)))
  = (x * 2 ^ s) mod 65536 + y * 2 ^ s / 65536 /\
  digit (LHALF (w32 (Z.shiftl x s))) = (x * 2 ^ s) mod 65536.
Proof.
  unfold is_digit, HALF_BITS. intros Hx Hy Hs.
  rewrite Z.shiftl_mul_pow2, Z.shiftr_div_pow2 by lia.
  assert (2 ^ s * 2 ^ (16 - s) = 65536) as Hp.
  { rewrite <- Z.pow_add_r by lia. by replace (s + (16 - s)) with 16 by lia. }
  assert (0 < 2 ^ s) by (apply Z.pow_pos_nonneg; lia).
  assert (0 < 2 ^ (16 - s)) by (apply Z.pow_pos_nonneg; lia).
  rewrite LHALF_eq. assert (w32 (x * 2 ^ s) mod 65536 = (x * 2 ^ s) mod 65536) as -> by dlia.
  assert (y * 2 ^ s / 65536 = y / 2 ^ (16 - s)) as ->.
  { rewrite <- Hp, Z.mul_comm. by rewrite Z.div_mul_cancel_l by lia. }
  assert ((x * 2 ^ s) mod 65536 = x mod 2 ^ (16 - s) * 2 ^ s) as ->.
  { rewrite <- Hp, (Z.mul_comm (2 ^ s)). by rewrite Z.mul_mod_distr_r by lia. }
  assert (0 <= y / 2 ^ (16 - s) < 2 ^ s)
    by (split; [apply Z.div_pos; lia|apply Z.div_lt_upper_bound; lia]).
  pose proof (Z.mod_pos_bound x (2 ^ (16 - s)) ltac:(lia)).
  rewrite lor_add by lia. unfold digit. split; apply Z.mod_small; nia.
Qed.

Lemma digit_shr x y d : is_digit x -> is_digit y -> 1 <= d <= 15 ->
  digit (Z.lor (Z.shiftr x d) (LHALF (w32 (Z.shiftl y (HALF_BITS - d)))))
  = x / 2 ^ d + (y mod 2 ^ d) * 2 ^ (16 - d).
Proof.
  intros Hx Hy Hd. rewrite Z.lor_comm.
  replace d with (16 - (16 - d)) at 2 by lia. change 16 with HALF_BITS at 1.
  destruct (digit_shl y x (16 - d)) as [E _]; [done|done|lia|].
  unfold HALF_BITS in *. rewrite E.
  assert (2 ^ d * 2 ^ (16 - d) = 65536) as Hp.
  { rewrite <- Z.pow_add_r by lia. by replace (d + (16 - d)) with 16 by lia. }
  assert (0 < 2 ^ d) by (apply Z.pow_pos_nonneg; lia).
  assert (0 < 2 ^ (16 - d)) by (apply Z.pow_pos_nonneg; lia).
  rewrite <- Hp. rewrite Z.mul_mod_distr_r by lia. rewrite Z.div_mul_cancel_r by lia. lia.
Qed.

Lemma shl_ok f a p len s :
  frame_ok f -> 0 <= p -> 0 <= len -> p + len < 5 -> 1 <= s <= 15 ->
  digits f a p (p + len + 1) -> at_ f a p * 2 ^ s < 65536 ->
  exists f', shl (a, p) len s f = Ret (tt, f') /\
    touches a p (p + len + 1) f f' /\ digits f' a p (p + len + 1) /\
    seg (at_ f' a) p (Z.to_nat (len + 1)) = seg (at_ f a) p (Z.to_nat (len + 1)) * 2 ^ s.
Proof.
  intros Hf Hp Hl H5 Hs Hd Htop. unfold shl.
  set (new x := (at_ f a x * 2 ^ s) mod 65536 + at_ f a (x + 1) * 2 ^ s / 65536).
  destruct (for_inv (fun i f' => touches a p (p + i) f f' /\
      forall x, p <= x < p + i -> at_ f' a x = new x /\ is_digit (new x))
    (fun i => let* x := ld (a, p) i in
       let* y := ld (a, p) (i + 1) in
       st (a, p) i (digit (Z.lor (LHALF (w32 (Z.shiftl x s))) (Z.shiftr y (HALF_BITS - s)))))
    (Z.to_nat len) 0 f) as (f1 & E1 & T1 & V1).
  { split; [by apply touches_refl|intros; lia]. }
  { intros i g Hi [Tg Vg]. pose proof (touch_ok _ _ _ _ _ Tg) as Hg.
    run_ld Hg. run_ld Hg. rewrite !(touch_out _ _ _ _ _ Tg) by lia.
    destruct (digit_shl (at_ f a (p + i)) (at_ f a (p + (i + 1))) s) as [-> _];
      [apply Hd; lia|apply Hd; lia|lia|].
    rewrite (Z.add_assoc p i 1). change (_ + _ / _) with (new (p + i)).
    assert (is_digit (new (p + i))) as Hnew.
    { unfold new. destruct (digit_shl (at_ f a (p + i)) (at_ f a (p + i + 1)) s) as [<- _];
        [apply Hd; lia|apply Hd; lia|lia|apply digit_digit]. }
    run_st Hg g' E T Vx. exists g'. split; [exact E|]. split.
    - eapply touches_trans; eapply touches_sub; [exact Tg|lia|lia|exact T|lia|lia].
    - intros x Hx. destruct (Z.eq_dec x (p + i)) as [->|]; [by rewrite Vx|].
      rewrite (touch_out _ _ _ _ _ T) by lia. apply Vg. lia. }
  rewrite Z2Nat.id, Z.add_0_l in T1, V1 by lia.
  rewrite (bind_ok _ _ _ _ _ E1). pose proof (touch_ok _ _ _ _ _ T1) as Hf1.
  run_ld Hf1. rewrite (touch_out _ _ _ _ _ T1) by lia.
  assert (is_digit (at_ f a (p + len))) as Hdl by (apply Hd; lia).
  destruct (digit_shl _ _ s Hdl Hdl Hs) as [_ El].
  run_st Hf1 f2 E2 T2 V2. rewrite El in V2. exists f2.
  assert (forall x, p <= x < p + len -> at_ f2 a x = new x) as Vn.
  { intros x Hx. rewrite (touch_out _ _ _ _ _ T2) by lia. by apply V1. }
  split_and!; [exact E2| | |].
  - eapply touches_trans; eapply touches_sub; [exact T1|lia|lia|exact T2|lia|lia].
  - intros x Hx. destruct (Z.eq_dec x (p + len)) as [->|].
    + rewrite V2, <- El. apply digit_digit.
    + rewrite Vn by lia. apply V1. lia.
  - replace (Z.to_nat (len + 1)) with (S (Z.to_nat len)) by lia.
    assert (0 < 2 ^ s) by (apply Z.pow_pos_nonneg; lia).
    assert (0 <= at_ f a p) by (apply Hd; lia).
    rewrite <- (seg_shl (at_ f a) (at_ f2 a) (2 ^ s) p (Z.to_nat len)); [|done|..].
    + rewrite (Z.div_small (at_ f a p * 2 ^ s)) by nia. lia.
    + intros x Hx. apply Hd. lia.
    + intros x Hx. apply Vn. lia.
    + rewrite Z2Nat.id by lia. exact V2.
Qed.

Lemma shift_back_ok k f u m d :
  frame_ok f -> 0 <= u + m -> u + m + Z.of_nat k < 5 -> 1 <= d <= 15 ->
  digits f U (u + m) (u + m + Z.of_nat k + 1) ->
  exists f', shift_back k u m d f = Ret (tt, f') /\
    touches U (u + m + 1) (u + m + Z.of_nat k + 1) f f' /\
    forall x, u + m < x <= u + m + Z.of_nat k ->
      at_ f' U x = at_ f U x / 2 ^ d + (at_ f U (x - 1) mod 2 ^ d) * 2 ^ (16 - d) /\
      is_digit (at_ f' U x).
Proof.
  revert f. induction k as [|k IH]; intros f Hf Hu H5 Hd Dg.
  { exists f. split_and!; [done|by apply touches_refl|intros; lia]. }
  cbn [shift_back]. run_ld Hf. run_ld Hf.
  assert (is_digit (at_ f U (u + (m + Z.of_nat (S k))))) as H1 by (apply Dg; lia).
  assert (is_digit (at_ f U (u + (m + Z.of_nat (S k) - 1)))) as H2 by (apply Dg; lia).
  pose proof (digit_shr _ _ d H1 H2 Hd) as Ed.
  run_st Hf f1 E1 T1 V1. rewrite Ed in V1.
  destruct (IH f1) as (f2 & E2 & T2 & V2); try lia; [apply (touch_ok _ _ _ _ _ T1)| |].
  { eapply digits_touch; [exact T1| |lia|]; [|lia]. intros x Hx. apply Dg. lia. }
  exists f2. split_and!; [done| |].
  - eapply touches_trans; eapply touches_sub; [exact T1|lia|lia|exact T2|lia|lia].
  - intros x Hx. destruct (Z.eq_dec x (u + (m + Z.of_nat (S k)))) as [->|].
    + rewrite (touch_out _ _ _ _ _ T2), V1 by lia.
      replace (u + (m + Z.of_nat (S k)) - 1) with (u + (m + Z.of_nat (S k) - 1)) by lia.
      split; [done|]. rewrite <- Ed. apply digit_digit.
    + rewrite <- !(touch_out _ _ _ _ _ T1) by lia. apply V2. lia.
Qed.

Lemma normal_ok fuel t d :
  1 <= t < 65536 -> 65536 <= t * 2 ^ Z.of_nat fuel ->
  exists e, normal fuel t d = Ret (d + e) /\ 0 <= e /\ 32768 <= t * 2 ^ e < 65536.
Proof.
  revert t d. induction fuel as [|fuel IH]; intros t d Ht Hf; [cbn in Hf; lia|].
  cbn [normal]. change (B / 2) with 32768. destruct (Z.ltb_spec t 32768).
  - rewrite Z.shiftl_mul_pow2, w32_id by (unfold is_u32, two32; lia).
    rewrite Nat2Z.inj_succ, Z.pow_succ_r in Hf by lia.
    destruct (IH (t * 2 ^ 1) (d + 1)) as (e & E & He & Hb); [lia|lia|].
    exists (e + 1). rewrite E, Z.pow_add_r by lia. split_and!; [f_equal|..]; lia.
  - exists 0. rewrite Z.add_0_r. split_and!; [done|lia..].
Qed.

Lemma zero_q_ok k f :
  frame_ok f -> Z.of_nat k <= 5 ->
  exists f', zero_q k f = Ret (tt, f') /\ touches Q 0 (Z.of_nat k) f f' /\
    forall i, 0 <= i < Z.of_nat k -> at_ f' Q i = 0.
Proof.
  revert f. induction k as [|k IH]; intros f Hf Hk.
  { exists f. split_and!; [done|by apply touches_refl|intros; lia]. }
  cbn [zero_q]. run_st Hf f1 E1 T1 V1.
  destruct (IH f1) as (f2 & E2 & T2 & V2); [apply (touch_ok _ _ _ _ _ T1)|lia|].
  exists f2. split_and!; [done| |].
  - eapply touches_trans; eapply touches_sub; [exact T1|lia|lia|exact T2|lia|lia].
  - intros i Hi. destruct (Z.eq_dec i (Z.of_nat k)) as [->|]; [|apply V2; lia].
    rewrite (touch_out _ _ _ _ _ T2) by lia. done.
Qed.

(** The four digits of a [long long]. *)
Lemma break_up_ok f a x :
  frame_ok f -> is_u64 x ->
  exists f', break_up (a, 0) x f = Ret (tt, f') /\ touches a 1 5 f f' /\
    digits f' a 1 5 /\ seg (at_ f' a) 1 4 = x.
Proof.
  intros Hf Hx. unfold break_up. rewrite !digit_LHALF, !HHALF_eq. cbn [set_ll uiH uiL].
  run_st Hf f1 E1 T1 V1. pose proof (touch_ok _ _ _ _ _ T1) as Hf1.
  run_st Hf1 f2 E2 T2 V2. pose proof (touch_ok _ _ _ _ _ T2) as Hf2.
  run_st Hf2 f3 E3 T3 V3. pose proof (touch_ok _ _ _ _ _ T3) as Hf3.
  run_st Hf3 f4 E4 T4 V4. exists f4.
  change (0 + 1) with 1 in *. change (0 + 2) with 2 in *. change (0 + 3) with 3 in *.
  change (0 + 4) with 4 in *.
  assert (at_ f4 a 1 = at_ f1 a 1) as R1.
  { rewrite (touch_out _ _ _ _ _ T4), (touch_out _ _ _ _ _ T3), (touch_out _ _ _ _ _ T2) by lia. done. }
  assert (at_ f4 a 2 = at_ f2 a 2) as R2.
  { rewrite (touch_out _ _ _ _ _ T4), (touch_out _ _ _ _ _ T3) by lia. done. }
  assert (at_ f4 a 3 = at_ f3 a 3) as R3 by (rewrite (touch_out _ _ _ _ _ T4) by lia; done).
  split_and!; [exact E4| | |].
  - do 3 (eapply touches_trans; [|eapply touches_sub; [eassumption|lia|lia]]).
    eapply touches_sub; [exact T1|lia|lia].
  - intros i Hi. unfold is_digit.
    assert (i = 1 \/ i = 2 \/ i = 3 \/ i = 4) as [->|[->|[->| ->]]] by lia;
      rewrite ?R1, ?R2, ?R3, ?V1, ?V2, ?V3, ?V4; apply Z.mod_pos_bound; lia.
  - cbn [seg]. change (1 + 1) with 2. change (2 + 1) with 3. change (3 + 1) with 4.
    rewrite R1, R2, R3, V1, V2, V3, V4. unfold digit.
    change (65536 ^ Z.of_nat 3) with 281474976710656. change (65536 ^ Z.of_nat 2) with 4294967296.
    change (65536 ^ Z.of_nat 1) with 65536. change (65536 ^ Z.of_nat 0) with 1.
    dlia.
Qed.

(** ** The whole division *)

Lemma combine4 g :
  (forall i, 1 <= i < 5 -> is_digit (g i)) ->
  ull (mkuu (COMBINE (g 1) (g 2)) (COMBINE (g 3) (g 4))) = seg g 1 4.
Proof.
  intros H. unfold is_digit in H.
  pose proof (H 1 ltac:(lia)). pose proof (H 2 ltac:(lia)).
  pose proof (H 3 ltac:(lia)). pose proof (H 4 ltac:(lia)).
  rewrite !COMBINE_eq by done. unfold ull, two32. cbn [uiH uiL seg].
  change (1 + 1) with 2. change (2 + 1) with 3. change (3 + 1) with 4.
  change (65536 ^ Z.of_nat 3) with 281474976710656. change (65536 ^ Z.of_nat 2) with 4294967296.
  change (65536 ^ Z.of_nat 1) with 65536. change (65536 ^ Z.of_nat 0) with 1. lia.
Qed.

(** Leading zeros do not count. *)
Lemma seg_skip g i k n :
  0 <= k <= n -> (forall x, i <= x < i + k -> g x = 0) ->
  seg g i (Z.to_nat n) = seg g (i + k) (Z.to_nat (n - k)).
Proof.
  intros Hk Hz. replace (Z.to_nat n) with (Z.to_nat k + Z.to_nat (n - k))%nat by lia.
  rewrite seg_app, (seg_zero g i), !Z2Nat.id by (lia || (intros; apply Hz; lia)). lia.
Qed.

(** The frame when the operands have been taken apart. *)
Record operands (f : frame) (x y : Z) : Prop := {
  op_ok : frame_ok f;
  op_top : at_ f U 0 = 0;
  op_U : digits f U 0 5;
  op_V : digits f V 1 5;
  op_x : seg (at_ f U) 1 4 = x;
  op_y : seg (at_ f V) 1 4 = y
}.

Lemma operands_ok f x y :
  frame_ok f -> is_u64 x -> is_u64 y ->
  exists f', (do* st (U, 0) 0 0 in do* break_up (U, 0) x in break_up (V, 0) y) f = Ret (tt, f') /\
    operands f' x y.
Proof.
  intros Hf Hx Hy. run_st Hf f1 E1 T1 V1. change (0 + 0) with 0 in *.
  destruct (break_up_ok f1 U x (touch_ok _ _ _ _ _ T1) Hx) as (f2 & E2 & T2 & D2 & S2).
  rewrite (bind_ok _ _ _ _ _ E2).
  destruct (break_up_ok f2 V y (touch_ok _ _ _ _ _ T2) Hy) as (f3 & E3 & T3 & D3 & S3).
  exists f3. split; [exact E3|].
  assert (forall i, at_ f3 U i = at_ f2 U i) as HU by (intros; by apply (touch_arr _ _ _ _ _ T3)).
  assert (at_ f2 U 0 = 0) as H0 by (rewrite (touch_out _ _ _ _ _ T2) by lia; done).
  split; [apply (touch_ok _ _ _ _ _ T3)| | |done| |done].
  - by rewrite HU.
  - intros i Hi. rewrite HU. destruct (Z.eq_dec i 0) as [->|]; [by rewrite H0|apply D2; lia].
  - by rewrite (seg_ext _ (at_ f2 U)) by (intros; apply HU).
Qed.

(** Counting the digits of the divisor and of the dividend. *)
Lemma skip_v_ok f fuel n v :
  frame_ok f -> 2 <= n -> 0 <= v -> v + n = 4 -> n <= Z.of_nat fuel ->
  (exists k, skip_v fuel n v f = Ret (inl (n - k, v + k), f) /\ 0 <= k <= n - 2 /\
     at_ f V (v + k + 1) <> 0 /\ (forall i, v < i <= v + k -> at_ f V i = 0)) \/
  (skip_v fuel n v f = Ret (inr 2, f) /\ (forall i, v < i < 4 -> at_ f V i = 0)).
Proof.
  intros Hf. revert n v. induction fuel as [|fuel IH]; intros n v Hn Hv H4 Hfu; [lia|].
  cbn [skip_v]. run_ld Hf. destruct (Z.eqb_spec (at_ f V (v + 1)) 0) as [H0|H0].
  2: { left. exists 0. rewrite Z.sub_0_r, Z.add_0_r. split_and!; [done|lia..|done|intros; lia]. }
  destruct (Z.eqb_spec (n - 1) 1).
  { right. replace v with 2 in * by lia. split; [done|]. intros i Hi.
    by replace i with 3 by lia. }
  assert (forall i, v < i <= v + 1 -> at_ f V i = 0) as H1
    by (intros i Hi; by replace i with (v + 1) by lia).
  destruct (IH (n - 1) (v + 1)) as [(k & -> & Hk & Hnz & Hz)|[-> Hz]]; try lia.
  - left. exists (k + 1). replace (n - 1 - k) with (n - (k + 1)) by lia.
    replace (v + 1 + k) with (v + (k + 1)) in * by lia.
    split_and!; [done|lia|lia|done|]. intros i Hi.
    destruct (Z.ltb_spec (v + 1) i); [apply Hz; lia|apply H1; lia].
  - right. split; [done|]. intros i Hi.
    destruct (Z.ltb_spec (v + 1) i); [apply Hz; lia|apply H1; lia].
Qed.

Lemma skip_u_ok f fuel m u i :
  frame_ok f -> 0 <= u -> u < i < 5 -> at_ f U i <> 0 -> i - u <= Z.of_nat fuel ->
  exists k, skip_u fuel m u f = Ret ((m - k, u + k), f) /\ 0 <= k < i - u /\
     at_ f U (u + k + 1) <> 0 /\ (forall j, u < j <= u + k -> at_ f U j = 0).
Proof.
  intros Hf. revert m u. induction fuel as [|fuel IH]; intros m u Hu Hi Hnz Hfu; [lia|].
  cbn [skip_u]. run_ld Hf. destruct (Z.eqb_spec (at_ f U (u + 1)) 0) as [H0|H0].
  2: { exists 0. rewrite Z.sub_0_r, Z.add_0_r. split_and!; [done|lia..|done|intros; lia]. }
  assert (i <> u + 1) by congruence.
  destruct (IH (m - 1) (u + 1)) as (k & -> & Hk & Hnk & Hz); try lia.
  exists (k + 1). replace (m - 1 - k) with (m - (k + 1)) by lia.
  replace (u + 1 + k) with (u + (k + 1)) in * by lia.
  split_and!; [done|lia|lia|done|]. intros j Hj.
  destruct (Z.ltb_spec (u + 1) j); [apply Hz; lia|by replace j with (u + 1) by lia].
Qed.

(** A number that is not below another has at least as many digits. *)
Lemma digits_count f x y n :
  operands f x y -> 1 <= n <= 4 -> at_ f V (5 - n) <> 0 ->
  (forall i, 1 <= i < 5 - n -> at_ f V i = 0) -> y <= x ->
  exists i, 1 <= i <= 5 - n /\ at_ f U i <> 0.
Proof.
  intros [Hf _ Hu Hv Hx Hy] Hn Hnz Hz Hle.
  destruct (decide (Forall (fun i => at_ f U i = 0) (seqZ 1 (5 - n)))) as [Ha|Ha].
  - exfalso. rewrite Forall_forall in Ha. change 4%nat with (Z.to_nat 4) in Hx, Hy.
    assert (forall i, 1 <= i < 1 + (5 - n) -> at_ f U i = 0) as Hzu
      by (intros; apply Ha, elem_of_seqZ; lia).
    destruct (Z.eq_dec n 1) as [->|].
    { rewrite (seg_zero _ 1) in Hx by (intros; apply Hzu; lia).
      destruct (seg_digits f V 1 4 5) as [Hb _]; [lia|done|lia|].
      apply Hnz. eapply (seg_0_inv (at_ f V) 1 (Z.to_nat 4)); [|lia|lia]. intros; apply Hv; lia. }
    rewrite (seg_skip _ 1 (5 - n) 4) in Hx by (lia || done).
    rewrite (seg_skip _ 1 (4 - n) 4) in Hy by (lia || (intros; apply Hz; lia)).
    replace (1 + (4 - n)) with (5 - n) in Hy by lia. replace (4 - (4 - n)) with n in Hy by lia.
    destruct (seg_digits f U (1 + (5 - n)) (4 - (5 - n)) 5) as [_ Hb];
      [lia|intros i Hi; apply Hu; lia|lia|].
    assert (is_digit (at_ f V (5 - n))) as Hd by (apply Hv; lia). unfold is_digit in Hd.
    replace (Z.to_nat n) with (S (Z.to_nat (n - 1))) in Hy by lia. cbn [seg] in Hy.
    destruct (seg_digits f V (5 - n + 1) (n - 1) 5) as [Hb2 _];
      [lia|intros i Hi; apply Hv; lia|lia|].
    rewrite Z2Nat.id in Hy by lia. replace (4 - (5 - n)) with (n - 1) in * by lia. nia.
  - apply not_Forall_Exists, Exists_exists in Ha as (i & Hi & Hne); [|intros; apply _].
    apply elem_of_seqZ in Hi. exists i. split; [lia|done].
Qed.

(** One step of the division by a single digit. *)
Lemma short_step r d t : 0 <= r < t -> is_digit d -> t < 65536 ->
  exists q r', digit (COMBINE r d / t) = q /\ COMBINE r d mod t = r' /\
    r * 65536 + d = q * t + r' /\ 0 <= r' < t /\ is_digit q.
Proof.
  unfold is_digit. intros Hr Hd Ht. rewrite COMBINE_eq by lia.
  set (x := r * 65536 + d). pose proof (Z.div_mod x t ltac:(lia)).
  pose proof (Z.mod_pos_bound x t ltac:(lia)).
  assert (0 <= x / t < 65536)
    by (unfold x; split; [apply Z.div_pos; lia|apply Z.div_lt_upper_bound; nia]).
  exists (x / t), (x mod t). split_and!; try lia. by apply Z.mod_small.
Qed.

(** The divisor is one digit. *)
Lemma one_digit_ok f x y arq :
  operands f x y -> 0 < y -> (forall i, 1 <= i < 4 -> at_ f V i = 0) ->
  exists f', one_digit 2 arq f = Ret ((x / y, if arq then Some (x mod y) else None), f').
Proof.
  intros [Hf _ Hu Hv Hx Hy] Hy0 Hz.
  change 4%nat with (Z.to_nat 4) in Hy.
  rewrite (seg_skip _ 1 3 4) in Hy by (lia || (intros; apply Hz; lia)).
  change (Z.to_nat (4 - 3)) with 1%nat in Hy. cbn [seg] in Hy.
  change (1 + 3) with 4 in Hy. change (65536 ^ Z.of_nat 0) with 1 in Hy.
  rewrite Z.mul_1_r, Z.add_0_r in Hy.
  unfold one_digit. do 5 run_ld Hf. change (2 + 2) with 4. rewrite Hy.
  change (0 + 1) with 1. change (0 + 2) with 2. change (0 + 3) with 3. change (0 + 4) with 4.
  pose proof (Hv 4 ltac:(lia)) as Hd. rewrite Hy in Hd.
  pose proof (Hu 1 ltac:(lia)) as U1. pose proof (Hu 2 ltac:(lia)) as U2.
  pose proof (Hu 3 ltac:(lia)) as U3. pose proof (Hu 4 ltac:(lia)) as U4.
  unfold seg in Hx. change (1 + 1) with 2 in Hx. change (2 + 1) with 3 in Hx.
  change (3 + 1) with 4 in Hx. change (65536 ^ Z.of_nat 3) with 281474976710656 in Hx.
  change (65536 ^ Z.of_nat 2) with 4294967296 in Hx.
  change (65536 ^ Z.of_nat 1) with 65536 in Hx. change (65536 ^ Z.of_nat 0) with 1 in Hx.
  set (u1 := at_ f U 1) in *. set (u2 := at_ f U 2) in *. set (u3 := at_ f U 3) in *.
  set (u4 := at_ f U 4) in *. unfold is_digit in Hd, U1.
  pose proof (Z.div_mod u1 y ltac:(lia)) as E1. pose proof (Z.mod_pos_bound u1 y Hy0) as B1.
  assert (0 <= u1 / y < 65536) as Q1
    by (split; [apply Z.div_pos; lia|apply Z.div_lt_upper_bound; nia]).
  unfold digit at 1. rewrite (Z.mod_small (u1 / y)) by done.
  destruct (short_step _ u2 y B1 U2) as (q2 & r2 & -> & -> & E2 & B2 & Q2); [lia|].
  destruct (short_step _ u3 y B2 U3) as (q3 & r3 & -> & -> & E3 & B3 & Q3); [lia|].
  destruct (short_step _ u4 y B3 U4) as (q4 & r4 & -> & -> & E4 & B4 & Q4); [lia|].
  unfold is_digit in *. rewrite !COMBINE_eq by done. exists f. unfold ret, ull. cbn [uiH uiL].
  set (qv := _ * two32 + _).
  assert (x = y * qv + r4) as Ex by (unfold qv, two32; nia).
  rewrite <- (Z.div_unique x y qv r4), <- (Z.mod_unique x y qv r4) by lia. done.
Qed.

(** Program D after the leading zeros have been skipped: [m + n] digits of
    dividend at [u + 1], [n] digits of divisor at [5 - n]. *)
Record prepared (f : frame) (x y n m u : Z) : Prop := {
  pr_ok : frame_ok f;
  pr_n : 2 <= n;
  pr_m : 0 <= m;
  pr_u : 0 <= u;
  pr_sum : u + m + n = 4;
  pr_U : digits f U 0 5;
  pr_V : digits f V 1 5;
  pr_zU : forall i, 0 <= i <= u -> at_ f U i = 0;
  pr_zQ : forall i, 0 <= i < 4 - m -> at_ f Q i = 0;
  pr_top : at_ f V (5 - n) <> 0;
  pr_x : seg (at_ f U) u (Z.to_nat (m + n + 1)) = x;
  pr_y : seg (at_ f V) (5 - n) (Z.to_nat n) = y
}.

Lemma prepare_ok f x y n :
  operands f x y -> 2 <= n <= 4 -> at_ f V (5 - n) <> 0 ->
  (forall i, 1 <= i < 5 - n -> at_ f V i = 0) -> y <= x ->
  exists m u f', skip_u 5 (4 - n) 0 f = Ret ((m, u), f) /\
    zero_q (Z.to_nat (4 - m)) f = Ret (tt, f') /\ prepared f' x y n m u.
Proof.
  intros Ho Hn Hnz Hz Hle. destruct (digits_count f x y n) as (i & Hi & Hui); [done|lia|done..|].
  destruct Ho as [Hf H0 Hu Hv Hx Hy].
  destruct (skip_u_ok f 5 (4 - n) 0 i) as (k & Ek & Hk & Hnk & Hzk); [done|lia|lia|done|lia|].
  destruct (zero_q_ok (Z.to_nat (4 - (4 - n - k))) f Hf) as (f' & Eq & T & Hq); [lia|].
  rewrite Z2Nat.id in T, Hq by lia.
  exists (4 - n - k), (0 + k), f'. split_and!; [done..|].
  assert (forall j, at_ f' U j = at_ f U j) as HU by (intros; by apply (touch_arr _ _ _ _ _ T)).
  assert (forall j, at_ f' V j = at_ f V j) as HV by (intros; by apply (touch_arr _ _ _ _ _ T)).
  assert (forall j, 0 <= j <= k -> at_ f U j = 0) as Hz0.
  { intros j Hj. destruct (Z.eq_dec j 0) as [->|]; [done|apply Hzk; lia]. }
  change 4%nat with (Z.to_nat 4) in Hx, Hy. split; try lia.
  - apply (touch_ok _ _ _ _ _ T).
  - intros j Hj. rewrite HU. by apply Hu.
  - intros j Hj. rewrite HV. by apply Hv.
  - intros j Hj. rewrite HU. apply Hz0. lia.
  - intros j Hj. apply Hq. lia.
  - by rewrite HV.
  - rewrite (seg_ext _ (at_ f U)) by (intros; apply HU).
    replace (Z.to_nat (4 - n - k + n + 1)) with (S (Z.to_nat (4 - k))) by lia.
    cbn [seg]. rewrite Z.add_0_l, Hz0, <- Hx, (seg_skip _ 1 k 4) by (lia || (intros; apply Hz0; lia)).
    rewrite (Z.add_comm 1 k). lia.
  - rewrite (seg_ext _ (at_ f V)) by (intros; apply HV).
    rewrite <- Hy, (seg_skip (at_ f V) 1 (4 - n) 4) by (lia || (intros; apply Hz; lia)).
    repeat f_equal; lia.
Qed.

Lemma lead_ge g i n :
  1 <= n -> (forall x, i <= x < i + n -> is_digit (g x)) ->
  32768 * 65536 ^ (n - 1) <= seg g i (Z.to_nat n) -> 32768 <= g i.
Proof.
  intros Hn Hd Hs. replace (Z.to_nat n) with (S (Z.to_nat (n - 1))) in Hs by lia.
  cbn [seg] in Hs. rewrite Z2Nat.id in Hs by lia.
  assert (seg g (i + 1) (Z.to_nat (n - 1)) < 65536 ^ Z.of_nat (Z.to_nat (n - 1))) as Hb
    by (apply seg_bound; intros; apply Hd; lia).
  rewrite Z2Nat.id in Hb by lia. nia.
Qed.

(** D1: both operands shifted by [d] bits. *)
Lemma shift_ok f x y n m u d :
  prepared f x y n m u -> 0 <= d <= 15 -> 32768 <= at_ f V (5 - n) * 2 ^ d < 65536 ->
  exists f', (if 0 <? d then do* shl (U, u) (m + n) d in shl (V, 4 - n + 1) (n - 1) d
              else ret tt) f = Ret (tt, f') /\
    frame_ok f' /\ digits f' U u 5 /\ digits f' V (5 - n) 5 /\ 32768 <= at_ f' V (5 - n) /\
    (forall i, 0 <= i < u -> at_ f' U i = 0) /\ (forall i, 0 <= i < 4 - m -> at_ f' Q i = 0) /\
    seg (at_ f' U) u (Z.to_nat (m + n + 1)) = x * 2 ^ d /\
    seg (at_ f' V) (5 - n) (Z.to_nat n) = y * 2 ^ d.
Proof.
  intros [Hf Hn Hm Hu Hs DU DV ZU ZQ Ht Hx Hy] Hd Hnorm. destruct (Z.ltb_spec 0 d).
  2: { replace d with 0 in * by lia. rewrite !Z.mul_1_r in *. exists f.
       split_and!; try done; [intros i Hi; apply DU; lia|intros i Hi; apply DV; lia|lia|].
       intros; apply ZU; lia. }
  destruct (shl_ok f U u (m + n) d) as (f1 & E1 & T1 & D1 & S1); try lia; try done.
  { intros i Hi. apply DU. lia. }
  { rewrite ZU; lia. }
  rewrite (bind_ok _ _ _ _ _ E1).
  assert (forall i, at_ f1 V i = at_ f V i) as HV by (intros; by apply (touch_arr _ _ _ _ _ T1)).
  replace (4 - n + 1) with (5 - n) by lia.
  destruct (shl_ok f1 V (5 - n) (n - 1) d) as (f2 & E2 & T2 & D2 & S2); try lia.
  { apply (touch_ok _ _ _ _ _ T1). }
  { intros i Hi. rewrite HV. apply DV. lia. }
  { rewrite HV. lia. }
  assert (forall i, at_ f2 U i = at_ f1 U i) as HU by (intros; by apply (touch_arr _ _ _ _ _ T2)).
  exists f2. split_and!; [exact E2|apply (touch_ok _ _ _ _ _ T2)| | | | | | |].
  - intros i Hi. rewrite HU. apply D1. lia.
  - intros i Hi. apply D2. lia.
  - apply (lead_ge _ _ n); [lia|intros; apply D2; lia|].
    replace (Z.to_nat (n - 1 + 1)) with (Z.to_nat n) in S2 by lia. rewrite S2.
    replace (Z.to_nat n) with (S (Z.to_nat (n - 1))) by lia. cbn [seg].
    rewrite HV, Z2Nat.id by lia.
    assert (0 <= seg (at_ f1 V) (5 - n + 1) (Z.to_nat (n - 1)))
      by (apply seg_bound; intros; rewrite HV; apply DV; lia).
    assert (0 < 65536 ^ (n - 1)) by (apply Z.pow_pos_nonneg; lia).
    assert (0 < 2 ^ d) by (apply Z.pow_pos_nonneg; lia). nia.
  - intros i Hi. rewrite HU, (touch_out _ _ _ _ _ T1) by lia. apply ZU. lia.
  - intros i Hi. rewrite (touch_arr _ _ _ _ _ T2), (touch_arr _ _ _ _ _ T1) by done. by apply ZQ.
  - rewrite (seg_ext _ (at_ f1 U)) by (intros; apply HU). by rewrite S1, Hx.
  - replace (Z.to_nat (n - 1 + 1)) with (Z.to_nat n) in S2 by lia.
    rewrite S2, (seg_ext _ (at_ f V)) by (intros; apply HV). by rewrite Hy.
Qed.

(** A segment that is a multiple of [2^d] ends in a digit that is one. *)
Lemma last_mod g i k d r :
  0 <= d <= 16 -> seg g i (S k) = r * 2 ^ d -> g (i + Z.of_nat k) mod 2 ^ d = 0.
Proof.
  intros Hd Hs. rewrite seg_snoc in Hs.
  assert (2 ^ d * 2 ^ (16 - d) = 65536) as Hp.
  { rewrite <- Z.pow_add_r by lia. by replace (d + (16 - d)) with 16 by lia. }
  assert (0 < 2 ^ d) by (apply Z.pow_pos_nonneg; lia).
  replace (g (i + Z.of_nat k)) with ((r - seg g i k * 2 ^ (16 - d)) * 2 ^ d).
  - apply Z_mod_mult.
  - rewrite Z.mul_sub_distr_r, <- Hs. rewrite <- Z.mul_assoc, (Z.mul_comm (2 ^ (16 - d))), Hp. lia.
Qed.

Section unshift.
Context (f : frame) (n m u d r : Z).
Context (Hf : frame_ok f) (Hn : 2 <= n) (Hm : 0 <= m) (Hu : 0 <= u) (Hs : u + m + n = 4).
Context (Hd : 0 <= d <= 15).
Context (Dg : digits f U (u + m) 5) (Hz : forall i, 0 <= i <= u + m -> at_ f U i = 0).
Context (Hr : seg (at_ f U) (u + m + 1) (Z.to_nat n) = r * 2 ^ d).

(** The digits of [r] in [u[1..4]]. *)
Lemma unshift_val f1 :
  (forall i, 0 <= i <= u + m -> at_ f1 U i = 0) ->
  seg (at_ f1 U) (u + m + 1) (Z.to_nat n) = r -> seg (at_ f1 U) 1 4 = r.
Proof.
  intros Hz1 Hs1. change 4%nat with (Z.to_nat 4).
  rewrite (seg_skip _ 1 (u + m) 4) by (lia || (intros; apply Hz1; lia)).
  replace (4 - (u + m)) with n by lia. by replace (1 + (u + m)) with (u + m + 1) by lia.
Qed.

Lemma unshift_ok :
  exists f1, (if d =? 0 then ret tt else
         do* shift_back (Z.to_nat n) u m d in st (U, u) m 0) f = Ret (tt, f1) /\
     frame_ok f1 /\ (forall i, 1 <= i < 5 -> is_digit (at_ f1 U i)) /\
     (forall i, at_ f1 Q i = at_ f Q i) /\ seg (at_ f1 U) 1 4 = r.
Proof.
  destruct (Z.eqb_spec d 0) as [E|E].
  { rewrite E, Z.mul_1_r in Hr. exists f. split_and!; [done..| |done|by apply unshift_val].
    intros i Hi. destruct (Z.leb_spec i (u + m)); [rewrite Hz by lia; by unfold is_digit|].
    apply Dg. lia. }
  destruct (shift_back_ok (Z.to_nat n) f u m d) as (f1 & E1 & T1 & V1);
    rewrite ?Z2Nat.id by lia; try lia; [done|intros i Hi; apply Dg; lia|].
  rewrite Z2Nat.id in T1, V1 by lia.
  rewrite (bind_ok _ _ _ _ _ E1). pose proof (touch_ok _ _ _ _ _ T1) as Hf1.
  run_st Hf1 f2 E2 T2 V2. exists f2.
  assert (forall i, u + m < i <= u + m + n -> at_ f2 U i = at_ f1 U i) as H2
    by (intros; apply (touch_out _ _ _ _ _ T2); lia).
  assert (forall i, 0 <= i <= u + m -> at_ f2 U i = 0) as Hz2.
  { intros i Hi. destruct (Z.eq_dec i (u + m)) as [->|]; [done|].
    rewrite (touch_out _ _ _ _ _ T2), (touch_out _ _ _ _ _ T1) by lia. by apply Hz. }
  split_and!; [exact E2|apply (touch_ok _ _ _ _ _ T2)| | |].
  - intros i Hi. destruct (Z.leb_spec i (u + m)); [rewrite Hz2 by lia; by unfold is_digit|].
    rewrite H2 by lia. apply V1. lia.
  - intros i. by rewrite (touch_arr _ _ _ _ _ T2), (touch_arr _ _ _ _ _ T1).
  - apply unshift_val; [done|]. rewrite (seg_ext _ (at_ f1 U)) by (intros; apply H2; lia).
    pose proof (seg_shr (at_ f U) (at_ f1 U) d (u + m) (Z.to_nat n)) as Hsh.
    rewrite Z2Nat.id, Hr, Hz in Hsh by lia.
    pose proof Hr as Hl. replace (Z.to_nat n) with (S (Z.to_nat (n - 1))) in Hl by lia.
    apply last_mod in Hl; [|lia].
    replace (u + m + 1 + Z.of_nat (Z.to_nat (n - 1))) with (u + m + n) in Hl by lia.
    rewrite Hl, Zmod_0_l in Hsh. assert (0 < 2 ^ d) by (apply Z.pow_pos_nonneg; lia).
    assert (2 ^ d * seg (at_ f1 U) (u + m + 1) (Z.to_nat n) = r * 2 ^ d + 0 * 65536 ^ n - 0)
      by (apply Hsh; [lia|intros; apply V1; lia]). nia.
Qed.

Lemma remainder_ok :
  exists f', remainder n m u d f = Ret (r, f') /\ frame_ok f' /\
             forall i, at_ f' Q i = at_ f Q i.
Proof.
  destruct unshift_ok as (f1 & E1 & Hf1 & D1 & Q1 & S1). unfold remainder.
  rewrite (bind_ok _ _ _ _ _ E1). do 4 run_ld Hf1. exists f1.
  change (0 + 1) with 1. change (0 + 2) with 2. change (0 + 3) with 3. change (0 + 4) with 4.
  rewrite combine4, S1 by done. done.
Qed.

End unshift.

(** The start of the loop. *)
Lemma quo_start f n m u x d :
  frame_ok f -> 2 <= n -> 0 <= m -> 0 <= u -> u + m + n = 4 -> 0 <= d <= 15 ->
  digits f U u 5 -> digits f V (5 - n) 5 -> 32768 <= at_ f V (5 - n) ->
  seg (at_ f U) u (Z.to_nat (m + n + 1)) = x * 2 ^ d -> x < 65536 ^ (m + n) ->
  divisor f n (4 - n) /\ quo_inv f n m u (4 - n) (4 - m) (x * 2 ^ d) 0 f.
Proof.
  intros Hf Hn Hm Hu Hs Hd DU DV Ht Hx Hlt.
  assert (divisor f n (4 - n)) as Hdv.
  { replace (5 - n) with (4 - n + 1) in DV, Ht by lia.
    split; try lia. intros i Hi. apply DV. lia. }
  split; [done|]. split; try done; try (intros; lia).
  - intros i Hi. apply DU. lia.
  - intros i Hi. lia.
  - rewrite Z.add_0_r. unfold dval. replace (4 - n + 1) with (5 - n) by lia.
    replace (Z.to_nat (m + n + 1)) with (Z.to_nat n + Z.to_nat (m + 1))%nat in Hx by lia.
    rewrite seg_app, !Z2Nat.id in Hx by lia.
    assert (0 <= seg (at_ f U) (u + n) (Z.to_nat (m + 1))) by (apply seg_bound; intros; apply DU; lia).
    replace (m + n) with ((m + 1) + (n - 1)) in Hlt by lia. rewrite Z.pow_add_r in Hlt by lia.
    assert (seg (at_ f V) (5 - n) (Z.to_nat n) = at_ f V (5 - n) * 65536 ^ (n - 1)
              + seg (at_ f V) (5 - n + 1) (Z.to_nat (n - 1))) as ->.
    { replace (Z.to_nat n) with (S (Z.to_nat (n - 1))) by lia. cbn [seg].
      by rewrite Z2Nat.id by lia. }
    assert (0 <= seg (at_ f V) (5 - n + 1) (Z.to_nat (n - 1)))
      by (apply seg_bound; intros; apply DV; lia).
    assert (2 ^ d <= 2 ^ 15) by (apply Z.pow_le_mono_r; lia). change (2 ^ 15) with 32768 in *.
    assert (0 < 2 ^ d) by (apply Z.pow_pos_nonneg; lia).
    assert (0 < 65536 ^ (m + 1)) by (apply Z.pow_pos_nonneg; lia).
    assert (0 < 65536 ^ (n - 1)) by (apply Z.pow_pos_nonneg; lia).
    set (A := seg (at_ f U) u (Z.to_nat n)) in *. set (P := 65536 ^ (m + 1)) in *.
    set (R := 65536 ^ (n - 1)) in *.
    assert (A * P < P * R * 2 ^ d) by nia. assert (A < R * 2 ^ d) by nia. nia.
  - rewrite <- Hx, Z.add_0_r, !Z.sub_0_r. done.
Qed.

(** The digits of quotient and remainder put together after the loop. *)
Lemma finish_ok f2 f3 x y n m u d arq :
  divisor f2 n (4 - n) -> 0 <= m -> 0 <= u -> u + m + n = 4 -> 0 <= d <= 15 -> 0 < y ->
  (forall i, 0 <= i < u -> at_ f2 U i = 0) -> (forall i, 0 <= i < 4 - m -> at_ f2 Q i = 0) ->
  seg (at_ f2 V) (5 - n) (Z.to_nat n) = y * 2 ^ d ->
  quo_inv f2 n m u (4 - n) (4 - m) (x * 2 ^ d) (m + 1) f3 ->
  exists f',
    (let* rem := if arq : bool then let* r := remainder n m u d in ret (Some r) else ret None in
     let* q1 := ld (Q, 0) 1 in
     let* q2 := ld (Q, 0) 2 in
     let* q3 := ld (Q, 0) 3 in
     let* q4 := ld (Q, 0) 4 in
     ret (ull (mkuu (COMBINE q1 q2) (COMBINE q3 q4)), rem)) f3
    = Ret ((x / y, if arq then Some (x mod y) else None), f').
Proof.
  intros Hdv Hm Hu Hs Hd Hy ZU ZQ Sy HI. pose proof (dv_n _ _ _ Hdv) as Hn.
  destruct (quo_done f2 n m u (4 - n) (4 - m) Hdv _ _ HI) as [Hq Hr].
  unfold dval in Hq, Hr. replace (4 - n + 1) with (5 - n) in Hq, Hr by lia. rewrite Sy in Hq, Hr.
  assert (0 < 2 ^ d) by (apply Z.pow_pos_nonneg; lia).
  rewrite Z.div_mul_cancel_r in Hq by lia. rewrite Z.mul_mod_distr_r in Hr by lia.
  destruct HI as [Hf3 I2 I3 I4 I5 I6 I7 _ _].
  assert (exists f4, (if arq then let* r := remainder n m u d in ret (Some r) else ret None) f3
    = Ret (if arq then Some (x mod y) else None, f4) /\ frame_ok f4 /\
      forall i, at_ f4 Q i = at_ f3 Q i) as (f4 & E4 & Hf4 & HQ).
  { destruct arq; [|by exists f3].
    destruct (remainder_ok f3 n m u d (x mod y)) as (f4 & E4 & Hf4 & HQ); try done.
    - intros i Hi. destruct (Z.eq_dec i (u + m)) as [->|]; [rewrite I6 by lia; by unfold is_digit|].
      apply I5. lia.
    - intros i Hi. destruct (Z.ltb_spec i u); [rewrite I3 by lia; apply ZU|apply I6]; lia.
    - exists f4. by rewrite (bind_ok _ _ _ _ _ E4). }
  rewrite (bind_ok _ _ _ _ _ E4). do 4 run_ld Hf4. exists f4.
  change (0 + 1) with 1. change (0 + 2) with 2. change (0 + 3) with 3. change (0 + 4) with 4.
  assert (forall i, 0 <= i < 4 - m -> at_ f4 Q i = 0) as ZQ4
    by (intros; rewrite HQ, I4 by lia; by apply ZQ).
  rewrite combine4.
  - change 4%nat with (Z.to_nat 4).
    rewrite (seg_skip _ 1 (3 - m) 4) by (lia || (intros; apply ZQ4; lia)).
    rewrite (seg_ext _ (at_ f3 Q)) by (intros; apply HQ).
    replace (1 + (3 - m)) with (4 - m) by lia. replace (4 - (3 - m)) with (m + 1) by lia.
    by rewrite Hq.
  - intros i Hi. destruct (Z.ltb_spec i (4 - m)); [rewrite ZQ4 by lia; by unfold is_digit|].
    rewrite HQ. apply I7. lia.
Qed.

(** Program D. *)
Lemma program_D_ok f x y n arq :
  operands f x y -> 2 <= n <= 4 -> at_ f V (5 - n) <> 0 ->
  (forall i, 1 <= i < 5 - n -> at_ f V i = 0) -> 0 < y <= x ->
  exists f', program_D n (4 - n) arq f
    = Ret ((x / y, if arq then Some (x mod y) else None), f').
Proof.
  intros Ho Hn Hnz Hz Hle. unfold program_D.
  destruct (prepare_ok f x y n Ho Hn Hnz Hz) as (m & u & f1 & E1 & E2 & Hp); [lia|].
  rewrite (bind_ok _ _ _ _ _ E1). cbv beta iota. rewrite (bind_ok _ _ _ _ _ E2).
  pose proof Hp as [Hf1 _ Hm Hu Hs DU DV ZU ZQ Ht Hx Hy].
  run_ld Hf1.
  replace (at_ f1 V (4 - n + 1)) with (at_ f1 V (5 - n)) by (f_equal; lia).
  assert (is_digit (at_ f1 V (5 - n))) as Hd1 by (apply DV; lia). unfold is_digit in Hd1.
  destruct (normal_ok 17 (at_ f1 V (5 - n)) 0) as (d & -> & Hd & Hnd); [lia|change (2 ^ Z.of_nat 17) with 131072; lia|].
  rewrite Z.add_0_l. mrun.
  assert (d <= 15) as Hd15.
  { destruct (Z.leb_spec d 15); [done|].
    assert (2 ^ 16 <= 2 ^ d) by (apply Z.pow_le_mono_r; lia). change (2 ^ 16) with 65536 in *. nia. }
  destruct (shift_ok f1 x y n m u d Hp) as
    (f2 & E3 & Hf2 & DU2 & DV2 & Ht2 & ZU2 & ZQ2 & Sx & Sy); [lia|done|].
  rewrite (bind_ok _ _ _ _ _ E3). run_ld Hf2. run_ld Hf2.
  destruct (quo_start f2 n m u x d) as [Hdv Hq0]; try lia; try done.
  { rewrite <- Hx. replace (Z.to_nat (m + n + 1)) with (S (Z.to_nat (m + n))) by lia. cbn [seg].
    rewrite ZU, Z.mul_0_l, Z.add_0_l by lia. eapply (seg_digits f1 U (u + 1) (m + n) 5); [lia| |lia].
    intros i Hi. apply DU. lia. }
  destruct (quo_loop f2 n m u (4 - n) (4 - m) Hdv Hm Hu ltac:(lia) ltac:(lia) ltac:(lia) _ _ Hq0)
    as (f3 & E4 & HI).
  rewrite (bind_ok _ _ _ _ _ E4). eapply finish_ok; try done; lia.
Qed.

Lemma qdivrem_ok f x y arq :
  frame_ok f -> is_u64 x -> is_u64 y -> y <> 0 ->
  call_qdivrem f x y arq = Ret (x / y, if arq then Some (x mod y) else None).
Proof.
  intros Hf Hx Hy Hy0. unfold call_qdivrem, __qdivrem. unfold is_u64 in *.
  destruct (Z.eqb_spec y 0); [done|]. destruct (Z.ltb_spec x y).
  { cbn. by rewrite Z.div_small, Z.mod_small by lia. }
  destruct (operands_ok f x y Hf) as (f1 & E1 & Ho); [done..|].
  minv. rewrite (bind_ok _ _ _ _ _ Hm), (bind_ok _ _ _ _ _ Hm0), (bind_ok _ _ _ _ _ E1).
  pose proof (op_ok _ _ _ Ho) as Hf1.
  destruct (skip_v_ok f1 4 4 0 Hf1) as [(k & E2 & Hk & Hnz & Hz)|[E2 Hz]]; try lia;
    rewrite (bind_ok _ _ _ _ _ E2).
  - replace (0 + k) with (4 - (4 - k)) by lia.
    destruct (program_D_ok f1 x y (4 - k) arq) as (f2 & E3); [done|lia| | |lia|].
    + by replace (5 - (4 - k)) with (0 + k + 1) by lia.
    + intros i Hi. apply Hz. lia.
    + by rewrite E3.
  - destruct (one_digit_ok f1 x y arq) as (f2 & E3); [done|lia| |by rewrite E3].
    intros i Hi. apply Hz. lia.
Qed.

(** ** The theorems *)

(** C37. The addition, subtraction, negation, bitwise, comparison, shift and
    multiplication routines compute the two's complement operations on 64-bit
    integers: for all operands, and for all shift counts below 64. *)
Theorem longlong_ops_correct a b n :
  is_s64 a -> is_s64 b -> 0 <= n < 64 ->
  __adddi3 a b = s64 (a + b) /\
  __subdi3 a b = s64 (a - b) /\
  __negdi2 a = s64 (- a) /\
  __one_cmpldi2 a = s64 (Z.lnot a) /\
  __anddi3 a b = s64 (Z.land a b) /\
  __iordi3 a b = s64 (Z.lor a b) /\
  __xordi3 a b = s64 (Z.lxor a b) /\
  __cmpdi2 a b = cmp_code (a ?= b) /\
  __ucmpdi2 (w64 a) (w64 b) = cmp_code (w64 a ?= w64 b) /\
  __ashldi3 a n = Ret (s64 (a * 2 ^ n)) /\
  __lshldi3 a n = Ret (s64 (a * 2 ^ n)) /\
  __ashrdi3 a n = Ret (a / 2 ^ n) /\
  __lshrdi3 a n = Ret (s64 (w64 a / 2 ^ n)) /\
  __muldi3 a b = s64 (a * b).
Proof.
  intros Ha Hb Hn.
  rewrite <- Z.shiftl_mul_pow2, <- !Z.shiftr_div_pow2 by lia.
  split_and!; auto using adddi3_ok, subdi3_ok, negdi2_ok, one_cmpldi2_ok, cmpdi2_ok,
    ucmpdi2_ok, w64_range, ashldi3_ok, lshldi3_ok, ashrdi3_ok, lshrdi3_ok, muldi3_ok.
  - exact (bitwise_ok Z.land andb Z.land_spec eq_refl a b).
  - exact (bitwise_ok Z.lor orb Z.lor_spec eq_refl a b).
  - exact (bitwise_ok Z.lxor xorb Z.lxor_spec eq_refl a b).
Qed.

Lemma longlong_ops_correct_witness :
  is_s64 (-9223372036854775808) /\
  __muldi3 (-9223372036854775808) 12345678912345 = s64 (-9223372036854775808 * 12345678912345).
Proof.
  split; [unfold is_s64; lia|].
  apply (longlong_ops_correct (-9223372036854775808) 12345678912345 33);
    unfold is_s64; lia.
Defined.

(** The operand of a signed division, as [__divdi3] and [__moddi3] take it. *)
Lemma abs_operand a : is_s64 a ->
  (if a <? 0 then w64 (- w64 a) else w64 a) = Z.abs a /\ is_u64 (Z.abs a).
Proof. intros Ha. destruct (Z.ltb_spec a 0); split; dlia. Qed.

(** Quotient and remainder of magnitudes, with the signs. *)
Lemma quot_signs a b : b <> 0 ->
  Z.quot a b = if xorb (a <? 0) (b <? 0) then - (Z.abs a / Z.abs b) else Z.abs a / Z.abs b.
Proof.
  intros Hb. rewrite <- Z.quot_div_nonneg by lia.
  destruct (Z.ltb_spec a 0), (Z.ltb_spec b 0); cbn [xorb];
    rewrite ?(Z.abs_neq a), ?(Z.abs_neq b), ?(Z.abs_eq a), ?(Z.abs_eq b) by lia;
    rewrite ?Z.quot_opp_opp, ?Z.quot_opp_l, ?Z.quot_opp_r by lia; lia.
Qed.

Lemma rem_signs a b : b <> 0 ->
  Z.rem a b = if a <? 0 then - (Z.abs a mod Z.abs b) else Z.abs a mod Z.abs b.
Proof.
  intros Hb. rewrite <- Z.rem_mod_nonneg, Z.rem_abs_r by lia.
  destruct (Z.ltb_spec a 0); [rewrite Z.abs_neq, Z.rem_opp_l by lia; lia|].
  by rewrite Z.abs_eq by lia.
Qed.

Lemma divdi3_ok f a b : frame_ok f -> is_s64 a -> is_s64 b -> b <> 0 ->
  __divdi3 f a b = Ret (s64 (Z.quot a b)).
Proof.
  intros Hf Ha Hb Hb0. unfold __divdi3. rewrite quot_signs by done.
  destruct (abs_operand a Ha) as [Ea Ra], (abs_operand b Hb) as [Eb Rb].
  pose proof (qdivrem_ok f (Z.abs a) (Z.abs b) false Hf Ra Rb ltac:(lia)) as E.
  destruct (a <? 0), (b <? 0); rewrite Ea, Eb, E; cbn [mbind outcome_bind negb fst xorb];
    by rewrite ?s64_w64.
Qed.

Lemma moddi3_ok f a b : frame_ok f -> is_s64 a -> is_s64 b -> b <> 0 ->
  __moddi3 f a b = Ret (Z.rem a b).
Proof.
  intros Hf Ha Hb Hb0. unfold __moddi3.
  destruct (abs_operand a Ha) as [Ea Ra], (abs_operand b Hb) as [Eb Rb]. rewrite Eb.
  pose proof (qdivrem_ok f (Z.abs a) (Z.abs b) true Hf Ra Rb ltac:(lia)) as E.
  rewrite <- (s64_id (Z.rem a b)).
  - rewrite rem_signs by done.
    destruct (a <? 0); rewrite Ea, E; cbn [mbind outcome_bind negb fst snd rem_of];
      by rewrite ?s64_w64.
  - pose proof (Z.rem_bound_abs a b Hb0). unfold is_s64 in *.
    pose proof (Z.rem_sign_nz a b). lia.
Qed.

(** C36. Long division terminates and is right: for every dividend and every
    divisor other than zero, and whatever its local arrays hold at the start,
    [__qdivrem] stays within its arrays and its loops and returns the quotient
    and, if it is asked for, the remainder; the signed routines truncate toward
    zero.  A zero divisor is a fault. *)
Theorem division_correct f a b arq :
  (forall x, length (space f x) = 5%nat) -> is_s64 a -> is_s64 b -> b <> 0 ->
  call_qdivrem f (w64 a) (w64 b) arq
    = Ret (w64 a / w64 b, if arq then Some (w64 a mod w64 b) else None) /\
  __udivdi3 f (w64 a) (w64 b) = Ret (w64 a / w64 b) /\
  __umoddi3 f (w64 a) (w64 b) = Ret (w64 a mod w64 b) /\
  __divdi3 f a b = Ret (s64 (Z.quot a b)) /\
  __moddi3 f a b = Ret (Z.rem a b) /\
  call_qdivrem f (w64 a) 0 arq = Fault.
Proof.
  intros Hf Ha Hb Hb0. assert (w64 b <> 0) by dlia.
  pose proof (qdivrem_ok f (w64 a) (w64 b)) as E.
  split_and!; auto using w64_range, divdi3_ok, moddi3_ok; unfold __udivdi3, __umoddi3;
    by rewrite E by (apply Hf || apply w64_range || done).
Qed.

Lemma division_correct_witness :
  let f := mkframe [1; 2; 3; 4; 5] [6; 7; 8; 9; 10] [65535; 0; 0; 0; 1] in
  (forall x, length (space f x) = 5%nat) /\
  __divdi3 f (-9223372036854775808) 140737488355329 = Ret (-65535).
Proof.
  split; [by intros []|].
  change (-65535) with (s64 (Z.quot (-9223372036854775808) 140737488355329)).
  apply division_correct; [exact false|by intros []|unfold is_s64; lia..].
Defined.
