(* ===== verification/Uio.v ===== *)
(** * Moving data between the kernel and its clients

    kern/vm/copyinout.c copies blocks and strings from and to user memory and
    turns every bad address into [EFAULT]; kern/lib/uio.c moves a kernel buffer
    through the list of regions of a [struct uio].  [uiomove] is shown to equal
    a reference that moves one byte at a time, so that moving data in pieces
    is the same as moving it at once. *)

From stdpp Require Import base numbers list gmap.
From Stdlib Require Import ZArith Lia.
From S2P Require Import Prelude Coremap.

(** ** User memory

    The bytes of the current address space that can be accessed; an access to
    any other address is a fault, which ends a copy with [EFAULT].  (The copy
    is a forward [memcpy] under [tm_badfaultfunc]; the bytes before the fault
    have been copied.) *)
Notation umem := (gmap Z Z).

Definition USERSPACETOP : Z := MIPS_KSEG0.

Definition copycheck (userptr len : Z) : Z * Z :=
  let bot := userptr in
  let top := w32 (bot + len - 1) in
  if top <? bot then (EFAULT, len)
  else if USERSPACETOP <=? bot then (EFAULT, len)
  else if USERSPACETOP <=? top then (0, USERSPACETOP - bot)
  else (0, len).

(** The bytes that a forward copy reads before it faults or ends. *)
Fixpoint read_run (um : umem) (a : Z) (n : nat) : list Z :=
  match n with
  | O => []
  | S n => match um !! a with
           | Some b => b :: read_run um (a + 1) n
           | None => []
           end
  end.

(** A forward copy into user memory: what it has written, and whether it
    reached its end. *)
Fixpoint write_run (um : umem) (a : Z) (l : list Z) : umem * bool :=
  match l with
  | [] => (um, true)
  | b :: l => match um !! a with
              | Some _ => write_run (<[a := b]> um) (a + 1) l
              | None => (um, false)
              end
  end.

(** [copyin]: the result and the bytes that are stored from [dest] on. *)
Definition copyin (um : umem) (usersrc len : Z) : Z * list Z :=
  let (result, stoplen) := copycheck usersrc len in
  if negb (result =? 0) then (result, [])
  else if negb (stoplen =? len) then (EFAULT, [])
  else
    let l := read_run um usersrc (Z.to_nat len) in
    if zlength l =? len then (0, l) else (EFAULT, l).

(** [copyout] of the bytes [src]. *)
Definition copyout (um : umem) (src : list Z) (userdest len : Z) : Z * umem :=
  let (result, stoplen) := copycheck userdest len in
  if negb (result =? 0) then (result, um)
  else if negb (stoplen =? len) then (EFAULT, um)
  else
    let (um', all) := write_run um userdest (take (Z.to_nat len) src) in
    if all then (0, um') else (EFAULT, um').

(** [copystr]: the loop [for (i = 0; i < maxlen && i < stoplen; i++)] with the
    two accesses of its body; a source or a destination that cannot be accessed
    is a fault.  The source is a function from the index to the byte; the bytes
    stored so far are the state. *)
Inductive copied :=
  | Got (len : Z)    (* the terminator was copied; length with it *)
  | Full             (* the loop ended *)
  | Faulted.         (* an access faulted *)

Fixpoint copystr_loop (fuel : nat) (i : Z) (src : Z -> option Z) (can : Z -> bool)
    (dest : list Z) : copied * list Z :=
  match fuel with
  | O => (Full, dest)
  | S fuel =>
      match src i with
      | None => (Faulted, dest)
      | Some b =>
          if can i then
            let dest := dest ++ [b] in
            if b =? 0 then (Got (i + 1), dest)
            else copystr_loop fuel (i + 1) src can dest
          else (Faulted, dest)
      end
  end.

(** The result of [copystr] and [*gotlen]. *)
Definition copystr (src : Z -> option Z) (can : Z -> bool) (maxlen stoplen : Z)
  : Z * option Z * list Z :=
  let (r, dest) := copystr_loop (Z.to_nat (Z.min maxlen stoplen)) 0 src can [] in
  match r with
  | Got n => (0, Some n, dest)
  | Faulted => (EFAULT, None, dest)
  | Full => if stoplen <? maxlen then (EFAULT, None, dest) else (ENAMETOOLONG, None, dest)
  end.

Definition copyinstr (um : umem) (usersrc len : Z) : Z * option Z * list Z :=
  let (result, stoplen) := copycheck usersrc len in
  if negb (result =? 0) then (result, None, [])
  else copystr (fun i => um !! (usersrc + i)) (fun _ => true) len stoplen.

(** [src] is a string of the kernel, known up to the length it has. *)
Definition copyoutstr (um : umem) (src : list Z) (userdest len : Z) : Z * option Z * umem :=
  let (result, stoplen) := copycheck userdest len in
  if negb (result =? 0) then (result, None, um)
  else
    let '(r, n, l) := copystr (fun i => src !! Z.to_nat i)
                        (fun i => bool_decide (is_Some (um !! (userdest + i)))) len stoplen in
    (r, n, (write_run um userdest l).1).

(** ** uio.c *)

Inductive uio_rw_t := UIO_READ | UIO_WRITE.
Inductive uio_seg := UIO_USERISPACE | UIO_USERSPACE | UIO_SYSSPACE.
#[global] Instance uio_rw_dec : EqDecision uio_rw_t.
Proof. solve_decision. Defined.

(** A region: at [iov_ubase] of user memory, or, for [UIO_SYSSPACE], the kernel
    memory from [iov_kbase] on, by its contents. *)
Record iovec := mk_iovec {
  iov_ubase : Z;
  iov_kbase : list Z;
  iov_len : Z
}.

(** [uio_done] are the bytes of kernel regions that transfers have passed. *)
Record uio := mk_uio {
  uio_iov : list iovec;
  uio_done : list Z;
  uio_offset : Z;
  uio_resid : Z;
  uio_segflg : uio_seg;
  uio_rw : uio_rw_t;
  uio_space : Z
}.

(** A transfer works on the uio and on user memory. *)
Record xfer := mk_xfer { xu : uio; xm : umem }.

Definition set_iov (u : uio) (l : list iovec) : uio :=
  mk_uio l (uio_done u) (uio_offset u) (uio_resid u) (uio_segflg u) (uio_rw u) (uio_space u).

(** The bookkeeping at the end of the loop body. *)
Definition advance (u : uio) (iov : iovec) (rest : list iovec) (done : list Z) (size : Z) : uio :=
  mk_uio (mk_iovec (iov_ubase iov) (iov_kbase iov) (iov_len iov - size) :: rest)
         (uio_done u ++ done) (uio_offset u + size) (w32 (uio_resid u - size))
         (uio_segflg u) (uio_rw u) (uio_space u).

(** [memmove] of [size] bytes into or out of a kernel buffer, at index [p]. *)
Definition slice (l : list Z) (p n : Z) : list Z := take (Z.to_nat n) (drop (Z.to_nat p) l).
Definition splice (l : list Z) (p : Z) (d : list Z) : list Z :=
  take (Z.to_nat p) l ++ d ++ drop (Z.to_nat p + length d) l.

(** Big-endian words in a buffer. *)
Definition rd32 (b : list Z) (off : Z) : Z :=
  match slice b off 4 with
  | [a; b; c; d] => ((a * 256 + b) * 256 + c) * 256 + d
  | _ => 0
  end.
Definition rd16 (b : list Z) (off : Z) : Z :=
  match slice b off 2 with
  | [a; b] => a * 256 + b
  | _ => 0
  end.
Definition be32 (x : Z) : list Z :=
  [x / 16777216 mod 256; x / 65536 mod 256; x / 256 mod 256; x mod 256].
Definition be16 (x : Z) : list Z := [x / 256 mod 256; x mod 256].
Definition wr32 (b : list Z) (off x : Z) : list Z := splice b off (be32 x).
Definition wr16 (b : list Z) (off x : Z) : list Z := splice b off (be16 x).

(** One transfer of [size] bytes between [buf[p..]] and the first region. *)
Definition move_kernel (iov : iovec) (rest : list iovec) (buf : list Z) (p size : Z)
  : M xfer (Z * list Z) :=
  let* s := get in
  let u := xu s in
  if (zlength (iov_kbase iov) <? size) || (zlength buf <? p + size) then fault else
  let k := iov_kbase iov in
  let iov' := mk_iovec (iov_ubase iov) (drop (Z.to_nat size) k) (iov_len iov) in
  match uio_rw u with
  | UIO_READ =>
      do* put (mk_xfer (advance u iov' rest (slice buf p size) size) (xm s)) in
      ret (0, buf)
  | UIO_WRITE =>
      let d := take (Z.to_nat size) k in
      do* put (mk_xfer (advance u iov' rest d size) (xm s)) in
      ret (0, splice buf p d)
  end.

Definition move_user (iov : iovec) (rest : list iovec) (buf : list Z) (p size : Z)
  : M xfer (Z * list Z) :=
  let* s := get in
  let u := xu s in
  if zlength buf <? p + size then fault else
  let iov' := mk_iovec (w32 (iov_ubase iov + size)) (iov_kbase iov) (iov_len iov) in
  match uio_rw u with
  | UIO_READ =>
      let (result, um) := copyout (xm s) (drop (Z.to_nat p) buf) (iov_ubase iov) size in
      if negb (result =? 0) then do* put (mk_xfer u um) in ret (result, buf)
      else do* put (mk_xfer (advance u iov' rest [] size) um) in ret (0, buf)
  | UIO_WRITE =>
      let (result, d) := copyin (xm s) (iov_ubase iov) size in
      if negb (result =? 0) then ret (result, splice buf p d)
      else do* put (mk_xfer (advance u iov' rest [] size) (xm s)) in ret (0, splice buf p d)
  end.

(** [while (n > 0 && uio->uio_resid > 0)].  The fuel counts bytes and regions:
    each round moves a byte or drops a region. *)
Fixpoint uiomove_loop (fuel : nat) (buf : list Z) (p n : Z) : M xfer (Z * list Z) :=
  match fuel with
  | O => fun _ => NoFuel
  | S fuel =>
      let* s := get in
      let u := xu s in
      if (0 <? n) && (0 <? uio_resid u) then
        match uio_iov u with
        | [] => fault
        | iov :: rest =>
            let size := Z.min (iov_len iov) n in
            if size =? 0 then
              do* put (mk_xfer (set_iov u rest) (xm s)) in
              match rest with
              | [] => panic    (* ran out of buffers *)
              | _ => uiomove_loop fuel buf p n
              end
            else
              let* (result, buf) :=
                match uio_segflg u with
                | UIO_SYSSPACE => move_kernel iov rest buf p size
                | _ => move_user iov rest buf p size
                end in
              if negb (result =? 0) then ret (result, buf)
              else uiomove_loop fuel buf (p + size) (n - size)
        end
      else ret (0, buf)
  end.

Definition uiomove_fuel (n : Z) (u : uio) : nat := Z.to_nat n + length (uio_iov u) + 1.

(** [curas] is the current address space, null for a kernel-only process. *)
Definition uiomove (curas : Z) (buf : list Z) (n : Z) : M xfer (Z * list Z) :=
  let* s := get in
  do* kassert (match uio_segflg (xu s) with
               | UIO_SYSSPACE => uio_space (xu s) =? 0
               | _ => uio_space (xu s) =? curas
               end) in
  uiomove_loop (uiomove_fuel n (xu s)) buf 0 n.

(** [while (n > 0)] of [uiomovezeros], at most 16 bytes a round. *)
Fixpoint zeros_loop (fuel : nat) (curas n : Z) : M xfer Z :=
  match fuel with
  | O => fun _ => NoFuel
  | S fuel =>
      if 0 <? n then
        let amt := if n <? 16 then n else 16 in
        let* (result, _) := uiomove curas (replicate 16 0) amt in
        if negb (result =? 0) then ret result
        else zeros_loop fuel curas (n - amt)
      else ret 0
  end.

Definition uiomovezeros (curas n : Z) : M xfer Z :=
  let* s := get in
  do* kassert (bool_decide (uio_rw (xu s) = UIO_READ)) in
  zeros_loop (S (Z.to_nat n)) curas n.

Definition uio_kinit (kbuf : list Z) (len pos : Z) (rw : uio_rw_t) : uio :=
  mk_uio [mk_iovec 0 kbuf len] [] pos len UIO_SYSSPACE rw 0.

(** ** The reference: one byte at a time *)

(** The first region that is not empty; none left is the panic of the code. *)
Fixpoint skip_empty (l : list iovec) : option (iovec * list iovec) :=
  match l with
  | [] => None
  | iov :: rest => if iov_len iov =? 0 then skip_empty rest else Some (iov, rest)
  end.

(** Move one byte: [b] to the region for a read, the byte of the region for a
    write; [None] for a fault. The byte moved is returned. *)
Definition step1 (b : Z) (s : xfer) : option (Z * xfer) :=
  let u := xu s in
  match skip_empty (uio_iov u) with
  | None => None
  | Some (iov, rest) =>
      match uio_segflg u with
      | UIO_SYSSPACE =>
          match iov_kbase iov with
          | [] => None
          | x :: k =>
              let y := match uio_rw u with UIO_READ => b | UIO_WRITE => x end in
              Some (y, mk_xfer (advance u (mk_iovec (iov_ubase iov) k (iov_len iov)) rest [y] 1)
                               (xm s))
          end
      | _ =>
          let a := iov_ubase iov in
          match (if a <? USERSPACETOP then xm s !! a else None) with
          | None => None
          | Some x =>
              let iov' := mk_iovec (w32 (a + 1)) (iov_kbase iov) (iov_len iov) in
              match uio_rw u with
              | UIO_READ => Some (b, mk_xfer (advance u iov' rest [] 1) (<[a := b]> (xm s)))
              | UIO_WRITE => Some (x, mk_xfer (advance u iov' rest [] 1) (xm s))
              end
          end
      end
  end.

Fixpoint steps (l : list Z) (s : xfer) : option (list Z * xfer) :=
  match l with
  | [] => Some ([], s)
  | b :: l =>
      match step1 b s with
      | None => None
      | Some (y, s) =>
          match steps l s with
          | None => None
          | Some (d, s) => Some (y :: d, s)
          end
      end
  end.

(** Moving two pieces is moving both. *)
Lemma steps_app l1 l2 s :
  steps (l1 ++ l2) s =
    match steps l1 s with
    | None => None
    | Some (d1, s1) =>
        match steps l2 s1 with
        | None => None
        | Some (d2, s2) => Some (d1 ++ d2, s2)
        end
    end.
Proof.
  revert s. induction l1 as [|b l1 IH]; intros s; cbn [app steps].
  - by destruct (steps l2 s) as [[d2 s2]|].
  - destruct (step1 b s) as [[y s1]|]; [|done]. rewrite IH.
    destruct (steps l1 s1) as [[d1 s2]|]; [|done].
    by destruct (steps l2 s2) as [[d2 s3]|].
Qed.

Lemma steps_app_Some l1 l2 s d s' :
  steps (l1 ++ l2) s = Some (d, s') ->
  exists d1 s1 d2, steps l1 s = Some (d1, s1) /\ steps l2 s1 = Some (d2, s') /\ d = d1 ++ d2.
Proof.
  rewrite steps_app. destruct (steps l1 s) as [[d1 s1]|] eqn:E; [|done].
  destruct (steps l2 s1) as [[d2 s2]|] eqn:E2; [|done]. intros [= <- <-]. eauto 6.
Qed.

Lemma steps_length l s d s' : steps l s = Some (d, s') -> length d = length l.
Proof.
  revert s d. induction l as [|b l IH]; intros s d; cbn [steps]; [by intros [= <- _]|].
  destruct (step1 b s) as [[y s1]|]; [|done].
  destruct (steps l s1) as [[d1 s2]|] eqn:E; [|done]. intros [= <- <-]. cbn. f_equal. eauto.
Qed.

(** What a byte does not change, and how the counters move. *)
Definition same_kind (u u' : uio) : Prop :=
  uio_rw u' = uio_rw u /\ uio_segflg u' = uio_segflg u /\ uio_space u' = uio_space u.

(** The regions hold at least what is left to transfer. *)
Fixpoint total (l : list iovec) : Z :=
  match l with [] => 0 | i :: l => iov_len i + total l end.

Definition iov_wf (seg : uio_seg) (i : iovec) : Prop :=
  0 <= iov_len i < two32 /\ is_u32 (iov_ubase i) /\
  (seg = UIO_SYSSPACE -> iov_len i <= zlength (iov_kbase i)).

Record uio_wf (u : uio) : Prop := {
  uw_iov : Forall (iov_wf (uio_segflg u)) (uio_iov u);
  uw_resid : 0 <= uio_resid u < two32;
  uw_total : uio_resid u <= total (uio_iov u)
}.

Lemma total_nonneg seg l : Forall (iov_wf seg) l -> 0 <= total l.
Proof. induction 1 as [|i l [Hi _] _ IH]; cbn; lia. Qed.

Lemma skip_empty_spec seg l :
  Forall (iov_wf seg) l -> 0 < total l ->
  exists iov rest, skip_empty l = Some (iov, rest) /\ 0 < iov_len iov /\
    Forall (iov_wf seg) (iov :: rest) /\ total (iov :: rest) = total l.
Proof.
  induction 1 as [|i l Hi Hl IH]; cbn [total skip_empty]; [lia|]. intros Ht.
  destruct (Z.eqb_spec (iov_len i) 0) as [E|E].
  - rewrite E in *. destruct IH as (iov & rest & -> & ?); [lia|]. eauto.
  - exists i, l. destruct Hi as [Hi1 Hi2]. split_and!; [done|lia|constructor; [by split|done]|done].
Qed.

Lemma advance_wf u iov rest done size :
  Forall (iov_wf (uio_segflg u)) rest -> 0 <= size <= iov_len iov -> iov_len iov < two32 ->
  is_u32 (iov_ubase iov) ->
  (uio_segflg u = UIO_SYSSPACE -> iov_len iov - size <= zlength (iov_kbase iov)) ->
  size <= uio_resid u < two32 -> uio_resid u <= iov_len iov + total rest ->
  uio_wf (advance u iov rest done size) /\ same_kind u (advance u iov rest done size) /\
  uio_resid (advance u iov rest done size) = uio_resid u - size.
Proof.
  intros Hr Hs Hl Hb Hk Hd Ht. unfold advance. split; [|split; [by split_and!|]]; cbn.
  - split; cbn.
    + constructor; [|done]. split_and!; cbn; [lia|lia|done|done].
    + apply w32_range.
    + rewrite w32_id by (unfold is_u32; lia). lia.
  - apply w32_id. unfold is_u32. lia.
Qed.

(** *** Slices *)

Lemma slice_length l p n : 0 <= p -> 0 <= n -> p + n <= zlength l -> zlength (slice l p n) = n.
Proof. unfold zlength, slice. intros. rewrite length_take, length_drop. lia. Qed.

Lemma slice_split l p a b : 0 <= p -> 0 <= a -> 0 <= b ->
  slice l p (a + b) = slice l p a ++ slice l (p + a) b.
Proof.
  unfold slice. intros. rewrite !Z2Nat.inj_add by lia.
  rewrite <- drop_drop. by rewrite take_take_drop.
Qed.

Lemma splice_length l p d : 0 <= p -> p + zlength d <= zlength l -> zlength (splice l p d) = zlength l.
Proof.
  unfold zlength, splice. intros. rewrite !length_app, length_take, length_drop. lia.
Qed.

Lemma splice_nil l p : splice l p [] = l.
Proof. unfold splice. cbn. rewrite Nat.add_0_r. apply take_drop. Qed.

Lemma splice_slice l p n : 0 <= p -> 0 <= n -> p + n <= zlength l -> splice l p (slice l p n) = l.
Proof.
  intros Hp Hn Hl. pose proof (slice_length l p n Hp Hn Hl) as Hs. unfold splice.
  replace (length (slice l p n)) with (Z.to_nat n) by (unfold zlength in Hs; lia).
  unfold slice. rewrite <- drop_drop. by rewrite take_drop, take_drop.
Qed.

(** What a splice leaves alone, and two splices in a row. *)
Lemma slice_splice_after l p d q n : 0 <= p -> p + zlength d <= zlength l -> p + zlength d <= q ->
  slice (splice l p d) q n = slice l q n.
Proof.
  unfold zlength, slice, splice. intros Hp Hl Hq. f_equal.
  rewrite app_assoc, drop_app_ge by (rewrite length_app, length_take; lia).
  rewrite length_app, length_take, drop_drop. f_equal. lia.
Qed.

Lemma splice_splice l p d e : 0 <= p -> p + zlength d + zlength e <= zlength l ->
  splice (splice l p d) (p + zlength d) e = splice l p (d ++ e).
Proof.
  unfold zlength, splice. intros Hp Hl.
  set (k := Z.to_nat p). replace (Z.to_nat (p + Z.of_nat (length d))) with (k + length d)%nat by lia.
  assert (length (take k l ++ d) = (k + length d)%nat) as Hkd by (rewrite length_app, length_take; lia).
  rewrite (app_assoc (take k l) d). rewrite <- Hkd at 1. rewrite take_app_length.
  rewrite drop_app_ge by lia. rewrite Hkd, drop_drop, length_app, <- !app_assoc.
  do 4 f_equal. lia.
Qed.

(** *** Chunks of kernel memory *)

(** [advance] in two goes. *)
Lemma advance_twice u iov rest d1 d2 b k a1 a2 :
  0 <= a1 -> 0 <= a2 ->
  advance (advance u iov rest d1 a1)
    (mk_iovec b k (iov_len iov - a1)) rest d2 a2
  = advance u (mk_iovec b k (iov_len iov)) rest (d1 ++ d2) (a1 + a2).
Proof.
  intros H1 H2. unfold advance. cbn. rewrite app_assoc.
  f_equal; [do 2 f_equal; lia|lia|].
  unfold w32. rewrite Zminus_mod_idemp_l. f_equal. lia.
Qed.

Definition moved (rw : uio_rw_t) (l k : list Z) : list Z :=
  match rw with UIO_READ => l | UIO_WRITE => take (length l) k end.

Lemma steps_kernel l u um iov rest :
  uio_segflg u = UIO_SYSSPACE -> uio_iov u = iov :: rest ->
  zlength l <= iov_len iov -> zlength l <= zlength (iov_kbase iov) -> l <> [] ->
  steps l (mk_xfer u um) = Some (moved (uio_rw u) l (iov_kbase iov),
    mk_xfer (advance u (mk_iovec (iov_ubase iov) (drop (length l) (iov_kbase iov)) (iov_len iov))
               rest (moved (uio_rw u) l (iov_kbase iov)) (zlength l)) um).
Proof.
  revert u iov. induction l as [|b l IH]; intros u iov Hseg Hiov Hlen Hk Hne; [done|].
  unfold zlength in *. cbn [steps length] in *.
  unfold step1. cbn [xu xm]. rewrite Hiov. cbn [skip_empty].
  destruct (Z.eqb_spec (iov_len iov) 0); [lia|]. rewrite Hseg.
  destruct (iov_kbase iov) as [|x k] eqn:Ek; [cbn in Hk; lia|]. cbn [length] in Hk.
  set (y := match uio_rw u with UIO_READ => b | UIO_WRITE => x end).
  destruct (decide (l = [])) as [->|Hl].
  { cbn [steps length]. unfold moved. cbn. by destruct (uio_rw u). }
  rewrite (IH (advance u (mk_iovec (iov_ubase iov) k (iov_len iov)) rest [y] 1)
              (mk_iovec (iov_ubase iov) k (iov_len iov - 1))); cbn; try lia; try done.
  rewrite (advance_twice u (mk_iovec (iov_ubase iov) k (iov_len iov))) by lia. cbn.
  replace (1 + Z.of_nat (length l)) with (Z.of_nat (S (length l))) by lia.
  unfold moved, y. by destruct (uio_rw u).
Qed.

(** *** Chunks of user memory *)

(** All of [n] bytes from [a] on are user memory that can be accessed. *)
Fixpoint can_access (um : umem) (a : Z) (n : nat) : bool :=
  match n with
  | O => true
  | S n => (a <? USERSPACETOP) && bool_decide (is_Some (um !! a)) && can_access um (a + 1) n
  end.

Lemma can_access_bound um a n : (0 < n)%nat -> can_access um a n = true -> a + Z.of_nat n <= USERSPACETOP.
Proof.
  revert a. induction n as [|n IH]; intros a Hn H; [lia|]. cbn in H.
  apply andb_true_iff in H as [H H2]. apply andb_true_iff in H as [H1 _]. bprop.
  destruct n as [|n]; [lia|]. apply IH in H2; lia.
Qed.

Lemma can_access_insert um a n i b :
  is_Some (um !! i) -> can_access (<[i := b]> um) a n = can_access um a n.
Proof.
  intros Hi. revert a. induction n as [|n IH]; intros a; [done|]. cbn. rewrite IH.
  assert (is_Some (<[i := b]> um !! a) <-> is_Some (um !! a)) as Hs.
  { destruct (decide (i = a)) as [->|Hne]; [rewrite lookup_insert_eq; split; eauto|].
    by rewrite lookup_insert_ne. }
  by rewrite (bool_decide_ext _ _ Hs).
Qed.

(** The check of the code, for a region that is not empty. *)
Lemma copycheck_spec a n : is_u32 a -> 0 < n < two32 ->
  (copycheck a n = (0, n) <-> a + n <= USERSPACETOP) /\
  (copycheck a n = (0, n) \/ (copycheck a n).1 <> 0 /\ (copycheck a n).1 = EFAULT \/
   (copycheck a n).1 = 0 /\ (copycheck a n).2 <> n).
Proof.
  unfold copycheck, is_u32, USERSPACETOP, MIPS_KSEG0. intros Ha Hn.
  assert (w32 (a + n - 1) = a + n - 1 \/ w32 (a + n - 1) = a + n - 1 - two32 /\ two32 <= a + n - 1)
    as Hw by (unfold w32, two32 in *; Z.to_euclidean_division_equations; lia).
  unfold two32 in *.
  destruct (Z.ltb_spec (w32 (a + n - 1)) a) as [H1|H1]; cbn.
  { split; [split; [done|intros; lia]|right; left; done]. }
  destruct (Z.leb_spec 2147483648 a) as [H2|H2]; cbn.
  { split; [split; [done|intros; lia]|right; left; done]. }
  destruct (Z.leb_spec 2147483648 (w32 (a + n - 1))) as [H3|H3]; cbn.
  - split; [split; [intros [= ?]; lia|intros; lia]|right; right; split; [done|lia]].
  - split; [split; [intros; lia|done]|by left].
Qed.

Lemma read_run_can um a n :
  a + Z.of_nat n <= USERSPACETOP ->
  (length (read_run um a n) = n <-> can_access um a n = true).
Proof.
  revert a. induction n as [|n IH]; intros a Ha; [done|]. cbn.
  destruct (Z.ltb_spec a USERSPACETOP); [|lia].
  destruct (um !! a) as [x|]; cbn; [|done].
  rewrite <- IH by lia. lia.
Qed.

Lemma copyin_spec um a n :
  is_u32 a -> 0 < n < two32 ->
  (can_access um a (Z.to_nat n) = true /\
     copyin um a n = (0, read_run um a (Z.to_nat n)) /\
     zlength (read_run um a (Z.to_nat n)) = n) \/
  (can_access um a (Z.to_nat n) = false /\
     exists l, copyin um a n = (EFAULT, l) /\ zlength l <= n).
Proof.
  intros Ha Hn. unfold copyin. destruct (copycheck_spec a n Ha Hn) as [Hb Hc].
  destruct (can_access um a (Z.to_nat n)) eqn:Ec.
  - left. pose proof (can_access_bound um a (Z.to_nat n) ltac:(lia) Ec) as Hle.
    rewrite Z2Nat.id in Hle by lia. rewrite (proj2 Hb) by done. cbn. rewrite Z.eqb_refl. cbn.
    apply read_run_can in Ec; [|lia]. unfold zlength. rewrite Ec, Z2Nat.id by lia.
    by rewrite Z.eqb_refl.
  - right. split; [done|]. destruct (copycheck a n) as [r sl]. cbn in Hc.
    destruct Hc as [[= -> ->]|[[Hr ->]|[-> Hs]]].
    + cbn. rewrite Z.eqb_refl. cbn.
      assert (length (read_run um a (Z.to_nat n)) <> Z.to_nat n) as Hne.
      { rewrite read_run_can; [by rewrite Ec|]. rewrite Z2Nat.id by lia. by apply Hb. }
      assert (forall k b, length (read_run um b k) <= k)%nat as Hle.
      { intros k. induction k as [|k IH]; intros b; cbn; [lia|].
        destruct (um !! b); cbn; [|lia]. specialize (IH (b + 1)). lia. }
      specialize (Hle (Z.to_nat n) a). unfold zlength.
      destruct (Z.eqb_spec (Z.of_nat (length (read_run um a (Z.to_nat n)))) n); [lia|].
      eexists. split; [done|lia].
    + cbn. exists []. split; [done|unfold zlength; cbn; lia].
    + cbn. destruct (Z.eqb_spec sl n); [done|]. cbn. exists [].
      split; [done|unfold zlength; cbn; lia].
Qed.

Lemma write_run_can um a l :
  a + zlength l <= USERSPACETOP -> (write_run um a l).2 = can_access um a (length l).
Proof.
  revert um a. induction l as [|b l IH]; intros um a Ha; [done|].
  unfold zlength in Ha. cbn [length] in Ha. cbn.
  destruct (Z.ltb_spec a USERSPACETOP); [|lia].
  destruct (um !! a) as [x|] eqn:E; cbn; [|done].
  rewrite IH by (unfold zlength; lia). by rewrite can_access_insert by eauto.
Qed.

Lemma copyout_spec um src a n :
  is_u32 a -> 0 < n < two32 -> n <= zlength src ->
  (can_access um a (Z.to_nat n) = true /\
     copyout um src a n = (0, (write_run um a (take (Z.to_nat n) src)).1)) \/
  (can_access um a (Z.to_nat n) = false /\ exists um', copyout um src a n = (EFAULT, um')).
Proof.
  intros Ha Hn Hs. unfold copyout. destruct (copycheck_spec a n Ha Hn) as [Hb Hc].
  assert (length (take (Z.to_nat n) src) = Z.to_nat n) as Hl
    by (rewrite length_take; unfold zlength in Hs; lia).
  assert (a + n <= USERSPACETOP ->
    (write_run um a (take (Z.to_nat n) src)).2 = can_access um a (Z.to_nat n)) as Hw.
  { intros. rewrite write_run_can, Hl; [done|]. unfold zlength. rewrite Hl. lia. }
  destruct (can_access um a (Z.to_nat n)) eqn:Ec.
  - left. pose proof (can_access_bound um a (Z.to_nat n) ltac:(lia) Ec) as Hle.
    rewrite Z2Nat.id in Hle by lia. rewrite (proj2 Hb) by done. cbn. rewrite Z.eqb_refl. cbn.
    destruct (write_run _ _ _) as [um' all]. cbn in *. by rewrite Hw.
  - right. split; [done|]. destruct (copycheck a n) as [r sl]. cbn in Hc.
    destruct Hc as [[= -> ->]|[[Hr ->]|[-> Hse]]].
    + cbn. rewrite Z.eqb_refl. cbn. destruct (write_run _ _ _) as [um' all]. cbn in *.
      rewrite Hw by (by apply Hb). eauto.
    + cbn. eauto.
    + cbn. destruct (Z.eqb_spec sl n); [done|]. cbn. eauto.
Qed.

(** A chunk of user memory: the bytes move one by one exactly if the whole
    region can be accessed. *)
Definition user_moved (rw : uio_rw_t) (um : umem) (a : Z) (l : list Z) : list Z * umem :=
  match rw with
  | UIO_READ => (l, (write_run um a l).1)
  | UIO_WRITE => (read_run um a (length l), um)
  end.

Lemma w32_user a : 0 <= a <= USERSPACETOP -> w32 a = a.
Proof. intros. apply w32_id. unfold is_u32, two32, USERSPACETOP, MIPS_KSEG0 in *. lia. Qed.

Lemma steps_user l u um iov rest :
  uio_segflg u <> UIO_SYSSPACE -> uio_iov u = iov :: rest -> 0 <= iov_ubase iov ->
  zlength l <= iov_len iov -> l <> [] ->
  steps l (mk_xfer u um) =
    if can_access um (iov_ubase iov) (length l) then
      Some ((user_moved (uio_rw u) um (iov_ubase iov) l).1,
        mk_xfer (advance u (mk_iovec (w32 (iov_ubase iov + zlength l)) (iov_kbase iov) (iov_len iov))
                   rest [] (zlength l)) (user_moved (uio_rw u) um (iov_ubase iov) l).2)
    else None.
Proof.
  revert u um iov. induction l as [|b l IH]; intros u um iov Hseg Hiov Ha Hlen Hne; [done|].
  unfold zlength in *. cbn [steps length can_access] in *.
  set (a := iov_ubase iov) in *.
  unfold step1. cbn [xu xm]. rewrite Hiov. cbn [skip_empty].
  destruct (Z.eqb_spec (iov_len iov) 0); [lia|]. fold a.
  set (iov1 := mk_iovec (w32 (a + 1)) (iov_kbase iov) (iov_len iov)).
  destruct (Z.ltb_spec a USERSPACETOP).
  2: { cbn. by destruct (uio_segflg u). }
  destruct (um !! a) as [x|] eqn:Ex; cbn [andb].
  2: { rewrite bool_decide_false by (intros [? ?]; done). cbn. by destruct (uio_segflg u). }
  rewrite bool_decide_true by eauto. cbn [andb].
  set (um1 := match uio_rw u with UIO_READ => <[a := b]> um | UIO_WRITE => um end).
  set (y := match uio_rw u with UIO_READ => b | UIO_WRITE => x end).
  transitivity (match steps l (mk_xfer (advance u iov1 rest [] 1) um1) with
                | Some (d, s) => Some (y :: d, s) | None => None end).
  { unfold um1, y. destruct (uio_segflg u); [| |done]; by destruct (uio_rw u). }
  assert (can_access um1 (a + 1) (length l) = can_access um (a + 1) (length l)) as Hc.
  { unfold um1. destruct (uio_rw u); [by rewrite can_access_insert by eauto|done]. }
  assert (w32 (a + 1) = a + 1) as Hw by (apply w32_user; lia).
  destruct (decide (l = [])) as [->|Hl].
  { cbn [steps length can_access]. unfold user_moved. cbn. rewrite Ex. unfold um1, y, iov1.
    by destruct (uio_rw u). }
  rewrite (IH (advance u iov1 rest [] 1) um1 (mk_iovec (w32 (a + 1)) (iov_kbase iov) (iov_len iov - 1)));
    cbn; try lia; try done.
  rewrite Hw, Hc. destruct (can_access um (a + 1) (length l)) eqn:Ec; [|done].
  rewrite (advance_twice u iov1) by lia. cbn.
  replace (1 + Z.of_nat (length l)) with (Z.of_nat (S (length l))) by lia.
  replace (a + 1 + Z.of_nat (length l)) with (a + Z.of_nat (S (length l))) by lia.
  unfold user_moved, um1, y. cbn. rewrite Ex. by destruct (uio_rw u).
Qed.

(** *** The loop against the reference *)

Lemma steps_skip l u um iov rest :
  uio_iov u = iov :: rest -> iov_len iov = 0 -> l <> [] ->
  steps l (mk_xfer u um) = steps l (mk_xfer (set_iov u rest) um).
Proof.
  intros Hu Hl Hne. destruct l as [|b l]; [done|]. cbn [steps]. unfold step1.
  cbn [xu xm]. rewrite Hu. cbn [skip_empty set_iov uio_iov uio_segflg uio_rw].
  rewrite Hl. cbn [Z.eqb]. done.
Qed.

Lemma step1_wf b s y s' :
  uio_wf (xu s) -> 0 < uio_resid (xu s) -> step1 b s = Some (y, s') ->
  uio_wf (xu s') /\ same_kind (xu s) (xu s') /\ uio_resid (xu s') = uio_resid (xu s) - 1 /\
  uio_offset (xu s') = uio_offset (xu s) + 1.
Proof.
  intros [Hi Hr Ht] H0 E. unfold step1 in E.
  destruct (skip_empty_spec _ _ Hi) as (iov & rest & Es & Hl & Hf & Htot); [lia|].
  rewrite Es in E. cbn [total] in Htot.
  apply Forall_cons in Hf as [(Hl1 & Hb & Hk) Hrest].
  assert (forall iov' d, iov_len iov' = iov_len iov -> is_u32 (iov_ubase iov') ->
    (uio_segflg (xu s) = UIO_SYSSPACE -> iov_len iov' - 1 <= zlength (iov_kbase iov')) ->
    let u' := advance (xu s) iov' rest d 1 in
    uio_wf u' /\ same_kind (xu s) u' /\ uio_resid u' = uio_resid (xu s) - 1 /\
    uio_offset u' = uio_offset (xu s) + 1) as Hadv.
  { intros iov' d E1 E2 E3. destruct (advance_wf (xu s) iov' rest d 1) as (A1 & A2 & A3);
      try done; try lia. }
  destruct (uio_segflg (xu s)) eqn:Hseg.
  3: { destruct (iov_kbase iov) as [|x k] eqn:Ek; [done|]. injection E as <- <-. cbn [xu].
       apply Hadv; [done|done|]. intros _. cbn. specialize (Hk eq_refl).
       unfold zlength in *. cbn [length] in Hk. lia. }
  all: destruct (if _ <? _ then _ else _); [|done]; destruct (uio_rw (xu s)); injection E as <- <-;
    cbn [xu]; apply Hadv; try done; apply w32_range.
Qed.

Lemma steps_wf l s d s' :
  uio_wf (xu s) -> zlength l <= uio_resid (xu s) -> steps l s = Some (d, s') ->
  uio_wf (xu s') /\ same_kind (xu s) (xu s') /\
  uio_resid (xu s') = uio_resid (xu s) - zlength l /\
  uio_offset (xu s') = uio_offset (xu s) + zlength l.
Proof.
  revert s d. induction l as [|b l IH]; intros s d Hw Hl E; unfold zlength in *; cbn [steps length] in *.
  { injection E as <- <-. split_and!; [done..|lia|lia]. }
  destruct (step1 b s) as [[y s1]|] eqn:E1; [|done].
  destruct (step1_wf b s y s1) as (W1 & K1 & R1 & O1); [done|lia|done|].
  destruct (steps l s1) as [[d1 s2]|] eqn:E2; [|done]. injection E as <- <-.
  destruct (IH s1 d1) as (W2 & K2 & R2 & O2); [done|lia|done|].
  split_and!; [done| |lia|lia]. destruct K1 as (? & ? & ?), K2 as (? & ? & ?).
  split_and!; congruence.
Qed.

Lemma skip_empty_length l iov rest :
  skip_empty l = Some (iov, rest) -> (S (length rest) <= length l)%nat.
Proof.
  induction l as [|i l IH]; cbn; [done|]. destruct (iov_len i =? 0).
  - intros E. specialize (IH E). lia.
  - intros [= <- <-]. lia.
Qed.

Lemma steps_iovs l s d s' :
  steps l s = Some (d, s') -> (length (uio_iov (xu s')) <= length (uio_iov (xu s)))%nat.
Proof.
  revert s d. induction l as [|b l IH]; intros s d; cbn [steps]; [by intros [= <- <-]|].
  destruct (step1 b s) as [[y s1]|] eqn:E1; [|done].
  destruct (steps l s1) as [[d1 s2]|] eqn:E2; [|done]. intros [= <- <-].
  specialize (IH _ _ E2). etransitivity; [exact IH|]. clear IH E2. unfold step1 in E1.
  destruct (skip_empty _) as [[iov rest]|] eqn:E; [|done]. apply skip_empty_length in E.
  destruct (uio_segflg (xu s)).
  3: { destruct (iov_kbase iov); [done|]. by injection E1 as <- <-. }
  all: destruct (if _ <? _ then _ else _); [|done]; destruct (uio_rw (xu s));
    by injection E1 as <- <-.
Qed.

(** What a failed transfer leaves: [EFAULT], and a uio that is still sound. *)
Definition move_failed (buf : list Z) (s : xfer) (o : outcome (Z * list Z * xfer)) : Prop :=
  uio_segflg (xu s) <> UIO_SYSSPACE /\
  exists buf' s', o = Ret (EFAULT, buf', s') /\ zlength buf' = zlength buf /\
    uio_wf (xu s') /\ same_kind (xu s) (xu s') /\
    uio_offset (xu s) <= uio_offset (xu s') /\
    uio_offset (xu s') + uio_resid (xu s') = uio_offset (xu s) + uio_resid (xu s).

(** One round of the loop that moves a chunk. *)
Section chunk.
Context (u : uio) (um : umem) (iov : iovec) (rest : list iovec) (buf : list Z) (p size : Z).
Context (Hwf : uio_wf u) (Hu : uio_iov u = iov :: rest) (Hs : 0 < size <= iov_len iov).
Context (Hp : 0 <= p) (Hb : p + size <= zlength buf).

Let l := slice buf p size.

Lemma chunk_slice : zlength l = size /\ l <> [] /\ length l = Z.to_nat size.
Proof.
  pose proof (slice_length buf p size ltac:(lia) ltac:(lia) Hb) as Hsl. fold l in Hsl.
  unfold zlength in *. split_and!; [done| |lia]. intros E. rewrite E in Hsl. cbn in Hsl. lia.
Qed.

Lemma chunk_iov : iov_wf (uio_segflg u) iov /\ Forall (iov_wf (uio_segflg u)) rest.
Proof. destruct Hwf as [Hi _ _]. rewrite Hu in Hi. by apply Forall_cons in Hi. Qed.

Lemma chunk_kernel :
  uio_segflg u = UIO_SYSSPACE ->
  exists d s', steps l (mk_xfer u um) = Some (d, s') /\
    move_kernel iov rest buf p size (mk_xfer u um) = Ret (0, splice buf p d, s').
Proof.
  intros Hseg. destruct chunk_slice as (Hsl & Hne & Hln).
  destruct chunk_iov as [(Hl1 & Hba & Hk) _]. specialize (Hk Hseg).
  rewrite (steps_kernel l u um iov rest) by (done || lia). eexists _, _. split; [done|].
  unfold move_kernel. mrun. cbn [xu xm].
  destruct (Z.ltb_spec (zlength (iov_kbase iov)) size); [lia|].
  destruct (Z.ltb_spec (zlength buf) (p + size)); [lia|]. cbn [orb].
  rewrite Hln, Hsl. unfold moved. destruct (uio_rw u); mrun; unfold ret.
  - unfold l. rewrite splice_slice by lia. done.
  - by rewrite Hln.
Qed.

Lemma chunk_user :
  uio_segflg u <> UIO_SYSSPACE ->
  match steps l (mk_xfer u um) with
  | Some (d, s') => move_user iov rest buf p size (mk_xfer u um) = Ret (0, splice buf p d, s')
  | None => move_failed buf (mk_xfer u um) (move_user iov rest buf p size (mk_xfer u um))
  end.
Proof.
  intros Hseg. destruct chunk_slice as (Hsl & Hne & Hln).
  destruct chunk_iov as [(Hl1 & Hba & Hk) _]. pose proof Hba as [Hb0 _].
  rewrite (steps_user l u um iov rest) by (done || lia). rewrite Hln, Hsl.
  unfold move_user. mrun. cbn [xu xm].
  destruct (Z.ltb_spec (zlength buf) (p + size)); [lia|].
  unfold user_moved. rewrite Hln.
  destruct (uio_rw u).
  - destruct (copyout_spec um (drop (Z.to_nat p) buf) (iov_ubase iov) size) as [[-> ->]|[-> [um' ->]]];
      [done|lia| | |].
    { unfold zlength in *. rewrite length_drop. lia. }
    + cbn [fst snd]. unfold l. rewrite splice_slice by lia. done.
    + cbn. split; [done|]. eexists _, _. split; [done|]. split_and!; try done; lia.
  - destruct (copyin_spec um (iov_ubase iov) size) as [(-> & -> & Hr)|(-> & d & -> & Hd)];
      [done|lia|done|].
    cbn. split; [done|]. eexists _, _. split; [done|]. split_and!; try done; try lia.
    apply splice_length; lia.
Qed.

Lemma chunk_spec :
  let o := match uio_segflg u with
           | UIO_SYSSPACE => move_kernel iov rest buf p size
           | _ => move_user iov rest buf p size
           end (mk_xfer u um) in
  match steps l (mk_xfer u um) with
  | Some (d, s') => o = Ret (0, splice buf p d, s')
  | None => move_failed buf (mk_xfer u um) o
  end.
Proof.
  cbv zeta. destruct (uio_segflg u) eqn:Hseg; [| |].
  - apply chunk_user. by rewrite Hseg.
  - apply chunk_user. by rewrite Hseg.
  - destruct (chunk_kernel Hseg) as (d & s' & -> & E). exact E.
Qed.

End chunk.

Lemma move_failed_mono buf buf1 s s1 o :
  same_kind (xu s) (xu s1) -> zlength buf1 = zlength buf ->
  uio_offset (xu s) <= uio_offset (xu s1) ->
  uio_offset (xu s1) + uio_resid (xu s1) = uio_offset (xu s) + uio_resid (xu s) ->
  move_failed buf1 s1 o -> move_failed buf s o.
Proof.
  intros (K1 & K2 & K3) Hb Ho Hr (Hseg & b' & s' & -> & H1 & H2 & (H3 & H4 & H5) & H6 & H7).
  split; [congruence|]. exists b', s'. split_and!; try done; try congruence; try lia.
  split_and!; congruence.
Qed.

Lemma set_iov_wf u iov rest : uio_wf u -> uio_iov u = iov :: rest -> iov_len iov = 0 ->
  uio_wf (set_iov u rest).
Proof.
  intros [Hi Hr Ht] Hu Hl. rewrite Hu in Hi, Ht. apply Forall_cons in Hi as [_ Hi].
  cbn [total] in Ht. split; cbn; [done|done|lia].
Qed.

Lemma loop_spec fuel buf p n s :
  uio_wf (xu s) -> 0 <= p -> 0 <= n -> p + n <= zlength buf -> n <= uio_resid (xu s) ->
  (Z.to_nat n + length (uio_iov (xu s)) < fuel)%nat ->
  match steps (slice buf p n) s with
  | Some (d, s') => uiomove_loop fuel buf p n s = Ret (0, splice buf p d, s')
  | None => move_failed buf s (uiomove_loop fuel buf p n s)
  end.
Proof.
  revert buf p n s. induction fuel as [|fuel IH]; intros buf p n s Hw Hp Hn Hb Hr Hf; [lia|].
  cbn [uiomove_loop]. mrun. destruct (Z.ltb_spec 0 n).
  2: { replace n with 0 by lia. change (slice buf p 0) with (@nil Z). cbn [steps andb]. by rewrite splice_nil. }
  destruct (Z.ltb_spec 0 (uio_resid (xu s))); [|lia]. cbn [andb].
  pose proof Hw as [Hi _ Ht]. destruct s as [u um]. cbn [xu xm] in *.
  destruct (uio_iov u) as [|iov rest] eqn:Eu; [cbn in Ht; lia|].
  assert (0 <= iov_len iov) as Hl0 by (apply Forall_cons in Hi as [(? & _) _]; lia).
  destruct (Z.eqb_spec (Z.min (iov_len iov) n) 0) as [E0|E0].
  - assert (iov_len iov = 0) as E1 by lia. mrun.
    pose proof (set_iov_wf u iov rest Hw Eu E1) as Hw1.
    rewrite (steps_skip _ u um iov rest Eu E1).
    2: { intros E. pose proof (slice_length buf p n Hp Hn Hb) as Hs. rewrite E in Hs. unfold zlength in Hs. cbn in Hs. lia. }
    destruct rest as [|iov2 rest]; [cbn in Ht; lia|].
    specialize (IH buf p n (mk_xfer (set_iov u (iov2 :: rest)) um) Hw1 Hp Hn Hb Hr).
    cbn [xu uio_iov set_iov length] in IH. cbn [length] in Hf. specialize (IH ltac:(lia)).
    destruct (steps _ _) as [[d s']|]; [done|].
    eapply move_failed_mono; [| | | |exact IH]; done || (cbn; lia).
  - set (size := Z.min (iov_len iov) n) in *.
    assert (0 < size <= iov_len iov /\ size <= n) as [Hsz Hszn] by (unfold size in *; lia).
    clearbody size.
    assert (slice buf p n = slice buf p size ++ slice buf (p + size) (n - size)) as ->
      by (rewrite <- slice_split by lia; f_equal; lia).
    rewrite steps_app.
    pose proof (chunk_spec u um iov rest buf p size Hw Eu Hsz Hp ltac:(lia)) as Hc.
    cbv zeta in Hc.
    destruct (steps (slice buf p size) (mk_xfer u um)) as [[d1 [u1 um1]]|] eqn:E1.
    2: { destruct Hc as (H1 & b' & s' & Ho & Hc').
         erewrite bind_ok; [|exact Ho]. cbn. split; [done|].
         exists b', s'. split; [done|]. exact Hc'. }
    erewrite bind_ok; [|exact Hc]. cbn [Z.eqb negb].
    pose proof (slice_length buf p size ltac:(lia) ltac:(lia) ltac:(lia)) as Hs1.
    pose proof (steps_length _ _ _ _ E1) as Hd1.
    destruct (steps_wf (slice buf p size) (mk_xfer u um) d1 (mk_xfer u1 um1) Hw ltac:(cbn; lia) E1)
      as (W1 & K1 & R1 & O1). cbn [xu] in *.
    pose proof (steps_iovs _ _ _ _ E1) as Hi1. cbn [xu] in Hi1. rewrite Eu in Hi1.
    assert (zlength d1 = size) as Hz1 by (unfold zlength in *; lia).
    assert (zlength (splice buf p d1) = zlength buf) as Hb1 by (apply splice_length; lia).
    specialize (IH (splice buf p d1) (p + size) (n - size) (mk_xfer u1 um1)).
    rewrite slice_splice_after in IH by lia. cbn [xu] in IH.
    specialize (IH W1 ltac:(lia) ltac:(lia) ltac:(lia) ltac:(lia) ltac:(cbn [length] in *; lia)).
    destruct (steps (slice buf (p + size) (n - size)) (mk_xfer u1 um1)) as [[d2 s2]|] eqn:E2.
    + rewrite IH. rewrite <- Hz1. rewrite splice_splice; [done|done|].
      pose proof (steps_length _ _ _ _ E2) as Hd2.
      pose proof (slice_length buf (p + size) (n - size) ltac:(lia) ltac:(lia) ltac:(lia)).
      unfold zlength in *. lia.
    + apply (move_failed_mono buf (splice buf p d1) (mk_xfer u um) (mk_xfer u1 um1));
        [exact K1|exact Hb1|cbn; lia|cbn; lia|exact IH].
Qed.

(** [uiomove] is the reference, on a sound uio with room for [n] bytes. *)
Lemma uiomove_spec curas buf n s :
  uio_wf (xu s) -> 0 <= n <= zlength buf -> n <= uio_resid (xu s) ->
  uio_space (xu s) = (match uio_segflg (xu s) with UIO_SYSSPACE => 0 | _ => curas end) ->
  match steps (take (Z.to_nat n) buf) s with
  | Some (d, s') => uiomove curas buf n s = Ret (0, d ++ drop (Z.to_nat n) buf, s')
  | None => move_failed buf s (uiomove curas buf n s)
  end.
Proof.
  intros Hw Hn Hr Hsp. unfold uiomove. mrun.
  rewrite (bind_ok _ _ _ _ _ (kassert_ok (b := match uio_segflg (xu s) with
               | UIO_SYSSPACE => uio_space (xu s) =? 0
               | _ => uio_space (xu s) =? curas
               end) ltac:(rewrite Hsp; destruct (uio_segflg (xu s)); apply Z.eqb_refl))).
  pose proof (loop_spec (uiomove_fuel n (xu s)) buf 0 n s Hw ltac:(lia) ltac:(lia) ltac:(lia) Hr
                ltac:(unfold uiomove_fuel; lia)) as H.
  change (slice buf 0 n) with (take (Z.to_nat n) buf) in H.
  destruct (steps _ s) as [[d s']|] eqn:E; [|done]. rewrite H. unfold splice. cbn.
  apply steps_length in E. rewrite length_take in E. unfold zlength in Hn.
  by replace (length d) with (Z.to_nat n) by lia.
Qed.

(** *** Zeros *)

Lemma take_replicate_16 n : (n <= 16)%nat -> take n (replicate 16 0) = replicate n 0.
Proof. intros. rewrite take_replicate. f_equal. lia. Qed.

Definition zeros_failed (s : xfer) (o : outcome (Z * xfer)) : Prop :=
  uio_segflg (xu s) <> UIO_SYSSPACE /\
  exists s', o = Ret (EFAULT, s') /\ uio_wf (xu s') /\ same_kind (xu s) (xu s') /\
    uio_offset (xu s) <= uio_offset (xu s') /\
    uio_offset (xu s') + uio_resid (xu s') = uio_offset (xu s) + uio_resid (xu s).

Lemma zeros_loop_spec fuel curas n s :
  uio_wf (xu s) -> 0 <= n < Z.of_nat fuel -> n <= uio_resid (xu s) ->
  uio_space (xu s) = (match uio_segflg (xu s) with UIO_SYSSPACE => 0 | _ => curas end) ->
  match steps (replicate (Z.to_nat n) 0) s with
  | Some (_, s') => zeros_loop fuel curas n s = Ret (0, s')
  | None => zeros_failed s (zeros_loop fuel curas n s)
  end.
Proof.
  revert n s. induction fuel as [|fuel IH]; intros n s Hw Hn Hr Hsp; [lia|].
  cbn [zeros_loop]. destruct (Z.ltb_spec 0 n).
  2: { by replace n with 0 by lia. }
  set (amt := if n <? 16 then n else 16).
  assert (0 < amt <= 16 /\ amt <= n) as [Ha Han] by (unfold amt; destruct (Z.ltb_spec n 16); lia).
  assert (replicate (Z.to_nat n) 0 = replicate (Z.to_nat amt) 0 ++ replicate (Z.to_nat (n - amt)) 0)
    as -> by (rewrite <- replicate_add; f_equal; lia).
  rewrite steps_app.
  pose proof (uiomove_spec curas (replicate 16 0) amt s Hw) as Hu.
  rewrite take_replicate_16 in Hu by lia. clearbody amt.
  specialize (Hu ltac:(unfold zlength; cbn; lia) ltac:(lia) Hsp).
  destruct (steps (replicate (Z.to_nat amt) 0) s) as [[d1 s1]|] eqn:E1.
  2: { destruct Hu as (H1 & b' & s' & Ho & _ & Hu'). rewrite (bind_ok _ _ _ _ _ Ho). cbn.
       split; [done|]. by exists s'. }
  rewrite (bind_ok _ _ _ _ _ Hu). cbn [Z.eqb negb].
  destruct (steps_wf (replicate (Z.to_nat amt) 0) s d1 s1 Hw
              ltac:(unfold zlength; rewrite length_replicate; lia) E1)
    as (W1 & K1 & R1 & O1). unfold zlength in R1, O1. rewrite length_replicate in R1, O1.
  pose proof K1 as (K1a & K1b & K1c).
  specialize (IH (n - amt) s1 W1 ltac:(lia) ltac:(lia) ltac:(rewrite K1c, K1b; done)).
  destruct (steps (replicate (Z.to_nat (n - amt)) 0) s1) as [[d2 s2]|]; [done|].
  destruct IH as (H1 & s' & Ho & H2 & (H3 & H4 & H5) & H6 & H7). split; [congruence|].
  exists s'. split_and!; try done; try lia. split_and!; congruence.
Qed.

Lemma uiomovezeros_spec curas n s :
  uio_wf (xu s) -> 0 <= n <= uio_resid (xu s) -> uio_rw (xu s) = UIO_READ ->
  uio_space (xu s) = (match uio_segflg (xu s) with UIO_SYSSPACE => 0 | _ => curas end) ->
  match steps (replicate (Z.to_nat n) 0) s with
  | Some (_, s') => uiomovezeros curas n s = Ret (0, s')
  | None => zeros_failed s (uiomovezeros curas n s)
  end.
Proof.
  intros Hw Hn Hrw Hsp. unfold uiomovezeros. mrun. rewrite Hrw. mrun.
  by apply zeros_loop_spec; try lia.
Qed.

(** For a read the bytes that move are those of the buffer. *)
Lemma steps_read l s d s' :
  uio_rw (xu s) = UIO_READ -> steps l s = Some (d, s') -> d = l.
Proof.
  revert s d. induction l as [|b l IH]; intros s d Hrw; cbn [steps]; [by intros [= <- _]|].
  destruct (step1 b s) as [[y s1]|] eqn:E1; [|done].
  destruct (steps l s1) as [[d1 s2]|] eqn:E2; [|done]. intros [= <- <-].
  unfold step1 in E1. destruct (skip_empty _) as [[iov rest]|]; [|done].
  assert (uio_rw (xu s1) = UIO_READ /\ y = b) as [Hrw1 ->].
  { rewrite Hrw in E1. destruct (uio_segflg (xu s)).
    3: { destruct (iov_kbase iov); [done|]. by injection E1 as <- <-. }
    all: destruct (if _ <? _ then _ else _); [|done]; by injection E1 as <- <-. }
  f_equal. by eapply IH.
Qed.

(** For a write the bytes of the buffer do not matter, only how many. *)
Lemma steps_write l l' s :
  uio_rw (xu s) = UIO_WRITE -> length l = length l' -> steps l s = steps l' s.
Proof.
  revert l' s. induction l as [|b l IH]; intros [|b' l'] s Hrw Hl; try done.
  cbn [steps]. assert (step1 b s = step1 b' s) as -> by (unfold step1; by rewrite Hrw).
  destruct (step1 b' s) as [[y s1]|] eqn:E1; [|done].
  rewrite (IH l' s1); [done| |by injection Hl].
  unfold step1 in E1. destruct (skip_empty _) as [[iov rest]|]; [|done]. rewrite Hrw in E1.
  destruct (uio_segflg (xu s)).
  3: { destruct (iov_kbase iov); [done|]. by injection E1 as <- <-. }
  all: destruct (if _ <? _ then _ else _); [|done]; by injection E1 as <- <-.
Qed.

(** A transfer to or from one kernel buffer. *)
Lemma steps_kinit l k pos rw um :
  length k = length l -> l <> [] ->
  exists u', steps l (mk_xfer (uio_kinit k (zlength l) pos rw) um)
    = Some (match rw with UIO_READ => l | UIO_WRITE => k end, mk_xfer u' um) /\
    uio_done u' = match rw with UIO_READ => l | UIO_WRITE => k end /\ uio_resid u' = 0 /\
    uio_offset u' = pos + zlength l /\ (exists i, uio_iov u' = [i] /\ iov_kbase i = []).
Proof.
  intros Hk Hne. eexists. split.
  - rewrite (steps_kernel l (uio_kinit k (zlength l) pos rw) um (mk_iovec 0 k (zlength l)) []);
      try done; cbn; [|unfold zlength; lia].
    unfold moved. cbn. rewrite (take_ge k) by lia. reflexivity.
  - cbn. rewrite Z.sub_diag. split_and!; [done..|]. eexists. split; [done|].
    cbn. apply drop_ge. lia.
Qed.

(** ** Confinement of the copy functions *)

(** The part of memory that a user program may name. *)
Definition user_part (um : umem) : umem := filter (fun p => p.1 < USERSPACETOP) um.

Lemma user_part_lookup um x : x < USERSPACETOP -> user_part um !! x = um !! x.
Proof.
  intros Hx. unfold user_part. destruct (um !! x) as [b|] eqn:E.
  - by apply map_lookup_filter_Some.
  - apply map_lookup_filter_None. by left.
Qed.

(** What the check lets through lies in user space. *)
Lemma copycheck_bound a n : is_u32 a -> 0 <= n < two32 -> (copycheck a n).1 = 0 ->
  a + Z.min n (copycheck a n).2 <= USERSPACETOP.
Proof.
  unfold copycheck, is_u32, USERSPACETOP, MIPS_KSEG0. intros Ha Hn.
  assert (w32 (a + n - 1) = a + n - 1 \/ w32 (a + n - 1) = a + n - 1 - two32 \/
          w32 (a + n - 1) = a + n - 1 + two32)
    as Hw by (unfold w32, two32 in *; Z.to_euclidean_division_equations; lia).
  unfold two32 in *.
  destruct (Z.ltb_spec (w32 (a + n - 1)) a); cbn; [done|].
  destruct (Z.leb_spec 2147483648 a); cbn; [done|].
  destruct (Z.leb_spec 2147483648 (w32 (a + n - 1))); cbn; lia.
Qed.

Lemma read_run_part um a n :
  a + Z.of_nat n <= USERSPACETOP -> read_run (user_part um) a n = read_run um a n.
Proof.
  revert a. induction n as [|n IH]; intros a Ha; [done|]. cbn.
  rewrite user_part_lookup by lia. destruct (um !! a); [|done]. f_equal. apply IH. lia.
Qed.

Lemma write_run_out um a l x : x < a \/ a + zlength l <= x -> (write_run um a l).1 !! x = um !! x.
Proof.
  revert um a. induction l as [|b l IH]; intros um a Hx; [done|]. unfold zlength in *. cbn in *.
  destruct (um !! a); [|done]. rewrite IH by (cbn; lia). apply lookup_insert_ne. lia.
Qed.

Lemma copystr_loop_ext fuel i src src' can can' dest :
  (forall j, i <= j < i + Z.of_nat fuel -> src j = src' j /\ can j = can' j) ->
  copystr_loop fuel i src can dest = copystr_loop fuel i src' can' dest.
Proof.
  revert i dest. induction fuel as [|fuel IH]; intros i dest H; [done|]. cbn.
  destruct (H i) as [-> ->]; [lia|]. destruct (src' i); [|done]. destruct (can' i); [|done].
  destruct (_ =? 0); [done|]. apply IH. intros j Hj. apply H. lia.
Qed.

Lemma copystr_loop_length fuel i src can dest :
  (length (copystr_loop fuel i src can dest).2 <= length dest + fuel)%nat.
Proof.
  revert i dest. induction fuel as [|fuel IH]; intros i dest; cbn; [lia|].
  destruct (src i); cbn; [|lia]. destruct (can i); cbn; [|lia].
  destruct (_ =? 0); cbn; [rewrite length_app; cbn; lia|].
  etransitivity; [apply IH|]. rewrite length_app. cbn. lia.
Qed.

(** A copy of no bytes is refused: its last address is taken to be the one
    before the region. *)
Lemma empty_copy_faults um src a :
  is_u32 a -> (copyin um a 0).1 = EFAULT /\ (copyout um src a 0).1 = EFAULT.
Proof.
  intros Ha. unfold copyin, copyout, copycheck, is_u32, USERSPACETOP, MIPS_KSEG0 in *.
  rewrite Z.add_0_r. destruct (Z.eq_dec a 0) as [->|]; [done|].
  rewrite w32_id by (unfold is_u32; lia). destruct (Z.ltb_spec (a - 1) a); [done|lia].
Qed.

(** The copy functions are confined to user space and to the region they
    are given: what [copyin] and [copyinstr] return depends only on memory below
    [USERSPACETOP], and [copyout] and [copyoutstr] change no byte at or above
    it and none outside of the region, whatever address a user program passes. *)
Theorem copies_confined um src a n :
  is_u32 a -> 0 <= n < two32 -> n <= zlength src ->
  copyin (user_part um) a n = copyin um a n /\
  copyinstr (user_part um) a n = copyinstr um a n /\
  (forall x, USERSPACETOP <= x \/ x < a \/ a + n <= x ->
     (copyout um src a n).2 !! x = um !! x /\ (copyoutstr um src a n).2 !! x = um !! x).
Proof.
  intros Ha Hn Hs. pose proof (copycheck_bound a n Ha Hn) as Hb.
  unfold copyin, copyinstr, copyout, copyoutstr, copystr.
  destruct (copycheck a n) as [r sl]. cbn [fst snd] in Hb. split_and!.
  - destruct (Z.eqb_spec r 0); [|done]. destruct (Z.eqb_spec sl n); [|done]. cbn.
    by rewrite read_run_part by lia.
  - destruct (Z.eqb_spec r 0); [|done]. cbn.
    rewrite (copystr_loop_ext _ _ _ (fun i => um !! (a + i)) _ (fun _ => true)); [done|].
    intros j Hj. split; [|done]. apply user_part_lookup. lia.
  - intros x Hx. destruct (Z.eqb_spec r 0); [|done]. cbn. split.
    + destruct (Z.eqb_spec sl n); [|done]. cbn.
      destruct (write_run _ _ _) as [um' all] eqn:E.
      assert (um' !! x = um !! x) as Hm.
      { pose proof (write_run_out um a (take (Z.to_nat n) src) x) as Hw. rewrite E in Hw.
        apply Hw. unfold zlength in *. rewrite length_take. lia. }
      by destruct all.
    + pose proof (copystr_loop_length (Z.to_nat (Z.min n sl)) 0 (fun i => src !! Z.to_nat i)
        (fun i => bool_decide (is_Some (um !! (a + i)))) []) as Hl.
      destruct (copystr_loop _ _ _ _ _) as [c l]. cbn in Hl.
      assert ((write_run um a l).1 !! x = um !! x) as Hm
        by (apply write_run_out; unfold zlength; lia).
      destruct c; [done| |done]. by destruct (sl <? n).
Qed.

Lemma copies_confined_witness :
  let um := <[2147483647 := 7]> (<[2147483648 := 9]> ∅) : umem in
  copyout um [1; 2] 2147483647 2 = (EFAULT, um) /\
  (copyoutstr um [1; 2] 2147483647 2).2 !! 2147483648 = Some 9.
Proof.
  intros um. split; [by vm_compute|].
  destruct (copies_confined um [1; 2] 2147483647 2) as (_ & _ & H);
    [unfold is_u32, two32; lia|unfold two32; lia|done|].
  transitivity (um !! 2147483648); [|by vm_compute].
  apply H. left. unfold USERSPACETOP, MIPS_KSEG0. lia.
Defined.


