(* ===== verification/Exec.v ===== *)
(** * Starting programs

    The loader of executables (kern/syscall/loadelf.c), [runprogram]
    (kern/syscall/runprogram.c) and the system call execv
    (kern/syscall/proc_syscalls.c).  The address spaces and the files that they
    work on are behind the interface [Images]; transfers to and from user memory
    are those of [Uio]. *)

From stdpp Require Import base numbers list gmap.
From Stdlib Require Import ZArith Lia.
From S2P Require Import Prelude Heap Uio.

(** ** Executable files (kern/include/elf.h) *)

Definition sizeof_Ehdr : Z := 52.
Definition sizeof_Phdr : Z := 32.

(** [Elf32_Ehdr] and [Elf32_Phdr]: the bytes themselves. *)
Definition e_ident (eh : list Z) (i : Z) : Z := nth (Z.to_nat i) eh 0.
Definition e_type (eh : list Z) : Z := rd16 eh 16.
Definition e_machine (eh : list Z) : Z := rd16 eh 18.
Definition e_version (eh : list Z) : Z := rd32 eh 20.
Definition e_entry (eh : list Z) : Z := rd32 eh 24.
Definition e_phoff (eh : list Z) : Z := rd32 eh 28.
Definition e_phentsize (eh : list Z) : Z := rd16 eh 42.
Definition e_phnum (eh : list Z) : Z := rd16 eh 44.

Definition p_type (ph : list Z) : Z := rd32 ph 0.
Definition p_offset (ph : list Z) : Z := rd32 ph 4.
Definition p_vaddr (ph : list Z) : Z := rd32 ph 8.
Definition p_filesz (ph : list Z) : Z := rd32 ph 16.
Definition p_memsz (ph : list Z) : Z := rd32 ph 20.
Definition p_flags (ph : list Z) : Z := rd32 ph 24.

Definition ELFCLASS32 : Z := 1.
Definition ELFDATA2MSB : Z := 2.
Definition EV_CURRENT : Z := 1.
Definition ET_EXEC : Z := 2.
Definition EM_MACHINE : Z := 8.
Definition PT_NULL : Z := 0.
Definition PT_LOAD : Z := 1.
Definition PT_PHDR : Z := 6.
Definition PT_MIPS_REGINFO : Z := 1879048192.
Definition PF_R : Z := 4.
Definition PF_W : Z := 2.
Definition PF_X : Z := 1.

Definition header_ok (eh : list Z) : bool :=
  (e_ident eh 0 =? 127) && (e_ident eh 1 =? 69) && (e_ident eh 2 =? 76) && (e_ident eh 3 =? 70) &&
  (e_ident eh 4 =? ELFCLASS32) && (e_ident eh 5 =? ELFDATA2MSB) && (e_ident eh 6 =? EV_CURRENT) &&
  (e_version eh =? EV_CURRENT) && (e_type eh =? ET_EXEC) && (e_machine eh =? EM_MACHINE).

(** The [switch] on the type of a segment. *)
Inductive seg_kind := Skip | Load | Unknown.
Definition segment_kind (ph : list Z) : seg_kind :=
  if (p_type ph =? PT_NULL) || (p_type ph =? PT_PHDR) || (p_type ph =? PT_MIPS_REGINFO) then Skip
  else if p_type ph =? PT_LOAD then Load else Unknown.

Definition has (flags bit : Z) : bool := negb (Z.land flags bit =? 0).

(** The place of a segment header, in the arithmetic of [uint32_t]. *)
Definition phdr_offset (eh : list Z) (i : Z) : Z := w32 (e_phoff eh + i * e_phentsize eh).

(** ** Address spaces and files *)

(** [W] is the state of the address spaces and the files.  A null address space or
    vnode is 0.  [user_mem] are the bytes of an address space, [kernel_mem] those of
    the kernel that a wild pointer may reach. *)
Class Images (W : Type) := {
  as_create : W -> Z * W;
  as_define_region (a vaddr sz : Z) (r w x : bool) : W -> Z * W;
  as_prepare_load : Z -> W -> Z * W;
  as_complete_load : Z -> W -> Z * W;
  as_loaded : Z -> W -> W;
  as_define_stack : Z -> W -> Z * Z * W;
  stack_size : Z;
  as_destroy : Z -> W -> W;
  user_mem : Z -> W -> umem;
  store_mem : Z -> umem -> W -> W;
  kernel_mem : W -> umem;
  vfs_open : list Z -> W -> Z * Z * W;
  vfs_close : Z -> W -> W;
  contents : Z -> W -> list Z;
  regions : Z -> W -> list (Z * Z * (bool * bool * bool));
  vop_read : Z -> xfer -> W -> Z * xfer * W;

  contents_bytes v w : Forall (fun b => 0 <= b < 256) (contents v w);
  mem_store a m w : user_mem a (store_mem a m w) = m;
  contents_store v a m w : contents v (store_mem a m w) = contents v w;
  (* "Read data from file to uio, at offset specified in the uio, updating
     uio_resid to reflect the amount read" *)
  vop_read_moves v x w x' w' : vop_read v x w = (0, x', w') ->
    exists d, steps (slice (contents v w) (uio_offset (xu x)) (uio_resid (xu x))) x = Some (d, x');
  vop_read_keeps v x w a : user_mem a (vop_read v x w).2 = user_mem a w;
  vop_read_file v x w : contents v (vop_read v x w).2 = contents v w;
  (* "set up a region of memory within the address space" *)
  define_region a va sz r w x W W' : as_define_region a va sz r w x W = (0, W') ->
    regions a W' = regions a W ++ [((va, sz), (r, w, x))];
  regions_store a m w : regions a (store_mem a m w) = regions a w;
  regions_read a v x w : regions a (vop_read v x w).2 = regions a w;
  regions_prepare a w : regions a (as_prepare_load a w).2 = regions a w;
  regions_complete a w : regions a (as_complete_load a w).2 = regions a w;
  regions_loaded a w : regions a (as_loaded a w) = regions a w;
  (* the address space does not touch the file *)
  define_file v a va sz r w x W : contents v (as_define_region a va sz r w x W).2 = contents v W;
  prepare_file v a w : contents v (as_prepare_load a w).2 = contents v w;
  create_file v w : contents v (as_create w).2 = contents v w;
  close_keeps a v w : user_mem a (vfs_close v w) = user_mem a w;
  (* "called when loading from an executable is complete" *)
  complete_keeps a w : user_mem a (as_complete_load a w).2 = user_mem a w;
  loaded_keeps a w : user_mem a (as_loaded a w) = user_mem a w;
  destroy_keeps a b w : a <> b -> user_mem a (as_destroy b w) = user_mem a w;
  (* "set up the stack region in the address space. Hands back the initial stack
     pointer for the new process" *)
  stack_size_pos : 0 <= stack_size < USERSPACETOP;
  stack_keeps a w : user_mem a (as_define_stack a w).2 = user_mem a w;
  stack_top a w : (as_define_stack a w).1.1 = 0 -> (as_define_stack a w).1.2 = USERSPACETOP;
  stack_mapped a w x : (as_define_stack a w).1.1 = 0 ->
    USERSPACETOP - stack_size <= x < USERSPACETOP -> is_Some (user_mem a w !! x)
}.

(** ** State *)

Section exec.
Context {W H : Type} `{!Images W} `{!KHeap H}.

(** The address space of the process, and the one whose translations the processor
    may hold. *)
Record est := mk_est { e_heap : H; e_world : W; e_cur : Z; e_active : Z }.

Definition set_eheap (s : est) x := mk_est x (e_world s) (e_cur s) (e_active s).
Definition set_eworld (s : est) x := mk_est (e_heap s) x (e_cur s) (e_active s).

Definition in_world {A} (f : W -> A * W) : M est A := fun s =>
  let '(a, w) := f (e_world s) in Ret (a, set_eworld s w).
Definition in_kheap {A} (c : M H A) : M est A := fun s =>
  match c (e_heap s) with
  | Ret (a, h) => Ret (a, set_eheap s h)
  | Panic => Panic | Fault => Fault | NoFuel => NoFuel
  end.

Definition curproc_getas : M est Z := gets e_cur.
(** Returns the old one. *)
Definition curproc_setas (a : Z) : M est Z :=
  let* s := get in
  do* put (mk_est (e_heap s) (e_world s) a (e_active s)) in
  ret (e_cur s).
(** Afterwards only translations of the current address space are there. *)
Definition as_activate : M est unit := modify (fun s => mk_est (e_heap s) (e_world s) (e_cur s) (e_cur s)).

(** An access to the memory of the current address space. *)
Definition on_user {A} (f : umem -> A * umem) : M est A := fun s =>
  let '(a, m) := f (user_mem (e_cur s) (e_world s)) in
  Ret (a, set_eworld s (store_mem (e_cur s) m (e_world s))).

(** ** loadelf.c *)

Definition VOP_READ (v : Z) (u : uio) : M est (Z * uio) := fun s =>
  let '(r, x, w) := vop_read v (mk_xfer u (user_mem (e_cur s) (e_world s))) (e_world s) in
  Ret ((r, xu x), set_eworld s (store_mem (e_cur s) (xm x) w)).

(** [len] bytes of the file at [offset] in a buffer of the kernel, or an error. *)
Definition read_struct (v len offset : Z) : M est (Z * list Z) :=
  let* r := VOP_READ v (uio_kinit (replicate (Z.to_nat len) 0) len offset UIO_READ) in
  if negb (r.1 =? 0) then ret (r.1, [])
  else if negb (uio_resid r.2 =? 0) then ret (ENOEXEC, [])
  else ret (0, uio_done r.2).

Definition load_segment (a v offset vaddr memsize filesize : Z) (is_executable : bool) : M est Z :=
  let filesize := if memsize <? filesize then memsize else filesize in
  let u := mk_uio [mk_iovec vaddr [] memsize] [] offset filesize
             (if is_executable then UIO_USERISPACE else UIO_USERSPACE) UIO_READ a in
  let* r := VOP_READ v u in
  if negb (r.1 =? 0) then ret r.1
  else if negb (uio_resid r.2 =? 0) then ret ENOEXEC
  else ret r.1.

(** The first loop over the segment headers. *)
Fixpoint define_loop (n : nat) (i a v : Z) (eh : list Z) : M est Z :=
  match n with
  | O => ret 0
  | S n =>
      let* r := read_struct v sizeof_Phdr (phdr_offset eh i) in
      if negb (r.1 =? 0) then ret r.1
      else
        let ph := r.2 in
        match segment_kind ph with
        | Skip => define_loop n (i + 1) a v eh
        | Unknown => ret ENOEXEC
        | Load =>
            let* result := in_world (as_define_region a (p_vaddr ph) (p_memsz ph)
              (has (p_flags ph) PF_R) (has (p_flags ph) PF_W) (has (p_flags ph) PF_X)) in
            if negb (result =? 0) then ret result else define_loop n (i + 1) a v eh
        end
  end.

(** The second one. *)
Fixpoint load_loop (n : nat) (i a v : Z) (eh : list Z) : M est Z :=
  match n with
  | O => ret 0
  | S n =>
      let* r := read_struct v sizeof_Phdr (phdr_offset eh i) in
      if negb (r.1 =? 0) then ret r.1
      else
        let ph := r.2 in
        match segment_kind ph with
        | Skip => load_loop n (i + 1) a v eh
        | Unknown => ret ENOEXEC
        | Load =>
            let* result := load_segment a v (p_offset ph) (p_vaddr ph) (p_memsz ph) (p_filesz ph) (has (p_flags ph) PF_X) in
            if negb (result =? 0) then ret result else load_loop n (i + 1) a v eh
        end
  end.

(** The result and [*entrypoint]. *)
Definition load_elf (v : Z) : M est (Z * Z) :=
  let* a := curproc_getas in
  let* r := read_struct v sizeof_Ehdr 0 in
  if negb (r.1 =? 0) then ret (r.1, 0)
  else
    let eh := r.2 in
    if negb (header_ok eh) then ret (ENOEXEC, 0)
    else
      let* result := define_loop (Z.to_nat (e_phnum eh)) 0 a v eh in
      if negb (result =? 0) then ret (result, 0)
      else
        let* result := in_world (as_prepare_load a) in
        if negb (result =? 0) then ret (result, 0)
        else
          let* result := load_loop (Z.to_nat (e_phnum eh)) 0 a v eh in
          if negb (result =? 0) then ret (result, 0)
          else
            let* result := in_world (as_complete_load a) in
            if negb (result =? 0) then ret (result, 0)
            else
              do* in_world (fun w => (tt, as_loaded a w)) in
              do* as_activate in
              ret (0, e_entry eh).

(** ** Arguments *)

(** The strings, the last one first; [strAddr] from the string at hand on. *)
Fixpoint push_strings (args : list (list Z)) (stackptr : Z) (strAddr : list Z) : M est (Z * Z * list Z) :=
  match args with
  | [] => ret (0, stackptr, strAddr)
  | arg :: args =>
      let len := zlength arg + 1 in
      let stackptr := w32 (stackptr - ROUNDUP len 8) in
      let* r := on_user (fun m => let '(r, _, m) := copyoutstr m (arg ++ [0]) stackptr len in (r, m)) in
      if negb (r =? 0) then ret (r, stackptr, stackptr :: strAddr)
      else push_strings args stackptr (stackptr :: strAddr)
  end.

(** The pointers, the last one first.  What [copyout] returns is not looked at. *)
Fixpoint push_pointers (ptrs : list Z) (stackptr : Z) : M est Z :=
  match ptrs with
  | [] => ret stackptr
  | p :: ptrs =>
      let stackptr := w32 (stackptr - ROUNDUP 4 4) in
      do* on_user (fun m => copyout m (be32 p) stackptr (ROUNDUP 4 4)) in
      push_pointers ptrs stackptr
  end.

Definition argumentPassing (argv : list (list Z)) (stackptr : Z) : M est (Z * Z) :=
  let* r := push_strings (reverse argv) stackptr [0] in
  let '(result, stackptr, strAddr) := r in
  if negb (result =? 0) then ret (result, stackptr)
  else
    let* stackptr := push_pointers (reverse strAddr) stackptr in
    ret (0, stackptr).

(** How a call ends: with an error number, or in user mode with these registers. *)
Inductive exec_end := Returned (errno : Z) | Entered (argc argv stackptr entrypoint : Z).

(** ** runprogram.c *)

Definition runprogram (progname : list Z) (argv : list (list Z)) : M est exec_end :=
  let* o := in_world (vfs_open progname) in
  let '(result, v) := o in
  if negb (result =? 0) then ret (Returned result)
  else
    let* a := curproc_getas in
    do* kassert (a =? 0) in
    let* a := in_world as_create in
    if a =? 0 then do* in_world (fun w => (tt, vfs_close v w)) in ret (Returned ENOMEM)
    else
      do* curproc_setas a in
      do* as_activate in
      let* r := load_elf v in
      do* in_world (fun w => (tt, vfs_close v w)) in
      if negb (r.1 =? 0) then ret (Returned r.1)
      else
        let* t := in_world (as_define_stack a) in
        if negb (t.1 =? 0) then ret (Returned t.1)
        else
          let* p := argumentPassing argv t.2 in
          if negb (p.1 =? 0) then ret (Returned p.1)
          else ret (Entered (zlength argv) p.2 p.2 r.2).

(** ** execv (proc_syscalls.c) *)

(** A byte that the kernel loads through a pointer of the process, without
    [copyin]: an address that is not mapped is a trap in the kernel. *)
Definition peek (p : Z) : M est Z :=
  let* s := get in
  match (if p <? USERSPACETOP then user_mem (e_cur s) (e_world s) else kernel_mem (e_world s)) !! p with
  | Some b => ret b
  | None => panic
  end.

(** A word, which must be aligned. *)
Definition peek_word (p : Z) : M est Z :=
  if negb (p mod 4 =? 0) then panic
  else
    let* b0 := peek p in
    let* b1 := peek (p + 1) in
    let* b2 := peek (p + 2) in
    let* b3 := peek (p + 3) in
    ret (rd32 [b0; b1; b2; b3] 0).

(** More than the addresses that are mapped. *)
Definition reach (s : est) : nat := S (size (user_mem (e_cur s) (e_world s)) + size (kernel_mem (e_world s))).

Fixpoint string_loop (fuel : nat) (p : Z) : M est (list Z) :=
  match fuel with
  | O => fun _ => NoFuel
  | S fuel =>
      let* b := peek p in
      if b =? 0 then ret []
      else let* l := string_loop fuel (w32 (p + 1)) in ret (b :: l)
  end.

(** The string at a pointer of the process, and its length. *)
Definition string_at (p : Z) : M est (list Z) := let* s := get in string_loop (reach s) p.
Definition ustrlen (p : Z) : M est Z := let* l := string_at p in ret (zlength l).

(** [args[i]] *)
Definition arg_ptr (args i : Z) : M est Z := peek_word (w32 (args + 4 * i)).

Fixpoint count_loop (fuel : nat) (args argc : Z) : M est Z :=
  match fuel with
  | O => fun _ => NoFuel
  | S fuel =>
      let* p := arg_ptr args argc in
      if p =? 0 then ret argc else count_loop fuel args (argc + 1)
  end.

Definition copyinstr_from (p len : Z) : M est (Z * list Z) :=
  let* s := get in
  let '(r, _, l) := copyinstr (user_mem (e_cur s) (e_world s)) p len in
  ret (r, l).

(** A string of the kernel: what is before the first zero. *)
Fixpoint c_string (l : list Z) : list Z :=
  match l with
  | [] => []
  | b :: l => if b =? 0 then [] else b :: c_string l
  end.

(** The result, and the copies [argv[i]]. *)
Fixpoint copy_args (n : nat) (i args : Z) : M est (Z * list (list Z)) :=
  match n with
  | O => ret (0, [])
  | S n =>
      let* p := arg_ptr args i in
      let* len := ustrlen p in
      let* buf := in_kheap (kmalloc (len + 1)) in
      if buf =? 0 then ret (ENOMEM, [])
      else
        let* p := arg_ptr args i in
        let* len := ustrlen p in
        let* c := copyinstr_from p (len + 1) in
        if negb (c.1 =? 0) then ret (c.1, [])
        else
          let* r := copy_args n (i + 1) args in
          ret (r.1, c_string c.2 :: r.2)
  end.

(** From the address space on; [v] is the program. *)
Definition exec_image (v : Z) (argv : list (list Z)) : M est exec_end :=
  let* a := in_world as_create in
  if a =? 0 then do* in_world (fun w => (tt, vfs_close v w)) in ret (Returned ENOMEM)
  else
    let* oldAddrSpc := curproc_setas a in
    do* as_activate in
    let* r := load_elf v in
    if negb (r.1 =? 0) then
      do* curproc_setas oldAddrSpc in
      do* in_world (fun w => (tt, vfs_close v w)) in
      ret (Returned r.1)
    else
      do* in_world (fun w => (tt, vfs_close v w)) in
      let* t := in_world (as_define_stack a) in
      if negb (t.1 =? 0) then do* curproc_setas oldAddrSpc in ret (Returned t.1)
      else
        let* p := argumentPassing argv t.2 in
        if negb (p.1 =? 0) then ret (Returned p.1)
        else
          do* in_world (fun w => (tt, as_destroy oldAddrSpc w)) in
          ret (Entered (zlength argv) p.2 p.2 r.2).

(** From the call of [vfs_open] on. *)
Definition exec_program (progname : Z) (argv : list (list Z)) : M est exec_end :=
  let* path := string_at progname in
  let* o := in_world (vfs_open path) in
  let '(result, v) := o in
  if negb (result =? 0) then ret (Returned result) else exec_image v argv.

(** [junk] is what [result] holds before it is set. *)
Definition sys_execv (junk progname args : Z) : M est exec_end :=
  if (progname =? 0) || (args =? 0) then ret (Returned EFAULT)
  else
    let* s := get in
    let* argc := count_loop (reach s) args 0 in
    let* len := ustrlen progname in
    let* addr_name := in_kheap (kmalloc (len + 1)) in
    let* argv := in_kheap (kmalloc (4 * (argc + 1))) in
    if (addr_name =? 0) || (argv =? 0) then ret (Returned ENOMEM)
    else
      let* len := ustrlen progname in
      let* c := copyinstr_from progname (len + 1) in
      if negb (c.1 =? 0) then ret (Returned junk)
      else
        let* r := copy_args (Z.to_nat argc) 0 args in
        if negb (r.1 =? 0) then ret (Returned r.1)
        else exec_program progname r.2.
End exec.

Arguments est : clear implicits.
