(* ===== verification/ExecSpec.v ===== *)
(** * Theorems on starting programs

    That the arguments of a program arrive as they were given, that a loaded
    program is the image that its file describes, and what execv leaves when it
    fails. *)

From stdpp Require Import base numbers list gmap.
From Stdlib Require Import ZArith Lia.
From S2P Require Import Prelude Heap Uio Exec.

(** ** User memory *)

Implicit Types m : umem.

Definition mapped m (lo hi : Z) : Prop := forall x, lo <= x < hi -> is_Some (m !! x).

(** [m'] is [m] with other bytes between [lo] and [hi]. *)
Definition changed m m' (lo hi : Z) : Prop :=
  (forall x, x < lo \/ hi <= x -> m' !! x = m !! x) /\ (forall x, is_Some (m !! x) -> is_Some (m' !! x)).

Lemma changed_refl m lo hi : changed m m lo hi.
Proof. done. Qed.

Lemma changed_trans m1 m2 m3 lo mid hi :
  lo <= mid <= hi -> changed m1 m2 mid hi -> changed m2 m3 lo mid -> changed m1 m3 lo hi.
Proof.
  intros Hl [H1 H2] [H3 H4]. split; [|by auto]. intros x Hx. rewrite H3 by lia. apply H1. lia.
Qed.

Lemma changed_mapped m m' lo hi a b : changed m m' lo hi -> mapped m a b -> mapped m' a b.
Proof. intros [_ H2] Hm x Hx. auto. Qed.

Definition bytes_at m (p : Z) (l : list Z) : Prop := forall i b, l !! i = Some b -> m !! (p + Z.of_nat i) = Some b.

Lemma bytes_changed m m' lo hi p l :
  changed m m' lo hi -> p + zlength l <= lo \/ hi <= p -> bytes_at m p l -> bytes_at m' p l.
Proof.
  intros [H1 _] Hp Hb i b Hi. rewrite H1; [by apply Hb|]. apply lookup_lt_Some in Hi. unfold zlength in *. lia.
Qed.

Lemma write_run_full m p l :
  mapped m p (p + zlength l) -> (write_run m p l).2 = true /\ bytes_at (write_run m p l).1 p l /\
    changed m (write_run m p l).1 p (p + zlength l).
Proof.
  revert m p. induction l as [|b l IH]; intros m p Hm; cbn; [done|]. rewrite zlength_cons in Hm.
  pose proof (zlength_nonneg l). destruct (Hm p) as [x Ex]; [lia|]. rewrite Ex.
  assert (Hm' : mapped (<[p := b]> m) (p + 1) (p + 1 + zlength l)).
  { intros y Hy. rewrite lookup_insert_ne by lia. apply Hm. lia. }
  destruct (IH (<[p := b]> m) (p + 1) Hm') as (E & Hb & Hc). split_and!; [done| |].
  - intros [|i] c Hi.
    + injection Hi as <-. rewrite Z.add_0_r, (proj1 Hc) by lia. by rewrite lookup_insert_eq.
    + replace (p + Z.of_nat (S i)) with (p + 1 + Z.of_nat i) by lia. by apply Hb.
  - rewrite zlength_cons. replace (p + (zlength l + 1)) with (p + 1 + zlength l) by lia. split.
    + intros y Hy. rewrite (proj1 Hc) by lia. apply lookup_insert_ne. lia.
    + intros y Hy. apply (proj2 Hc). destruct (decide (p = y)) as [->|]; [rewrite lookup_insert_eq; eauto|].
      by rewrite lookup_insert_ne.
Qed.

(** A string without zeros, with its terminator. *)
Definition no_zero (l : list Z) : Prop := Forall (fun b => b <> 0) l.
Definition user_string m (p : Z) (l : list Z) : Prop :=
  0 <= p /\ p + zlength l + 1 <= USERSPACETOP /\ no_zero l /\ bytes_at m p (l ++ [0]).
Definition user_word m (p x : Z) : Prop := p mod 4 = 0 /\ 0 <= p /\ p + 4 <= USERSPACETOP /\ bytes_at m p (be32 x).

(** The array of arguments that a program sees at [p]. *)
Definition user_args m (p : Z) (argv : list (list Z)) : Prop :=
  exists ptrs, length ptrs = length argv /\
    (forall i q, (ptrs ++ [0]) !! i = Some q -> user_word m (p + 4 * Z.of_nat i) q) /\
    (forall i q l, ptrs !! i = Some q -> argv !! i = Some l -> 0 < q < USERSPACETOP /\ user_string m q l).

(** ** Copying out *)

Lemma copystr_loop_string l can dest fuel i (src : Z -> option Z) :
  no_zero l -> (forall j b, (l ++ [0]) !! j = Some b -> src (i + Z.of_nat j) = Some b /\ can (i + Z.of_nat j) = true) ->
  (length l < fuel)%nat ->
  copystr_loop fuel i src can dest = (Got (i + zlength l + 1), dest ++ l ++ [0]).
Proof.
  revert i dest fuel. induction l as [|b l IH]; intros i dest [|fuel] Hz Hs Hf; cbn in Hf; try lia; cbn [copystr_loop].
  - destruct (Hs 0%nat 0 eq_refl) as [E1 E2]. rewrite Z.add_0_r in E1, E2. rewrite E1, E2. cbn [Z.eqb app].
    change (zlength []) with 0. do 2 f_equal. lia.
  - destruct (Hs 0%nat b eq_refl) as [E1 E2]. rewrite Z.add_0_r in E1, E2. rewrite E1, E2.
    apply list.Forall_cons in Hz as [Hb Hz]. rewrite (proj2 (Z.eqb_neq b 0)) by done.
    rewrite IH; [|done| |lia].
    + rewrite zlength_cons, <- (assoc_L (++)). cbn [app]. do 2 f_equal. lia.
    + intros j c Hj. replace (i + 1 + Z.of_nat j) with (i + Z.of_nat (S j)) by lia. by apply Hs.
Qed.

Lemma copycheck_in p n : 0 <= p -> 0 < n -> p + n <= USERSPACETOP -> copycheck p n = (0, n).
Proof.
  unfold USERSPACETOP. change Coremap.MIPS_KSEG0 with 2147483648. intros H1 H2 H3. unfold copycheck, USERSPACETOP.
  change Coremap.MIPS_KSEG0 with 2147483648. rewrite w32_id by (unfold is_u32, two32; lia).
  rewrite (proj2 (Z.ltb_ge _ _)), (proj2 (Z.leb_gt 2147483648 p)), (proj2 (Z.leb_gt 2147483648 (p + n - 1))) by lia. done.
Qed.

Lemma copyoutstr_ok m p l :
  0 <= p -> p + zlength l + 1 <= USERSPACETOP -> no_zero l -> mapped m p (p + zlength l + 1) ->
  exists m', copyoutstr m (l ++ [0]) p (zlength l + 1) = (0, Some (zlength l + 1), m') /\ user_string m' p l /\
    changed m m' p (p + zlength l + 1).
Proof.
  intros H0 H1 Hz Hm. pose proof (zlength_nonneg l). unfold copyoutstr. rewrite copycheck_in by lia. cbn [Z.eqb negb].
  unfold copystr. rewrite Z.min_id.
  rewrite (copystr_loop_string l); [|done| |unfold zlength; lia].
  - destruct (write_run_full m p (l ++ [0])) as (_ & Hb & Hc); [by rewrite zlength_snoc, Z.add_assoc|].
    rewrite zlength_snoc, Z.add_assoc in Hc. eexists. split; [done|]. done.
  - intros j b Hj. rewrite !Z.add_0_l. rewrite Nat2Z.id. split; [done|]. apply bool_decide_eq_true, Hm.
    apply lookup_lt_Some in Hj. rewrite length_app in Hj. cbn in Hj. unfold zlength. lia.
Qed.

Lemma copyout_word m p x :
  p mod 4 = 0 -> 0 <= p -> p + 4 <= USERSPACETOP -> mapped m p (p + 4) ->
  exists m', copyout m (be32 x) p 4 = (0, m') /\ user_word m' p x /\ changed m m' p (p + 4).
Proof.
  intros Ha H0 H1 Hm. unfold copyout. rewrite copycheck_in by lia. cbn [Z.eqb negb Pos.eqb].
  change (take (Z.to_nat 4) (be32 x)) with (be32 x).
  destruct (write_run_full m p (be32 x) Hm) as (E & Hb & Hc). destruct (write_run m p (be32 x)) as [m' all].
  cbn in *. subst all. exists m'. split; [done|]. done.
Qed.

(** ** Passing arguments *)

Section spec.
Context {W H : Type} `{!Images W} `{!KHeap H}.
Implicit Types s : est W H.

Definition cur_mem s : umem := user_mem (e_cur s) (e_world s).

(** Only the memory of the current address space has changed. *)
Definition with_mem s m' s' : Prop :=
  e_heap s' = e_heap s /\ e_cur s' = e_cur s /\ e_active s' = e_active s /\ cur_mem s' = m'.

Lemma with_mem_trans s1 s2 s3 m2 m3 : with_mem s1 m2 s2 -> with_mem s2 m3 s3 -> with_mem s1 m3 s3.
Proof. intros (H1 & H2 & H3 & _) (H4 & H5 & H6 & H7). split_and!; congruence. Qed.

Lemma on_user_run {A} (f : umem -> A * umem) s a m' :
  f (cur_mem s) = (a, m') -> exists s', on_user f s = Ret (a, s') /\ with_mem s m' s'.
Proof.
  intros E. unfold on_user. fold (cur_mem s). rewrite E. eexists. split; [done|]. split_and!; try done.
  unfold cur_mem, set_eworld. cbn. apply mem_store.
Qed.

Definition arg_room (l : list Z) : Z := ROUNDUP (zlength l + 1) 8.
Definition strings_room (args : list (list Z)) : Z := foldr (fun l n => arg_room l + n) 0 args.

(** What the arguments take on the stack. *)
Definition args_room (argv : list (list Z)) : Z := strings_room argv + 4 * (zlength argv + 1).

Lemma arg_room_bounds l : zlength l + 1 <= arg_room l /\ arg_room l mod 8 = 0 /\ 0 < arg_room l.
Proof.
  pose proof (zlength_nonneg l). unfold arg_room, ROUNDUP, DIVROUNDUP. rewrite Z.mod_mul by lia.
  pose proof (Z.div_mod (zlength l + 1 + 8 - 1) 8 ltac:(lia)). pose proof (Z.mod_pos_bound (zlength l + 1 + 8 - 1) 8 ltac:(lia)). lia.
Qed.

Lemma strings_room_bounds args : 0 <= strings_room args /\ strings_room args mod 8 = 0.
Proof.
  induction args as [|l args IH]; cbn; [done|]. pose proof (arg_room_bounds l) as (_ & H1 & H2). fold (strings_room args). split; [lia|].
  rewrite Z.add_mod, H1 by lia. destruct IH as [_ ->]. done.
Qed.

Lemma user_top : USERSPACETOP = 2147483648.
Proof. done. Qed.

Lemma user_string_changed m m' lo hi p l :
  changed m m' lo hi -> hi <= p -> user_string m p l -> user_string m' p l.
Proof. intros Hc Hp (H1 & H2 & H3 & H4). split_and!; try done. eapply bytes_changed; [done| |done]. by right. Qed.

Definition string_above m (lo p : Z) (l : list Z) : Prop := lo <= p /\ p < USERSPACETOP /\ user_string m p l.

Lemma push_strings_ok args sp acc s :
  Forall no_zero args -> 0 <= sp - strings_room args -> sp <= USERSPACETOP ->
  mapped (cur_mem s) (sp - strings_room args) sp ->
  exists addrs s' m', push_strings args sp acc s = Ret ((0, sp - strings_room args, reverse addrs ++ acc), s') /\
    with_mem s m' s' /\ changed (cur_mem s) m' (sp - strings_room args) sp /\
    Forall2 (string_above m' (sp - strings_room args)) addrs args.
Proof.
  intros Hz. revert sp acc s. induction Hz as [|l args Hl Hz IH]; intros sp acc s H0 H1 Hm; cbn [push_strings strings_room foldr] in *.
  { rewrite Z.sub_0_r. exists [], s, (cur_mem s). by split_and!. }
  fold (strings_room args) in *. pose proof (arg_room_bounds l) as (Hr1 & _ & Hr2). pose proof (strings_room_bounds args) as [Hr _].
  cbv zeta. fold (arg_room l). pose proof user_top. pose proof (zlength_nonneg l). set (sp1 := sp - arg_room l).
  assert (Esp : w32 sp1 = sp1) by (apply w32_id; unfold is_u32, two32; lia). rewrite Esp.
  destruct (copyoutstr_ok (cur_mem s) sp1 l) as (m1 & E1 & Hs1 & Hc1); [lia|lia|done|intros x Hx; apply Hm; lia|].
  destruct (on_user_run (fun m => let '(r, _, m) := copyoutstr m (l ++ [0]) sp1 (zlength l + 1) in (r, m)) s 0 m1)
    as (s1 & Es1 & Hw1); [by rewrite E1|].
  rewrite (bind_ok _ _ _ _ _ Es1). cbn [Z.eqb negb].
  assert (Hc1' : changed (cur_mem s) m1 sp1 sp) by (split; [intros x Hx; apply Hc1; lia|apply Hc1]).
  assert (Em1 : cur_mem s1 = m1) by apply Hw1.
  destruct (IH sp1 (sp1 :: acc) s1) as (addrs & s2 & m2 & E2 & Hw2 & Hc2 & HF); [lia|lia| |].
  { rewrite Em1. eapply changed_mapped; [done|]. intros x Hx. apply Hm. lia. }
  rewrite Em1 in Hc2. exists (sp1 :: addrs), s2, m2.
  replace (sp - (arg_room l + strings_room args)) with (sp1 - strings_room args) by lia.
  split_and!.
  - rewrite E2. by rewrite reverse_cons, <- (assoc_L (++)).
  - by eapply with_mem_trans.
  - eapply (changed_trans _ _ _ _ sp1); [lia|done|done].
  - constructor; [|done]. split_and!; [lia|lia|]. eapply user_string_changed; [exact Hc2|lia|done].
Qed.

Lemma user_word_changed m m' lo hi p x :
  changed m m' lo hi -> hi <= p -> user_word m p x -> user_word m' p x.
Proof. intros Hc Hp (H1 & H2 & H3 & H4). split_and!; try done. eapply bytes_changed; [done| |done]. by right. Qed.

Lemma push_pointers_ok ptrs sp s :
  sp mod 4 = 0 -> 0 <= sp - 4 * zlength ptrs -> sp <= USERSPACETOP -> mapped (cur_mem s) (sp - 4 * zlength ptrs) sp ->
  exists s' m', push_pointers ptrs sp s = Ret (sp - 4 * zlength ptrs, s') /\ with_mem s m' s' /\
    changed (cur_mem s) m' (sp - 4 * zlength ptrs) sp /\
    (forall i q, ptrs !! i = Some q -> user_word m' (sp - 4 * (Z.of_nat i + 1)) q).
Proof.
  revert sp s. induction ptrs as [|p ptrs IH]; intros sp s Ha H0 H1 Hm; cbn [push_pointers].
  { exists s, (cur_mem s). change (zlength []) with 0. rewrite Z.sub_0_r. by split_and!. }
  rewrite zlength_cons in *. pose proof (zlength_nonneg ptrs). pose proof user_top. cbv zeta. change (ROUNDUP 4 4) with 4.
  set (sp1 := sp - 4). assert (Ha1 : sp1 mod 4 = 0) by (unfold sp1; rewrite Zminus_mod, Ha; done).
  assert (Esp : w32 sp1 = sp1) by (apply w32_id; unfold is_u32, two32; lia). rewrite Esp.
  destruct (copyout_word (cur_mem s) sp1 p) as (m1 & E1 & Hw & Hc1); [done|lia|lia|intros x Hx; apply Hm; lia|].
  destruct (on_user_run (fun m => copyout m (be32 p) sp1 4) s 0 m1 E1) as (s1 & Es1 & Hs1).
  rewrite (bind_ok _ _ _ _ _ Es1). assert (Em1 : cur_mem s1 = m1) by apply Hs1.
  replace (sp1 + 4) with sp in Hc1 by lia.
  destruct (IH sp1 s1) as (s2 & m2 & E2 & Hs2 & Hc2 & HF); [done|lia|lia| |].
  { rewrite Em1. eapply changed_mapped; [done|]. intros x Hx. apply Hm. lia. }
  rewrite Em1 in Hc2. exists s2, m2. replace (sp - 4 * (zlength ptrs + 1)) with (sp1 - 4 * zlength ptrs) by lia. split_and!.
  - done.
  - by eapply with_mem_trans.
  - eapply (changed_trans _ _ _ _ sp1); [lia|done|done].
  - intros [|i] q Hi.
    + injection Hi as <-. replace (sp - 4 * (Z.of_nat 0 + 1)) with sp1 by lia. eapply user_word_changed; [exact Hc2|lia|done].
    + replace (sp - 4 * (Z.of_nat (S i) + 1)) with (sp1 - 4 * (Z.of_nat i + 1)) by lia. by apply HF.
Qed.

Lemma strings_room_reverse argv : strings_room (reverse argv) = strings_room argv.
Proof.
  assert (Hp : forall l l', l ≡ₚ l' -> strings_room l = strings_room l') by (induction 1; cbn; unfold strings_room in *; lia).
  apply Hp, reverse_Permutation.
Qed.

Lemma argumentPassing_ok argv sp s :
  Forall no_zero argv -> sp mod 8 = 0 -> 0 < sp - args_room argv -> sp <= USERSPACETOP ->
  mapped (cur_mem s) (sp - args_room argv) sp ->
  exists s' m', argumentPassing argv sp s = Ret ((0, sp - args_room argv), s') /\ with_mem s m' s' /\
    changed (cur_mem s) m' (sp - args_room argv) sp /\ user_args m' (sp - args_room argv) argv.
Proof.
  intros Hz Ha H0 H1 Hm. unfold args_room in *. pose proof (strings_room_bounds argv) as [Hr Hr8]. pose proof (zlength_nonneg argv).
  unfold argumentPassing. pose proof (push_strings_ok (reverse argv) sp [0] s) as Hps. rewrite strings_room_reverse in Hps.
  destruct Hps as (addrs & s1 & m1 & E1 & Hs1 & Hc1 & HF); [by apply Forall_reverse|lia|lia|intros x Hx; apply Hm; lia|].
  remember (sp - strings_room argv) as sp1 eqn:Hsp1.
  rewrite (bind_ok _ _ _ _ _ E1). cbn [Z.eqb negb]. assert (Em1 : cur_mem s1 = m1) by apply Hs1.
  assert (Hlen : length addrs = length argv) by (rewrite (Forall2_length _ _ _ HF); apply length_reverse).
  set (ptrs := reverse addrs) in *. assert (Hpl : length ptrs = length argv) by (unfold ptrs; by rewrite length_reverse).
  assert (Hzl : zlength (reverse (ptrs ++ [0])) = zlength argv + 1) by (unfold zlength; rewrite length_reverse, length_app; cbn; lia).
  destruct (push_pointers_ok (reverse (ptrs ++ [0])) sp1 s1) as (s2 & m2 & E2 & Hs2 & Hc2 & HP); rewrite ?Hzl in *.
  - rewrite Hsp1, (Z.mod_divide _ 4) by lia. apply Z.mod_divide in Ha as [x ->]; [|lia]. apply Z.mod_divide in Hr8 as [y ->]; [|lia].
    exists (2 * x - 2 * y). lia.
  - lia.
  - lia.
  - rewrite Em1. eapply changed_mapped; [done|]. intros x Hx. apply Hm. lia.
  - rewrite (bind_ok _ _ _ _ _ E2). rewrite Em1 in Hc2. exists s2, m2.
    replace (sp - (strings_room argv + 4 * (zlength argv + 1))) with (sp1 - 4 * (zlength argv + 1)) by lia.
    split_and!; [done|by eapply with_mem_trans|eapply (changed_trans _ _ _ _ sp1); [lia|done|done]|].
    exists ptrs. split_and!; [done| |].
    + intros i q Hi. pose proof (lookup_lt_Some _ _ _ Hi) as Hlt. rewrite length_app in Hlt. cbn in Hlt.
      specialize (HP (length argv - i)%nat q). rewrite reverse_lookup in HP by (rewrite length_app; cbn; lia).
      rewrite length_app in HP. cbn [length] in HP. replace (length ptrs + 1 - S (length argv - i))%nat with i in HP by lia.
      replace (sp1 - 4 * (zlength argv + 1) + 4 * Z.of_nat i) with (sp1 - 4 * (Z.of_nat (length argv - i) + 1)) by (unfold zlength; lia).
      by apply HP.
    + intros i q l Hi Hl. assert (HF' : Forall2 (string_above m1 sp1) ptrs argv).
      { unfold ptrs. rewrite <- (reverse_involutive argv). by apply Forall2_reverse. }
      destruct (Forall2_lookup_lr _ _ _ _ _ _ HF' Hi Hl) as (Hq1 & Hq2 & Hs). split; [lia|].
      eapply user_string_changed; [exact Hc2|lia|done].
Qed.

(** ** Reading arguments *)

Lemma size_ge m n p c : 0 < c -> (forall i, (i < n)%nat -> is_Some (m !! (p + c * Z.of_nat i))) -> (n <= size m)%nat.
Proof.
  intros Hc. revert m. induction n as [|n IH]; intros m Hm; [lia|].
  destruct (Hm n ltac:(lia)) as [x Hx]. pose proof (map_size_delete_Some (p + c * Z.of_nat n) m (ex_intro _ x Hx)) as Hs.
  assert (Nat.le n (size (delete (p + c * Z.of_nat n) m))).
  { apply IH. intros i Hi. rewrite lookup_delete_ne by nia. apply Hm. lia. }
  assert (0 < size m)%nat; [|lia]. apply Nat.neq_0_lt_0. rewrite map_size_empty_iff. intros ->. by rewrite lookup_empty in Hx.
Qed.

Lemma peek_user s p b : p < USERSPACETOP -> cur_mem s !! p = Some b -> peek p s = Ret (b, s).
Proof.
  intros Hp E. unfold peek, get, bind. rewrite (proj2 (Z.ltb_lt p USERSPACETOP)) by done. fold (cur_mem s). by rewrite E.
Qed.

Lemma rd32_be32 x : is_u32 x -> rd32 (be32 x) 0 = x.
Proof.
  intros Hx. unfold is_u32, two32 in Hx. unfold rd32, be32, slice. cbn [take drop Z.to_nat Pos.to_nat Pos.iter_op].
  change (Z.to_nat 4) with 4%nat. change (Z.to_nat 0) with 0%nat. cbn [take drop]. Z.to_euclidean_division_equations. lia.
Qed.

Lemma peek_word_user s p x : is_u32 x -> user_word (cur_mem s) p x -> peek_word p s = Ret (x, s).
Proof.
  intros Hx (Ha & H0 & H1 & Hb). unfold peek_word. rewrite Ha. cbn [Z.eqb negb].
  pose proof (Hb 0%nat _ eq_refl) as B0. pose proof (Hb 1%nat _ eq_refl) as B1.
  pose proof (Hb 2%nat _ eq_refl) as B2. pose proof (Hb 3%nat _ eq_refl) as B3.
  change (Z.of_nat 0) with 0 in B0. change (Z.of_nat 1) with 1 in B1. change (Z.of_nat 2) with 2 in B2. change (Z.of_nat 3) with 3 in B3.
  rewrite Z.add_0_r in B0. unfold bind. rewrite (peek_user s p _ ltac:(lia) B0), (peek_user s (p + 1) _ ltac:(lia) B1).
  rewrite (peek_user s (p + 2) _ ltac:(lia) B2), (peek_user s (p + 3) _ ltac:(lia) B3). unfold ret. do 2 f_equal. by apply rd32_be32.
Qed.

Lemma string_loop_user s l p fuel :
  user_string (cur_mem s) p l -> (length l < fuel)%nat -> string_loop fuel p s = Ret (l, s).
Proof.
  revert p fuel. induction l as [|b l IH]; intros p [|fuel] (H0 & H1 & Hz & Hb) Hf; cbn in Hf; try lia; cbn [string_loop].
  - pose proof (Hb 0%nat 0 eq_refl) as B0. rewrite Z.add_0_r in B0. unfold bind. change (zlength []) with 0 in H1.
    by rewrite (peek_user s p _ ltac:(lia) B0).
  - pose proof (Hb 0%nat b eq_refl) as B0. rewrite Z.add_0_r in B0. rewrite zlength_cons in H1. pose proof (zlength_nonneg l).
    apply list.Forall_cons in Hz as [Hbz Hz]. unfold bind at 1. rewrite (peek_user s p _ ltac:(lia) B0).
    rewrite (proj2 (Z.eqb_neq b 0)) by done. pose proof user_top.
    rewrite w32_id by (unfold is_u32, two32; lia). unfold bind. rewrite IH; [done| |lia].
    split_and!; [lia|lia|done|]. intros i c Hi. replace (p + 1 + Z.of_nat i) with (p + Z.of_nat (S i)) by lia. by apply Hb.
Qed.

Lemma string_at_user s p l : user_string (cur_mem s) p l -> string_at p s = Ret (l, s).
Proof.
  intros Hs. unfold string_at, get, bind. apply string_loop_user; [done|]. unfold reach. fold (cur_mem s).
  pose proof (size_ge (cur_mem s) (length l) p 1 ltac:(lia)) as Hsz. destruct Hs as (_ & _ & _ & Hb).
  enough (length l <= size (cur_mem s))%nat by lia. apply Hsz. intros i Hi. rewrite Z.mul_1_l.
  destruct (lookup_lt_is_Some_2 l i Hi) as [b E]. exists b. apply Hb. by rewrite lookup_app_l.
Qed.

Lemma ustrlen_user s p l : user_string (cur_mem s) p l -> ustrlen p s = Ret (zlength l, s).
Proof. intros Hs. unfold ustrlen, bind. by rewrite (string_at_user _ _ _ Hs). Qed.

Lemma copyinstr_user s p l : user_string (cur_mem s) p l -> copyinstr_from p (zlength l + 1) s = Ret ((0, l ++ [0]), s).
Proof.
  intros (H0 & H1 & Hz & Hb). pose proof (zlength_nonneg l). unfold copyinstr_from, get, bind. fold (cur_mem s).
  unfold copyinstr. rewrite copycheck_in by lia. cbn [Z.eqb negb]. unfold copystr. rewrite Z.min_id.
  rewrite (copystr_loop_string l); [done|done| |unfold zlength; lia].
  intros j b Hj. split; [|done]. rewrite Z.add_0_l. by apply Hb.
Qed.

Lemma c_string_snoc l : no_zero l -> c_string (l ++ [0]) = l.
Proof.
  induction 1 as [|b l Hb Hz IH]; cbn; [done|]. rewrite (proj2 (Z.eqb_neq b 0)) by done. by rewrite IH.
Qed.

Lemma set_eheap_id s : set_eheap s (e_heap s) = s.
Proof. by destruct s. Qed.

Section reading.
Context (s : est W H) (args : Z) (argv : list (list Z)) (ptrs : list Z).
Context (Hlen : length ptrs = length argv).
Context (Hw : forall i q, (ptrs ++ [0]) !! i = Some q -> user_word (cur_mem s) (args + 4 * Z.of_nat i) q).
Context (Hs : forall i q l, ptrs !! i = Some q -> argv !! i = Some l -> 0 < q < USERSPACETOP /\ user_string (cur_mem s) q l).

(** A state with another heap. *)
Definition heaped h : est W H := set_eheap s h.

Lemma arg_ptr_user h i q : (ptrs ++ [0]) !! i = Some q -> arg_ptr args (Z.of_nat i) (heaped h) = Ret (q, heaped h).
Proof.
  intros Hi. pose proof (Hw i q Hi) as Hword. pose proof Hword as (_ & H0 & H1 & _). pose proof user_top. unfold arg_ptr.
  rewrite w32_id by (unfold is_u32, two32; lia). apply peek_word_user; [|done].
  apply lookup_app_Some in Hi as [Hi|[_ Hi]].
  - destruct (lookup_lt_is_Some_2 argv i) as [l El]; [rewrite <- Hlen; by eapply lookup_lt_Some|].
    destruct (Hs i q l Hi El) as [? _]. unfold is_u32, two32. lia.
  - apply list_lookup_singleton_Some in Hi as [_ <-]. unfold is_u32, two32. lia.
Qed.

Lemma count_loop_user i fuel :
  (i <= length argv)%nat -> (length argv - i < fuel)%nat ->
  count_loop fuel args (Z.of_nat i) s = Ret (zlength argv, s).
Proof.
  pose proof (arg_ptr_user (e_heap s)) as Hp. unfold heaped in Hp. rewrite set_eheap_id in Hp.
  revert i. induction fuel as [|fuel IH]; intros i Hi Hf; [lia|]. cbn [count_loop].
  destruct (decide (i = length argv)) as [->|Hn].
  - unfold bind. rewrite (Hp _ 0); [done|]. rewrite <- Hlen. by rewrite lookup_app_r, Nat.sub_diag by lia.
  - destruct (lookup_lt_is_Some_2 ptrs i) as [q Eq]; [lia|]. destruct (lookup_lt_is_Some_2 argv i) as [l El]; [lia|].
    destruct (Hs i q l Eq El) as [Hq _]. unfold bind. rewrite (Hp _ q) by (by apply lookup_app_l_Some).
    rewrite (proj2 (Z.eqb_neq q 0)) by lia. replace (Z.of_nat i + 1) with (Z.of_nat (S i)) by lia. apply IH; lia.
Qed.

Lemma argc_reach : (length argv < reach s)%nat.
Proof.
  unfold reach. fold (cur_mem s). enough (length argv <= size (cur_mem s))%nat by lia.
  apply (size_ge _ _ args 4); [lia|]. intros i Hi. destruct (lookup_lt_is_Some_2 ptrs i) as [q Eq]; [lia|].
  destruct (Hw i q (lookup_app_l_Some _ _ _ _ Eq)) as (_ & _ & _ & Hb). eexists. rewrite <- (Z.add_0_r (args + _)).
  by apply (Hb 0%nat).
Qed.

Lemma copy_args_user h n i bs :
  has_new (e_heap s) h bs -> (i + n = length argv)%nat -> Forall (fun l => zlength l + 1 <= heap_max) argv ->
  exists r h' bs', copy_args n (Z.of_nat i) args (heaped h) = Ret (r, heaped h') /\ has_new (e_heap s) h' bs' /\
    (r.1 = ENOMEM \/ (r = (0, drop i argv) /\ length bs' = (length bs + n)%nat)).
Proof.
  revert h i bs. induction n as [|n IH]; intros h i bs Hn Hi Hmax; cbn [copy_args].
  { exists (0, []), h, bs. split_and!; [done|done|right]. rewrite drop_ge by lia. split; [done|lia]. }
  destruct (lookup_lt_is_Some_2 ptrs i) as [q Eq]; [lia|]. destruct (lookup_lt_is_Some_2 argv i) as [l El]; [lia|].
  destruct (Hs i q l Eq El) as [Hq Hstr].
  pose proof (fun h => arg_ptr_user h i q (lookup_app_l_Some _ _ _ _ Eq)) as Ep.
  pose proof (fun h => ustrlen_user (heaped h) q l Hstr) as El'. pose proof (zlength_nonneg l).
  pose proof (proj1 (list.Forall_forall _ _) Hmax l (list_elem_of_lookup_2 _ _ _ El)) as Hl. cbn in Hl.
  rewrite (bind_ok _ _ _ _ _ (Ep h)), (bind_ok _ _ _ _ _ (El' h)).
  destruct (kmalloc_has_new _ h bs (zlength l + 1) Hn ltac:(lia)) as (p & h1 & Em & Hp).
  assert (Ek : in_kheap (kmalloc (zlength l + 1)) (heaped h) = Ret (p, heaped h1)) by (unfold in_kheap; cbn; by rewrite Em).
  rewrite (bind_ok _ _ _ _ _ Ek). destruct Hp as [[-> Hp]|[Hpos Hp]].
  { exists (ENOMEM, []), h1, bs. split_and!; [done|done|by left]. }
  rewrite (proj2 (Z.eqb_neq p 0)) by lia. rewrite (bind_ok _ _ _ _ _ (Ep h1)), (bind_ok _ _ _ _ _ (El' h1)).
  rewrite (bind_ok _ _ _ _ _ (copyinstr_user (heaped h1) q l Hstr)). cbn [fst snd Z.eqb negb].
  replace (Z.of_nat i + 1) with (Z.of_nat (S i)) by lia.
  destruct (IH h1 (S i) _ Hp ltac:(lia) Hmax) as (r & h2 & bs2 & E2 & Hn2 & Hr). rewrite (bind_ok _ _ _ _ _ E2).
  exists (r.1, c_string (l ++ [0]) :: r.2), h2, bs2. split_and!; [done|done|].
  destruct Hr as [Hr|[-> Hl2]]; [by left|]. right. cbn [fst snd]. rewrite c_string_snoc by apply Hstr.
  rewrite (drop_S argv l i El). split; [done|]. cbn in Hl2. lia.
Qed.
End reading.

(** ** Loading a program *)

(** Reading keeps all but memory. *)
Definition kept s s' : Prop :=
  e_heap s' = e_heap s /\ e_cur s' = e_cur s /\ e_active s' = e_active s.

Lemma kept_trans s1 s2 s3 : kept s1 s2 -> kept s2 s3 -> kept s1 s3.
Proof. intros (H1 & H2 & H3) (H4 & H5 & H6). split_and!; congruence. Qed.

(** What the loader looks at: the file and the regions. *)
Definition same_view (v : Z) s s' : Prop :=
  kept s s' /\ contents v (e_world s') = contents v (e_world s) /\ regions (e_cur s) (e_world s') = regions (e_cur s) (e_world s).

Lemma same_view_trans v s1 s2 s3 : same_view v s1 s2 -> same_view v s2 s3 -> same_view v s1 s3.
Proof.
  intros (H1 & H2 & H3) (H4 & H5 & H6). split_and!; [by eapply kept_trans|congruence|].
  destruct H1 as (_ & E & _). rewrite E in H6. congruence.
Qed.

Lemma vop_read_run v u s :
  exists r u' s', VOP_READ v u s = Ret ((r, u'), s') /\ same_view v s s' /\
    (r = 0 -> exists d, steps (slice (contents v (e_world s)) (uio_offset u) (uio_resid u)) (mk_xfer u (cur_mem s)) =
                        Some (d, mk_xfer u' (cur_mem s'))).
Proof.
  unfold VOP_READ. fold (cur_mem s). pose proof (vop_read_moves v (mk_xfer u (cur_mem s)) (e_world s)) as Hm.
  pose proof (vop_read_file v (mk_xfer u (cur_mem s)) (e_world s)) as Hf.
  pose proof (regions_read (e_cur s) v (mk_xfer u (cur_mem s)) (e_world s)) as Hr.
  destruct (vop_read v (mk_xfer u (cur_mem s)) (e_world s)) as [[r x] w]. cbn in Hf, Hr.
  do 3 eexists. split; [done|]. split.
  - split_and!; [done|cbn; by rewrite contents_store|cbn; by rewrite regions_store].
  - intros ->. destruct (Hm x w eq_refl) as [d Hd]. exists d. cbn [xu] in Hd. rewrite Hd. unfold cur_mem. cbn. rewrite mem_store. by destruct x.
Qed.

Lemma kinit_wf k len pos : 0 <= len < two32 -> zlength k = len -> uio_wf (uio_kinit k len pos UIO_READ).
Proof.
  intros Hl Hk. split; cbn; [|lia|lia]. apply list.Forall_singleton. split_and!; cbn; [lia|lia|done|intros; lia].
Qed.

Lemma slice_le l off n : 0 <= n -> zlength (slice l off n) <= n.
Proof. intros. unfold slice, zlength. rewrite length_take. lia. Qed.

Lemma steps_exact l x d x' :
  uio_wf (xu x) -> zlength l <= uio_resid (xu x) -> steps l x = Some (d, x') -> uio_resid (xu x') = 0 ->
  zlength l = uio_resid (xu x).
Proof. intros Hw Hl E Hr. destruct (steps_wf _ _ _ _ Hw Hl E) as (_ & _ & Hres & _). lia. Qed.

Lemma read_struct_run v len off s :
  0 < len < two32 ->
  exists r s', read_struct v len off s = Ret (r, s') /\ same_view v s s' /\
    (r.1 = 0 -> r.2 = slice (contents v (e_world s)) off len /\ zlength r.2 = len /\ cur_mem s' = cur_mem s).
Proof.
  intros Hlen. unfold read_struct. set (u := uio_kinit _ len off UIO_READ).
  destruct (vop_read_run v u s) as (r & u' & s' & E & Hv & Hr). rewrite (bind_ok _ _ _ _ _ E). cbn [fst snd].
  destruct (Z.eqb_spec r 0) as [->|Hz]; cbn [negb]; [|by do 2 eexists].
  destruct (Z.eqb_spec (uio_resid u') 0) as [Hz|Hz]; cbn [negb]; [|by do 2 eexists].
  do 2 eexists. split; [done|]. split; [done|]. intros _. cbn [fst snd]. destruct (Hr eq_refl) as [d Hd].
  set (l := slice _ _ _) in Hd. assert (Hll : zlength l <= len) by (apply slice_le; lia).
  assert (Hw : uio_wf u) by (apply kinit_wf; [lia|unfold zlength; rewrite length_replicate; lia]).
  pose proof (steps_exact l (mk_xfer u (cur_mem s)) _ _ Hw Hll Hd Hz) as Hl. cbn in Hl.
  destruct (steps_kinit l (replicate (Z.to_nat len) 0) off UIO_READ (cur_mem s)) as (u2 & E2 & Hd2 & _).
  - rewrite length_replicate. unfold zlength in Hl. lia.
  - intros ->. by change (zlength []) with 0 in Hl; lia.
  - rewrite Hl in E2. fold u in E2. rewrite Hd in E2. injection E2 as _ -> Hmem. by rewrite Hd2.
Qed.

Lemma load_segment_run a v off vaddr memsz filesz x s :
  is_u32 vaddr -> 0 <= memsz < two32 -> 0 <= filesz ->
  let l := slice (contents v (e_world s)) off (Z.min memsz filesz) in
  exists r s', load_segment a v off vaddr memsz filesz x s = Ret (r, s') /\ same_view v s s' /\
    (r = 0 -> zlength l = Z.min memsz filesz /\ can_access (cur_mem s) vaddr (length l) = true /\
              cur_mem s' = (write_run (cur_mem s) vaddr l).1).
Proof.
  intros Hva Hmem Hfile l. unfold load_segment.
  assert (Emin : (if memsz <? filesz then memsz else filesz) = Z.min memsz filesz) by (destruct (Z.ltb_spec memsz filesz); lia).
  rewrite Emin. set (u := mk_uio _ _ _ _ _ _ _).
  destruct (vop_read_run v u s) as (r & u' & s' & E & Hv & Hr). cbv zeta. rewrite (bind_ok _ _ _ _ _ E). cbn [fst snd].
  destruct (Z.eqb_spec r 0) as [->|Hz]; cbn [negb]; [|by do 2 eexists].
  destruct (Z.eqb_spec (uio_resid u') 0) as [Hz|Hz]; cbn [negb]; [|by do 2 eexists].
  do 2 eexists. split; [done|]. split; [done|]. intros _. destruct (Hr eq_refl) as [d Hd].
  change (slice _ _ _) with l in Hd. assert (Hll : zlength l <= Z.min memsz filesz) by (apply slice_le; lia).
  assert (Hw : uio_wf u) by (split; cbn; [apply list.Forall_singleton; split_and!; cbn; [lia|lia|done|by destruct x]|lia|lia]).
  pose proof (steps_exact l (mk_xfer u (cur_mem s)) _ _ Hw Hll Hd Hz) as Hl. cbn in Hl. split; [done|].
  destruct (decide (l = [])) as [El|Hne]; [rewrite El in Hd |- *; cbn in Hd |- *; by injection Hd as _ _ ->|].
  rewrite (steps_user l u (cur_mem s) (mk_iovec vaddr [] memsz) []) in Hd; [|by destruct x|done|apply Hva|cbn; lia|done].
  cbn [iov_ubase] in Hd. destruct (can_access (cur_mem s) vaddr (length l)); [|done]. split; [done|].
  injection Hd as _ _ Hd. by rewrite <- Hd.
Qed.

(** Fields of a file of bytes. *)
Lemma slice_bytes l off n : Forall (fun b => 0 <= b < 256) l -> Forall (fun b => 0 <= b < 256) (slice l off n).
Proof. intros Hl. unfold slice. by apply Forall_take, Forall_drop. Qed.

Lemma rd32_u32 l off : Forall (fun b => 0 <= b < 256) l -> is_u32 (rd32 l off).
Proof.
  intros Hl. unfold rd32. pose proof (slice_bytes l off 4 Hl) as Hs. unfold is_u32, two32.
  destruct (slice l off 4) as [|a [|b [|c [|d [|]]]]]; try lia. rewrite !list.Forall_cons in Hs. lia.
Qed.

(** *** What a file describes *)

Definition header (file : list Z) : list Z := slice file 0 sizeof_Ehdr.
Definition phdr (file : list Z) (i : Z) : list Z := slice file (phdr_offset (header file) i) sizeof_Phdr.
Definition seg_bytes (file ph : list Z) : list Z := slice file (p_offset ph) (Z.min (p_memsz ph) (p_filesz ph)).

(** The regions of the segments from [i] on. *)
Fixpoint seg_regions (n : nat) (i : Z) (file : list Z) : list (Z * Z * (bool * bool * bool)) :=
  match n with
  | O => []
  | S n =>
      let ph := phdr file i in
      match segment_kind ph with
      | Load => [((p_vaddr ph, p_memsz ph), (has (p_flags ph) PF_R, has (p_flags ph) PF_W, has (p_flags ph) PF_X))]
      | _ => []
      end ++ seg_regions n (i + 1) file
  end.

(** Memory with the segments from [i] on in their places. *)
Fixpoint place (n : nat) (i : Z) (file : list Z) m : umem :=
  match n with
  | O => m
  | S n =>
      let ph := phdr file i in
      place n (i + 1) file
        match segment_kind ph with Load => (write_run m (p_vaddr ph) (seg_bytes file ph)).1 | _ => m end
  end.

(** The headers are in the file and of a known type, and so are the bytes of the
    segments that are loaded. *)
Definition segment_in (file : list Z) (i : Z) : Prop :=
  zlength (phdr file i) = sizeof_Phdr /\ segment_kind (phdr file i) <> Unknown /\
  (segment_kind (phdr file i) = Load ->
   zlength (seg_bytes file (phdr file i)) = Z.min (p_memsz (phdr file i)) (p_filesz (phdr file i))).

Section loading.
Context (v : Z) (file : list Z) (Hbytes : Forall (fun b => 0 <= b < 256) file).

Lemma phdr_u32 i off : is_u32 (rd32 (phdr file i) off).
Proof. by apply rd32_u32, slice_bytes. Qed.

Lemma define_loop_run n i a s :
  contents v (e_world s) = file -> a = e_cur s ->
  exists r s', define_loop n i a v (header file) s = Ret (r, s') /\ kept s s' /\ contents v (e_world s') = file /\
    (r = 0 -> regions a (e_world s') = regions a (e_world s) ++ seg_regions n i file).
Proof.
  revert i s. induction n as [|n IH]; intros i s Hf Ha; cbn [define_loop seg_regions].
  { exists 0, s. split_and!; [done..|]. by rewrite app_nil_r. }
  destruct (read_struct_run v sizeof_Phdr (phdr_offset (header file) i) s ltac:(done)) as (r & s1 & E & (Hk & Hc & Hr) & Hok).
  rewrite (bind_ok _ _ _ _ _ E). destruct (Z.eqb_spec (r.1) 0) as [Hz|Hz]; cbn [negb]; [|exists r.1, s1; by rewrite Hc].
  destruct (Hok Hz) as (Eph & _ & _). rewrite Hf in Eph. fold (phdr file i) in Eph. rewrite Eph.
  assert (Hf1 : contents v (e_world s1) = file) by congruence. assert (Ha1 : a = e_cur s1) by (destruct Hk as (_ & -> & _); done).
  rewrite <- Ha in Hr. destruct (segment_kind (phdr file i)) eqn:Ek.
  - destruct (IH (i + 1) s1 Hf1 Ha1) as (r2 & s2 & E2 & Hk2 & Hc2 & Hr2). exists r2, s2.
    split_and!; [done|by eapply kept_trans|done|]. intros Hz2. by rewrite Hr2, Hr.
  - unfold bind at 1, in_world. set (ph := phdr file i).
    pose proof (define_region a (p_vaddr ph) (p_memsz ph) (has (p_flags ph) PF_R) (has (p_flags ph) PF_W) (has (p_flags ph) PF_X) (e_world s1)) as Hd.
    pose proof (define_file v a (p_vaddr ph) (p_memsz ph) (has (p_flags ph) PF_R) (has (p_flags ph) PF_W) (has (p_flags ph) PF_X) (e_world s1)) as Hdf.
    destruct (as_define_region _ _ _ _ _ _ _) as [res w]. cbn in Hdf.
    destruct (Z.eqb_spec res 0) as [->|Hres]; cbn [negb].
    + destruct (IH (i + 1) (set_eworld s1 w)) as (r2 & s2 & E2 & Hk2 & Hc2 & Hr2); [cbn; congruence|done|].
      exists r2, s2. split_and!; [done|by eapply kept_trans|done|]. intros Hz2. rewrite (Hr2 Hz2). cbn.
      by rewrite (Hd w eq_refl), Hr, <- (assoc_L (++)).
    + exists res, (set_eworld s1 w). split_and!; [done|done|cbn; congruence|done].
  - exists ENOEXEC, s1. done.
Qed.

Lemma load_loop_run n i a s :
  contents v (e_world s) = file -> a = e_cur s ->
  exists r s', load_loop n i a v (header file) s = Ret (r, s') /\ same_view v s s' /\
    (r = 0 -> (forall j, i <= j < i + Z.of_nat n -> segment_in file j) /\ cur_mem s' = place n i file (cur_mem s)).
Proof.
  revert i s. induction n as [|n IH]; intros i s Hf Ha; cbn [load_loop place].
  { exists 0, s. split_and!; try done. intros _. split; [lia|done]. }
  destruct (read_struct_run v sizeof_Phdr (phdr_offset (header file) i) s ltac:(done)) as (r & s1 & E & Hv & Hok).
  rewrite (bind_ok _ _ _ _ _ E). destruct (Z.eqb_spec (r.1) 0) as [Hz|Hz]; cbn [negb]; [|by exists r.1, s1].
  destruct (Hok Hz) as (Eph & Hlen & Hm). rewrite Hf in Eph. fold (phdr file i) in Eph. rewrite Eph in Hlen |- *.
  pose proof Hv as ((_ & Hcur & _) & Hc & _). assert (Hf1 : contents v (e_world s1) = file) by congruence.
  assert (Ha1 : a = e_cur s1) by congruence. set (ph := phdr file i) in *.
  assert (Hstep : segment_in file i -> (forall j, i + 1 <= j < i + 1 + Z.of_nat n -> segment_in file j) ->
                  forall j, i <= j < i + Z.of_nat (S n) -> segment_in file j).
  { intros Hi Hj j Hr. destruct (decide (j = i)) as [->|]; [done|]. apply Hj. lia. }
  destruct (segment_kind ph) eqn:Ek.
  - destruct (IH (i + 1) s1 Hf1 Ha1) as (r2 & s2 & E2 & Hv2 & Hr2). exists r2, s2.
    split_and!; [done|by eapply same_view_trans|]. intros Hz2. destruct (Hr2 Hz2) as [Hin Hpl]. split; [|by rewrite Hpl, Hm].
    apply Hstep; [|done]. unfold segment_in. fold ph. rewrite Ek. done.
  - destruct (load_segment_run a v (p_offset ph) (p_vaddr ph) (p_memsz ph) (p_filesz ph) (has (p_flags ph) PF_X) s1)
      as (res & s2 & E2 & Hv2 & Hr2); [apply phdr_u32|apply phdr_u32|apply phdr_u32|].
    rewrite (bind_ok _ _ _ _ _ E2). rewrite Hf1 in Hr2. fold (seg_bytes file ph) in Hr2.
    pose proof (same_view_trans _ _ _ _ Hv Hv2) as Hv12.
    destruct (Z.eqb_spec res 0) as [->|Hres]; cbn [negb]; [|by exists res, s2].
    destruct (Hr2 eq_refl) as (Hl2 & _ & Hm2). pose proof Hv12 as ((_ & Hcur2 & _) & Hc2 & _).
    destruct (IH (i + 1) s2) as (r3 & s3 & E3 & Hv3 & Hr3); [congruence|congruence|].
    exists r3, s3. split_and!; [done|by eapply same_view_trans|]. intros Hz3. destruct (Hr3 Hz3) as [Hin Hpl].
    split; [|by rewrite Hpl, Hm2, Hm]. apply Hstep; [|done]. unfold segment_in. fold ph. rewrite Ek. done.
  - by exists ENOEXEC, s1.
Qed.
End loading.

(** What a successful load leaves: all the segments of the file in memory that
    the address space had prepared. *)
Definition is_image (file : list Z) (a entry : Z) m : Prop :=
  zlength (header file) = sizeof_Ehdr /\ header_ok (header file) = true /\ entry = e_entry (header file) /\
  (forall i, 0 <= i < e_phnum (header file) -> segment_in file i) /\
  exists w, (as_prepare_load a w).1 = 0 /\
    m = place (Z.to_nat (e_phnum (header file))) 0 file (user_mem a (as_prepare_load a w).2).

Definition image_of (v : Z) s (entry : Z) s' : Prop :=
  let file := contents v (e_world s) in
  is_image file (e_cur s) entry (cur_mem s') /\
  regions (e_cur s) (e_world s') =
    regions (e_cur s) (e_world s) ++ seg_regions (Z.to_nat (e_phnum (header file))) 0 file /\
  e_active s' = e_cur s'.

Lemma load_elf_run v s :
  exists r s', load_elf v s = Ret (r, s') /\ e_heap s' = e_heap s /\ e_cur s' = e_cur s /\
    (r.1 <> 0 -> e_active s' = e_active s) /\ (r.1 = 0 -> image_of v s r.2 s').
Proof.
  unfold load_elf, curproc_getas, gets. unfold bind at 1. set (a := e_cur s). set (file := contents v (e_world s)).
  assert (Hbytes : Forall (fun b => 0 <= b < 256) file) by apply contents_bytes.
  destruct (read_struct_run v sizeof_Ehdr 0 s ltac:(done)) as (r & s1 & E & Hv & Hok).
  assert (Herr : forall e s', e <> 0 -> kept s s' -> exists r s'', ret (e, 0) s' = Ret (r, s'') /\ e_heap s'' = e_heap s /\
    e_cur s'' = a /\ (r.1 <> 0 -> e_active s'' = e_active s) /\ (r.1 = 0 -> image_of v s r.2 s'')).
  { intros e s' He (H1 & H2 & H3). by exists (e, 0), s'. }
  rewrite (bind_ok _ _ _ _ _ E). destruct (Z.eqb_spec r.1 0) as [Hz|Hz]; cbn [negb]; [|apply Herr; [done|apply Hv]].
  destruct (Hok Hz) as (Eh & Hlen & Hm). fold file in Eh. fold (header file) in Eh. rewrite Eh in Hlen |- *.
  destruct (header_ok (header file)) eqn:Ehd; cbn [negb]; [|apply Herr; [done|apply Hv]].
  pose proof Hv as (Hk1 & Hc1 & Hr1). fold file in Hc1. fold a in Hr1. pose proof Hk1 as (_ & Hcur1 & _). fold a in Hcur1.
  set (n := Z.to_nat (e_phnum (header file))).
  destruct (define_loop_run v file n 0 a s1 Hc1 (eq_sym Hcur1)) as (r2 & s2 & E2 & Hk2 & Hc2 & Hr2).
  rewrite (bind_ok _ _ _ _ _ E2). pose proof (kept_trans _ _ _ Hk1 Hk2) as Hk12.
  destruct (Z.eqb_spec r2 0) as [->|]; cbn [negb]; [|by apply Herr]. specialize (Hr2 eq_refl).
  unfold bind at 1, in_world. pose proof (regions_prepare a (e_world s2)) as Hrp. pose proof (prepare_file v a (e_world s2)) as Hfp.
  destruct (as_prepare_load a (e_world s2)) as [r3 w3] eqn:Ep. cbn in Hrp, Hfp.
  destruct (Z.eqb_spec r3 0) as [->|]; cbn [negb]; [|by apply Herr]. pose proof Hk12 as (_ & Hcur2 & _). fold a in Hcur2.
  destruct (load_loop_run v file Hbytes n 0 a (set_eworld s2 w3)) as (r4 & s4 & E4 & Hv4 & Hr4); [cbn; congruence|done|].
  rewrite (bind_ok _ _ _ _ _ E4). pose proof Hv4 as (Hk4 & _ & Hrg4).
  assert (Hk14 : kept s s4) by (eapply kept_trans; [exact Hk12|exact Hk4]).
  destruct (Z.eqb_spec r4 0) as [->|]; cbn [negb]; [|by apply Herr]. destruct (Hr4 eq_refl) as [Hin Hpl].
  unfold bind at 1, in_world. pose proof (complete_keeps a (e_world s4)) as Hck. pose proof (regions_complete a (e_world s4)) as Hcr.
  destruct (as_complete_load a (e_world s4)) as [r5 w5]. cbn in Hck, Hcr.
  destruct (Z.eqb_spec r5 0) as [->|]; cbn [negb]; [|by apply Herr]. pose proof Hk14 as (Hh & Hcur4 & _). fold a in Hcur4.
  unfold bind at 1, in_world. unfold bind at 1, as_activate, modify, ret. do 2 eexists. split; [done|].
  split_and!; [done|done|done|]. intros _. cbv zeta. unfold image_of, is_image. fold file. fold n. fold a. cbn.
  split_and!; try done.
  - intros i Hi. apply Hin. unfold n. lia.
  - exists (e_world s2). rewrite Ep. split; [done|]. unfold cur_mem in *. cbn in *. rewrite Hcur4 in *. rewrite Hcur2 in Hpl.
    by rewrite loaded_keeps, Hck.
  - rewrite regions_loaded, Hcr. cbn in Hrg4. rewrite Hcur2 in Hrg4. by rewrite Hrg4, Hrp, Hr2, Hr1.
Qed.


(** ** Entering a program *)

(** A process that starts with these arguments: the image of the file, with the
    arguments at the top of the stack and the stack pointer below them. *)
Definition starts (file : list Z) (argv : list (list Z)) (argc p sp entry : Z) s' : Prop :=
  argc = zlength argv /\ p = sp /\ sp = USERSPACETOP - args_room argv /\ user_args (cur_mem s') p argv /\
  e_active s' = e_cur s' /\
  exists m, is_image file (e_cur s') entry m /\ changed m (cur_mem s') sp USERSPACETOP.

(** The stack, once the program is loaded. *)
Lemma stack_run argv s1 w t s2 :
  Forall no_zero argv -> args_room argv <= stack_size ->
  as_define_stack (e_cur s1) (e_world s1) = (t, w) -> t.1 = 0 -> s2 = set_eworld s1 w ->
  exists s' m', argumentPassing argv t.2 s2 = Ret ((0, USERSPACETOP - args_room argv), s') /\
    with_mem s2 m' s' /\ changed (cur_mem s1) m' (USERSPACETOP - args_room argv) USERSPACETOP /\
    user_args m' (USERSPACETOP - args_room argv) argv.
Proof.
  intros Hz Hroom Es Ht ->. pose proof (stack_top (e_cur s1) (e_world s1)) as Htop. pose proof (stack_keeps (e_cur s1) (e_world s1)) as Hk.
  pose proof (stack_mapped (e_cur s1) (e_world s1)) as Hmap. rewrite Es in Htop, Hk, Hmap. cbn in Htop, Hk, Hmap.
  rewrite (Htop Ht). pose proof stack_size_pos. pose proof user_top.
  assert (Em : cur_mem (set_eworld s1 w) = cur_mem s1) by done.
  destruct (argumentPassing_ok argv USERSPACETOP (set_eworld s1 w)) as (s' & m' & E & Hw & Hc & Hu); try done; [lia| |].
  - intros x Hx. rewrite Em. apply Hmap; [done|lia].
  - exists s', m'. by rewrite Em in Hc.
Qed.

Lemma setas_run a s : curproc_setas a s = Ret (e_cur s, mk_est (e_heap s) (e_world s) a (e_active s)).
Proof. done. Qed.

Lemma exec_image_run v argv s :
  Forall no_zero argv -> args_room argv <= stack_size -> (as_create (e_world s)).1 <> e_cur s ->
  exists e s', exec_image v argv s = Ret (e, s') /\ e_heap s' = e_heap s /\
    match e with
    | Returned r => r <> 0 /\ e_cur s' = e_cur s
    | Entered argc p sp entry => starts (contents v (e_world s)) argv argc p sp entry s'
    end.
Proof.
  intros Hz Hroom Hnew. unfold exec_image. unfold bind at 1, in_world at 1.
  pose proof (create_file v (e_world s)) as Hfile. destruct (as_create (e_world s)) as [a w] eqn:Ea. cbn in Hnew, Hfile.
  destruct (Z.eqb_spec a 0) as [->|Ha]; [by do 2 eexists|].
  rewrite (bind_ok _ _ _ _ _ (setas_run a (set_eworld s w))). cbn [e_cur e_heap e_world e_active set_eworld].
  set (s1 := mk_est (e_heap s) w a a).
  assert (Eact : as_activate (mk_est (e_heap s) w a (e_active s)) = Ret (tt, s1)) by done.
  rewrite (bind_ok _ _ _ _ _ Eact).
  destruct (load_elf_run v s1) as (r & s2 & E & Hh & Hcur & _ & Him). rewrite (bind_ok _ _ _ _ _ E). cbn in Hh, Hcur.
  destruct (Z.eqb_spec r.1 0) as [Hr|Hr]; cbn [negb]; [|do 2 eexists; split; [done|]; by rewrite <- Hh].
  destruct (Him Hr) as (Himg & _ & Hact). cbn [e_cur e_world] in Himg. unfold s1 in Himg. cbn [e_cur e_world] in Himg. rewrite Hfile in Himg.
  unfold bind at 1, in_world at 1. set (s3 := set_eworld s2 (vfs_close v (e_world s2))).
  assert (Em3 : cur_mem s3 = cur_mem s2) by (unfold cur_mem; cbn; by rewrite close_keeps).
  unfold bind at 1, in_world at 1. destruct (as_define_stack a (e_world s3)) as [t w4] eqn:Et.
  destruct (Z.eqb_spec t.1 0) as [Ht|Ht]; cbn [negb]; [|do 2 eexists; split; [done|]; by rewrite <- Hh].
  assert (Hcur3 : e_cur s3 = a) by done.
  destruct (stack_run argv s3 w4 t (set_eworld s3 w4) Hz Hroom) as (s5 & m5 & E5 & (Hh5 & Hcur5 & Hact5 & Hm5) & Hc5 & Hu5);
    [by rewrite Hcur3|done|done|].
  rewrite (bind_ok _ _ _ _ _ E5). cbn [fst snd Z.eqb negb]. unfold bind, in_world, ret. do 2 eexists. split; [done|].
  cbn in Hh5, Hcur5, Hact5. split; [cbn; by rewrite Hh5|].
  assert (Em : cur_mem (set_eworld s5 (as_destroy (e_cur s) (e_world s5))) = m5).
  { rewrite <- Hm5. unfold cur_mem. cbn. rewrite Hcur5, Hcur. by apply destroy_keeps. }
  unfold starts. rewrite Em. cbn. split_and!; try done; [congruence|]. exists (cur_mem s2).
  rewrite Hcur5, Hcur. split; [done|]. by rewrite <- Em3.
Qed.

Lemma kmalloc_run h s bs sz :
  has_new h (e_heap s) bs -> 0 <= sz <= heap_max ->
  exists p h', in_kheap (kmalloc sz) s = Ret (p, set_eheap s h') /\
    ((p = 0 /\ has_new h h' bs) \/ (0 < p /\ has_new h h' ((p, sz) :: bs))).
Proof.
  intros Hn Hsz. destruct (kmalloc_has_new h (e_heap s) bs sz Hn Hsz) as (p & h' & E & R).
  exists p, h'. unfold in_kheap. by rewrite E.
Qed.

Lemma room_bounds argv :
  Forall (fun l => zlength l + 1 <= args_room argv) argv /\ 4 * (zlength argv + 1) <= args_room argv.
Proof.
  unfold args_room. pose proof (zlength_nonneg argv). pose proof (strings_room_bounds argv) as [Hr _]. split; [|lia].
  enough (Hf : Forall (fun l => zlength l + 1 <= strings_room argv) argv) by (eapply Forall_impl; [exact Hf|cbn; lia]).
  clear. induction argv as [|l argv IH]; [done|]. cbn. fold (strings_room argv). pose proof (strings_room_bounds argv) as [Hr _].
  pose proof (arg_room_bounds l) as (H1 & _ & H2). apply list.Forall_cons. split; [lia|].
  eapply Forall_impl; [exact IH|cbn; lia].
Qed.

Lemma exec_program_run progname path argv s :
  user_string (cur_mem s) progname path -> Forall no_zero argv -> args_room argv <= stack_size ->
  (as_create (vfs_open path (e_world s)).2).1 <> e_cur s ->
  exists e s', exec_program progname argv s = Ret (e, s') /\ e_heap s' = e_heap s /\
    match e with
    | Returned r => r <> 0 /\ e_cur s' = e_cur s
    | Entered argc p sp entry =>
        exists v, (vfs_open path (e_world s)).1 = (0, v) /\
          starts (contents v (vfs_open path (e_world s)).2) argv argc p sp entry s'
    end.
Proof.
  intros Hp Hz Hroom Hnew. unfold exec_program. rewrite (bind_ok _ _ _ _ _ (string_at_user _ _ _ Hp)).
  unfold bind, in_world. destruct (vfs_open path (e_world s)) as [[res v] w]. cbn in Hnew. destruct (Z.eqb_spec res 0) as [->|Hr]; cbn [negb].
  - destruct (exec_image_run v argv (set_eworld s w) Hz Hroom Hnew) as (e & s' & E & Hh & He). exists e, s'.
    split_and!; [done|done|]. destruct e; [done|]. by exists v.
  - by do 2 eexists.
Qed.


(** [runprogram] starts a program with the arguments that it is given: a process
    without an address space either gets an error number other than 0, or enters
    the program with the image of its file in memory and the arguments on the
    stack. *)
Theorem runprogram_correct progname argv s :
  e_cur s = 0 -> Forall no_zero argv -> args_room argv <= stack_size ->
  exists e s', runprogram progname argv s = Ret (e, s') /\ e_heap s' = e_heap s /\
    match e with
    | Returned r => r <> 0
    | Entered argc p sp entry =>
        exists v, (vfs_open progname (e_world s)).1 = (0, v) /\
          starts (contents v (vfs_open progname (e_world s)).2) argv argc p sp entry s'
    end.
Proof.
  intros Hcur0 Hz Hroom. unfold runprogram. unfold bind at 1, in_world at 1.
  destruct (vfs_open progname (e_world s)) as [[res v] w0] eqn:Eo. cbn [fst snd].
  destruct (Z.eqb_spec res 0) as [->|Hr0]; cbn [negb]; [|by do 2 eexists].
  unfold curproc_getas, gets. unfold bind at 1. cbn [e_cur set_eworld]. rewrite Hcur0. change (0 =? 0) with true.
  unfold kassert, bind at 1, ret at 1. unfold bind at 1, in_world at 1. cbn [e_world set_eworld].
  pose proof (create_file v w0) as Hfile. destruct (as_create w0) as [a w] eqn:Ea. cbn in Hfile.
  destruct (Z.eqb_spec a 0) as [->|Ha]; [by do 2 eexists|].
  rewrite (bind_ok _ _ _ _ _ (setas_run a (set_eworld (set_eworld s w0) w))). cbn [e_cur e_heap e_world e_active set_eworld].
  set (s1 := mk_est (e_heap s) w a a).
  assert (Eact : as_activate (mk_est (e_heap s) w a (e_active s)) = Ret (tt, s1)) by done.
  rewrite (bind_ok _ _ _ _ _ Eact).
  destruct (load_elf_run v s1) as (r & s2 & E & Hh & Hcur & _ & Him). rewrite (bind_ok _ _ _ _ _ E). cbn in Hh, Hcur.
  unfold bind at 1, in_world at 1. set (s3 := set_eworld s2 (vfs_close v (e_world s2))).
  destruct (Z.eqb_spec r.1 0) as [Hr|Hr]; cbn [negb]; [|by do 2 eexists].
  destruct (Him Hr) as (Himg & _ & Hact). unfold s1 in Himg. cbn [e_cur e_world] in Himg. rewrite Hfile in Himg.
  assert (Em3 : cur_mem s3 = cur_mem s2) by (unfold cur_mem; cbn; by rewrite close_keeps).
  unfold bind at 1, in_world at 1. destruct (as_define_stack a (e_world s3)) as [t w4] eqn:Et.
  destruct (Z.eqb_spec t.1 0) as [Ht|Ht]; cbn [negb]; [|by do 2 eexists].
  destruct (stack_run argv s3 w4 t (set_eworld s3 w4) Hz Hroom) as (s5 & m5 & E5 & (Hh5 & Hcur5 & Hact5 & Hm5) & Hc5 & Hu5);
    [by cbn; rewrite Hcur|done|done|].
  rewrite (bind_ok _ _ _ _ _ E5). cbn [fst snd Z.eqb negb]. do 2 eexists. split; [done|].
  cbn in Hh5, Hcur5, Hact5. split; [congruence|]. exists v. split; [done|].
  unfold starts. rewrite Hm5. split_and!; try done; [congruence|]. exists (cur_mem s2).
  rewrite Hcur5, Hcur. split; [done|]. by rewrite <- Em3.
Qed.

(** What one program start puts on the stack, execv can read: the words and
    strings that passing the arguments stores are counted and copied back into the
    kernel as the same list of strings, unless memory runs out. *)
Theorem arguments_roundtrip argv s :
  heap_ok (e_heap s) -> Forall no_zero argv -> args_room argv < USERSPACETOP ->
  mapped (cur_mem s) (USERSPACETOP - args_room argv) USERSPACETOP ->
  exists p s', argumentPassing argv USERSPACETOP s = Ret ((0, p), s') /\
    count_loop (reach s') p 0 s' = Ret (zlength argv, s') /\
    exists r s'', copy_args (length argv) 0 p s' = Ret (r, s'') /\ (r.1 = ENOMEM \/ r = (0, argv)).
Proof.
  intros Hok Hz Hroom Hm. pose proof user_top.
  destruct (argumentPassing_ok argv USERSPACETOP s) as (s' & m' & E & (Hh & _ & _ & <-) & _ & (ptrs & Hlen & Hw & Hs)); [done..|lia|lia|done|].
  exists (USERSPACETOP - args_room argv), s'. split; [done|]. split.
  - apply (count_loop_user s' _ argv ptrs Hlen Hw Hs 0%nat); [lia|]. pose proof (argc_reach s' _ argv ptrs Hlen Hw). lia.
  - destruct (copy_args_user s' _ argv ptrs Hlen Hw Hs (e_heap s') (length argv) 0 []) as (r & h & bs & E2 & _ & Hr).
    + apply has_new_refl. by rewrite Hh.
    + done.
    + pose proof (room_bounds argv) as [Hrooms _]. assert (USERSPACETOP <= heap_max) by done.
      eapply Forall_impl; [exact Hrooms|cbn; intros; lia].
    + unfold heaped in E2. rewrite set_eheap_id in E2. exists r, (set_eheap s' h). split; [done|].
      destruct Hr as [Hr|[-> _]]; [by left|by right].
Qed.

(** A pointer to arguments that the process cannot read is not an [EFAULT]: the
    kernel reads through it itself, and stops. *)
Theorem execv_bad_pointer_panics junk progname args s :
  progname <> 0 -> args <> 0 -> 0 <= args < USERSPACETOP -> args mod 4 = 0 -> cur_mem s !! args = None ->
  sys_execv junk progname args s = Panic.
Proof.
  intros Hp Ha Hr Hm E. unfold sys_execv. rewrite (proj2 (Z.eqb_neq progname 0)), (proj2 (Z.eqb_neq args 0)) by done. cbn [orb].
  unfold get, bind at 1. unfold reach. cbn [count_loop]. unfold bind at 1. unfold bind at 1. unfold arg_ptr, peek_word.
  pose proof user_top. rewrite Z.mul_0_r, Z.add_0_r, w32_id by (unfold is_u32, two32; lia). rewrite Hm. cbn [Z.eqb negb].
  unfold peek. unfold bind at 1. unfold get, bind at 1. rewrite (proj2 (Z.ltb_lt args USERSPACETOP)) by lia.
  fold (cur_mem s). by rewrite E.
Qed.
End spec.

(** ** A small machine

    Files by their number, address spaces as maps of bytes, and a stack of 64
    bytes. *)
Module Tiny.

Record t := mk {
  files : list (list Z * list Z);
  spaces : gmap Z umem;
  segs : gmap Z (list (Z * Z * (bool * bool * bool)));
  next : Z
}.

Definition mem_of (a : Z) (w : t) : umem := default ∅ (spaces w !! a).
Definition segs_of (a : Z) (w : t) := default [] (segs w !! a).
Definition with_space (a : Z) (m : umem) (w : t) : t := mk (files w) (<[a := m]> (spaces w)) (segs w) (next w).

Definition content (v : Z) (w : t) : list Z :=
  map (fun b => b mod 256) (nth (Z.to_nat v - 1) (map snd (files w)) []).

Fixpoint find (path : list Z) (l : list (list Z * list Z)) (v : Z) : Z * Z :=
  match l with
  | [] => (ENOENT, 0)
  | f :: l => if bool_decide (f.1 = path) then (0, v) else find path l (v + 1)
  end.

Definition read (v : Z) (x : xfer) (w : t) : Z * xfer * t :=
  match steps (slice (content v w) (uio_offset (xu x)) (uio_resid (xu x))) x with
  | Some (_, x') => (0, x', w)
  | None => (EFAULT, x, w)
  end.

Definition zeros (m : umem) (a n : Z) : umem := foldr (fun i m => <[a + i := 0]> m) m (seqZ 0 n).
Definition prepare (a : Z) (w : t) : Z * t :=
  (0, with_space a (zeros (foldr (fun r m => zeros m r.1.1 r.1.2) ∅ (segs_of a w)) (USERSPACETOP - 64) 64) w).
Definition stack (a : Z) (w : t) : Z * Z * t :=
  ((if forallb (fun i => bool_decide (is_Some (mem_of a w !! (USERSPACETOP - 64 + i)))) (seqZ 0 64) then 0 else EFAULT,
    USERSPACETOP), w).

#[refine, global] Instance tiny : Images t := {
  as_create w := (next w, mk (files w) (spaces w) (segs w) (next w + 1));
  as_define_region a va sz r wr x w :=
    (0, mk (files w) (spaces w) (<[a := segs_of a w ++ [((va, sz), (r, wr, x))]]> (segs w)) (next w));
  as_prepare_load := prepare;
  as_complete_load _ w := (0, w);
  as_loaded _ w := w;
  as_define_stack := stack;
  stack_size := 64;
  as_destroy a w := mk (files w) (delete a (spaces w)) (segs w) (next w);
  user_mem := mem_of;
  store_mem := with_space;
  kernel_mem _ := ∅;
  vfs_open path w := (find path (files w) 1, w);
  vfs_close _ w := w;
  contents := content;
  regions := segs_of;
  vop_read := read
}.
Proof.
  - intros v w. apply Forall_map, list.Forall_forall. intros b _. cbn. apply Z.mod_pos_bound. lia.
  - intros. unfold mem_of, with_space. cbn. by rewrite lookup_insert_eq.
  - done.
  - intros v x w x' w'. unfold read. destruct (steps _ x) as [[d y]|]; [|done]. intros [= <- <-]. by exists d.
  - intros. unfold read. by destruct (steps _ x) as [[d y]|].
  - intros. unfold read. by destruct (steps _ x) as [[d y]|].
  - intros a va sz r w x W W' [= <-]. unfold segs_of at 1. cbn. by rewrite lookup_insert_eq.
  - done.
  - intros. unfold read. by destruct (steps _ x) as [[d y]|].
  - done.
  - done.
  - done.
  - done.
  - done.
  - done.
  - done.
  - done.
  - done.
  - intros a b w Hn. unfold mem_of. cbn. by rewrite lookup_delete_ne.
  - done.
  - done.
  - done.
  - intros a w x. unfold stack. cbn. destruct (forallb _ _) eqn:E; [|done]. intros _ Hx.
    rewrite forallb_forall in E. specialize (E (x - (USERSPACETOP - 64))). replace (USERSPACETOP - 64 + (x - (USERSPACETOP - 64))) with x in E by lia.
    apply (proj1 (bool_decide_eq_true _)), E, list_elem_of_In, elem_of_seqZ. lia.
Defined.

(** A program with one segment of three bytes, in memory of five. *)
Definition program : list Z :=
  [127; 69; 76; 70; 1; 2; 1] ++ replicate 9 0 ++ [0; 2; 0; 8; 0; 0; 0; 1; 0; 64; 0; 0; 0; 0; 0; 52] ++ replicate 8 0 ++
  [0; 52; 0; 32; 0; 1] ++ replicate 6 0 ++
  [0; 0; 0; 1; 0; 0; 0; 84; 0; 64; 0; 0; 0; 0; 0; 0; 0; 0; 0; 3; 0; 0; 0; 5; 0; 0; 0; 5; 0; 0; 0; 0] ++ [1; 2; 3].

(** The name "p" at 100, "ab" at 104 and an array of one argument at 112. *)
Definition old_mem : umem :=
  list_to_map [(100, 112); (101, 0); (104, 97); (105, 98); (106, 0); (112, 0); (113, 0); (114, 0); (115, 104);
               (116, 0); (117, 0); (118, 0); (119, 0)].

(** The process runs in the address space 7; [image] is the file of the program. *)
Definition start (image : list Z) (m : umem) : est t RefHeap.t :=
  mk_est (RefHeap.init 1000) (mk [([112], image)] {[7 := m]} ∅ 8) 7 7.

(** A long argument at 200, more than the stack holds. *)
Definition long_mem : umem :=
  zeros (list_to_map ([(100, 112); (101, 0); (115, 200)] ++ map (fun i => (200 + Z.of_nat i, 97)) (seq 0 70)))
        112 3 ∪ zeros ∅ 116 4 ∪ {[270 := 0]}.

End Tiny.

Lemma old_args : user_args Tiny.old_mem 112 [[97; 98]].
Proof.
  exists [104]. split_and!; [done| |].
  - intros [|[|i]] q Hi; try done; injection Hi as <-; (split_and!; try done); intros [|[|[|[|j]]]] b Hj; try done; injection Hj as <-; vm_compute; reflexivity.
  - intros [|i] q l Hi Hl; [|done]. injection Hi as <-. injection Hl as <-. split; [done|]. split_and!; try done.
    + by repeat constructor.
    + intros [|[|[|j]]] b Hj; try done; injection Hj as <-; vm_compute; reflexivity.
Qed.

Lemma old_name : user_string Tiny.old_mem 100 [112].
Proof.
  split_and!; try done; [by repeat constructor|]. intros [|[|j]] b Hj; try done; injection Hj as <-; vm_compute; reflexivity.
Qed.

(** How a call of execv ends, with the address space of the process and the one of the
    translations. *)
Definition outcome_of (s : est Tiny.t RefHeap.t) : option (exec_end * Z * Z) :=
  match sys_execv 0 100 112 s with Ret (e, s') => Some (e, e_cur s', e_active s') | _ => None end.


Lemma runprogram_correct_witness :
  let s := mk_est (RefHeap.init 1000) (Tiny.mk [([112], Tiny.program)] ∅ ∅ 8) 0 0 in
  exists e s', runprogram [112] [[97; 98]; []] s = Ret (e, s') /\ e_heap s' = e_heap s /\
    match e with
    | Returned r => r <> 0
    | Entered argc p sp entry =>
        exists v, (vfs_open [112] (e_world s)).1 = (0, v) /\
          starts (contents v (vfs_open [112] (e_world s)).2) [[97; 98]; []] argc p sp entry s'
    end.
Proof.
  intros s. apply (runprogram_correct [112] [[97; 98]; []] s); [done|by repeat constructor|by vm_compute].
Defined.

Lemma arguments_roundtrip_witness :
  let s := Tiny.start Tiny.program (Tiny.zeros ∅ (USERSPACETOP - 64) 64) in
  exists p s', argumentPassing [[97; 98]; []] USERSPACETOP s = Ret ((0, p), s') /\
    count_loop (reach s') p 0 s' = Ret (2, s') /\
    exists r s'', copy_args 2 0 p s' = Ret (r, s'') /\ (r.1 = ENOMEM \/ r = (0, [[97; 98]; []])).
Proof.
  intros s. apply (arguments_roundtrip [[97; 98]; []] s); [apply RefHeap.init_ok|by repeat constructor|by vm_compute|].
  intros x Hx. change (args_room _) with 28 in Hx. unfold USERSPACETOP in Hx. change Coremap.MIPS_KSEG0 with 2147483648 in Hx.
  assert (Hall : forallb (fun i => bool_decide (is_Some (cur_mem s !! (2147483620 + i)))) (seqZ 0 28) = true) by (vm_compute; reflexivity).
  rewrite forallb_forall in Hall. specialize (Hall (x - 2147483620)). replace (2147483620 + (x - 2147483620)) with x in Hall by lia.
  apply (proj1 (bool_decide_eq_true _)), Hall, list_elem_of_In, elem_of_seqZ. lia.
Defined.

(** A program that cannot be loaded: the process goes back to its address space, but
    the translations are still those of the new one. *)
Theorem execv_failed_load_translations :
  outcome_of (Tiny.start [1; 2; 3] Tiny.old_mem) = Some (Returned ENOEXEC, 7, 8).
Proof. vm_compute. reflexivity. Qed.

(** Arguments that do not fit on the stack: an error is returned to a process that
    is left in the new address space. *)
Theorem execv_arguments_too_long :
  outcome_of (Tiny.start Tiny.program Tiny.long_mem) = Some (Returned EFAULT, 8, 8).
Proof. vm_compute. reflexivity. Qed.
