(* ===== verification/Disk.v ===== *)
(** * The disk driver (kern/dev/lamebus/lhd.c)

    The driver of the LAMEbus hard disk, against the documented behaviour of
    the card ([DiskHW]), and the interface that a block device gives to a file
    system ([BlockDev]), which the driver is shown to implement.  The driver
    serialises its requests with the semaphore [lh_clear] and waits for the
    completion interrupt on [lh_done]; a request is one step here, and the
    result is the one that the interrupt handler saves. *)

From stdpp Require Import base numbers list gmap.
From Stdlib Require Import ZArith Lia.
From S2P Require Import Prelude Uio.

(** ** The card *)

Definition LHD_SECTSIZE : Z := 512.
Definition LHD_WORKING : Z := 1.
Definition LHD_OK : Z := 4.
Definition LHD_INVSECT : Z := 12.
Definition LHD_MEDIA : Z := 20.
Definition LHD_ISWRITE : Z := 2.
Definition LHD_STATEMASK : Z := 29.

(** The hardware: writing the status register starts the operation on the
    sector in the sector register and the on-card buffer; [hw_op] gives the
    status register at the interrupt, the buffer, and the disk afterwards.

    It completes with success, or with a media error; it touches no other
    sector than the one it was given, and a read changes none. After a media
    error on a write nothing is known of the sector. [hw_wok] says that writes
    do not fail. *)
Class DiskHW (D : Type) := {
  hw_nsect : D -> Z;
  hw_op : Z -> Z -> list Z -> D -> Z * list Z * D;
  hw_data : D -> Z -> list Z;
  hw_ok : D -> Prop;
  hw_wok : D -> Prop;
  hw_size d : hw_ok d -> 0 <= hw_nsect d < two32;
  hw_sector d i : hw_ok d -> 0 <= i < hw_nsect d -> zlength (hw_data d i) = LHD_SECTSIZE;
  hw_op_spec d sect stat buf :
    hw_ok d -> 0 <= sect < hw_nsect d -> zlength buf = LHD_SECTSIZE ->
    exists code buf' d', hw_op sect stat buf d = (code, buf', d') /\
      hw_ok d' /\ hw_nsect d' = hw_nsect d /\ zlength buf' = LHD_SECTSIZE /\
      (hw_wok d -> hw_wok d') /\
      (forall j, j <> sect -> hw_data d' j = hw_data d j) /\
      (stat = LHD_WORKING -> hw_data d' sect = hw_data d sect) /\
      (Z.land code LHD_STATEMASK = LHD_OK /\
         (stat = LHD_WORKING -> buf' = hw_data d sect) /\
         (stat = Z.lor LHD_WORKING LHD_ISWRITE -> hw_data d' sect = buf) \/
       Z.land code LHD_STATEMASK = LHD_MEDIA /\
         (stat = Z.lor LHD_WORKING LHD_ISWRITE -> ~ hw_wok d))
}.

(** ** The driver *)

Section driver.
Context {D : Type} `{DiskHW D}.

(** [struct lhd_softc]: the card and its buffer. *)
Record lhd := mk_lhd { lh_disk : D; lh_buf : list Z }.

Definition lhd_code_to_errno (code : Z) : Z :=
  let c := Z.land code LHD_STATEMASK in
  if c =? LHD_OK then 0
  else if c =? LHD_INVSECT then EINVAL
  else if c =? LHD_MEDIA then EIO
  else EAGAIN.

(** The state of a request: the device and the transfer. *)
Record req := mk_req { rq_dev : lhd; rq_x : xfer }.

(** [uiomove(lh->lh_buf, LHD_SECTSIZE, uio)]. *)
Definition buf_move (curas : Z) : M req Z := fun s =>
  match uiomove curas (lh_buf (rq_dev s)) LHD_SECTSIZE (rq_x s) with
  | Ret (result, buf, x) => Ret (result, mk_req (mk_lhd (lh_disk (rq_dev s)) buf) x)
  | Panic => Panic
  | Fault => Fault
  | NoFuel => NoFuel
  end.

(** The two register writes, and the result that [lhd_irq] saves with
    [lhd_iodone]. *)
Definition start_op (sector statval : Z) : M req Z := fun s =>
  let '(code, buf, d) := hw_op sector statval (lh_buf (rq_dev s)) (lh_disk (rq_dev s)) in
  Ret (lhd_code_to_errno code, mk_req (mk_lhd d buf) (rq_x s)).

(** The body of the loop over the sectors; [Some] is a return. *)
Definition lhd_sector (curas : Z) (rw : uio_rw_t) (sector statval i : Z) : M req (option Z) :=
  let* result :=
    match rw with UIO_WRITE => buf_move curas | UIO_READ => ret 0 end in
  if negb (result =? 0) then ret (Some result) else
  let* result := start_op (w32 (sector + i)) statval in
  let* result :=
    match rw with
    | UIO_READ => if result =? 0 then buf_move curas else ret result
    | UIO_WRITE => ret result
    end in
  if negb (result =? 0) then ret (Some result) else ret None.

Definition lhd_io (curas : Z) : M req Z :=
  let* s := get in
  let u := xu (rq_x s) in
  let sector := w32 (Z.quot (uio_offset u) LHD_SECTSIZE) in
  let sectoff := w32 (Z.rem (uio_offset u) LHD_SECTSIZE) in
  let len := uio_resid u / LHD_SECTSIZE in
  let lenoff := uio_resid u mod LHD_SECTSIZE in
  if negb (sectoff =? 0) || negb (lenoff =? 0) then ret EINVAL
  else if hw_nsect (lh_disk (rq_dev s)) <? w32 (sector + len) then ret EINVAL
  else
    let statval := match uio_rw u with
                   | UIO_WRITE => Z.lor LHD_WORKING LHD_ISWRITE
                   | UIO_READ => LHD_WORKING
                   end in
    let* r := for_ret (Z.to_nat len) 0 (lhd_sector curas (uio_rw u) sector statval) in
    match r with Some result => ret result | None => ret 0 end.

End driver.

Arguments lhd D : clear implicits.
Arguments req D : clear implicits.

(** ** The interface of a block device *)

(** A uio for the one block [b], in the address space of the caller. *)
Record block_req (curas b : Z) (x : xfer) : Prop := {
  br_wf : uio_wf (xu x);
  br_off : uio_offset (xu x) = b * 512;
  br_res : uio_resid (xu x) = 512;
  br_space : uio_space (xu x) = match uio_segflg (xu x) with UIO_SYSSPACE => 0 | _ => curas end
}.

(** What is left of a uio after a transfer that failed with [EFAULT]. *)
Definition after_fault (x x' : xfer) : Prop :=
  uio_segflg (xu x) <> UIO_SYSSPACE /\ uio_wf (xu x') /\ same_kind (xu x) (xu x') /\
  uio_offset (xu x) <= uio_offset (xu x') /\
  uio_offset (xu x') + uio_resid (xu x') = uio_offset (xu x) + uio_resid (xu x).

Class BlockDev (D : Type) := {
  d_blocks : D -> Z;
  d_blocksize : D -> Z;
  d_io : Z -> xfer -> D -> outcome (Z * xfer * D);
  dev_block : D -> Z -> list Z;
  dev_ok : D -> Prop;
  (** writes do not fail *)
  dev_wok : D -> Prop;
  dev_size d : dev_ok d -> 0 <= d_blocks d < two32;
  dev_len d b : dev_ok d -> 0 <= b < d_blocks d -> zlength (dev_block d b) = 512;
  (** a read moves the block through the uio, or fails with nothing moved, or
      meets a bad address *)
  dev_read d curas b x :
    dev_ok d -> 0 <= b < d_blocks d -> block_req curas b x -> uio_rw (xu x) = UIO_READ ->
    exists r x' d', d_io curas x d = Ret (r, x', d') /\ dev_ok d' /\ (dev_wok d -> dev_wok d') /\
      d_blocks d' = d_blocks d /\ (forall j, dev_block d' j = dev_block d j) /\
      (r = 0 /\ steps (dev_block d b) x = Some (dev_block d b, x') \/
       r = EIO /\ x' = x \/
       r = EFAULT /\ steps (dev_block d b) x = None /\ after_fault x x');
  (** a write stores the bytes that it moves, or meets a bad address with no
      block changed; after a device error the bytes have been moved and nothing
      is known of the block *)
  dev_write d curas b x :
    dev_ok d -> 0 <= b < d_blocks d -> block_req curas b x -> uio_rw (xu x) = UIO_WRITE ->
    exists r x' d', d_io curas x d = Ret (r, x', d') /\ dev_ok d' /\ (dev_wok d -> dev_wok d') /\
      d_blocks d' = d_blocks d /\ (forall j, j <> b -> dev_block d' j = dev_block d j) /\
      (r = 0 /\ (exists data, steps (replicate 512 0) x = Some (data, x') /\ dev_block d' b = data) \/
       r = EIO /\ ~ dev_wok d /\ (exists data, steps (replicate 512 0) x = Some (data, x')) \/
       r = EFAULT /\ steps (replicate 512 0) x = None /\ after_fault x x' /\
         dev_block d' b = dev_block d b)
}.

(** ** The driver implements the interface *)

Section instance.
Context {D : Type} `{DiskHW D}.

Definition lhd_d_io (curas : Z) (x : xfer) (l : lhd D) : outcome (Z * xfer * lhd D) :=
  match lhd_io curas (mk_req l x) with
  | Ret (r, s) => Ret (r, rq_x s, rq_dev s)
  | Panic => Panic
  | Fault => Fault
  | NoFuel => NoFuel
  end.

Definition lhd_ok (l : lhd D) : Prop := hw_ok (lh_disk l) /\ zlength (lh_buf l) = 512.

(** A move through the on-card buffer. *)
Lemma buf_move_spec curas b x l :
  lhd_ok l -> block_req curas b x ->
  match steps (lh_buf l) x with
  | Some (d, x') => buf_move curas (mk_req l x) = Ret (0, mk_req (mk_lhd (lh_disk l) d) x') /\
                    zlength d = 512
  | None => exists buf x', buf_move curas (mk_req l x) = Ret (EFAULT, mk_req (mk_lhd (lh_disk l) buf) x')
                           /\ zlength buf = 512 /\ after_fault x x'
  end.
Proof.
  intros [Hok Hb] [Hw Ho Hr Hsp]. unfold buf_move. cbn [rq_dev rq_x].
  pose proof (uiomove_spec curas (lh_buf l) LHD_SECTSIZE x Hw ltac:(rewrite Hb; done)
                ltac:(rewrite Hr; done) Hsp) as Hu.
  change (Z.to_nat LHD_SECTSIZE) with 512%nat in Hu.
  assert (length (lh_buf l) = 512%nat) as Hl by (unfold zlength in Hb; lia).
  rewrite (take_ge (lh_buf l)), (drop_ge (lh_buf l)) in Hu by lia.
  destruct (steps (lh_buf l) x) as [[d x']|] eqn:E.
  - rewrite Hu. rewrite app_nil_r. split; [done|]. apply steps_length in E. unfold zlength. lia.
  - destruct Hu as (Hseg & buf' & x' & -> & Hlen & Hu). exists buf', x'. split; [done|].
    split; [lia|]. by split.
Qed.

(** The checks pass and the loop runs once. *)
Lemma lhd_io_one curas b x l :
  lhd_ok l -> 0 <= b < hw_nsect (lh_disk l) -> block_req curas b x ->
  lhd_io curas (mk_req l x) =
    (let* r := lhd_sector curas (uio_rw (xu x)) b
       (match uio_rw (xu x) with UIO_WRITE => Z.lor LHD_WORKING LHD_ISWRITE | UIO_READ => LHD_WORKING end) 0 in
     match r with Some result => ret result | None => ret 0 end) (mk_req l x).
Proof.
  intros [Hok _] Hb [Hw Ho Hr Hsp]. pose proof (hw_size _ Hok) as Hsz.
  unfold lhd_io. mrun. cbn [rq_x rq_dev]. rewrite Ho, Hr. unfold LHD_SECTSIZE.
  rewrite Z.quot_mul, Z.rem_mul by lia. rewrite (w32_id b) by (unfold is_u32; lia).
  change (w32 0 =? 0) with true. change (512 / 512) with 1. change (512 mod 512 =? 0) with true.
  cbn [negb orb]. rewrite w32_id by (unfold is_u32; lia).
  destruct (Z.ltb_spec (hw_nsect (lh_disk l)) (b + 1)); [lia|].
  change (Z.to_nat 1) with 1%nat. cbn [for_ret]. mrun. unfold bind.
  destruct (lhd_sector _ _ _ _ _ _) as [[[r|] s']| | |]; done.
Qed.

(** The operation itself. *)
Lemma start_op_spec l x b stat :
  lhd_ok l -> 0 <= b < hw_nsect (lh_disk l) ->
  exists r d buf, start_op b stat (mk_req l x) = Ret (r, mk_req (mk_lhd d buf) x) /\
    lhd_ok (mk_lhd d buf) /\ (hw_wok (lh_disk l) -> hw_wok d) /\
    hw_nsect d = hw_nsect (lh_disk l) /\
    (forall j, j <> b -> hw_data d j = hw_data (lh_disk l) j) /\
    (stat = LHD_WORKING -> hw_data d b = hw_data (lh_disk l) b) /\
    (r = 0 /\ (stat = LHD_WORKING -> buf = hw_data (lh_disk l) b) /\
       (stat = Z.lor LHD_WORKING LHD_ISWRITE -> hw_data d b = lh_buf l) \/
     r = EIO /\ (stat = Z.lor LHD_WORKING LHD_ISWRITE -> ~ hw_wok (lh_disk l))).
Proof.
  intros [Hok Hbuf] Hb.
  destruct (hw_op_spec (lh_disk l) b stat (lh_buf l) Hok Hb Hbuf)
    as (code & buf & d & E & Hok' & Hn & Hlb & Hwk & Hoth & Hsame & Hcode).
  exists (lhd_code_to_errno code), d, buf. unfold start_op. cbn [rq_dev rq_x]. rewrite E.
  split; [done|]. split; [by split|]. do 4 (split; [done|]).
  destruct Hcode as [(Hc & Hrd & Hwr)|(Hc & Hf)]; unfold lhd_code_to_errno; rewrite Hc; auto.
Qed.

Lemma lhd_read l curas b x :
  lhd_ok l -> 0 <= b < hw_nsect (lh_disk l) -> block_req curas b x -> uio_rw (xu x) = UIO_READ ->
  exists r x' l', lhd_d_io curas x l = Ret (r, x', l') /\ lhd_ok l' /\
    (hw_wok (lh_disk l) -> hw_wok (lh_disk l')) /\
    hw_nsect (lh_disk l') = hw_nsect (lh_disk l) /\
    (forall j, hw_data (lh_disk l') j = hw_data (lh_disk l) j) /\
    (r = 0 /\ steps (hw_data (lh_disk l) b) x = Some (hw_data (lh_disk l) b, x') \/
     r = EIO /\ x' = x \/
     r = EFAULT /\ steps (hw_data (lh_disk l) b) x = None /\ after_fault x x').
Proof.
  intros Hl Hb Hx Hrw. unfold lhd_d_io. rewrite (lhd_io_one curas b) by done. rewrite Hrw.
  pose proof Hl as [Hok _]. pose proof (hw_size _ Hok) as Hsz.
  unfold lhd_sector. mrun. cbn [Z.eqb negb]. rewrite Z.add_0_r, w32_id by (unfold is_u32; lia).
  destruct (start_op_spec l x b LHD_WORKING Hl Hb)
    as (r & d & buf & E & Hl' & Hwk & Hn & Hoth & Hsame & Hr).
  assert (forall j, hw_data d j = hw_data (lh_disk l) j) as Hall.
  { intros j. destruct (Z.eq_dec j b) as [->|]; auto. }
  rewrite bind_bind, (bind_ok _ _ _ _ _ E).
  destruct Hr as [(-> & Hrd & _)|[-> _]]; cbn [Z.eqb negb].
  2: { mrun. eexists _, _, _. split; [done|]. cbn. split_and!; try done. by right; left. }
  pose proof (buf_move_spec curas b x _ Hl' Hx) as Hm. cbn [lh_buf lh_disk] in Hm.
  rewrite (Hrd eq_refl) in *.
  destruct (steps (hw_data (lh_disk l) b) x) as [[dat x']|] eqn:Es.
  - destruct Hm as [Hm Hdl]. rewrite bind_bind, (bind_ok _ _ _ _ _ Hm). cbn [Z.eqb negb]. mrun.
    pose proof (steps_read _ _ _ _ Hrw Es) as ->.
    eexists _, _, _. split; [done|]. cbn. split_and!; try done. by left.
  - destruct Hm as (buf' & x' & Hm & Hlb & Hf). rewrite bind_bind, (bind_ok _ _ _ _ _ Hm). cbn [Z.eqb negb].
    mrun. eexists _, _, _. split; [done|]. cbn. split_and!; try done; [by split; [apply Hl'|]|].
    by right; right.
Qed.

Lemma lhd_write l curas b x :
  lhd_ok l -> 0 <= b < hw_nsect (lh_disk l) -> block_req curas b x -> uio_rw (xu x) = UIO_WRITE ->
  exists r x' l', lhd_d_io curas x l = Ret (r, x', l') /\ lhd_ok l' /\
    (hw_wok (lh_disk l) -> hw_wok (lh_disk l')) /\
    hw_nsect (lh_disk l') = hw_nsect (lh_disk l) /\
    (forall j, j <> b -> hw_data (lh_disk l') j = hw_data (lh_disk l) j) /\
    (r = 0 /\ (exists data, steps (replicate 512 0) x = Some (data, x') /\
                            hw_data (lh_disk l') b = data) \/
     r = EIO /\ ~ hw_wok (lh_disk l) /\ (exists data, steps (replicate 512 0) x = Some (data, x')) \/
     r = EFAULT /\ steps (replicate 512 0) x = None /\ after_fault x x' /\
       hw_data (lh_disk l') b = hw_data (lh_disk l) b).
Proof.
  intros Hl Hb Hx Hrw. unfold lhd_d_io. rewrite (lhd_io_one curas b) by done. rewrite Hrw.
  pose proof Hl as [Hok Hbl]. pose proof (hw_size _ Hok) as Hsz.
  unfold lhd_sector. rewrite Z.add_0_r, w32_id by (unfold is_u32; lia).
  pose proof (buf_move_spec curas b x _ Hl Hx) as Hm.
  rewrite (steps_write (lh_buf l) (replicate 512 0)) in Hm
    by (done || (unfold zlength in Hbl; rewrite length_replicate; lia)).
  destruct (steps (replicate 512 0) x) as [[dat x1]|] eqn:Es.
  2: { destruct Hm as (buf' & x' & Hm & Hlb & Hf).
       rewrite !bind_bind, (bind_ok _ _ _ _ _ Hm). cbn [Z.eqb negb EFAULT]. mrun.
       eexists _, _, _. split; [done|]. cbn. split_and!; try done. by right; right. }
  destruct Hm as [Hm Hdl]. rewrite !bind_bind, (bind_ok _ _ _ _ _ Hm). cbn [Z.eqb negb].
  assert (lhd_ok (mk_lhd (lh_disk l) dat)) as Hl1 by done.
  destruct (start_op_spec _ x1 b (Z.lor LHD_WORKING LHD_ISWRITE) Hl1 Hb)
    as (r & d & buf & E & Hl' & Hwk & Hn & Hoth & Hsame & Hr).
  rewrite bind_bind, (bind_ok _ _ _ _ _ E). mrun.
  destruct Hr as [(-> & _ & Hwr)|[-> Hnw]]; cbn [Z.eqb negb EIO]; mrun; cbn;
    (eexists _, _, _; split; [done|]); cbn; split_and!; try done.
  - left. split; [done|]. exists dat. split; [done|by apply Hwr].
  - right; left. split_and!; [done|by apply Hnw|by exists dat].
Qed.

#[global] Instance lhd_dev : BlockDev (lhd D) := {
  d_blocks l := hw_nsect (lh_disk l);
  d_blocksize _ := LHD_SECTSIZE;
  d_io := lhd_d_io;
  dev_block l b := hw_data (lh_disk l) b;
  dev_ok := lhd_ok;
  dev_wok l := hw_wok (lh_disk l);
  dev_size l Hl := hw_size (lh_disk l) (proj1 Hl);
  dev_len l b Hl := hw_sector (lh_disk l) b (proj1 Hl);
  dev_read := lhd_read;
  dev_write := lhd_write
}.

End instance.

(** ** A disk *)

(** The reference card: its sectors, which operations fail ([true]), and
    whether writes are spared. *)
Module RefDisk.

Record t := mk { sectors : list (list Z); errs : list bool; spare_writes : bool }.

Definition op (sect stat : Z) (buf : list Z) (d : t) : Z * list Z * t :=
  let iswrite := stat =? Z.lor LHD_WORKING LHD_ISWRITE in
  let fail := match errs d with b :: _ => b | [] => false end in
  let errs' := tail (errs d) in
  if fail && negb (iswrite && spare_writes d) then
    (LHD_MEDIA, buf, mk (sectors d) errs' (spare_writes d))
  else if iswrite then
    (LHD_OK, buf, mk (<[Z.to_nat sect := buf]> (sectors d)) errs' (spare_writes d))
  else (LHD_OK, nth (Z.to_nat sect) (sectors d) [], mk (sectors d) errs' (spare_writes d)).

Definition ok (d : t) : Prop :=
  zlength (sectors d) < two32 /\ Forall (fun s => zlength s = LHD_SECTSIZE) (sectors d).

Definition data (d : t) (i : Z) : list Z :=
  if i <? 0 then [] else nth (Z.to_nat i) (sectors d) [].

Lemma sector_len d i : ok d -> 0 <= i < zlength (sectors d) -> zlength (data d i) = LHD_SECTSIZE.
Proof.
  intros [_ Hf] Hi. unfold data. destruct (Z.ltb_spec i 0); [lia|].
  destruct (lookup_lt_is_Some_2 (sectors d) (Z.to_nat i)) as [s Hs]; [unfold zlength in Hi; lia|].
  rewrite (nth_lookup_Some _ _ _ _ Hs). by apply (Forall_lookup_1 _ _ _ _ Hf Hs).
Qed.

Lemma op_spec d sect stat buf :
  ok d -> 0 <= sect < zlength (sectors d) -> zlength buf = LHD_SECTSIZE ->
  exists code buf' d', op sect stat buf d = (code, buf', d') /\
    ok d' /\ zlength (sectors d') = zlength (sectors d) /\ zlength buf' = LHD_SECTSIZE /\
    (spare_writes d = true -> spare_writes d' = true) /\
    (forall j, j <> sect -> data d' j = data d j) /\
    (stat = LHD_WORKING -> data d' sect = data d sect) /\
    (Z.land code LHD_STATEMASK = LHD_OK /\
       (stat = LHD_WORKING -> buf' = data d sect) /\
       (stat = Z.lor LHD_WORKING LHD_ISWRITE -> data d' sect = buf) \/
     Z.land code LHD_STATEMASK = LHD_MEDIA /\
       (stat = Z.lor LHD_WORKING LHD_ISWRITE -> ~ spare_writes d = true)).
Proof.
  intros Hok Hs Hb. pose proof Hok as [Hz Hf]. pose proof (sector_len d sect Hok Hs) as Hsl.
  unfold op. set (fail := match errs d with b :: _ => b | [] => false end).
  destruct (Z.eqb_spec stat (Z.lor LHD_WORKING LHD_ISWRITE)) as [->|Hne]; cbn [andb negb].
  - destruct fail; cbn [andb negb]; [destruct (spare_writes d) eqn:Ew; cbn [andb negb]|].
    2: { eexists _, _, _. split; [done|]. cbn. split_and!; try done. right. by split. }
    all: eexists _, _, _; split; [done|]; cbn; split_and!; try done;
      [split; [unfold zlength in *; cbn; rewrite length_insert; lia|by apply Forall_insert]
      |unfold zlength; by rewrite length_insert|..].
    all: try (intros j Hj; unfold data; cbn; destruct (Z.ltb_spec j 0); [done|];
              rewrite !nth_lookup, list_lookup_insert_ne by lia; done).
    all: left; split_and!; [done|done|intros _; unfold data; cbn;
      destruct (Z.ltb_spec sect 0); [lia|];
      by rewrite nth_lookup, list_lookup_insert_eq by (unfold zlength in Hs; lia)].
  - destruct fail; cbn [andb negb].
    { eexists _, _, _. split; [done|]. cbn. split_and!; try done. by right. }
    assert (nth (Z.to_nat sect) (sectors d) [] = data d sect) as E.
    { unfold data. by destruct (Z.ltb_spec sect 0); [lia|]. }
    eexists _, _, _. split; [done|]. cbn. rewrite E. split_and!; try done. by left.
Qed.

#[global] Instance ref_disk : DiskHW t := {
  hw_nsect d := zlength (sectors d);
  hw_op := op;
  hw_data := data;
  hw_ok := ok;
  hw_wok d := spare_writes d = true;
  hw_size d Hd := conj (zlength_nonneg (sectors d)) (proj1 Hd);
  hw_sector := sector_len;
  hw_op_spec := op_spec
}.

End RefDisk.
