(* ===== verification/Sfs.v ===== *)
(** * The simple file system (kern/fs/sfs, kern/vfs/vnode.c)

    The file system on a block device: the on-disk structures as the bytes that
    the code reads and writes, block allocation from the free map, the mapping
    of file blocks, partial and whole-block I/O, the directory, the table of
    loaded vnodes with their reference counts, and mount, sync and unmount.
    Every operation runs under the big lock of the VFS layer, whose depth is
    part of the state, so operations do not interleave. *)

From stdpp Require Import base numbers list gmap.
From Stdlib Require Import ZArith Lia.
From S2P Require Import Prelude Heap Bitmap Array Uio Disk.

(** ** On-disk structures (kern/include/kern/sfs.h) *)

Definition SFS_MAGIC : Z := 2880303105.
Definition SFS_BLOCKSIZE : Z := 512.
Definition SFS_VOLNAME_SIZE : Z := 32.
Definition SFS_NDIRECT : Z := 15.
Definition SFS_DBPERIDB : Z := 128.
Definition SFS_NAMELEN : Z := 60.
Definition SFS_SB_LOCATION : Z := 0.
Definition SFS_ROOT_LOCATION : Z := 1.
Definition SFS_MAP_LOCATION : Z := 2.
Definition SFS_NOINO : Z := 0.
Definition SFS_BLOCKBITS : Z := SFS_BLOCKSIZE * 8.
Definition SFS_ROUNDUP (a b : Z) : Z := w32 (w32 (a + b - 1) / b * b).
Definition SFS_BITMAPSIZE (nblocks : Z) : Z := SFS_ROUNDUP nblocks SFS_BLOCKBITS.
Definition SFS_BITBLOCKS (nblocks : Z) : Z := SFS_BITMAPSIZE nblocks / SFS_BLOCKBITS.
Definition SFS_TYPE_INVAL : Z := 0.
Definition SFS_TYPE_FILE : Z := 1.
Definition SFS_TYPE_DIR : Z := 2.

(** [struct sfs_super]: the block itself. *)
Definition sp_magic (sp : list Z) : Z := rd32 sp 0.
Definition sp_nblocks (sp : list Z) : Z := rd32 sp 4.
Definition sp_volname (sp : list Z) : list Z := slice sp 8 SFS_VOLNAME_SIZE.

(** [struct sfs_inode]: the block itself. *)
Notation sfs_inode := (list Z) (only parsing).
Definition sfi_size (i : sfs_inode) : Z := rd32 i 0.
Definition sfi_type (i : sfs_inode) : Z := rd16 i 4.
Definition sfi_linkcount (i : sfs_inode) : Z := rd16 i 6.
Definition sfi_direct (i : sfs_inode) (n : Z) : Z := rd32 i (8 + 4 * n).
Definition sfi_indirect (i : sfs_inode) : Z := rd32 i 68.
Definition set_size (i : sfs_inode) (x : Z) : sfs_inode := wr32 i 0 x.
Definition set_type (i : sfs_inode) (x : Z) : sfs_inode := wr16 i 4 x.
Definition set_linkcount (i : sfs_inode) (x : Z) : sfs_inode := wr16 i 6 x.
Definition set_direct (i : sfs_inode) (n x : Z) : sfs_inode := wr32 i (8 + 4 * n) x.
Definition set_indirect (i : sfs_inode) (x : Z) : sfs_inode := wr32 i 68 x.

(** [struct sfs_dir]: its 64 bytes. *)
Definition sizeof_sfs_dir : Z := 64.
Definition sfd_ino (d : list Z) : Z := rd32 d 0.
Definition sfd_name (d : list Z) : list Z := slice d 4 SFS_NAMELEN.

(** A C string in a buffer: its bytes up to the terminator. *)
Fixpoint cstr (l : list Z) : list Z :=
  match l with
  | [] => []
  | c :: l => if c =? 0 then [] else c :: cstr l
  end.

(** ** In memory (kern/include/sfs.h, kern/include/vnode.h) *)

(** [struct sfs_vnode] with its [struct vnode]; [vn_dirops] says which of the
    two operation tables it has. *)
Record sfs_vnode := mk_sv {
  vn_refcount : Z;
  vn_opencount : Z;
  vn_dirops : bool;
  sv_i : sfs_inode;
  sv_ino : Z;
  sv_dirty : bool
}.

Record sfs_fs := mk_sfs {
  sfs_self : Z;              (* address of the structure *)
  sfs_super : list Z;
  sfs_superdirty : bool;
  sfs_vnodes_self : Z;       (* address of the array structure *)
  sfs_vnodes : array;
  sfs_freemap : bitmap;
  sfs_freemapdirty : bool
}.

Section sfs.
Context {H D : Type} `{KHeap H} `{BlockDev D}.

(** The machine: heap, device, user memory, the current address space, the
    depth of the big lock, the file system and the vnodes in memory, by their
    addresses. *)
Record sst := mk_sst {
  s_heap : H;
  s_dev : D;
  s_um : umem;
  s_curas : Z;
  s_lock : Z;
  s_fs : sfs_fs;
  s_vns : gmap Z sfs_vnode
}.

Definition set_fs (s : sst) (f : sfs_fs) : sst :=
  mk_sst (s_heap s) (s_dev s) (s_um s) (s_curas s) (s_lock s) f (s_vns s).
Definition set_vns (s : sst) (m : gmap Z sfs_vnode) : sst :=
  mk_sst (s_heap s) (s_dev s) (s_um s) (s_curas s) (s_lock s) (s_fs s) m.
Definition set_lock (s : sst) (n : Z) : sst :=
  mk_sst (s_heap s) (s_dev s) (s_um s) (s_curas s) n (s_fs s) (s_vns s).
Definition set_io (s : sst) (d : D) (um : umem) : sst :=
  mk_sst (s_heap s) d um (s_curas s) (s_lock s) (s_fs s) (s_vns s).
Definition set_heap (s : sst) (h : H) : sst :=
  mk_sst h (s_dev s) (s_um s) (s_curas s) (s_lock s) (s_fs s) (s_vns s).

Definition with_super (f : sfs_fs) (sp : list Z) (dirty : bool) : sfs_fs :=
  mk_sfs (sfs_self f) sp dirty (sfs_vnodes_self f) (sfs_vnodes f) (sfs_freemap f)
         (sfs_freemapdirty f).
Definition with_vnodes (f : sfs_fs) (a : array) : sfs_fs :=
  mk_sfs (sfs_self f) (sfs_super f) (sfs_superdirty f) (sfs_vnodes_self f) a (sfs_freemap f)
         (sfs_freemapdirty f).
Definition with_freemap (f : sfs_fs) (b : bitmap) (dirty : bool) : sfs_fs :=
  mk_sfs (sfs_self f) (sfs_super f) (sfs_superdirty f) (sfs_vnodes_self f) (sfs_vnodes f) b dirty.

(** Calls into the heap and into the free map. *)
Definition on_heap {A} (m : M H A) : M sst A := fun s =>
  match m (s_heap s) with
  | Ret (a, h) => Ret (a, set_heap s h)
  | Panic => Panic | Fault => Fault | NoFuel => NoFuel
  end.
Definition on_freemap {A} (m : M bitmap A) : M sst A := fun s =>
  match m (sfs_freemap (s_fs s)) with
  | Ret (a, b) => Ret (a, set_fs s (with_freemap (s_fs s) b (sfs_freemapdirty (s_fs s))))
  | Panic => Panic | Fault => Fault | NoFuel => NoFuel
  end.
Definition freemap_dirty (d : bool) : M sst unit :=
  modify (fun s => set_fs s (with_freemap (s_fs s) (sfs_freemap (s_fs s)) d)).

(** The vnode at an address; a freed vnode cannot be accessed. *)
Definition get_sv (vn : Z) : M sst sfs_vnode :=
  let* s := get in
  match s_vns s !! vn with Some sv => ret sv | None => fault end.
Definition put_sv (vn : Z) (sv : sfs_vnode) : M sst unit :=
  modify (fun s => set_vns s (<[vn := sv]> (s_vns s))).
Definition set_inode (vn : Z) (i : sfs_inode) (dirty : bool) : M sst unit :=
  let* sv := get_sv vn in
  put_sv vn (mk_sv (vn_refcount sv) (vn_opencount sv) (vn_dirops sv) i (sv_ino sv) dirty).
Definition set_refcount (vn n : Z) : M sst unit :=
  let* sv := get_sv vn in
  put_sv vn (mk_sv n (vn_opencount sv) (vn_dirops sv) (sv_i sv) (sv_ino sv) (sv_dirty sv)).

(** ** The big lock (kern/vfs/vfslist.c) *)

Definition vfs_biglock_acquire : M sst unit := modify (fun s => set_lock s (s_lock s + 1)).
Definition vfs_biglock_release : M sst unit :=
  let* s := get in
  do* kassert (0 <? s_lock s) in
  put (set_lock s (s_lock s - 1)).
Definition vfs_biglock_do_i_hold : M sst bool := gets (fun s => 0 <? s_lock s).

(** ** Block I/O (sfs_io.c) *)

Definition dev_io (u : uio) : M sst (Z * uio) := fun s =>
  match d_io (s_curas s) (mk_xfer u (s_um s)) (s_dev s) with
  | Ret (r, x, d) => Ret ((r, xu x), set_io s d (xm x))
  | Panic => Panic | Fault => Fault | NoFuel => NoFuel
  end.

(** The attempts of [sfs_rwblock]: [n] more after this one. *)
Fixpoint rw_retry (n : nat) (u : uio) : M sst (Z * uio) :=
  let* (result, u) := dev_io u in
  if result =? EINVAL then panic
  else if result =? EIO then
    match n with
    | O => ret (result, u)
    | S n => rw_retry n u
    end
  else ret (result, u).

Definition sfs_rwblock (u : uio) : M sst (Z * uio) :=
  let* held := vfs_biglock_do_i_hold in
  do* kassert held in
  rw_retry 10 u.

(** The kernel buffer of a uio, as transfers leave it. *)
Definition kbuf_of (u : uio) : list Z :=
  uio_done u ++ match uio_iov u with iov :: _ => iov_kbase iov | [] => [] end.

Definition SFSUIO (data : list Z) (block : Z) (rw : uio_rw_t) : uio :=
  uio_kinit data SFS_BLOCKSIZE (block * SFS_BLOCKSIZE) rw.

(** [data] is the buffer before the call, the result the buffer after it. *)
Definition sfs_rblock (data : list Z) (block : Z) : M sst (Z * list Z) :=
  let* (result, ku) := sfs_rwblock (SFSUIO data block UIO_READ) in
  ret (result, kbuf_of ku).

Definition sfs_wblock (data : list Z) (block : Z) : M sst Z :=
  let* (result, _) := sfs_rwblock (SFSUIO data block UIO_WRITE) in
  ret result.

(** ** sfs_vnode.c: blocks and inodes *)

(** A local buffer whose contents the code does not rely on. *)
Definition zeros : list Z := replicate 512 0.

Definition sfs_clearblock (block : Z) : M sst Z := sfs_wblock zeros block.

Definition sfs_sync_inode (vn : Z) : M sst Z :=
  let* sv := get_sv vn in
  if sv_dirty sv then
    let* result := sfs_wblock (sv_i sv) (sv_ino sv) in
    if negb (result =? 0) then ret result
    else do* set_inode vn (sv_i sv) false in ret 0
  else ret 0.

Definition sfs_balloc : M sst (Z * Z) :=
  let* r := on_freemap bitmap_alloc in
  match r with
  | inl result => ret (result, 0)
  | inr diskblock =>
      do* freemap_dirty true in
      let* s := get in
      if sp_nblocks (sfs_super (s_fs s)) <=? diskblock then panic else
      let* result := sfs_clearblock diskblock in
      ret (result, diskblock)
  end.

Definition sfs_bfree (diskblock : Z) : M sst unit :=
  do* on_freemap (bitmap_unmark diskblock) in
  freemap_dirty true.

Definition sfs_bused (diskblock : Z) : M sst bool :=
  let* s := get in
  if sp_nblocks (sfs_super (s_fs s)) <=? diskblock then panic else
  let* r := on_freemap (bitmap_isset diskblock) in
  ret (negb (r =? 0)).

(** The check before a block is handed back. *)
Definition check_used (block : Z) : M sst unit :=
  if block =? 0 then ret tt else
  let* used := sfs_bused block in
  if used then ret tt else panic.

(** A direct block: [fileblock < SFS_NDIRECT]. *)
Definition bmap_direct (vn fileblock : Z) (doalloc : bool) : M sst (Z * Z) :=
  let* sv := get_sv vn in
  let block := sfi_direct (sv_i sv) fileblock in
  let* (result, block) :=
    if (block =? 0) && doalloc then
      let* (result, block) := sfs_balloc in
      if negb (result =? 0) then ret (result, block)
      else
        do* set_inode vn (set_direct (sv_i sv) fileblock block) true in
        ret (0, block)
    else ret (0, block) in
  if negb (result =? 0) then ret (result, 0)
  else
    do* check_used block in
    ret (0, block).

(** The indirect block, allocated when there is none, and its contents. *)
Definition load_indirect (vn : Z) : M sst (Z * Z * list Z) :=
  let* sv := get_sv vn in
  let idblock := sfi_indirect (sv_i sv) in
  if idblock =? 0 then
    let* (result, idblock) := sfs_balloc in
    if negb (result =? 0) then ret (result, idblock, zeros)
    else
      do* set_inode vn (set_indirect (sv_i sv) idblock) true in
      ret (0, idblock, zeros)
  else
    let* (result, idbuf) := sfs_rblock zeros idblock in
    ret (result, idblock, idbuf).

(** An entry of the indirect block. *)
Definition bmap_indirect (idblock : Z) (idbuf : list Z) (idoff : Z) (doalloc : bool)
  : M sst (Z * Z) :=
  let block := rd32 idbuf (4 * idoff) in
  let* (result, block) :=
    if (block =? 0) && doalloc then
      let* (result, block) := sfs_balloc in
      if negb (result =? 0) then ret (result, block)
      else
        let idbuf := wr32 idbuf (4 * idoff) block in
        let* result := sfs_wblock idbuf idblock in
        ret (result, block)
    else ret (0, block) in
  if negb (result =? 0) then ret (result, 0)
  else
    do* check_used block in
    ret (0, block).

Definition sfs_bmap (vn fileblock : Z) (doalloc : bool) : M sst (Z * Z) :=
  if fileblock <? SFS_NDIRECT then bmap_direct vn fileblock doalloc
  else
    let fileblock := fileblock - SFS_NDIRECT in
    let idnum := fileblock / SFS_DBPERIDB in
    let idoff := fileblock mod SFS_DBPERIDB in
    if 0 <? idnum then ret (EFBIG, 0)
    else
      let* sv := get_sv vn in
      if (sfi_indirect (sv_i sv) =? 0) && negb doalloc then ret (0, 0)
      else
        let* (result, idblock, idbuf) := load_indirect vn in
        if negb (result =? 0) then ret (result, 0)
        else bmap_indirect idblock idbuf idoff doalloc.

(** ** File I/O *)

Definition do_uiomove (buf : list Z) (n : Z) (u : uio) : M sst (Z * list Z * uio) := fun s =>
  match uiomove (s_curas s) buf n (mk_xfer u (s_um s)) with
  | Ret (r, buf, x) => Ret ((r, buf, xu x), set_io s (s_dev s) (xm x))
  | Panic => Panic | Fault => Fault | NoFuel => NoFuel
  end.
Definition do_movezeros (n : Z) (u : uio) : M sst (Z * uio) := fun s =>
  match uiomovezeros (s_curas s) n (mk_xfer u (s_um s)) with
  | Ret (r, x) => Ret ((r, xu x), set_io s (s_dev s) (xm x))
  | Panic => Panic | Fault => Fault | NoFuel => NoFuel
  end.

Definition is_write (u : uio) : bool :=
  match uio_rw u with UIO_WRITE => true | UIO_READ => false end.

Definition set_counts (u : uio) (off resid : Z) : uio :=
  mk_uio (uio_iov u) (uio_done u) off resid (uio_segflg u) (uio_rw u) (uio_space u).

(** The second half of [sfs_partialio]: move the data, write the block back. *)
Definition partial_move (u : uio) (diskblock : Z) (iobuf : list Z) (skipstart len : Z)
  : M sst (Z * uio) :=
  let* (result, tail_, u) := do_uiomove (drop (Z.to_nat skipstart) iobuf) len u in
  let iobuf := take (Z.to_nat skipstart) iobuf ++ tail_ in
  if negb (result =? 0) then ret (result, u) else
  if is_write u then
    let* result := sfs_wblock iobuf diskblock in
    ret (result, u)
  else ret (0, u).

Definition sfs_partialio (vn : Z) (u : uio) (skipstart len : Z) : M sst (Z * uio) :=
  let doalloc := is_write u in
  do* kassert (w32 (skipstart + len) <=? SFS_BLOCKSIZE) in
  let fileblock := w32 (Z.quot (uio_offset u) SFS_BLOCKSIZE) in
  let* (result, diskblock) := sfs_bmap vn fileblock doalloc in
  if negb (result =? 0) then ret (result, u) else
  let* (result, iobuf) :=
    if diskblock =? 0 then
      do* kassert (negb (is_write u)) in ret (0, zeros)
    else sfs_rblock zeros diskblock in
  if negb (result =? 0) then ret (result, u) else
  partial_move u diskblock iobuf skipstart len.

Definition sfs_blockio (vn : Z) (u : uio) : M sst (Z * uio) :=
  let doalloc := is_write u in
  let fileblock := w32 (Z.quot (uio_offset u) SFS_BLOCKSIZE) in
  let* (result, diskblock) := sfs_bmap vn fileblock doalloc in
  if negb (result =? 0) then ret (result, u) else
  if diskblock =? 0 then
    do* kassert (negb (is_write u)) in
    do_movezeros SFS_BLOCKSIZE u
  else
    let saveoff := uio_offset u in
    (* the product is taken in 32 bits *)
    let diskoff := w32 (diskblock * SFS_BLOCKSIZE) in
    do* kassert (SFS_BLOCKSIZE <=? uio_resid u) in
    let saveres := uio_resid u in
    let diskres := SFS_BLOCKSIZE in
    let* (result, u) := sfs_rwblock (set_counts u diskoff diskres) in
    ret (result, set_counts u (uio_offset u - diskoff + saveoff)
                              (w32 (uio_resid u - diskres + saveres))).

(** [for (i = 0; i < nblocks; i++)] with its exit on an error. *)
Fixpoint blocks_loop (n : nat) (vn : Z) (u : uio) : M sst (Z * uio) :=
  match n with
  | O => ret (0, u)
  | S n =>
      let* (result, u) := sfs_blockio vn u in
      if negb (result =? 0) then ret (result, u) else blocks_loop n vn u
  end.

(** [sfs_io] from the first block boundary on: whole blocks, then the rest. *)
Definition io_aligned (vn : Z) (u : uio) : M sst (Z * uio) :=
  if uio_resid u =? 0 then ret (0, u) else
  do* kassert (Z.rem (uio_offset u) SFS_BLOCKSIZE =? 0) in
  let nblocks := uio_resid u / SFS_BLOCKSIZE in
  let* (result, u) := blocks_loop (Z.to_nat nblocks) vn u in
  if negb (result =? 0) then ret (result, u) else
  do* kassert (uio_resid u <? SFS_BLOCKSIZE) in
  if 0 <? uio_resid u then sfs_partialio vn u 0 (uio_resid u) else ret (0, u).

(** The transfers of [sfs_io], up to the label [out]. *)
Definition io_body (vn : Z) (u : uio) : M sst (Z * uio) :=
  let blkoff := w32 (Z.rem (uio_offset u) SFS_BLOCKSIZE) in
  let* (result, u) :=
    if blkoff =? 0 then ret (0, u)
    else
      let len := SFS_BLOCKSIZE - blkoff in
      let len := if uio_resid u <? len then uio_resid u else len in
      sfs_partialio vn u blkoff len in
  if negb (result =? 0) then ret (result, u) else
  io_aligned vn u.

Definition sfs_io (vn : Z) (u : uio) : M sst (Z * uio) :=
  let* sv := get_sv vn in
  let size := sfi_size (sv_i sv) in
  let endpos := uio_offset u + uio_resid u in
  if negb (is_write u) && (size <=? uio_offset u) then ret (0, u) else
  let extraresid := if negb (is_write u) && (size <? endpos) then w32 (endpos - size) else 0 in
  do* kassert (is_write u || (endpos <=? size) || (extraresid <? uio_resid u)) in
  let u := set_counts u (uio_offset u) (uio_resid u - extraresid) in
  let* (result, u) := io_body vn u in
  do* (if is_write u then
         let* sv := get_sv vn in
         if sfi_size (sv_i sv) <? uio_offset u then
           set_inode vn (set_size (sv_i sv) (uio_offset u)) true
         else ret tt
       else ret tt) in
  ret (result, set_counts u (uio_offset u) (w32 (uio_resid u + extraresid))).

(** ** The directory *)

Definition sfs_readdir (vn : Z) (sd : list Z) (slot : Z) : M sst (Z * list Z) :=
  let actualpos := w32 (slot * sizeof_sfs_dir) in
  let* (result, ku) := sfs_io vn (uio_kinit sd sizeof_sfs_dir actualpos UIO_READ) in
  if negb (result =? 0) then ret (result, kbuf_of ku)
  else if 0 <? uio_resid ku then panic
  else ret (0, kbuf_of ku).

Definition sfs_writedir (vn : Z) (sd : list Z) (slot : Z) : M sst Z :=
  do* kassert (0 <=? slot) in
  let actualpos := w32 (slot * sizeof_sfs_dir) in
  let* (result, ku) := sfs_io vn (uio_kinit sd sizeof_sfs_dir actualpos UIO_WRITE) in
  if negb (result =? 0) then ret result
  else if 0 <? uio_resid ku then panic
  else ret 0.

Definition sfs_dir_nentries (vn : Z) : M sst Z :=
  let* sv := get_sv vn in
  do* kassert (sfi_type (sv_i sv) =? SFS_TYPE_DIR) in
  let size := sfi_size (sv_i sv) in
  if negb (size mod sizeof_sfs_dir =? 0) then panic else ret (size / sizeof_sfs_dir).

(** What a search has found: the entry's inode and slot, and an empty slot. *)
Record found := mk_found {
  f_entry : option (Z * Z);
  f_empty : option Z
}.

(** [for (i = 0; i < nentries; i++)]; [inl] is a return with an error. *)
Fixpoint find_loop (n : nat) (i : Z) (vn : Z) (name : list Z) (f : found) : M sst (Z + found) :=
  match n with
  | O => ret (inr f)
  | S n =>
      let* (result, tsd) := sfs_readdir vn (replicate 64 0) i in
      if negb (result =? 0) then ret (inl result)
      else if sfd_ino tsd =? SFS_NOINO then
        find_loop n (i + 1) vn name (mk_found (f_entry f) (Some i))
      else if bool_decide (cstr (take 59 (sfd_name tsd)) = name) then
        do* kassert (match f_entry f with None => true | Some _ => false end) in
        find_loop n (i + 1) vn name (mk_found (Some (sfd_ino tsd, i)) (f_empty f))
      else find_loop n (i + 1) vn name f
  end.

Definition sfs_dir_findname (vn : Z) (name : list Z) : M sst (Z * found) :=
  let* nentries := sfs_dir_nentries vn in
  let* r := find_loop (Z.to_nat nentries) 0 vn name (mk_found None None) in
  match r with
  | inl result => ret (result, mk_found None None)
  | inr f => ret (match f_entry f with Some _ => 0 | None => ENOENT end, f)
  end.

(** The entry that [sfs_dir_link] writes. *)
Definition make_entry (ino : Z) (name : list Z) : list Z :=
  be32 ino ++ name ++ replicate (60 - length name) 0.

Definition sfs_dir_link (vn : Z) (name : list Z) (ino : Z) : M sst (Z * Z) :=
  let* (result, f) := sfs_dir_findname vn name in
  if negb (result =? 0) && negb (result =? ENOENT) then ret (result, 0)
  else if result =? 0 then ret (EEXIST, 0)
  else if SFS_NAMELEN <? zlength name + 1 then ret (ENAMETOOLONG, 0)
  else
    let* emptyslot := match f_empty f with Some i => ret i | None => sfs_dir_nentries vn end in
    let* result := sfs_writedir vn (make_entry ino name) emptyslot in
    ret (result, emptyslot).

Definition sfs_dir_unlink (vn slot : Z) : M sst Z :=
  sfs_writedir vn (make_entry SFS_NOINO []) slot.

(** ** Vnodes in memory (kern/vfs/vnode.c) *)

(** [VOP_CLEANUP]; the structure is freed right after it. *)
Definition vnode_cleanup (vn : Z) : M sst unit :=
  let* sv := get_sv vn in
  do* kassert (vn_refcount sv =? 1) in
  do* kassert (vn_opencount sv =? 0) in
  set_refcount vn 0.

Definition vnode_incref (vn : Z) : M sst unit :=
  do* vfs_biglock_acquire in
  let* sv := get_sv vn in
  do* set_refcount vn (vn_refcount sv + 1) in
  vfs_biglock_release.

Definition vnode_check (vn : Z) (reclaim : bool) : M sst unit :=
  do* vfs_biglock_acquire in
  let* sv := get_sv vn in
  if vn_refcount sv <? 0 then panic
  else if (vn_refcount sv =? 0) && negb reclaim then panic
  else if vn_opencount sv <? 0 then panic
  else vfs_biglock_release.

(** [kfree(sv)]. *)
Definition free_sv (vn : Z) : M sst unit :=
  do* on_heap (kfree vn) in
  modify (fun s => set_vns s (delete vn (s_vns s))).

Definition sizeof_sfs_vnode : Z := 540.

Definition vnodearray_num : M sst Z := gets (fun s => array_num (sfs_vnodes (s_fs s))).
Definition vnodearray_get (i : Z) : M sst Z :=
  let* s := get in on_heap (array_get (sfs_vnodes (s_fs s)) i).
Definition vnodearray_add (vn : Z) : M sst Z :=
  let* s := get in
  let* (r, a, _) := on_heap (array_add (sfs_vnodes (s_fs s)) vn) in
  do* modify (fun s => set_fs s (with_vnodes (s_fs s) a)) in
  ret r.
Definition vnodearray_remove (i : Z) : M sst unit :=
  let* s := get in
  let* a := on_heap (array_remove (sfs_vnodes (s_fs s)) i) in
  modify (fun s => set_fs s (with_vnodes (s_fs s) a)).

(** The body of the search in [sfs_loadvnode]. *)
Definition find_loaded (ino forcetype : Z) (i : Z) : M sst (option Z) :=
  let* vn := vnodearray_get i in
  let* sv := get_sv vn in
  let* used := sfs_bused (sv_ino sv) in
  if negb used then panic
  else if sv_ino sv =? ino then
    do* kassert (forcetype =? SFS_TYPE_INVAL) in
    do* vnode_incref vn in
    ret (Some vn)
  else ret None.

Definition sfs_loadvnode (ino forcetype : Z) : M sst (Z * Z) :=
  let* num := vnodearray_num in
  let* r := for_ret (Z.to_nat num) 0 (find_loaded ino forcetype) in
  match r with
  | Some vn => ret (0, vn)
  | None =>
      let* vn := on_heap (kmalloc sizeof_sfs_vnode) in
      if vn =? 0 then ret (ENOMEM, 0) else
      let* used := sfs_bused ino in
      if negb used then panic else
      let* (result, i) := sfs_rblock zeros ino in
      if negb (result =? 0) then do* free_sv vn in ret (result, 0) else
      do* kassert ((forcetype =? SFS_TYPE_INVAL) || (sfi_type i =? SFS_TYPE_INVAL)) in
      let '(i, dirty) :=
        if forcetype =? SFS_TYPE_INVAL then (i, false) else (set_type i forcetype, true) in
      if negb ((sfi_type i =? SFS_TYPE_FILE) || (sfi_type i =? SFS_TYPE_DIR)) then panic else
      (* VOP_INIT *)
      do* put_sv vn (mk_sv 1 0 (sfi_type i =? SFS_TYPE_DIR) i ino dirty) in
      let* result := vnodearray_add vn in
      if negb (result =? 0) then
        do* vnode_cleanup vn in
        do* free_sv vn in
        ret (result, 0)
      else ret (0, vn)
  end.

Definition sfs_lookonce (vn : Z) (name : list Z) : M sst (Z * Z * Z) :=
  let* (result, f) := sfs_dir_findname vn name in
  if negb (result =? 0) then ret (result, 0, 0) else
  match f_entry f with
  | None => fault
  | Some (ino, slot) =>
      let* (result, vn2) := sfs_loadvnode ino SFS_TYPE_INVAL in
      if negb (result =? 0) then ret (result, 0, 0) else
      let* sv2 := get_sv vn2 in
      if sfi_linkcount (sv_i sv2) =? 0 then panic
      else ret (0, vn2, slot)
  end.

Definition sfs_makeobj (type : Z) : M sst (Z * Z) :=
  let* (result, ino) := sfs_balloc in
  if negb (result =? 0) then ret (result, 0)
  else sfs_loadvnode ino type.

(** ** Truncation *)

(** [for (i = 0; i < SFS_NDIRECT; i++)]: discard direct blocks. *)
Definition trunc_direct (vn blocklen i : Z) : M sst unit :=
  let* sv := get_sv vn in
  let block := sfi_direct (sv_i sv) i in
  if (blocklen <=? i) && negb (block =? 0) then
    do* sfs_bfree block in
    set_inode vn (set_direct (sv_i sv) i 0) true
  else ret tt.

(** [for (j = 0; j < SFS_DBPERIDB; j++)] on the indirect block. *)
Fixpoint trunc_indirect (n : nat) (j blocklen : Z) (idbuf : list Z) (hasnonzero iddirty : bool)
  : M sst (list Z * bool * bool) :=
  match n with
  | O => ret (idbuf, hasnonzero, iddirty)
  | S n =>
      let b := rd32 idbuf (4 * j) in
      let* (idbuf, iddirty) :=
        if (blocklen <? SFS_NDIRECT + j) && negb (b =? 0) then
          do* sfs_bfree b in ret (wr32 idbuf (4 * j) 0, true)
        else ret (idbuf, iddirty) in
      let hasnonzero := hasnonzero || negb (rd32 idbuf (4 * j) =? 0) in
      trunc_indirect n (j + 1) blocklen idbuf hasnonzero iddirty
  end.

Definition sfs_truncate (vn len : Z) : M sst Z :=
  let blocklen := w32 (Z.quot (len + SFS_BLOCKSIZE - 1) SFS_BLOCKSIZE) in
  do* vfs_biglock_acquire in
  do* for_ (Z.to_nat SFS_NDIRECT) 0 (trunc_direct vn blocklen) in
  let* sv := get_sv vn in
  let idblock := sfi_indirect (sv_i sv) in
  let highblock := SFS_NDIRECT + SFS_DBPERIDB - 1 in
  let* result :=
    if (blocklen <? highblock) && negb (idblock =? 0) then
      let* (result, idbuf) := sfs_rblock zeros idblock in
      if negb (result =? 0) then ret result else
      let* (idbuf, hasnonzero, iddirty) :=
        trunc_indirect (Z.to_nat SFS_DBPERIDB) 0 blocklen idbuf false false in
      if negb hasnonzero then
        do* sfs_bfree idblock in
        do* set_inode vn (set_indirect (sv_i sv) 0) true in
        ret 0
      else if iddirty then sfs_wblock idbuf idblock
      else ret 0
    else ret 0 in
  if negb (result =? 0) then do* vfs_biglock_release in ret result else
  let* sv := get_sv vn in
  do* set_inode vn (set_size (sv_i sv) len) true in
  do* vfs_biglock_release in
  ret 0.

(** [VOP_TRUNCATE]: directories have no such operation. *)
Definition vop_truncate (vn len : Z) : M sst Z :=
  do* vnode_check vn false in
  let* sv := get_sv vn in
  if vn_dirops sv then ret EISDIR else sfs_truncate vn len.

(** ** Releasing a vnode *)

(** [for (i = 0; i < num; i++)]: the index of the vnode in the table. *)
Definition find_index (vn i : Z) : M sst (option Z) :=
  let* v2 := vnodearray_get i in
  let* _ := get_sv v2 in
  ret (if v2 =? vn then Some i else None).

Definition sfs_reclaim (vn : Z) : M sst Z :=
  do* vfs_biglock_acquire in
  let* sv := get_sv vn in
  if negb (vn_refcount sv =? 1) then
    do* kassert (1 <? vn_refcount sv) in
    do* set_refcount vn (vn_refcount sv - 1) in
    do* vfs_biglock_release in
    ret EBUSY
  else
    let* result :=
      if sfi_linkcount (sv_i sv) =? 0 then vop_truncate vn 0 else ret 0 in
    if negb (result =? 0) then do* vfs_biglock_release in ret result else
    let* result := sfs_sync_inode vn in
    if negb (result =? 0) then do* vfs_biglock_release in ret result else
    let* sv := get_sv vn in
    do* (if sfi_linkcount (sv_i sv) =? 0 then sfs_bfree (sv_ino sv) else ret tt) in
    let* num := vnodearray_num in
    let* r := for_ret (Z.to_nat num) 0 (find_index vn) in
    match r with
    | None => panic
    | Some ix =>
        do* vnodearray_remove ix in
        do* vnode_cleanup vn in
        do* vfs_biglock_release in
        do* free_sv vn in
        ret 0
    end.

(** [VOP_DECREF]; an error of [VOP_RECLAIM] is only printed. *)
Definition vnode_decref (vn : Z) : M sst unit :=
  do* vfs_biglock_acquire in
  let* sv := get_sv vn in
  do* kassert (0 <? vn_refcount sv) in
  do* (if 1 <? vn_refcount sv then set_refcount vn (vn_refcount sv - 1)
       else
         do* vnode_check vn true in
         do* sfs_reclaim vn in
         ret tt) in
  vfs_biglock_release.

(** ** Vnode operations *)

Definition O_ACCMODE : Z := 3.
Definition O_APPEND : Z := 32.
Definition S_IFREG : Z := 4096.
Definition S_IFDIR : Z := 8192.

Definition sfs_open (openflags : Z) : M sst Z :=
  if negb (Z.land openflags O_APPEND =? 0) then ret EUNIMP else ret 0.

Definition sfs_opendir (openflags : Z) : M sst Z :=
  if negb (Z.land openflags O_ACCMODE =? 0) then ret EISDIR
  else if negb (Z.land openflags O_APPEND =? 0) then ret EISDIR
  else ret 0.

Definition sfs_fsync (vn : Z) : M sst Z :=
  do* vfs_biglock_acquire in
  let* result := sfs_sync_inode vn in
  do* vfs_biglock_release in
  ret result.

Definition sfs_close (vn : Z) : M sst Z :=
  do* vnode_check vn false in
  sfs_fsync vn.

Definition sfs_read (vn : Z) (u : uio) : M sst (Z * uio) :=
  do* kassert (negb (is_write u)) in
  do* vfs_biglock_acquire in
  let* r := sfs_io vn u in
  do* vfs_biglock_release in
  ret r.

Definition sfs_write (vn : Z) (u : uio) : M sst (Z * uio) :=
  do* kassert (is_write u) in
  do* vfs_biglock_acquire in
  let* r := sfs_io vn u in
  do* vfs_biglock_release in
  ret r.

Definition sfs_gettype (vn : Z) : M sst Z :=
  do* vfs_biglock_acquire in
  let* sv := get_sv vn in
  if sfi_type (sv_i sv) =? SFS_TYPE_FILE then do* vfs_biglock_release in ret S_IFREG
  else if sfi_type (sv_i sv) =? SFS_TYPE_DIR then do* vfs_biglock_release in ret S_IFDIR
  else panic.

(** The mode and the size of the stat buffer; the rest of it is zero. *)
Definition sfs_stat (vn : Z) : M sst (Z * Z) :=
  do* vnode_check vn false in
  let* mode := sfs_gettype vn in
  let* sv := get_sv vn in
  ret (mode, sfi_size (sv_i sv)).

Definition sfs_tryseek (pos : Z) : M sst Z := if pos <? 0 then ret EINVAL else ret 0.

Definition sfs_namefile (vn : Z) : M sst Z :=
  let* sv := get_sv vn in
  do* kassert (sv_ino sv =? SFS_ROOT_LOCATION) in
  ret 0.

Definition set_links (vn n : Z) : M sst unit :=
  let* sv := get_sv vn in
  set_inode vn (set_linkcount (sv_i sv) n) true.

(** The result and the vnode. *)
Definition sfs_creat (dir : Z) (name : list Z) (excl : bool) : M sst (Z * Z) :=
  do* vfs_biglock_acquire in
  let* (result, f) := sfs_dir_findname dir name in
  if negb (result =? 0) && negb (result =? ENOENT) then
    do* vfs_biglock_release in ret (result, 0)
  else if (result =? 0) && excl then
    do* vfs_biglock_release in ret (EEXIST, 0)
  else if result =? 0 then
    match f_entry f with
    | None => fault
    | Some (ino, _) =>
        let* (result, newguy) := sfs_loadvnode ino SFS_TYPE_INVAL in
        do* vfs_biglock_release in
        if negb (result =? 0) then ret (result, 0) else ret (0, newguy)
    end
  else
    let* (result, newguy) := sfs_makeobj SFS_TYPE_FILE in
    if negb (result =? 0) then do* vfs_biglock_release in ret (result, 0) else
    let* sv := get_sv newguy in
    let* (result, _) := sfs_dir_link dir name (sv_ino sv) in
    if negb (result =? 0) then
      do* vnode_decref newguy in
      do* vfs_biglock_release in
      ret (result, 0)
    else
      let* sv := get_sv newguy in
      do* set_links newguy (sfi_linkcount (sv_i sv) + 1) in
      do* vfs_biglock_release in
      ret (0, newguy).

Definition sfs_link (dir : Z) (name : list Z) (file : Z) : M sst Z :=
  do* vfs_biglock_acquire in
  let* f := get_sv file in
  let* (result, _) := sfs_dir_link dir name (sv_ino f) in
  if negb (result =? 0) then do* vfs_biglock_release in ret result else
  let* f := get_sv file in
  do* set_links file (sfi_linkcount (sv_i f) + 1) in
  do* vfs_biglock_release in
  ret 0.

Definition sfs_remove (dir : Z) (name : list Z) : M sst Z :=
  do* vfs_biglock_acquire in
  let* (result, victim, slot) := sfs_lookonce dir name in
  if negb (result =? 0) then do* vfs_biglock_release in ret result else
  let* result := sfs_dir_unlink dir slot in
  do* (if result =? 0 then
         let* sv := get_sv victim in
         do* kassert (0 <? sfi_linkcount (sv_i sv)) in
         set_links victim (sfi_linkcount (sv_i sv) - 1)
       else ret tt) in
  do* vnode_decref victim in
  do* vfs_biglock_release in
  ret result.

Definition sfs_rename (d1 : Z) (n1 : list Z) (d2 : Z) (n2 : list Z) : M sst Z :=
  do* vfs_biglock_acquire in
  do* kassert (d1 =? d2) in
  let* dir := get_sv d1 in
  do* kassert (sv_ino dir =? SFS_ROOT_LOCATION) in
  let* (result, g1, slot1) := sfs_lookonce d1 n1 in
  if negb (result =? 0) then do* vfs_biglock_release in ret result else
  let* sv := get_sv g1 in
  do* kassert (sfi_type (sv_i sv) =? SFS_TYPE_FILE) in
  let* (result, slot2) := sfs_dir_link d1 n2 (sv_ino sv) in
  if negb (result =? 0) then
    do* vnode_decref g1 in
    do* vfs_biglock_release in
    ret result
  else
    let* sv := get_sv g1 in
    do* set_links g1 (sfi_linkcount (sv_i sv) + 1) in
    let* result := sfs_dir_unlink d1 slot1 in
    if negb (result =? 0) then
      (* puke_harder *)
      let* result2 := sfs_dir_unlink d1 slot2 in
      if negb (result2 =? 0) then panic else
      let* sv := get_sv g1 in
      do* set_inode g1 (set_linkcount (sv_i sv) (sfi_linkcount (sv_i sv) - 1)) (sv_dirty sv) in
      do* vnode_decref g1 in
      do* vfs_biglock_release in
      ret result
    else
      let* sv := get_sv g1 in
      do* kassert (0 <? sfi_linkcount (sv_i sv)) in
      do* set_links g1 (sfi_linkcount (sv_i sv) - 1) in
      do* vnode_decref g1 in
      do* vfs_biglock_release in
      ret 0.

(** The result, the directory and the last component of the path. *)
Definition sfs_lookparent (vn : Z) (path : list Z) (buflen : Z) : M sst (Z * option (Z * list Z)) :=
  do* vfs_biglock_acquire in
  let* sv := get_sv vn in
  if negb (sfi_type (sv_i sv) =? SFS_TYPE_DIR) then
    do* vfs_biglock_release in ret (ENOTDIR, None)
  else if buflen <? zlength path + 1 then
    do* vfs_biglock_release in ret (ENAMETOOLONG, None)
  else
    do* vnode_incref vn in
    do* vfs_biglock_release in
    ret (0, Some (vn, path)).

Definition sfs_lookup (vn : Z) (path : list Z) : M sst (Z * Z) :=
  do* vfs_biglock_acquire in
  let* sv := get_sv vn in
  if negb (sfi_type (sv_i sv) =? SFS_TYPE_DIR) then
    do* vfs_biglock_release in ret (ENOTDIR, 0)
  else
    let* (result, final, _) := sfs_lookonce vn path in
    do* vfs_biglock_release in
    if negb (result =? 0) then ret (result, 0) else ret (0, final).

Definition sfs_getroot : M sst Z :=
  do* vfs_biglock_acquire in
  let* (result, vn) := sfs_loadvnode SFS_ROOT_LOCATION SFS_TYPE_INVAL in
  if negb (result =? 0) then panic else
  do* vfs_biglock_release in
  ret vn.

(** ** The file system as a whole (sfs_fs.c) *)

(** [for (j = 0; j < mapsize; j++)]: one sector of the bitmap. *)
Definition map_sector (rw : uio_rw_t) (j : Z) : M sst (option Z) :=
  let* s := get in
  let bits := v (sfs_freemap (s_fs s)) in
  let ptr := j * SFS_BLOCKSIZE in
  if zlength bits <? ptr + SFS_BLOCKSIZE then fault else
  let* result :=
    match rw with
    | UIO_READ =>
        let* (result, data) := sfs_rblock (slice bits ptr SFS_BLOCKSIZE) (SFS_MAP_LOCATION + j) in
        do* modify (fun s => set_fs s (with_freemap (s_fs s)
               (with_v (sfs_freemap (s_fs s)) (splice bits ptr data)) (sfs_freemapdirty (s_fs s)))) in
        ret result
    | UIO_WRITE => sfs_wblock (slice bits ptr SFS_BLOCKSIZE) (SFS_MAP_LOCATION + j)
    end in
  ret (if result =? 0 then None else Some result).

Definition sfs_mapio (rw : uio_rw_t) : M sst Z :=
  let* s := get in
  let mapsize := SFS_BITBLOCKS (sp_nblocks (sfs_super (s_fs s))) in
  let* r := for_ret (Z.to_nat mapsize) 0 (map_sector rw) in
  match r with Some result => ret result | None => ret 0 end.

(** [VOP_FSYNC] of a loaded vnode; its result is ignored. *)
Definition sync_one (i : Z) : M sst unit :=
  let* vn := vnodearray_get i in
  do* vnode_check vn false in
  do* sfs_fsync vn in
  ret tt.

Definition sfs_sync : M sst Z :=
  do* vfs_biglock_acquire in
  let* num := vnodearray_num in
  do* for_ (Z.to_nat num) 0 sync_one in
  let* s := get in
  let* result :=
    if sfs_freemapdirty (s_fs s) then
      let* result := sfs_mapio UIO_WRITE in
      if negb (result =? 0) then ret result else do* freemap_dirty false in ret 0
    else ret 0 in
  if negb (result =? 0) then do* vfs_biglock_release in ret result else
  let* s := get in
  let* result :=
    if sfs_superdirty (s_fs s) then
      let* result := sfs_wblock (sfs_super (s_fs s)) SFS_SB_LOCATION in
      if negb (result =? 0) then ret result
      else
        do* modify (fun s => set_fs s (with_super (s_fs s) (sfs_super (s_fs s)) false)) in ret 0
    else ret 0 in
  do* vfs_biglock_release in
  ret result.

Definition sfs_getvolname : M sst (list Z) :=
  do* vfs_biglock_acquire in
  let* s := get in
  do* vfs_biglock_release in
  ret (cstr (sp_volname (sfs_super (s_fs s)))).

Definition sfs_unmount : M sst Z :=
  do* vfs_biglock_acquire in
  let* num := vnodearray_num in
  if 0 <? num then do* vfs_biglock_release in ret EBUSY else
  let* s := get in
  do* kassert (negb (sfs_superdirty (s_fs s))) in
  do* kassert (negb (sfs_freemapdirty (s_fs s))) in
  do* on_heap (array_destroy (sfs_vnodes_self (s_fs s)) (sfs_vnodes (s_fs s))) in
  do* on_heap (bitmap_destroy (sfs_freemap (s_fs s))) in
  do* on_heap (kfree (sfs_self (s_fs s))) in
  do* vfs_biglock_release in
  ret 0.

Definition sizeof_sfs_fs : Z := 552.

(** The clean-up of the exits of [sfs_domount]. *)
Definition mount_fail (result : Z) : M sst Z :=
  let* s := get in
  do* on_heap (array_destroy (sfs_vnodes_self (s_fs s)) (sfs_vnodes (s_fs s))) in
  do* on_heap (kfree (sfs_self (s_fs s))) in
  do* vfs_biglock_release in
  ret result.

Definition sfs_domount : M sst Z :=
  do* vfs_biglock_acquire in
  let* s := get in
  if negb (d_blocksize (s_dev s) =? SFS_BLOCKSIZE) then
    do* vfs_biglock_release in ret ENXIO
  else
    let* sfs := on_heap (kmalloc sizeof_sfs_fs) in
    if sfs =? 0 then do* vfs_biglock_release in ret ENOMEM else
    let* a := on_heap array_create in
    match a with
    | None =>
        do* on_heap (kfree sfs) in
        do* vfs_biglock_release in
        ret ENOMEM
    | Some (self, a) =>
        do* modify (fun s => set_fs s (mk_sfs sfs (sfs_super (s_fs s)) (sfs_superdirty (s_fs s))
                      self a (sfs_freemap (s_fs s)) (sfs_freemapdirty (s_fs s)))) in
        let* (result, super) := sfs_rblock zeros SFS_SB_LOCATION in
        if negb (result =? 0) then mount_fail result
        else if negb (sp_magic super =? SFS_MAGIC) then mount_fail EINVAL
        else
          let super := splice super 39 [0] in
          do* modify (fun s => set_fs s (with_super (s_fs s) super (sfs_superdirty (s_fs s)))) in
          let* b := on_heap (bitmap_create (SFS_BITMAPSIZE (sp_nblocks super))) in
          match b with
          | None => mount_fail ENOMEM
          | Some b =>
              do* modify (fun s => set_fs s (with_freemap (s_fs s) b (sfs_freemapdirty (s_fs s)))) in
              let* result := sfs_mapio UIO_READ in
              if negb (result =? 0) then
                let* s := get in
                do* on_heap (bitmap_destroy (sfs_freemap (s_fs s))) in
                mount_fail result
              else
                do* modify (fun s => set_fs s (with_super (s_fs s) (sfs_super (s_fs s)) false)) in
                do* freemap_dirty false in
                do* vfs_biglock_release in
                ret 0
          end
    end.

End sfs.

Arguments sst H D : clear implicits.
