(* ===== verification/SfsFile.v ===== *)
(** * Files of the simple file system

    What a file contains is a function of its inode and of the device: the byte
    at a position is the byte of the block that the inode maps there, and zero
    where no block is mapped.  The theorems say that reading through the code
    moves exactly these bytes through the uio, that writing replaces exactly
    the bytes of its range, whatever the alignment of the request, and that no
    other block of the file system changes. *)

From stdpp Require Import base numbers list gmap.
From Stdlib Require Import ZArith Lia.
From S2P Require Import Prelude Heap Bitmap Array Uio Disk Sfs.

(** ** Words in a block *)

Lemma splice_get l p d i :
  0 <= p -> p + zlength d <= zlength l -> 0 <= i ->
  nth (Z.to_nat i) (splice l p d) 0 =
    if (p <=? i) && (i <? p + zlength d) then nth (Z.to_nat (i - p)) d 0
    else nth (Z.to_nat i) l 0.
Proof.
  unfold zlength, splice. intros Hp Hl Hi. rewrite !nth_lookup.
  destruct (Z.leb_spec p i) as [H1|H1]; cbn [andb].
  - rewrite lookup_app_r by (rewrite length_take; lia). rewrite length_take.
    replace (Z.to_nat i - Z.to_nat p `min` length l)%nat with (Z.to_nat (i - p)) by lia.
    destruct (Z.ltb_spec i (p + Z.of_nat (length d))) as [H2|H2].
    + by rewrite lookup_app_l by lia.
    + rewrite lookup_app_r by lia. rewrite lookup_drop. do 2 f_equal. lia.
  - rewrite lookup_app_l by (rewrite length_take; lia). by rewrite lookup_take_lt by lia.
Qed.

(** A list from its elements. *)
Lemma slice_eq l p n : 0 <= p -> p + Z.of_nat n <= zlength l ->
  slice l p (Z.of_nat n) = map (fun k => nth (Z.to_nat (p + Z.of_nat k)) l 0) (seq 0 n).
Proof.
  unfold zlength, slice. intros Hp Hl. apply list_eq. intros i. rewrite Nat2Z.id.
  rewrite list_lookup_fmap. destruct (decide (i < n)%nat).
  - rewrite lookup_take_lt, lookup_drop by lia. rewrite lookup_seq_lt by lia. cbn.
    rewrite nth_lookup. replace (Z.to_nat (p + Z.of_nat i)) with (Z.to_nat p + i)%nat by lia.
    destruct (l !! (Z.to_nat p + i)%nat) eqn:E; [done|]. apply lookup_ge_None in E. lia.
  - rewrite lookup_take_ge by lia. rewrite lookup_seq_ge by lia. done.
Qed.

Lemma rd32_nth b off : 0 <= off -> off + 4 <= zlength b ->
  rd32 b off = ((nth (Z.to_nat off) b 0 * 256 + nth (Z.to_nat (off + 1)) b 0) * 256
                + nth (Z.to_nat (off + 2)) b 0) * 256 + nth (Z.to_nat (off + 3)) b 0.
Proof.
  intros H0 H1. unfold rd32. change 4 with (Z.of_nat 4). rewrite slice_eq by lia. cbn [map seq].
  by rewrite Z.add_0_r.
Qed.

Lemma rd16_nth b off : 0 <= off -> off + 2 <= zlength b ->
  rd16 b off = nth (Z.to_nat off) b 0 * 256 + nth (Z.to_nat (off + 1)) b 0.
Proof.
  intros H0 H1. unfold rd16. change 2 with (Z.of_nat 2). rewrite slice_eq by lia. cbn [map seq].
  by rewrite Z.add_0_r.
Qed.

Lemma be32_length x : zlength (be32 x) = 4.
Proof. done. Qed.
Lemma be16_length x : zlength (be16 x) = 2.
Proof. done. Qed.

Lemma rd32_wr32 b off x : 0 <= off -> off + 4 <= zlength b -> rd32 (wr32 b off x) off = w32 x.
Proof.
  intros H0 H1. unfold wr32. pose proof (be32_length x) as Hbe.
  assert (zlength (splice b off (be32 x)) = zlength b) as Hs by (apply splice_length; lia).
  rewrite rd32_nth by lia. rewrite !splice_get by lia. rewrite Hbe.
  repeat match goal with |- context [?a <=? ?b] => destruct (Z.leb_spec a b); try lia end.
  repeat match goal with |- context [?a <? ?b] => destruct (Z.ltb_spec a b); try lia end.
  cbn [andb]. rewrite Z.sub_diag. replace (off + 1 - off) with 1 by lia.
  replace (off + 2 - off) with 2 by lia. replace (off + 3 - off) with 3 by lia.
  change (Z.to_nat 0) with 0%nat. change (Z.to_nat 1) with 1%nat.
  change (Z.to_nat 2) with 2%nat. change (Z.to_nat 3) with 3%nat. unfold be32. cbn [nth].
  unfold w32, two32. Z.to_euclidean_division_equations. lia.
Qed.

(** A splice leaves the words that it does not overlap. *)
Lemma rd32_splice b p d off :
  0 <= p -> p + zlength d <= zlength b -> 0 <= off -> off + 4 <= zlength b ->
  off + 4 <= p \/ p + zlength d <= off -> rd32 (splice b p d) off = rd32 b off.
Proof.
  intros Hp Hl H0 H1 Hd.
  assert (zlength (splice b p d) = zlength b) as Hs by (apply splice_length; lia).
  rewrite !rd32_nth by lia.
  rewrite !splice_get by lia.
  repeat match goal with |- context [(?a <=? ?b) && (?c <? ?e)] =>
    destruct (Z.leb_spec a b), (Z.ltb_spec c e); try lia; cbn [andb] end; done.
Qed.

Lemma rd16_splice b p d off :
  0 <= p -> p + zlength d <= zlength b -> 0 <= off -> off + 2 <= zlength b ->
  off + 2 <= p \/ p + zlength d <= off -> rd16 (splice b p d) off = rd16 b off.
Proof.
  intros Hp Hl H0 H1 Hd.
  assert (zlength (splice b p d) = zlength b) as Hs by (apply splice_length; lia).
  rewrite !rd16_nth by lia.
  rewrite !splice_get by lia.
  repeat match goal with |- context [(?a <=? ?b) && (?c <? ?e)] =>
    destruct (Z.leb_spec a b), (Z.ltb_spec c e); try lia; cbn [andb] end; done.
Qed.

Lemma zeros_length : zlength zeros = 512.
Proof. done. Qed.

Lemma nth_zeros i : nth i zeros 0 = 0.
Proof.
  unfold zeros. rewrite nth_lookup. destruct (decide (i < 512)%nat).
  - by rewrite lookup_replicate_2.
  - by rewrite lookup_ge_None_2 by (rewrite length_replicate; lia).
Qed.

Lemma rd32_zeros off : 0 <= off -> off + 4 <= 512 -> rd32 zeros off = 0.
Proof. intros. rewrite rd32_nth by (lia || rewrite zeros_length; lia). by rewrite !nth_zeros. Qed.

(** ** What a file contains *)

Definition max_blocks : Z := SFS_NDIRECT + SFS_DBPERIDB.

(** The size of the file system, and its free map. *)
Notation nblocks s := (sp_nblocks (sfs_super (s_fs s))).
Notation freemap s := (sfs_freemap (s_fs s)).

(** Run one call whose result is known. *)
Ltac step E :=
  mrun; cbn [negb Z.eqb]; mrun; rewrite (bind_ok _ _ _ _ _ E); cbn [negb Z.eqb]; mrun; cbn [negb Z.eqb].

Section file.
Context {H D : Type} `{KHeap H} `{BlockDev D}.

(** The block that an inode maps at a position, 0 for none. *)
Definition blk (d : D) (i : sfs_inode) (n : Z) : Z :=
  if n <? 0 then 0
  else if n <? SFS_NDIRECT then sfi_direct i n
  else if n <? max_blocks then
    if sfi_indirect i =? 0 then 0 else rd32 (dev_block d (sfi_indirect i)) (4 * (n - SFS_NDIRECT))
  else 0.

(** The bytes of the file. *)
Definition byte_at (d : D) (i : sfs_inode) (p : Z) : Z :=
  let b := blk d i (p / 512) in
  if b =? 0 then 0 else nth (Z.to_nat (p mod 512)) (dev_block d b) 0.
Definition contents (d : D) (i : sfs_inode) (off n : Z) : list Z :=
  map (byte_at d i) (seqZ off n).

(** ** The invariant

    [nb] is the number of blocks of the file system.  [held] are the blocks
    that belong to something else than this file: the superblock, the bitmap,
    the inodes, the blocks of the other files. *)

(** The file's blocks are distinct blocks of the file system, in use. *)
Record file_ok (nb : Z) (fm : bitmap) (d : D) (i : sfs_inode) : Prop := {
  fo_len : zlength i = 512;
  fo_range n : 0 <= n < max_blocks -> blk d i n = 0 \/ 0 < blk d i n < nb /\ bit fm (blk d i n) = true;
  fo_ind : sfi_indirect i = 0 \/ 0 < sfi_indirect i < nb /\ bit fm (sfi_indirect i) = true;
  fo_inj m n : 0 <= m < max_blocks -> 0 <= n < max_blocks -> blk d i m <> 0 ->
    blk d i m = blk d i n -> m = n;
  fo_ind_inj n : 0 <= n < max_blocks -> blk d i n <> 0 -> blk d i n <> sfi_indirect i
}.

Definition owns (d : D) (i : sfs_inode) (b : Z) : Prop :=
  b <> 0 /\ (b = sfi_indirect i \/ exists n, 0 <= n < max_blocks /\ blk d i n = b).

(** The device and the free map. *)
Record disk_ok (nb : Z) (fm : bitmap) (d : D) : Prop := {
  do_dev : dev_ok d;
  do_wok : dev_wok d;
  do_nb : 0 < nb <= d_blocks d;
  do_small : nb <= 8388608;
  do_map : bitmap_ok fm;
  do_bits : nb <= nbits fm;
  do_zero : bit fm 0 = true;
  do_tail j : nb <= j < nbits fm -> bit fm j = true
}.

(** The inode of a loaded vnode. *)
Definition inode (vn : Z) (s : sst H D) : sfs_inode :=
  match s_vns s !! vn with Some sv => sv_i sv | None => [] end.

(** The state within an operation on the vnode [vn]. *)
Record inv (held : Z -> Prop) (vn : Z) (s : sst H D) : Prop := {
  iv_disk : disk_ok (nblocks s) (freemap s) (s_dev s);
  iv_vn : is_Some (s_vns s !! vn);
  iv_file : file_ok (nblocks s) (freemap s) (s_dev s) (inode vn s);
  iv_own b : held b -> ~ owns (s_dev s) (inode vn s) b;
  iv_held b : held b -> 0 <= b /\ bit (freemap s) b = true;
  iv_lock : 0 < s_lock s
}.

(** ** Block I/O *)

Definition same_dev (d d' : D) : Prop :=
  dev_ok d' /\ (dev_wok d -> dev_wok d') /\ d_blocks d' = d_blocks d /\
  forall j, dev_block d' j = dev_block d j.

(** [d'] is [d] with the block [b] replaced. *)
Definition upd_dev (d : D) (b : Z) (data : list Z) (d' : D) : Prop :=
  dev_ok d' /\ (dev_wok d -> dev_wok d') /\ d_blocks d' = d_blocks d /\
  forall j, dev_block d' j = if j =? b then data else dev_block d j.

Lemma same_dev_refl d : dev_ok d -> same_dev d d.
Proof. by split. Qed.

Lemma same_dev_trans d1 d2 d3 : same_dev d1 d2 -> same_dev d2 d3 -> same_dev d1 d3.
Proof.
  intros (A1 & A2 & A3 & A4) (B1 & B2 & B3 & B4).
  split_and!; [done|tauto|congruence|intros; by rewrite B4, A4].
Qed.

Lemma set_io_io (s : sst H D) d1 um1 d2 um2 : set_io (set_io s d1 um1) d2 um2 = set_io s d2 um2.
Proof. done. Qed.

Lemma rw_read_spec n u b (s : sst H D) :
  dev_ok (s_dev s) -> 0 <= b < d_blocks (s_dev s) ->
  block_req (s_curas s) b (mk_xfer u (s_um s)) -> uio_rw u = UIO_READ ->
  exists r u' d' um', rw_retry n u s = Ret ((r, u'), set_io s d' um') /\ same_dev (s_dev s) d' /\
    let x := mk_xfer u (s_um s) in
    let data := dev_block (s_dev s) b in
    (r = 0 /\ steps data x = Some (data, mk_xfer u' um') \/
     r = EIO /\ u' = u /\ um' = s_um s \/
     r = EFAULT /\ steps data x = None /\ after_fault x (mk_xfer u' um')).
Proof.
  revert s. induction n as [|n IH]; intros s Hok Hb Hreq Hrw;
    (destruct (dev_read (s_dev s) (s_curas s) b (mk_xfer u (s_um s)) Hok Hb Hreq Hrw)
      as (r & [u' um'] & d' & E & Hok' & Hwk & Hn & Hsame & Hr)).
  all: assert (dev_io u s = Ret ((r, u'), set_io s d' um')) as Ed by (unfold dev_io; by rewrite E).
  all: cbn [rw_retry]; rewrite (bind_ok _ _ _ _ _ Ed).
  all: assert (same_dev (s_dev s) d') as Hsd by done.
  all: destruct Hr as [[-> Hs]|[[-> [= -> ->]]|(-> & Hs & Hf)]]; cbn [Z.eqb EINVAL EIO EFAULT Pos.eqb].
  1-3, 4, 6: eexists _, _, _, _; split; [done|]; split; [done|]; auto.
  destruct (IH (set_io s d' (s_um s))) as (r & u' & d2 & um' & E2 & Hsd2 & Hr); cbn; try done.
  - by rewrite Hn.
  - exists r, u', d2, um'. cbn in Hsd2, Hr. rewrite Hsame in Hr.
    split; [exact E2|]. split; [by eapply same_dev_trans|done].
Qed.

Lemma rw_write_spec n u b (s : sst H D) :
  dev_ok (s_dev s) -> dev_wok (s_dev s) -> 0 <= b < d_blocks (s_dev s) ->
  block_req (s_curas s) b (mk_xfer u (s_um s)) -> uio_rw u = UIO_WRITE ->
  exists r u' d' um', rw_retry n u s = Ret ((r, u'), set_io s d' um') /\
    let x := mk_xfer u (s_um s) in
    (r = 0 /\ (exists data, steps (replicate 512 0) x = Some (data, mk_xfer u' um') /\
                            upd_dev (s_dev s) b data d') \/
     r = EFAULT /\ steps (replicate 512 0) x = None /\ after_fault x (mk_xfer u' um') /\
       same_dev (s_dev s) d').
Proof.
  intros Hok Hw Hb Hreq Hrw.
  destruct (dev_write (s_dev s) (s_curas s) b (mk_xfer u (s_um s)) Hok Hb Hreq Hrw)
    as (r & [u' um'] & d' & E & Hok' & Hwk & Hn & Hoth & Hr).
  assert (dev_io u s = Ret ((r, u'), set_io s d' um')) as Ed by (unfold dev_io; by rewrite E).
  exists r, u', d', um'.
  assert (r = 0 \/ r = EFAULT) as Hrr by (destruct Hr as [[-> _]|[(_ & [] & _)|(-> & _)]]; auto).
  split.
  - destruct n; cbn [rw_retry]; rewrite (bind_ok _ _ _ _ _ Ed); by destruct Hrr as [-> | ->].
  - destruct Hr as [(-> & data & Hs & Hd)|[(_ & [] & _)|(-> & Hs & Hf & Hd)]]; [|done|].
    + left. split; [done|]. exists data. split; [done|]. split_and!; [done..|].
      intros j. destruct (Z.eqb_spec j b) as [->|]; [done|auto].
    + right. split_and!; [done..|]. split_and!; [done..|].
      intros j. destruct (Z.eq_dec j b) as [->|]; auto.
Qed.

Lemma rwblock_eq u (s : sst H D) : 0 < s_lock s -> sfs_rwblock u s = rw_retry 10 u s.
Proof.
  intros Hl. unfold sfs_rwblock, vfs_biglock_do_i_hold. mrun.
  destruct (Z.ltb_spec 0 (s_lock s)); [|lia]. by mrun.
Qed.

Lemma kinit_req curas data b rw um :
  zlength data = 512 -> block_req curas b (mk_xfer (SFSUIO data b rw) um).
Proof.
  intros Hl. split; cbn; try done. split; cbn; [|unfold two32, SFS_BLOCKSIZE; lia|lia].
  constructor; [|done]. split_and!; cbn; unfold is_u32, two32, SFS_BLOCKSIZE in *; try lia; done.
Qed.

Lemma sfs_rblock_spec data b (s : sst H D) :
  dev_ok (s_dev s) -> 0 < s_lock s -> 0 <= b < d_blocks (s_dev s) -> zlength data = 512 ->
  exists r d' data', sfs_rblock data b s = Ret ((r, data'), set_io s d' (s_um s)) /\
    same_dev (s_dev s) d' /\ (r = 0 /\ data' = dev_block (s_dev s) b \/ r = EIO).
Proof.
  intros Hok Hl Hb Hd. unfold sfs_rblock. unfold bind. rewrite rwblock_eq by done.
  destruct (rw_read_spec 10 (SFSUIO data b UIO_READ) b s) as (r & u' & d' & um' & E & Hsd & Hr);
    [done|done|by apply kinit_req|done|].
  rewrite E. cbv zeta in Hr. pose proof (dev_len _ _ Hok Hb) as Hlen.
  destruct Hr as [[-> Hs]|[(-> & -> & ->)|(_ & _ & [] & _)]]; [| |done].
  - destruct (steps_kinit (dev_block (s_dev s) b) data (b * 512) UIO_READ (s_um s))
      as (u2 & E2 & Hdone & _ & _ & iov & Hi & Hk).
    { unfold zlength in *. lia. }
    { intros E0. rewrite E0 in Hlen. done. }
    rewrite Hlen in E2. unfold SFSUIO, SFS_BLOCKSIZE in Hs. rewrite E2 in Hs. injection Hs as <- <-.
    eexists _, _, _. split; [done|]. split; [done|]. left. split; [done|].
    unfold kbuf_of. by rewrite Hdone, Hi, Hk, app_nil_r.
  - eexists _, _, _. split; [done|]. auto.
Qed.

Lemma sfs_wblock_spec data b (s : sst H D) :
  dev_ok (s_dev s) -> dev_wok (s_dev s) -> 0 < s_lock s -> 0 <= b < d_blocks (s_dev s) ->
  zlength data = 512 ->
  exists d', sfs_wblock data b s = Ret (0, set_io s d' (s_um s)) /\ upd_dev (s_dev s) b data d'.
Proof.
  intros Hok Hw Hl Hb Hd. unfold sfs_wblock. unfold bind. rewrite rwblock_eq by done.
  destruct (rw_write_spec 10 (SFSUIO data b UIO_WRITE) b s) as (r & u' & d' & um' & E & Hr);
    [done|done|done|by apply kinit_req|done|].
  rewrite E. cbv zeta in Hr.
  destruct Hr as [(-> & data' & Hs & Hup)|(_ & _ & [] & _)]; [|done].
  destruct (steps_kinit zeros data (b * 512) UIO_WRITE (s_um s)) as (u2 & E2 & _).
  { unfold zlength, zeros in *. rewrite length_replicate. lia. }
  { done. }
  rewrite zeros_length in E2. unfold SFSUIO, SFS_BLOCKSIZE in Hs.
  change (replicate 512 0) with zeros in Hs. rewrite E2 in Hs. injection Hs as <- <- <-.
  by exists d'.
Qed.

(** ** The free map *)

Definition after_alloc (s : sst H D) (fm : bitmap) (d : D) : sst H D :=
  set_io (set_fs s (with_freemap (s_fs s) fm true)) d (s_um s).

Lemma set_freemap_id (s : sst H D) :
  set_fs s (with_freemap (s_fs s) (freemap s) (sfs_freemapdirty (s_fs s))) = s.
Proof. by destruct s as [? ? ? ? ? [] ?]. Qed.

Lemma upd_disk_ok nb fm fm' d b data d' :
  disk_ok nb fm d -> upd_dev d b data d' -> bitmap_ok fm' -> nbits fm' = nbits fm ->
  (forall j, bit fm j = true -> 0 <= j -> bit fm' j = true) -> disk_ok nb fm' d'.
Proof.
  intros [] (U1 & U2 & U3 & U4) Hok Hn Hmono.
  split; rewrite ?Hn, ?U3; auto; [by apply Hmono|intros; apply Hmono; [auto|lia]].
Qed.

Lemma sfs_balloc_spec (s : sst H D) :
  disk_ok (nblocks s) (freemap s) (s_dev s) -> 0 < s_lock s ->
  sfs_balloc s = Ret ((ENOSPC, 0), s) \/
  exists b fm d, sfs_balloc s = Ret ((0, b), after_alloc s fm d) /\
    0 < b < nblocks s /\ bit (freemap s) b = false /\ disk_ok (nblocks s) fm d /\
    (forall j, 0 <= j -> bit fm j = if j =? b then true else bit (freemap s) j) /\
    upd_dev (s_dev s) b zeros d.
Proof.
  intros Hd Hl. unfold sfs_balloc, on_freemap.
  destruct (alloc_cases (freemap s) (do_map _ _ _ Hd))
    as [[E _]|(ix & o & w & E & Hix & Ho & Hlt & Hw & Hclr & _)].
  { left. unfold bind. by rewrite E, set_freemap_id. }
  right. set (b := 8 * ix + o) in *. set (fm := mark_word (freemap s) ix o w) in *.
  destruct (mark_word_spec (freemap s) ix o w) as [Hok Hbits]; [apply Hd|done..|].
  fold fm b in Hok, Hbits.
  assert (bit (freemap s) b = false) as Hb.
  { subst b. rewrite (bit_in_word (freemap s) ix o w); done. }
  assert (0 < b < nblocks s) as Hr.
  { pose proof (do_zero _ _ _ Hd). pose proof (do_tail _ _ _ Hd b) as Htail.
    assert (b <> 0) by congruence.
    destruct (Z.lt_ge_cases b (nblocks s)); [lia|]. rewrite Htail in Hb; done || lia. }
  set (s1 := set_fs s (with_freemap (s_fs s) fm true)).
  destruct (sfs_wblock_spec zeros b s1) as (d & Ew & Hu); try apply Hd; try done.
  { pose proof (do_nb _ _ _ Hd). cbn. lia. }
  exists b, fm, d. split_and!; try done; try lia.
  - unfold bind at 1. rewrite E. unfold freemap_dirty. mrun.
    rewrite (proj2 (Z.leb_gt _ _)) by (cbn; lia).
    unfold sfs_clearblock. change (set_fs _ _) with s1 at 1. unfold bind. by rewrite Ew.
  - eapply upd_disk_ok; [done..|]. intros j Hj Hp. rewrite Hbits by done. by destruct (j =? b).
Qed.

Lemma check_used_spec b (s : sst H D) :
  disk_ok (nblocks s) (freemap s) (s_dev s) ->
  b = 0 \/ 0 < b < nblocks s /\ bit (freemap s) b = true -> check_used b s = Ret (tt, s).
Proof.
  intros Hd Hb. unfold check_used. destruct (Z.eqb_spec b 0); [done|].
  destruct Hb as [|[Hb Hset]]; [done|].
  pose proof (do_bits _ _ _ Hd).
  destruct (bitmap_isset_spec (freemap s) b) as (m & E & Hm); [apply Hd|lia|].
  unfold sfs_bused. mrun. rewrite (proj2 (Z.leb_gt _ _)) by lia.
  unfold on_freemap, bind. rewrite E, set_freemap_id. mrun. by rewrite Hm, Hset.
Qed.

(** ** Extending a file by a block *)

Lemma rd32_wr32_id b off x :
  0 <= off -> off + 4 <= zlength b -> is_u32 x -> rd32 (wr32 b off x) off = x.
Proof. intros. rewrite rd32_wr32 by done. by apply w32_id. Qed.

Lemma sfi_direct_set i n m x :
  zlength i = 512 -> is_u32 x -> 0 <= n < SFS_NDIRECT -> 0 <= m < SFS_NDIRECT ->
  sfi_direct (set_direct i n x) m = if m =? n then x else sfi_direct i m.
Proof.
  unfold SFS_NDIRECT, sfi_direct, set_direct. intros Hl Hx Hn Hm.
  destruct (Z.eqb_spec m n) as [->|]; [apply rd32_wr32_id; done || lia|].
  apply rd32_splice; rewrite ?be32_length; lia.
Qed.

Lemma sfi_indirect_set_direct i n x :
  zlength i = 512 -> 0 <= n < SFS_NDIRECT -> sfi_indirect (set_direct i n x) = sfi_indirect i.
Proof.
  unfold SFS_NDIRECT, sfi_indirect, set_direct. intros. apply rd32_splice; rewrite ?be32_length; lia.
Qed.

Lemma sfi_indirect_set i x : zlength i = 512 -> is_u32 x -> sfi_indirect (set_indirect i x) = x.
Proof. intros. apply rd32_wr32_id; done || lia. Qed.

Lemma sfi_direct_set_indirect i n x :
  zlength i = 512 -> 0 <= n < SFS_NDIRECT -> sfi_direct (set_indirect i x) n = sfi_direct i n.
Proof.
  unfold SFS_NDIRECT, sfi_direct, set_indirect. intros. apply rd32_splice; rewrite ?be32_length; lia.
Qed.

Lemma set_inode_len i off x : zlength i = 512 -> 0 <= off <= 508 -> zlength (wr32 i off x) = 512.
Proof. intros Hl Ho. unfold wr32. rewrite splice_length; rewrite ?be32_length; lia. Qed.

Lemma blk_same (d d' : D) i :
  (sfi_indirect i = 0 \/ dev_block d' (sfi_indirect i) = dev_block d (sfi_indirect i)) ->
  forall n, blk d' i n = blk d i n.
Proof.
  intros Hi n. unfold blk. destruct (n <? 0), (n <? SFS_NDIRECT), (n <? max_blocks); try done.
  destruct (Z.eqb_spec (sfi_indirect i) 0); [done|]. by destruct Hi as [? | ->].
Qed.

Ltac blk_cases :=
  repeat match goal with
  | |- context [?a <? ?b] => destruct (Z.ltb_spec a b)
  | |- context [?a =? ?b] => destruct (Z.eqb_spec a b)
  end; try lia; try done.

Lemma blk_range (d : D) i n : blk d i n <> 0 -> 0 <= n < max_blocks.
Proof.
  unfold blk, max_blocks, SFS_NDIRECT, SFS_DBPERIDB.
  destruct (Z.ltb_spec n 0), (Z.ltb_spec n 15), (Z.ltb_spec n (15 + 128)); done || lia.
Qed.

Lemma blk_set_direct (d : D) i n x m :
  zlength i = 512 -> is_u32 x -> 0 <= n < SFS_NDIRECT ->
  blk d (set_direct i n x) m = if m =? n then x else blk d i m.
Proof.
  intros Hl Hx Hn. unfold blk. rewrite sfi_indirect_set_direct by done.
  destruct (Z.ltb_spec m 0); [blk_cases|].
  destruct (Z.ltb_spec m SFS_NDIRECT); [by apply sfi_direct_set|]. blk_cases.
Qed.

Lemma blk_new_indirect (d d' : D) i x m :
  zlength i = 512 -> is_u32 x -> sfi_indirect i = 0 -> dev_block d' x = zeros ->
  blk d' (set_indirect i x) m = blk d i m.
Proof.
  intros Hl Hx Hi Hz. unfold blk. rewrite sfi_indirect_set, Hi by done.
  destruct (Z.ltb_spec m 0); [done|].
  destruct (Z.ltb_spec m SFS_NDIRECT); [by apply sfi_direct_set_indirect|].
  unfold max_blocks, SFS_NDIRECT, SFS_DBPERIDB in *. blk_cases. rewrite Hz. apply rd32_zeros; lia.
Qed.

Lemma blk_wr_indirect (d d' : D) i n x m :
  sfi_indirect i <> 0 -> zlength (dev_block d (sfi_indirect i)) = 512 -> is_u32 x ->
  SFS_NDIRECT <= n < max_blocks ->
  dev_block d' (sfi_indirect i) = wr32 (dev_block d (sfi_indirect i)) (4 * (n - SFS_NDIRECT)) x ->
  blk d' i m = if m =? n then x else blk d i m.
Proof.
  intros Hi Hl Hx Hn Hd. unfold blk. rewrite Hd.
  unfold max_blocks, SFS_NDIRECT, SFS_DBPERIDB in *.
  destruct (Z.ltb_spec m 0); [blk_cases|]. destruct (Z.ltb_spec m 15); [blk_cases|].
  destruct (Z.ltb_spec m (15 + 128)); [|blk_cases].
  destruct (Z.eqb_spec (sfi_indirect i) 0); [done|].
  destruct (Z.eqb_spec m n) as [->|]; [apply rd32_wr32_id; done || lia|].
  apply rd32_splice; rewrite ?be32_length; lia.
Qed.

(** [(d', i')] is the file [(d, i)] with the fresh block [b], of zeros, as its
    block number [n]. *)
Record grown (n b : Z) (d : D) (i : sfs_inode) (d' : D) (i' : sfs_inode) : Prop := {
  gr_len : zlength i' = 512;
  gr_ind : sfi_indirect i' = sfi_indirect i;
  gr_old : blk d i n = 0;
  gr_blk m : blk d' i' m = if m =? n then b else blk d i m;
  gr_zero : dev_block d' b = zeros;
  gr_same j : j <> b -> (sfi_indirect i <> 0 -> j <> sfi_indirect i) -> dev_block d' j = dev_block d j
}.

Definition marked (fm fm' : bitmap) (b : Z) : Prop :=
  forall j, 0 <= j -> bit fm' j = if j =? b then true else bit fm j.

Lemma grown_bytes nb fm n b d i d' i' :
  file_ok nb fm d i -> bit fm b = false -> 0 <= n < max_blocks -> 0 < b ->
  grown n b d i d' i' -> forall p, 0 <= p -> byte_at d' i' p = byte_at d i p.
Proof.
  intros Hf Hb Hn Hb0 G p Hp. unfold byte_at. rewrite (gr_blk _ _ _ _ _ _ G).
  destruct (Z.eqb_spec (p / 512) n) as [->|Hne].
  - rewrite (gr_old _ _ _ _ _ _ G), (proj2 (Z.eqb_neq b 0)), (gr_zero _ _ _ _ _ _ G) by lia.
    apply nth_zeros.
  - destruct (Z.eqb_spec (blk d i (p / 512)) 0) as [|Hnz]; [done|].
    assert (0 <= p / 512 < max_blocks) as Hr.
    { by eapply blk_range. }
    rewrite (gr_same _ _ _ _ _ _ G); [done| |].
    + destruct (fo_range _ _ _ _ Hf _ Hr) as [|[_ Hset]]; congruence.
    + intros _. by apply (fo_ind_inj _ _ _ _ Hf).
Qed.

Lemma grown_ok nb fm fm' n b d i d' i' :
  file_ok nb fm d i -> bit fm b = false -> 0 <= n < max_blocks -> 0 < b < nb ->
  marked fm fm' b -> grown n b d i d' i' -> file_ok nb fm' d' i'.
Proof.
  intros Hf Hb Hn Hr Hm G. pose proof (gr_blk _ _ _ _ _ _ G) as Hblk.
  assert (forall m, 0 <= m < max_blocks -> blk d i m <> b) as Hfresh.
  { intros m Hm' E. destruct (fo_range _ _ _ _ Hf m Hm') as [|[_ Hset]]; congruence || lia. }
  assert (sfi_indirect i <> b) as Hib.
  { destruct (fo_ind _ _ _ _ Hf) as [|[_ Hset]]; congruence || lia. }
  split; [apply G|..]; rewrite ?(gr_ind _ _ _ _ _ _ G).
  - intros m Hm'. rewrite Hblk. destruct (m =? n).
    { right. rewrite Hm, Z.eqb_refl by lia. auto. }
    destruct (fo_range _ _ _ _ Hf m Hm') as [|[? Hset]]; [auto|]. right. split; [done|].
    rewrite Hm by lia. by case_match.
  - destruct (fo_ind _ _ _ _ Hf) as [|[? Hset]]; [auto|]. right. split; [done|].
    rewrite Hm by lia. by case_match.
  - intros m k Hm' Hk. rewrite !Hblk. pose proof (fo_inj _ _ _ _ Hf m k Hm' Hk).
    pose proof (Hfresh m Hm'). pose proof (Hfresh k Hk).
    destruct (Z.eqb_spec m n), (Z.eqb_spec k n); intros; subst; auto; congruence.
  - intros m Hm'. rewrite Hblk. destruct (m =? n); [congruence|]. by apply (fo_ind_inj _ _ _ _ Hf).
Qed.

Lemma grown_owns n b d i d' i' x : grown n b d i d' i' -> owns d' i' x -> x = b \/ owns d i x.
Proof.
  intros G [Hx [E|(m & Hm & E)]].
  - right. split; [done|]. left. by rewrite E, (gr_ind _ _ _ _ _ _ G).
  - rewrite (gr_blk _ _ _ _ _ _ G) in E. destruct (m =? n); [by left|].
    right. split; [done|]. eauto.
Qed.

(** The same for the indirect block itself. *)
Record indirected (b : Z) (d : D) (i : sfs_inode) (d' : D) (i' : sfs_inode) : Prop := {
  id_len : zlength i' = 512;
  id_new : sfi_indirect i' = b;
  id_blk m : blk d' i' m = blk d i m;
  id_same j : j <> b -> dev_block d' j = dev_block d j
}.

Lemma indirected_bytes nb fm b d i d' i' :
  file_ok nb fm d i -> bit fm b = false -> indirected b d i d' i' ->
  forall p, byte_at d' i' p = byte_at d i p.
Proof.
  intros Hf Hb G p. unfold byte_at. rewrite (id_blk _ _ _ _ _ G).
  destruct (Z.eqb_spec (blk d i (p / 512)) 0) as [|Hnz]; [done|].
  rewrite (id_same _ _ _ _ _ G); [done|].
  destruct (fo_range _ _ _ _ Hf _ (blk_range _ _ _ Hnz)) as [|[_ Hset]]; congruence.
Qed.

Lemma indirected_ok nb fm fm' b d i d' i' :
  file_ok nb fm d i -> bit fm b = false -> 0 < b < nb -> marked fm fm' b ->
  indirected b d i d' i' -> file_ok nb fm' d' i'.
Proof.
  intros Hf Hb Hr Hm G. pose proof (id_blk _ _ _ _ _ G) as Hblk.
  split; [apply G|..]; rewrite ?(id_new _ _ _ _ _ G).
  - intros m Hm'. rewrite Hblk.
    destruct (fo_range _ _ _ _ Hf m Hm') as [|[? Hset]]; [auto|]. right. split; [done|].
    rewrite Hm by lia. by case_match.
  - right. split; [done|]. by rewrite Hm, Z.eqb_refl by lia.
  - intros m k Hm' Hk. rewrite !Hblk. by apply (fo_inj _ _ _ _ Hf).
  - intros m Hm'. rewrite Hblk. intros Hnz E.
    destruct (fo_range _ _ _ _ Hf m Hm') as [|[_ Hset]]; congruence.
Qed.

Lemma indirected_owns b d i d' i' x : indirected b d i d' i' -> owns d' i' x -> x = b \/ owns d i x.
Proof.
  intros G [Hx [E|(m & Hm & E)]]; [left; by rewrite E, (id_new _ _ _ _ _ G)|].
  rewrite (id_blk _ _ _ _ _ G) in E. right. split; [done|]. eauto.
Qed.

Lemma fresh_not_ind nb fm d i b :
  file_ok nb fm d i -> bit fm b = false -> sfi_indirect i = 0 \/ sfi_indirect i <> b.
Proof. intros Hf Hb. destruct (fo_ind _ _ _ _ Hf) as [|[_ Hset]]; [auto|right; congruence]. Qed.

Lemma grown_direct nb fm n b d i d' :
  file_ok nb fm d i -> 0 <= n < SFS_NDIRECT -> blk d i n = 0 -> is_u32 b -> bit fm b = false ->
  upd_dev d b zeros d' -> grown n b d i d' (set_direct i n b).
Proof.
  intros Hf Hn Hz Hu Hb (_ & _ & _ & U). pose proof (fo_len _ _ _ _ Hf) as Hl.
  split; [|by apply sfi_indirect_set_direct|done| |by rewrite U, Z.eqb_refl|].
  - apply set_inode_len; [done|]. unfold SFS_NDIRECT in Hn. lia.
  - intros m. rewrite blk_set_direct by done. destruct (m =? n); [done|].
    apply blk_same. destruct (fresh_not_ind _ _ _ _ _ Hf Hb) as [|Hne]; [auto|right].
    by rewrite U, (proj2 (Z.eqb_neq _ _)).
  - intros j Hj _. by rewrite U, (proj2 (Z.eqb_neq _ _)).
Qed.

Lemma grown_indirect nb fm n b d i d1 d' :
  file_ok nb fm d i -> zlength (dev_block d (sfi_indirect i)) = 512 -> sfi_indirect i <> 0 ->
  SFS_NDIRECT <= n < max_blocks -> blk d i n = 0 -> is_u32 b -> bit fm b = false ->
  upd_dev d b zeros d1 ->
  upd_dev d1 (sfi_indirect i) (wr32 (dev_block d (sfi_indirect i)) (4 * (n - SFS_NDIRECT)) b) d' ->
  grown n b d i d' i.
Proof.
  intros Hf Hl Hi Hn Hz Hu Hb (_ & _ & _ & U) (_ & _ & _ & U').
  destruct (fresh_not_ind _ _ _ _ _ Hf Hb) as [|Hne]; [done|].
  split; [apply Hf|done|done| | |].
  - intros m. apply blk_wr_indirect; try done. by rewrite U', Z.eqb_refl.
  - by rewrite U', (proj2 (Z.eqb_neq _ _)), U, Z.eqb_refl by congruence.
  - intros j Hj Hji. rewrite U', (proj2 (Z.eqb_neq _ _)), U, (proj2 (Z.eqb_neq _ _)); auto.
Qed.

Lemma indirected_new nb fm b d i d' :
  file_ok nb fm d i -> sfi_indirect i = 0 -> is_u32 b -> upd_dev d b zeros d' ->
  indirected b d i d' (set_indirect i b).
Proof.
  intros Hf Hi Hu (_ & _ & _ & U). pose proof (fo_len _ _ _ _ Hf) as Hl.
  split; [by apply set_inode_len|by apply sfi_indirect_set| |].
  - intros m. apply blk_new_indirect; try done. by rewrite U, Z.eqb_refl.
  - intros j Hj. by rewrite U, (proj2 (Z.eqb_neq _ _)).
Qed.

(** ** What an operation on a file leaves alone *)

Definition frame_of (s : sst H D) :=
  (s_heap s, s_curas s, s_lock s, sfs_super (s_fs s), sfs_superdirty (s_fs s),
   sfs_self (s_fs s), sfs_vnodes_self (s_fs s), sfs_vnodes (s_fs s)).

Definition same_ids (sv sv' : sfs_vnode) : Prop :=
  vn_refcount sv' = vn_refcount sv /\ vn_opencount sv' = vn_opencount sv /\
  vn_dirops sv' = vn_dirops sv /\ sv_ino sv' = sv_ino sv /\
  sfi_type (sv_i sv') = sfi_type (sv_i sv) /\ sfi_linkcount (sv_i sv') = sfi_linkcount (sv_i sv) /\
  (sv_dirty sv' = false -> sv_i sv' = sv_i sv /\ sv_dirty sv = false).

(** The blocks of others, the other vnodes and the rest of the machine are
    unchanged; an inode or free map that differs is marked dirty. *)
Record keeps (held : Z -> Prop) (vn : Z) (s s' : sst H D) : Prop := {
  kp_inv : inv held vn s';
  kp_frame : frame_of s' = frame_of s;
  kp_others w : w <> vn -> s_vns s' !! w = s_vns s !! w;
  kp_ids sv : s_vns s !! vn = Some sv -> exists sv', s_vns s' !! vn = Some sv' /\ same_ids sv sv';
  kp_held b : held b -> dev_block (s_dev s') b = dev_block (s_dev s) b;
  kp_size : d_blocks (s_dev s') = d_blocks (s_dev s);
  kp_map : sfs_freemapdirty (s_fs s') = false ->
    freemap s' = freemap s /\ sfs_freemapdirty (s_fs s) = false
}.

Lemma keeps_refl held vn s : inv held vn s -> keeps held vn s s.
Proof. intros Hi. split; try done. intros sv E. exists sv. split; [done|]. by split_and!. Qed.

Lemma keeps_trans held vn s1 s2 s3 : keeps held vn s1 s2 -> keeps held vn s2 s3 -> keeps held vn s1 s3.
Proof.
  intros A B. split; [apply B| | | | | |].
  - by rewrite (kp_frame _ _ _ _ B), (kp_frame _ _ _ _ A).
  - intros w Hw. by rewrite (kp_others _ _ _ _ B), (kp_others _ _ _ _ A).
  - intros sv E. destruct (kp_ids _ _ _ _ A sv E) as (sv2 & E2 & S2).
    destruct (kp_ids _ _ _ _ B sv2 E2) as (sv3 & E3 & S3). exists sv3. split; [done|].
    destruct S2 as (?&?&?&?&?&?&D2), S3 as (?&?&?&?&?&?&D3). split_and!; [congruence..|].
    intros E0. destruct (D3 E0) as [-> E']. destruct (D2 E') as [-> ->]. done.
  - intros b Hb. by rewrite (kp_held _ _ _ _ B), (kp_held _ _ _ _ A).
  - by rewrite (kp_size _ _ _ _ B), (kp_size _ _ _ _ A).
  - intros E. destruct (kp_map _ _ _ _ B E) as [-> E']. by destruct (kp_map _ _ _ _ A E') as [-> ->].
Qed.

Lemma file_ok_dev nb fm (d d' : D) i :
  file_ok nb fm d i -> (forall n, blk d' i n = blk d i n) -> file_ok nb fm d' i.
Proof.
  intros Hf Hb. destruct Hf as [F1 F2 F3 F4 F5].
  split; [done|intros n; rewrite Hb; apply F2|done|intros m n; rewrite !Hb; apply F4|
          intros n; rewrite Hb; apply F5].
Qed.

Lemma owns_dev (d d' : D) i b : (forall n, blk d' i n = blk d i n) -> owns d' i b -> owns d i b.
Proof.
  intros Hb [Hn [E|(m & Hm & E)]]; split; auto. right. exists m. by rewrite <- Hb.
Qed.

Lemma keeps_io held vn s d um : inv held vn s -> same_dev (s_dev s) d -> keeps held vn s (set_io s d um).
Proof.
  intros Hi (S1 & S2 & S3 & S4). destruct Hi as [Id Iv If Io Ih Il].
  assert (forall n, blk d (inode vn s) n = blk (s_dev s) (inode vn s) n) as Hb
    by (apply blk_same; auto).
  split; try done.
  - split; try done; cbn.
    + destruct Id. split; try done; [by apply S2|by rewrite S3].
    + by eapply file_ok_dev.
    + intros b Hh Ho. apply (Io b Hh). by eapply owns_dev.
  - intros sv E. exists sv. split; [done|]. by split_and!.
Qed.

Definition with_inode (sv : sfs_vnode) (i : sfs_inode) : sfs_vnode :=
  mk_sv (vn_refcount sv) (vn_opencount sv) (vn_dirops sv) i (sv_ino sv) true.

Lemma set_inode_eq vn i sv (s : sst H D) :
  s_vns s !! vn = Some sv ->
  set_inode vn i true s = Ret (tt, set_vns s (<[vn := with_inode sv i]> (s_vns s))).
Proof. intros E. unfold set_inode, get_sv. mrun. by rewrite E. Qed.

Lemma inode_eq vn sv (s : sst H D) : s_vns s !! vn = Some sv -> inode vn s = sv_i sv.
Proof. intros E. unfold inode. by rewrite E. Qed.

(** A step that takes a fresh block and may replace the inode. *)
Lemma keeps_alloc held vn s b fm d sv i vns :
  inv held vn s -> s_vns s !! vn = Some sv ->
  disk_ok (nblocks s) fm d -> bit (freemap s) b = false -> marked (freemap s) fm b ->
  file_ok (nblocks s) fm d i -> d_blocks d = d_blocks (s_dev s) ->
  (forall x, owns d i x -> x = b \/ owns (s_dev s) (sv_i sv) x) ->
  (forall x, held x -> dev_block d x = dev_block (s_dev s) x) ->
  sfi_type i = sfi_type (sv_i sv) -> sfi_linkcount i = sfi_linkcount (sv_i sv) ->
  vns = s_vns s /\ i = sv_i sv \/ vns = <[vn := with_inode sv i]> (s_vns s) ->
  keeps held vn s (set_vns (after_alloc s fm d) vns).
Proof.
  intros Hi E Hd Hb Hm Hf Hn Ho Hh Ht Hl Hv.
  assert (exists sv', vns !! vn = Some sv' /\ sv_i sv' = i /\ same_ids sv sv') as (sv' & E' & Hi' & Hids).
  { destruct Hv as [[-> ->]| ->].
    - exists sv. split; [done|]. split; [done|]. by split_and!.
    - exists (with_inode sv i). rewrite lookup_insert_eq. split; [done|]. split; [done|]. by split_and!. }
  assert (inode vn (set_vns (after_alloc s fm d) vns) = i) as Hin by (by rewrite (inode_eq _ sv')).
  split; try done.
  - split; try done; cbn [s_dev s_fs set_vns after_alloc]; rewrite ?Hin; try done.
    + intros x Hx Hox. destruct (Ho x Hox) as [->|Hox'].
      * destruct (iv_held _ _ _ Hi b Hx). congruence.
      * apply (iv_own _ _ _ Hi x Hx). by rewrite (inode_eq _ sv).
    + intros x Hx. destruct (iv_held _ _ _ Hi x Hx) as [Hx0 Hx1]. split; [done|].
      change (bit fm x = true). rewrite Hm by done. by case_match.
    + apply (iv_lock _ _ _ Hi).
  - intros w Hw. destruct Hv as [[-> _]| ->]; [done|]. by apply lookup_insert_ne.
  - intros sv0 E0. rewrite E in E0. injection E0 as <-. eauto.
Qed.

(** ** sfs_bmap *)


(** The file is the same, whatever blocks it has got. *)
Record same_file (held : Z -> Prop) (vn : Z) (s s' : sst H D) : Prop := {
  sf_keeps : keeps held vn s s';
  sf_bytes p : 0 <= p -> byte_at (s_dev s') (inode vn s') p = byte_at (s_dev s) (inode vn s) p;
  sf_size : sfi_size (inode vn s') = sfi_size (inode vn s);
  sf_um : s_um s' = s_um s
}.

Lemma same_file_refl held vn s : inv held vn s -> same_file held vn s s.
Proof. intros. split; auto using keeps_refl. Qed.

Lemma same_file_trans held vn s1 s2 s3 :
  same_file held vn s1 s2 -> same_file held vn s2 s3 -> same_file held vn s1 s3.
Proof.
  intros A B. split.
  - eapply keeps_trans; [apply A|apply B].
  - intros p Hp. by rewrite (sf_bytes _ _ _ _ B), (sf_bytes _ _ _ _ A).
  - by rewrite (sf_size _ _ _ _ B), (sf_size _ _ _ _ A).
  - by rewrite (sf_um _ _ _ _ B), (sf_um _ _ _ _ A).
Qed.

Lemma byte_at_dev (d d' : D) i p :
  (forall j, dev_block d' j = dev_block d j) -> byte_at d' i p = byte_at d i p.
Proof. intros Hd. unfold byte_at. by rewrite (blk_same d d') by auto; case_match; rewrite ?Hd. Qed.

Lemma same_file_io held vn s d :
  inv held vn s -> same_dev (s_dev s) d -> same_file held vn s (set_io s d (s_um s)).
Proof.
  intros Hi Hs. split; [by apply keeps_io|..]; try done.
  intros p _. apply byte_at_dev, Hs.
Qed.

(** What [sfs_bmap] answers for block [n] of the file. *)
Definition bmap_res (vn n : Z) (doalloc : bool) (r b : Z) (s' : sst H D) : Prop :=
  r = 0 /\ b = blk (s_dev s') (inode vn s') n /\ n < max_blocks /\ (doalloc = true -> b <> 0) \/
  r = ENOSPC /\ doalloc = true \/ r = EIO \/ r = EFBIG /\ max_blocks <= n.

Lemma meta_set i off x :
  zlength i = 512 -> 8 <= off <= 508 ->
  sfi_size (wr32 i off x) = sfi_size i /\ sfi_type (wr32 i off x) = sfi_type i /\
  sfi_linkcount (wr32 i off x) = sfi_linkcount i.
Proof.
  intros Hl Ho. unfold sfi_size, sfi_type, sfi_linkcount, wr32.
  split_and!; [apply rd32_splice|apply rd16_splice|apply rd16_splice]; rewrite ?be32_length; lia.
Qed.

Lemma get_sv_ok vn sv (s : sst H D) : s_vns s !! vn = Some sv -> get_sv vn s = Ret (sv, s).
Proof. intros E. unfold get_sv. mrun. by rewrite E. Qed.

Lemma inv_sv held vn s : inv held vn s -> exists sv, s_vns s !! vn = Some sv /\ inode vn s = sv_i sv.
Proof. intros Hi. destruct (iv_vn _ _ _ Hi) as [sv E]. eauto using inode_eq. Qed.

(** A block number fits in a word. *)
Lemma block_u32 held vn s b : inv held vn s -> 0 < b < nblocks s -> is_u32 b.
Proof. intros Hi Hb. pose proof (do_small _ _ _ (iv_disk _ _ _ Hi)). unfold is_u32, two32. lia. Qed.

Lemma check_blk held vn n s :
  inv held vn s -> 0 <= n < max_blocks ->
  check_used (blk (s_dev s) (inode vn s) n) s = Ret (tt, s).
Proof.
  intros Hi Hn. apply check_used_spec; [apply Hi|]. by apply (iv_file _ _ _ Hi).
Qed.

(** A block has been taken for block [n]. *)
Lemma same_file_grown held vn s n b fm d sv i vns :
  inv held vn s -> s_vns s !! vn = Some sv -> 0 <= n < max_blocks ->
  0 < b < nblocks s -> bit (freemap s) b = false -> disk_ok (nblocks s) fm d ->
  marked (freemap s) fm b -> d_blocks d = d_blocks (s_dev s) ->
  grown n b (s_dev s) (sv_i sv) d i ->
  sfi_size i = sfi_size (sv_i sv) -> sfi_type i = sfi_type (sv_i sv) ->
  sfi_linkcount i = sfi_linkcount (sv_i sv) ->
  vns = s_vns s /\ i = sv_i sv \/ vns = <[vn := with_inode sv i]> (s_vns s) ->
  let s' := set_vns (after_alloc s fm d) vns in
  same_file held vn s s' /\ b = blk (s_dev s') (inode vn s') n.
Proof.
  intros Hi E Hn Hb Hbit Hd Hm Hsz G Hs Ht Hl Hv s'.
  pose proof (iv_file _ _ _ Hi) as Hf. rewrite (inode_eq _ _ _ E) in Hf.
  assert (inode vn s' = i) as Hin.
  { unfold inode, s'. cbn. destruct Hv as [[-> ->]| ->]; [by rewrite E|].
    by rewrite lookup_insert_eq. }
  split; [split|].
  - eapply (keeps_alloc held vn s b fm d sv i); try done.
    + by eapply grown_ok.
    + intros x. by eapply grown_owns.
    + intros x Hx. apply (gr_same _ _ _ _ _ _ G).
      * intros ->. destruct (iv_held _ _ _ Hi b Hx). congruence.
      * intros Hnz ->. apply (iv_own _ _ _ Hi _ Hx). rewrite (inode_eq _ _ _ E).
        split; auto.
  - intros p Hp. rewrite Hin, (inode_eq _ _ _ E). eapply grown_bytes; done || lia.
  - by rewrite Hin, (inode_eq _ _ _ E).
  - done.
  - by rewrite Hin, (gr_blk _ _ _ _ _ _ G), Z.eqb_refl.
Qed.

Lemma bmap_direct_spec held vn n doalloc s :
  inv held vn s -> 0 <= n < SFS_NDIRECT ->
  exists r b s', bmap_direct vn n doalloc s = Ret ((r, b), s') /\ same_file held vn s s' /\
    bmap_res vn n doalloc r b s'.
Proof.
  intros Hi Hn. destruct (inv_sv _ _ _ Hi) as (sv & E & Ei).
  assert (n < max_blocks) as Hn' by (unfold max_blocks, SFS_NDIRECT, SFS_DBPERIDB in *; lia).
  assert (blk (s_dev s) (inode vn s) n = sfi_direct (sv_i sv) n) as Hblk.
  { unfold blk. rewrite Ei. rewrite (proj2 (Z.ltb_ge _ _)), (proj2 (Z.ltb_lt _ _)) by lia. done. }
  unfold bmap_direct. step (get_sv_ok _ _ _ E). rewrite <- Hblk.
  set (b0 := blk (s_dev s) (inode vn s) n) in *.
  destruct (Z.eqb_spec b0 0) as [Hz|Hz]; [destruct doalloc|]; cbn [andb].
  - destruct (sfs_balloc_spec s) as [Ea|(b & fm & d & Ea & Hb & Hbit & Hd & Hm & U)];
      [apply Hi..| |].
    { step Ea. exists ENOSPC, 0, s. split; [done|]. split; [by apply same_file_refl|]. right. auto. }
    set (i := set_direct (sv_i sv) n b).
    set (s' := set_vns (after_alloc s fm d) (<[vn := with_inode sv i]> (s_vns s))).
    pose proof (iv_file _ _ _ Hi) as Hf. rewrite Ei in Hf.
    assert (is_u32 b) as Hu by (by eapply block_u32).
    destruct (meta_set (sv_i sv) (8 + 4 * n) b) as (M1 & M2 & M3);
      [apply Hf|unfold SFS_NDIRECT in *; lia|].
    destruct (same_file_grown held vn s n b fm d sv i (s_vns s')) as [Hsf Hb']; try done.
    { lia. } { apply U. } { eapply grown_direct; try done. by rewrite <- Ei. } { by right. }
    change (set_vns (after_alloc s fm d) (s_vns s')) with s' in Hsf, Hb'.
    exists 0, b, s'. split_and!; [|done|].
    + step Ea. step (set_inode_eq vn i sv (after_alloc s fm d) E).
      change (set_vns _ _) with s'.
      pose proof (check_blk held vn n s') as Hc. rewrite <- Hb' in Hc.
      step (Hc ltac:(apply Hsf) ltac:(lia)). done.
    + left. split_and!; [done|done|done|lia].
  - exists 0, 0, s. rewrite Hz in *. split; [done|]. split; [by apply same_file_refl|].
    left. by split_and!.
  - exists 0, b0, s. step (check_blk held vn n s Hi ltac:(lia)).
    split; [done|]. split; [by apply same_file_refl|]. left. by split_and!.
Qed.

Lemma dev_block_len held vn s b : inv held vn s -> 0 <= b < nblocks s -> zlength (dev_block (s_dev s) b) = 512.
Proof.
  intros Hi Hb. pose proof (iv_disk _ _ _ Hi) as Hd. pose proof (do_nb _ _ _ Hd).
  apply dev_len; [apply Hd|lia].
Qed.

(** Reading a block of the file system. *)
Lemma rblock_inv held vn s b :
  inv held vn s -> 0 <= b < nblocks s ->
  exists r d data, sfs_rblock zeros b s = Ret ((r, data), set_io s d (s_um s)) /\
    same_file held vn s (set_io s d (s_um s)) /\ same_dev (s_dev s) d /\
    (r = 0 /\ data = dev_block (s_dev s) b \/ r = EIO).
Proof.
  intros Hi Hb. pose proof (iv_disk _ _ _ Hi) as Hd. pose proof (do_nb _ _ _ Hd).
  destruct (sfs_rblock_spec zeros b s) as (r & d & data & E & Hs & Hr);
    [apply Hd|apply Hi|lia|done|].
  exists r, d, data. split; [done|]. split; [by apply same_file_io|done].
Qed.

Lemma load_indirect_spec held vn s :
  inv held vn s ->
  exists r ib buf s', load_indirect vn s = Ret ((r, ib, buf), s') /\ same_file held vn s s' /\
    (r = 0 /\ ib = sfi_indirect (inode vn s') /\ ib <> 0 /\ buf = dev_block (s_dev s') ib \/
     r = ENOSPC /\ sfi_indirect (inode vn s) = 0 \/ r = EIO).
Proof.
  intros Hi. destruct (inv_sv _ _ _ Hi) as (sv & E & Ei).
  pose proof (iv_file _ _ _ Hi) as Hf. rewrite Ei in Hf |- *.
  unfold load_indirect. step (get_sv_ok _ _ _ E).
  destruct (Z.eqb_spec (sfi_indirect (sv_i sv)) 0) as [Hz|Hz].
  - destruct (sfs_balloc_spec s) as [Ea|(b & fm & d & Ea & Hb & Hbit & Hd & Hm & U)];
      [apply Hi..| |].
    { step Ea. eexists _, _, _, s. split; [done|]. split; [by apply same_file_refl|]. auto. }
    assert (is_u32 b) as Hu by (by eapply block_u32).
    set (i := set_indirect (sv_i sv) b).
    set (s' := set_vns (after_alloc s fm d) (<[vn := with_inode sv i]> (s_vns s))).
    assert (indirected b (s_dev s) (sv_i sv) d i) as G by (by eapply indirected_new).
    destruct (meta_set (sv_i sv) 68 b) as (M1 & M2 & M3); [apply Hf|lia|].
    assert (inode vn s' = i) as Hin by (unfold inode, s'; cbn; by rewrite lookup_insert_eq).
    exists 0, b, zeros, s'. split; [|split].
    + step Ea. by step (set_inode_eq vn i sv (after_alloc s fm d) E).
    + split; [|intros p Hp; rewrite Hin, Ei; by eapply indirected_bytes|by rewrite Hin, Ei|done].
      eapply keeps_alloc; try done.
      * by eapply indirected_ok.
      * apply U.
      * intros x. by apply indirected_owns.
      * intros x Hx. apply (id_same _ _ _ _ _ G). intros ->.
        destruct (iv_held _ _ _ Hi b Hx). congruence.
      * by right.
    + left. rewrite Hin. split_and!; [done|symmetry; apply (id_new _ _ _ _ _ G)|lia|].
      destruct U as (_ & _ & _ & U). symmetry. cbn. by rewrite U, Z.eqb_refl.
  - destruct (rblock_inv held vn s (sfi_indirect (sv_i sv))) as (r & d & data & Er & Hsf & Hs & Hr);
      [done|destruct (fo_ind _ _ _ _ Hf); lia|].
    step Er. eexists r, _, data, _. split; [done|]. split; [done|].
    destruct Hr as [[-> ->]| ->]; [left|auto].
    change (inode vn (set_io s d (s_um s))) with (inode vn s). rewrite Ei.
    split_and!; [done..|]. symmetry. apply Hs.
Qed.

Lemma blk_indirect (d : D) i n :
  sfi_indirect i <> 0 -> SFS_NDIRECT <= n < max_blocks ->
  blk d i n = rd32 (dev_block d (sfi_indirect i)) (4 * (n - SFS_NDIRECT)).
Proof.
  intros Hi Hn. unfold blk. unfold max_blocks, SFS_NDIRECT, SFS_DBPERIDB in *.
  destruct (Z.ltb_spec n 0), (Z.ltb_spec n 15), (Z.ltb_spec n (15 + 128)); try lia.
  by rewrite (proj2 (Z.eqb_neq _ _)).
Qed.

Lemma bmap_indirect_spec held vn n doalloc s :
  inv held vn s -> SFS_NDIRECT <= n < max_blocks -> sfi_indirect (inode vn s) <> 0 ->
  let ib := sfi_indirect (inode vn s) in
  exists r b s',
    bmap_indirect ib (dev_block (s_dev s) ib) (n - SFS_NDIRECT) doalloc s = Ret ((r, b), s') /\
    same_file held vn s s' /\ bmap_res vn n doalloc r b s'.
Proof.
  intros Hi Hn Hz ib. destruct (inv_sv _ _ _ Hi) as (sv & E & Ei).
  assert (0 <= n < max_blocks) as Hn' by (unfold SFS_NDIRECT in *; lia).
  pose proof (iv_file _ _ _ Hi) as Hf.
  assert (0 < ib < nblocks s) as Hib by (destruct (fo_ind _ _ _ _ Hf) as [|[? _]]; done).
  pose proof (blk_indirect (s_dev s) (inode vn s) n Hz Hn) as Hblk. fold ib in Hblk.
  unfold bmap_indirect. rewrite <- Hblk. set (b0 := blk (s_dev s) (inode vn s) n) in *.
  destruct (Z.eqb_spec b0 0) as [Hb0|Hb0]; [destruct doalloc|]; cbn [andb].
  - destruct (sfs_balloc_spec s) as [Ea|(b & fm & d & Ea & Hb & Hbit & Hd & Hm & U)];
      [apply Hi..| |].
    { step Ea. exists ENOSPC, 0, s. split; [done|]. split; [by apply same_file_refl|]. right. auto. }
    assert (is_u32 b) as Hu by (by eapply block_u32).
    pose proof (dev_block_len held vn s ib Hi ltac:(lia)) as Hl.
    set (s1 := after_alloc s fm d).
    destruct (sfs_wblock_spec (wr32 (dev_block (s_dev s) ib) (4 * (n - SFS_NDIRECT)) b) ib s1)
      as (d' & Ew & U'); [apply Hd|apply Hd|apply Hi| | |].
    { pose proof (do_nb _ _ _ Hd). cbn. lia. }
    { apply set_inode_len; [done|]. unfold max_blocks, SFS_NDIRECT, SFS_DBPERIDB in *. lia. }
    change (s_dev s1) with d in U'.
    destruct (same_file_grown held vn s n b fm d' sv (sv_i sv) (s_vns s)) as [Hsf Hb']; try done.
    { eapply upd_disk_ok; [exact Hd|done|apply Hd|done|done]. }
    { destruct U as (_ & _ & <- & _). apply U'. }
    { rewrite <- Ei. by eapply grown_indirect. }
    { by left. }
    set (s' := set_vns (after_alloc s fm d') (s_vns s)) in *.
    change (set_io s1 d' (s_um s1)) with s' in Ew.
    exists 0, b, s'. split_and!; [|done|].
    + step Ea. fold s1. step Ew. pose proof (check_blk held vn n s') as Hc. rewrite <- Hb' in Hc.
      step (Hc ltac:(apply Hsf) Hn'). done.
    + left. split_and!; [done|done|lia|lia].
  - exists 0, 0, s. rewrite Hb0 in *. split; [done|]. split; [by apply same_file_refl|].
    left. split_and!; done || lia.
  - exists 0, b0, s. step (check_blk held vn n s Hi Hn').
    split; [done|]. split; [by apply same_file_refl|]. left. split_and!; done || lia.
Qed.

Lemma sfs_bmap_spec held vn n doalloc s :
  inv held vn s -> 0 <= n ->
  exists r b s', sfs_bmap vn n doalloc s = Ret ((r, b), s') /\ same_file held vn s s' /\
    bmap_res vn n doalloc r b s'.
Proof.
  intros Hi Hn. destruct (inv_sv _ _ _ Hi) as (sv & E & Ei). unfold sfs_bmap.
  destruct (Z.ltb_spec n SFS_NDIRECT) as [|Hge]; [by apply bmap_direct_spec|].
  destruct (Z.ltb_spec 0 ((n - SFS_NDIRECT) / SFS_DBPERIDB)) as [Hbig|Hsmall].
  { exists EFBIG, 0, s. split; [done|]. split; [by apply same_file_refl|]. do 3 right.
    split; [done|]. revert Hbig. unfold max_blocks, SFS_NDIRECT, SFS_DBPERIDB.
    Z.to_euclidean_division_equations; lia. }
  assert (n < max_blocks) as Hlt by (revert Hsmall; unfold max_blocks, SFS_NDIRECT, SFS_DBPERIDB;
    Z.to_euclidean_division_equations; lia).
  rewrite Z.mod_small by (revert Hge Hlt; unfold max_blocks, SFS_NDIRECT, SFS_DBPERIDB; lia).
  step (get_sv_ok _ _ _ E). rewrite <- Ei.
  destruct (Z.eqb_spec (sfi_indirect (inode vn s)) 0) as [Hz|Hz]; [destruct doalloc|]; cbn [andb negb].
  2: { exists 0, 0, s. split; [done|]. split; [by apply same_file_refl|]. left.
       unfold blk. rewrite Hz, (proj2 (Z.ltb_ge n 0)), (proj2 (Z.ltb_ge n SFS_NDIRECT)) by done.
       rewrite (proj2 (Z.ltb_lt _ _)) by done. by split_and!. }
  all: destruct (load_indirect_spec held vn s Hi) as (r & ib & buf & s1 & El & Hsf & Hr); step El.
  all: destruct Hr as [(-> & -> & Hnz & ->)|Hr];
    [|exists r, 0, s1; split; [by destruct Hr as [[-> _]| ->]|]; split; [done|];
      destruct Hr as [[-> Hz0]| ->]; unfold bmap_res; by auto].
  all: match goal with |- context [bmap_indirect _ _ _ ?a] =>
    destruct (bmap_indirect_spec held vn n a s1) as (r & b & s2 & Eb & Hsf2 & Hr);
      [apply Hsf|done|done|] end.
  all: exists r, b, s2; split; [exact Eb|]; split; [by eapply same_file_trans|done].
Qed.

End file.
