(* ===== verification/SfsIo.v ===== *)
(** * Reading and writing files of SFS (kern/fs/sfs/sfs_vnode.c)

    [sfs_partialio], [sfs_blockio] and [sfs_io] move the bytes of the file
    through the uio, in order, and change no other byte. *)

From stdpp Require Import base numbers list gmap.
From Stdlib Require Import ZArith Lia.
From S2P Require Import Prelude Heap Bitmap Array Uio Disk Sfs SfsFile.

Section io.
Context {H D : Type} `{KHeap H} `{BlockDev D}.
Implicit Types s : sst H D.

(** ** Transfers between a uio and a file *)

Lemma step1_counts b u um o r :
  step1 b (mk_xfer (set_counts u o r) um) =
    match step1 b (mk_xfer u um) with
    | Some (y, x) => Some (y, mk_xfer (set_counts (xu x) (o + 1) (w32 (r - 1))) (xm x))
    | None => None
    end.
Proof.
  unfold step1. cbn. destruct (skip_empty (uio_iov u)) as [[iov rest]|]; [|done].
  destruct (uio_segflg u); [| |by destruct (iov_kbase iov)].
  all: destruct (if _ <? _ then _ else _); [|done]; by destruct (uio_rw u).
Qed.

Lemma steps_counts l u um o r :
  is_u32 r ->
  steps l (mk_xfer (set_counts u o r) um) =
    match steps l (mk_xfer u um) with
    | Some (d, x) => Some (d, mk_xfer (set_counts (xu x) (o + zlength l) (w32 (r - zlength l))) (xm x))
    | None => None
    end.
Proof.
  revert u um o r. induction l as [|b l IH]; intros u um o r Hr; unfold zlength in *; cbn [steps length].
  { by rewrite Z.add_0_r, Z.sub_0_r, w32_id. }
  rewrite step1_counts. destruct (step1 b (mk_xfer u um)) as [[y [u1 um1]]|]; [|done]. cbn [xu xm].
  rewrite IH by apply w32_range. destruct (steps l (mk_xfer u1 um1)) as [[d [u2 um2]]|]; [|done].
  cbn [xu xm]. replace (o + 1 + Z.of_nat (length l)) with (o + Z.of_nat (S (length l))) by lia.
  do 4 f_equal. unfold w32. rewrite Zminus_mod_idemp_l. f_equal. lia.
Qed.

Lemma set_counts_id u : set_counts u (uio_offset u) (uio_resid u) = u.
Proof. by destruct u. Qed.

(** What a transfer of [n] bytes at the offset of a uio starts from. *)
Record io_pre (held : Z -> Prop) (vn : Z) (s : sst H D) (u : uio) (n : Z) : Prop := {
  ip_inv : inv held vn s;
  ip_wf : uio_wf u;
  ip_space : uio_space u = match uio_segflg u with UIO_SYSSPACE => 0 | _ => s_curas s end;
  ip_off : 0 <= uio_offset u;
  ip_end : uio_offset u + uio_resid u < 2199023255552;
  ip_n : 0 <= n <= uio_resid u
}.

Notation byte vn s p := (byte_at (s_dev s) (inode vn s) p).

(** [s'] is [s] with the bytes [dat] written at [off], when writing. *)
Record wrote (held : Z -> Prop) (vn : Z) (write : bool) (off : Z) (dat : list Z) (s s' : sst H D)
  : Prop := {
  wr_keeps : keeps held vn s s';
  wr_size : sfi_size (inode vn s') = sfi_size (inode vn s);
  wr_bytes p : 0 <= p -> byte vn s' p =
    if write && (off <=? p) && (p <? off + zlength dat) then nth (Z.to_nat (p - off)) dat 0
    else byte vn s p
}.

Definition io_err (u : uio) (n r : Z) : Prop :=
  r = EIO \/ r = ENOSPC /\ uio_rw u = UIO_WRITE \/ r = EFAULT /\ uio_segflg u <> UIO_SYSSPACE \/
  r = EFBIG /\ 512 * max_blocks < uio_offset u + n.

(** The bytes are inside the largest file. *)
Definition fits (u : uio) (n : Z) : Prop := n = 0 \/ uio_offset u + n <= 512 * max_blocks.

Lemma fits_block u n :
  uio_offset u / 512 < max_blocks -> uio_offset u mod 512 + n <= 512 -> fits u n.
Proof.
  intros Hq Hm. right. pose proof (Z.div_mod (uio_offset u) 512 ltac:(lia)). lia.
Qed.

(** An error stops a transfer between two blocks. *)
Definition stopped (u : uio) (k n : Z) : Prop :=
  k = 0 \/ k < n /\ (uio_offset u + k) mod 512 = 0.

(** All [n] bytes are moved, or an error is returned after the first [k]. *)
Definition io_result (held : Z -> Prop) (vn : Z) (s : sst H D) (u : uio) (n r : Z)
    (s' : sst H D) (u' : uio) : Prop :=
  exists k dat x, 0 <= k <= n /\
    steps (contents (s_dev s) (inode vn s) (uio_offset u) k) (mk_xfer u (s_um s)) = Some (dat, x) /\
    wrote held vn (is_write u) (uio_offset u) dat s s' /\ same_kind u u' /\
    (r = 0 /\ k = n /\ x = mk_xfer u' (s_um s') /\ fits u n \/
     io_err u n r /\ stopped u k n /\ uio_offset u + k <= uio_offset u' /\ 0 <= uio_resid u' /\
       uio_offset u' + uio_resid u' = uio_offset u + uio_resid u /\
       (uio_segflg u = UIO_SYSSPACE -> x = mk_xfer u' (s_um s'))).

(** ** The bytes of a range *)

Lemma contents_length (d : D) i off n : 0 <= n -> zlength (contents d i off n) = n.
Proof. intros Hn. unfold contents, zlength. rewrite length_map, length_seqZ. lia. Qed.

Lemma contents_app (d : D) i off a b :
  0 <= a -> 0 <= b -> contents d i off (a + b) = contents d i off a ++ contents d i (off + a) b.
Proof. intros Ha Hb. unfold contents. by rewrite seqZ_app, map_app. Qed.

Lemma contents_ext_in (d d' : D) i i' off n :
  (forall p, off <= p < off + n -> byte_at d' i' p = byte_at d i p) ->
  contents d' i' off n = contents d i off n.
Proof.
  intros Hb. unfold contents. apply map_ext_in. intros p Hp.
  apply list_elem_of_In, elem_of_seqZ in Hp. by apply Hb.
Qed.

Lemma contents_ext (d d' : D) i i' off n :
  0 <= off -> (forall p, 0 <= p -> byte_at d' i' p = byte_at d i p) ->
  contents d' i' off n = contents d i off n.
Proof. intros Ho Hb. apply contents_ext_in. intros p Hp. apply Hb. lia. Qed.

Lemma contents_lookup (d : D) i off n k :
  0 <= k < n -> nth (Z.to_nat k) (contents d i off n) 0 = byte_at d i (off + k).
Proof.
  intros Hk. unfold contents. rewrite nth_lookup, list_lookup_fmap.
  rewrite (lookup_seqZ_lt off n (Z.to_nat k)) by lia. cbn. f_equal. lia.
Qed.

(** The part of a block that a range covers. *)
Definition block_data (d : D) (b : Z) : list Z := if b =? 0 then zeros else dev_block d b.

Lemma contents_block (d : D) i off n :
  0 <= off -> 0 <= n -> off mod 512 + n <= 512 ->
  zlength (block_data d (blk d i (off / 512))) = 512 ->
  contents d i off n = slice (block_data d (blk d i (off / 512))) (off mod 512) n.
Proof.
  intros Ho Hn Hr Hl. pose proof (Z.mod_pos_bound off 512).
  rewrite <- (Z2Nat.id n) at 2 by lia. rewrite slice_eq by lia.
  unfold contents, seqZ. rewrite map_map. apply map_ext_in. intros k Hk%in_seq.
  unfold byte_at, block_data.
  assert ((Z.of_nat k + off) / 512 = off / 512) as -> by (Z.to_euclidean_division_equations; lia).
  assert ((Z.of_nat k + off) mod 512 = off mod 512 + Z.of_nat k) as ->
    by (Z.to_euclidean_division_equations; lia).
  case_match; [by rewrite nth_zeros|done].
Qed.

Lemma frame_curas (s s' : sst H D) : frame_of s' = frame_of s -> s_curas s' = s_curas s.
Proof. by intros [=]. Qed.

Lemma wrote_trans held vn w off dat1 dat2 s1 s2 s3 :
  wrote held vn w off dat1 s1 s2 -> wrote held vn w (off + zlength dat1) dat2 s2 s3 ->
  wrote held vn w off (dat1 ++ dat2) s1 s3.
Proof.
  intros A B. split.
  - eapply keeps_trans; [apply A|apply B].
  - by rewrite (wr_size _ _ _ _ _ _ _ B), (wr_size _ _ _ _ _ _ _ A).
  - intros p Hp. rewrite (wr_bytes _ _ _ _ _ _ _ B), (wr_bytes _ _ _ _ _ _ _ A) by done.
    destruct w; [|done]. cbn [andb]. unfold zlength. rewrite length_app.
    pose proof (Zle_0_nat (length dat1)). pose proof (Zle_0_nat (length dat2)).
    destruct (Z.leb_spec off p), (Z.leb_spec (off + Z.of_nat (length dat1)) p),
      (Z.ltb_spec p (off + Z.of_nat (length dat1))),
      (Z.ltb_spec p (off + Z.of_nat (length dat1) + Z.of_nat (length dat2))),
      (Z.ltb_spec p (off + Z.of_nat (length dat1 + length dat2))); cbn [andb]; try lia; try done.
    + rewrite app_nth2 by lia. f_equal. lia.
    + rewrite app_nth1 by lia. done.
Qed.

Lemma wrote_nothing held vn w off s : inv held vn s -> wrote held vn w off [] s s.
Proof.
  intros Hi. split; [by apply keeps_refl|done|]. intros p Hp. cbn [zlength length].
  rewrite Z.add_0_r. destruct w, (Z.leb_spec off p), (Z.ltb_spec p off); try done. lia.
Qed.

Lemma read_bytes held vn off dat s s' :
  wrote held vn false off dat s s' -> forall p, 0 <= p -> byte vn s' p = byte vn s p.
Proof. intros W p Hp. by rewrite (wr_bytes _ _ _ _ _ _ _ W). Qed.

(** ** Composing transfers *)

Lemma same_kind_write u u' : same_kind u u' -> is_write u' = is_write u.
Proof. intros (E & _ & _). unfold is_write. by rewrite E. Qed.

(** The state and the uio after a successful transfer. *)
Lemma io_next held vn s u n s' u' m :
  io_pre held vn s u (n + m) -> 0 <= n -> 0 <= m -> io_result held vn s u n 0 s' u' ->
  io_pre held vn s' u' m /\ uio_offset u' = uio_offset u + n /\ uio_resid u' = uio_resid u - n /\
  same_kind u u'.
Proof.
  intros P Hn Hm (k & dat & x & Hk & Hs & W & K & [(_ & -> & -> & _)|([|[[]|[[]|[]]]] & _)]);
    [|done..].
  pose proof (ip_n _ _ _ _ _ P).
  apply steps_wf in Hs as (W' & _ & R & O);
    [|apply P|rewrite contents_length; cbn; lia].
  rewrite contents_length in R, O by done. cbn [xu] in R, O, W'.
  split_and!; [|done|done|done]. destruct P.
  split; [apply W|done| |lia|lia|lia].
  destruct K as (_ & -> & ->). by rewrite (frame_curas s s') by apply W.
Qed.

Lemma io_seq held vn s u n m s' u' r s'' u'' :
  io_pre held vn s u (n + m) -> 0 <= n -> 0 <= m ->
  (r <> 0 -> 0 < m /\ (uio_offset u + n) mod 512 = 0) ->
  io_result held vn s u n 0 s' u' -> io_result held vn s' u' m r s'' u'' ->
  io_result held vn s u (n + m) r s'' u''.
Proof.
  intros P Hn Hm Hal A B. destruct (io_next _ _ _ _ _ _ _ m P Hn Hm A) as (P' & O & R & K).
  destruct A as (? & dat1 & x & _ & S1 & W1 & _ & [(_ & -> & -> & Hf)|([|[[]|[[]|[]]]] & _)]); [|done..].
  destruct B as (k & dat2 & x2 & Hk & S2 & W2 & K2 & Hr).
  assert (zlength dat1 = n) as L1.
  { apply steps_length in S1. unfold zlength. rewrite S1. by apply contents_length. }
  rewrite O in S2, W2. rewrite (same_kind_write _ _ K) in W2. rewrite <- L1 in W2.
  exists (n + k), (dat1 ++ dat2), x2. split_and!; [lia|lia| |by eapply wrote_trans| |].
  - rewrite contents_app, steps_app, S1 by lia.
    assert (steps (contents (s_dev s) (inode vn s) (uio_offset u + n) k) (mk_xfer u' (s_um s'))
            = Some (dat2, x2)) as ->; [|done].
    destruct (uio_rw u) eqn:Erw.
    + assert (is_write u = false) as Ew by (unfold is_write; by rewrite Erw).
      rewrite Ew in W1. rewrite (contents_ext (s_dev s') _ (inode vn s') _); [done| |].
      * pose proof (ip_off _ _ _ _ _ P). lia.
      * intros p Hp. symmetry. by eapply read_bytes.
    + rewrite <- S2. apply steps_write; [destruct K as (Ek & _); cbn; by rewrite Ek|].
      pose proof (contents_length (s_dev s) (inode vn s) (uio_offset u + n) k ltac:(lia)).
      pose proof (contents_length (s_dev s') (inode vn s') (uio_offset u + n) k ltac:(lia)).
      unfold zlength in *. lia.
  - destruct K as (? & ? & ?), K2 as (? & ? & ?). split_and!; congruence.
  - destruct Hr as [(-> & -> & -> & Hf2)|(He & Hr)]; [left|right].
    { split_and!; [done|lia|done|]. unfold fits in *. rewrite O in Hf2.
      destruct (Z.eq_dec m 0) as [->|]; [by rewrite Z.add_0_r|]. right. lia. }
    assert (r <> 0) as Hr0 by (destruct He as [->|[[-> _]|[[-> _]|[-> _]]]]; done).
    destruct (Hal Hr0) as [Hm0 Hal']. destruct Hr as (Hst & Ho2 & Hr2 & Hsum & Hsys).
    split_and!; [| |lia|lia|lia|destruct K as (_ & Kseg & _); by rewrite <- Kseg].
    + destruct K as (Krw & Kseg & _). unfold io_err in *. rewrite Krw, Kseg in He.
      destruct He as [|[|[|[]]]]; auto. do 3 right. split; [done|]. lia.
    + right. destruct Hst as [->|[Hlt Hmod]]; [by rewrite Z.add_0_r; split; [lia|]|].
      split; [lia|]. rewrite O in Hmod. by rewrite Z.add_assoc.
Qed.

Lemma io_err_mono held vn s u n m r s' u' :
  io_result held vn s u n r s' u' -> r <> 0 -> n <= m -> io_result held vn s u m r s' u'.
Proof.
  intros (k & dat & x & Hk & Hs & W & K & Hr) Hne Hm. exists k, dat, x.
  split_and!; [lia|lia|done..|]. destruct Hr as [[-> _]|(He & Hr)]; [done|right].
  destruct Hr as [Hst Hr]. split; [|split; [|done]].
  - unfold io_err in *. destruct He as [|[|[|[]]]]; auto. do 3 right. split; [done|lia].
  - destruct Hst as [|[]]; [by left|right]. split; [lia|done].
Qed.

Lemma io_failed held vn s u n r s' u' :
  io_pre held vn s u n -> keeps held vn s s' -> sfi_size (inode vn s') = sfi_size (inode vn s) ->
  (forall p, 0 <= p -> byte vn s' p = byte vn s p) -> same_kind u u' -> io_err u n r ->
  uio_offset u <= uio_offset u' -> 0 <= uio_resid u' ->
  uio_offset u' + uio_resid u' = uio_offset u + uio_resid u ->
  (uio_segflg u = UIO_SYSSPACE -> u' = u /\ s_um s' = s_um s) ->
  io_result held vn s u n r s' u'.
Proof.
  intros P K Hs Hb Hk He Ho Hr Hsum Hsys. pose proof (ip_n _ _ _ _ _ P).
  exists 0, [], (mk_xfer u (s_um s)). split_and!; [lia|lia|done| |done|right; split_and!; [done|by left|lia|lia|lia|]].
  2: { intros E. by destruct (Hsys E) as [-> ->]. }
  split; [done|done|]. intros p Hp. rewrite Hb by done. cbn [zlength length].
  rewrite Z.add_0_r. destruct (is_write u), (Z.leb_spec (uio_offset u) p), (Z.ltb_spec p (uio_offset u));
    try done. lia.
Qed.

Lemma same_file_wrote held vn w off s s' : same_file held vn s s' -> wrote held vn w off [] s s'.
Proof.
  intros F. split; [exact (sf_keeps _ _ _ _ F)|exact (sf_size _ _ _ _ F)|].
  intros p Hp. rewrite (sf_bytes _ _ _ _ F) by done.
  cbn [zlength length]. rewrite Z.add_0_r.
  destruct w, (Z.leb_spec off p), (Z.ltb_spec p off); try done. lia.
Qed.

Lemma io_same held vn s s1 u n r s' u' :
  io_pre held vn s u n -> same_file held vn s s1 -> io_result held vn s1 u n r s' u' ->
  io_result held vn s u n r s' u'.
Proof.
  intros P F (k & dat & x & Hk & Hs & W & K & Hr). exists k, dat, x.
  split_and!; [lia|lia| |apply (wrote_trans held vn _ _ [] dat s s1 s'); [by apply same_file_wrote|]
              |done|done].
  - rewrite <- (sf_um _ _ _ _ F), <- Hs.
    rewrite (contents_ext (s_dev s) (s_dev s1) (inode vn s) (inode vn s1)); [done|exact (ip_off _ _ _ _ _ P)|].
    exact (sf_bytes _ _ _ _ F).
  - cbn [zlength length]. by rewrite Z.add_0_r.
Qed.

Lemma io_pre_same held vn s s1 u n :
  io_pre held vn s u n -> same_file held vn s s1 -> io_pre held vn s1 u n.
Proof.
  intros [] F. split; try done; [apply (sf_keeps _ _ _ _ F)|].
  by rewrite (frame_curas s s1) by apply (sf_keeps _ _ _ _ F).
Qed.

Lemma io_failed_same held vn s s' u n r :
  io_pre held vn s u n -> same_file held vn s s' -> io_err u n r -> io_result held vn s u n r s' u.
Proof.
  intros P F He. pose proof (ip_wf _ _ _ _ _ P) as Hw. pose proof (uw_resid _ Hw).
  apply io_failed; try done; try lia.
  - exact (sf_keeps _ _ _ _ F).
  - exact (sf_size _ _ _ _ F).
  - exact (sf_bytes _ _ _ _ F).
  - intros _. split; [done|exact (sf_um _ _ _ _ F)].
Qed.

(** ** Writing one block of the file *)

Lemma write_block held vn (s : sst H D) n data d um :
  inv held vn s -> 0 <= n < max_blocks -> blk (s_dev s) (inode vn s) n <> 0 ->
  upd_dev (s_dev s) (blk (s_dev s) (inode vn s) n) data d ->
  keeps held vn s (set_io s d um) /\
  forall p, byte_at d (inode vn s) p =
    if p / 512 =? n then nth (Z.to_nat (p mod 512)) data 0 else byte vn s p.
Proof.
  intros Hi Hn Hb (U1 & U2 & U3 & U4). pose proof (iv_file _ _ _ Hi) as Hf.
  assert (forall m, blk d (inode vn s) m = blk (s_dev s) (inode vn s) m) as Hblk.
  { apply blk_same. right. rewrite U4, (proj2 (Z.eqb_neq _ _)); [done|].
    intros E. by apply (fo_ind_inj _ _ _ _ Hf n). }
  split.
  - split; try done.
    + destruct Hi as [Id Iv If Io Ih Il]. split; try done; cbn.
      * destruct Id. split; try done; [by apply U2|by rewrite U3].
      * by eapply file_ok_dev.
      * intros b Hh Ho. apply (Io b Hh). by eapply owns_dev.
    + intros sv E. exists sv. split; [done|]. by split_and!.
    + intros b Hh. cbn. rewrite U4, (proj2 (Z.eqb_neq _ _)); [done|]. intros ->.
      apply (iv_own _ _ _ Hi _ Hh). split; [done|]. eauto.
  - intros p. unfold byte_at. rewrite !Hblk, !U4.
    destruct (Z.eqb_spec (p / 512) n) as [->|Hne].
    { by rewrite Z.eqb_refl, (proj2 (Z.eqb_neq _ 0)). }
    destruct (Z.eqb_spec (blk (s_dev s) (inode vn s) (p / 512)) 0) as [|Hnz]; [done|].
    rewrite (proj2 (Z.eqb_neq _ (blk (s_dev s) (inode vn s) n))); [done|]. intros E. apply Hne.
    apply (fo_inj _ _ _ _ Hf); try done. by eapply blk_range.
Qed.

Lemma wrote_block held vn (s : sst H D) off dat d um :
  let n := off / 512 in
  let b := blk (s_dev s) (inode vn s) n in
  inv held vn s -> 0 <= off -> n < max_blocks -> b <> 0 -> off mod 512 + zlength dat <= 512 ->
  upd_dev (s_dev s) b (splice (dev_block (s_dev s) b) (off mod 512) dat) d ->
  wrote held vn true off dat s (set_io s d um).
Proof.
  intros n b Hi Ho Hn Hb Hl U.
  assert (0 <= n) as Hn0 by (apply Z.div_pos; lia).
  destruct (write_block held vn s n _ d um Hi ltac:(lia) Hb U) as [K Hbytes].
  split; [done|done|]. intros p Hp. change (byte vn (set_io s d um) p) with (byte_at d (inode vn s) p).
  rewrite Hbytes. cbn [andb].
  assert (zlength (dev_block (s_dev s) b) = 512) as Hlen.
  { destruct (fo_range _ _ _ _ (iv_file _ _ _ Hi) n ltac:(lia)) as [|[Hr _]]; [done|].
    apply (dev_block_len held vn); [done|]. fold b in Hr. lia. }
  pose proof (Z.mod_pos_bound off 512 ltac:(lia)). pose proof (Z.mod_pos_bound p 512 ltac:(lia)).
  pose proof (Z.div_mod off 512 ltac:(lia)) as Hoff. pose proof (Z.div_mod p 512 ltac:(lia)).
  pose proof (Zle_0_nat (length dat)). fold n in Hoff. unfold zlength in *.
  destruct (Z.eqb_spec (p / 512) n) as [E|E].
  - rewrite splice_get by (unfold zlength; lia). unfold zlength.
    destruct (Z.leb_spec off p), (Z.leb_spec (off mod 512) (p mod 512)); try lia; cbn [andb].
    2: { unfold byte_at. rewrite E. fold b. by rewrite (proj2 (Z.eqb_neq b 0)). }
    destruct (Z.ltb_spec p (off + Z.of_nat (length dat))),
      (Z.ltb_spec (p mod 512) (off mod 512 + Z.of_nat (length dat))); try lia.
    + f_equal. lia.
    + unfold byte_at. rewrite E. fold b. by rewrite (proj2 (Z.eqb_neq b 0)).
  - destruct (Z.leb_spec off p), (Z.ltb_spec p (off + Z.of_nat (length dat))); try done. lia.
Qed.

(** ** sfs_partialio *)

(** The number of the file's block that a request starts in. *)
Lemma fileblock_eq held vn s u n :
  io_pre held vn s u n -> w32 (Z.quot (uio_offset u) SFS_BLOCKSIZE) = uio_offset u / 512.
Proof.
  intros P. pose proof (ip_off _ _ _ _ _ P). pose proof (ip_end _ _ _ _ _ P).
  pose proof (ip_n _ _ _ _ _ P).
  unfold SFS_BLOCKSIZE. rewrite Z.quot_div_nonneg by lia. apply w32_id.
  unfold is_u32, two32. Z.to_euclidean_division_equations; lia.
Qed.

Lemma bmap_err held vn s u n r b (s' : sst H D) :
  io_pre held vn s u n -> 0 < n \/ uio_offset u mod 512 <> 0 ->
  bmap_res vn (uio_offset u / 512) (is_write u) r b s' -> r <> 0 -> io_err u n r.
Proof.
  intros P Hn [[-> _]|[[-> Hw]|[->|[-> Hm]]]] Hr; [done|right; left|by left|do 3 right].
  - split; [done|]. unfold is_write in Hw. by destruct (uio_rw u).
  - split; [done|]. pose proof (ip_off _ _ _ _ _ P). pose proof (ip_n _ _ _ _ _ P).
    revert Hm Hn. Z.to_euclidean_division_equations; lia.
Qed.

(** The contents of a block of the file, or zeros. *)
Lemma fetch_block held vn (s : sst H D) b (w : bool) :
  inv held vn s -> b = 0 \/ 0 < b < nblocks s -> (w = true -> b <> 0) ->
  exists r buf (s' : sst H D),
    (if b =? 0 then do* kassert (negb w) in ret (0, zeros) else sfs_rblock zeros b) s
      = Ret ((r, buf), s') /\
    same_file held vn s s' /\ inode vn s' = inode vn s /\
    (forall j, dev_block (s_dev s') j = dev_block (s_dev s) j) /\
    (r = 0 /\ buf = block_data (s_dev s') b \/ r = EIO).
Proof.
  intros Hi Hb Hw. unfold block_data. destruct (Z.eqb_spec b 0) as [Hz|Hz].
  - exists 0, zeros, s. split; [|split_and!; [by apply same_file_refl|done|done|by left]].
    destruct w; [by apply Hw in Hz|]. done.
  - destruct (rblock_inv held vn s b Hi) as (r & d & data & E & F & Sd & Hr); [lia|].
    exists r, data, (set_io s d (s_um s)). split; [done|]. split_and!; try done; [apply Sd|].
    destruct Hr as [[-> ->]| ->]; [left|by right]. split; [done|]. symmetry. apply Sd.
Qed.

Lemma file_block_len held vn s n :
  inv held vn s -> zlength (block_data (s_dev s) (blk (s_dev s) (inode vn s) n)) = 512.
Proof.
  intros Hi. unfold block_data.
  destruct (Z.eqb_spec (blk (s_dev s) (inode vn s) n) 0) as [|Hnz]; [done|].
  destruct (fo_range _ _ _ _ (iv_file _ _ _ Hi) n) as [|[Hr _]]; [by eapply blk_range|done|].
  apply (dev_block_len held vn); [done|lia].
Qed.

Lemma do_uiomove_spec held vn s u n buf :
  io_pre held vn s u n -> n <= zlength buf ->
  (exists d u' um, steps (take (Z.to_nat n) buf) (mk_xfer u (s_um s)) = Some (d, mk_xfer u' um) /\
     do_uiomove buf n u s = Ret ((0, d ++ drop (Z.to_nat n) buf, u'), set_io s (s_dev s) um)) \/
  (exists buf' u' um, do_uiomove buf n u s = Ret ((EFAULT, buf', u'), set_io s (s_dev s) um) /\
     uio_segflg u <> UIO_SYSSPACE /\ same_kind u u' /\ uio_offset u <= uio_offset u' /\
     0 <= uio_resid u' /\ uio_offset u' + uio_resid u' = uio_offset u + uio_resid u).
Proof.
  intros P Hn. pose proof (ip_n _ _ _ _ _ P).
  pose proof (uiomove_spec (s_curas s) buf n (mk_xfer u (s_um s)) (ip_wf _ _ _ _ _ P)
    ltac:(lia) ltac:(cbn; lia) (ip_space _ _ _ _ _ P)) as M.
  unfold do_uiomove. destruct (steps _ _) as [[d [u' um]]|].
  - left. rewrite M. by exists d, u', um.
  - right. destruct M as (Hseg & buf' & [u' um] & -> & _ & W & K & Ho & Hr).
    exists buf', u', um. split; [done|]. pose proof (uw_resid _ W). cbn in *. split_and!; done || lia.
Qed.

Lemma splice_parts buf p d n :
  zlength d = n -> 0 <= p -> 0 <= n ->
  take (Z.to_nat p) buf ++ d ++ drop (Z.to_nat n) (drop (Z.to_nat p) buf) = splice buf p d.
Proof.
  intros <- Hp Hn. unfold splice, zlength. rewrite drop_drop. do 3 f_equal. lia.
Qed.

Lemma io_done held vn s u n dat u' s' :
  io_pre held vn s u n ->
  steps (contents (s_dev s) (inode vn s) (uio_offset u) n) (mk_xfer u (s_um s))
    = Some (dat, mk_xfer u' (s_um s')) ->
  wrote held vn (is_write u) (uio_offset u) dat s s' -> fits u n -> io_result held vn s u n 0 s' u'.
Proof.
  intros P Hs W Hf. pose proof (ip_n _ _ _ _ _ P). exists n, dat, (mk_xfer u' (s_um s')).
  assert (same_kind u u') as K.
  { apply steps_wf in Hs as (_ & K & _); [done|apply P|]. rewrite contents_length; cbn; lia. }
  split_and!; [lia|lia|done|done|done|by left].
Qed.

Lemma wrote_read held vn off dat s d um :
  inv held vn s -> same_dev (s_dev s) d -> wrote held vn false off dat s (set_io s d um).
Proof.
  intros Hi Sd. split; [by apply keeps_io|done|]. intros p Hp. cbn [andb].
  apply byte_at_dev, Sd.
Qed.

Lemma partial_move_spec held vn s u n :
  let off := uio_offset u in
  let b := blk (s_dev s) (inode vn s) (off / 512) in
  io_pre held vn s u n -> off mod 512 + n <= 512 -> off / 512 < max_blocks ->
  (is_write u = true -> b <> 0) ->
  exists r s' u', partial_move u b (block_data (s_dev s) b) (off mod 512) n s = Ret ((r, u'), s') /\
    io_result held vn s u n r s' u'.
Proof.
  intros off b P Hfit Hlt Hw. pose proof (ip_n _ _ _ _ _ P) as Hn.
  pose proof (ip_off _ _ _ _ _ P : 0 <= off) as Hoff.
  pose proof (ip_inv _ _ _ _ _ P) as Hi.
  pose proof (Z.mod_pos_bound off 512 ltac:(lia)) as Hm.
  pose proof (file_block_len held vn s (off / 512) Hi) as Hl. fold b in Hl.
  pose proof (contents_block (s_dev s) (inode vn s) off n Hoff ltac:(lia) Hfit Hl) as Hc.
  set (buf := block_data (s_dev s) b) in *. unfold partial_move.
  destruct (do_uiomove_spec held vn s u n (drop (Z.to_nat (off mod 512)) buf) P)
    as [(d & u' & um & Hs & E)|(buf' & u' & um & E & Hseg & K & Ho & Hr & Hsum)].
  { unfold zlength in *. rewrite length_drop. lia. }
  - step E. change (take (Z.to_nat n) (drop (Z.to_nat (off mod 512)) buf))
      with (slice buf (off mod 512) n) in Hs.
    assert (zlength d = n) as Hd.
    { apply steps_length in Hs. unfold zlength. rewrite Hs. apply slice_length; lia. }
    assert (same_kind u u') as K.
    { apply steps_wf in Hs as (_ & K & _); [done|apply P|]. rewrite slice_length; cbn; lia. }
    fold b in Hc. fold buf in Hc. rewrite <- Hc in Hs.
    rewrite (same_kind_write _ _ K). destruct (is_write u) eqn:Ew.
    + specialize (Hw eq_refl). rewrite (splice_parts buf (off mod 512) d n) by lia.
      assert (buf = dev_block (s_dev s) b) as Hbuf
        by (unfold buf, block_data; by rewrite (proj2 (Z.eqb_neq b 0))).
      pose proof (iv_disk _ _ _ Hi) as Hd2. pose proof (do_nb _ _ _ Hd2).
      destruct (sfs_wblock_spec (splice buf (off mod 512) d) b (set_io s (s_dev s) um))
        as (d' & Ed & U); [apply Hd2..|apply Hi| |rewrite splice_length; lia|].
      { destruct (fo_range _ _ _ _ (iv_file _ _ _ Hi) (off / 512)) as [|[? _]];
          [split; [apply Z.div_pos; lia|done]|done|]. cbn. lia. }
      step Ed. exists 0, (set_io s d' um), u'. split; [done|].
      eapply io_done; [done|done| |by apply fits_block]. rewrite Ew.
      apply wrote_block; try done; fold off; [lia|].
      fold b. by rewrite <- Hbuf.
    + exists 0, (set_io s (s_dev s) um), u'. split; [done|].
      eapply io_done; [done|done| |by apply fits_block]. rewrite Ew. apply wrote_read; [done|].
      apply same_dev_refl, (iv_disk _ _ _ Hi).
  - step E. exists EFAULT, (set_io s (s_dev s) um), u'. split; [done|].
    assert (same_dev (s_dev s) (s_dev s)) as Sd by apply same_dev_refl, (iv_disk _ _ _ Hi).
    apply io_failed; try done; [by apply keeps_io|]. right. right. by left.
Qed.

Lemma partialio_spec held vn s u n :
  io_pre held vn s u n -> 0 < n \/ uio_offset u mod 512 <> 0 -> uio_offset u mod 512 + n <= 512 ->
  exists r s' u', sfs_partialio vn u (uio_offset u mod 512) n s = Ret ((r, u'), s') /\
    io_result held vn s u n r s' u'.
Proof.
  intros P Hn Hfit. unfold sfs_partialio. rewrite (fileblock_eq _ _ _ _ _ P).
  pose proof (ip_n _ _ _ _ _ P).
  pose proof (ip_off _ _ _ _ _ P) as Hoff. set (off := uio_offset u) in *.
  pose proof (Z.mod_pos_bound off 512 ltac:(lia)) as Hm.
  assert (0 <= off / 512) as Hq by (apply Z.div_pos; lia).
  rewrite (w32_id (off mod 512 + n)) by (unfold is_u32, two32; lia).
  rewrite (proj2 (Z.leb_le _ SFS_BLOCKSIZE)) by (unfold SFS_BLOCKSIZE; lia). mrun.
  destruct (sfs_bmap_spec held vn (off / 512) (is_write u) s (ip_inv _ _ _ _ _ P) Hq)
    as (r & b & s1 & Eb & F1 & Hr).
  step Eb. destruct (Z.eqb_spec r 0) as [->|Hne]; cbn [negb].
  2: { exists r, s1, u. split; [done|]. apply io_failed_same; [done|done|]. by eapply bmap_err. }
  destruct Hr as [(_ & Hb & Hlt & Hal)|[[]|[|[]]]]; [|done..].
  pose proof (io_pre_same _ _ _ _ _ _ P F1) as P1. pose proof (ip_inv _ _ _ _ _ P1) as I1.
  destruct (fetch_block held vn s1 b (is_write u)) as (r & buf & s2 & Ef & F2 & Hin & Hdev & Hr);
    [done| |done|].
  { subst b. destruct (fo_range _ _ _ _ (iv_file _ _ _ I1) (off / 512)) as [|[? _]]; auto. }
  step Ef. pose proof (same_file_trans _ _ _ _ _ F1 F2) as F12.
  destruct Hr as [[-> ->]| ->]; cbn [negb Z.eqb EIO Pos.eqb].
  2: { exists EIO, s2, u. split; [done|]. apply io_failed_same; [done|done|]. by left. }
  pose proof (io_pre_same _ _ _ _ _ _ P F12) as P2.
  assert (b = blk (s_dev s2) (inode vn s2) (off / 512)) as ->.
  { rewrite Hb, Hin. symmetry. apply blk_same. right. apply Hdev. }
  destruct (partial_move_spec held vn s2 u n P2 Hfit Hlt Hal) as (r & s3 & u' & Em & Hres).
  exists r, s3, u'. split; [done|]. by eapply io_same.
Qed.

(** ** sfs_blockio *)

(** The counters that [sfs_blockio] puts back after the transfer of a block. *)
Definition restore (u u' : uio) (diskoff : Z) : uio :=
  set_counts u' (uio_offset u' - diskoff + uio_offset u) (w32 (uio_resid u' - 512 + uio_resid u)).

Lemma restore_same u diskoff :
  is_u32 (uio_resid u) -> restore u (set_counts u diskoff 512) diskoff = u.
Proof.
  intros Hr. unfold restore. cbn. rewrite w32_id by (replace (512 - 512 + uio_resid u) with (uio_resid u) by lia; done).
  destruct u as [a b off res c d e]. cbn. unfold set_counts. cbn. f_equal; lia.
Qed.

Lemma restore_done u um diskoff l d u' um' :
  uio_wf u -> 512 <= uio_resid u -> zlength l = 512 ->
  steps l (mk_xfer (set_counts u diskoff 512) um) = Some (d, mk_xfer u' um') ->
  steps l (mk_xfer u um) = Some (d, mk_xfer (restore u u' diskoff) um').
Proof.
  intros W Hr Hl Hs. rewrite steps_counts in Hs by (unfold is_u32, two32; lia).
  destruct (steps l (mk_xfer u um)) as [[d1 [u1 um1]]|] eqn:E; [|done].
  injection Hs as -> <- <-. apply steps_wf in E as (W1 & _ & R1 & O1); [|done|cbn; lia].
  cbn [xu] in *. pose proof (uw_resid _ W1). do 3 f_equal.
  unfold restore. cbn. rewrite Hl, Z.sub_diag. change (w32 0) with 0.
  rewrite w32_id by (unfold is_u32 in *; lia).
  destruct u1 as [a b off res c e f]. unfold set_counts. cbn in *. f_equal; lia.
Qed.

Lemma restore_fault u um diskoff u' um' :
  uio_wf u -> 512 <= uio_resid u ->
  after_fault (mk_xfer (set_counts u diskoff 512) um) (mk_xfer u' um') ->
  uio_segflg u <> UIO_SYSSPACE /\ same_kind u (restore u u' diskoff) /\
  uio_offset u <= uio_offset (restore u u' diskoff) /\ 0 <= uio_resid (restore u u' diskoff) /\
  uio_offset (restore u u' diskoff) + uio_resid (restore u u' diskoff) = uio_offset u + uio_resid u.
Proof.
  intros W Hr (Hseg & W' & K & Ho & Hsum). cbn in *. pose proof (uw_resid _ W). pose proof (uw_resid _ W').
  rewrite w32_id by (unfold is_u32 in *; lia). split_and!; try done; lia.
Qed.

Lemma disk_req held vn s u b :
  io_pre held vn s u 512 -> block_req (s_curas s) b (mk_xfer (set_counts u (b * 512) 512) (s_um s)).
Proof.
  intros [_ W Sp _ _ Hn]. split; cbn; [|done..].
  destruct W. split; cbn; [done|unfold two32; lia|lia].
Qed.

Lemma do_movezeros_spec held vn s u n :
  io_pre held vn s u n -> uio_rw u = UIO_READ ->
  (exists d u' um, steps (replicate (Z.to_nat n) 0) (mk_xfer u (s_um s)) = Some (d, mk_xfer u' um) /\
     do_movezeros n u s = Ret ((0, u'), set_io s (s_dev s) um)) \/
  (exists u' um, do_movezeros n u s = Ret ((EFAULT, u'), set_io s (s_dev s) um) /\
     uio_segflg u <> UIO_SYSSPACE /\ same_kind u u' /\ uio_offset u <= uio_offset u' /\
     0 <= uio_resid u' /\ uio_offset u' + uio_resid u' = uio_offset u + uio_resid u).
Proof.
  intros P Hrw. pose proof (ip_n _ _ _ _ _ P).
  pose proof (uiomovezeros_spec (s_curas s) n (mk_xfer u (s_um s)) (ip_wf _ _ _ _ _ P)
    ltac:(cbn; lia) Hrw (ip_space _ _ _ _ _ P)) as M.
  unfold do_movezeros. destruct (steps _ _) as [[d [u' um]]|].
  - left. rewrite M. by exists d, u', um.
  - right. destruct M as (Hseg & [u' um] & -> & W & K & Ho & Hr).
    exists u', um. split; [done|]. pose proof (uw_resid _ W). cbn in *. split_and!; done || lia.
Qed.

Lemma block_contents held vn s off :
  inv held vn s -> 0 <= off -> off mod 512 = 0 ->
  contents (s_dev s) (inode vn s) off 512
    = block_data (s_dev s) (blk (s_dev s) (inode vn s) (off / 512)).
Proof.
  intros Hi Ho Hm. pose proof (file_block_len held vn s (off / 512) Hi) as Hl.
  rewrite contents_block by (done || rewrite ?Hm; lia).
  rewrite Hm. unfold slice, zlength in *. cbn [drop Z.to_nat]. apply take_ge. lia.
Qed.

(** The three ways to move a whole block: a hole, a read, a write. *)
Lemma blockio_hole held vn s u :
  io_pre held vn s u 512 -> uio_offset u mod 512 = 0 -> is_write u = false ->
  uio_offset u / 512 < max_blocks -> blk (s_dev s) (inode vn s) (uio_offset u / 512) = 0 ->
  exists r s' u', do_movezeros SFS_BLOCKSIZE u s = Ret ((r, u'), s') /\
    io_result held vn s u 512 r s' u'.
Proof.
  intros P Hm Hw Hmax Hz. pose proof (ip_inv _ _ _ _ _ P) as Hi.
  assert (uio_rw u = UIO_READ) as Hrw by (unfold is_write in Hw; by destruct (uio_rw u)).
  assert (same_dev (s_dev s) (s_dev s)) as Sd by apply same_dev_refl, (iv_disk _ _ _ Hi).
  pose proof (block_contents held vn s (uio_offset u) Hi (ip_off _ _ _ _ _ P) Hm) as Hc.
  rewrite Hz in Hc.
  destruct (do_movezeros_spec held vn s u 512 P Hrw)
    as [(d & u' & um & Hs & E)|(u' & um & E & Hseg & K & Ho & Hr & Hsum)].
  - exists 0, (set_io s (s_dev s) um), u'. split; [done|].
    eapply io_done; [done|by rewrite Hc| |apply fits_block; lia]. rewrite Hw. by apply wrote_read.
  - exists EFAULT, (set_io s (s_dev s) um), u'. split; [done|].
    apply io_failed; try done; [by apply keeps_io|]. right. right. by left.
Qed.

Lemma blockio_read held vn s u :
  let b := blk (s_dev s) (inode vn s) (uio_offset u / 512) in
  io_pre held vn s u 512 -> uio_offset u mod 512 = 0 -> is_write u = false ->
  uio_offset u / 512 < max_blocks -> 0 < b < nblocks s ->
  exists r s' u', sfs_rwblock (set_counts u (b * 512) 512) s = Ret ((r, u'), s') /\
    io_result held vn s u 512 r s' (restore u u' (b * 512)).
Proof.
  intros b P Hm Hw Hmax Hb. pose proof (ip_inv _ _ _ _ _ P) as Hi. pose proof (iv_disk _ _ _ Hi) as Hd.
  assert (uio_rw u = UIO_READ) as Hrw by (unfold is_write in Hw; by destruct (uio_rw u)).
  pose proof (block_contents held vn s (uio_offset u) Hi (ip_off _ _ _ _ _ P) Hm) as Hc.
  fold b in Hc. unfold block_data in Hc. rewrite (proj2 (Z.eqb_neq b 0)) in Hc by lia.
  pose proof (ip_wf _ _ _ _ _ P) as W. pose proof (ip_n _ _ _ _ _ P). pose proof (do_nb _ _ _ Hd).
  rewrite rwblock_eq by apply Hi.
  destruct (rw_read_spec 10 (set_counts u (b * 512) 512) b s) as (r & u' & d & um & E & Sd & Hr);
    [apply Hd|lia|by eapply disk_req|done|]. cbv zeta in Hr.
  exists r, (set_io s d um), u'. split; [done|].
  destruct Hr as [[-> Hs]|[(-> & -> & ->)|(-> & Hs & Hf)]].
  - apply restore_done in Hs; [|done|lia|by apply (dev_block_len held vn); [|lia]].
    eapply io_done; [done|by rewrite Hc| |apply fits_block; lia]. rewrite Hw. by apply wrote_read.
  - rewrite restore_same by apply W. apply io_failed_same; [done|by apply same_file_io|by left].
  - apply restore_fault in Hf as (Hseg & K & Ho & Hres & Hsum); [|done|lia].
    apply io_failed; try done; [by apply keeps_io| |right; right; by left].
    intros p Hp. apply byte_at_dev, Sd.
Qed.

Lemma blockio_write held vn s u :
  let b := blk (s_dev s) (inode vn s) (uio_offset u / 512) in
  io_pre held vn s u 512 -> uio_offset u mod 512 = 0 -> is_write u = true ->
  uio_offset u / 512 < max_blocks -> 0 < b < nblocks s ->
  exists r s' u', sfs_rwblock (set_counts u (b * 512) 512) s = Ret ((r, u'), s') /\
    io_result held vn s u 512 r s' (restore u u' (b * 512)).
Proof.
  intros b P Hm Hw Hmax Hb. pose proof (ip_inv _ _ _ _ _ P) as Hi. pose proof (iv_disk _ _ _ Hi) as Hd.
  assert (uio_rw u = UIO_WRITE) as Hrw by (unfold is_write in Hw; by destruct (uio_rw u)).
  pose proof (ip_off _ _ _ _ _ P) as Hoff.
  pose proof (ip_wf _ _ _ _ _ P) as W. pose proof (ip_n _ _ _ _ _ P). pose proof (do_nb _ _ _ Hd).
  rewrite rwblock_eq by apply Hi.
  destruct (rw_write_spec 10 (set_counts u (b * 512) 512) b s) as (r & u' & d & um & E & Hr);
    [apply Hd|apply Hd|lia|by eapply disk_req|done|]. cbv zeta in Hr.
  exists r, (set_io s d um), u'. split; [done|].
  destruct Hr as [(-> & dat & Hs & U)|(-> & Hs & Hf & Sd)].
  - apply restore_done in Hs; [|done|lia|done].
    assert (zlength dat = 512) as Hl by (apply steps_length in Hs; unfold zlength; by rewrite Hs).
    pose proof (dev_block_len held vn s b Hi ltac:(lia)) as Hbl.
    eapply io_done; [done| | |apply fits_block; lia].
    + rewrite (steps_write _ (replicate 512 0)); [done|done|].
      pose proof (contents_length (s_dev s) (inode vn s) (uio_offset u) 512 ltac:(lia)).
      unfold zlength in *. rewrite length_replicate. lia.
    + rewrite Hw. apply wrote_block; try done; fold b; [lia|lia|]. rewrite Hm.
      replace (splice (dev_block (s_dev s) b) 0 dat) with dat; [done|].
      unfold splice. cbn [Z.to_nat take app]. unfold zlength in *.
      by rewrite drop_ge, app_nil_r by lia.
  - apply restore_fault in Hf as (Hseg & K & Ho & Hres & Hsum); [|done|lia].
    apply io_failed; try done; [by apply keeps_io| |right; right; by left].
    intros p Hp. apply byte_at_dev, Sd.
Qed.

Lemma blockio_spec held vn s u :
  io_pre held vn s u 512 -> uio_offset u mod 512 = 0 ->
  exists r s' u', sfs_blockio vn u s = Ret ((r, u'), s') /\ io_result held vn s u 512 r s' u'.
Proof.
  intros P Hm. unfold sfs_blockio. rewrite (fileblock_eq _ _ _ _ _ P).
  pose proof (ip_off _ _ _ _ _ P) as Hoff. set (off := uio_offset u) in *.
  assert (0 <= off / 512) as Hq by (apply Z.div_pos; lia).
  destruct (sfs_bmap_spec held vn (off / 512) (is_write u) s (ip_inv _ _ _ _ _ P) Hq)
    as (r & b & s1 & Eb & F & Hr).
  step Eb. destruct (Z.eqb_spec r 0) as [->|Hne]; cbn [negb].
  2: { exists r, s1, u. split; [done|]. apply io_failed_same; [done|done|].
       eapply bmap_err; done || lia. }
  destruct Hr as [(_ & Hb & Hlt & Hal)|[[]|[|[]]]]; [|done..].
  pose proof (io_pre_same _ _ _ _ _ _ P F) as P1. pose proof (ip_inv _ _ _ _ _ P1) as I1.
  destruct (Z.eqb_spec b 0) as [Hz|Hz].
  - assert (is_write u = false) as Hw by (destruct (is_write u); [by apply Hal in Hz|done]).
    rewrite Hw. mrun. cbn [negb]. mrun.
    destruct (blockio_hole held vn s1 u P1 Hm Hw Hlt) as (r & s2 & u' & E & Hres);
      [by fold off; rewrite <- Hb|].
    exists r, s2, u'. split; [done|]. by eapply io_same.
  - assert (0 < b < nblocks s1) as Hbr.
    { subst b. destruct (fo_range _ _ _ _ (iv_file _ _ _ I1) (off / 512)) as [|[? _]]; done || auto. }
    pose proof (do_small _ _ _ (iv_disk _ _ _ I1)). pose proof (ip_n _ _ _ _ _ P).
    unfold SFS_BLOCKSIZE. rewrite w32_id by (unfold is_u32, two32; lia).
    rewrite (proj2 (Z.leb_le _ _)) by lia. mrun.
    assert (exists r s' u', sfs_rwblock (set_counts u (b * 512) 512) s1 = Ret ((r, u'), s') /\
              io_result held vn s1 u 512 r s' (restore u u' (b * 512))) as (r & s2 & u' & E & Hres).
    { subst b. destruct (is_write u) eqn:Hw;
        [by apply blockio_write|by apply blockio_read]. }
    step E. exists r, s2, (restore u u' (b * 512)). split; [done|]. by eapply io_same.
Qed.

(** ** sfs_io *)

Lemma blocks_loop_spec held vn n s u :
  io_pre held vn s u (512 * Z.of_nat n) -> uio_offset u mod 512 = 0 ->
  exists r s' u', blocks_loop n vn u s = Ret ((r, u'), s') /\
    io_result held vn s u (512 * Z.of_nat n) r s' u'.
Proof.
  revert s u. induction n as [|n IH]; intros s u P Hm.
  { exists 0, s, u. split; [done|]. apply (io_done held vn s u _ []); [done|done| |by left].
    apply wrote_nothing, P. }
  replace (512 * Z.of_nat (S n)) with (512 + 512 * Z.of_nat n) in * by lia. cbn [blocks_loop].
  destruct (blockio_spec held vn s u) as (r & s1 & u1 & E & R); [|done|].
  { destruct P. split; done || lia. }
  step E. destruct (Z.eqb_spec r 0) as [->|Hne]; cbn [negb].
  - destruct (io_next _ _ _ _ _ _ _ _ P ltac:(lia) ltac:(lia) R) as (P1 & O1 & R1 & _).
    destruct (IH s1 u1 P1) as (r & s2 & u2 & E2 & R2).
    { rewrite O1. by rewrite <- Z.add_mod_idemp_r, Z.add_0_r by lia. }
    exists r, s2, u2. split; [done|]. apply (io_seq _ _ _ _ _ _ s1 u1); try done; try lia.
    intros Hr. split; [destruct n; [by injection E2 as <-|lia]|].
    by rewrite <- Z.add_mod_idemp_r, Z.add_0_r by lia.
  - exists r, s1, u1. split; [done|]. eapply io_err_mono; done || lia.
Qed.

Lemma aligned_spec held vn s u :
  io_pre held vn s u (uio_resid u) -> uio_offset u mod 512 = 0 \/ uio_resid u = 0 ->
  exists r s' u', io_aligned vn u s = Ret ((r, u'), s') /\
    io_result held vn s u (uio_resid u) r s' u' /\ (uio_resid u = 0 -> r = 0).
Proof.
  intros P Hm. unfold io_aligned. pose proof (ip_off _ _ _ _ _ P) as Hoff.
  pose proof (ip_n _ _ _ _ _ P) as Hn. set (n := uio_resid u) in *.
  destruct (Z.eqb_spec n 0) as [Hz|Hz].
  { exists 0, s, u. split; [done|]. split; [|done]. rewrite Hz in *.
    apply (io_done held vn s u _ []); [done|done| |by left]. apply wrote_nothing, P. }
  destruct Hm as [Hm|]; [|done].
  unfold SFS_BLOCKSIZE. rewrite Z.rem_mod_nonneg, Hm by lia. mrun.
  pose proof (Z.div_mod n 512 ltac:(lia)) as Hdm. pose proof (Z.mod_pos_bound n 512 ltac:(lia)).
  assert (0 <= n / 512) by (apply Z.div_pos; lia).
  remember (512 * Z.of_nat (Z.to_nat (n / 512))) as a eqn:Ha.
  assert (n = a + n mod 512) as Hsplit by lia.
  assert (io_pre held vn s u (a + n mod 512)) as Pa by (by rewrite <- Hsplit).
  destruct (blocks_loop_spec held vn (Z.to_nat (n / 512)) s u) as (r & s1 & u1 & E & R); [|done|].
  { rewrite <- Ha. destruct P. split; try done. lia. }
  rewrite <- Ha in R. step E. destruct (Z.eqb_spec r 0) as [->|Hne]; cbn [negb].
  2: { exists r, s1, u1. split; [done|]. split; [|done]. eapply io_err_mono; done || lia. }
  destruct (io_next _ _ _ _ _ _ _ _ Pa ltac:(lia) ltac:(lia) R) as (P1 & O1 & R1 & _).
  fold n in R1. assert (uio_resid u1 = n mod 512) as R1' by lia. rewrite R1'.
  rewrite (proj2 (Z.ltb_lt _ 512)) by lia. mrun.
  destruct (Z.ltb_spec 0 (n mod 512)) as [Hpos|Hneg].
  - assert (uio_offset u1 mod 512 = 0) as Hm1.
    { rewrite O1, Ha, Z.mul_comm, Z.mod_add by lia. done. }
    destruct (partialio_spec held vn s1 u1 (n mod 512) P1) as (r & s2 & u2 & E2 & R2);
      [by left|lia|].
    rewrite Hm1 in E2. exists r, s2, u2. split; [done|]. split; [|done]. rewrite Hsplit.
    apply (io_seq _ _ _ _ _ _ s1 u1); try done; try lia. by rewrite <- O1.
  - exists 0, s1, u1. split; [done|]. split; [|done]. by replace n with a by lia.
Qed.

Lemma io_body_spec held vn s u :
  io_pre held vn s u (uio_resid u) ->
  exists r s' u', io_body vn u s = Ret ((r, u'), s') /\ io_result held vn s u (uio_resid u) r s' u'.
Proof.
  intros P. unfold io_body. pose proof (ip_off _ _ _ _ _ P) as Hoff.
  pose proof (ip_n _ _ _ _ _ P) as Hn. unfold SFS_BLOCKSIZE.
  rewrite Z.rem_mod_nonneg by lia. pose proof (Z.mod_pos_bound (uio_offset u) 512 ltac:(lia)) as Hm.
  set (k := uio_offset u mod 512) in *. rewrite w32_id by (unfold is_u32, two32; lia).
  destruct (Z.eqb_spec k 0) as [Hz|Hz].
  { mrun. cbn [negb Z.eqb]. destruct (aligned_spec held vn s u P) as (r & s1 & u1 & E & R & _); eauto. }
  set (l := if uio_resid u <? 512 - k then uio_resid u else 512 - k).
  assert (0 <= l <= uio_resid u /\ k + l <= 512 /\ (l = uio_resid u \/ k + l = 512)) as (Hl & Hfit & Hend).
  { unfold l. destruct (Z.ltb_spec (uio_resid u) (512 - k)); lia. }
  clearbody l.
  assert (io_pre held vn s u (l + (uio_resid u - l))) as Pl
    by (by replace (l + (uio_resid u - l)) with (uio_resid u) by lia).
  destruct (partialio_spec held vn s u l) as (r & s1 & u1 & E & R); [|by right|done|].
  { destruct P. split; try done; lia. }
  fold k in E. step E. destruct (Z.eqb_spec r 0) as [->|Hne]; cbn [negb].
  2: { exists r, s1, u1. split; [done|]. eapply io_err_mono; done || lia. }
  destruct (io_next _ _ _ _ _ _ _ _ Pl ltac:(lia) ltac:(lia) R) as (P1 & O1 & R1 & _).
  rewrite <- R1 in P1.
  assert (k + l = 512 -> (uio_offset u + l) mod 512 = 0) as Hal.
  { intros Hkl. rewrite (Z.div_mod (uio_offset u) 512) by lia. fold k.
    replace (512 * (uio_offset u / 512) + k + l) with ((uio_offset u / 512 + 1) * 512) by lia.
    by apply Z.mod_mul. }
  destruct (aligned_spec held vn s1 u1 P1) as (r & s2 & u2 & E2 & R2 & Hz2).
  { rewrite R1, O1. destruct Hend as [|Hend]; [right; lia|auto]. }
  exists r, s2, u2. split; [done|]. rewrite R1 in R2, Hz2.
  replace (uio_resid u) with (l + (uio_resid u - l)) by lia.
  apply (io_seq _ _ _ _ _ _ s1 u1); try done; try lia.
Qed.

(** ** The end of the file *)

(** [e] bytes of the request lie past the end of the file. *)
Lemma counts_done l u um e d u' um' :
  uio_wf u -> 0 <= e -> zlength l <= uio_resid u - e ->
  steps l (mk_xfer (set_counts u (uio_offset u) (uio_resid u - e)) um) = Some (d, mk_xfer u' um') ->
  steps l (mk_xfer u um) =
    Some (d, mk_xfer (set_counts u' (uio_offset u') (w32 (uio_resid u' + e))) um').
Proof.
  intros W He Hl Hs. pose proof (uw_resid _ W). pose proof (Zle_0_nat (length l)).
  unfold zlength in Hl.
  rewrite steps_counts in Hs by (unfold is_u32 in *; lia).
  destruct (steps l (mk_xfer u um)) as [[d1 [u1 um1]]|] eqn:E; [|done].
  injection Hs as -> <- <-. apply steps_wf in E as (W1 & _ & R1 & O1); [|done|unfold zlength; cbn; lia].
  cbn [xu] in *. pose proof (uw_resid _ W1). unfold zlength in *. do 3 f_equal. cbn.
  rewrite !w32_id by (rewrite ?w32_id; unfold is_u32 in *; lia).
  destruct u1 as [a b off res c g f]. unfold set_counts. cbn in *. f_equal; lia.
Qed.

Lemma io_pre_counts held vn s u e :
  io_pre held vn s u (uio_resid u) -> 0 <= e <= uio_resid u ->
  let u0 := set_counts u (uio_offset u) (uio_resid u - e) in
  io_pre held vn s u0 (uio_resid u0).
Proof.
  intros [I W Sp Ho He Hn] Hr u0. destruct W as [W1 W2 W3].
  split; cbn; try done; try lia. split; cbn; [done|lia|lia].
Qed.

Lemma io_counts held vn s u e r s' u' :
  uio_wf u -> 0 <= e <= uio_resid u ->
  let u0 := set_counts u (uio_offset u) (uio_resid u - e) in
  io_result held vn s u0 (uio_resid u0) r s' u' ->
  io_result held vn s u (uio_resid u - e) r s'
    (set_counts u' (uio_offset u') (w32 (uio_resid u' + e))).
Proof.
  intros W He u0 (k & dat & [u1 um1] & Hk & Hs & Wr & K & Hr). pose proof (uw_resid _ W).
  cbn in Hk, Hs. apply counts_done in Hs; [|done|lia|rewrite contents_length; lia].
  exists k, dat. eexists. split_and!; [lia|cbn in *; lia|exact Hs|done|done|].
  destruct Hr as [(-> & -> & [= -> ->] & Hf)|(Herr & Hst & Ho & Hres & Hsum & Hsys)]; [by left|right].
  cbn in *. assert (w32 (uio_resid u' + e) = uio_resid u' + e) as Hw
    by (apply w32_id; unfold is_u32 in *; lia).
  split_and!; [exact Herr|exact Hst|lia|rewrite Hw; lia|rewrite Hw; lia|].
  intros E. by injection (Hsys E) as -> ->.
Qed.

(** The bytes that a read at [off] of [n] bytes finds. *)
Definition readable (size off n : Z) : Z := Z.max 0 (Z.min n (size - off)).

Lemma sfs_io_read held vn s u :
  io_pre held vn s u (uio_resid u) -> is_write u = false ->
  exists r s' u', sfs_io vn u s = Ret ((r, u'), s') /\
    io_result held vn s u (readable (sfi_size (inode vn s)) (uio_offset u) (uio_resid u)) r s' u'.
Proof.
  intros P Hw. destruct (inv_sv _ _ _ (ip_inv _ _ _ _ _ P)) as (sv & E & Ei).
  pose proof (ip_n _ _ _ _ _ P) as Hn. pose proof (ip_wf _ _ _ _ _ P) as W. pose proof (uw_resid _ W).
  unfold sfs_io. step (get_sv_ok _ _ _ E). rewrite <- Ei, Hw. cbn [negb andb orb].
  set (size := sfi_size (inode vn s)). unfold readable.
  destruct (Z.leb_spec size (uio_offset u)) as [Hpast|Hin].
  { exists 0, s, u. split; [done|]. rewrite Z.max_l by lia.
    apply (io_done held vn s u 0 []); [|done|apply wrote_nothing, P|by left].
    destruct P. split; done || lia. }
  set (e := if size <? uio_offset u + uio_resid u then w32 (uio_offset u + uio_resid u - size) else 0).
  assert (e = uio_resid u - Z.max 0 (Z.min (uio_resid u) (size - uio_offset u))) as He.
  { unfold e. destruct (Z.ltb_spec size (uio_offset u + uio_resid u)); [|lia].
    rewrite w32_id; [lia|]. unfold is_u32. lia. }
  clearbody e.
  assert ((uio_offset u + uio_resid u <=? size) || (e <? uio_resid u) = true) as ->.
  { destruct (Z.leb_spec (uio_offset u + uio_resid u) size), (Z.ltb_spec e (uio_resid u)); done || lia. }
  mrun. destruct (io_body_spec held vn s _ (io_pre_counts held vn s u e P ltac:(lia)))
    as (r & s1 & u1 & Eb & R).
  pose proof (io_counts held vn s u e r s1 u1 W ltac:(lia) R) as R'.
  destruct R as (_ & _ & _ & _ & _ & _ & K & _). apply same_kind_write in K.
  change (is_write (set_counts _ _ _)) with (is_write u) in K.
  step Eb. rewrite K, Hw. mrun. eexists r, s1, _. split; [done|].
  replace (Z.max 0 _) with (uio_resid u - e) by lia. exact R'.
Qed.

Lemma set_size_facts i x :
  zlength i = 512 ->
  zlength (set_size i x) = 512 /\ sfi_size (set_size i x) = w32 x /\
  sfi_type (set_size i x) = sfi_type i /\ sfi_linkcount (set_size i x) = sfi_linkcount i /\
  sfi_indirect (set_size i x) = sfi_indirect i /\ forall (d : D) n, blk d (set_size i x) n = blk d i n.
Proof.
  intros Hl. unfold set_size.
  assert (sfi_indirect (wr32 i 0 x) = sfi_indirect i) as Hind
    by (apply rd32_splice; rewrite ?be32_length; lia).
  split_and!; [by apply set_inode_len|by apply rd32_wr32; lia|..|done|].
  1,2: apply rd16_splice; rewrite ?be32_length; lia.
  intros d n. unfold blk. rewrite Hind.
  destruct (Z.ltb_spec n 0); [done|]. destruct (Z.ltb_spec n SFS_NDIRECT) as [Hn|]; [|done].
  apply rd32_splice; rewrite ?be32_length; unfold SFS_NDIRECT in Hn; lia.
Qed.

Lemma keeps_set_size held vn s sv x :
  inv held vn s -> s_vns s !! vn = Some sv ->
  let s' := set_vns s (<[vn := with_inode sv (set_size (sv_i sv) x)]> (s_vns s)) in
  keeps held vn s s' /\ sfi_size (inode vn s') = w32 x /\ forall p, byte vn s' p = byte vn s p.
Proof.
  intros Hi E s'. pose proof (iv_file _ _ _ Hi) as Hf. pose proof (inode_eq _ _ _ E) as Ei.
  destruct (set_size_facts (inode vn s) x (fo_len _ _ _ _ Hf)) as (F1 & F2 & F3 & F4 & F5 & F6).
  assert (inode vn s' = set_size (inode vn s) x) as Hin.
  { unfold inode at 1. cbn. by rewrite lookup_insert_eq, Ei. }
  split; [|by rewrite Hin; split; [|intros p; unfold byte_at; rewrite F6]].
  split; try done.
  - destruct Hi as [Id Iv _ Io Ih Il]. split; try done; rewrite ?Hin; cbn.
    + rewrite lookup_insert_eq. by eexists.
    + destruct Hf as [? Q2 Q3 Q4 Q5].
      split; rewrite ?F5; [done|intros n; rewrite F6; apply Q2|done|
                           intros m n; rewrite !F6; apply Q4|intros n; rewrite F6; apply Q5].
    + intros b Hb [Hnz Ho]. apply (Io b Hb). split; [done|]. rewrite F5 in Ho.
      destruct Ho as [|(n & Hn & Ho)]; [auto|right]. rewrite F6 in Ho. eauto.
  - intros w Hw. cbn. by rewrite lookup_insert_ne.
  - intros sv0 E0. rewrite E in E0. injection E0 as <-. rewrite Ei in *.
    eexists. cbn. rewrite lookup_insert_eq. split; [done|]. by split_and!.
Qed.

(** What a write leaves: the bytes of the range, and the size. *)
Record written (held : Z -> Prop) (vn off : Z) (dat : list Z) (endpos : Z) (s s' : sst H D) : Prop := {
  wn_keeps : keeps held vn s s';
  wn_size : sfi_size (inode vn s') =
    if sfi_size (inode vn s) <? endpos then w32 endpos else sfi_size (inode vn s);
  wn_bytes p : 0 <= p -> byte vn s' p =
    if (off <=? p) && (p <? off + zlength dat) then nth (Z.to_nat (p - off)) dat 0 else byte vn s p
}.

Lemma sfs_io_write held vn s u :
  io_pre held vn s u (uio_resid u) -> is_write u = true ->
  exists r s' u' k dat x, sfs_io vn u s = Ret ((r, u'), s') /\ 0 <= k <= uio_resid u /\
    steps (replicate (Z.to_nat k) 0) (mk_xfer u (s_um s)) = Some (dat, x) /\
    written held vn (uio_offset u) dat (uio_offset u') s s' /\
    (r = 0 /\ k = uio_resid u /\ x = mk_xfer u' (s_um s') /\ fits u (uio_resid u) \/
     io_err u (uio_resid u) r /\ stopped u k (uio_resid u) /\ uio_offset u + k <= uio_offset u' /\
       0 <= uio_resid u' /\ uio_offset u' + uio_resid u' = uio_offset u + uio_resid u /\
       (uio_segflg u = UIO_SYSSPACE -> x = mk_xfer u' (s_um s'))).
Proof.
  intros P Hw. destruct (inv_sv _ _ _ (ip_inv _ _ _ _ _ P)) as (sv & E & Ei).
  pose proof (ip_wf _ _ _ _ _ P) as W. pose proof (uw_resid _ W).
  unfold sfs_io. step (get_sv_ok _ _ _ E). rewrite Hw. cbn [negb andb orb]. mrun.
  rewrite Z.sub_0_r, set_counts_id.
  destruct (io_body_spec held vn s u P) as (r & s1 & u1 & Eb & k & dat & x & Hk & Hs & Wr & K & Hr).
  step Eb. rewrite (same_kind_write _ _ K), Hw in *.
  assert (w32 (uio_resid u1 + 0) = uio_resid u1) as ->.
  { rewrite Z.add_0_r. apply w32_id. unfold is_u32.
    destruct Hr as [(_ & -> & -> & _)|(_ & _ & Ho & Hres & Hsum)]; [|lia].
    apply steps_wf in Hs as (W1 & _); [apply W1|done|rewrite contents_length; cbn; lia]. }
  rewrite set_counts_id.
  assert (steps (replicate (Z.to_nat k) 0) (mk_xfer u (s_um s)) = Some (dat, x)) as Hs'.
  { rewrite <- Hs. apply steps_write; [by unfold is_write in Hw; cbn; destruct (uio_rw u)|].
    pose proof (contents_length (s_dev s) (inode vn s) (uio_offset u) k ltac:(lia)).
    unfold zlength in *. rewrite length_replicate. lia. }
  pose proof (wr_keeps _ _ _ _ _ _ _ Wr) as K1. pose proof (kp_inv _ _ _ _ K1) as I1.
  destruct (inv_sv _ _ _ I1) as (sv1 & E1 & Ei1). step (get_sv_ok _ _ _ E1). rewrite <- Ei1.
  pose proof (wr_size _ _ _ _ _ _ _ Wr) as Hsz. rewrite Hsz.
  destruct (Z.ltb_spec (sfi_size (inode vn s)) (uio_offset u1)) as [Hgt|Hle].
  - destruct (keeps_set_size held vn s1 sv1 (uio_offset u1) I1 E1) as (K2 & Z2 & B2).
    rewrite Ei1. step (set_inode_eq vn (set_size (sv_i sv1) (uio_offset u1)) sv1 s1 E1).
    exists r, (set_vns s1 (<[vn := with_inode sv1 (set_size (sv_i sv1) (uio_offset u1))]> (s_vns s1))),
      u1, k, dat, x.
    split_and!; [done|lia|lia|done| |done].
    split; [by eapply keeps_trans|by rewrite Z2, (proj2 (Z.ltb_lt _ _))|].
    intros p Hp. rewrite B2. by apply (wr_bytes _ _ _ _ _ _ _ Wr).
  - mrun. exists r, s1, u1, k, dat, x. split_and!; [done|lia|lia|done| |done].
    split; [done|by rewrite (proj2 (Z.ltb_ge _ _))|]. exact (wr_bytes _ _ _ _ _ _ _ Wr).
Qed.

(** ** Kernel buffers *)

(** The uio of a kernel buffer, as a request. *)
Lemma kinit_pre held vn s buf off rw :
  inv held vn s -> 0 <= off -> off + zlength buf < 2199023255552 -> zlength buf < two32 ->
  let u := uio_kinit buf (zlength buf) off rw in io_pre held vn s u (uio_resid u).
Proof.
  intros Hi Ho He Hn u. pose proof (zlength_nonneg buf).
  split; cbn; try done; try lia. split; cbn; [|lia|lia].
  constructor; [|done]. split_and!; cbn; unfold is_u32, two32 in *; lia || done.
Qed.

Lemma kinit_steps l buf off rw um :
  length buf = length l ->
  exists u', steps l (mk_xfer (uio_kinit buf (zlength l) off rw) um) =
      Some (match rw with UIO_READ => l | UIO_WRITE => buf end, mk_xfer u' um) /\
    uio_resid u' = 0 /\ uio_offset u' = off + zlength l /\
    kbuf_of u' = match rw with UIO_READ => l | UIO_WRITE => buf end.
Proof.
  intros Hl. destruct (decide (l = [])) as [->|Hne].
  { destruct buf; [|done]. exists (uio_kinit [] 0 off rw). split; [by destruct rw|].
    split; [done|]. split; [symmetry; apply Z.add_0_r|by destruct rw]. }
  destruct (steps_kinit l buf off rw um Hl Hne) as (u' & E & Hd & Hr & Ho & i & Hi & Hk).
  exists u'. split; [done|]. split; [done|]. split; [done|]. unfold kbuf_of. by rewrite Hd, Hi, Hk, app_nil_r.
Qed.

Lemma kinit_steps_prefix data off k um dat x :
  (k <= length data)%nat ->
  steps (replicate k 0) (mk_xfer (uio_kinit data (zlength data) off UIO_WRITE) um) = Some (dat, x) ->
  dat = take k data.
Proof.
  intros Hk Hs. destruct (decide (k = 0%nat)) as [->|]; [by injection Hs as <- _|].
  rewrite (steps_kernel _ _ _ (mk_iovec 0 data (zlength data)) []) in Hs; try done.
  - injection Hs as <- _. unfold moved. cbn. by rewrite length_replicate.
  - unfold zlength. cbn. rewrite length_replicate. lia.
  - unfold zlength. cbn. rewrite length_replicate. lia.
  - by destruct k.
Qed.

Lemma kernel_err data off rw n r :
  io_err (uio_kinit data n off rw) n r -> off + n <= 512 * max_blocks ->
  r = EIO \/ r = ENOSPC /\ rw = UIO_WRITE.
Proof. intros [|[|[[_ []]|[_ Hb]]]] Hm; cbn in *; auto; done || lia. Qed.

(** The errors of a write from a kernel buffer. *)
Definition write_err (off n r : Z) : Prop :=
  r = EIO \/ r = ENOSPC \/ r = EFBIG /\ 512 * max_blocks < off + n.

(** The file is as before a read. *)
Definition unchanged (held : Z -> Prop) (vn : Z) (s s' : sst H D) : Prop :=
  wrote held vn false 0 [] s s'.

Lemma unchanged_trans held vn s1 s2 s3 :
  unchanged held vn s1 s2 -> unchanged held vn s2 s3 -> unchanged held vn s1 s3.
Proof. intros A B. by apply (wrote_trans held vn false 0 [] []) with s2. Qed.

(** Reading a range inside the file into a kernel buffer. *)
Lemma io_read_kernel held vn s buf off :
  inv held vn s -> 0 <= off -> off + zlength buf <= 512 * max_blocks ->
  off + zlength buf <= sfi_size (inode vn s) ->
  exists r s' u', sfs_io vn (uio_kinit buf (zlength buf) off UIO_READ) s = Ret ((r, u'), s') /\
    unchanged held vn s s' /\
    (r = 0 /\ uio_resid u' = 0 /\ kbuf_of u' = contents (s_dev s) (inode vn s) off (zlength buf) \/
     r = EIO).
Proof.
  intros Hi Ho Hmax Hsz. pose proof (zlength_nonneg buf) as Hn.
  change (512 * max_blocks) with 73216 in Hmax.
  pose proof (kinit_pre held vn s buf off UIO_READ Hi Ho ltac:(lia) ltac:(unfold two32; lia)) as P.
  destruct (sfs_io_read held vn s _ P eq_refl) as (r & s' & u' & E & k & dat & x & Hk & Hs & W & _ & Hr).
  cbn [uio_kinit uio_resid uio_offset] in *. unfold readable in *.
  replace (Z.max 0 (Z.min (zlength buf) (sfi_size (inode vn s) - off))) with (zlength buf) in * by lia.
  exists r, s', u'. split; [done|].
  split; [split; [apply W|exact (wr_size _ _ _ _ _ _ _ W)|exact (wr_bytes _ _ _ _ _ _ _ W)]|].
  destruct Hr as [(-> & -> & -> & _)|[He _]]; [left|right].
  - pose proof (contents_length (s_dev s) (inode vn s) off (zlength buf) Hn) as Hl.
    destruct (kinit_steps (contents (s_dev s) (inode vn s) off (zlength buf)) buf off UIO_READ (s_um s))
      as (u2 & E2 & Hres & _ & Hb); [unfold zlength in *; lia|].
    rewrite Hl in E2. rewrite E2 in Hs. by injection Hs as <- -> _.
  - apply kernel_err in He as [|[_ ?]]; done || (change (512 * max_blocks) with 73216; lia).
Qed.

(** Storing a kernel buffer. *)
Lemma io_write_kernel held vn s data off :
  inv held vn s -> 0 <= off -> off + zlength data < 2199023255552 -> zlength data < two32 ->
  exists r s' u', sfs_io vn (uio_kinit data (zlength data) off UIO_WRITE) s = Ret ((r, u'), s') /\
    (r = 0 /\ uio_resid u' = 0 /\ written held vn off data (off + zlength data) s s' /\
       (data = [] \/ off + zlength data <= 512 * max_blocks) \/
     write_err off (zlength data) r /\ exists k, 0 <= k <= zlength data /\
       (k = 0 \/ k < zlength data /\ (off + k) mod 512 = 0) /\
       written held vn off (take (Z.to_nat k) data) (off + k) s s').
Proof.
  intros Hi Ho Hmax Hlen. pose proof (zlength_nonneg data) as Hn.
  pose proof (kinit_pre held vn s data off UIO_WRITE Hi Ho Hmax Hlen) as P.
  destruct (sfs_io_write held vn s _ P eq_refl) as (r & s' & u' & k & dat & x & E & Hk & Hs & W & Hr).
  cbn [uio_kinit uio_resid uio_offset] in *. exists r, s', u'. split; [done|].
  assert (dat = take (Z.to_nat k) data) as ->.
  { eapply (kinit_steps_prefix data off (Z.to_nat k)); [unfold zlength in *; lia|exact Hs]. }
  destruct Hr as [(-> & -> & -> & Hf)|(He & Hst & _ & _ & _ & Hsys)]; [left|right].
  - destruct (kinit_steps (replicate (length data) 0) data off UIO_WRITE (s_um s))
      as (u2 & E2 & Hres & Ho2 & _); [by rewrite length_replicate|].
    assert (zlength (replicate (length data) 0) = zlength data) as Hzl
      by (unfold zlength; by rewrite length_replicate).
    replace (Z.to_nat (zlength data)) with (length data) in Hs, W by (unfold zlength; lia).
    rewrite Hzl in E2, Ho2. rewrite E2 in Hs. injection Hs as _ -> _.
    rewrite take_ge in W by lia. rewrite <- Ho2. split_and!; try done.
    destruct Hf as [Hf|]; [left|right; by rewrite Ho2]. apply nil_length_inv. unfold zlength in Hf. lia.
  - split; [destruct He as [|[[]|[[_ []]|[]]]]; unfold write_err; auto|].
    exists k. split_and!; [lia|lia|done|]. rewrite (Hsys eq_refl) in Hs.
    apply steps_wf in Hs as (_ & _ & _ & Ho1); [|apply P|cbn; unfold zlength in *; rewrite length_replicate; lia].
    cbn [xu uio_offset uio_kinit] in Ho1. rewrite Ho1 in W. unfold zlength in W at 1.
    rewrite length_replicate, Z2Nat.id in W by lia. exact W.
Qed.

(** What has been written is what the range contains. *)
Lemma written_contents held vn off data e s s' :
  written held vn off data e s s' -> 0 <= off ->
  contents (s_dev s') (inode vn s') off (zlength data) = data.
Proof.
  intros W Ho. pose proof (contents_length (s_dev s') (inode vn s') off (zlength data)
    (zlength_nonneg _)) as Hl.
  apply (nth_ext _ _ 0 0); [unfold zlength in *; lia|]. intros k Hk.
  rewrite <- (Nat2Z.id k). rewrite contents_lookup by (unfold zlength in *; lia).
  rewrite (wn_bytes _ _ _ _ _ _ _ W) by lia. rewrite (proj2 (Z.leb_le _ _)), (proj2 (Z.ltb_lt _ _)).
  - cbn [andb]. do 2 f_equal. lia.
  - unfold zlength in *. lia.
  - lia.
Qed.

End io.
