(* ===== verification/SfsSpec.v ===== *)
(** * The guarantees of SFS file I/O

    Theorems about [sfs_read] and [sfs_write] on a mounted file system over any
    block device, their round trip, and an execution on the disk driver in which
    a failed write is lost. *)

From stdpp Require Import base numbers list gmap.
From Stdlib Require Import ZArith Lia.
From S2P Require Import Prelude Heap Bitmap Array Uio Disk Sfs SfsFile SfsIo.

Section spec.
Context {H D : Type} `{KHeap H} `{BlockDev D}.
Implicit Types s : sst H D.

Notation byte vn s p := (byte_at (s_dev s) (inode vn s) p).

(** The state inside an operation that takes the big lock. *)
Definition locked (s : sst H D) : sst H D := set_lock s (s_lock s + 1).

Lemma release_ok s : 0 < s_lock s -> vfs_biglock_release s = Ret (tt, set_lock s (s_lock s - 1)).
Proof. intros Hl. unfold vfs_biglock_release. mrun. by rewrite (proj2 (Z.ltb_lt _ _)). Qed.

Lemma frame_lock s s' : frame_of s' = frame_of s -> s_lock s' = s_lock s.
Proof. by intros [=]. Qed.

Lemma relock s : set_lock (set_lock s (s_lock s - 1)) (s_lock (set_lock s (s_lock s - 1)) + 1) = s.
Proof. destruct s as [? ? ? ? l ? ?]. unfold set_lock. cbn. f_equal. lia. Qed.

Lemma sfs_read_eq vn u s r u' s1 :
  is_write u = false -> sfs_io vn u (locked s) = Ret ((r, u'), s1) -> 0 < s_lock s1 ->
  sfs_read vn u s = Ret ((r, u'), set_lock s1 (s_lock s1 - 1)).
Proof.
  intros Hw E Hl1. unfold sfs_read. rewrite Hw. mrun. unfold vfs_biglock_acquire. mrun.
  rewrite (bind_ok _ _ _ _ _ E). by rewrite (bind_ok _ _ _ _ _ (release_ok s1 Hl1)).
Qed.

Lemma sfs_write_eq vn u s r u' s1 :
  is_write u = true -> sfs_io vn u (locked s) = Ret ((r, u'), s1) -> 0 < s_lock s1 ->
  sfs_write vn u s = Ret ((r, u'), set_lock s1 (s_lock s1 - 1)).
Proof.
  intros Hw E Hl1. unfold sfs_write. rewrite Hw. mrun. unfold vfs_biglock_acquire. mrun.
  rewrite (bind_ok _ _ _ _ _ E). by rewrite (bind_ok _ _ _ _ _ (release_ok s1 Hl1)).
Qed.

(** C6. [sfs_read] returns to its caller on every request.  When it returns 0
    the bytes of the file from the offset on, as many as the request asks for
    and the file has, have gone through the uio in order, across direct,
    indirect and missing blocks and unaligned ends; otherwise it reports an I/O
    error, a bad user address, or a position past the largest file.  In every
    case the contents and the size of the file, the blocks of all others and the
    rest of the system are as before. *)
Theorem sfs_read_correct held vn s u
    (Hlock : 0 <= s_lock s) (Hpre : io_pre held vn (locked s) u (uio_resid u))
    (Hrw : uio_rw u = UIO_READ) :
  let k := readable (sfi_size (inode vn s)) (uio_offset u) (uio_resid u) in
  let data := contents (s_dev s) (inode vn s) (uio_offset u) k in
  exists r s' u', sfs_read vn u s = Ret ((r, u'), s') /\
    keeps held vn (locked s) (locked s') /\
    sfi_size (inode vn s') = sfi_size (inode vn s) /\
    (forall p, 0 <= p -> byte vn s' p = byte vn s p) /\
    (r = 0 /\ steps data (mk_xfer u (s_um s)) = Some (data, mk_xfer u' (s_um s')) \/
     io_err u k r).
Proof.
  intros k data.
  assert (is_write u = false) as Hw by (unfold is_write; by rewrite Hrw).
  destruct (sfs_io_read held vn (locked s) u Hpre Hw)
    as (r & s1 & u' & E & n & dat & x & Hk & Hs & W & K & Hr).
  assert (0 < s_lock s1) as Hl1 by apply W.
  exists r, (set_lock s1 (s_lock s1 - 1)), u'. split; [by apply sfs_read_eq|].
  unfold locked at 2. rewrite relock. split; [apply W|].
  split; [exact (wr_size _ _ _ _ _ _ _ W)|]. split.
  { intros p Hp. rewrite Hw in W. exact (read_bytes _ _ _ _ _ _ W p Hp). }
  destruct Hr as [(-> & -> & -> & _)|[He _]]; [left|by right]. split; [done|].
  pose proof (steps_read _ _ _ _ (Hrw : uio_rw (xu (mk_xfer u (s_um s))) = UIO_READ) Hs) as ->.
  exact Hs.
Qed.


(** C35. What has been written is read back: after a successful write of a
    kernel buffer inside the largest file, a read of the same range gives the
    same bytes, unless the device fails. *)
Theorem write_read_roundtrip held vn s s1 off data buf u1
    (Hlock : 0 <= s_lock s) (Hinv : inv held vn (locked s))
    (Hoff : 0 <= off) (Hmax : off + zlength data < 2199023255552) (Hlen : 0 < zlength data < two32)
    (Hbuf : length buf = length data)
    (Hwrite : sfs_write vn (uio_kinit data (zlength data) off UIO_WRITE) s = Ret ((0, u1), s1)) :
  exists r s2 u2, sfs_read vn (uio_kinit buf (zlength data) off UIO_READ) s1 = Ret ((r, u2), s2) /\
    (r = 0 /\ kbuf_of u2 = data \/ r = EIO).
Proof.
  destruct (io_write_kernel held vn (locked s) data off Hinv Hoff Hmax ltac:(lia))
    as (r & t1 & u' & E & Hr).
  assert (0 < s_lock t1) as Hl1.
  { destruct Hr as [(_ & _ & W & _)|(_ & k & _ & _ & W)]; apply (wn_keeps _ _ _ _ _ _ _ W). }
  rewrite (sfs_write_eq vn (uio_kinit _ _ _ UIO_WRITE) s r u' t1 eq_refl E Hl1) in Hwrite.
  injection Hwrite as -> -> <-.
  destruct Hr as [(_ & _ & W & Hfit)|[[|[|[]]] _]]; [|done..].
  set (s1 := set_lock t1 (s_lock t1 - 1)).
  assert (locked s1 = t1) as Hlk by (unfold s1, locked; apply relock).
  assert (zlength buf = zlength data) as Hbz by (unfold zlength; by rewrite Hbuf).
  destruct Hfit as [->|Hfit]; [unfold zlength in Hlen; cbn in Hlen; lia|].
  pose proof (wn_size _ _ _ _ _ _ _ W) as Hsz.
  assert (off + zlength data <= sfi_size (inode vn t1)) as Hin.
  { rewrite Hsz. destruct (Z.ltb_spec (sfi_size (inode vn (locked s))) (off + zlength data)); [|lia].
    rewrite w32_id; [lia|]. unfold is_u32, two32. change (512 * max_blocks) with 73216 in Hfit. lia. }
  destruct (io_read_kernel held vn t1 buf off) as (r & t2 & u2 & E2 & F2 & Hr);
    [apply (wn_keeps _ _ _ _ _ _ _ W)|done|by rewrite Hbz|by rewrite Hbz|].
  rewrite Hbz in E2, Hr. exists r, (set_lock t2 (s_lock t2 - 1)), u2. split.
  { apply sfs_read_eq; [done|by rewrite Hlk|apply F2]. }
  destruct Hr as [(-> & _ & ->)|Hr]; [left|by right]. split; [done|].
  apply (written_contents held vn off data _ _ _ W Hoff).
Qed.

End spec.

(** ** A write that is lost *)

Section lost.
Context {H D : Type} `{KHeap H} `{DiskHW D}.

(** The second attempt: nothing is left in the uio. *)
Lemma lhd_io_empty curas (l : lhd D) x b :
  lhd_ok l -> 0 <= b < hw_nsect (lh_disk l) -> uio_offset (xu x) = b * 512 + 512 ->
  uio_resid (xu x) = 0 -> lhd_d_io curas x l = Ret (0, x, l).
Proof.
  intros [Hok _] Hb Ho Hr. pose proof (hw_size _ Hok) as Hsz. unfold lhd_d_io, lhd_io. mrun.
  cbn [rq_x rq_dev]. rewrite Ho, Hr. unfold LHD_SECTSIZE.
  replace (b * 512 + 512) with ((b + 1) * 512) by lia. rewrite Z.quot_mul, Z.rem_mul by lia.
  change (w32 0 =? 0) with true. change (0 / 512) with 0. change (0 mod 512 =? 0) with true.
  cbn [negb orb]. rewrite Z.add_0_r.
  destruct (Z.ltb_spec (hw_nsect (lh_disk l)) (w32 (w32 (b + 1)))) as [Hlt|_]; [|done].
  exfalso. assert (w32 (w32 (b + 1)) <= b + 1); [|lia].
  etransitivity; [apply Z.mod_le; [apply w32_range|done]|]. apply Z.mod_le; [lia|done].
Qed.

(** A write that the disk refuses is lost without an error: when the first
    attempt at a block ends in a media error that leaves the sector as it was,
    [sfs_wblock] tries again with the uio that the first attempt has used up,
    which writes nothing, and returns 0 with every block of the disk unchanged. *)
Theorem failed_write_reported_done (s : sst H (lhd D)) b data code buf d
    (Hok : dev_ok (s_dev s)) (Hlock : 0 < s_lock s) (Hb : 0 <= b < d_blocks (s_dev s))
    (Hlen : zlength data = 512)
    (Hop : hw_op b (Z.lor LHD_WORKING LHD_ISWRITE) data (lh_disk (s_dev s)) = (code, buf, d))
    (Hcode : Z.land code LHD_STATEMASK = LHD_MEDIA)
    (Hkept : hw_data d b = hw_data (lh_disk (s_dev s)) b) :
  exists s', sfs_wblock data b s = Ret (0, s') /\
    forall j, dev_block (s_dev s') j = dev_block (s_dev s) j.
Proof.
  set (u := SFSUIO data b UIO_WRITE). pose proof Hok as [Hhw Hbl].
  pose proof (hw_size _ Hhw) as Hsz. cbn in Hb.
  pose proof (kinit_req (s_curas s) data b UIO_WRITE (s_um s) Hlen) as Hreq.
  destruct (steps_kinit (lh_buf (s_dev s)) data (b * 512) UIO_WRITE (s_um s))
    as (u1 & Es & _ & Hr1 & Ho1 & _).
  { unfold zlength in *. lia. } { intros E. by rewrite E in Hbl. }
  rewrite Hbl in Es, Ho1. change (uio_kinit data 512 (b * 512) UIO_WRITE) with u in Es.
  destruct (hw_op_spec (lh_disk (s_dev s)) b (Z.lor LHD_WORKING LHD_ISWRITE) data Hhw Hb Hlen)
    as (? & ? & ? & Hop' & Hok' & Hn & Hlb & _ & Hoth & _). rewrite Hop in Hop'. injection Hop' as <- <- <-.
  set (s1 := set_io s (mk_lhd d buf) (s_um s)).
  assert (dev_io u s = Ret ((EIO, u1), s1)) as E1.
  { unfold dev_io. cbn [d_io lhd_dev]. unfold lhd_d_io. rewrite (lhd_io_one _ b) by done.
    cbn [xu uio_rw u SFSUIO uio_kinit]. unfold lhd_sector.
    pose proof (buf_move_spec (s_curas s) b _ _ Hok Hreq) as Hm. fold u in Hm. rewrite Es in Hm.
    destruct Hm as [Hm _]. rewrite !bind_bind. rewrite (bind_ok _ _ _ _ _ Hm). cbn [Z.eqb negb].
    rewrite Z.add_0_r, w32_id by (unfold is_u32; lia). unfold start_op. mrun. unfold bind.
    cbn [rq_dev rq_x lh_buf lh_disk]. rewrite Hop. unfold lhd_code_to_errno. rewrite Hcode. done. }
  assert (dev_io u1 s1 = Ret ((0, u1), s1)) as E2.
  { unfold dev_io. cbn [d_io lhd_dev]. assert (lhd_ok (s_dev s1)) as Hok1 by done.
    rewrite (lhd_io_empty _ _ (mk_xfer u1 (s_um s1)) b Hok1); try done. cbn. lia. }
  exists s1. split.
  - unfold sfs_wblock, bind. rewrite rwblock_eq by done. fold u. cbn [rw_retry].
    rewrite (bind_ok _ _ _ _ _ E1). cbn [Z.eqb EIO EINVAL Pos.eqb].
    by rewrite (bind_ok _ _ _ _ _ E2).
  - intros j. cbn. destruct (Z.eq_dec j b) as [->|]; auto.
Qed.

End lost.

(** ** An example volume

    Sixteen blocks: the superblock, the root inode, the bitmap, the inode and
    the one data block of a file of five bytes. *)

Definition ex_super : list Z := wr32 (wr32 zeros 0 SFS_MAGIC) 4 16.
Definition ex_data : list Z := [104; 101; 108; 108; 111] ++ replicate 507 0.
Definition ex_inode : list Z :=
  set_direct (set_size (set_linkcount (set_type zeros SFS_TYPE_FILE) 1) 5) 0 4.

Definition ex_disk (errs : list bool) (spare : bool) : lhd RefDisk.t :=
  mk_lhd (RefDisk.mk ([ex_super; zeros; zeros; ex_inode; ex_data] ++ replicate 11 zeros) errs spare)
         zeros.

Definition ex_vnode : sfs_vnode := mk_sv 1 0 false ex_inode 3 false.
Definition ex_state (d : lhd RefDisk.t) (lock : Z) : sst RefHeap.t (lhd RefDisk.t) :=
  mk_sst (RefHeap.init 4096) d (∅ : gmap Z Z) 1 lock
    (mk_sfs 64 ex_super false 128 (mk_array 0 [] 0 0) (mk_bitmap 32 16 40 [31; 0]) false)
    {[ 100 := ex_vnode ]}.

Definition ex_held (b : Z) : Prop := 0 <= b <= 3.

Lemma ex_blk d n : blk (D := lhd RefDisk.t) d ex_inode n = if n =? 0 then 4 else 0.
Proof.
  unfold blk. assert (sfi_indirect ex_inode = 0) as -> by (vm_compute; done).
  assert (forallb (fun n => sfi_direct ex_inode n =? (if n =? 0 then 4 else 0)) (seqZ 0 15) = true)
    as Hd by (vm_compute; done). rewrite forallb_forall in Hd.
  destruct (Z.ltb_spec n 0), (Z.ltb_spec n SFS_NDIRECT) as [Hn|Hn]; unfold SFS_NDIRECT in Hn.
  3: { apply Z.eqb_eq, Hd, list_elem_of_In, elem_of_seqZ. lia. }
  all: rewrite (proj2 (Z.eqb_neq n 0)) by lia; try done. by destruct (n <? max_blocks).
Qed.

Lemma ex_bitmap_ok : bitmap_ok (mk_bitmap 32 16 40 [31; 0]).
Proof.
  split; cbn [nbits v]; [unfold two32; lia|done| |].
  - intros [|[|k]] w; cbn; [intros [= <-]; lia..|done].
  - intros i Hi. unfold zlength in Hi. cbn in Hi. lia.
Qed.

Lemma ex_inv errs lock : 0 < lock -> inv ex_held 100 (ex_state (ex_disk errs true) lock).
Proof.
  intros Hl.
  assert (inode 100 (ex_state (ex_disk errs true) lock) = ex_inode) as Hin by done.
  split; rewrite ?Hin; [| |split| | |done]; cbn [s_dev s_fs ex_state sfs_freemap sfs_super].
  - split; try done; try (by vm_compute).
    + split; [|done]. split; [done|]. cbn. repeat (constructor; [by vm_compute|]). constructor.
    + apply ex_bitmap_ok.
    + intros j. vm_compute (sp_nblocks ex_super). cbn. lia.
  - by eexists.
  - by vm_compute.
  - intros n Hn. rewrite ex_blk. destruct (n =? 0); [right|by left]. split; [|by vm_compute].
    vm_compute. done.
  - left. by vm_compute.
  - intros m n Hm Hn. rewrite !ex_blk. destruct (Z.eqb_spec m 0), (Z.eqb_spec n 0); done || lia.
  - intros n Hn. rewrite ex_blk. assert (sfi_indirect ex_inode = 0) as -> by (vm_compute; done).
    by destruct (n =? 0).
  - intros b Hb [Hnz [E|(n & Hn & E)]].
    + revert E. assert (sfi_indirect ex_inode = 0) as -> by (vm_compute; done). done.
    + rewrite ex_blk in E. unfold ex_held in Hb. destruct (n =? 0); lia.
  - intros b Hb. unfold ex_held in Hb. split; [lia|].
    assert (b = 0 \/ b = 1 \/ b = 2 \/ b = 3) as [->|[->|[->| ->]]] by lia; by vm_compute.
Qed.

Lemma ex_pre errs rw : io_pre ex_held 100 (locked (ex_state (ex_disk errs true) 0))
  (uio_kinit [1; 2; 3] 3 4 rw) 3.
Proof. apply (kinit_pre ex_held 100 _ [1; 2; 3] 4 rw); [by apply ex_inv|done..]. Qed.

(** What to look at in an outcome. *)
Definition seen {A} (f : uio -> sst RefHeap.t (lhd RefDisk.t) -> A)
    (o : outcome (Z * uio * sst RefHeap.t (lhd RefDisk.t))) : option (Z * A) :=
  match o with Ret (r, u, s) => Some (r, f u s) | _ => None end.

(** Three bytes from offset 4 on: one is left in the file; the first attempt at
    the block fails. *)
Lemma sfs_read_correct_witness : exists r s' u',
  sfs_read 100 (uio_kinit [1; 2; 3] 3 4 UIO_READ) (ex_state (ex_disk [true] true) 0) = Ret ((r, u'), s') /\
  keeps ex_held 100 (locked (ex_state (ex_disk [true] true) 0)) (locked s') /\
  r = 0 /\ kbuf_of u' = [111; 2; 3].
Proof.
  destruct (sfs_read_correct ex_held 100 (ex_state (ex_disk [true] true) 0)
    (uio_kinit [1; 2; 3] 3 4 UIO_READ)) as (r & s' & u' & E & K & _);
    [apply Z.le_refl|apply ex_pre|reflexivity|].
  exists r, s', u'. split; [exact E|]. split; [exact K|].
  assert (seen (fun u _ => kbuf_of u) (sfs_read 100 (uio_kinit [1; 2; 3] 3 4 UIO_READ)
            (ex_state (ex_disk [true] true) 0)) = Some (0, [111; 2; 3])) as Hc
    by (vm_compute; reflexivity).
  rewrite E in Hc. injection Hc as -> ->. split; reflexivity.
Defined.


(** Across the border between two blocks, the second of them new. *)
Definition ex_written : outcome (Z * uio * sst RefHeap.t (lhd RefDisk.t)) :=
  sfs_write 100 (uio_kinit [1; 2; 3] 3 510 UIO_WRITE) (ex_state (ex_disk [] true) 0).

Lemma write_read_roundtrip_witness : exists u1 s1 r s2 u2,
  ex_written = Ret ((0, u1), s1) /\
  sfs_read 100 (uio_kinit [7; 8; 9] 3 510 UIO_READ) s1 = Ret ((r, u2), s2) /\
  (r = 0 /\ kbuf_of u2 = [1; 2; 3] \/ r = EIO).
Proof.
  assert (seen (fun _ _ => tt) ex_written = Some (0, tt)) as Hc by (vm_compute; reflexivity).
  destruct ex_written as [[[r0 u1] s1]| | |] eqn:E; try discriminate Hc. injection Hc as ->.
  destruct (write_read_roundtrip ex_held 100 (ex_state (ex_disk [] true) 0) s1 510 [1; 2; 3] [7; 8; 9] u1)
    as (r & s2 & u2 & E2 & Hr);
    [apply Z.le_refl|apply ex_inv; reflexivity|lia|reflexivity|split; reflexivity|reflexivity|exact E|].
  exists u1, s1, r, s2, u2. split; [reflexivity|]. split; [exact E2|exact Hr].
Defined.

(** The disk refuses the write of block 4 and has no further errors. *)
Lemma failed_write_reported_done_witness : exists s',
  sfs_wblock zeros 4 (ex_state (ex_disk [true] false) 1) = Ret (0, s') /\
  dev_block (s_dev s') 4 = ex_data.
Proof.
  destruct (failed_write_reported_done (ex_state (ex_disk [true] false) 1) 4 zeros LHD_MEDIA zeros
    (lh_disk (ex_disk [] false))) as (s' & E & Hb); [|reflexivity|split; reflexivity || discriminate|
    reflexivity|reflexivity|reflexivity|reflexivity|].
  - split; [split; [reflexivity|]|reflexivity]. cbn. repeat (constructor; [reflexivity|]). constructor.
  - exists s'. split; [exact E|]. rewrite Hb. reflexivity.
Defined.
