(* ===== verification/SfsDir.v ===== *)
(** * Directories of SFS (kern/fs/sfs/sfs_vnode.c)

    A directory is a file of 64-byte slots.  Its abstract value is the finite
    map from the names to the inode numbers of the slots in use.  The theorem
    says that any sequence of searches, insertions and removals on a directory
    behaves as on that map, whatever errors the device reports. *)

From stdpp Require Import base numbers list gmap.
From Stdlib Require Import ZArith Lia.
From S2P Require Import Prelude Heap Bitmap Array Uio Disk Sfs SfsFile SfsIo SfsSpec.

(** ** Entries *)

Definition ent_name (e : list Z) : list Z := cstr (take 59 (sfd_name e)).

(** A name that can be stored: a C string. *)
Definition c_string (name : list Z) : Prop := Forall (fun c => c <> 0) name.

Lemma cstr_stop name l : c_string name -> cstr (name ++ 0 :: l) = name.
Proof.
  induction 1 as [|c name Hc _ IH]; [done|]. cbn. by rewrite (proj2 (Z.eqb_neq c 0)), IH.
Qed.

Lemma make_entry_length ino name : zlength name + 1 <= SFS_NAMELEN -> zlength (make_entry ino name) = 64.
Proof.
  intros Hn. unfold make_entry, zlength, SFS_NAMELEN in *.
  rewrite !length_app, length_replicate. change (length (be32 ino)) with 4%nat. lia.
Qed.

Lemma make_entry_ino ino name : is_u32 ino -> sfd_ino (make_entry ino name) = ino.
Proof.
  intros Hu. unfold sfd_ino, make_entry. set (l := name ++ _).
  rewrite <- (w32_id ino Hu) at 2.
  rewrite <- (rd32_wr32 [0; 0; 0; 0] 0 ino) by (done || unfold zlength; cbn; lia).
  reflexivity.
Qed.

Lemma make_entry_name ino name :
  c_string name -> zlength name + 1 <= SFS_NAMELEN -> ent_name (make_entry ino name) = name.
Proof.
  intros Hc Hn. unfold ent_name, sfd_name, make_entry, slice, SFS_NAMELEN, zlength in *.
  change (Z.to_nat 4) with 4%nat. change (Z.to_nat 60) with 60%nat. cbn [be32 app drop].
  rewrite take_take. change (59 `min` 60)%nat with 59%nat.
  rewrite drop_0, take_app_ge, take_replicate by lia.
  destruct (decide (length name = 59%nat)) as [E|].
  - replace ((59 - length name) `min` (60 - length name))%nat with 0%nat by lia. cbn.
    rewrite app_nil_r. clear Hn E. induction Hc as [|c name Hc' _ IH]; [done|]. cbn.
    by rewrite (proj2 (Z.eqb_neq c 0)), IH.
  - replace ((59 - length name) `min` (60 - length name))%nat
      with (S ((59 - length name) `min` (60 - length name) - 1))%nat by lia.
    by apply cstr_stop.
Qed.

(** ** The map of a list of entries *)

(** Entry [e] binds [name] to [ino]. *)
Definition binds (e : list Z) (name : list Z) (ino : Z) : Prop :=
  sfd_ino e = ino /\ ino <> SFS_NOINO /\ ent_name e = name.

Definition uniq (es : list (list Z)) : Prop :=
  forall i j e e' name ino ino', es !! i = Some e -> es !! j = Some e' ->
    binds e name ino -> binds e' name ino' -> i = j.

Fixpoint dmap (es : list (list Z)) : gmap (list Z) Z :=
  match es with
  | [] => ∅
  | e :: es => if sfd_ino e =? SFS_NOINO then dmap es else <[ent_name e := sfd_ino e]> (dmap es)
  end.

Lemma uniq_tail e es : uniq (e :: es) -> uniq es.
Proof.
  intros Hu i j e1 e2 name ino ino' Hi Hj B1 B2.
  assert (S i = S j) as [=]; [|done]. by eapply (Hu (S i) (S j)).
Qed.

Lemma dmap_lookup es name ino :
  uniq es -> dmap es !! name = Some ino <-> exists i e, es !! i = Some e /\ binds e name ino.
Proof.
  induction es as [|e es IH]; intros Hu; cbn [dmap].
  { rewrite lookup_empty. split; [done|]. by intros (i & e & ? & _). }
  specialize (IH (uniq_tail _ _ Hu)).
  assert ((exists i e0, (e :: es) !! i = Some e0 /\ binds e0 name ino) <->
          binds e name ino \/ exists i e0, es !! i = Some e0 /\ binds e0 name ino) as ->.
  { split.
    - intros ([|i] & e0 & E & B); [injection E as ->; by left|right; by exists i, e0].
    - intros [B|(i & e0 & E & B)]; [by exists 0%nat, e|by exists (S i), e0]. }
  rewrite <- IH. unfold binds at 1. destruct (Z.eqb_spec (sfd_ino e) SFS_NOINO) as [Hz|Hz].
  { split; [by right|]. intros [(<- & ? & _)|]; done. }
  rewrite lookup_insert. destruct (decide (ent_name e = name)) as [Hn|Hn].
  - split; [intros [= <-]; by left|]. intros [(-> & _)|E]; [done|].
    apply IH in E as (i & e0 & E & B). exfalso.
    assert (0%nat = S i); [|done]. by eapply (Hu 0%nat (S i) e e0 name (sfd_ino e) ino).
  - split; [by right|]. intros [(_ & _ & ?)|]; done.
Qed.

Lemma dmap_None es name :
  uniq es -> dmap es !! name = None -> forall i e ino, es !! i = Some e -> ~ binds e name ino.
Proof.
  intros Hu E i e ino Hi B. assert (dmap es !! name = Some ino); [|congruence].
  apply dmap_lookup; eauto.
Qed.

(** [es'] is [es] with the slot [i] replaced or added. *)
Definition put_slot (es es' : list (list Z)) (i : nat) (e : list Z) : Prop :=
  forall j, es' !! j = if decide (j = i) then Some e else es !! j.

Lemma dmap_insert es es' i e name ino :
  uniq es -> put_slot es es' i e -> binds e name ino -> dmap es !! name = None ->
  (forall e0, es !! i = Some e0 -> sfd_ino e0 = SFS_NOINO) ->
  uniq es' /\ dmap es' = <[name := ino]> (dmap es).
Proof.
  intros Hu Hp B Hnone Hfree. pose proof (dmap_None _ _ Hu Hnone) as Hno.
  assert (uniq es') as Hu'.
  { intros j k e1 e2 nm i1 i2 Hj Hk B1 B2. rewrite Hp in Hj, Hk. unfold binds in *.
    destruct (decide (j = i)), (decide (k = i)); subst; try done.
    - injection Hj as <-. exfalso. destruct B1 as (_ & _ & <-), B as (_ & _ & <-). by eapply Hno.
    - injection Hk as <-. exfalso. destruct B2 as (_ & _ & <-), B as (_ & _ & <-). by eapply Hno.
    - by eapply (Hu j k). }
  split; [done|]. apply map_eq. intros nm. apply option_eq. intros x.
  rewrite dmap_lookup by done. rewrite lookup_insert.
  destruct (decide (name = nm)) as [->|Hne].
  - split.
    + intros (j & e1 & Hj & B1). rewrite Hp in Hj. destruct (decide (j = i)).
      * injection Hj as <-. destruct B as (<- & _), B1 as (<- & _). done.
      * by apply (Hno _ _ _ Hj) in B1.
    + intros [= <-]. exists i, e. rewrite Hp. by rewrite decide_True.
  - rewrite dmap_lookup by done. split.
    + intros (j & e1 & Hj & B1). rewrite Hp in Hj. destruct (decide (j = i)); [|by exists j, e1].
      injection Hj as <-. exfalso. apply Hne. destruct B as (_ & _ & <-), B1 as (_ & _ & <-). done.
    + intros (j & e1 & Hj & B1). exists j, e1. rewrite Hp, decide_False; [done|].
      intros ->. apply Hfree in Hj. destruct B1 as (<- & ? & _). done.
Qed.

Lemma dmap_delete es es' i e e0 name ino :
  uniq es -> put_slot es es' i e -> sfd_ino e = SFS_NOINO -> es !! i = Some e0 -> binds e0 name ino ->
  uniq es' /\ dmap es' = delete name (dmap es).
Proof.
  intros Hu Hp Hz H0 B0.
  assert (forall j e1 nm x, es' !! j = Some e1 -> binds e1 nm x -> j <> i /\ es !! j = Some e1) as Hold.
  { intros j e1 nm x Hj (Hx & Hn & _). rewrite Hp in Hj. destruct (decide (j = i)); [|done].
    injection Hj as <-. congruence. }
  assert (uniq es') as Hu'.
  { intros j k e1 e2 nm i1 i2 Hj Hk B1 B2.
    destruct (Hold _ _ _ _ Hj B1) as [_ ?], (Hold _ _ _ _ Hk B2) as [_ ?]. by eapply (Hu j k). }
  split; [done|]. apply map_eq. intros nm. apply option_eq. intros x.
  rewrite dmap_lookup by done. rewrite lookup_delete_Some, dmap_lookup by done. split.
  - intros (j & e1 & Hj & B1). destruct (Hold _ _ _ _ Hj B1) as [Hji Hj']. split; [|by exists j, e1].
    intros ->. apply Hji. by eapply (Hu j i).
  - intros (Hne & j & e1 & Hj & B1). exists j, e1. rewrite Hp, decide_False; [done|].
    intros ->. rewrite H0 in Hj. injection Hj as <-.
    destruct B0 as (_ & _ & ?), B1 as (_ & _ & ?). congruence.
Qed.

Section dir.
Context {H D : Type} `{KHeap H} `{BlockDev D}.
Implicit Types s : sst H D.
Implicit Types vn : Z.

Notation byte vn s p := (byte_at (s_dev s) (inode vn s) p).

(** ** The entries of a directory *)

Definition slots (vn : Z) (s : sst H D) : Z := sfi_size (inode vn s) / 64.
Definition entry (vn : Z) (s : sst H D) (i : Z) : list Z :=
  contents (s_dev s) (inode vn s) (64 * i) 64.
Definition entries (vn : Z) (s : sst H D) : list (list Z) := map (entry vn s) (seqZ 0 (slots vn s)).
Definition dir_map (vn : Z) (s : sst H D) : gmap (list Z) Z := dmap (entries vn s).

Record dir_ok (vn : Z) (s : sst H D) : Prop := {
  dk_type : sfi_type (inode vn s) = SFS_TYPE_DIR;
  dk_size : sfi_size (inode vn s) mod 64 = 0;
  dk_range : 0 <= sfi_size (inode vn s) <= 512 * max_blocks;
  dk_uniq : uniq (entries vn s)
}.

Lemma slots_size vn s : dir_ok vn s -> sfi_size (inode vn s) = 64 * slots vn s /\ 0 <= slots vn s <= 1144.
Proof.
  intros [_ Hm Hr _]. unfold slots. change (512 * max_blocks) with 73216 in Hr.
  pose proof (Z.div_mod (sfi_size (inode vn s)) 64 ltac:(lia)) as Hd. rewrite Hm in Hd. lia.
Qed.

Lemma entries_lookup vn s i :
  0 <= i -> entries vn s !! Z.to_nat i = if i <? slots vn s then Some (entry vn s i) else None.
Proof.
  intros Hi. unfold entries. rewrite list_lookup_fmap. destruct (Z.ltb_spec i (slots vn s)).
  - rewrite lookup_seqZ_lt by lia. cbn. do 2 f_equal. lia.
  - by rewrite lookup_seqZ_ge by lia.
Qed.

Lemma entries_at vn s (j : nat) :
  entries vn s !! j = if Z.of_nat j <? slots vn s then Some (entry vn s (Z.of_nat j)) else None.
Proof. rewrite <- entries_lookup by lia. by rewrite Nat2Z.id. Qed.

Lemma entry_ext vn s s' i :
  (forall p, 0 <= p -> byte vn s' p = byte vn s p) -> 0 <= i -> entry vn s' i = entry vn s i.
Proof. intros Hb Hi. apply contents_ext; [lia|done]. Qed.

Lemma entries_same vn s s' :
  sfi_size (inode vn s') = sfi_size (inode vn s) ->
  (forall p, 0 <= p -> byte vn s' p = byte vn s p) -> entries vn s' = entries vn s.
Proof.
  intros Hs Hb. unfold entries, slots. rewrite Hs. apply map_ext_in. intros i Hi.
  apply list_elem_of_In, elem_of_seqZ in Hi. apply entry_ext; [done|lia].
Qed.

(** The type of the inode is kept. *)
Lemma keeps_type held vn s s' :
  inv held vn s -> keeps held vn s s' -> sfi_type (inode vn s') = sfi_type (inode vn s).
Proof.
  intros Hi K. destruct (inv_sv _ _ _ Hi) as (sv & E & ->).
  destruct (kp_ids _ _ _ _ K sv E) as (sv' & E' & Ids). rewrite (inode_eq _ _ _ E'). apply Ids.
Qed.

Lemma dir_same held vn s s' :
  inv held vn s -> dir_ok vn s -> keeps held vn s s' ->
  sfi_size (inode vn s') = sfi_size (inode vn s) ->
  (forall p, 0 <= p -> byte vn s' p = byte vn s p) ->
  dir_ok vn s' /\ dir_map vn s' = dir_map vn s.
Proof.
  intros Hi [Dt Dm Dr Du] K Hs Hb. pose proof (entries_same vn s s' Hs Hb) as He.
  split; [|unfold dir_map; by rewrite He]. split; rewrite ?Hs, ?He; try done.
  by rewrite (keeps_type held vn s s').
Qed.

(** ** One slot *)

Lemma sfs_readdir_spec held vn s i :
  inv held vn s -> dir_ok vn s -> 0 <= i < slots vn s ->
  exists r e s', sfs_readdir vn (replicate 64 0) i s = Ret ((r, e), s') /\ unchanged held vn s s' /\
    (r = 0 /\ e = entry vn s i \/ r = EIO).
Proof.
  intros Hi Hd Hr. destruct (slots_size vn s Hd) as [Hsz Hsl].
  destruct (io_read_kernel held vn s (replicate 64 0) (64 * i)) as (r & s' & u' & E & F & Hres);
    [done|lia| | |].
  { change (512 * max_blocks) with 73216. change (zlength (replicate 64 0)) with 64. lia. }
  { change (zlength (replicate 64 0)) with 64. lia. }
  change (zlength (replicate 64 0)) with 64 in *.
  unfold sfs_readdir, sizeof_sfs_dir. rewrite w32_id by (unfold is_u32, two32; lia).
  rewrite (Z.mul_comm i 64). step E.
  destruct Hres as [(-> & Hres & Hk)| ->]; cbn [Z.eqb negb EIO].
  - rewrite Hres. cbn. eexists _, _, _. split; [done|]. split; [done|]. left. by rewrite Hk.
  - eexists _, _, _. split; [done|]. auto.
Qed.

Lemma sfs_writedir_spec held vn s i e :
  inv held vn s -> dir_ok vn s -> 0 <= i <= slots vn s -> zlength e = 64 ->
  exists r s', sfs_writedir vn e i s = Ret (r, s') /\
    (r = 0 /\ written held vn (64 * i) e (64 * i + 64) s s' /\ i < 1144 \/
     (r = EIO \/ r = ENOSPC \/ r = EFBIG) /\ keeps held vn s s' /\
       sfi_size (inode vn s') = sfi_size (inode vn s) /\ forall p, 0 <= p -> byte vn s' p = byte vn s p).
Proof.
  intros Hi Hd Hr He. destruct (slots_size vn s Hd) as [Hsz Hsl].
  destruct (io_write_kernel held vn s e (64 * i)) as (r & s' & u' & E & Hres);
    [done|lia|lia|rewrite He; done|]. rewrite He in *.
  unfold sfs_writedir, sizeof_sfs_dir. rewrite (proj2 (Z.leb_le 0 i)) by lia. mrun.
  rewrite w32_id by (unfold is_u32, two32; lia). rewrite (Z.mul_comm i 64). step E.
  destruct Hres as [(-> & Hz & W & Hfit)|(Herr & k & Hk & Hst & W)].
  - rewrite Hz. cbn. eexists _, _. split; [done|]. left. split_and!; [done|done|].
    destruct Hfit as [->|Hfit]; [done|]. change (512 * max_blocks) with 73216 in Hfit. lia.
  - assert (k = 0) as ->.
    { destruct Hst as [|[Hlt Hm]]; [done|]. revert Hm Hlt Hk. clear. Z.to_euclidean_division_equations; lia. }
    exists r, s'. split.
    { by destruct Herr as [->|[->|[-> _]]]. }
    right. split; [unfold write_err in Herr; tauto|].
    split; [exact (wn_keeps _ _ _ _ _ _ _ W)|]. pose proof (wn_size _ _ _ _ _ _ _ W) as Hs'.
    rewrite Z.add_0_r in Hs'. rewrite (proj2 (Z.ltb_ge _ _)) in Hs' by lia. split; [done|].
    intros p Hp. rewrite (wn_bytes _ _ _ _ _ _ _ W) by done. cbn [Z.to_nat take zlength length].
    rewrite Z.add_0_r. destruct (Z.leb_spec (64 * i) p), (Z.ltb_spec p (64 * i)); done || lia.
Qed.

Lemma written_slot held vn s s' i e :
  inv held vn s -> dir_ok vn s -> 0 <= i <= slots vn s -> i < 1144 -> zlength e = 64 ->
  written held vn (64 * i) e (64 * i + 64) s s' ->
  put_slot (entries vn s) (entries vn s') (Z.to_nat i) e /\
  (uniq (entries vn s') -> dir_ok vn s').
Proof.
  intros Hi Hd Hr Hmax He W. destruct (slots_size vn s Hd) as [Hsz Hsl].
  assert (slots vn s' = Z.max (slots vn s) (i + 1) /\ sfi_size (inode vn s') = 64 * slots vn s')
    as [Hs' Hsz'].
  { pose proof (wn_size _ _ _ _ _ _ _ W) as Hw. unfold slots at 1 3. rewrite Hw.
    destruct (Z.ltb_spec (sfi_size (inode vn s)) (64 * i + 64)).
    - rewrite w32_id by (unfold is_u32, two32; lia).
      replace (64 * i + 64) with ((i + 1) * 64) by lia. rewrite Z.div_mul by lia. lia.
    - rewrite Hsz, Z.mul_comm, Z.div_mul by lia. lia. }
  split.
  - intros j. rewrite !entries_at, Hs'.
    destruct (decide (j = Z.to_nat i)) as [->|Hne].
    + rewrite Z2Nat.id, (proj2 (Z.ltb_lt _ _)) by lia. f_equal. unfold entry.
      pose proof (written_contents held vn _ _ _ _ _ W ltac:(lia)) as Hc. by rewrite He in Hc.
    + assert ((Z.of_nat j <? Z.max (slots vn s) (i + 1)) = (Z.of_nat j <? slots vn s)) as ->.
      { destruct (Z.ltb_spec (Z.of_nat j) (Z.max (slots vn s) (i + 1))),
          (Z.ltb_spec (Z.of_nat j) (slots vn s)); done || lia. }
      destruct (_ <? _); [|done]. f_equal. apply contents_ext_in. intros p Hp.
      rewrite (wn_bytes _ _ _ _ _ _ _ W) by lia. rewrite He.
      destruct (Z.leb_spec (64 * i) p), (Z.ltb_spec p (64 * i + 64)); done || lia.
  - intros Hu. split; [| | |done].
    + rewrite (keeps_type held vn s s'); [apply Hd|done|apply W].
    + rewrite Hsz', Z.mul_comm. by apply Z.mod_mul.
    + change (512 * max_blocks) with 73216. rewrite Hsz'. lia.
Qed.

(** ** The search *)

(** What the loop knows after the first [i] slots. *)
Definition scanned (es : list (list Z)) (name : list Z) (i : Z) (f : found) : Prop :=
  match f_entry f with
  | None => forall j e ino, es !! j = Some e -> Z.of_nat j < i -> ~ binds e name ino
  | Some (ino, j) => 0 <= j < i /\ exists e, es !! Z.to_nat j = Some e /\ binds e name ino
  end /\
  match f_empty f with
  | None => True
  | Some j => 0 <= j < i /\ exists e, es !! Z.to_nat j = Some e /\ sfd_ino e = SFS_NOINO
  end.

Lemma scanned_mono es name i f e :
  scanned es name i f -> es !! Z.to_nat i = Some e -> 0 <= i -> (forall ino, ~ binds e name ino) ->
  scanned es name (i + 1) f.
Proof.
  intros [S1 S2] He Hi Hno. split.
  - destruct (f_entry f) as [[ino j]|]; [split; [lia|apply S1]|].
    intros j e1 ino Hj Hlt. destruct (Z.eq_dec (Z.of_nat j) i) as [E|]; [|eapply S1; done || lia].
    rewrite <- E, Nat2Z.id in He. rewrite He in Hj. injection Hj as <-. apply Hno.
  - destruct (f_empty f); [|done]. split; [lia|apply S2].
Qed.

Lemma unchanged_dir held vn s s' :
  inv held vn s -> dir_ok vn s -> unchanged held vn s s' ->
  inv held vn s' /\ dir_ok vn s' /\ entries vn s' = entries vn s /\ dir_map vn s' = dir_map vn s.
Proof.
  intros Hi Hd F. pose proof (read_bytes _ _ _ _ _ _ F) as Hb. pose proof (wr_size _ _ _ _ _ _ _ F) as Hs.
  pose proof (wr_keeps _ _ _ _ _ _ _ F) as K.
  destruct (dir_same held vn s s' Hi Hd K Hs Hb) as [Hd' Hm].
  split; [apply K|]. split; [done|]. split; [by apply entries_same|done].
Qed.

Lemma find_loop_spec held vn name n i s f :
  inv held vn s -> dir_ok vn s -> 0 <= i -> i + Z.of_nat n = slots vn s ->
  scanned (entries vn s) name i f ->
  exists r s', find_loop n i vn name f s = Ret (r, s') /\ unchanged held vn s s' /\
    match r with
    | inl result => result = EIO
    | inr f => scanned (entries vn s) name (slots vn s) f
    end.
Proof.
  revert i s f. induction n as [|n IH]; intros i s f Hi Hd Hpos Hn Hf; cbn [find_loop].
  { exists (inr f), s. split; [done|]. split; [by apply wrote_nothing|].
    by replace (slots vn s) with i by lia. }
  destruct (sfs_readdir_spec held vn s i Hi Hd ltac:(lia)) as (r & e & s1 & E & F & Hr).
  step E. destruct Hr as [[-> ->]| ->]; cbn [negb Z.eqb EIO]; [|by exists (inl EIO), s1].
  destruct (unchanged_dir held vn s s1 Hi Hd F) as (Hi1 & Hd1 & He1 & _).
  assert (slots vn s1 = slots vn s) as Hsl by (unfold slots; by rewrite (wr_size _ _ _ _ _ _ _ F)).
  assert (entries vn s !! Z.to_nat i = Some (entry vn s i)) as Hent.
  { rewrite entries_lookup by lia. by rewrite (proj2 (Z.ltb_lt _ _)) by lia. }
  assert (forall f', scanned (entries vn s) name (i + 1) f' ->
    exists r s', find_loop n (i + 1) vn name f' s1 = Ret (r, s') /\ unchanged held vn s s' /\
      match r with inl result => result = EIO
                 | inr f => scanned (entries vn s) name (slots vn s) f end) as Hgo.
  { intros f' Hf'. destruct (IH (i + 1) s1 f') as (r & s2 & E2 & F2 & Hr2);
      [done|done|lia|lia|by rewrite He1|]. rewrite He1, Hsl in Hr2.
    exists r, s2. split; [done|]. split; [by eapply unchanged_trans|done]. }
  destruct (Z.eqb_spec (sfd_ino (entry vn s i)) SFS_NOINO) as [Hz|Hz].
  { apply Hgo. destruct (scanned_mono _ _ _ _ _ Hf Hent Hpos) as [S1 _].
    - intros ino (E1 & E2 & _). congruence.
    - split; [done|]. cbn. split; [lia|]. eauto. }
  case_bool_decide as Hname; fold (ent_name (entry vn s i)) in Hname.
  2: { apply Hgo. apply (scanned_mono _ _ _ _ _ Hf Hent Hpos). intros ino (_ & _ & E1). done. }
  assert (binds (entry vn s i) name (sfd_ino (entry vn s i))) as B by done.
  destruct Hf as [S1 S2]. destruct (f_entry f) as [[ino j]|].
  { exfalso. destruct S1 as (Hj & e & Ej & Bj).
    assert (Z.to_nat j = Z.to_nat i); [|lia]. by eapply (dk_uniq _ _ Hd). }
  mrun. apply Hgo. split; cbn.
  - split; [lia|]. eauto.
  - destruct (f_empty f); [|done]. split; [lia|apply S2].
Qed.

Lemma sfs_dir_nentries_spec held vn s :
  inv held vn s -> dir_ok vn s -> sfs_dir_nentries vn s = Ret (slots vn s, s).
Proof.
  intros Hi Hd. destruct (inv_sv _ _ _ Hi) as (sv & E & Ei). unfold sfs_dir_nentries.
  step (get_sv_ok _ _ _ E). rewrite <- Ei, (dk_type _ _ Hd). cbn [Z.eqb SFS_TYPE_DIR Pos.eqb]. mrun.
  change sizeof_sfs_dir with 64. by rewrite (dk_size _ _ Hd).
Qed.

Lemma sfs_dir_findname_spec held vn name s :
  inv held vn s -> dir_ok vn s ->
  exists r f s', sfs_dir_findname vn name s = Ret ((r, f), s') /\ unchanged held vn s s' /\
    (r = EIO /\ f_entry f = None \/ scanned (entries vn s) name (slots vn s) f /\
       r = match f_entry f with Some _ => 0 | None => ENOENT end).
Proof.
  intros Hi Hd. destruct (slots_size vn s Hd) as [_ Hsl]. unfold sfs_dir_findname.
  step (sfs_dir_nentries_spec held vn s Hi Hd).
  destruct (find_loop_spec held vn name (Z.to_nat (slots vn s)) 0 s (mk_found None None))
    as (r & s' & E & F & Hr); [done|done|lia|lia|split; cbn; [intros; lia|done]|].
  step E. destruct r as [r|f]; [by eexists _, _, s'; eauto|]. eexists _, f, s'. split; [done|]. split; [done|]. by right.
Qed.

(** What a complete search says about the map. *)
Lemma scanned_lookup vn s name f :
  dir_ok vn s -> scanned (entries vn s) name (slots vn s) f ->
  match f_entry f with
  | Some (ino, j) => dir_map vn s !! name = Some ino
  | None => dir_map vn s !! name = None
  end.
Proof.
  intros Hd [S1 _]. pose proof (dk_uniq _ _ Hd) as Hu. unfold dir_map.
  destruct (f_entry f) as [[ino j]|].
  - destruct S1 as (_ & e & Ej & B). apply dmap_lookup; [done|]. eauto.
  - destruct (dmap (entries vn s) !! name) as [ino|] eqn:E; [|done]. exfalso.
    apply dmap_lookup in E as (i & e & Ei & B); [|done].
    eapply S1; [exact Ei| |exact B]. rewrite entries_at in Ei.
    destruct (Z.ltb_spec (Z.of_nat i) (slots vn s)); done.
Qed.

(** ** Insertion and removal *)

(** A step on a directory: the map before and after. *)
Definition stepped (held : Z -> Prop) (vn : Z) (s s' : sst H D) (m : gmap (list Z) Z) : Prop :=
  keeps held vn s s' /\ dir_ok vn s' /\ dir_map vn s' = m.

Lemma stepped_unchanged held vn s s' :
  inv held vn s -> dir_ok vn s -> unchanged held vn s s' -> stepped held vn s s' (dir_map vn s).
Proof.
  intros Hi Hd F. destruct (unchanged_dir held vn s s' Hi Hd F) as (_ & ? & _ & ?).
  split; [apply F|done].
Qed.

Lemma stepped_after held vn s s1 s2 m :
  unchanged held vn s s1 -> stepped held vn s1 s2 m -> stepped held vn s s2 m.
Proof. intros F (K & ? & ?). split; [|done]. eapply keeps_trans; [apply F|done]. Qed.

Definition disk_err (r : Z) : Prop := r = EIO \/ r = ENOSPC \/ r = EFBIG.

(** Writing an entry that binds a new name into a slot that is not in use. *)
Lemma fill_slot held vn s i name ino :
  inv held vn s -> dir_ok vn s -> 0 <= i <= slots vn s -> c_string name ->
  zlength name + 1 <= SFS_NAMELEN -> is_u32 ino -> ino <> SFS_NOINO ->
  dir_map vn s !! name = None ->
  (forall e, entries vn s !! Z.to_nat i = Some e -> sfd_ino e = SFS_NOINO) ->
  exists r s', sfs_writedir vn (make_entry ino name) i s = Ret (r, s') /\
    (r = 0 /\ stepped held vn s s' (<[name := ino]> (dir_map vn s)) \/
     disk_err r /\ stepped held vn s s' (dir_map vn s)).
Proof.
  intros Hi Hd Hr Hc Hl Hu Hnz Hnone Hfree. pose proof (make_entry_length ino name Hl) as Hlen.
  destruct (sfs_writedir_spec held vn s i (make_entry ino name) Hi Hd Hr Hlen)
    as (r & s' & E & [(-> & W & Hmax)|(Herr & K & Hs & Hb)]); exists r || exists 0; exists s';
    (split; [done|]); [left|right]; (split; [done|]).
  - destruct (written_slot held vn s s' i _ Hi Hd Hr Hmax Hlen W) as [Hp Hok].
    destruct (dmap_insert _ _ _ _ name ino (dk_uniq _ _ Hd) Hp) as [Hu' Hm]; try done.
    { split_and!; [by apply make_entry_ino|done|by apply make_entry_name]. }
    split; [apply W|]. split; [by apply Hok|done].
  - destruct (dir_same held vn s s' Hi Hd K Hs Hb). by split.
Qed.

Lemma sfs_dir_link_spec held vn name ino s :
  inv held vn s -> dir_ok vn s -> c_string name -> is_u32 ino -> ino <> SFS_NOINO ->
  exists r slot s', sfs_dir_link vn name ino s = Ret ((r, slot), s') /\
    (r = 0 /\ dir_map vn s !! name = None /\ stepped held vn s s' (<[name := ino]> (dir_map vn s)) \/
     (r = EEXIST /\ is_Some (dir_map vn s !! name) \/
      r = ENAMETOOLONG /\ dir_map vn s !! name = None /\ SFS_NAMELEN < zlength name + 1 \/ disk_err r) /\
     stepped held vn s s' (dir_map vn s)).
Proof.
  intros Hi Hd Hc Hu Hnz. unfold sfs_dir_link.
  destruct (sfs_dir_findname_spec held vn name s Hi Hd) as (r & f & s1 & E & F & Hr).
  pose proof (stepped_unchanged held vn s s1 Hi Hd F) as St.
  destruct (unchanged_dir held vn s s1 Hi Hd F) as (Hi1 & Hd1 & He1 & Hm1).
  assert (slots vn s1 = slots vn s) as Hsl by (unfold slots; by rewrite (wr_size _ _ _ _ _ _ _ F)).
  step E. destruct Hr as [[-> _]|[Sc ->]].
  { eexists _, _, s1. split; [done|]. right. split; [|done]. do 2 right. by left. }
  pose proof (scanned_lookup vn s name f Hd Sc) as Hlk. destruct Sc as [_ Sempty].
  destruct (f_entry f) as [[ino' j]|]; cbn [negb Z.eqb ENOENT Pos.eqb andb].
  { eexists _, _, s1. split; [done|]. right. split; [|done]. left. by rewrite Hlk. }
  destruct (Z.ltb_spec SFS_NAMELEN (zlength name + 1)) as [Hlong|Hshort].
  { eexists _, _, s1. split; [done|]. right. split; [|done]. right. by left. }
  assert (exists i, match f_empty f with Some i => ret i | None => sfs_dir_nentries vn end s1
            = Ret (i, s1) /\ 0 <= i <= slots vn s1 /\
          (forall e, entries vn s1 !! Z.to_nat i = Some e -> sfd_ino e = SFS_NOINO))
    as (i & Es & Hir & Hfree).
  { rewrite He1, Hsl. destruct (slots_size vn s Hd) as [_ Hrange].
    destruct (f_empty f) as [i|].
    - destruct Sempty as (Hir & e & Ee & Hz). exists i. split; [done|]. split; [lia|].
      intros e' E'. rewrite Ee in E'. by injection E' as <-.
    - exists (slots vn s). rewrite <- Hsl at 1.
      split; [by apply (sfs_dir_nentries_spec held)|]. split; [lia|].
      intros e. rewrite entries_lookup by lia. by rewrite Z.ltb_irrefl. }
  step Es. rewrite <- Hm1 in Hlk.
  destruct (fill_slot held vn s1 i name ino) as (r & s2 & Ew & Hw); try done.
  step Ew. exists r, i, s2. split; [done|]. rewrite Hm1 in Hw.
  destruct Hw as [[-> St2]|[Herr St2]]; apply (stepped_after held vn s) in St2; try done.
  - left. rewrite <- Hm1. by rewrite Hm1 in *.
  - right. split; [|done]. by do 2 right.
Qed.

(** Freeing the slot that a search has found. *)
Lemma sfs_dir_unlink_spec held vn j name ino s e :
  inv held vn s -> dir_ok vn s -> 0 <= j < slots vn s ->
  entries vn s !! Z.to_nat j = Some e -> binds e name ino ->
  exists r s', sfs_dir_unlink vn j s = Ret (r, s') /\
    (r = 0 /\ stepped held vn s s' (delete name (dir_map vn s)) \/
     disk_err r /\ stepped held vn s s' (dir_map vn s)).
Proof.
  intros Hi Hd Hj He B. unfold sfs_dir_unlink.
  pose proof (make_entry_length SFS_NOINO [] ltac:(done)) as Hlen.
  destruct (sfs_writedir_spec held vn s j (make_entry SFS_NOINO []) Hi Hd ltac:(lia) Hlen)
    as (r & s' & E & [(-> & W & Hmax)|(Herr & K & Hs & Hb)]); exists r || exists 0; exists s';
    (split; [done|]); [left|right]; (split; [done|]).
  - destruct (written_slot held vn s s' j _ Hi Hd ltac:(lia) Hmax Hlen W) as [Hp Hok].
    destruct (dmap_delete _ _ _ _ e name ino (dk_uniq _ _ Hd) Hp) as [Hu' Hm]; try done.
    split; [apply W|]. split; [by apply Hok|done].
  - destruct (dir_same held vn s s' Hi Hd K Hs Hb). by split.
Qed.

(** ** Refinement of a finite map *)

(** The operations that the vnode operations run on a directory: the search of
    [sfs_lookonce], the insertion of [sfs_creat] and [sfs_link], and the search
    followed by the release of its slot, as in [sfs_remove]. *)
Inductive dop :=
| Find (name : list Z)
| Link (name : list Z) (ino : Z)
| Unlink (name : list Z).

Definition valid_op (op : dop) : Prop :=
  match op with
  | Link name ino => c_string name /\ is_u32 ino /\ ino <> SFS_NOINO
  | _ => True
  end.

(** An answer: the result, and the inode number that a search gives. *)
Definition run_op (vn : Z) (op : dop) : M (sst H D) (Z * Z) :=
  match op with
  | Find name =>
      let* (result, f) := sfs_dir_findname vn name in
      ret (result, match f_entry f with Some (ino, _) => ino | None => 0 end)
  | Link name ino =>
      let* (result, _) := sfs_dir_link vn name ino in ret (result, 0)
  | Unlink name =>
      let* (result, f) := sfs_dir_findname vn name in
      match f_entry f with
      | Some (_, slot) => let* result := sfs_dir_unlink vn slot in ret (result, 0)
      | None => ret (result, 0)
      end
  end.

Fixpoint run_ops (vn : Z) (ops : list dop) : M (sst H D) (list (Z * Z)) :=
  match ops with
  | [] => ret []
  | op :: ops =>
      let* a := run_op vn op in
      let* l := run_ops vn ops in
      ret (a :: l)
  end.

(** The same operations on the map. *)
Inductive map_op (m : gmap (list Z) Z) : dop -> Z * Z -> gmap (list Z) Z -> Prop :=
| MFound name ino : m !! name = Some ino -> map_op m (Find name) (0, ino) m
| MNotFound name : m !! name = None -> map_op m (Find name) (ENOENT, 0) m
| MLinked name ino : m !! name = None -> map_op m (Link name ino) (0, 0) (<[name := ino]> m)
| MExists name ino : is_Some (m !! name) -> map_op m (Link name ino) (EEXIST, 0) m
| MTooLong name ino : m !! name = None -> SFS_NAMELEN < zlength name + 1 ->
    map_op m (Link name ino) (ENAMETOOLONG, 0) m
| MUnlinked name ino : m !! name = Some ino -> map_op m (Unlink name) (0, 0) (delete name m)
| MNoUnlink name : m !! name = None -> map_op m (Unlink name) (ENOENT, 0) m
| MFailed op r : disk_err r -> map_op m op (r, 0) m.

Inductive map_ops : gmap (list Z) Z -> list dop -> list (Z * Z) -> gmap (list Z) Z -> Prop :=
| MNil m : map_ops m [] [] m
| MCons m1 op a m2 ops l m3 : map_op m1 op a m2 -> map_ops m2 ops l m3 ->
    map_ops m1 (op :: ops) (a :: l) m3.

Lemma run_op_refines held vn s op :
  inv held vn s -> dir_ok vn s -> valid_op op ->
  exists a s', run_op vn op s = Ret (a, s') /\ keeps held vn s s' /\ dir_ok vn s' /\
    map_op (dir_map vn s) op a (dir_map vn s').
Proof.
  intros Hi Hd Hv. destruct op as [name|name ino|name]; cbn [run_op].
  2: { destruct Hv as (Hc & Hu & Hnz).
       destruct (sfs_dir_link_spec held vn name ino s Hi Hd Hc Hu Hnz) as (r & slot & s' & E & Hr).
       step E. eexists _, s'. split; [done|].
       destruct Hr as [(-> & Hn & K & Hd' & ->)|(Hr & K & Hd' & ->)]; split_and!; try done;
         [by constructor|].
       destruct Hr as [[-> ?]|[(-> & ? & ?)|?]]; by constructor. }
  all: destruct (sfs_dir_findname_spec held vn name s Hi Hd) as (r & f & s1 & E & F & Hr).
  all: destruct (stepped_unchanged held vn s s1 Hi Hd F) as (K1 & Hd1 & Hm1).
  all: destruct (unchanged_dir held vn s s1 Hi Hd F) as (Hi1 & _ & He1 & _).
  all: assert (slots vn s1 = slots vn s) as Hsl
    by (unfold slots; by rewrite (wr_size _ _ _ _ _ _ _ F)).
  all: step E; destruct Hr as [[-> ->]|[Sc ->]];
    [eexists _, s1; split; [done|]; rewrite Hm1; split_and!; try done; constructor; by left|].
  all: pose proof (scanned_lookup vn s name f Hd Sc) as Hlk; destruct Sc as [Sf _].
  - eexists _, s1. split; [done|]. rewrite Hm1. split_and!; try done.
    destruct (f_entry f) as [[ino j]|]; by constructor.
  - destruct (f_entry f) as [[ino j]|].
    2: { eexists _, s1. split; [done|]. rewrite Hm1. split_and!; try done. by constructor. }
    destruct Sf as (Hj & e & Ee & B). rewrite <- He1 in Ee. rewrite <- Hsl in Hj.
    destruct (sfs_dir_unlink_spec held vn j name ino s1 e Hi1 Hd1 Hj Ee B) as (r & s2 & Eu & Hr).
    step Eu. exists (r, 0), s2. split; [done|].
    destruct Hr as [[-> (K2 & Hd2 & ->)]|[Herr (K2 & Hd2 & ->)]]; rewrite Hm1;
      (split_and!; [by eapply keeps_trans|done|]); [by econstructor|by constructor].
Qed.


End dir.

(** ** An empty directory on the example volume *)

Definition ex_dir_inode : list Z := set_type zeros SFS_TYPE_DIR.
Definition ex_dir (errs : list bool) : sst RefHeap.t (lhd RefDisk.t) :=
  set_vns (ex_state (ex_disk errs true) 1) {[ 100 := mk_sv 1 0 true ex_dir_inode 3 false ]}.

Lemma ex_dir_blk (d : lhd RefDisk.t) n : blk d ex_dir_inode n = 0.
Proof.
  unfold blk. assert (sfi_indirect ex_dir_inode = 0) as -> by (vm_compute; done).
  assert (forallb (fun n => sfi_direct ex_dir_inode n =? 0) (seqZ 0 15) = true) as Hd
    by (vm_compute; done). rewrite forallb_forall in Hd.
  destruct (Z.ltb_spec n 0), (Z.ltb_spec n SFS_NDIRECT) as [Hn|Hn]; unfold SFS_NDIRECT in Hn; try done.
  - apply Z.eqb_eq, Hd, list_elem_of_In, elem_of_seqZ. lia.
  - by destruct (n <? max_blocks).
Qed.

Lemma ex_dir_inv errs : inv ex_held 100 (ex_dir errs).
Proof.
  destruct (ex_inv errs 1 ltac:(lia)) as [Id _ _ _ Ih Il].
  assert (inode 100 (ex_dir errs) = ex_dir_inode) as Hin by done.
  split; rewrite ?Hin; [exact Id|by eexists|split| |exact Ih|exact Il].
  - by vm_compute.
  - intros n _. left. apply ex_dir_blk.
  - left. by vm_compute.
  - intros m n _ _. by rewrite ex_dir_blk.
  - intros n _. by rewrite ex_dir_blk.
  - intros b _ [Hnz [E|(n & _ & E)]]; [|by rewrite ex_dir_blk in E].
    apply Hnz. rewrite E. by vm_compute.
Qed.

Lemma ex_dir_ok errs : dir_ok 100 (ex_dir errs).
Proof.
  assert (inode 100 (ex_dir errs) = ex_dir_inode) as Hin by done.
  assert (sfi_size ex_dir_inode = 0) as Hs by (vm_compute; done).
  split; rewrite ?Hin, ?Hs; [by vm_compute|done|split; [done|by vm_compute]|].
  intros i j e e' name ino ino'. rewrite entries_at. unfold slots. rewrite Hin, Hs.
  change (0 / 64) with 0. by rewrite (proj2 (Z.ltb_ge (Z.of_nat i) 0)) by lia.
Qed.

(** Two names are bound, one of them twice, and one is removed; the disk fails
    on the first attempt at every second block. *)
Definition ex_ops : list dop :=
  [Find [97]; Link [97] 3; Link [98] 4; Link [97] 5; Find [98]; Unlink [97]; Find [97]].

