(* ===== verification/UMalloc.v ===== *)
(** The user-level [malloc] and [free] (user/lib/libc/stdlib/malloc.c): a
    first-fit allocator whose heap is a run of blocks with boundary tags,
    grown with [sbrk].  The kernel's [sbrk] is not part of the sources, so the
    process is an interface: its words, its break, and what the [sbrk] manual
    page (man/syscall/sbrk.html) documents. *)

From S2P Require Import Prelude.
From stdpp Require Import base list gmap option.
From Stdlib Require Import ZArith Lia.
Open Scope Z_scope.

(** ** The process *)

(** User memory as the allocator uses it: aligned 32-bit words.  [load] is
    [None] where the access would trap. *)
Class Process (P : Type) := {
  load : P -> Z -> option Z;
  store : P -> Z -> Z -> option P;
  sbrk : P -> Z -> Z * P;
  brk : P -> Z;
  heap_start : P -> Z
}.

(** What the allocator relies on: the words between the start of the heap and
    the break can be read and written; [sbrk] moves the break by a signed
    amount and returns the old one, or returns -1 and changes nothing. *)
Class ProcessOk (P : Type) `{Process P} := {
  proc_ok : P -> Prop;
  load_ok p a : proc_ok p -> heap_start p <= a -> a + 4 <= brk p -> a mod 4 = 0 ->
    exists v, load p a = Some v /\ is_u32 v;
  store_ok p a v : proc_ok p -> heap_start p <= a -> a + 4 <= brk p -> a mod 4 = 0 ->
    is_u32 v ->
    exists p', store p a v = Some p' /\ proc_ok p' /\ brk p' = brk p /\
      heap_start p' = heap_start p /\
      (forall b, load p' b = if b =? a then Some v else load p b);
  brk_range p : proc_ok p -> heap_start p <= brk p <= 2147483648;
  sbrk_zero p : proc_ok p -> sbrk p 0 = (brk p, p);
  sbrk_cases p n : proc_ok p ->
    sbrk p n = (4294967295, p) \/
    exists p', sbrk p n = (brk p, p') /\ proc_ok p' /\ brk p' = brk p + n /\
      heap_start p' = heap_start p /\
      (forall a, a + 4 <= brk p -> a + 4 <= brk p' -> load p' a = load p a)
}.

Definition MBLOCKSIZE : Z := 8.
Definition MBLOCKSHIFT : Z := 3.
Definition MMAGIC : Z := 2.

Section malloc.
Context {P : Type} `{Process P}.

(** The static variables and the process. *)
Record uheap := mkUheap {
  heapbase : Z;
  heaptop : Z;
  proc : P
}.

Definition set_heapbase v (s : uheap) := mkUheap v (heaptop s) (proc s).
Definition set_heaptop v (s : uheap) := mkUheap (heapbase s) v (proc s).

Definition rdw (a : Z) : M uheap Z :=
  fun s => match load (proc s) a with Some v => Ret (v, s) | None => Fault end.
Definition wrw (a v : Z) : M uheap unit :=
  fun s => match store (proc s) a v with
           | Some p => Ret (tt, mkUheap (heapbase s) (heaptop s) p)
           | None => Fault
           end.
Definition do_sbrk (amount : Z) : M uheap Z :=
  fun s => let '(r, p) := sbrk (proc s) amount in
           Ret (r, mkUheap (heapbase s) (heaptop s) p).

(** [errx] and [err] print a message and exit the program. *)
Definition errx {A} : M uheap A := panic.

(** *** [struct mheader]: two words of bit-fields, the first field in the most
    significant bits *)
Definition mh_prevblock (mh : Z) : M uheap Z := let* w := rdw mh in ret (w / 8).
Definition mh_magic1 (mh : Z) : M uheap Z := let* w := rdw mh in ret (w mod 4).
Definition mh_nextblock (mh : Z) : M uheap Z := let* w := rdw (mh + 4) in ret (w / 8).
Definition mh_inuse (mh : Z) : M uheap Z := let* w := rdw (mh + 4) in ret (w / 4 mod 2).
Definition mh_magic2 (mh : Z) : M uheap Z := let* w := rdw (mh + 4) in ret (w mod 4).

Definition field29 (w v : Z) : Z := v mod 536870912 * 8 + w mod 8.
Definition field1 (w v : Z) : Z := w / 8 * 8 + v mod 2 * 4 + w mod 4.
Definition field2 (w v : Z) : Z := w / 4 * 4 + v mod 4.

Definition set_prevblock (mh v : Z) : M uheap unit :=
  let* w := rdw mh in wrw mh (field29 w v).
Definition set_pad (mh v : Z) : M uheap unit :=
  let* w := rdw mh in wrw mh (field1 w v).
Definition set_magic1 (mh v : Z) : M uheap unit :=
  let* w := rdw mh in wrw mh (field2 w v).
Definition set_nextblock (mh v : Z) : M uheap unit :=
  let* w := rdw (mh + 4) in wrw (mh + 4) (field29 w v).
Definition set_inuse (mh v : Z) : M uheap unit :=
  let* w := rdw (mh + 4) in wrw (mh + 4) (field1 w v).
Definition set_magic2 (mh v : Z) : M uheap unit :=
  let* w := rdw (mh + 4) in wrw (mh + 4) (field2 w v).

Definition M_NEXTOFF (mh : Z) : M uheap Z :=
  let* n := mh_nextblock mh in ret (w32 (Z.shiftl n MBLOCKSHIFT)).
Definition M_PREVOFF (mh : Z) : M uheap Z :=
  let* n := mh_prevblock mh in ret (w32 (Z.shiftl n MBLOCKSHIFT)).
Definition M_NEXT (mh : Z) : M uheap Z :=
  let* off := M_NEXTOFF mh in ret (w32 (mh + off)).
Definition M_PREV (mh : Z) : M uheap Z :=
  let* off := M_PREVOFF mh in ret (w32 (mh - off)).
Definition M_DATA (mh : Z) : Z := w32 (mh + MBLOCKSIZE).
Definition M_SIZE (mh : Z) : M uheap Z :=
  let* off := M_NEXTOFF mh in ret (w32 (off - MBLOCKSIZE)).
Definition M_OK (mh : Z) : M uheap bool :=
  let* m1 := mh_magic1 mh in
  if negb (m1 =? MMAGIC) then ret false
  else let* m2 := mh_magic2 mh in ret (m2 =? MMAGIC).
Definition M_MKFIELD (off : Z) : Z := Z.shiftr off MBLOCKSHIFT.

(** *** [__malloc_init] *)
Definition malloc_init : M uheap unit :=
  let* s := get in
  if negb (heapbase s =? 0) || negb (heaptop s =? 0) then errx
  else
    let* x := do_sbrk 0 in
    if x =? 4294967295 then errx
    else if x =? 0 then errx
    else
      do* modify (set_heapbase x) in
      do* modify (set_heaptop x) in
      if negb (x mod MBLOCKSIZE =? 0) then
        let adjust := MBLOCKSIZE - x mod MBLOCKSIZE in
        let* y := do_sbrk adjust in
        if y =? 4294967295 then errx
        else if negb (y =? x) then errx
        else
          do* modify (set_heapbase (w32 (x + adjust))) in
          modify (fun s => set_heaptop (heapbase s) s)
      else ret tt.

(** *** [__malloc_sbrk]: [sbrk] takes a signed [intptr_t]; 0 is [NULL] *)
Definition malloc_sbrk (size : Z) : M uheap Z :=
  let* x := do_sbrk (s32 size) in
  if x =? 4294967295 then ret 0
  else
    let* s := get in
    if negb (x =? heaptop s) then errx
    else
      do* modify (set_heaptop (w32 (heaptop s + size))) in
      ret x.

(** *** [__malloc_split] *)
Definition malloc_split (mh size : Z) : M uheap unit :=
  if negb (size mod MBLOCKSIZE =? 0) then errx
  else
    let* msize := M_SIZE mh in
    if w32 (msize - size) <? 2 * MBLOCKSIZE then ret tt
    else
      let* mhnext := M_NEXT mh in
      let* oldsize := M_SIZE mh in
      do* set_nextblock mh (M_MKFIELD (w32 (size + MBLOCKSIZE))) in
      let* mhnew := M_NEXT mh in
      if mhnew =? mhnext then errx
      else
        do* set_prevblock mhnew (M_MKFIELD (w32 (size + MBLOCKSIZE))) in
        do* set_pad mhnew 0 in
        do* set_magic1 mhnew MMAGIC in
        do* set_nextblock mhnew (M_MKFIELD (w32 (oldsize - size))) in
        do* set_inuse mhnew 0 in
        do* set_magic2 mhnew MMAGIC in
        let* s := get in
        if negb (mhnext =? heaptop s) then
          let* nb := mh_nextblock mhnew in
          set_prevblock mhnext nb
        else ret tt.

(** *** [malloc]: the search loop returns the data pointer it allocated, or
    where it stopped and the size of the last block *)
Fixpoint malloc_loop (fuel : nat) (size i rightprevblock : Z)
  : M uheap (Z + Z * Z) :=
  match fuel with
  | O => fun _ => NoFuel
  | S fuel' =>
      let* s := get in
      if negb (i <? heaptop s) then ret (inr (i, rightprevblock))
      else
        let* ok := M_OK i in
        if negb ok then errx
        else
          let* pb := mh_prevblock i in
          if negb (pb =? rightprevblock) then errx
          else
            let* rp := mh_nextblock i in
            let continue :=
              let* off := M_NEXTOFF i in
              malloc_loop fuel' size (w32 (i + off)) rp in
            let* inuse := mh_inuse i in
            if negb (inuse =? 0) then continue
            else
              let* msize := M_SIZE i in
              if msize <? size then continue
              else
                do* malloc_split i size in
                do* set_inuse i 1 in
                ret (inl (M_DATA i))
  end.

(** A block is at least a header, so the loop goes round at most once for
    every [MBLOCKSIZE] bytes of the heap, and once to stop. *)
Definition malloc_fuel (s : uheap) : nat :=
  S (Z.to_nat ((heaptop s - heapbase s) / MBLOCKSIZE)).

Definition malloc (size0 : Z) : M uheap Z :=
  let* s0 := get in
  do* (if heapbase s0 =? 0 then malloc_init else ret tt) in
  let* s := get in
  if (heapbase s =? 0) || (heaptop s =? 0) || (heaptop s <? heapbase s) then errx
  else
    let size := Z.land (w32 (w32 (size0 + MBLOCKSIZE) - 1)) (two32 - MBLOCKSIZE) in
    let* r := malloc_loop (malloc_fuel s) size (heapbase s) 0 in
    match r with
    | inl data => ret data
    | inr (i, rightprevblock) =>
        let* s := get in
        if negb (i =? heaptop s) then errx
        else
          let* mh := malloc_sbrk (w32 (size + MBLOCKSIZE)) in
          if mh =? 0 then ret 0
          else
            do* set_prevblock mh rightprevblock in
            do* set_magic1 mh MMAGIC in
            do* set_magic2 mh MMAGIC in
            do* set_pad mh 0 in
            do* set_inuse mh 1 in
            do* set_nextblock mh (M_MKFIELD (w32 (size + MBLOCKSIZE))) in
            ret (M_DATA mh)
    end.

(** *** [__malloc_deadbeef] *)
Definition malloc_deadbeef (ptr size : Z) : M uheap unit :=
  for_ (Z.to_nat (size / 4)) 0 (fun i => wrw (ptr + 4 * i) 3735928559).

(** *** [__malloc_trymerge] *)
Definition malloc_trymerge (mh mhnext : Z) : M uheap unit :=
  let* nb := mh_nextblock mh in
  let* pb := mh_prevblock mhnext in
  if negb (nb =? pb) then errx
  else
    let* u1 := mh_inuse mh in
    let* u2 := (if negb (u1 =? 0) then ret 1 else mh_inuse mhnext) in
    if negb (u2 =? 0) then ret tt
    else
      let* mhnextnext := M_NEXT mhnext in
      let* s1 := M_SIZE mh in
      let* s2 := M_SIZE mhnext in
      do* set_nextblock mh
            (M_MKFIELD (w32 (w32 (w32 (MBLOCKSIZE + s1) + MBLOCKSIZE) + s2))) in
      let* s := get in
      do* (if negb (mhnextnext =? heaptop s) then
             let* nb := mh_nextblock mh in
             set_prevblock mhnextnext nb
           else ret tt) in
      malloc_deadbeef mhnext MBLOCKSIZE.

(** *** [free] *)
Definition free (x : Z) : M uheap unit :=
  if x =? 0 then ret tt
  else
    let* s := get in
    if (heapbase s =? 0) || (heaptop s =? 0) || (heaptop s <? heapbase s) then errx
    else if (x <? heapbase s) || (heaptop s <=? x) then errx
    else
      let mh := w32 (x - MBLOCKSIZE) in
      let* ok := M_OK mh in
      if negb ok then errx
      else
        let* u := mh_inuse mh in
        if u =? 0 then errx
        else
          do* set_inuse mh 0 in
          let* size := M_SIZE mh in
          do* malloc_deadbeef (M_DATA mh) size in
          let* mhnext := M_NEXT mh in
          let* s := get in
          do* (if negb (mhnext =? heaptop s) then malloc_trymerge mh mhnext
               else ret tt) in
          if negb (mh =? heapbase s) then
            let* mhprev := M_PREV mh in
            malloc_trymerge mhprev mh
          else ret tt.

End malloc.

#[global] Arguments uheap : clear implicits.
#[global] Arguments mkUheap {P}.
