(* ===== verification/UMallocSpec.v ===== *)
(** The user-level allocator of UMalloc.v against its specification: the heap
    is a list of blocks that tile it, [malloc] is first fit with splitting,
    [free] merges with both neighbours, and a program that uses only what it
    was given never makes the allocator exit and keeps its data. *)

From S2P Require Import Prelude UMalloc.
From stdpp Require Import base list gmap option.
From Stdlib Require Import ZArith Lia.
Open Scope Z_scope.

Ltac divlia := Z.to_euclidean_division_equations; lia.

(** ** The heap as a list of blocks *)

(** The bytes from a block's header to the next one, and whether it is in use. *)
Definition block : Type := Z * bool.

Definition hdr (ld : Z -> option Z) (a prev n : Z) (u : bool) : Prop :=
  ld a = Some (prev + 2) /\ ld (a + 4) = Some (n + (if u then 4 else 0) + 2).

(** The blocks [bl] tile [a..top], the first one after a block of [prev]
    bytes. *)
Fixpoint layout (ld : Z -> option Z) (a prev : Z) (bl : list block) (top : Z) : Prop :=
  match bl with
  | [] => a = top
  | b :: r => hdr ld a prev b.1 b.2 /\ 8 <= b.1 /\ b.1 mod 8 = 0 /\ layout ld (a + b.1) b.1 r top
  end.

Fixpoint total (bl : list block) : Z :=
  match bl with [] => 0 | b :: r => b.1 + total r end.

Fixpoint last_size (prev : Z) (bl : list block) : Z :=
  match bl with [] => prev | b :: r => last_size b.1 r end.

Section layout_lemmas.
Implicit Types (ld : Z -> option Z) (bl : list block).

Lemma total_app bl1 bl2 : total (bl1 ++ bl2) = total bl1 + total bl2.
Proof. induction bl1 as [|b bl1 IH]; cbn; [done|]. rewrite IH. lia. Qed.

Lemma layout_top ld a prev bl top : layout ld a prev bl top -> top = a + total bl.
Proof.
  revert a prev. induction bl as [|b bl IH]; cbn; intros a prev H; [lia|].
  destruct H as (_ & _ & _ & H). apply IH in H. lia.
Qed.

Lemma layout_total ld a prev bl top :
  layout ld a prev bl top -> 8 * zlength bl <= total bl /\ total bl mod 8 = 0.
Proof.
  revert a prev. induction bl as [|b bl IH]; cbn [layout total]; intros a prev H; [done|].
  destruct H as (_ & H1 & H2 & H). apply IH in H. rewrite zlength_cons.
  split; [lia|]. rewrite Z.add_mod, H2, (proj2 H) by lia. done.
Qed.

Lemma layout_app ld a prev bl1 bl2 top :
  layout ld a prev (bl1 ++ bl2) top <->
  layout ld a prev bl1 (a + total bl1) /\
  layout ld (a + total bl1) (last_size prev bl1) bl2 top.
Proof.
  revert a prev. induction bl1 as [|b bl1 IH]; cbn; intros a prev.
  - rewrite Z.add_0_r. tauto.
  - rewrite IH, Z.add_assoc. tauto.
Qed.

(** The headers of a heap are all there is to its layout. *)
Lemma layout_frame ld ld' a prev bl top :
  (forall x, a <= x -> x + 4 <= top -> ld' x = ld x) ->
  layout ld a prev bl top -> layout ld' a prev bl top.
Proof.
  revert a prev. induction bl as [|b bl IH]; cbn; intros a prev Hf H; [done|].
  destruct H as ([Ha Hb] & H1 & H2 & H).
  pose proof (layout_top _ _ _ _ _ H). pose proof (layout_total _ _ _ _ _ H).
  pose proof (zlength_nonneg bl).
  split_and!; [split; by rewrite Hf by lia|done|done|].
  apply IH; [|done]. intros. apply Hf; lia.
Qed.

(** Only the first header says how large the block below the heap is. *)
Lemma layout_prev ld ld' a prev prev' b bl top :
  ld' a = Some (prev' + 2) ->
  (forall x, a < x < top -> ld' x = ld x) ->
  layout ld a prev (b :: bl) top -> layout ld' a prev' (b :: bl) top.
Proof.
  intros Ha Hf (Hh & H1 & H2 & H).
  pose proof (layout_top _ _ _ _ _ H). pose proof (layout_total _ _ _ _ _ H).
  pose proof (zlength_nonneg bl).
  split_and!; [|done|done|].
  - split; [done|]. rewrite Hf by lia. apply Hh.
  - eapply layout_frame; [|done]. intros. apply Hf. lia.
Qed.

Lemma last_size_mod ld a prev bl top :
  prev mod 8 = 0 -> 0 <= prev -> layout ld a prev bl top ->
  last_size prev bl mod 8 = 0 /\ 0 <= last_size prev bl <= prev + total bl.
Proof.
  revert a prev. induction bl as [|b bl IH]; cbn; intros a prev H0 Hp H; [lia|].
  destruct H as (_ & H1 & H2 & H). apply IH in H; [lia|done|lia].
Qed.

End layout_lemmas.

Section ops.
Context {P : Type} {PP : Process P} {PO : ProcessOk P}.
Implicit Types (s : uheap P).

(** The word at an address. *)
Definition ld s : Z -> option Z := load (proc s).

(** What every operation keeps. *)
Record env s : Prop := {
  env_proc : proc_ok (proc s);
  env_base : 0 < heapbase s;
  env_align : heapbase s mod 8 = 0;
  env_start : heap_start (proc s) <= heapbase s;
  env_top : heaptop s = brk (proc s);
  env_order : heapbase s <= heaptop s
}.

(** [s'] is [s] with the memory [f]. *)
Record becomes s s' (f : Z -> option Z) : Prop := {
  b_env : env s';
  b_base : heapbase s' = heapbase s;
  b_top : heaptop s' = heaptop s;
  b_start : heap_start (proc s') = heap_start (proc s);
  b_mem : forall a, ld s' a = f a
}.

Definition upd (f : Z -> option Z) (a v : Z) : Z -> option Z :=
  fun b => if b =? a then Some v else f b.

Lemma env_range s : env s -> heaptop s <= 2147483648.
Proof. intros E. rewrite (env_top s E). by apply brk_range, env_proc. Qed.

Lemma becomes_refl s : env s -> becomes s s (ld s).
Proof. by split. Qed.

Lemma becomes_trans s1 s2 s3 f g :
  becomes s1 s2 f -> becomes s2 s3 g -> becomes s1 s3 g.
Proof. intros [? ? ? ? ?] [? ? ? ? ?]. split; congruence || done. Qed.

Lemma rdw_ok s a v : ld s a = Some v -> rdw a s = Ret (v, s).
Proof. unfold rdw, ld. by intros ->. Qed.

Lemma ld_some s a :
  env s -> heapbase s <= a -> a + 4 <= heaptop s -> a mod 4 = 0 ->
  exists v, ld s a = Some v /\ is_u32 v.
Proof.
  intros [Hp _ _ Hs Ht _] H1 H2 H3. apply load_ok; [done|lia|by rewrite <- Ht|done].
Qed.

Lemma wrw_ok s a v f :
  env s -> heapbase s <= a -> a + 4 <= heaptop s -> a mod 4 = 0 -> is_u32 v ->
  (forall b, ld s b = f b) ->
  exists s', wrw a v s = Ret (tt, s') /\ becomes s s' (upd f a v).
Proof.
  intros [Hp Hb Ha Hs Ht Ho] H1 H2 H3 Hv Hf.
  destruct (store_ok (proc s) a v) as (p' & E & Hp' & Hk & Hs' & Hl);
    [done|lia|by rewrite <- Ht|done|done|].
  unfold wrw. rewrite E. eexists. split; [done|].
  split; try done.
  - split; cbn; [done|done|done|by rewrite Hs'|by rewrite Hk|done].
  - intros b. unfold ld, upd. cbn. rewrite Hl. by destruct (b =? a); [|apply Hf].
Qed.

(** *** Reading a header *)

Definition fits29 (n : Z) : Prop := 0 <= n < two32 /\ n mod 8 = 0.

Lemma mh_prevblock_ok s a prev n u :
  fits29 prev -> hdr (ld s) a prev n u -> mh_prevblock a s = Ret (prev / 8, s).
Proof.
  intros [? ?] [Hw1 _]. unfold mh_prevblock. rewrite (bind_ok _ _ _ _ _ (rdw_ok _ _ _ Hw1)).
  unfold ret. do 2 f_equal. divlia.
Qed.

Lemma mh_nextblock_ok s a prev n u :
  fits29 n -> hdr (ld s) a prev n u -> mh_nextblock a s = Ret (n / 8, s).
Proof.
  intros [? ?] [_ Hw1]. unfold mh_nextblock. rewrite (bind_ok _ _ _ _ _ (rdw_ok _ _ _ Hw1)).
  unfold ret. do 2 f_equal. destruct u; divlia.
Qed.

Lemma mh_inuse_ok s a prev n u :
  fits29 n -> hdr (ld s) a prev n u ->
  mh_inuse a s = Ret (if u then 1 else 0, s).
Proof.
  intros [? ?] [_ Hw1]. unfold mh_inuse. rewrite (bind_ok _ _ _ _ _ (rdw_ok _ _ _ Hw1)).
  unfold ret. do 2 f_equal. destruct u; divlia.
Qed.

Lemma M_OK_ok s a prev n u :
  fits29 prev -> fits29 n -> hdr (ld s) a prev n u -> M_OK a s = Ret (true, s).
Proof.
  intros [? ?] [? ?] [Hw1 Hw2]. unfold M_OK, mh_magic1, mh_magic2.
  rewrite bind_bind, (bind_ok _ _ _ _ _ (rdw_ok _ _ _ Hw1)), bind_ret.
  replace ((prev + 2) mod 4) with 2 by (divlia).
  cbn [negb Z.eqb MMAGIC Pos.eqb].
  rewrite bind_bind, (bind_ok _ _ _ _ _ (rdw_ok _ _ _ Hw2)), bind_ret.
  unfold ret. do 2 f_equal. apply Z.eqb_eq. unfold MMAGIC.
  destruct u; divlia.
Qed.

Lemma shiftl_field n : fits29 n -> w32 (Z.shiftl (n / 8) MBLOCKSHIFT) = n.
Proof.
  intros [? ?]. unfold MBLOCKSHIFT. rewrite Z.shiftl_mul_pow2 by lia.
  replace (n / 8 * 2 ^ 3) with n by (divlia).
  by apply w32_id.
Qed.

Lemma mkfield n : M_MKFIELD n = n / 8.
Proof. unfold M_MKFIELD, MBLOCKSHIFT. by rewrite Z.shiftr_div_pow2 by lia. Qed.

Lemma M_NEXTOFF_ok s a prev n u :
  fits29 n -> hdr (ld s) a prev n u -> M_NEXTOFF a s = Ret (n, s).
Proof.
  intros Hn Hh. unfold M_NEXTOFF. rewrite (bind_ok _ _ _ _ _ (mh_nextblock_ok _ _ _ _ _ Hn Hh)).
  unfold ret. by rewrite shiftl_field.
Qed.

Lemma M_NEXT_ok s a prev n u :
  fits29 n -> 0 <= a -> a + n < two32 -> hdr (ld s) a prev n u ->
  M_NEXT a s = Ret (a + n, s).
Proof.
  intros Hn ? ? Hh. unfold M_NEXT. rewrite (bind_ok _ _ _ _ _ (M_NEXTOFF_ok _ _ _ _ _ Hn Hh)).
  unfold ret. rewrite w32_id; [done|]. destruct Hn. unfold is_u32. lia.
Qed.

Lemma M_PREV_ok s a prev n u :
  fits29 prev -> prev <= a -> a < two32 -> hdr (ld s) a prev n u ->
  M_PREV a s = Ret (a - prev, s).
Proof.
  intros Hn ? ? Hh. unfold M_PREV, M_PREVOFF.
  rewrite bind_bind, (bind_ok _ _ _ _ _ (mh_prevblock_ok _ _ _ _ _ Hn Hh)), bind_ret.
  unfold ret. rewrite shiftl_field by done. rewrite w32_id; [done|].
  destruct Hn. unfold is_u32. lia.
Qed.

Lemma M_SIZE_ok s a prev n u :
  fits29 n -> 8 <= n -> hdr (ld s) a prev n u -> M_SIZE a s = Ret (n - 8, s).
Proof.
  intros Hn ? Hh. unfold M_SIZE. rewrite (bind_ok _ _ _ _ _ (M_NEXTOFF_ok _ _ _ _ _ Hn Hh)).
  unfold ret, MBLOCKSIZE. rewrite w32_id; [done|]. destruct Hn. unfold is_u32. lia.
Qed.

(** *** Writing a header *)

Lemma rmw_ok s a (g : Z -> Z) w f :
  env s -> heapbase s <= a -> a + 4 <= heaptop s -> a mod 4 = 0 ->
  (forall b, ld s b = f b) -> f a = Some w -> is_u32 (g w) ->
  exists s', bind (rdw a) (fun w => wrw a (g w)) s = Ret (tt, s') /\
    becomes s s' (upd f a (g w)).
Proof.
  intros E H1 H2 H3 Hf Ha Hg.
  rewrite (bind_ok _ _ _ w s) by (apply rdw_ok; by rewrite Hf).
  by apply wrw_ok.
Qed.

Lemma field29_range w v : is_u32 (field29 w v).
Proof. unfold is_u32, field29, two32. divlia. Qed.

Lemma field1_range w v : is_u32 w -> is_u32 (field1 w v).
Proof. unfold is_u32, field1, two32. divlia. Qed.

Lemma field2_range w v : is_u32 w -> is_u32 (field2 w v).
Proof. unfold is_u32, field2, two32. divlia. Qed.

(** The bit-fields of the two header words, whatever was there before. *)
Lemma field29_value w n : fits29 n -> field29 w (n / 8) = n + w mod 8.
Proof.
  unfold fits29, field29, two32. intros [? ?].
  replace (n / 8 mod 536870912) with (n / 8); divlia.
Qed.

Lemma word0_value w n :
  fits29 n -> field2 (field1 (field29 w (n / 8)) 0) MMAGIC = n + 2.
Proof.
  intros Hn. rewrite field29_value by done. destruct Hn as [? ?].
  unfold field2, field1, MMAGIC, two32 in *. divlia.
Qed.

Lemma word1_value w n :
  fits29 n -> field2 (field1 (field29 w (n / 8)) 0) MMAGIC = n + 0 + 2.
Proof. intros Hn. rewrite word0_value by done. lia. Qed.

Lemma inuse_value n (u v : bool) :
  fits29 n ->
  field1 (n + (if u then 4 else 0) + 2) (if v then 1 else 0) = n + (if v then 4 else 0) + 2.
Proof.
  intros [? ?]. unfold field1, two32 in *.
  destruct u, v; divlia.
Qed.

Lemma next_value n (u : bool) n' :
  fits29 n -> fits29 n' ->
  field29 (n + (if u then 4 else 0) + 2) (n' / 8) = n' + (if u then 4 else 0) + 2.
Proof.
  intros [? ?] Hn'. rewrite field29_value by done. destruct Hn'.
  destruct u; divlia.
Qed.

Lemma prev_value n n' :
  fits29 n -> fits29 n' -> field29 (n + 2) (n' / 8) = n' + 2.
Proof.
  intros [? ?] Hn'. rewrite field29_value by done. destruct Hn'.
  divlia.
Qed.

Lemma becomes_ext s s' f g :
  becomes s s' f -> (forall a, f a = g a) -> becomes s s' g.
Proof. intros [? ? ? ? Hm] Hfg. split; try done. intros a. by rewrite Hm. Qed.

(** A block of the heap, with the arithmetic the code does on it. *)
Record blk_at s (h prev n : Z) (u : bool) : Prop := {
  ba_hdr : hdr (ld s) h prev n u;
  ba_prev : fits29 prev;
  ba_size : fits29 n;
  ba_min : 8 <= n;
  ba_lo : heapbase s <= h;
  ba_hi : h + n <= heaptop s;
  ba_align : h mod 8 = 0;
  ba_below : prev <= h - heapbase s
}.

Lemma layout_at s bl1 b bl2 :
  env s -> layout (ld s) (heapbase s) 0 (bl1 ++ b :: bl2) (heaptop s) ->
  blk_at s (heapbase s + total bl1) (last_size 0 bl1) b.1 b.2.
Proof.
  intros E Hl. pose proof (env_range s E). pose proof (env_base s E) as Hb0.
  pose proof (env_align s E). apply layout_app in Hl as [Hl1 Hl2].
  destruct (last_size_mod _ _ 0 _ _ eq_refl (Z.le_refl 0) Hl1) as [Hm Hr].
  pose proof (layout_total _ _ _ _ _ Hl1) as [Ht1 Ht2].
  destruct Hl2 as (Hh & Hmin & Hmod & Hl2).
  pose proof (layout_top _ _ _ _ _ Hl2). pose proof (layout_total _ _ _ _ _ Hl2) as [Ht3 _].
  pose proof (zlength_nonneg bl1). pose proof (zlength_nonneg bl2).
  split; try done; unfold fits29, two32; try lia.
  rewrite Z.add_mod by lia. by rewrite Ht2, H0.
Qed.

(** A header word of a block lies in the heap and is aligned. *)
Lemma blk_words s h prev n u :
  blk_at s h prev n u ->
  h + 4 <= heaptop s /\ h + 4 + 4 <= heaptop s /\ h mod 4 = 0 /\ (h + 4) mod 4 = 0.
Proof.
  intros [_ _ _ ? ? ? ? ?]. split_and!; try lia; divlia.
Qed.


(** What [__malloc_split] writes. *)
Definition split_mem s (h n size : Z) : Z -> option Z := fun x =>
  if x =? h + 4 then Some (size + 8 + 2)
  else if (x =? h + size + 8) then Some (size + 8 + 2)
  else if x =? h + size + 8 + 4 then Some (n - 8 - size + 2)
  else if (x =? h + n) && negb (h + n =? heaptop s) then Some (n - 8 - size + 2)
  else ld s x.

Ltac mem :=
  unfold upd;
  repeat match goal with
  | |- context [?a =? ?b] => destruct (Z.eqb_spec a b); try lia
  end; try done.

(** [field B a g w] runs an assignment to a bit-field of the word [w] at [a],
    in the state [B] leads to. *)
Ltac field B a g w :=
  let s' := fresh "s" in let R := fresh "R" in let B' := fresh "B" in
  match type of B with becomes ?s0 ?s1 ?f =>
    destruct (rmw_ok s1 a g w f) as (s' & R & B');
    [apply (b_env _ _ _ B)|try rewrite (b_base _ _ _ B); lia
    |try rewrite (b_top _ _ _ B); lia|first [done|divlia]
    |apply (b_mem _ _ _ B)|try solve [mem]
    |try solve [repeat first [apply field29_range|apply field1_range|apply field2_range]; done]
    |rewrite ?(bind_ok _ _ _ _ _ R);
     apply (becomes_trans _ _ _ _ _ B) in B'; cbv beta in B'; clear B; rename B' into B]
  end.

(** The six assignments that make a free block's header, over any words. *)
Lemma new_free_header {A} s s1 f a prev n (k : M (uheap P) A) :
  becomes s s1 f -> heapbase s <= a -> a + 8 <= heaptop s -> a mod 8 = 0 ->
  fits29 prev -> fits29 n ->
  exists s', (do* set_prevblock a (prev / 8) in do* set_pad a 0 in
              do* set_magic1 a MMAGIC in do* set_nextblock a (n / 8) in
              do* set_inuse a 0 in do* set_magic2 a MMAGIC in k) s1 = k s' /\
    becomes s s' (upd (upd f a (prev + 2)) (a + 4) (n + 0 + 2)).
Proof.
  intros B Hlo Hhi Hal Hp Hn.
  pose proof (b_base _ _ _ B) as Eb. pose proof (b_top _ _ _ B) as Et.
  destruct (ld_some s1 a) as (w0 & Ew0 & Hw0); [apply (b_env _ _ _ B)|lia|lia|divlia|].
  destruct (ld_some s1 (a + 4)) as (w1 & Ew1 & Hw1); [apply (b_env _ _ _ B)|lia|lia|divlia|].
  rewrite (b_mem _ _ _ B) in Ew0, Ew1.
  unfold set_prevblock, set_pad, set_magic1, set_nextblock, set_inuse, set_magic2.
  field B a (fun w => field29 w (prev / 8)) w0.
  field B a (fun w => field1 w 0) (field29 w0 (prev / 8)).
  field B a (fun w => field2 w MMAGIC) (field1 (field29 w0 (prev / 8)) 0).
  field B (a + 4) (fun w => field29 w (n / 8)) w1.
  field B (a + 4) (fun w => field1 w 0) (field29 w1 (n / 8)).
  field B (a + 4) (fun w => field2 w MMAGIC) (field1 (field29 w1 (n / 8)) 0).
  rewrite word0_value in B by done. rewrite word1_value in B by done.
  eexists. split; [done|]. eapply becomes_ext; [exact B|]. intros b. mem.
Qed.

Lemma malloc_split_run s h prev n size :
  env s -> blk_at s h prev n false -> size mod 8 = 0 -> 0 <= size -> size + 24 <= n ->
  h + n = heaptop s \/ (exists n2 u2, blk_at s (h + n) n n2 u2) ->
  exists s', malloc_split h size s = Ret (tt, s') /\ becomes s s' (split_mem s h n size).
Proof.
  intros E Hb Hsz H0 Hn Hnext. pose proof (env_range s E) as Htop.
  pose proof (env_base s E) as Hpos.
  pose proof (blk_words _ _ _ _ _ Hb) as (W1 & W2 & W3 & W4).
  destruct Hb as [Hh Hp Hs Hmin Hlo Hhi Hal _]. 
  assert (Hf1 : fits29 (size + 8)).
  { destruct Hs. split; [unfold two32 in *; lia|divlia]. }
  assert (Hf2 : fits29 (n - 8 - size)).
  { destruct Hs. split; [unfold two32 in *; lia|divlia]. }
  unfold malloc_split, MBLOCKSIZE. rewrite Hsz. cbn [negb Z.eqb].
  rewrite (bind_ok _ _ _ _ _ (M_SIZE_ok _ _ _ _ _ Hs Hmin Hh)).
  rewrite w32_id by (unfold is_u32, two32 in *; lia).
  rewrite (proj2 (Z.ltb_ge _ _)) by lia.
  rewrite (bind_ok _ _ _ _ _ (M_NEXT_ok s h prev n false Hs ltac:(lia) ltac:(unfold two32; lia) Hh)).
  rewrite (bind_ok _ _ _ _ _ (M_SIZE_ok _ _ _ _ _ Hs Hmin Hh)).
  rewrite !(w32_id (size + 8)) by apply Hf1.
  replace (w32 (n - 8 - size)) with (n - 8 - size) by (symmetry; apply w32_id, Hf2).
  rewrite !mkfield.
  pose proof (becomes_refl s E) as B.
  unfold set_nextblock at 1.
  field B (h + 4) (fun w => field29 w ((size + 8) / 8)) (n + 0 + 2); [apply Hh|].
  pose proof (next_value n false (size + 8) Hs Hf1) as Hv. cbn iota in Hv. rewrite Hv in B. clear Hv.
  assert (Hh0 : hdr (ld s0) h prev (size + 8) false).
  { split; rewrite (b_mem _ _ _ B); mem. apply Hh. }
  rewrite (bind_ok _ _ _ _ _ (M_NEXT_ok s0 h prev (size + 8) false Hf1
             ltac:(lia) ltac:(unfold two32; lia) Hh0)).
  rewrite (proj2 (Z.eqb_neq _ _)) by lia.
  replace (h + (size + 8)) with (h + size + 8) by lia.
  destruct (new_free_header _ _ _ (h + size + 8) (size + 8) (n - 8 - size)
    (let* s := get in
     if negb (h + n =? heaptop s) then
       let* nb := mh_nextblock (h + size + 8) in set_prevblock (h + n) nb
     else ret tt) B) as (s1 & R1 & B1); [lia|lia|divlia|done|done|].
  rewrite R1. clear R1 B Hh0 R s0. rename B1 into B.
  rewrite bind_get, (b_top _ _ _ B).
  destruct Hnext as [Ht|(n2 & u2 & Hn2)].
  - rewrite Ht, Z.eqb_refl. cbn [negb]. eexists. split; [done|].
    eapply becomes_ext; [exact B|]. intros a. unfold split_mem. rewrite Ht, Z.eqb_refl.
    rewrite andb_false_r. mem; f_equal; try lia.
  - pose proof (blk_words _ _ _ _ _ Hn2) as (V1 & V2 & V3 & V4).
    rewrite (proj2 (Z.eqb_neq _ _)) by lia. cbn [negb].
    assert (Hnew : hdr (ld s1) (h + size + 8) (size + 8) (n - 8 - size) false).
    { split; rewrite (b_mem _ _ _ B); mem. }
    rewrite (bind_ok _ _ _ _ _ (mh_nextblock_ok _ _ _ _ _ Hf2 Hnew)).
    field B (h + n) (fun w => field29 w ((n - 8 - size) / 8)) (n + 2);
      [mem; apply Hn2|].
    rewrite prev_value in B by done.
    eexists. split; [exact R|]. eapply becomes_ext; [exact B|].
    intros a. unfold split_mem. rewrite (proj2 (Z.eqb_neq (h + n) _)) by lia.
    cbn [negb]. rewrite andb_true_r. mem; f_equal; lia.
Qed.


(** *** Replacing blocks of the heap *)

Lemma layout_replace f f' a prev bl1 mid mid' bl2 top :
  layout f a prev (bl1 ++ mid ++ bl2) top ->
  (forall x, x < a + total bl1 -> f' x = f x) ->
  layout f' (a + total bl1) (last_size prev bl1) mid' (a + total bl1 + total mid) ->
  mid' <> [] ->
  (bl2 <> [] -> f' (a + total bl1 + total mid) = Some (last_size 0 mid' + 2)) ->
  (forall x, a + total bl1 + total mid < x -> f' x = f x) ->
  layout f' a prev (bl1 ++ mid' ++ bl2) top.
Proof.
  intros Hl Hlo Hmid Hne Hnext Hhi.
  apply layout_app in Hl as [Hl1 Hl2]. apply layout_app in Hl2 as [_ Hl2].
  assert (Ht : total mid' = total mid) by (apply layout_top in Hmid; lia).
  apply layout_app. split; [eapply layout_frame; [|done]; intros; apply Hlo; lia|].
  apply layout_app. rewrite Ht. split; [done|].
  destruct mid' as [|b mid']; [done|]. cbn [last_size] in *.
  destruct bl2 as [|b2 bl2]; [exact Hl2|].
  eapply layout_prev; [by apply Hnext| |exact Hl2]. intros; apply Hhi; lia.
Qed.

(** The block after a given one, or the top of the heap. *)
Lemma layout_next s bl1 n u bl2 :
  env s -> layout (ld s) (heapbase s) 0 (bl1 ++ (n, u) :: bl2) (heaptop s) ->
  (bl2 = [] /\ heapbase s + total bl1 + n = heaptop s) \/
  (exists n2 u2 bl3, bl2 = (n2, u2) :: bl3 /\
     blk_at s (heapbase s + total bl1 + n) n n2 u2).
Proof.
  intros E Hl. destruct bl2 as [|[n2 u2] bl3].
  - left. split; [done|]. apply layout_top in Hl. rewrite total_app in Hl. cbn in Hl. lia.
  - right. exists n2, u2, bl3. split; [done|].
    replace (bl1 ++ (n, u) :: (n2, u2) :: bl3) with ((bl1 ++ [(n, u)]) ++ (n2, u2) :: bl3)
      in Hl by (by rewrite <- app_assoc).
    apply layout_at in Hl; [|done]. rewrite total_app in Hl. cbn [total fst snd] in Hl.
    replace (last_size 0 (bl1 ++ [(n, u)])) with n in Hl.
    + by replace (heapbase s + total bl1 + n) with (heapbase s + (total bl1 + (n + 0))) by lia.
    + clear. generalize 0. induction bl1 as [|b bl1 IH]; intros; cbn; [done|apply IH].
Qed.

(** What a client's memory is: every word outside the blocks [h..h+n], apart
    from the header above them. *)
Definition kept s s' (h n : Z) : Prop :=
  forall x, x < h \/ h + n < x -> ld s' x = ld s x.

Definition carve (n size : Z) : list block :=
  if n - 8 - size <? 16 then [(n, true)] else [(size + 8, true); (n - 8 - size, false)].

Lemma becomes_self s s' f : becomes s s' f -> becomes s s' (ld s').
Proof. intros [? ? ? ? ?]. by split. Qed.

Lemma set_inuse_ok s s1 f h n (u v : bool) :
  becomes s s1 f -> heapbase s <= h -> h + 8 <= heaptop s -> h mod 8 = 0 -> fits29 n ->
  f (h + 4) = Some (n + (if u then 4 else 0) + 2) ->
  exists s', set_inuse h (if v then 1 else 0) s1 = Ret (tt, s') /\
    becomes s s' (upd f (h + 4) (n + (if v then 4 else 0) + 2)).
Proof.
  intros B Hlo Hhi Hal Hn Hf. unfold set_inuse.
  field B (h + 4) (fun w => field1 w (if v then 1 else 0)) (n + (if u then 4 else 0) + 2).
  - apply field1_range. destruct Hn. unfold is_u32, two32 in *. destruct u; divlia.
  - rewrite inuse_value in B by done. eauto.
Qed.

(** Replace the blocks at [h] by blocks of the same extent, in a state whose
    memory changed only there and in the header above. *)
Lemma replace_blocks s s' f bl1 mid mid' bl2 n :
  let h := heapbase s + total bl1 in
  total mid = n -> env s -> layout (ld s) (heapbase s) 0 (bl1 ++ mid ++ bl2) (heaptop s) ->
  becomes s s' f ->
  (forall x, x < h \/ h + n < x -> f x = ld s x) ->
  layout f h (last_size 0 bl1) mid' (h + n) -> mid' <> [] ->
  (h + n <> heaptop s -> f (h + n) = Some (last_size 0 mid' + 2)) ->
  becomes s s' (ld s') /\
  layout (ld s') (heapbase s) 0 (bl1 ++ mid' ++ bl2) (heaptop s) /\
  kept s s' h n.
Proof.
  intros h <- E Hl B Hf Hmid Hne Hnext. split_and!.
  - by eapply becomes_self.
  - eapply layout_frame; [intros x _ _; apply (b_mem _ _ _ B)|].
    eapply layout_replace; [exact Hl| |exact Hmid|done| |].
    + intros x Hx. apply Hf. by left.
    + intros Hbl2. apply Hnext. intros Heq. apply layout_app in Hl as [_ Hl].
      apply layout_app in Hl as [_ Hl]. destruct bl2 as [|b bl2]; [done|].
      pose proof (layout_top _ _ _ _ _ Hl). pose proof (layout_total _ _ _ _ _ Hl).
      rewrite zlength_cons in *. pose proof (zlength_nonneg bl2). lia.
    + intros x Hx. apply Hf. by right.
  - intros x Hx. rewrite (b_mem _ _ _ B). by apply Hf.
Qed.

Lemma M_DATA_ok s h : env s -> heapbase s <= h -> h + 8 <= heaptop s -> M_DATA h = h + 8.
Proof.
  intros E ? ?. pose proof (env_range s E). pose proof (env_base s E).
  apply w32_id. unfold is_u32, two32, MBLOCKSIZE. lia.
Qed.

Lemma split_nop s h prev n size :
  env s -> blk_at s h prev n false -> size mod 8 = 0 -> 0 <= size <= n - 8 ->
  n - 8 - size < 16 -> malloc_split h size s = Ret (tt, s).
Proof.
  intros E Hb Hsz Hsn Hlt. unfold malloc_split, MBLOCKSIZE. rewrite Hsz. cbn [negb Z.eqb].
  destruct Hb as [Hh _ Hs Hmin _ _ _ _].
  rewrite (bind_ok _ _ _ _ _ (M_SIZE_ok _ _ _ _ _ Hs Hmin Hh)). destruct Hs.
  rewrite w32_id by (unfold is_u32, two32 in *; lia). by rewrite (proj2 (Z.ltb_lt _ _)) by lia.
Qed.

(** Taking the free block at [h]: split it if it is large enough, mark it. *)
Lemma split_allocate s bl1 n bl2 size :
  env s -> layout (ld s) (heapbase s) 0 (bl1 ++ [(n, false)] ++ bl2) (heaptop s) ->
  size mod 8 = 0 -> 0 <= size <= n - 8 ->
  let h := heapbase s + total bl1 in
  exists s', (do* malloc_split h size in do* set_inuse h 1 in ret (@inl Z (Z * Z) (M_DATA h))) s =
      Ret (inl (h + 8), s') /\
    becomes s s' (ld s') /\
    layout (ld s') (heapbase s) 0 (bl1 ++ carve n size ++ bl2) (heaptop s) /\
    kept s s' h n.
Proof.
  intros E Hl Hsz Hsn h. pose proof (layout_at _ _ _ _ E Hl) as Hb. cbn [fst snd] in Hb.
  pose proof (layout_next _ _ _ _ _ E Hl) as Hnext. fold h in Hb, Hnext.
  pose proof (ba_size _ _ _ _ _ Hb) as Hs. pose proof (ba_lo _ _ _ _ _ Hb) as Hlo.
  pose proof (ba_hi _ _ _ _ _ Hb) as Hhi. pose proof (ba_align _ _ _ _ _ Hb) as Hal.
  destruct (ba_hdr _ _ _ _ _ Hb) as [Hw1 Hw2].
  rewrite (M_DATA_ok s) by (done || lia).
  unfold carve. destruct (Z.ltb_spec (n - 8 - size) 16) as [Hlt|Hge].
  - rewrite (bind_ok _ _ _ _ _ (split_nop _ _ _ _ _ E Hb Hsz Hsn Hlt)).
    destruct (set_inuse_ok s s (ld s) h n false true) as (s' & R & B);
      [by apply becomes_refl|done|lia|done|done|done|].
    rewrite (bind_ok _ _ _ _ _ R). eexists. split; [done|].
    eapply replace_blocks; [|done|exact Hl|exact B|..]; cbn [total layout last_size fst snd];
      rewrite ?Z.add_0_r; fold h.
    + done.
    + intros x Hx. mem.
    + split_and!; [split; mem|lia|apply Hs|lia].
    + done.
    + intros Ht. destruct Hnext as [[_ ?]|(n2 & u2 & bl3 & _ & Hb2)]; [done|]. mem. apply Hb2.
  - destruct (malloc_split_run s h (last_size 0 bl1) n size) as (s1 & R1 & B1); [done..|lia|lia| |].
    { destruct Hnext as [[_ ?]|(n2 & u2 & bl3 & _ & Hb2)]; eauto. }
    rewrite (bind_ok _ _ _ _ _ R1).
    destruct (set_inuse_ok s s1 (split_mem s h n size) h (size + 8) false true) as (s' & R & B);
      [done|done|lia|done| | |].
    { destruct Hs. split; [unfold two32 in *; lia|divlia]. }
    { unfold split_mem. mem. f_equal. lia. }
    rewrite (bind_ok _ _ _ _ _ R). eexists. split; [done|].
    eapply replace_blocks; [|done|exact Hl|exact B|..]; cbn [total layout last_size fst snd];
      rewrite ?Z.add_0_r; fold h; unfold split_mem.
    + done.
    + intros x Hx. destruct (Z.eqb_spec (h + n) (heaptop s)); rewrite ?andb_true_r, ?andb_false_r; mem.
    + replace (h + (size + 8)) with (h + size + 8) by lia.
      destruct Hs. split_and!; [split; mem|lia|divlia|split; mem; f_equal; lia|lia|divlia|lia].
    + done.
    + intros Ht. rewrite (proj2 (Z.eqb_neq _ _) Ht). cbn [negb]. mem.
Qed.

(** *** The search *)

Definition fits (size : Z) (b : block) : bool := negb b.2 && (size <=? b.1 - 8).

(** The blocks before the first free one that is large enough, its size, and
    the blocks after it. *)
Fixpoint first_fit (size : Z) (bl : list block) : option (list block * Z * list block) :=
  match bl with
  | [] => None
  | b :: r =>
      if fits size b then Some ([], b.1, r)
      else match first_fit size r with
           | Some (x, n, y) => Some (b :: x, n, y)
           | None => None
           end
  end.

Lemma first_fit_Some size bl x n y :
  first_fit size bl = Some (x, n, y) ->
  bl = x ++ [(n, false)] ++ y /\ size <= n - 8 /\ Forall (fun b => fits size b = false) x.
Proof.
  revert x. induction bl as [|[n' u'] bl IH]; intros x H; [done|]. cbn in H.
  destruct (fits size (n', u')) eqn:Ef.
  - injection H as <- <- <-. unfold fits in Ef. cbn in Ef. bprop.
    destruct u'; [done|]. by split_and!; [|lia|].
  - destruct (first_fit size bl) as [[[x' n0] y']|]; [|done]. injection H as <- <- <-.
    destruct (IH x' eq_refl) as (-> & ? & ?). split_and!; [done..|]. by constructor.
Qed.

Lemma first_fit_None size bl :
  first_fit size bl = None -> Forall (fun b => fits size b = false) bl.
Proof.
  induction bl as [|b bl IH]; cbn; intros H; [done|].
  destruct (fits size b) eqn:Ef; [done|].
  destruct (first_fit size bl) as [[[? ?] ?]|]; [done|]. by constructor; [|apply IH].
Qed.

Lemma last_size_app prev bl1 bl2 :
  last_size prev (bl1 ++ bl2) = last_size (last_size prev bl1) bl2.
Proof. revert prev. by induction bl1 as [|b bl1 IH]; intros prev; cbn. Qed.

(** One round of the loop on a block that does not fit. *)
Lemma malloc_loop_skip s bl1 b bl2 fuel size :
  env s -> layout (ld s) (heapbase s) 0 (bl1 ++ b :: bl2) (heaptop s) ->
  0 <= size -> fits size b = false ->
  malloc_loop (S fuel) size (heapbase s + total bl1) (last_size 0 bl1 / 8) s =
  malloc_loop fuel size (heapbase s + total (bl1 ++ [b])) (last_size 0 (bl1 ++ [b]) / 8) s.
Proof.
  intros E Hl H0 Hfit. pose proof (layout_at _ _ _ _ E Hl) as [Hh Hp Hs Hmin Hlo Hhi _ _].
  pose proof (env_range s E). pose proof (env_base s E).
  cbn [malloc_loop]. rewrite bind_get, (proj2 (Z.ltb_lt _ _)) by lia. cbn [negb].
  rewrite (bind_ok _ _ _ _ _ (M_OK_ok _ _ _ _ _ Hp Hs Hh)). cbn [negb].
  rewrite (bind_ok _ _ _ _ _ (mh_prevblock_ok _ _ _ _ _ Hp Hh)), Z.eqb_refl. cbn [negb].
  rewrite (bind_ok _ _ _ _ _ (mh_nextblock_ok _ _ _ _ _ Hs Hh)).
  rewrite (bind_ok _ _ _ _ _ (mh_inuse_ok _ _ _ _ _ Hs Hh)).
  rewrite total_app, last_size_app. cbn [total last_size]. rewrite Z.add_0_r, Z.add_assoc.
  assert (Hc : forall k, bind (M_NEXTOFF (heapbase s + total bl1))
    (fun off => malloc_loop fuel size (w32 (heapbase s + total bl1 + off)) k) s =
    malloc_loop fuel size (heapbase s + total bl1 + b.1) k s).
  { intros k. rewrite (bind_ok _ _ _ _ _ (M_NEXTOFF_ok _ _ _ _ _ Hs Hh)).
    by rewrite w32_id by (unfold is_u32, two32; lia). }
  unfold fits in Hfit. destruct b.2; cbn [negb Z.eqb andb] in *; [apply Hc|].
  rewrite (bind_ok _ _ _ _ _ (M_SIZE_ok _ _ _ _ _ Hs Hmin Hh)).
  bprop. rewrite (proj2 (Z.ltb_lt _ _)) by lia. apply Hc.
Qed.

(** One round on a block that fits. *)
Lemma malloc_loop_hit s bl1 n bl2 fuel size :
  env s -> layout (ld s) (heapbase s) 0 (bl1 ++ [(n, false)] ++ bl2) (heaptop s) ->
  0 <= size <= n - 8 ->
  let h := heapbase s + total bl1 in
  malloc_loop (S fuel) size h (last_size 0 bl1 / 8) s =
  (do* malloc_split h size in do* set_inuse h 1 in ret (inl (M_DATA h))) s.
Proof.
  intros E Hl H0 h. pose proof (layout_at _ _ _ _ E Hl) as [Hh Hp Hs Hmin Hlo Hhi _ _].
  fold h in Hh, Hlo, Hhi. cbn [fst snd] in Hh, Hs, Hmin, Hhi.
  cbn [malloc_loop]. rewrite bind_get, (proj2 (Z.ltb_lt _ _)) by lia. cbn [negb].
  rewrite (bind_ok _ _ _ _ _ (M_OK_ok _ _ _ _ _ Hp Hs Hh)). cbn [negb].
  rewrite (bind_ok _ _ _ _ _ (mh_prevblock_ok _ _ _ _ _ Hp Hh)), Z.eqb_refl. cbn [negb].
  rewrite (bind_ok _ _ _ _ _ (mh_nextblock_ok _ _ _ _ _ Hs Hh)).
  rewrite (bind_ok _ _ _ _ _ (mh_inuse_ok _ _ _ _ _ Hs Hh)). cbn [negb Z.eqb].
  rewrite (bind_ok _ _ _ _ _ (M_SIZE_ok _ _ _ _ _ Hs Hmin Hh)).
  by rewrite (proj2 (Z.ltb_ge _ _)) by lia.
Qed.

(** The whole loop finds the first block that fits, or reaches the top. *)
Lemma malloc_loop_ok s bl1 bl fuel size :
  env s -> layout (ld s) (heapbase s) 0 (bl1 ++ bl) (heaptop s) ->
  0 <= size -> (length bl < fuel)%nat ->
  malloc_loop fuel size (heapbase s + total bl1) (last_size 0 bl1 / 8) s =
  match first_fit size bl with
  | None => Ret (inr (heaptop s, last_size 0 (bl1 ++ bl) / 8), s)
  | Some (x, _, _) =>
      let h := heapbase s + total (bl1 ++ x) in
      (do* malloc_split h size in do* set_inuse h 1 in ret (inl (M_DATA h))) s
  end.
Proof.
  intros E Hl H0. revert bl1 fuel Hl. induction bl as [|b bl IH]; intros bl1 fuel Hl Hfu;
    (destruct fuel as [|fuel]; [cbn in Hfu; lia|]).
  - rewrite app_nil_r in *. cbn [malloc_loop first_fit]. rewrite bind_get.
    rewrite <- (layout_top _ _ _ _ _ Hl). by rewrite Z.ltb_irrefl.
  - cbn [first_fit]. destruct (fits size b) eqn:Ef.
    + destruct b as [n u]. unfold fits in Ef. cbn [fst snd] in Ef. bprop. destruct u; [done|].
      rewrite app_nil_r. apply (malloc_loop_hit _ _ n bl); [done|done|lia].
    + rewrite (malloc_loop_skip _ _ _ bl) by done.
      rewrite IH; [|by rewrite <- app_assoc|cbn in Hfu; lia].
      destruct (first_fit size bl) as [[[x n] y]|]; rewrite <- app_assoc; done.
Qed.


(** *** [malloc] *)

(** A heap whose blocks are [bl], and one before the first call. *)
Definition heap_is s (bl : list block) : Prop :=
  env s /\ layout (ld s) (heapbase s) 0 bl (heaptop s).

Definition fresh_heap s : Prop :=
  proc_ok (proc s) /\ heapbase s = 0 /\ heaptop s = 0 /\
  heap_start (proc s) <= brk (proc s) /\ 0 < brk (proc s) /\ brk (proc s) mod 8 = 0.

Definition initialized s : uheap P := mkUheap (brk (proc s)) (brk (proc s)) (proc s).

Lemma initialized_heap s : fresh_heap s -> heap_is (initialized s) [].
Proof. intros (? & ? & ? & ? & ? & ?). by split; [split|]. Qed.

Lemma malloc_init_ok s : fresh_heap s -> malloc_init s = Ret (tt, initialized s).
Proof.
  intros (Hp & Hb & Ht & _ & Hpos & Hal). unfold malloc_init. rewrite bind_get, Hb, Ht.
  cbn [negb Z.eqb orb].
  assert (Hs : do_sbrk 0 s = Ret (brk (proc s), s)).
  { unfold do_sbrk. rewrite sbrk_zero by done. by destruct s. }
  rewrite (bind_ok _ _ _ _ _ Hs). pose proof (brk_range _ Hp).
  rewrite (proj2 (Z.eqb_neq _ 4294967295)) by lia. rewrite (proj2 (Z.eqb_neq _ 0)) by lia.
  rewrite !bind_modify. unfold MBLOCKSIZE. by rewrite Hal.
Qed.

(** The first call sets the heap up and goes on. *)
Lemma malloc_fresh s size : fresh_heap s -> malloc size s = malloc size (initialized s).
Proof.
  intros Hf. pose proof (malloc_init_ok s Hf) as Hi. destruct Hf as (Hp & Hb & Ht & _ & Hpos & Hal).
  unfold malloc. rewrite !bind_get, Hb. cbn [Z.eqb].
  rewrite (bind_ok _ _ _ _ _ Hi). cbn [heapbase initialized].
  by rewrite (proj2 (Z.eqb_neq _ 0)), bind_ret by lia.
Qed.

Lemma land_round x : is_u32 x -> Z.land x (two32 - MBLOCKSIZE) = x / 8 * 8.
Proof.
  unfold is_u32, two32, MBLOCKSIZE. intros Hx.
  change (4294967296 - 8) with (Z.shiftl (Z.ones 29) 3).
  apply Z.bits_inj'. intros i Hi.
  change (x / 8 * 8) with (x / 2 ^ 3 * 2 ^ 3).
  rewrite <- Z.shiftr_div_pow2, <- Z.shiftl_mul_pow2 by lia.
  rewrite Z.land_spec, !Z.shiftl_spec by lia.
  destruct (Z.lt_ge_cases i 3).
  - by rewrite !(Z.testbit_neg_r _ (i - 3)), andb_false_r by lia.
  - rewrite Z.shiftr_spec by lia. replace (i - 3 + 3) with i by lia.
    destruct (Z.lt_ge_cases i 32).
    + rewrite Z.ones_spec_low by lia. apply andb_true_r.
    + rewrite Z.ones_spec_high, andb_false_r by lia. symmetry.
      rewrite <- (Z.mod_small x (2 ^ 32)) by (cbn; lia).
      by rewrite Z.mod_pow2_bits_high by lia.
Qed.

(** The size [malloc] works with, for requests the signed argument of [sbrk]
    can hold. *)
Definition rounded (size : Z) : Z := (size + 7) / 8 * 8.
Definition max_request : Z := 2147483632.

Lemma rounded_ok size :
  0 <= size <= max_request ->
  Z.land (w32 (w32 (size + MBLOCKSIZE) - 1)) (two32 - MBLOCKSIZE) = rounded size /\
  rounded size mod 8 = 0 /\ size <= rounded size < size + 8 /\ rounded size <= max_request.
Proof.
  unfold max_request, rounded. intros H. rewrite (w32_id (size + MBLOCKSIZE)) by
    (unfold is_u32, two32, MBLOCKSIZE; lia).
  rewrite land_round by apply w32_range.
  rewrite w32_id by (unfold is_u32, two32, MBLOCKSIZE; lia). unfold MBLOCKSIZE.
  replace (size + 8 - 1) with (size + 7) by lia. split_and!; [done|divlia..].
Qed.

Lemma new_word0 w n : fits29 n -> field1 (field2 (field29 w (n / 8)) MMAGIC) 0 = n + 2.
Proof.
  intros Hn. rewrite field29_value by done. destruct Hn as [? ?].
  unfold field2, field1, MMAGIC, two32 in *. divlia.
Qed.

Lemma new_word1 w n :
  fits29 n -> field29 (field1 (field2 w MMAGIC) 1) (n / 8) = n + 4 + 2.
Proof.
  intros Hn. rewrite field29_value by done. unfold field2, field1, MMAGIC. divlia.
Qed.

(** The six assignments that make the header of a block at the top. *)
Lemma new_used_header s a prev n :
  env s -> heapbase s <= a -> a + 8 <= heaptop s -> a mod 8 = 0 ->
  fits29 prev -> fits29 n ->
  exists s', (do* set_prevblock a (prev / 8) in do* set_magic1 a MMAGIC in
              do* set_magic2 a MMAGIC in do* set_pad a 0 in do* set_inuse a 1 in
              do* set_nextblock a (n / 8) in ret (M_DATA a)) s = Ret (a + 8, s') /\
    becomes s s' (upd (upd (ld s) a (prev + 2)) (a + 4) (n + 4 + 2)).
Proof.
  intros E Hlo Hhi Hal Hp Hn. pose proof (becomes_refl s E) as B.
  destruct (ld_some s a) as (w0 & Ew0 & Hw0); [done|lia|lia|divlia|].
  destruct (ld_some s (a + 4)) as (w1 & Ew1 & Hw1); [done|lia|lia|divlia|].
  unfold set_prevblock, set_pad, set_magic1, set_nextblock, set_inuse, set_magic2.
  field B a (fun w => field29 w (prev / 8)) w0.
  field B a (fun w => field2 w MMAGIC) (field29 w0 (prev / 8)).
  field B (a + 4) (fun w => field2 w MMAGIC) w1.
  field B a (fun w => field1 w 0) (field2 (field29 w0 (prev / 8)) MMAGIC).
  field B (a + 4) (fun w => field1 w 1) (field2 w1 MMAGIC).
  field B (a + 4) (fun w => field29 w (n / 8)) (field1 (field2 w1 MMAGIC) 1).
  rewrite new_word0 in B by done. rewrite new_word1 in B by done.
  rewrite (M_DATA_ok s) by done.
  eexists. split; [done|]. eapply becomes_ext; [exact B|]. intros b. mem.
Qed.

(** Growing the heap. *)
Lemma malloc_sbrk_ok s n :
  env s -> 8 <= n < 2147483648 -> n mod 8 = 0 ->
  (malloc_sbrk n s = Ret (0, s) /\ (sbrk (proc s) n).1 = 4294967295) \/
  (exists s', malloc_sbrk n s = Ret (heaptop s, s') /\ env s' /\
     heapbase s' = heapbase s /\ heaptop s' = heaptop s + n /\
     (forall a, a + 4 <= heaptop s -> ld s' a = ld s a)).
Proof.
  intros E Hn Hm. pose proof (env_range s E). destruct E as [Hp Hb Ha Hs Ht Ho].
  assert (Hd : forall r p', sbrk (proc s) n = (r, p') ->
    do_sbrk (s32 n) s = Ret (r, mkUheap (heapbase s) (heaptop s) p')).
  { intros r p' Hr. unfold do_sbrk. rewrite s32_id by (unfold is_s32; lia). by rewrite Hr. }
  destruct (sbrk_cases (proc s) n Hp) as [Hr|(p' & Hr & Hp' & Hk & Hs' & Hl)]; apply Hd in Hr as Hd'.
  - left. rewrite Hr. split; [|done]. unfold malloc_sbrk. rewrite (bind_ok _ _ _ _ _ Hd').
    cbn. by destruct s.
  - right. pose proof (brk_range _ Hp'). unfold malloc_sbrk. rewrite (bind_ok _ _ _ _ _ Hd').
    rewrite (proj2 (Z.eqb_neq _ _)) by lia. rewrite bind_get. cbn [heaptop].
    rewrite <- Ht, Z.eqb_refl. cbn [negb]. rewrite bind_modify.
    rewrite w32_id by (unfold is_u32, two32; lia).
    eexists. split; [done|]. split; [|split_and!; cbn; try done].
    + split; cbn; [done|done|done|by rewrite Hs'|lia|lia].
    + intros a Ha'. unfold ld. cbn. apply Hl; lia.
Qed.

Lemma heap_fuel s bl : heap_is s bl -> (length bl < malloc_fuel s)%nat.
Proof.
  intros [E Hl]. pose proof (layout_top _ _ _ _ _ Hl) as Ht.
  destruct (layout_total _ _ _ _ _ Hl) as [H1 _]. unfold malloc_fuel, MBLOCKSIZE.
  unfold zlength in H1. assert (Z.of_nat (length bl) <= (heaptop s - heapbase s) / 8) by divlia.
  lia.
Qed.

(** Making the heap longer by a block of [size] bytes. *)
Lemma malloc_grow s bl size :
  heap_is s bl -> 0 <= size -> size + 8 < 2147483648 -> size mod 8 = 0 ->
  let run :=
    let* mh := malloc_sbrk (w32 (size + MBLOCKSIZE)) in
    if mh =? 0 then ret 0
    else
      do* set_prevblock mh (last_size 0 bl / 8) in
      do* set_magic1 mh MMAGIC in
      do* set_magic2 mh MMAGIC in
      do* set_pad mh 0 in
      do* set_inuse mh 1 in
      do* set_nextblock mh (M_MKFIELD (w32 (size + MBLOCKSIZE))) in
      ret (M_DATA mh) in
  (run s = Ret (0, s) /\ (sbrk (proc s) (size + 8)).1 = 4294967295) \/
  (exists s', run s = Ret (heaptop s + 8, s') /\ heapbase s' = heapbase s /\
     heap_is s' (bl ++ [(size + 8, true)]) /\
     forall a, a + 4 <= heaptop s -> ld s' a = ld s a).
Proof.
  intros [E Hl] H0 Hlt Hm run. pose proof (env_base s E) as Hb. pose proof (env_order s E) as Ho.
  subst run. cbv zeta.
  unfold MBLOCKSIZE. rewrite (w32_id (size + 8)) by (unfold is_u32, two32; lia).
  destruct (malloc_sbrk_ok s (size + 8)) as [[R Hf]|(s1 & R & E1 & Eb & Et & Hl1)];
    [done|lia|divlia|left|right]; rewrite (bind_ok _ _ _ _ _ R); [done|].
  rewrite (proj2 (Z.eqb_neq (heaptop s) 0)), mkfield by lia.
  pose proof (layout_top _ _ _ _ _ Hl) as Htop.
  destruct (last_size_mod _ _ 0 _ _ eq_refl (Z.le_refl 0) Hl) as [Hlm Hlr].
  destruct (layout_total _ _ _ _ _ Hl) as [_ Htm]. pose proof (env_align s E) as Hal.
  pose proof (env_range s E).
  destruct (new_used_header s1 (heaptop s) (last_size 0 bl) (size + 8)) as (s' & R' & B);
    [done|lia|lia| |split; unfold two32; [lia|done]|split; unfold two32; [lia|divlia]|].
  { rewrite Htop, Z.add_mod, Hal, Htm by lia. done. }
  rewrite R'. eexists. split; [done|]. split; [rewrite <- Eb; apply B|]. split.
  - split; [apply B|]. rewrite (b_base _ _ _ B), (b_top _ _ _ B), Eb, Et.
    apply layout_app. rewrite <- Htop. split.
    + eapply layout_frame; [|done]. intros a Ha Ha'. rewrite (b_mem _ _ _ B).
      mem. by apply Hl1.
    + cbn. split_and!; [split; rewrite (b_mem _ _ _ B); mem|lia|divlia|lia].
  - intros a Ha. rewrite (b_mem _ _ _ B). mem. by apply Hl1.
Qed.

(** [malloc] takes the first block that fits, or a new one at the top, or
    returns [NULL] because [sbrk] did. *)
Lemma malloc_ok s bl size0 :
  heap_is s bl -> 0 <= size0 <= max_request ->
  let size := rounded size0 in
  exists r s', malloc size0 s = Ret (r, s') /\ heapbase s' = heapbase s /\
  match first_fit size bl with
  | Some (x, n, y) =>
      r = heapbase s + total x + 8 /\ heap_is s' (x ++ carve n size ++ y) /\
      kept s s' (heapbase s + total x) n
  | None =>
      (r = 0 /\ s' = s /\ (sbrk (proc s) (size + 8)).1 = 4294967295) \/
      (r = heaptop s + 8 /\ heap_is s' (bl ++ [(size + 8, true)]) /\
       forall a, a + 4 <= heaptop s -> ld s' a = ld s a)
  end.
Proof.
  intros Hh Hsz size. pose proof (heap_fuel _ _ Hh) as Hfu. pose proof Hh as [E Hl].
  destruct (rounded_ok _ Hsz) as (Hr & Hm & Hge & Hle). fold size in Hr, Hm, Hge, Hle.
  unfold max_request in Hle. pose proof (env_base s E) as Hb. pose proof (env_order s E) as Ho.
  pose proof (malloc_loop_ok s [] bl (malloc_fuel s) size E Hl ltac:(lia) Hfu) as Hloop.
  cbn [total last_size app] in Hloop. rewrite Z.add_0_r in Hloop. change (0 / 8) with 0 in Hloop.
  unfold malloc. rewrite bind_get, (proj2 (Z.eqb_neq (heapbase s) 0)), bind_ret, bind_get by lia.
  rewrite (proj2 (Z.eqb_neq (heapbase s) 0)), (proj2 (Z.eqb_neq (heaptop s) 0)),
    (proj2 (Z.ltb_ge (heaptop s) (heapbase s))) by lia.
  cbn [orb]. cbv zeta. rewrite Hr.
  destruct (first_fit size bl) as [[[x n] y]|] eqn:Ef.
  - destruct (first_fit_Some _ _ _ _ _ Ef) as (-> & Hfit & _). cbv zeta in Hloop.
    destruct (split_allocate s x n y size) as (s' & R & B & Hl' & Hk); [done|done|done|lia|].
    rewrite R in Hloop. rewrite (bind_ok _ _ _ _ _ Hloop).
    exists (heapbase s + total x + 8), s'. split; [done|].
    split; [apply B|]. split; [done|]. split; [|done]. split; [apply B|].
    by rewrite (b_base _ _ _ B), (b_top _ _ _ B).
  - rewrite (bind_ok _ _ _ _ _ Hloop), bind_get, Z.eqb_refl. cbn [negb].
    destruct (malloc_grow s bl size) as [[R Hf]|(s' & R & Eb & Hh' & Hk)];
      [done|lia|lia|done|..]; cbv zeta in R; rewrite R; eauto 12.
Qed.

(** *** [free] *)

(** Memory [f] with [n] bytes at [p] filled with 0xdeadbeef. *)
Definition dead (f : Z -> option Z) (p n : Z) : Z -> option Z := fun x =>
  if (p <=? x) && (x <? p + n) && ((x - p) mod 4 =? 0) then Some 3735928559 else f x.

Lemma dead_out f p n x : x < p \/ p + n <= x -> dead f p n x = f x.
Proof.
  intros H. unfold dead. destruct (Z.leb_spec p x), (Z.ltb_spec x (p + n)); done || lia.
Qed.

Lemma deadbeef_ok s s1 f p n :
  becomes s s1 f -> heapbase s <= p -> p + n <= heaptop s -> p mod 4 = 0 ->
  0 <= n -> n mod 4 = 0 ->
  exists s', malloc_deadbeef p n s1 = Ret (tt, s') /\ becomes s s' (dead f p n).
Proof.
  intros B Hlo Hhi Hal H0 Hm. unfold malloc_deadbeef.
  destruct (for_inv (fun i st => becomes s st (dead f p (4 * i)))
    (fun i => wrw (p + 4 * i) 3735928559) (Z.to_nat (n / 4)) 0 s1) as (s' & R & B').
  - eapply becomes_ext; [exact B|]. intros a. symmetry. apply dead_out. lia.
  - intros i st Hi Bi.
    destruct (wrw_ok st (p + 4 * i) 3735928559 (dead f p (4 * i))) as (st' & Ri & Bi').
    + apply (b_env _ _ _ Bi).
    + rewrite (b_base _ _ _ Bi). lia.
    + rewrite (b_top _ _ _ Bi). divlia.
    + divlia.
    + by unfold is_u32, two32.
    + apply (b_mem _ _ _ Bi).
    + exists st'. split; [done|]. eapply becomes_ext; [eapply becomes_trans; [exact Bi|exact Bi']|].
      intros x. unfold upd, dead.
      destruct (Z.eqb_spec x (p + 4 * i)), (Z.leb_spec p x), (Z.ltb_spec x (p + 4 * i)),
        (Z.ltb_spec x (p + 4 * (i + 1))), (Z.eqb_spec ((x - p) mod 4) 0); cbn [andb]; try done;
        exfalso; divlia.
  - exists s'. split; [done|]. by replace n with (4 * (0 + Z.of_nat (Z.to_nat (n / 4)))) by divlia.
Qed.

(** Two adjacent blocks become one if both are free. *)
Definition merge2 (a b : block) : list block :=
  if a.2 || b.2 then [a; b] else [(a.1 + b.1, false)].

Lemma trymerge_blocked s bl1 a b bl2 :
  heap_is s (bl1 ++ [a; b] ++ bl2) -> a.2 || b.2 = true ->
  malloc_trymerge (heapbase s + total bl1) (heapbase s + total bl1 + a.1) s = Ret (tt, s).
Proof.
  intros [E Hl] Hu. pose proof (layout_at _ _ _ _ E Hl) as [Hh _ Hs _ _ _ _ _].
  destruct a as [n u], b as [n2 u2]. cbn [fst snd] in Hh, Hs, Hu |- *.
  destruct (layout_next _ _ _ _ _ E Hl) as [[? _]|(n3 & u3 & bl3 & [= -> -> _] & Hb2)]; [done|].
  destruct Hb2 as [Hh2 _ Hs2 _ _ _ _ _].
  unfold malloc_trymerge.
  rewrite (bind_ok _ _ _ _ _ (mh_nextblock_ok _ _ _ _ _ Hs Hh)).
  rewrite (bind_ok _ _ _ _ _ (mh_prevblock_ok _ _ _ _ _ Hs Hh2)), Z.eqb_refl. cbn [negb].
  rewrite (bind_ok _ _ _ _ _ (mh_inuse_ok _ _ _ _ _ Hs Hh)).
  destruct u; cbn [negb Z.eqb]; [by rewrite bind_ret|].
  rewrite (bind_ok _ _ _ _ _ (mh_inuse_ok _ _ _ _ _ Hs2 Hh2)).
  cbn in Hu. by rewrite Hu.
Qed.

(** What a merge writes. *)
Definition merge_mem s (h n n2 : Z) : Z -> option Z :=
  dead (fun x => if x =? h + 4 then Some (n + n2 + 0 + 2)
                 else if (x =? h + (n + n2)) && negb (h + (n + n2) =? heaptop s)
                 then Some (n + n2 + 2) else ld s x) (h + n) 8.

Lemma trymerge_run s h prev n n2 :
  env s -> blk_at s h prev n false -> blk_at s (h + n) n n2 false ->
  h + (n + n2) = heaptop s \/ (exists n3 u3, blk_at s (h + (n + n2)) n2 n3 u3) ->
  exists s', malloc_trymerge h (h + n) s = Ret (tt, s') /\ becomes s s' (merge_mem s h n n2).
Proof.
  intros E [Hh Hp Hs Hmin Hlo Hhi Hal _] [Hh2 _ Hs2 Hmin2 _ Hhi2 _ _] Hnext.
  pose proof (env_range s E). pose proof (env_base s E).
  assert (Hf : fits29 (n + n2)).
  { destruct Hs, Hs2. split; [unfold two32; lia|divlia]. }
  unfold malloc_trymerge, MBLOCKSIZE.
  rewrite (bind_ok _ _ _ _ _ (mh_nextblock_ok _ _ _ _ _ Hs Hh)).
  rewrite (bind_ok _ _ _ _ _ (mh_prevblock_ok _ _ _ _ _ Hs Hh2)), Z.eqb_refl. cbn [negb].
  rewrite (bind_ok _ _ _ _ _ (mh_inuse_ok _ _ _ _ _ Hs Hh)). cbn [negb Z.eqb].
  rewrite (bind_ok _ _ _ _ _ (mh_inuse_ok _ _ _ _ _ Hs2 Hh2)). cbn [negb Z.eqb].
  rewrite (bind_ok _ _ _ _ _ (M_NEXT_ok s (h + n) n n2 false Hs2 ltac:(lia) ltac:(unfold two32; lia) Hh2)).
  rewrite (bind_ok _ _ _ _ _ (M_SIZE_ok _ _ _ _ _ Hs Hmin Hh)).
  rewrite (bind_ok _ _ _ _ _ (M_SIZE_ok _ _ _ _ _ Hs2 Hmin2 Hh2)).
  rewrite (w32_id (8 + (n - 8))) by (unfold is_u32, two32; lia).
  rewrite (w32_id (8 + (n - 8) + 8)) by (unfold is_u32, two32; lia).
  replace (8 + (n - 8) + 8 + (n2 - 8)) with (n + n2) by lia.
  rewrite (w32_id (n + n2)) by apply Hf. rewrite mkfield, <- Z.add_assoc.
  pose proof (becomes_refl s E) as B. unfold set_nextblock.
  field B (h + 4) (fun w => field29 w ((n + n2) / 8)) (n + 0 + 2); [apply Hh|].
  pose proof (next_value n false (n + n2) Hs Hf) as Hv. cbn iota in Hv. rewrite Hv in B. clear Hv.
  rewrite bind_get, (b_top _ _ _ B). unfold merge_mem.
  destruct Hnext as [Ht|(n3 & u3 & [Hh3 _ _ Hmin3 _ Hhi3 _ _])].
  - rewrite Ht, Z.eqb_refl. cbn [negb]. rewrite bind_ret.
    destruct (deadbeef_ok s s0 _ (h + n) 8 B) as (s' & R' & B'); [lia|lia|destruct Hs; divlia|lia|done|].
    exists s'. split; [done|]. eapply becomes_ext; [exact B'|].
    intros x. unfold dead, upd. by rewrite andb_false_r.
  - rewrite (proj2 (Z.eqb_neq _ _)) by lia. cbn [negb].
    assert (Hh0 : hdr (ld s0) h prev (n + n2) false).
    { split; rewrite (b_mem _ _ _ B); mem. apply Hh. }
    rewrite bind_bind, (bind_ok _ _ _ _ _ (mh_nextblock_ok _ _ _ _ _ Hf Hh0)).
    unfold set_prevblock. pose proof (proj2 Hf) as Hm8.
    field B (h + (n + n2)) (fun w => field29 w ((n + n2) / 8)) (n2 + 2);
      [mem; apply Hh3|].
    rewrite prev_value in B by done.
    destruct (deadbeef_ok s s1 _ (h + n) 8 B) as (s' & R' & B'); [lia|lia|destruct Hs; divlia|lia|done|].
    exists s'. split; [done|]. eapply becomes_ext; [exact B'|].
    intros x. unfold dead, upd. rewrite andb_true_r. destruct (_ && _); [done|]. mem.
Qed.

Lemma trymerge_merged s bl1 n n2 bl2 :
  heap_is s (bl1 ++ [(n, false); (n2, false)] ++ bl2) ->
  let h := heapbase s + total bl1 in
  exists s', malloc_trymerge h (h + n) s = Ret (tt, s') /\ heapbase s' = heapbase s /\
    heaptop s' = heaptop s /\ heap_is s' (bl1 ++ [(n + n2, false)] ++ bl2) /\
    kept s s' h (n + n2) /\ ld s' (h + n) = Some 3735928559.
Proof.
  intros [E Hl] h. pose proof (layout_at _ _ _ _ E Hl) as Hb. fold h in Hb. cbn [fst snd] in Hb.
  destruct (layout_next _ _ _ _ _ E Hl) as [[? _]|(n3 & u3 & bl3 & [= <- <- <-] & Hb2)]; [done|].
  fold h in Hb2.
  assert (Hnext : h + (n + n2) = heaptop s \/
    (exists n3 u3, blk_at s (h + (n + n2)) n2 n3 u3)).
  { destruct (layout_next s (bl1 ++ [(n, false)]) n2 false bl2) as [[_ Ht]|(n3 & u3 & _ & _ & Hb3)];
      [done|by rewrite <- app_assoc|left|right];
      rewrite total_app in *; cbn [total fst] in *.
    - lia.
    - exists n3, u3. by replace (h + (n + n2)) with (heapbase s + (total bl1 + (n + 0)) + n2) by lia. }
  destruct (trymerge_run s h (last_size 0 bl1) n n2) as (s' & R & B); [done..|].
  exists s'. split; [done|]. split; [apply B|]. split; [apply B|].
  destruct Hb as [[Hw1 Hw2] Hp Hs Hmin Hlo Hhi Hal _], Hb2 as [_ _ Hs2 Hmin2 _ Hhi2 _ _].
  destruct (replace_blocks s s' (merge_mem s h n n2) bl1 [(n, false); (n2, false)]
    [(n + n2, false)] bl2 (n + n2)) as (B' & Hl' & Hk);
    [cbn; lia|done|exact Hl|exact B|..]; unfold merge_mem; fold h.
  - intros x Hx. rewrite dead_out by lia.
    destruct (Z.eqb_spec (h + (n + n2)) (heaptop s)); cbn [negb];
      rewrite ?andb_true_r, ?andb_false_r; mem.
  - cbn [layout fst snd]. destruct Hs, Hs2.
    split_and!; [split; rewrite dead_out by lia|lia|divlia|lia];
      destruct (Z.eqb_spec (h + (n + n2)) (heaptop s)); cbn [negb];
      rewrite ?andb_true_r, ?andb_false_r; mem.
  - done.
  - intros Ht. rewrite dead_out by lia. rewrite (proj2 (Z.eqb_neq _ _) Ht). cbn [negb].
    rewrite andb_true_r. mem.
  - split; [split; [apply B|by rewrite (b_base _ _ _ B), (b_top _ _ _ B)]|].
    split; [done|]. rewrite (b_mem _ _ _ B). unfold merge_mem, dead.
    rewrite (proj2 (Z.leb_le _ _)), (proj2 (Z.ltb_lt _ _)), Z.sub_diag by lia. done.
Qed.

(** Both cases of [__malloc_trymerge]. *)
Lemma trymerge_ok s bl1 a b bl2 :
  heap_is s (bl1 ++ [a; b] ++ bl2) ->
  let h := heapbase s + total bl1 in
  exists s', malloc_trymerge h (h + a.1) s = Ret (tt, s') /\ heapbase s' = heapbase s /\
    heaptop s' = heaptop s /\ heap_is s' (bl1 ++ merge2 a b ++ bl2) /\
    kept s s' h (a.1 + b.1) /\
    ld s' (h + a.1) = (if a.2 || b.2 then ld s (h + a.1) else Some 3735928559).
Proof.
  intros Hh h. unfold merge2. destruct (a.2 || b.2) eqn:Hu.
  - exists s. split; [by apply (trymerge_blocked _ _ _ b bl2)|]. by split_and!.
  - destruct a as [n [|]], b as [n2 [|]]; try done. by apply trymerge_merged.
Qed.

(** *** The blocks in use *)

(** The data pointers of the blocks in use and the bytes each one holds. *)
Fixpoint used (a : Z) (bl : list block) : list (Z * Z) :=
  match bl with
  | [] => []
  | b :: r => (if b.2 then [(a + 8, b.1 - 8)] else []) ++ used (a + b.1) r
  end.

Lemma used_app a bl1 bl2 : used a (bl1 ++ bl2) = used a bl1 ++ used (a + total bl1) bl2.
Proof.
  revert a. induction bl1 as [|b bl1 IH]; intros a; cbn.
  - by rewrite Z.add_0_r.
  - by rewrite IH, <- app_assoc, Z.add_assoc.
Qed.

Lemma used_range f a prev bl top p m :
  layout f a prev bl top -> (p, m) ∈ used a bl -> a + 8 <= p /\ p + m <= top /\ 0 <= m.
Proof.
  revert a prev. induction bl as [|b bl IH]; cbn; intros a prev Hl Hp.
  { by apply not_elem_of_nil in Hp. }
  destruct Hl as (_ & Hmin & _ & Hl). apply elem_of_app in Hp as [Hp|Hp].
  - pose proof (layout_top _ _ _ _ _ Hl). pose proof (layout_total _ _ _ _ _ Hl).
    pose proof (zlength_nonneg bl).
    destruct b.2; [|by apply not_elem_of_nil in Hp].
    apply list_elem_of_singleton in Hp as [= -> ->]. lia.
  - destruct (IH _ _ Hl Hp). lia.
Qed.

Lemma used_aligned f a prev bl top p m :
  a mod 8 = 0 -> layout f a prev bl top -> (p, m) ∈ used a bl -> p mod 8 = 0 /\ m mod 8 = 0.
Proof.
  revert a prev. induction bl as [|b bl IH]; cbn; intros a prev Ha Hl Hp.
  { by apply not_elem_of_nil in Hp. }
  destruct Hl as (_ & Hmin & Hm & Hl). apply elem_of_app in Hp as [Hp|Hp].
  - destruct b.2; [|by apply not_elem_of_nil in Hp].
    apply list_elem_of_singleton in Hp as [= -> ->]. split; divlia.
  - apply (IH (a + b.1) b.1); [divlia|done..].
Qed.

(** Two blocks in use do not overlap: a header lies between them. *)
Lemma used_disjoint f a prev bl top i j p m q k :
  layout f a prev bl top -> used a bl !! i = Some (p, m) -> used a bl !! j = Some (q, k) ->
  (i < j)%nat -> p + m + 8 <= q.
Proof.
  revert a prev i j. induction bl as [|b bl IH]; cbn; intros a prev i j Hl Hi Hj Hij; [done|].
  destruct Hl as (_ & Hmin & _ & Hl).
  destruct b.2; cbn in Hi, Hj; [|by eapply IH].
  destruct i as [|i], j as [|j]; cbn in Hi, Hj; try lia.
  - injection Hi as <- <-. apply list_elem_of_lookup_2 in Hj.
    destruct (used_range _ _ _ _ _ _ _ Hl Hj). lia.
  - eapply IH; [done..|lia].
Qed.

(** The data of the blocks [l] is the same in both states. *)
Definition data_kept s s' (l : list (Z * Z)) : Prop :=
  forall p m z, (p, m) ∈ l -> p <= z -> z + 4 <= p + m -> ld s' z = ld s z.

Lemma kept_used s s' bl1 mid bl2 n :
  heap_is s (bl1 ++ mid ++ bl2) -> total mid = n ->
  kept s s' (heapbase s + total bl1) n ->
  data_kept s s' (used (heapbase s) bl1 ++ used (heapbase s + total bl1 + n) bl2).
Proof.
  intros [E Hl] <- Hk p m z Hp Hz1 Hz2. apply Hk.
  apply layout_app in Hl as [Hl1 Hl2]. apply layout_app in Hl2 as [_ Hl2].
  apply elem_of_app in Hp as [Hp|Hp].
  - destruct (used_range _ _ _ _ _ _ _ Hl1 Hp). lia.
  - destruct (used_range _ _ _ _ _ _ _ Hl2 Hp). lia.
Qed.

Lemma data_kept_trans s1 s2 s3 l :
  data_kept s1 s2 l -> data_kept s2 s3 l -> data_kept s1 s3 l.
Proof. intros H1 H2 p m z Hp Hz1 Hz2. rewrite (H2 p m), (H1 p m); done. Qed.

Lemma data_kept_mono s s' l l' :
  data_kept s s' l -> (forall x, x ∈ l' -> x ∈ l) -> data_kept s s' l'.
Proof. intros H1 Hs p m z Hp. apply H1. by apply Hs. Qed.

(** No two neighbouring blocks are free. *)
Fixpoint merged (pu : bool) (bl : list block) : bool :=
  match bl with [] => true | b :: r => (pu || b.2) && merged b.2 r end.

Fixpoint last_used (pu : bool) (bl : list block) : bool :=
  match bl with [] => pu | b :: r => last_used b.2 r end.

Lemma merged_app pu bl1 bl2 :
  merged pu (bl1 ++ bl2) = merged pu bl1 && merged (last_used pu bl1) bl2.
Proof.
  revert pu. induction bl1 as [|b bl1 IH]; intros pu; cbn; [done|].
  by rewrite IH, andb_assoc.
Qed.

Lemma merged_mono bl : merged false bl = true -> merged true bl = true.
Proof. destruct bl as [|b bl]; cbn; [done|]. intros H. by bprop. Qed.

(** *** [free] *)

Definition merge_up (n : Z) (bl : list block) : Z * list block :=
  match bl with
  | [] => (n, [])
  | b :: r => if b.2 then (n, bl) else (n + b.1, r)
  end.

(** The blocks after freeing the one of [n] bytes between [bl1] and [bl2]. *)
Definition free_blocks (bl1 : list block) (n : Z) (bl2 : list block) : list block :=
  let '(n', r) := merge_up n bl2 in
  match rev bl1 with
  | [] => (n', false) :: r
  | b :: l => rev l ++ merge2 b (n', false) ++ r
  end.

Lemma free_blocks_merged bl1 n bl2 :
  merged true (bl1 ++ [(n, true)] ++ bl2) = true -> merged true (free_blocks bl1 n bl2) = true.
Proof.
  unfold free_blocks. rewrite !merged_app. cbn. rewrite orb_true_r, !andb_true_iff.
  intros (H1 & _ & H2).
  assert (Hup : merged false (merge_up n bl2).2 = true).
  { destruct bl2 as [|[n2 [|]] r]; cbn in *; [done|done|]. by bprop. }
  destruct (merge_up n bl2) as [n' r]. cbn in Hup.
  destruct bl1 as [|b bl0 _] using rev_ind; [done|].
  rewrite rev_unit, rev_involutive. rewrite !merged_app, andb_true_iff in *.
  destruct H1 as [H1 H3]. split; [done|]. unfold merge2. cbn [snd]. rewrite orb_false_r.
  destruct b as [n0 [|]]; cbn in *; [by rewrite orb_true_r|].
  rewrite andb_true_r in H3. by rewrite H3.
Qed.

Lemma total_merge2 a b : total (merge2 a b) = a.1 + b.1.
Proof. unfold merge2. destruct (a.2 || b.2); cbn; lia. Qed.

Lemma used_merge2 p a b : used p (merge2 a b) = used p [a; b].
Proof. unfold merge2. destruct a as [n [|]], b as [n2 [|]]; done. Qed.

Lemma merge_up_used q n bl : used (q + (merge_up n bl).1) (merge_up n bl).2 = used (q + n) bl.
Proof.
  destruct bl as [|[n2 [|]] r]; cbn; [done|done|]. by rewrite Z.add_assoc.
Qed.

(** Freeing a block takes it, and nothing else, from the blocks in use. *)
Lemma used_free_blocks p bl1 n bl2 :
  used p (free_blocks bl1 n bl2) = used p bl1 ++ used (p + total bl1 + n) bl2.
Proof.
  unfold free_blocks. pose proof (merge_up_used (p + total bl1) n bl2) as Hup.
  destruct (merge_up n bl2) as [n' r]. cbn [fst snd] in Hup. rewrite <- Hup.
  destruct bl1 as [|b bl0 _] using rev_ind; [cbn; by rewrite Z.add_0_r|].
  rewrite rev_unit, rev_involutive, !used_app, total_app, total_merge2, used_merge2.
  cbn. rewrite !app_nil_r, <- !app_assoc. do 2 f_equal. f_equal. lia.
Qed.

(** The start of [free]: the checks pass, the block is marked and wiped. *)
Lemma free_mark s bl1 n bl2 :
  heap_is s (bl1 ++ [(n, true)] ++ bl2) ->
  let h := heapbase s + total bl1 in
  h + 8 < heaptop s ->
  exists s', heap_is s' (bl1 ++ [(n, false)] ++ bl2) /\ heapbase s' = heapbase s /\
    heaptop s' = heaptop s /\ kept s s' h n /\
    free (h + 8) s =
      (let* mhnext := M_NEXT h in
       let* s := get in
       do* (if negb (mhnext =? heaptop s) then malloc_trymerge h mhnext else ret tt) in
       if negb (h =? heapbase s) then
         let* mhprev := M_PREV h in
         malloc_trymerge mhprev h
       else ret tt) s'.
Proof.
  intros [E Hl] h Hx. pose proof (layout_at _ _ _ _ E Hl) as Hb. fold h in Hb. cbn [fst snd] in Hb.
  pose proof (layout_next _ _ _ _ _ E Hl) as Hnext. fold h in Hnext.
  pose proof (env_base s E). pose proof (env_range s E).
  destruct Hb as [Hh Hp Hs Hmin Hlo Hhi Hal _]. pose proof Hh as [Hw1 Hw2].
  destruct (set_inuse_ok s s (ld s) h n true false) as (s1 & R1 & B1);
    [by apply becomes_refl|done|lia|done|done|done|].
  assert (Hh1 : hdr (ld s1) h (last_size 0 bl1) n false).
  { split; rewrite (b_mem _ _ _ B1); mem. }
  destruct (deadbeef_ok s s1 _ (h + 8) (n - 8) B1) as (s2 & R2 & B2);
    [lia|lia|divlia|lia|destruct Hs; divlia|].
  destruct (replace_blocks s s2 (dead (upd (ld s) (h + 4) (n + 0 + 2)) (h + 8) (n - 8))
    bl1 [(n, true)] [(n, false)] bl2 n) as (B' & Hl' & Hk); [cbn; lia|done|exact Hl|exact B2|..].
  { fold h. intros x Hx'. rewrite dead_out by lia. mem. }
  { fold h. cbn. split_and!; [split; rewrite dead_out by lia; mem|lia|apply Hs|lia]. }
  { done. }
  { fold h. intros Ht. destruct Hnext as [[_ ?]|(n2 & u2 & bl3 & _ & [[Hw _] _ _ _ _ _ _ _])]; [done|].
    rewrite dead_out by lia. mem. }
  exists s2. split; [split; [apply B'|by rewrite (b_base _ _ _ B'), (b_top _ _ _ B')]|].
  split; [apply B'|]. split; [apply B'|]. split; [done|].
  unfold free. rewrite (proj2 (Z.eqb_neq _ 0)), bind_get by lia.
  rewrite (proj2 (Z.eqb_neq (heapbase s) 0)), (proj2 (Z.eqb_neq (heaptop s) 0)),
    (proj2 (Z.ltb_ge (heaptop s) (heapbase s))) by lia. cbn [orb].
  rewrite (proj2 (Z.ltb_ge (h + 8) _)), (proj2 (Z.leb_gt (heaptop s) _)) by lia. cbn [orb].
  cbv zeta. replace (w32 (h + 8 - MBLOCKSIZE)) with h
    by (unfold MBLOCKSIZE; rewrite w32_id; unfold is_u32, two32; lia).
  rewrite (bind_ok _ _ _ _ _ (M_OK_ok _ _ _ _ _ Hp Hs Hh)). cbn [negb].
  rewrite (bind_ok _ _ _ _ _ (mh_inuse_ok _ _ _ _ _ Hs Hh)). cbn [Z.eqb].
  rewrite (bind_ok _ _ _ _ _ R1), (bind_ok _ _ _ _ _ (M_SIZE_ok _ _ _ _ _ Hs Hmin Hh1)).
  rewrite (M_DATA_ok s) by (done || lia). by rewrite (bind_ok _ _ _ _ _ R2).
Qed.

(** Merging upwards, unless the block is the last one. *)
Lemma free_up s bl1 n bl2 :
  heap_is s (bl1 ++ [(n, false)] ++ bl2) ->
  let h := heapbase s + total bl1 in
  exists s', heap_is s' (bl1 ++ [((merge_up n bl2).1, false)] ++ (merge_up n bl2).2) /\
    heapbase s' = heapbase s /\ heaptop s' = heaptop s /\
    data_kept s s' (used (heapbase s) bl1 ++ used (h + n) bl2) /\
    forall A (k : Z -> Z -> M (uheap P) A),
      (let* mhnext := M_NEXT h in
       let* s := get in
       do* (if negb (mhnext =? heaptop s) then malloc_trymerge h mhnext else ret tt) in
       k (heapbase s) (heaptop s)) s = k (heapbase s) (heaptop s) s'.
Proof.
  intros Hi h. pose proof Hi as [E Hl]. pose proof (layout_at _ _ _ _ E Hl) as Hb.
  pose proof (layout_next _ _ _ _ _ E Hl) as Hnext. fold h in Hb, Hnext. cbn [fst snd] in Hb.
  destruct Hb as [Hh Hp Hs Hmin Hlo Hhi Hal _].
  pose proof (env_base s E). pose proof (env_range s E).
  assert (Hrun := M_NEXT_ok s h (last_size 0 bl1) n false Hs ltac:(lia) ltac:(unfold two32; lia) Hh).
  destruct Hnext as [[-> Ht]|(n2 & u2 & bl3 & -> & Hb2)].
  - exists s. do 3 (split; [done|]). split; [done|]. intros A k.
    rewrite (bind_ok _ _ _ _ _ Hrun), bind_get, Ht, Z.eqb_refl. cbn [negb]. by rewrite bind_ret.
  - destruct (trymerge_ok s bl1 (n, false) (n2, u2) bl3) as (s' & R & Eb & Et & Hi' & Hk & _); [done|].
    fold h in R, Hk. cbn [fst snd] in *. exists s'. split; [|split_and!; [done|done| |]].
    + unfold merge2 in Hi'. destruct u2; done.
    + destruct u2.
      *
        pose proof (trymerge_blocked s bl1 (n, false) (n2, true) bl3 Hi eq_refl) as R'.
        cbn [fst] in R'. fold h in R'. rewrite R in R'. injection R' as ->. done.
      * replace (used (h + n) ((n2, false) :: bl3)) with (used (h + (n + n2)) bl3)
          by (cbn; by rewrite Z.add_assoc).
        apply (kept_used s s' bl1 [(n, false); (n2, false)] bl3); [done|cbn; lia|done].
    + intros A k. destruct Hb2 as [_ _ _ ? _ ? _ _].
      rewrite (bind_ok _ _ _ _ _ Hrun), bind_get, (proj2 (Z.eqb_neq _ _)) by lia. cbn [negb].
      by rewrite (bind_ok _ _ _ _ _ R).
Qed.

(** What is left of the header of a freed block: wiped, or a free block's. *)
Definition stale s (h : Z) : Prop :=
  ld s h = Some 3735928559 \/ exists prev n, blk_at s h prev n false.

(** Merging downwards, unless the block is the first one. *)
Lemma free_down s bl1 n r :
  heap_is s (bl1 ++ [(n, false)] ++ r) ->
  let h := heapbase s + total bl1 in
  exists s', (if negb (h =? heapbase s) then
                let* mhprev := M_PREV h in malloc_trymerge mhprev h
              else ret tt) s = Ret (tt, s') /\
    heapbase s' = heapbase s /\ heaptop s' = heaptop s /\
    heap_is s' (match rev bl1 with
                | [] => (n, false) :: r
                | b :: l => rev l ++ merge2 b (n, false) ++ r
                end) /\
    data_kept s s' (used (heapbase s) bl1 ++ used (h + n) r) /\ stale s' h.
Proof.
  intros Hi h. pose proof Hi as [E Hl]. pose proof (layout_at _ _ _ _ E Hl) as Hb.
  fold h in Hb. cbn [fst snd] in Hb.
  destruct bl1 as [|b bl0 _] using rev_ind.
  - exists s. replace (h =? heapbase s) with true by (symmetry; apply Z.eqb_eq; cbn in h; lia).
    split_and!; try done. right. eauto.
  - rewrite rev_unit, rev_involutive. rewrite <- app_assoc in Hi, Hl.
    assert (Hhb : h = heapbase s + total bl0 + b.1) by (subst h; rewrite total_app; cbn; lia).
    pose proof (layout_at _ _ _ _ E Hl) as [_ _ _ Hmin0 Hlo0 _ _ _].
    pose proof Hb as [Hh Hp Hs Hmin Hlo Hhi Hal Hbe].
    rewrite last_size_app in Hh, Hp, Hbe. cbn [last_size] in Hh, Hp, Hbe.
    pose proof (env_base s E). pose proof (env_range s E).
    rewrite (proj2 (Z.eqb_neq _ _)) by lia. cbn [negb].
    rewrite (bind_ok _ _ _ _ _ (M_PREV_ok s h b.1 n false Hp ltac:(lia) ltac:(unfold two32; lia) Hh)).
    destruct (trymerge_ok s bl0 b (n, false) r) as (s' & R & Eb & Et & Hi' & Hk & Hw); [done|].
    rewrite <- Hhb in R, Hw. replace (h - b.1) with (heapbase s + total bl0) by lia.
    exists s'. split; [done|]. split_and!; try done.
    + destruct b.2 eqn:Eb2.
      * pose proof (trymerge_blocked s bl0 b (n, false) r Hi) as R'.
        rewrite <- Hhb, R, Eb2 in R'. specialize (R' eq_refl). injection R' as ->. done.
      * pose proof (kept_used s s' bl0 [b; (n, false)] r _ Hi eq_refl) as Hku.
        cbn [total fst] in Hku. rewrite Z.add_0_r in Hku. specialize (Hku Hk).
        rewrite used_app. cbn. rewrite Eb2. cbn [app]. rewrite app_nil_r.
        by replace (h + n) with (heapbase s + total bl0 + (b.1 + n)) by lia.
    + unfold stale. destruct b.2 eqn:Eb2; cbn [snd orb] in Hw; [right|by left].
      exists b.1, n. unfold merge2 in Hi'. rewrite Eb2 in Hi'. cbn [orb] in Hi'.
      destruct Hi' as [E' Hl'].
      pose proof (layout_at s' (bl0 ++ [b]) (n, false) r E') as Hb'.
      rewrite <- app_assoc in Hb'. specialize (Hb' Hl').
      rewrite Eb, last_size_app in Hb'. exact Hb'.
Qed.

(** [free] of a block in use, below the top of the heap. *)
Lemma free_ok s bl1 n bl2 :
  heap_is s (bl1 ++ [(n, true)] ++ bl2) ->
  let h := heapbase s + total bl1 in
  h + 8 < heaptop s ->
  exists s', free (h + 8) s = Ret (tt, s') /\ heapbase s' = heapbase s /\
    heaptop s' = heaptop s /\ heap_is s' (free_blocks bl1 n bl2) /\
    data_kept s s' (used (heapbase s) (free_blocks bl1 n bl2)) /\ stale s' h.
Proof.
  intros Hi h Hx. destruct (free_mark _ _ _ _ Hi Hx) as (s1 & Hi1 & Eb1 & Et1 & Hk1 & R1).
  fold h in R1, Hk1. rewrite R1.
  destruct (free_up _ _ _ _ Hi1) as (s2 & Hi2 & Eb2 & Et2 & Hk2 & R2).
  rewrite Eb1 in R2, Hk2, Eb2. fold h in R2, Hk2.
  rewrite (R2 unit (fun hb _ => if negb (h =? hb) then let* p := M_PREV h in malloc_trymerge p h
                                else ret tt)).
  destruct (free_down _ _ _ _ Hi2) as (s3 & R3 & Eb3 & Et3 & Hi3 & Hk3 & Hst).
  rewrite Eb2 in R3, Hk3, Eb3, Hst. fold h in R3, Hk3, Hst.
  exists s3. split; [done|]. split; [done|]. split; [congruence|].
  rewrite used_free_blocks. fold h. unfold free_blocks.
  pose proof (merge_up_used h n bl2) as Hu.
  destruct (merge_up n bl2) as [n' r]. cbn [fst snd] in *.
  split; [done|]. split; [|done].
  apply (data_kept_trans s s1); [by apply (kept_used s s1 bl1 [(n, true)] bl2 n Hi); [cbn; lia|]|].
  apply (data_kept_trans s1 s2); [done|]. by rewrite <- Hu.
Qed.

(** *** Programs that use the allocator *)

Inductive uop :=
| UMalloc (size : Z)
| UFree (p : Z)
| UStore (p i v : Z)
| ULoad (p i : Z).

Definition exec_op (o : uop) : M (uheap P) Z :=
  match o with
  | UMalloc size => malloc size
  | UFree p => do* free p in ret 0
  | UStore p i v => do* wrw (p + 4 * i) v in ret 0
  | ULoad p i => rdw (p + 4 * i)
  end.

(** What a program knows: the blocks it holds with the size it asked for, and
    the words it has written to them. *)
Record client := mkClient { live : gmap Z Z; data : gmap Z Z }.

(** A program passes [free] and accesses only what it holds. *)
Definition legal (c : client) (o : uop) : Prop :=
  match o with
  | UMalloc size => 0 < size <= max_request
  | UFree p => is_Some (live c !! p)
  | UStore p i v => exists n, live c !! p = Some n /\ 0 <= i /\ 4 * i + 4 <= n /\ is_u32 v
  | ULoad p i => exists n, live c !! p = Some n /\ 0 <= i /\ 4 * i + 4 <= n
  end.

Definition client_next (c : client) (o : uop) (r : Z) : client :=
  match o with
  | UMalloc size => if r =? 0 then c else mkClient (<[r := size]> (live c)) (data c)
  | UFree p =>
      let n := default 0 (live c !! p) in
      mkClient (delete p (live c))
               (filter (fun '(a, _) => a < p \/ p + n < a + 4) (data c))
  | UStore p i v => mkClient (live c) (<[p + 4 * i := v]> (data c))
  | ULoad _ _ => c
  end.

(** The runs of a legal program from [s0]. *)
Inductive runs (s0 : uheap P) : uheap P -> client -> Prop :=
| runs_start : runs s0 s0 (mkClient ∅ ∅)
| runs_step s c o r s' :
    runs s0 s c -> legal c o -> exec_op o s = Ret (r, s') ->
    runs s0 s' (client_next c o r).

(** What the program may expect of an answer. *)
Definition answer_ok s s' (c : client) (o : uop) (r : Z) : Prop :=
  match o with
  | UMalloc size =>
      (r = 0 /\ exists n, (sbrk (proc s) n).1 = 4294967295) \/
      (r mod 8 = 0 /\ heap_start (proc s) <= r /\ r + size <= brk (proc s') /\
       forall p n, live c !! p = Some n -> r + size <= p \/ p + n <= r)
  | ULoad p i => forall v, data c !! (p + 4 * i) = Some v -> r = v
  | _ => True
  end.

Record serves s (c : client) (bl : list block) : Prop := {
  sv_heap : heap_is s bl \/ fresh_heap s /\ bl = [];
  sv_merged : merged true bl = true;
  sv_live : forall p n, live c !! p = Some n ->
    exists m, (p, m) ∈ used (heapbase s) bl /\ 0 < n <= m;
  sv_data : forall a v, data c !! a = Some v ->
    ld s a = Some v /\ exists p n, live c !! p = Some n /\ p <= a /\ a + 4 <= p + n
}.

Lemma carve_total n size : total (carve n size) = n.
Proof. unfold carve. destruct (_ <? _); cbn; lia. Qed.

Lemma carve_used a n size :
  size <= n - 8 -> exists m, used a (carve n size) = [(a + 8, m)] /\ size <= m.
Proof.
  intros H. unfold carve. destruct (Z.ltb_spec (n - 8 - size) 16); cbn; eexists; (split; [done|lia]).
Qed.

Lemma carve_merged bl1 n size bl2 :
  merged true (bl1 ++ [(n, false)] ++ bl2) = true ->
  merged true (bl1 ++ carve n size ++ bl2) = true.
Proof.
  rewrite !merged_app. cbn. rewrite !andb_true_iff. intros (H1 & _ & H2). split; [done|].
  unfold carve. destruct (_ <? _); cbn; rewrite orb_true_r; [by rewrite merged_mono|done].
Qed.

Lemma merged_snoc bl n : merged true bl = true -> merged true (bl ++ [(n, true)]) = true.
Proof. rewrite merged_app. intros ->. cbn. by rewrite orb_true_r. Qed.

(** [malloc] as the blocks in use see it. *)
Lemma malloc_used s bl size :
  heap_is s bl -> merged true bl = true -> 0 <= size <= max_request ->
  exists r s' bl', malloc size s = Ret (r, s') /\ heapbase s' = heapbase s /\
    heap_is s' bl' /\ merged true bl' = true /\
    ((r = 0 /\ s' = s /\ bl' = bl /\ exists n, (sbrk (proc s) n).1 = 4294967295) \/
     (exists m, used (heapbase s) bl' ≡ₚ (r, m) :: used (heapbase s) bl /\ size <= m /\
        data_kept s s' (used (heapbase s) bl))).
Proof.
  intros Hh Hm Hsz. destruct (malloc_ok s bl size Hh Hsz) as (r & s' & R & Eb & Hcase).
  destruct (rounded_ok _ Hsz) as (_ & _ & Hge & _).
  exists r, s'. destruct (first_fit (rounded size) bl) as [[[x n] y]|] eqn:Ef.
  - destruct Hcase as (-> & Hh' & Hk). destruct (first_fit_Some _ _ _ _ _ Ef) as (-> & Hfit & _).
    eexists. split; [done|]. split; [done|]. split; [exact Hh'|].
    split; [by apply carve_merged|]. right.
    destruct (carve_used (heapbase s + total x) n (rounded size) Hfit) as (m & Hu & Hm').
    exists m. split; [|split; [lia|]].
    + rewrite !used_app, carve_total, Hu. cbn. rewrite Z.add_0_r. symmetry. apply Permutation_middle.
    + pose proof (kept_used s s' x [(n, false)] y n Hh ltac:(cbn; lia) Hk) as Hd.
      rewrite !used_app. cbn. by rewrite Z.add_0_r.
  - destruct Hcase as [(-> & -> & Hf)|(-> & Hh' & Hk)].
    + exists bl. split; [done|]. split; [done|]. split; [done|]. split; [done|]. left. eauto.
    + eexists. split; [done|]. split; [done|]. split; [exact Hh'|].
      split; [by apply merged_snoc|]. right. exists (rounded size).
      destruct Hh as [E Hl]. pose proof (layout_top _ _ _ _ _ Hl) as Ht.
      split; [|split; [lia|]].
      * rewrite used_app, <- Ht. cbn. rewrite (Permutation_app_comm _ [_]). cbn.
        by replace (rounded size + 8 - 8) with (rounded size) by lia.
      * intros p m z Hp Hz1 Hz2. apply Hk. destruct (used_range _ _ _ _ _ _ _ Hl Hp). lia.
Qed.

(** [free] as the blocks in use see it. *)
Lemma free_used s bl p m :
  heap_is s bl -> merged true bl = true -> (p, m) ∈ used (heapbase s) bl -> 0 < m ->
  exists s' bl', free p s = Ret (tt, s') /\ heapbase s' = heapbase s /\
    heap_is s' bl' /\ merged true bl' = true /\
    used (heapbase s) bl ≡ₚ (p, m) :: used (heapbase s) bl' /\
    data_kept s s' (used (heapbase s) bl') /\ stale s' (p - 8) /\ heaptop s' = heaptop s.
Proof.
  intros Hh Hmg Hp Hm.
  assert (Hs : forall a bl, (p, m) ∈ used a bl -> exists bl1 bl2,
    bl = bl1 ++ [(m + 8, true)] ++ bl2 /\ p = a + total bl1 + 8).
  { clear. intros a bl. revert a. induction bl as [|[n u] bl IH]; cbn; intros a Hp.
    { by apply not_elem_of_nil in Hp. }
    apply elem_of_app in Hp as [Hp|Hp].
    - destruct u; [|by apply not_elem_of_nil in Hp].
      apply list_elem_of_singleton in Hp as [= -> ->]. exists [], bl.
      split; [cbn; do 2 f_equal; lia|cbn; lia].
    - destruct (IH _ Hp) as (bl1 & bl2 & -> & ->). exists ((n, u) :: bl1), bl2.
      split; [done|cbn; lia]. }
  destruct (Hs _ _ Hp) as (bl1 & bl2 & -> & ->). clear Hs.
  destruct (free_ok s bl1 (m + 8) bl2 Hh) as (s' & R & Eb & Et & Hi & Hd & Hst).
  { destruct Hh as [E Hl]. apply layout_at in Hl; [|done]. destruct Hl as [_ _ _ _ _ Hhi _ _].
    cbn [fst] in Hhi. lia. }
  exists s', (free_blocks bl1 (m + 8) bl2).
  replace (heapbase s + total bl1 + 8 - 8) with (heapbase s + total bl1) by lia.
  split_and!; try done; [by apply free_blocks_merged|].
  rewrite used_free_blocks, !used_app. cbn. rewrite Z.add_0_r.
  replace (m + 8 - 8) with m by lia. symmetry. apply Permutation_middle.
Qed.

Lemma perm_two {A} (l l' : list A) x y :
  l' ≡ₚ x :: l -> y ∈ l -> exists i j, i <> j /\ l' !! i = Some x /\ l' !! j = Some y.
Proof.
  intros Hp Hy. assert (Hx : x ∈ l') by (rewrite Hp; left).
  apply list_elem_of_split in Hx as (l1 & l2 & ->).
  rewrite <- Permutation_middle in Hp. apply Permutation_cons_inv in Hp. rewrite <- Hp in Hy.
  exists (length l1). apply elem_of_app in Hy as [Hy|Hy];
    apply list_elem_of_lookup in Hy as [j Hj].
  - exists j. pose proof (lookup_lt_Some _ _ _ Hj). split; [lia|].
    rewrite list_lookup_middle, lookup_app_l by done. done.
  - exists (S (length l1 + j)). split; [lia|]. rewrite list_lookup_middle by done.
    split; [done|]. rewrite lookup_app_r by lia.
    by replace (S (length l1 + j) - length l1)%nat with (S j) by lia.
Qed.

(** A new block and the older ones do not overlap. *)
Lemma used_apart s bl r m l p k :
  heap_is s bl -> used (heapbase s) bl ≡ₚ (r, m) :: l -> (p, k) ∈ l ->
  r + m + 8 <= p \/ p + k + 8 <= r.
Proof.
  intros [E Hl] Hp Hin. destruct (perm_two _ _ _ _ Hp Hin) as (i & j & Hij & Hi & Hj).
  destruct (decide (i < j)%nat).
  - left. by eapply used_disjoint.
  - right. eapply used_disjoint; [done..|lia].
Qed.

Lemma serves_init s c bl :
  serves s c bl -> exists s1, heap_is s1 bl /\ serves s1 c bl /\ proc s1 = proc s /\
    (forall size, malloc size s = malloc size s1).
Proof.
  intros Hsv. pose proof Hsv as [[Hh|[Hf ->]] Hm Hl Hd]; [by exists s|].
  exists (initialized s). pose proof (initialized_heap s Hf) as Hi.
  split; [done|]. split; [|split; [done|]; intros; by apply malloc_fresh].
  split; [by left|done| |done].
  intros p n Hp. destruct (Hl p n Hp) as (m & Hin & _). by apply not_elem_of_nil in Hin.
Qed.

(** A block the program holds belongs to an initialised heap. *)
Lemma serves_live s c bl p n :
  serves s c bl -> live c !! p = Some n ->
  heap_is s bl /\ exists m, (p, m) ∈ used (heapbase s) bl /\ 0 < n <= m.
Proof.
  intros [[Hh|[Hf ->]] Hm Hl Hd] Hp; destruct (Hl p n Hp) as (m & Hin & ?); [eauto|].
  by apply not_elem_of_nil in Hin.
Qed.

Lemma serves_malloc s c bl size :
  serves s c bl -> 0 < size <= max_request ->
  exists r s' bl', malloc size s = Ret (r, s') /\
    serves s' (client_next c (UMalloc size) r) bl' /\ answer_ok s s' c (UMalloc size) r.
Proof.
  intros Hsv Hsz. destruct (serves_init s c bl Hsv) as (s1 & Hh & Hsv1 & Hpr & Heq). rewrite Heq.
  clear Heq Hsv. destruct Hsv1 as [_ Hm Hl Hd].
  destruct (malloc_used s1 bl size Hh Hm ltac:(lia)) as (r & s' & bl' & R & Eb & Hh' & Hm' & Hc).
  exists r, s', bl'. split; [done|]. cbn [client_next answer_ok].
  destruct Hc as [(-> & -> & -> & Hf)|(m & Hu & Hsm & Hk)].
  - split; [|left; split; [done|]; by rewrite <- Hpr]. split; [by left|done|done|done].
  - rewrite <- Eb in Hu.
    assert (Hin : (r, m) ∈ used (heapbase s') bl') by (rewrite Hu; left).
    pose proof Hh' as [E' Hl']. pose proof (env_base s' E').
    destruct (used_range _ _ _ _ _ _ _ Hl' Hin) as (Hr1 & Hr2 & _).
    rewrite (proj2 (Z.eqb_neq r 0)) by lia.
    assert (Hap : forall p n, live c !! p = Some n -> r + size <= p /\ p <> r \/ p + n <= r /\ p <> r).
    { intros p n Hp. destruct (Hl p n Hp) as (k & Hin' & ?). rewrite <- Eb in Hin'.
      destruct (used_apart _ _ _ _ _ _ _ Hh' Hu Hin'); lia. }
    split; [split; cbn|right; split_and!].
    + by left.
    + done.
    + intros p n Hp. destruct (decide (p = r)) as [->|Hne].
      * rewrite lookup_insert_eq in Hp. injection Hp as <-. exists m. split; [done|lia].
      * rewrite lookup_insert_ne in Hp by done. destruct (Hl p n Hp) as (k & Hin' & ?).
        exists k. split; [rewrite Hu, Eb; by right|done].
    + intros a v Ha. destruct (Hd a v Ha) as (Hv & p & n & Hp & Ha1 & Ha2).
      destruct (Hl p n Hp) as (k & Hin' & ?). split.
      * rewrite (Hk p k); [done|done|lia|lia].
      * exists p, n. split; [|done]. rewrite lookup_insert_ne; [done|].
        destruct (Hap p n Hp); intros ->; lia.
    + by apply (used_aligned _ _ _ _ _ _ _ (env_align s' E') Hl' Hin).
    + rewrite <- Hpr. destruct Hh as [E1 _]. pose proof (env_start s1 E1). rewrite Eb in *. lia.
    + rewrite <- (env_top s' E'). lia.
    + intros p n Hp. destruct (Hap p n Hp); lia.
Qed.

Lemma serves_free s c bl p n :
  serves s c bl -> live c !! p = Some n ->
  exists s' bl', free p s = Ret (tt, s') /\ serves s' (client_next c (UFree p) 0) bl'.
Proof.
  intros Hsv Hp. destruct (serves_live _ _ _ _ _ Hsv Hp) as (Hh & m & Hin & Hnm).
  destruct Hsv as [_ Hm Hl Hd].
  destruct (free_used s bl p m Hh Hm Hin ltac:(lia)) as (s' & bl' & R & Eb & Hh' & Hm' & Hu & Hk & _).
  exists s', bl'. split; [done|]. cbn [client_next]. rewrite Hp. cbn [default from_option id].
  assert (Hstay : forall q k, q <> p -> live c !! q = Some k ->
    exists j, (q, j) ∈ used (heapbase s) bl' /\ 0 < k <= j).
  { intros q k Hq Hlq. destruct (Hl q k Hlq) as (j & Hj & ?). rewrite Hu in Hj.
    apply elem_of_cons in Hj as [[= -> ->]|Hj]; [done|eauto]. }
  split; cbn; [by left|done| |].
  - intros q k Hq. apply lookup_delete_Some in Hq as [Hne Hq]. rewrite Eb. by apply Hstay.
  - intros a v Ha. apply map_lookup_filter_Some in Ha as [Ha Hout].
    destruct (Hd a v Ha) as (Hv & q & k & Hq & Ha1 & Ha2).
    assert (q <> p) by (intros ->; rewrite Hp in Hq; injection Hq as <-; lia).
    destruct (Hstay q k) as (j & Hj & ?); [done|done|]. split.
    + rewrite (Hk q j); [done|done|lia|lia].
    + exists q, k. by rewrite lookup_delete_ne.
Qed.

(** Writing to the data of a block leaves the headers alone. *)
Lemma layout_store f f' a prev bl top p m z v :
  layout f a prev bl top -> (p, m) ∈ used a bl -> p <= z -> z + 4 <= p + m ->
  (forall x, f' x = upd f z v x) -> layout f' a prev bl top.
Proof.
  intros Hl Hp Hz1 Hz2 Hf. revert a prev Hl Hp.
  induction bl as [|b bl IH]; intros a prev Hl Hp; [done|]. cbn in Hl, Hp.
  destruct Hl as ([Hw1 Hw2] & Hmin & Hmod & Hl).
  assert (Hza : a + 8 <= z).
  { apply elem_of_app in Hp as [Hp|Hp].
    - destruct b.2; [|by apply not_elem_of_nil in Hp].
      apply list_elem_of_singleton in Hp as [= -> ->]. lia.
    - destruct (used_range _ _ _ _ _ _ _ Hl Hp). lia. }
  cbn. split_and!; [split; rewrite Hf; mem|done|done|].
  apply elem_of_app in Hp as [Hp|Hp]; [|by apply IH].
  destruct b.2; [|by apply not_elem_of_nil in Hp].
  apply list_elem_of_singleton in Hp as [= -> ->].
  eapply layout_frame; [|done]. intros x Hx _. rewrite Hf. mem.
Qed.

Lemma live_word s c bl p n i :
  serves s c bl -> live c !! p = Some n -> 0 <= i -> 4 * i + 4 <= n ->
  heap_is s bl /\ heapbase s <= p + 4 * i /\ p + 4 * i + 4 <= heaptop s /\
  (p + 4 * i) mod 4 = 0 /\ exists m, (p, m) ∈ used (heapbase s) bl /\ n <= m.
Proof.
  intros Hsv Hp H0 Hi. destruct (serves_live _ _ _ _ _ Hsv Hp) as (Hh & m & Hin & Hnm).
  pose proof Hh as [E Hl]. destruct (used_range _ _ _ _ _ _ _ Hl Hin) as (? & ? & _).
  destruct (used_aligned _ _ _ _ _ _ _ (env_align s E) Hl Hin) as [? _].
  split_and!; [done|lia|lia|divlia|]. exists m. split; [done|lia].
Qed.

Lemma serves_store s c bl p n i v :
  serves s c bl -> live c !! p = Some n -> 0 <= i -> 4 * i + 4 <= n -> is_u32 v ->
  exists s', wrw (p + 4 * i) v s = Ret (tt, s') /\
    serves s' (client_next c (UStore p i v) 0) bl.
Proof.
  intros Hsv Hp H0 Hi Hv.
  destruct (live_word _ _ _ _ _ _ Hsv Hp H0 Hi) as (Hh & Ha1 & Ha2 & Ha3 & m & Hin & Hnm).
  pose proof Hh as [E Hl]. destruct Hsv as [_ Hm Hlv Hd].
  destruct (wrw_ok s (p + 4 * i) v (ld s)) as (s' & R & B); [done..|].
  exists s'. split; [done|]. cbn. split; cbn.
  - left. split; [apply B|]. rewrite (b_base _ _ _ B), (b_top _ _ _ B).
    eapply layout_store; [exact Hl|exact Hin| | |apply (b_mem _ _ _ B)]; lia.
  - done.
  - by rewrite (b_base _ _ _ B).
  - intros a w Ha. rewrite (b_mem _ _ _ B). destruct (decide (a = p + 4 * i)) as [->|Hne].
    + rewrite lookup_insert_eq in Ha. injection Ha as <-. split; [mem|].
      exists p, n. split; [done|lia].
    + rewrite lookup_insert_ne in Ha by done. destruct (Hd a w Ha) as [Hw Hex].
      split; [mem|done].
Qed.

(** One operation of a legal program. *)
Lemma serves_step s c bl o :
  serves s c bl -> legal c o ->
  exists r s' bl', exec_op o s = Ret (r, s') /\ serves s' (client_next c o r) bl' /\
    answer_ok s s' c o r.
Proof.
  intros Hsv Hleg. destruct o as [size|p|p i v|p i]; cbn [legal exec_op] in *.
  - by apply (serves_malloc _ _ bl).
  - destruct Hleg as [n Hp]. destruct (serves_free _ _ _ _ _ Hsv Hp) as (s' & bl' & R & Hsv').
    exists 0, s', bl'. by rewrite (bind_ok _ _ _ _ _ R).
  - destruct Hleg as (n & Hp & H0 & Hi & Hv).
    destruct (serves_store _ _ _ _ _ _ _ Hsv Hp H0 Hi Hv) as (s' & R & Hsv').
    exists 0, s', bl. by rewrite (bind_ok _ _ _ _ _ R).
  - destruct Hleg as (n & Hp & H0 & Hi).
    destruct (live_word _ _ _ _ _ _ Hsv Hp H0 Hi) as ([E Hl] & Ha1 & Ha2 & Ha3 & _).
    destruct (ld_some s (p + 4 * i) E Ha1 Ha2 Ha3) as (v & Hv & _).
    exists v, s, bl. rewrite (rdw_ok _ _ _ Hv). split; [done|]. split; [done|].
    intros w Hw. destruct Hsv as [_ _ _ Hd]. destruct (Hd _ _ Hw) as [Hw' _]. congruence.
Qed.

Lemma runs_serves s0 s c :
  fresh_heap s0 -> runs s0 s c -> exists bl, serves s c bl.
Proof.
  intros Hf Hr. induction Hr as [|s c o r s' Hr IH Hleg R].
  - exists []. split; [by right|done|..]; intros ? ? Hx; cbn in Hx; by rewrite lookup_empty in Hx.
  - destruct IH as [bl Hsv]. destruct (serves_step _ _ _ _ Hsv Hleg) as (r1 & s1 & bl' & R1 & Hsv' & _).
    rewrite R in R1. injection R1 as <- <-. eauto.
Qed.


(** C15. The heap is always a run of blocks from its base to its top whose
    boundary tags agree, with no two free neighbours.  On it, [malloc] takes
    the first free block that is large enough, splitting off the rest when it
    can hold a block of its own, and grows the heap only when no block is
    large enough; [free] marks the block and merges it with the free blocks
    next to it (a block without data at the very top is rejected, see
    [free_malloc_zero_exits]). *)
Theorem umalloc_refines_blocks s0 s c :
  fresh_heap s0 -> runs s0 s c -> heapbase s <> 0 ->
  exists bl, heap_is s bl /\ merged true bl = true /\
  (forall size, 0 <= size <= max_request ->
    exists r s', malloc size s = Ret (r, s') /\
    match first_fit (rounded size) bl with
    | Some (x, n, y) =>
        r = heapbase s + total x + 8 /\ heap_is s' (x ++ carve n (rounded size) ++ y)
    | None =>
        (r = 0 /\ s' = s) \/
        (r = heaptop s + 8 /\ heap_is s' (bl ++ [(rounded size + 8, true)]))
    end) /\
  (forall bl1 n bl2, bl = bl1 ++ [(n, true)] ++ bl2 ->
    heapbase s + total bl1 + 8 < heaptop s ->
    exists s', free (heapbase s + total bl1 + 8) s = Ret (tt, s') /\
      heap_is s' (free_blocks bl1 n bl2)).
Proof.
  intros Hf Hr Hb. destruct (runs_serves _ _ _ Hf Hr) as [bl [[Hh|[(_ & ? & _) _]] Hm _ _]]; [|done].
  exists bl. split; [done|]. split; [done|]. split.
  - intros size Hsz. destruct (malloc_ok s bl size Hh Hsz) as (r & s' & R & _ & Hc).
    exists r, s'. split; [done|]. destruct (first_fit _ bl) as [[[x n] y]|]; [tauto|].
    destruct Hc as [(-> & -> & _)|(-> & Hh' & _)]; auto.
  - intros bl1 n bl2 -> Hx. destruct (free_ok s bl1 n bl2 Hh Hx) as (s' & R & _ & _ & Hh' & _).
    eauto.
Qed.

(** Freeing a block twice is detected: the second [free] exits the
    program. *)
Theorem double_free_exits s0 s c p n s' :
  fresh_heap s0 -> runs s0 s c -> live c !! p = Some n -> free p s = Ret (tt, s') ->
  free p s' = Panic.
Proof.
  intros Hf Hr Hp R. destruct (runs_serves _ _ _ Hf Hr) as [bl Hsv].
  destruct (serves_live _ _ _ _ _ Hsv Hp) as (Hh & m & Hin & Hnm).
  destruct (free_used s bl p m Hh (sv_merged _ _ _ Hsv) Hin ltac:(lia))
    as (s1 & bl' & R1 & Eb & [E' _] & _ & _ & _ & Hst & Et).
  rewrite R in R1. injection R1 as <-.
  pose proof Hh as [E Hl]. destruct (used_range _ _ _ _ _ _ _ Hl Hin) as (? & ? & _).
  pose proof (env_base s E). pose proof (env_range s E).
  unfold free. rewrite (proj2 (Z.eqb_neq p 0)), bind_get by lia.
  rewrite (proj2 (Z.eqb_neq (heapbase s') 0)), (proj2 (Z.eqb_neq (heaptop s') 0)),
    (proj2 (Z.ltb_ge (heaptop s') (heapbase s'))) by lia. cbn [orb].
  rewrite (proj2 (Z.ltb_ge p _)), (proj2 (Z.leb_gt (heaptop s') _)) by lia. cbn [orb].
  cbv zeta. unfold MBLOCKSIZE. rewrite (w32_id (p - 8)) by (unfold is_u32, two32; lia).
  destruct Hst as [Hw|(prev & k & [Hh2 Hp2 Hs2 _ _ _ _ _])].
  - unfold M_OK, mh_magic1. by rewrite !bind_bind, (bind_ok _ _ _ _ _ (rdw_ok _ _ _ Hw)).
  - rewrite (bind_ok _ _ _ _ _ (M_OK_ok _ _ _ _ _ Hp2 Hs2 Hh2)). cbn [negb].
    by rewrite (bind_ok _ _ _ _ _ (mh_inuse_ok _ _ _ _ _ Hs2 Hh2)).
Qed.

End ops.

(** ** Where the allocator goes wrong *)

Section limits.
Context {P : Type} {PP : Process P} {PO : ProcessOk P}.

(** Requests close to 4 GB wrap round while they are rounded up: [malloc]
    treats them as requests for 0 bytes and hands out a block without data. *)
Theorem malloc_wraps (s : uheap P) size :
  4294967289 <= size < two32 -> malloc size s = malloc 0 s.
Proof.
  intros H. unfold malloc.
  replace (Z.land (w32 (w32 (size + MBLOCKSIZE) - 1)) (two32 - MBLOCKSIZE)) with 0; [done|].
  symmetry. rewrite land_round by apply w32_range. unfold MBLOCKSIZE, two32 in *.
  replace (w32 (size + 8)) with (size + 8 - 4294967296).
  - rewrite w32_id by (unfold is_u32, two32; lia). divlia.
  - unfold w32, two32. divlia.
Qed.

(** [malloc(0)] on an empty heap returns a pointer that [free] rejects as
    out of range: freeing it exits the program. *)
Theorem free_malloc_zero_exits (s s' : uheap P) r :
  fresh_heap s -> malloc 0 s = Ret (r, s') -> r <> 0 -> free r s' = Panic.
Proof.
  intros Hf R Hr. pose proof (initialized_heap s Hf) as Hi.
  rewrite malloc_fresh in R by done.
  destruct (malloc_ok (initialized s) [] 0 Hi) as (r1 & s1 & R1 & Eb & Hc); [unfold max_request; lia|].
  rewrite R in R1. injection R1 as <- <-. cbn in Hc.
  destruct Hc as [(? & _)|(-> & [E Hl] & _)]; [done|].
  cbn in Hl. destruct Hl as (_ & _ & _ & Ht). change (rounded 0 + 8) with 8 in Ht. rewrite Eb in Ht.
  unfold free. rewrite (proj2 (Z.eqb_neq _ 0)), bind_get by done.
  pose proof (env_base s' E). pose proof (env_order s' E). cbn [initialized heaptop heapbase] in *.
  rewrite (proj2 (Z.eqb_neq (heapbase s') 0)), (proj2 (Z.eqb_neq (heaptop s') 0)),
    (proj2 (Z.ltb_ge (heaptop s') (heapbase s'))) by lia. cbn [orb].
  rewrite (proj2 (Z.leb_le (heaptop s') _)), orb_true_r by lia. done.
Qed.

End limits.

(** ** A process *)

(** A process with a flat heap from [rp_start], of which [sbrk] grants
    everything up to [rp_limit]. *)
Record refproc := mkRef {
  rp_start : Z;
  rp_brk : Z;
  rp_limit : Z;
  rp_words : gmap Z Z
}.

Definition rp_access (p : refproc) (a : Z) : bool :=
  (rp_start p <=? a) && (a + 4 <=? rp_brk p) && (a mod 4 =? 0).

#[export] Instance refproc_process : Process refproc := {|
  load p a := if rp_access p a then Some (default 0 (rp_words p !! a)) else None;
  store p a v :=
    if rp_access p a
    then Some (mkRef (rp_start p) (rp_brk p) (rp_limit p) (<[a := v]> (rp_words p)))
    else None;
  sbrk p n :=
    if (rp_start p <=? rp_brk p + n) && (rp_brk p + n <=? rp_limit p)
    then (rp_brk p, mkRef (rp_start p) (rp_brk p + n) (rp_limit p) (rp_words p))
    else (4294967295, p);
  brk := rp_brk;
  heap_start := rp_start
|}.

Definition refproc_ok (p : refproc) : Prop :=
  rp_start p <= rp_brk p <= rp_limit p /\ rp_limit p <= 2147483648 /\
  map_Forall (fun _ v => is_u32 v) (rp_words p).

Lemma rp_access_true p a :
  rp_start p <= a -> a + 4 <= rp_brk p -> a mod 4 = 0 -> rp_access p a = true.
Proof.
  intros H1 H2 H3. unfold rp_access.
  by rewrite (proj2 (Z.leb_le _ _) H1), (proj2 (Z.leb_le _ _) H2), H3.
Qed.

#[export] Instance refproc_process_ok : ProcessOk refproc.
Proof.
  refine {| proc_ok := refproc_ok |}; unfold refproc_ok; cbn.
  - intros p a (_ & _ & Hw) H1 H2 H3. rewrite rp_access_true by done. eexists. split; [done|].
    destruct (rp_words p !! a) eqn:Ea; cbn; [by apply (Hw a)|by unfold is_u32, two32].
  - intros p a v (Hb & Hl & Hw) H1 H2 H3 Hv. rewrite rp_access_true by done.
    eexists. split; [done|]. cbn. split_and!; try done; [lia|lia|by apply map_Forall_insert_2|].
    intros b. unfold rp_access. cbn. destruct (Z.eqb_spec b a) as [->|Hne].
    + fold (rp_access p a). by rewrite rp_access_true, lookup_insert_eq by done.
    + by rewrite lookup_insert_ne by done.
  - intros p (? & ? & _). lia.
  - intros p (? & ? & _). rewrite Z.add_0_r.
    rewrite (proj2 (Z.leb_le _ _)), (proj2 (Z.leb_le _ _)) by lia. by destruct p.
  - intros p n (? & ? & ?).
    destruct (Z.leb_spec (rp_start p) (rp_brk p + n)), (Z.leb_spec (rp_brk p + n) (rp_limit p));
      cbn; auto. right. eexists. split; [done|]. cbn. split_and!; try done; [lia..|].
    intros a H4 H5. unfold rp_access. cbn.
    by rewrite (proj2 (Z.leb_le _ _) H4), (proj2 (Z.leb_le _ _) H5).
Defined.

Definition demo0 : uheap refproc := mkUheap 0 0 (mkRef 65536 65536 131072 ∅).

Lemma demo0_fresh : fresh_heap demo0.
Proof. split_and!; cbn; try done; lia. Qed.

Definition run1 (o : uop) (sc : uheap refproc * client) : uheap refproc * client :=
  match exec_op o sc.1 with
  | Ret (r, s') => (s', client_next sc.2 o r)
  | _ => sc
  end.

(** Three blocks, the second one written and then freed. *)
Definition demo3 : uheap refproc * client :=
  run1 (UFree 65584) (run1 (UStore 65584 2 7) (run1 (UMalloc 100) (run1 (UMalloc 20)
    (run1 (UStore 65544 0 42) (run1 (UMalloc 30) (demo0, mkClient ∅ ∅)))))).

Lemma run1_runs o sc :
  runs demo0 sc.1 sc.2 -> legal sc.2 o -> runs demo0 (run1 o sc).1 (run1 o sc).2.
Proof.
  intros Hr Hl. unfold run1. destruct (exec_op o sc.1) as [[r s']| | |] eqn:E; try done.
  cbn. by eapply runs_step.
Qed.

Lemma demo3_runs : runs demo0 demo3.1 demo3.2.
Proof.
  unfold demo3. repeat apply run1_runs; [constructor|..]; cbn [legal]; try (unfold max_request; lia).
  - eexists. split; [vm_compute; reflexivity|]. unfold is_u32, two32. lia.
  - eexists. split; [vm_compute; reflexivity|]. unfold is_u32, two32. lia.
  - eexists. vm_compute. reflexivity.
Qed.


Lemma umalloc_refines_blocks_witness :
  exists bl, heap_is demo3.1 bl /\ merged true bl = true.
Proof.
  destruct (umalloc_refines_blocks demo0 demo3.1 demo3.2 demo0_fresh demo3_runs)
    as (bl & H1 & H2 & _); [vm_compute; discriminate|eauto].
Defined.

Lemma double_free_exits_witness :
  match free 65544 demo3.1 with Ret (_, s') => free 65544 s' = Panic | _ => False end.
Proof.
  pose proof (fun n s' => double_free_exits demo0 demo3.1 demo3.2 65544 n s'
    demo0_fresh demo3_runs) as H.
  destruct (free 65544 demo3.1) as [[[] s']| | |] eqn:E; [|vm_compute in E; discriminate..].
  apply (H 30); [vm_compute; reflexivity|reflexivity].
Defined.

Lemma malloc_wraps_witness : malloc 4294967295 demo0 = malloc 0 demo0.
Proof. apply (malloc_wraps demo0 4294967295). unfold two32. lia. Defined.

Lemma free_malloc_zero_exits_witness :
  match malloc 0 demo0 with Ret (r, s') => free r s' = Panic | _ => False end.
Proof.
  pose proof (fun r s' => free_malloc_zero_exits demo0 s' r demo0_fresh) as H.
  destruct (malloc 0 demo0) as [[r s']| | |] eqn:E; [|vm_compute in E; discriminate..].
  apply H; [reflexivity|]. vm_compute in E. injection E as <- _. discriminate.
Defined.

(** A request of 2 GB or more is a negative amount for [sbrk]: on a heap
    of 40 bytes, [malloc(0xffffffe0)] does not return [NULL] but moves the
    break down into the live block and writes its header above the break. *)
Theorem malloc_huge_shrinks_heap :
  malloc 4294967264 (run1 (UMalloc 32) (demo0, mkClient ∅ ∅)).1 = Fault.
Proof. vm_compute. reflexivity. Qed.
