(* ===== verification/Sched.v ===== *)
(** Threads, run queues and processors (kern/thread/thread.c, clock.c and the
    interrupt dispatcher of arch/sys161/dev/lamebus_machdep.c).

    The state is what the processors share: for each one its current thread,
    run queue, zombies, idle flag and interprocessor interrupts; the threads
    as structures in the kernel heap; the wait channels.  Code that holds a
    run queue lock is one step, so a step is what a processor does between
    taking and releasing that lock; [c_ctl] says where between two such steps
    it is.  The processors' steps interleave in any order.  A thread that a
    waker has taken off a wait channel is in [hands] until the waker makes it
    runnable, which it may do at any later time.

    Left out are the interrupt levels of a thread, the name of its wait
    channel, the magic words at the bottom of its stack, its saved registers,
    and [as_activate].  Thread lists are sequences, which [ThreadList] shows
    them to implement. *)

From stdpp Require Import base numbers list gmap.
From Stdlib Require Import ZArith Lia.
From S2P Require Import Prelude Heap.
Open Scope Z_scope.

(** ** Data *)

Inductive threadstate := S_RUN | S_READY | S_SLEEP | S_ZOMBIE.

#[global] Instance threadstate_eq_dec : EqDecision threadstate.
Proof. solve_decision. Defined.

(** A thread is named by the address of its structure.  [t_name] is the
    string with its address; a null [t_stack] is the boot stack. *)
Record thread := mkThread {
  t_name : Z * list Z;
  t_state : threadstate;
  t_stack : Z;
  t_cpu : option nat;
  t_proc : option Z
}.

(** Where a processor is between two steps: in its thread's code, in
    [cpu_idle], past it, past the interprocessor interrupt handler, in the
    parts of [thread_consider_migration], before the [thread_yield] of
    [hardclock], or stopped for good. *)
Inductive control :=
| Exec
| Idling
| Idled
| Clearing
| Counting (i my_count total_count : Z)
| Taking (one_share to_send : Z)
| Giving (i one_share to_send : Z) (victims : list Z)
| Putting (victims : list Z)
| Yielding
| Halted.

Definition TLBSHOOTDOWN_MAX : Z := 16.
Definition TLBSHOOTDOWN_ALL : Z := -1.
Definition IPI_PANIC : Z := 0.
Definition IPI_OFFLINE : Z := 1.
Definition IPI_UNIDLE : Z := 2.
Definition IPI_TLBSHOOTDOWN : Z := 3.
Definition STACK_SIZE : Z := 4096.
Definition SCHEDULE_HARDCLOCKS : Z := 4.
Definition MIGRATE_HARDCLOCKS : Z := 16.
(** The sizes of the two structures; the proofs only use that they are legal
    requests. *)
Definition sizeof_thread : Z := 64.
Definition sizeof_cpu : Z := 256.
Definition kproc : Z := 0.

(** [c_ipi_line] is the processor's interprocessor interrupt line. *)
Record cpu := mkCpu {
  c_self : Z;
  c_curthread : Z;
  c_zombies : list Z;
  c_hardclocks : Z;
  c_isidle : bool;
  c_runqueue : list Z;
  c_ipi_pending : Z;
  c_shootdown : list Z;
  c_numshootdown : Z;
  c_ipi_line : bool;
  c_ctl : control
}.

Definition set_curthread v c := mkCpu (c_self c) v (c_zombies c) (c_hardclocks c) (c_isidle c) (c_runqueue c) (c_ipi_pending c) (c_shootdown c) (c_numshootdown c) (c_ipi_line c) (c_ctl c).
Definition set_zombies v c := mkCpu (c_self c) (c_curthread c) v (c_hardclocks c) (c_isidle c) (c_runqueue c) (c_ipi_pending c) (c_shootdown c) (c_numshootdown c) (c_ipi_line c) (c_ctl c).
Definition set_hardclocks v c := mkCpu (c_self c) (c_curthread c) (c_zombies c) v (c_isidle c) (c_runqueue c) (c_ipi_pending c) (c_shootdown c) (c_numshootdown c) (c_ipi_line c) (c_ctl c).
Definition set_isidle v c := mkCpu (c_self c) (c_curthread c) (c_zombies c) (c_hardclocks c) v (c_runqueue c) (c_ipi_pending c) (c_shootdown c) (c_numshootdown c) (c_ipi_line c) (c_ctl c).
Definition set_runqueue v c := mkCpu (c_self c) (c_curthread c) (c_zombies c) (c_hardclocks c) (c_isidle c) v (c_ipi_pending c) (c_shootdown c) (c_numshootdown c) (c_ipi_line c) (c_ctl c).
Definition set_ipi_pending v c := mkCpu (c_self c) (c_curthread c) (c_zombies c) (c_hardclocks c) (c_isidle c) (c_runqueue c) v (c_shootdown c) (c_numshootdown c) (c_ipi_line c) (c_ctl c).
Definition set_shootdown v n c := mkCpu (c_self c) (c_curthread c) (c_zombies c) (c_hardclocks c) (c_isidle c) (c_runqueue c) (c_ipi_pending c) v n (c_ipi_line c) (c_ctl c).
Definition set_ipi_line v c := mkCpu (c_self c) (c_curthread c) (c_zombies c) (c_hardclocks c) (c_isidle c) (c_runqueue c) (c_ipi_pending c) (c_shootdown c) (c_numshootdown c) v (c_ctl c).
Definition set_ctl v c := mkCpu (c_self c) (c_curthread c) (c_zombies c) (c_hardclocks c) (c_isidle c) (c_runqueue c) (c_ipi_pending c) (c_shootdown c) (c_numshootdown c) (c_ipi_line c) v.

Definition set_t_state v t := mkThread (t_name t) v (t_stack t) (t_cpu t) (t_proc t).
Definition set_t_stack v t := mkThread (t_name t) (t_state t) v (t_cpu t) (t_proc t).
Definition set_t_cpu v t := mkThread (t_name t) (t_state t) (t_stack t) v (t_proc t).
Definition set_t_proc v t := mkThread (t_name t) (t_state t) (t_stack t) (t_cpu t) v.

Section sched.
Context {H : Type} `{KHeap H}.

Record sched := mkSched {
  allcpus : list cpu;
  threads : gmap Z thread;
  wchans : list (list Z);
  hands : list Z;
  kheap : H
}.

Definition set_allcpus v s := mkSched v (threads s) (wchans s) (hands s) (kheap s).
Definition set_threads v s := mkSched (allcpus s) v (wchans s) (hands s) (kheap s).
Definition set_wchans v s := mkSched (allcpus s) (threads s) v (hands s) (kheap s).
Definition set_hands v s := mkSched (allcpus s) (threads s) (wchans s) v (kheap s).
Definition set_kheap v s := mkSched (allcpus s) (threads s) (wchans s) (hands s) v.

(** A dangling pointer is a [Fault]. *)
Definition get_cpu (c : nat) : M sched cpu :=
  fun s => match allcpus s !! c with Some x => Ret (x, s) | None => Fault end.
Definition put_cpu (c : nat) (x : cpu) : M sched unit :=
  modify (fun s => set_allcpus (<[c := x]> (allcpus s)) s).
Definition upd_cpu (c : nat) (f : cpu -> cpu) : M sched unit :=
  let* x := get_cpu c in put_cpu c (f x).
Definition get_thread (t : Z) : M sched thread :=
  fun s => match threads s !! t with Some x => Ret (x, s) | None => Fault end.
Definition put_thread (t : Z) (x : thread) : M sched unit :=
  modify (fun s => set_threads (<[t := x]> (threads s)) s).
Definition upd_thread (t : Z) (f : thread -> thread) : M sched unit :=
  let* x := get_thread t in put_thread t (f x).

Definition on_heap {A} (m : M H A) : M sched A :=
  fun s => match m (kheap s) with
           | Ret (a, h) => Ret (a, set_kheap h s)
           | Panic => Panic
           | Fault => Fault
           | NoFuel => NoFuel
           end.

Definition goto (c : nat) (k : control) : M sched unit := upd_cpu c (set_ctl k).

(** ** Thread structures *)

Definition thread_create (name : list Z) : M sched Z :=
  let* thread := on_heap (kmalloc sizeof_thread) in
  if thread =? 0 then ret 0
  else
    let* n := on_heap (kmalloc (zlength name + 1)) in
    if n =? 0 then
      do* on_heap (kfree thread) in
      ret 0
    else
      do* put_thread thread (mkThread (n, name) S_READY 0 None None) in
      ret thread.

(** [c] is the processor that runs the code. *)
Definition thread_destroy (c : nat) (t : Z) : M sched unit :=
  let* cp := get_cpu c in
  do* kassert (negb (t =? c_curthread cp)) in
  let* th := get_thread t in
  do* kassert (bool_decide (t_state th <> S_RUN)) in
  do* kassert (bool_decide (t_proc th = None)) in
  do* (if negb (t_stack th =? 0) then on_heap (kfree (t_stack th)) else ret tt) in
  do* on_heap (kfree (t_name th).1) in
  do* on_heap (kfree t) in
  modify (fun s => set_threads (delete t (threads s)) s).

(** [cpu_create]: [bootname] formats the name of the first thread of a
    processor, [add] and [result] are what [cpuarray_add] and
    [proc_addthread] return. *)
Definition cpu_create (bootname : Z -> list Z) (add result : Z) : M sched nat :=
  let* p := on_heap (kmalloc sizeof_cpu) in
  if p =? 0 then panic
  else if negb (add =? 0) then panic
  else
    let* s := get in
    let number := length (allcpus s) in
    let* t := thread_create (bootname (Z.of_nat number)) in
    if t =? 0 then panic
    else if negb (result =? 0) then panic
    else
      do* upd_thread t (set_t_proc (Some kproc)) in
      do* (if (number =? 0)%nat then ret tt
           else
             let* stack := on_heap (kmalloc STACK_SIZE) in
             if stack =? 0 then panic else upd_thread t (set_t_stack stack)) in
      do* upd_thread t (set_t_cpu (Some number)) in
      do* modify (fun s => set_allcpus (allcpus s ++
            [mkCpu p t [] 0 false [] 0 (replicate 16 0) 0 false Exec]) s) in
      ret number.

(** [thread_bootstrap], on a machine of which no processor is known yet. *)
Definition thread_bootstrap (bootname : Z -> list Z) (add result : Z) : M sched unit :=
  do* modify (set_allcpus []) in
  let* c := cpu_create bootname add result in
  let* x := get_cpu c in
  do* upd_thread (c_curthread x) (set_t_cpu (Some c)) in
  let* th := get_thread (c_curthread x) in
  kassert (bool_decide (t_proc th <> None)).

(** The loop of [exorcise] takes one zombie off the list in every round. *)
Fixpoint exorcise_loop (fuel : nat) (c : nat) : M sched unit :=
  match fuel with
  | O => fun _ => NoFuel
  | S fuel' =>
      let* cp := get_cpu c in
      match c_zombies cp with
      | [] => ret tt
      | z :: zs =>
          do* put_cpu c (set_zombies zs cp) in
          do* kassert (negb (z =? c_curthread cp)) in
          let* th := get_thread z in
          do* kassert (bool_decide (t_state th = S_ZOMBIE)) in
          do* thread_destroy c z in
          exorcise_loop fuel' c
      end
  end.

Definition exorcise (c : nat) : M sched unit :=
  let* cp := get_cpu c in
  exorcise_loop (S (length (c_zombies cp))) c.

(** ** Interprocessor interrupts *)

(** Taking [c_ipi_lock] of a processor.  A processor that halts in its
    interrupt handler keeps the lock, so that this waits for ever. *)
Definition acquire_ipi_lock (target : nat) : M sched unit :=
  let* x := get_cpu target in
  match c_ctl x with Halted => fun _ => NoFuel | _ => ret tt end.

Definition ipi_send (target : nat) (code : Z) : M sched unit :=
  do* kassert ((0 <=? code) && (code <? 32)) in
  do* acquire_ipi_lock target in
  do* upd_cpu target (fun x => set_ipi_pending (Z.lor (c_ipi_pending x) (Z.shiftl 1 code)) x) in
  upd_cpu target (set_ipi_line true).

Definition ipi_broadcast (c : nat) (code : Z) : M sched unit :=
  let* s := get in
  for_ (length (allcpus s)) 0 (fun i =>
    if negb (Z.to_nat i =? c)%nat then ipi_send (Z.to_nat i) code else ret tt).

Definition thread_shutdown (c : nat) : M sched unit := ipi_broadcast c IPI_OFFLINE.

Definition thread_panic (c : nat) : M sched unit :=
  do* ipi_broadcast c IPI_PANIC in
  upd_cpu c (set_runqueue []).

(** [c_shootdown] is an array of [TLBSHOOTDOWN_MAX] mappings. *)
Definition ipi_tlbshootdown (target : nat) (mapping : Z) : M sched unit :=
  do* acquire_ipi_lock target in
  let* x := get_cpu target in
  let n := c_numshootdown x in
  do* (if n =? TLBSHOOTDOWN_MAX then
         put_cpu target (set_shootdown (c_shootdown x) TLBSHOOTDOWN_ALL x)
       else
         let* l := lift (set_at (c_shootdown x) n mapping) in
         put_cpu target (set_shootdown l (n + 1) x)) in
  do* upd_cpu target (fun x =>
        set_ipi_pending (Z.lor (c_ipi_pending x) (Z.shiftl 1 IPI_TLBSHOOTDOWN)) x) in
  upd_cpu target (set_ipi_line true).

(** [cpu_halt] does not return.  [vm_tlbshootdown] and [vm_tlbshootdown_all]
    of dumbvm.c panic. *)
Definition vm_tlbshootdown_all : M sched unit := panic.
Definition vm_tlbshootdown (mapping : Z) : M sched unit := panic.

Definition interprocessor_interrupt (c : nat) : M sched unit :=
  let* x := get_cpu c in
  let bits := c_ipi_pending x in
  if Z.testbit bits IPI_PANIC then goto c Halted
  else if Z.testbit bits IPI_OFFLINE then goto c Halted
  else
    do* (if Z.testbit bits IPI_TLBSHOOTDOWN then
           do* (if c_numshootdown x =? TLBSHOOTDOWN_ALL then vm_tlbshootdown_all
                else for_ (Z.to_nat (c_numshootdown x)) 0 (fun i =>
                       let* m := lift (get_at (c_shootdown x) i) in vm_tlbshootdown m)) in
           put_cpu c (set_shootdown (c_shootdown x) 0 x)
         else ret tt) in
    do* upd_cpu c (set_ipi_pending 0) in
    goto c Clearing.

(** Back from an interrupt: in [cpu_idle], which then returns, or in the
    thread. *)
Definition resume (c : nat) : M sched unit :=
  let* x := get_cpu c in goto c (if c_isidle x then Idled else Exec).

(** The rest of [mainbus_interrupt] for an interprocessor interrupt. *)
Definition lamebus_clear_ipi (c : nat) : M sched unit :=
  do* upd_cpu c (set_ipi_line false) in
  resume c.

(** ** Run queues *)

(** [locked] is the processor whose run queue the caller has locked. *)
Definition thread_make_runnable (target : Z) (locked : option nat) : M sched unit :=
  let* th := get_thread target in
  match t_cpu th with
  | None => fault
  | Some targetcpu =>
      do* kassert (match locked with
                   | Some c => (c =? targetcpu)%nat
                   | None => true
                   end) in
      let* x := get_cpu targetcpu in
      do* put_cpu targetcpu (set_runqueue (c_runqueue x ++ [target]) x) in
      if c_isidle x then ipi_send targetcpu IPI_UNIDLE else ret tt
  end.

(** [thread_fork] in processor [c]; [result] is what [proc_addthread] returns
    when it cannot add the thread to the process. *)
Definition thread_fork (c : nat) (name : list Z) (proc : option Z) (result : Z) : M sched Z :=
  let* newthread := thread_create name in
  if newthread =? 0 then ret ENOMEM
  else
    let* stack := on_heap (kmalloc STACK_SIZE) in
    do* upd_thread newthread (set_t_stack stack) in
    if stack =? 0 then
      do* thread_destroy c newthread in
      ret ENOMEM
    else
      let* cp := get_cpu c in
      let* cur := get_thread (c_curthread cp) in
      do* upd_thread newthread (set_t_cpu (t_cpu cur)) in
      let proc := match proc with None => t_proc cur | Some p => Some p end in
      match proc with
      | None => fault
      | Some p =>
          if negb (result =? 0) then
            do* thread_destroy c newthread in
            ret result
          else
            do* upd_thread newthread (set_t_proc (Some p)) in
            do* thread_make_runnable newthread None in
            ret 0
      end.

(** The loop of [thread_switch] that looks for a thread, once: it either goes
    to [cpu_idle] or runs the next thread.  What the next thread then does,
    the end of [thread_switch] or [thread_startup], is the same. *)
Definition switch_next (c : nat) : M sched unit :=
  let* x := get_cpu c in
  match c_runqueue x with
  | [] => goto c Idling
  | next :: q =>
      do* put_cpu c (set_curthread next (set_isidle false (set_runqueue q x))) in
      do* upd_thread next (set_t_state S_RUN) in
      do* goto c Exec in
      exorcise c
  end.

(** [thread_switch]; [wc] is the wait channel to sleep on.  True if the
    thread went on without a switch. *)
Definition thread_switch (c : nat) (newstate : threadstate) (wc : nat) : M sched bool :=
  let* x := get_cpu c in
  let cur := c_curthread x in
  if c_isidle x then ret true
  else if bool_decide (newstate = S_READY) && bool_decide (c_runqueue x = []) then ret true
  else
    do* match newstate with
        | S_RUN => panic
        | S_READY => thread_make_runnable cur (Some c)
        | S_SLEEP =>
            let* s := get in
            let* l := lift (get_at (wchans s) (Z.of_nat wc)) in
            put (set_wchans (<[wc := l ++ [cur]]> (wchans s)) s)
        | S_ZOMBIE => upd_cpu c (fun x => set_zombies (c_zombies x ++ [cur]) x)
        end in
    do* upd_thread cur (set_t_state newstate) in
    do* upd_cpu c (set_isidle true) in
    do* switch_next c in
    ret false.

Definition thread_yield (c : nat) : M sched unit :=
  do* thread_switch c S_READY 0 in ret tt.

Definition wchan_sleep (c wc : nat) : M sched unit :=
  do* thread_switch c S_SLEEP wc in ret tt.

Definition thread_exit (c : nat) : M sched unit :=
  let* x := get_cpu c in
  let cur := c_curthread x in
  let* th := get_thread cur in
  do* kassert (bool_decide (t_proc th = Some kproc) || bool_decide (t_proc th = None)) in
  do* (if bool_decide (t_proc th = Some kproc) then upd_thread cur (set_t_proc None) else ret tt) in
  let* th := get_thread cur in
  do* kassert (bool_decide (t_proc th = None)) in
  let* back := thread_switch c S_ZOMBIE 0 in
  if back then panic else ret tt.

(** [wchan_wakeone] and [wchan_wakeall] up to [thread_make_runnable]. *)
Definition wchan_wakeone (wc : nat) : M sched unit :=
  let* s := get in
  let* l := lift (get_at (wchans s) (Z.of_nat wc)) in
  match l with
  | [] => ret tt
  | target :: l' =>
      put (set_hands (hands s ++ [target]) (set_wchans (<[wc := l']> (wchans s)) s))
  end.

Definition wchan_wakeall (wc : nat) : M sched unit :=
  let* s := get in
  let* l := lift (get_at (wchans s) (Z.of_nat wc)) in
  put (set_hands (hands s ++ l) (set_wchans (<[wc := []]> (wchans s)) s)).

(** The waker's call for the [i]th of the threads that have been taken off. *)
Definition wake (i : nat) : M sched unit :=
  let* s := get in
  match hands s !! i with
  | None => ret tt
  | Some target =>
      do* put (set_hands (delete i (hands s)) s) in
      thread_make_runnable target None
  end.

(** ** Migration *)

(** A round of the first loop of [thread_consider_migration], or the test
    after it. *)
Definition mig_count (c : nat) (i my_count total_count : Z) : M sched unit :=
  let* s := get in
  let numcpus := zlength (allcpus s) in
  if i <? numcpus then
    let* x := get_cpu (Z.to_nat i) in
    let n := zlength (c_runqueue x) in
    goto c (Counting (i + 1) (if (Z.to_nat i =? c)%nat then n else my_count)
                     (w32 (total_count + n)))
  else
    let one_share := DIVROUNDUP total_count numcpus in
    if my_count <? one_share then goto c Yielding
    else goto c (Taking one_share (my_count - one_share)).

(** Moving [n] threads from the tail of the run queue to the head of
    [victims]; [threadlist_addhead] follows the pointer it is given. *)
Fixpoint mig_take (n : nat) (q victims : list Z) : outcome (list Z * list Z) :=
  match n with
  | O => Ret (q, victims)
  | S n' =>
      match last q with
      | None => Fault
      | Some t => mig_take n' (removelast q) (t :: victims)
      end
  end.

(** The inner loop that fills the run queue of processor [i]; [to_send] goes
    down in every round. *)
Fixpoint mig_fill (to_send : nat) (c i : nat) (one_share : Z) (victims : list Z)
  : M sched (nat * list Z) :=
  match to_send with
  | O => ret (O, victims)
  | S n =>
      let* x := get_cpu i in
      if negb (zlength (c_runqueue x) <? one_share) then ret (to_send, victims)
      else
        match victims with
        | [] => fault
        | t :: vs =>
            let* me := get_cpu c in
            if t =? c_curthread me then mig_fill n c i one_share (vs ++ [t])
            else
              do* upd_thread t (set_t_cpu (Some i)) in
              do* put_cpu i (set_runqueue (c_runqueue x ++ [t]) x) in
              do* (if c_isidle x then ipi_send i IPI_UNIDLE else ret tt) in
              mig_fill n c i one_share vs
        end
  end.

(** A round of the outer loop, or the test after it. *)
Definition mig_give (c : nat) (i one_share to_send : Z) (victims : list Z) : M sched unit :=
  let* s := get in
  if (i <? zlength (allcpus s)) && (0 <? to_send) then
    if (Z.to_nat i =? c)%nat then goto c (Giving (i + 1) one_share to_send victims)
    else
      let* (n, vs) := mig_fill (Z.to_nat to_send) c (Z.to_nat i) one_share victims in
      goto c (Giving (i + 1) one_share (Z.of_nat n) vs)
  else
    match victims with
    | [] => goto c Yielding
    | _ => goto c (Putting victims)
    end.

(** The next part of [thread_consider_migration] in processor [c]. *)
Definition thread_consider_migration (c : nat) : M sched unit :=
  let* x := get_cpu c in
  match c_ctl x with
  | Counting i my_count total_count => mig_count c i my_count total_count
  | Taking one_share to_send =>
      let* (q, victims) := lift (mig_take (Z.to_nat to_send) (c_runqueue x) []) in
      do* put_cpu c (set_runqueue q x) in
      goto c (Giving 0 one_share to_send victims)
  | Giving i one_share to_send victims => mig_give c i one_share to_send victims
  | Putting victims =>
      do* put_cpu c (set_runqueue (c_runqueue x ++ victims) x) in
      goto c Yielding
  | _ => fault
  end.

(** [hardclock], up to the migration or the [thread_yield] at its end;
    [schedule] does nothing. *)
Definition hardclock (c : nat) : M sched unit :=
  let* x := get_cpu c in
  let n := w32 (c_hardclocks x + 1) in
  do* put_cpu c (set_hardclocks n x) in
  if n mod MIGRATE_HARDCLOCKS =? 0 then goto c (Counting 0 0 0)
  else goto c Yielding.

(** The [thread_yield] of [hardclock] and the return from the interrupt. *)
Definition hardclock_yield (c : nat) : M sched unit :=
  do* resume c in thread_yield c.

(** ** Steps *)

Inductive label :=
| LTimer | LIpi | LClear | LDevice | LMigrate | LTick | LRetry
| LYield | LSleep (wc : nat) | LExit | LDetach
| LFork (name : list Z) (proc : option Z) (result : Z)
| LWakeOne (wc : nat) | LWakeAll (wc : nat) | LWake (i : nat).

Definition run_label (c : nat) (l : label) : M sched unit :=
  match l with
  | LTimer => hardclock c
  | LIpi => interprocessor_interrupt c
  | LClear => lamebus_clear_ipi c
  | LDevice => resume c
  | LMigrate => thread_consider_migration c
  | LTick => hardclock_yield c
  | LRetry => switch_next c
  | LYield => thread_yield c
  | LSleep wc => wchan_sleep c wc
  | LExit => thread_exit c
  | LDetach =>
      let* x := get_cpu c in upd_thread (c_curthread x) (set_t_proc None)
  | LFork name proc result => do* thread_fork c name proc result in ret tt
  | LWakeOne wc => wchan_wakeone wc
  | LWakeAll wc => wchan_wakeall wc
  | LWake i => wake i
  end.

Definition interruptible (k : control) : bool :=
  match k with Exec | Idling => true | _ => false end.
Definition migrating (k : control) : bool :=
  match k with Counting _ _ _ | Taking _ _ | Giving _ _ _ _ | Putting _ => true | _ => false end.

(** When a processor can take a step: interrupts come in a thread's code and
    in [cpu_idle], an interprocessor one only while its line is up; a thread
    calls only what the kernel lets it call.  Shutting down, which ends the
    run, and TLB shootdowns, which no code of this kernel asks for, are not
    steps. *)
Definition can (x : cpu) (cur : thread) (nwchans : nat) (l : label) : Prop :=
  match l with
  | LTimer | LDevice => interruptible (c_ctl x) = true
  | LIpi => interruptible (c_ctl x) = true /\ c_ipi_line x = true
  | LClear => c_ctl x = Clearing
  | LMigrate => migrating (c_ctl x) = true
  | LTick => c_ctl x = Yielding
  | LRetry => c_ctl x = Idled
  | LYield | LDetach => c_ctl x = Exec
  | LSleep wc => c_ctl x = Exec /\ (wc < nwchans)%nat
  | LExit => c_ctl x = Exec /\ (t_proc cur = Some kproc \/ t_proc cur = None)
  | LFork name proc result =>
      c_ctl x = Exec /\ (proc <> None \/ t_proc cur <> None) /\ zlength name + 1 <= heap_max
  | LWakeOne wc | LWakeAll wc => interruptible (c_ctl x) = true /\ (wc < nwchans)%nat
  | LWake i => True
  end.

Definition enabled (s : sched) (c : nat) (l : label) : Prop :=
  exists x cur, allcpus s !! c = Some x /\ threads s !! c_curthread x = Some cur /\
    can x cur (length (wchans s)) l.

Inductive reach (s0 : sched) : sched -> Prop :=
| reach_refl : reach s0 s0
| reach_step s c l s' :
    reach s0 s -> enabled s c l -> run_label c l s = Ret (tt, s') -> reach s0 s'.

End sched.

#[global] Arguments sched : clear implicits.
#[global] Arguments mkSched {H}.
