(* ===== verification/SchedSpec.v ===== *)
(** The scheduler of Sched.v keeps its threads: under every interleaving of
    the processors no thread is lost, run twice or used after it is freed, no
    assertion fails, and an idle processor with work has an interrupt coming. *)

From stdpp Require Import base numbers list gmap.
From Stdlib Require Import ZArith Lia.
From S2P Require Import Prelude Heap Sched.
Open Scope Z_scope.

(** ** Where the threads are *)

Definition victims_of (k : control) : list Z :=
  match k with Giving _ _ _ v | Putting v => v | _ => [] end.

(** The threads a processor has: the one it runs, unless it is idle on that
    thread's stack, and those on its lists. *)
Definition cpu_places (x : cpu) : list Z :=
  (if c_isidle x then [] else [c_curthread x]) ++ c_runqueue x ++ c_zombies x ++
  victims_of (c_ctl x).

Definition thread_blocks (p : Z * thread) : list (Z * Z) :=
  (p.1, sizeof_thread) :: ((t_name p.2).1, zlength (t_name p.2).2 + 1) ::
  (if t_stack p.2 =? 0 then [] else [(t_stack p.2, STACK_SIZE)]).

Definition cpu_block (x : cpu) : Z * Z := (c_self x, sizeof_cpu).

(** A thread's processor. *)
Definition tcpu (ts : gmap Z thread) (t : Z) : option nat :=
  match ts !! t with Some th => t_cpu th | None => None end.

Definition is_zombie (ts : gmap Z thread) (c : nat) (z : Z) : Prop :=
  exists th, ts !! z = Some th /\ t_cpu th = Some c /\ t_state th = S_ZOMBIE /\ t_proc th = None.

Record cpu_base (ts : gmap Z thread) (c : nat) (x : cpu) : Prop := {
  k_cur : tcpu ts (c_curthread x) = Some c;
  k_queue : Forall (fun t => tcpu ts t = Some c) (c_runqueue x ++ victims_of (c_ctl x));
  k_zombies : Forall (is_zombie ts c) (c_zombies x);
  k_pending : c_ipi_pending x = 0 \/ c_ipi_pending x = 4;
  k_up : c_ctl x <> Halted
}.

(** What holds between two steps of a processor.  While it counts, only it
    takes threads from its run queue, so its count stays a lower bound. *)
Definition ctl_ok (x : cpu) : Prop :=
  match c_ctl x with
  | Exec => c_isidle x = false
  | Idling => c_isidle x = true /\ (c_runqueue x = [] \/ c_ipi_line x = true)
  | Idled => c_isidle x = true
  | Counting i my total => 0 <= i /\ 0 <= my /\ my <= zlength (c_runqueue x) /\ 0 <= total
  | Taking share n => 0 <= n <= zlength (c_runqueue x)
  | Giving i share n v => 0 <= i /\ 0 <= n <= zlength v
  | _ => True
  end.

Section inv.
Context {H : Type} `{KHeap H}.
Implicit Types s : sched H.

Definition places s : list Z := flat_map cpu_places (allcpus s) ++ concat (wchans s) ++ hands s.

Definition all_blocks s : list (Z * Z) :=
  (cpu_block <$> allcpus s) ++ flat_map thread_blocks (map_to_list (threads s)).

(** The invariant of a system that started with the heap [h0]; [skip] is a
    processor in the middle of a step. *)
Record inv_at (h0 : H) s (skip : option nat) : Prop := {
  i_places : places s ≡ₚ (map_to_list (threads s)).*1;
  i_heap : has_new h0 (kheap s) (all_blocks s);
  i_base c x : allcpus s !! c = Some x -> cpu_base (threads s) c x;
  i_ctl c x : allcpus s !! c = Some x -> skip <> Some c -> ctl_ok x;
  i_sleep : Forall (fun t => exists c, tcpu (threads s) t = Some c /\ (c < length (allcpus s))%nat)
                   (concat (wchans s) ++ hands s)
}.

Definition inv h0 s : Prop := inv_at h0 s None.

(** *** Lists *)

Lemma flat_map_insert {A} (f : A -> list Z) (l : list A) i x :
  l !! i = Some x ->
  exists rest, flat_map f l ≡ₚ f x ++ rest /\
    forall y, flat_map f (<[i := y]> l) ≡ₚ f y ++ rest.
Proof.
  intros Hx. exists (flat_map f (take i l) ++ flat_map f (drop (S i) l)).
  assert (Hy : forall y, flat_map f (<[i := y]> l) ≡ₚ
    f y ++ flat_map f (take i l) ++ flat_map f (drop (S i) l)).
  { intros y. rewrite insert_take_drop by (by eapply lookup_lt_Some).
    rewrite flat_map_app. cbn. apply Permutation_app_swap_app. }
  split; [|done]. rewrite <- (list_insert_id l i x) at 1 by done. apply Hy.
Qed.

Lemma places_nodup h0 s k : inv_at h0 s k -> NoDup (places s).
Proof. intros I. rewrite (i_places _ _ _ I). apply NoDup_fst_map_to_list. Qed.

Lemma places_thread h0 s k t : inv_at h0 s k -> t ∈ places s -> is_Some (threads s !! t).
Proof.
  intros I Ht. rewrite (i_places _ _ _ I) in Ht. apply list_elem_of_fmap in Ht as ([u th] & -> & Hu).
  apply elem_of_map_to_list in Hu. cbn. eauto.
Qed.

Lemma tcpu_Some ts t c : tcpu ts t = Some c -> exists th, ts !! t = Some th /\ t_cpu th = Some c.
Proof. unfold tcpu. destruct (ts !! t) as [th|]; [eauto|done]. Qed.

(** *** Changes of one processor *)

Lemma inv_upd_cpu h0 s k c x y :
  inv_at h0 s k -> allcpus s !! c = Some x -> cpu_places y ≡ₚ cpu_places x ->
  c_self y = c_self x -> cpu_base (threads s) c y -> ctl_ok y ->
  inv_at h0 (set_allcpus (<[c := y]> (allcpus s)) s) (if decide (k = Some c) then None else k).
Proof.
  intros I Hx Hp Hs Hb Hc. destruct (flat_map_insert cpu_places _ _ _ Hx) as (rest & H1 & H2).
  split; cbn.
  - rewrite <- (i_places _ _ _ I). unfold places. cbn. by rewrite H1, H2, Hp.
  - pose proof (i_heap _ _ _ I) as Hh. unfold all_blocks in *. cbn.
    rewrite list_fmap_insert, list_insert_id; [done|].
    rewrite list_lookup_fmap, Hx. cbn. unfold cpu_block. by rewrite Hs.
  - intros d z Hd. destruct (decide (d = c)) as [->|Hne].
    + rewrite list_lookup_insert_eq in Hd by (by eapply lookup_lt_Some). by injection Hd as <-.
    + rewrite list_lookup_insert_ne in Hd by done. by apply (i_base _ _ _ I).
  - intros d z Hd Hk. destruct (decide (d = c)) as [->|Hne].
    + rewrite list_lookup_insert_eq in Hd by (by eapply lookup_lt_Some). by injection Hd as <-.
    + rewrite list_lookup_insert_ne in Hd by done. apply (i_ctl _ _ _ I d); [done|].
      intros ->. rewrite decide_False in Hk by congruence. done.
  - rewrite length_insert. apply (i_sleep _ _ _ I).
Qed.

Lemma get_cpu_ok s c x : allcpus s !! c = Some x -> get_cpu c s = Ret (x, s).
Proof. unfold get_cpu. by intros ->. Qed.

Lemma upd_cpu_ok s c x f :
  allcpus s !! c = Some x ->
  upd_cpu c f s = Ret (tt, set_allcpus (<[c := f x]> (allcpus s)) s).
Proof. intros Hx. unfold upd_cpu. by rewrite (bind_ok _ _ _ _ _ (get_cpu_ok _ _ _ Hx)). Qed.

Lemma get_thread_ok s t th : threads s !! t = Some th -> get_thread t s = Ret (th, s).
Proof. unfold get_thread. by intros ->. Qed.

Lemma upd_thread_ok s t th f :
  threads s !! t = Some th ->
  upd_thread t f s = Ret (tt, set_threads (<[t := f th]> (threads s)) s).
Proof. intros Hx. unfold upd_thread. by rewrite (bind_ok _ _ _ _ _ (get_thread_ok _ _ _ Hx)). Qed.

Lemma lookup_upd s c (x : cpu) y :
  allcpus s !! c = Some x -> <[c := y]> (allcpus s) !! c = Some y.
Proof. intros Hx. apply list_lookup_insert_eq. by eapply lookup_lt_Some. Qed.



(** *** Waking threads *)

(** A run queue with one more thread; the processor is interrupted if idle. *)
Definition enqueue (t : Z) (x : cpu) : cpu :=
  let y := set_runqueue (c_runqueue x ++ [t]) x in
  if c_isidle x then set_ipi_line true (set_ipi_pending 4 y) else y.

Lemma ipi_send_unidle s c x :
  allcpus s !! c = Some x -> c_ctl x <> Halted -> c_ipi_pending x = 0 \/ c_ipi_pending x = 4 ->
  ipi_send c IPI_UNIDLE s =
  Ret (tt, set_allcpus (<[c := set_ipi_line true (set_ipi_pending 4 x)]> (allcpus s)) s).
Proof.
  intros Hx Hh Hp. unfold ipi_send. rewrite bind_kassert.
  assert (Ha : acquire_ipi_lock c s = Ret (tt, s)).
  { unfold acquire_ipi_lock. rewrite (bind_ok _ _ _ _ _ (get_cpu_ok _ _ _ Hx)). by destruct (c_ctl x). }
  rewrite (bind_ok _ _ _ _ _ Ha), (bind_ok _ _ _ _ _ (upd_cpu_ok _ _ _ _ Hx)).
  erewrite upd_cpu_ok by (cbn; by eapply lookup_upd).
  replace (Z.lor (c_ipi_pending x) (Z.shiftl 1 IPI_UNIDLE)) with 4 by (by destruct Hp as [-> | ->]).
  unfold set_allcpus. cbn. by rewrite list_insert_insert_eq.
Qed.

Lemma make_runnable_ok s t th c x l :
  threads s !! t = Some th -> t_cpu th = Some c -> allcpus s !! c = Some x ->
  cpu_base (threads s) c x -> l = None \/ l = Some c ->
  thread_make_runnable t l s = Ret (tt, set_allcpus (<[c := enqueue t x]> (allcpus s)) s).
Proof.
  intros Ht Hc Hx Hb Hl. unfold thread_make_runnable.
  rewrite (bind_ok _ _ _ _ _ (get_thread_ok _ _ _ Ht)), Hc.
  replace (match l with Some c0 => (c0 =? c)%nat | None => true end) with true
    by (destruct Hl as [-> | ->]; [done|by rewrite Nat.eqb_refl]).
  rewrite bind_kassert, (bind_ok _ _ _ _ _ (get_cpu_ok _ _ _ Hx)).
  unfold put_cpu. rewrite bind_modify. unfold enqueue. destruct (c_isidle x); [|done].
  rewrite (ipi_send_unidle _ c (set_runqueue (c_runqueue x ++ [t]) x));
    [|by eapply lookup_upd|apply Hb|apply Hb].
  unfold set_allcpus. cbn. by rewrite list_insert_insert_eq.
Qed.

Lemma enqueue_places t x : cpu_places (enqueue t x) ≡ₚ t :: cpu_places x.
Proof.
  unfold enqueue, cpu_places. destruct (c_isidle x) eqn:E; cbn; rewrite E; solve_Permutation.
Qed.

Lemma enqueue_base ts c x t :
  tcpu ts t = Some c -> cpu_base ts c x -> cpu_base ts c (enqueue t x).
Proof.
  intros Ht [H1 H2 H3 H4 H5]. rewrite Forall_app in H2. destruct H2 as [H2 H2'].
  unfold enqueue. destruct (c_isidle x); split; cbn; auto;
    rewrite !Forall_app; auto using Forall_cons, Forall_nil.
Qed.

Lemma enqueue_ctl t x : ctl_ok x -> ctl_ok (enqueue t x).
Proof.
  unfold ctl_ok, enqueue. destruct (c_isidle x) eqn:E; cbn; destruct (c_ctl x); cbn;
    rewrite ?zlength_snoc, ?E; try done; try lia.
Qed.

Lemma enqueue_self t x : c_self (enqueue t x) = c_self x.
Proof. unfold enqueue. by destruct (c_isidle x). Qed.

(** A thread that was nowhere goes to the run queue of its processor. *)
Lemma inv_enqueue h0 s s1 t c x :
  allcpus s !! c = Some x -> tcpu (threads s) t = Some c ->
  allcpus s1 = <[c := enqueue t x]> (allcpus s) -> threads s1 = threads s ->
  kheap s1 = kheap s -> wchans s1 = wchans s -> hands s1 = hands s ->
  (t :: places s) ≡ₚ (map_to_list (threads s)).*1 ->
  has_new h0 (kheap s) (all_blocks s) ->
  (forall c x, allcpus s !! c = Some x -> cpu_base (threads s) c x /\ ctl_ok x) ->
  Forall (fun t => exists c, tcpu (threads s) t = Some c /\ (c < length (allcpus s))%nat)
    (concat (wchans s) ++ hands s) ->
  inv h0 s1.
Proof.
  intros Hx Ht E1 E2 E3 E4 E5 Hp Hh Hc Hs.
  destruct (flat_map_insert cpu_places _ _ _ Hx) as (rest & H1 & H2).
  split; rewrite ?E1, ?E2, ?E3, ?E4, ?E5.
  - rewrite <- Hp. unfold places. rewrite E1, E4, E5, H1, H2, enqueue_places. solve_Permutation.
  - unfold all_blocks. rewrite E1, E2, list_fmap_insert, list_insert_id; [done|].
    rewrite list_lookup_fmap, Hx. cbn. unfold cpu_block. by rewrite enqueue_self.
  - intros d z Hd. destruct (decide (d = c)) as [->|Hne].
    + rewrite (lookup_upd _ _ _ _ Hx) in Hd. injection Hd as <-.
      apply enqueue_base; [done|]. by apply Hc.
    + rewrite list_lookup_insert_ne in Hd by done. by apply Hc.
  - intros d z Hd _. destruct (decide (d = c)) as [->|Hne].
    + rewrite (lookup_upd _ _ _ _ Hx) in Hd. injection Hd as <-. apply enqueue_ctl. by eapply Hc.
    + rewrite list_lookup_insert_ne in Hd by done. by eapply Hc.
  - by rewrite length_insert.
Qed.

(** [wake]: a thread in the hands of a waker. *)
Lemma wake_ok h0 s i : inv h0 s -> exists s', wake i s = Ret (tt, s') /\ inv h0 s'.
Proof.
  intros I. unfold wake. rewrite bind_get. destruct (hands s !! i) as [t|] eqn:Hi; [|by exists s].
  assert (Hsl := i_sleep _ _ _ I). rewrite Forall_app in Hsl. destruct Hsl as [Hw Hh].
  destruct (proj1 (Forall_lookup _ _) Hh i t Hi) as (c & Ht & Hc).
  destruct (lookup_lt_is_Some_2 _ _ Hc) as [x Hx].
  destruct (tcpu_Some _ _ _ Ht) as (th & Hth & Htc).
  set (s1 := set_hands (delete i (hands s)) s). rewrite bind_put. fold s1.
  rewrite (make_runnable_ok s1 t th c x None) by (auto; by apply (i_base _ _ _ I)).
  eexists. split; [done|].
  apply (inv_enqueue h0 s1 _ t c x); try done.
  - change (t :: places s1 ≡ₚ (map_to_list (threads s)).*1).
    rewrite <- (i_places _ _ _ I). unfold places. cbn.
    pose proof (delete_Permutation (hands s) i t Hi) as Hd. revert Hd.
    generalize (delete i (hands s)). intros l Hd. rewrite Hd. solve_Permutation.
  - apply I.
  - intros d z Hd. split; [by apply (i_base _ _ _ I)|by apply (i_ctl _ _ _ I d)].
  - cbn. rewrite Forall_app. split; [done|].
    pose proof (delete_Permutation (hands s) i t Hi) as Hd. rewrite Hd in Hh. by inversion Hh.
Qed.

(** *** Threads of a processor *)

Definition cpu_threads (x : cpu) : list Z :=
  c_curthread x :: c_runqueue x ++ victims_of (c_ctl x) ++ c_zombies x.

Lemma cpu_threads_tcpu ts c x t : cpu_base ts c x -> t ∈ cpu_threads x -> tcpu ts t = Some c.
Proof.
  intros [H1 H2 H3 _ _] Ht. rewrite list.Forall_forall in H2. rewrite list.Forall_forall in H3.
  unfold cpu_threads in Ht. rewrite app_assoc in Ht.
  apply elem_of_cons in Ht as [->|Ht]; [done|].
  apply elem_of_app in Ht as [Ht|Ht]; [by apply H2|].
  destruct (H3 t) as (th & Hth & Hc & _); [done|]. unfold tcpu. by rewrite Hth.
Qed.

(** A processor only depends on the threads it has. *)
Lemma cpu_base_frame ts ts' c x :
  cpu_base ts c x -> (forall t, t ∈ cpu_threads x -> ts' !! t = ts !! t) -> cpu_base ts' c x.
Proof.
  intros [H1 H2 H3 H4 H5] Hf. unfold cpu_threads in Hf. rewrite app_assoc in Hf. split; try done.
  - unfold tcpu in *. rewrite Hf by left. done.
  - rewrite list.Forall_forall in *. intros t Ht. unfold tcpu.
    rewrite Hf by (right; apply elem_of_app; by left). by apply H2.
  - rewrite list.Forall_forall in *. intros t Ht. unfold is_zombie.
    rewrite Hf by (right; apply elem_of_app; by right). by apply H3.
Qed.

(** A thread belongs to one processor. *)
Lemma other_cpu ts c d x t u :
  cpu_base ts d x -> tcpu ts t = Some c -> d <> c -> u ∈ cpu_threads x -> u <> t.
Proof. intros Hb Ht Hne Hu ->. apply (cpu_threads_tcpu _ _ _ _ Hb) in Hu. congruence. Qed.

Lemma places_split s c x :
  allcpus s !! c = Some x -> exists rest, places s ≡ₚ cpu_places x ++ rest.
Proof.
  intros Hx. destruct (flat_map_insert cpu_places _ _ _ Hx) as (rest & H1 & _).
  exists (rest ++ concat (wchans s) ++ hands s). unfold places. by rewrite H1, <- app_assoc.
Qed.

(** A step of processor [c] that changes its own record and thread [t] of its
    own: the other processors do not notice. *)
Lemma inv_change h0 s s' c x y t k k' :
  inv_at h0 s k -> k = None \/ k = Some c ->
  allcpus s !! c = Some x -> allcpus s' = <[c := y]> (allcpus s) ->
  tcpu (threads s) t = Some c -> (forall u, u <> t -> threads s' !! u = threads s !! u) ->
  places s' ≡ₚ (map_to_list (threads s')).*1 ->
  has_new h0 (kheap s') (all_blocks s') ->
  cpu_base (threads s') c y -> (k' <> Some c -> ctl_ok y) ->
  Forall (fun u => exists d, tcpu (threads s') u = Some d /\ (d < length (allcpus s))%nat)
    (concat (wchans s') ++ hands s') ->
  inv_at h0 s' k'.
Proof.
  intros I Hk Hx E1 Ht E2 Hp Hh Hb Hc Hs. split; rewrite ?E1; try done.
  - intros d z Hd. destruct (decide (d = c)) as [->|Hne].
    + rewrite (lookup_upd _ _ _ _ Hx) in Hd. by injection Hd as <-.
    + rewrite list_lookup_insert_ne in Hd by done. pose proof (i_base _ _ _ I d z Hd) as Hbd.
      apply (cpu_base_frame (threads s)); [done|]. intros u Hu. apply E2.
      by eapply (other_cpu _ _ _ _ _ _ Hbd Ht).
  - intros d z Hd Hk'. destruct (decide (d = c)) as [->|Hne].
    + rewrite (lookup_upd _ _ _ _ Hx) in Hd. injection Hd as <-. by apply Hc.
    + rewrite list_lookup_insert_ne in Hd by done. apply (i_ctl _ _ _ I d); [done|].
      destruct Hk as [-> | ->]; congruence.
  - by rewrite length_insert.
Qed.

(** Sleeping threads other than [t] are as before. *)
Lemma sleep_frame s ts' t l n :
  Forall (fun u => exists d, tcpu (threads s) u = Some d /\ (d < n)%nat) l ->
  (forall u, u <> t -> ts' !! u = threads s !! u) -> t ∉ l ->
  Forall (fun u => exists d, tcpu ts' u = Some d /\ (d < n)%nat) l.
Proof.
  intros Hs Hf Hn. rewrite list.Forall_forall in *. intros u Hu.
  destruct (Hs u Hu) as (d & Hd & Hl). exists d. split; [|done]. unfold tcpu in *.
  rewrite Hf; [done|]. by intros ->.
Qed.

(** The list of the processors' blocks does not change. *)
Lemma blocks_upd_cpu (l : list cpu) c x y :
  l !! c = Some x -> c_self y = c_self x -> cpu_block <$> <[c := y]> l = cpu_block <$> l.
Proof.
  intros Hx Hs. rewrite list_fmap_insert. apply list_insert_id.
  rewrite list_lookup_fmap, Hx. cbn. unfold cpu_block. by rewrite Hs.
Qed.

(** *** Freeing threads *)

Lemma on_heap_ok {A} (m : M H A) s a h :
  m (kheap s) = Ret (a, h) -> on_heap m s = Ret (a, set_kheap h s).
Proof. unfold on_heap. by intros ->. Qed.

Lemma thread_destroy_ok h0 s c x t th rest :
  allcpus s !! c = Some x -> t <> c_curthread x -> threads s !! t = Some th ->
  t_state th <> S_RUN -> t_proc th = None ->
  has_new h0 (kheap s) (thread_blocks (t, th) ++ rest) ->
  exists h', thread_destroy c t s = Ret (tt, set_threads (delete t (threads s)) (set_kheap h' s)) /\
    has_new h0 h' rest.
Proof.
  intros Hx Hne Ht Hst Hpr Hn. unfold thread_destroy.
  rewrite (bind_ok _ _ _ _ _ (get_cpu_ok _ _ _ Hx)), (proj2 (Z.eqb_neq _ _) Hne).
  cbn [negb]. rewrite bind_kassert, (bind_ok _ _ _ _ _ (get_thread_ok _ _ _ Ht)).
  rewrite bool_decide_eq_true_2, bind_kassert, bool_decide_eq_true_2, bind_kassert by done.
  unfold thread_blocks in Hn. cbn [fst snd] in Hn.
  assert (Hstack : exists h1, (if negb (t_stack th =? 0) then on_heap (kfree (t_stack th)) else ret tt) s =
      Ret (tt, set_kheap h1 s) /\
      has_new h0 h1 ((t, sizeof_thread) :: ((t_name th).1, zlength (t_name th).2 + 1) :: rest)).
  { destruct (t_stack th =? 0); cbn [negb].
    - exists (kheap s). split; [by destruct s|done].
    - apply (has_new_perm _ _ _ ((t_stack th, STACK_SIZE) :: (t, sizeof_thread) ::
        ((t_name th).1, zlength (t_name th).2 + 1) :: rest)) in Hn; [|cbn; solve_Permutation].
      destruct (kfree_has_new _ _ _ _ _ Hn) as (h1 & E & Hn1). exists h1.
      split; [by apply on_heap_ok|done]. }
  destruct Hstack as (h1 & E1 & Hn1). rewrite (bind_ok _ _ _ _ _ E1).
  eapply has_new_perm in Hn1; [|apply perm_swap].
  destruct (kfree_has_new _ _ _ _ _ Hn1) as (h2 & E2 & Hn2).
  rewrite (bind_ok _ _ _ _ _ (on_heap_ok _ (set_kheap h1 s) _ _ E2)).
  destruct (kfree_has_new _ _ _ _ _ Hn2) as (h3 & E3 & Hn3).
  rewrite (bind_ok _ _ _ _ _ (on_heap_ok _ (set_kheap h2 (set_kheap h1 s)) _ _ E3)).
  exists h3. by split.
Qed.

(** One zombie: taken off the list and freed. *)
Lemma exorcise_one h0 s c x z zs :
  inv h0 s -> allcpus s !! c = Some x -> c_isidle x = false -> c_zombies x = z :: zs ->
  exists s', inv h0 s' /\ allcpus s' !! c = Some (set_zombies zs x) /\
    wchans s' = wchans s /\ hands s' = hands s /\
    forall fuel, exorcise_loop (S fuel) c s = exorcise_loop fuel c s'.
Proof.
  intros I Hx Hid Hz. pose proof (i_base _ _ _ I c x Hx) as Hb.
  assert (Hzz := k_zombies _ _ _ Hb). rewrite Hz in Hzz. apply Forall_inv in Hzz as (th & Hth & Hcpu & Hst & Hpr).
  assert (Htz : tcpu (threads s) z = Some c) by (unfold tcpu; by rewrite Hth).
  destruct (flat_map_insert cpu_places _ _ _ Hx) as (rest & H1 & H2).
  assert (Hpl : places s ≡ₚ z :: c_curthread x :: c_runqueue x ++ victims_of (c_ctl x) ++ zs ++
      rest ++ concat (wchans s) ++ hands s).
  { unfold places. rewrite H1. unfold cpu_places. rewrite Hid, Hz. solve_Permutation. }
  pose proof (places_nodup _ _ _ I) as Hnd. rewrite Hpl in Hnd.
  apply list.NoDup_cons in Hnd as [Hnin Hnd].
  assert (Hne : z <> c_curthread x) by (intros ->; apply Hnin; left).
  set (s1 := set_allcpus (<[c := set_zombies zs x]> (allcpus s)) s).
  assert (Hx1 : allcpus s1 !! c = Some (set_zombies zs x)) by (by eapply lookup_upd).
  pose proof (i_heap _ _ _ I) as Hh. unfold all_blocks in Hh.
  pose proof (map_to_list_delete _ _ _ Hth) as Hml.
  destruct (thread_destroy_ok h0 s1 c (set_zombies zs x) z th
    ((cpu_block <$> allcpus s) ++ flat_map thread_blocks (map_to_list (delete z (threads s)))))
    as (h' & R & Hn'); [done|done|done|by rewrite Hst|done| |].
  { eapply has_new_perm; [|exact Hh]. rewrite <- Hml. cbn [flat_map]. solve_Permutation. }
  exists (set_threads (delete z (threads s1)) (set_kheap h' s1)).
  split; [|split; [done|split; [done|split; [done|]]]].
  - apply (inv_change h0 s _ c x (set_zombies zs x) z None None); auto; cbn.
    + intros u Hu. by apply lookup_delete_ne.
    + unfold places. cbn. rewrite H2. apply (Permutation_cons_inv (a := z)).
      transitivity (places s).
      { rewrite Hpl. unfold cpu_places. cbn. rewrite Hid. solve_Permutation. }
      by rewrite (i_places _ _ _ I), <- Hml.
    + unfold all_blocks. cbn. by rewrite (blocks_upd_cpu _ _ _ _ Hx).
    + apply (cpu_base_frame (threads s)).
      { destruct Hb as [? ? Hzo ? ?]. split; cbn; try done. rewrite Hz in Hzo. by inversion Hzo. }
      intros t Ht. apply lookup_delete_ne. intros <-. apply Hnin.
      unfold cpu_threads in Ht. cbn in Ht. set_solver.
    + intros _. by apply (i_ctl _ _ _ I c x Hx).
    + eapply (sleep_frame s _ z); [apply I|by intros; apply lookup_delete_ne|set_solver].
  - intros fuel. cbn [exorcise_loop]. rewrite (bind_ok _ _ _ _ _ (get_cpu_ok _ _ _ Hx)), Hz.
    unfold put_cpu. rewrite bind_modify. fold s1.
    rewrite (proj2 (Z.eqb_neq _ _) Hne). cbn [negb]. rewrite bind_kassert.
    rewrite (bind_ok _ _ _ _ _ (get_thread_ok s1 _ _ Hth)).
    rewrite bool_decide_eq_true_2, bind_kassert by done.
    by rewrite (bind_ok _ _ _ _ _ R).
Qed.

Lemma exorcise_ok h0 s c x :
  inv h0 s -> allcpus s !! c = Some x -> c_isidle x = false ->
  exists s', exorcise c s = Ret (tt, s') /\ inv h0 s' /\
    allcpus s' !! c = Some (set_zombies [] x).
Proof.
  intros I Hx Hid. unfold exorcise. rewrite (bind_ok _ _ _ _ _ (get_cpu_ok _ _ _ Hx)).
  remember (c_zombies x) as zs eqn:Hz. symmetry in Hz.
  revert s x I Hx Hid Hz. induction zs as [|z zs IH]; intros s x I Hx Hid Hz.
  - exists s. split; [|split; [done|]].
    + cbn. by rewrite (bind_ok _ _ _ _ _ (get_cpu_ok _ _ _ Hx)), Hz.
    + rewrite Hx, <- Hz. by destruct x.
  - destruct (exorcise_one _ _ _ _ _ _ I Hx Hid Hz) as (s1 & I1 & Hx1 & _ & _ & R).
    cbn [length]. rewrite R. by apply (IH s1 (set_zombies zs x)).
Qed.

(** *** Switching threads *)

Lemma update_lists (m : gmap Z thread) t th th' :
  m !! t = Some th -> t_name th' = t_name th -> t_stack th' = t_stack th ->
  (map_to_list (<[t := th']> m)).*1 ≡ₚ (map_to_list m).*1 /\
  flat_map thread_blocks (map_to_list (<[t := th']> m)) ≡ₚ
  flat_map thread_blocks (map_to_list m).
Proof.
  intros Ht Hn Hs. rewrite <- insert_delete_eq.
  rewrite map_to_list_insert by apply lookup_delete_eq.
  rewrite <- (map_to_list_delete _ _ _ Ht). cbn. split; [done|].
  unfold thread_blocks. cbn. by rewrite Hn, Hs.
Qed.

Lemma tcpu_update (m : gmap Z thread) t th th' u :
  m !! t = Some th -> t_cpu th' = t_cpu th -> tcpu (<[t := th']> m) u = tcpu m u.
Proof.
  intros Ht Hc. unfold tcpu. destruct (decide (u = t)) as [->|Hne].
  - by rewrite lookup_insert_eq, Ht.
  - by rewrite lookup_insert_ne.
Qed.

(** Changing a thread, but not its processor, keeps the processors that do not
    have it among their zombies. *)
Lemma cpu_base_update m t th th' c x :
  cpu_base m c x -> m !! t = Some th -> t_cpu th' = t_cpu th -> t ∉ c_zombies x ->
  cpu_base (<[t := th']> m) c x.
Proof.
  intros [H1 H2 H3 H4 H5] Ht Hc Hz. split; try done.
  - by rewrite (tcpu_update _ _ th).
  - eapply Forall_impl; [exact H2|]. cbn. intros u Hu. by rewrite (tcpu_update _ _ th).
  - rewrite list.Forall_forall in *. intros u Hu. unfold is_zombie.
    rewrite lookup_insert_ne; [by apply H3|]. by intros ->.
Qed.

Lemma sleep_update (m : gmap Z thread) t th th' l n :
  m !! t = Some th -> t_cpu th' = t_cpu th ->
  Forall (fun u => exists d, tcpu m u = Some d /\ (d < n)%nat) l ->
  Forall (fun u => exists d, tcpu (<[t := th']> m) u = Some d /\ (d < n)%nat) l.
Proof.
  intros Ht Hc Hs. eapply Forall_impl; [exact Hs|]. cbn. intros u (d & Hd & ?). exists d.
  by rewrite (tcpu_update _ _ th).
Qed.

(** The loop of [thread_switch], in a processor whose thread has been put
    away. *)
Lemma switch_next_ok h0 s c x :
  inv_at h0 s (Some c) -> allcpus s !! c = Some x -> c_isidle x = true ->
  victims_of (c_ctl x) = [] ->
  exists s', switch_next c s = Ret (tt, s') /\ inv h0 s' /\
    forall t q, c_runqueue x = t :: q ->
      exists y, allcpus s' !! c = Some y /\ c_curthread y = t /\ c_ctl y = Exec.
Proof.
  intros I Hx Hid Hv. pose proof (i_base _ _ _ I c x Hx) as Hb. unfold switch_next.
  rewrite (bind_ok _ _ _ _ _ (get_cpu_ok _ _ _ Hx)).
  destruct (c_runqueue x) as [|next q] eqn:Hq.
  - unfold goto. rewrite (upd_cpu_ok _ _ _ _ Hx). eexists. split; [done|]. split; [|done].
    pose proof (inv_upd_cpu h0 s (Some c) c x (set_ctl Idling x) I Hx) as Hi.
    rewrite decide_True in Hi by done. apply Hi; try done.
    + unfold cpu_places. cbn. by rewrite Hv.
    + destruct Hb as [? Hqq ? ? ?]. rewrite Hq, Hv in Hqq. split; cbn; try done. by rewrite Hq.
    + unfold ctl_ok. cbn. auto.
  - unfold put_cpu. rewrite bind_modify.
    set (y := set_curthread next (set_isidle false (set_runqueue q x))).
    assert (Hqn := k_queue _ _ _ Hb). rewrite Hq, Hv, app_nil_r in Hqn.
    inversion Hqn as [|? ? Hn Hqq]; subst.
    destruct (tcpu_Some _ _ _ Hn) as (th & Hth & Hcpu).
    rewrite (bind_ok _ _ _ _ _ (upd_thread_ok (set_allcpus (<[c:=y]> (allcpus s)) s) next th (set_t_state S_RUN) Hth)).
    unfold goto. erewrite bind_ok by (apply upd_cpu_ok; cbn; by eapply lookup_upd).
    unfold set_allcpus at 1, set_threads. cbn. rewrite list_insert_insert_eq.
    match goal with |- exists s', exorcise c ?st = _ /\ _ => set (s1 := st) end.
    destruct (update_lists _ _ _ (set_t_state S_RUN th) Hth eq_refl eq_refl) as [Hk Hbl].
    destruct (flat_map_insert cpu_places _ _ _ Hx) as (rest & H1 & H2).
    assert (Hpl : places s ≡ₚ next :: c_zombies x ++ q ++ rest ++ concat (wchans s) ++ hands s).
    { unfold places. rewrite H1. unfold cpu_places. rewrite Hid, Hq, Hv. solve_Permutation. }
    assert (Hnz : next ∉ c_zombies x).
    { pose proof (places_nodup _ _ _ I) as Hnd. rewrite Hpl in Hnd.
      apply list.NoDup_cons in Hnd as [Hnd _]. set_solver. }
    assert (I1 : inv h0 s1).
    { apply (inv_change h0 s s1 c x (set_ctl Exec y) next (Some c) None); auto; cbn.
      - intros u Hu. by apply lookup_insert_ne.
      - rewrite Hk, <- (i_places _ _ _ I), Hpl. unfold places. cbn. rewrite H2.
        unfold cpu_places. cbn. solve_Permutation.
      - eapply has_new_perm; [|apply (i_heap _ _ _ I)]. unfold all_blocks. cbn.
        by rewrite (blocks_upd_cpu _ _ _ _ Hx), Hbl.
      - eapply cpu_base_update; [|exact Hth|done|done].
        destruct Hb as [? ? ? ? ?]. split; cbn; try done. by rewrite app_nil_r.
      - done.
      - eapply sleep_update; [exact Hth|done|apply I]. }
    destruct (exorcise_ok h0 s1 c (set_ctl Exec y) I1) as (s' & R & I' & Hx'); [by eapply lookup_upd|done|].
    exists s'. split; [done|]. split; [done|]. intros t q' [= <- <-]. eauto.
Qed.

(** A thread gives up its processor: it is on some list, the processor idles. *)
Lemma leave_cpu h0 s s2 c x y th st :
  inv h0 s -> allcpus s !! c = Some x -> threads s !! c_curthread x = Some th ->
  allcpus s2 = <[c := y]> (allcpus s) ->
  threads s2 = <[c_curthread x := set_t_state st th]> (threads s) ->
  kheap s2 = kheap s -> c_self y = c_self x -> places s2 ≡ₚ places s ->
  cpu_base (threads s2) c y ->
  Forall (fun u => exists d, tcpu (threads s) u = Some d /\ (d < length (allcpus s))%nat)
    (concat (wchans s2) ++ hands s2) ->
  inv_at h0 s2 (Some c).
Proof.
  intros I Hx Hth E1 E2 E3 Es Hp Hb Hs.
  destruct (update_lists _ _ _ (set_t_state st th) Hth eq_refl eq_refl) as [Hk Hbl].
  apply (inv_change h0 s s2 c x y (c_curthread x) None (Some c)); auto.
  - apply (i_base _ _ _ I c x Hx).
  - intros u Hu. rewrite E2. by apply lookup_insert_ne.
  - rewrite E2, Hk, Hp. apply I.
  - rewrite E3. eapply has_new_perm; [|apply (i_heap _ _ _ I)]. unfold all_blocks.
    by rewrite E1, E2, (blocks_upd_cpu _ _ _ _ Hx Es), Hbl.
  - done.
  - rewrite E2. by eapply sleep_update.
Qed.

Lemma wchan_get s wc :
  (wc < length (wchans s))%nat ->
  exists l, wchans s !! wc = Some l /\ get_at (wchans s) (Z.of_nat wc) = Ret l.
Proof.
  intros Hw. destruct (lookup_lt_is_Some_2 _ _ Hw) as [l Hl]. exists l. split; [done|].
  apply get_at_lookup; [lia|]. by rewrite Nat2Z.id.
Qed.

Lemma concat_insert (ws : list (list Z)) i l l' :
  ws !! i = Some l -> exists rest, concat ws ≡ₚ l ++ rest /\ concat (<[i := l']> ws) ≡ₚ l' ++ rest.
Proof.
  intros Hl. destruct (flat_map_insert (fun l => l) ws i l Hl) as (rest & H1 & H2).
  exists rest. rewrite !flat_map_concat_map, !map_id in H1.
  specialize (H2 l'). by rewrite !flat_map_concat_map, !map_id in H2.
Qed.

(** The end of [thread_switch], once the thread is on a list: [x1] is the
    processor then. *)
Lemma switch_finish h0 s s1 c x x1 th st :
  inv h0 s -> allcpus s !! c = Some x -> c_ctl x = Exec ->
  threads s !! c_curthread x = Some th ->
  allcpus s1 = <[c := x1]> (allcpus s) -> threads s1 = threads s -> kheap s1 = kheap s ->
  c_self x1 = c_self x -> c_ctl x1 = Exec -> c_curthread x1 = c_curthread x ->
  flat_map cpu_places (<[c := set_isidle true x1]> (allcpus s)) ++ concat (wchans s1) ++ hands s1
    ≡ₚ places s ->
  cpu_base (<[c_curthread x := set_t_state st th]> (threads s)) c (set_isidle true x1) ->
  Forall (fun u => exists d, tcpu (threads s) u = Some d /\ (d < length (allcpus s))%nat)
    (concat (wchans s1) ++ hands s1) ->
  exists s', (do* upd_thread (c_curthread x) (set_t_state st) in
              do* upd_cpu c (set_isidle true) in do* switch_next c in ret false) s1 =
             Ret (false, s') /\ inv h0 s'.
Proof.
  intros I Hx Hctl Hth E1 E2 E3 Es Hc1 Hcur Hp Hb Hs.
  assert (Hx1 : allcpus s1 !! c = Some x1) by (rewrite E1; by eapply lookup_upd).
  rewrite <- E2 in Hth. rewrite (bind_ok _ _ _ _ _ (upd_thread_ok s1 _ _ _ Hth)). rewrite E2 in *.
  set (s2 := set_threads _ s1).
  rewrite (bind_ok _ _ _ _ _ (upd_cpu_ok s2 c x1 _ Hx1)). cbn [allcpus s2 set_threads].
  set (s3 := set_allcpus (<[c := set_isidle true x1]> (allcpus s1)) s2).
  assert (I3 : inv_at h0 s3 (Some c)).
  { apply (leave_cpu h0 s s3 c x (set_isidle true x1) th st); auto; cbn.
    - by rewrite E1, list_insert_insert_eq.
    - unfold places. cbn. by rewrite E1, list_insert_insert_eq. }
  destruct (switch_next_ok h0 s3 c (set_isidle true x1) I3) as (s' & R & I' & _); [|done|cbn; by rewrite Hc1|].
  { cbn. rewrite E1, list_insert_insert_eq. by eapply lookup_upd. }
  exists s'. by rewrite (bind_ok _ _ _ _ _ R).
Qed.

Lemma exec_idle h0 s c x : inv h0 s -> allcpus s !! c = Some x -> c_ctl x = Exec -> c_isidle x = false.
Proof. intros I Hx Hc. pose proof (i_ctl _ _ _ I c x Hx) as Hk. unfold ctl_ok in Hk. rewrite Hc in Hk. by apply Hk. Qed.

(** The current thread of a processor that runs is on no list. *)
Lemma cur_not_listed h0 s c x :
  inv h0 s -> allcpus s !! c = Some x -> c_ctl x = Exec ->
  c_curthread x ∉ c_zombies x /\ c_curthread x ∉ concat (wchans s) ++ hands s.
Proof.
  intros I Hx Hc. destruct (flat_map_insert cpu_places _ _ _ Hx) as (rest & H1 & _).
  pose proof (places_nodup _ _ _ I) as Hnd. unfold places in Hnd. rewrite H1 in Hnd.
  unfold cpu_places in Hnd. rewrite (exec_idle _ _ _ _ I Hx Hc) in Hnd. cbn in Hnd.
  apply list.NoDup_cons in Hnd as [Hnd _]. set_solver.
Qed.

(** A processor that runs the thread [th]. *)
Record running h0 s c x th : Prop := {
  r_inv : inv h0 s;
  r_cpu : allcpus s !! c = Some x;
  r_ctl : c_ctl x = Exec;
  r_thread : threads s !! c_curthread x = Some th
}.

Lemma running_tcpu h0 s c x th : running h0 s c x th -> t_cpu th = Some c.
Proof.
  intros [I Hx _ Hth]. pose proof (k_cur _ _ _ (i_base _ _ _ I c x Hx)) as Hk.
  unfold tcpu in Hk. by rewrite Hth in Hk.
Qed.

(** Each way to give up the processor puts the thread on one list. *)
Definition put_away (c : nat) (st : threadstate) (wc : nat) (cur : Z) : M (sched H) unit :=
  match st with
  | S_RUN => panic
  | S_READY => thread_make_runnable cur (Some c)
  | S_SLEEP =>
      let* s := get in
      let* l := lift (get_at (wchans s) (Z.of_nat wc)) in
      put (set_wchans (<[wc := l ++ [cur]]> (wchans s)) s)
  | S_ZOMBIE => upd_cpu c (fun x => set_zombies (c_zombies x ++ [cur]) x)
  end.

Definition switch_away (c : nat) (st : threadstate) (wc : nat) (cur : Z) : M (sched H) bool :=
  do* put_away c st wc cur in
  do* upd_thread cur (set_t_state st) in
  do* upd_cpu c (set_isidle true) in
  do* switch_next c in
  ret false.

Lemma switch_ready h0 s c x th wc :
  running h0 s c x th ->
  exists s', switch_away c S_READY wc (c_curthread x) s = Ret (false, s') /\ inv h0 s'.
Proof.
  intros Hr. pose proof (running_tcpu _ _ _ _ _ Hr) as Hcpu. destruct Hr as [I Hx Hctl Hth].
  pose proof (i_base _ _ _ I c x Hx) as Hb. pose proof (exec_idle _ _ _ _ I Hx Hctl) as Hid.
  destruct (cur_not_listed _ _ _ _ I Hx Hctl) as [Hnz _].
  destruct (flat_map_insert cpu_places _ _ _ Hx) as (rest & H1 & H2).
  unfold switch_away, put_away.
  rewrite (bind_ok _ _ _ _ _ (make_runnable_ok _ _ _ _ _ (Some c) Hth Hcpu Hx Hb ltac:(auto))).
  apply (switch_finish h0 s _ c x (enqueue (c_curthread x) x) th S_READY I Hx Hctl Hth);
    try done; [apply enqueue_self|by unfold enqueue; rewrite Hid|by unfold enqueue; rewrite Hid|..].
  - cbn. rewrite H2. unfold places. rewrite H1. unfold enqueue. rewrite Hid.
    unfold cpu_places. cbn. rewrite Hid, Hctl. solve_Permutation.
  - eapply cpu_base_update; [|exact Hth|done|unfold enqueue; by rewrite Hid].
    pose proof (enqueue_base _ _ _ _ (k_cur _ _ _ Hb) Hb) as [? ? ? ? ?]. by split.
  - apply (i_sleep _ _ _ I).
Qed.

Lemma switch_sleep h0 s c x th wc :
  running h0 s c x th -> (wc < length (wchans s))%nat ->
  exists s', switch_away c S_SLEEP wc (c_curthread x) s = Ret (false, s') /\ inv h0 s'.
Proof.
  intros [I Hx Hctl Hth] Hwc.
  pose proof (i_base _ _ _ I c x Hx) as Hb. pose proof (exec_idle _ _ _ _ I Hx Hctl) as Hid.
  destruct (cur_not_listed _ _ _ _ I Hx Hctl) as [Hnz _].
  destruct (flat_map_insert cpu_places _ _ _ Hx) as (rest & H1 & H2).
  assert (Hlen : (c < length (allcpus s))%nat) by (by eapply lookup_lt_Some).
  destruct (wchan_get s wc Hwc) as (l & Hl & Hg). unfold switch_away, put_away.
  rewrite bind_bind, bind_get, bind_bind, Hg, bind_lift, bind_put.
  destruct (concat_insert _ _ _ (l ++ [c_curthread x]) Hl) as (wr & Hw1 & Hw2).
  apply (switch_finish h0 s _ c x x th S_SLEEP I Hx Hctl Hth); try done; cbn.
  - by rewrite list_insert_id.
  - rewrite H2, Hw2. unfold places. rewrite H1, Hw1. unfold cpu_places. cbn. rewrite Hid.
    solve_Permutation.
  - eapply cpu_base_update; [|exact Hth|done|done]. destruct Hb as [? ? ? ? ?]. by split.
  - pose proof (i_sleep _ _ _ I) as Hs. rewrite Forall_app in *. destruct Hs as [Hs1 Hs2].
    rewrite Hw1 in Hs1. rewrite Hw2. rewrite !Forall_app in *. destruct Hs1 as [? ?].
    split_and!; try done. apply list.Forall_cons; split; [|done]. exists c. split; [apply Hb|done].
Qed.

Lemma switch_zombie h0 s c x th wc :
  running h0 s c x th -> t_proc th = None ->
  exists s', switch_away c S_ZOMBIE wc (c_curthread x) s = Ret (false, s') /\ inv h0 s'.
Proof.
  intros Hr Hpr. pose proof (running_tcpu _ _ _ _ _ Hr) as Hcpu. destruct Hr as [I Hx Hctl Hth].
  pose proof (i_base _ _ _ I c x Hx) as Hb. pose proof (exec_idle _ _ _ _ I Hx Hctl) as Hid.
  destruct (cur_not_listed _ _ _ _ I Hx Hctl) as [Hnz _].
  destruct (flat_map_insert cpu_places _ _ _ Hx) as (rest & H1 & H2).
  unfold switch_away, put_away. rewrite (bind_ok _ _ _ _ _ (upd_cpu_ok _ _ _ _ Hx)).
  apply (switch_finish h0 s _ c x (set_zombies (c_zombies x ++ [c_curthread x]) x) th S_ZOMBIE
    I Hx Hctl Hth); try done.
  - cbn. rewrite H2. unfold places. rewrite H1. unfold cpu_places. cbn. rewrite Hid, Hctl.
    solve_Permutation.
  - pose proof (cpu_base_update _ _ _ (set_t_state S_ZOMBIE th) _ _ Hb Hth eq_refl Hnz)
      as [? ? Hz ? ?]. split; cbn; try done. apply Forall_app. split; [done|].
    apply list.Forall_cons; split; [|done]. exists (set_t_state S_ZOMBIE th).
    rewrite lookup_insert_eq. cbn. auto.
  - apply (i_sleep _ _ _ I).
Qed.

(** [thread_switch] by a running thread. *)
Lemma thread_switch_ok h0 s c x th st wc :
  running h0 s c x th -> st <> S_RUN ->
  (st = S_SLEEP -> (wc < length (wchans s))%nat) -> (st = S_ZOMBIE -> t_proc th = None) ->
  exists b s', thread_switch c st wc s = Ret (b, s') /\ inv h0 s' /\ (b = true -> st = S_READY).
Proof.
  intros Hr Hrun Hsl Hzo. pose proof Hr as [I Hx Hctl Hth].
  unfold thread_switch. rewrite (bind_ok _ _ _ _ _ (get_cpu_ok _ _ _ Hx)), (exec_idle _ _ _ _ I Hx Hctl).
  destruct (bool_decide (st = S_READY) && bool_decide (c_runqueue x = [])) eqn:Er.
  { exists true, s. apply andb_true_iff in Er as [Er _]. apply bool_decide_eq_true in Er. done. }
  exists false. destruct st; [done|..].
  - destruct (switch_ready _ _ _ _ _ wc Hr) as (s' & R & I'). exists s'. by split.
  - destruct (switch_sleep _ _ _ _ _ wc Hr (Hsl eq_refl)) as (s' & R & I'). exists s'. by split.
  - destruct (switch_zombie _ _ _ _ _ wc Hr (Hzo eq_refl)) as (s' & R & I'). exists s'. by split.
Qed.

(** *** Creating threads *)

Lemma inv_set_kheap h0 s h' : inv h0 s -> has_new h0 h' (all_blocks s) -> inv h0 (set_kheap h' s).
Proof. intros [? ? ? ? ?] Hn. by split. Qed.

Lemma blocks_fresh h0 s h p n extra :
  has_new h0 h ((p, n) :: extra ++ all_blocks s) -> threads s !! p = None.
Proof.
  intros (_ & _ & Hnd & _). apply list.NoDup_cons in Hnd as [Hnin _].
  destruct (threads s !! p) as [th|] eqn:Ht; [|done]. exfalso. apply Hnin. clear Hnin.
  apply list_elem_of_fmap. exists (p, sizeof_thread). split; [done|]. unfold all_blocks.
  apply elem_of_app. right. apply elem_of_app. right. apply list_elem_of_In, in_flat_map. exists (p, th).
  split; [by apply list_elem_of_In, elem_of_map_to_list|by left].
Qed.

(** [thread_create] fails and leaves the heap as it was, or makes a thread
    that nothing knows yet. *)
Lemma thread_create_ok h0 s name extra :
  has_new h0 (kheap s) (extra ++ all_blocks s) -> zlength name + 1 <= heap_max ->
  (exists h', thread_create name s = Ret (0, set_kheap h' s) /\ has_new h0 h' (extra ++ all_blocks s)) \/
  (exists t n h', 0 < t /\ threads s !! t = None /\
     let th := mkThread (n, name) S_READY 0 None None in
     thread_create name s = Ret (t, set_threads (<[t := th]> (threads s)) (set_kheap h' s)) /\
     has_new h0 h' (thread_blocks (t, th) ++ extra ++ all_blocks s)).
Proof.
  intros Hh Hn. pose proof (zlength_nonneg name). unfold thread_create.
  destruct (kmalloc_has_new _ _ _ sizeof_thread Hh) as (t & h1 & E1 & Hc); [done|].
  rewrite (bind_ok _ _ _ _ _ (on_heap_ok _ _ _ _ E1)).
  destruct Hc as [[-> Hh1]|[Ht Hh1]]; [left; by exists h1|].
  rewrite (proj2 (Z.eqb_neq t 0)) by lia.
  destruct (kmalloc_has_new _ _ _ (zlength name + 1) Hh1) as (n & h2 & E2 & Hc); [lia|].
  rewrite (bind_ok _ _ _ _ _ (on_heap_ok _ (set_kheap h1 s) _ _ E2)).
  destruct Hc as [[-> Hh2]|[Hn0 Hh2]].
  - destruct (kfree_has_new _ _ _ _ _ Hh2) as (h3 & E3 & Hh3).
    left. exists h3. cbn [Z.eqb].
    by rewrite (bind_ok _ _ _ _ _ (on_heap_ok _ (set_kheap h2 (set_kheap h1 s)) _ _ E3)).
  - right. rewrite (proj2 (Z.eqb_neq n 0)) by lia. exists t, n, h2.
    split; [done|]. split; [by eapply blocks_fresh|]. split; [done|].
    eapply has_new_perm; [|exact Hh2]. cbn. apply perm_swap.
Qed.

(** A thread that nothing knows is not among the threads of a processor. *)
Lemma cpu_base_new ts c x t th :
  cpu_base ts c x -> ts !! t = None -> cpu_base (<[t := th]> ts) c x.
Proof.
  intros Hb Ht. apply (cpu_base_frame ts); [done|]. intros u Hu.
  apply lookup_insert_ne. intros <-. apply (cpu_threads_tcpu _ _ _ _ Hb) in Hu.
  unfold tcpu in Hu. by rewrite Ht in Hu.
Qed.

(** [s] with the new thread [t] in it. *)
Definition with_new s (h : H) (t : Z) (th : thread) : sched H :=
  mkSched (allcpus s) (<[t := th]> (threads s)) (wchans s) (hands s) h.

Lemma upd_new s h t th f :
  upd_thread t f (with_new s h t th) = Ret (tt, with_new s h t (f th)).
Proof.
  rewrite (upd_thread_ok _ t th) by apply lookup_insert_eq.
  unfold with_new, set_threads. cbn. by rewrite insert_insert_eq.
Qed.

(** Giving it up. *)
Lemma fork_abort h0 s c x h t th :
  inv h0 s -> allcpus s !! c = Some x -> threads s !! t = None ->
  t_state th = S_READY -> t_proc th = None ->
  has_new h0 h (thread_blocks (t, th) ++ all_blocks s) ->
  exists s', thread_destroy c t (with_new s h t th) = Ret (tt, s') /\ inv h0 s'.
Proof.
  intros I Hx Hf Hst Hpr Hh.
  assert (Hne : t <> c_curthread x).
  { intros ->. pose proof (k_cur _ _ _ (i_base _ _ _ I c x Hx)) as Hk. unfold tcpu in Hk.
    by rewrite Hf in Hk. }
  destruct (thread_destroy_ok h0 (with_new s h t th) c x t th (all_blocks s)) as (h' & R & Hh');
    [done|done|apply lookup_insert_eq|by rewrite Hst|done|done|].
  exists (set_kheap h' s). split; [|by apply inv_set_kheap].
  rewrite R. unfold with_new, set_threads, set_kheap. cbn. by rewrite delete_insert_id.
Qed.

(** Starting it. *)
Lemma fork_start h0 s c x h t th :
  inv h0 s -> allcpus s !! c = Some x -> threads s !! t = None -> t_cpu th = Some c ->
  has_new h0 h (thread_blocks (t, th) ++ all_blocks s) ->
  exists s', thread_make_runnable t None (with_new s h t th) = Ret (tt, s') /\ inv h0 s'.
Proof.
  intros I Hx Hf Hcpu Hh. pose proof (i_base _ _ _ I c x Hx) as Hb.
  assert (Hb' := cpu_base_new _ _ _ _ th Hb Hf).
  rewrite (make_runnable_ok _ t th c x None) by (auto; apply lookup_insert_eq).
  eexists. split; [done|].
  apply (inv_enqueue h0 (with_new s h t th) _ t c x); try done; cbn.
  - unfold tcpu. by rewrite lookup_insert_eq.
  - rewrite map_to_list_insert by done. cbn. f_equiv. apply (i_places _ _ _ I).
  - eapply has_new_perm; [|exact Hh]. unfold all_blocks. cbn.
    rewrite map_to_list_insert by done. cbn. solve_Permutation.
  - intros d z Hd. split; [|by apply (i_ctl _ _ _ I d)].
    apply cpu_base_new; [|done]. by apply (i_base _ _ _ I).
  - eapply Forall_impl; [apply (i_sleep _ _ _ I)|]. cbn. intros u (d & Hd & ?). exists d.
    split; [|done]. unfold tcpu in *. rewrite lookup_insert_ne; [done|]. intros <-. by rewrite Hf in Hd.
Qed.

(** [thread_fork] adds a thread to the run queue of its parent's processor, or
    returns an error and leaves nothing behind. *)
Lemma thread_fork_ok h0 s c x th name proc result :
  running h0 s c x th -> proc <> None \/ t_proc th <> None -> zlength name + 1 <= heap_max ->
  exists r s', thread_fork c name proc result s = Ret (r, s') /\ inv h0 s'.
Proof.
  intros Hr Hpr Hn. pose proof (running_tcpu _ _ _ _ _ Hr) as Hcpu. destruct Hr as [I Hx Hctl Hth].
  unfold thread_fork.
  destruct (thread_create_ok h0 s name [] (i_heap _ _ _ I) Hn)
    as [(h' & R & Hh)|(t & n & h1 & Ht & Hf & R & Hh)]; rewrite (bind_ok _ _ _ _ _ R).
  { exists ENOMEM, (set_kheap h' s). split; [done|]. by apply inv_set_kheap. }
  rewrite (proj2 (Z.eqb_neq t 0)) by lia.
  set (th0 := mkThread (n, name) S_READY 0 None None) in *.
  destruct (kmalloc_has_new _ _ _ STACK_SIZE Hh) as (k & h2 & E2 & Hc); [done|].
  erewrite bind_ok by (apply on_heap_ok; exact E2).
  change (set_kheap h2 _) with (with_new s h2 t th0).
  rewrite (bind_ok _ _ _ _ _ (upd_new _ _ _ _ _)).
  destruct Hc as [[-> Hh2]|[Hk Hh2]].
  - destruct (fork_abort h0 s c x h2 t (set_t_stack 0 th0)) as (s' & R' & I'); [done..|].
    exists ENOMEM, s'. cbn [Z.eqb]. by rewrite (bind_ok _ _ _ _ _ R').
  - rewrite (proj2 (Z.eqb_neq k 0)) by lia.
    assert (Hh3 : forall f, (forall th, t_name (f th) = t_name th /\ t_stack (f th) = t_stack th) ->
      has_new h0 h2 (thread_blocks (t, f (set_t_stack k th0)) ++ all_blocks s)).
    { intros f Hff. eapply has_new_perm; [|exact Hh2]. unfold thread_blocks.
      destruct (Hff (set_t_stack k th0)) as [E3 E4]. cbn [fst snd] in *. rewrite E3, E4.
      cbn. rewrite (proj2 (Z.eqb_neq k 0)) by lia. solve_Permutation. }
    rewrite (bind_ok _ _ _ _ _ (get_cpu_ok (with_new s h2 t _) _ _ Hx)).
    erewrite bind_ok by (apply get_thread_ok; cbn; rewrite lookup_insert_ne by congruence; exact Hth).
    rewrite Hcpu, (bind_ok _ _ _ _ _ (upd_new _ _ _ _ _)).
    destruct (match proc with Some p => Some p | None => t_proc th end) as [p|] eqn:Ep.
    2:{ exfalso. destruct proc; [done|]. destruct Hpr; done. }
    destruct (result =? 0); cbn [negb].
    + rewrite (bind_ok _ _ _ _ _ (upd_new _ _ _ _ _)).
      destruct (fork_start h0 s c x h2 t (set_t_proc (Some p) (set_t_cpu (Some c) (set_t_stack k th0))))
        as (s' & R' & I'); [done..|by apply (Hh3 (fun th => set_t_proc (Some p) (set_t_cpu (Some c) th)))|].
      exists 0, s'. by rewrite (bind_ok _ _ _ _ _ R').
    + destruct (fork_abort h0 s c x h2 t (set_t_cpu (Some c) (set_t_stack k th0)))
        as (s' & R' & I'); [done..|by apply (Hh3 (set_t_cpu (Some c)))|].
      exists result, s'. by rewrite (bind_ok _ _ _ _ _ R').
Qed.

(** *** Migration *)

(** [s] with processor [c], whose record is [x], at another place. *)
Definition at_ctl s (c : nat) (x : cpu) (k : control) : sched H :=
  set_allcpus (<[c := set_ctl k x]> (allcpus s)) s.

Lemma goto_ok s c x k : allcpus s !! c = Some x -> goto c k s = Ret (tt, at_ctl s c x k).
Proof. intros Hx. unfold goto. by rewrite (upd_cpu_ok _ _ _ _ Hx). Qed.

Lemma inv_goto h0 s c x k :
  inv h0 s -> allcpus s !! c = Some x -> victims_of k ≡ₚ victims_of (c_ctl x) ->
  k <> Halted -> ctl_ok (set_ctl k x) -> inv h0 (at_ctl s c x k).
Proof.
  intros I Hx Hv Hk Hc. apply (inv_upd_cpu h0 s None c x (set_ctl k x) I Hx); try done.
  - unfold cpu_places. cbn. by rewrite Hv.
  - destruct (i_base _ _ _ I c x Hx) as [? Hq ? ? ?]. split; cbn; try done. by rewrite Hv.
Qed.

Lemma at_ctl_lookup s c x k : allcpus s !! c = Some x -> allcpus (at_ctl s c x k) !! c = Some (set_ctl k x).
Proof. intros Hx. by eapply lookup_upd. Qed.

Lemma at_ctl_ne s c x k d : d <> c -> allcpus (at_ctl s c x k) !! d = allcpus s !! d.
Proof. intros Hd. by apply list_lookup_insert_ne. Qed.

(** [s] after thread [t] has gone to processor [i]. *)
Definition given s (i : nat) (y : cpu) (t : Z) (th : thread) : sched H :=
  mkSched (<[i := enqueue t y]> (allcpus s)) (<[t := set_t_cpu (Some i) th]> (threads s))
          (wchans s) (hands s) (kheap s).

(** Nobody gains or loses a thread when [t] goes from the victims of [c] to the
    run queue of [i]. *)
Lemma give_places (l : list cpu) c i x y j share n n' t vs :
  i <> c -> l !! c = Some (set_ctl (Giving j share n (t :: vs)) x) -> l !! i = Some y ->
  flat_map cpu_places (<[c := set_ctl (Giving j share n' vs) x]> (<[i := enqueue t y]> l)) ≡ₚ
  flat_map cpu_places l.
Proof.
  intros Hic Hx Hy.
  assert (Hx2 : <[i := enqueue t y]> l !! c = Some (set_ctl (Giving j share n (t :: vs)) x))
    by (by rewrite list_lookup_insert_ne).
  destruct (flat_map_insert cpu_places _ _ _ Hx2) as (rest & H1 & H2).
  destruct (flat_map_insert cpu_places _ _ _ Hy) as (rest2 & H3 & H4).
  rewrite H2. apply (Permutation_cons_inv (a := t)). rewrite H3.
  transitivity (flat_map cpu_places (<[i := enqueue t y]> l)).
  - rewrite H1. unfold cpu_places. cbn. solve_Permutation.
  - by rewrite H4, enqueue_places.
Qed.

(** A victim is on no other list. *)
Lemma victim_alone h0 s c x j share n t vs :
  inv h0 s -> allcpus s !! c = Some (set_ctl (Giving j share n (t :: vs)) x) ->
  t ∉ c_runqueue x ++ vs ++ c_zombies x /\ t ∉ concat (wchans s) ++ hands s.
Proof.
  intros I Hx. destruct (flat_map_insert cpu_places _ _ _ Hx) as (rest & H1 & _).
  pose proof (places_nodup _ _ _ I) as Hnd. unfold places in Hnd. rewrite H1 in Hnd.
  assert (Hp : cpu_places (set_ctl (Giving j share n (t :: vs)) x) ≡ₚ
    t :: (if c_isidle x then [] else [c_curthread x]) ++ c_runqueue x ++ c_zombies x ++ vs)
    by (unfold cpu_places; cbn; solve_Permutation).
  rewrite Hp in Hnd. apply list.NoDup_cons in Hnd as [Hnd _]. set_solver.
Qed.

Lemma give_inv h0 s c x i y j share n t vs th :
  i <> c -> allcpus s !! c = Some x -> allcpus s !! i = Some y ->
  threads s !! t = Some th -> t <> c_curthread x -> (Z.of_nat n <= zlength vs) ->
  inv h0 (at_ctl s c x (Giving j share (Z.of_nat (S n)) (t :: vs))) ->
  inv h0 (at_ctl (given s i y t th) c x (Giving j share (Z.of_nat n) vs)).
Proof.
  intros Hic Hx Hy Hth Hne Hn I.
  set (s1 := at_ctl s c x _) in I.
  pose proof (at_ctl_lookup s c x (Giving j share (Z.of_nat (S n)) (t :: vs)) Hx) as Hx1.
  pose proof (at_ctl_ne s c x (Giving j share (Z.of_nat (S n)) (t :: vs)) i Hic) as Hy1.
  rewrite Hy in Hy1. fold s1 in Hx1, Hy1.
  pose proof (i_base _ _ _ I c _ Hx1) as Hbc. pose proof (i_base _ _ _ I i _ Hy1) as Hbi.
  assert (Htc : tcpu (threads s) t = Some c).
  { apply (cpu_threads_tcpu _ _ _ _ Hbc). unfold cpu_threads. cbn. set_solver. }
  assert (Hc0 := i_ctl _ _ _ I c _ Hx1 ltac:(done)). unfold ctl_ok in Hc0. cbn in Hc0.
  set (x' := set_ctl (Giving j share (Z.of_nat n) vs) x).
  assert (Hcpus : allcpus (at_ctl (given s i y t th) c x (Giving j share (Z.of_nat n) vs)) =
    <[c := x']> (<[i := enqueue t y]> (allcpus s1))).
  { unfold s1, at_ctl. cbn. rewrite (list_insert_insert_ne _ i c) by done.
    by rewrite list_insert_insert_eq. }
  assert (Hx2 : <[i := enqueue t y]> (allcpus s1) !! c =
    Some (set_ctl (Giving j share (Z.of_nat (S n)) (t :: vs)) x)) by (by rewrite list_lookup_insert_ne).
  pose proof (give_places _ c i x y j share _ (Z.of_nat n) t vs Hic Hx1 Hy1) as Hflat.
  fold x' in Hflat. destruct (victim_alone _ _ _ _ _ _ _ _ _ I Hx1) as [Hnc0 Hns].
  assert (Hnc : t ∉ cpu_threads x') by (unfold cpu_threads; cbn; set_solver).
  destruct (update_lists _ _ _ (set_t_cpu (Some i) th) Hth eq_refl eq_refl) as [Hk Hbl].
  split.
  - unfold places. rewrite Hcpus. cbn [wchans hands threads at_ctl given set_allcpus]. rewrite Hflat, Hk. apply (i_places _ _ _ I).
  - eapply has_new_perm; [|apply (i_heap _ _ _ I)]. unfold all_blocks. rewrite Hcpus. cbn [threads at_ctl given set_allcpus].
    rewrite Hbl. by rewrite (blocks_upd_cpu _ _ _ _ Hx2), (blocks_upd_cpu _ _ _ _ Hy1) by (done || apply enqueue_self).
  - intros d z Hd. rewrite Hcpus in Hd. cbn [threads at_ctl given set_allcpus].
    destruct (decide (d = c)) as [->|Hdc]; [|destruct (decide (d = i)) as [->|Hdi]].
    + rewrite list_lookup_insert_eq in Hd by (rewrite length_insert; by eapply lookup_lt_Some).
      injection Hd as <-. apply (cpu_base_frame (threads s)).
      * destruct Hbc as [? Hq ? ? ?]. split; cbn in *; try done. rewrite Forall_app in *.
        destruct Hq as [? Hq]. split; [done|]. by inversion Hq.
      * intros u Hu. apply lookup_insert_ne. by intros ->.
    + rewrite list_lookup_insert_ne, list_lookup_insert_eq in Hd
        by (done || by eapply lookup_lt_Some). injection Hd as <-.
      apply enqueue_base; [unfold tcpu; by rewrite lookup_insert_eq|].
      apply (cpu_base_frame (threads s)); [done|]. intros u Hu. apply lookup_insert_ne.
      intros <-. by eapply (other_cpu _ _ _ _ _ _ Hbi Htc).
    + rewrite !list_lookup_insert_ne in Hd by done. pose proof (i_base _ _ _ I d z Hd) as Hbd.
      apply (cpu_base_frame (threads s)); [done|]. intros u Hu. apply lookup_insert_ne.
      intros <-. by eapply (other_cpu _ _ _ _ _ _ Hbd Htc).
  - intros d z Hd _. rewrite Hcpus in Hd.
    destruct (decide (d = c)) as [->|Hdc]; [|destruct (decide (d = i)) as [->|Hdi]].
    + rewrite list_lookup_insert_eq in Hd by (rewrite length_insert; by eapply lookup_lt_Some).
      injection Hd as <-. unfold ctl_ok. cbn. lia.
    + rewrite list_lookup_insert_ne, list_lookup_insert_eq in Hd
        by (done || by eapply lookup_lt_Some). injection Hd as <-.
      apply enqueue_ctl. by apply (i_ctl _ _ _ I i).
    + rewrite !list_lookup_insert_ne in Hd by done. by apply (i_ctl _ _ _ I d).
  - rewrite Hcpus, !length_insert.
    eapply (sleep_frame s1 _ t); [apply I|by intros; apply lookup_insert_ne|done].
Qed.

(** One round of the inner loop that gives thread [t] to processor [i]. *)
Lemma mig_fill_give h0 c i j share n s x y t vs :
  i <> c -> allcpus s !! c = Some x -> allcpus s !! i = Some y ->
  inv h0 (at_ctl s c x (Giving j share (Z.of_nat (S n)) (t :: vs))) ->
  zlength (c_runqueue y) < share -> t <> c_curthread x ->
  exists th, mig_fill (S n) c i share (t :: vs) s = mig_fill n c i share vs (given s i y t th) /\
    inv h0 (at_ctl (given s i y t th) c x (Giving j share (Z.of_nat n) vs)).
Proof.
  intros Hic Hx Hy I Hlt Hne.
  pose proof (at_ctl_lookup s c x (Giving j share (Z.of_nat (S n)) (t :: vs)) Hx) as Hx1.
  pose proof (i_ctl _ _ _ I c _ Hx1 ltac:(done)) as Hc. unfold ctl_ok in Hc. cbn in Hc.
  rewrite zlength_cons in Hc.
  assert (Ht : tcpu (threads s) t = Some c).
  { apply (cpu_threads_tcpu _ _ _ _ (i_base _ _ _ I c _ Hx1)). unfold cpu_threads. cbn. set_solver. }
  destruct (tcpu_Some _ _ _ Ht) as (th & Hth & _). exists th. split; [|apply give_inv; try done; lia].
  cbn [mig_fill]. rewrite (bind_ok _ _ _ _ _ (get_cpu_ok _ _ _ Hy)).
  rewrite (proj2 (Z.ltb_lt _ _) Hlt). cbn [negb].
  rewrite (bind_ok _ _ _ _ _ (get_cpu_ok _ _ _ Hx)), (proj2 (Z.eqb_neq _ _) Hne).
  rewrite (bind_ok _ _ _ _ _ (upd_thread_ok _ _ _ _ Hth)). unfold put_cpu. rewrite bind_modify.
  assert (Hby : cpu_base (threads s) i y) by (apply (i_base _ _ _ I); by rewrite at_ctl_ne).
  match goal with |- bind _ _ ?st = _ => set (s1 := st) end.
  assert (Hipi : (if c_isidle y then ipi_send i IPI_UNIDLE else ret tt) s1 = Ret (tt, given s i y t th)).
  { unfold given, enqueue. destruct (c_isidle y) eqn:Ei; [|done].
    rewrite (ipi_send_unidle s1 i (set_runqueue (c_runqueue y ++ [t]) y));
      [|by eapply (lookup_upd s)|apply Hby|apply Hby].
    unfold set_allcpus. cbn. by rewrite list_insert_insert_eq. }
  by rewrite (bind_ok _ _ _ _ _ Hipi).
Qed.

(** The inner loop: every victim is there when it is needed, and the state in
    between is a good one. *)
Lemma mig_fill_ok h0 c i j share n : forall s x y vs,
  i <> c -> allcpus s !! c = Some x -> allcpus s !! i = Some y ->
  inv h0 (at_ctl s c x (Giving j share (Z.of_nat n) vs)) ->
  exists n' vs' s', mig_fill n c i share vs s = Ret ((n', vs'), s') /\
    allcpus s' !! c = Some x /\ inv h0 (at_ctl s' c x (Giving j share (Z.of_nat n') vs')).
Proof.
  induction n as [|n IH]; intros s x y vs Hic Hx Hy I; [by exists O, vs, s|].
  pose proof (at_ctl_lookup s c x (Giving j share (Z.of_nat (S n)) vs) Hx) as Hx1.
  pose proof (i_ctl _ _ _ I c _ Hx1 ltac:(done)) as Hc. unfold ctl_ok in Hc. cbn in Hc.
  destruct vs as [|t vs]; [unfold zlength in Hc; cbn in Hc; lia|]. rewrite zlength_cons in Hc.
  destruct (decide (zlength (c_runqueue y) < share)) as [Hlt|Hge].
  2:{ exists (S n), (t :: vs), s. cbn [mig_fill].
      by rewrite (bind_ok _ _ _ _ _ (get_cpu_ok _ _ _ Hy)), (proj2 (Z.ltb_ge _ _)) by lia. }
  destruct (decide (t = c_curthread x)) as [->|Hne].
  - cbn [mig_fill]. rewrite (bind_ok _ _ _ _ _ (get_cpu_ok _ _ _ Hy)), (proj2 (Z.ltb_lt _ _) Hlt).
    cbn [negb]. rewrite (bind_ok _ _ _ _ _ (get_cpu_ok _ _ _ Hx)), Z.eqb_refl.
    apply (IH s x y); [done..|].
    pose proof (inv_goto _ _ _ _ (Giving j share (Z.of_nat n) (vs ++ [c_curthread x])) I Hx1) as Hg.
    unfold at_ctl, set_allcpus in *. cbn in *. rewrite list_insert_insert_eq in Hg.
    apply Hg; [solve_Permutation|done|]. unfold ctl_ok. cbn. rewrite zlength_snoc. lia.
  - destruct (mig_fill_give h0 c i j share n s x y t vs) as (th & R & I'); [done..|].
    rewrite R. apply (IH _ x (enqueue t y)); [done|cbn; by rewrite list_lookup_insert_ne|cbn; by eapply lookup_upd|done].
Qed.

Lemma mig_take_ok n q vs :
  (n <= length q)%nat ->
  exists q' v, mig_take n q vs = Ret (q', v) /\ q' ++ v ≡ₚ q ++ vs /\ (length v = n + length vs)%nat.
Proof.
  revert q vs. induction n as [|n IH]; intros q vs Hn; cbn; [by exists q, vs|].
  destruct q as [|t q _] using rev_ind; [cbn in Hn; lia|].
  rewrite last_snoc, removelast_last. rewrite length_app in Hn. cbn in Hn.
  destruct (IH q (t :: vs)) as (q' & v & R & Hp & Hl); [lia|]. exists q', v.
  split; [done|]. split; [|cbn in Hl; lia]. rewrite Hp. solve_Permutation.
Qed.

(** A processor only moves to another place. *)
Lemma goto_inv h0 s c x k :
  inv h0 s -> allcpus s !! c = Some x -> victims_of k ≡ₚ victims_of (c_ctl x) -> k <> Halted ->
  ctl_ok (set_ctl k x) -> exists s', goto c k s = Ret (tt, s') /\ inv h0 s'.
Proof.
  intros I Hx Hk1 Hk2 Hk3. rewrite (goto_ok _ _ _ _ Hx). eexists. split; [done|]. by apply inv_goto.
Qed.

Lemma mig_count_ok h0 s c x i my tot :
  inv h0 s -> allcpus s !! c = Some x -> c_ctl x = Counting i my tot ->
  exists s', mig_count c i my tot s = Ret (tt, s') /\ inv h0 s'.
Proof.
  intros I Hx Ek. pose proof (i_ctl _ _ _ I c x Hx ltac:(done)) as Hc. unfold ctl_ok in Hc.
  rewrite Ek in Hc. pose proof (lookup_lt_Some _ _ _ Hx) as Hlt.
  unfold mig_count. rewrite bind_get. destruct (Z.ltb_spec i (zlength (allcpus s))) as [Hi|Hi].
  - destruct (lookup_lt_is_Some_2 (allcpus s) (Z.to_nat i)) as [y Hy]; [unfold zlength in Hi; lia|].
    rewrite (bind_ok _ _ _ _ _ (get_cpu_ok _ _ _ Hy)).
    apply (goto_inv _ _ _ x); [done|done|by rewrite Ek|done|].
    unfold ctl_ok. cbn. pose proof (w32_range (tot + zlength (c_runqueue y))) as [? _].
    pose proof (zlength_nonneg (c_runqueue y)).
    destruct (Nat.eqb_spec (Z.to_nat i) c) as [Heq|]; [|lia]. rewrite Heq, Hx in Hy. injection Hy as <-. lia.
  - destruct (Z.ltb_spec my (DIVROUNDUP tot (zlength (allcpus s))));
      (apply (goto_inv _ _ _ x); [done|done|by rewrite Ek|done|]); [done|].
    unfold ctl_ok. cbn. unfold DIVROUNDUP in *. unfold zlength in *.
    assert (0 <= (tot + Z.of_nat (length (allcpus s)) - 1) / Z.of_nat (length (allcpus s)))
      by (apply Z.div_pos; lia). lia.
Qed.

Lemma mig_give_ok h0 s c x i share n vs :
  inv h0 s -> allcpus s !! c = Some x -> c_ctl x = Giving i share n vs ->
  exists s', mig_give c i share n vs s = Ret (tt, s') /\ inv h0 s'.
Proof.
  intros I Hx Ek. pose proof (i_ctl _ _ _ I c x Hx ltac:(done)) as Hc. unfold ctl_ok in Hc.
  rewrite Ek in Hc. unfold mig_give. rewrite bind_get.
  destruct (Z.ltb_spec i (zlength (allcpus s))) as [Hi|Hi]; cbn [andb].
  2:{ destruct vs; apply (goto_inv _ _ _ x); rewrite ?Ek; done. }
  destruct (Z.ltb_spec 0 n) as [Hn|Hn]; [|destruct vs; apply (goto_inv _ _ _ x); rewrite ?Ek; done].
  destruct (Nat.eqb_spec (Z.to_nat i) c) as [Heq|Hic].
  { apply (goto_inv _ _ _ x); rewrite ?Ek; try done. unfold ctl_ok. cbn. lia. }
  destruct (lookup_lt_is_Some_2 (allcpus s) (Z.to_nat i)) as [y Hy]; [unfold zlength in Hi; lia|].
  destruct (mig_fill_ok h0 c (Z.to_nat i) i share (Z.to_nat n) s x y vs) as (n' & vs' & s' & R & Hx' & I');
    [done..| |].
  { replace (at_ctl _ _ _ _) with s; [done|]. rewrite Z2Nat.id by lia. unfold at_ctl, set_allcpus.
    rewrite list_insert_id; [by destruct s|]. rewrite Hx. f_equal. rewrite <- Ek. by destruct x. }
  rewrite (bind_ok _ _ _ _ _ R), (goto_ok _ _ _ _ Hx'). eexists. split; [done|].
  pose proof (at_ctl_lookup s' c x (Giving i share (Z.of_nat n') vs') Hx') as Hx1.
  pose proof (i_ctl _ _ _ I' c _ Hx1 ltac:(done)) as Hc'. unfold ctl_ok in Hc'. cbn in Hc'.
  pose proof (inv_goto _ _ _ _ (Giving (i + 1) share (Z.of_nat n') vs') I' Hx1) as Hg.
  unfold at_ctl, set_allcpus in *. cbn in *. rewrite list_insert_insert_eq in Hg.
  apply Hg; [done..|]. unfold ctl_ok. cbn. lia.
Qed.

(** Every part of [thread_consider_migration]. *)
Lemma migration_ok h0 s c x :
  inv h0 s -> allcpus s !! c = Some x -> migrating (c_ctl x) = true ->
  exists s', thread_consider_migration c s = Ret (tt, s') /\ inv h0 s'.
Proof.
  intros I Hx Hm. unfold thread_consider_migration.
  rewrite (bind_ok _ _ _ _ _ (get_cpu_ok _ _ _ Hx)).
  pose proof (i_ctl _ _ _ I c x Hx ltac:(done)) as Hc. unfold ctl_ok in Hc.
  destruct (i_base _ _ _ I c x Hx) as [Hcur Hq Hz Hp Hup].
  destruct (c_ctl x) as [| | | |i my tot|share n|i share n vs|vs| |] eqn:Ek; try done.
  - by apply (mig_count_ok h0 s c x).
  - destruct (mig_take_ok (Z.to_nat n) (c_runqueue x) []) as (q & v & R & Hpv & Hl); [unfold zlength in Hc; lia|].
    rewrite R, bind_lift. unfold put_cpu. rewrite bind_modify.
    cbn in Hl, Hq. rewrite app_nil_r in Hpv, Hq. rewrite Nat.add_0_r in Hl.
    erewrite goto_ok by (by eapply lookup_upd). eexists. split; [done|].
    unfold at_ctl, set_allcpus. cbn. rewrite list_insert_insert_eq.
    apply (inv_upd_cpu h0 s None c x (set_ctl (Giving 0 share n v) (set_runqueue q x)) I Hx); try done.
    + unfold cpu_places. cbn. rewrite Ek. cbn. rewrite <- Hpv. solve_Permutation.
    + split; cbn; try done. by rewrite Hpv.
    + unfold ctl_ok, zlength. cbn. lia.
  - by apply (mig_give_ok h0 s c x).
  - unfold put_cpu. rewrite bind_modify. erewrite goto_ok by (by eapply lookup_upd).
    eexists. split; [done|]. unfold at_ctl, set_allcpus. cbn. rewrite list_insert_insert_eq.
    apply (inv_upd_cpu h0 s None c x (set_ctl Yielding (set_runqueue (c_runqueue x ++ vs) x)) I Hx); try done.
    + unfold cpu_places. cbn. rewrite Ek. cbn. solve_Permutation.
    + split; cbn; try done. by rewrite app_nil_r.
Qed.

(** *** Interrupts and calls *)

(** A processor changes its place and the fields that no list depends on. *)
Lemma inv_move h0 s c x y :
  inv h0 s -> allcpus s !! c = Some x -> c_self y = c_self x -> c_curthread y = c_curthread x ->
  c_zombies y = c_zombies x -> c_isidle y = c_isidle x -> c_runqueue y = c_runqueue x ->
  victims_of (c_ctl y) = victims_of (c_ctl x) -> c_ctl y <> Halted ->
  (c_ipi_pending y = 0 \/ c_ipi_pending y = 4) -> ctl_ok y ->
  inv h0 (set_allcpus (<[c := y]> (allcpus s)) s).
Proof.
  intros I Hx E1 E2 E3 E4 E5 E6 Hh Hp Hc.
  apply (inv_upd_cpu h0 s None c x y I Hx); try done.
  - unfold cpu_places. by rewrite E2, E3, E4, E5, E6.
  - destruct (i_base _ _ _ I c x Hx) as [? ? ? ? ?]. split; rewrite ?E2, ?E3, ?E5, ?E6; done.
Qed.

Lemma hardclock_ok h0 s c x :
  inv h0 s -> allcpus s !! c = Some x -> interruptible (c_ctl x) = true ->
  exists s', hardclock c s = Ret (tt, s') /\ inv h0 s'.
Proof.
  intros I Hx Hi. unfold hardclock. rewrite (bind_ok _ _ _ _ _ (get_cpu_ok _ _ _ Hx)).
  unfold put_cpu. rewrite bind_modify.
  assert (Hv : victims_of (c_ctl x) = []) by (by destruct (c_ctl x)).
  pose proof (k_pending _ _ _ (i_base _ _ _ I c x Hx)) as Hp.
  destruct (_ =? 0); erewrite goto_ok by (by eapply lookup_upd); eexists; (split; [done|]);
    unfold at_ctl, set_allcpus; cbn; rewrite list_insert_insert_eq;
    apply (inv_move h0 s c x); try done.
  unfold ctl_ok. cbn. pose proof (zlength_nonneg (c_runqueue x)). lia.
Qed.

Lemma ipi_ok h0 s c x :
  inv h0 s -> allcpus s !! c = Some x -> interruptible (c_ctl x) = true ->
  exists s', interprocessor_interrupt c s = Ret (tt, s') /\ inv h0 s'.
Proof.
  intros I Hx Hi. unfold interprocessor_interrupt. rewrite (bind_ok _ _ _ _ _ (get_cpu_ok _ _ _ Hx)).
  pose proof (k_pending _ _ _ (i_base _ _ _ I c x Hx)) as Hp.
  assert (Hb : Z.testbit (c_ipi_pending x) IPI_PANIC = false /\
    Z.testbit (c_ipi_pending x) IPI_OFFLINE = false /\
    Z.testbit (c_ipi_pending x) IPI_TLBSHOOTDOWN = false) by (by destruct Hp as [-> | ->]).
  destruct Hb as (-> & -> & ->). rewrite bind_ret, (bind_ok _ _ _ _ _ (upd_cpu_ok _ _ _ _ Hx)).
  erewrite goto_ok by (by eapply lookup_upd). eexists. split; [done|].
  unfold at_ctl, set_allcpus. cbn. rewrite list_insert_insert_eq.
  apply (inv_move h0 s c x); try done; [by destruct (c_ctl x)|by left].
Qed.

(** Back from an interrupt, with the line as [b] says. *)
Lemma resume_inv h0 s c x b :
  inv h0 s -> allcpus s !! c = Some x -> victims_of (c_ctl x) = [] ->
  inv h0 (set_allcpus (<[c := set_ctl (if c_isidle x then Idled else Exec) (set_ipi_line b x)]> (allcpus s)) s).
Proof.
  intros I Hx Hv. apply (inv_move h0 s c x); try done; destruct (c_isidle x) eqn:E; try done;
    apply (k_pending _ _ _ (i_base _ _ _ I c x Hx)).
Qed.

Lemma resume_ok s c x :
  allcpus s !! c = Some x -> resume c s = Ret (tt, at_ctl s c x (if c_isidle x then Idled else Exec)).
Proof.
  intros Hx. unfold resume. rewrite (bind_ok _ _ _ _ _ (get_cpu_ok _ _ _ Hx)). by apply goto_ok.
Qed.

Lemma resume_at h0 s c x :
  inv h0 s -> allcpus s !! c = Some x -> victims_of (c_ctl x) = [] ->
  inv h0 (at_ctl s c x (if c_isidle x then Idled else Exec)).
Proof.
  intros I Hx Hv. pose proof (resume_inv h0 s c x (c_ipi_line x) I Hx Hv) as Hr.
  unfold at_ctl. destruct x. exact Hr.
Qed.

Lemma clear_ipi_ok h0 s c x :
  inv h0 s -> allcpus s !! c = Some x -> c_ctl x = Clearing ->
  exists s', lamebus_clear_ipi c s = Ret (tt, s') /\ inv h0 s'.
Proof.
  intros I Hx Hc. unfold lamebus_clear_ipi. rewrite (bind_ok _ _ _ _ _ (upd_cpu_ok _ _ _ _ Hx)).
  erewrite resume_ok by (by eapply lookup_upd). eexists. split; [done|].
  unfold at_ctl, set_allcpus. cbn. rewrite list_insert_insert_eq.
  apply (resume_inv h0 s c x false I Hx). by rewrite Hc.
Qed.

(** A thread leaves its process. *)
Lemma detach_ok h0 s c x th :
  running h0 s c x th ->
  running h0 (set_threads (<[c_curthread x := set_t_proc None th]> (threads s)) s) c x (set_t_proc None th).
Proof.
  intros [I Hx Hctl Hth]. destruct (cur_not_listed _ _ _ _ I Hx Hctl) as [Hnz _].
  pose proof (i_base _ _ _ I c x Hx) as Hb.
  destruct (update_lists _ _ _ (set_t_proc None th) Hth eq_refl eq_refl) as [Hk Hbl].
  split; [|done|done|apply lookup_insert_eq].
  apply (inv_change h0 s _ c x x (c_curthread x) None None); auto; cbn.
  - by rewrite list_insert_id.
  - apply Hb.
  - intros u Hu. by apply lookup_insert_ne.
  - rewrite Hk. apply (i_places _ _ _ I).
  - eapply has_new_perm; [|apply (i_heap _ _ _ I)]. unfold all_blocks. cbn. by rewrite Hbl.
  - by eapply cpu_base_update.
  - intros _. by apply (i_ctl _ _ _ I c).
  - eapply sleep_update; [exact Hth|done|apply I].
Qed.

Lemma thread_exit_ok h0 s c x th :
  running h0 s c x th -> t_proc th = Some kproc \/ t_proc th = None ->
  exists s', thread_exit c s = Ret (tt, s') /\ inv h0 s'.
Proof.
  intros Hr Hp. unfold thread_exit. pose proof Hr as [I Hx Hctl Hth].
  rewrite (bind_ok _ _ _ _ _ (get_cpu_ok _ _ _ Hx)), (bind_ok _ _ _ _ _ (get_thread_ok _ _ _ Hth)).
  assert (Hk : bool_decide (t_proc th = Some kproc) || bool_decide (t_proc th = None) = true).
  { apply orb_true_iff. destruct Hp; [left|right]; by apply bool_decide_eq_true. }
  rewrite Hk, bind_kassert.
  assert (Hd : exists s1 th1,
    (if bool_decide (t_proc th = Some kproc) then upd_thread (c_curthread x) (set_t_proc None) else ret tt) s =
      Ret (tt, s1) /\ running h0 s1 c x th1 /\ t_proc th1 = None).
  { case_bool_decide.
    - rewrite (upd_thread_ok _ _ _ _ Hth). do 2 eexists. split; [done|]. by split; [apply detach_ok|].
    - exists s, th. destruct Hp; done. }
  destruct Hd as (s1 & th1 & R & Hr1 & Hp1). rewrite (bind_ok _ _ _ _ _ R).
  rewrite (bind_ok _ _ _ _ _ (get_thread_ok _ _ _ (r_thread _ _ _ _ _ Hr1))).
  rewrite bool_decide_eq_true_2, bind_kassert by done.
  destruct (thread_switch_ok _ _ _ _ _ S_ZOMBIE 0 Hr1) as (b & s' & R' & I' & Hb); [done..|].
  rewrite (bind_ok _ _ _ _ _ R'). destruct b; [by specialize (Hb eq_refl)|]. by exists s'.
Qed.

Lemma thread_yield_ok h0 s c x th :
  running h0 s c x th -> exists s', thread_yield c s = Ret (tt, s') /\ inv h0 s'.
Proof.
  intros Hr. destruct (thread_switch_ok _ _ _ _ _ S_READY 0 Hr) as (b & s' & R & I' & _); [done..|].
  exists s'. unfold thread_yield. by rewrite (bind_ok _ _ _ _ _ R).
Qed.

(** [hardclock]'s yield does nothing in an idle processor. *)
Lemma hardclock_yield_ok h0 s c x :
  inv h0 s -> allcpus s !! c = Some x -> c_ctl x = Yielding ->
  exists s', hardclock_yield c s = Ret (tt, s') /\ inv h0 s'.
Proof.
  intros I Hx Hc. unfold hardclock_yield. rewrite (bind_ok _ _ _ _ _ (resume_ok _ _ _ Hx)).
  pose proof (resume_at _ _ _ _ I Hx ltac:(by rewrite Hc)) as I1.
  pose proof (at_ctl_lookup s c x (if c_isidle x then Idled else Exec) Hx) as Hx1.
  destruct (c_isidle x) eqn:Eid.
  - eexists. split; [|exact I1]. unfold thread_yield, thread_switch.
    rewrite bind_bind, (bind_ok _ _ _ _ _ (get_cpu_ok _ _ _ Hx1)). cbn. by rewrite Eid.
  - destruct (tcpu_Some _ _ _ (k_cur _ _ _ (i_base _ _ _ I1 c _ Hx1))) as (th & Hth & _).
    eapply thread_yield_ok. by split.
Qed.

Lemma inv_weaken h0 s c : inv h0 s -> inv_at h0 s (Some c).
Proof. intros [? ? ? Hc ?]. split; try done. intros d z Hd _. by apply (Hc d z Hd). Qed.

(** Taking sleepers off a wait channel. *)
Lemma wake_inv h0 s wc l l1 l2 :
  inv h0 s -> wchans s !! wc = Some l -> l1 ++ l2 ≡ₚ l ->
  inv h0 (set_hands (hands s ++ l1) (set_wchans (<[wc := l2]> (wchans s)) s)).
Proof.
  intros I Hl Hp. destruct (concat_insert _ _ _ l2 Hl) as (rest & H1 & H2).
  assert (Hperm : concat (<[wc := l2]> (wchans s)) ++ hands s ++ l1 ≡ₚ concat (wchans s) ++ hands s).
  { rewrite H1, H2, <- Hp. solve_Permutation. }
  destruct I as [Hpl Hh Hb Hc Hs]. split; cbn; try done.
  - rewrite <- Hpl. unfold places. cbn. by rewrite Hperm.
  - by rewrite Hperm.
Qed.

Lemma wakes_ok h0 s wc :
  inv h0 s -> (wc < length (wchans s))%nat ->
  (exists s', wchan_wakeone wc s = Ret (tt, s') /\ inv h0 s') /\
  (exists s', wchan_wakeall wc s = Ret (tt, s') /\ inv h0 s').
Proof.
  intros I Hw. destruct (wchan_get s wc Hw) as (l & Hl & Hg).
  unfold wchan_wakeone, wchan_wakeall. rewrite !bind_get, Hg, !bind_lift. split.
  - destruct l as [|t l]; [by exists s|]. eexists. split; [done|].
    by apply (wake_inv h0 s wc (t :: l) [t] l).
  - eexists. split; [done|]. apply (wake_inv h0 s wc l l []); [done|done|by rewrite app_nil_r].
Qed.

(** ** The theorems *)

Lemma step_ok h0 s c l : inv h0 s -> enabled s c l -> exists s', run_label c l s = Ret (tt, s') /\ inv h0 s'.
Proof.
  intros I (x & cur & Hx & Hcur & Hcan).
  assert (Hrun : c_ctl x = Exec -> running h0 s c x cur) by (intros; by split).
  destruct l; cbn [can run_label] in *.
  - by apply (hardclock_ok _ _ _ x).
  - destruct Hcan. by apply (ipi_ok _ _ _ x).
  - by apply (clear_ipi_ok _ _ _ x).
  - rewrite (resume_ok _ _ _ Hx). eexists. split; [done|]. apply resume_at; [done|done|].
    by destruct (c_ctl x).
  - by apply (migration_ok _ _ _ x).
  - by apply (hardclock_yield_ok _ _ _ x).
  - pose proof (i_ctl _ _ _ I c x Hx ltac:(done)) as Hk. unfold ctl_ok in Hk. rewrite Hcan in Hk.
    destruct (switch_next_ok h0 s c x) as (s' & R & I' & _);
      [by apply inv_weaken|done|done|by rewrite Hcan|]. eauto.
  - by eapply thread_yield_ok, Hrun.
  - destruct Hcan as [Hc Hwc].
    destruct (thread_switch_ok _ _ _ _ _ S_SLEEP wc (Hrun Hc)) as (b & s' & R & I' & _); [done..|].
    exists s'. unfold wchan_sleep. by rewrite (bind_ok _ _ _ _ _ R).
  - destruct Hcan as [Hc Hp]. by apply (thread_exit_ok h0 s c x cur (Hrun Hc)).
  - rewrite (bind_ok _ _ _ _ _ (get_cpu_ok _ _ _ Hx)), (upd_thread_ok _ _ _ _ Hcur).
    eexists. split; [done|]. apply (detach_ok _ _ _ _ _ (Hrun Hcan)).
  - destruct Hcan as (Hc & Hp & Hn).
    destruct (thread_fork_ok h0 s c x cur name proc result (Hrun Hc) Hp Hn) as (r & s' & R & I').
    exists s'. by rewrite (bind_ok _ _ _ _ _ R).
  - destruct Hcan as [_ Hw]. apply (wakes_ok h0 s wc I Hw).
  - destruct Hcan as [_ Hw]. apply (wakes_ok h0 s wc I Hw).
  - by apply wake_ok.
Qed.

Lemma sched_reach_inv h0 s0 s : inv h0 s0 -> reach s0 s -> inv h0 s.
Proof.
  intros I Hr. induction Hr as [|s c l s' Hr IH He R]; [done|].
  destruct (step_ok _ _ _ _ IH He) as (s1 & R1 & I1). congruence.
Qed.

(** *** Booting *)

Lemma tcpu_new (m : gmap Z thread) t th u : m !! t = None -> u <> t -> tcpu (<[t := th]> m) u = tcpu m u.
Proof. intros _ Hu. unfold tcpu. by rewrite lookup_insert_ne. Qed.

(** [s] with a processor more, which runs the new thread [t]. *)
Definition with_cpu s (h : H) (p t : Z) (th : thread) : sched H :=
  mkSched (allcpus s ++ [mkCpu p t [] 0 false [] 0 (replicate 16 0) 0 false Exec])
          (<[t := th]> (threads s)) (wchans s) (hands s) h.

Lemma with_cpu_inv h0 s h p t th :
  inv h0 s -> threads s !! t = None -> t_cpu th = Some (length (allcpus s)) ->
  has_new h0 h ((p, sizeof_cpu) :: thread_blocks (t, th) ++ all_blocks s) ->
  inv h0 (with_cpu s h p t th).
Proof.
  intros I Hf Hc Hh. split; cbn.
  - rewrite map_to_list_insert by done. cbn. rewrite <- (i_places _ _ _ I). unfold places. cbn.
    rewrite flat_map_app. cbn. solve_Permutation.
  - eapply has_new_perm; [|exact Hh]. unfold all_blocks. cbn.
    rewrite map_to_list_insert by done. rewrite fmap_app. cbn. solve_Permutation.
  - intros d z Hd. apply lookup_app_Some in Hd as [Hd|[Hl Hd]].
    + apply cpu_base_new; [|done]. by apply (i_base _ _ _ I).
    + apply list_lookup_singleton_Some in Hd as [Hd <-].
      replace d with (length (allcpus s)) by lia.
      split; cbn; auto. unfold tcpu. by rewrite lookup_insert_eq.
  - intros d z Hd _. apply lookup_app_Some in Hd as [Hd|[Hl Hd]].
    + by apply (i_ctl _ _ _ I d).
    + by apply list_lookup_singleton_Some in Hd as [_ <-].
  - eapply Forall_impl; [apply (i_sleep _ _ _ I)|]. cbn. intros u (d & Hd & Hl). exists d.
    rewrite length_app. split; [|cbn; lia]. unfold tcpu in *. rewrite lookup_insert_ne; [done|].
    intros <-. by rewrite Hf in Hd.
Qed.

Lemma cpu_create_inv h0 s bootname n s' :
  inv h0 s -> (forall i, zlength (bootname i) <= 15) ->
  cpu_create bootname 0 0 s = Ret (n, s') ->
  inv h0 s' /\ exists p t th h, s' = with_cpu s h p t th /\ n = length (allcpus s) /\
    t_proc th = Some kproc /\ t_cpu th = Some n.
Proof.
  intros I Hname R. unfold cpu_create in R.
  destruct (kmalloc_has_new _ _ _ sizeof_cpu (i_heap _ _ _ I)) as (p & h1 & E1 & Hc1); [done|].
  rewrite (bind_ok _ _ _ _ _ (on_heap_ok _ _ _ _ E1)) in R.
  destruct Hc1 as [[-> _]|[Hp Hh1]]; [done|]. rewrite (proj2 (Z.eqb_neq p 0)) in R by lia.
  cbn [negb Z.eqb] in R. rewrite bind_get in R. cbn [allcpus set_kheap] in R.
  pose proof (Hname (Z.of_nat (length (allcpus s)))) as Hnm.
  destruct (thread_create_ok h0 (set_kheap h1 s) (bootname (Z.of_nat (length (allcpus s)))) [(p, sizeof_cpu)])
    as [(h' & R1 & _)|(t & nm & h2 & Ht & Hf & R1 & Hh2)]; [done|unfold heap_max; lia|..];
    rewrite (bind_ok _ _ _ _ _ R1) in R; [done|].
  rewrite (proj2 (Z.eqb_neq t 0)) in R by lia.
  set (th0 := mkThread (nm, bootname (Z.of_nat (length (allcpus s)))) S_READY 0 None None) in *.
  change (set_threads _ _) with (with_new s h2 t th0) in R.
  rewrite (bind_ok _ _ _ _ _ (upd_new _ _ _ _ _)) in R.
  assert (Hst : exists k h3, has_new h0 h3 ((p, sizeof_cpu) :: thread_blocks (t, set_t_stack k th0) ++ all_blocks s) /\
    (do* upd_thread t (set_t_cpu (Some (length (allcpus s)))) in
     do* modify (fun s => set_allcpus (allcpus s ++
            [mkCpu p t [] 0 false [] 0 (replicate 16 0) 0 false Exec]) s) in
     ret (length (allcpus s))) (with_new s h3 t (set_t_stack k (set_t_proc (Some kproc) th0))) = Ret (n, s')).
  { destruct (length (allcpus s) =? 0)%nat.
    - exists 0, h2. split; [|by rewrite bind_ret in R].
      eapply has_new_perm; [|exact Hh2]. cbn. solve_Permutation.
    - destruct (kmalloc_has_new _ _ _ STACK_SIZE Hh2) as (k & h3 & E3 & Hc3); [done|].
      rewrite bind_bind in R. erewrite bind_ok in R by (apply on_heap_ok; exact E3).
      destruct Hc3 as [[-> _]|[Hk Hh3]]; [done|]. rewrite (proj2 (Z.eqb_neq k 0)) in R by lia.
      change (set_kheap h3 _) with (with_new s h3 t (set_t_proc (Some kproc) th0)) in R.
      rewrite (bind_ok _ _ _ _ _ (upd_new _ _ _ _ _)) in R. exists k, h3. split; [|exact R].
      eapply has_new_perm; [|exact Hh3]. unfold thread_blocks. cbn.
      rewrite (proj2 (Z.eqb_neq k 0)) by lia. solve_Permutation. }
  clear R Hh2. destruct Hst as (k & h3 & Hh3 & R).
  rewrite (bind_ok _ _ _ _ _ (upd_new _ _ _ _ _)), bind_modify in R. injection R as <- <-.
  split.
  - apply (with_cpu_inv h0 s h3 p t
      (set_t_cpu (Some (length (allcpus s))) (set_t_stack k (set_t_proc (Some kproc) th0)))); done.
  - exists p, t, (set_t_cpu (Some (length (allcpus s))) (set_t_stack k (set_t_proc (Some kproc) th0))), h3. done.
Qed.

(** A machine whose processors have been found: [thread_bootstrap] for the
    first one, [cpu_create] for each of the others. *)
Inductive booted (h0 : H) : sched H -> Prop :=
| booted_first bootname nw s :
    heap_ok h0 -> (forall i, zlength (bootname i) <= 15) ->
    thread_bootstrap bootname 0 0 (mkSched [] ∅ (replicate nw []) [] h0) = Ret (tt, s) ->
    booted h0 s
| booted_more bootname s n s' :
    booted h0 s -> (forall i, zlength (bootname i) <= 15) ->
    cpu_create bootname 0 0 s = Ret (n, s') -> booted h0 s'.

Lemma empty_inv h0 nw : heap_ok h0 -> inv h0 (mkSched [] ∅ (replicate nw []) [] h0).
Proof.
  intros Hok. assert (Hc : concat (replicate nw ([] : list Z)) = []) by (by induction nw).
  split; cbn; try done.
  - unfold places. cbn. by rewrite Hc, map_to_list_empty.
  - unfold all_blocks. cbn. rewrite map_to_list_empty. by apply has_new_refl.
  - by rewrite Hc.
Qed.

Lemma booted_inv h0 s : booted h0 s -> inv h0 s.
Proof.
  induction 1 as [bootname nw s Hok Hn R|bootname s n s' _ IH Hn R].
  - unfold thread_bootstrap in R. rewrite bind_modify in R.
    apply bind_ret_inv in R as (n & s1 & R1 & R).
    destruct (cpu_create_inv _ _ _ _ _ (empty_inv h0 nw Hok) Hn R1) as (I1 & p & t & th & h & -> & -> & Hp & Hc).
    cbn in Hc. assert (Hx : allcpus (with_cpu (mkSched [] ∅ (replicate nw []) [] h0) h p t th) !! 0%nat =
      Some (mkCpu p t [] 0 false [] 0 (replicate 16 0) 0 false Exec)) by done.
    cbn [length allcpus] in R. rewrite (bind_ok _ _ _ _ _ (get_cpu_ok _ _ _ Hx)) in R. cbn [c_curthread] in R.
    erewrite bind_ok in R by (apply upd_thread_ok; apply lookup_insert_eq).
    apply bind_ret_inv in R as (? & ? & R1' & R). apply kassert_inv in R as [_ ->].
    unfold get_thread in R1'. cbn in R1'. rewrite lookup_insert_eq in R1'. injection R1' as _ <-.
    unfold set_threads. cbn. rewrite insert_insert_eq.
    assert (Hs : set_t_cpu (Some 0%nat) th = th) by (destruct th; cbn in *; by subst).
    rewrite Hs. exact I1.
  - by eapply cpu_create_inv.
Qed.

(** *** What the scheduler guarantees *)

(** C3. No step of the scheduler goes wrong: in a machine with any number of
    processors, after any interleaving of timer and interprocessor interrupts,
    wakeups, forks, sleeps, exits and migrations, the next such step of any
    processor completes.  No assertion fails, no structure of a destroyed
    thread is touched, [thread_consider_migration] never takes more threads
    than its run queue or its list of victims holds, and a zombie never
    runs. *)
Theorem sched_steps_safe h0 s0 s c l :
  booted h0 s0 -> reach s0 s -> enabled s c l -> exists s', run_label c l s = Ret (tt, s').
Proof.
  intros Hb Hr He. destruct (step_ok h0 s c l) as (s' & R & _); eauto.
  eapply sched_reach_inv; [by apply booted_inv|done].
Qed.

(** C10. No thread is lost, duplicated or leaked: at any time every thread that
    was created and not destroyed is in exactly one place (running on a
    processor, on one run queue, on one wait channel, a zombie of one
    processor, taken off a channel by one waker, or a victim of one migration),
    the heap holds exactly their structures, names and stacks, and two
    processors never use the stack of the same thread, not even an idle one. *)
Theorem threads_conserved h0 s0 s :
  booted h0 s0 -> reach s0 s ->
  NoDup (places s) /\ (forall t : Z, t ∈ places s <-> is_Some (threads s !! t)) /\
  has_new h0 (kheap s) (all_blocks s) /\
  (forall c d x y, allcpus s !! c = Some x -> allcpus s !! d = Some y -> c <> d ->
     c_curthread x <> c_curthread y).
Proof.
  intros Hb Hr. assert (I : inv h0 s) by (eapply sched_reach_inv; [by apply booted_inv|done]).
  split; [by eapply places_nodup|]. split; [|split; [apply I|]].
  - intros t. rewrite (i_places _ _ _ I), list_elem_of_fmap. split.
    + intros ([u th] & -> & Hu). apply elem_of_map_to_list in Hu. cbn. eauto.
    + intros [th Ht]. exists (t, th). by rewrite elem_of_map_to_list.
  - intros c d x y Hx Hy Hne Heq. pose proof (k_cur _ _ _ (i_base _ _ _ I c x Hx)) as H1.
    pose proof (k_cur _ _ _ (i_base _ _ _ I d y Hy)) as H2. congruence.
Qed.

(** C13. A processor does not sleep while it has work: whenever a processor
    waits in [cpu_idle] and its run queue is not empty, its interprocessor
    interrupt line is up, and when it has taken the interrupt it runs the
    first thread of the queue. *)
Theorem idle_cpu_is_woken h0 s0 s c x t q :
  booted h0 s0 -> reach s0 s ->
  allcpus s !! c = Some x -> c_ctl x = Idling -> c_runqueue x = t :: q ->
  enabled s c LIpi /\
  exists s' y, (do* run_label c LIpi in do* run_label c LClear in run_label c LRetry) s = Ret (tt, s') /\
    allcpus s' !! c = Some y /\ c_curthread y = t /\ c_ctl y = Exec.
Proof.
  intros Hb Hr Hx Hctl Hq. assert (I : inv h0 s) by (eapply sched_reach_inv; [by apply booted_inv|done]).
  pose proof (i_base _ _ _ I c x Hx) as Hbx.
  pose proof (i_ctl _ _ _ I c x Hx ltac:(done)) as Hk. unfold ctl_ok in Hk. rewrite Hctl in Hk.
  destruct Hk as [Hid [?|Hline]]; [congruence|]. split.
  { destruct (tcpu_Some _ _ _ (k_cur _ _ _ Hbx)) as (th & Hth & _). exists x, th.
    split; [done|]. split; [done|]. cbn. by rewrite Hctl. }
  pose proof (k_pending _ _ _ Hbx) as Hp.
  set (y := set_ctl Idled (set_ipi_line false (set_ctl Clearing (set_ipi_pending 0 x)))).
  assert (R1 : run_label c LIpi s =
    Ret (tt, set_allcpus (<[c := set_ctl Clearing (set_ipi_pending 0 x)]> (allcpus s)) s)).
  { cbn. unfold interprocessor_interrupt. rewrite (bind_ok _ _ _ _ _ (get_cpu_ok _ _ _ Hx)).
    assert (Hbt : Z.testbit (c_ipi_pending x) IPI_PANIC = false /\
      Z.testbit (c_ipi_pending x) IPI_OFFLINE = false /\
      Z.testbit (c_ipi_pending x) IPI_TLBSHOOTDOWN = false) by (by destruct Hp as [-> | ->]).
    destruct Hbt as (-> & -> & ->). rewrite bind_ret, (bind_ok _ _ _ _ _ (upd_cpu_ok _ _ _ _ Hx)).
    erewrite goto_ok by (by eapply lookup_upd). unfold at_ctl, set_allcpus. cbn.
    by rewrite list_insert_insert_eq. }
  rewrite (bind_ok _ _ _ _ _ R1). set (s1 := set_allcpus _ s) in *.
  assert (R2 : run_label c LClear s1 = Ret (tt, set_allcpus (<[c := y]> (allcpus s)) s)).
  { cbn. unfold lamebus_clear_ipi.
    erewrite bind_ok by (apply upd_cpu_ok; by eapply lookup_upd).
    erewrite resume_ok by (cbn; rewrite list_insert_insert_eq; by eapply lookup_upd).
    unfold at_ctl, set_allcpus. cbn. rewrite Hid, !list_insert_insert_eq. done. }
  rewrite (bind_ok _ _ _ _ _ R2).
  assert (I2 : inv h0 (set_allcpus (<[c := y]> (allcpus s)) s)).
  { apply (inv_move h0 s c x); try done; [by rewrite Hctl|by left]. }
  destruct (switch_next_ok h0 _ c y (inv_weaken _ _ c I2)) as (s' & R & _ & Hrun);
    [by eapply lookup_upd|done|done|].
  destruct (Hrun t q Hq) as (z & Hz & Hcur & Hex). exists s', z. done.
Qed.

End inv.

(** ** Where it goes wrong *)

Section limits.
Context {H : Type} `{KHeap H}.
Implicit Types s : sched H.

(** A TLB shootdown that is requested while a complete flush is already
    pending writes in front of the array of mappings: [ipi_tlbshootdown] does
    not test for [TLBSHOOTDOWN_ALL]. *)
Theorem shootdown_after_all_faults s c x m :
  allcpus s !! c = Some x -> c_ctl x <> Halted -> c_numshootdown x = TLBSHOOTDOWN_ALL ->
  ipi_tlbshootdown c m s = Fault.
Proof.
  intros Hx Hh Hn. unfold ipi_tlbshootdown.
  assert (Ha : acquire_ipi_lock c s = Ret (tt, s)).
  { unfold acquire_ipi_lock. rewrite (bind_ok _ _ _ _ _ (get_cpu_ok _ _ _ Hx)). by destruct (c_ctl x). }
  by rewrite (bind_ok _ _ _ _ _ Ha), (bind_ok _ _ _ _ _ (get_cpu_ok _ _ _ Hx)), Hn.
Qed.

(** [mainbus_interrupt] clears the interrupt line after it has handled the
    pending requests: an interprocessor interrupt sent in between stays
    pending while the line is down, so that it is not delivered. *)
Theorem ipi_sent_before_clear_is_lost s s1 s2 c x code :
  allcpus s !! c = Some x -> c_ctl x = Clearing -> 0 <= code < 32 ->
  ipi_send c code s = Ret (tt, s1) -> lamebus_clear_ipi c s1 = Ret (tt, s2) ->
  exists y, allcpus s2 !! c = Some y /\ Z.testbit (c_ipi_pending y) code = true /\
    ~ enabled s2 c LIpi.
Proof.
  intros Hx Hc Hcode R1 R2. unfold ipi_send in R1.
  rewrite (proj2 (Z.leb_le 0 code)), (proj2 (Z.ltb_lt code 32)) in R1 by lia.
  cbn [andb] in R1. rewrite bind_kassert in R1.
  assert (Ha : acquire_ipi_lock c s = Ret (tt, s)).
  { unfold acquire_ipi_lock. by rewrite (bind_ok _ _ _ _ _ (get_cpu_ok _ _ _ Hx)), Hc. }
  rewrite (bind_ok _ _ _ _ _ Ha), (bind_ok _ _ _ _ _ (upd_cpu_ok _ _ _ _ Hx)) in R1.
  erewrite upd_cpu_ok in R1 by (by eapply lookup_upd). injection R1 as <-.
  unfold lamebus_clear_ipi in R2. unfold set_allcpus in R2 at 1. cbn in R2.
  rewrite list_insert_insert_eq in R2.
  erewrite bind_ok in R2 by (apply upd_cpu_ok; by eapply lookup_upd).
  unfold set_allcpus in R2 at 1. cbn in R2. rewrite list_insert_insert_eq in R2.
  erewrite resume_ok in R2 by (by eapply lookup_upd).
  injection R2 as <-. eexists. split; [apply at_ctl_lookup; by eapply lookup_upd|].
  split.
  - cbn. rewrite Z.lor_spec, Z.shiftl_1_l, Z.pow2_bits_true by lia. apply orb_true_r.
  - intros (z & cur & Hz & _ & _ & Hl).
    rewrite at_ctl_lookup in Hz by (by eapply lookup_upd).
    by injection Hz as <-.
Qed.

(** A processor that goes offline while idle keeps the lock of its
    interprocessor interrupts: waking a thread that last ran on it never
    returns. *)
Theorem offline_cpu_blocks_wakers s t th c x :
  threads s !! t = Some th -> t_cpu th = Some c -> allcpus s !! c = Some x ->
  c_ctl x = Halted -> c_isidle x = true -> thread_make_runnable t None s = NoFuel.
Proof.
  intros Ht Hc Hx Hh Hid. unfold thread_make_runnable.
  rewrite (bind_ok _ _ _ _ _ (get_thread_ok _ _ _ Ht)), Hc, bind_kassert.
  rewrite (bind_ok _ _ _ _ _ (get_cpu_ok _ _ _ Hx)). unfold put_cpu. rewrite bind_modify, Hid.
  unfold ipi_send. rewrite bind_kassert. unfold acquire_ipi_lock, bind, get_cpu. cbn.
  rewrite list_lookup_insert_eq by (by eapply lookup_lt_Some). cbn. by rewrite Hh.
Qed.

End limits.

(** ** A machine with two processors *)

Definition demo_name (i : Z) : list Z := [60; 98; 62].
Definition demo_heap : RefHeap.t := RefHeap.init 1000000.
Definition demo_run {A} (o : outcome (A * sched RefHeap.t)) : sched RefHeap.t :=
  match o with Ret (_, s) => s | _ => mkSched [] ∅ [] [] demo_heap end.

Definition demo1 : sched RefHeap.t :=
  demo_run (thread_bootstrap demo_name 0 0 (mkSched [] ∅ (replicate 2 []) [] demo_heap)).
Definition demo2 : sched RefHeap.t := demo_run (cpu_create demo_name 0 0 demo1).

Lemma demo_booted : booted demo_heap demo2.
Proof.
  assert (Hn : forall i, zlength (demo_name i) <= 15) by (intros; unfold zlength; cbn; lia).
  apply (booted_more demo_heap demo_name demo1 1%nat); [|done|vm_compute; reflexivity].
  apply (booted_first demo_heap demo_name 2%nat); [apply RefHeap.init_ok|done|vm_compute; reflexivity].
Qed.

(** The first thread of the second processor sleeps on channel 0, and the
    first processor wakes it up. *)
Definition demo3 : sched RefHeap.t := demo_run (run_label 1 (LSleep 0) demo2).
Definition demo4 : sched RefHeap.t := demo_run (run_label 0 (LWakeOne 0) demo3).
Definition demo5 : sched RefHeap.t := demo_run (run_label 0 (LWake 0) demo4).

Lemma demo_reach : reach demo2 demo5.
Proof.
  apply (reach_step demo2 demo4 0 (LWake 0)); [|do 2 eexists; split_and!; vm_compute; reflexivity || exact I|vm_compute; reflexivity].
  apply (reach_step demo2 demo3 0 (LWakeOne 0));
    [|do 2 eexists; split_and!; [vm_compute; reflexivity..|vm_compute; split; [reflexivity|lia]]|vm_compute; reflexivity].
  apply (reach_step demo2 demo2 1 (LSleep 0));
    [constructor|do 2 eexists; split_and!; [vm_compute; reflexivity..|vm_compute; split; [reflexivity|lia]]|vm_compute; reflexivity].
Qed.

Lemma sched_steps_safe_witness : exists s', run_label 1 LIpi demo5 = Ret (tt, s').
Proof.
  apply (sched_steps_safe demo_heap demo2 demo5 1 LIpi demo_booted demo_reach).
  do 2 eexists. split_and!; [vm_compute; reflexivity..|vm_compute; by split].
Defined.

Lemma threads_conserved_witness : NoDup (places demo5).
Proof. apply (threads_conserved demo_heap demo2 demo5 demo_booted demo_reach). Defined.

Lemma idle_cpu_is_woken_witness : enabled demo5 1 LIpi.
Proof.
  destruct (allcpus demo5 !! 1%nat) as [x|] eqn:E; [|vm_compute in E; discriminate].
  apply (idle_cpu_is_woken demo_heap demo2 demo5 1 x (hd 0 (c_runqueue x)) (tail (c_runqueue x))
           demo_booted demo_reach E); vm_compute in E; injection E as <-; reflexivity.
Defined.

Lemma shootdown_after_all_faults_witness :
  ipi_tlbshootdown 0 7 (demo_run (upd_cpu 0 (set_shootdown (replicate 16 0) (-1)) demo2)) = Fault.
Proof.
  eapply shootdown_after_all_faults; [vm_compute; reflexivity|discriminate|reflexivity].
Defined.

(** The second processor after the handler of an interprocessor interrupt. *)
Definition demo6 : sched RefHeap.t := demo_run (run_label 1 LIpi demo5).

Lemma ipi_sent_before_clear_is_lost_witness :
  exists y, allcpus (demo_run (lamebus_clear_ipi 1 (demo_run (ipi_send 1 3 demo6)))) !! 1%nat = Some y /\
    Z.testbit (c_ipi_pending y) 3 = true /\
    ~ enabled (demo_run (lamebus_clear_ipi 1 (demo_run (ipi_send 1 3 demo6)))) 1 LIpi.
Proof.
  eapply (ipi_sent_before_clear_is_lost demo6 (demo_run (ipi_send 1 3 demo6)) _ 1 _ 3);
    [vm_compute; reflexivity|reflexivity|lia|vm_compute; reflexivity|vm_compute; reflexivity].
Defined.

(** The second processor is idle and goes offline. *)
Definition demo7 : sched RefHeap.t :=
  demo_run (interprocessor_interrupt 1 (demo_run (thread_shutdown 0 demo3))).

Lemma offline_cpu_blocks_wakers_witness :
  match allcpus demo7 !! 1%nat with
  | Some x => thread_make_runnable (c_curthread x) None demo7 = NoFuel
  | None => False
  end.
Proof.
  destruct (allcpus demo7 !! 1%nat) as [x|] eqn:E; [|vm_compute in E; discriminate].
  destruct (threads demo7 !! c_curthread x) as [th|] eqn:Et.
  - apply (offline_cpu_blocks_wakers demo7 (c_curthread x) th 1 x Et); [|exact E|..];
      vm_compute in E; injection E as <-; [|reflexivity..].
    vm_compute in Et. injection Et as <-. reflexivity.
  - vm_compute in E. injection E as <-. vm_compute in Et. discriminate.
Defined.
