(* ===== verification/Migration.v ===== *)
(** Thread migration balances the run queues: [thread_consider_migration]
    (kern/thread/thread.c, Sched.v) run by a busy processor while the others
    leave the queues alone. *)

From stdpp Require Import base numbers list gmap.
From Stdlib Require Import ZArith Lia.
From S2P Require Import Prelude Heap Sched SchedSpec.
Open Scope Z_scope.

Section balance.
Context {H : Type} `{KHeap H}.
Implicit Types s : sched H.

(** The parts of a migration, one after the other. *)
Fixpoint migrate_alone (fuel : nat) (c : nat) : M (sched H) unit :=
  match fuel with
  | O => fun _ => NoFuel
  | S fuel' =>
      let* x := get_cpu c in
      if migrating (c_ctl x) then
        do* thread_consider_migration c in migrate_alone fuel' c
      else ret tt
  end.

Definition qlen (x : cpu) : Z := zlength (c_runqueue x).
Definition qlens s : list Z := qlen <$> allcpus s.

Definition zsum (l : list Z) : Z := foldr Z.add 0 l.

Lemma zsum_app l1 l2 : zsum (l1 ++ l2) = zsum l1 + zsum l2.
Proof.
  induction l1 as [|a l1 IH]; [done|]. change (a + zsum (l1 ++ l2) = a + zsum l1 + zsum l2).
  rewrite IH. lia.
Qed.

Lemma zsum_nonneg l : Forall (fun a => 0 <= a) l -> 0 <= zsum l.
Proof. induction 1 as [|a l Ha _ IH]; [done|]. change (0 <= a + zsum l). lia. Qed.

Lemma qlens_nonneg s : Forall (fun a => 0 <= a) (qlens s).
Proof. unfold qlens. apply list.Forall_fmap, list.Forall_true. intros x. apply zlength_nonneg. Qed.

Lemma qlens_lookup s c x : allcpus s !! c = Some x -> qlens s !! c = Some (qlen x).
Proof. intros Hx. unfold qlens. by rewrite list_lookup_fmap, Hx. Qed.

Lemma qlens_at_ctl s c x k : allcpus s !! c = Some x -> qlens (at_ctl s c x k) = qlens s.
Proof.
  intros Hx. unfold qlens, at_ctl. cbn. rewrite list_fmap_insert. apply list_insert_id.
  by rewrite list_lookup_fmap, Hx.
Qed.

Lemma at_ctl_twice s c x k k' : at_ctl (at_ctl s c x k) c (set_ctl k x) k' = at_ctl s c x k'.
Proof. unfold at_ctl, set_allcpus. cbn. by rewrite list_insert_insert_eq. Qed.

Lemma migrate_step fuel c s x s' :
  allcpus s !! c = Some x -> migrating (c_ctl x) = true ->
  thread_consider_migration c s = Ret (tt, s') ->
  migrate_alone (S fuel) c s = migrate_alone fuel c s'.
Proof.
  intros Hx Hm R. cbn [migrate_alone].
  by rewrite (bind_ok _ _ _ _ _ (get_cpu_ok _ _ _ Hx)), Hm, (bind_ok _ _ _ _ _ R).
Qed.

(** *** Counting *)

Lemma zsum_take_le l n : Forall (fun a => 0 <= a) l -> 0 <= zsum (take n l) <= zsum l.
Proof.
  intros Hl. pose proof (take_drop n l) as Ht. pose proof Hl as Hl'. rewrite <- Ht in Hl'.
  apply Forall_app in Hl' as [H1 H2]. apply zsum_nonneg in H1, H2.
  rewrite <- Ht at 3. rewrite zsum_app. lia.
Qed.

(** The count after [i] rounds. *)
Definition counting s (c i : nat) : control :=
  Counting (Z.of_nat i) (if (c <? i)%nat then default 0 (qlens s !! c) else 0)
           (zsum (take i (qlens s))).

Lemma mig_count_step s c x i :
  allcpus s !! c = Some x -> (i < length (allcpus s))%nat -> zsum (qlens s) < two32 ->
  thread_consider_migration c (at_ctl s c x (counting s c i)) =
  Ret (tt, at_ctl s c x (counting s c (S i))).
Proof.
  intros Hx Hi Hs. unfold thread_consider_migration.
  pose proof (at_ctl_lookup s c x (counting s c i) Hx) as Hx1.
  rewrite (bind_ok _ _ _ _ _ (get_cpu_ok _ _ _ Hx1)). cbn [c_ctl set_ctl counting].
  unfold mig_count. rewrite bind_get. cbn [allcpus at_ctl set_allcpus].
  unfold zlength at 1. rewrite length_insert, (proj2 (Z.ltb_lt _ _)) by lia.
  rewrite Nat2Z.id. destruct (lookup_lt_is_Some_2 (allcpus s) i Hi) as [y Hy].
  assert (Hq : exists z, allcpus (at_ctl s c x (counting s c i)) !! i = Some z /\ qlen z = qlen y).
  { destruct (decide (i = c)) as [->|Hne].
    - rewrite Hx in Hy. injection Hy as <-. eauto.
    - exists y. by rewrite at_ctl_ne. }
  destruct Hq as (z & Hz & Hzq). rewrite (bind_ok _ _ _ _ _ (get_cpu_ok _ _ _ Hz)).
  change (zlength (c_runqueue z)) with (qlen z). rewrite Hzq.
  rewrite (goto_ok _ _ _ _ Hx1), at_ctl_twice. do 2 f_equal. unfold counting. f_equal.
  pose proof (qlens_lookup _ _ _ Hy) as Hly. pose proof (qlens_lookup _ _ _ Hx) as Hlx.
  rewrite (take_S_r _ _ _ Hly), zsum_app. cbn [zsum foldr].
  f_equal.
  - lia.
  - destruct (Nat.eqb_spec i c) as [->|Hne].
    + rewrite (proj2 (Nat.ltb_lt c (S c))) by lia. by rewrite Hly.
    + destruct (Nat.ltb_spec c i), (Nat.ltb_spec c (S i)); try lia; done.
  - rewrite Z.add_0_r. apply w32_id. pose proof (zsum_take_le (qlens s) (S i) (qlens_nonneg s)) as Hle.
    rewrite (take_S_r _ _ _ Hly), zsum_app in Hle. cbn in Hle. unfold is_u32. lia.
Qed.

Lemma count_all s c x k fuel :
  allcpus s !! c = Some x -> zsum (qlens s) < two32 -> (k <= length (allcpus s))%nat ->
  migrate_alone (k + fuel) c (at_ctl s c x (counting s c (length (allcpus s) - k))) =
  migrate_alone fuel c (at_ctl s c x (counting s c (length (allcpus s)))).
Proof.
  intros Hx Hs. induction k as [|k IH]; intros Hk; [by rewrite Nat.sub_0_r|].
  cbn [Nat.add].
  erewrite migrate_step; [|by apply at_ctl_lookup|done|apply mig_count_step; [done|lia|done]].
  replace (S (length (allcpus s) - S k)) with (length (allcpus s) - k)%nat by lia. apply IH. lia.
Qed.

(** *** Giving threads away *)

(** What processor [i] can take of [n] threads. *)
Definition takes (n share len : Z) : Z := Z.min n (Z.max 0 (share - len)).

(** The inner loop gives processor [i] as many threads as it lacks, if the
    giver's own thread is not among them. *)
Lemma mig_fill_lens h0 c i j share n : forall s x y vs,
  i <> c -> allcpus s !! c = Some x -> allcpus s !! i = Some y ->
  inv h0 (at_ctl s c x (Giving j share (Z.of_nat n) vs)) ->
  length vs = n -> c_curthread x ∉ vs ->
  exists n' vs' s', mig_fill n c i share vs s = Ret ((n', vs'), s') /\
    allcpus s' !! c = Some x /\ inv h0 (at_ctl s' c x (Giving j share (Z.of_nat n') vs')) /\
    length vs' = n' /\ c_curthread x ∉ vs' /\
    Z.of_nat n' = Z.of_nat n - takes (Z.of_nat n) share (qlen y) /\
    qlens s' = <[i := qlen y + takes (Z.of_nat n) share (qlen y)]> (qlens s).
Proof.
  induction n as [|n IH]; intros s x y vs Hic Hx Hy I Hlen Hcur.
  { exists O, vs, s. split; [done|]. split; [done|]. split; [done|]. split; [done|]. split; [done|].
    assert (Ht : takes (Z.of_nat 0) share (qlen y) = 0) by (unfold takes; lia). rewrite Ht.
    split; [done|]. rewrite Z.add_0_r, list_insert_id; [done|]. by apply qlens_lookup. }
  destruct vs as [|t vs]; [done|]. cbn in Hlen.
  destruct (decide (qlen y < share)) as [Hlt|Hge].
  2:{ exists (S n), (t :: vs), s. cbn [mig_fill].
      rewrite (bind_ok _ _ _ _ _ (get_cpu_ok _ _ _ Hy)).
      rewrite (proj2 (Z.ltb_ge (zlength (c_runqueue y)) share)) by (fold (qlen y); lia). cbn [negb].
      split; [done|]. split; [done|]. split; [done|]. split; [cbn; lia|]. split; [done|].
      assert (Ht : takes (Z.of_nat (S n)) share (qlen y) = 0) by (unfold takes; lia). rewrite Ht.
      split; [lia|]. rewrite Z.add_0_r, list_insert_id; [done|]. by apply qlens_lookup. }
  apply not_elem_of_cons in Hcur as [Hne Hcur].
  destruct (mig_fill_give h0 c i j share n s x y t vs) as (th & R & I'); [done..|].
  rewrite R. assert (Hqe : qlen (enqueue t y) = qlen y + 1).
  { unfold qlen, enqueue. destruct (c_isidle y); cbn; apply zlength_snoc. }
  destruct (IH (given s i y t th) x (enqueue t y) vs) as (n' & vs' & s' & R' & Hx' & I'' & Hl' & Hc' & Hn & Hq);
    [done|cbn; by rewrite list_lookup_insert_ne|cbn; by eapply lookup_upd|done|lia|done|].
  assert (Htk : 1 + takes (Z.of_nat n) share (qlen y + 1) = takes (Z.of_nat (S n)) share (qlen y))
    by (unfold takes; lia).
  exists n', vs', s'. split; [done|]. split; [done|]. split; [done|]. split; [done|]. split; [done|].
  rewrite Hqe in Hn, Hq. split; [lia|]. rewrite Hq. unfold qlens, given. cbn.
  rewrite list_fmap_insert, list_insert_insert_eq. f_equal. lia.
Qed.

(** *** The outer loop *)

(** The free places below [share] on the processors from number [d] on, other
    than [c]. *)
Fixpoint room (c : nat) (share : Z) (d : nat) (l : list Z) : Z :=
  match l with
  | [] => 0
  | a :: r => (if (d =? c)%nat then 0 else Z.max 0 (share - a)) + room c share (S d) r
  end.

Lemma room_nonneg c share d l : 0 <= room c share d l.
Proof. revert d. induction l as [|a l IH]; intros d; [done|]. cbn [room]. specialize (IH (S d)). destruct (d =? c)%nat; lia. Qed.

(** What [n] processors with [share] places each cannot hold elsewhere. *)
Lemma room_enough c share d l :
  share * zlength l - zsum l <=
  room c share d l + (if (d <=? c)%nat then share - default share (l !! (c - d)%nat) else 0).
Proof.
  revert d. induction l as [|a l IH]; intros d.
  { change (zlength (A := Z) []) with 0. rewrite lookup_nil. cbn [zsum foldr room default from_option id].
    unfold id. destruct (d <=? c)%nat; lia. }
  rewrite zlength_cons, Z.mul_add_distr_l, Z.mul_1_r.
  change (zsum (a :: l)) with (a + zsum l). cbn [room].
  specialize (IH (S d)). destruct (Nat.eqb_spec d c) as [->|Hne].
  - rewrite Nat.leb_refl, Nat.sub_diag. cbn [lookup list_lookup default from_option id].
    rewrite (proj2 (Nat.leb_gt (S c) c)) in IH by lia. lia.
  - destruct (Nat.leb_spec d c) as [Hdc|Hdc].
    + rewrite (proj2 (Nat.leb_le (S d) c)) in IH by lia.
      replace (c - d)%nat with (S (c - S d)) by lia.
      change ((a :: l) !! S (c - S d)) with (l !! (c - S d)%nat). lia.
    + rewrite (proj2 (Nat.leb_gt (S d) c)) in IH by lia. lia.
Qed.

Lemma room_insert c share d l i a :
  (i < d)%nat -> room c share d (drop d (<[i := a]> l)) = room c share d (drop d l).
Proof. intros Hi. by rewrite drop_insert_lt by lia. Qed.

Lemma room_step c share d l a :
  l !! d = Some a ->
  room c share d (drop d l) =
  (if (d =? c)%nat then 0 else Z.max 0 (share - a)) + room c share (S d) (drop (S d) l).
Proof. intros Ha. by rewrite (drop_S l a d Ha). Qed.

(** The queues while threads are given away: the giver has [share] threads and
    nobody gets more than that. *)
Definition between (c : nat) (share : Z) (l0 l : list Z) : Prop :=
  length l = length l0 /\ l !! c = Some share /\
  forall d a b, d <> c -> l0 !! d = Some a -> l !! d = Some b -> a <= b <= Z.max a share.

Lemma between_give c share l0 l i a n :
  between c share l0 l -> i <> c -> l !! i = Some a -> 0 <= n ->
  between c share l0 (<[i := a + takes n share a]> l).
Proof.
  intros (Hl & Hc & Hb) Hic Ha Hn. split; [by rewrite length_insert|]. split; [by rewrite list_lookup_insert_ne|].
  intros d a0 b Hd H0' H1. destruct (decide (d = i)) as [->|Hne].
  - rewrite list_lookup_insert_eq in H1 by (by eapply lookup_lt_Some). injection H1 as <-.
    destruct (Hb i a0 a) as [? ?]; [done..|]. unfold takes. lia.
  - rewrite list_lookup_insert_ne in H1 by done. by apply (Hb d).
Qed.

(** Nothing is left to give. *)
Lemma give_done c share l0 s x i k :
  allcpus s !! c = Some x -> c_ctl x = Giving (Z.of_nat i) share (zlength (A := Z) []) [] ->
  between c share l0 (qlens s) ->
  exists s' x', migrate_alone (S (S k)) c s = Ret (tt, s') /\
    allcpus s' !! c = Some x' /\ c_ctl x' = Yielding /\ between c share l0 (qlens s').
Proof.
  intros Hx Hk Hb.
  assert (Hm : thread_consider_migration c s = Ret (tt, at_ctl s c x Yielding)).
  { unfold thread_consider_migration. rewrite (bind_ok _ _ _ _ _ (get_cpu_ok _ _ _ Hx)), Hk.
    unfold mig_give. rewrite bind_get, andb_false_r. by apply goto_ok. }
  rewrite (migrate_step _ _ _ _ _ Hx ltac:(by rewrite Hk) Hm).
  pose proof (at_ctl_lookup s c x Yielding Hx) as Hx1.
  cbn [migrate_alone]. rewrite (bind_ok _ _ _ _ _ (get_cpu_ok _ _ _ Hx1)).
  do 2 eexists. split; [done|]. split; [done|]. split; [done|]. by rewrite qlens_at_ctl.
Qed.

Lemma give_all h0 c share l0 k : forall s x i vs,
  allcpus s !! c = Some x -> c_ctl x = Giving (Z.of_nat i) share (zlength vs) vs ->
  inv h0 s -> c_curthread x ∉ vs -> between c share l0 (qlens s) ->
  (i + k = length (allcpus s))%nat -> zlength vs <= room c share i (drop i (qlens s)) ->
  exists s' x', migrate_alone (S (S k)) c s = Ret (tt, s') /\
    allcpus s' !! c = Some x' /\ c_ctl x' = Yielding /\ between c share l0 (qlens s').
Proof.
  induction k as [|k IH]; intros s x i vs Hx Hk I Hcur Hb Hi Hroom.
  - rewrite drop_ge in Hroom by (unfold qlens; rewrite length_fmap; lia). cbn [room] in Hroom.
    destruct vs as [|t vs]; [|rewrite zlength_cons in Hroom; pose proof (zlength_nonneg vs); lia].
    by apply (give_done c share l0 s x i 0).
  - destruct vs as [|t vs]; [by apply (give_done c share l0 s x i (S k))|].
    destruct (lookup_lt_is_Some_2 (allcpus s) i) as [y Hy]; [lia|].
    pose proof (qlens_lookup _ _ _ Hy) as Hqy. rewrite (room_step _ _ _ _ _ Hqy) in Hroom.
    pose proof (zlength_nonneg vs) as Hvs.
    assert (Hm : thread_consider_migration c s = mig_give c (Z.of_nat i) share (zlength (t :: vs)) (t :: vs) s).
    { unfold thread_consider_migration. by rewrite (bind_ok _ _ _ _ _ (get_cpu_ok _ _ _ Hx)), Hk. }
    assert (Hg : migrating (c_ctl x) = true) by (by rewrite Hk).
    unfold mig_give in Hm. rewrite bind_get, zlength_cons in Hm. unfold zlength at 1 in Hm.
    rewrite (proj2 (Z.ltb_lt (Z.of_nat i) _)), (proj2 (Z.ltb_lt 0 _)), Nat2Z.id in Hm by lia. cbn [andb] in Hm.
    destruct (Nat.eqb_spec i c) as [->|Hic].
    + rewrite (goto_ok _ _ _ _ Hx) in Hm. rewrite (migrate_step _ _ _ _ _ Hx Hg Hm).
      apply (IH _ (set_ctl (Giving (Z.of_nat c + 1) share (zlength vs + 1) (t :: vs)) x) (S c) (t :: vs)).
      * by apply at_ctl_lookup.
      * cbn [c_ctl set_ctl]. rewrite zlength_cons. f_equal. lia.
      * apply inv_goto; [done|done|by rewrite Hk|done|]. unfold ctl_ok. cbn. rewrite zlength_cons. lia.
      * done.
      * by rewrite (qlens_at_ctl _ _ _ _ Hx).
      * cbn. rewrite length_insert. lia.
      * rewrite (qlens_at_ctl _ _ _ _ Hx). lia.
    + destruct (mig_fill_lens h0 c i (Z.of_nat i) share (Z.to_nat (zlength vs + 1)) s x y (t :: vs))
        as (n' & vs' & s' & R & Hx' & I' & Hl' & Hc' & Hn & Hq); [done..| | |done|].
      { rewrite Z2Nat.id by lia. replace (at_ctl _ _ _ _) with s; [done|].
        unfold at_ctl, set_allcpus. rewrite list_insert_id; [by destruct s|].
        rewrite Hx. f_equal. rewrite <- (zlength_cons t vs), <- Hk. by destruct x. }
      { unfold zlength. cbn. lia. }
      rewrite (bind_ok _ _ _ _ _ R), (goto_ok _ _ _ _ Hx') in Hm.
      rewrite (migrate_step _ _ _ _ _ Hx Hg Hm). rewrite Z2Nat.id in Hn, Hq by lia.
      assert (Hlen : length (allcpus s') = length (allcpus s)).
      { pose proof (f_equal length Hq) as Hlq. unfold qlens in Hlq. by rewrite length_insert, !length_fmap in Hlq. }
      assert (Hzl : zlength vs' = Z.of_nat n') by (unfold zlength; lia).
      apply (IH _ (set_ctl (Giving (Z.of_nat i + 1) share (Z.of_nat n') vs') x) (S i) vs').
      * by apply at_ctl_lookup.
      * cbn [c_ctl set_ctl]. rewrite Hzl. f_equal. lia.
      * pose proof (at_ctl_lookup s' c x (Giving (Z.of_nat i) share (Z.of_nat n') vs') Hx') as Hx1.
        rewrite <- (at_ctl_twice s' c x (Giving (Z.of_nat i) share (Z.of_nat n') vs')).
        apply inv_goto; [done|done|done|done|]. unfold ctl_ok. cbn [c_ctl set_ctl]. lia.
      * done.
      * rewrite (qlens_at_ctl _ _ _ _ Hx'). rewrite Hq. apply between_give; [done..|lia].
      * cbn. rewrite length_insert, Hlen. lia.
      * rewrite (qlens_at_ctl _ _ _ _ Hx'). rewrite Hq, room_insert by lia. rewrite zlength_cons in Hroom.
        pose proof (room_nonneg c share (S i) (drop (S i) (qlens s))). rewrite Hzl, Hn. unfold takes. lia.
Qed.

(** *** The whole migration *)

(** The threads that the processor takes from its own queue. *)
Lemma take_step h0 s c x share n :
  inv h0 (at_ctl s c x (Taking share n)) -> allcpus s !! c = Some x -> c_isidle x = false ->
  0 <= n <= qlen x ->
  exists v q, let y := set_ctl (Giving 0 share (zlength v) v) (set_runqueue q x) in
    let s' := set_allcpus (<[c := y]> (allcpus s)) s in
    thread_consider_migration c (at_ctl s c x (Taking share n)) = Ret (tt, s') /\
    inv h0 s' /\ zlength v = n /\ zlength q = qlen x - n /\ c_curthread x ∉ v.
Proof.
  intros I Hx Hid Hn. pose proof (at_ctl_lookup s c x (Taking share n) Hx) as Hx1.
  destruct (mig_take_ok (Z.to_nat n) (c_runqueue x) []) as (q & v & R & Hp & Hl);
    [unfold qlen, zlength in Hn; lia|]. cbn in Hl. rewrite app_nil_r in Hp.
  assert (Hv : zlength v = n) by (unfold zlength; lia).
  exists v, q. cbv zeta.
  assert (Hm : thread_consider_migration c (at_ctl s c x (Taking share n)) =
    Ret (tt, set_allcpus (<[c := set_ctl (Giving 0 share (zlength v) v) (set_runqueue q x)]> (allcpus s)) s)).
  { unfold thread_consider_migration. rewrite (bind_ok _ _ _ _ _ (get_cpu_ok _ _ _ Hx1)).
    cbn [c_ctl set_ctl c_runqueue]. rewrite R, bind_lift. unfold put_cpu. rewrite bind_modify.
    erewrite goto_ok by (by eapply lookup_upd). unfold at_ctl, set_allcpus. cbn.
    rewrite !list_insert_insert_eq, Hv. done. }
  split; [done|]. destruct (migration_ok _ _ _ _ I Hx1 eq_refl) as (s2 & R2 & I2).
  rewrite Hm in R2. injection R2 as <-. split; [done|]. split; [done|]. split.
  - pose proof (Permutation_length Hp) as Hpl. rewrite length_app in Hpl. unfold qlen, zlength in *. lia.
  - assert (Hx2 : allcpus (set_allcpus (<[c := set_ctl (Giving 0 share (zlength v) v) (set_runqueue q x)]>
      (allcpus s)) s) !! c = Some (set_ctl (Giving 0 share (zlength v) v) (set_runqueue q x))) by (by eapply lookup_upd).
    destruct (places_split _ _ _ Hx2) as [rest Hpl]. pose proof (places_nodup _ _ _ I2) as Hnd.
    rewrite Hpl in Hnd. unfold cpu_places in Hnd. cbn in Hnd. rewrite Hid in Hnd. cbn in Hnd.
    apply list.NoDup_cons in Hnd as [Hnd _]. set_solver.
Qed.

(** The end of the count: nothing to do, or the processor has too many. *)
Lemma count_done s c x :
  allcpus s !! c = Some x ->
  let n := Z.of_nat (length (allcpus s)) in
  let share := DIVROUNDUP (zsum (qlens s)) n in
  thread_consider_migration c (at_ctl s c x (Counting n (qlen x) (zsum (qlens s)))) =
  Ret (tt, at_ctl s c x (if qlen x <? share then Yielding else Taking share (qlen x - share))).
Proof.
  intros Hx n share. pose proof (at_ctl_lookup s c x (Counting n (qlen x) (zsum (qlens s))) Hx) as Hx1.
  unfold thread_consider_migration. rewrite (bind_ok _ _ _ _ _ (get_cpu_ok _ _ _ Hx1)).
  cbn [c_ctl set_ctl]. unfold mig_count. rewrite bind_get. cbn [allcpus at_ctl set_allcpus].
  unfold zlength. rewrite length_insert. fold n. rewrite Z.ltb_irrefl. fold share.
  destruct (qlen x <? share); by rewrite (goto_ok _ _ _ _ Hx1), at_ctl_twice.
Qed.

Lemma share_bounds total n :
  0 <= total -> 0 < n -> 0 <= DIVROUNDUP total n /\ total <= DIVROUNDUP total n * n.
Proof.
  intros Ht Hn. unfold DIVROUNDUP. split; [apply Z.div_pos; lia|].
  pose proof (Z.div_mod (total + n - 1) n ltac:(lia)).
  pose proof (Z.mod_pos_bound (total + n - 1) n ltac:(lia)). lia.
Qed.

Lemma zsum_insert l i a b :
  l !! i = Some a -> zsum (<[i := b]> l) = zsum l - a + b.
Proof.
  intros Ha. rewrite insert_take_drop by (by eapply lookup_lt_Some).
  pose proof (take_drop_middle _ _ _ Ha) as Htd. rewrite <- Htd at 3. rewrite !zsum_app.
  cbn [zsum foldr]. fold (zsum (drop (S i) l)). lia.
Qed.

(** Taking and giving, in a processor with [share] threads or more. *)
Lemma take_and_give h0 s c x share :
  inv h0 (at_ctl s c x (Taking share (qlen x - share))) -> allcpus s !! c = Some x ->
  c_isidle x = false -> 0 <= share <= qlen x ->
  zsum (qlens s) <= share * Z.of_nat (length (allcpus s)) ->
  exists s' x', migrate_alone (3 + length (allcpus s)) c (at_ctl s c x (Taking share (qlen x - share))) =
      Ret (tt, s') /\
    allcpus s' !! c = Some x' /\ c_ctl x' = Yielding /\ between c share (qlens s) (qlens s').
Proof.
  intros I Hx Hid Hsh Hsum.
  destruct (take_step h0 s c x share (qlen x - share) I Hx Hid ltac:(lia))
    as (v & q & R & I3 & Hv & Hq & Hcur). cbv zeta in R, I3. cbn [Nat.add].
  rewrite (migrate_step _ _ _ _ _ (at_ctl_lookup s c x (Taking share (qlen x - share)) Hx) eq_refl R).
  set (y := set_ctl (Giving 0 share (zlength v) v) (set_runqueue q x)) in *.
  assert (Hql : qlens (set_allcpus (<[c := y]> (allcpus s)) s) = <[c := share]> (qlens s)).
  { unfold qlens. cbn. rewrite list_fmap_insert. f_equal. unfold qlen. cbn. lia. }
  pose proof (qlens_lookup _ _ _ Hx) as Hqx.
  apply (give_all h0 c share (qlens s) (length (allcpus s)) _ y 0 v); [by eapply lookup_upd|done|done|done| | |].
  - rewrite Hql. split; [by rewrite length_insert|]. split.
    + apply list_lookup_insert_eq. by eapply lookup_lt_Some.
    + intros d a b Hd Ha Hb'. rewrite list_lookup_insert_ne in Hb' by done.
      rewrite Ha in Hb'. injection Hb' as <-. lia.
  - cbn. by rewrite length_insert.
  - rewrite Hql, drop_0. pose proof (room_enough c share 0 (<[c := share]> (qlens s))) as Hre.
    rewrite Nat.sub_0_r, list_lookup_insert_eq in Hre by (by eapply lookup_lt_Some).
    cbn [Nat.leb default from_option id] in Hre. unfold id in Hre.
    rewrite zlength_insert, (zsum_insert _ _ _ _ Hqx) in Hre.
    assert (Hzl : zlength (qlens s) = Z.of_nat (length (allcpus s)))
      by (unfold zlength, qlens; by rewrite length_fmap).
    rewrite Hzl in Hre. lia.
Qed.

(** C25. Migration balances the load: a busy processor that calls
    [thread_consider_migration], while the others leave the run queues alone,
    keeps exactly one share (the average queue length, rounded up) if it had
    at least that many waiting threads and changes nothing otherwise; no other
    processor loses a thread, and none is filled beyond one share. *)
Theorem migration_balances h0 s0 s c x :
  booted h0 s0 -> reach s0 s ->
  allcpus s !! c = Some x -> c_ctl x = Counting 0 0 0 -> c_isidle x = false ->
  zsum (qlens s) < two32 ->
  let n := length (allcpus s) in
  let share := DIVROUNDUP (zsum (qlens s)) (Z.of_nat n) in
  exists s' x', migrate_alone (n + n + 4) c s = Ret (tt, s') /\
    allcpus s' !! c = Some x' /\ c_ctl x' = Yielding /\
    (if qlen x <? share then qlens s' = qlens s
     else between c share (qlens s) (qlens s')).
Proof.
  intros Hb Hr Hx Hk Hid Hs n share.
  assert (I : inv h0 s) by (eapply sched_reach_inv; [by apply booted_inv|done]).
  assert (Hn : (c < n)%nat) by (by eapply lookup_lt_Some).
  assert (Es : s = at_ctl s c x (counting s c (n - n))).
  { rewrite Nat.sub_diag. change (counting s c 0) with (Counting 0 0 0).
    rewrite <- Hk. unfold at_ctl, set_allcpus. rewrite list_insert_id; [by destruct s|].
    rewrite Hx. by destruct x. }
  pose proof (count_all s c x n (S (S (S (S n)))) Hx Hs ltac:(done)) as Hca. fold n in Hca.
  rewrite <- Es in Hca. replace (n + n + 4)%nat with (n + (S (S (S (S n)))))%nat by lia. rewrite Hca.
  assert (Hcnt : counting s c n = Counting (Z.of_nat n) (qlen x) (zsum (qlens s))).
  { unfold counting. rewrite (proj2 (Nat.ltb_lt c n)) by done. rewrite (qlens_lookup _ _ _ Hx).
    rewrite take_ge by (unfold qlens; rewrite length_fmap; done). done. }
  rewrite Hcnt. pose proof (at_ctl_lookup s c x (Counting (Z.of_nat n) (qlen x) (zsum (qlens s))) Hx) as Hx1.
  destruct (share_bounds (zsum (qlens s)) (Z.of_nat n)) as [Hsh0 Hsh1];
    [apply zsum_nonneg, qlens_nonneg|lia|]. fold share in Hsh0, Hsh1.
  rewrite (migrate_step _ _ _ _ _ Hx1 eq_refl (count_done s c x Hx)). fold n share.
  destruct (Z.ltb_spec (qlen x) share) as [Hlt|Hge].
  - pose proof (at_ctl_lookup s c x Yielding Hx) as Hx2.
    exists (at_ctl s c x Yielding), (set_ctl Yielding x). cbn [migrate_alone].
    rewrite (bind_ok _ _ _ _ _ (get_cpu_ok _ _ _ Hx2)). split; [done|]. split; [done|]. split; [done|].
    by apply qlens_at_ctl.
  - apply (take_and_give h0); [|done|done|lia|done].
    apply inv_goto; [done|done|by rewrite Hk|done|]. unfold ctl_ok. cbn [c_ctl set_ctl c_runqueue].
    fold (qlen x). lia.
Qed.

End balance.

(** ** A machine with two processors and some work *)

(** A check that a step is possible, for the steps used below. *)
Definition canb (x : cpu) (cur : thread) (l : label) : bool :=
  match l, c_ctl x with
  | LTimer, Exec => true
  | LTick, Yielding => true
  | LFork name (Some _) _, Exec => zlength name + 1 <=? heap_max
  | _, _ => false
  end.

Lemma canb_can x cur n l : canb x cur l = true -> can x cur n l.
Proof.
  unfold canb. destruct l as [| | | | | | | | | | |name [p|] r| | |]; destruct (c_ctl x) eqn:E; try done; cbn;
    rewrite E; try done. intros Hb. bprop. split_and!; [done|by left|done].
Qed.

Fixpoint run_labels (ls : list (nat * label)) (s : sched RefHeap.t) : option (sched RefHeap.t) :=
  match ls with
  | [] => Some s
  | (c, l) :: r =>
      match allcpus s !! c with
      | None => None
      | Some x =>
          match threads s !! c_curthread x with
          | None => None
          | Some cur =>
              if canb x cur l then
                match run_label c l s with Ret (_, s') => run_labels r s' | _ => None end
              else None
          end
      end
  end.

Lemma run_labels_reach ls s0 s s' :
  reach s0 s -> run_labels ls s = Some s' -> reach s0 s'.
Proof.
  revert s. induction ls as [|[c l] ls IH]; cbn; intros s Hr R; [by injection R as <-|].
  destruct (allcpus s !! c) as [x|] eqn:Hx; [|done].
  destruct (threads s !! c_curthread x) as [cur|] eqn:Hc; [|done].
  destruct (canb x cur l) eqn:Hcan; [|done].
  destruct (run_label c l s) as [[[] s1]| | |] eqn:R1; try done.
  apply (IH s1); [|done]. apply (reach_step s0 s c l); [done| |done].
  exists x, cur. by split_and!; [..|apply canb_can].
Qed.

(** Five threads forked on the first processor, then its sixteenth tick. *)
Definition demo_labels : list (nat * label) :=
  concat (replicate 15 [(0%nat, LTimer); (0%nat, LTick)]) ++
  replicate 5 (0%nat, LFork (demo_name 1) (Some 0) 0) ++ [(0%nat, LTimer)].

Definition demo_busy : sched RefHeap.t := default demo2 (run_labels demo_labels demo2).

Definition demo_busy_ok : bool :=
  match run_labels demo_labels demo2 with Some _ => true | None => false end.

Lemma demo_busy_reach : reach demo2 demo_busy.
Proof.
  assert (E : demo_busy_ok = true) by (vm_compute; reflexivity).
  unfold demo_busy_ok in E. unfold demo_busy.
  destruct (run_labels demo_labels demo2) as [s|] eqn:R; [|discriminate].
  cbn [default from_option id]. apply (run_labels_reach demo_labels demo2 demo2); [constructor|done].
Qed.

Lemma migration_balances_witness :
  qlens demo_busy = [5; 0] /\
  exists s' x', migrate_alone 8 0 demo_busy = Ret (tt, s') /\
    allcpus s' !! 0%nat = Some x' /\ c_ctl x' = Yielding /\ between 0 3 (qlens demo_busy) (qlens s').
Proof.
  split; [vm_compute; reflexivity|].
  destruct (allcpus demo_busy !! 0%nat) as [x|] eqn:E; [|vm_compute in E; discriminate].
  assert (Hx : c_ctl x = Counting 0 0 0 /\ c_isidle x = false /\ qlen x = 5)
    by (vm_compute in E; injection E as <-; vm_compute; split_and!; reflexivity).
  destruct Hx as (H1 & H2 & H3).
  destruct (migration_balances demo_heap demo2 demo_busy 0 x demo_booted demo_busy_reach E H1 H2
              ltac:(vm_compute; reflexivity)) as (s' & x' & R & Hx' & Hy & Hb).
  exists s', x'. rewrite H3 in Hb. split_and!; [exact R|exact Hx'|exact Hy|exact Hb].
Defined.
