(* ===== verification/Mksfs.v ===== *)
(** * Making a file system (user/sbin/mksfs)

    The program that formats a volume, on the file that stands for the disk:
    the block writer of disk.c, which goes on after short and interrupted
    writes, and mksfs.c, which lays out the superblock, the root directory and
    the free map.  The variant that runs on OS/161 itself is modelled, where
    [SWAPL] and [SWAPS] do nothing. *)

From stdpp Require Import base numbers list gmap.
From Stdlib Require Import ZArith Lia.
From S2P Require Import Prelude CLib Bitmap Uio Sfs.

(** ** The file *)

(** What [write] returns: a count, an interruption ([EINTR], [EAGAIN]), or
    another error. *)
Inductive wres := Wrote (len : Z) | Interrupted | Failed.

(** The system calls on the file that holds the disk, and what their manual
    pages promise for a file whose writes do not fail: [lseek] sets the
    position; [write] stores some first part of the data there and moves the
    position behind it, or is interrupted and does nothing.  [f_intr] bounds
    the interruptions that are still to come. *)
Class DiskFile (F : Type) := {
  f_open : list Z -> F -> Z * F;
  f_fstat : F -> Z * Z;
  f_lseek : Z -> F -> Z * F;
  f_write : list Z -> F -> wres * F;
  f_close : F -> Z * F;
  f_data : F -> list Z;
  f_pos : F -> Z;
  f_intr : F -> nat;
  f_ok : F -> Prop;
  f_fstat_spec f : f_ok f -> f_fstat f = (0, zlength (f_data f));
  f_lseek_spec f off : f_ok f -> 0 <= off <= zlength (f_data f) ->
    exists f', f_lseek off f = (off, f') /\ f_ok f' /\ f_data f' = f_data f /\ f_pos f' = off /\
      (f_intr f' <= f_intr f)%nat;
  f_write_spec f l : f_ok f -> l <> [] -> 0 <= f_pos f -> f_pos f + zlength l <= zlength (f_data f) ->
    exists r f', f_write l f = (r, f') /\ f_ok f' /\
      ((exists k, r = Wrote k /\ 0 < k <= zlength l /\
          f_data f' = splice (f_data f) (f_pos f) (take (Z.to_nat k) l) /\
          f_pos f' = f_pos f + k /\ (f_intr f' <= f_intr f)%nat) \/
       (r = Interrupted /\ f_data f' = f_data f /\ f_pos f' = f_pos f /\ (f_intr f' < f_intr f)%nat));
  f_close_spec f : f_ok f -> exists f', f_close f = (0, f') /\ f_data f' = f_data f
}.

Section mksfs.
Context {F : Type} `{DiskFile F}.

(** The static variables of the two files. *)
Record mkst := mk_mkst {
  m_file : F;
  m_fd : Z;
  m_nblocks : Z;
  bitbuf : list Z
}.

Definition set_file (f : F) (s : mkst) : mkst := mk_mkst f (m_fd s) (m_nblocks s) (bitbuf s).
Definition set_fd (fd : Z) (s : mkst) : mkst := mk_mkst (m_file s) fd (m_nblocks s) (bitbuf s).
Definition set_nblocks (n : Z) (s : mkst) : mkst := mk_mkst (m_file s) (m_fd s) n (bitbuf s).
Definition set_bitbuf (b : list Z) (s : mkst) : mkst := mk_mkst (m_file s) (m_fd s) (m_nblocks s) b.

(** [errx], [err] and a failed [assert] end the program. *)
Definition stop {A} : M mkst A := panic.
Definition assert_ (b : bool) : M mkst unit := kassert b.

Definition call {A} (op : F -> A * F) : M mkst A := fun s =>
  let (r, f) := op (m_file s) in Ret (r, set_file f s).

(** ** disk.c *)

Definition BLOCKSIZE : Z := 512.

Definition opendisk (path : list Z) : M mkst unit :=
  let* s := get in
  do* assert_ (m_fd s <? 0) in
  let* fd := call (f_open path) in
  do* modify (set_fd fd) in
  if fd <? 0 then stop else
  let* s := get in
  let (result, st_size) := f_fstat (m_file s) in
  if negb (result =? 0) then stop else
  modify (set_nblocks (w32 (st_size / BLOCKSIZE))).

Definition diskblocksize : M mkst Z :=
  let* s := get in
  do* assert_ (0 <=? m_fd s) in
  ret BLOCKSIZE.

Definition diskblocks : M mkst Z :=
  let* s := get in
  do* assert_ (0 <=? m_fd s) in
  ret (m_nblocks s).

(** [while (tot < BLOCKSIZE)]: each round writes a byte or uses up an
    interruption. *)
Fixpoint write_loop (fuel : nat) (cdata : list Z) (tot : Z) : M mkst unit :=
  match fuel with
  | O => fun _ => NoFuel
  | S fuel =>
      if tot <? BLOCKSIZE then
        let* len := call (f_write (slice cdata tot (BLOCKSIZE - tot))) in
        match len with
        | Interrupted => write_loop fuel cdata tot
        | Failed => stop
        | Wrote len => if len =? 0 then stop else write_loop fuel cdata (w32 (tot + len))
        end
      else ret tt
  end.

Definition write_fuel (s : mkst) : nat := S (Z.to_nat BLOCKSIZE + f_intr (m_file s)).

Definition diskwrite (data : list Z) (block : Z) : M mkst unit :=
  let* s := get in
  do* assert_ (0 <=? m_fd s) in
  let* pos := call (f_lseek (w32 (block * BLOCKSIZE))) in
  if pos <? 0 then stop else
  let* s := get in
  write_loop (write_fuel s) data 0.

Definition closedisk : M mkst unit :=
  let* s := get in
  do* assert_ (0 <=? m_fd s) in
  let* r := call f_close in
  if negb (r =? 0) then stop else
  modify (set_fd (-1)).

(** ** mksfs.c *)

Definition MAXBITBLOCKS : Z := 32.
Definition CHAR_BIT : Z := 8.

Definition writesuper (volname : list Z) (nblocks : Z) : M mkst unit :=
  let sp := zeros in
  if SFS_VOLNAME_SIZE <=? zlength volname then stop else
  let sp := wr32 sp 0 SFS_MAGIC in
  let sp := wr32 sp 4 nblocks in
  let sp := splice sp 8 (volname ++ [0]) in
  diskwrite sp SFS_SB_LOCATION.

Definition writerootdir : M mkst unit :=
  let sfi := zeros in
  let sfi := set_size sfi 0 in
  let sfi := set_type sfi SFS_TYPE_DIR in
  let sfi := set_linkcount sfi 1 in
  diskwrite sfi SFS_ROOT_LOCATION.

Definition doallocbit (bit : Z) : M mkst unit :=
  let byte := bit / CHAR_BIT in
  let mask := word_mask (bit mod CHAR_BIT) in
  let* s := get in
  let* w := lift (get_at (bitbuf s) byte) in
  do* assert_ (Z.land w mask =? 0) in
  let* b := lift (set_at (bitbuf s) byte (Z.lor w mask)) in
  modify (set_bitbuf b).

Definition writemap (i : Z) : M mkst unit :=
  let* s := get in
  diskwrite (slice (bitbuf s) (i * SFS_BLOCKSIZE) SFS_BLOCKSIZE) (SFS_MAP_LOCATION + i).

Definition writebitmap (fsblocks : Z) : M mkst unit :=
  let nbits := SFS_BITMAPSIZE fsblocks in
  let nblocks := SFS_BITBLOCKS fsblocks in
  if MAXBITBLOCKS <? nblocks then stop else
  do* doallocbit SFS_SB_LOCATION in
  do* doallocbit SFS_ROOT_LOCATION in
  do* for_ (Z.to_nat nblocks) 0 (fun i => doallocbit (SFS_MAP_LOCATION + i)) in
  do* for_ (Z.to_nat (nbits - fsblocks)) fsblocks doallocbit in
  for_ (Z.to_nat nblocks) 0 writemap.

Definition COLON : Z := 58.
Definition SLASH : Z := 47.

(** The checks on the volume name, and the removal of a trailing colon;
    strings are their bytes before the terminator. *)
Definition check_volname (volname : list Z) : option (list Z) :=
  let volname' :=
    match index_of volname COLON with
    | None => Some volname
    | Some i =>
        if negb (zlength (drop (Z.to_nat i) volname) =? 1) then None
        else Some (take (Z.to_nat i) volname)
    end in
  match volname' with
  | None => None
  | Some volname =>
      match index_of volname SLASH with
      | Some _ => None
      | None => Some volname
      end
  end.

Definition main (argv : list (list Z)) : M mkst Z :=
  match argv with
  | [_; path; volname] =>
      match check_volname volname with
      | None => stop
      | Some volname =>
          do* opendisk path in
          let* blocksize := diskblocksize in
          if negb (blocksize =? SFS_BLOCKSIZE) then stop else
          let* size := diskblocks in
          do* writesuper volname size in
          do* writerootdir in
          do* writebitmap size in
          do* closedisk in
          ret 0
      end
  | _ => stop
  end.

End mksfs.

Arguments mkst F : clear implicits.
