(* ===== verification/MksfsSpec.v ===== *)
(** * A new volume can be mounted

    [mksfs] writes an image of a certain form, for any file under it; a kernel
    that mounts such an image gets a file system that satisfies the invariants
    under which the operations of SFS are verified, and its root directory is
    an empty one. *)

From stdpp Require Import base numbers list gmap.
From Stdlib Require Import ZArith Lia.
From S2P Require Import Prelude CLib Heap Bitmap Array Uio Disk Sfs SfsFile SfsIo SfsSpec SfsDir Mksfs.

(** ** Blocks of an image *)

Definition image_block (l : list Z) (b : Z) : list Z := slice l (512 * b) 512.

Lemma image_block_splice l b d j :
  zlength d = 512 -> 0 <= b -> 0 <= j -> 512 * b + 512 <= zlength l -> 512 * j + 512 <= zlength l ->
  image_block (splice l (512 * b) d) j = if j =? b then d else image_block l j.
Proof.
  intros Hd Hb Hj Hlb Hlj. unfold image_block. change 512 with (Z.of_nat 512) at 3 5.
  rewrite !slice_eq; [|lia|lia|lia|rewrite splice_length; lia].
  destruct (Z.eqb_spec j b) as [->|Hne].
  - transitivity (slice d 0 (Z.of_nat 512)).
    + rewrite slice_eq by lia. apply map_ext_in. intros k Hk%in_seq.
      rewrite splice_get by lia. rewrite (proj2 (Z.leb_le _ _)), (proj2 (Z.ltb_lt _ _)) by lia.
      cbn [andb]. do 2 f_equal. lia.
    + unfold slice. rewrite drop_0, Nat2Z.id. apply take_ge. unfold zlength in Hd. lia.
  - apply map_ext_in. intros k Hk%in_seq. rewrite splice_get by lia.
    destruct (Z.leb_spec (512 * b) (512 * j + Z.of_nat k)),
      (Z.ltb_spec (512 * j + Z.of_nat k) (512 * b + zlength d)); try done. lia.
Qed.

(** ** disk.c *)

Section image.
Context {F : Type} `{DiskFile F}.
Implicit Types s : mkst F.

Notation fdata s := (f_data (m_file s)).

Lemma write_loop_spec fuel cdata data base tot s :
  f_ok (m_file s) -> zlength cdata = 512 -> 0 <= base -> base + 512 <= zlength data ->
  0 <= tot <= 512 -> fdata s = splice data base (take (Z.to_nat tot) cdata) ->
  f_pos (m_file s) = base + tot ->
  (Z.to_nat (512 - tot) + f_intr (m_file s) < fuel)%nat ->
  exists f, write_loop fuel cdata tot s = Ret (tt, set_file f s) /\ f_ok f /\
    f_data f = splice data base cdata.
Proof.
  revert tot s. induction fuel as [|fuel IH]; intros tot s Hok Hc Hb Hlen Ht Hd Hp Hf; [lia|].
  cbn [write_loop]. unfold BLOCKSIZE. destruct (Z.ltb_spec tot 512) as [Hlt|Hge].
  2: { exists (m_file s). assert (tot = 512) as -> by lia. split; [by destruct s|]. split; [done|].
       rewrite Hd. f_equal. apply take_ge. unfold zlength in Hc. lia. }
  assert (Htk : zlength (take (Z.to_nat tot) cdata) = tot)
    by (unfold zlength in *; rewrite length_take; lia).
  assert (Hl : zlength (slice cdata tot (512 - tot)) = 512 - tot) by (apply slice_length; lia).
  destruct (f_write_spec (m_file s) (slice cdata tot (512 - tot)))
    as (r & f & E & Hok' & Hr); [done| |lia| |].
  { intros E0. rewrite E0 in Hl. unfold zlength in Hl. cbn in Hl. lia. }
  { rewrite Hd, splice_length by lia. lia. }
  assert (Ec : call (f_write (slice cdata tot (512 - tot))) s = Ret (r, set_file f s))
    by (unfold call; by rewrite E).
  rewrite (bind_ok _ _ _ _ _ Ec).
  destruct Hr as [(k & -> & Hk & Hd' & Hp' & Hi)|(-> & Hd' & Hp' & Hi)].
  - rewrite (proj2 (Z.eqb_neq k 0)) by lia. rewrite w32_id by (unfold is_u32, two32; lia).
    destruct (IH (tot + k) (set_file f s)) as (f2 & E2 & ? & ?); cbn [set_file m_file];
      [done|done|done|done|lia| |lia|lia|exists f2; by split].
    rewrite Hd', Hd, Hp. rewrite <- Htk at 2. rewrite splice_splice; [|done|].
    + f_equal. rewrite Z2Nat.inj_add, <- (take_take_drop cdata) by lia. f_equal.
      unfold slice. rewrite take_take. f_equal. lia.
    + rewrite Htk. unfold zlength in *. rewrite length_take. lia.
  - destruct (IH tot (set_file f s)) as (f2 & E2 & ? & ?); cbn [set_file m_file];
      [done|done|done|done|lia|congruence|congruence|lia|exists f2; by split].
Qed.

Lemma diskwrite_spec data b s :
  f_ok (m_file s) -> 0 <= m_fd s -> zlength data = 512 -> 0 <= b < 8388608 ->
  512 * b + 512 <= zlength (fdata s) ->
  exists f, diskwrite data b s = Ret (tt, set_file f s) /\ f_ok f /\
    f_data f = splice (fdata s) (512 * b) data.
Proof.
  intros Hok Hfd Hd Hb Hlen. unfold diskwrite. mrun. rewrite (proj2 (Z.leb_le 0 _)) by done.
  unfold assert_. mrun. unfold BLOCKSIZE. rewrite w32_id by (unfold is_u32, two32; lia).
  destruct (f_lseek_spec (m_file s) (b * 512) Hok) as (f & E & Hok' & Hd' & Hp & Hi); [lia|].
  assert (Ec : call (f_lseek (b * 512)) s = Ret (b * 512, set_file f s)) by (unfold call; by rewrite E).
  rewrite (bind_ok _ _ _ _ _ Ec). rewrite (proj2 (Z.ltb_ge _ 0)) by lia. mrun.
  destruct (write_loop_spec (write_fuel (set_file f s)) data (fdata s) (512 * b) 0 (set_file f s))
    as (f2 & E2 & ? & ?); cbn [set_file m_file];
    [done|done|lia|lia|lia| |lia|unfold write_fuel, BLOCKSIZE; cbn [set_file m_file]; lia|].
  - change (Z.to_nat 0) with 0%nat. cbn [take]. by rewrite splice_nil.
  - exists f2. by split.
Qed.

(** ** The free map *)

(** The bytes of [bitbuf], and the bits that are set in them. *)
Definition buf_map (l : list Z) : bitmap := mk_bitmap 0 131072 0 l.

Record buf_ok (P : Z -> bool) (l : list Z) : Prop := {
  bo_len : zlength l = 16384;
  bo_byte k w : l !! k = Some w -> 0 <= w < 256;
  bo_bit i : 0 <= i < 131072 -> bit (buf_map l) i = P i
}.

Lemma buf_map_ok P l : buf_ok P l -> bitmap_ok (buf_map l).
Proof.
  intros [Hl Hb _]. split; cbn [nbits v buf_map]; [unfold two32; lia|by rewrite Hl|done|].
  intros i Hi. lia.
Qed.

Lemma buf_ok_ext P Q l : (forall i, 0 <= i < 131072 -> P i = Q i) -> buf_ok P l -> buf_ok Q l.
Proof. intros He [? ? Hb]. split; [done..|]. intros i Hi. by rewrite Hb, He. Qed.

Lemma doallocbit_spec P b s :
  buf_ok P (bitbuf s) -> 0 <= b < 131072 -> P b = false ->
  exists l, doallocbit b s = Ret (tt, set_bitbuf l s) /\ buf_ok (fun i => (i =? b) || P i) l.
Proof.
  intros Hok Hb HP. pose proof Hok as [Hl Hby Hbits]. unfold doallocbit, CHAR_BIT. mrun.
  destruct (bitmap_word (buf_map (bitbuf s)) b (buf_map_ok _ _ Hok) Hb) as (w & Hg & Hw & Hr & Hwr & Ht).
  cbn [v buf_map] in Hg, Hw, Hr. rewrite Hg. mrun.
  pose proof (Z.mod_pos_bound b 8 ltac:(lia)) as Hm.
  rewrite land_mask_zero by lia. rewrite Hbits, HP in Ht by lia. rewrite <- Ht.
  unfold assert_. cbn [negb]. mrun. rewrite set_at_in_range by lia. mrun.
  eexists. split; [done|]. split.
  - by rewrite zlength_insert.
  - intros k x [(_ & <- & _)|[_ Hk]]%list_lookup_insert_Some; [by apply lor_mask_byte|eauto].
  - intros i Hi.
    rewrite (bit_insert (buf_map (bitbuf s)) (b / 8) (b mod 8) w _ (fun _ => true));
      [|lia|lia|lia|done|intros; by apply testbit_set_if].
    rewrite <- Z.div_mod by lia. rewrite Hbits by lia. by destruct (i =? b).
Qed.

(** A loop that allocates the bits from [lo] on, at an offset. *)
Lemma alloc_range P off n lo s :
  buf_ok P (bitbuf s) -> 0 <= off + lo -> off + lo + Z.of_nat n <= 131072 ->
  (forall i, off + lo <= i < off + lo + Z.of_nat n -> P i = false) ->
  exists l, for_ n lo (fun i => doallocbit (off + i)) s = Ret (tt, set_bitbuf l s) /\
    buf_ok (fun i => ((off + lo <=? i) && (i <? off + lo + Z.of_nat n)) || P i) l.
Proof.
  intros Hok H0 H1 HP.
  destruct (for_inv (fun j st => exists l, st = set_bitbuf l s /\
      buf_ok (fun i => ((off + lo <=? i) && (i <? off + j)) || P i) l)
      (fun i => doallocbit (off + i)) n lo s) as (st & E & l & -> & Hl).
  - exists (bitbuf s). split; [by destruct s|]. eapply buf_ok_ext, Hok. intros i _.
    destruct (Z.leb_spec (off + lo) i), (Z.ltb_spec i (off + lo)); lia || done.
  - intros j st Hj (l & -> & Hl). destruct (doallocbit_spec _ (off + j) (set_bitbuf l s) Hl) as (l' & E & Hl').
    { lia. } { cbn beta. rewrite HP by lia. rewrite (proj2 (Z.ltb_ge (off + j) (off + j))) by lia.
               by rewrite andb_false_r. }
    exists (set_bitbuf l' s). split; [exact E|]. exists l'. split; [done|].
    eapply buf_ok_ext, Hl'. intros i _. cbn beta.
    destruct (Z.eqb_spec i (off + j)), (Z.leb_spec (off + lo) i), (Z.ltb_spec i (off + j)),
      (Z.ltb_spec i (off + (j + 1))); try lia; done.
  - exists l. split; [exact E|]. eapply buf_ok_ext, Hl. intros i _. cbn beta. by rewrite Z.add_assoc.
Qed.

(** ** The sizes of the free map *)

Lemma bitblocks_eq nb : 0 < nb <= 131072 ->
  SFS_BITMAPSIZE nb = 4096 * SFS_BITBLOCKS nb /\
  nb <= 4096 * SFS_BITBLOCKS nb < nb + 4096 /\ 0 < SFS_BITBLOCKS nb <= 32.
Proof.
  intros Hn. unfold SFS_BITBLOCKS, SFS_BITMAPSIZE, SFS_ROUNDUP.
  change SFS_BLOCKBITS with 4096. rewrite (w32_id (nb + 4096 - 1)) by (unfold is_u32, two32; lia).
  pose proof (Z.div_mod (nb + 4096 - 1) 4096 ltac:(lia)) as Hd.
  pose proof (Z.mod_pos_bound (nb + 4096 - 1) 4096 ltac:(lia)).
  rewrite w32_id by (unfold is_u32, two32; lia). rewrite Z.div_mul by lia. lia.
Qed.

(** The blocks that a new volume uses: the first ones, and the bits behind its
    end. *)
Definition used (nb i : Z) : bool :=
  (i <? 2 + SFS_BITBLOCKS nb) || ((nb <=? i) && (i <? 4096 * SFS_BITBLOCKS nb)).

Lemma zero_buf : buf_ok (fun _ => false) (replicate 16384 0).
Proof.
  split; [vm_compute; done| |].
  - intros k w [-> _]%lookup_replicate. lia.
  - intros i Hi. unfold bit. cbn [v buf_map].
    rewrite lookup_replicate_2; [apply Z.bits_0|].
    apply Nat2Z.inj_lt. rewrite Z2Nat.id by (apply Z.div_pos; lia).
    replace (Z.of_nat 16384) with 16384 by (vm_compute; done). apply Z.div_lt_upper_bound; lia.
Qed.

(** The bits that [writebitmap] sets. *)
Lemma writebitmap_bits nb s :
  buf_ok (fun _ => false) (bitbuf s) -> 3 <= nb <= 131072 ->
  exists l, buf_ok (used nb) l /\
    writebitmap nb s = for_ (Z.to_nat (SFS_BITBLOCKS nb)) 0 writemap (set_bitbuf l s).
Proof.
  intros Hok Hn. destruct (bitblocks_eq nb ltac:(lia)) as (Hs & Hr & Hm).
  unfold writebitmap. rewrite Hs. set (nm := SFS_BITBLOCKS nb) in *.
  unfold MAXBITBLOCKS. rewrite (proj2 (Z.ltb_ge 32 nm)) by lia.
  destruct (doallocbit_spec _ SFS_SB_LOCATION s Hok) as (l1 & E1 & H1); [unfold SFS_SB_LOCATION; lia|done|].
  rewrite (bind_ok _ _ _ _ _ E1).
  destruct (doallocbit_spec _ SFS_ROOT_LOCATION (set_bitbuf l1 s) H1) as (l2 & E2 & H2);
    [unfold SFS_ROOT_LOCATION; lia|done|]. rewrite (bind_ok _ _ _ _ _ E2).
  change (set_bitbuf l2 (set_bitbuf l1 s)) with (set_bitbuf l2 s).
  destruct (alloc_range _ SFS_MAP_LOCATION (Z.to_nat nm) 0 (set_bitbuf l2 s) H2) as (l3 & E3 & H3);
    unfold SFS_MAP_LOCATION, SFS_ROOT_LOCATION, SFS_SB_LOCATION in *; [lia|lia| |].
  { intros i Hi. cbn beta. rewrite (proj2 (Z.eqb_neq i 0)), (proj2 (Z.eqb_neq i 1)) by lia. done. }
  rewrite (bind_ok _ _ _ _ _ E3). change (set_bitbuf l3 (set_bitbuf l2 s)) with (set_bitbuf l3 s).
  destruct (alloc_range _ 0 (Z.to_nat (4096 * nm - nb)) nb (set_bitbuf l3 s) H3) as (l4 & E4 & H4);
    [lia|lia| |].
  { intros i Hi. cbn beta. rewrite (proj2 (Z.eqb_neq i 0)), (proj2 (Z.eqb_neq i 1)) by lia.
    rewrite (proj2 (Z.ltb_ge i (2 + 0 + Z.of_nat (Z.to_nat nm)))) by lia. by rewrite andb_false_r. }
  exists l4. split; [|by rewrite (bind_ok _ _ _ _ _ E4)].
  eapply buf_ok_ext, H4. intros i Hi. cbn beta. unfold used. fold nm.
  destruct (Z.leb_spec (0 + nb) i), (Z.ltb_spec i (0 + nb + Z.of_nat (Z.to_nat (4096 * nm - nb)))),
    (Z.leb_spec (2 + 0) i), (Z.ltb_spec i (2 + 0 + Z.of_nat (Z.to_nat nm))), (Z.eqb_spec i 0),
    (Z.eqb_spec i 1), (Z.ltb_spec i (2 + nm)), (Z.leb_spec nb i), (Z.ltb_spec i (4096 * nm)); try lia; done.
Qed.

(** Writing the blocks of the map. *)
Lemma writemap_all n s :
  f_ok (m_file s) -> 0 <= m_fd s -> zlength (bitbuf s) = 16384 -> (n <= 32)%nat ->
  512 * (2 + Z.of_nat n) <= zlength (fdata s) ->
  exists f, for_ n 0 writemap s = Ret (tt, set_file f s) /\ f_ok f /\
    zlength (f_data f) = zlength (fdata s) /\
    forall b, 0 <= b -> 512 * b + 512 <= zlength (fdata s) ->
      image_block (f_data f) b =
      if (2 <=? b) && (b <? 2 + Z.of_nat n) then slice (bitbuf s) (512 * (b - 2)) 512
      else image_block (fdata s) b.
Proof.
  intros Hok Hfd Hbl Hn Hlen.
  destruct (for_inv (fun j st => exists f, st = set_file f s /\ f_ok f /\
      zlength (f_data f) = zlength (fdata s) /\
      forall b, 0 <= b -> 512 * b + 512 <= zlength (fdata s) ->
        image_block (f_data f) b =
        if (2 <=? b) && (b <? 2 + j) then slice (bitbuf s) (512 * (b - 2)) 512
        else image_block (fdata s) b) writemap n 0 s) as (st & E & f & -> & Hf).
  - exists (m_file s). split; [by destruct s|]. split_and!; [done..|]. intros b _ _.
    destruct (Z.leb_spec 2 b), (Z.ltb_spec b (2 + 0)); lia || done.
  - intros j st Hj (f & -> & Hokf & Hlf & Hbf). unfold writemap. mrun. cbn [bitbuf set_file].
    unfold SFS_BLOCKSIZE, SFS_MAP_LOCATION.
    destruct (diskwrite_spec (slice (bitbuf s) (j * 512) 512) (2 + j) (set_file f s))
      as (f2 & E2 & Hok2 & Hd2); cbn [m_file set_file m_fd]; [done|done|apply slice_length; lia|lia|lia|].
    exists (set_file f2 s). split; [exact E2|]. exists f2. split; [done|]. split; [done|].
    assert (Hsl : zlength (slice (bitbuf s) (j * 512) 512) = 512) by (apply slice_length; lia).
    cbn [m_file set_file] in Hd2. rewrite Hd2, splice_length by lia. split; [done|].
    intros b Hb Hbl'. rewrite image_block_splice by lia. rewrite Hbf by lia.
    destruct (Z.eqb_spec b (2 + j)), (Z.leb_spec 2 b), (Z.ltb_spec b (2 + j)),
      (Z.ltb_spec b (2 + (j + 1))); try lia; cbn [andb]; try done.
    f_equal. lia.
  - exists f. split; [exact E|]. by rewrite Z.add_0_l in Hf.
Qed.

(** ** The image of a new volume *)

Definition super_block (volname : list Z) (nb : Z) : list Z :=
  splice (wr32 (wr32 zeros 0 SFS_MAGIC) 4 nb) 8 (volname ++ [0]).
Definition root_inode : list Z :=
  set_linkcount (set_type (set_size zeros 0) SFS_TYPE_DIR) 1.

(** The blocks [blocks] are those of a new volume of [nb] blocks: superblock,
    root directory and free map. *)
Record formatted (volname : list Z) (nb : Z) (blocks : Z -> list Z) : Prop := {
  fm_super : blocks 0 = super_block volname nb;
  fm_root : blocks 1 = root_inode;
  fm_map : exists l, buf_ok (used nb) l /\
    forall j, 0 <= j < SFS_BITBLOCKS nb -> blocks (2 + j) = slice l (512 * j) 512
}.

Lemma super_len volname nb : zlength volname < 32 -> zlength (super_block volname nb) = 512.
Proof.
  intros Hv. pose proof (zlength_nonneg volname).
  assert (Hb : zlength (wr32 (wr32 zeros 0 SFS_MAGIC) 4 nb) = 512).
  { apply set_inode_len; [|lia]. by apply set_inode_len. }
  unfold super_block. rewrite splice_length; [done|lia|]. rewrite zlength_snoc. lia.
Qed.

Lemma opendisk_spec path f fd f0 nb0 bb :
  f_open path f = (fd, f0) -> 0 <= fd -> f_ok f0 ->
  opendisk path (mk_mkst f (-1) nb0 bb) =
  Ret (tt, mk_mkst f0 fd (w32 (zlength (f_data f0) / 512)) bb).
Proof.
  intros Ho Hfd Hok. unfold opendisk. mrun. unfold assert_. cbn [m_fd]. mrun.
  assert (Ec : call (f_open path) (mk_mkst f (-1) nb0 bb) = Ret (fd, mk_mkst f0 (-1) nb0 bb))
    by (unfold call; cbn [m_file]; by rewrite Ho).
  rewrite (bind_ok _ _ _ _ _ Ec). mrun. rewrite (proj2 (Z.ltb_ge fd 0)) by done. mrun.
  cbn [m_file set_fd]. by rewrite f_fstat_spec.
Qed.

(** The three writers one after the other. *)
Lemma format_spec volname nb s :
  f_ok (m_file s) -> 0 <= m_fd s -> buf_ok (fun _ => false) (bitbuf s) -> zlength volname < 32 ->
  3 <= nb <= 131072 -> 512 * nb <= zlength (fdata s) ->
  exists s', (do* writesuper volname nb in do* writerootdir in writebitmap nb) s = Ret (tt, s') /\
    f_ok (m_file s') /\ m_fd s' = m_fd s /\ formatted volname nb (image_block (fdata s')) /\
    forall b, 2 + SFS_BITBLOCKS nb <= b < nb -> image_block (fdata s') b = image_block (fdata s) b.
Proof.
  intros Hok Hfd Hbuf Hv Hn Hlen. destruct (bitblocks_eq nb ltac:(lia)) as (_ & Hr & Hm).
  unfold writesuper, SFS_VOLNAME_SIZE. rewrite (proj2 (Z.leb_gt 32 _)) by lia.
  fold (super_block volname nb). pose proof (super_len volname nb Hv) as Hsl.
  destruct (diskwrite_spec (super_block volname nb) SFS_SB_LOCATION s)
    as (f1 & E1 & Hok1 & Hd1); [done|done|done|unfold SFS_SB_LOCATION; lia|unfold SFS_SB_LOCATION; lia|].
  rewrite (bind_ok _ _ _ _ _ E1). unfold writerootdir. fold root_inode.
  assert (Hl1 : zlength (f_data f1) = zlength (fdata s))
    by (rewrite Hd1; apply splice_length; unfold SFS_SB_LOCATION; lia).
  destruct (diskwrite_spec root_inode SFS_ROOT_LOCATION (set_file f1 s)) as (f2 & E2 & Hok2 & Hd2);
    [done|done|by vm_compute|unfold SFS_ROOT_LOCATION; lia|cbn; unfold SFS_ROOT_LOCATION; lia|].
  rewrite (bind_ok _ _ _ _ _ E2). cbn [m_file set_file] in Hd2.
  assert (Hrl : zlength root_inode = 512) by (by vm_compute).
  assert (Hl2 : zlength (f_data f2) = zlength (fdata s))
    by (rewrite Hd2, splice_length; unfold SFS_ROOT_LOCATION; lia).
  destruct (writebitmap_bits nb (set_file f2 (set_file f1 s)) Hbuf Hn) as (l & Hl & ->).
  destruct (writemap_all (Z.to_nat (SFS_BITBLOCKS nb)) (set_bitbuf l (set_file f2 (set_file f1 s))))
    as (f3 & E3 & Hok3 & Hl3 & Hb3); cbn [m_file m_fd bitbuf set_bitbuf set_file];
    [done|done|apply Hl|lia|lia|].
  cbn [m_file m_fd bitbuf set_bitbuf set_file] in Hl3, Hb3. rewrite Hl2, Z2Nat.id in Hb3 by lia.
  assert (Hb : forall b, 0 <= b < nb -> image_block (f_data f3) b =
    if (2 <=? b) && (b <? 2 + SFS_BITBLOCKS nb) then slice l (512 * (b - 2)) 512
    else if b =? 1 then root_inode else if b =? 0 then super_block volname nb
    else image_block (fdata s) b).
  { intros b Hb. rewrite Hb3, Hd2 by lia. unfold SFS_ROOT_LOCATION.
    rewrite image_block_splice by lia. rewrite Hd1. unfold SFS_SB_LOCATION.
    by rewrite image_block_splice by lia. }
  eexists. split; [exact E3|]. cbn [m_file m_fd set_bitbuf set_file].
  split; [done|]. split; [done|]. split; [split|].
  - by rewrite Hb by lia.
  - by rewrite Hb by lia.
  - exists l. split; [done|]. intros j Hj. rewrite Hb by lia.
    rewrite (proj2 (Z.leb_le _ _)), (proj2 (Z.ltb_lt _ _)) by lia. cbn [andb]. f_equal. lia.
  - intros b Hbr. rewrite Hb by lia. rewrite (proj2 (Z.ltb_ge b _)), andb_false_r by lia.
    by rewrite (proj2 (Z.eqb_neq b 1)), (proj2 (Z.eqb_neq b 0)) by lia.
Qed.

(** C17. [mksfs] formats the disk: on any file whose calls behave as documented,
    with short and interrupted writes, of at least 3 and at most 131072 blocks,
    the program runs to its end and returns 0.  The file then holds the image of
    a new volume: the superblock with the size and the name, an empty root
    directory, and a free map in which exactly the superblock, the root inode,
    the map itself and the bits behind the end of the disk are marked.  All
    other blocks are as they were. *)
Theorem mksfs_formats prog path arg volname f fd f0
    (Hopen : f_open path f = (fd, f0)) (Hfd : 0 <= fd) (Hok : f_ok f0)
    (Hname : check_volname arg = Some volname) (Hlen : zlength volname < SFS_VOLNAME_SIZE) :
  let nb := zlength (f_data f0) / 512 in
  3 <= nb <= 131072 ->
  exists s', main [prog; path; arg] (mk_mkst f (-1) 0 (replicate 16384 0)) = Ret (0, s') /\
    formatted volname nb (image_block (fdata s')) /\
    forall b, 2 + SFS_BITBLOCKS nb <= b < nb ->
      image_block (fdata s') b = image_block (f_data f0) b.
Proof.
  intros nb Hn. unfold SFS_VOLNAME_SIZE in Hlen. unfold main. rewrite Hname.
  rewrite (bind_ok _ _ _ _ _ (opendisk_spec path f fd f0 0 _ Hopen Hfd Hok)). fold nb.
  rewrite w32_id by (unfold is_u32, two32; lia).
  unfold diskblocksize, diskblocks, assert_. mrun. cbn [m_fd m_nblocks].
  rewrite (proj2 (Z.leb_le 0 fd)) by done. mrun. cbn [BLOCKSIZE SFS_BLOCKSIZE Z.eqb Pos.eqb negb]. mrun.
  cbn [m_fd m_nblocks]. rewrite (proj2 (Z.leb_le 0 fd)) by done. mrun. cbn [m_nblocks].
  destruct (format_spec volname nb (mk_mkst f0 fd nb (replicate 16384 0)))
    as (s' & E & Hok' & Hfd' & Hf & Hoth); cbn [m_file m_fd bitbuf];
    [done|done|apply zero_buf|done|done| |].
  { pose proof (Z.mul_div_le (zlength (f_data f0)) 512). subst nb. lia. }
  apply bind_ret_inv in E as (u1 & s1 & E1 & E). apply bind_ret_inv in E as (u2 & s2 & E2 & E).
  rewrite (bind_ok _ _ _ _ _ E1), (bind_ok _ _ _ _ _ E2), (bind_ok _ _ _ _ _ E).
  cbn [m_file m_fd] in Hfd', Hoth. unfold closedisk, assert_. mrun. rewrite Hfd'.
  rewrite (proj2 (Z.leb_le 0 fd)) by done. mrun.
  destruct (f_close_spec _ Hok') as (f' & Ec & Hd').
  assert (call f_close s' = Ret (0, set_file f' s')) as Ecall by (unfold call; by rewrite Ec).
  rewrite (bind_ok _ _ _ _ _ Ecall). cbn [Z.eqb negb]. mrun. eexists. split; [done|].
  cbn [m_file set_fd set_file]. rewrite Hd'. by split.
Qed.

End image.

(** ** Reading the free map back *)

Lemma for_ret_inv {S R} (Inv : Z -> S -> Prop) (Q : R -> S -> Prop) (body : Z -> M S (option R)) n lo s :
  Inv lo s ->
  (forall i st, lo <= i < lo + Z.of_nat n -> Inv i st ->
     exists r st', body i st = Ret (r, st') /\
       match r with None => Inv (i + 1) st' | Some x => Q x st' end) ->
  exists r s', for_ret n lo body s = Ret (r, s') /\
    match r with None => Inv (lo + Z.of_nat n) s' | Some x => Q x s' end.
Proof.
  revert lo s. induction n as [|n IH]; intros lo s H0 Hb; cbn [for_ret].
  - exists None, s. by rewrite Z.add_0_r.
  - destruct (Hb lo s) as (r & s1 & E & Hr); [lia|done|]. rewrite (bind_ok _ _ _ _ _ E).
    destruct r as [x|]; [by exists (Some x), s1|].
    destruct (IH (lo + 1) s1 Hr) as (r & s2 & E2 & H2); [intros; apply Hb; [lia|done]|].
    exists r, s2. split; [done|]. destruct r; [done|].
    by replace (lo + Z.of_nat (Datatypes.S n)) with (lo + 1 + Z.of_nat n) by lia.
Qed.

(** A list is known by its blocks. *)
Lemma blocks_eq v l n :
  zlength v = 512 * n -> 512 * n <= zlength l ->
  (forall j, 0 <= j < n -> image_block v j = image_block l j) -> v = take (Z.to_nat (512 * n)) l.
Proof.
  unfold zlength. intros Hv Hl Hb. apply list_eq. intros i. destruct (decide (i < length v)%nat) as [Hi|Hi].
  - rewrite lookup_take_lt by lia. set (j := Z.of_nat i / 512).
    pose proof (Z.div_mod (Z.of_nat i) 512 ltac:(lia)) as Hd.
    pose proof (Z.mod_pos_bound (Z.of_nat i) 512 ltac:(lia)) as Hm. fold j in Hd.
    assert (Hj : 0 <= j < n) by (split; [apply Z.div_pos; lia|apply Z.div_lt_upper_bound; lia]).
    pose proof (f_equal (fun b => b !! Z.to_nat (Z.of_nat i mod 512)) (Hb j Hj)) as He. cbn beta in He.
    unfold image_block, slice in He. rewrite !lookup_take_lt, !lookup_drop in He by lia.
    replace (Z.to_nat (512 * j) + Z.to_nat (Z.of_nat i mod 512))%nat with i in He by lia. done.
  - rewrite lookup_ge_None_2 by lia. symmetry. apply lookup_ge_None_2. rewrite length_take. lia.
Qed.

Section mount.
Context {H D : Type} `{KHeap H} `{BlockDev D}.
Implicit Types s : sst H D.

(** The state with words read into the free map. *)
Definition with_words (s : sst H D) (v : list Z) (d : D) : sst H D :=
  set_io (set_fs s (with_freemap (s_fs s) (with_v (freemap s) v) (sfs_freemapdirty (s_fs s)))) d (s_um s).

Lemma with_words_twice s v d v' d' : with_words (with_words s v d) v' d' = with_words s v' d'.
Proof. done. Qed.

Lemma with_words_id s : with_words s (v (freemap s)) (s_dev s) = s.
Proof. unfold with_words, with_v, with_freemap, set_fs, set_io. by destruct s as [? ? ? ? ? [? ? ? ? ? [] ?] ?]. Qed.

Lemma map_sector_read s v d j :
  dev_ok d -> 0 < s_lock s -> 0 <= j -> 2 + j < d_blocks d -> 512 * j + 512 <= zlength v ->
  exists r v' d', map_sector UIO_READ j (with_words s v d) =
      Ret (if r =? 0 then None else Some r, with_words s v' d') /\ same_dev d d' /\
    (r = 0 /\ v' = splice v (512 * j) (dev_block d (2 + j)) \/ r = EIO).
Proof.
  intros Hok Hl Hj Hjd Hv. unfold map_sector. mrun.
  change (Bitmap.v (freemap (with_words s v d))) with v. unfold SFS_BLOCKSIZE, SFS_MAP_LOCATION.
  rewrite (proj2 (Z.ltb_ge _ _)) by lia.
  destruct (sfs_rblock_spec (slice v (j * 512) 512) (2 + j) (with_words s v d))
    as (r & d' & data & E & Hsd & Hr); [done|done|cbn; lia|apply slice_length; lia|].
  rewrite bind_bind. rewrite (bind_ok _ _ _ _ _ E). mrun.
  exists r, (splice v (j * 512) data), d'. split; [done|]. split; [exact Hsd|].
  rewrite (Z.mul_comm 512 j). destruct Hr as [[-> ->]|Hr]; [left|right]; done.
Qed.

Lemma mapio_read_spec s :
  let nm := SFS_BITBLOCKS (nblocks s) in
  dev_ok (s_dev s) -> 0 < s_lock s -> 0 <= nm -> 2 + nm <= d_blocks (s_dev s) ->
  zlength (v (freemap s)) = 512 * nm ->
  exists r v' d', sfs_mapio UIO_READ s = Ret (r, with_words s v' d') /\ same_dev (s_dev s) d' /\
    (r = 0 /\ zlength v' = 512 * nm /\
       (forall j, 0 <= j < nm -> image_block v' j = dev_block (s_dev s) (2 + j)) \/ r = EIO).
Proof.
  intros nm Hok Hl Hnm Hd Hv. unfold sfs_mapio. mrun. fold nm.
  destruct (for_ret_inv
    (fun j st => exists v' d', st = with_words s v' d' /\ same_dev (s_dev s) d' /\ zlength v' = 512 * nm /\
       forall i, 0 <= i < j -> image_block v' i = dev_block (s_dev s) (2 + i))
    (fun r st => r = EIO /\ exists v' d', st = with_words s v' d' /\ same_dev (s_dev s) d')
    (map_sector UIO_READ) (Z.to_nat nm) 0 s) as (r & st & E & Hr).
  - exists (v (freemap s)), (s_dev s). rewrite with_words_id. split; [done|].
    split; [by apply same_dev_refl|]. split; [done|lia].
  - intros j st Hj (v' & d' & -> & Hsd & Hv' & Hb). pose proof Hsd as (Hok' & _ & Hn & Hbl).
    destruct (map_sector_read s v' d' j) as (r & v2 & d2 & E & Hsd2 & Hr); [done|done|lia|lia|lia|].
    eexists _, _. split; [exact E|]. pose proof (same_dev_trans _ _ _ Hsd Hsd2) as Hs2.
    destruct Hr as [[-> ->]| ->]; [|split; [done|by exists v2, d2]]. cbn [Z.eqb].
    assert (Hdl : zlength (dev_block d' (2 + j)) = 512) by (apply dev_len; [done|lia]).
    eexists _, d2. split; [done|]. split; [done|]. split; [rewrite splice_length; lia|].
    intros i Hi. rewrite image_block_splice by lia.
    destruct (Z.eqb_spec i j) as [->|]; [by rewrite Hbl|apply Hb; lia].
  - rewrite (bind_ok _ _ _ _ _ E). destruct r as [r|].
    + destruct Hr as (-> & v' & d' & -> & Hsd). exists EIO, v', d'. split; [done|]. auto.
    + destruct Hr as (v' & d' & -> & Hsd & Hv' & Hb). exists 0, v', d'. split; [done|]. split; [done|].
      left. rewrite Z.add_0_l, Z2Nat.id in Hb by lia. done.
Qed.

(** ** The superblock of a new volume *)

Lemma splice_same l p x :
  0 <= p < zlength l -> nth (Z.to_nat p) l 0 = x -> splice l p [x] = l.
Proof.
  intros Hp <-. replace [nth (Z.to_nat p) l 0] with (slice l p 1); [apply splice_slice; lia|].
  change 1 with (Z.of_nat 1). rewrite slice_eq by lia. cbn [seq map]. by rewrite Z.add_0_r.
Qed.

Section super.
Variables (volname : list Z) (nb : Z).
Hypothesis Hvol : zlength volname < 32.
Hypothesis Hnb : is_u32 nb.

Let base := wr32 (wr32 zeros 0 SFS_MAGIC) 4 nb.
Lemma base_len : zlength base = 512.
Proof. apply set_inode_len; [|lia]. by apply set_inode_len. Qed.
Lemma name_len : zlength (volname ++ [0]) = zlength volname + 1.
Proof. apply zlength_snoc. Qed.

(** The terminator that [sfs_domount] stores is there already. *)
Lemma super_terminated : splice (super_block volname nb) 39 [0] = super_block volname nb.
Proof.
  pose proof (super_len volname nb Hvol) as Hl. pose proof name_len. pose proof base_len.
  pose proof (zlength_nonneg volname). apply splice_same; [lia|].
  unfold super_block. fold base. rewrite splice_get by lia. rewrite name_len.
  destruct (Z.ltb_spec 39 (8 + (zlength volname + 1))) as [Hlt|Hge]; cbn [Z.leb Z.compare andb].
  - assert (zlength volname = 31) as Hv by lia. rewrite nth_lookup.
    rewrite lookup_app_r by (unfold zlength in Hv; lia). unfold zlength in Hv.
    by replace (Z.to_nat (39 - 8) - length volname)%nat with 0%nat by lia.
  - unfold base, wr32. rewrite !splice_get by (rewrite ?splice_length, ?be32_length, ?zeros_length; try lia;
      rewrite ?be32_length, ?zeros_length; lia). rewrite !be32_length. cbn -[nth zeros Z.to_nat]. apply nth_zeros.
Qed.

Lemma super_magic : sp_magic (super_block volname nb) = SFS_MAGIC.
Proof.
  pose proof name_len. pose proof base_len. pose proof (zlength_nonneg volname).
  unfold sp_magic, super_block. fold base. rewrite rd32_splice by lia.
  unfold base. unfold wr32 at 1. rewrite rd32_splice; rewrite ?be32_length; try lia;
    try (rewrite set_inode_len by (done || lia); lia).
  by rewrite rd32_wr32.
Qed.

Lemma super_nblocks : sp_nblocks (super_block volname nb) = nb.
Proof.
  pose proof name_len. pose proof base_len. pose proof (zlength_nonneg volname).
  unfold sp_nblocks, super_block. fold base. rewrite rd32_splice by lia.
  unfold base. rewrite rd32_wr32; [by apply w32_id|lia|]. rewrite set_inode_len by (done || lia). lia.
Qed.

Lemma super_volname : c_string volname -> cstr (sp_volname (super_block volname nb)) = volname.
Proof.
  intros Hc. pose proof base_len as Hb. unfold sp_volname, super_block. fold base.
  unfold slice, splice, SFS_VOLNAME_SIZE, zlength in *.
  rewrite (drop_app_length' (take (Z.to_nat 8) base)) by (rewrite length_take; lia).
  rewrite <- app_assoc. cbn [app]. rewrite take_app_ge by lia.
  destruct (Z.to_nat 32 - length volname)%nat eqn:E; [lia|]. cbn [take]. by apply cstr_stop.
Qed.

End super.

(** ** The free map of a new volume *)

Lemma new_freemap nb l self vp w :
  let nm := SFS_BITBLOCKS nb in
  let fm := mk_bitmap self (4096 * nm) vp w in
  3 <= nb <= 131072 -> buf_ok (used nb) l -> zlength w = 512 * nm ->
  (forall j, 0 <= j < nm -> image_block w j = slice l (512 * j) 512) ->
  bitmap_ok fm /\ forall i, 0 <= i < 4096 * nm -> bit fm i = used nb i.
Proof.
  intros nm fm Hn [Hl Hby Hbit] Hw Hb. destruct (bitblocks_eq nb ltac:(lia)) as (_ & Hr & Hm). fold nm in Hr, Hm.
  assert (Ew : w = take (Z.to_nat (512 * nm)) l) by (apply blocks_eq; [done|lia|exact Hb]).
  split.
  - split; cbn [nbits v fm]; [unfold two32; lia| | |].
    + rewrite Hw. replace (4096 * nm + 7) with (512 * nm * 8 + 7) by lia.
      by rewrite Z.div_add_l, Z.add_0_r by lia.
    + intros k x Hk. rewrite Ew in Hk. apply lookup_take_Some in Hk as [Hk _]. eauto.
    + rewrite Hw. lia.
  - intros i Hi. rewrite <- Hbit by lia. unfold bit. cbn [v fm buf_map]. rewrite Ew, lookup_take_lt; [done|].
    apply Z2Nat.inj_lt; [apply Z.div_pos; lia|lia|]. apply Z.div_lt_upper_bound; lia.
Qed.

Lemma bitmap_create_whole nm (h h1 : H) bs :
  0 < nm <= 32 -> has_new h h1 bs ->
  exists b h2, bitmap_create (4096 * nm) h1 = Ret (b, h2) /\
    match b with
    | None => has_new h h2 bs
    | Some b => nbits b = 4096 * nm /\ zlength (v b) = 512 * nm /\
        has_new h h2 ((v_ptr b, 512 * nm) :: (b_self b, sizeof_bitmap) :: bs)
    end.
Proof.
  intros Hm Hh. unfold bitmap_create, BITS_PER_WORD.
  rewrite w32_id by (unfold is_u32, two32; lia).
  replace ((4096 * nm + 8 - 1) / 8) with (512 * nm)
    by (replace (4096 * nm + 8 - 1) with (512 * nm * 8 + 7) by lia; rewrite Z.div_add_l by lia; by rewrite Z.add_0_r).
  replace (4096 * nm / 8) with (512 * nm)
    by (replace (4096 * nm) with (512 * nm * 8) by lia; by rewrite Z.div_mul).
  destruct (kmalloc_has_new h h1 bs sizeof_bitmap Hh) as (p & h2 & E & [[-> H2]|[Hp H2]]);
    [unfold sizeof_bitmap, heap_max; lia| |]; rewrite (bind_ok _ _ _ _ _ E).
  { by exists None, h2. }
  rewrite (proj2 (Z.eqb_neq p 0)) by lia.
  destruct (kmalloc_has_new h h2 _ (512 * nm) H2) as (q & h3 & E2 & [[-> H3]|[Hq H3]]);
    [unfold heap_max; lia| |]; rewrite (bind_ok _ _ _ _ _ E2).
  { cbn [Z.eqb]. destruct (kfree_has_new _ _ _ _ _ H3) as (h4 & E4 & H4).
    rewrite (bind_ok _ _ _ _ _ E4). by exists None, h4. }
  rewrite (proj2 (Z.eqb_neq q 0)), Z.ltb_irrefl by lia. eexists (Some _), h3. split; [done|].
  cbn [nbits v v_ptr b_self]. split; [done|]. split; [|done].
  unfold zlength. rewrite length_replicate. lia.
Qed.

(** ** Mounting *)

(** A device that holds a new volume. *)
Record new_volume (volname : list Z) (nb : Z) (d : D) : Prop := {
  nv_ok : dev_ok d;
  nv_wok : dev_wok d;
  nv_size : d_blocks d = nb;
  nv_bsize : d_blocksize d = 512;
  nv_nb : 3 <= nb <= 131072;
  nv_name : zlength volname < 32;
  nv_str : c_string volname;
  nv_image : formatted volname nb (dev_block d)
}.

(** The rest of the machine as it was. *)
Definition untouched s s' : Prop :=
  same_dev (s_dev s) (s_dev s') /\ s_um s' = s_um s /\ s_curas s' = s_curas s /\
  s_lock s' = s_lock s /\ s_vns s' = s_vns s.

(** The file system that [sfs_domount] builds. *)
Record mounted (volname : list Z) (nb : Z) (s s' : sst H D) : Prop := {
  mo_rest : untouched s s';
  mo_nblocks : nblocks s' = nb;
  mo_name : cstr (sp_volname (sfs_super (s_fs s'))) = volname;
  mo_disk : disk_ok nb (freemap s') (s_dev s');
  mo_bits i : 0 <= i < nb -> bit (freemap s') i = (i <? 2 + SFS_BITBLOCKS nb);
  mo_vnodes : sfs_vnodes (s_fs s') = array_init;
  mo_clean : sfs_superdirty (s_fs s') = false /\ sfs_freemapdirty (s_fs s') = false;
  mo_heap : let f := s_fs s' in
    has_new (s_heap s) (s_heap s')
      [(v_ptr (freemap s'), 512 * SFS_BITBLOCKS nb); (b_self (freemap s'), sizeof_bitmap);
       (sfs_vnodes_self f, sizeof_array); (sfs_self f, sizeof_sfs_fs)]
}.

Lemma sst_heap_ok {A} (m : M H A) s a h :
  m (s_heap s) = Ret (a, h) -> on_heap m s = Ret (a, set_heap s h).
Proof. unfold on_heap. by intros ->. Qed.

(** The exits free what has been allocated. *)
Lemma mount_fail_spec r s h0 :
  sfs_vnodes (s_fs s) = array_init -> 0 < s_lock s ->
  has_new h0 (s_heap s) [(sfs_vnodes_self (s_fs s), sizeof_array); (sfs_self (s_fs s), sizeof_sfs_fs)] ->
  exists h, mount_fail r s = Ret (r, set_lock (set_heap s h) (s_lock s - 1)) /\ has_new h0 h [].
Proof.
  intros Hv Hl Hh. unfold mount_fail. mrun. rewrite Hv.
  destruct (kfree_has_new _ _ _ _ _ Hh) as (h1 & E1 & Hh1).
  destruct (kfree_has_new _ _ _ _ _ Hh1) as (h2 & E2 & Hh2).
  assert (Ed : array_destroy (sfs_vnodes_self (s_fs s)) array_init (s_heap s) = Ret (tt, h1)).
  { unfold array_destroy, array_cleanup. cbn [a_num a_v array_init Z.eqb]. mrun.
    rewrite (bind_ok _ _ _ _ _ (kfree_null _ (proj1 Hh))). by mrun. }
  rewrite (bind_ok _ _ _ _ _ (sst_heap_ok _ _ _ _ Ed)).
  rewrite (bind_ok _ _ _ _ _ (sst_heap_ok (kfree (sfs_self (s_fs s))) (set_heap s h1) _ _ E2)).
  rewrite (bind_ok _ _ _ _ _ (release_ok (set_heap (set_heap s h1) h2) Hl)). by exists h2.
Qed.

(** What a failed mount leaves. *)
Definition mount_failed (r : Z) s s' : Prop :=
  (r = ENOMEM \/ r = EIO) /\ untouched s s' /\ has_new (s_heap s) (s_heap s') [].

(** The free map is read and the file system is complete. *)
Lemma mounted_ok volname nb s h d fself vself b w l :
  new_volume volname nb (s_dev s) -> same_dev (s_dev s) d ->
  buf_ok (used nb) l ->
  (forall j, 0 <= j < SFS_BITBLOCKS nb -> dev_block (s_dev s) (2 + j) = slice l (512 * j) 512) ->
  nbits b = 4096 * SFS_BITBLOCKS nb -> zlength w = 512 * SFS_BITBLOCKS nb ->
  (forall j, 0 <= j < SFS_BITBLOCKS nb -> image_block w j = dev_block (s_dev s) (2 + j)) ->
  has_new (s_heap s) h
    [(v_ptr b, 512 * SFS_BITBLOCKS nb); (b_self b, sizeof_bitmap); (vself, sizeof_array); (fself, sizeof_sfs_fs)] ->
  mounted volname nb s
    (mk_sst h d (s_um s) (s_curas s) (s_lock s)
       (mk_sfs fself (super_block volname nb) false vself array_init (with_v b w) false) (s_vns s)).
Proof.
  intros [Hok Hwok Hsz _ Hn Hv Hstr _] Hsd Hl Hlb Hnb Hw Hwb Hh.
  destruct (bitblocks_eq nb ltac:(lia)) as (_ & Hr & Hm).
  assert (Hu : is_u32 nb) by (unfold is_u32, two32; lia).
  destruct (new_freemap nb l (b_self b) (v_ptr b) w Hn Hl Hw) as [Hbok Hbits].
  { intros j Hj. by rewrite Hwb, Hlb. }
  assert (Eb : with_v b w = mk_bitmap (b_self b) (4096 * SFS_BITBLOCKS nb) (v_ptr b) w)
    by (unfold with_v; by rewrite Hnb).
  pose proof Hsd as (Hok' & Hwok' & Hsz' & _).
  split; cbn [s_fs sfs_super sfs_freemap s_dev sfs_vnodes sfs_superdirty sfs_freemapdirty s_heap
    sfs_vnodes_self sfs_self]; rewrite ?Eb.
  - by split_and!.
  - by apply super_nblocks.
  - by apply super_volname.
  - split; cbn [nbits]; try done; [auto|lia|lia|lia| |].
    + rewrite Hbits by lia. unfold used. rewrite (proj2 (Z.ltb_lt _ _)) by lia. done.
    + intros j Hj. rewrite Hbits by lia. unfold used.
      rewrite (proj2 (Z.leb_le _ _)), (proj2 (Z.ltb_lt j (4096 * _))) by lia. apply orb_true_r.
  - intros i Hi. rewrite Hbits by lia. unfold used. rewrite (proj2 (Z.leb_gt nb i)) by lia. apply orb_false_r.
  - done.
  - done.
  - exact Hh.
Qed.

(** The last part of [sfs_domount], from the allocation of the free map on. *)
Definition load_map (nbits : Z) : M (sst H D) Z :=
  let* b := on_heap (bitmap_create nbits) in
  match b with
  | None => mount_fail ENOMEM
  | Some b =>
      do* modify (fun s => set_fs s (with_freemap (s_fs s) b (sfs_freemapdirty (s_fs s)))) in
      let* result := sfs_mapio UIO_READ in
      if negb (result =? 0) then
        let* s := get in
        do* on_heap (bitmap_destroy (sfs_freemap (s_fs s))) in
        mount_fail result
      else
        do* modify (fun s => set_fs s (with_super (s_fs s) (sfs_super (s_fs s)) false)) in
        do* freemap_dirty false in
        do* vfs_biglock_release in
        ret 0
  end.

(** The state in which [load_map] runs. *)
Definition half_mounted s (h : H) (d : D) (fself vself : Z) (super : list Z) (b : bitmap) (sd fd : bool) : sst H D :=
  mk_sst h d (s_um s) (s_curas s) (s_lock s + 1) (mk_sfs fself super sd vself array_init b fd) (s_vns s).

(** Failing in that state. *)
Lemma fail_half s h d fself vself super b sd fd r :
  0 <= s_lock s -> same_dev (s_dev s) d -> r = ENOMEM \/ r = EIO ->
  has_new (s_heap s) h [(vself, sizeof_array); (fself, sizeof_sfs_fs)] ->
  exists s', mount_fail r (half_mounted s h d fself vself super b sd fd) = Ret (r, s') /\ mount_failed r s s'.
Proof.
  intros Hl Hsd Hr Hh.
  destruct (mount_fail_spec r (half_mounted s h d fself vself super b sd fd) (s_heap s)) as (h' & E & Hh');
    [done|cbn; lia|done|].
  eexists. split; [exact E|]. split; [done|]. split; [|done]. split_and!; [done..| |done]. cbn. lia.
Qed.

Lemma load_map_spec volname nb s h d fself vself b0 sd fd :
  new_volume volname nb (s_dev s) -> 0 <= s_lock s -> same_dev (s_dev s) d ->
  has_new (s_heap s) h [(vself, sizeof_array); (fself, sizeof_sfs_fs)] ->
  exists r s', load_map (SFS_BITMAPSIZE nb) (half_mounted s h d fself vself (super_block volname nb) b0 sd fd) =
      Ret (r, s') /\ (r = 0 /\ mounted volname nb s s' \/ mount_failed r s s').
Proof.
  intros Hnv Hl Hsd Hh. pose proof Hnv as [Hok _ Hsz _ Hn Hv _ [_ _ (l & Hbuf & Hlb)]].
  destruct (bitblocks_eq nb ltac:(lia)) as (-> & Hr & Hm).
  assert (Hu : is_u32 nb) by (unfold is_u32, two32; lia). pose proof Hsd as (Hokd & _ & Hszd & Hbld).
  set (st := half_mounted s h d fself vself (super_block volname nb) b0 sd fd). unfold load_map.
  destruct (bitmap_create_whole (SFS_BITBLOCKS nb) (s_heap s) h _ Hm Hh) as (b & h1 & E1 & Hb).
  rewrite (bind_ok _ _ _ _ _ (sst_heap_ok (bitmap_create (4096 * SFS_BITBLOCKS nb)) st _ _ E1)).
  destruct b as [b|].
  2: { destruct (fail_half s h1 d fself vself (super_block volname nb) b0 sd fd ENOMEM) as (s' & E & Hf);
         [done|done|by left|done|]. exists ENOMEM, s'. split; [exact E|by right]. }
  destruct Hb as (Hnb & Hw & Hh1). mrun.
  set (s1 := half_mounted s h1 d fself vself (super_block volname nb) b sd fd).
  change (set_fs (set_heap st h1) _) with s1.
  assert (Hnb1 : nblocks s1 = nb) by (by apply super_nblocks).
  destruct (mapio_read_spec s1) as (r & w & d' & E2 & Hsd2 & Hres);
    rewrite ?Hnb1; [done|cbn; lia|lia|cbn; lia|done|].
  rewrite (bind_ok _ _ _ _ _ E2). rewrite Hnb1 in Hres.
  pose proof (same_dev_trans _ _ _ Hsd Hsd2) as Hsd'.
  destruct Hres as [(-> & Hw' & Hwb)| ->]; cbn [Z.eqb EIO negb]; mrun.
  - unfold freemap_dirty. mrun.
    match goal with |- context [vfs_biglock_release ?x] => set (s2 := x) | |- context [bind vfs_biglock_release _ ?x] => set (s2 := x) end.
    assert (Hl2 : s_lock s2 = s_lock s + 1) by done.
    rewrite (bind_ok _ _ _ _ _ (release_ok s2 ltac:(lia))). eexists 0, _. split; [done|]. left. split; [done|].
    pose proof (mounted_ok volname nb s h1 d' fself vself b w l Hnv Hsd' Hbuf Hlb Hnb Hw') as Hmo.
    rewrite Hl2. replace (s_lock s + 1 - 1) with (s_lock s) by lia. apply Hmo; [|exact Hh1].
    intros j Hj. rewrite Hwb by done. apply Hbld.
  - destruct (kfree_has_new _ _ _ _ _ Hh1) as (h2 & E3 & Hh2).
    destruct (kfree_has_new _ _ _ _ _ Hh2) as (h3 & E4 & Hh3).
    assert (Ed : bitmap_destroy (with_v b w) h1 = Ret (tt, h3))
      by (unfold bitmap_destroy; cbn [v_ptr b_self with_v]; by rewrite (bind_ok _ _ _ _ _ E3)).
    rewrite (bind_ok _ _ _ _ _ (sst_heap_ok (bitmap_destroy (with_v b w)) (with_words s1 w d') _ _ Ed)).
    destruct (fail_half s h3 d' fself vself (super_block volname nb) (with_v b w) sd fd EIO) as (s' & E & Hf);
      [done|done|by right|done|]. exists EIO, s'. split; [exact E|by right].
Qed.

Lemma domount_spec volname nb s :
  new_volume volname nb (s_dev s) -> heap_ok (s_heap s) -> 0 <= s_lock s ->
  exists r s', sfs_domount s = Ret (r, s') /\ (r = 0 /\ mounted volname nb s s' \/ mount_failed r s s').
Proof.
  intros Hnv Hok Hl. pose proof Hnv as [Hdok _ Hsz Hbs Hn Hv _ [Hsup _ _]].
  assert (Hu : is_u32 nb) by (unfold is_u32, two32; lia).
  unfold sfs_domount, vfs_biglock_acquire. mrun. cbn [s_dev set_lock]. rewrite Hbs.
  cbn [SFS_BLOCKSIZE Z.eqb Pos.eqb negb].
  assert (Hrel : forall h, has_new (s_heap s) h [] -> exists s',
    vfs_biglock_release (set_heap (set_lock s (s_lock s + 1)) h) = Ret (tt, s') /\ mount_failed ENOMEM s s').
  { intros h Hh. eexists. split; [apply release_ok; cbn; lia|]. split; [by left|]. split; [|done].
    split_and!; [by apply same_dev_refl|done|done|cbn; lia|done]. }
  destruct (kmalloc_has_new _ _ [] sizeof_sfs_fs (has_new_refl _ Hok)) as (p & h1 & E1 & Hp);
    [unfold sizeof_sfs_fs, heap_max; lia|].
  rewrite (bind_ok _ _ _ _ _ (sst_heap_ok _ (set_lock s (s_lock s + 1)) _ _ E1)).
  destruct Hp as [[-> Hh1]|[Hp Hh1]]; cbn [Z.eqb].
  { destruct (Hrel h1 Hh1) as (s' & E & Hf). rewrite (bind_ok _ _ _ _ _ E). exists ENOMEM, s'. auto. }
  rewrite (proj2 (Z.eqb_neq p 0)) by lia.
  destruct (kmalloc_has_new _ _ _ sizeof_array Hh1) as (q & h2 & E2 & Hq); [unfold sizeof_array, heap_max; lia|].
  set (s1 := set_heap (set_lock s (s_lock s + 1)) h1).
  assert (Ea : array_create (s_heap s1) = Ret (if q =? 0 then None else Some (q, array_init), h2))
    by (unfold array_create; rewrite (bind_ok _ _ _ _ _ E2); by destruct (q =? 0)).
  rewrite (bind_ok _ _ _ _ _ (sst_heap_ok _ s1 _ _ Ea)).
  destruct Hq as [[-> Hh2]|[Hq Hh2]]; cbn [Z.eqb].
  { destruct (kfree_has_new _ _ _ _ _ Hh2) as (h3 & E3 & Hh3).
    rewrite (bind_ok _ _ _ _ _ (sst_heap_ok (kfree p) (set_heap s1 h2) _ _ E3)).
    destruct (Hrel h3 Hh3) as (s' & E & Hf). rewrite (bind_ok _ _ _ _ _ E). exists ENOMEM, s'. auto. }
  rewrite (proj2 (Z.eqb_neq q 0)) by lia. mrun.
  set (f := s_fs s). set (s2 := half_mounted s h2 (s_dev s) p q (sfs_super f) (sfs_freemap f)
                                  (sfs_superdirty f) (sfs_freemapdirty f)).
  change (set_fs (set_heap s1 h2) _) with s2.
  destruct (sfs_rblock_spec zeros SFS_SB_LOCATION s2) as (r & d & super & E3 & Hsd & Hr);
    [done|cbn; lia|cbn; unfold SFS_SB_LOCATION; lia|done|].
  rewrite (bind_ok _ _ _ _ _ E3). destruct Hr as [[-> ->]| ->]; cbn [Z.eqb EIO negb].
  - change (dev_block (s_dev s2) SFS_SB_LOCATION) with (dev_block (s_dev s) 0). rewrite Hsup.
    rewrite super_magic, Z.eqb_refl, super_terminated, super_nblocks by done. cbn [negb]. mrun.
    exact (load_map_spec volname nb s h2 d p q (sfs_freemap f) (sfs_superdirty f) (sfs_freemapdirty f) Hnv Hl Hsd Hh2).
  - destruct (fail_half s h2 d p q (sfs_super f) (sfs_freemap f) (sfs_superdirty f) (sfs_freemapdirty f) EIO)
      as (s' & E & Hf); [done|done|by right|done|]. exists EIO, s'. split; [exact E|by right].
Qed.

(** ** The root directory *)

(** The blocks in use on a new volume belong to no file. *)
Definition system_blocks (nb b : Z) : Prop := 0 <= b < 2 + SFS_BITBLOCKS nb.

Lemma root_direct n : 0 <= n < 15 -> sfi_direct root_inode n = 0.
Proof.
  intros Hn. assert (Hd : forallb (fun n => sfi_direct root_inode n =? 0) (seqZ 0 15) = true) by (vm_compute; done).
  rewrite forallb_forall in Hd. apply Z.eqb_eq, Hd, list_elem_of_In, elem_of_seqZ. lia.
Qed.
Lemma root_indirect : sfi_indirect root_inode = 0.
Proof. by vm_compute. Qed.

Lemma root_blk (d : D) n : blk d root_inode n = 0.
Proof.
  unfold blk. rewrite root_indirect. cbn [Z.eqb]. destruct (Z.ltb_spec n 0); [done|].
  destruct (Z.ltb_spec n SFS_NDIRECT); [apply root_direct; unfold SFS_NDIRECT in *; lia|].
  by destruct (n <? max_blocks).
Qed.

(** A loaded root of a new volume satisfies the invariants. *)
Lemma root_inv nb s vn sv :
  disk_ok nb (freemap s) (s_dev s) -> nblocks s = nb ->
  (forall i, 0 <= i < nb -> bit (freemap s) i = (i <? 2 + SFS_BITBLOCKS nb)) ->
  2 + SFS_BITBLOCKS nb <= nb -> s_vns s !! vn = Some sv -> sv_i sv = root_inode -> 0 < s_lock s ->
  inv (system_blocks nb) vn s /\ dir_ok vn s /\ dir_map vn s = ∅.
Proof.
  intros Hd Hnb Hbits Hm Hvn Hi Hl.
  assert (Hin : inode vn s = root_inode) by (unfold inode; by rewrite Hvn).
  split; [|split].
  - split; rewrite ?Hin, ?Hnb; [done|by eexists|split| | |done].
    + by vm_compute.
    + intros n _. left. apply root_blk.
    + left. apply root_indirect.
    + intros m n _ _. by rewrite root_blk.
    + intros n _. by rewrite root_blk.
    + intros b _ [Hnz [E|(n & _ & E)]]; [by rewrite root_indirect in E|by rewrite root_blk in E].
    + unfold system_blocks. intros b Hb. split; [lia|]. rewrite Hbits by lia. apply Z.ltb_lt. lia.
  - assert (Hsl : entries vn s = []) by (unfold entries, slots; by rewrite Hin).
    split; rewrite ?Hin, ?Hsl; [by vm_compute|by vm_compute|by vm_compute|].
    intros i j. by rewrite lookup_nil.
  - unfold dir_map. assert (entries vn s = []) as -> by (unfold entries, slots; by rewrite Hin). done.
Qed.

Lemma root_used nb s :
  nblocks s = nb -> 3 <= nb <= 131072 -> bitmap_ok (freemap s) -> nb <= nbits (freemap s) ->
  (forall i, 0 <= i < nb -> bit (freemap s) i = (i <? 2 + SFS_BITBLOCKS nb)) ->
  sfs_bused SFS_ROOT_LOCATION s = Ret (true, s).
Proof.
  intros Hnb Hn Hok Hle Hbits. destruct (bitblocks_eq nb ltac:(lia)) as (_ & Hr & Hm).
  unfold sfs_bused. mrun. rewrite Hnb. unfold SFS_ROOT_LOCATION. rewrite (proj2 (Z.leb_gt nb 1)) by lia.
  destruct (bitmap_word (freemap s) 1 Hok ltac:(lia)) as (w & Hg & _ & _ & _ & Ht).
  rewrite Hbits, (proj2 (Z.ltb_lt _ _)) in Ht by lia.
  assert (Ei : bitmap_isset 1 (freemap s) = Ret (Z.land w (word_mask 1), freemap s)).
  { unfold bitmap_isset, bitmap_translate, BITS_PER_WORD. mrun. rewrite Hg. by mrun. }
  unfold on_freemap. unfold bind. rewrite Ei. unfold ret. rewrite land_mask_zero by lia.
  change (1 mod 8) with 1 in Ht. rewrite <- Ht. cbn [negb]. by rewrite set_freemap_id.
Qed.

Lemma disk_ok_dev nb fm (d d' : D) : disk_ok nb fm d -> same_dev d d' -> disk_ok nb fm d'.
Proof. intros [] (? & ? & Hn & ?). split; try done; [auto|]. by rewrite Hn. Qed.

Lemma free_sv_ok vn s :
  heap_ok (s_heap s) -> is_Some (live (s_heap s) !! vn) -> exists s', free_sv vn s = Ret (tt, s').
Proof.
  intros Hok Hlv. destruct (kfree_spec vn _ Hok Hlv) as (h & E & _). unfold free_sv.
  rewrite (bind_ok _ _ _ _ _ (sst_heap_ok (kfree vn) s _ _ E)). by eexists.
Qed.

(** Entering a vnode into an empty table. *)
Lemma first_vnode vn s :
  heap_ok (s_heap s) -> sfs_vnodes (s_fs s) = array_init ->
  exists r a h, vnodearray_add vn s = Ret (r, set_fs (set_heap s h) (with_vnodes (s_fs s) a)) /\
    heap_ok h /\ (r = 0 \/ r = ENOMEM /\ live h = live (s_heap s)).
Proof.
  intros Hok Hva. unfold vnodearray_add. mrun. rewrite Hva.
  destruct (array_add_spec (s_heap s) array_init [] vn Hok (array_rep_init _)) as
    [(h & E & Hok' & Hlv)|(a & h & E & Hok' & _ & _)]; [done| |];
    rewrite (bind_ok _ _ _ _ _ (sst_heap_ok _ s _ _ E)); mrun; eexists _, _, h; (split; [done|]); auto.
Qed.

(** Loading the root: a new vnode, or a failure that the caller reports. *)
Lemma load_root volname nb s0 s :
  new_volume volname nb (s_dev s0) -> mounted volname nb s0 s -> 0 <= s_lock s ->
  exists r vn s', sfs_loadvnode SFS_ROOT_LOCATION SFS_TYPE_INVAL (locked s) = Ret ((r, vn), s') /\
    (r = 0 /\ inv (system_blocks nb) vn s' /\ dir_ok vn s' /\ dir_map vn s' = ∅ /\
       s_lock s' = s_lock s + 1 \/ vn = 0 /\ (r = ENOMEM \/ r = EIO)).
Proof.
  intros Hnv Hmo Hl. pose proof Hnv as [_ _ Hsz _ Hn _ _ [_ Hroot _]].
  pose proof Hmo as [((Hokd & _ & Hszd & Hbld) & _ & _ & _ & _) Hnb _ Hd Hbits Hva _ Hheap].
  destruct (bitblocks_eq nb ltac:(lia)) as (_ & Hr & Hm).
  unfold sfs_loadvnode, vnodearray_num. mrun. change (sfs_vnodes (s_fs (locked s))) with (sfs_vnodes (s_fs s)). rewrite Hva.
  change (Z.to_nat (array_num array_init)) with 0%nat. cbn [for_ret]. mrun.
  destruct (kmalloc_cases sizeof_sfs_vnode (s_heap s) (proj1 Hheap)) as
    [(h1 & E1 & Hok1 & _)|(vn & h1 & E1 & Hok1 & Hvn & _ & Hlv1)]; [unfold sizeof_sfs_vnode, heap_max; lia| |];
    rewrite (bind_ok _ _ _ _ _ (sst_heap_ok _ (locked s) _ _ E1)).
  { eexists ENOMEM, 0, _. split; [done|]. right. auto. }
  rewrite (proj2 (Z.eqb_neq vn 0)) by lia.
  set (s1 := set_heap (locked s) h1).
  rewrite (bind_ok _ _ _ _ _ (root_used nb s1 Hnb Hn (do_map _ _ _ Hd) (do_bits _ _ _ Hd) Hbits)).
  cbn [negb].
  destruct (sfs_rblock_spec zeros SFS_ROOT_LOCATION s1) as (r & d & i & E2 & Hsd & Hres);
    [done|cbn; lia|cbn; unfold SFS_ROOT_LOCATION; lia|done|].
  rewrite (bind_ok _ _ _ _ _ E2).
  destruct Hres as [[-> ->]| ->]; cbn [Z.eqb EIO negb].
  2: { destruct (free_sv_ok vn (set_io s1 d (s_um s1))) as (st' & Ef); [done|cbn; rewrite Hlv1, lookup_insert_eq; eauto|].
       rewrite (bind_ok _ _ _ _ _ Ef).
       eexists EIO, 0, _. split; [done|]. right. auto. }
  change (dev_block (s_dev s1) SFS_ROOT_LOCATION) with (dev_block (s_dev s) 1). rewrite Hbld, Hroot.
  cbn [SFS_TYPE_INVAL Z.eqb orb]. mrun.
  assert (sfi_type root_inode = SFS_TYPE_DIR) as -> by (vm_compute; done).
  cbn [SFS_TYPE_DIR SFS_TYPE_FILE Z.eqb Pos.eqb orb negb]. unfold put_sv. mrun.
  match goal with |- context [vnodearray_add vn ?x] => set (s2 := x) | |- context [bind (vnodearray_add vn) _ ?x] => set (s2 := x) end.
  destruct (first_vnode vn s2) as (r & a & h2 & E3 & Hok2 & Hr3); [done|done|].
  rewrite (bind_ok _ _ _ _ _ E3). set (s3 := set_fs (set_heap s2 h2) _).
  assert (Hsv : s_vns s3 !! vn = Some (mk_sv 1 0 true root_inode 1 false)) by apply lookup_insert_eq.
  destruct Hr3 as [->|[-> Hlv2]]; cbn [Z.eqb ENOMEM negb].
  - exists 0, vn, s3. split; [done|]. left. split; [done|].
    destruct (root_inv nb s3 vn _ (disk_ok_dev _ _ _ _ Hd Hsd)
      Hnb Hbits ltac:(lia) Hsv eq_refl ltac:(cbn; lia)) as (? & ? & ?). by split_and!.
  - unfold vnode_cleanup. rewrite bind_bind.
    rewrite (bind_ok _ _ _ _ _ (get_sv_ok _ _ _ Hsv)). cbn [vn_refcount vn_opencount Z.eqb Pos.eqb]. mrun.
    unfold set_refcount. mrun. rewrite (bind_ok _ _ _ _ _ (get_sv_ok _ _ _ Hsv)). unfold put_sv. mrun.
    match goal with |- context [bind (free_sv vn) _ ?x] => set (s4 := x) end.
    destruct (free_sv_ok vn s4) as (st' & Ef); [done| |].
    { change (s_heap s4) with h2. rewrite Hlv2. change (s_heap s2) with h1. rewrite Hlv1, lookup_insert_eq. eauto. }
    rewrite (bind_ok _ _ _ _ _ Ef). eexists ENOMEM, 0, _. split; [done|]. right. auto.
Qed.

(** C16. A volume that [mksfs] has made can be mounted and used.  [sfs_domount]
    either gives back [ENOMEM] or [EIO], with all its memory freed and the rest
    of the system as it was, or builds a file system with the name and the size
    of the volume, whose free map marks exactly the system blocks.  The root
    directory of that file system is then an empty directory that satisfies the
    invariants under which file I/O and directory operations are verified, with
    every system block outside of it; [sfs_getroot] stops the kernel only when
    the root inode cannot be read or there is no memory for it. *)
Theorem new_volume_mounts volname nb s
    (Hvol : new_volume volname nb (s_dev s)) (Hheap : heap_ok (s_heap s)) (Hlock : 0 <= s_lock s) :
  exists r s1, sfs_domount s = Ret (r, s1) /\
    (mount_failed r s s1 \/
     r = 0 /\ mounted volname nb s s1 /\
     ((exists vn s2, sfs_getroot s1 = Ret (vn, s2) /\ s_lock s2 = s_lock s /\
         inv (system_blocks nb) vn (locked s2) /\ dir_ok vn s2 /\ dir_map vn s2 = ∅) \/
      (sfs_getroot s1 = Panic /\ exists e s2,
         sfs_loadvnode SFS_ROOT_LOCATION SFS_TYPE_INVAL (locked s1) = Ret ((e, 0), s2) /\
         (e = ENOMEM \/ e = EIO)))).
Proof.
  destruct (domount_spec volname nb s Hvol Hheap Hlock) as (r & s1 & E & [[-> Hmo]|Hf]);
    exists r || exists 0; exists s1; (split; [done|]); [right|by left].
  assert (Hl1 : s_lock s1 = s_lock s) by apply Hmo. do 2 (split; [done|]).
  destruct (load_root volname nb s s1 Hvol Hmo ltac:(lia)) as (r & vn & s2 & El & Hr).
  unfold sfs_getroot, vfs_biglock_acquire. mrun. fold (locked s1). rewrite (bind_ok _ _ _ _ _ El).
  destruct Hr as [(-> & Hi & Hd & Hm & Hl2)|[-> Hr]].
  - left. cbn [Z.eqb negb]. rewrite (bind_ok _ _ _ _ _ (release_ok s2 ltac:(lia))).
    exists vn, (set_lock s2 (s_lock s2 - 1)). split; [done|]. split; [cbn; lia|].
    unfold locked. rewrite relock. split; [done|]. split; [|done]. by destruct Hd; split.
  - right. split; [by destruct Hr as [-> | ->]|]. by exists r, s2.
Qed.

End mount.

(** ** A disk of eight blocks *)

(** A file whose writes follow a script: [None] is an interruption, [Some k] a
    write of at most [k] bytes; after the script, writes are complete. *)
Module RefFile.

Record t := mk { data : list Z; pos : Z; script : list (option Z) }.

Definition write (l : list Z) (f : t) : wres * t :=
  match script f with
  | None :: r => (Interrupted, mk (data f) (pos f) r)
  | _ =>
      let k := match script f with Some k :: _ => Z.min (Z.max 1 k) (zlength l) | _ => zlength l end in
      (Wrote k, mk (splice (data f) (pos f) (take (Z.to_nat k) l)) (pos f + k) (tail (script f)))
  end.

Fixpoint interruptions (l : list (option Z)) : nat :=
  match l with [] => 0 | None :: l => S (interruptions l) | Some _ :: l => interruptions l end.

Lemma write_spec f l : l <> [] ->
  exists r f', write l f = (r, f') /\
    ((exists k, r = Wrote k /\ 0 < k <= zlength l /\ data f' = splice (data f) (pos f) (take (Z.to_nat k) l) /\
        pos f' = pos f + k /\ (interruptions (script f') <= interruptions (script f))%nat) \/
     (r = Interrupted /\ data f' = data f /\ pos f' = pos f /\
        (interruptions (script f') < interruptions (script f))%nat)).
Proof.
  intros Hl. assert (0 < zlength l) by (destruct l; [done|]; rewrite zlength_cons; pose proof (zlength_nonneg l); lia).
  destruct f as [d p [|[k|] r]]; unfold write; cbn [script]; eexists _, _; (split; [done|]); cbn.
  - left. eexists. split_and!; done || lia.
  - left. eexists. split_and!; try done; lia.
  - right. split_and!; done || lia.
Qed.

End RefFile.

#[refine, global] Instance ref_file : DiskFile RefFile.t := {|
  f_open _ f := (3, f);
  f_fstat f := (0, zlength (RefFile.data f));
  f_lseek off f := (off, RefFile.mk (RefFile.data f) off (RefFile.script f));
  f_write := RefFile.write;
  f_close f := (0, f);
  f_data := RefFile.data;
  f_pos := RefFile.pos;
  f_intr f := RefFile.interruptions (RefFile.script f);
  f_ok _ := True
|}.
Proof.
  - done.
  - intros. eexists. by split_and!.
  - intros f l _ Hl _ _. destruct (RefFile.write_spec f l Hl) as (r & f' & E & Hr). by exists r, f'.
  - intros f _. by exists f.
Defined.

(** The first write is interrupted, the second one short; the name is "vol:". *)
Definition demo_file : RefFile.t := RefFile.mk (replicate 4096 7) 0 [None; Some 100; Some 0].
Definition demo_vol : list Z := [118; 111; 108].
Lemma mksfs_formats_witness : exists s',
  main [[]; []; demo_vol ++ [COLON]] (mk_mkst demo_file (-1) 0 (replicate 16384 0)) = Ret (0, s') /\
  formatted demo_vol 8 (image_block (f_data (m_file s'))) /\
  forall b, 3 <= b < 8 -> image_block (f_data (m_file s')) b = image_block (replicate 4096 7) b.
Proof.
  assert (E : zlength (f_data demo_file) / 512 = 8) by (vm_compute; reflexivity).
  destruct (@mksfs_formats RefFile.t ref_file [] [] (demo_vol ++ [COLON]) demo_vol demo_file 3 demo_file ltac:(reflexivity)
    ltac:(lia) I eq_refl eq_refl ltac:(rewrite E; lia)) as (s' & Hm & Hf & Hb).
  rewrite E in Hf, Hb. exists s'. split; [exact Hm|]. split; [exact Hf|exact Hb].
Defined.

(** The free map of a new volume of 8 blocks. *)
Definition demo_map : list Z := 7 :: replicate 511 255 ++ replicate (Z.to_nat 15872) 0.

Lemma ones_byte k : 0 <= k < 8 -> Z.testbit 255 k = true.
Proof. intros Hk. change 255 with (Z.ones 8). by apply Z.ones_spec_low. Qed.

Lemma demo_map_ok : buf_ok (used 8) demo_map.
Proof.
  assert (E1 : SFS_BITBLOCKS 8 = 1) by reflexivity. split.
  - unfold demo_map. unfold zlength. cbn [length]. rewrite length_app, !length_replicate. lia.
  - intros [|k] w; unfold demo_map; [intros [= <-]; lia|]. change ((7 :: ?l) !! S k) with (l !! k).
    intros [[-> _]%lookup_replicate|[_ [-> _]%lookup_replicate]]%lookup_app_Some; lia.
  - intros i Hi. unfold bit, used, demo_map. cbn [v buf_map]. rewrite E1.
    pose proof (Z.div_mod i 8 ltac:(lia)) as Hd. pose proof (Z.mod_pos_bound i 8 ltac:(lia)) as Hm.
    destruct (Z.to_nat (i / 8)) as [|k] eqn:Ek.
    + assert (i = 0 \/ i = 1 \/ i = 2 \/ i = 3 \/ i = 4 \/ i = 5 \/ i = 6 \/ i = 7) as Hc by lia.
      by destruct Hc as [->|[->|[->|[->|[->|[->|[->| ->]]]]]]].
    + change ((7 :: ?l) !! S k) with (l !! k). rewrite (proj2 (Z.ltb_ge i (2 + 1))), (proj2 (Z.leb_le 8 i)) by lia.
      destruct (decide (k < 511)%nat) as [Hk|Hk].
      * rewrite lookup_app_l by (rewrite length_replicate; lia).
        rewrite lookup_replicate_2, ones_byte by lia. rewrite (proj2 (Z.ltb_lt i _)) by lia. done.
      * rewrite lookup_app_r, length_replicate by (rewrite length_replicate; lia).
        rewrite lookup_replicate_2, Z.bits_0 by lia. rewrite (proj2 (Z.ltb_ge i _)) by lia. done.
Qed.

(** A disk with a new volume, in a machine with a heap and no file system; a
    block cannot be read at the first attempt. *)
Definition demo_dev : lhd RefDisk.t :=
  mk_lhd (RefDisk.mk ([super_block demo_vol 8; root_inode; slice demo_map 0 512] ++ replicate 5 zeros)
            [true] true) zeros.
Definition demo_machine : sst RefHeap.t (lhd RefDisk.t) :=
  mk_sst (RefHeap.init 4096) demo_dev (∅ : gmap Z Z) 1 0
    (mk_sfs 0 zeros false 0 array_init (mk_bitmap 0 0 0 []) false) ∅.

Lemma demo_volume : new_volume demo_vol 8 demo_dev.
Proof.
  split.
  - split; [|done]. split; [done|]. cbn [RefDisk.sectors demo_dev lh_disk].
    change LHD_SECTSIZE with 512.
    repeat (apply list.Forall_cons; split; [|]); [by apply super_len|done|apply slice_length; [lia|lia|]|done..|].
    + destruct demo_map_ok as [-> _ _]. lia.
    + apply list.Forall_nil_2.
  - done.
  - done.
  - done.
  - lia.
  - done.
  - unfold c_string, demo_vol. repeat (apply list.Forall_cons; split; [lia|]). apply list.Forall_nil_2.
  - split; [done|done|]. exists demo_map. split; [exact demo_map_ok|]. intros j Hj.
    change (SFS_BITBLOCKS 8) with 1 in Hj. by assert (j = 0) as -> by lia.
Qed.

Lemma new_volume_mounts_witness : exists s1,
  sfs_domount demo_machine = Ret (0, s1) /\ mounted demo_vol 8 demo_machine s1 /\
  exists vn s2, sfs_getroot s1 = Ret (vn, s2) /\ inv (system_blocks 8) vn (locked s2) /\ dir_map vn s2 = ∅.
Proof.
  destruct (new_volume_mounts demo_vol 8 demo_machine demo_volume)
    as (r & s1 & E & Hc); [exact (RefHeap.init_ok 4096)|exact (Z.le_refl 0)|].
  assert (Er : match sfs_domount demo_machine with
               | Ret (r, s) => Some (r, match sfs_getroot s with Ret _ => true | _ => false end)
               | _ => None end = Some (0, true)) by (lazy; reflexivity).
  rewrite E in Er. injection Er as -> Eg. exists s1. split; [exact E|].
  destruct Hc as [[[Hc|Hc] _]|(_ & Hm & Hg)]; [discriminate Hc|discriminate Hc|]. split; [exact Hm|].
  destruct Hg as [(vn & s2 & Er & _ & Hi & _ & Hd)|[Er _]]; [|rewrite Er in Eg; discriminate Eg].
  exists vn, s2. split; [exact Er|]. split; [exact Hi|exact Hd].
Defined.

(** A superblock that claims more blocks than the device has only draws a
    warning; the free map is then read past the end of the device, and the
    [EINVAL] of the device stops the kernel. *)
Definition big_machine : sst RefHeap.t (lhd RefDisk.t) :=
  mk_sst (RefHeap.init 8192)
    (mk_lhd (RefDisk.mk [super_block demo_vol 5000; root_inode; zeros] [] true) zeros)
    (∅ : gmap Z Z) 1 0 (mk_sfs 0 zeros false 0 array_init (mk_bitmap 0 0 0 []) false) ∅.

Lemma mount_of_too_large_volume_panics : sfs_domount big_machine = Panic.
Proof. vm_compute. reflexivity. Qed.
