(* ===== verification/Trap.v ===== *)
(** * Traps and system calls (arch/mips/locore/trap.c, arch/mips/syscall/syscall.c)

    The entry into the kernel: the interrupt priority level of the current
    thread (thread/spl.c), the dispatch of traps, the dispatch of system calls
    with their calling convention, the ways back to user mode, and the stub in
    the C library from which programs make the calls.  The handlers are used
    through an interface.  [asm_usermode] and the assembly before [mips_trap]
    move the registers between the processor and the trap frame. *)

From stdpp Require Import base numbers list.
From Stdlib Require Import ZArith Lia.
From S2P Require Import Prelude.

(** ** The trap frame (arch/mips/include/trapframe.h) *)

Record trapframe := mk_tf {
  tf_vaddr : Z; tf_status : Z; tf_cause : Z; tf_lo : Z; tf_hi : Z; tf_ra : Z; tf_at : Z; tf_v0 :
  Z; tf_v1 : Z; tf_a0 : Z; tf_a1 : Z; tf_a2 : Z; tf_a3 : Z; tf_t0 : Z; tf_t1 : Z; tf_t2 : Z;
  tf_t3 : Z; tf_t4 : Z; tf_t5 : Z; tf_t6 : Z; tf_t7 : Z; tf_s0 : Z; tf_s1 : Z; tf_s2 : Z; tf_s3
  : Z; tf_s4 : Z; tf_s5 : Z; tf_s6 : Z; tf_s7 : Z; tf_t8 : Z; tf_t9 : Z; tf_k0 : Z; tf_k1 : Z;
  tf_gp : Z; tf_sp : Z; tf_s8 : Z; tf_epc : Z
}.

Definition set_status (x : Z) (tf : trapframe) : trapframe :=
  mk_tf (tf_vaddr tf) x (tf_cause tf) (tf_lo tf) (tf_hi tf) (tf_ra tf) (tf_at tf) (tf_v0 tf)
    (tf_v1 tf) (tf_a0 tf) (tf_a1 tf) (tf_a2 tf) (tf_a3 tf) (tf_t0 tf) (tf_t1 tf) (tf_t2 tf)
    (tf_t3 tf) (tf_t4 tf) (tf_t5 tf) (tf_t6 tf) (tf_t7 tf) (tf_s0 tf) (tf_s1 tf) (tf_s2 tf)
    (tf_s3 tf) (tf_s4 tf) (tf_s5 tf) (tf_s6 tf) (tf_s7 tf) (tf_t8 tf) (tf_t9 tf) (tf_k0 tf)
    (tf_k1 tf) (tf_gp tf) (tf_sp tf) (tf_s8 tf) (tf_epc tf).
Definition set_cause (x : Z) (tf : trapframe) : trapframe :=
  mk_tf (tf_vaddr tf) (tf_status tf) x (tf_lo tf) (tf_hi tf) (tf_ra tf) (tf_at tf) (tf_v0 tf)
    (tf_v1 tf) (tf_a0 tf) (tf_a1 tf) (tf_a2 tf) (tf_a3 tf) (tf_t0 tf) (tf_t1 tf) (tf_t2 tf)
    (tf_t3 tf) (tf_t4 tf) (tf_t5 tf) (tf_t6 tf) (tf_t7 tf) (tf_s0 tf) (tf_s1 tf) (tf_s2 tf)
    (tf_s3 tf) (tf_s4 tf) (tf_s5 tf) (tf_s6 tf) (tf_s7 tf) (tf_t8 tf) (tf_t9 tf) (tf_k0 tf)
    (tf_k1 tf) (tf_gp tf) (tf_sp tf) (tf_s8 tf) (tf_epc tf).
Definition set_v0 (x : Z) (tf : trapframe) : trapframe :=
  mk_tf (tf_vaddr tf) (tf_status tf) (tf_cause tf) (tf_lo tf) (tf_hi tf) (tf_ra tf) (tf_at tf) x
    (tf_v1 tf) (tf_a0 tf) (tf_a1 tf) (tf_a2 tf) (tf_a3 tf) (tf_t0 tf) (tf_t1 tf) (tf_t2 tf)
    (tf_t3 tf) (tf_t4 tf) (tf_t5 tf) (tf_t6 tf) (tf_t7 tf) (tf_s0 tf) (tf_s1 tf) (tf_s2 tf)
    (tf_s3 tf) (tf_s4 tf) (tf_s5 tf) (tf_s6 tf) (tf_s7 tf) (tf_t8 tf) (tf_t9 tf) (tf_k0 tf)
    (tf_k1 tf) (tf_gp tf) (tf_sp tf) (tf_s8 tf) (tf_epc tf).
Definition set_v1 (x : Z) (tf : trapframe) : trapframe :=
  mk_tf (tf_vaddr tf) (tf_status tf) (tf_cause tf) (tf_lo tf) (tf_hi tf) (tf_ra tf) (tf_at tf)
    (tf_v0 tf) x (tf_a0 tf) (tf_a1 tf) (tf_a2 tf) (tf_a3 tf) (tf_t0 tf) (tf_t1 tf) (tf_t2 tf)
    (tf_t3 tf) (tf_t4 tf) (tf_t5 tf) (tf_t6 tf) (tf_t7 tf) (tf_s0 tf) (tf_s1 tf) (tf_s2 tf)
    (tf_s3 tf) (tf_s4 tf) (tf_s5 tf) (tf_s6 tf) (tf_s7 tf) (tf_t8 tf) (tf_t9 tf) (tf_k0 tf)
    (tf_k1 tf) (tf_gp tf) (tf_sp tf) (tf_s8 tf) (tf_epc tf).
Definition set_a0 (x : Z) (tf : trapframe) : trapframe :=
  mk_tf (tf_vaddr tf) (tf_status tf) (tf_cause tf) (tf_lo tf) (tf_hi tf) (tf_ra tf) (tf_at tf)
    (tf_v0 tf) (tf_v1 tf) x (tf_a1 tf) (tf_a2 tf) (tf_a3 tf) (tf_t0 tf) (tf_t1 tf) (tf_t2 tf)
    (tf_t3 tf) (tf_t4 tf) (tf_t5 tf) (tf_t6 tf) (tf_t7 tf) (tf_s0 tf) (tf_s1 tf) (tf_s2 tf)
    (tf_s3 tf) (tf_s4 tf) (tf_s5 tf) (tf_s6 tf) (tf_s7 tf) (tf_t8 tf) (tf_t9 tf) (tf_k0 tf)
    (tf_k1 tf) (tf_gp tf) (tf_sp tf) (tf_s8 tf) (tf_epc tf).
Definition set_a1 (x : Z) (tf : trapframe) : trapframe :=
  mk_tf (tf_vaddr tf) (tf_status tf) (tf_cause tf) (tf_lo tf) (tf_hi tf) (tf_ra tf) (tf_at tf)
    (tf_v0 tf) (tf_v1 tf) (tf_a0 tf) x (tf_a2 tf) (tf_a3 tf) (tf_t0 tf) (tf_t1 tf) (tf_t2 tf)
    (tf_t3 tf) (tf_t4 tf) (tf_t5 tf) (tf_t6 tf) (tf_t7 tf) (tf_s0 tf) (tf_s1 tf) (tf_s2 tf)
    (tf_s3 tf) (tf_s4 tf) (tf_s5 tf) (tf_s6 tf) (tf_s7 tf) (tf_t8 tf) (tf_t9 tf) (tf_k0 tf)
    (tf_k1 tf) (tf_gp tf) (tf_sp tf) (tf_s8 tf) (tf_epc tf).
Definition set_a3 (x : Z) (tf : trapframe) : trapframe :=
  mk_tf (tf_vaddr tf) (tf_status tf) (tf_cause tf) (tf_lo tf) (tf_hi tf) (tf_ra tf) (tf_at tf)
    (tf_v0 tf) (tf_v1 tf) (tf_a0 tf) (tf_a1 tf) (tf_a2 tf) x (tf_t0 tf) (tf_t1 tf) (tf_t2 tf)
    (tf_t3 tf) (tf_t4 tf) (tf_t5 tf) (tf_t6 tf) (tf_t7 tf) (tf_s0 tf) (tf_s1 tf) (tf_s2 tf)
    (tf_s3 tf) (tf_s4 tf) (tf_s5 tf) (tf_s6 tf) (tf_s7 tf) (tf_t8 tf) (tf_t9 tf) (tf_k0 tf)
    (tf_k1 tf) (tf_gp tf) (tf_sp tf) (tf_s8 tf) (tf_epc tf).
Definition set_sp (x : Z) (tf : trapframe) : trapframe :=
  mk_tf (tf_vaddr tf) (tf_status tf) (tf_cause tf) (tf_lo tf) (tf_hi tf) (tf_ra tf) (tf_at tf)
    (tf_v0 tf) (tf_v1 tf) (tf_a0 tf) (tf_a1 tf) (tf_a2 tf) (tf_a3 tf) (tf_t0 tf) (tf_t1 tf)
    (tf_t2 tf) (tf_t3 tf) (tf_t4 tf) (tf_t5 tf) (tf_t6 tf) (tf_t7 tf) (tf_s0 tf) (tf_s1 tf)
    (tf_s2 tf) (tf_s3 tf) (tf_s4 tf) (tf_s5 tf) (tf_s6 tf) (tf_s7 tf) (tf_t8 tf) (tf_t9 tf)
    (tf_k0 tf) (tf_k1 tf) (tf_gp tf) x (tf_s8 tf) (tf_epc tf).
Definition set_epc (x : Z) (tf : trapframe) : trapframe :=
  mk_tf (tf_vaddr tf) (tf_status tf) (tf_cause tf) (tf_lo tf) (tf_hi tf) (tf_ra tf) (tf_at tf)
    (tf_v0 tf) (tf_v1 tf) (tf_a0 tf) (tf_a1 tf) (tf_a2 tf) (tf_a3 tf) (tf_t0 tf) (tf_t1 tf)
    (tf_t2 tf) (tf_t3 tf) (tf_t4 tf) (tf_t5 tf) (tf_t6 tf) (tf_t7 tf) (tf_s0 tf) (tf_s1 tf)
    (tf_s2 tf) (tf_s3 tf) (tf_s4 tf) (tf_s5 tf) (tf_s6 tf) (tf_s7 tf) (tf_t8 tf) (tf_t9 tf)
    (tf_k0 tf) (tf_k1 tf) (tf_gp tf) (tf_sp tf) (tf_s8 tf) x.

(** [bzero(&tf, sizeof(tf))] *)
Definition zero_tf : trapframe :=
  mk_tf 0 0 0 0 0 0 0 0 0 0 0 0 0 0 0 0 0 0 0 0 0 0 0 0 0 0 0 0 0 0 0 0 0 0 0 0 0.

Definition EX_IRQ : Z := 0.
Definition EX_MOD : Z := 1.
Definition EX_TLBL : Z := 2.
Definition EX_TLBS : Z := 3.
Definition EX_ADEL : Z := 4.
Definition EX_ADES : Z := 5.
Definition EX_IBE : Z := 6.
Definition EX_DBE : Z := 7.
Definition EX_SYS : Z := 8.
Definition EX_BP : Z := 9.
Definition EX_RI : Z := 10.
Definition EX_CPU : Z := 11.
Definition EX_OVF : Z := 12.
Definition NTRAPCODES : Z := 13.

(** Fields of the cause and status registers (specialreg.h). *)
Definition CCA_CODE : Z := 60.
Definition CCA_CODESHIFT : Z := 2.
Definition CST_IEp : Z := 4.
Definition CST_KUp : Z := 8.
Definition CST_IRQMASK : Z := 65280.

Definition SIGILL : Z := 4.
Definition SIGTRAP : Z := 5.
Definition SIGFPE : Z := 8.
Definition SIGBUS : Z := 10.
Definition SIGSEGV : Z := 11.

Definition VM_FAULT_READ : Z := 0.
Definition VM_FAULT_WRITE : Z := 1.
Definition VM_FAULT_READONLY : Z := 2.

Definition SYS_fork : Z := 0.
Definition SYS_execv : Z := 2.
Definition SYS__exit : Z := 3.
Definition SYS_waitpid : Z := 4.
Definition SYS_getpid : Z := 5.
Definition SYS_write : Z := 55.
Definition SYS___time : Z := 113.
Definition SYS_reboot : Z := 119.

(** ** The current thread and its processor *)

Definition IPL_NONE : Z := 0.
Definition IPL_HIGH : Z := 1.

(** The fields of [curthread] that the entry code uses, whether the processor
    takes interrupts, and its entries in [cputhreads] and [cpustacks].  A null
    [t_stack] is that of the boot thread; [tm_badfaultfunc] is null or the
    address at which a failed copy goes on. *)
Record tstate := mk_ts {
  t_self : Z;
  t_curspl : Z;
  t_iplhigh_count : Z;
  t_in_interrupt : bool;
  t_stack : Z;
  tm_badfaultfunc : Z;
  irqs_on : bool;
  cputhread : Z;
  cpustack : Z
}.

Definition set_spl (x : Z) (t : tstate) : tstate :=
  mk_ts (t_self t) x (t_iplhigh_count t) (t_in_interrupt t) (t_stack t) (tm_badfaultfunc t) (irqs_on t)
    (cputhread t) (cpustack t).
Definition set_iplhigh (x : Z) (t : tstate) : tstate :=
  mk_ts (t_self t) (t_curspl t) x (t_in_interrupt t) (t_stack t) (tm_badfaultfunc t) (irqs_on t)
    (cputhread t) (cpustack t).
Definition set_in_interrupt (x : bool) (t : tstate) : tstate :=
  mk_ts (t_self t) (t_curspl t) (t_iplhigh_count t) x (t_stack t) (tm_badfaultfunc t) (irqs_on t)
    (cputhread t) (cpustack t).
Definition set_irqs (x : bool) (t : tstate) : tstate :=
  mk_ts (t_self t) (t_curspl t) (t_iplhigh_count t) (t_in_interrupt t) (t_stack t) (tm_badfaultfunc t) x
    (cputhread t) (cpustack t).
Definition set_cpu (thread stack : Z) (t : tstate) : tstate :=
  mk_ts (t_self t) (t_curspl t) (t_iplhigh_count t) (t_in_interrupt t) (t_stack t) (tm_badfaultfunc t)
    (irqs_on t) thread stack.

(** The current thread, and the rest of the kernel. *)
Record kst (S : Type) := mk_kst { thr : tstate; rest : S }.
Arguments mk_kst {S}.
Arguments thr {S}.
Arguments rest {S}.

Section spl.
Context {S : Type}.

Definition on_thr (f : tstate -> tstate) : M (kst S) unit :=
  modify (fun s => mk_kst (f (thr s)) (rest s)).

Definition cpu_irqoff : M (kst S) unit := on_thr (set_irqs false).
Definition cpu_irqon : M (kst S) unit := on_thr (set_irqs true).

Definition splraise (oldspl newspl : Z) : M (kst S) unit :=
  let* s := get in
  do* kassert (oldspl =? IPL_NONE) in
  do* kassert (newspl =? IPL_HIGH) in
  do* (if t_iplhigh_count (thr s) =? 0 then cpu_irqoff else ret tt) in
  on_thr (fun t => set_iplhigh (t_iplhigh_count t + 1) t).

Definition spllower (oldspl newspl : Z) : M (kst S) unit :=
  do* kassert (oldspl =? IPL_HIGH) in
  do* kassert (newspl =? IPL_NONE) in
  do* on_thr (fun t => set_iplhigh (t_iplhigh_count t - 1) t) in
  let* s := get in
  if t_iplhigh_count (thr s) =? 0 then cpu_irqon else ret tt.

Definition splx (spl : Z) : M (kst S) Z :=
  let* s := get in
  let cur := t_curspl (thr s) in
  if cur <? spl then
    do* splraise cur spl in
    do* on_thr (set_spl spl) in
    ret cur
  else if spl <? cur then
    do* on_thr (set_spl spl) in
    do* spllower cur spl in
    ret cur
  else ret spl.

Definition spl0 : M (kst S) Z := splx IPL_NONE.
Definition splhigh : M (kst S) Z := splx IPL_HIGH.

End spl.

(** ** The handlers *)

(** What the entry code calls.  A handler that produces a value returns its
    error number and the value; [sys__exit] ends the thread; [sys_execv] returns
    only an error, and otherwise enters the new program with a new frame. *)
Class Kernel (S : Type) := {
  mainbus_interrupt : trapframe -> M (kst S) unit;
  vm_fault : Z -> Z -> M (kst S) Z;
  sys_reboot : Z -> M (kst S) Z;
  sys___time : Z -> Z -> M (kst S) Z;
  sys_write : Z -> Z -> Z -> M (kst S) (Z * Z);
  sys__exit : Z -> M (kst S) unit;
  sys_getpid : M (kst S) (Z * Z);
  sys_waitpid : Z -> Z -> Z -> M (kst S) (Z * Z);
  sys_fork : trapframe -> M (kst S) (Z * Z);
  sys_execv : Z -> Z -> M (kst S) (Z + trapframe)
}.

(** How a thread leaves the kernel: back to the trapped code, into a new
    program, or not at all. *)
Inductive leave := Resume (tf : trapframe) | Replaced (tf : trapframe) | Exited.

Section trap.
Context {S : Type} `{Kernel S}.

(** ** syscall.c *)

Definition syscall (tf : trapframe) : M (kst S) leave :=
  let* s := get in
  do* kassert (t_curspl (thr s) =? 0) in
  do* kassert (t_iplhigh_count (thr s) =? 0) in
  let callno := s32 (tf_v0 tf) in
  let* r :=
    if callno =? SYS_reboot then
      let* err := sys_reboot (s32 (tf_a0 tf)) in ret (inl (err, 0))
    else if callno =? SYS___time then
      let* err := sys___time (tf_a0 tf) (tf_a1 tf) in ret (inl (err, 0))
    else if callno =? SYS_write then
      let* r := sys_write (s32 (tf_a0 tf)) (tf_a1 tf) (tf_a2 tf) in ret (inl r)
    else if callno =? SYS__exit then
      do* sys__exit (s32 (tf_a0 tf)) in ret (inr Exited)
    else if callno =? SYS_getpid then
      let* r := sys_getpid in ret (inl r)
    else if callno =? SYS_waitpid then
      let* r := sys_waitpid (s32 (tf_a0 tf)) (tf_a1 tf) (s32 (tf_a2 tf)) in ret (inl r)
    else if callno =? SYS_fork then
      let* r := sys_fork tf in ret (inl r)
    else if callno =? SYS_execv then
      let* r := sys_execv (tf_a0 tf) (tf_a1 tf) in
      match r with
      | inl _ => panic
      | inr tf' => ret (inr (Replaced tf'))
      end
    else ret (inl (ENOSYS, 0)) in
  match r with
  | inr l => ret l
  | inl (err, retval) =>
      let tf :=
        if negb (err =? 0) then set_a3 1 (set_v0 (w32 err) tf)
        else set_a3 0 (set_v0 (w32 retval) tf) in
      let tf := set_epc (w32 (tf_epc tf + 4)) tf in
      let* s := get in
      do* kassert (t_curspl (thr s) =? 0) in
      do* kassert (t_iplhigh_count (thr s) =? 0) in
      ret (Resume tf)
  end.

(** ** trap.c *)

(** [STACK_SIZE], [STACK_MASK] and [SAME_STACK] of include/thread.h. *)
Definition STACK_SIZE : Z := 4096.
Definition STACK_MASK : Z := 4294963200.
Definition SAME_STACK (p1 p2 : Z) : bool := Z.land p1 STACK_MASK =? Z.land p2 STACK_MASK.

Definition kill_curthread (epc code vaddr : Z) : M (kst S) leave :=
  do* kassert (code <? NTRAPCODES) in
  let* sig :=
    if (code =? EX_IRQ) || (code =? EX_IBE) || (code =? EX_DBE) || (code =? EX_SYS) then panic
    else if (code =? EX_MOD) || (code =? EX_TLBL) || (code =? EX_TLBS) then ret SIGSEGV
    else if (code =? EX_ADEL) || (code =? EX_ADES) then ret SIGBUS
    else if code =? EX_BP then ret SIGTRAP
    else if code =? EX_RI then ret SIGILL
    else if code =? EX_CPU then ret SIGSEGV
    else if code =? EX_OVF then ret SIGFPE
    else ret 0 in
  do* sys__exit sig in
  ret Exited.

(** The end of [mips_trap], at the label [done2]. *)
Definition trap_done2 (tfaddr : Z) (tf : trapframe) : M (kst S) leave :=
  let* s := get in
  if t_stack (thr s) =? 0 then ret (Resume tf) else
  do* on_thr (fun t => set_cpu (t_self t) (w32 (t_stack t + STACK_SIZE)) t) in
  let* s := get in
  do* kassert (SAME_STACK (cpustack (thr s) - 1) tfaddr) in
  ret (Resume tf).
Definition trap_done (tfaddr : Z) (tf : trapframe) : M (kst S) leave :=
  do* cpu_irqoff in trap_done2 tfaddr tf.

Definition trap_interrupt (tfaddr : Z) (tf : trapframe) : M (kst S) leave :=
  let* s := get in
  let old_in := t_in_interrupt (thr s) in
  do* on_thr (set_in_interrupt true) in
  let doadjust := t_curspl (thr s) =? 0 in
  do* (if doadjust then
         do* kassert (t_iplhigh_count (thr s) =? 0) in
         do* on_thr (set_spl IPL_HIGH) in
         on_thr (fun t => set_iplhigh (t_iplhigh_count t + 1) t)
       else ret tt) in
  do* mainbus_interrupt tf in
  do* (if doadjust then
         let* s := get in
         do* kassert (t_curspl (thr s) =? IPL_HIGH) in
         do* kassert (t_iplhigh_count (thr s) =? 1) in
         do* on_thr (fun t => set_iplhigh (t_iplhigh_count t - 1) t) in
         on_thr (set_spl 0)
       else ret tt) in
  do* on_thr (set_in_interrupt old_in) in
  trap_done2 tfaddr tf.

(** A fault that nothing has handled. *)
Definition trap_fatal (tfaddr : Z) (tf : trapframe) (iskern : bool) (code : Z) : M (kst S) leave :=
  if negb iskern then kill_curthread (tf_epc tf) code (tf_vaddr tf)
  else
    let* s := get in
    if negb (tm_badfaultfunc (thr s) =? 0) then trap_done tfaddr (set_epc (tm_badfaultfunc (thr s)) tf)
    else panic.

(** [tfaddr] is the address of the trap frame. *)
Definition mips_trap (tfaddr : Z) (tf : trapframe) : M (kst S) leave :=
  let code := Z.shiftr (Z.land (tf_cause tf) CCA_CODE) CCA_CODESHIFT in
  let iskern := Z.land (tf_status tf) CST_KUp =? 0 in
  do* kassert (code <? NTRAPCODES) in
  let* s := get in
  do* (if negb (t_stack (thr s) =? 0) then
         do* kassert (t_stack (thr s) <? tfaddr) in
         kassert (tfaddr <? w32 (t_stack (thr s) + STACK_SIZE))
       else ret tt) in
  if code =? EX_IRQ then trap_interrupt tfaddr tf
  else
    let* spl := splhigh in
    do* splx spl in
    if code =? EX_SYS then
      let* s := get in
      do* kassert (t_curspl (thr s) =? 0) in
      do* kassert (t_iplhigh_count (thr s) =? 0) in
      let* r := syscall tf in
      match r with
      | Resume tf => trap_done tfaddr tf
      | _ => ret r
      end
    else
      let* handled :=
        if code =? EX_MOD then
          let* r := vm_fault VM_FAULT_READONLY (tf_vaddr tf) in ret (r =? 0)
        else if code =? EX_TLBL then
          let* r := vm_fault VM_FAULT_READ (tf_vaddr tf) in ret (r =? 0)
        else if code =? EX_TLBS then
          let* r := vm_fault VM_FAULT_WRITE (tf_vaddr tf) in ret (r =? 0)
        else if (code =? EX_IBE) || (code =? EX_DBE) then panic
        else ret false in
      if handled : bool then trap_done tfaddr tf
      else trap_fatal tfaddr tf iskern code.

(** ** Entering user mode *)

(** The frame with which [asm_usermode] enters the program. *)
Definition mips_usermode (tfaddr : Z) (tf : trapframe) : M (kst S) trapframe :=
  do* spl0 in
  do* cpu_irqoff in
  do* on_thr (fun t => set_cpu (t_self t) (w32 (t_stack t + STACK_SIZE)) t) in
  let* s := get in
  do* kassert (SAME_STACK (cpustack (thr s) - 1) tfaddr) in
  ret tf.

Definition enter_new_process (tfaddr argc argv stack entry : Z) : M (kst S) trapframe :=
  let tf := zero_tf in
  let tf := set_status (Z.lor (Z.lor CST_IRQMASK CST_IEp) CST_KUp) tf in
  let tf := set_epc entry tf in
  let tf := set_a0 (w32 argc) tf in
  let tf := set_a1 argv tf in
  let tf := set_sp stack tf in
  mips_usermode tfaddr tf.

Definition enter_forked_process (tfaddr : Z) (tf : trapframe) : M (kst S) trapframe :=
  let tf_copy := tf in
  let tf_copy := set_epc (w32 (tf_epc tf_copy + 4)) tf_copy in
  let tf_copy := set_v0 0 tf_copy in
  let tf_copy := set_a3 0 tf_copy in
  mips_usermode tfaddr tf_copy.

(** ** The stub in the C library (user/lib/libc/arch/mips/syscalls-mips.S) *)

(** The registers of a program when it executes a trapping instruction in user
    mode, as the exception code saves them. *)
Definition user_trap (code : Z) (regs : trapframe) : trapframe :=
  set_cause (Z.shiftl code CCA_CODESHIFT)
    (set_status (Z.lor (Z.lor CST_IRQMASK CST_IEp) CST_KUp) regs).

(** After the [syscall] instruction: the registers, and [errno]. *)
Definition stub_return (regs : trapframe) (errno : Z) : trapframe * Z :=
  if tf_a3 regs =? 0 then (regs, errno)
  else (set_v0 (w32 (-1)) (set_v1 (w32 (-1)) regs), tf_v0 regs).

(** [SYSCALL(sym, num)] and [__syscall]; [None] when the program does not come
    back from the call. *)
Definition __syscall (tfaddr num : Z) (regs : trapframe) (errno : Z) : M (kst S) (option (trapframe * Z)) :=
  let regs := set_v0 num regs in
  let* r := mips_trap tfaddr (user_trap EX_SYS regs) in
  match r with
  | Resume regs => ret (Some (stub_return regs errno))
  | _ => ret None
  end.

End trap.

(** ** The interrupt level *)

(** The level and its count agree: no holder at level 0, some at the high
    level. *)
Definition spl_ok (t : tstate) : Prop :=
  t_curspl t = IPL_NONE /\ t_iplhigh_count t = 0 \/ t_curspl t = IPL_HIGH /\ 1 <= t_iplhigh_count t.

Section spl_lemmas.
Context {S : Type}.
Implicit Types s : kst S.

Definition with_thr (f : tstate -> tstate) s : kst S := mk_kst (f (thr s)) (rest s).

(** [splhigh(); splx(spl)] brings the processor in line with the recorded
    level and changes nothing else: at level 0 interrupts are on again. *)
Lemma resync_spl {A} (k : M (kst S) A) s :
  spl_ok (thr s) ->
  (let* spl := splhigh in do* splx spl in k) s =
  k (if t_curspl (thr s) =? 0 then with_thr (set_irqs true) s else s).
Proof.
  destruct s as [[self spl cnt inint stk bad irq ct cs] r]. intros [[Hs Hc]|[Hs Hc]];
    cbn in Hs, Hc; subst; [done|].
  unfold splhigh, splx. mrun. cbn [thr t_curspl IPL_HIGH]. by mrun.
Qed.

End spl_lemmas.

(** ** What the handlers promise *)

(** A handler leaves the level and the thread's part of the processor as it
    found them. *)
Definition balanced {S A} (m : M (kst S) A) : Prop :=
  forall s a s', m s = Ret (a, s') -> thr s' = thr s.

Class KernelOk (S : Type) `{Kernel S} := {
  interrupt_balanced tf : balanced (mainbus_interrupt tf);
  fault_balanced ty va : balanced (vm_fault ty va);
  reboot_balanced code : balanced (sys_reboot code);
  time_balanced p q : balanced (sys___time p q);
  write_balanced fd p n : balanced (sys_write fd p n);
  getpid_balanced : balanced sys_getpid;
  waitpid_balanced pid p o : balanced (sys_waitpid pid p o);
  fork_balanced tf : balanced (sys_fork tf)
}.

Section calls.
Context {S : Type} {K : Kernel S} {KO : KernelOk S}.
Implicit Types (s : kst S) (tf : trapframe).

(** The calls that come back, by their numbers. *)
Definition handler (num : Z) (tf : trapframe) : option (M (kst S) (Z * Z)) :=
  let no_value (m : M (kst S) Z) : M (kst S) (Z * Z) := let* err := m in ret (err, 0) in
  if num =? SYS_reboot then Some (no_value (sys_reboot (s32 (tf_a0 tf))))
  else if num =? SYS___time then Some (no_value (sys___time (tf_a0 tf) (tf_a1 tf)))
  else if num =? SYS_write then Some (sys_write (s32 (tf_a0 tf)) (tf_a1 tf) (tf_a2 tf))
  else if num =? SYS_getpid then Some sys_getpid
  else if num =? SYS_waitpid then Some (sys_waitpid (s32 (tf_a0 tf)) (tf_a1 tf) (s32 (tf_a2 tf)))
  else if num =? SYS_fork then Some (sys_fork tf)
  else if (num =? SYS__exit) || (num =? SYS_execv) then None
  else Some (ret (ENOSYS, 0)).

Lemma no_value_balanced (m : M (kst S) Z) :
  balanced m -> balanced (let* err := m in ret (err, 0)).
Proof. intros Hb s a s' E. apply bind_ret_inv in E as (err & s1 & E & [= _ <-]). by eapply Hb. Qed.

Lemma handler_balanced num tf h : handler num tf = Some h -> balanced h.
Proof.
  unfold handler. intros Hh.
  repeat match type of Hh with (if ?b then _ else _) = _ => destruct b end; try discriminate Hh;
    injection Hh as <-; try apply no_value_balanced; try apply KO; by intros s a s' [= _ <-].
Qed.

(** The frame after a call. *)
Definition returned (tf : trapframe) (err v : Z) : trapframe :=
  set_epc (w32 (tf_epc tf + 4))
    (if err =? 0 then set_a3 0 (set_v0 (w32 v) tf) else set_a3 1 (set_v0 (w32 err) tf)).

Lemma syscall_handler tf h s err v s' :
  let num := s32 (tf_v0 tf) in
  handler num tf = Some h -> t_curspl (thr s) = 0 -> t_iplhigh_count (thr s) = 0 ->
  h s = Ret ((err, v), s') -> syscall tf s = Ret (Resume (returned tf err v), s').
Proof.
  intros num Hh Hs Hc E. pose proof (handler_balanced _ _ _ Hh _ _ _ E) as Hb.
  unfold syscall. mrun. rewrite Hs, Hc. cbn [Z.eqb]. mrun. fold num.
  match goal with |- bind ?m ?k s = _ => assert (Em : m s = Ret (inl (err, v), s')) end.
  { clear Hb Hs Hc. revert Hh. unfold handler.
    destruct (num =? SYS_reboot); [intros [= <-]; revert E; unfold bind; destruct (sys_reboot _ s) as [[? ?]| | |]; by intros [= <- <- <-]|].
    destruct (num =? SYS___time); [intros [= <-]; revert E; unfold bind; destruct (sys___time _ _ s) as [[? ?]| | |]; by intros [= <- <- <-]|].
    destruct (num =? SYS_write); [intros [= <-]; by rewrite (bind_ok _ _ _ _ _ E)|].
    destruct (num =? SYS__exit) eqn:E1.
    { apply Z.eqb_eq in E1. rewrite E1. discriminate. }
    destruct (num =? SYS_getpid); [intros [= <-]; by rewrite (bind_ok _ _ _ _ _ E)|].
    destruct (num =? SYS_waitpid); [intros [= <-]; by rewrite (bind_ok _ _ _ _ _ E)|].
    destruct (num =? SYS_fork); [intros [= <-]; by rewrite (bind_ok _ _ _ _ _ E)|].
    cbn [orb]. destruct (num =? SYS_execv); [discriminate|]. intros [= <-]. by injection E as <- <- <-. }
  rewrite (bind_ok _ _ _ _ _ Em). mrun. rewrite Hb, Hs, Hc. cbn [Z.eqb]. mrun.
  unfold returned. by destruct (err =? 0).
Qed.

(** A thread that can take a trap: its level is in order, and the frame at
    [tfaddr] lies in its stack. *)
Record trap_ready (tfaddr : Z) (t : tstate) : Prop := {
  tr_spl : spl_ok t;
  tr_stack : 0 < t_stack t /\ t_stack t + 4096 < two32;
  tr_align : t_stack t mod 4096 = 0;
  tr_frame : t_stack t < tfaddr < t_stack t + 4096
}.

(** How the entry code leaves the thread. *)
Definition left_thr (t : tstate) : tstate := set_cpu (t_self t) (t_stack t + 4096) t.

Lemma land_mask p : is_u32 p -> Z.land p STACK_MASK = p / 4096 * 4096.
Proof.
  intros Hp. unfold is_u32, two32 in Hp.
  transitivity (Z.ldiff p (Z.ones 12)).
  - apply Z.bits_inj'. intros n Hn. rewrite Z.land_spec, Z.ldiff_spec.
    change STACK_MASK with (Z.shiftl (Z.ones 20) 12). rewrite Z.shiftl_spec by lia.
    destruct (Z.lt_ge_cases n 12) as [Hl|Hl].
    + rewrite (Z.testbit_neg_r _ (n - 12)), (Z.ones_spec_low 12 n) by lia. by rewrite !andb_false_r.
    + rewrite (Z.ones_spec_high 12 n) by lia. destruct (Z.lt_ge_cases n 32) as [H3|H3].
      * by rewrite (Z.ones_spec_low 20) by lia.
      * rewrite (Z.ones_spec_high 20) by lia. rewrite andb_false_r. symmetry. rewrite andb_true_r.
        rewrite <- (Z.mod_small p (2 ^ 32)) by lia. by rewrite Z.mod_pow2_bits_high by lia.
  - rewrite Z.ldiff_ones_r by lia. by rewrite Z.shiftl_mul_pow2, Z.shiftr_div_pow2 by lia.
Qed.

Lemma same_stack_ok tfaddr t : trap_ready tfaddr t -> SAME_STACK (t_stack t + 4096 - 1) tfaddr = true.
Proof.
  intros [_ [Hp Hs] Ha Hf]. unfold SAME_STACK. apply Z.eqb_eq.
  rewrite !land_mask by (unfold is_u32; lia). f_equal.
  pose proof (Z.div_mod (t_stack t) 4096 ltac:(lia)) as Hd. rewrite Ha, Z.add_0_r in Hd.
  set (q := t_stack t / 4096) in *. rewrite Hd in *.
  rewrite <- (Z.div_unique tfaddr 4096 q (tfaddr - 4096 * q)) by lia.
  symmetry. apply (Z.div_unique _ 4096 q 4095); lia.
Qed.

Lemma trap_done2_ok tfaddr tf s :
  trap_ready tfaddr (thr s) -> trap_done2 tfaddr tf s = Ret (Resume tf, with_thr left_thr s).
Proof.
  intros Hr. pose proof (same_stack_ok _ _ Hr) as Hs. destruct Hr as [_ [Hp Hlt] _ _].
  unfold trap_done2. mrun. rewrite (proj2 (Z.eqb_neq _ 0)) by lia. unfold on_thr. mrun.
  cbn [thr cpustack set_cpu]. unfold STACK_SIZE. rewrite w32_id by (unfold is_u32; lia).
  rewrite Hs. by mrun.
Qed.

Definition left_off (t : tstate) : tstate := left_thr (set_irqs false t).

Lemma trap_done_ok tfaddr tf s :
  trap_ready tfaddr (thr s) -> trap_done tfaddr tf s = Ret (Resume tf, with_thr left_off s).
Proof.
  intros Hr. unfold trap_done, cpu_irqoff, on_thr. mrun.
  rewrite trap_done2_ok; [done|]. destruct Hr. by split.
Qed.

Lemma stack_checks {A} tfaddr s (k : M (kst S) A) :
  trap_ready tfaddr (thr s) ->
  (do* (if negb (t_stack (thr s) =? 0) then
          do* kassert (t_stack (thr s) <? tfaddr) in
          kassert (tfaddr <? w32 (t_stack (thr s) + STACK_SIZE))
        else ret tt) in k) s = k s.
Proof.
  intros [_ [Hp Hlt] _ Hf]. rewrite (proj2 (Z.eqb_neq _ 0)) by lia. cbn [negb]. unfold STACK_SIZE.
  rewrite w32_id by (unfold is_u32; lia). rewrite !(proj2 (Z.ltb_lt _ _)) by lia. by mrun.
Qed.

(** The level after the resynchronisation. *)
Definition resync s : kst S := if t_curspl (thr s) =? 0 then with_thr (set_irqs true) s else s.

Lemma resync_ready tfaddr s : trap_ready tfaddr (thr s) -> trap_ready tfaddr (thr (resync s)).
Proof. unfold resync. destruct (t_curspl (thr s) =? 0); [|done]. intros []. by split. Qed.

Lemma ready_eq tfaddr s s' : trap_ready tfaddr (thr s) -> thr s' = thr s -> trap_ready tfaddr (thr s').
Proof. by intros ? ->. Qed.

Definition trap_code tf : Z := Z.shiftr (Z.land (tf_cause tf) CCA_CODE) CCA_CODESHIFT.
Definition from_kernel tf : bool := Z.land (tf_status tf) CST_KUp =? 0.

(** The part of [mips_trap] after the level has been resynchronised. *)
Definition trap_body (tfaddr : Z) tf : M (kst S) leave :=
  let code := trap_code tf in
  if code =? EX_SYS then
    let* s := get in
    do* kassert (t_curspl (thr s) =? 0) in
    do* kassert (t_iplhigh_count (thr s) =? 0) in
    let* r := syscall tf in
    match r with
    | Resume tf => trap_done tfaddr tf
    | _ => ret r
    end
  else
    let* handled :=
      if code =? EX_MOD then let* r := vm_fault VM_FAULT_READONLY (tf_vaddr tf) in ret (r =? 0)
      else if code =? EX_TLBL then let* r := vm_fault VM_FAULT_READ (tf_vaddr tf) in ret (r =? 0)
      else if code =? EX_TLBS then let* r := vm_fault VM_FAULT_WRITE (tf_vaddr tf) in ret (r =? 0)
      else if (code =? EX_IBE) || (code =? EX_DBE) then panic
      else ret false in
    if handled : bool then trap_done tfaddr tf else trap_fatal tfaddr tf (from_kernel tf) code.

Lemma mips_trap_body tfaddr tf s :
  trap_ready tfaddr (thr s) -> trap_code tf < NTRAPCODES -> trap_code tf <> EX_IRQ ->
  mips_trap tfaddr tf s = trap_body tfaddr tf (resync s).
Proof.
  intros Hr Hc Hi. unfold mips_trap. fold (trap_code tf) (from_kernel tf).
  rewrite (proj2 (Z.ltb_lt _ _)) by done. mrun. rewrite stack_checks by done.
  rewrite (proj2 (Z.eqb_neq _ _)) by done. by rewrite resync_spl by apply Hr.
Qed.

(** ** System calls *)

(** Everything but the registers of the calling convention. *)
Definition kept tf :=
  (tf_lo tf, tf_hi tf, tf_ra tf, tf_at tf, (tf_a0 tf, tf_a1 tf, tf_a2 tf),
   (tf_t0 tf, tf_t1 tf, tf_t2 tf, tf_t3 tf, tf_t4 tf, tf_t5 tf, tf_t6 tf, tf_t7 tf, tf_t8 tf, tf_t9 tf),
   (tf_s0 tf, tf_s1 tf, tf_s2 tf, tf_s3 tf, tf_s4 tf, tf_s5 tf, tf_s6 tf, tf_s7 tf, tf_s8 tf),
   (tf_gp tf, tf_sp tf)).

(** A call from the program to the handler and back. *)
Lemma user_call_eq tfaddr num regs errno s h err v s' :
  let tf := user_trap EX_SYS (set_v0 num regs) in
  trap_ready tfaddr (thr s) -> t_curspl (thr s) = 0 -> 0 <= num < 32768 -> handler num tf = Some h ->
  h (with_thr (set_irqs true) s) = Ret ((err, v), s') ->
  __syscall tfaddr num regs errno s =
  Ret (Some (stub_return (returned tf err v) errno), with_thr left_off s').
Proof.
  intros tf Hready Huser Hnum Hh Hrun.
  assert (Hn : s32 (tf_v0 tf) = num) by (cbn; apply s32_id; unfold is_s32; lia).
  assert (Hc : t_iplhigh_count (thr s) = 0).
  { destruct (tr_spl _ _ Hready) as [[_ ?]|[Hh' _]]; [done|]. rewrite Huser in Hh'. done. }
  assert (Hs1 : syscall tf (with_thr (set_irqs true) s) = Ret (Resume (returned tf err v), s')).
  { apply (syscall_handler tf h); [by rewrite Hn|done|done|done]. }
  assert (Hb : thr s' = set_irqs true (thr s)) by exact (handler_balanced _ _ _ Hh _ _ _ Hrun).
  unfold __syscall. fold tf.
  assert (Ht : mips_trap tfaddr tf s = Ret (Resume (returned tf err v), with_thr left_off s')).
  { rewrite mips_trap_body by done. unfold resync, trap_body. rewrite Huser.
    change (trap_code tf =? EX_SYS) with true. cbn [Z.eqb]. mrun.
    cbn [thr with_thr set_irqs t_curspl t_iplhigh_count].
    rewrite Huser, Hc. cbn [Z.eqb]. mrun. rewrite (bind_ok _ _ _ _ _ Hs1).
    apply trap_done_ok. rewrite Hb. destruct Hready. by split. }
  by rewrite (bind_ok _ _ _ _ _ Ht).
Qed.


(** ** Entering user mode *)

Lemma mips_usermode_ok tfaddr tf s :
  trap_ready tfaddr (thr s) ->
  exists s', mips_usermode tfaddr tf s = Ret (tf, s') /\ t_curspl (thr s') = 0 /\
    irqs_on (thr s') = false /\ cpustack (thr s') = t_stack (thr s) + 4096 /\ rest s' = rest s.
Proof.
  intros Hr. pose proof (same_stack_ok _ _ Hr) as Hs. destruct Hr as [Hspl [Hp Hlt] _ _].
  destruct s as [[self spl cnt inint stk bad irq ct cs] r]. unfold spl_ok in Hspl. cbn in *.
  assert (Hw : w32 (stk + 4096) = stk + 4096) by (apply w32_id; unfold is_u32; lia).
  unfold mips_usermode, spl0, splx, cpu_irqoff, cpu_irqon, on_thr, STACK_SIZE. mrun. cbn [thr t_curspl].
  destruct Hspl as [[-> ->]|[-> Hc]]; cbn [IPL_NONE IPL_HIGH Z.ltb Z.compare]; mrun.
  - cbn [thr cpustack set_cpu t_stack set_irqs]. rewrite Hw, Hs. mrun. eexists. split; [done|]. done.
  - unfold spllower, cpu_irqon, on_thr. cbn [IPL_NONE IPL_HIGH Z.eqb Pos.eqb]. mrun.
    cbn [thr t_iplhigh_count set_iplhigh set_spl].
    destruct (cnt - 1 =? 0); mrun; cbn [thr cpustack set_cpu t_stack set_irqs set_iplhigh set_spl];
      rewrite Hw, Hs; mrun; eexists; (split; [done|]); done.
Qed.

(** C22. [fork] returns twice.  When [sys_fork] succeeds with the number of the
    child, the parent returns from the call with that number; the child, which
    enters user mode with a copy of the trap frame, returns from the same call
    with 0, and all its other registers, its program counter included, are those
    of the parent; neither touches [errno]. *)
Theorem fork_returns_twice tfaddr caddr regs errno s pid s' (c : kst S)
    (Hready : trap_ready tfaddr (thr s)) (Huser : t_curspl (thr s) = 0)
    (Hchild : trap_ready caddr (thr c))
    (Hrun : sys_fork (user_trap EX_SYS (set_v0 SYS_fork regs)) (with_thr (set_irqs true) s) =
            Ret ((0, pid), s')) :
  exists parent child c',
    __syscall tfaddr SYS_fork regs errno s = Ret (Some (parent, errno), with_thr left_off s') /\
    enter_forked_process caddr (user_trap EX_SYS (set_v0 SYS_fork regs)) c = Ret (child, c') /\
    stub_return child errno = (child, errno) /\
    tf_v0 parent = w32 pid /\ tf_v0 child = 0 /\ parent = set_v0 (w32 pid) child.
Proof.
  rewrite (user_call_eq tfaddr SYS_fork regs errno s _ 0 pid s' Hready Huser ltac:(done) eq_refl Hrun).
  destruct (mips_usermode_ok caddr (returned (user_trap EX_SYS (set_v0 SYS_fork regs)) 0 0) c Hchild)
    as (c' & E & _).
  eexists _, _, c'. split; [done|]. split; [exact E|]. done.
Qed.

(** ** Faults *)

(** The access that a TLB exception stands for. *)
Definition fault_type (code : Z) : option Z :=
  if code =? EX_MOD then Some VM_FAULT_READONLY
  else if code =? EX_TLBL then Some VM_FAULT_READ
  else if code =? EX_TLBS then Some VM_FAULT_WRITE
  else None.

(** The signal that a fatal fault would raise. *)
Definition fatal_signal (code : Z) : Z :=
  if (code =? EX_ADEL) || (code =? EX_ADES) then SIGBUS
  else if code =? EX_BP then SIGTRAP
  else if code =? EX_RI then SIGILL
  else if code =? EX_OVF then SIGFPE
  else SIGSEGV.

(** What is to happen on a fault: the VM system resolves it and the code goes
    on where it was; otherwise a user program ends with the signal as its exit
    code, and a copy from or to user memory goes on at its failure address. *)
Definition fault_spec tf : M (kst S) leave :=
  let code := trap_code tf in
  let resume tf := do* on_thr left_off in ret (Resume tf) in
  let fatal :=
    if from_kernel tf then
      let* s := get in
      if tm_badfaultfunc (thr s) =? 0 then panic else resume (set_epc (tm_badfaultfunc (thr s)) tf)
    else do* sys__exit (fatal_signal code) in ret Exited in
  match fault_type code with
  | Some ty => let* r := vm_fault ty (tf_vaddr tf) in if r =? 0 then resume tf else fatal
  | None => fatal
  end.

Definition is_fault (code : Z) : bool :=
  (EX_MOD <=? code) && (code <? NTRAPCODES) && negb ((code =? EX_SYS) || (code =? EX_IBE) || (code =? EX_DBE)).

Lemma fatal_ok tfaddr tf s :
  trap_ready tfaddr (thr s) -> is_fault (trap_code tf) = true ->
  trap_fatal tfaddr tf (from_kernel tf) (trap_code tf) s =
  (if from_kernel tf then
     let* s := get in
     if tm_badfaultfunc (thr s) =? 0 then panic
     else do* on_thr left_off in ret (Resume (set_epc (tm_badfaultfunc (thr s)) tf))
   else do* sys__exit (fatal_signal (trap_code tf)) in ret Exited) s.
Proof.
  intros Hr Hf. unfold trap_fatal. destruct (from_kernel tf); cbn [negb].
  - mrun. destruct (tm_badfaultfunc (thr s) =? 0); cbn [negb]; [done|]. by rewrite trap_done_ok.
  - unfold kill_curthread, fatal_signal, is_fault in *. set (c := trap_code tf) in *. bprop.
    unfold EX_MOD, NTRAPCODES in *.
    assert (c = 1 \/ c = 2 \/ c = 3 \/ c = 4 \/ c = 5 \/ c = 6 \/ c = 7 \/ c = 8 \/ c = 9 \/ c = 10 \/
            c = 11 \/ c = 12) as Hc by lia.
    destruct Hc as [E|[E|[E|[E|[E|[E|[E|[E|[E|[E|[E|E]]]]]]]]]]]; rewrite E in *; done.
Qed.


(** ** Interrupts *)

(** Bring the state of a call into the form in which its result is known. *)
Ltac at_call E :=
  match type of E with _ ?y = _ => match goal with |- bind _ _ ?x = _ => change x with y end end.

(** The thread while its processor handles an interrupt. *)
Definition in_irq (t : tstate) : tstate :=
  set_in_interrupt true (if t_curspl t =? 0 then set_iplhigh 1 (set_spl IPL_HIGH t) else t).

(** C31. An interrupt is transparent to the thread it interrupts: the handler runs
    at the high level, and afterwards the interrupted code goes on with all its
    registers, its interrupt level, the count of its holders and its interrupt
    flag as they were, at either level. *)
Theorem interrupts_transparent tfaddr tf s s'
    (Hready : trap_ready tfaddr (thr s)) (Hcode : trap_code tf = EX_IRQ)
    (Hrun : mainbus_interrupt tf (with_thr in_irq s) = Ret (tt, s')) :
  t_curspl (in_irq (thr s)) = IPL_HIGH /\
  mips_trap tfaddr tf s = Ret (Resume tf, mk_kst (left_thr (thr s)) (rest s')).
Proof.
  destruct s as [[self spl cnt inint stk bad irq ct cs] r].
  pose proof (interrupt_balanced _ _ _ _ Hrun) as Hb. destruct s' as [t' r']. cbn [thr] in Hb. subst t'.
  unfold mips_trap. fold (trap_code tf). rewrite Hcode. cbn [EX_IRQ NTRAPCODES Z.ltb Z.compare]. mrun.
  rewrite stack_checks by done. change (EX_IRQ =? EX_IRQ) with true. cbn iota.
  unfold trap_interrupt, on_thr. mrun.
  destruct (tr_spl _ _ Hready) as [[Hs Hc]|[Hs Hc]]; cbn in Hs, Hc; subst; (split; [done|]).
  - cbn [thr t_curspl t_iplhigh_count IPL_NONE Z.eqb]. mrun.
    at_call Hrun. rewrite (bind_ok _ _ _ _ _ Hrun). mrun. by rewrite trap_done2_ok.
  - cbn [thr t_curspl t_iplhigh_count IPL_HIGH Z.eqb]. mrun.
    at_call Hrun. rewrite (bind_ok _ _ _ _ _ Hrun). mrun. by rewrite trap_done2_ok.
Qed.

(** ** A failing [execv] *)

(** The manual page of [execv] says that on error -1 is returned; the
    dispatcher stops the kernel instead, whatever the error. *)
Theorem failing_execv_panics tfaddr regs errno s err s'
    (Hready : trap_ready tfaddr (thr s)) (Huser : t_curspl (thr s) = 0)
    (Hrun : sys_execv (tf_a0 regs) (tf_a1 regs) (with_thr (set_irqs true) s) = Ret (inl err, s')) :
  __syscall tfaddr SYS_execv regs errno s = Panic.
Proof.
  set (tf := user_trap EX_SYS (set_v0 SYS_execv regs)).
  assert (Hc : t_iplhigh_count (thr s) = 0).
  { destruct (tr_spl _ _ Hready) as [[_ ?]|[Hh' _]]; [done|]. rewrite Huser in Hh'. done. }
  unfold __syscall. fold tf. unfold bind. rewrite mips_trap_body by done.
  unfold resync, trap_body. rewrite Huser. change (trap_code tf =? EX_SYS) with true. cbn [Z.eqb]. mrun.
  cbn [thr with_thr set_irqs t_curspl t_iplhigh_count]. rewrite Huser, Hc. cbn [Z.eqb]. mrun.
  unfold bind at 1. unfold syscall. mrun. cbn [thr t_curspl t_iplhigh_count with_thr set_irqs].
  rewrite Huser, Hc. cbn [Z.eqb]. mrun. change (s32 (tf_v0 tf)) with SYS_execv.
  cbn [SYS_execv SYS_reboot SYS___time SYS_write SYS__exit SYS_getpid SYS_waitpid SYS_fork Z.eqb Pos.eqb].
  unfold bind. change (tf_a0 tf) with (tf_a0 regs). change (tf_a1 tf) with (tf_a1 regs). by rewrite Hrun.
Qed.

End calls.

(** ** A small kernel

    Its state is a log of the calls; pages below 0x1000000 are there. *)

Definition logged {A} (x : Z) (r : A) : M (kst (list Z)) A :=
  do* modify (fun s => mk_kst (thr s) (rest s ++ [x])) in ret r.

Lemma logged_balanced {A} x (r : A) : balanced (logged x r).
Proof. by intros s a s' [= _ <-]. Qed.

#[export] Instance log_kernel : Kernel (list Z) := {|
  mainbus_interrupt tf := logged 1 tt;
  vm_fault ty va := logged 2 (if va <? 16777216 then 0 else EFAULT);
  sys_reboot code := logged 3 EINVAL;
  sys___time p q := logged 4 0;
  sys_write fd p n := logged 5 (if (fd =? 1) || (fd =? 2) then (0, n) else (EUNIMP, 0));
  sys__exit code := logged (100 + code) tt;
  sys_getpid := logged 6 (0, 2);
  sys_waitpid pid p o := logged 7 (ECHILD, 0);
  sys_fork tf := logged 8 (0, 3);
  sys_execv p a := logged 9 (inl ENOENT)
|}.

#[export] Instance log_kernel_ok : KernelOk (list Z).
Proof. split; intros; apply logged_balanced. Qed.

Definition demo_thr (spl count : Z) : tstate := mk_ts 64 spl count false 8192 0 false 0 0.
Definition demo_kst (spl count : Z) : kst (list Z) := mk_kst (demo_thr spl count) [].
Definition demo_regs : trapframe :=
  set_epc 4194304 (set_a0 1 (set_a1 4198400 (set_sp 2147483632 zero_tf))).

Lemma demo_ready spl count :
  spl = IPL_NONE /\ count = 0 \/ spl = IPL_HIGH /\ 1 <= count -> trap_ready 12000 (demo_thr spl count).
Proof. intros Hs. split; [exact Hs|cbn; unfold two32; lia|done|cbn; lia]. Qed.


Lemma fork_returns_twice_witness : exists parent child s' c',
  __syscall 12000 SYS_fork demo_regs 7 (demo_kst 0 0) = Ret (Some (parent, 7), s') /\
  enter_forked_process 12000 (user_trap EX_SYS (set_v0 SYS_fork demo_regs)) (demo_kst 1 1) =
    Ret (child, c') /\
  tf_v0 parent = 3 /\ tf_v0 child = 0 /\ tf_epc parent = tf_epc child.
Proof.
  destruct (fork_returns_twice 12000 12000 demo_regs 7 (demo_kst 0 0) 3 _ (demo_kst 1 1)
    (demo_ready 0 0 ltac:(by left)) eq_refl (demo_ready 1 1 ltac:(by right)) eq_refl)
    as (p & q & c' & E & Ec & _ & Hp & Hq & Hpq).
  exists p, q. eexists. exists c'. split; [exact E|]. split; [exact Ec|]. split; [exact Hp|].
  split; [exact Hq|]. rewrite Hpq. reflexivity.
Defined.


Lemma interrupts_transparent_witness : exists s',
  mips_trap 12000 (user_trap EX_IRQ demo_regs) (demo_kst 0 0) =
    Ret (Resume (user_trap EX_IRQ demo_regs), s') /\
  t_curspl (thr s') = 0 /\ t_in_interrupt (thr s') = false /\ rest s' = [1].
Proof.
  destruct (interrupts_transparent 12000 (user_trap EX_IRQ demo_regs) (demo_kst 0 0) _
    (demo_ready 0 0 ltac:(by left)) eq_refl eq_refl) as [_ E].
  eexists. split; [exact E|]. split; [reflexivity|]. split; reflexivity.
Defined.

Lemma failing_execv_panics_witness :
  __syscall 12000 SYS_execv demo_regs 7 (demo_kst 0 0) = Panic.
Proof.
  exact (failing_execv_panics 12000 demo_regs 7 (demo_kst 0 0) ENOENT _
    (demo_ready 0 0 ltac:(by left)) eq_refl eq_refl).
Defined.
