(* ===== verification/Console.v ===== *)
(** * The console (dev/generic/console.c) and [write] (syscall/file_syscalls.c)

    The machine-independent console: the output path with its delay buffer, the
    ring buffer that the input interrupts fill, and the I/O routine behind the
    console's vnode, which moves the bytes of a uio; and the [write] system
    call, which hands the user's buffer to it.  The ring buffer is shown to be a
    queue that drops what does not fit, and a [write] to put exactly the bytes
    of the buffer on the screen. *)

From stdpp Require Import base numbers list gmap.
From Stdlib Require Import ZArith Lia.
From S2P Require Import Prelude Uio.

Definition DELAYBUFSIZE : Z := 1024.
Definition CONSOLE_INPUT_BUFFER_SIZE : Z := 32.
Definition CR : Z := 13.
Definition LF : Z := 10.

(** [struct con_softc] and the static variables.  [attached] says that there
    is a console; [delayed_outbuf] are the characters up to
    [delayed_outbuf_pos]; the semaphores are their counts; [sent] is what the
    device has been given.  [polled] says that the caller runs in an interrupt
    handler or with interrupts off. *)
Record console := mk_con {
  attached : bool;
  delayed_outbuf : list Z;
  cs_rsem : Z;
  cs_wsem : Z;
  cs_gotchars : list Z;
  cs_gotchars_head : Z;
  cs_gotchars_tail : Z;
  con_userlock_read : bool;
  con_userlock_write : bool;
  polled : bool;
  sent : list Z
}.

Definition set_delayed (x : list Z) (c : console) : console :=
  mk_con (attached c) x (cs_rsem c) (cs_wsem c) (cs_gotchars c) (cs_gotchars_head c) (cs_gotchars_tail c)
    (con_userlock_read c) (con_userlock_write c) (polled c) (sent c).
Definition set_rsem (x : Z) (c : console) : console :=
  mk_con (attached c) (delayed_outbuf c) x (cs_wsem c) (cs_gotchars c) (cs_gotchars_head c) (cs_gotchars_tail c)
    (con_userlock_read c) (con_userlock_write c) (polled c) (sent c).
Definition set_wsem (x : Z) (c : console) : console :=
  mk_con (attached c) (delayed_outbuf c) (cs_rsem c) x (cs_gotchars c) (cs_gotchars_head c) (cs_gotchars_tail c)
    (con_userlock_read c) (con_userlock_write c) (polled c) (sent c).
Definition set_ring (g : list Z) (h t : Z) (c : console) : console :=
  mk_con (attached c) (delayed_outbuf c) (cs_rsem c) (cs_wsem c) g h t
    (con_userlock_read c) (con_userlock_write c) (polled c) (sent c).
Definition set_locks (r w : bool) (c : console) : console :=
  mk_con (attached c) (delayed_outbuf c) (cs_rsem c) (cs_wsem c) (cs_gotchars c) (cs_gotchars_head c)
    (cs_gotchars_tail c) r w (polled c) (sent c).
Definition send (ch : Z) (c : console) : console :=
  mk_con (attached c) (delayed_outbuf c) (cs_rsem c) (cs_wsem c) (cs_gotchars c) (cs_gotchars_head c)
    (cs_gotchars_tail c) (con_userlock_read c) (con_userlock_write c) (polled c) (sent c ++ [ch]).

(** ** Output *)

Definition putch_delayed (ch : Z) : M console unit :=
  let* c := get in
  do* kassert (zlength (delayed_outbuf c) <? DELAYBUFSIZE) in
  put (set_delayed (delayed_outbuf c ++ [ch]) c).

Definition putch_polled (ch : Z) : M console unit := modify (send ch).

(** The write-done interrupt. *)
Definition con_start : M console unit := modify (fun c => set_wsem (cs_wsem c + 1) c).

(** [P(cs->cs_wsem)]: at 0 the thread sleeps until the device is done with the
    character before and calls [con_start]. *)
Definition P_wsem : M console unit :=
  let* c := get in
  do* (if cs_wsem c =? 0 then con_start else ret tt) in
  modify (fun c => set_wsem (cs_wsem c - 1) c).

Definition putch_intr (ch : Z) : M console unit :=
  do* P_wsem in
  modify (send ch).

Definition putch (ch : Z) : M console unit :=
  let* c := get in
  if negb (attached c) then putch_delayed ch
  else if polled c then putch_polled ch
  else putch_intr ch.

Fixpoint flush_loop (l : list Z) : M console unit :=
  match l with
  | [] => ret tt
  | ch :: l => do* putch ch in flush_loop l
  end.
Definition flush_delay_buf : M console unit :=
  let* c := get in
  do* flush_loop (delayed_outbuf c) in
  modify (set_delayed []).

(** ** Input *)

(** The read-ready interrupt. *)
Definition con_input (ch : Z) : M console unit :=
  let* c := get in
  let nexthead := (cs_gotchars_head c + 1) mod CONSOLE_INPUT_BUFFER_SIZE in
  if nexthead =? cs_gotchars_tail c then ret tt
  else
    let* g := lift (set_at (cs_gotchars c) (cs_gotchars_head c) ch) in
    put (set_rsem (cs_rsem c + 1) (set_ring g nexthead (cs_gotchars_tail c) c)).

(** What follows [P(cs->cs_rsem)] in [getch_intr]; the count is positive. *)
Definition take_char : M console Z :=
  do* modify (fun c => set_rsem (cs_rsem c - 1) c) in
  let* c := get in
  let* ch := lift (get_at (cs_gotchars c) (cs_gotchars_tail c)) in
  do* put (set_ring (cs_gotchars c) (cs_gotchars_head c)
             ((cs_gotchars_tail c + 1) mod CONSOLE_INPUT_BUFFER_SIZE) c) in
  ret ch.

(** ** The device *)

(** The console, the transfer in progress, and the characters that will be
    typed while a reader waits. *)
Record cio := mk_cio { con : console; io : xfer; typed : list Z }.

Definition on_con {A} (m : M console A) : M cio A := fun s =>
  match m (con s) with
  | Ret (a, c) => Ret (a, mk_cio c (io s) (typed s))
  | Panic => Panic | Fault => Fault | NoFuel => NoFuel
  end.
Definition on_io {A} (m : M xfer A) : M cio A := fun s =>
  match m (io s) with
  | Ret (a, x) => Ret (a, mk_cio (con s) x (typed s))
  | Panic => Panic | Fault => Fault | NoFuel => NoFuel
  end.

(** A reader that finds the buffer empty sleeps until the next character
    arrives; [None] when none does. *)
Definition getch_intr : M cio (option Z) :=
  let* s := get in
  if cs_rsem (con s) =? 0 then
    match typed s with
    | [] => ret None
    | ch :: r =>
        do* put (mk_cio (con s) (io s) r) in
        do* on_con (con_input ch) in
        let* ch := on_con take_char in ret (Some ch)
    end
  else let* ch := on_con take_char in ret (Some ch).

Definition getch : M cio (option Z) :=
  let* s := get in
  do* kassert (attached (con s)) in
  do* kassert (negb (polled (con s))) in
  getch_intr.

(** [while (uio->uio_resid > 0)]; every round moves a byte. *)
Fixpoint con_loop (fuel : nat) (curas : Z) : M cio (option Z) :=
  match fuel with
  | O => fun _ => NoFuel
  | S fuel =>
      let* s := get in
      let u := xu (io s) in
      if 0 <? uio_resid u then
        match uio_rw u with
        | UIO_READ =>
            let* r := getch in
            match r with
            | None => ret None
            | Some ch =>
                let ch := if ch =? CR then LF else ch in
                let* (result, _) := on_io (uiomove curas [ch] 1) in
                if negb (result =? 0) then ret (Some result)
                else if ch =? LF then ret (Some 0)
                else con_loop fuel curas
            end
        | UIO_WRITE =>
            let* (result, buf) := on_io (uiomove curas [0] 1) in
            if negb (result =? 0) then ret (Some result)
            else
              let* ch := lift (get_at buf 0) in
              do* (if ch =? LF then on_con (putch CR) else ret tt) in
              do* on_con (putch ch) in
              con_loop fuel curas
        end
      else ret (Some 0)
  end.

Definition set_lock (rw : uio_rw_t) (b : bool) (c : console) : console :=
  match rw with
  | UIO_READ => set_locks b (con_userlock_write c) c
  | UIO_WRITE => set_locks (con_userlock_read c) b c
  end.

(** The lock is taken for the whole transfer; [None] when the reader is still
    waiting, with the lock held. *)
Definition con_io (curas : Z) : M cio (option Z) :=
  let* s := get in
  let rw := uio_rw (xu (io s)) in
  do* kassert (attached (con s)) in
  do* on_con (modify (set_lock rw true)) in
  let* r := con_loop (S (Z.to_nat (uio_resid (xu (io s))))) curas in
  match r with
  | None => ret None
  | Some result =>
      do* on_con (modify (set_lock rw false)) in
      ret (Some result)
  end.

(** [dev_write] of vfs/device.c, which [VOP_WRITE] calls. *)
Definition dev_write (curas : Z) : M cio (option Z) :=
  let* s := get in
  do* kassert (bool_decide (uio_rw (xu (io s)) = UIO_WRITE)) in
  con_io curas.

(** ** [write] *)

Definition STDOUT_FILENO : Z := 1.
Definition STDERR_FILENO : Z := 2.

(** [curas] is the address space of the process; the error number and the
    value, or [None] when the call is still waiting. *)
Definition sys_write (curas fdesc ubuf nbytes : Z) : M cio (option (Z * Z)) :=
  if negb ((fdesc =? STDOUT_FILENO) || (fdesc =? STDERR_FILENO)) then ret (Some (EUNIMP, 0))
  else
    do* kassert (negb (curas =? 0)) in
    let u := mk_uio [mk_iovec ubuf [] nbytes] [] 0 nbytes UIO_USERSPACE UIO_WRITE curas in
    do* modify (fun s => mk_cio (con s) (mk_xfer u (xm (io s))) (typed s)) in
    let* r := dev_write curas in
    match r with
    | None => ret None
    | Some res =>
        if negb (res =? 0) then ret (Some (res, 0))
        else
          let* s := get in
          let retval := s32 (nbytes - uio_resid (xu (io s))) in
          do* kassert (0 <=? retval) in
          ret (Some (0, retval))
    end.

(** ** The ring buffer is a queue *)

Record ring_rep (c : console) (q : list Z) : Prop := {
  rr_size : zlength (cs_gotchars c) = 32;
  rr_tail : 0 <= cs_gotchars_tail c < 32;
  rr_head : cs_gotchars_head c = (cs_gotchars_tail c + zlength q) mod 32;
  rr_count : cs_rsem c = zlength q;
  rr_fit : zlength q <= 31;
  rr_elems i ch : q !! i = Some ch ->
    cs_gotchars c !! Z.to_nat ((cs_gotchars_tail c + Z.of_nat i) mod 32) = Some ch
}.

Lemma mod32_eq a b : 0 <= a < 64 -> 0 <= b < 64 -> a mod 32 = b mod 32 -> a = b \/ a = b + 32 \/ b = a + 32.
Proof.
  intros Ha Hb E. pose proof (Z.div_mod a 32 ltac:(lia)). pose proof (Z.div_mod b 32 ltac:(lia)).
  pose proof (Z.mod_pos_bound a 32 ltac:(lia)). lia.
Qed.

Lemma con_input_spec ch c q :
  ring_rep c q ->
  exists c', con_input ch c = Ret (tt, c') /\
    ring_rep c' (if zlength q <? 31 then q ++ [ch] else q) /\ (zlength q = 31 -> c' = c).
Proof.
  intros [Hs Ht Hh Hc Hf He]. pose proof (zlength_nonneg q) as Hq. unfold con_input, CONSOLE_INPUT_BUFFER_SIZE. mrun.
  rewrite Hh, Zplus_mod_idemp_l.
  destruct (Z.eqb_spec ((cs_gotchars_tail c + zlength q + 1) mod 32) (cs_gotchars_tail c)) as [E|E].
  - assert (zlength q = 31) as Hfull.
    { rewrite <- (Z.mod_small (cs_gotchars_tail c) 32) in E at 2 by lia. apply mod32_eq in E; lia. }
    rewrite (proj2 (Z.ltb_ge _ _)) by lia. exists c. split; [done|]. split; [by split|done].
  - assert (zlength q < 31) as Hlt.
    { destruct (Z.eq_dec (zlength q) 31) as [E31|]; [|lia]. exfalso. apply E. rewrite E31.
      replace (cs_gotchars_tail c + 31 + 1) with (cs_gotchars_tail c + 1 * 32) by lia.
      rewrite Z.mod_add by lia. by apply Z.mod_small. }
    rewrite (proj2 (Z.ltb_lt _ _)) by lia.
    pose proof (Z.mod_pos_bound (cs_gotchars_tail c + zlength q) 32 ltac:(lia)) as Hm.
    rewrite set_at_in_range by lia. mrun. eexists. split; [done|]. split; [|lia].
    split; cbn [cs_gotchars cs_gotchars_tail cs_gotchars_head cs_rsem set_rsem set_ring];
      rewrite ?zlength_insert, ?zlength_snoc; try done; try lia.
    + f_equal. lia.
    + intros i x Hi. destruct (decide (i < length q)%nat) as [Hlq|Hlq].
      * rewrite lookup_app_l in Hi by done. rewrite list_lookup_insert_ne; [by apply He|].
        intros E2%Z2Nat.inj; [|lia|apply Z.mod_pos_bound; lia].
        apply mod32_eq in E2; unfold zlength in *; lia.
      * rewrite lookup_app_r in Hi by lia. apply list_lookup_singleton_Some in Hi as [Hi <-].
        replace (Z.of_nat i) with (zlength q) by (unfold zlength; lia).
        apply list_lookup_insert_eq. unfold zlength in Hs. lia.
Qed.

Lemma take_char_spec ch c q :
  ring_rep c (ch :: q) -> exists c', take_char c = Ret (ch, c') /\ ring_rep c' q.
Proof.
  intros [Hs Ht Hh Hc Hf He]. rewrite zlength_cons in *. unfold take_char, CONSOLE_INPUT_BUFFER_SIZE. mrun.
  cbn [cs_gotchars cs_gotchars_tail set_rsem].
  pose proof (He 0%nat ch eq_refl) as H0. rewrite Z.add_0_r, Z.mod_small in H0 by lia.
  rewrite (get_at_lookup _ _ ch) by (done || lia). mrun. eexists. split; [done|].
  split; cbn [cs_gotchars cs_gotchars_tail cs_gotchars_head cs_rsem set_rsem set_ring]; try done; try lia.
  - apply Z.mod_pos_bound. lia.
  - rewrite Zplus_mod_idemp_l, Hh. f_equal. lia.
  - intros i x Hi. rewrite Zplus_mod_idemp_l.
    replace (cs_gotchars_tail c + 1 + Z.of_nat i) with (cs_gotchars_tail c + Z.of_nat (S i)) by lia.
    by apply He.
Qed.

(** What can happen: a key is pressed, or a reader takes a character if there
    is one. *)
Inductive event := Key (ch : Z) | Take.

Definition run_event (e : event) : M console (option Z) :=
  match e with
  | Key ch => do* con_input ch in ret None
  | Take =>
      let* c := get in
      if cs_rsem c =? 0 then ret None else let* ch := take_char in ret (Some ch)
  end.
Fixpoint run_events (es : list event) : M console (list (option Z)) :=
  match es with
  | [] => ret []
  | e :: es => let* a := run_event e in let* l := run_events es in ret (a :: l)
  end.

(** The same on a queue of at most 31 characters. *)
Definition queue_event (e : event) (q : list Z) : option Z * list Z :=
  match e, q with
  | Key ch, _ => (None, if zlength q <? 31 then q ++ [ch] else q)
  | Take, [] => (None, [])
  | Take, ch :: q => (Some ch, q)
  end.
Fixpoint queue_events (es : list event) (q : list Z) : list (option Z) * list Z :=
  match es with
  | [] => ([], q)
  | e :: es => let (a, q) := queue_event e q in let (l, q) := queue_events es q in (a :: l, q)
  end.


(** ** Output *)

(** What goes to the screen: a newline is preceded by a carriage return. *)
Definition crlf (l : list Z) : list Z :=
  flat_map (fun ch => if ch =? LF then [CR; LF] else [ch]) l.

(** The console after output [l], with the semaphore at [w]. *)
Definition shown (l : list Z) (w : Z) (c : console) : console :=
  mk_con (attached c) (delayed_outbuf c) (cs_rsem c) w (cs_gotchars c) (cs_gotchars_head c)
    (cs_gotchars_tail c) (con_userlock_read c) (con_userlock_write c) (polled c) (sent c ++ l).

Lemma shown_app l1 w1 l2 w2 c : shown l2 w2 (shown l1 w1 c) = shown (l1 ++ l2) w2 c.
Proof. unfold shown. cbn. by rewrite <- app_assoc. Qed.

Lemma putch_ok ch c :
  attached c = true -> 0 <= cs_wsem c ->
  exists w, putch ch c = Ret (tt, shown [ch] w c) /\ 0 <= w.
Proof.
  intros Ha Hw. unfold putch. mrun. rewrite Ha. cbn [negb]. destruct (polled c) eqn:Hp.
  - exists (cs_wsem c). split; [by destruct c|done].
  - unfold putch_intr, P_wsem. mrun. destruct (Z.eqb_spec (cs_wsem c) 0) as [E|E]; mrun.
    + exists 0. split; [|lia]. unfold shown, send, set_wsem. cbn. by rewrite E, ?Hp.
    + exists (cs_wsem c - 1). split; [|lia]. unfold shown, send, set_wsem. cbn. by rewrite ?Hp.
Qed.

Lemma on_con_ok {A} (m : M console A) s a c :
  m (con s) = Ret (a, c) -> on_con m s = Ret (a, mk_cio c (io s) (typed s)).
Proof. unfold on_con. by intros ->. Qed.
Lemma on_io_ok {A} (m : M xfer A) s a x :
  m (io s) = Ret (a, x) -> on_io m s = Ret (a, mk_cio (con s) x (typed s)).
Proof. unfold on_io. by intros ->. Qed.

(** The echo of one character. *)
Lemma echo_ok {A} ch s (k : M cio A) :
  attached (con s) = true -> 0 <= cs_wsem (con s) ->
  exists w, 0 <= w /\
    (do* (if ch =? LF then on_con (putch CR) else ret tt) in do* on_con (putch ch) in k) s =
    k (mk_cio (shown (crlf [ch]) w (con s)) (io s) (typed s)).
Proof.
  intros Ha Hw. unfold crlf. cbn [flat_map]. destruct (Z.eqb_spec ch LF) as [->|].
  - destruct (putch_ok CR (con s) Ha Hw) as (w1 & E1 & Hw1).
    rewrite (bind_ok _ _ _ _ _ (on_con_ok _ _ _ _ E1)).
    destruct (putch_ok LF (shown [CR] w1 (con s)) Ha Hw1) as (w2 & E2 & Hw2).
    rewrite (bind_ok _ _ _ _ _ (on_con_ok (putch LF) (mk_cio _ _ _) _ _ E2)).
    exists w2. split; [done|]. cbn [con]. by rewrite shown_app.
  - mrun. destruct (putch_ok ch (con s) Ha Hw) as (w & E & Hw').
    rewrite (bind_ok _ _ _ _ _ (on_con_ok _ _ _ _ E)). by exists w.
Qed.

(** ** The bytes of a user buffer *)

Section user.
Variables (curas : Z) (um : umem).

Definition user_uio (rw : uio_rw_t) (a : Z) (n : nat) (off : Z) : uio :=
  mk_uio [mk_iovec a [] (Z.of_nat n)] [] off (Z.of_nat n) UIO_USERSPACE rw curas.

Lemma user_uio_wf rw a n off : is_u32 a -> Z.of_nat n < two32 -> uio_wf (user_uio rw a n off).
Proof.
  intros Ha Hn. split; cbn; [|lia|lia]. apply list.Forall_cons. split; [|apply list.Forall_nil_2].
  split_and!; [cbn; lia|cbn; lia|done|done].
Qed.

Lemma user_lookup a : user_part um !! a = if a <? USERSPACETOP then um !! a else None.
Proof.
  unfold user_part. rewrite map_lookup_filter. destruct (um !! a) as [b|]; cbn; [|by destruct (a <? _)].
  destruct (Z.ltb_spec a USERSPACETOP); case_guard; cbn in *; try done; lia.
Qed.

(** Moving one byte out of the buffer. *)
Lemma user_byte a n off :
  is_u32 a -> Z.of_nat (S n) < two32 ->
  match user_part um !! a with
  | Some b => uiomove curas [0] 1 (mk_xfer (user_uio UIO_WRITE a (S n) off) um) =
      Ret (0, [b], mk_xfer (user_uio UIO_WRITE (a + 1) n (off + 1)) um)
  | None => exists buf x, uiomove curas [0] 1 (mk_xfer (user_uio UIO_WRITE a (S n) off) um) = Ret (EFAULT, buf, x)
  end.
Proof.
  intros Ha Hn.
  pose proof (uiomove_spec curas [0] 1 (mk_xfer (user_uio UIO_WRITE a (S n) off) um)
    (user_uio_wf _ _ _ _ Ha Hn) ltac:(done) ltac:(cbn; lia) eq_refl) as Hu.
  change (take (Z.to_nat 1) [0]) with [0] in Hu. change (drop (Z.to_nat 1) [0]) with (@nil Z) in Hu.
  rewrite user_lookup. cbn [steps] in Hu. unfold step1 in Hu.
  cbn [xu xm user_uio uio_iov uio_segflg uio_rw skip_empty iov_len iov_ubase iov_kbase] in Hu.
  rewrite (proj2 (Z.eqb_neq (Z.of_nat (S n)) 0)) in Hu by lia.
  cbn [iov_len iov_ubase iov_kbase] in Hu.
  destruct (Z.ltb_spec a USERSPACETOP) as [Hlt|]; [destruct (um !! a) as [b|]|].
  - cbn [steps app] in Hu. rewrite Hu. do 2 f_equal. unfold user_uio, advance. cbn [uio_done uio_offset uio_resid uio_segflg uio_rw uio_space iov_len iov_ubase iov_kbase app].
    unfold is_u32 in Ha. unfold USERSPACETOP, Coremap.MIPS_KSEG0 in Hlt.
    rewrite !w32_id by (unfold is_u32, two32 in *; lia). do 3 f_equal; [f_equal|]; lia.
  - destruct Hu as (_ & buf & x & E & _). by exists buf, x.
  - destruct Hu as (_ & buf & x & E & _). by exists buf, x.
Qed.

Lemma read_run_S (m : umem) a n b : m !! a = Some b -> read_run m a (S n) = b :: read_run m (a + 1) n.
Proof. intros E. cbn. by rewrite E. Qed.

(** The loop of [con_io] on such a buffer: the bytes up to the first that cannot
    be read. *)
Lemma con_write_user n fuel a off s :
  (n < fuel)%nat ->
  io s = mk_xfer (user_uio UIO_WRITE a n off) um -> is_u32 a -> Z.of_nat n < two32 ->
  attached (con s) = true -> 0 <= cs_wsem (con s) ->
  let l := read_run (user_part um) a n in
  exists w x, con_loop fuel curas s =
      Ret (Some (if (length l =? n)%nat then 0 else EFAULT), mk_cio (shown (crlf l) w (con s)) x (typed s)) /\
    0 <= w /\ (length l = n -> uio_resid (xu x) = 0 /\ xm x = um).
Proof.
  revert fuel a off s. induction n as [|n IH]; intros [|fuel] a off s Hfu Hio Ha Hn Hat Hw; cbn zeta; try lia.
  - exists (cs_wsem (con s)), (io s). cbn [con_loop]. mrun. rewrite Hio. cbn. split; [|done].
    unfold shown. rewrite app_nil_r. destruct s as [c ? ?]. cbn in *. subst. by destruct c.
  - cbn [con_loop]. mrun. rewrite Hio. cbn [xu user_uio uio_resid uio_rw].
    rewrite (proj2 (Z.ltb_lt 0 _)) by lia. pose proof (user_byte a n off Ha Hn) as Hb. rewrite <- Hio in Hb.
    destruct (user_part um !! a) as [b|] eqn:Eb.
    + rewrite (bind_ok _ _ _ _ _ (on_io_ok _ _ _ _ Hb)). cbn [Z.eqb negb]. change (get_at [b] 0) with (Ret b). mrun.
      set (s1 := mk_cio (con s) _ (typed s)).
      destruct (echo_ok b s1 (con_loop fuel curas) Hat Hw) as (w1 & Hw1 & ->).
      assert (Ha1 : is_u32 (a + 1)).
      { rewrite user_lookup in Eb. destruct (Z.ltb_spec a USERSPACETOP) as [Hlt|]; [|done].
        unfold USERSPACETOP, Coremap.MIPS_KSEG0 in Hlt. unfold is_u32, two32 in *. lia. }
      destruct (IH fuel (a + 1) (off + 1) (mk_cio (shown (crlf [b]) w1 (con s1)) (io s1) (typed s1)))
        as (w & x & E & Hw' & Hx); [lia|done|done|lia|done|done|].
      cbn zeta in E, Hx. rewrite E. rewrite (read_run_S _ _ _ _ Eb). cbn [length Nat.eqb con typed s1].
      exists w, x. rewrite shown_app. split; [|split; [done|intros [=]; auto]].
      do 4 f_equal. unfold crlf. cbn [flat_map]. by rewrite app_nil_r.
    + destruct Hb as (buf & x & Hb). rewrite (bind_ok _ _ _ _ _ (on_io_ok _ _ _ _ Hb)). cbn [EFAULT Z.eqb negb].
      cbn [read_run]. rewrite Eb. cbn [length Nat.eqb crlf flat_map]. exists (cs_wsem (con s)), x.
      split; [|done]. unfold shown. rewrite app_nil_r. destruct s as [c ? ?]. by destruct c.
Qed.

End user.

(** C19. [write] puts the user's bytes on the console.  For every buffer and
    length below 2^31, a write to standard output or standard error sends, after
    what has been sent before, exactly the bytes of the buffer in order, with a
    carriage return before each newline, and returns their number; when some
    byte of the buffer cannot be read, the bytes before the first such byte have
    been sent and the call fails with [EFAULT].  No other file descriptor sends
    anything ([EUNIMP]).  The lock is released, and the input side and, when the
    call succeeds, user memory are as before. *)
Theorem write_reaches_console curas fd ubuf n s
    (Hcon : attached (con s) = true) (Hsem : 0 <= cs_wsem (con s)) (Has : curas <> 0)
    (Hbuf : is_u32 ubuf) (Hn : 0 <= n < 2147483648) :
  let std := (fd =? STDOUT_FILENO) || (fd =? STDERR_FILENO) in
  let l := read_run (user_part (xm (io s))) ubuf (Z.to_nat n) in
  exists s' w, sys_write curas fd ubuf n s =
      Ret (Some (if negb std then (EUNIMP, 0) else if zlength l =? n then (0, n) else (EFAULT, 0)), s') /\
    (if std then con s' = shown (crlf l) w (set_locks (con_userlock_read (con s)) false (con s)) else s' = s) /\
    typed s' = typed s /\ (zlength l = n -> xm (io s') = xm (io s)).
Proof.
  intros std l. unfold sys_write. fold std. destruct std; cbn [negb].
  2: { by exists s, 0. }
  rewrite (proj2 (Z.eqb_neq curas 0)) by done. cbn [negb]. mrun.
  set (c1 := set_locks (con_userlock_read (con s)) true (con s)).
  set (s1 := mk_cio c1 (mk_xfer (user_uio curas UIO_WRITE ubuf (Z.to_nat n) 0) (xm (io s))) (typed s)).
  destruct (con_write_user curas (xm (io s)) (Z.to_nat n) (S (Z.to_nat n)) ubuf 0 s1)
    as (w & x & E & Hw & Hx); [lia|done|done|unfold two32; lia|done|done|]. cbn zeta in E, Hx. fold l in E, Hx.
  assert (Ec : con_io curas (mk_cio (con s) (io s1) (typed s)) =
    Ret (Some (if (length l =? Z.to_nat n)%nat then 0 else EFAULT),
         mk_cio (shown (crlf l) w (set_locks (con_userlock_read (con s)) false (con s))) x (typed s))).
  { unfold con_io. mrun. cbn [con]. rewrite Hcon. mrun.
    rewrite (bind_ok _ _ _ _ _ (on_con_ok (modify (set_lock UIO_WRITE true)) (mk_cio (con s) (io s1) (typed s)) tt c1 eq_refl)).
    cbn [io s1 xu user_uio uio_resid]. rewrite Nat2Z.id. cbn [io s1] in E |- *.
    rewrite (bind_ok _ _ _ _ _ E). done. }
  assert (Hu : mk_uio [mk_iovec ubuf [] n] [] 0 n UIO_USERSPACE UIO_WRITE curas =
               user_uio curas UIO_WRITE ubuf (Z.to_nat n) 0) by (unfold user_uio; by rewrite Z2Nat.id by lia).
  rewrite Hu. unfold dev_write.
  mrun. cbn [io xu user_uio uio_rw].
  cbn [io s1] in Ec. rewrite (bind_ok _ _ _ _ _ Ec).
  eexists _, w.
  assert (Hl : (zlength l =? n) = (length l =? Z.to_nat n)%nat).
  { unfold zlength. destruct (Z.eqb_spec (Z.of_nat (length l)) n), (Nat.eqb_spec (length l) (Z.to_nat n)); lia || done. }
  rewrite Hl. destruct (Nat.eqb_spec (length l) (Z.to_nat n)) as [He|He]; cbn [Z.eqb EFAULT negb].
  - mrun. cbn [io]. destruct (Hx He) as [-> Hm]. rewrite Z.sub_0_r, s32_id by (unfold is_s32; lia).
    rewrite (proj2 (Z.leb_le 0 n)) by lia. mrun. split; [done|]. split; [done|]. by split.
  - split; [done|]. split; [done|]. split; [done|]. unfold zlength. lia.
Qed.

(** ** Reading a line *)

Definition output_side (c : console) :=
  (attached c, delayed_outbuf c, cs_wsem c, con_userlock_read c, con_userlock_write c, polled c, sent c).

Lemma con_input_frame ch c u c' : con_input ch c = Ret (u, c') -> output_side c' = output_side c.
Proof.
  unfold con_input. mrun. case_match; [by intros [= _ <-]|]. intros E. minv. done.
Qed.
Lemma take_char_frame c ch c' : take_char c = Ret (ch, c') -> output_side c' = output_side c.
Proof. unfold take_char. mrun. intros E. minv. done. Qed.

Lemma getch_typed ch r s :
  ring_rep (con s) [] -> typed s = ch :: r -> attached (con s) = true -> polled (con s) = false ->
  exists c, getch s = Ret (Some ch, mk_cio c (io s) r) /\ ring_rep c [] /\ output_side c = output_side (con s).
Proof.
  intros Hr Ht Ha Hp. unfold getch, getch_intr. mrun. rewrite Ha, Hp. cbn [negb]. mrun.
  rewrite (rr_count _ _ Hr), Ht. change (zlength (@nil Z) =? 0) with true. cbn iota. mrun.
  destruct (con_input_spec ch (con s) [] Hr) as (c1 & E1 & Hr1 & _).
  rewrite (bind_ok _ _ _ _ _ (on_con_ok (con_input ch) (mk_cio (con s) (io s) r) _ _ E1)).
  destruct (take_char_spec ch c1 [] Hr1) as (c2 & E2 & Hr2).
  rewrite (bind_ok _ _ _ _ _ (on_con_ok take_char (mk_cio c1 (io s) r) _ _ E2)).
  exists c2. split; [done|]. split; [done|].
  by rewrite (take_char_frame _ _ _ E2), (con_input_frame _ _ _ _ E1).
Qed.

(** Moving one byte into a user buffer. *)
Lemma user_store curas um b a n off :
  is_u32 a -> Z.of_nat (S n) < two32 -> is_Some (user_part um !! a) ->
  uiomove curas [b] 1 (mk_xfer (user_uio curas UIO_READ a (S n) off) um) =
  Ret (0, [b], mk_xfer (user_uio curas UIO_READ (a + 1) n (off + 1)) (<[a := b]> um)).
Proof.
  intros Ha Hn [y Hy].
  pose proof (uiomove_spec curas [b] 1 (mk_xfer (user_uio curas UIO_READ a (S n) off) um)
    (user_uio_wf _ _ _ _ _ Ha Hn) ltac:(done) ltac:(cbn; lia) eq_refl) as Hu.
  change (take (Z.to_nat 1) [b]) with [b] in Hu. change (drop (Z.to_nat 1) [b]) with (@nil Z) in Hu.
  rewrite user_lookup in Hy. cbn [steps] in Hu. unfold step1 in Hu.
  cbn [xu xm user_uio uio_iov uio_segflg uio_rw skip_empty iov_len iov_ubase iov_kbase] in Hu.
  rewrite (proj2 (Z.eqb_neq (Z.of_nat (S n)) 0)) in Hu by lia. cbn [iov_len iov_ubase iov_kbase] in Hu.
  destruct (Z.ltb_spec a USERSPACETOP) as [Hlt|]; [|done]. rewrite Hy in Hu. cbn [steps app] in Hu.
  rewrite Hu. do 2 f_equal. unfold user_uio, advance.
  cbn [uio_done uio_offset uio_resid uio_segflg uio_rw uio_space iov_len iov_ubase iov_kbase app].
  unfold is_u32 in Ha. unfold USERSPACETOP, Coremap.MIPS_KSEG0 in Hlt.
  rewrite !w32_id by (unfold is_u32, two32 in *; lia). do 3 f_equal; [f_equal|]; lia.
Qed.

(** Every byte of a range can be stored. *)
Definition can_store (um : umem) (a : Z) (n : nat) : Prop :=
  forall i : nat, (i < n)%nat -> is_Some (user_part um !! (a + Z.of_nat i)).

Lemma can_store_next um a n b : can_store um a (S n) -> can_store (<[a := b]> um) (a + 1) n.
Proof.
  intros Hc i Hi. specialize (Hc (S i) ltac:(lia)). rewrite user_lookup in Hc |- *.
  replace (a + 1 + Z.of_nat i) with (a + Z.of_nat (S i)) by lia. rewrite lookup_insert_ne by lia. done.
Qed.

Lemma can_store_head um a n :
  can_store um a (S n) -> is_Some (user_part um !! a) /\ a < USERSPACETOP /\ is_Some (um !! a).
Proof.
  intros Hc. specialize (Hc 0%nat ltac:(lia)). rewrite Z.add_0_r in Hc. split; [done|].
  rewrite user_lookup in Hc. destruct (Z.ltb_spec a USERSPACETOP); [done|]. by destruct Hc.
Qed.

Lemma con_read_user curas line term rest n fuel a off um s :
  (n < fuel)%nat -> io s = mk_xfer (user_uio curas UIO_READ a n off) um -> typed s = line ++ term :: rest ->
  ring_rep (con s) [] -> attached (con s) = true -> polled (con s) = false ->
  Forall (fun ch => ch <> CR /\ ch <> LF) line -> term = CR \/ term = LF -> (length line < n)%nat ->
  is_u32 a -> Z.of_nat n < two32 -> can_store um a (S (length line)) ->
  exists c u, con_loop fuel curas s =
      Ret (Some 0, mk_cio c (mk_xfer u (write_run um a (line ++ [LF])).1) rest) /\
    ring_rep c [] /\ output_side c = output_side (con s).
Proof.
  revert n fuel a off um s. induction line as [|ch line IH];
    intros [|n] [|fuel] a off um s Hfu Hio Ht Hr Ha Hp Hline Hterm Hn Hu Hlt Hst; cbn [length] in *; try lia;
    destruct (can_store_head _ _ _ Hst) as (Hs1 & Htop & [y Hy]); cbn [con_loop app write_run]; rewrite Hy; mrun;
    rewrite Hio; cbn [xu user_uio uio_resid uio_rw]; rewrite (proj2 (Z.ltb_lt 0 _)) by lia.
  - destruct (getch_typed term rest s Hr Ht Ha Hp) as (c & E & Hrc & Hoc).
    rewrite (bind_ok _ _ _ _ _ E). cbn beta iota.
    assert ((if term =? CR then LF else term) = LF) as -> by (by destruct Hterm as [-> | ->]).
    rewrite (bind_ok _ _ _ _ _ (on_io_ok (uiomove curas [LF] 1) (mk_cio c (io s) rest) _ _
      ltac:(cbn [io]; rewrite Hio; by apply user_store))).
    cbn. by eexists c, _.
  - apply list.Forall_cons in Hline as [[Hcr Hlf] Hline].
    destruct (getch_typed ch (line ++ term :: rest) s Hr Ht Ha Hp) as (c & E & Hrc & Hoc).
    rewrite (bind_ok _ _ _ _ _ E). cbn beta iota. rewrite (proj2 (Z.eqb_neq ch CR)) by done.
    rewrite (bind_ok _ _ _ _ _ (on_io_ok (uiomove curas [ch] 1) (mk_cio c (io s) (line ++ term :: rest)) _ _
      ltac:(cbn [io]; rewrite Hio; by apply user_store))).
    cbn [Z.eqb negb]. rewrite (proj2 (Z.eqb_neq ch LF)) by done.
    pose proof Hoc as Hoc'. injection Hoc' as Ea _ _ _ _ Ep _.
    destruct (IH n fuel (a + 1) (off + 1) (<[a := ch]> um)
      (mk_cio c (mk_xfer (user_uio curas UIO_READ (a + 1) n (off + 1)) (<[a := ch]> um)) (line ++ term :: rest)))
      as (c' & u & E' & Hr' & Ho'); [lia|done|done|done|by cbn; rewrite Ea|by cbn; rewrite Ep|done|done|lia| |lia|by apply can_store_next|].
    { unfold USERSPACETOP, Coremap.MIPS_KSEG0 in Htop. unfold is_u32, two32 in *. lia. }
    exists c', u. split; [exact E'|]. split; [done|]. by rewrite Ho'.
Qed.


(** ** A console at work *)

Definition demo_con (g : list Z) (h t n : Z) : console :=
  mk_con true [] n 1 g h t false false false [62].
Definition demo_um : umem := <[8192 := 72]> (<[8193 := 10]> (<[8194 := 33]> ∅)).


(** "H", newline, "!", and a fourth byte that is not mapped. *)
Lemma write_reaches_console_witness :
  (exists s', sys_write 5 1 8192 3 (mk_cio (demo_con (replicate 32 0) 0 0 0) (mk_xfer (user_uio 5 UIO_READ 0 0 0) demo_um) []) =
     Ret (Some (0, 3), s') /\ sent (con s') = [62; 72; 13; 10; 33]) /\
  (exists s', sys_write 5 2 8192 4 (mk_cio (demo_con (replicate 32 0) 0 0 0) (mk_xfer (user_uio 5 UIO_READ 0 0 0) demo_um) []) =
     Ret (Some (EFAULT, 0), s') /\ sent (con s') = [62; 72; 13; 10; 33]).
Proof.
  set (s := mk_cio (demo_con (replicate 32 0) 0 0 0) (mk_xfer (user_uio 5 UIO_READ 0 0 0) demo_um) []). split.
  - destruct (write_reaches_console 5 1 8192 3 s) as (s' & w & E & Hc & _);
      [reflexivity|cbn; lia|lia|split; [discriminate|reflexivity]|lia|].
    exists s'. split; [exact E|]. cbn [Z.eqb orb STDOUT_FILENO Pos.eqb] in Hc. rewrite Hc. reflexivity.
  - destruct (write_reaches_console 5 2 8192 4 s) as (s' & w & E & Hc & _);
      [reflexivity|cbn; lia|lia|split; [discriminate|reflexivity]|lia|].
    exists s'. split; [exact E|]. cbn [Z.eqb orb STDOUT_FILENO STDERR_FILENO Pos.eqb] in Hc. rewrite Hc. reflexivity.
Defined.

